(* ===== verification/_CoqProject ===== *)
-Q . S2P
Prelude.v
GoStrings.v
GoTime.v
TaskRuns.v
GoHash.v
GoFloat.v
GoPath.v
GoBase64.v
Schedule.v
Cron.v
Scheduler.v
ScheduleWrite.v
ScheduleStore.v
ScheduleList.v
SchedulePoller.v
WaitTokens.v
Auth.v
Policy.v
AccessControl.v
Identity.v
PosixIdentity.v
PosixHelper.v
SkillDocument.v
LearningStore.v
Persona.v
Reflection.v
HeldCalls.v
ApprovalGate.v
ConnectorEvents.v
PendingRequests.v
ConnectorQueue.v
MemoryLayers.v
Engagement.v
AskingThreads.v
ConversationTasks.v
GatewayBursts.v
Attachments.v
TurnLaunch.v
Delivery.v
Intake.v
GoText.v
FileEdits.v
FileTools.v
PosixShell.v
Capabilities.v
CommandPlans.v
ShellSessions.v
PosixSynchronizer.v
LedgerSearch.v
RuntimeControl.v
CliHarness.v
AcpHarness.v
ToolCatalog.v
