(* ===== verification/Prelude.v ===== *)
(** * blueclaw: a verification development

    blueclaw runs agent harnesses for the people of a company: it knows the
    person behind every message, what that person may use, which tool calls wait
    for an approval, what runs on a schedule, and what may be learned from
    finished work.  This library models that logic, as the Go code under
    [src/internal] has it, and proves what makes it correct.

    ** The program and the files that model it

    Go itself.
    - [Prelude.v], [GoStrings.v], [GoText.v], [GoTime.v], [GoPath.v], [GoHash.v],
      [GoBase64.v], [GoFloat.v]: results with errors, 64-bit integers with their
      wrap-around ([wrap64]), stable sorts, maps filled by a loop; strings as
      bytes with UTF-8 decoding and the functions of [strings], [unicode/utf8] and
      [strconv] that are used; instants, durations, the calendar, RFC 3339; paths;
      SHA-1, SHA-256 and hexadecimal text; base64; binary64 numbers.  The case
      tables of [unicode] above ASCII and the time zone database are data: classes
      ([UnicodeTables] with its laws, and [TimeZoneDatabase]) carry them.

    Schedules ([internal/task], [internal/scheduler], [store/postgres]).
    - [Schedule.v], [Cron.v], [Scheduler.v]: the record of a schedule, the cron
      parser and its search, and the cadence: [InitializeSchedule],
      [AdvanceSchedule], due times, limits.
    - [ScheduleWrite.v], [ScheduleList.v]: the writers, which build, check and
      update a schedule and keep the limit of open ones, on the interface of the
      repository; pages of the list and the resolution of a hint.
    - [ScheduleStore.v]: the table in Postgres, each statement a function on it.
    - [SchedulePoller.v]: the poller claims due schedules, runs and settles them,
      on the table, among other sessions, failing statements and crashes.

    Who people are and what they may do ([internal/policy], [internal/access],
    [internal/identity], [internal/auth], [internal/security]).
    - [Policy.v], [AccessControl.v], [Identity.v], [Auth.v]: the policy document
      and its projection, the decision on a request, who an email or an account
      belongs to, magic links and sessions.  Identity loads the tables of the policy,
      and access decides on what identity says of a person.
    - [PosixIdentity.v], [PosixSynchronizer.v], [PosixHelper.v]: the Linux users,
      groups and directories a policy asks for, how the system is made to follow,
      and the helper that runs as root ([cmd/blueclaw-posix-helper]).
    - [CommandPlans.v], [ShellSessions.v]: what is run for a command of a
      requester, and the terminal sessions.

    Learning, persona and memory ([internal/learning], [internal/persona],
    [internal/skill], [internal/memory]).
    - [SkillDocument.v], [LearningStore.v], [Persona.v], [Reflection.v]: SKILL.md
      documents, the store of learned skills, the documents of the persona and the
      ledger of the soul, and the review of finished work that may change them.
    - [MemoryLayers.v]: which layers of memory a turn reads and writes.

    Approvals ([internal/approvalgate], [internal/approvalreply]).
    - [HeldCalls.v], [ApprovalGate.v]: which calls wait for an approval, how they
      are held, asked about, settled, deferred and redeemed.
    - [AskingThreads.v]: how a reply in a conversation answers the question.
    - [WaitTokens.v]: the questions a task waits on.

    Connectors ([internal/connectors], [internal/inboundengagement]).
    - [ConnectorEvents.v], [ConnectorQueue.v]: the queue of messages and replies in
      Postgres, and its workers, which run on it.
    - [PendingRequests.v], [GatewayBursts.v], [Engagement.v]: messages that revise
      each other, the bursts they are judged in, and the judgment.
    - [TaskRuns.v], [ConversationTasks.v], [Attachments.v], [TurnLaunch.v],
      [Delivery.v]: the runs of a conversation, the files of a message, the request a
      turn is launched with, and the sending of its reply.
    - [Intake.v]: a message from its arrival to its reply; it calls all of these.

    The agent runtime ([internal/agentruntime], [internal/acpharness],
    [internal/cliharness], [internal/mcpserver], [internal/harnessselection],
    [internal/runtimecontrol], [internal/sessionquery]).
    - [FileEdits.v], [FileTools.v], [PosixShell.v]: the file tools: windows and
      edits of a text, the handlers, and what they do to the files through a shell.
    - [Capabilities.v]: calls of the capabilities of the device.
    - [CliHarness.v], [AcpHarness.v], [ToolCatalog.v]: turns of agents that are
      other programs, the tokens and the catalog of the tools they are served, and which
      harness a deployment runs.
    - [LedgerSearch.v], [RuntimeControl.v]: searching a person's runs; holding work
      while the clock is not trusted or the service is quiesced.

    ** How the code is modelled

    Structs are records, enumerations inductive types, string types with open
    values strings.  A method that changes a struct is a function from state to
    state; an error is a value of [result], one constructor per error value where
    the code tells them apart, its text otherwise.  What the code reads from the
    world is an argument: [time.Now()], a generated identifier, how a write to disk
    goes, the order in which a map is visited.
    - A mutex makes the method it guards one step; where a lock is given up in the
      middle, the pieces are the steps of a relation and any other work may fall
      between them ([Reflection], [PendingRequests], [AskingThreads]).
    - Pointers that several places hold are addresses in a heap ([PendingRequests]);
      other slices and maps are values, as the code clones them before it changes a
      shared one.
    - A statement or transaction of Postgres is a function on the store of its
      tables, with the constraints of the migrations; the claims of other sessions and
      failing statements are arguments ([ScheduleStore], [ConnectorEvents]) or an
      environment that may act at each step ([SchedulePoller]).
    - What runs outside the service - a shell, an agent, a chat platform, the task
      launcher - is a class of functions on a world, with what is relied on as a class of
      laws, or a script of what it does that the theorems quantify over
      ([LaunchRun] in [Intake], [AgentScript] in [AcpHarness]).
    - Code that is not in the repository - the protocol library (task runs, holds,
      tool contracts), encoding/json, language models - is a parameter: a class
      or an argument.  SHA-256 is a parameter where only its injectivity matters
      ([Auth], [Reflection]) and computed where its text is read ([GoHash]).
    Instances of the classes, on small concrete worlds, carry the witnesses.

    ** What the theorems show

    - Schedules: a schedule never runs past its run limit, its expiry or, if it
      runs once, its one run, however the poller looks; an approved call runs once
      whatever fails and whoever polls; each turn of the poller settles as the
      abstract cycle decides, and a schedule that keeps failing is given up; the table
      stays sound, claims are exclusive, and only one's own schedules change; the cron
      parser is total and the search exact; the one case in which the loop of an
      interval does not end is characterised; writing, listing and hints.
    - Access: canonical policies and the decision on a request in full; emails
      and accounts name the person the policy says; a magic link signs in once.  The
      state of users and groups isolates people; numbers of the helper are kept; a
      command that is planned for a requester runs, after the helper has checked its caller and read
      it, as the requester, with nothing a request may not set.
    - Approvals: no call that needs an approval proceeds without one; a held call is
      redeemed only as it was approved, by its requester, once; a reply approves only
      what it says, and a thread that was opened for a question takes one answer.
    - Connectors: the queue in memory and the table agree (save where a message that
      memory dropped is claimed again and revises one that waits); a claimed message is
      settled or given up; revised messages stay settled; requests that wait never
      panic or deadlock and carry every message; bursts judge each message once;
      a message is admitted, judged and launched for its sender alone, strangers start
      nothing, and second copies launch nothing; what is said of a run follows what
      became of it, and its last reply is said once, or its failure recorded.
    - Agent runtime: the pieces of a file make the file, an edit changes one
      place, a patch is all or nothing; a capability is called only as it is allowed; an
      agent runs as its requester with the tools of its requester, in whichever harness a deployment
      selects, its token ends with the turn, what a person says before its last answer reaches it, its records
      are taken once and its permissions recorded; work waits for the clock; a search is exact.
    - Learning and memory: operations of the store are steps of an abstract
      lifecycle; no experience is lost; a review changes nothing of another audience; what
      is heard stays among those in the room, where no two people share a Linux name.

    Where the code departs from what it means to do, a lemma under a heading of
    its own shows it on a concrete input or in general ([interval_of_2_55_seconds_hangs],
    [padded_hold_is_redeemed_again], [late_steers_are_not_prompted] and others).

    ** Bounds and fuel

    - [addCronExpressionValues] runs on [cron_segment_fuel] = 128 turns: a field
      has at most 60 values, and a step that wraps leaves the range within the
      turns left; [parseCronExpression_total] proves that this is enough.
    - [searchNextRunAt] runs on one turn for each minute up to its limit
      ([search_fuel]); [findNextRunAt_exact] says what its two ends mean.
    - [advanceToReference] runs on the turns a positive interval needs
      ([interval_fuel]); that it ends, and exactly when it never does, is
      [interval_loop_ends_iff].
    - UTF-8 decoding and the parsing of flags run on the length of their input, folding
      of letters on eight turns, more than the longest orbit of the tables has.
    - Reading a file falls back from one way of reading to another, and a capability call
      is repeated once with the approved input: the fuel is the number of ways, and two.
    - Loops over what others do (the prompts of a turn, the ticks of a clock, the
      rounds of a worker) are recursions over the list of what happens.
    - Years are those of four digits where a date is printed or parsed.

    ** Not modelled

    Repositories of the other tables, HTTP handlers and APIs, the chat
    bridge and the wording of replies by language models, the default harness (the agent loop
    of another library), the launcher of turns and the tools other than files and
    capabilities, backup, enrolment, the terminal and admin clients: they are I/O around
    the logic above, or rest on code outside the repository.  The timing of workers,
    tickers and deadlines appears only as the order of what happens.  Logging is left out. *)

From Stdlib Require Export ZArith Lia Ascii String.
From Stdlib Require Export Sorting.Sorted.
From stdpp Require Export base tactics list gmap strings sorting.

(** ** Go's [(value, error)] results *)

Inductive result (E A : Type) : Type :=
| Ok (a : A)
| Err (e : E).
Arguments Ok {E A} _.
Arguments Err {E A} _.

Global Instance result_mret {E} : MRet (result E) := fun _ a => Ok a.
Global Instance result_mbind {E} : MBind (result E) :=
  fun _ _ k m => match m with Ok a => k a | Err e => Err e end.

Definition is_ok {E A} (r : result E A) : bool :=
  match r with Ok _ => true | Err _ => false end.

(** [err when b with e]: an early return of [e] when the guard [b] holds. *)
Definition refuse_if {E} (b : bool) (e : E) : result E unit :=
  if b then Err e else Ok tt.

Lemma is_ok_true {E A} (r : result E A) : is_ok r = true <-> exists a, r = Ok a.
Proof. destruct r; cbn; split; [eauto|done|done|by intros []]. Qed.

(** [injection] would compute the values. *)
Lemma Ok_inj {E A} (a b : A) : @Ok E A a = Ok b -> a = b.
Proof. congruence. Qed.

Section result_lemmas.
Context {E A B : Type}.
Implicit Types (m : result E A) (k : A -> result E B).

Lemma bind_Ok m k b :
  m ≫= k = Ok b <-> exists a, m = Ok a /\ k a = Ok b.
Proof.
  destruct m as [a|e]; cbn; split; eauto; try done.
  - by intros (? & [= <-] & ?).
  - by intros (? & ? & ?).
Qed.

Lemma bind_Err m k e :
  m ≫= k = Err e <-> m = Err e \/ exists a, m = Ok a /\ k a = Err e.
Proof.
  destruct m as [a|e']; cbn; split.
  - intros; right; eauto.
  - by intros [?|(? & [= <-] & ?)].
  - intros [= ->]; by left.
  - by intros [[= ->]|(? & ? & ?)].
Qed.

Lemma refuse_if_Ok (b : bool) (e : E) u :
  refuse_if b e = Ok u <-> b = false.
Proof. by destruct b, u. Qed.

Lemma refuse_if_Err (b : bool) (e e' : E) :
  refuse_if b e = Err e' <-> b = true /\ e = e'.
Proof.
  destruct b; cbn; split; [by intros [= ->]|by intros [_ ->]|done|by intros [? _]].
Qed.
End result_lemmas.

(** ** Machine integers: Go's [int], [int64] and [time.Duration] *)

Definition int64_min : Z := - 2 ^ 63.
Definition int64_max : Z := 2 ^ 63 - 1.

Definition wrap64 (z : Z) : Z := (z + 2 ^ 63) mod 2 ^ 64 - 2 ^ 63.

Definition in_int64 (z : Z) : bool := (int64_min <=? z)%Z && (z <=? int64_max)%Z.

Lemma wrap64_id z : (int64_min <= z <= int64_max)%Z -> wrap64 z = z.
Proof.
  unfold wrap64, int64_min, int64_max; intros H.
  rewrite Z.mod_small by lia; lia.
Qed.

Lemma wrap64_range z : (int64_min <= wrap64 z <= int64_max)%Z.
Proof.
  unfold wrap64, int64_min, int64_max.
  pose proof (Z.mod_pos_bound (z + 2 ^ 63) (2 ^ 64) ltac:(lia)); lia.
Qed.

(** A value one step above the range re-enters it from below. *)
Lemma wrap64_above z :
  (int64_max < z <= int64_max + 2 ^ 64)%Z -> wrap64 z = (z - 2 ^ 64)%Z.
Proof.
  unfold wrap64, int64_max; intros H.
  rewrite <- (Z.mod_unique (z + 2 ^ 63) (2 ^ 64) 1 (z + 2 ^ 63 - 2 ^ 64)); lia.
Qed.

(** ** Booleans *)

Lemma negb_eq_true b : negb b = true <-> b = false.
Proof. destruct b; naive_solver. Qed.

Lemma negb_eq_false b : negb b = false <-> b = true.
Proof. destruct b; naive_solver. Qed.

Lemma bool_decide_false_iff (P : Prop) `{Decision P} :
  bool_decide P = false <-> ~ P.
Proof. apply bool_decide_eq_false. Qed.

(** ** Tactics *)

(** Turn boolean tests of the code into propositions, everywhere. *)
Ltac bool_to_prop :=
  repeat match goal with
  | H : _ && _ = true |- _ => apply andb_true_iff in H; destruct H
  | H : _ || _ = false |- _ => apply orb_false_iff in H; destruct H
  | H : negb _ = true |- _ => apply negb_eq_true in H
  | H : negb _ = false |- _ => apply negb_eq_false in H
  | H : (_ =? _)%Z = true |- _ => apply Z.eqb_eq in H
  | H : (_ =? _)%Z = false |- _ => apply Z.eqb_neq in H
  | H : (_ <? _)%Z = true |- _ => apply Z.ltb_lt in H
  | H : (_ <? _)%Z = false |- _ => apply Z.ltb_ge in H
  | H : (_ <=? _)%Z = true |- _ => apply Z.leb_le in H
  | H : (_ <=? _)%Z = false |- _ => apply Z.leb_gt in H
  | H : bool_decide _ = true |- _ => apply bool_decide_eq_true in H
  | H : bool_decide _ = false |- _ => apply bool_decide_eq_false in H
  end.

(** Take a successful run of a handler apart: binds, early returns. *)
Ltac run_inv :=
  repeat match goal with
  | H : Ok _ = Ok _ |- _ => injection H as ?; subst
  | H : Err _ = Err _ |- _ => injection H as ?; subst
  | H : Ok _ = Err _ |- _ => discriminate H
  | H : Err _ = Ok _ |- _ => discriminate H
  | H : mret _ = Ok _ |- _ => injection H as ?; subst
  | H : _ ≫= _ = Ok _ |- _ => apply bind_Ok in H; destruct H as (? & ? & H)
  | H : refuse_if _ _ = Ok _ |- _ => apply refuse_if_Ok in H
  end.

(** Split on the first test of the goal that is a [match]. *)
Ltac split_match :=
  match goal with
  | |- context [match ?x with _ => _ end] => destruct x eqn:?
  end.

Ltac split_match_in H :=
  match type of H with
  | context [match ?x with _ => _ end] => destruct x eqn:?
  end.

(** Linear arithmetic with division and remainder by constants. *)
Ltac div_lia := Z.to_euclidean_division_equations; lia.

(** ** Hints *)

Create HintDb go.
Create Rewrite HintDb go.
#[export] Hint Resolve wrap64_range : go.

(** ** Lists *)

Section list_lemmas.
Context {A : Type}.
Implicit Types (l : list A).

(** Go's [l[len(l)-1]]. *)
Definition last_or (d : A) (l : list A) : A := List.last l d.

(** A list with a last element is its front and that element. *)
Lemma last_Some_snoc l x : last l = Some x -> exists l', l = l' ++ [x].
Proof.
  destruct l as [|y l' _] using rev_ind; [done|].
  rewrite last_snoc; intros [= ->]; by exists l'.
Qed.

(** Replace the last element ([l[len(l)-1].field = ...]). *)
Definition set_last (f : A -> A) (l : list A) : list A :=
  match rev l with [] => [] | x :: r => rev (f x :: r) end.

Lemma set_last_snoc f l x : set_last f (l ++ [x]) = l ++ [f x].
Proof. unfold set_last; rewrite rev_unit; cbn; by rewrite rev_involutive. Qed.

Lemma set_last_length f l : length (set_last f l) = length l.
Proof.
  destruct l as [|x l _] using rev_ind; [done|].
  rewrite set_last_snoc, !length_app; done.
Qed.

Lemma last_set_last f l : last (set_last f l) = f <$> last l.
Proof.
  destruct l as [|x l _] using rev_ind; [done|].
  by rewrite set_last_snoc, !last_snoc.
Qed.

(** [existsb]/[forallb] over [∈]. *)
Lemma existsb_elem_of (f : A -> bool) l :
  existsb f l = true <-> exists x, x ∈ l /\ f x = true.
Proof.
  rewrite existsb_exists; split; intros (x & Hx & Hf); exists x;
    (split; [by apply list_elem_of_In|done]).
Qed.

Lemma forallb_elem_of (f : A -> bool) l :
  forallb f l = true <-> forall x, x ∈ l -> f x = true.
Proof.
  rewrite forallb_forall; split; intros H x Hx; apply H; by apply list_elem_of_In.
Qed.
End list_lemmas.

(** ** Distinct values *)

Section distinct_values.
Context (f : string -> string).

(** [for _, value := range values { v := f(value); if v == "" || seen[v] {
    continue }; seen[v] = true; result = append(result, v) }] *)
Fixpoint distinct_by (seen : gset string) (values : list string) : list string :=
  match values with
  | [] => []
  | value :: values' =>
    if bool_decide (f value = ""%string) || bool_decide (f value ∈ seen) then distinct_by seen values'
    else f value :: distinct_by ({[f value]} ∪ seen) values'
  end.

Lemma distinct_by_elem seen values x :
  x ∈ distinct_by seen values <->
  x <> ""%string /\ (x ∉ seen) /\ (exists v, v ∈ values /\ f v = x).
Proof.
  revert seen; induction values as [|v values IH]; intros seen; cbn [distinct_by].
  { split; [by intros ?%elem_of_nil|by intros (_ & _ & v & ?%elem_of_nil & _)]. }
  destruct (bool_decide (f v = ""%string) || bool_decide (f v ∈ seen)) eqn:Hskip.
  - rewrite IH; split; intros (Hne & Hs & w & Hw & <-); split_and!; try done.
    + exists w; split; [by right|done].
    + apply elem_of_cons in Hw as [->|Hw]; [|by exists w].
      apply orb_true_iff in Hskip as [?|?]; bool_to_prop; done.
  - bool_to_prop; rewrite elem_of_cons, IH, not_elem_of_union, not_elem_of_singleton; split.
    + intros [->|(Hne & [Hx Hs] & w & Hw & <-)]; [|by split_and!; [..|exists w; split; [right|]]].
      split_and!; [done..|exists v; split; [by left|done]].
    + intros (Hne & Hs & w & Hw & <-).
      destruct (decide (f w = f v)) as [He|He]; [by left|right].
      apply elem_of_cons in Hw as [->|Hw]; [done|]; split_and!; [done..|by exists w].
Qed.

Lemma distinct_by_NoDup seen values : NoDup (distinct_by seen values).
Proof.
  revert seen; induction values as [|v values IH]; intros seen; cbn; [constructor|].
  destruct (_ || _); [apply IH|]; apply NoDup_cons; split; [|apply IH].
  rewrite distinct_by_elem; intros (_ & Hs & _); apply Hs.
  by apply elem_of_union_l, elem_of_singleton.
Qed.
End distinct_values.

(** ** Stable sorting ([sort.SliceStable], [sort.Slice] on distinct elements) *)

Section stable_sort.
Context {A : Type} (before : A -> A -> bool).

Fixpoint insert_stable (x : A) (l : list A) : list A :=
  match l with
  | [] => [x]
  | y :: l' => if before y x then y :: insert_stable x l' else x :: l
  end.

(** The stable sort of a list by a strict order. *)
Fixpoint stable_sort (l : list A) : list A :=
  match l with
  | [] => []
  | x :: l' => insert_stable x (stable_sort l')
  end.

Definition sorted_by (l : list A) : Prop := StronglySorted (fun x y => before x y = true) l.

Lemma insert_stable_perm x l : insert_stable x l ≡ₚ x :: l.
Proof.
  induction l as [|y l IH]; [done|]; cbn; destruct (before y x); [|done].
  rewrite IH; apply perm_swap.
Qed.

Lemma stable_sort_perm l : stable_sort l ≡ₚ l.
Proof. induction l as [|x l IH]; [done|]; cbn; by rewrite insert_stable_perm, IH. Qed.

Hypothesis before_trans : forall x y z, before x y = true -> before y z = true -> before x z = true.

Lemma insert_stable_sorted x l :
  (forall y, y ∈ l -> before y x = true \/ before x y = true) ->
  sorted_by l -> sorted_by (insert_stable x l).
Proof.
  intros Hx Hl; induction Hl as [|y l Hl IH Hy]; cbn; [repeat constructor|].
  destruct (before y x) eqn:Hyx.
  - constructor; [apply IH; intros z Hz; apply Hx; by right|].
    rewrite insert_stable_perm; by constructor.
  - assert (Hxy : before x y = true) by (destruct (Hx y); [by left|congruence|done]).
    constructor; [by constructor|]; constructor; [done|].
    eapply Forall_impl; [exact Hy|]; intros z Hz; by eapply before_trans.
Qed.

(** Any two elements of the list are ordered: those with the same key are one. *)
Lemma stable_sort_sorted {K} (key : A -> K) l :
  NoDup (key <$> l) ->
  (forall x y, x ∈ l -> y ∈ l -> key x <> key y -> before x y = true \/ before y x = true) ->
  sorted_by (stable_sort l).
Proof.
  induction l as [|x l IH]; intros Hnd Htotal; [constructor|]; cbn.
  rewrite fmap_cons, NoDup_cons in Hnd; destruct Hnd as [Hx Hnd].
  apply insert_stable_sorted.
  - intros y Hy; rewrite stable_sort_perm in Hy; apply Htotal; [by right|by left|].
    intros He; apply Hx; rewrite <- He; by apply list_elem_of_fmap_2.
  - apply IH; [done|]; intros y z Hy Hz; apply Htotal; by right.
Qed.

Hypothesis before_irrefl : forall x, before x x = false.

(** Sorted lists with the same elements are the same list. *)
Lemma sorted_by_unique l1 l2 : sorted_by l1 -> sorted_by l2 -> l1 ≡ₚ l2 -> l1 = l2.
Proof.
  intros H1 H2 Hp; eapply StronglySorted_unique; [|exact H1|exact H2|exact Hp].
  intros x y Hxy Hyx; pose proof (before_trans _ _ _ Hxy Hyx) as Hxx.
  by rewrite before_irrefl in Hxx.
Qed.

Lemma sorted_by_NoDup l : sorted_by l -> NoDup l.
Proof.
  induction 1 as [|x l Hl IH Hx]; constructor; [|done].
  intros Hin; rewrite Forall_forall in Hx; specialize (Hx x Hin); cbn in Hx; by rewrite before_irrefl in Hx.
Qed.

End stable_sort.

(** Elements that a strict weak order does not tell apart stay in some order: no
    element comes after one it should precede. *)
Section weak_order.
Context {A : Type} (before : A -> A -> bool).
Hypothesis before_asym : forall x y, before x y = true -> before y x = false.
Hypothesis before_neg_trans : forall x y z, before y x = false -> before z y = false -> before z x = false.

Definition weakly_sorted_by (l : list A) : Prop := StronglySorted (fun x y => before y x = false) l.

Lemma insert_stable_weakly x l : weakly_sorted_by l -> weakly_sorted_by (insert_stable before x l).
Proof.
  intros Hl; induction Hl as [|y l Hl IH Hy]; cbn; [repeat constructor|].
  destruct (before y x) eqn:Hyx.
  - constructor; [done|]; rewrite insert_stable_perm; constructor; [by apply before_asym|done].
  - constructor; [by constructor|]; constructor; [done|].
    eapply Forall_impl; [exact Hy|]; intros z Hz; by eapply before_neg_trans.
Qed.

Lemma stable_sort_weakly l : weakly_sorted_by (stable_sort before l).
Proof. induction l as [|x l IH]; cbn; [constructor|by apply insert_stable_weakly]. Qed.

(** What a limit leaves out does not precede what it takes. *)
Lemma stable_sort_take n l x y :
  x ∈ take n (stable_sort before l) -> y ∈ drop n (stable_sort before l) -> before y x = false.
Proof.
  intros Hx Hy; pose proof (stable_sort_weakly l) as Hs.
  rewrite <- (take_drop n (stable_sort before l)) in Hs; unfold weakly_sorted_by in Hs.
  revert Hs Hx; generalize (take n (stable_sort before l)) as l1; intros l1; induction l1 as [|z l1 IH]; cbn.
  { by intros _ ?%elem_of_nil. }
  intros [Hs Hz]%StronglySorted_inv [->|Hx]%elem_of_cons; [|by apply IH].
  rewrite Forall_forall in Hz; apply Hz, elem_of_app; by right.
Qed.

(** Nothing precedes the first element. *)
Lemma stable_sort_head l x rest y :
  stable_sort before l = x :: rest -> y ∈ l -> y = x \/ before y x = false.
Proof.
  intros Hs Hy; rewrite <- (stable_sort_perm before l), Hs in Hy.
  apply elem_of_cons in Hy as [->|Hy]; [by left|]; right.
  apply (stable_sort_take 1 l); rewrite Hs; [left|done].
Qed.
End weak_order.

(** ** Maps filled by a loop *)

(** [for _, kv := range l { m[kv.1] = kv.2 }] *)
Definition insert_all {A} (m : gmap string A) (l : list (string * A)) : gmap string A :=
  foldl (fun m kv => <[kv.1 := kv.2]> m) m l.

Lemma insert_all_app {A} (m : gmap string A) l1 l2 :
  insert_all m (l1 ++ l2) = insert_all (insert_all m l1) l2.
Proof. apply foldl_app. Qed.

(** With distinct keys, each key holds its value whatever the order. *)
Lemma insert_all_Some {A} (m : gmap string A) l k v :
  NoDup l.*1 ->
  insert_all m l !! k = Some v <-> (k, v) ∈ l \/ (k ∉ l.*1) /\ m !! k = Some v.
Proof.
  unfold insert_all; revert m; induction l as [|[j w] l IH]; intros m Hnd; cbn.
  { split; [right; split; [apply not_elem_of_nil|done]|by intros [?%elem_of_nil|[_ ?]]]. }
  apply NoDup_cons in Hnd as [Hj Hnd]; rewrite IH by done; split.
  - intros [Hin|[Hk Hm]]; [by left; right|].
    apply lookup_insert_Some in Hm as [[-> ->]|[Hne Hm]]; [by left; left|].
    right; split; [|done]; rewrite not_elem_of_cons; by split.
  - intros [[[= -> ->]|Hin]%elem_of_cons|[[Hne Hk]%not_elem_of_cons Hm]]; [|by left|].
    + right; split; [done|]; apply lookup_insert_eq.
    + right; split; [done|]; by rewrite lookup_insert_ne.
Qed.

(** ** Tables keyed by an ID *)

(** [UPDATE ... SET f WHERE c] *)
Definition update_rows {A} (c : string -> A -> bool) (f : A -> A) (m : gmap string A) : gmap string A :=
  map_imap (fun id row => Some (if c id row then f row else row)) m.

(** [SELECT ... WHERE c], in the order of the table. *)
Definition select_rows {A} (c : string -> A -> bool) (m : gmap string A) : list (string * A) :=
  filter (fun kv => c kv.1 kv.2 = true) (map_to_list m).

Section tables.
Context {A : Type}.
Implicit Types (m : gmap string A) (c : string -> A -> bool) (f : A -> A).

Lemma lookup_update_rows c f m id :
  update_rows c f m !! id = (fun row => if c id row then f row else row) <$> m !! id.
Proof. unfold update_rows; rewrite map_lookup_imap; by destruct (m !! id). Qed.

Lemma elem_of_select_rows c m id row :
  (id, row) ∈ select_rows c m <-> m !! id = Some row /\ c id row = true.
Proof. unfold select_rows; rewrite list_elem_of_filter, elem_of_map_to_list; cbn; tauto. Qed.

Lemma select_rows_NoDup c m : NoDup (select_rows c m).*1.
Proof.
  unfold select_rows; eapply sublist_NoDup; [apply (NoDup_fst_map_to_list m)|].
  apply fmap_sublist, sublist_filter.
Qed.

Lemma select_rows_nil c m :
  select_rows c m = [] <-> forall id row, m !! id = Some row -> c id row = false.
Proof.
  split.
  - intros Hs id row Hrow; destruct (c id row) eqn:Hc; [|done].
    assert (Hin : (id, row) ∈ select_rows c m) by by apply elem_of_select_rows.
    by rewrite Hs in Hin; apply elem_of_nil in Hin.
  - intros Hc; destruct (select_rows c m) as [|[id row] l] eqn:Hs; [done|].
    assert (Hin : (id, row) ∈ select_rows c m) by (rewrite Hs; left).
    apply elem_of_select_rows in Hin as [Hrow Ht]; by rewrite (Hc id row Hrow) in Ht.
Qed.

End tables.

(** ** A fallible operation on every element *)

Lemma mapM_Ok {E A B} (f : A -> result E B) l k :
  mapM f l = Ok k <-> Forall2 (fun x y => f x = Ok y) l k.
Proof.
  revert k; induction l as [|x l IH]; intros k; cbn [mapM].
  - split; [intros [= <-]; constructor|by inversion 1].
  - rewrite bind_Ok; split.
    + intros (y & Hx & (k' & Hl & [= <-])%bind_Ok); constructor; [done|by apply IH].
    + inversion 1 as [|? y ? k' Hx Hl]; subst; exists y; split; [done|].
      apply bind_Ok; exists k'; split; [by apply IH|done].
Qed.

Lemma mapM_is_Ok {E A B} (f : A -> result E B) l :
  (exists k, mapM f l = Ok k) <-> forall x, x ∈ l -> exists y, f x = Ok y.
Proof.
  split.
  - intros [k Hk%mapM_Ok] x [i Hi]%list_elem_of_lookup; destruct (Forall2_lookup_l _ _ _ _ _ Hk Hi) as (y & _ & Hy); eauto.
  - intros Hl; induction l as [|x l IH]; [by exists []|].
    destruct (Hl x ltac:(left)) as [y Hy], IH as [k Hk]; [intros z Hz; apply Hl; by right|].
    exists (y :: k); cbn; by rewrite Hy; cbn; rewrite Hk.
Qed.

(** A pointer that is not nil. *)
Definition is_some {A} (o : option A) : bool := match o with Some _ => true | None => false end.

Lemma is_some_true {A} (o : option A) : is_some o = true <-> exists x, o = Some x.
Proof. destruct o; cbn; split; [eauto|done|done|by intros []]. Qed.

(** ** Injectivity on a list, by evaluation *)
Definition injective_on {A B C} `{EqDecision B, EqDecision C} (f : A -> B) (g : A -> C) (l : list A) : bool :=
  let pairs := (fun x => (f x, g x)) <$> l in
  forallb (fun a => forallb (fun b => negb (bool_decide (a.1 = b.1)) || bool_decide (a.2 = b.2)) pairs) pairs.

Lemma injective_on_spec {A B C} `{EqDecision B, EqDecision C} (f : A -> B) (g : A -> C) l x y :
  injective_on f g l = true -> x ∈ l -> y ∈ l -> f x = f y -> g x = g y.
Proof.
  unfold injective_on; rewrite forallb_elem_of; intros Hl Hx Hy Hf.
  specialize (Hl (f x, g x) (list_elem_of_fmap_2 (fun x => (f x, g x)) _ _ Hx)); rewrite forallb_elem_of in Hl.
  specialize (Hl (f y, g y) (list_elem_of_fmap_2 (fun x => (f x, g x)) _ _ Hy)); cbn in Hl.
  apply orb_true_iff in Hl as [Hl|Hl]; [|by apply bool_decide_eq_true in Hl].
  by apply negb_true_iff, bool_decide_eq_false in Hl.
Qed.
