(* ===== verification/GoStrings.v ===== *)
(** * Go strings: bytes, UTF-8, and the [strings]/[strconv] functions the
    program uses.

    A Go string is a byte sequence; here a Stdlib [string] of [ascii] bytes.
    Functions that look at code points decode UTF-8 as [unicode/utf8] does
    (an invalid byte is U+FFFD of width one).  The case tables of package
    [unicode] above ASCII are data, not code: a type class carries them. *)

From S2P Require Export Prelude.
From stdpp Require Import pretty.

Open Scope Z_scope.

(** Two bytes written out. *)
Definition newline : ascii := "010"%char.
Definition double_quote : ascii := "034"%char.
Definition nl : string := String newline "".

(** ** UTF-8 *)

Abbreviation bytes := (list ascii).

Definition bytes_of (s : string) : bytes := list_ascii_of_string s.
Definition of_bytes (l : bytes) : string := string_of_list_ascii l.

Lemma of_bytes_of s : of_bytes (bytes_of s) = s.
Proof. apply string_of_list_ascii_of_string. Qed.

Lemma bytes_of_bytes l : bytes_of (of_bytes l) = l.
Proof. apply list_ascii_of_string_of_list_ascii. Qed.

Definition byte (a : ascii) : Z := Z.of_N (N_of_ascii a).
Definition byte_of (z : Z) : ascii := ascii_of_N (Z.to_N z).

Lemma byte_range a : 0 <= byte a < 256.
Proof. unfold byte; pose proof (N_ascii_bounded a); lia. Qed.

Lemma byte_of_byte a : byte_of (byte a) = a.
Proof. unfold byte_of, byte; rewrite N2Z.id; apply ascii_N_embedding. Qed.

Lemma byte_byte_of z : 0 <= z < 256 -> byte (byte_of z) = z.
Proof.
  intros H; unfold byte, byte_of; rewrite N_ascii_embedding by lia; lia.
Qed.

Definition rune_error : Z := 65533.

Definition between (lo hi z : Z) : bool := (lo <=? z) && (z <=? hi).

(** [utf8.DecodeRune] on a non-empty sequence: the code point of the longest
    valid encoding at its head, and how many bytes it takes. *)
Definition decode_head (a : ascii) (l : bytes) : Z * nat :=
  let b0 := byte a in
  if b0 <? 128 then (b0, 1%nat)
  else match l with
  | a1 :: l1 =>
    let b1 := byte a1 in
    if between 194 223 b0 && between 128 191 b1 then
      ((b0 - 192) * 64 + (b1 - 128), 2%nat)
    else match l1 with
    | a2 :: l2 =>
      let b2 := byte a2 in
      if ((b0 =? 224) && between 160 191 b1
          || (between 225 236 b0 || between 238 239 b0) && between 128 191 b1
          || (b0 =? 237) && between 128 159 b1)
         && between 128 191 b2 then
        ((b0 - 224) * 4096 + (b1 - 128) * 64 + (b2 - 128), 3%nat)
      else match l2 with
      | a3 :: _ =>
        let b3 := byte a3 in
        if ((b0 =? 240) && between 144 191 b1
            || between 241 243 b0 && between 128 191 b1
            || (b0 =? 244) && between 128 143 b1)
           && between 128 191 b2 && between 128 191 b3 then
          ((b0 - 240) * 262144 + (b1 - 128) * 4096 + (b2 - 128) * 64 + (b3 - 128), 4%nat)
        else (rune_error, 1%nat)
      | [] => (rune_error, 1%nat)
      end
    | [] => (rune_error, 1%nat)
    end
  | [] => (rune_error, 1%nat)
  end.

(** A string cut into its code points: [(rune, its bytes)]. *)
Fixpoint chunks_fuel (n : nat) (l : bytes) : list (Z * bytes) :=
  match n, l with
  | S n', a :: l' =>
    let '(r, w) := decode_head a l' in
    (r, take w l) :: chunks_fuel n' (drop w l)
  | _, _ => []
  end.

Definition chunks (l : bytes) : list (Z * bytes) := chunks_fuel (length l) l.

Definition runes (s : string) : list Z := (chunks (bytes_of s)).*1.

Definition unchunk (cs : list (Z * bytes)) : bytes := concat cs.*2.

(** [utf8.EncodeRune]; an invalid code point is written as U+FFFD. *)
Definition encode_rune (r : Z) : bytes :=
  if between 0 127 r then [byte_of r]
  else if between 128 2047 r then
    [byte_of (192 + r / 64); byte_of (128 + r mod 64)]
  else if between 2048 55295 r || between 57344 65535 r then
    [byte_of (224 + r / 4096); byte_of (128 + (r / 64) mod 64); byte_of (128 + r mod 64)]
  else if between 65536 1114111 r then
    [byte_of (240 + r / 262144); byte_of (128 + (r / 4096) mod 64);
     byte_of (128 + (r / 64) mod 64); byte_of (128 + r mod 64)]
  else [byte_of 239; byte_of 191; byte_of 189].

Definition valid_rune (r : Z) : bool :=
  between 0 55295 r || between 57344 1114111 r.

(** ** White space: [unicode.IsSpace] *)

Definition is_space (r : Z) : bool :=
  between 9 13 r || (r =? 32) || (r =? 133) || (r =? 160) || (r =? 5760)
  || between 8192 8202 r || (r =? 8232) || (r =? 8233) || (r =? 8239)
  || (r =? 8287) || (r =? 12288).

Fixpoint skip_space (cs : list (Z * bytes)) : list (Z * bytes) :=
  match cs with
  | c :: cs' => if is_space c.1 then skip_space cs' else cs
  | [] => []
  end.

Definition trim_chunks (cs : list (Z * bytes)) : list (Z * bytes) :=
  rev (skip_space (rev (skip_space cs))).

(** [strings.TrimSpace] *)
Definition TrimSpace (s : string) : string :=
  of_bytes (unchunk (trim_chunks (chunks (bytes_of s)))).

(** [strings.TrimSpace(s) == ""], the program's most frequent guard. *)
Definition blank (s : string) : bool := bool_decide (TrimSpace s = "").

(** [strings.Fields] *)
Fixpoint fields_chunks (cs : list (Z * bytes)) (field : bytes) : list bytes :=
  match cs with
  | [] => match field with [] => [] | _ => [field] end
  | (r, b) :: cs' =>
    if is_space r then
      match field with
      | [] => fields_chunks cs' []
      | _ => field :: fields_chunks cs' []
      end
    else fields_chunks cs' (field ++ b)%list
  end.

Definition Fields (s : string) : list string :=
  of_bytes <$> fields_chunks (chunks (bytes_of s)) [].

(** ** Decoding: totality, inverse of encoding, stability under cuts *)

Lemma decode_head_width a l :
  (1 <= (decode_head a l).2 <= S (length l))%nat.
Proof.
  unfold decode_head.
  repeat (split_match; cbn [snd length]; try lia).
Qed.

(** What follows a code point does not change how it decodes. *)
Lemma decode_head_app a l rest r w :
  decode_head a (l ++ rest) = (r, w) -> (w <= S (length l))%nat ->
  decode_head a l = (r, w).
Proof.
  unfold decode_head.
  destruct (byte a <? 128); [done|].
  destruct l as [|a1 [|a2 [|a3 l]]]; cbn [app length]; try done;
    [destruct rest as [|b1 [|b2 [|b3 rest]]]|destruct rest as [|b2 [|b3 rest]]
    |destruct rest as [|b3 rest]]; try done;
    repeat (split_match; try done); intros; simplify_eq; try done; lia.
Qed.

Lemma chunks_fuel_enough n m l :
  (length l <= n)%nat -> (length l <= m)%nat -> chunks_fuel n l = chunks_fuel m l.
Proof.
  revert m l; induction n as [|n IH]; intros m [|a l] Hn Hm; cbn in *; try lia.
  - by destruct m.
  - by destruct m.
  - destruct m as [|m]; [lia|]; cbn.
    destruct (decode_head a l) as [r w] eqn:Hd.
    pose proof (decode_head_width a l) as Hw; rewrite Hd in Hw; cbn in Hw.
    f_equal; apply IH; rewrite length_drop; cbn; lia.
Qed.

Lemma chunks_cons a l :
  chunks (a :: l) =
    ((decode_head a l).1, take (decode_head a l).2 (a :: l))
      :: chunks (drop (decode_head a l).2 (a :: l)).
Proof.
  unfold chunks at 1; cbn [length chunks_fuel].
  destruct (decode_head a l) as [r w] eqn:Hd; cbn [fst snd]; f_equal.
  pose proof (decode_head_width a l) as Hw; rewrite Hd in Hw; cbn in Hw.
  apply chunks_fuel_enough; rewrite length_drop; cbn; lia.
Qed.

Lemma unchunk_chunks l : unchunk (chunks l) = l.
Proof.
  induction l as [l IH] using (induction_ltof1 _ (@List.length ascii)); unfold ltof in IH.
  destruct l as [|a l]; [done|].
  rewrite chunks_cons; unfold unchunk in *; cbn [fmap list_fmap fst snd concat].
  pose proof (decode_head_width a l) as Hw.
  rewrite IH by (rewrite length_drop; cbn; lia).
  apply take_drop.
Qed.

(** [cs] are the chunks of [unchunk cs] whatever follows them. *)
Fixpoint decodes (cs : list (Z * bytes)) (rest : bytes) : Prop :=
  match cs with
  | [] => True
  | (r, b) :: cs' =>
    decodes cs' rest /\
    exists a l, b = a :: l /\
      decode_head a (l ++ unchunk cs' ++ rest) = (r, length b)
  end.

Lemma chunks_decodes l : decodes (chunks l) [].
Proof.
  induction l as [l IH] using (induction_ltof1 _ (@List.length ascii)); unfold ltof in IH.
  destruct l as [|a l]; [done|].
  rewrite chunks_cons; cbn [decodes].
  pose proof (decode_head_width a l) as Hw.
  destruct (decode_head a l) as [r w] eqn:Hd; cbn [fst snd] in *.
  split; [apply IH; rewrite length_drop; cbn; lia|].
  destruct w as [|w]; [lia|]; exists a, (take w l); split; [done|].
  rewrite unchunk_chunks, app_nil_r; cbn [drop]; rewrite take_drop, Hd.
  f_equal; cbn; rewrite length_take; lia.
Qed.

Lemma decodes_app cs1 cs2 rest :
  decodes (cs1 ++ cs2) rest -> decodes cs1 (unchunk cs2 ++ rest) /\ decodes cs2 rest.
Proof.
  unfold unchunk; induction cs1 as [|[r b] cs1 IH]; cbn; [done|].
  intros (Hcs & a & l & -> & Hd); destruct (IH Hcs) as [H1 H2].
  repeat split; try done; exists a, l; split; [done|].
  revert Hd; unfold unchunk; by rewrite fmap_app, concat_app, <- app_assoc.
Qed.

Lemma decodes_weaken cs rest rest' :
  decodes cs (rest ++ rest') -> decodes cs rest.
Proof.
  induction cs as [|[r b] cs IH]; cbn; [done|].
  intros (Hcs & a & l & -> & Hd); split; [auto|].
  exists a, l; split; [done|].
  apply (decode_head_app _ _ rest'); [by rewrite <- !app_assoc|].
  rewrite length_app; cbn; lia.
Qed.

Lemma chunks_unchunk cs : decodes cs [] -> chunks (unchunk cs) = cs.
Proof.
  induction cs as [|[r b] cs IH]; [done|]; intros (Hcs & a & l & -> & Hd).
  unfold unchunk in *; cbn [fmap list_fmap fst snd concat].
  rewrite app_nil_r in Hd.
  change ((a :: l) ++ concat cs.*2)%list with (a :: (l ++ concat cs.*2))%list.
  rewrite chunks_cons, Hd; cbn [fst snd length take drop].
  rewrite take_app_length, drop_app_length, IH by done; done.
Qed.

(** Any run of consecutive chunks of a string decodes to itself. *)
Lemma chunks_infix l cs1 cs2 cs3 :
  chunks l = cs1 ++ cs2 ++ cs3 -> chunks (unchunk cs2) = cs2.
Proof.
  intros Hl; pose proof (chunks_decodes l) as Hd; rewrite Hl in Hd.
  apply decodes_app in Hd as [_ Hd]; apply decodes_app in Hd as [Hd _].
  apply chunks_unchunk. by apply decodes_weaken with (rest' := (unchunk cs3 ++ [])%list).
Qed.

(** ** [TrimSpace] *)

Lemma skip_space_suffix cs : exists p, cs = p ++ skip_space cs.
Proof.
  induction cs as [|c cs (p & IH)]; [by exists []|]; cbn.
  destruct (is_space c.1); [|by exists []].
  exists (c :: p); cbn; congruence.
Qed.

(** No white space at the head: what [skip_space] leaves. *)
Definition starts_solid (cs : list (Z * bytes)) : bool :=
  match cs with c :: _ => negb (is_space c.1) | [] => true end.

Lemma skip_space_solid cs : starts_solid (skip_space cs) = true.
Proof.
  induction cs as [|c cs IH]; [done|]; cbn.
  destruct (is_space c.1) eqn:Hc; [done|]; cbn; by rewrite Hc.
Qed.

Lemma skip_space_id cs : starts_solid cs = true -> skip_space cs = cs.
Proof. destruct cs as [|c cs]; [done|]; cbn; by destruct (is_space c.1). Qed.

Lemma starts_solid_prefix cs cs' : starts_solid (cs ++ cs') = true -> starts_solid cs = true.
Proof. by destruct cs. Qed.

Lemma trim_chunks_infix cs : exists p q, cs = p ++ trim_chunks cs ++ q.
Proof.
  unfold trim_chunks; destruct (skip_space_suffix cs) as [p Hp].
  destruct (skip_space_suffix (rev (skip_space cs))) as [q Hq].
  exists p, (rev q); rewrite <- rev_app_distr, <- Hq, rev_involutive; done.
Qed.

Lemma trim_chunks_solid cs :
  starts_solid (trim_chunks cs) = true /\ starts_solid (rev (trim_chunks cs)) = true.
Proof.
  unfold trim_chunks; split; [|by rewrite rev_involutive; apply skip_space_solid].
  destruct (skip_space_suffix (rev (skip_space cs))) as [q Hq].
  apply (f_equal (@rev _)) in Hq; rewrite rev_involutive, rev_app_distr in Hq.
  eapply starts_solid_prefix; rewrite <- Hq; apply skip_space_solid.
Qed.

Lemma trim_chunks_id cs :
  starts_solid cs = true -> starts_solid (rev cs) = true -> trim_chunks cs = cs.
Proof.
  intros H1 H2; unfold trim_chunks.
  by rewrite (skip_space_id cs), skip_space_id, rev_involutive.
Qed.

Lemma chunks_TrimSpace s :
  chunks (bytes_of (TrimSpace s)) = trim_chunks (chunks (bytes_of s)).
Proof.
  unfold TrimSpace; rewrite bytes_of_bytes.
  destruct (trim_chunks_infix (chunks (bytes_of s))) as (p & q & H).
  by eapply chunks_infix.
Qed.

Lemma TrimSpace_idemp s : TrimSpace (TrimSpace s) = TrimSpace s.
Proof.
  unfold TrimSpace at 1; rewrite chunks_TrimSpace.
  destruct (trim_chunks_solid (chunks (bytes_of s))).
  by rewrite trim_chunks_id.
Qed.

(** A string that decodes with no white space at either end is left alone. *)
Lemma TrimSpace_id s :
  starts_solid (chunks (bytes_of s)) = true ->
  starts_solid (rev (chunks (bytes_of s))) = true -> TrimSpace s = s.
Proof.
  intros; unfold TrimSpace; rewrite trim_chunks_id by done.
  by rewrite unchunk_chunks, of_bytes_of.
Qed.

(** ASCII text decodes byte by byte; without blanks it is its own trim. *)
Definition solid_ascii (a : ascii) : bool := (byte a <? 128) && negb (is_space (byte a)).

Lemma chunks_ascii l :
  forallb solid_ascii l = true -> chunks l = (fun a => (byte a, [a])) <$> l.
Proof.
  induction l as [|a l IH]; [done|]; cbn [forallb]; intros Ha.
  apply andb_true_iff in Ha as [Ha Hl]; unfold solid_ascii in Ha; bool_to_prop.
  assert (Hd : decode_head a l = (byte a, 1%nat)).
  { unfold decode_head; by rewrite (proj2 (Z.ltb_lt _ _)). }
  rewrite chunks_cons, Hd; cbn [fst snd take drop]; rewrite drop_0, take_0, IH by done; done.
Qed.

Lemma starts_solid_ascii l :
  forallb solid_ascii l = true -> starts_solid ((fun a => (byte a, [a])) <$> l) = true.
Proof.
  destruct l as [|a l]; [done|]; cbn; unfold solid_ascii; intros Ha.
  by do 2 (apply andb_true_iff in Ha as [Ha ?]).
Qed.

Lemma TrimSpace_ascii s : forallb solid_ascii (bytes_of s) = true -> TrimSpace s = s.
Proof.
  intros Hs; apply TrimSpace_id; rewrite chunks_ascii by done; [by apply starts_solid_ascii|].
  rewrite <- map_rev; apply starts_solid_ascii.
  apply forallb_forall; intros a Ha%in_rev; by apply (proj1 (forallb_forall _ _) Hs).
Qed.

(** ASCII text, blanks included, in front of a text that is its own trim. *)
Definition is_ascii (a : ascii) : bool := byte a <? 128.

Lemma chunks_ascii_app p l :
  forallb is_ascii p = true -> chunks (p ++ l) = map (fun a => (byte a, [a])) p ++ chunks l.
Proof.
  induction p as [|a p IH]; [done|]; cbn [forallb]; intros [Ha Hp]%andb_true_iff.
  assert (Hd : decode_head a (p ++ l) = (byte a, 1%nat)).
  { unfold decode_head; unfold is_ascii in Ha; by rewrite Ha. }
  cbn [app map]; rewrite chunks_cons, Hd; cbn [fst snd take drop].
  rewrite drop_0, take_0, IH by done; done.
Qed.

Lemma bytes_of_app s t : bytes_of (s +:+ t) = (bytes_of s ++ bytes_of t)%list.
Proof.
  induction s as [|a s IH]; [done|].
  change (a :: bytes_of (s +:+ t) = a :: (bytes_of s ++ bytes_of t)%list); by rewrite IH.
Qed.

Lemma bytes_of_eq s t : bytes_of s = bytes_of t -> s = t.
Proof. intros Hb; rewrite <- (of_bytes_of s), Hb; apply of_bytes_of. Qed.

Lemma trimmed_chunks t : TrimSpace t = t -> trim_chunks (chunks (bytes_of t)) = chunks (bytes_of t).
Proof. intros Ht; by rewrite <- chunks_TrimSpace, Ht. Qed.

(** A solid ASCII start in front of a trimmed text: nothing to trim. *)
Lemma TrimSpace_app_solid p t :
  forallb is_ascii (bytes_of p) = true ->
  starts_solid (map (fun a => (byte a, [a])) (bytes_of p)) = true -> p <> "" -> t <> "" ->
  TrimSpace t = t -> TrimSpace (p +:+ t) = p +:+ t.
Proof.
  intros Ha Hs Hp Hne Ht; apply trimmed_chunks in Ht.
  destruct (trim_chunks_solid (chunks (bytes_of t))) as [_ Hend]; rewrite Ht in Hend.
  apply TrimSpace_id; rewrite bytes_of_app, chunks_ascii_app by done.
  - destruct (bytes_of p) as [|a l] eqn:Hb; [|done].
    destruct Hp; apply bytes_of_eq; by rewrite Hb.
  - rewrite rev_app_distr; destruct (rev (chunks (bytes_of t))) as [|c cs] eqn:Hr; [|done].
    destruct Hne; apply bytes_of_eq; apply (f_equal (@rev _)) in Hr.
    rewrite rev_involutive in Hr; rewrite <- (unchunk_chunks (bytes_of t)), Hr; done.
Qed.

(** Blanks in front of a trimmed text are what [TrimSpace] removes. *)
Lemma TrimSpace_app_blank p t :
  forallb (fun a => is_ascii a && is_space (byte a)) (bytes_of p) = true ->
  TrimSpace t = t -> TrimSpace (p +:+ t) = t.
Proof.
  intros Hb Ht; unfold TrimSpace; rewrite bytes_of_app, chunks_ascii_app.
  - assert (Hskip : skip_space (map (fun a => (byte a, [a])) (bytes_of p) ++ chunks (bytes_of t))
      = skip_space (chunks (bytes_of t))).
    { induction (bytes_of p) as [|a l IH]; [done|]; cbn [forallb] in Hb.
      apply andb_true_iff in Hb as [[_ Ha]%andb_true_iff Hl]; cbn; rewrite Ha; by apply IH. }
    unfold trim_chunks; rewrite Hskip; fold (trim_chunks (chunks (bytes_of t))).
    by rewrite (trimmed_chunks _ Ht), unchunk_chunks, of_bytes_of.
  - apply forallb_forall; intros a Hin; apply (proj1 (forallb_forall _ _) Hb) in Hin.
    by apply andb_true_iff in Hin as [? _].
Qed.

(** An ASCII byte starts a code point of its own: no code point before it reaches over it. *)
Lemma decode_head_stop a l b rest :
  is_ascii b = true -> decode_head a (l ++ b :: rest) = decode_head a l.
Proof.
  unfold is_ascii; intros Hb; bool_to_prop.
  unfold decode_head, between; destruct (byte a <? 128); [done|].
  destruct l as [|a1 [|a2 [|a3 l]]]; cbn [app]; try done;
    repeat (split_match; try done); lia.
Qed.

Lemma chunks_app_ascii l b rest :
  is_ascii b = true -> chunks (l ++ b :: rest) = chunks l ++ chunks (b :: rest).
Proof.
  intros Hb; induction l as [l IH] using (induction_ltof1 _ (@List.length ascii)); unfold ltof in IH.
  destruct l as [|a l]; [done|]; cbn [app].
  pose proof (decode_head_width a l) as Hw.
  rewrite chunks_cons, decode_head_stop by done; rewrite (chunks_cons a l); cbn [app].
  destruct (decode_head a l) as [r w]; cbn [fst snd] in *.
  change (a :: l ++ b :: rest)%list with ((a :: l) ++ b :: rest)%list.
  rewrite take_app_le, drop_app_le by (cbn; lia).
  f_equal; apply IH; rewrite length_drop; cbn; lia.
Qed.

(** A text that starts with a solid ASCII byte and ends with a trimmed text. *)
Lemma TrimSpace_framed a p b t :
  solid_ascii a = true -> is_ascii b = true -> t <> "" -> TrimSpace t = t ->
  TrimSpace (String a p +:+ String b t) = String a p +:+ String b t.
Proof.
  unfold solid_ascii; intros [Ha Hs]%andb_true_iff Hb Hne Ht; apply trimmed_chunks in Ht.
  destruct (trim_chunks_solid (chunks (bytes_of t))) as [_ Hend]; rewrite Ht in Hend.
  apply TrimSpace_id; rewrite bytes_of_app.
  - change (bytes_of (String a p)) with ([a] ++ bytes_of p)%list.
    rewrite <- app_assoc, chunks_ascii_app; [cbn; by rewrite Hs|].
    cbn; unfold is_ascii; by rewrite Ha.
  - change (bytes_of (String b t)) with ([b] ++ bytes_of t)%list; cbn [app].
    rewrite chunks_app_ascii by done.
    change (b :: bytes_of t) with ([b] ++ bytes_of t)%list.
    rewrite chunks_ascii_app by (cbn; by rewrite Hb); rewrite app_assoc, rev_app_distr.
    destruct (rev (chunks (bytes_of t))) as [|c cs] eqn:Hr; [|done].
    destruct Hne; apply bytes_of_eq; apply (f_equal (@rev _)) in Hr.
    rewrite rev_involutive in Hr; rewrite <- (unchunk_chunks (bytes_of t)), Hr; done.
Qed.

(** A text that starts with a solid letter is not blank. *)
Lemma TrimSpace_solid_head a s : solid_ascii a = true -> TrimSpace (String a s) <> "".
Proof.
  unfold solid_ascii; intros Ha He; bool_to_prop.
  pose proof (chunks_TrimSpace (String a s)) as Hc; rewrite He in Hc.
  change (bytes_of (String a s)) with ([a] ++ bytes_of s)%list in Hc; rewrite chunks_ascii_app in Hc
    by (cbn; unfold is_ascii; rewrite (proj2 (Z.ltb_lt _ _)) by done; done).
  revert Hc; generalize (chunks (bytes_of s)); intros cs; unfold trim_chunks; cbn [map app].
  rewrite (skip_space_id (_ :: _)) by (cbn; by rewrite H0); cbn [rev].
  intros Hnil%(f_equal (@rev _)); rewrite rev_involutive in Hnil; revert Hnil.
  induction (rev cs) as [|c l IH]; cbn; [by rewrite H0|].
  destruct (is_space c.1); [exact IH|done].
Qed.

Lemma blank_TrimSpace s : blank (TrimSpace s) = blank s.
Proof. unfold blank; by rewrite TrimSpace_idemp. Qed.

Lemma blank_true s : blank s = true <-> TrimSpace s = "".
Proof. apply bool_decide_eq_true. Qed.

Lemma blank_false s : blank s = false <-> TrimSpace s <> "".
Proof. apply bool_decide_eq_false. Qed.

#[export] Hint Rewrite TrimSpace_idemp blank_TrimSpace : go.

(** ** Encoding *)

Lemma encode_rune_decode r rest :
  valid_rune r = true ->
  exists a l, encode_rune r = a :: l /\
    decode_head a (l ++ rest) = (r, length (encode_rune r)).
Proof.
  unfold valid_rune, encode_rune, between; intros Hr.
  repeat split_match; try lia; eexists _, _; (split; [done|]);
    unfold decode_head, between; cbn [app length];
    rewrite !byte_byte_of by div_lia;
    repeat (split_match; try div_lia); f_equal; div_lia.
Qed.

Lemma chunks_encode rs :
  forallb valid_rune rs = true ->
  chunks (concat (encode_rune <$> rs)) = (fun r => (r, encode_rune r)) <$> rs.
Proof.
  induction rs as [|r rs IH]; [done|].
  cbn [forallb]; intros [Hr Hrs]%andb_true_iff; rewrite !fmap_cons; cbn [concat].
  destruct (encode_rune_decode r (concat (encode_rune <$> rs)) Hr) as (a & l & He & Hd).
  rewrite He in *; rewrite <- app_comm_cons, chunks_cons, Hd; cbn [fst snd].
  rewrite app_comm_cons, take_app_length, drop_app_length, IH; done.
Qed.

Lemma decode_head_valid a l : valid_rune (decode_head a l).1 = true.
Proof.
  unfold decode_head, valid_rune, between; pose proof (byte_range a).
  destruct l as [|a1 [|a2 [|a3 l]]];
    try pose proof (byte_range a1); try pose proof (byte_range a2);
    try pose proof (byte_range a3);
    repeat (split_match; cbn [fst]; try done); cbn [fst]; lia.
Qed.

Lemma runes_valid s : forallb valid_rune (runes s) = true.
Proof.
  unfold runes; generalize (bytes_of s); intros l.
  induction l as [l IH] using (induction_ltof1 _ (@List.length ascii)); unfold ltof in IH.
  destruct l as [|a l]; [done|]; rewrite chunks_cons; cbn.
  pose proof (decode_head_width a l) as Hw.
  rewrite decode_head_valid; cbn; apply IH; rewrite length_drop; cbn; lia.
Qed.

(** A string of the encodings of [rs], and back. *)
Definition of_runes (rs : list Z) : string := of_bytes (concat (encode_rune <$> rs)).

Lemma runes_of_runes rs : forallb valid_rune rs = true -> runes (of_runes rs) = rs.
Proof.
  intros H; unfold runes, of_runes; rewrite bytes_of_bytes, chunks_encode by done.
  clear H; induction rs as [|r rs IH]; [done|]; cbn in *; by f_equal.
Qed.

(** ** Letter case *)

(** The [unicode] package's tables above ASCII. *)
Class UnicodeTables := {
  table_to_lower : Z -> Z;
  table_simple_fold : Z -> Z;
}.

(** [unicode.ToLower] *)
Definition to_lower `{UnicodeTables} (r : Z) : Z :=
  if r <? 128 then (if between 65 90 r then r + 32 else r) else table_to_lower r.

(** What the tables are documented to satisfy. *)
Class UnicodeLaws `{UnicodeTables} : Prop := {
  to_lower_valid r : valid_rune r = true -> valid_rune (to_lower r) = true;
  to_lower_idemp r : to_lower (to_lower r) = to_lower r;
  to_lower_space r : is_space (to_lower r) = is_space r;
}.

(** [strings.ToLower] *)
Definition ToLower `{UnicodeTables} (s : string) : string :=
  of_runes (to_lower <$> runes s).

(** One step of [strings.EqualFold]: equal, or the larger is on the fold
    orbit of the smaller. *)
Fixpoint fold_reaches `{UnicodeTables} (fuel : nat) (start target r : Z) : Z :=
  match fuel with
  | S fuel' =>
    if negb (r =? start) && (r <? target)
    then fold_reaches fuel' start target (table_simple_fold r) else r
  | O => r
  end.

Definition fold_equal `{UnicodeTables} (r1 r2 : Z) : bool :=
  if r1 =? r2 then true
  else
    let lo := Z.min r1 r2 in let hi := Z.max r1 r2 in
    if hi <? 128 then between 65 90 lo && (hi =? lo + 32)
    else fold_reaches 8 lo hi (table_simple_fold lo) =? hi.

Fixpoint fold_equal_all `{UnicodeTables} (l1 l2 : list Z) : bool :=
  match l1, l2 with
  | [], [] => true
  | r1 :: l1', r2 :: l2' => fold_equal r1 r2 && fold_equal_all l1' l2'
  | _, _ => false
  end.

(** [strings.EqualFold] *)
Definition EqualFold `{UnicodeTables} (s t : string) : bool :=
  fold_equal_all (runes s) (runes t).

Lemma fold_equal_refl `{UnicodeTables} r : fold_equal r r = true.
Proof. unfold fold_equal; by rewrite Z.eqb_refl. Qed.

Lemma EqualFold_refl `{UnicodeTables} s : EqualFold s s = true.
Proof.
  unfold EqualFold; induction (runes s) as [|r rs IH]; [done|]; cbn.
  by rewrite fold_equal_refl, IH.
Qed.

Section lower_lemmas.
Context `{UnicodeLaws}.

Lemma lower_all_valid rs :
  forallb valid_rune rs = true -> forallb valid_rune (to_lower <$> rs) = true.
Proof.
  induction rs as [|r rs IH]; [done|]; cbn; intros [Hr Hrs]%andb_true_iff.
  by rewrite to_lower_valid, IH.
Qed.

Lemma runes_ToLower s : runes (ToLower s) = to_lower <$> runes s.
Proof. apply runes_of_runes, lower_all_valid, runes_valid. Qed.

Lemma ToLower_idemp s : ToLower (ToLower s) = ToLower s.
Proof.
  unfold ToLower at 1 3; rewrite runes_ToLower; f_equal.
  rewrite <- list_fmap_compose; apply list_fmap_ext; intros; apply to_lower_idemp.
Qed.

(** Lower-casing does not create or remove white space at the ends. *)
Lemma TrimSpace_ToLower_solid s :
  starts_solid (chunks (bytes_of s)) = true ->
  starts_solid (rev (chunks (bytes_of s))) = true ->
  TrimSpace (ToLower s) = ToLower s.
Proof.
  intros H1 H2.
  assert (Hsolid : forall cs : list (Z * bytes),
    starts_solid cs = true ->
    starts_solid ((fun c => (to_lower c.1, encode_rune (to_lower c.1))) <$> cs) = true).
  { intros [|c cs]; [done|]; cbn; by rewrite to_lower_space. }
  assert (Hc : chunks (bytes_of (ToLower s)) =
    (fun c => (to_lower c.1, encode_rune (to_lower c.1))) <$> chunks (bytes_of s)).
  { unfold ToLower, of_runes; rewrite bytes_of_bytes.
    rewrite chunks_encode by apply lower_all_valid, runes_valid.
    unfold runes; by rewrite <- !list_fmap_compose. }
  apply TrimSpace_id; rewrite Hc; [by apply Hsolid|].
  change (rev (fmap ?f ?l)) with (rev (map f l)).
  rewrite <- map_rev; by apply Hsolid.
Qed.

(** Lower-casing and trimming commute. *)
Lemma skip_space_map f cs :
  (forall c : Z * bytes, is_space (f c).1 = is_space c.1) ->
  skip_space (map f cs) = map f (skip_space cs).
Proof.
  intros Hf; induction cs as [|c cs IH]; [done|]; cbn; rewrite Hf.
  by destruct (is_space c.1).
Qed.

Lemma trim_chunks_map f cs :
  (forall c : Z * bytes, is_space (f c).1 = is_space c.1) ->
  trim_chunks (map f cs) = map f (trim_chunks cs).
Proof.
  intros Hf; unfold trim_chunks.
  by rewrite skip_space_map, <- map_rev, skip_space_map, map_rev.
Qed.

Definition lower_chunk (c : Z * bytes) : Z * bytes := (to_lower c.1, encode_rune (to_lower c.1)).

Lemma chunks_ToLower s : chunks (bytes_of (ToLower s)) = map lower_chunk (chunks (bytes_of s)).
Proof.
  unfold ToLower, of_runes; rewrite bytes_of_bytes.
  rewrite chunks_encode by apply lower_all_valid, runes_valid.
  unfold runes; by rewrite <- !list_fmap_compose.
Qed.

Lemma TrimSpace_ToLower s : TrimSpace (ToLower s) = ToLower (TrimSpace s).
Proof.
  unfold TrimSpace at 1; rewrite chunks_ToLower, trim_chunks_map
    by (intros c; apply to_lower_space).
  unfold ToLower, of_runes, runes, unchunk; rewrite chunks_TrimSpace.
  do 2 f_equal; change (map lower_chunk ?l) with (lower_chunk <$> l).
  by rewrite <- !list_fmap_compose.
Qed.

(** Trimming then lower-casing is a normal form. *)
Lemma ToLower_TrimSpace_idemp s :
  ToLower (TrimSpace (ToLower (TrimSpace s))) = ToLower (TrimSpace s).
Proof.
  rewrite TrimSpace_ToLower_solid, ToLower_idemp; [done|..];
    rewrite chunks_TrimSpace; apply trim_chunks_solid.
Qed.
End lower_lemmas.

(** Tables with no cased code point above ASCII, for examples. *)
Definition ascii_tables : UnicodeTables :=
  {| table_to_lower r := r; table_simple_fold r := r |}.

Lemma ascii_laws : @UnicodeLaws ascii_tables.
Proof.
  split; unfold to_lower, valid_rune, is_space, between; cbn; intros r; intros;
    repeat (split_match; try lia); lia.
Qed.

(** ** Words: what [Fields] gives, and a text of words *)

(** A text of one or more code points, none of them white space. *)
Definition word (s : string) : Prop :=
  s <> "" /\ forallb (fun c => negb (is_space c.1)) (chunks (bytes_of s)) = true.

Lemma unchunk_app cs1 cs2 : unchunk (cs1 ++ cs2) = (unchunk cs1 ++ unchunk cs2)%list.
Proof. unfold unchunk; by rewrite fmap_app, concat_app. Qed.

Lemma fields_chunks_words l a pre cs :
  chunks l = a ++ pre ++ cs -> forallb (fun c => negb (is_space c.1)) pre = true ->
  Forall word (of_bytes <$> fields_chunks cs (unchunk pre)).
Proof.
  assert (Hword : forall a pre cs, chunks l = a ++ pre ++ cs ->
    forallb (fun c => negb (is_space c.1)) pre = true -> unchunk pre <> [] ->
    word (of_bytes (unchunk pre))).
  { intros a' pre' cs' Hl Hpre Hne; split.
    - intros He; apply Hne; rewrite <- (bytes_of_bytes (unchunk pre')), He; done.
    - by rewrite bytes_of_bytes, (chunks_infix _ _ _ _ Hl). }
  revert a pre; induction cs as [|[r b] cs IH]; intros a pre Hl Hpre; cbn [fields_chunks].
  - destruct (unchunk pre) as [|c u] eqn:Hu; [constructor|]; rewrite <- Hu.
    constructor; [|constructor]; eapply Hword; [done..|by rewrite Hu].
  - destruct (is_space r) eqn:Hr.
    + assert (Htail : Forall word (of_bytes <$> fields_chunks cs [])).
      { change (@nil ascii) with (unchunk []); apply (IH (a ++ pre ++ [(r, b)])); [|done].
        rewrite Hl; by rewrite <- !app_assoc. }
      destruct (unchunk pre) as [|c u] eqn:Hu; [done|]; rewrite <- Hu; cbn [fmap list_fmap].
      constructor; [|done]; eapply Hword; [done..|by rewrite Hu].
    + replace (unchunk pre ++ b)%list with (unchunk (pre ++ [(r, b)]))
        by (rewrite unchunk_app; unfold unchunk; cbn; by rewrite app_nil_r).
      apply (IH a); [rewrite Hl; by rewrite <- !app_assoc|].
      rewrite forallb_app, Hpre; cbn; by rewrite Hr.
Qed.

Lemma Fields_words s : Forall word (Fields s).
Proof. apply (fields_chunks_words (bytes_of s) [] []); done. Qed.

Lemma fields_chunks_solid cs rest field :
  forallb (fun c => negb (is_space c.1)) cs = true ->
  fields_chunks (cs ++ rest) field = fields_chunks rest (field ++ unchunk cs).
Proof.
  revert field; induction cs as [|[r b] cs IH]; intros field; [by rewrite app_nil_r|].
  cbn [forallb fst]; intros [Hr Hcs]%andb_true_iff; cbn [app fields_chunks].
  apply negb_eq_true in Hr; rewrite Hr, IH by done.
  unfold unchunk; cbn; by rewrite <- app_assoc.
Qed.

(** The words of a text of words joined by single blanks. *)
Lemma Fields_Join ws : Forall word ws -> Fields (String.concat " " ws) = ws.
Proof.
  unfold Fields; induction ws as [|w ws IH]; intros Hws; [done|].
  apply Forall_cons in Hws as [[Hne Hw] Hws]; specialize (IH Hws).
  assert (Hb : bytes_of w <> []) by (intros Hb; apply Hne; by apply bytes_of_eq).
  destruct ws as [|w' ws].
  - cbn [String.concat]; rewrite <- (app_nil_r (chunks (bytes_of w))), fields_chunks_solid by done.
    rewrite unchunk_chunks; cbn [app fields_chunks].
    destruct (bytes_of w) as [|a l] eqn:Hl; [done|]; cbn [fmap list_fmap].
    by rewrite <- Hl, of_bytes_of.
  - change (String.concat " " (w :: w' :: ws)) with (w +:+ " " +:+ String.concat " " (w' :: ws)).
    set (rest := String.concat " " (w' :: ws)) in *.
    rewrite !bytes_of_app; change (bytes_of " " ++ ?l)%list with (" "%char :: l).
    rewrite chunks_app_ascii by done.
    change (" "%char :: bytes_of rest) with ([" "%char] ++ bytes_of rest)%list.
    rewrite chunks_ascii_app, fields_chunks_solid, unchunk_chunks by done.
    cbn [map app fields_chunks]; change (is_space (byte " ")) with true; cbv iota.
    destruct (bytes_of w) as [|a l] eqn:Hl; [done|]; cbn [fmap list_fmap].
    rewrite <- Hl, of_bytes_of; f_equal; exact IH.
Qed.

(** Blanks made single: a normal form. *)
Lemma Join_Fields_idemp s :
  String.concat " " (Fields (String.concat " " (Fields s))) = String.concat " " (Fields s).
Proof. by rewrite Fields_Join by apply Fields_words. Qed.

(** ** Cutting, searching, numbers *)

(** [strings.Contains] *)
Definition Contains (s sub : string) : bool :=
  match String.index 0 sub s with Some _ => true | None => false end.

(** What follows a prefix. *)
Fixpoint strip_prefix (p l : bytes) : option bytes :=
  match p, l with
  | [], _ => Some l
  | a :: p', b :: l' => if Ascii.eqb a b then strip_prefix p' l' else None
  | _ :: _, [] => None
  end.

(** [strings.HasPrefix] *)
Definition HasPrefix (s p : string) : bool :=
  match strip_prefix (bytes_of p) (bytes_of s) with Some _ => true | None => false end.

(** [strings.CutPrefix] *)
Definition CutPrefix (s p : string) : option string :=
  of_bytes <$> strip_prefix (bytes_of p) (bytes_of s).

(** [strings.TrimPrefix] *)
Definition TrimPrefix (s p : string) : string := default s (CutPrefix s p).

(** [strings.HasSuffix] *)
Definition HasSuffix (s x : string) : bool :=
  bool_decide (String.substring (String.length s - String.length x) (String.length x) s = x)
  && (String.length x <=? String.length s)%nat.

(** [strings.TrimSuffix] *)
Definition TrimSuffix (s x : string) : string :=
  if HasSuffix s x then String.substring 0 (String.length s - String.length x) s else s.

(** [strings.Trim] with a cut set of ASCII bytes. *)
Fixpoint skip_set (set : bytes) (l : bytes) : bytes :=
  match l with
  | a :: l' => if bool_decide (a ∈ set) then skip_set set l' else l
  | [] => []
  end.

Definition Trim (s : string) (set : bytes) : string :=
  of_bytes (rev (skip_set set (rev (skip_set set (bytes_of s))))).

(** [strings.TrimRight] with a cut set of ASCII bytes. *)
Definition TrimRight (s : string) (set : bytes) : string := of_bytes (rev (skip_set set (rev (bytes_of s)))).

(** [strings.Cut]: the text before and after the first separator. *)
Fixpoint cut_seq (sep l field : bytes) : option (bytes * bytes) :=
  match strip_prefix sep l with
  | Some rest => Some (field, rest)
  | None =>
    match l with
    | [] => None
    | a :: l' => cut_seq sep l' (field ++ [a])%list
    end
  end.

Definition Cut (s sep : string) : option (string * string) :=
  '(before, after) ← cut_seq (bytes_of sep) (bytes_of s) [];
  Some (of_bytes before, of_bytes after).

Lemma strip_prefix_app p l : strip_prefix p (p ++ l) = Some l.
Proof. induction p as [|a p IH]; [done|]; cbn; by rewrite Ascii.eqb_refl. Qed.

Lemma of_bytes_app l1 l2 : of_bytes (l1 ++ l2) = of_bytes l1 +:+ of_bytes l2.
Proof. apply bytes_of_eq; by rewrite bytes_of_app, !bytes_of_bytes. Qed.

Lemma append_assoc (s t u : string) : (s +:+ t) +:+ u = s +:+ (t +:+ u).
Proof. apply bytes_of_eq; by rewrite !bytes_of_app, app_assoc. Qed.

Lemma HasPrefix_app p s : HasPrefix (p +:+ s) p = true.
Proof. unfold HasPrefix; by rewrite bytes_of_app, strip_prefix_app. Qed.

Lemma TrimPrefix_app p s : TrimPrefix (p +:+ s) p = s.
Proof. unfold TrimPrefix, CutPrefix; rewrite bytes_of_app, strip_prefix_app; cbn; apply of_bytes_of. Qed.

(** [strings.Split] with a one-byte separator: never empty. *)
Fixpoint split_bytes (sep : ascii) (l field : bytes) : list bytes :=
  match l with
  | [] => [field]
  | a :: l' =>
    if Ascii.eqb a sep then field :: split_bytes sep l' []
    else split_bytes sep l' (field ++ [a])%list
  end.

Definition Split (s : string) (sep : ascii) : list string :=
  of_bytes <$> split_bytes sep (bytes_of s) [].

(** [strings.SplitN(s, sep, 2)]: the text before and after the first
    separator, or the whole text alone. *)
Fixpoint cut_bytes (sep : ascii) (l field : bytes) : option (bytes * bytes) :=
  match l with
  | [] => None
  | a :: l' =>
    if Ascii.eqb a sep then Some (field, l') else cut_bytes sep l' (field ++ [a])%list
  end.

Definition SplitN2 (s : string) (sep : ascii) : list string :=
  match cut_bytes sep (bytes_of s) [] with
  | Some (before, after) => [of_bytes before; of_bytes after]
  | None => [s]
  end.

Definition has_byte (s : string) (sep : ascii) : bool :=
  existsb (Ascii.eqb sep) (bytes_of s).

Lemma SplitN2_has_byte s sep :
  has_byte s sep = true -> exists before after, SplitN2 s sep = [before; after].
Proof.
  unfold has_byte, SplitN2; generalize (@nil ascii); induction (bytes_of s) as [|a l IH].
  - done.
  - intros field; cbn; rewrite Ascii.eqb_sym; destruct (Ascii.eqb a sep); [eauto|].
    apply IH.
Qed.

Definition digit (a : ascii) : option Z :=
  if between 48 57 (byte a) then Some (byte a - 48) else None.

Fixpoint digits (l : bytes) (acc : Z) : option Z :=
  match l with
  | [] => Some acc
  | a :: l' => match digit a with Some d => digits l' (10 * acc + d) | None => None end
  end.

Definition unsigned (l : bytes) : option Z :=
  match l with [] => None | _ => digits l 0 end.

(** [strconv.Atoi] on a 64-bit machine; [None] is its error. *)
Definition Atoi (s : string) : option Z :=
  let signed :=
    match bytes_of s with
    | "-"%char :: l => Z.opp <$> unsigned l
    | "+"%char :: l => unsigned l
    | l => unsigned l
    end in
  match signed with
  | Some z => if in_int64 z then Some z else None
  | None => None
  end.

(** [strconv.Itoa] *)
Definition Itoa (z : Z) : string := pretty z.

Lemma Atoi_range s z : Atoi s = Some z -> int64_min <= z <= int64_max.
Proof.
  unfold Atoi, in_int64; intros H; repeat (split_match_in H; try done); simplify_eq; lia.
Qed.

(** [strings.Join] *)
Definition Join (sep : string) (l : list string) : string := String.concat sep l.

(** Go's [<] on strings. *)
Definition str_lt (s t : string) : bool := String.ltb s t.

Lemma string_compare_refl s : String.compare s s = Eq.
Proof.
  pose proof (String.compare_antisym s s) as H; by destruct (String.compare s s).
Qed.

Lemma str_lt_irrefl s : str_lt s s = false.
Proof. unfold str_lt, String.ltb; by rewrite string_compare_refl. Qed.

Lemma str_lt_le s t : str_lt s t = true <-> String.le s t /\ s <> t.
Proof.
  unfold str_lt, String.le, String.ltb, String.leb.
  destruct (String.compare s t) eqn:Hc; cbn.
  - apply String.compare_eq_iff in Hc; split; [done|by intros [_ ?]].
  - split; [intros _; split; [done|]|done].
    intros ->; by rewrite string_compare_refl in Hc.
  - split; [done|]; by intros [? _].
Qed.

Lemma str_lt_trans s t u : str_lt s t = true -> str_lt t u = true -> str_lt s u = true.
Proof.
  rewrite !str_lt_le; intros [H1 H2] [H3 H4]; split; [by trans t|].
  intros ->; apply H2; by apply (anti_symm String.le).
Qed.

Lemma str_lt_total s t : str_lt s t = true \/ s = t \/ str_lt t s = true.
Proof.
  destruct (decide (s = t)); [auto|].
  rewrite !str_lt_le; destruct (total String.le s t); naive_solver.
Qed.

(** ** The text before a separator that it does not contain *)

Lemma cut_seq_byte (c : ascii) p l field :
  c ∉ p -> cut_seq [c] (p ++ c :: l) field = Some ((field ++ p)%list, l).
Proof.
  revert field; induction p as [|a p IH]; intros field Hc; cbn.
  - by rewrite Ascii.eqb_refl, app_nil_r.
  - apply not_elem_of_cons in Hc as [Hne Hc].
    destruct (Ascii.eqb_spec c a) as [->|_]; [done|]; by rewrite IH, <- app_assoc.
Qed.

Lemma Cut_at (c : ascii) p s : c ∉ bytes_of p -> Cut (p +:+ String c s) (String c "") = Some (p, s).
Proof.
  intros Hc; unfold Cut; rewrite bytes_of_app; cbn [bytes_of list_ascii_of_string]; fold (bytes_of s).
  rewrite cut_seq_byte by done; cbn; f_equal; f_equal; [apply of_bytes_of|apply of_bytes_of].
Qed.

Definition is_digit (a : ascii) : Prop := is_Some (digit a).

Lemma pretty_N_char_digit x : is_digit (pretty_N_char x).
Proof. unfold pretty_N_char; repeat split_match; by eexists. Qed.

Lemma pretty_N_go_digits x s : Forall is_digit (bytes_of s) -> Forall is_digit (bytes_of (pretty_N_go x s)).
Proof.
  revert s; induction (N.lt_wf_0 x) as [x _ IH]; intros s Hs.
  assert (x = 0 \/ 0 < x)%N as [->|Hx] by lia; [by rewrite pretty_N_go_0|].
  rewrite pretty_N_go_step by done; apply IH; [by apply N.div_lt|].
  constructor; [apply pretty_N_char_digit|exact Hs].
Qed.

Lemma Itoa_digits z : 0 < z -> Forall is_digit (bytes_of (Itoa z)).
Proof.
  intros Hz; destruct z as [|p|p]; [done| |done]; unfold Itoa, pretty, pretty_Z, pretty, pretty_positive, pretty, pretty_N.
  destruct (decide _); [done|]; apply pretty_N_go_digits; constructor.
Qed.

Lemma Itoa_inj x y : Itoa x = Itoa y -> x = y.
Proof. unfold Itoa; apply (inj pretty). Qed.
