(* ===== verification/GoTime.v ===== *)
(** * Go time: instants, durations, the Gregorian calendar, RFC 3339.

    A [time.Time] is compared, added to and stored by its instant; here an
    instant is the number of nanoseconds since Go's zero time (1 January of
    year 1, 00:00 UTC), unbounded.  A [time.Duration] is an [int64] number of
    nanoseconds and wraps.  A [*time.Location] is its offset function, from
    seconds since the zero time to seconds east of UTC; the time zone
    database itself is data, and stays a parameter where it is loaded. *)

From S2P Require Export GoStrings.

Definition instant := Z.
Definition duration := Z.

Definition Second : duration := 1000000000.
Definition Minute : duration := 60 * Second.
Definition Hour : duration := 60 * Minute.

(** The zero [time.Time]. *)
Definition zero_time : instant := 0.
Definition IsZero (t : instant) : bool := t =? zero_time.

(** [time.Duration(n) * unit] *)
Definition duration_mul (n unit : Z) : duration := wrap64 (n * unit).

(** [t.Add(d)] *)
Definition Add (t : instant) (d : duration) : instant := t + d.

(** [t.Sub(u)]: saturates. *)
Definition Sub (t u : instant) : duration := Z.max int64_min (Z.min int64_max (t - u)).

Definition After (t u : instant) : bool := u <? t.
Definition Before (t u : instant) : bool := t <? u.

(** [t.Truncate(d)] for a positive [d]. *)
Definition Truncate (t : instant) (d : duration) : instant := t - t mod d.

(** ** The calendar *)

Definition is_leap (y : Z) : bool :=
  (y mod 4 =? 0) && (negb (y mod 100 =? 0) || (y mod 400 =? 0)).

Definition days_in (m y : Z) : Z :=
  if m =? 2 then (if is_leap y then 29 else 28)
  else if (m =? 4) || (m =? 6) || (m =? 9) || (m =? 11) then 30 else 31.

(** Days from the zero time to year [y], month [m] (1..12), day [d]; a day
    past the month's end counts on into the next one, as [time.Date] does. *)
Definition days_of_civil (y m d : Z) : Z :=
  let y' := if m <=? 2 then y - 1 else y in
  let mp := if m <=? 2 then m + 9 else m - 3 in
  let era := y' / 400 in
  let yoe := y' mod 400 in
  era * 146097 + yoe * 365 + yoe / 4 - yoe / 100
    + (153 * mp + 2) / 5 + (d - 1) - 306.

(** The date of a day number: four-century, century, four-year and year
    cycles of a calendar whose years start in March. *)
Definition civil_of_days (n : Z) : Z * Z * Z :=
  let z := n + 306 in
  let era := z / 146097 in
  let doe := z mod 146097 in
  let c := Z.min (doe / 36524) 3 in
  let doc := doe - 36524 * c in
  let q := doc / 1461 in
  let doq := doc - 1461 * q in
  let yq := Z.min (doq / 365) 3 in
  let doy := doq - 365 * yq in
  let yoe := 100 * c + 4 * q + yq in
  let mp := (5 * doy + 2) / 153 in
  let d := doy - (153 * mp + 2) / 5 + 1 in
  let m := if mp <? 10 then mp + 3 else mp - 9 in
  let y := yoe + era * 400 in
  (if m <=? 2 then y + 1 else y, m, d).

(** The calendar is consistent: a day number has one date, which gives the
    day number back and is a date of its month. *)
Lemma civil_of_days_spec n :
  let '(y, m, d) := civil_of_days n in
  days_of_civil y m d = n /\ 1 <= m <= 12 /\ 1 <= d <= days_in m y.
Proof.
  unfold civil_of_days.
  set (z := n + 306); set (era := z / 146097); set (doe := z mod 146097).
  assert (Hz : z = 146097 * era + doe) by (apply Z.div_mod; lia).
  assert (Hdoe : 0 <= doe < 146097) by (apply Z.mod_pos_bound; lia).
  assert (Hzn : n = z - 306) by lia.
  clearbody z era doe.
  set (c := Z.min (doe / 36524) 3).
  assert (Hc : 0 <= c <= 3 /\ 36524 * c <= doe
    /\ (c < 3 -> doe < 36524 * c + 36524)) by (unfold c; div_lia).
  clearbody c; set (q := (doe - 36524 * c) / 1461).
  assert (Hq : 0 <= q <= 24 /\ 1461 * q <= doe - 36524 * c < 1461 * q + 1461)
    by (unfold q; div_lia).
  clearbody q; set (yq := Z.min ((doe - 36524 * c - 1461 * q) / 365) 3).
  assert (Hyq : 0 <= yq <= 3 /\ 365 * yq <= doe - 36524 * c - 1461 * q
    /\ (yq < 3 -> doe - 36524 * c - 1461 * q < 365 * yq + 365)) by (unfold yq; div_lia).
  clearbody yq; set (doy := doe - 36524 * c - 1461 * q - 365 * yq).
  assert (Hdoy : 0 <= doy <= 365
    /\ (doy = 365 -> yq = 3 /\ (q < 24 \/ c = 3))) by (unfold doy; lia).
  assert (Hdoe' : doe = 36524 * c + 1461 * q + 365 * yq + doy) by (unfold doy; lia).
  clearbody doy; set (yoe := 100 * c + 4 * q + yq).
  assert (Hyoe : 0 <= yoe < 400 /\ yoe / 4 = 25 * c + q /\ yoe / 100 = c)
    by (unfold yoe; div_lia).
  assert (Hyear : doe = 365 * yoe + 25 * c + q - c + doy) by (unfold yoe; lia).
  assert (Hleap : doy = 365 -> is_leap (yoe + era * 400 + 1) = true).
  { intros [? ?]%(proj2 Hdoy); unfold is_leap, yoe; subst yq.
    destruct (_ =? 0) eqn:E1, (_ mod 100 =? 0) eqn:E2, (_ mod 400 =? 0) eqn:E3;
      try done; exfalso; bool_to_prop; div_lia. }
  clearbody yoe; clear Hyq Hq Hc.
  set (mp := (5 * doy + 2) / 153).
  assert (Hmp : 0 <= mp <= 11 /\ 153 * mp <= 5 * doy + 2 < 153 * mp + 153)
    by (unfold mp; div_lia).
  clearbody mp.
  destruct Hyoe as (Hyoe & Hy4 & Hy100).
  assert (Hdiv : forall e, (yoe + e * 400) / 400 = e /\ (yoe + e * 400) mod 400 = yoe).
  { intros e; split; div_lia. }
  destruct (Hdiv era) as [Hd1 Hd2].
  destruct (mp <? 10) eqn:Hm; bool_to_prop.
  - assert ((mp + 3 <=? 2) = false) as -> by lia.
    unfold days_of_civil; assert ((mp + 3 <=? 2) = false) as -> by lia.
    rewrite Hd1, Hd2, Hy4, Hy100; replace (mp + 3 - 3) with mp by lia; repeat split; [lia..|div_lia|].
    assert (mp = 0 \/ mp = 1 \/ mp = 2 \/ mp = 3 \/ mp = 4 \/ mp = 5 \/ mp = 6
      \/ mp = 7 \/ mp = 8 \/ mp = 9) as Hcases by lia.
    destruct_or! Hcases; subst mp; unfold days_in; repeat split_match; div_lia.
  - assert ((mp - 9 <=? 2) = true) as -> by lia.
    unfold days_of_civil; assert ((mp - 9 <=? 2) = true) as -> by lia.
    replace (yoe + era * 400 + 1 - 1) with (yoe + era * 400) by lia.
    rewrite Hd1, Hd2, Hy4, Hy100; replace (mp - 9 + 9) with mp by lia; repeat split; [lia..|div_lia|].
    assert (mp = 10 \/ mp = 11) as [-> | ->] by lia; unfold days_in;
      [repeat split_match; div_lia|].
    destruct (decide (doy = 365)) as [Hd|]; [rewrite (Hleap Hd)|];
      repeat split_match; div_lia.
Qed.

(** ** Clock fields in a location *)

Definition Location := Z -> Z.
Definition UTC : Location := fun _ => 0.

(** Seconds on the wall clock of [loc] at [t]. *)
Definition local_seconds (loc : Location) (t : instant) : Z :=
  t / Second + loc (t / Second).

Definition minute_of loc t : Z := local_seconds loc t mod 3600 / 60.
Definition hour_of loc t : Z := local_seconds loc t mod 86400 / 3600.
Definition second_of loc t : Z := local_seconds loc t mod 60.
Definition date_of loc t : Z * Z * Z := civil_of_days (local_seconds loc t / 86400).
Definition month_of loc t : Z := (date_of loc t).1.2.
Definition day_of loc t : Z := (date_of loc t).2.

(** Sunday is 0; day 0 of the calendar is a Monday. *)
Definition weekday_of loc t : Z := (local_seconds loc t / 86400 + 1) mod 7.

(** [time.Date] in [loc]: guess the offset from the wall clock read as UTC,
    then look it up again at the instant the guess gives. *)
Definition unix_of_local (loc : Location) (wall : Z) : Z :=
  if loc wall =? 0 then wall else wall - loc (wall - loc wall).

(** [t.AddDate(years, 0, days)] in [loc]. *)
Definition AddDate (loc : Location) (t : instant) (years days : Z) : instant :=
  let '(y, m, d) := date_of loc t in
  let wall := days_of_civil (y + years) m (d + days) * 86400
              + local_seconds loc t mod 86400 in
  unix_of_local loc wall * Second + t mod Second.

(** ** RFC 3339 *)

Definition digit_byte (z : Z) : ascii := byte_of (48 + z).

Definition pad2 (z : Z) : bytes := [digit_byte (z / 10); digit_byte (z mod 10)].

Definition pad4 (z : Z) : bytes := (pad2 (z / 100) ++ pad2 (z mod 100))%list.

(** [t.UTC().Format(time.RFC3339)], for years 0 to 9999. *)
Definition Format_RFC3339 (t : instant) : string :=
  let '(y, m, d) := date_of UTC t in
  of_bytes (pad4 y ++ "-"%char :: pad2 m ++ "-"%char :: pad2 d ++ "T"%char
    :: pad2 (hour_of UTC t) ++ ":"%char :: pad2 (minute_of UTC t) ++ ":"%char
    :: pad2 (second_of UTC t) ++ ["Z"%char])%list.

(** The fraction of a second as [.999999999] prints it: no trailing zeros, and
    nothing for a whole second. *)
Fixpoint fraction_digits (fuel : nat) (nanoseconds unit : Z) : bytes :=
  match fuel with
  | O => []
  | S fuel' =>
    if nanoseconds =? 0 then []
    else digit_byte (nanoseconds / unit) :: fraction_digits fuel' (nanoseconds mod unit) (unit / 10)
  end.

(** [t.UTC().Format(time.RFC3339Nano)], for years 0 to 9999. *)
Definition Format_RFC3339Nano (t : instant) : string :=
  let '(y, m, d) := date_of UTC t in
  let fraction := fraction_digits 9 (t mod Second) (Second / 10) in
  of_bytes (pad4 y ++ "-"%char :: pad2 m ++ "-"%char :: pad2 d ++ "T"%char
    :: pad2 (hour_of UTC t) ++ ":"%char :: pad2 (minute_of UTC t) ++ ":"%char
    :: pad2 (second_of UTC t) ++ (if bool_decide (fraction = []) then [] else "."%char :: fraction)
    ++ ["Z"%char])%list.

(** Package [time]'s [getnum]: two digits, or one when [fixed] is false. *)
Definition getnum (l : bytes) (fixed : bool) : option (Z * bytes) :=
  match l with
  | a :: l1 =>
    match digit a with
    | None => None
    | Some x =>
      match l1 with
      | b :: l2 =>
        match digit b with
        | Some y => Some (10 * x + y, l2)
        | None => if fixed then None else Some (x, l1)
        end
      | [] => if fixed then None else Some (x, l1)
      end
    end
  | [] => None
  end.

Definition skip_byte (c : ascii) (l : bytes) : option bytes :=
  match l with a :: l' => if Ascii.eqb a c then Some l' else None | [] => None end.

Fixpoint span_digits (l : bytes) : bytes * bytes :=
  match l with
  | a :: l' =>
    match digit a with
    | Some _ => let '(ds, rest) := span_digits l' in (a :: ds, rest)
    | None => ([], l)
    end
  | [] => ([], [])
  end.

(** A fraction after the seconds, to the nanosecond. *)
Definition fraction (l : bytes) : Z * bytes :=
  match l with
  | a :: l' =>
    if Ascii.eqb a "."%char || Ascii.eqb a ","%char then
      match span_digits l' with
      | ([], _) => (0, l)
      | (ds, rest) =>
        let ds9 := take 9 ds in
        (default 0 (digits ds9 0) * 10 ^ (9 - Z.of_nat (length ds9)), rest)
      end
    else (0, l)
  | [] => (0, [])
  end.

(** The zone: [Z], or a sign, two digits, a colon and two digits. *)
Definition zone (l : bytes) : option (Z * bytes) :=
  match l with
  | "Z"%char :: l' => Some (0, l')
  | sign :: h1 :: h2 :: ":"%char :: m1 :: m2 :: l' =>
    '(hh, _) ← getnum [h1; h2] true;
    '(mm, _) ← getnum [m1; m2] true;
    if (24 <? hh) || (60 <? mm) then None
    else if Ascii.eqb sign "+"%char then Some ((hh * 60 + mm) * 60, l')
    else if Ascii.eqb sign "-"%char then Some (- ((hh * 60 + mm) * 60), l')
    else None
  | _ => None
  end.

(** [time.Parse(time.RFC3339, s)] *)
Definition Parse_RFC3339 (s : string) : option instant :=
  match bytes_of s with
  | y1 :: y2 :: y3 :: y4 :: l =>
    y ← digits [y1; y2; y3; y4] 0;
    l ← skip_byte "-"%char l;
    '(m, l) ← getnum l true;
    if negb (between 1 12 m) then None else
    l ← skip_byte "-"%char l;
    '(d, l) ← getnum l true;
    l ← skip_byte "T"%char l;
    '(hh, l) ← getnum l false;
    if 24 <=? hh then None else
    l ← skip_byte ":"%char l;
    '(mi, l) ← getnum l true;
    if 60 <=? mi then None else
    l ← skip_byte ":"%char l;
    '(ss, l) ← getnum l true;
    if 60 <=? ss then None else
    let '(ns, l) := fraction l in
    '(offset, l) ← zone l;
    match l with
    | [] =>
      if negb (between 1 (days_in m y) d) then None
      else Some ((days_of_civil y m d * 86400 + hh * 3600 + mi * 60 + ss - offset)
                 * Second + ns)
    | _ => None
    end
  | _ => None
  end.

(** ** Printing and parsing RFC 3339 *)

Lemma digit_digit_byte z : 0 <= z <= 9 -> digit (digit_byte z) = Some z.
Proof.
  intros H; unfold digit, digit_byte; rewrite byte_byte_of by lia.
  unfold between; split_match; [f_equal; lia|bool_to_prop; lia].
Qed.

Lemma getnum_pad2 z fixed l : 0 <= z <= 99 -> getnum (pad2 z ++ l) fixed = Some (z, l).
Proof.
  intros H; unfold getnum, pad2; cbn [app].
  rewrite !digit_digit_byte by div_lia; do 2 f_equal; div_lia.
Qed.

Lemma digits_pad4 y : 0 <= y <= 9999 -> digits (pad4 y) 0 = Some y.
Proof.
  intros H; unfold pad4, pad2; cbn [app digits].
  rewrite !digit_digit_byte by div_lia; f_equal; div_lia.
Qed.

Lemma skip_byte_head c l : skip_byte c (c :: l) = Some l.
Proof. unfold skip_byte; by rewrite Ascii.eqb_refl. Qed.

Lemma clock_range loc t :
  0 <= hour_of loc t <= 23 /\ 0 <= minute_of loc t <= 59 /\ 0 <= second_of loc t <= 59.
Proof. unfold hour_of, minute_of, second_of; repeat split; div_lia. Qed.

Lemma date_of_spec loc t y m d :
  date_of loc t = (y, m, d) ->
  days_of_civil y m d = local_seconds loc t / 86400
  /\ 1 <= m <= 12 /\ 1 <= d <= days_in m y.
Proof.
  unfold date_of; intros H.
  pose proof (civil_of_days_spec (local_seconds loc t / 86400)) as Hs; by rewrite H in Hs.
Qed.

Definition year_of loc t : Z := (date_of loc t).1.1.

Lemma solid_digit z : 0 <= z <= 9 -> solid_ascii (digit_byte z) = true.
Proof.
  intros Hz; assert (Hall : Forall (fun z => solid_ascii (digit_byte z) = true)
    [0; 1; 2; 3; 4; 5; 6; 7; 8; 9]) by (repeat constructor).
  rewrite Forall_forall in Hall; apply Hall; rewrite !elem_of_cons; lia.
Qed.

Lemma Format_RFC3339_trimmed t :
  0 <= year_of UTC t <= 9999 -> TrimSpace (Format_RFC3339 t) = Format_RFC3339 t.
Proof.
  unfold year_of, Format_RFC3339; destruct (date_of UTC t) as [[y m] d] eqn:Hd.
  cbn [fst]; intros Hy; apply date_of_spec in Hd as (_ & Hm & Hday).
  assert (d <= 31) by (unfold days_in in Hday; repeat (split_match_in Hday); lia).
  pose proof (clock_range UTC t) as (Hh & Hmi & Hs).
  apply TrimSpace_ascii; rewrite bytes_of_bytes; unfold pad4, pad2; cbn [app forallb].
  rewrite !solid_digit by div_lia; reflexivity.
Qed.

(** Reading back what [Format] wrote loses the fraction of a second only. *)
Lemma Parse_Format_RFC3339 t :
  0 <= year_of UTC t <= 9999 ->
  Parse_RFC3339 (Format_RFC3339 t) = Some (t - t mod Second).
Proof.
  unfold year_of, Format_RFC3339; destruct (date_of UTC t) as [[y m] d] eqn:Hd.
  cbn [fst]; intros Hy; apply date_of_spec in Hd as (Hdays & Hm & Hday).
  assert (d <= 31).
  { unfold days_in in Hday; repeat (split_match_in Hday); lia. }
  pose proof (clock_range UTC t) as (Hh & Hmi & Hs).
  unfold Parse_RFC3339; rewrite bytes_of_bytes.
  pose proof (digits_pad4 y Hy) as Hpad; unfold pad4, pad2 in *; cbn [app] in *.
  assert (Hget : forall z fixed l, 0 <= z <= 99 ->
    getnum (digit_byte (z / 10) :: digit_byte (z mod 10) :: l) fixed = Some (z, l))
    by (intros; by apply (getnum_pad2 _ _ _)).
  rewrite Hpad; cbn [mbind option_bind].
  rewrite skip_byte_head; cbn [mbind option_bind]; rewrite Hget by lia; cbn [mbind option_bind].
  assert (between 1 12 m = true) as -> by (unfold between; lia); cbn [negb].
  rewrite skip_byte_head; cbn [mbind option_bind]; rewrite Hget by lia; cbn [mbind option_bind].
  rewrite skip_byte_head; cbn [mbind option_bind]; rewrite Hget by lia; cbn [mbind option_bind].
  assert ((24 <=? hour_of UTC t) = false) as -> by lia.
  rewrite skip_byte_head; cbn [mbind option_bind]; rewrite Hget by lia; cbn [mbind option_bind].
  assert ((60 <=? minute_of UTC t) = false) as -> by lia.
  rewrite skip_byte_head; cbn [mbind option_bind]; rewrite Hget by lia; cbn [mbind option_bind].
  assert ((60 <=? second_of UTC t) = false) as -> by lia.
  cbn [fraction zone mbind option_bind Ascii.eqb Bool.eqb orb].
  assert (between 1 (days_in m y) d = true) as -> by (unfold between; lia); cbn [negb].
  f_equal; rewrite Hdays; unfold hour_of, minute_of, second_of, local_seconds, UTC, Second.
  div_lia.
Qed.
