(* ===== verification/TaskRuns.v ===== *)
(** * Task runs: what the packages of the repository read of them

    [task.TaskRun] and [task.TaskStatus] are aliases of types of the protocol library
    ([task/port.go]); their statuses are the ones the aliases name.  A turn of an agent
    ends in a [TurnResult], of that library too; a question a run asks is an
    [AskInteraction] ([connectors/runtime_messages.go]). *)

From S2P Require Export GoTime.

Inductive TaskStatus :=
| TaskStatusPlanned
| TaskStatusRunning
| TaskStatusWaitingApproval
| TaskStatusWaitingUserInput
| TaskStatusBlocked
| TaskStatusCompleted
| TaskStatusFailed
| TaskStatusCancelled
| TaskStatusInterrupted
| TaskStatusOther (name : string).

#[export] Instance TaskStatus_eq_dec : EqDecision TaskStatus.
Proof. solve_decision. Defined.

Record TaskRun := MkTaskRun {
  Run_ID : string;
  Run_RequesterPersonID : string;
  Run_Status : TaskStatus;
  Run_UpdatedAt : instant;
  Run_Prompt : string;
  Run_Result : string;
  Run_FailureReason : string;
  OriginConversationID : string;
  OriginReplyTargetID : string;
  OriginIsThread : bool;
}.

(** [task.TaskRun{}] *)
Definition no_run : TaskRun := MkTaskRun "" "" (TaskStatusOther "") zero_time "" "" "" "" "" false.

(** ** Questions *)

Record AskChoiceOption := MkAskOption {
  Ask_Key : string;
  Ask_Label : string;
  Ask_ShortLabel : string;
  Ask_Value : string;
}.

Record AskInteraction := MkAsk {
  InteractionID : string;
  Ask_TaskRunID : string;
  Ask_Kind : string;
  Ask_Message : string;
  Ask_Question : string;
  Ask_Options : list AskChoiceOption;
  RecommendedOptionKey : string;
  SelectionMode : string;
  Ask_ResponseLanguage : string;
  TargetPlatformUserID : string;
}.

Definition no_ask : AskInteraction := MkAsk "" "" "" "" "" [] "" "" "" "".

(** ** Turns *)

(** [toolcontract.RecoveryAction]: the fields that are read; the rest of its document. *)
Record RecoveryAction := MkRecovery {
  Recovery_Kind : string;
  PlatformUserID : string;
  Recovery_Document : string;
}.

(** [toolcontract.FileAttachment]: the fields that are read; the rest of its document. *)
Record FileAttachment := MkFileAttachment {
  File_Filename : string;
  DevicePath : string;
  File_Document : string;
}.

(** [AgentTurnResult]: the fields that are read.
    [FailureNoticeMessage] is what [FailureNotice.SendableMessage] answers. *)
Record TurnResult := MkTurnResult {
  Turn_TaskRun : TaskRun;
  ReplySuppressionReason : string;
  FinishMessage : string;
  UserNotice : string;
  FailureNoticeMessage : string;
  Turn_Attachments : list FileAttachment;
  RecoveryActions : list RecoveryAction;
}.

(** ** Notices ([connectors/runtime.go]) *)

Definition taskStatusRequiresFailureNotice (status : TaskStatus) : bool :=
  bool_decide (status = TaskStatusFailed) || bool_decide (status = TaskStatusBlocked).

(** The message and its failure notice, or the reason there is none. *)
Definition userNoticeReplyMessage (turn : TurnResult) : result string (string * string) :=
  let taskRun := Turn_TaskRun turn in
  if taskStatusRequiresFailureNotice (Run_Status taskRun) then
    if negb (bool_decide (FailureNoticeMessage turn = "")) then
      Ok (FailureNoticeMessage turn, FailureNoticeMessage turn)
    else if negb (blank (UserNotice turn)) then Ok (TrimSpace (UserNotice turn), FailureNoticeMessage turn)
    else if negb (blank (Run_Result taskRun)) then Ok (TrimSpace (Run_Result taskRun), FailureNoticeMessage turn)
    else if negb (blank (Run_FailureReason taskRun)) then
      Ok (TrimSpace (Run_FailureReason taskRun), FailureNoticeMessage turn)
    else Err "missing_failure_notice"
  else if blank (UserNotice turn) then Err "missing_user_notice"
  else Ok (TrimSpace (UserNotice turn), "").

(** ** Input *)

(** [agentcontract.AgentPart]: the fields that are read or set; the rest of its document. *)
Record PartSource := MkPartSource {
  Source_Platform : string;
  Source_FileID : string;
  Source_MessageID : string;
}.

Record PartFile := MkPartFile {
  File_Path : string;
  File_ContentType : string;
  File_SizeBytes : Z;
  MarkdownPreview : string;
  ConversionStatus : string;
  ConversionMessage : string;
}.

Record PartImage := MkPartImage { Image_Path : string; Image_Filename : string; DataBase64 : string }.

Record AgentPart := MkPart {
  Part_Source : PartSource;
  Part_File : option PartFile;
  Part_Image : option PartImage;
  Part_Document : string;
}.
