(* ===== verification/GoHash.v ===== *)
(** * SHA-1 ([crypto/sha1]), SHA-256 ([crypto/sha256]) and hexadecimal text
    ([encoding/hex]) of Go's standard library: what the names of Linux users are
    shortened with, and the IDs of morning briefings. *)

From S2P Require Export GoStrings.

(** ** Words of 32 bits *)

Definition word32 (z : Z) : Z := z mod 2 ^ 32.

Definition rotate_left (n x : Z) : Z :=
  Z.lor (word32 (Z.shiftl x n)) (Z.shiftr x (32 - n)).

Definition not32 (x : Z) : Z := Z.lxor x (2 ^ 32 - 1).

(** Big-endian bytes of a value, [n] of them. *)
Fixpoint big_endian (n : nat) (z : Z) : list Z :=
  match n with
  | O => []
  | S n' => (big_endian n' (Z.shiftr z 8) ++ [z mod 256])%list
  end.

Definition from_big_endian (l : list Z) : Z := foldl (fun acc b => Z.lor (Z.shiftl acc 8) b) 0 l.

Lemma big_endian_length n z : length (big_endian n z) = n.
Proof. revert z; induction n as [|n IH]; intros z; [done|]; cbn; rewrite length_app, IH; cbn; lia. Qed.

Lemma big_endian_bytes n z : Forall (fun b => 0 <= b < 256) (big_endian n z).
Proof.
  revert z; induction n as [|n IH]; intros z; cbn; [constructor|].
  apply Forall_app; split; [done|]; constructor; [apply Z.mod_pos_bound; lia|constructor].
Qed.

(** ** SHA-1 *)

(** Blocks of [k] elements. *)
Fixpoint blocks_fuel {A} (fuel k : nat) (l : list A) : list (list A) :=
  match fuel, l with
  | S fuel', _ :: _ => take k l :: blocks_fuel fuel' k (drop k l)
  | _, _ => []
  end.

Definition blocks {A} (k : nat) (l : list A) : list (list A) := blocks_fuel (length l) k l.

Definition sha1_pad (l : list Z) : list Z :=
  let zeros := Z.to_nat ((55 - Z.of_nat (length l)) mod 64) in
  (l ++ [128] ++ replicate zeros 0 ++ big_endian 8 (8 * Z.of_nat (length l)))%list.

Definition at_ (l : list Z) (n : nat) : Z := List.nth n l 0.

(** The words of a block, the latest first, [n] more of them. *)
Fixpoint sha1_extend (n : nat) (w : list Z) : list Z :=
  match n with
  | O => w
  | S n' =>
    sha1_extend n'
      (rotate_left 1 (Z.lxor (Z.lxor (Z.lxor (at_ w 2) (at_ w 7)) (at_ w 13)) (at_ w 15)) :: w)
  end.

Definition sha1_function (t : nat) (b c d : Z) : Z :=
  if (t <? 20)%nat then Z.lor (Z.land b c) (Z.land (not32 b) d)
  else if (t <? 40)%nat then Z.lxor (Z.lxor b c) d
  else if (t <? 60)%nat then Z.lor (Z.lor (Z.land b c) (Z.land b d)) (Z.land c d)
  else Z.lxor (Z.lxor b c) d.

Definition sha1_constant (t : nat) : Z :=
  if (t <? 20)%nat then 1518500249 else if (t <? 40)%nat then 1859775393
  else if (t <? 60)%nat then 2400959708 else 3395469782.

Definition sha1_state : Type := Z * Z * Z * Z * Z.

Definition sha1_round (s : sha1_state) (tw : nat * Z) : sha1_state :=
  let '(a, b, c, d, e) := s in
  let '(t, w) := tw in
  (word32 (rotate_left 5 a + sha1_function t b c d + e + sha1_constant t + w),
   a, rotate_left 30 b, c, d).

Definition sha1_block (s : sha1_state) (block : list Z) : sha1_state :=
  let w := rev (sha1_extend 64 (rev (from_big_endian <$> blocks 4 block))) in
  let '(a, b, c, d, e) := s in
  let '(a', b', c', d', e') := foldl sha1_round s (zip (seq 0 80) w) in
  (word32 (a + a'), word32 (b + b'), word32 (c + c'), word32 (d + d'), word32 (e + e')).

Definition sha1_start : sha1_state :=
  (1732584193, 4023233417, 2562383102, 271733878, 3285377520).

(** [sha1.Sum] *)
Definition Sum (message : bytes) : list Z :=
  let '(a, b, c, d, e) := foldl sha1_block sha1_start (blocks 64 (sha1_pad (byte <$> message))) in
  concat (big_endian 4 <$> [a; b; c; d; e]).

Lemma Sum_shape message :
  length (Sum message) = 20%nat /\ Forall (fun b => 0 <= b < 256) (Sum message).
Proof.
  unfold Sum; destruct (foldl _ _ _) as [[[[a b] c] d] e]; cbn -[big_endian].
  rewrite !length_app, !big_endian_length; split; [done|].
  repeat (apply Forall_app; split; [apply big_endian_bytes|]); constructor.
Qed.

(** ** Hexadecimal text *)

Definition hex_digit (z : Z) : ascii := byte_of (if z <? 10 then 48 + z else 87 + z).

(** [hex.EncodeToString] *)
Definition EncodeToString (l : list Z) : bytes :=
  concat ((fun b => [hex_digit (b / 16); hex_digit (b mod 16)]) <$> l).

Lemma EncodeToString_length l : length (EncodeToString l) = (2 * length l)%nat.
Proof. unfold EncodeToString; induction l as [|b l IH]; [done|]; cbn in *; rewrite IH; lia. Qed.

Definition is_hex (a : ascii) : bool := between 48 57 (byte a) || between 97 102 (byte a).

Lemma hex_digit_hex z : 0 <= z < 16 -> is_hex (hex_digit z) = true.
Proof.
  intros Hz; unfold is_hex, hex_digit, between; destruct (Z.ltb_spec z 10);
    rewrite byte_byte_of by lia; lia.
Qed.

Lemma EncodeToString_hex l :
  Forall (fun b => 0 <= b < 256) l -> forallb is_hex (EncodeToString l) = true.
Proof.
  unfold EncodeToString; induction 1 as [|b l Hb Hl IH]; [done|]; cbn [fmap list_fmap concat].
  rewrite forallb_app, IH; cbn; rewrite !hex_digit_hex by div_lia; done.
Qed.

Example sha1_of_abc :
  of_bytes (EncodeToString (Sum (bytes_of "abc"))) = "a9993e364706816aba3e25717850c26c9cd0d89d".
Proof. vm_compute; reflexivity. Qed.

Example sha1_of_two_blocks :
  of_bytes (EncodeToString
    (Sum (bytes_of "abcdbcdecdefdefgefghfghighijhijkijkljklmklmnlmnomnopnopq"))) =
  "84983e441c3bd26ebaae4aa1f95129e5e54670f1".
Proof. vm_compute; reflexivity. Qed.

(** ** SHA-256 ([crypto/sha256]) *)

Definition rotate_right (n x : Z) : Z :=
  Z.lor (Z.shiftr x n) (word32 (Z.shiftl x (32 - n))).

Definition sha256_constants : list Z :=
  [
   1116352408; 1899447441; 3049323471; 3921009573; 961987163; 1508970993;
   2453635748; 2870763221; 3624381080; 310598401; 607225278; 1426881987;
   1925078388; 2162078206; 2614888103; 3248222580; 3835390401; 4022224774;
   264347078; 604807628; 770255983; 1249150122; 1555081692; 1996064986;
   2554220882; 2821834349; 2952996808; 3210313671; 3336571891; 3584528711;
   113926993; 338241895; 666307205; 773529912; 1294757372; 1396182291;
   1695183700; 1986661051; 2177026350; 2456956037; 2730485921; 2820302411;
   3259730800; 3345764771; 3516065817; 3600352804; 4094571909; 275423344;
   430227734; 506948616; 659060556; 883997877; 958139571; 1322822218;
   1537002063; 1747873779; 1955562222; 2024104815; 2227730452; 2361852424;
   2428436474; 2756734187; 3204031479; 3329325298].

(** The words of a block, the latest first, [n] more of them. *)
Fixpoint sha256_extend (n : nat) (w : list Z) : list Z :=
  match n with
  | O => w
  | S n' =>
    let w15 := at_ w 14 in
    let w2 := at_ w 1 in
    let s0 := Z.lxor (Z.lxor (rotate_right 7 w15) (rotate_right 18 w15)) (Z.shiftr w15 3) in
    let s1 := Z.lxor (Z.lxor (rotate_right 17 w2) (rotate_right 19 w2)) (Z.shiftr w2 10) in
    sha256_extend n' (word32 (at_ w 15 + s0 + at_ w 6 + s1) :: w)
  end.

Definition sha256_round (s : list Z) (kw : Z * Z) : list Z :=
  match s with
  | [a; b; c; d; e; f; g; h] =>
    let s1 := Z.lxor (Z.lxor (rotate_right 6 e) (rotate_right 11 e)) (rotate_right 25 e) in
    let ch := Z.lxor (Z.land e f) (Z.land (not32 e) g) in
    let t1 := word32 (h + s1 + ch + kw.1 + kw.2) in
    let s0 := Z.lxor (Z.lxor (rotate_right 2 a) (rotate_right 13 a)) (rotate_right 22 a) in
    let maj := Z.lxor (Z.lxor (Z.land a b) (Z.land a c)) (Z.land b c) in
    [word32 (t1 + s0 + maj); a; b; c; word32 (d + t1); e; f; g]
  | _ => s
  end.

Definition sha256_block (s : list Z) (block : list Z) : list Z :=
  let w := rev (sha256_extend 48 (rev (from_big_endian <$> blocks 4 block))) in
  zip_with (fun x y => word32 (x + y)) s (foldl sha256_round s (zip sha256_constants w)).

Definition sha256_start : list Z :=
  [1779033703; 3144134277; 1013904242; 2773480762; 1359893119; 2600822924; 528734635; 1541459225].

(** [sha256.Sum256] *)
Definition Sum256 (message : bytes) : list Z :=
  concat (big_endian 4 <$> foldl sha256_block sha256_start (blocks 64 (sha1_pad (byte <$> message)))).

Example sha256_of_abc :
  of_bytes (EncodeToString (Sum256 (bytes_of "abc"))) =
    "ba7816bf8f01cfea414140de5dae2223b00361a396177a9cb410ff61f20015ad".
Proof. vm_compute; reflexivity. Qed.
