(* ===== verification/GoFloat.v ===== *)
(** * [float64]: the binary64 numbers of the Standard Library's [SpecFloat], with the
    comparisons and arithmetic of Go that the program uses. *)

From Stdlib Require Import SpecFloat.
From S2P Require Export Prelude.

Definition float64 : Type := spec_float.

Definition float_zero : float64 := S754_zero false.
(** 0.5, 0.7 and 1, rounded to the nearest float64. *)
Definition float_half : float64 := S754_finite false 4503599627370496 (-53).
Definition float_seven_tenths : float64 := S754_finite false 6305039478318694 (-53).
Definition float_one : float64 := S754_finite false 4503599627370496 (-52).

Definition float_add : float64 -> float64 -> float64 := SFadd 53 1024.
Definition float_sub : float64 -> float64 -> float64 := SFsub 53 1024.
Definition float_mul : float64 -> float64 -> float64 := SFmul 53 1024.

(** [x < y], [x <= y]: false when one is not a number. *)
Definition float_lt : float64 -> float64 -> bool := SFltb.
Definition float_le : float64 -> float64 -> bool := SFleb.

Definition is_nan (x : float64) : bool := match x with S754_nan => true | _ => false end.

Definition sign_bit (x : float64) : bool :=
  match x with S754_zero s | S754_infinity s | S754_finite s _ _ => s | S754_nan => false end.

(** The built-in [max] and [min]: not a number if one is not, and -0 before 0. *)
Definition float_max (x y : float64) : float64 :=
  if is_nan x || is_nan y then S754_nan else
  if float_lt x y then y else if float_lt y x then x else if sign_bit x then y else x.

Definition float_min (x y : float64) : float64 :=
  if is_nan x || is_nan y then S754_nan else
  if float_lt x y then x else if float_lt y x then y else if sign_bit x then x else y.

Lemma float_compare_antisym x y : SFcompare y x = CompOpp <$> SFcompare x y.
Proof.
  destruct x as [[]|[]| |[] m1 e1], y as [[]|[]| |[] m2 e2]; cbn; try done; f_equal;
    rewrite (Z.compare_antisym e1 e2); destruct (Z.compare e1 e2); cbn; try done;
    rewrite (Pos.compare_cont_antisym m1 m2 Eq); cbn; by destruct (Pos.compare_cont Eq m1 m2).
Qed.

Lemma float_compare_total x y : is_nan x = false -> is_nan y = false -> exists c, SFcompare x y = Some c.
Proof. destruct x as [[]|[]| |[] m1 e1], y as [[]|[]| |[] m2 e2]; cbn; intros; (eexists; reflexivity) || done. Qed.

Lemma float_compare_refl x : is_nan x = false -> SFcompare x x = Some Eq.
Proof.
  destruct x as [[]|[]| |[] m e]; cbn; try done; intros _; rewrite Z.compare_refl; cbn;
    by rewrite (Pos.compare_cont_refl m Eq).
Qed.

Lemma float_le_refl x : is_nan x = false -> float_le x x = true.
Proof. intros Hx; unfold float_le, SFleb; by rewrite float_compare_refl. Qed.

Lemma float_not_lt x y : is_nan x = false -> is_nan y = false -> float_lt x y = false -> float_le y x = true.
Proof.
  intros Hx Hy; unfold float_lt, float_le, SFltb, SFleb; rewrite (float_compare_antisym x y).
  destruct (float_compare_total x y Hx Hy) as [c ->]; by destruct c.
Qed.

Lemma float_lt_le x y : float_lt x y = true -> float_le x y = true.
Proof. unfold float_lt, float_le, SFltb, SFleb; by destruct (SFcompare x y) as [[]|]. Qed.

Lemma float_lt_irrefl x : float_lt x x = false.
Proof.
  unfold float_lt, SFltb; destruct (is_nan x) eqn:Hx; [by destruct x|]; by rewrite float_compare_refl.
Qed.

(** [min(max(x, lo), hi)] is between the bounds, or not a number. *)
Definition clamp (lo hi x : float64) : float64 := float_min (float_max x lo) hi.

Lemma clamp_bounds lo hi x :
  is_nan lo = false -> is_nan hi = false -> float_le lo hi = true ->
  is_nan (clamp lo hi x) = is_nan x /\
  (is_nan x = false -> float_le lo (clamp lo hi x) = true /\ float_le (clamp lo hi x) hi = true).
Proof.
  intros Hlo Hhi Hle; unfold clamp.
  assert (Hmax : is_nan (float_max x lo) = is_nan x /\ (is_nan x = false -> float_le lo (float_max x lo) = true)).
  { unfold float_max; rewrite Hlo, orb_false_r; destruct (is_nan x) eqn:Hx; [done|].
    destruct (float_lt x lo) eqn:H1; [split; [done|]; intros; by apply float_le_refl|].
    destruct (float_lt lo x) eqn:H2; [split; [done|]; intros; by apply float_lt_le|].
    destruct (sign_bit x); (split; [done|]); intros; [by apply float_le_refl|by apply float_not_lt]. }
  revert Hmax; generalize (float_max x lo); intros y [Hy Hly].
  unfold float_min; rewrite Hhi, orb_false_r, Hy; destruct (is_nan x) eqn:Hx; [done|].
  specialize (Hly eq_refl).
  destruct (float_lt y hi) eqn:H1; [split; [done|]; intros; split; [done|by apply float_lt_le]|].
  destruct (float_lt hi y) eqn:H2; [split; [done|]; intros; split; [done|by apply float_le_refl]|].
  destruct (sign_bit y); (split; [done|]); intros _; (split; [done|]); [by apply float_not_lt|by apply float_le_refl].
Qed.
