(* ===== verification/GoPath.v ===== *)
(** * Paths of Go's [path] and [path/filepath] on Unix: [Clean], [Join], [Rel], [Base], [Dir], [Ext]. *)

From S2P Require Export GoStrings.

Definition slash : ascii := "/"%char.

(** ** Components *)

(** A path, taken apart: whether it starts at the root, and its components. *)
Definition is_rooted (path : string) : bool :=
  match bytes_of path with a :: _ => Ascii.eqb a slash | [] => false end.

(** The loop of [Clean] on one component; the components kept, the last first. *)
Definition clean_step (rooted : bool) (kept : list string) (component : string) : list string :=
  if bool_decide (component = "") || bool_decide (component = ".") then kept
  else if bool_decide (component = "..") then
    match kept with
    | last :: kept' => if bool_decide (last = "..") then component :: kept else kept'
    | [] => if rooted then [] else [component]
    end
  else component :: kept.

Definition components (path : string) : list string :=
  rev (foldl (clean_step (is_rooted path)) [] (Split path slash)).

Definition render (rooted : bool) (cs : list string) : string :=
  if rooted then "/" +:+ String.concat "/" cs
  else match cs with [] => "." | _ => String.concat "/" cs end.

(** [filepath.Clean] *)
Definition Clean (path : string) : string := render (is_rooted path) (components path).

(** [filepath.Join]: empty elements at the front are left out. *)
Fixpoint PathJoin (elements : list string) : string :=
  match elements with
  | [] => ""
  | element :: elements' =>
    if bool_decide (element = "") then PathJoin elements'
    else Clean (String.concat "/" elements)
  end.

Fixpoint strip_common (l1 l2 : list string) : list string * list string :=
  match l1, l2 with
  | x :: l1', y :: l2' => if bool_decide (x = y) then strip_common l1' l2' else (l1, l2)
  | _, _ => (l1, l2)
  end.

(** The components [Rel] walks over, of a path that is clean. *)
Definition walked (is_base : bool) (path : string) : list string :=
  match components path with
  | [] => if is_base || is_rooted path then [] else ["."]
  | cs => cs
  end.

(** [filepath.Rel]; [None] is its error. *)
Definition Rel (basepath targpath : string) : option string :=
  if bool_decide (Clean basepath = Clean targpath) then Some "."
  else if xorb (is_rooted basepath) (is_rooted targpath) then None
  else
    let '(base, targ) := strip_common (walked true basepath) (walked false targpath) in
    if bool_decide (head base = Some "..") then None
    else Some (String.concat "/" (replicate (length base) ".." ++ targ))%list.

(** The longest run of bytes that satisfy [f], and the rest. *)
Fixpoint span_bytes (f : ascii -> bool) (l : bytes) : bytes * bytes :=
  match l with
  | a :: l' => if f a then let '(run, rest) := span_bytes f l' in (a :: run, rest) else ([], l)
  | [] => ([], [])
  end.

(** What follows the last slash, and what is before it. *)
Definition after_last_slash (l : bytes) : bytes := rev (fst (span_bytes (fun a => negb (Ascii.eqb a slash)) (rev l))).
Definition to_last_slash (l : bytes) : bytes := rev (snd (span_bytes (fun a => negb (Ascii.eqb a slash)) (rev l))).

(** [path.Base], [path.Dir], [path.Ext] *)
Definition PathBase (path : string) : string :=
  if bool_decide (path = "") then "." else
  let base := after_last_slash (rev (skip_set [slash] (rev (bytes_of path)))) in
  if bool_decide (base = []) then "/" else of_bytes base.

Definition PathDir (path : string) : string := Clean (of_bytes (to_last_slash (bytes_of path))).

Definition PathExt (path : string) : string :=
  let name := after_last_slash (bytes_of path) in
  if bool_decide ("."%char ∈ name)
  then of_bytes ("."%char :: rev (fst (span_bytes (fun a => negb (Ascii.eqb a "."%char)) (rev name)))) else "".

Example path_examples :
  (PathBase <$> ["/a/b.txt"; "/a/b/"; "/"; ""; "b"], PathDir <$> ["/a/b.txt"; "b"; "/a/../b/c"],
   PathExt <$> ["/a/b.txt"; "/a.b/c"; "x.tar.gz"; ".profile"]) =
  (["b.txt"; "b"; "/"; "."; "b"], ["/a"; "."; "/b"], [".txt"; ""; ".gz"; ".profile"]).
Proof. vm_compute; reflexivity. Qed.

Example Clean_examples :
  Clean <$> ["/workspace//private/./people/../x/"; "a/../../b"; ""; "/.."; "a/.."] =
  ["/workspace/private/x"; "../b"; "."; "/"; "."].
Proof. vm_compute; reflexivity. Qed.

Example Rel_examples :
  (Rel "/a/b" "/a/b/c", Rel "/a/b" "/a/c", Rel "/a" "b", Rel "../a" "b", Rel "a" "a/..") =
  (Some "c", Some "../c", None, None, Some "../.").
Proof. vm_compute; reflexivity. Qed.

(** ** Normal components *)

Definition normal (c : string) : Prop :=
  c <> "" /\ c <> "." /\ c <> ".." /\ has_byte c slash = false.

#[export] Instance normal_dec c : Decision (normal c).
Proof. unfold normal; apply _. Defined.

(** The shape of a clean path: some [".."], none if rooted, then normal ones. *)
Definition clean_components (rooted : bool) (cs : list string) : Prop :=
  exists k ns, cs = (replicate k ".." ++ ns)%list /\ Forall normal ns /\ (rooted = true -> k = 0%nat).

Lemma no_slash_eqb c a l : has_byte c slash = false -> bytes_of c = a :: l -> Ascii.eqb a slash = false.
Proof.
  unfold has_byte; intros H Hc; rewrite Hc in H; cbn in H; apply orb_false_iff in H as [H _].
  by rewrite Ascii.eqb_sym.
Qed.

Lemma split_bytes_solid sep l rest field :
  existsb (Ascii.eqb sep) l = false ->
  split_bytes sep (l ++ rest) field = split_bytes sep rest (field ++ l).
Proof.
  revert field; induction l as [|a l IH]; intros field Hl; cbn; [by rewrite app_nil_r|].
  cbn in Hl; apply orb_false_iff in Hl as [Ha Hl]; rewrite Ascii.eqb_sym, Ha, IH by done.
  by rewrite <- app_assoc.
Qed.

Lemma split_bytes_app sep l1 l2 field :
  split_bytes sep (l1 ++ sep :: l2) field = (split_bytes sep l1 field ++ split_bytes sep l2 [])%list.
Proof.
  revert field; induction l1 as [|a l1 IH]; intros field; cbn; [by rewrite Ascii.eqb_refl|].
  destruct (Ascii.eqb a sep); cbn; by rewrite IH.
Qed.

Lemma Split_app s t : Split (s +:+ "/" +:+ t) slash = (Split s slash ++ Split t slash)%list.
Proof.
  unfold Split; rewrite !bytes_of_app; cbn [bytes_of list_ascii_of_string app].
  by rewrite split_bytes_app, fmap_app.
Qed.

Lemma Split_solid s : has_byte s slash = false -> Split s slash = [s].
Proof.
  unfold Split, has_byte; intros H; rewrite <- (app_nil_r (bytes_of s)).
  rewrite split_bytes_solid by done; cbn; by rewrite of_bytes_of.
Qed.

(** No component has a slash. *)
Lemma split_bytes_no_sep sep l field :
  existsb (Ascii.eqb sep) field = false ->
  Forall (fun c => existsb (Ascii.eqb sep) c = false) (split_bytes sep l field).
Proof.
  revert field; induction l as [|a l IH]; intros field Hf; cbn; [by constructor|].
  destruct (Ascii.eqb a sep) eqn:Ha; [constructor; [done|by apply IH]|].
  apply IH; rewrite existsb_app, Hf; cbn; by rewrite Ascii.eqb_sym, Ha.
Qed.

Lemma Split_no_slash s : Forall (fun c => has_byte c slash = false) (Split s slash).
Proof.
  unfold Split; apply Forall_fmap.
  eapply Forall_impl; [by apply (split_bytes_no_sep slash (bytes_of s) [])|].
  intros c Hc; cbn; unfold has_byte; by rewrite bytes_of_bytes.
Qed.

(** ** Clean paths *)

Lemma clean_step_shape rooted kept c :
  has_byte c slash = false ->
  clean_components rooted (rev kept) -> clean_components rooted (rev (clean_step rooted kept c)).
Proof.
  intros Hc (k & ns & Hk & Hns & Hr); unfold clean_step.
  destruct (bool_decide (c = "") || bool_decide (c = ".")) eqn:Hskip; [by exists k, ns|].
  bool_to_prop; case_bool_decide as Hup.
  - destruct kept as [|last kept]; cbn in Hk |- *.
    + destruct rooted; [by exists 0%nat, []|]; subst c; exists 1%nat, []; by repeat split.
    + destruct ns as [|n ns _] using rev_ind.
      * destruct k as [|k]; [by destruct (rev kept)|].
        rewrite app_nil_r, replicate_S_end in Hk; apply app_inj_tail in Hk as [Hk ->].
        rewrite bool_decide_true by done; cbn [rev]; rewrite Hk, Hup.
        exists (S (S k)), []; rewrite app_nil_r, !replicate_S_end.
        repeat split; [constructor|]; intros ->; by specialize (Hr eq_refl).
      * rewrite app_assoc in Hk; apply app_inj_tail in Hk as [Hk ->].
        apply Forall_app in Hns as [Hns Hn]; apply Forall_inv in Hn as (_ & _ & Hn & _).
        rewrite bool_decide_false by done; exists k, ns; by repeat split.
  - cbn; exists k, (ns ++ [c])%list; rewrite Hk, app_assoc; repeat split; [|done].
    apply Forall_app; split; [done|]; by repeat constructor.
Qed.

Lemma clean_fold_shape rooted l kept :
  Forall (fun c => has_byte c slash = false) l ->
  clean_components rooted (rev kept) ->
  clean_components rooted (rev (foldl (clean_step rooted) kept l)).
Proof.
  intros Hl; revert kept; induction Hl as [|c l Hc Hl IH]; intros kept Hk; cbn; [done|].
  by apply IH, clean_step_shape.
Qed.

Lemma components_shape path : clean_components (is_rooted path) (components path).
Proof.
  apply clean_fold_shape; [apply Split_no_slash|]; by exists 0%nat, [].
Qed.

Lemma clean_fold_normal rooted ns kept :
  Forall normal ns -> foldl (clean_step rooted) kept ns = (rev ns ++ kept)%list.
Proof.
  intros Hns; revert kept; induction Hns as [|c ns (H1 & H2 & H3 & _) Hns IH]; intros kept; cbn; [done|].
  unfold clean_step at 2; rewrite !bool_decide_false by done; cbn; rewrite IH.
  by rewrite <- app_assoc.
Qed.

Lemma clean_fold_ups k kept :
  Forall (eq "..") kept ->
  foldl (clean_step false) kept (replicate k "..") = (replicate k ".." ++ kept)%list.
Proof.
  revert kept; induction k as [|k IH]; intros kept Hk; cbn; [done|].
  assert (Hs : clean_step false kept ".." = ".." :: kept).
  { unfold clean_step; cbn; destruct Hk as [|c kept Hc Hk]; [done|]; subst c; done. }
  rewrite Hs, IH by (by constructor).
  change (".." :: kept) with ([".."] ++ kept)%list; by rewrite app_assoc, <- replicate_S_end.
Qed.

Lemma rev_replicate {A} k (x : A) : rev (replicate k x) = replicate k x.
Proof. induction k as [|k IH]; [done|]; rewrite replicate_S_end at 1; by rewrite rev_app_distr, IH. Qed.

(** The loop leaves clean components as they are. *)
Lemma clean_fold_id rooted cs :
  clean_components rooted cs -> rev (foldl (clean_step rooted) [] cs) = cs.
Proof.
  intros (k & ns & -> & Hns & Hr); rewrite foldl_app.
  assert (Hk : foldl (clean_step rooted) [] (replicate k "..") = replicate k "..").
  { destruct rooted; [by rewrite Hr|]; rewrite clean_fold_ups by constructor; by rewrite app_nil_r. }
  rewrite Hk, clean_fold_normal by done.
  by rewrite rev_app_distr, rev_involutive, rev_replicate.
Qed.

Lemma clean_solid rooted cs :
  clean_components rooted cs ->
  Forall (fun c => has_byte c slash = false /\ c <> "") cs.
Proof.
  intros (k & ns & -> & Hns & _); apply Forall_app; split.
  - by apply Forall_replicate.
  - eapply Forall_impl; [exact Hns|]; by intros c (? & _ & _ & ?).
Qed.

Lemma Split_concat cs :
  cs <> [] -> Forall (fun c => has_byte c slash = false /\ c <> "") cs ->
  Split (String.concat "/" cs) slash = cs.
Proof.
  induction cs as [|c cs IH]; [done|]; intros _ Hcs.
  apply Forall_cons in Hcs as [[Hc _] Hcs]; destruct cs as [|c' cs]; [by apply Split_solid|].
  change (String.concat "/" (c :: c' :: cs)) with (c +:+ "/" +:+ String.concat "/" (c' :: cs)).
  rewrite Split_app, Split_solid by done; cbn [app]; f_equal; by apply IH.
Qed.

Lemma is_rooted_concat c cs :
  has_byte c slash = false -> c <> "" -> is_rooted (String.concat "/" (c :: cs)) = false.
Proof.
  intros Hc Hne; destruct c as [|a s]; [done|].
  assert (Ha : Ascii.eqb a slash = false) by (by eapply no_slash_eqb).
  unfold is_rooted; destruct cs; exact Ha.
Qed.

Lemma render_parts rooted cs :
  clean_components rooted cs ->
  is_rooted (render rooted cs) = rooted /\ components (render rooted cs) = cs.
Proof.
  intros Hcs; pose proof (clean_solid _ _ Hcs) as Hsolid; pose proof (clean_fold_id _ _ Hcs) as Hid.
  destruct rooted; cbn [render].
  - assert (Hr : is_rooted ("/" +:+ String.concat "/" cs) = true) by done.
    split; [done|]; unfold components; rewrite Hr.
    change ("/" +:+ String.concat "/" cs) with ("" +:+ "/" +:+ String.concat "/" cs).
    rewrite Split_app; destruct cs as [|c cs]; [done|]; rewrite Split_concat by done; exact Hid.
  - destruct cs as [|c cs]; [done|]; apply Forall_cons in Hsolid as Hc; destruct Hc as [[Hc Hne] _].
    assert (Hr : is_rooted (String.concat "/" (c :: cs)) = false) by (by apply is_rooted_concat).
    split; [done|]; unfold components; rewrite Hr, Split_concat; done.
Qed.

(** [Clean] is idempotent. *)
Lemma Clean_idemp path : Clean (Clean path) = Clean path.
Proof.
  unfold Clean at 1; destruct (render_parts _ _ (components_shape path)) as [Hr Hc].
  unfold Clean; by rewrite Hr, Hc.
Qed.

Lemma clean_components_app rooted cs ns :
  clean_components rooted cs -> Forall normal ns -> clean_components rooted (cs ++ ns).
Proof.
  intros (k & ns' & -> & Hns' & Hr) Hns; exists k, (ns' ++ ns)%list.
  rewrite app_assoc; repeat split; [|done]; by apply Forall_app.
Qed.

(** ** Joining *)

Lemma normal_solid ns :
  Forall normal ns -> Forall (fun c => has_byte c slash = false /\ c <> "") ns.
Proof. intros H; eapply Forall_impl; [exact H|]; by intros c (? & _ & _ & ?). Qed.

Lemma is_rooted_app s t : s <> "" -> is_rooted (s +:+ t) = is_rooted s.
Proof. by destruct s. Qed.

(** Joining a path and normal names appends the names to its components. *)
Lemma PathJoin_names path names :
  path <> "" -> Forall normal names ->
  PathJoin (path :: names) = render (is_rooted path) (components path ++ names).
Proof.
  intros Hp Hn; cbn [PathJoin]; rewrite bool_decide_false by done.
  destruct names as [|n names]; [by rewrite app_nil_r|].
  change (String.concat "/" (path :: n :: names))
    with (path +:+ "/" +:+ String.concat "/" (n :: names)).
  unfold Clean, components at 1; rewrite is_rooted_app by done; f_equal.
  rewrite Split_app, Split_concat by (done || by apply normal_solid).
  rewrite foldl_app, clean_fold_normal by done.
  by rewrite rev_app_distr, rev_involutive.
Qed.

Lemma render_nonempty rooted cs : clean_components rooted cs -> render rooted cs <> "".
Proof.
  intros Hcs He; destruct (render_parts _ _ Hcs) as [Hr Hc]; rewrite He in Hr, Hc.
  by destruct rooted, cs.
Qed.

Lemma PathJoin_rendered rooted cs names :
  clean_components rooted cs -> Forall normal names ->
  PathJoin (render rooted cs :: names) = render rooted (cs ++ names).
Proof.
  intros Hcs Hn; rewrite PathJoin_names by (done || by apply render_nonempty).
  by destruct (render_parts _ _ Hcs) as [-> ->].
Qed.

Lemma concat_snoc sep cs n :
  cs <> [] -> String.concat sep (cs ++ [n]) = String.concat sep cs +:+ sep +:+ n.
Proof.
  induction cs as [|c cs IH]; [done|]; intros _; destruct cs as [|c' cs]; [done|].
  change (String.concat sep ((c :: c' :: cs) ++ [n]))
    with (c +:+ sep +:+ String.concat sep ((c' :: cs) ++ [n])).
  rewrite IH by done.
  change (String.concat sep (c :: c' :: cs)) with (c +:+ sep +:+ String.concat sep (c' :: cs)).
  by rewrite !append_assoc.
Qed.

Lemma render_snoc rooted cs n :
  cs <> [] -> render rooted (cs ++ [n]) = render rooted cs +:+ "/" +:+ n.
Proof.
  intros Hcs; pose proof (concat_snoc "/" cs n Hcs) as Hc.
  destruct rooted; cbn [render]; [by rewrite Hc|]; by destruct cs.
Qed.

Lemma strip_common_prefix l1 l2 : strip_common l1 (l1 ++ l2) = ([], l2).
Proof. induction l1 as [|x l1 IH]; cbn; [by destruct l2|]; by rewrite bool_decide_true. Qed.

(** From a directory to an entry of it. *)
Lemma Rel_child rooted cs n :
  cs <> [] -> clean_components rooted cs -> normal n ->
  Rel (render rooted cs) (render rooted (cs ++ [n])) = Some n.
Proof.
  intros Hne Hcs Hn.
  assert (Hcs' : clean_components rooted (cs ++ [n])).
  { apply clean_components_app; [done|]; by constructor. }
  destruct (render_parts _ _ Hcs) as [Hr Hc], (render_parts _ _ Hcs') as [Hr' Hc'].
  unfold Rel, Clean, walked; rewrite Hr, Hc, Hr', Hc', bool_decide_false.
  - rewrite xorb_nilpotent; destruct cs as [|c cs]; [done|].
    assert (Hs := strip_common_prefix (c :: cs) [n]); cbn [app] in Hs |- *.
    rewrite Hs; done.
  - intros He; assert (Hcomp : components (render rooted cs) = components (render rooted (cs ++ [n])))
      by (by rewrite He).
    rewrite Hc, Hc' in Hcomp; apply (f_equal length) in Hcomp; rewrite length_app in Hcomp; cbn in Hcomp; lia.
Qed.
