(* ===== verification/GoBase64.v ===== *)
(** * [base64.StdEncoding] of Go's [encoding/base64] *)

From S2P Require Export GoStrings.

Module StdEncoding.

(** A digit of six bits, and its byte. *)
Definition digit_byte (d : Z) : ascii :=
  byte_of (if d <? 26 then 65 + d else if d <? 52 then 71 + d else if d <? 62 then d - 4 else if d =? 62 then 43 else 47).

Definition digit_of (a : ascii) : option Z :=
  let z := byte a in
  if between 65 90 z then Some (z - 65) else if between 97 122 z then Some (z - 71)
  else if between 48 57 z then Some (z + 4) else if z =? 43 then Some 62 else if z =? 47 then Some 63 else None.

Definition padding : ascii := "="%char.

Fixpoint encode (l : bytes) : bytes :=
  match l with
  | [] => []
  | [a] => [digit_byte (byte a / 4); digit_byte (byte a mod 4 * 16); padding; padding]
  | [a; b] => [digit_byte (byte a / 4); digit_byte (byte a mod 4 * 16 + byte b / 16);
               digit_byte (byte b mod 16 * 4); padding]
  | a :: b :: c :: l' =>
    digit_byte (byte a / 4) :: digit_byte (byte a mod 4 * 16 + byte b / 16) ::
    digit_byte (byte b mod 16 * 4 + byte c / 64) :: digit_byte (byte c mod 64) :: encode l'
  end.

(** Of a text without line breaks; the bits that are left over are not looked at. *)
Fixpoint decode (l : bytes) : option bytes :=
  match l with
  | [] => Some []
  | p :: q :: r :: s :: l' =>
    x ← digit_of p; y ← digit_of q;
    let first := byte_of (x * 4 + y / 16) in
    if Ascii.eqb r padding then
      if Ascii.eqb s padding && bool_decide (l' = []) then Some [first] else None
    else
      z ← digit_of r;
      let second := byte_of (y mod 16 * 16 + z / 4) in
      if Ascii.eqb s padding then if bool_decide (l' = []) then Some [first; second] else None
      else w ← digit_of s; rest ← decode l'; Some (first :: second :: byte_of (z mod 4 * 64 + w) :: rest)
  | _ => None
  end.

Definition is_line_break (a : ascii) : bool := (byte a =? 10) || (byte a =? 13).

(** [DecodeString]; [None] is [CorruptInputError]. *)
Definition DecodeString (s : string) : option string :=
  of_bytes <$> decode (List.filter (fun a => negb (is_line_break a)) (bytes_of s)).

Definition EncodeToString (s : string) : string := of_bytes (encode (bytes_of s)).

Lemma digit_of_byte d : 0 <= d < 64 ->
  digit_of (digit_byte d) = Some d /\ Ascii.eqb (digit_byte d) padding = false /\ is_line_break (digit_byte d) = false.
Proof.
  intros Hd; assert (Hin : d ∈ (Z.of_nat <$> seq 0 64)).
  { apply list_elem_of_fmap; exists (Z.to_nat d); split; [lia|]; apply elem_of_seq; lia. }
  clear Hd; revert d Hin; apply Forall_forall; vm_compute; repeat constructor.
Qed.

(** What decoding reads, where the digits are as they were written. *)
Lemma decode_digits x y z w l : 0 <= x < 64 -> 0 <= y < 64 -> 0 <= z < 64 -> 0 <= w < 64 ->
  decode (digit_byte x :: digit_byte y :: digit_byte z :: digit_byte w :: l) =
  (rest ← decode l; Some (byte_of (x * 4 + y / 16) :: byte_of (y mod 16 * 16 + z / 4) :: byte_of (z mod 4 * 64 + w) :: rest)) /\
  decode [digit_byte x; digit_byte y; digit_byte z; padding] = Some [byte_of (x * 4 + y / 16); byte_of (y mod 16 * 16 + z / 4)] /\
  decode [digit_byte x; digit_byte y; padding; padding] = Some [byte_of (x * 4 + y / 16)].
Proof.
  intros Hx Hy Hz Hw; destruct (digit_of_byte x Hx) as (Dx & _), (digit_of_byte y Hy) as (Dy & _).
  destruct (digit_of_byte z Hz) as (Dz & Pz & _), (digit_of_byte w Hw) as (Dw & Pw & _).
  cbn [decode]; rewrite Dx, Dy, Pz, Dz; cbn; rewrite Pw, Dw; by cbn.
Qed.

Lemma byte_of_eq a z : z = byte a -> byte_of z = a.
Proof. intros ->; apply byte_of_byte. Qed.

Lemma decode_encode l : decode (encode l) = Some l.
Proof.
  induction l as [l IH] using (induction_ltof1 _ length); unfold ltof in IH.
  destruct l as [|a [|b [|c l]]]; [done| | |];
    pose proof (byte_range a) as Ha; try pose proof (byte_range b) as Hb; try pose proof (byte_range c) as Hc; cbn [encode].
  - destruct (decode_digits (byte a / 4) (byte a mod 4 * 16) 0 0 [] ltac:(div_lia) ltac:(div_lia) ltac:(lia) ltac:(lia)) as (_ & _ & ->).
    f_equal; f_equal; apply byte_of_eq; div_lia.
  - destruct (decode_digits (byte a / 4) (byte a mod 4 * 16 + byte b / 16) (byte b mod 16 * 4) 0 []
      ltac:(div_lia) ltac:(div_lia) ltac:(div_lia) ltac:(lia)) as (_ & -> & _).
    f_equal; f_equal; [apply byte_of_eq; div_lia|f_equal; apply byte_of_eq; div_lia].
  - destruct (decode_digits (byte a / 4) (byte a mod 4 * 16 + byte b / 16) (byte b mod 16 * 4 + byte c / 64) (byte c mod 64) (encode l)
      ltac:(div_lia) ltac:(div_lia) ltac:(div_lia) ltac:(div_lia)) as (-> & _ & _).
    rewrite IH by (cbn; lia); cbn; f_equal; f_equal; [apply byte_of_eq; div_lia|f_equal; [apply byte_of_eq; div_lia|f_equal; apply byte_of_eq; div_lia]].
Qed.

Lemma encode_no_breaks l : Forall (fun a => is_line_break a = false) (encode l).
Proof.
  induction l as [l IH] using (induction_ltof1 _ length); unfold ltof in IH.
  destruct l as [|a [|b [|c l]]]; [done| | |];
    pose proof (byte_range a) as Ha; try pose proof (byte_range b) as Hb; try pose proof (byte_range c) as Hc; cbn [encode];
    repeat (apply Forall_cons; split; [first [done|apply digit_of_byte; div_lia]|]); [by constructor|by constructor|].
  apply IH; cbn; lia.
Qed.

Lemma filter_all {A} (f : A -> bool) l : Forall (fun a => f a = true) l -> List.filter f l = l.
Proof. induction 1 as [|a l Ha Hl IH]; [done|]; cbn; by rewrite Ha, IH. Qed.

(** What is written in base64 is read back. *)
Lemma DecodeString_EncodeToString s : DecodeString (EncodeToString s) = Some s.
Proof.
  unfold DecodeString, EncodeToString; rewrite bytes_of_bytes, filter_all, decode_encode; [cbn; by rewrite of_bytes_of|].
  eapply Forall_impl; [apply encode_no_breaks|]; by intros a ->.
Qed.

End StdEncoding.

Example base64_of_Man : (StdEncoding.EncodeToString <$> ["Man"; "Ma"; "M"; ""],
  StdEncoding.DecodeString <$> ["TWFu"; "TWE="; "TQ=="; "TQ="; "T=Q="; "TQ==TQ=="]) =
  (["TWFu"; "TWE="; "TQ=="; ""], [Some "Man"; Some "Ma"; Some "M"; None; None; None]).
Proof. vm_compute; reflexivity. Qed.
