(* ===== verification/Schedule.v ===== *)
(** * Task schedules: the data of [internal/task], its errors, and the small
    predicates the scheduler, the writers and the listing share. *)

From S2P Require Export GoTime.

(** ** Data ([schedule.go], [schedule_approved_call.go]) *)

(** [ScheduleKind] is a Go string type; a value other than the three constants
    reaches the [default] branches. *)
Inductive ScheduleKind :=
| ScheduleKindOnce
| ScheduleKindInterval
| ScheduleKindCron
| ScheduleKindOther (name : string).

#[export] Instance ScheduleKind_eq_dec : EqDecision ScheduleKind.
Proof. solve_decision. Defined.

Inductive ScheduleExecutionMode :=
| ScheduleExecutionModeAgent
| ScheduleExecutionModeMessage
| ScheduleExecutionModeOther (name : string).

#[export] Instance ScheduleExecutionMode_eq_dec : EqDecision ScheduleExecutionMode.
Proof. solve_decision. Defined.

Record ScheduleApprovedCall := {
  ToolName : string;
  ToolInput : string;
  ApproverPersonID : string;
  ApprovedAt : instant;
  OriginTaskRunID : string;
}.

Record Schedule := MkSchedule {
  ScheduleID : string;
  CreatorPersonID : string;
  Name : string;
  Prompt : string;
  ExecutionMode : ScheduleExecutionMode;
  AgentProfileName : string;
  Platform : string;
  ConversationID : string;
  ReplyTargetID : string;
  TimeZone : string;
  Kind : ScheduleKind;
  RunAt : option instant;
  IntervalSecond : Z;
  CronExpression : string;
  MaxRunCount : Z;
  CompletedRunCount : Z;
  ExpiresAt : option instant;
  NextRunAt : option instant;
  LastRunAt : option instant;
  LastTaskRunID : string;
  LeaseOwner : string;
  LeasedUntil : option instant;
  FailureCount : Z;
  LastError : string;
  NextAttemptAt : option instant;
  ApprovedCall : option ScheduleApprovedCall;
  CreatedAt : instant;
  UpdatedAt : instant;
}.

(** One field assignment of a handler, [schedule.F = v]. *)
Definition set_Name (v : string) (s : Schedule) : Schedule :=
  MkSchedule
    (ScheduleID s) (CreatorPersonID s) v (Prompt s) (ExecutionMode s)
    (AgentProfileName s) (Platform s) (ConversationID s) (ReplyTargetID s)
    (TimeZone s) (Kind s) (RunAt s) (IntervalSecond s) (CronExpression s)
    (MaxRunCount s) (CompletedRunCount s) (ExpiresAt s) (NextRunAt s)
    (LastRunAt s) (LastTaskRunID s) (LeaseOwner s) (LeasedUntil s)
    (FailureCount s) (LastError s) (NextAttemptAt s) (ApprovedCall s)
    (CreatedAt s) (UpdatedAt s).

Definition set_Prompt (v : string) (s : Schedule) : Schedule :=
  MkSchedule
    (ScheduleID s) (CreatorPersonID s) (Name s) v (ExecutionMode s)
    (AgentProfileName s) (Platform s) (ConversationID s) (ReplyTargetID s)
    (TimeZone s) (Kind s) (RunAt s) (IntervalSecond s) (CronExpression s)
    (MaxRunCount s) (CompletedRunCount s) (ExpiresAt s) (NextRunAt s)
    (LastRunAt s) (LastTaskRunID s) (LeaseOwner s) (LeasedUntil s)
    (FailureCount s) (LastError s) (NextAttemptAt s) (ApprovedCall s)
    (CreatedAt s) (UpdatedAt s).

Definition set_AgentProfileName (v : string) (s : Schedule) : Schedule :=
  MkSchedule
    (ScheduleID s) (CreatorPersonID s) (Name s) (Prompt s) (ExecutionMode s)
    v (Platform s) (ConversationID s) (ReplyTargetID s) (TimeZone s) (Kind
    s) (RunAt s) (IntervalSecond s) (CronExpression s) (MaxRunCount s)
    (CompletedRunCount s) (ExpiresAt s) (NextRunAt s) (LastRunAt s)
    (LastTaskRunID s) (LeaseOwner s) (LeasedUntil s) (FailureCount s)
    (LastError s) (NextAttemptAt s) (ApprovedCall s) (CreatedAt s)
    (UpdatedAt s).

Definition set_TimeZone (v : string) (s : Schedule) : Schedule :=
  MkSchedule
    (ScheduleID s) (CreatorPersonID s) (Name s) (Prompt s) (ExecutionMode s)
    (AgentProfileName s) (Platform s) (ConversationID s) (ReplyTargetID s) v
    (Kind s) (RunAt s) (IntervalSecond s) (CronExpression s) (MaxRunCount s)
    (CompletedRunCount s) (ExpiresAt s) (NextRunAt s) (LastRunAt s)
    (LastTaskRunID s) (LeaseOwner s) (LeasedUntil s) (FailureCount s)
    (LastError s) (NextAttemptAt s) (ApprovedCall s) (CreatedAt s)
    (UpdatedAt s).

Definition set_Kind (v : ScheduleKind) (s : Schedule) : Schedule :=
  MkSchedule
    (ScheduleID s) (CreatorPersonID s) (Name s) (Prompt s) (ExecutionMode s)
    (AgentProfileName s) (Platform s) (ConversationID s) (ReplyTargetID s)
    (TimeZone s) v (RunAt s) (IntervalSecond s) (CronExpression s)
    (MaxRunCount s) (CompletedRunCount s) (ExpiresAt s) (NextRunAt s)
    (LastRunAt s) (LastTaskRunID s) (LeaseOwner s) (LeasedUntil s)
    (FailureCount s) (LastError s) (NextAttemptAt s) (ApprovedCall s)
    (CreatedAt s) (UpdatedAt s).

Definition set_RunAt (v : option instant) (s : Schedule) : Schedule :=
  MkSchedule
    (ScheduleID s) (CreatorPersonID s) (Name s) (Prompt s) (ExecutionMode s)
    (AgentProfileName s) (Platform s) (ConversationID s) (ReplyTargetID s)
    (TimeZone s) (Kind s) v (IntervalSecond s) (CronExpression s)
    (MaxRunCount s) (CompletedRunCount s) (ExpiresAt s) (NextRunAt s)
    (LastRunAt s) (LastTaskRunID s) (LeaseOwner s) (LeasedUntil s)
    (FailureCount s) (LastError s) (NextAttemptAt s) (ApprovedCall s)
    (CreatedAt s) (UpdatedAt s).

Definition set_IntervalSecond (v : Z) (s : Schedule) : Schedule :=
  MkSchedule
    (ScheduleID s) (CreatorPersonID s) (Name s) (Prompt s) (ExecutionMode s)
    (AgentProfileName s) (Platform s) (ConversationID s) (ReplyTargetID s)
    (TimeZone s) (Kind s) (RunAt s) v (CronExpression s) (MaxRunCount s)
    (CompletedRunCount s) (ExpiresAt s) (NextRunAt s) (LastRunAt s)
    (LastTaskRunID s) (LeaseOwner s) (LeasedUntil s) (FailureCount s)
    (LastError s) (NextAttemptAt s) (ApprovedCall s) (CreatedAt s)
    (UpdatedAt s).

Definition set_CronExpression (v : string) (s : Schedule) : Schedule :=
  MkSchedule
    (ScheduleID s) (CreatorPersonID s) (Name s) (Prompt s) (ExecutionMode s)
    (AgentProfileName s) (Platform s) (ConversationID s) (ReplyTargetID s)
    (TimeZone s) (Kind s) (RunAt s) (IntervalSecond s) v (MaxRunCount s)
    (CompletedRunCount s) (ExpiresAt s) (NextRunAt s) (LastRunAt s)
    (LastTaskRunID s) (LeaseOwner s) (LeasedUntil s) (FailureCount s)
    (LastError s) (NextAttemptAt s) (ApprovedCall s) (CreatedAt s)
    (UpdatedAt s).

Definition set_MaxRunCount (v : Z) (s : Schedule) : Schedule :=
  MkSchedule
    (ScheduleID s) (CreatorPersonID s) (Name s) (Prompt s) (ExecutionMode s)
    (AgentProfileName s) (Platform s) (ConversationID s) (ReplyTargetID s)
    (TimeZone s) (Kind s) (RunAt s) (IntervalSecond s) (CronExpression s) v
    (CompletedRunCount s) (ExpiresAt s) (NextRunAt s) (LastRunAt s)
    (LastTaskRunID s) (LeaseOwner s) (LeasedUntil s) (FailureCount s)
    (LastError s) (NextAttemptAt s) (ApprovedCall s) (CreatedAt s)
    (UpdatedAt s).

Definition set_CompletedRunCount (v : Z) (s : Schedule) : Schedule :=
  MkSchedule
    (ScheduleID s) (CreatorPersonID s) (Name s) (Prompt s) (ExecutionMode s)
    (AgentProfileName s) (Platform s) (ConversationID s) (ReplyTargetID s)
    (TimeZone s) (Kind s) (RunAt s) (IntervalSecond s) (CronExpression s)
    (MaxRunCount s) v (ExpiresAt s) (NextRunAt s) (LastRunAt s)
    (LastTaskRunID s) (LeaseOwner s) (LeasedUntil s) (FailureCount s)
    (LastError s) (NextAttemptAt s) (ApprovedCall s) (CreatedAt s)
    (UpdatedAt s).

Definition set_ExpiresAt (v : option instant) (s : Schedule) : Schedule :=
  MkSchedule
    (ScheduleID s) (CreatorPersonID s) (Name s) (Prompt s) (ExecutionMode s)
    (AgentProfileName s) (Platform s) (ConversationID s) (ReplyTargetID s)
    (TimeZone s) (Kind s) (RunAt s) (IntervalSecond s) (CronExpression s)
    (MaxRunCount s) (CompletedRunCount s) v (NextRunAt s) (LastRunAt s)
    (LastTaskRunID s) (LeaseOwner s) (LeasedUntil s) (FailureCount s)
    (LastError s) (NextAttemptAt s) (ApprovedCall s) (CreatedAt s)
    (UpdatedAt s).

Definition set_NextRunAt (v : option instant) (s : Schedule) : Schedule :=
  MkSchedule
    (ScheduleID s) (CreatorPersonID s) (Name s) (Prompt s) (ExecutionMode s)
    (AgentProfileName s) (Platform s) (ConversationID s) (ReplyTargetID s)
    (TimeZone s) (Kind s) (RunAt s) (IntervalSecond s) (CronExpression s)
    (MaxRunCount s) (CompletedRunCount s) (ExpiresAt s) v (LastRunAt s)
    (LastTaskRunID s) (LeaseOwner s) (LeasedUntil s) (FailureCount s)
    (LastError s) (NextAttemptAt s) (ApprovedCall s) (CreatedAt s)
    (UpdatedAt s).

Definition set_LastRunAt (v : option instant) (s : Schedule) : Schedule :=
  MkSchedule
    (ScheduleID s) (CreatorPersonID s) (Name s) (Prompt s) (ExecutionMode s)
    (AgentProfileName s) (Platform s) (ConversationID s) (ReplyTargetID s)
    (TimeZone s) (Kind s) (RunAt s) (IntervalSecond s) (CronExpression s)
    (MaxRunCount s) (CompletedRunCount s) (ExpiresAt s) (NextRunAt s) v
    (LastTaskRunID s) (LeaseOwner s) (LeasedUntil s) (FailureCount s)
    (LastError s) (NextAttemptAt s) (ApprovedCall s) (CreatedAt s)
    (UpdatedAt s).

Definition set_LastTaskRunID (v : string) (s : Schedule) : Schedule :=
  MkSchedule
    (ScheduleID s) (CreatorPersonID s) (Name s) (Prompt s) (ExecutionMode s)
    (AgentProfileName s) (Platform s) (ConversationID s) (ReplyTargetID s)
    (TimeZone s) (Kind s) (RunAt s) (IntervalSecond s) (CronExpression s)
    (MaxRunCount s) (CompletedRunCount s) (ExpiresAt s) (NextRunAt s)
    (LastRunAt s) v (LeaseOwner s) (LeasedUntil s) (FailureCount s)
    (LastError s) (NextAttemptAt s) (ApprovedCall s) (CreatedAt s)
    (UpdatedAt s).

Definition set_NextAttemptAt (v : option instant) (s : Schedule) : Schedule :=
  MkSchedule
    (ScheduleID s) (CreatorPersonID s) (Name s) (Prompt s) (ExecutionMode s)
    (AgentProfileName s) (Platform s) (ConversationID s) (ReplyTargetID s)
    (TimeZone s) (Kind s) (RunAt s) (IntervalSecond s) (CronExpression s)
    (MaxRunCount s) (CompletedRunCount s) (ExpiresAt s) (NextRunAt s)
    (LastRunAt s) (LastTaskRunID s) (LeaseOwner s) (LeasedUntil s)
    (FailureCount s) (LastError s) v (ApprovedCall s) (CreatedAt s)
    (UpdatedAt s).

Definition set_ApprovedCall (v : option ScheduleApprovedCall) (s : Schedule) : Schedule :=
  MkSchedule
    (ScheduleID s) (CreatorPersonID s) (Name s) (Prompt s) (ExecutionMode s)
    (AgentProfileName s) (Platform s) (ConversationID s) (ReplyTargetID s)
    (TimeZone s) (Kind s) (RunAt s) (IntervalSecond s) (CronExpression s)
    (MaxRunCount s) (CompletedRunCount s) (ExpiresAt s) (NextRunAt s)
    (LastRunAt s) (LastTaskRunID s) (LeaseOwner s) (LeasedUntil s)
    (FailureCount s) (LastError s) (NextAttemptAt s) v (CreatedAt s)
    (UpdatedAt s).

Definition set_UpdatedAt (v : instant) (s : Schedule) : Schedule :=
  MkSchedule
    (ScheduleID s) (CreatorPersonID s) (Name s) (Prompt s) (ExecutionMode s)
    (AgentProfileName s) (Platform s) (ConversationID s) (ReplyTargetID s)
    (TimeZone s) (Kind s) (RunAt s) (IntervalSecond s) (CronExpression s)
    (MaxRunCount s) (CompletedRunCount s) (ExpiresAt s) (NextRunAt s)
    (LastRunAt s) (LastTaskRunID s) (LeaseOwner s) (LeasedUntil s)
    (FailureCount s) (LastError s) (NextAttemptAt s) (ApprovedCall s)
    (CreatedAt s) v.

Definition set_CreatorPersonID (v : string) (s : Schedule) : Schedule :=
  MkSchedule
    (ScheduleID s) v (Name s) (Prompt s) (ExecutionMode s)
    (AgentProfileName s) (Platform s) (ConversationID s) (ReplyTargetID s)
    (TimeZone s) (Kind s) (RunAt s) (IntervalSecond s) (CronExpression s)
    (MaxRunCount s) (CompletedRunCount s) (ExpiresAt s) (NextRunAt s)
    (LastRunAt s) (LastTaskRunID s) (LeaseOwner s) (LeasedUntil s)
    (FailureCount s) (LastError s) (NextAttemptAt s) (ApprovedCall s)
    (CreatedAt s) (UpdatedAt s).

Definition set_ExecutionMode (v : ScheduleExecutionMode) (s : Schedule) : Schedule :=
  MkSchedule
    (ScheduleID s) (CreatorPersonID s) (Name s) (Prompt s) v
    (AgentProfileName s) (Platform s) (ConversationID s) (ReplyTargetID s)
    (TimeZone s) (Kind s) (RunAt s) (IntervalSecond s) (CronExpression s)
    (MaxRunCount s) (CompletedRunCount s) (ExpiresAt s) (NextRunAt s)
    (LastRunAt s) (LastTaskRunID s) (LeaseOwner s) (LeasedUntil s)
    (FailureCount s) (LastError s) (NextAttemptAt s) (ApprovedCall s)
    (CreatedAt s) (UpdatedAt s).

Definition set_Platform (v : string) (s : Schedule) : Schedule :=
  MkSchedule
    (ScheduleID s) (CreatorPersonID s) (Name s) (Prompt s) (ExecutionMode s)
    (AgentProfileName s) v (ConversationID s) (ReplyTargetID s) (TimeZone s)
    (Kind s) (RunAt s) (IntervalSecond s) (CronExpression s) (MaxRunCount s)
    (CompletedRunCount s) (ExpiresAt s) (NextRunAt s) (LastRunAt s)
    (LastTaskRunID s) (LeaseOwner s) (LeasedUntil s) (FailureCount s)
    (LastError s) (NextAttemptAt s) (ApprovedCall s) (CreatedAt s)
    (UpdatedAt s).

Definition set_ConversationID (v : string) (s : Schedule) : Schedule :=
  MkSchedule
    (ScheduleID s) (CreatorPersonID s) (Name s) (Prompt s) (ExecutionMode s)
    (AgentProfileName s) (Platform s) v (ReplyTargetID s) (TimeZone s)
    (Kind s) (RunAt s) (IntervalSecond s) (CronExpression s) (MaxRunCount s)
    (CompletedRunCount s) (ExpiresAt s) (NextRunAt s) (LastRunAt s)
    (LastTaskRunID s) (LeaseOwner s) (LeasedUntil s) (FailureCount s)
    (LastError s) (NextAttemptAt s) (ApprovedCall s) (CreatedAt s)
    (UpdatedAt s).

Definition set_ReplyTargetID (v : string) (s : Schedule) : Schedule :=
  MkSchedule
    (ScheduleID s) (CreatorPersonID s) (Name s) (Prompt s) (ExecutionMode s)
    (AgentProfileName s) (Platform s) (ConversationID s) v (TimeZone s)
    (Kind s) (RunAt s) (IntervalSecond s) (CronExpression s) (MaxRunCount s)
    (CompletedRunCount s) (ExpiresAt s) (NextRunAt s) (LastRunAt s)
    (LastTaskRunID s) (LeaseOwner s) (LeasedUntil s) (FailureCount s)
    (LastError s) (NextAttemptAt s) (ApprovedCall s) (CreatedAt s)
    (UpdatedAt s).

Definition set_LeaseOwner (v : string) (s : Schedule) : Schedule :=
  MkSchedule
    (ScheduleID s) (CreatorPersonID s) (Name s) (Prompt s) (ExecutionMode s)
    (AgentProfileName s) (Platform s) (ConversationID s) (ReplyTargetID s)
    (TimeZone s) (Kind s) (RunAt s) (IntervalSecond s) (CronExpression s)
    (MaxRunCount s) (CompletedRunCount s) (ExpiresAt s) (NextRunAt s)
    (LastRunAt s) (LastTaskRunID s) v (LeasedUntil s) (FailureCount s)
    (LastError s) (NextAttemptAt s) (ApprovedCall s) (CreatedAt s)
    (UpdatedAt s).

Definition set_LeasedUntil (v : option instant) (s : Schedule) : Schedule :=
  MkSchedule
    (ScheduleID s) (CreatorPersonID s) (Name s) (Prompt s) (ExecutionMode s)
    (AgentProfileName s) (Platform s) (ConversationID s) (ReplyTargetID s)
    (TimeZone s) (Kind s) (RunAt s) (IntervalSecond s) (CronExpression s)
    (MaxRunCount s) (CompletedRunCount s) (ExpiresAt s) (NextRunAt s)
    (LastRunAt s) (LastTaskRunID s) (LeaseOwner s) v (FailureCount s)
    (LastError s) (NextAttemptAt s) (ApprovedCall s) (CreatedAt s)
    (UpdatedAt s).

Definition set_FailureCount (v : Z) (s : Schedule) : Schedule :=
  MkSchedule
    (ScheduleID s) (CreatorPersonID s) (Name s) (Prompt s) (ExecutionMode s)
    (AgentProfileName s) (Platform s) (ConversationID s) (ReplyTargetID s)
    (TimeZone s) (Kind s) (RunAt s) (IntervalSecond s) (CronExpression s)
    (MaxRunCount s) (CompletedRunCount s) (ExpiresAt s) (NextRunAt s)
    (LastRunAt s) (LastTaskRunID s) (LeaseOwner s) (LeasedUntil s) v
    (LastError s) (NextAttemptAt s) (ApprovedCall s) (CreatedAt s)
    (UpdatedAt s).

Definition set_LastError (v : string) (s : Schedule) : Schedule :=
  MkSchedule
    (ScheduleID s) (CreatorPersonID s) (Name s) (Prompt s) (ExecutionMode s)
    (AgentProfileName s) (Platform s) (ConversationID s) (ReplyTargetID s)
    (TimeZone s) (Kind s) (RunAt s) (IntervalSecond s) (CronExpression s)
    (MaxRunCount s) (CompletedRunCount s) (ExpiresAt s) (NextRunAt s)
    (LastRunAt s) (LastTaskRunID s) (LeaseOwner s) (LeasedUntil s)
    (FailureCount s) v (NextAttemptAt s) (ApprovedCall s) (CreatedAt s)
    (UpdatedAt s).

Definition set_CreatedAt (v : instant) (s : Schedule) : Schedule :=
  MkSchedule
    (ScheduleID s) (CreatorPersonID s) (Name s) (Prompt s) (ExecutionMode s)
    (AgentProfileName s) (Platform s) (ConversationID s) (ReplyTargetID s)
    (TimeZone s) (Kind s) (RunAt s) (IntervalSecond s) (CronExpression s)
    (MaxRunCount s) (CompletedRunCount s) (ExpiresAt s) (NextRunAt s)
    (LastRunAt s) (LastTaskRunID s) (LeaseOwner s) (LeasedUntil s)
    (FailureCount s) (LastError s) (NextAttemptAt s) (ApprovedCall s) v
    (UpdatedAt s).

(** ** Errors *)

(** The error values of the package, plus the failure of a repository.
    [LoopDoesNotEnd] is no Go value: it marks a loop of the code that the
    model shows not to end (or, where a theorem says so, never occurs). *)
Inductive ScheduleError :=
| errorInvalidSchedule
| errorInvalidCronExpression
| errorUnableToFindNextTaskRun
| ErrScheduleRequesterRequired
| ErrScheduleConversationRequired
| ErrScheduleReplyTargetRequired
| ErrScheduleTaskInstructionRequired
| ErrScheduleUpdateFieldRequired
| ErrScheduleKindInvalid
| ErrScheduleTimeZoneInvalid
| ErrScheduleRunAtInvalid
| ErrScheduleExpiresAtInvalid
| ErrScheduleRepeatPolicyRequired
| ErrScheduleFiniteBoundRequired
| ErrScheduleNoFutureRun
| ErrScheduleLimitReached
| ErrScheduleCarriesAnApproval
| ErrApprovedCallNeedsAFutureStart
| ErrScheduleListCursor
| RepositoryError (message : string)
| LoopDoesNotEnd.

#[export] Instance ScheduleError_eq_dec : EqDecision ScheduleError.
Proof. solve_decision. Defined.

(** ** Time zones ([schedule_time_zone.go]) *)

(** [time.LoadLocation]: the time zone database of the host. *)
Class TimeZoneDatabase := LoadLocation : string -> option Location.

(** "UTC" is built in, whatever the database holds. *)
Class TimeZoneLaws `{TimeZoneDatabase} : Prop :=
  LoadLocation_UTC : LoadLocation "UTC" = Some UTC.

Definition ScheduleTimeZoneName (timeZone : string) : string :=
  let named := TrimSpace timeZone in
  if negb (bool_decide (named = "")) then named else "UTC".

Definition ScheduleLocation `{TimeZoneDatabase} (timeZone : string) : option Location :=
  LoadLocation (ScheduleTimeZoneName timeZone).

(** ** Shared predicates *)

Definition ScheduleSessionID (scheduleID : string) : string :=
  "schedule:" +:+ TrimSpace scheduleID.

Definition CarriesAnApprovedCall (s : Schedule) : bool :=
  match ApprovedCall s with
  | Some call => negb (bool_decide (TrimSpace (ToolName call) = ""))
  | None => false
  end.

Definition firstNonBlankScheduleValue (values : list string) : string :=
  default "" (TrimSpace <$> List.find (fun v => negb (blank v)) values).

Definition scheduleReachedRunLimit (s : Schedule) : bool :=
  (0 <? MaxRunCount s) && (MaxRunCount s <=? CompletedRunCount s).

Definition scheduleExpired (s : Schedule) (referenceTime : instant) : bool :=
  match ExpiresAt s with
  | Some e => negb (IsZero e) && negb (After e referenceTime)
  | None => false
  end.

Lemma ScheduleTimeZoneName_trimmed tz :
  TrimSpace (ScheduleTimeZoneName tz) = ScheduleTimeZoneName tz.
Proof.
  unfold ScheduleTimeZoneName; case_bool_decide; [reflexivity|apply TrimSpace_idemp].
Qed.

Lemma ScheduleTimeZoneName_idemp tz :
  ScheduleTimeZoneName (ScheduleTimeZoneName tz) = ScheduleTimeZoneName tz.
Proof.
  unfold ScheduleTimeZoneName at 1; rewrite ScheduleTimeZoneName_trimmed.
  case_bool_decide as H; [|done].
  unfold ScheduleTimeZoneName in H; revert H; case_bool_decide; done.
Qed.

(** The first value that is not blank, trimmed; or the empty string. *)
Lemma firstNonBlank_spec values :
  let v := firstNonBlankScheduleValue values in
  (v <> "" /\ exists w, w ∈ values /\ v = TrimSpace w)
  \/ (v = "" /\ forall w, w ∈ values -> TrimSpace w = "").
Proof.
  cbn; unfold firstNonBlankScheduleValue.
  destruct (List.find _ values) as [w|] eqn:Hf; cbn.
  - apply find_some in Hf as [Hin Hw%negb_eq_true%blank_false]; left; split; [done|].
    exists w; split; [by apply list_elem_of_In|done].
  - right; split; [done|]; intros w Hw%list_elem_of_In.
    pose proof (find_none _ _ Hf _ Hw) as Hb; cbn in Hb.
    by apply negb_eq_false, blank_true in Hb.
Qed.
