(* ===== verification/Cron.v ===== *)
(** * Cron expressions ([scheduler.go]): the parser of the five fields, the
    matcher, and the minute-by-minute search for the next run. *)

From S2P Require Export Schedule.

(** ** Data *)

Record cronExpressionMatcher := MkMatcher {
  allowsAnyValue : bool;
  allowedValues : gset Z;
}.

Record parsedCronExpression := MkParsed {
  minute : cronExpressionMatcher;
  hour : cronExpressionMatcher;
  dayOfMonth : cronExpressionMatcher;
  month : cronExpressionMatcher;
  dayOfWeek : cronExpressionMatcher;
}.

(** ** Parsing *)

Definition normalizeCronExpressionValue (value : Z) (wrapsSevenToZero : bool) : Z :=
  if wrapsSevenToZero && (value =? 7) then 0 else value.

Definition parseCronExpressionValue (valueText : string) (minimumValue maximumValue : Z)
    (wrapsSevenToZero : bool) : result ScheduleError Z :=
  match Atoi valueText with
  | None => Err errorInvalidCronExpression
  | Some value =>
    if (value <? minimumValue) || (maximumValue <? value) then Err errorInvalidCronExpression
    else Ok (normalizeCronExpressionValue value wrapsSevenToZero)
  end.

Definition parseCronExpressionRange (rangeText : string) (minimumValue maximumValue : Z)
    (wrapsSevenToZero : bool) : result ScheduleError (Z * Z) :=
  if bool_decide (rangeText = "*") || bool_decide (rangeText = "") then
    Ok (minimumValue, maximumValue)
  else if has_byte rangeText "-"%char then
    match SplitN2 rangeText "-"%char with
    | [before; after] =>
      startValue ← parseCronExpressionValue before minimumValue maximumValue wrapsSevenToZero;
      endValue ← parseCronExpressionValue after minimumValue maximumValue wrapsSevenToZero;
      if endValue <? startValue then Err errorInvalidCronExpression
      else Ok (startValue, endValue)
    | _ => Err errorInvalidCronExpression
    end
  else
    value ← parseCronExpressionValue rangeText minimumValue maximumValue wrapsSevenToZero;
    Ok (value, value).

(** [for candidate := start; candidate <= end; candidate += step]; the sum is
    an [int] and wraps.  [None]: the fuel ran out. *)
Fixpoint addCronExpressionValues (fuel : nat) (candidateValue endValue stepValue : Z)
    (wrapsSevenToZero : bool) (values : gset Z) : option (gset Z) :=
  match fuel with
  | O => None
  | S fuel' =>
    if candidateValue <=? endValue then
      addCronExpressionValues fuel' (wrap64 (candidateValue + stepValue)) endValue stepValue
        wrapsSevenToZero
        ({[normalizeCronExpressionValue candidateValue wrapsSevenToZero]} ∪ values)
    else Some values
  end.

Definition cron_segment_fuel : nat := 128.

(** The range and the step of a segment, [range/step] or [range]. *)
Definition cronSegmentParts (segment : string) : result ScheduleError (string * Z) :=
  if has_byte segment "/"%char then
    match SplitN2 segment "/"%char with
    | [before; after] =>
      match Atoi after with
      | Some parsedStepValue =>
        if parsedStepValue <=? 0 then Err errorInvalidCronExpression
        else Ok (before, parsedStepValue)
      | None => Err errorInvalidCronExpression
      end
    | _ => Err errorInvalidCronExpression
    end
  else Ok (segment, 1).

Definition addCronExpressionSegment (segment : string) (minimumValue maximumValue : Z)
    (wrapsSevenToZero : bool) (values : gset Z) : result ScheduleError (gset Z) :=
  if bool_decide (segment = "") then Err errorInvalidCronExpression else
  '(rangeText, stepValue) ← cronSegmentParts segment;
  '(startValue, endValue) ←
    parseCronExpressionRange rangeText minimumValue maximumValue wrapsSevenToZero;
  match addCronExpressionValues cron_segment_fuel startValue endValue stepValue
          wrapsSevenToZero values with
  | Some values' => Ok values'
  | None => Err LoopDoesNotEnd
  end.

Fixpoint addCronExpressionSegments (segments : list string) (minimumValue maximumValue : Z)
    (wrapsSevenToZero : bool) (values : gset Z) : result ScheduleError (gset Z) :=
  match segments with
  | [] => Ok values
  | segment :: segments' =>
    values' ← addCronExpressionSegment (TrimSpace segment) minimumValue maximumValue
                wrapsSevenToZero values;
    addCronExpressionSegments segments' minimumValue maximumValue wrapsSevenToZero values'
  end.

Definition parseCronExpressionMatcher (fieldText : string) (minimumValue maximumValue : Z)
    (wrapsSevenToZero : bool) : result ScheduleError cronExpressionMatcher :=
  if bool_decide (fieldText = "*") then Ok (MkMatcher true ∅) else
  values ← addCronExpressionSegments (Split fieldText ","%char) minimumValue maximumValue
             wrapsSevenToZero ∅;
  if bool_decide (values = ∅) then Err errorInvalidCronExpression
  else Ok (MkMatcher false values).

Definition parseCronExpression (cronExpression : string)
  : result ScheduleError parsedCronExpression :=
  match Fields cronExpression with
  | [f0; f1; f2; f3; f4] =>
    minute ← parseCronExpressionMatcher f0 0 59 false;
    hour ← parseCronExpressionMatcher f1 0 23 false;
    dayOfMonth ← parseCronExpressionMatcher f2 1 31 false;
    month ← parseCronExpressionMatcher f3 1 12 false;
    dayOfWeek ← parseCronExpressionMatcher f4 0 7 true;
    Ok (MkParsed minute hour dayOfMonth month dayOfWeek)
  | _ => Err errorInvalidCronExpression
  end.

(** ** Matching *)

Definition matcher_matches (m : cronExpressionMatcher) (value : Z) : bool :=
  if allowsAnyValue m then true else bool_decide (value ∈ allowedValues m).

Definition matchesDay (p : parsedCronExpression) (loc : Location) (t : instant) : bool :=
  let matchesDayOfMonth := matcher_matches (dayOfMonth p) (day_of loc t) in
  let matchesDayOfWeek := matcher_matches (dayOfWeek p) (weekday_of loc t) in
  let hasDayOfMonthConstraint := negb (allowsAnyValue (dayOfMonth p)) in
  let hasDayOfWeekConstraint := negb (allowsAnyValue (dayOfWeek p)) in
  if hasDayOfMonthConstraint && hasDayOfWeekConstraint then
    matchesDayOfMonth || matchesDayOfWeek
  else if hasDayOfMonthConstraint then matchesDayOfMonth
  else if hasDayOfWeekConstraint then matchesDayOfWeek
  else true.

Definition cron_matches (p : parsedCronExpression) (loc : Location) (t : instant) : bool :=
  if negb (matcher_matches (minute p) (minute_of loc t)) then false
  else if negb (matcher_matches (hour p) (hour_of loc t)) then false
  else if negb (matcher_matches (month p) (month_of loc t)) then false
  else matchesDay p loc t.

(** ** The search *)

(** [for !candidate.After(searchLimit)]: [None] when the loop ends without a
    match. *)
Fixpoint searchNextRunAt (fuel : nat) (p : parsedCronExpression) (loc : Location)
    (candidateTime searchLimit : instant) : option instant :=
  match fuel with
  | O => None
  | S fuel' =>
    if After candidateTime searchLimit then None
    else if cron_matches p loc candidateTime then Some candidateTime
    else searchNextRunAt fuel' p loc (Add candidateTime Minute) searchLimit
  end.

(** Iterations until the candidate passes the limit, and the test that sees it. *)
Definition search_fuel (candidateTime searchLimit : instant) : nat :=
  Z.to_nat ((searchLimit - candidateTime) / Minute + 2).

Definition findNextRunAt (p : parsedCronExpression) (loc : Location) (referenceTime : instant)
  : result ScheduleError instant :=
  let candidateTime := Truncate referenceTime Minute in
  let candidateTime :=
    if negb (After candidateTime referenceTime) then Add candidateTime Minute
    else candidateTime in
  let searchLimit := AddDate loc candidateTime 5 0 in
  match searchNextRunAt (search_fuel candidateTime searchLimit) p loc candidateTime
          searchLimit with
  | Some t => Ok t
  | None => Err errorUnableToFindNextTaskRun
  end.

(** ** The loop of a segment *)

(** The fields of an expression lie between 0 and 59. *)
Definition small (z : Z) : Prop := 0 <= z <= 59.

(** A step that keeps the candidate an [int] advances it to the end. *)
Lemma addCronExpressionValues_ends_small fuel c e k w vs :
  small c -> small e -> 1 <= k <= int64_max - 59 -> 60 - c < Z.of_nat fuel ->
  is_Some (addCronExpressionValues fuel c e k w vs).
Proof.
  unfold small; revert c vs; induction fuel as [|fuel IH]; intros c vs Hc He Hk Hf; [lia|].
  cbn [addCronExpressionValues]; destruct (c <=? e) eqn:Hce; bool_to_prop; [|eauto].
  rewrite wrap64_id by (unfold int64_min, int64_max in *; lia).
  destruct (decide (c + k <= 59)); [apply IH; lia|].
  destruct fuel; [lia|]; cbn [addCronExpressionValues].
  destruct (c + k <=? e) eqn:?; bool_to_prop; [lia|eauto].
Qed.

(** A larger step wraps: two iterations take a candidate down by at least two,
    until the sum stays above the end. *)
Lemma addCronExpressionValues_ends_wrapping fuel c e k w vs :
  small c -> small e -> int64_max - 59 < k <= int64_max -> c + 4 <= Z.of_nat fuel ->
  is_Some (addCronExpressionValues fuel c e k w vs).
Proof.
  unfold small, int64_max; remember (Z.to_nat c) as n eqn:Hn.
  revert fuel c vs Hn; induction (lt_wf n) as [n _ IH]; intros fuel c vs -> Hc He Hk Hf.
  destruct fuel as [|fuel]; [lia|]; cbn [addCronExpressionValues].
  destruct (c <=? e) eqn:?; bool_to_prop; [|eauto].
  destruct (decide (c + k <= int64_max)) as [Hle|Hgt]; unfold int64_max in *.
  - rewrite wrap64_id by (unfold int64_min, int64_max; lia).
    destruct fuel; [lia|]; cbn [addCronExpressionValues].
    destruct (c + k <=? e) eqn:?; bool_to_prop; [lia|eauto].
  - rewrite wrap64_above by (unfold int64_max; lia).
    destruct fuel as [|fuel]; [lia|]; cbn [addCronExpressionValues].
    destruct (c + k - 2 ^ 64 <=? e) eqn:?; bool_to_prop; [|eauto].
    rewrite wrap64_id by (unfold int64_min, int64_max; lia).
    destruct (decide (0 <= c + k - 2 ^ 64 + k)).
    + eapply IH; [|reflexivity|lia..]; lia.
    + destruct fuel as [|fuel]; [lia|]; cbn [addCronExpressionValues].
      destruct (c + k - 2 ^ 64 + k <=? e) eqn:?; bool_to_prop; [|eauto].
      rewrite wrap64_id by (unfold int64_min, int64_max; lia).
      destruct fuel; [lia|]; cbn [addCronExpressionValues].
      destruct (c + k - 2 ^ 64 + k + k <=? e) eqn:?; bool_to_prop; [lia|eauto].
Qed.

Lemma addCronExpressionValues_ends c e k w vs :
  small c -> small e -> 1 <= k <= int64_max ->
  is_Some (addCronExpressionValues cron_segment_fuel c e k w vs).
Proof.
  intros Hc He Hk; destruct (decide (k <= int64_max - 59)).
  - apply addCronExpressionValues_ends_small; unfold small, cron_segment_fuel in *; lia.
  - apply addCronExpressionValues_ends_wrapping; unfold small, cron_segment_fuel in *; lia.
Qed.

(** The values it adds, when no sum leaves [int]: the progression from the
    start by the step, up to the end. *)
Lemma addCronExpressionValues_spec fuel c e k w vs vs' :
  0 <= c -> small e -> 1 <= k <= int64_max - 59 ->
  addCronExpressionValues fuel c e k w vs = Some vs' ->
  forall v, v ∈ vs' <->
    v ∈ vs \/ exists i, 0 <= i /\ c + i * k <= e /\ v = normalizeCronExpressionValue (c + i * k) w.
Proof.
  unfold small; revert c vs; induction fuel as [|fuel IH]; intros c vs Hc He Hk Hrun v; [done|].
  cbn [addCronExpressionValues] in Hrun; destruct (c <=? e) eqn:Hce; bool_to_prop.
  - rewrite wrap64_id in Hrun by (unfold int64_min, int64_max in *; lia).
    rewrite (IH (c + k) _ ltac:(lia) He Hk Hrun), elem_of_union, elem_of_singleton; split.
    + intros [[->|?]|(i & ? & ? & ->)]; [right; exists 0|by left|right; exists (i + 1)].
      * replace (c + 0 * k) with c by lia; split_and!; [lia..|done].
      * replace (c + (i + 1) * k) with (c + k + i * k) by lia; split_and!; [lia..|done].
    + intros [?|(i & ? & ? & ->)]; [by left; right|].
      destruct (decide (i = 0)) as [->|]; [left; left; f_equal; lia|].
      right; exists (i - 1); replace (c + k + (i - 1) * k) with (c + i * k) by lia.
      split_and!; [lia..|done].
  - injection Hrun as <-; split; [by left|].
    intros [?|(i & ? & ? & ->)]; [done|nia].
Qed.

(** ** Ranges, segments, matchers *)

Lemma parseCronExpressionValue_small t lo hi w v :
  small lo -> small hi -> parseCronExpressionValue t lo hi w = Ok v -> small v.
Proof.
  unfold small, parseCronExpressionValue, normalizeCronExpressionValue; intros Hlo Hhi Hv.
  destruct (Atoi t); [|done]; split_match_in Hv; [done|]; bool_to_prop; run_inv.
  split_match; lia.
Qed.

Lemma parseCronExpressionValue_error t lo hi w e :
  parseCronExpressionValue t lo hi w = Err e -> e = errorInvalidCronExpression.
Proof.
  unfold parseCronExpressionValue; intros H.
  repeat split_match_in H; congruence.
Qed.

Lemma parseCronExpressionRange_small t lo hi w s e :
  small lo -> small hi -> parseCronExpressionRange t lo hi w = Ok (s, e) -> small s /\ small e.
Proof.
  unfold parseCronExpressionRange; intros Hlo Hhi H.
  split_match_in H; [by injection H as <- <-|].
  split_match_in H.
  - destruct (SplitN2 t "-"%char) as [|x [|y [|? ?]]]; try done; run_inv.
    split_match_in H; [done|]; injection H as -> ->.
    split; eapply (parseCronExpressionValue_small _ lo hi w); eauto.
  - apply bind_Ok in H as (v & Hv & H); injection H as <- <-.
    split; eapply (parseCronExpressionValue_small _ lo hi w); eauto.
Qed.

Lemma parseCronExpressionRange_error t lo hi w e :
  parseCronExpressionRange t lo hi w = Err e -> e = errorInvalidCronExpression.
Proof.
  unfold parseCronExpressionRange; intros H.
  split_match_in H; [done|].
  split_match_in H.
  - destruct (SplitN2 t "-"%char) as [|x [|y [|? ?]]]; try congruence.
    apply bind_Err in H as [H|(? & _ & H)]; [by eapply parseCronExpressionValue_error|].
    apply bind_Err in H as [H|(? & _ & H)]; [by eapply parseCronExpressionValue_error|].
    split_match_in H; congruence.
  - apply bind_Err in H as [H|(? & _ & H)]; [by eapply parseCronExpressionValue_error|done].
Qed.

Lemma cronSegmentParts_step segment range k :
  cronSegmentParts segment = Ok (range, k) -> 1 <= k <= int64_max.
Proof.
  unfold cronSegmentParts; intros H; repeat split_match_in H; try done; bool_to_prop.
  - injection H as <- <-; match goal with Ha : Atoi _ = _ |- _ => apply Atoi_range in Ha end; lia.
  - injection H as _ <-; unfold int64_max; lia.
Qed.

Lemma cronSegmentParts_error segment e :
  cronSegmentParts segment = Err e -> e = errorInvalidCronExpression.
Proof. unfold cronSegmentParts; intros H; repeat split_match_in H; congruence. Qed.

Lemma addCronExpressionSegment_error segment lo hi w vs e :
  small lo -> small hi ->
  addCronExpressionSegment segment lo hi w vs = Err e -> e = errorInvalidCronExpression.
Proof.
  unfold addCronExpressionSegment; intros Hlo Hhi H; split_match_in H; [congruence|].
  apply bind_Err in H as [H|([range k] & Hk & H)]; [by eapply cronSegmentParts_error|].
  apply bind_Err in H as [H|([s e'] & Hr & H)]; [by eapply parseCronExpressionRange_error|].
  apply parseCronExpressionRange_small in Hr as [Hs He]; [|done..].
  apply cronSegmentParts_step in Hk.
  destruct (addCronExpressionValues_ends s e' k w vs) as [vs' Hvs']; [done..|].
  by rewrite Hvs' in H.
Qed.

Lemma addCronExpressionSegments_error segments lo hi w vs e :
  small lo -> small hi ->
  addCronExpressionSegments segments lo hi w vs = Err e -> e = errorInvalidCronExpression.
Proof.
  intros Hlo Hhi; revert vs; induction segments as [|segment segments IH]; intros vs H; [done|].
  cbn [addCronExpressionSegments] in H.
  apply bind_Err in H as [H|(vs' & _ & H)]; [|by eapply IH].
  by eapply addCronExpressionSegment_error in H.
Qed.

Lemma parseCronExpressionMatcher_error t lo hi w e :
  small lo -> small hi ->
  parseCronExpressionMatcher t lo hi w = Err e -> e = errorInvalidCronExpression.
Proof.
  unfold parseCronExpressionMatcher; intros Hlo Hhi H; split_match_in H; [done|].
  apply bind_Err in H as [H|(vs & _ & H)]; [by eapply addCronExpressionSegments_error in H|].
  split_match_in H; congruence.
Qed.

(** What a segment selects: the values [start + i * step] of its range. *)
Definition segment_selects (segment : string) (lo hi : Z) (wraps : bool) (v : Z) : Prop :=
  exists range step s e i,
    cronSegmentParts segment = Ok (range, step) /\
    parseCronExpressionRange range lo hi wraps = Ok (s, e) /\
    0 <= i /\ s + i * step <= e /\ v = normalizeCronExpressionValue (s + i * step) wraps.

(** The step leaves room for the largest field value below [math.MaxInt]. *)
Definition step_fits (segment : string) : bool :=
  match cronSegmentParts segment with
  | Ok (_, step) => step <=? int64_max - 59
  | Err _ => true
  end.

Lemma addCronExpressionSegment_spec segment lo hi w vs vs' :
  small lo -> small hi -> step_fits segment = true ->
  addCronExpressionSegment segment lo hi w vs = Ok vs' ->
  forall v, v ∈ vs' <-> v ∈ vs \/ segment_selects segment lo hi w v.
Proof.
  unfold addCronExpressionSegment, segment_selects; intros Hlo Hhi Hfit H v.
  split_match_in H; [done|].
  apply bind_Ok in H as ([range k] & Hk & H); apply bind_Ok in H as ([s e] & Hr & H).
  destruct (addCronExpressionValues _ _ _ _ _ _) eqn:Hrun in H; [|done].
  injection H as ->.
  pose proof (cronSegmentParts_step _ _ _ Hk).
  unfold step_fits in Hfit; rewrite Hk in Hfit; bool_to_prop.
  pose proof (parseCronExpressionRange_small _ _ _ _ _ _ Hlo Hhi Hr) as [Hs He].
  assert (0 <= s) by (unfold small in Hs; lia).
  eapply (addCronExpressionValues_spec _ s e k w vs vs') with (v := v) in Hrun; [|done|done|lia].
  rewrite Hrun, Hk; split.
  - intros [?|(i & ? & ? & ?)]; [by left|right]; exists range, k, s, e, i; done.
  - intros [?|(? & ? & ? & ? & i & [= <- <-] & Hr' & ? & ? & ?)]; [by left|right].
    rewrite Hr in Hr'; injection Hr' as <- <-; by exists i.
Qed.

Lemma addCronExpressionSegments_spec segments lo hi w vs vs' :
  small lo -> small hi -> forallb (fun s => step_fits (TrimSpace s)) segments = true ->
  addCronExpressionSegments segments lo hi w vs = Ok vs' ->
  forall v, v ∈ vs' <->
    v ∈ vs \/ exists s, s ∈ segments /\ segment_selects (TrimSpace s) lo hi w v.
Proof.
  intros Hlo Hhi; revert vs; induction segments as [|s ss IH]; intros vs Hfit H v.
  - injection H as ->; split; [by left|].
    by intros [?|(s & []%elem_of_nil & _)].
  - cbn [addCronExpressionSegments] in H; apply bind_Ok in H as (vs1 & H1 & H).
    cbn [forallb] in Hfit; apply andb_true_iff in Hfit as [Hs Hfit].
    rewrite (IH _ Hfit H), (addCronExpressionSegment_spec _ _ _ _ _ _ Hlo Hhi Hs H1); split.
    + intros [[?|?]|(s' & ? & ?)]; [by left|right; exists s|right; exists s'];
        rewrite elem_of_cons; auto.
    + intros [?|(s' & [->|?]%elem_of_cons & ?)]; [by left; left|by left; right|].
      right; by exists s'.
Qed.

(** ** The search for the next run *)

(** The last instant the search looks at: five calendar years, in the location
    of the schedule, after the first candidate. *)
Definition search_limit (loc : Location) (referenceTime : instant) : instant :=
  AddDate loc (Add (Truncate referenceTime Minute) Minute) 5 0.

Lemma first_candidate t :
  (if negb (After (Truncate t Minute) t) then Add (Truncate t Minute) Minute
   else Truncate t Minute) = Add (Truncate t Minute) Minute.
Proof.
  unfold After, Truncate, Minute, Second.
  destruct (negb _) eqn:H; [done|]; bool_to_prop; div_lia.
Qed.

Lemma searchNextRunAt_spec fuel p loc c limit :
  (limit - c) / Minute + 2 <= Z.of_nat fuel ->
  match searchNextRunAt fuel p loc c limit with
  | Some n => exists i, 0 <= i /\ n = c + i * Minute /\ n <= limit /\ cron_matches p loc n = true /\
      forall j, 0 <= j < i -> cron_matches p loc (c + j * Minute) = false
  | None => forall j, 0 <= j -> c + j * Minute <= limit ->
      cron_matches p loc (c + j * Minute) = false
  end.
Proof.
  revert c; induction fuel as [|fuel IH]; intros c Hf; cbn [searchNextRunAt].
  - intros j Hj Hle; unfold Minute, Second in *; div_lia.
  - unfold After; destruct (limit <? c) eqn:Hl; bool_to_prop.
    { intros j Hj Hle; unfold Minute, Second in *; lia. }
    destruct (cron_matches p loc c) eqn:Hm.
    { exists 0; replace (c + 0 * Minute) with c by lia; split_and!; [lia..|done|lia]. }
    specialize (IH (Add c Minute)); unfold Add in *.
    assert (H0 : cron_matches p loc (c + 0 * Minute) = false)
      by (replace (c + 0 * Minute) with c by lia; done).
    assert (Hstep : forall j, c + Minute + (j - 1) * Minute = c + j * Minute) by lia.
    assert (Hf' : (limit - (c + Minute)) / Minute + 2 <= Z.of_nat fuel)
      by (unfold Minute, Second in *; div_lia).
    specialize (IH Hf').
    destruct (searchNextRunAt fuel p loc (c + Minute) limit) as [n|].
    + destruct IH as (i & Hi & -> & Hn & Hmn & Hleast); exists (i + 1).
      replace (c + (i + 1) * Minute) with (c + Minute + i * Minute) by lia.
      split_and!; [lia|done..|]; intros j Hj.
      destruct (decide (j = 0)) as [->|]; [done|].
      rewrite <- Hstep; apply Hleast; lia.
    + intros j Hj Hle; destruct (decide (j = 0)) as [->|]; [done|].
      rewrite <- Hstep; apply IH; [lia|]; by rewrite Hstep.
Qed.

(** The instants of the search are the whole minutes after the reference. *)
Lemma minute_after t m :
  t < m -> m mod Minute = 0 -> exists j, 0 <= j /\ m = Truncate t Minute + Minute + j * Minute.
Proof.
  unfold Truncate, Minute, Second; intros Ht Hm.
  exists ((m - t - 1) / 60000000000); split; [|]; div_lia.
Qed.

Lemma minute_after_grid t i :
  0 <= i ->
  t < Truncate t Minute + Minute + i * Minute /\
  (Truncate t Minute + Minute + i * Minute) mod Minute = 0.
Proof. unfold Truncate, Minute, Second; intros; split; div_lia. Qed.

Lemma findNextRunAt_Ok p loc t n :
  findNextRunAt p loc t = Ok n ->
  t < n /\ n mod Minute = 0 /\ n <= search_limit loc t /\ cron_matches p loc n = true /\
  forall m, t < m < n -> m mod Minute = 0 -> cron_matches p loc m = false.
Proof.
  unfold findNextRunAt; rewrite first_candidate; intros H.
  pose proof (searchNextRunAt_spec (search_fuel (Add (Truncate t Minute) Minute) (search_limit loc t))
    p loc (Add (Truncate t Minute) Minute) (search_limit loc t)) as Hs.
  fold (search_limit loc t) in H; destruct (searchNextRunAt _ _ _ _ _) as [n'|]; [|done].
  injection H as ->.
  destruct Hs as (i & Hi & -> & Hlim & Hm & Hleast); [unfold search_fuel; lia|].
  unfold Add in *; destruct (minute_after_grid t i Hi) as [Hgt Hgrid].
  split_and!; [done..|]; intros m [Htm Hmn] Hmod.
  destruct (minute_after t m Htm Hmod) as (j & Hj & ->).
  apply Hleast; unfold Minute, Second in *; lia.
Qed.

Lemma findNextRunAt_Err p loc t e :
  findNextRunAt p loc t = Err e ->
  e = errorUnableToFindNextTaskRun /\
  forall m, t < m <= search_limit loc t -> m mod Minute = 0 -> cron_matches p loc m = false.
Proof.
  unfold findNextRunAt; rewrite first_candidate; intros H.
  pose proof (searchNextRunAt_spec (search_fuel (Add (Truncate t Minute) Minute) (search_limit loc t))
    p loc (Add (Truncate t Minute) Minute) (search_limit loc t)) as Hs.
  fold (search_limit loc t) in H; destruct (searchNextRunAt _ _ _ _ _) as [n'|]; [done|].
  injection H as <-; split; [done|]; intros m [Htm Hmn] Hmod.
  destruct (minute_after t m Htm Hmod) as (j & Hj & ->); unfold Add in Hs.
  apply Hs; [unfold search_fuel, Add; lia|done|done].
Qed.

(** ** Properties *)

(** C40. The search for the next run of a cron schedule is exact: the run it
    returns is the first whole minute strictly after the reference that the
    expression matches, and it reports that there is none only when no minute
    of the next five calendar years matches. *)
Theorem findNextRunAt_exact p loc t :
  match findNextRunAt p loc t with
  | Ok n =>
    t < n <= search_limit loc t /\ n mod Minute = 0 /\ cron_matches p loc n = true /\
    forall m, t < m < n -> m mod Minute = 0 -> cron_matches p loc m = false
  | Err e =>
    e = errorUnableToFindNextTaskRun /\
    forall m, t < m <= search_limit loc t -> m mod Minute = 0 -> cron_matches p loc m = false
  end.
Proof.
  destruct (findNextRunAt p loc t) as [n|e] eqn:H.
  - apply findNextRunAt_Ok in H as (? & ? & ? & ? & ?); by split_and!.
  - by apply findNextRunAt_Err in H.
Qed.

(** Parsing a cron expression always ends, the step loops of its segments
    included, and refuses only with the one error of the parser. *)
Theorem parseCronExpression_total text e :
  parseCronExpression text = Err e -> e = errorInvalidCronExpression.
Proof.
  unfold parseCronExpression; intros H.
  destruct (Fields text) as [|f0 [|f1 [|f2 [|f3 [|f4 [|? ?]]]]]]; try congruence.
  repeat (apply bind_Err in H as [H|(? & _ & H)];
          [by eapply parseCronExpressionMatcher_error in H; [|unfold small; lia..]|]).
  done.
Qed.

Lemma parseCronExpression_total_witness :
  parseCronExpression "0 9 * *" = Err errorInvalidCronExpression /\
  errorInvalidCronExpression = errorInvalidCronExpression.
Proof.
  split; [vm_compute; reflexivity|].
  apply (parseCronExpression_total "0 9 * *"); vm_compute; reflexivity.
Defined.

(** A field of an expression selects exactly the values its segments
    denote: the range, or the single value, taken from its start by the step;
    ["*"] alone selects every value.  The step is bounded so that no sum
    leaves [int]. *)
Theorem parseCronExpressionMatcher_selects text lo hi wraps m v :
  small lo -> small hi ->
  forallb (fun s => step_fits (TrimSpace s)) (Split text ","%char) = true ->
  parseCronExpressionMatcher text lo hi wraps = Ok m ->
  matcher_matches m v = true <->
  text = "*" \/ exists s, s ∈ Split text ","%char /\ segment_selects (TrimSpace s) lo hi wraps v.
Proof.
  unfold parseCronExpressionMatcher; intros Hlo Hhi Hfit H.
  case_bool_decide as Ht; [injection H as <-; by split; [left|]|].
  apply bind_Ok in H as (vs & Hvs & H).
  split_match_in H; [done|]; injection H as <-.
  unfold matcher_matches; cbn [allowsAnyValue allowedValues].
  rewrite bool_decide_eq_true, (addCronExpressionSegments_spec _ _ _ _ _ _ Hlo Hhi Hfit Hvs).
  rewrite elem_of_empty; tauto.
Qed.

(** Every quarter of an hour. *)
Lemma parseCronExpressionMatcher_selects_witness :
  matcher_matches (MkMatcher false {[0; 15; 30; 45]}) 30 = true <->
  "*/15" = "*" \/ exists s, s ∈ Split "*/15" ","%char /\ segment_selects (TrimSpace s) 0 59 false 30.
Proof.
  apply (parseCronExpressionMatcher_selects "*/15" 0 59 false).
  - unfold small; lia.
  - unfold small; lia.
  - vm_compute; reflexivity.
  - vm_compute; reflexivity.
Defined.

(** ** What the parser accepts beyond the usual reading *)

(** "Sunday to Sunday" in the day-of-week field is Sunday alone: both bounds
    are normalized before the range is walked; and "Monday to Sunday" is
    refused, its start exceeding its normalized end. *)
Lemma dayOfWeek_zero_to_seven :
  parseCronExpressionMatcher "0-7" 0 7 true = Ok (MkMatcher false {[0]}) /\
  parseCronExpressionMatcher "1-7" 0 7 true = Err errorInvalidCronExpression.
Proof. split; vm_compute; reflexivity. Qed.

(** A step close to [math.MaxInt] wraps the candidate and selects minutes that
    are no multiple of it. *)
Lemma step_wraps :
  exists m, parseCronExpressionMatcher "59/9223372036854775798" 0 59 false = Ok m /\
    matcher_matches m 39 = true /\ ~ segment_selects "59/9223372036854775798" 0 59 false 39.
Proof.
  eexists; split; [vm_compute; reflexivity|]; split; [vm_compute; reflexivity|].
  intros (range & step & s & e & i & Hp & Hr & Hi & Hle & Hv).
  vm_compute in Hp; injection Hp as <- <-; vm_compute in Hr; injection Hr as <- <-.
  unfold normalizeCronExpressionValue in Hv; cbn in Hv; lia.
Qed.
