(* ===== verification/Scheduler.v ===== *)
(** * The scheduler ([scheduler.go]): initialising and advancing a schedule,
    due times, the start window, and the three kinds of cadence. *)

From S2P Require Export Cron.

Definition ScheduledRunStartWindow : duration := 15 * Minute.

(** ** Cadences *)

(** Each returns the next run; [Ok None] is an inactive schedule. *)

Definition calculateOneTimeNextRunAt (schedule : Schedule) (referenceTime : instant)
  : result ScheduleError (option instant) :=
  match RunAt schedule with
  | None => Err errorInvalidSchedule
  | Some runAt =>
    match LastRunAt schedule with
    | Some _ => Ok None
    | None => if Before runAt referenceTime then Ok None else Ok (Some runAt)
    end
  end.

(** [for !nextRunAt.After(referenceTime)]; [None]: the fuel ran out. *)
Fixpoint advanceToReference (fuel : nat) (nextRunAt : instant) (intervalDuration : duration)
    (referenceTime : instant) : option instant :=
  match fuel with
  | O => None
  | S fuel' =>
    if After nextRunAt referenceTime then Some nextRunAt
    else advanceToReference fuel' (Add nextRunAt intervalDuration) intervalDuration referenceTime
  end.

(** A positive interval passes the reference within this many steps; any other
    never does while the instants stay in the range of [time.Time]. *)
Definition interval_fuel (baseTime : instant) (intervalDuration : duration)
    (referenceTime : instant) : nat :=
  Z.to_nat ((referenceTime - baseTime) / intervalDuration + 2).

Definition calculateIntervalNextRunAt (schedule : Schedule) (referenceTime : instant)
  : result ScheduleError (option instant) :=
  if IntervalSecond schedule <=? 0 then Err errorInvalidSchedule else
  let intervalDuration := duration_mul (IntervalSecond schedule) Second in
  if bool_decide (LastRunAt schedule = None) && bool_decide (RunAt schedule = None) then
    Ok (Some referenceTime)
  else
    let baseTime :=
      match LastRunAt schedule, RunAt schedule with
      | Some lastRunAt, _ => lastRunAt
      | None, Some runAt => runAt
      | None, None => referenceTime
      end in
    if After baseTime referenceTime then Ok (Some baseTime)
    else
      match advanceToReference (interval_fuel baseTime intervalDuration referenceTime)
              baseTime intervalDuration referenceTime with
      | Some nextRunAt => Ok (Some nextRunAt)
      | None => Err LoopDoesNotEnd
      end.

Section with_time_zones.
Context `{TimeZoneDatabase}.

Definition scheduleLocation (schedule : Schedule) : result ScheduleError Location :=
  match ScheduleLocation (TimeZone schedule) with
  | None => Err errorInvalidSchedule
  | Some location => Ok location
  end.

Definition calculateCronNextRunAt (schedule : Schedule) (referenceTime : instant)
  : result ScheduleError (option instant) :=
  if bool_decide (TrimSpace (CronExpression schedule) = "") then Err errorInvalidSchedule else
  location ← scheduleLocation schedule;
  parsedExpression ← parseCronExpression (CronExpression schedule);
  let searchTime :=
    match RunAt schedule with
    | Some runAt => if After runAt referenceTime then Add runAt (- Minute) else referenceTime
    | None => referenceTime
    end in
  nextRunAt ← findNextRunAt parsedExpression location searchTime;
  Ok (Some nextRunAt).

Definition calculateNextRunAt (schedule : Schedule) (referenceTime : instant)
  : result ScheduleError (option instant) :=
  match Kind schedule with
  | ScheduleKindOnce => calculateOneTimeNextRunAt schedule referenceTime
  | ScheduleKindInterval => calculateIntervalNextRunAt schedule referenceTime
  | ScheduleKindCron => calculateCronNextRunAt schedule referenceTime
  | ScheduleKindOther _ => Err errorInvalidSchedule
  end.

(** ** Initialising and advancing *)

Definition InitializeSchedule (schedule : Schedule) (referenceTime : instant)
  : result ScheduleError Schedule :=
  if scheduleReachedRunLimit schedule then Ok (set_NextRunAt None schedule) else
  if scheduleExpired schedule referenceTime then Ok (set_NextRunAt None schedule) else
  next ← calculateNextRunAt schedule referenceTime;
  match next with
  | None => Ok (set_NextRunAt None schedule)
  | Some nextRunAt => Ok (set_NextRunAt (Some nextRunAt) schedule)
  end.

Definition AdvanceSchedule (schedule : Schedule) (executedAt : instant)
  : result ScheduleError Schedule :=
  let schedule := set_LastRunAt (Some executedAt) schedule in
  let schedule := set_CompletedRunCount (wrap64 (CompletedRunCount schedule + 1)) schedule in
  if scheduleReachedRunLimit schedule then Ok (set_NextRunAt None schedule) else
  if scheduleExpired schedule executedAt then Ok (set_NextRunAt None schedule) else
  next ← calculateNextRunAt schedule executedAt;
  match next with
  | None => Ok (set_NextRunAt None schedule)
  | Some nextRunAt => Ok (set_NextRunAt (Some nextRunAt) schedule)
  end.

End with_time_zones.

(** ** Due schedules *)

Definition IsScheduleDue (schedule : Schedule) (referenceTime : instant) : bool :=
  if scheduleExpired schedule referenceTime then false
  else match NextRunAt schedule with
       | None => false
       | Some nextRunAt => negb (After nextRunAt referenceTime)
       end.

Definition HasOutlivedItsStartWindow (schedule : Schedule) (referenceTime : instant) : bool :=
  IsScheduleDue schedule referenceTime &&
  match NextRunAt schedule with
  | Some nextRunAt => ScheduledRunStartWindow <? Sub referenceTime nextRunAt
  | None => false
  end.

(** ** The interval loop *)

Lemma advanceToReference_ends base d ref fuel :
  1 <= d -> base <= ref -> (ref - base) / d + 2 <= Z.of_nat fuel ->
  advanceToReference fuel base d ref = Some (base + ((ref - base) / d + 1) * d).
Proof.
  revert base; induction fuel as [|fuel IH]; intros base Hd Hle Hf.
  - pose proof (Z.div_pos (ref - base) d); lia.
  - cbn [advanceToReference]; unfold After, Add.
    destruct (ref <? base) eqn:?; bool_to_prop; [lia|].
    destruct (decide (base + d <= ref)) as [Hin|Hout].
    + assert (Hdiv : (ref - (base + d)) / d = (ref - base) / d - 1).
      { replace (ref - (base + d)) with (ref - base + (-1) * d) by lia.
        rewrite Z.div_add by lia; lia. }
      rewrite IH by lia; f_equal; rewrite Hdiv; lia.
    + rewrite (Z.div_small (ref - base) d) in * by lia.
      destruct fuel; [lia|]; cbn [advanceToReference]; unfold After.
      destruct (ref <? base + d) eqn:?; bool_to_prop; [f_equal; lia|lia].
Qed.

(** A duration that is not positive never passes the reference. *)
Lemma advanceToReference_stuck fuel base d ref :
  d <= 0 -> base <= ref -> advanceToReference fuel base d ref = None.
Proof.
  revert base; induction fuel as [|fuel IH]; intros base Hd Hle; [done|].
  cbn [advanceToReference]; unfold After, Add.
  destruct (ref <? base) eqn:?; bool_to_prop; [lia|]; apply IH; lia.
Qed.

(** The largest interval whose duration is an [int64] of nanoseconds. *)
Definition max_interval_second : Z := 9223372036.

Lemma duration_mul_fits n :
  1 <= n <= max_interval_second -> duration_mul n Second = n * Second /\ 1 <= n * Second.
Proof.
  unfold duration_mul, max_interval_second, Second; intros.
  split; [apply wrap64_id; unfold int64_min, int64_max; lia|lia].
Qed.

Lemma calculateIntervalNextRunAt_spec s ref base :
  1 <= IntervalSecond s <= max_interval_second ->
  (LastRunAt s = Some base \/ LastRunAt s = None /\ RunAt s = Some base) ->
  let d := IntervalSecond s * Second in
  calculateIntervalNextRunAt s ref =
    Ok (Some (if After base ref then base else base + ((ref - base) / d + 1) * d)).
Proof.
  intros Hi Hbase d; unfold calculateIntervalNextRunAt.
  destruct (IntervalSecond s <=? 0) eqn:?; bool_to_prop; [lia|].
  destruct (duration_mul_fits _ Hi) as [Hd Hpos].
  assert (Hnot : bool_decide (LastRunAt s = None) && bool_decide (RunAt s = None) = false).
  { destruct Hbase as [->|[-> ->]]; [done|]; by rewrite andb_comm. }
  rewrite Hnot; set (b := match LastRunAt s with Some x => x | None => _ end).
  assert (b = base) as -> by (unfold b; destruct Hbase as [->|[-> ->]]; done).
  rewrite Hd; fold d; destruct (After base ref) eqn:Ha; [done|].
  unfold After in Ha; bool_to_prop.
  rewrite advanceToReference_ends; [done|lia..|].
  unfold interval_fuel; pose proof (Z.div_pos (ref - base) d); lia.
Qed.

(** ** Where the next run lies *)

(** The start of the schedule lies on a whole minute. *)
Definition run_at_on_minute (s : Schedule) : bool :=
  match RunAt s with Some runAt => runAt mod Minute =? 0 | None => true end.

(** The interval is one whose [time.Duration] does not overflow. *)
Definition interval_fits (s : Schedule) : bool := IntervalSecond s <=? max_interval_second.

Section next_run.
Context `{TimeZoneDatabase}.

Lemma calculateOneTimeNextRunAt_Some s ref n :
  calculateOneTimeNextRunAt s ref = Ok (Some n) ->
  RunAt s = Some n /\ LastRunAt s = None /\ ref <= n.
Proof.
  unfold calculateOneTimeNextRunAt, Before; intros Hc.
  destruct (RunAt s) as [r|]; [|done]; destruct (LastRunAt s); [done|].
  destruct (r <? ref) eqn:?; [done|]; bool_to_prop; injection Hc as ->; done.
Qed.

Lemma calculateIntervalNextRunAt_Some s ref n :
  interval_fits s = true -> calculateIntervalNextRunAt s ref = Ok (Some n) ->
  ref <= n /\ (LastRunAt s <> None \/ RunAt s <> None -> ref < n).
Proof.
  unfold interval_fits; intros Hf Hc; bool_to_prop.
  destruct (decide (1 <= IntervalSecond s)) as [Hi|Hi]; cycle 1.
  { unfold calculateIntervalNextRunAt in Hc.
    destruct (IntervalSecond s <=? 0) eqn:?; bool_to_prop; [done|lia]. }
  assert (Hcase : (exists base, LastRunAt s = Some base \/ LastRunAt s = None /\ RunAt s = Some base)
                  \/ LastRunAt s = None /\ RunAt s = None).
  { destruct (LastRunAt s), (RunAt s); eauto. }
  destruct Hcase as [[base Hbase]|[Hl Hr]].
  - erewrite calculateIntervalNextRunAt_spec in Hc by (exact Hbase || lia).
    injection Hc as <-; unfold After.
    destruct (duration_mul_fits (IntervalSecond s)) as [_ Hpos]; [lia|].
    destruct (ref <? base) eqn:?; bool_to_prop; [lia|].
    pose proof (Z.div_mod (ref - base) (IntervalSecond s * Second)).
    pose proof (Z.mod_pos_bound (ref - base) (IntervalSecond s * Second)); lia.
  - unfold calculateIntervalNextRunAt in Hc; rewrite Hl, Hr in Hc.
    destruct (IntervalSecond s <=? 0); [done|]; injection Hc as ->; intuition lia.
Qed.

(** A cron run lies after the reference, and not before the start when the
    start is on a whole minute. *)
Lemma calculateCronNextRunAt_Some s ref n :
  run_at_on_minute s = true -> calculateCronNextRunAt s ref = Ok (Some n) ->
  ref < n /\ (forall r, RunAt s = Some r -> ref < r -> r <= n) /\
  exists p loc, parseCronExpression (CronExpression s) = Ok p /\
    ScheduleLocation (TimeZone s) = Some loc /\
    n mod Minute = 0 /\ cron_matches p loc n = true.
Proof.
  unfold calculateCronNextRunAt, run_at_on_minute, scheduleLocation; intros Hr Hc.
  split_match_in Hc; [done|].
  apply bind_Ok in Hc as (loc & Hloc & Hc); destruct (ScheduleLocation (TimeZone s)) as [l|]; [|done].
  injection Hloc as ->.
  apply bind_Ok in Hc as (p & Hp & Hc); apply bind_Ok in Hc as (n' & Hn & Hc).
  injection Hc as ->; apply findNextRunAt_Ok in Hn as (Hgt & Hmod & _ & Hm & _).
  split; [|split; [|by exists p, loc]].
  - destruct (RunAt s) as [r|]; [|done]; unfold After, Add in *.
    destruct (ref <? r) eqn:?; bool_to_prop; [|done].
    revert Hgt Hmod Hr; unfold Minute, Second; intros; div_lia.
  - intros r' Hr' Hlt; rewrite Hr' in *; unfold After, Add in *.
    destruct (ref <? r') eqn:?; bool_to_prop; [|lia].
    revert Hgt Hmod Hr; unfold Minute, Second; intros; div_lia.
Qed.

Lemma calculateNextRunAt_not_before s ref n :
  (Kind s = ScheduleKindCron -> run_at_on_minute s = true) -> interval_fits s = true ->
  calculateNextRunAt s ref = Ok (Some n) ->
  ref <= n /\ (LastRunAt s <> None -> ref < n).
Proof.
  unfold calculateNextRunAt; intros Hr Hf Hc; destruct (Kind s) eqn:Hk.
  - apply calculateOneTimeNextRunAt_Some in Hc as (_ & ? & ?); by split.
  - apply calculateIntervalNextRunAt_Some in Hc as [? Hlt]; [|done]; split; [done|].
    intros; apply Hlt; by left.
  - apply calculateCronNextRunAt_Some in Hc as (? & _ & _); [|by apply Hr]; split; lia.
  - done.
Qed.

Lemma InitializeSchedule_cases s ref s' :
  InitializeSchedule s ref = Ok s' ->
  s' = set_NextRunAt (NextRunAt s') s /\
  (forall n, NextRunAt s' = Some n ->
    scheduleReachedRunLimit s = false /\ scheduleExpired s ref = false /\
    calculateNextRunAt s ref = Ok (Some n)).
Proof.
  unfold InitializeSchedule; intros Hrun.
  destruct (scheduleReachedRunLimit s); [injection Hrun as <-; by split|].
  destruct (scheduleExpired s ref); [injection Hrun as <-; by split|].
  apply bind_Ok in Hrun as ([n|] & Hn & Hrun); injection Hrun as <-; [|by split].
  split; [done|]; intros n' [= <-]; done.
Qed.

(** The schedule as an execution at [executedAt] leaves it, its next run apart. *)
Definition executed (s : Schedule) (executedAt : instant) : Schedule :=
  set_CompletedRunCount (wrap64 (CompletedRunCount s + 1)) (set_LastRunAt (Some executedAt) s).

Lemma AdvanceSchedule_Initialize s t : AdvanceSchedule s t = InitializeSchedule (executed s t) t.
Proof. done. Qed.

Lemma AdvanceSchedule_cases s t s' :
  AdvanceSchedule s t = Ok s' ->
  s' = set_NextRunAt (NextRunAt s') (executed s t) /\
  (forall n, NextRunAt s' = Some n ->
    scheduleReachedRunLimit (executed s t) = false /\ scheduleExpired s t = false /\
    calculateNextRunAt (executed s t) t = Ok (Some n)).
Proof.
  rewrite AdvanceSchedule_Initialize; change (scheduleExpired s t) with (scheduleExpired (executed s t) t).
  apply InitializeSchedule_cases.
Qed.

(** ** Executions *)

(** The executions of a schedule: at each instant of the list it is due, runs,
    and is advanced. *)
Inductive executes : Schedule -> list instant -> Schedule -> Prop :=
| executes_nil s : executes s [] s
| executes_cons s t s' ts s'' :
    IsScheduleDue s t = true -> AdvanceSchedule s t = Ok s' ->
    executes s' ts s'' -> executes s (t :: ts) s''.

(** A schedule with a next run has not reached its limit, and if it runs once
    it has not run. *)
Definition schedule_open (s : Schedule) : bool :=
  bool_decide (NextRunAt s = None) ||
  negb (scheduleReachedRunLimit s) &&
  negb (bool_decide (Kind s = ScheduleKindOnce) && negb (bool_decide (LastRunAt s = None))).

Lemma IsScheduleDue_true s t :
  IsScheduleDue s t = true <->
  scheduleExpired s t = false /\ exists n, NextRunAt s = Some n /\ n <= t.
Proof.
  unfold IsScheduleDue, After; destruct (scheduleExpired s t); [by split; [|intros [? _]]|].
  destruct (NextRunAt s) as [n|]; split.
  - intros ?; bool_to_prop; split; [done|by exists n].
  - intros [_ (n' & [= <-] & ?)]; destruct (t <? n) eqn:?; bool_to_prop; [lia|done].
  - done.
  - by intros [_ (? & ? & _)].
Qed.

Lemma schedule_open_NextRunAt s n :
  NextRunAt s = Some n -> schedule_open s = true ->
  scheduleReachedRunLimit s = false /\ (Kind s = ScheduleKindOnce -> LastRunAt s = None).
Proof.
  unfold schedule_open; intros -> Ho; cbn in Ho; bool_to_prop; split; [done|intros Hk].
  destruct (LastRunAt s); [|done].
  by rewrite (bool_decide_eq_true_2 _ Hk) in *.
Qed.

Lemma InitializeSchedule_open s ref s' :
  InitializeSchedule s ref = Ok s' -> schedule_open s' = true.
Proof.
  intros Hi; apply InitializeSchedule_cases in Hi as [-> Hn].
  unfold schedule_open; cbn [NextRunAt set_NextRunAt Kind LastRunAt].
  destruct (NextRunAt s') as [n|]; [|done]; cbn [bool_decide orb].
  destruct (Hn n) as (Hl & _ & Hc); [done|].
  change (scheduleReachedRunLimit (set_NextRunAt (Some n) s)) with (scheduleReachedRunLimit s).
  rewrite Hl, bool_decide_eq_false_2 by done; cbn [negb andb orb].
  unfold calculateNextRunAt in Hc; destruct (decide (Kind s = ScheduleKindOnce)) as [Hk|Hk].
  - rewrite Hk in Hc; apply calculateOneTimeNextRunAt_Some in Hc as (_ & -> & _).
    by rewrite andb_false_r.
  - by rewrite (bool_decide_eq_false_2 _ Hk).
Qed.

Lemma AdvanceSchedule_open s t s' : AdvanceSchedule s t = Ok s' -> schedule_open s' = true.
Proof. rewrite AdvanceSchedule_Initialize; apply InitializeSchedule_open. Qed.

(** The runs a bounded schedule still has. *)
Lemma executes_bounded s ts s' :
  executes s ts s' -> schedule_open s = true -> 0 <= CompletedRunCount s ->
  0 < MaxRunCount s <= int64_max ->
  Z.of_nat (length ts) <= Z.max 0 (MaxRunCount s - CompletedRunCount s).
Proof.
  induction 1 as [|s t s1 ts s2 Hdue Hadv _ IH]; intros Ho Hc Hm; [cbn; lia|].
  apply IsScheduleDue_true in Hdue as [_ (n & Hn & _)].
  apply (schedule_open_NextRunAt _ _ Hn) in Ho as [Hlim _].
  pose proof (AdvanceSchedule_open _ _ _ Hadv) as Ho1.
  apply AdvanceSchedule_cases in Hadv as [Hs1 _].
  assert (Hcount : CompletedRunCount s1 = CompletedRunCount s + 1 /\ MaxRunCount s1 = MaxRunCount s
                   /\ CompletedRunCount s < MaxRunCount s).
  { unfold scheduleReachedRunLimit in Hlim.
    destruct (0 <? MaxRunCount s) eqn:?; bool_to_prop; [|lia].
    cbn in Hlim; bool_to_prop.
    rewrite Hs1; cbn [CompletedRunCount MaxRunCount set_NextRunAt executed
      set_CompletedRunCount set_LastRunAt].
    rewrite wrap64_id by (unfold int64_min; lia); lia. }
  destruct Hcount as (Hc1 & Hm1 & Hlt); rewrite Hc1, Hm1 in IH; cbn [length].
  specialize (IH Ho1 ltac:(lia) Hm); lia.
Qed.

Lemma executes_once s ts s' :
  executes s ts s' -> schedule_open s = true -> Kind s = ScheduleKindOnce ->
  (LastRunAt s <> None -> ts = []) /\ (length ts <= 1)%nat.
Proof.
  induction 1 as [|s t s1 ts s2 Hdue Hadv _ IH]; intros Ho Hk; [by split; [|cbn; lia]|].
  apply IsScheduleDue_true in Hdue as [_ (n & Hn & _)].
  apply (schedule_open_NextRunAt _ _ Hn) in Ho as [_ Hlast]; specialize (Hlast Hk).
  pose proof (AdvanceSchedule_open _ _ _ Hadv) as Ho1.
  apply AdvanceSchedule_cases in Hadv as [Hs1 _].
  assert (Kind s1 = ScheduleKindOnce /\ LastRunAt s1 = Some t) as [Hk1 Hl1] by (by rewrite Hs1).
  destruct (IH Ho1 Hk1) as [Hnil _]; rewrite Hnil by (by rewrite Hl1).
  split; [by rewrite Hlast|cbn; lia].
Qed.

Lemma executes_before_expiry s ts s' t :
  executes s ts s' -> t ∈ ts -> scheduleExpired s t = false.
Proof.
  induction 1 as [|s t' s1 ts s2 Hdue Hadv _ IH]; intros Ht; [by apply elem_of_nil in Ht|].
  apply elem_of_cons in Ht as [->|Ht]; [by apply IsScheduleDue_true in Hdue as [? _]|].
  apply AdvanceSchedule_cases in Hadv as [Hs1 _].
  specialize (IH Ht); by rewrite Hs1 in IH.
Qed.

End next_run.

(** ** Properties *)

(** A database that knows "UTC" alone. *)
Definition utc_only : TimeZoneDatabase :=
  fun name => if bool_decide (name = "UTC") then Some UTC else None.

Lemma utc_only_laws : @TimeZoneLaws utc_only.
Proof. done. Qed.

Definition blank_schedule : Schedule :=
  MkSchedule "" "" "" "" ScheduleExecutionModeAgent "" "" "" "" "" ScheduleKindOnce None 0 "" 0 0
    None None None "" "" None 0 "" None None 0 0.

(** A schedule every minute from second 1000, twice. *)
Definition twice_a_minute : Schedule :=
  set_MaxRunCount 2 (set_IntervalSecond 60 (set_RunAt (Some (1000 * Second))
    (set_Kind ScheduleKindInterval blank_schedule))).

(** C6. However late or often the poller looks, a schedule that was initialised
    never runs past its limits: with a run limit it runs at most the remaining
    number of times, a one-time schedule runs at most once, and no run happens
    at or after the expiry. *)
Theorem executions_respect_limits `{TimeZoneDatabase} s0 ref s ts s' :
  InitializeSchedule s0 ref = Ok s ->
  0 <= CompletedRunCount s -> MaxRunCount s <= int64_max ->
  executes s ts s' ->
  (0 < MaxRunCount s ->
    Z.of_nat (length ts) <= Z.max 0 (MaxRunCount s - CompletedRunCount s)) /\
  (Kind s = ScheduleKindOnce -> (length ts <= 1)%nat) /\
  (forall t, t ∈ ts -> scheduleExpired s t = false).
Proof.
  intros Hi Hc Hm Hex; apply InitializeSchedule_open in Hi; split_and!.
  - intros; by eapply executes_bounded.
  - intros Hk; by eapply executes_once in Hk as [_ ?].
  - intros t Ht; by eapply executes_before_expiry.
Qed.

Lemma executions_respect_limits_witness :
  let s := set_NextRunAt (Some (1000 * Second)) twice_a_minute in
  (0 < MaxRunCount s ->
    Z.of_nat (length [(1000 * Second)%Z]) <= Z.max 0 (MaxRunCount s - CompletedRunCount s)) /\
  (Kind s = ScheduleKindOnce -> (length [(1000 * Second)%Z] <= 1)%nat) /\
  (forall t, t ∈ [1000 * Second] -> scheduleExpired s t = false).
Proof.
  intros s.
  apply (executions_respect_limits (H := utc_only) twice_a_minute 0 s [1000 * Second]
    (set_NextRunAt (Some (1060 * Second)) (set_CompletedRunCount 1
      (set_LastRunAt (Some (1000 * Second)) s)))).
  - vm_compute; reflexivity.
  - vm_compute; discriminate.
  - vm_compute; discriminate.
  - econstructor; [vm_compute; reflexivity|vm_compute; reflexivity|constructor].
Defined.

(** Advancing a schedule counts the run and stamps it, changes no other
    field but the next run, and sets the next run strictly after the execution:
    an advanced schedule is never due at the instant it was executed. *)
Theorem AdvanceSchedule_moves_forward `{TimeZoneDatabase} s executedAt s' :
  (Kind s = ScheduleKindCron -> run_at_on_minute s = true) -> interval_fits s = true ->
  AdvanceSchedule s executedAt = Ok s' ->
  s' = set_NextRunAt (NextRunAt s') (executed s executedAt) /\
  (forall n, NextRunAt s' = Some n -> executedAt < n) /\
  IsScheduleDue s' executedAt = false.
Proof.
  intros Hr Hf Hadv; apply AdvanceSchedule_cases in Hadv as [Hs' Hn]; split; [done|].
  assert (Hlt : forall n, NextRunAt s' = Some n -> executedAt < n).
  { intros n Hs; destruct (Hn n Hs) as (_ & _ & Hc).
    eapply calculateNextRunAt_not_before in Hc as [_ Hlt]; [by apply Hlt|done..]. }
  split; [done|]; apply not_true_is_false; intros (_ & n & Hs & Hle)%IsScheduleDue_true.
  specialize (Hlt n Hs); lia.
Qed.

Lemma AdvanceSchedule_moves_forward_witness :
  let s' := set_NextRunAt (Some (1060 * Second)) (executed twice_a_minute (1000 * Second)) in
  s' = set_NextRunAt (NextRunAt s') (executed twice_a_minute (1000 * Second)) /\
  (forall n, NextRunAt s' = Some n -> 1000 * Second < n) /\
  IsScheduleDue s' (1000 * Second) = false.
Proof.
  intros s'; apply (AdvanceSchedule_moves_forward (H := utc_only));
    [discriminate|vm_compute; reflexivity..].
Defined.

(** An interval schedule keeps its grid until its first run: the next run
    is the first of [start, start + d, start + 2d, ...] after the reference;
    and once run it comes back exactly one interval after the execution. *)
Theorem interval_next_run s ref start :
  1 <= IntervalSecond s <= max_interval_second -> RunAt s = Some start ->
  let d := IntervalSecond s * Second in
  (LastRunAt s = None -> exists k, 0 <= k /\
    calculateIntervalNextRunAt s ref = Ok (Some (start + k * d)) /\
    ref < start + k * d /\
    (forall j, 0 <= j < k -> start + j * d <= ref)) /\
  calculateIntervalNextRunAt (executed s ref) ref = Ok (Some (ref + d)).
Proof.
  intros Hi Hr d; destruct (duration_mul_fits _ Hi) as [_ Hpos]; fold d in Hpos; split.
  - intros Hl; erewrite calculateIntervalNextRunAt_spec by eauto; unfold After; fold d.
    destruct (ref <? start) eqn:?; bool_to_prop.
    + exists 0; rewrite Z.mul_0_l, Z.add_0_r; split_and!; [lia|done|lia|lia].
    + pose proof (Z.div_mod (ref - start) d); pose proof (Z.mod_pos_bound (ref - start) d).
      pose proof (Z.div_pos (ref - start) d).
      exists ((ref - start) / d + 1); split_and!; [lia|done|lia|].
      intros j Hj; assert (j * d <= (ref - start) / d * d) by (apply Z.mul_le_mono_nonneg_r; lia); lia.
  - erewrite calculateIntervalNextRunAt_spec; [|done|by left]; unfold After.
    change (IntervalSecond (executed s ref)) with (IntervalSecond s); fold d.
    rewrite Z.ltb_irrefl, Z.sub_diag, Z.div_0_l by lia; do 2 f_equal; lia.
Qed.

Lemma interval_next_run_witness :
  (LastRunAt twice_a_minute = None -> exists k, 0 <= k /\
    calculateIntervalNextRunAt twice_a_minute 0 = Ok (Some (1000 * Second + k * (60 * Second))) /\
    0 < 1000 * Second + k * (60 * Second) /\
    (forall j, 0 <= j < k -> 1000 * Second + j * (60 * Second) <= 0)) /\
  calculateIntervalNextRunAt (executed twice_a_minute 0) 0 = Ok (Some (0 + 60 * Second)).
Proof.
  apply (interval_next_run twice_a_minute 0 (1000 * Second));
    [cbn; unfold max_interval_second; lia|reflexivity].
Defined.

(** C28. The interval loop ends exactly when it has to: [calculateIntervalNextRunAt]
    fails to return if and only if the base lies at or before the reference and
    the interval, as a [time.Duration] of 64 bits, is not positive. *)
Theorem interval_loop_ends_iff s ref :
  calculateIntervalNextRunAt s ref = Err LoopDoesNotEnd <->
  0 < IntervalSecond s /\ duration_mul (IntervalSecond s) Second <= 0 /\
  exists base, base <= ref /\
    (LastRunAt s = Some base \/ LastRunAt s = None /\ RunAt s = Some base).
Proof.
  set (d := duration_mul (IntervalSecond s) Second).
  unfold calculateIntervalNextRunAt; fold d.
  destruct (IntervalSecond s <=? 0) eqn:?; bool_to_prop; [split; [done|lia]|].
  destruct (bool_decide _ && bool_decide _) eqn:Hnone; bool_to_prop.
  { split; [done|]; intros (_ & _ & base & _ & [?|[_ ?]]); congruence. }
  set (base := match LastRunAt s with Some x => x | None => _ end).
  assert (Hbase : LastRunAt s = Some base \/ LastRunAt s = None /\ RunAt s = Some base).
  { unfold base; destruct (LastRunAt s), (RunAt s); auto; by cbn in Hnone. }
  assert (Huniq : forall b, LastRunAt s = Some b \/ LastRunAt s = None /\ RunAt s = Some b -> b = base).
  { intros b [Hb|[Hb Hb']]; destruct Hbase as [Hc|[Hc Hc']]; congruence. }
  clearbody base; unfold After.
  destruct (ref <? base) eqn:?; bool_to_prop.
  { split; [done|]; intros (_ & _ & b & Hb & ->%Huniq); lia. }
  destruct (decide (d <= 0)) as [Hd|Hd].
  - rewrite advanceToReference_stuck by lia; split; [|done].
    intros _; split_and!; [lia|done|by exists base].
  - rewrite advanceToReference_ends; [split; [done|lia]|lia..|].
    unfold interval_fuel; pose proof (Z.div_pos (ref - base) d); lia.
Qed.

(** The next run of a cron schedule is the first minute, in the time zone
    of the schedule, that its expression matches: strictly after the reference,
    and not before a start on a whole minute that is still to come. *)
Theorem cron_next_run `{TimeZoneDatabase} s ref n :
  run_at_on_minute s = true ->
  calculateCronNextRunAt s ref = Ok (Some n) ->
  exists p loc, parseCronExpression (CronExpression s) = Ok p /\
    ScheduleLocation (TimeZone s) = Some loc /\
    cron_matches p loc n = true /\ n mod Minute = 0 /\ ref < n /\
    (forall start, RunAt s = Some start -> ref < start -> start <= n) /\
    (forall m, ref < m < n -> m mod Minute = 0 ->
      (forall start, RunAt s = Some start -> start <= m) -> cron_matches p loc m = false).
Proof.
  intros Hr Hc; pose proof (calculateCronNextRunAt_Some _ _ _ Hr Hc)
    as (Hgt & Hstart & p & loc & Hp & Hl & Hmod & Hm).
  exists p, loc; split_and!; try done; intros m Hmn Hmmod Hms.
  unfold calculateCronNextRunAt, scheduleLocation in Hc; rewrite Hl, Hp in Hc.
  split_match_in Hc; [done|]; cbn in Hc.
  apply bind_Ok in Hc as (n' & Hn & Hc); injection Hc as ->.
  apply findNextRunAt_Ok in Hn as (_ & _ & _ & _ & Hleast); apply Hleast; [|done].
  destruct (RunAt s) as [r|]; [|done]; specialize (Hms r eq_refl).
  unfold After, Add; destruct (ref <? r); unfold Minute, Second; lia.
Qed.

(** 09:00 and 17:30 on weekdays. *)
Definition weekdays : Schedule :=
  set_CronExpression "0,30 9,17 * * 1-5" (set_Kind ScheduleKindCron blank_schedule).

Lemma cron_next_run_witness :
  let n := 9 * Hour in
  exists p loc, parseCronExpression (CronExpression weekdays) = Ok p /\
    @ScheduleLocation utc_only (TimeZone weekdays) = Some loc /\
    cron_matches p loc n = true /\ n mod Minute = 0 /\ 0 < n /\
    (forall start, RunAt weekdays = Some start -> 0 < start -> start <= n) /\
    (forall m, 0 < m < n -> m mod Minute = 0 ->
      (forall start, RunAt weekdays = Some start -> start <= m) -> cron_matches p loc m = false).
Proof.
  intros n; apply (cron_next_run (H := utc_only) weekdays 0 n); vm_compute; reflexivity.
Defined.

(** A run has outlived its window exactly when its schedule has not expired
    and its due time lies more than fifteen minutes back, however far back: the
    saturation of [time.Time.Sub] never hides it. *)
Theorem HasOutlivedItsStartWindow_iff s t :
  HasOutlivedItsStartWindow s t = true <->
  scheduleExpired s t = false /\
  exists n, NextRunAt s = Some n /\ n + 15 * Minute < t.
Proof.
  unfold HasOutlivedItsStartWindow; rewrite andb_true_iff, IsScheduleDue_true.
  unfold ScheduledRunStartWindow, Sub, int64_min, int64_max, Minute, Second; split.
  - intros [[He (n & Hn & Hle)] Hw]; rewrite Hn in Hw; bool_to_prop.
    split; [done|exists n; split; [done|lia]].
  - intros [He (n & Hn & Hlt)]; rewrite Hn; split.
    + split; [done|exists n; split; [done|lia]].
    + apply Z.ltb_lt; lia.
Qed.

(** ** Where the code departs from what it means *)

(** 2^55 seconds is a zero duration: the loop never moves. *)
Lemma interval_of_2_55_seconds_hangs fuel base ref :
  base <= ref ->
  advanceToReference fuel base (duration_mul (2 ^ 55) Second) ref = None.
Proof. intros; apply advanceToReference_stuck; [vm_compute; discriminate|done]. Qed.

(** A cron schedule that starts at second 30 is first run at second 0 of that
    minute: before its start, and before the reference. *)
Definition starts_mid_minute : Schedule :=
  set_RunAt (Some (90 * Second)) (set_CronExpression "* * * * *"
    (set_Kind ScheduleKindCron blank_schedule)).

Lemma cron_run_before_its_start :
  @InitializeSchedule utc_only starts_mid_minute (80 * Second) =
    Ok (set_NextRunAt (Some (60 * Second)) starts_mid_minute).
Proof. vm_compute; reflexivity. Qed.
