(* ===== verification/ScheduleWrite.v ===== *)
(** * Writing schedules ([schedule_write.go], [schedule_approved_call.go],
    [schedule_create.go]): creation, update, approved calls, and the limit of
    open schedules per person. *)

From S2P Require Export Scheduler.

(** ** Inputs *)

Module CreateInput.
Record ScheduleCreateInput := MkScheduleCreateInput {
  Description : string;
  TaskInstruction : string;
  Kind : string;
  RunAt : string;
  ExpiresAt : string;
  IntervalSecond : Z;
  CronExpression : string;
  TimeZone : string;
  MaxRunCount : Z;
  RepeatPolicy : string;
}.
End CreateInput.


Module UpdateInput.
Record ScheduleUpdateInput := MkScheduleUpdateInput {
  Description : option string;
  TaskInstruction : option string;
  AgentProfileName : option string;
  Kind : option string;
  RunAt : option string;
  ExpiresAt : option string;
  IntervalSecond : option Z;
  CronExpression : option string;
  TimeZone : option string;
  MaxRunCount : option Z;
  RepeatPolicy : option string;
}.
End UpdateInput.

Module Delivery.
Record ScheduleDeliveryBinding := MkScheduleDeliveryBinding {
  Platform : string;
  ConversationID : string;
  ReplyTargetID : string;
}.
End Delivery.

Module CreateContext.
Record ScheduleCreateContext := MkScheduleCreateContext {
  CreatorPersonID : string;
  AgentProfileName : string;
  DeliveryBinding : Delivery.ScheduleDeliveryBinding;
  CompanyTimeZone : string;
  ReferenceTime : instant;
}.
End CreateContext.

Module Mutation.
Record ScheduleMutationResult := MkScheduleMutationResult {
  ScheduleID : string;
  Description : string;
  TaskInstruction : string;
  TimeZone : string;
  Kind : string;
  RunAt : option instant;
  IntervalSecond : Z;
  CronExpression : string;
  MaxRunCount : Z;
  ExpiresAt : option instant;
  NextRunAt : option instant;
  ConversationID : string;
  ReplyTargetID : string;
  AgentProfileName : string;
}.
End Mutation.

Module Approved.
Record ApprovedCallScheduleRequest := MkApprovedCallScheduleRequest {
  Call : ScheduleApprovedCall;
  StartsAt : instant;
  Prompt : string;
  AgentProfileName : string;
  DeliveryBinding : Delivery.ScheduleDeliveryBinding;
  TimeZone : string;
  ReferenceTime : instant;
}.
End Approved.

(** ** Reading the fields of an input *)

(** [string(kind)] *)
Definition kind_string (kind : ScheduleKind) : string :=
  match kind with
  | ScheduleKindOnce => "once"
  | ScheduleKindInterval => "interval"
  | ScheduleKindCron => "cron"
  | ScheduleKindOther name => name
  end.

Definition parseScheduleKind (value : string) : result ScheduleError ScheduleKind :=
  let value := TrimSpace value in
  if bool_decide (value = "once") then Ok ScheduleKindOnce
  else if bool_decide (value = "interval") then Ok ScheduleKindInterval
  else if bool_decide (value = "cron") then Ok ScheduleKindCron
  else Err ErrScheduleKindInvalid.

Definition parseScheduleRunAt (value : string) : result ScheduleError (option instant) :=
  let trimmedValue := TrimSpace value in
  if bool_decide (trimmedValue = "") then Ok None
  else match Parse_RFC3339 trimmedValue with
       | None => Err ErrScheduleRunAtInvalid
       | Some runAt => Ok (Some runAt)
       end.

Definition parseScheduleExpiresAt (value : string) (referenceTime : instant)
  : result ScheduleError (option instant) :=
  let trimmedValue := TrimSpace value in
  if bool_decide (trimmedValue = "") then Ok None
  else match Parse_RFC3339 trimmedValue with
       | None => Err ErrScheduleExpiresAtInvalid
       | Some expiresAt =>
         if negb (After expiresAt referenceTime) then Err ErrScheduleExpiresAtInvalid
         else Ok (Some expiresAt)
       end.

Definition requireScheduleDelivery (createContext : CreateContext.ScheduleCreateContext)
  : result ScheduleError unit :=
  let delivery := CreateContext.DeliveryBinding createContext in
  if blank (CreateContext.CreatorPersonID createContext) then Err ErrScheduleRequesterRequired
  else if blank (Delivery.Platform delivery) || blank (Delivery.ConversationID delivery) then
    Err ErrScheduleConversationRequired
  else if blank (Delivery.ReplyTargetID delivery) then Err ErrScheduleReplyTargetRequired
  else Ok tt.

Definition validateScheduleRepeatPolicy (schedule : Schedule) (repeatPolicy : string)
  : result ScheduleError unit :=
  if negb (bool_decide (Kind schedule = ScheduleKindInterval)) &&
     negb (bool_decide (Kind schedule = ScheduleKindCron)) then Ok tt
  else if (0 <? MaxRunCount schedule) || negb (bool_decide (ExpiresAt schedule = None)) then Ok tt
  else
    let policy := TrimSpace repeatPolicy in
    if bool_decide (policy = "unbounded") then Ok tt
    else if bool_decide (policy = "finite") then Err ErrScheduleFiniteBoundRequired
    else Err ErrScheduleRepeatPolicyRequired.

Definition scheduleRepeatPolicyOf (input : UpdateInput.ScheduleUpdateInput) : string :=
  match UpdateInput.RepeatPolicy input with None => "" | Some policy => policy end.

Definition normalizeScheduleCadenceFields (schedule : Schedule) : Schedule :=
  match Kind schedule with
  | ScheduleKindOnce => set_MaxRunCount 0 (set_CronExpression "" (set_IntervalSecond 0 schedule))
  | ScheduleKindInterval => set_CronExpression "" schedule
  | ScheduleKindCron => set_IntervalSecond 0 schedule
  | ScheduleKindOther _ => schedule
  end.

(** [if input.F != nil { schedule.F = *input.F }] *)
Definition assign {A} (set : A -> Schedule -> Schedule) (value : option A) (s : Schedule)
  : Schedule :=
  match value with Some v => set v s | None => s end.

(** The same where the value is parsed first. *)
Definition assign_parsed {A B} (parse : A -> result ScheduleError B)
    (set : B -> Schedule -> Schedule) (value : option A) (s : Schedule)
  : result ScheduleError Schedule :=
  match value with
  | Some v => b ← parse v; Ok (set b s)
  | None => Ok s
  end.

(** ** Writing *)

Section with_time_zones.
Context `{TimeZoneDatabase}.

Definition normalizeScheduleTimeZone (value companyTimeZone : string)
  : result ScheduleError string :=
  let timeZone := ScheduleTimeZoneName (firstNonBlankScheduleValue [value; companyTimeZone]) in
  match LoadLocation timeZone with
  | None => Err ErrScheduleTimeZoneInvalid
  | Some _ => Ok timeZone
  end.

(** [newIdentifier] is the value of [NewIdentifier()]. *)
Definition BuildScheduleCreate (newIdentifier : string) (input : CreateInput.ScheduleCreateInput)
    (createContext : CreateContext.ScheduleCreateContext) : result ScheduleError Schedule :=
  let referenceTime := CreateContext.ReferenceTime createContext in
  let delivery := CreateContext.DeliveryBinding createContext in
  _ ← requireScheduleDelivery createContext;
  let taskInstruction := TrimSpace (CreateInput.TaskInstruction input) in
  _ ← refuse_if (bool_decide (taskInstruction = "")) ErrScheduleTaskInstructionRequired;
  kind ← parseScheduleKind (CreateInput.Kind input);
  timeZone ← normalizeScheduleTimeZone (CreateInput.TimeZone input)
               (CreateContext.CompanyTimeZone createContext);
  runAt ← parseScheduleRunAt (CreateInput.RunAt input);
  expiresAt ← parseScheduleExpiresAt (CreateInput.ExpiresAt input) referenceTime;
  let schedule :=
    {| ScheduleID := newIdentifier;
       CreatorPersonID := TrimSpace (CreateContext.CreatorPersonID createContext);
       Name := firstNonBlankScheduleValue [CreateInput.Description input; taskInstruction];
       Prompt := taskInstruction;
       ExecutionMode := ScheduleExecutionModeAgent;
       AgentProfileName :=
         firstNonBlankScheduleValue [CreateContext.AgentProfileName createContext; "default"];
       Platform := TrimSpace (Delivery.Platform delivery);
       ConversationID := TrimSpace (Delivery.ConversationID delivery);
       ReplyTargetID := TrimSpace (Delivery.ReplyTargetID delivery);
       TimeZone := timeZone;
       Kind := kind;
       RunAt := runAt;
       IntervalSecond := CreateInput.IntervalSecond input;
       CronExpression := TrimSpace (CreateInput.CronExpression input);
       MaxRunCount := CreateInput.MaxRunCount input;
       CompletedRunCount := 0;
       ExpiresAt := expiresAt;
       NextRunAt := None;
       LastRunAt := None;
       LastTaskRunID := "";
       LeaseOwner := "";
       LeasedUntil := None;
       FailureCount := 0;
       LastError := "";
       NextAttemptAt := Some referenceTime;
       ApprovedCall := None;
       CreatedAt := referenceTime;
       UpdatedAt := referenceTime |} in
  _ ← validateScheduleRepeatPolicy schedule (CreateInput.RepeatPolicy input);
  Ok schedule.

Definition initializedScheduleWithFutureRun (schedule : Schedule) (referenceTime : instant)
  : result ScheduleError Schedule :=
  initializedSchedule ← InitializeSchedule schedule referenceTime;
  match NextRunAt initializedSchedule with
  | None => Err ErrScheduleNoFutureRun
  | Some _ => Ok initializedSchedule
  end.

Definition InitializeScheduleCreate (newIdentifier : string)
    (input : CreateInput.ScheduleCreateInput)
    (createContext : CreateContext.ScheduleCreateContext) : result ScheduleError Schedule :=
  schedule ← BuildScheduleCreate newIdentifier input createContext;
  initializedScheduleWithFutureRun schedule (CreateContext.ReferenceTime createContext).

Definition applyScheduleUpdateCadence (schedule : Schedule)
    (input : UpdateInput.ScheduleUpdateInput) (referenceTime : instant)
  : result ScheduleError Schedule :=
  schedule ← assign_parsed parseScheduleKind set_Kind (UpdateInput.Kind input) schedule;
  schedule ← assign_parsed parseScheduleRunAt set_RunAt (UpdateInput.RunAt input) schedule;
  schedule ← assign_parsed (fun v => parseScheduleExpiresAt v referenceTime) set_ExpiresAt
               (UpdateInput.ExpiresAt input) schedule;
  let schedule := assign set_IntervalSecond (UpdateInput.IntervalSecond input) schedule in
  let schedule := assign (fun v => set_CronExpression (TrimSpace v))
                    (UpdateInput.CronExpression input) schedule in
  let schedule := assign set_MaxRunCount (UpdateInput.MaxRunCount input) schedule in
  let schedule := normalizeScheduleCadenceFields schedule in
  _ ← validateScheduleRepeatPolicy schedule (scheduleRepeatPolicyOf input);
  Ok schedule.

Definition parseTaskInstruction (value : string) : result ScheduleError string :=
  let taskInstruction := TrimSpace value in
  if bool_decide (taskInstruction = "") then Err ErrScheduleTaskInstructionRequired
  else Ok taskInstruction.

Definition ApplyScheduleUpdate (schedule : Schedule) (input : UpdateInput.ScheduleUpdateInput)
    (companyTimeZone : string) (referenceTime : instant) : result ScheduleError Schedule :=
  _ ← refuse_if (CarriesAnApprovedCall schedule) ErrScheduleCarriesAnApproval;
  let schedule := assign (fun v => set_Name (TrimSpace v)) (UpdateInput.Description input) schedule in
  schedule ← assign_parsed parseTaskInstruction set_Prompt
               (UpdateInput.TaskInstruction input) schedule;
  let schedule := assign (fun v => set_AgentProfileName (TrimSpace v))
                    (UpdateInput.AgentProfileName input) schedule in
  schedule ← assign_parsed (fun v => normalizeScheduleTimeZone v companyTimeZone) set_TimeZone
               (UpdateInput.TimeZone input) schedule;
  updatedSchedule ← applyScheduleUpdateCadence schedule input referenceTime;
  let updatedSchedule := set_UpdatedAt referenceTime updatedSchedule in
  let updatedSchedule := set_NextAttemptAt (Some referenceTime) updatedSchedule in
  initializedScheduleWithFutureRun updatedSchedule referenceTime.

(** ** Approved calls *)

Definition trimmed_call (call : ScheduleApprovedCall) : ScheduleApprovedCall :=
  {| ToolName := TrimSpace (ToolName call);
     ToolInput := ToolInput call;
     ApproverPersonID := ApproverPersonID call;
     ApprovedAt := ApprovedAt call;
     OriginTaskRunID := OriginTaskRunID call |}.

Definition approved_create_input (request : Approved.ApprovedCallScheduleRequest)
  : CreateInput.ScheduleCreateInput :=
  {| CreateInput.Description := TrimSpace (ToolName (Approved.Call request));
     CreateInput.TaskInstruction := Approved.Prompt request;
     CreateInput.Kind := kind_string ScheduleKindOnce;
     CreateInput.RunAt := Format_RFC3339 (Approved.StartsAt request);
     CreateInput.ExpiresAt := "";
     CreateInput.IntervalSecond := 0;
     CreateInput.CronExpression := "";
     CreateInput.TimeZone := Approved.TimeZone request;
     CreateInput.MaxRunCount := 0;
     CreateInput.RepeatPolicy := "" |}.

Definition approved_create_context (request : Approved.ApprovedCallScheduleRequest)
  : CreateContext.ScheduleCreateContext :=
  {| CreateContext.CreatorPersonID := ApproverPersonID (Approved.Call request);
     CreateContext.AgentProfileName := Approved.AgentProfileName request;
     CreateContext.DeliveryBinding := Approved.DeliveryBinding request;
     CreateContext.CompanyTimeZone := Approved.TimeZone request;
     CreateContext.ReferenceTime := Approved.ReferenceTime request |}.

Definition BuildApprovedCallSchedule (newIdentifier : string)
    (request : Approved.ApprovedCallScheduleRequest) : result ScheduleError Schedule :=
  _ ← refuse_if (negb (After (Approved.StartsAt request) (Approved.ReferenceTime request)))
        ErrApprovedCallNeedsAFutureStart;
  let call := trimmed_call (Approved.Call request) in
  schedule ← BuildScheduleCreate newIdentifier (approved_create_input request)
               (approved_create_context request);
  let schedule := set_ApprovedCall (Some call) schedule in
  initializedScheduleWithFutureRun schedule (Approved.ReferenceTime request).

End with_time_zones.

(** ** What a write gives back, and the errors of the caller *)

Definition ScheduleUpdateChangesNothing (input : UpdateInput.ScheduleUpdateInput) : bool :=
  bool_decide (UpdateInput.Description input = None) &&
  bool_decide (UpdateInput.TaskInstruction input = None) &&
  bool_decide (UpdateInput.AgentProfileName input = None) &&
  bool_decide (UpdateInput.Kind input = None) &&
  bool_decide (UpdateInput.RunAt input = None) &&
  bool_decide (UpdateInput.ExpiresAt input = None) &&
  bool_decide (UpdateInput.IntervalSecond input = None) &&
  bool_decide (UpdateInput.CronExpression input = None) &&
  bool_decide (UpdateInput.TimeZone input = None) &&
  bool_decide (UpdateInput.MaxRunCount input = None) &&
  bool_decide (UpdateInput.RepeatPolicy input = None).

Definition ProjectScheduleMutation (schedule : Schedule) : Mutation.ScheduleMutationResult :=
  {| Mutation.ScheduleID := ScheduleID schedule;
     Mutation.Description := Name schedule;
     Mutation.TaskInstruction := Prompt schedule;
     Mutation.TimeZone := TimeZone schedule;
     Mutation.Kind := kind_string (Kind schedule);
     Mutation.RunAt := RunAt schedule;
     Mutation.IntervalSecond := IntervalSecond schedule;
     Mutation.CronExpression := CronExpression schedule;
     Mutation.MaxRunCount := MaxRunCount schedule;
     Mutation.ExpiresAt := ExpiresAt schedule;
     Mutation.NextRunAt := NextRunAt schedule;
     Mutation.ConversationID := ConversationID schedule;
     Mutation.ReplyTargetID := ReplyTargetID schedule;
     Mutation.AgentProfileName := AgentProfileName schedule |}.

Definition schedule_write_input_errors : list ScheduleError :=
  [ErrScheduleRequesterRequired; ErrScheduleConversationRequired;
   ErrScheduleReplyTargetRequired; ErrScheduleTaskInstructionRequired;
   ErrScheduleUpdateFieldRequired; ErrScheduleKindInvalid; ErrScheduleTimeZoneInvalid;
   ErrScheduleRunAtInvalid; ErrScheduleExpiresAtInvalid; ErrScheduleRepeatPolicyRequired;
   ErrScheduleFiniteBoundRequired; ErrScheduleNoFutureRun; ErrScheduleLimitReached;
   ErrScheduleCarriesAnApproval; ErrApprovedCallNeedsAFutureStart; errorInvalidSchedule;
   errorInvalidCronExpression; errorUnableToFindNextTaskRun].

Definition IsScheduleWriteInputError (errorValue : ScheduleError) : bool :=
  existsb (fun inputError => bool_decide (errorValue = inputError)) schedule_write_input_errors.

(** ** Errors of the writers *)

(** A write refuses only with errors the caller is to blame for. *)
Definition refuses_input {A} (m : result ScheduleError A) : Prop :=
  forall e, m = Err e -> IsScheduleWriteInputError e = true.

Lemma refuses_input_bind {A B} (m : result ScheduleError A) (k : A -> result ScheduleError B) :
  refuses_input m -> (forall a, m = Ok a -> refuses_input (k a)) -> refuses_input (m ≫= k).
Proof.
  intros Hm Hk e He; apply bind_Err in He as [He|(a & Ha & He)]; [by apply Hm|by apply (Hk a Ha)].
Qed.

Lemma refuses_input_Ok {A} (a : A) : refuses_input (Ok a).
Proof. done. Qed.

Lemma refuses_input_if b e :
  IsScheduleWriteInputError e = true -> refuses_input (refuse_if b e).
Proof. intros He e' Hb; by apply refuse_if_Err in Hb as [_ <-]. Qed.

Lemma refuses_input_assign {A B} (parse : A -> result ScheduleError B) set v s :
  (forall a, refuses_input (parse a)) -> refuses_input (assign_parsed parse set v s).
Proof.
  intros Hp; destruct v as [a|]; cbn [assign_parsed]; [|apply refuses_input_Ok].
  apply refuses_input_bind; [apply Hp|intros; apply refuses_input_Ok].
Qed.

(** Every error the tests of a parser can end in is an input error. *)
Ltac leaf_errors :=
  let e := fresh "e" in let He := fresh "He" in
  intros e He; cbv zeta in He; repeat split_match_in He;
  first [discriminate He | injection He as <-; reflexivity].

Lemma parseScheduleKind_input v : refuses_input (parseScheduleKind v).
Proof. unfold parseScheduleKind; leaf_errors. Qed.

Lemma parseScheduleRunAt_input v : refuses_input (parseScheduleRunAt v).
Proof. unfold parseScheduleRunAt; leaf_errors. Qed.

Lemma parseScheduleExpiresAt_input v ref : refuses_input (parseScheduleExpiresAt v ref).
Proof. unfold parseScheduleExpiresAt; leaf_errors. Qed.

Lemma parseTaskInstruction_input v : refuses_input (parseTaskInstruction v).
Proof. unfold parseTaskInstruction; leaf_errors. Qed.

Lemma requireScheduleDelivery_input c : refuses_input (requireScheduleDelivery c).
Proof. unfold requireScheduleDelivery; leaf_errors. Qed.

Lemma validateScheduleRepeatPolicy_input s policy :
  refuses_input (validateScheduleRepeatPolicy s policy).
Proof. unfold validateScheduleRepeatPolicy; leaf_errors. Qed.

Lemma normalizeScheduleTimeZone_input `{TimeZoneDatabase} v company :
  refuses_input (normalizeScheduleTimeZone v company).
Proof. unfold normalizeScheduleTimeZone; leaf_errors. Qed.

#[export] Hint Resolve refuses_input_bind refuses_input_Ok refuses_input_if refuses_input_assign
  parseScheduleKind_input parseScheduleRunAt_input parseScheduleExpiresAt_input
  parseTaskInstruction_input requireScheduleDelivery_input
  validateScheduleRepeatPolicy_input normalizeScheduleTimeZone_input : go.

Section initialize_errors.
Context `{TimeZoneDatabase}.

Lemma calculateNextRunAt_input s ref :
  interval_fits s = true -> refuses_input (calculateNextRunAt s ref).
Proof.
  unfold interval_fits; intros Hf; bool_to_prop; unfold calculateNextRunAt.
  destruct (Kind s); [..|leaf_errors].
  - unfold calculateOneTimeNextRunAt; leaf_errors.
  - intros e He; unfold calculateIntervalNextRunAt in He.
    destruct (IntervalSecond s <=? 0) eqn:?; bool_to_prop; [by injection He as <-|].
    destruct (duration_mul_fits (IntervalSecond s)) as [Hd Hpos]; [lia|].
    split_match_in He; [done|].
    set (base := match LastRunAt s with Some x => x | None => _ end) in He.
    unfold After in He; destruct (ref <? base) eqn:?; bool_to_prop; [done|].
    rewrite Hd, advanceToReference_ends in He; [done|lia..|].
    unfold interval_fuel; pose proof (Z.div_pos (ref - base) (IntervalSecond s * Second)); lia.
  - unfold calculateCronNextRunAt; split_match; [leaf_errors|].
    apply refuses_input_bind; [unfold scheduleLocation; leaf_errors|intros loc _].
    apply refuses_input_bind.
    { intros e He; unfold parseCronExpression in He.
      destruct (Fields _) as [|f0 [|f1 [|f2 [|f3 [|f4 [|? ?]]]]]]; try (by injection He as <-).
      repeat (apply bind_Err in He as [He|(? & _ & He)];
        [apply parseCronExpressionMatcher_error in He as ->; [done|unfold small; lia..]|]); done. }
    intros p _; apply refuses_input_bind; [|done].
    by intros e [-> _]%findNextRunAt_Err.
Qed.

Lemma initializedScheduleWithFutureRun_input s ref :
  interval_fits s = true -> refuses_input (initializedScheduleWithFutureRun s ref).
Proof.
  intros Hf; unfold initializedScheduleWithFutureRun, InitializeSchedule.
  apply refuses_input_bind; [|intros ? _; leaf_errors].
  split_match; [done|]; split_match; [done|].
  apply refuses_input_bind; [by apply calculateNextRunAt_input|intros ? _; leaf_errors].
Qed.

Lemma initializedScheduleWithFutureRun_Ok s ref s' :
  initializedScheduleWithFutureRun s ref = Ok s' ->
  exists n, s' = set_NextRunAt (Some n) s /\ scheduleReachedRunLimit s = false /\
    scheduleExpired s ref = false /\ calculateNextRunAt s ref = Ok (Some n).
Proof.
  unfold initializedScheduleWithFutureRun; intros Hi.
  apply bind_Ok in Hi as (s1 & H1 & Hi); destruct (NextRunAt s1) as [n|] eqn:Hn; [|done].
  injection Hi as <-; apply InitializeSchedule_cases in H1 as [Hs1 Hcalc].
  destruct (Hcalc n Hn) as (? & ? & ?); exists n; split_and!; [|done..].
  by rewrite Hn in Hs1.
Qed.

End initialize_errors.

(** ** The limit of open schedules *)

Module ListRequest.
Record ScheduleListRequest := MkScheduleListRequest {
  ConversationID : string;
  CreatorPersonID : string;
  UnboundedOnly : bool;
  IncludeExpired : bool;
  Page : Z;
  PageSize : Z;
  ReferenceTime : instant;
}.
End ListRequest.

Module ListResult.
Record ScheduleListResult := MkScheduleListResult {
  Schedules : list Schedule;
  TotalCount : Z;
  Page : Z;
  PageSize : Z;
}.
End ListResult.

(** The part of the repository a creation uses.  [R] is its state. *)
Class ScheduleCreateRepository (R : Type) := {
  ListSchedules :
    ListRequest.ScheduleListRequest -> R -> result ScheduleError ListResult.ScheduleListResult;
  UpsertSchedule : Schedule -> R -> result ScheduleError R;
}.

Definition open_for (person : string) (referenceTime : instant) (s : Schedule) : bool :=
  bool_decide (CreatorPersonID s = person) && negb (bool_decide (NextRunAt s = None)) &&
  match ExpiresAt s with None => true | Some e => After e referenceTime end.

Definition open_count (person : string) (referenceTime : instant) (m : gmap string Schedule) : Z :=
  Z.of_nat (size (filter (fun kv => open_for person referenceTime kv.2 = true) m)).

(** What a new schedule and its row agree on. *)
Definition stored_as (s row : Schedule) : Prop :=
  ScheduleID row = ScheduleID s /\ CreatorPersonID row = CreatorPersonID s /\
  Prompt row = Prompt s /\ Kind row = Kind s /\ NextRunAt row = NextRunAt s /\
  MaxRunCount row = MaxRunCount s /\ ApprovedCall row = ApprovedCall s.

(** What a creation relies on: the schedules stored by their ID, a count of the
    open ones, and an upsert that writes a new schedule and nothing else. *)
Class ScheduleCreateRepositoryLaws R `{ScheduleCreateRepository R} := {
  stored : R -> gmap string Schedule;
  ListSchedules_count person ref r res :
    TrimSpace person <> "" -> TrimSpace person = person -> IsZero ref = false ->
    ListSchedules (ListRequest.MkScheduleListRequest "" person false false 1 1 ref) r = Ok res ->
    ListResult.TotalCount res = open_count person ref (stored r);
  UpsertSchedule_stores s r r' :
    stored r !! ScheduleID s = None -> UpsertSchedule s r = Ok r' ->
    exists row, stored_as s row /\ stored r' = <[ScheduleID s := row]> (stored r);
}.

Definition MaximumOpenScheduleCountPerPerson : Z := 50.

Section with_repository.
Context `{TimeZoneDatabase} {R : Type} `{ScheduleCreateRepository R}.

Definition openScheduleCountOf (repository : R)
    (createContext : CreateContext.ScheduleCreateContext) : result ScheduleError Z :=
  res ← ListSchedules
    {| ListRequest.ConversationID := "";
       ListRequest.CreatorPersonID := TrimSpace (CreateContext.CreatorPersonID createContext);
       ListRequest.UnboundedOnly := false;
       ListRequest.IncludeExpired := false;
       ListRequest.Page := 1;
       ListRequest.PageSize := 1;
       ListRequest.ReferenceTime := CreateContext.ReferenceTime createContext |} repository;
  Ok (ListResult.TotalCount res).

Definition CreateSchedule (newIdentifier : string) (repository : R)
    (input : CreateInput.ScheduleCreateInput)
    (createContext : CreateContext.ScheduleCreateContext)
  : result ScheduleError (Schedule * R) :=
  schedule ← InitializeScheduleCreate newIdentifier input createContext;
  openScheduleCount ← openScheduleCountOf repository createContext;
  _ ← refuse_if (MaximumOpenScheduleCountPerPerson <=? openScheduleCount) ErrScheduleLimitReached;
  repository ← UpsertSchedule schedule repository;
  Ok (schedule, repository).

Definition CreateApprovedCallSchedule (newIdentifier : string) (repository : R)
    (request : Approved.ApprovedCallScheduleRequest) : result ScheduleError (Schedule * R) :=
  schedule ← BuildApprovedCallSchedule newIdentifier request;
  repository ← UpsertSchedule schedule repository;
  Ok (schedule, repository).

End with_repository.

(** A store in memory, as the interface asks. *)
#[export] Instance memory_repository : ScheduleCreateRepository (gmap string Schedule) := {
  ListSchedules req m :=
    Ok (ListResult.MkScheduleListResult []
          (open_count (ListRequest.CreatorPersonID req) (ListRequest.ReferenceTime req) m) 1 1);
  UpsertSchedule s m := Ok (<[ScheduleID s := s]> m);
}.

#[export, program] Instance memory_repository_laws :
  ScheduleCreateRepositoryLaws (gmap string Schedule) := {
  stored m := m;
}.
Next Obligation. intros person ref m res _ _ _ [= <-]; done. Qed.
Next Obligation. intros s m m' _ [= <-]; by exists s. Qed.

Lemma open_count_insert person ref k s m :
  open_count person ref (<[k := s]> m) <= open_count person ref m + 1.
Proof.
  unfold open_count; set (P := fun kv : string * Schedule => open_for person ref kv.2 = true).
  assert (Hsub : filter P (<[k := s]> m) ⊆ <[k := s]> (filter P m)).
  { apply map_subseteq_spec; intros i x [Hi Hx]%map_lookup_filter_Some.
    destruct (decide (i = k)) as [->|Hne]; [by rewrite !lookup_insert_eq in *|].
    rewrite lookup_insert_ne in * by done; by apply map_lookup_filter_Some. }
  apply map_subseteq_size in Hsub.
  rewrite map_size_insert in Hsub; destruct (filter P m !! k); cbn in Hsub; lia.
Qed.

(** ** What a successful creation holds *)

(** A recurring schedule ends by itself, or its author asked for it not to. *)
Definition bounded_or_unbounded (s : Schedule) (repeatPolicy : string) : Prop :=
  Kind s = ScheduleKindInterval \/ Kind s = ScheduleKindCron ->
  0 < MaxRunCount s \/ ExpiresAt s <> None \/ TrimSpace repeatPolicy = "unbounded".

Lemma validateScheduleRepeatPolicy_Ok s policy u :
  validateScheduleRepeatPolicy s policy = Ok u -> bounded_or_unbounded s policy.
Proof.
  unfold validateScheduleRepeatPolicy, bounded_or_unbounded; intros Hv Hk.
  assert (negb (bool_decide (Kind s = ScheduleKindInterval)) &&
          negb (bool_decide (Kind s = ScheduleKindCron)) = false) as Hnot.
  { destruct Hk as [->| ->]; done. }
  rewrite Hnot in Hv; split_match_in Hv.
  - apply orb_true_iff in Heqb as [Hm|He]; [left|right; left]; bool_to_prop; [lia|done].
  - repeat split_match_in Hv; try done; bool_to_prop; auto.
Qed.

Section create.
Context `{TimeZoneDatabase}.

Lemma requireScheduleDelivery_Ok c u :
  requireScheduleDelivery c = Ok u ->
  TrimSpace (CreateContext.CreatorPersonID c) <> "" /\
  TrimSpace (Delivery.Platform (CreateContext.DeliveryBinding c)) <> "" /\
  TrimSpace (Delivery.ConversationID (CreateContext.DeliveryBinding c)) <> "" /\
  TrimSpace (Delivery.ReplyTargetID (CreateContext.DeliveryBinding c)) <> "".
Proof.
  unfold requireScheduleDelivery; intros Hr.
  repeat split_match_in Hr; try done.
  repeat match goal with
  | Hb : blank _ = false |- _ => apply blank_false in Hb
  | Hb : blank _ || blank _ = false |- _ => apply orb_false_iff in Hb as [? ?]
  end; done.
Qed.

Lemma BuildScheduleCreate_Ok newID input c s :
  BuildScheduleCreate newID input c = Ok s ->
  requireScheduleDelivery c = Ok tt /\
  ScheduleID s = newID /\
  CreatorPersonID s = TrimSpace (CreateContext.CreatorPersonID c) /\
  Platform s = TrimSpace (Delivery.Platform (CreateContext.DeliveryBinding c)) /\
  ConversationID s = TrimSpace (Delivery.ConversationID (CreateContext.DeliveryBinding c)) /\
  ReplyTargetID s = TrimSpace (Delivery.ReplyTargetID (CreateContext.DeliveryBinding c)) /\
  Prompt s = TrimSpace (CreateInput.TaskInstruction input) /\ Prompt s <> "" /\
  parseScheduleKind (CreateInput.Kind input) = Ok (Kind s) /\
  normalizeScheduleTimeZone (CreateInput.TimeZone input)
    (CreateContext.CompanyTimeZone c) = Ok (TimeZone s) /\
  parseScheduleRunAt (CreateInput.RunAt input) = Ok (RunAt s) /\
  parseScheduleExpiresAt (CreateInput.ExpiresAt input) (CreateContext.ReferenceTime c)
    = Ok (ExpiresAt s) /\
  validateScheduleRepeatPolicy s (CreateInput.RepeatPolicy input) = Ok tt /\
  IntervalSecond s = CreateInput.IntervalSecond input /\
  MaxRunCount s = CreateInput.MaxRunCount input /\
  CompletedRunCount s = 0 /\ LastRunAt s = None /\ ApprovedCall s = None /\
  Name s = firstNonBlankScheduleValue [CreateInput.Description input; Prompt s].
Proof.
  unfold BuildScheduleCreate; intros Hb.
  apply bind_Ok in Hb as ([] & Hd & Hb); apply bind_Ok in Hb as ([] & Hp & Hb).
  apply refuse_if_Ok in Hp; bool_to_prop.
  apply bind_Ok in Hb as (kind & Hkind & Hb); apply bind_Ok in Hb as (tz & Htz & Hb).
  apply bind_Ok in Hb as (runAt & Hrun & Hb); apply bind_Ok in Hb as (expires & Hexp & Hb).
  apply bind_Ok in Hb as ([] & Hv & Hb); injection Hb as <-.
  split_and!; done.
Qed.

Lemma normalizeScheduleTimeZone_Ok v company tz :
  normalizeScheduleTimeZone v company = Ok tz ->
  is_Some (LoadLocation tz) /\ ScheduleTimeZoneName tz = tz.
Proof.
  unfold normalizeScheduleTimeZone; intros Hn.
  set (name := firstNonBlankScheduleValue _) in Hn.
  destruct (LoadLocation (ScheduleTimeZoneName name)) eqn:Hl; [|done]; injection Hn as <-.
  split; [by eexists|apply ScheduleTimeZoneName_idemp].
Qed.

Lemma parseScheduleExpiresAt_Ok v ref e :
  parseScheduleExpiresAt v ref = Ok (Some e) -> ref < e.
Proof.
  unfold parseScheduleExpiresAt, After; intros He; repeat split_match_in He; try done.
  bool_to_prop; injection He as ->; lia.
Qed.

Lemma parseScheduleKind_once : parseScheduleKind (kind_string ScheduleKindOnce) = Ok ScheduleKindOnce.
Proof. vm_compute; reflexivity. Qed.

Lemma parseScheduleExpiresAt_none ref : parseScheduleExpiresAt "" ref = Ok None.
Proof. unfold parseScheduleExpiresAt; assert (TrimSpace "" = "") as -> by (vm_compute; reflexivity); done. Qed.

Lemma Parse_RFC3339_empty : Parse_RFC3339 "" = None.
Proof. vm_compute; reflexivity. Qed.

Lemma parseScheduleRunAt_Format t :
  0 <= year_of UTC t <= 9999 ->
  parseScheduleRunAt (Format_RFC3339 t) = Ok (Some (t - t mod Second)).
Proof.
  intros Hy; pose proof (Parse_Format_RFC3339 t Hy) as Hround.
  unfold parseScheduleRunAt; rewrite (Format_RFC3339_trimmed _ Hy), Hround.
  case_bool_decide as He; [|done].
  rewrite He, Parse_RFC3339_empty in Hround; discriminate.
Qed.

Lemma BuildScheduleCreate_input newID input c : refuses_input (BuildScheduleCreate newID input c).
Proof.
  unfold BuildScheduleCreate.
  repeat (apply refuses_input_bind; [auto with go|intros ? _]); auto with go.
Qed.

End create.

(** ** What a successful update holds *)

(** The fields no update names: whose schedule it is, where it answers, how it
    is run, and what it has done so far. *)
Definition identity (s : Schedule) :=
  ((ScheduleID s, CreatorPersonID s, CreatedAt s, ExecutionMode s, ApprovedCall s),
   (Platform s, ConversationID s, ReplyTargetID s),
   (CompletedRunCount s, LastRunAt s, LastTaskRunID s),
   (LeaseOwner s, LeasedUntil s, FailureCount s, LastError s)).

Lemma identity_assign {A} (set : A -> Schedule -> Schedule) v s :
  (forall a s, identity (set a s) = identity s) -> identity (assign set v s) = identity s.
Proof. intros Hset; destruct v; [apply Hset|done]. Qed.

Lemma identity_assign_parsed {A B} (parse : A -> result ScheduleError B) set v s s' :
  (forall b s, identity (set b s) = identity s) ->
  assign_parsed parse set v s = Ok s' -> identity s' = identity s.
Proof.
  intros Hset Hs; destruct v as [a|]; cbn [assign_parsed] in Hs; [|by injection Hs as <-].
  apply bind_Ok in Hs as (b & _ & Hs); injection Hs as <-; apply Hset.
Qed.

Lemma identity_normalize s : identity (normalizeScheduleCadenceFields s) = identity s.
Proof. unfold normalizeScheduleCadenceFields; by destruct (Kind s). Qed.

Section update.
Context `{TimeZoneDatabase}.

Lemma applyScheduleUpdateCadence_identity s input ref s' :
  applyScheduleUpdateCadence s input ref = Ok s' -> identity s' = identity s.
Proof.
  unfold applyScheduleUpdateCadence; intros Ha.
  apply bind_Ok in Ha as (s1 & H1%identity_assign_parsed & Ha); [|done].
  apply bind_Ok in Ha as (s2 & H2%identity_assign_parsed & Ha); [|done].
  apply bind_Ok in Ha as (s3 & H3%identity_assign_parsed & Ha); [|done].
  apply bind_Ok in Ha as ([] & _ & Ha); injection Ha as <-.
  rewrite identity_normalize, !identity_assign by done; congruence.
Qed.

Lemma applyScheduleUpdateCadence_bounded s input ref s' :
  applyScheduleUpdateCadence s input ref = Ok s' ->
  bounded_or_unbounded s' (scheduleRepeatPolicyOf input).
Proof.
  unfold applyScheduleUpdateCadence; intros Ha.
  apply bind_Ok in Ha as (s1 & _ & Ha); apply bind_Ok in Ha as (s2 & _ & Ha).
  apply bind_Ok in Ha as (s3 & _ & Ha); apply bind_Ok in Ha as ([] & Hv & Ha).
  injection Ha as <-; by eapply validateScheduleRepeatPolicy_Ok.
Qed.

Lemma IntervalSecond_assign_parsed {A B} (parse : A -> result ScheduleError B) set v s s' :
  (forall b s, IntervalSecond (set b s) = IntervalSecond s) ->
  assign_parsed parse set v s = Ok s' -> IntervalSecond s' = IntervalSecond s.
Proof.
  intros Hset Hs; destruct v as [a|]; cbn [assign_parsed] in Hs; [|by injection Hs as <-].
  apply bind_Ok in Hs as (b & _ & Hs); injection Hs as <-; apply Hset.
Qed.

Lemma applyScheduleUpdateCadence_interval s input ref s' :
  applyScheduleUpdateCadence s input ref = Ok s' ->
  IntervalSecond s' = 0 \/ IntervalSecond s' = default (IntervalSecond s) (UpdateInput.IntervalSecond input).
Proof.
  unfold applyScheduleUpdateCadence; intros Ha.
  apply bind_Ok in Ha as (s1 & H1%IntervalSecond_assign_parsed & Ha); [|done].
  apply bind_Ok in Ha as (s2 & H2%IntervalSecond_assign_parsed & Ha); [|done].
  apply bind_Ok in Ha as (s3 & H3%IntervalSecond_assign_parsed & Ha); [|done].
  apply bind_Ok in Ha as ([] & _ & Ha); injection Ha as <-.
  assert (Hnorm : forall s, IntervalSecond (normalizeScheduleCadenceFields s) = 0 \/
    IntervalSecond (normalizeScheduleCadenceFields s) = IntervalSecond s).
  { intros x; unfold normalizeScheduleCadenceFields; destruct (Kind x); auto. }
  edestruct Hnorm as [->| ->]; [by left|right].
  destruct (UpdateInput.IntervalSecond input), (UpdateInput.CronExpression input),
    (UpdateInput.MaxRunCount input); cbn; congruence.
Qed.

Lemma applyScheduleUpdateCadence_input s input ref :
  refuses_input (applyScheduleUpdateCadence s input ref).
Proof.
  unfold applyScheduleUpdateCadence.
  repeat (apply refuses_input_bind; [auto with go|intros ? _]); auto with go.
Qed.

(** An update that goes through: the updated schedule before its next run. *)
Lemma ApplyScheduleUpdate_Ok s input company ref s' :
  ApplyScheduleUpdate s input company ref = Ok s' ->
  CarriesAnApprovedCall s = false /\
  exists s1 s2 n, identity s1 = identity s /\ IntervalSecond s1 = IntervalSecond s /\
    applyScheduleUpdateCadence s1 input ref = Ok s2 /\
    s' = set_NextRunAt (Some n) (set_NextAttemptAt (Some ref) (set_UpdatedAt ref s2)) /\
    scheduleReachedRunLimit s' = false /\ scheduleExpired s' ref = false /\
    calculateNextRunAt s2 ref = Ok (Some n).
Proof.
  unfold ApplyScheduleUpdate; intros Hu.
  apply bind_Ok in Hu as ([] & Hc%refuse_if_Ok & Hu); split; [done|].
  apply bind_Ok in Hu as (s1 & H1 & Hu); apply bind_Ok in Hu as (s2 & H2 & Hu).
  apply bind_Ok in Hu as (s3 & H3 & Hu).
  apply initializedScheduleWithFutureRun_Ok in Hu as (n & -> & Hl & He & Hn).
  exists s2, s3, n; split_and!; try done.
  - apply identity_assign_parsed in H1; [|done]; apply identity_assign_parsed in H2; [|done].
    rewrite identity_assign in H2 by done; rewrite identity_assign in H1 by done; congruence.
  - apply IntervalSecond_assign_parsed in H1; [|done].
    apply IntervalSecond_assign_parsed in H2; [|done].
    destruct (UpdateInput.Description input), (UpdateInput.AgentProfileName input);
      cbn in *; congruence.
Qed.

End update.

(** ** Properties *)

Definition sample_context : CreateContext.ScheduleCreateContext :=
  CreateContext.MkScheduleCreateContext " person-1 " ""
    (Delivery.MkScheduleDeliveryBinding "slack" "C1" "1700.1") "UTC" (1000 * Second).

Definition sample_input : CreateInput.ScheduleCreateInput :=
  CreateInput.MkScheduleCreateInput "" "water the plants" "interval" "" "" 3600 "" "" 0 "unbounded".

Definition sample_schedule : Schedule :=
  MkSchedule "id-1" "person-1" "water the plants" "water the plants" ScheduleExecutionModeAgent
    "default" "slack" "C1" "1700.1" "UTC" ScheduleKindInterval None 3600 "" 0 0 None
    (Some (1000 * Second)) None "" "" None 0 "" (Some (1000 * Second)) None
    (1000 * Second) (1000 * Second).

(** A schedule that creation lets through can be delivered and will run: its
    requester, platform, conversation and reply target are named, its
    instruction is not blank, its time zone exists, it expires after now if at
    all, a recurring one is bounded unless its author asked otherwise, it has
    run no time yet, and it has a next run, not in the past. *)
Theorem InitializeScheduleCreate_sound `{TimeZoneDatabase} newID input c s :
  InitializeScheduleCreate newID input c = Ok s ->
  CreatorPersonID s <> "" /\ Platform s <> "" /\ ConversationID s <> "" /\ ReplyTargetID s <> "" /\
  Prompt s <> "" /\ Name s <> "" /\ is_Some (LoadLocation (TimeZone s)) /\
  (forall e, ExpiresAt s = Some e -> CreateContext.ReferenceTime c < e) /\
  bounded_or_unbounded s (CreateInput.RepeatPolicy input) /\
  CompletedRunCount s = 0 /\ CarriesAnApprovedCall s = false /\
  exists n, NextRunAt s = Some n /\
    ((Kind s = ScheduleKindCron -> run_at_on_minute s = true) -> interval_fits s = true ->
      CreateContext.ReferenceTime c <= n).
Proof.
  unfold InitializeScheduleCreate; intros Hi.
  apply bind_Ok in Hi as (s0 & Hb & (n & -> & _ & _ & Hn)%initializedScheduleWithFutureRun_Ok).
  apply BuildScheduleCreate_Ok in Hb as (Hd & _ & Hcr & Hp & Hco & Hre & Hprompt & Hpne & _ & Htz &
    _ & Hexp & Hv & _ & _ & Hc & _ & Hcall & Hname).
  apply requireScheduleDelivery_Ok in Hd as (? & ? & ? & ?).
  apply normalizeScheduleTimeZone_Ok in Htz as [Htz _].
  apply validateScheduleRepeatPolicy_Ok in Hv.
  cbn [CreatorPersonID Platform ConversationID ReplyTargetID Prompt Name TimeZone ExpiresAt
    CompletedRunCount NextRunAt set_NextRunAt].
  rewrite Hcr, Hp, Hco, Hre; split_and!; try done.
  - rewrite Hname; destruct (firstNonBlank_spec [CreateInput.Description input; Prompt s0])
      as [[? _]|[_ Hall]]; [done|].
    specialize (Hall (Prompt s0)); rewrite Hprompt, TrimSpace_idemp, <- Hprompt in Hall.
    intros _; apply Hpne, Hall; rewrite !elem_of_cons; auto.
  - intros e He; rewrite He in Hexp; by apply parseScheduleExpiresAt_Ok in Hexp.
  - unfold CarriesAnApprovedCall; cbn; by rewrite Hcall.
  - exists n; split; [done|]; intros Hr Hf.
    by eapply calculateNextRunAt_not_before in Hn as [? _].
Qed.

Lemma InitializeScheduleCreate_sound_witness :
  CreatorPersonID sample_schedule <> "" /\ Platform sample_schedule <> "" /\
  ConversationID sample_schedule <> "" /\ ReplyTargetID sample_schedule <> "" /\
  Prompt sample_schedule <> "" /\ Name sample_schedule <> "" /\
  is_Some (@LoadLocation utc_only (TimeZone sample_schedule)) /\
  (forall e, ExpiresAt sample_schedule = Some e -> CreateContext.ReferenceTime sample_context < e) /\
  bounded_or_unbounded sample_schedule (CreateInput.RepeatPolicy sample_input) /\
  CompletedRunCount sample_schedule = 0 /\ CarriesAnApprovedCall sample_schedule = false /\
  exists n, NextRunAt sample_schedule = Some n /\
    ((Kind sample_schedule = ScheduleKindCron -> run_at_on_minute sample_schedule = true) ->
      interval_fits sample_schedule = true -> CreateContext.ReferenceTime sample_context <= n).
Proof.
  apply (InitializeScheduleCreate_sound (H := utc_only) "id-1" sample_input sample_context).
  vm_compute; reflexivity.
Defined.

(** An update keeps everything it does not name: whose schedule it is,
    where it answers, how it is run, what it has done so far. It never touches
    a schedule that carries an approved call, leaves a recurring schedule
    bounded unless its author asked otherwise in this very update, and always
    leaves a next run, not in the past. *)
Theorem ApplyScheduleUpdate_sound `{TimeZoneDatabase} s input company ref s' :
  ApplyScheduleUpdate s input company ref = Ok s' ->
  CarriesAnApprovedCall s = false /\ identity s' = identity s /\
  bounded_or_unbounded s' (scheduleRepeatPolicyOf input) /\
  UpdatedAt s' = ref /\ scheduleReachedRunLimit s' = false /\ scheduleExpired s' ref = false /\
  exists n, NextRunAt s' = Some n /\
    ((Kind s' = ScheduleKindCron -> run_at_on_minute s' = true) -> interval_fits s' = true ->
      ref <= n).
Proof.
  intros Hu; apply ApplyScheduleUpdate_Ok in Hu
    as (Hc & s1 & s2 & n & Hid & _ & Hca & -> & Hl & He & Hn); split; [done|].
  split; [|split; [|split; [done|split; [done|split; [done|]]]]].
  - apply applyScheduleUpdateCadence_identity in Hca; rewrite <- Hid, <- Hca; done.
  - by apply applyScheduleUpdateCadence_bounded in Hca.
  - exists n; split; [done|]; intros Hr Hf.
    by eapply calculateNextRunAt_not_before in Hn as [? _].
Qed.

Definition sample_update : UpdateInput.ScheduleUpdateInput :=
  UpdateInput.MkScheduleUpdateInput (Some " garden ") None None None None None (Some 60) None None
    (Some 3) None.

Lemma ApplyScheduleUpdate_sound_witness :
  let s' := set_NextAttemptAt (Some (2000 * Second)) (set_UpdatedAt (2000 * Second)
    (set_NextRunAt (Some (2000 * Second)) (set_MaxRunCount 3 (set_IntervalSecond 60
      (set_Name "garden" sample_schedule))))) in
  CarriesAnApprovedCall sample_schedule = false /\ identity s' = identity sample_schedule /\
  bounded_or_unbounded s' (scheduleRepeatPolicyOf sample_update) /\
  UpdatedAt s' = 2000 * Second /\ scheduleReachedRunLimit s' = false /\
  scheduleExpired s' (2000 * Second) = false /\
  exists n, NextRunAt s' = Some n /\
    ((Kind s' = ScheduleKindCron -> run_at_on_minute s' = true) -> interval_fits s' = true ->
      2000 * Second <= n).
Proof.
  intros s'; apply (ApplyScheduleUpdate_sound (H := utc_only) sample_schedule sample_update "UTC").
  vm_compute; reflexivity.
Defined.

(** C38. Whatever a writer refuses is the caller's to correct: creation, update
    and the scheduling of an approved call fail only with the errors
    [IsScheduleWriteInputError] lists, and always return, as long as the
    intervals fit a [time.Duration]. *)
Theorem schedule_writes_fail_as_input_errors `{TimeZoneDatabase} newID input c s update company ref request :
  CreateInput.IntervalSecond input <= max_interval_second ->
  IntervalSecond s <= max_interval_second ->
  default 0 (UpdateInput.IntervalSecond update) <= max_interval_second ->
  refuses_input (InitializeScheduleCreate newID input c) /\
  refuses_input (ApplyScheduleUpdate s update company ref) /\
  refuses_input (BuildApprovedCallSchedule newID request).
Proof.
  intros Hcreate Hs Hupdate; split_and!.
  - unfold InitializeScheduleCreate; apply refuses_input_bind; [apply BuildScheduleCreate_input|].
    intros s0 Hs0; apply BuildScheduleCreate_Ok in Hs0.
    apply initializedScheduleWithFutureRun_input; unfold interval_fits.
    destruct_and? Hs0; apply Z.leb_le; congruence.
  - unfold ApplyScheduleUpdate.
    apply refuses_input_bind; [auto with go|intros _ _].
    apply refuses_input_bind; [auto with go|intros s1 H1].
    apply refuses_input_bind; [auto with go|intros s2 H2].
    apply refuses_input_bind; [apply applyScheduleUpdateCadence_input|intros s3 H3].
    apply initializedScheduleWithFutureRun_input, Z.leb_le; cbn [IntervalSecond set_NextAttemptAt set_UpdatedAt].
    apply IntervalSecond_assign_parsed in H1; [|done].
    apply IntervalSecond_assign_parsed in H2; [|done].
    assert (Hs2 : IntervalSecond s2 = IntervalSecond s).
    { destruct (UpdateInput.Description update), (UpdateInput.AgentProfileName update); cbn in *; congruence. }
    apply applyScheduleUpdateCadence_interval in H3 as [->| ->]; [unfold max_interval_second; lia|].
    destruct (UpdateInput.IntervalSecond update); cbn in *; lia.
  - unfold BuildApprovedCallSchedule.
    apply refuses_input_bind; [auto with go|intros _ _].
    apply refuses_input_bind; [apply BuildScheduleCreate_input|].
    intros s0 Hs0; apply BuildScheduleCreate_Ok in Hs0.
    apply initializedScheduleWithFutureRun_input; unfold interval_fits.
    destruct_and? Hs0; apply Z.leb_le; cbn [IntervalSecond set_ApprovedCall].
    match goal with Hi : IntervalSecond s0 = _ |- _ => rewrite Hi end.
    cbn; unfold max_interval_second; lia.
Qed.

Definition sample_request : Approved.ApprovedCallScheduleRequest :=
  Approved.MkApprovedCallScheduleRequest
    {| ToolName := " mail_send "; ToolInput := "{}"; ApproverPersonID := "person-1";
       ApprovedAt := 900 * Second; OriginTaskRunID := "task-1" |}
    (5000 * Second + 7) "send the report" "" (CreateContext.DeliveryBinding sample_context) ""
    (1000 * Second).

Lemma schedule_writes_fail_as_input_errors_witness :
  @refuses_input Schedule (@InitializeScheduleCreate utc_only "id-1" sample_input sample_context) /\
  @refuses_input Schedule
    (@ApplyScheduleUpdate utc_only sample_schedule sample_update "UTC" (2000 * Second)) /\
  @refuses_input Schedule (@BuildApprovedCallSchedule utc_only "id-1" sample_request).
Proof.
  apply (schedule_writes_fail_as_input_errors (H := utc_only));
    cbn; unfold max_interval_second; lia.
Defined.

(** A scheduled approved call is exactly the call that was approved, on
    behalf of the person who approved it: the tool's name apart from blanks at
    its ends, and its input to the byte; it runs once, at the approved start to
    the second, and it can no longer be changed by an update. *)
Theorem BuildApprovedCallSchedule_exact `{TimeZoneDatabase} newID request s :
  0 <= year_of UTC (Approved.StartsAt request) <= 9999 ->
  BuildApprovedCallSchedule newID request = Ok s ->
  let call := Approved.Call request in
  let start := Approved.StartsAt request - Approved.StartsAt request mod Second in
  ApprovedCall s = Some (trimmed_call call) /\
  CreatorPersonID s = TrimSpace (ApproverPersonID call) /\
  Kind s = ScheduleKindOnce /\ RunAt s = Some start /\ NextRunAt s = Some start /\
  ExpiresAt s = None /\
  Approved.ReferenceTime request <= start /\
  (TrimSpace (ToolName call) <> "" -> forall input company ref,
    ApplyScheduleUpdate s input company ref = Err ErrScheduleCarriesAnApproval).
Proof.
  intros Hy Hb call start; unfold BuildApprovedCallSchedule in Hb.
  apply bind_Ok in Hb as ([] & _ & Hb); apply bind_Ok in Hb as (s0 & Hs0 & Hb).
  apply initializedScheduleWithFutureRun_Ok in Hb as (n & -> & _ & _ & Hn).
  apply BuildScheduleCreate_Ok in Hs0 as (_ & _ & Hcr & _ & _ & _ & _ & _ & Hk & _ & Hrun & Hexp & _).
  cbn [approved_create_input CreateInput.Kind CreateInput.ExpiresAt] in Hk, Hexp.
  rewrite parseScheduleKind_once in Hk; rewrite parseScheduleExpiresAt_none in Hexp.
  assert (Hkind : Kind s0 = ScheduleKindOnce) by congruence.
  assert (Hstart : RunAt s0 = Some start).
  { cbn [approved_create_input CreateInput.RunAt] in Hrun.
    rewrite (parseScheduleRunAt_Format _ Hy) in Hrun; injection Hrun as <-; done. }
  unfold calculateNextRunAt in Hn; cbn [Kind set_ApprovedCall] in Hn; rewrite Hkind in Hn.
  apply calculateOneTimeNextRunAt_Some in Hn as (Hn & _ & Href).
  cbn [RunAt set_ApprovedCall] in Hn; rewrite Hstart in Hn; injection Hn as <-.
  split_and!; try done.
  - change (ExpiresAt s0 = None); congruence.
  - intros Hname input company ref; unfold ApplyScheduleUpdate, CarriesAnApprovedCall.
    cbn [ApprovedCall set_NextRunAt set_ApprovedCall trimmed_call ToolName]; fold call.
    by rewrite TrimSpace_idemp, (bool_decide_eq_false_2 _ Hname).
Qed.

Lemma BuildApprovedCallSchedule_exact_witness :
  exists s, @BuildApprovedCallSchedule utc_only "id-2" sample_request = Ok s /\
  let call := Approved.Call sample_request in
  let start := Approved.StartsAt sample_request - Approved.StartsAt sample_request mod Second in
  ApprovedCall s = Some (trimmed_call call) /\
  CreatorPersonID s = TrimSpace (ApproverPersonID call) /\
  Kind s = ScheduleKindOnce /\ RunAt s = Some start /\ NextRunAt s = Some start /\
  ExpiresAt s = None /\
  Approved.ReferenceTime sample_request <= start /\
  (TrimSpace (ToolName call) <> "" -> forall input company ref,
    @ApplyScheduleUpdate utc_only s input company ref = Err ErrScheduleCarriesAnApproval).
Proof.
  eexists; split; [vm_compute; reflexivity|].
  apply (BuildApprovedCallSchedule_exact (H := utc_only) "id-2" sample_request).
  - vm_compute; split; discriminate.
  - vm_compute; reflexivity.
Defined.

(** Creating a schedule under a new ID never takes a person past fifty open
    schedules, and writes the created schedule and nothing else; the schedule belongs
    to the person whose open schedules were counted. *)
Theorem CreateSchedule_keeps_the_limit `{TimeZoneDatabase} {R} `{ScheduleCreateRepositoryLaws R}
    newID (r r' : R) input c s :
  stored r !! newID = None -> IsZero (CreateContext.ReferenceTime c) = false ->
  CreateSchedule newID r input c = Ok (s, r') ->
  let person := TrimSpace (CreateContext.CreatorPersonID c) in
  let ref := CreateContext.ReferenceTime c in
  open_count person ref (stored r) < MaximumOpenScheduleCountPerPerson /\
  open_count person ref (stored r') <= MaximumOpenScheduleCountPerPerson /\
  CreatorPersonID s = person /\
  exists row, stored_as s row /\ stored r' = <[newID := row]> (stored r).
Proof.
  intros Hnew Hzero Hc person ref; unfold CreateSchedule in Hc.
  apply bind_Ok in Hc as (s0 & Hs0 & Hc); apply bind_Ok in Hc as (count & Hcount & Hc).
  apply bind_Ok in Hc as ([] & Hlim%refuse_if_Ok & Hc); apply bind_Ok in Hc as (r1 & Hr1 & Hc).
  injection Hc as <- <-; bool_to_prop.
  unfold InitializeScheduleCreate in Hs0; apply bind_Ok in Hs0 as (s1 & Hs1 & Hs0).
  apply initializedScheduleWithFutureRun_Ok in Hs0 as (n & -> & _ & _ & _).
  apply BuildScheduleCreate_Ok in Hs1 as (Hd & Hid & Hcr & _).
  apply requireScheduleDelivery_Ok in Hd as (Hne & _).
  unfold openScheduleCountOf in Hcount; apply bind_Ok in Hcount as (res & Hres & Hcount).
  injection Hcount as <-.
  apply ListSchedules_count in Hres; [|by rewrite TrimSpace_idemp|apply TrimSpace_idemp|done].
  fold person ref in Hres; rewrite Hres in Hlim.
  apply UpsertSchedule_stores in Hr1 as (row & Hrow & Hr1); [|by cbn; rewrite Hid].
  cbn [ScheduleID set_NextRunAt] in Hr1; rewrite Hid in Hr1.
  split_and!; [done| |done|by exists row].
  rewrite Hr1; pose proof (open_count_insert person ref newID row (stored r)); lia.
Qed.

Lemma CreateSchedule_keeps_the_limit_witness :
  let person := TrimSpace (CreateContext.CreatorPersonID sample_context) in
  let ref := CreateContext.ReferenceTime sample_context in
  let r' := <["id-1" := sample_schedule]> ∅ : gmap string Schedule in
  open_count person ref (stored (R := gmap string Schedule) ∅) < MaximumOpenScheduleCountPerPerson /\
  open_count person ref (stored r') <= MaximumOpenScheduleCountPerPerson /\
  CreatorPersonID sample_schedule = person /\
  exists row, stored_as sample_schedule row /\
    stored r' = <["id-1" := row]> (stored (R := gmap string Schedule) ∅).
Proof.
  intros person ref r'.
  apply (CreateSchedule_keeps_the_limit (H := utc_only) (R := gmap string Schedule) "id-1" ∅ r'
    sample_input sample_context sample_schedule).
  - reflexivity.
  - vm_compute; reflexivity.
  - vm_compute; reflexivity.
Defined.

(** ** Where the code departs from what it means *)

(** An approved start less than a second away is "a time that has not passed
    yet", and yet is refused: its fraction is lost before it is compared. *)
Lemma approved_start_within_the_second :
  let request := Approved.MkApprovedCallScheduleRequest (Approved.Call sample_request)
    (1000 * Second + 7) "send the report" "" (CreateContext.DeliveryBinding sample_context) ""
    (1000 * Second + 3) in
  After (Approved.StartsAt request) (Approved.ReferenceTime request) = true /\
  @BuildApprovedCallSchedule utc_only "id-2" request = Err ErrScheduleNoFutureRun.
Proof. split; vm_compute; reflexivity. Qed.
