(* ===== verification/ScheduleStore.v ===== *)
(** * The schedule table ([store/postgres/schedule_repository.go],
    [store/postgres/morning_briefing_repository.go], [task/schedule_repository.go]).

    A statement or transaction of the repository is a function on the [Store], which
    fails without a change or returns the store after its commit; what a database
    may do besides (refuse a statement, lose the answer of a commit) belongs to the
    components that call it.  A column that allows NULL holds it where the record
    holds an empty string, a zero or [None]; instants are kept as they are given
    (the database rounds them to microseconds).  The tables [conversation] and
    [raw_event] are written and not read here, and are left out. *)

From S2P Require Export TaskRuns GoHash ScheduleWrite.

(** ** Data *)

(** [connectors.OutboundReply] ([connectors/runtime_messages.go]); a failure notice by its text. *)
Record OutboundReply := MkReply {
  Message : string;
  Reply_TaskRunID : string;
  ReplyKind : string;
  RawEventID : string;
  OutboxID : string;
  Reply_Attachments : list FileAttachment;
  Reply_RecoveryActions : list RecoveryAction;
  FailureNotice : string;
  Interaction : option AskInteraction;
}.

Definition no_reply : OutboundReply := MkReply "" "" "" "" "" [] [] "" None.

(** [connectors/runtime.go] *)
Definition connectorReplyKindUserNotice : string := "user_notice".

(** The notice, and the reason there is none. *)
Definition UserNoticeReply (turn : TurnResult) (taskRunID : string) : OutboundReply * string :=
  match userNoticeReplyMessage turn with
  | Err reason => (no_reply, reason)
  | Ok (message, failureNotice) =>
    (MkReply message taskRunID connectorReplyKindUserNotice "" "" (Turn_Attachments turn) [] failureNotice None, "")
  end.

(** A row of [connector_outbox]. *)
Record OutboxRow := MkOutboxRow {
  Outbox_Platform : string;
  Outbox_ConversationID : string;
  Outbox_ReplyTargetID : string;
  Outbox_Reply : OutboundReply;
}.

(** [briefings] is the table [morning_briefing_schedule], from a person to the ID of
    their schedule. *)
Record Store := MkStore {
  table : gmap string Schedule;
  briefings : gmap string string;
  outbox : gmap string OutboxRow;
}.

Definition set_table (f : gmap string Schedule -> gmap string Schedule) (st : Store) : Store :=
  MkStore (f (table st)) (briefings st) (outbox st).

Definition set_outbox (f : gmap string OutboxRow -> gmap string OutboxRow) (st : Store) : Store :=
  MkStore (table st) (briefings st) (f (outbox st)).

Definition add_briefing (person id : string) (st : Store) : Store :=
  MkStore (table st) (<[person := id]> (briefings st)) (outbox st).

(** [ConstraintViolation] is the database's refusal of a row. *)
Inductive StoreError :=
| errManagedScheduleMutation
| errMorningBriefingScheduleIDConflict
| errStaleMorningBriefingLease
| ErrNoRows
| ConstraintViolation
| StoreFailure (message : string)
| StoreSchedulerError (e : ScheduleError).

Inductive ScheduleCancelScope :=
| ScheduleCancelScopeCurrentConversation
| ScheduleCancelScopeMine
| ScheduleCancelScopeScheduleIDs
| ScheduleCancelScopeOther (name : string).

Record ScheduleCancelRequest := MkCancelRequest {
  Scope : ScheduleCancelScope;
  RequesterPersonID : string;
  Cancel_ConversationID : string;
  ScheduleIDs : list string;
  CancelledAt : instant;
}.

Record ScheduleSummary := MkSummary {
  ActiveCount : Z;
  UnboundedCount : Z;
  IntervalCount : Z;
  CronCount : Z;
  OnceCount : Z;
  EarliestNextRunAt : option instant;
  LatestNextRunAt : option instant;
  CheckedAt : instant;
}.

(** ** The morning briefing's schedules ([task/morning_briefing.go]) *)

Definition MorningBriefingScheduleID (personID : string) : string :=
  of_bytes (EncodeToString (Sum256 (bytes_of ("morning-briefing:" +:+ personID)))).

Definition IsMorningBriefing (schedule : Schedule) : bool :=
  negb (bool_decide (CreatorPersonID schedule = "")) &&
  bool_decide (ScheduleID schedule = MorningBriefingScheduleID (CreatorPersonID schedule)).

(** [EXISTS (SELECT 1 FROM morning_briefing_schedule WHERE schedule_id = $1)] *)
Definition managed (id : string) (st : Store) : bool :=
  bool_decide (id ∈ (map_to_list (briefings st)).*2).

(** ** The rows the database admits ([migrations/008], [017], [018], [023] and [038]) *)

Definition fits_integer (z : Z) : bool := (- 2 ^ 31 <=? z) && (z <? 2 ^ 31).

Definition admits (row : Schedule) : bool :=
  let no_run_at := bool_decide (RunAt row = None) in
  let no_interval := bool_decide (IntervalSecond row = 0) in
  let no_cron := bool_decide (CronExpression row = "") in
  match Kind row with
  | ScheduleKindOnce => negb no_run_at && no_interval && no_cron
  | ScheduleKindInterval => (0 <? IntervalSecond row) && no_cron
  | ScheduleKindCron => negb no_cron && no_interval
  | ScheduleKindOther _ => false
  end &&
  (bool_decide (ApprovedCall row = None) || bool_decide (Kind row = ScheduleKindOnce)) &&
  negb (bool_decide (CreatorPersonID row = "")) && negb (bool_decide (NextAttemptAt row = None)) &&
  fits_integer (IntervalSecond row) && fits_integer (MaxRunCount row) &&
  fits_integer (CompletedRunCount row) && fits_integer (FailureCount row).

Definition normalizedScheduleExecutionMode (value : ScheduleExecutionMode) : ScheduleExecutionMode :=
  match value with
  | ScheduleExecutionModeMessage => ScheduleExecutionModeMessage
  | _ => ScheduleExecutionModeAgent
  end.

Definition scheduleExpiresAt (schedule : Schedule) : option instant :=
  match ExpiresAt schedule with
  | Some e => if IsZero e then None else Some e
  | None => None
  end.

Definition firstNonNilScheduleTime (pointerValue : option instant) (fallbackValue : instant)
  : option instant :=
  match pointerValue with
  | Some t => if IsZero t then (if IsZero fallbackValue then None else Some fallbackValue) else Some t
  | None => if IsZero fallbackValue then None else Some fallbackValue
  end.

(** [time.Now()] in place of an instant that is not given. *)
Definition or_now (t now : instant) : instant := if IsZero t then now else t.

(** [INSERT ... ON CONFLICT] and [UPDATE]: the row is written if it is admitted. *)
Definition write_row (id : string) (row : Schedule) (st : Store) : result StoreError Store :=
  if admits row then Ok (set_table <[id := row]> st) else Err ConstraintViolation.

(** [expires_at IS NULL OR expires_at > $1] *)
Definition unexpired (referenceTime : instant) (row : Schedule) : bool :=
  match ExpiresAt row with None => true | Some e => After e referenceTime end.

(** [next_run_at IS NOT NULL AND (expires_at IS NULL OR expires_at > $1)] *)
Definition active (referenceTime : instant) (row : Schedule) : bool :=
  negb (bool_decide (NextRunAt row = None)) && unexpired referenceTime row.

(** [UPDATE schedule SET ... WHERE condition]; counters that leave their column count
    as a refusal by the database. *)
Definition update_where (condition : string -> Schedule -> bool) (set : Schedule -> Schedule)
  : Store -> Store :=
  set_table (map_imap (fun id row => Some (if condition id row then set row else row))).

(** [SELECT ... WHERE condition], in the order of the table. *)
Definition select_where (condition : string -> Schedule -> bool) (st : Store) : list Schedule :=
  (filter (fun kv => condition kv.1 kv.2 = true) (map_to_list (table st))).*2.

Definition with_ID (id : string) (key : string) (_ : Schedule) : bool := bool_decide (key = id).

Definition release (row : Schedule) : Schedule := set_LeaseOwner "" (set_LeasedUntil None row).

Definition both (c d : string -> Schedule -> bool) (id : string) (row : Schedule) : bool :=
  c id row && d id row.

Module ScheduleRepository.

(** ** Creating, changing and deleting *)

(** The values [INSERT] gives a new row. *)
Definition inserted_row (schedule : Schedule) : Schedule :=
  set_ExecutionMode (normalizedScheduleExecutionMode (ExecutionMode schedule))
    (set_ExpiresAt (scheduleExpiresAt schedule)
      (set_NextAttemptAt (firstNonNilScheduleTime (NextAttemptAt schedule) (CreatedAt schedule)) schedule)).

(** [ON CONFLICT (schedule_id) DO UPDATE]: the creator, the creation time and the
    approved call of the row stay. *)
Definition replaced_row (row excluded : Schedule) : Schedule :=
  set_CreatorPersonID (CreatorPersonID row)
    (set_CreatedAt (CreatedAt row) (set_ApprovedCall (ApprovedCall row) excluded)).

Definition UpsertSchedule (now : instant) (schedule : Schedule) (st : Store) : result StoreError Store :=
  if managed (ScheduleID schedule) st then Err errManagedScheduleMutation else
  let schedule := set_CreatedAt (or_now (CreatedAt schedule) now) schedule in
  let schedule := set_UpdatedAt (or_now (UpdatedAt schedule) now) schedule in
  let excluded := inserted_row schedule in
  match table st !! ScheduleID schedule with
  | None => write_row (ScheduleID schedule) excluded st
  | Some row => write_row (ScheduleID schedule) (replaced_row row excluded) st
  end.

(** [updateScheduleWithTransaction]: the columns it does not name stay. *)
Definition updated_row (row schedule : Schedule) : Schedule :=
  set_CreatorPersonID (CreatorPersonID row)
    (set_CreatedAt (CreatedAt row) (set_ApprovedCall (ApprovedCall row)
      (set_ExecutionMode (normalizedScheduleExecutionMode (ExecutionMode schedule))
        (set_ExpiresAt (scheduleExpiresAt schedule)
          (set_NextAttemptAt (firstNonNilScheduleTime (NextAttemptAt schedule) (UpdatedAt schedule))
            schedule))))).

Definition updateScheduleWithTransaction (schedule : Schedule) (st : Store) : result StoreError Store :=
  match table st !! ScheduleID schedule with
  | None => Ok st
  | Some row => write_row (ScheduleID schedule) (updated_row row schedule) st
  end.

(** The row a person may change with [UpdateSchedule]. *)
Definition changeable (now : instant) (scheduleID requesterPersonID : string) (st : Store)
  : option Schedule :=
  row ← table st !! scheduleID;
  if negb (managed scheduleID st) && bool_decide (CreatorPersonID row = requesterPersonID) &&
     active now row
  then Some row else None.

Definition UpdateSchedule {E} (now : instant) (scheduleID requesterPersonID : string)
    (update : Schedule -> result E Schedule) (st : Store)
  : result (StoreError + E) (Store * option Schedule) :=
  let scheduleID := TrimSpace scheduleID in
  let requesterPersonID := TrimSpace requesterPersonID in
  if bool_decide (scheduleID = "") || bool_decide (requesterPersonID = "") then Ok (st, None) else
  match changeable now scheduleID requesterPersonID st with
  | None => Ok (st, None)
  | Some row =>
    match update row with
    | Err e => Err (inr e)
    | Ok schedule =>
      match updateScheduleWithTransaction schedule st with
      | Err e => Err (inl e)
      | Ok st' => Ok (st', Some schedule)
      end
    end
  end.

Definition DeleteSchedule (scheduleID requesterPersonID : string) (st : Store)
  : Store * option Schedule :=
  let scheduleID := TrimSpace scheduleID in
  let requesterPersonID := TrimSpace requesterPersonID in
  if bool_decide (scheduleID = "") || bool_decide (requesterPersonID = "") then (st, None) else
  match table st !! scheduleID with
  | Some row =>
    if negb (managed scheduleID st) && bool_decide (CreatorPersonID row = requesterPersonID)
    then (set_table (delete scheduleID) st, Some row) else (st, None)
  | None => (st, None)
  end.

(** ** Claiming and settling *)

Definition claimable (referenceTime : instant) (leaseOwner : string) (row : Schedule) : bool :=
  match NextRunAt row with
  | Some n => negb (After n referenceTime)
  | None => false
  end &&
  match NextAttemptAt row with
  | Some n => negb (After n referenceTime)
  | None => false
  end &&
  unexpired referenceTime row &&
  match LeasedUntil row with
  | None => true
  | Some l => negb (After l referenceTime) || bool_decide (LeaseOwner row = leaseOwner)
  end.

Definition runs_before (left right : Schedule) : bool :=
  match NextRunAt left, NextRunAt right with
  | Some l, Some r => l <? r
  | _, _ => false
  end.

Definition leased (leaseOwner : string) (until referenceTime : instant) (row : Schedule) : Schedule :=
  set_LeaseOwner leaseOwner (set_LeasedUntil (Some until) (set_UpdatedAt referenceTime row)).

(** The rows [locked] by other sessions are skipped; rows with the same next run
    come in the order of the table. *)
Definition ClaimDueSchedules (now : instant) (locked : gset string) (limit : Z)
    (leaseDuration : duration) (referenceTime : instant) (leaseOwner : string) (st : Store)
  : Store * list Schedule :=
  let limit := if limit <=? 0 then 1 else limit in
  let referenceTime := or_now referenceTime now in
  let leaseSecond := Z.quot leaseDuration Second in
  let leaseSecond := if leaseSecond <=? 0 then 300 else leaseSecond in
  let candidates := select_where (fun id row =>
    claimable referenceTime leaseOwner row && negb (bool_decide (id ∈ locked))) st in
  let claim := take (Z.to_nat limit) (stable_sort runs_before candidates) in
  let set := leased leaseOwner (Add referenceTime (leaseSecond * Second)) referenceTime in
  (update_where (fun id _ => bool_decide (id ∈ ScheduleID <$> claim)) set st, set <$> claim).

(** The row after a success. *)
Definition succeeded_row (now : instant) (schedule row : Schedule) : Schedule :=
  release
    (set_NextRunAt (NextRunAt schedule)
      (set_LastRunAt (LastRunAt schedule)
        (set_LastTaskRunID (LastTaskRunID schedule)
          (set_FailureCount 0
            (set_LastError ""
              (set_NextAttemptAt (Some now)
                (set_CompletedRunCount (CompletedRunCount schedule)
                  (set_UpdatedAt now row)))))))).

(** [... AND lease_owner = $7 AND leased_until = $8]: a NULL equals nothing. *)
Definition same_lease (schedule row : Schedule) : bool :=
  bool_decide (LeaseOwner row = LeaseOwner schedule) &&
  match LeasedUntil row, LeasedUntil schedule with
  | Some l, Some l' => l =? l'
  | _, _ => false
  end.

(** [WHERE schedule_id = $5], and for a morning briefing its lease. *)
Definition settles (schedule : Schedule) (st : Store) (id : string) (row : Schedule) : bool :=
  with_ID (ScheduleID schedule) id row &&
  (negb (IsMorningBriefing schedule) ||
   managed (ScheduleID schedule) st && same_lease schedule row).

Definition settle_row (schedule : Schedule) (set : Schedule -> Schedule) (st : Store)
  : result StoreError Store :=
  if IsMorningBriefing schedule && bool_decide (select_where (settles schedule st) st = [])
  then Err errStaleMorningBriefingLease
  else Ok (update_where (settles schedule st) set st).

Definition MarkScheduleSucceeded (now : instant) (schedule : Schedule) : Store -> result StoreError Store :=
  settle_row schedule (succeeded_row now schedule).

Definition verifyMorningBriefingLease (schedule : Schedule) (referenceTime : instant) (st : Store)
  : result StoreError unit :=
  match table st !! ScheduleID schedule with
  | None => Err ErrNoRows
  | Some row =>
    if negb (managed (ScheduleID schedule) st) then Err ErrNoRows else
    if bool_decide (LeaseOwner schedule = "") || negb (same_lease schedule row) ||
       match LeasedUntil row with Some l => negb (After l referenceTime) | None => true end
    then Err errStaleMorningBriefingLease else Ok tt
  end.

Definition firstNonEmptyPostgresString (values : list string) : string :=
  default "" (List.find (fun value => negb (bool_decide (value = ""))) values).

Definition scheduledConnectorReply (taskRunID deliveryDeduplicationKey : string) (reply : OutboundReply)
  : OutboundReply :=
  MkReply (Message reply) (firstNonEmptyPostgresString [Reply_TaskRunID reply; taskRunID])
    (firstNonEmptyPostgresString [ReplyKind reply; "success"])
    deliveryDeduplicationKey deliveryDeduplicationKey (Reply_Attachments reply) (Reply_RecoveryActions reply) (FailureNotice reply) (Interaction reply).

(** [INSERT INTO connector_outbox ... ON CONFLICT (outbox_id) DO NOTHING] *)
Definition enqueue (key : string) (schedule : Schedule) (reply : OutboundReply) : Store -> Store :=
  set_outbox (fun out =>
    match out !! key with
    | Some _ => out
    | None =>
      <[key := MkOutboxRow (Platform schedule) (ConversationID schedule) (ReplyTargetID schedule) reply]> out
    end).

Definition enqueueScheduledConnectorReplyWithTransaction (schedule : Schedule)
    (taskRunID deliveryDeduplicationKey : string) (reply : OutboundReply) : Store -> Store :=
  enqueue deliveryDeduplicationKey schedule
    (scheduledConnectorReply taskRunID deliveryDeduplicationKey reply).

Definition markScheduleSucceededWithTransaction (now : instant) (schedule : Schedule) : Store -> Store :=
  update_where (with_ID (ScheduleID schedule)) (succeeded_row now schedule).

Definition MarkScheduleSucceededAndEnqueueDelivery (now : instant) (schedule : Schedule)
    (taskRunID deliveryDeduplicationKey : string) (reply : OutboundReply) (st : Store)
  : result StoreError (Store * string) :=
  let key := TrimSpace deliveryDeduplicationKey in
  _ ← refuse_if (bool_decide (key = ""))
        (StoreFailure "scheduled task delivery deduplication key is required");
  _ ← (if IsMorningBriefing schedule then verifyMorningBriefingLease schedule now st else Ok tt);
  Ok (markScheduleSucceededWithTransaction now schedule
        (enqueueScheduledConnectorReplyWithTransaction schedule taskRunID key reply st), key).

(** [RawEventRepository.EnqueueScheduledConnectorReply]
    ([store/postgres/raw_event_repository.go]) *)
Definition EnqueueScheduledConnectorReply (schedule : Schedule) (taskRunID : string)
    (reply : OutboundReply) (st : Store) : Store * string :=
  let key := "schedule:" +:+ ScheduleID schedule +:+ ":task:" +:+ taskRunID in
  let reply := MkReply (Message reply)
    (if blank (Reply_TaskRunID reply) then taskRunID else Reply_TaskRunID reply)
    (if blank (ReplyKind reply) then "success" else ReplyKind reply)
    key key (Reply_Attachments reply) (Reply_RecoveryActions reply) (FailureNotice reply) (Interaction reply) in
  (enqueue key schedule reply st, key).

Definition scheduleRetryDelay (failureCount : Z) : duration :=
  if failureCount <=? 0 then Minute else
  let delay := duration_mul (duration_mul failureCount 5) Minute in
  if Hour <? delay then Hour else delay.

Definition failed_row (errorMessage : string) (nextAttemptAt referenceTime : instant) (row : Schedule)
  : Schedule :=
  release
    (set_FailureCount (FailureCount row + 1)
      (set_LastError errorMessage
        (set_NextAttemptAt (Some nextAttemptAt) (set_UpdatedAt referenceTime row)))).

Definition MarkScheduleFailed (now : instant) (schedule : Schedule) (errorMessage : string)
    (referenceTime : instant) : Store -> result StoreError Store :=
  let referenceTime := or_now referenceTime now in
  let nextAttemptAt := Add referenceTime (scheduleRetryDelay (wrap64 (FailureCount schedule + 1))) in
  settle_row schedule (failed_row errorMessage nextAttemptAt referenceTime).

Definition expired_row (errorMessage : string) (referenceTime : instant) (row : Schedule) : Schedule :=
  set_ExpiresAt (Some referenceTime)
    (set_NextRunAt None (failed_row errorMessage referenceTime referenceTime row)).

Definition ExpireSchedule (now : instant) (schedule : Schedule) (errorMessage : string)
    (referenceTime : instant) : Store -> Store :=
  let referenceTime := or_now referenceTime now in
  update_where (with_ID (ScheduleID schedule)) (expired_row errorMessage referenceTime).

(** ** Cancelling, listing and repairing *)

(** [scheduleIDCondition]: the distinct IDs that are not blank; no condition when
    there are none. *)
Definition scheduleIDCondition (scheduleIDs : list string) : option (string -> Schedule -> bool) :=
  match distinct_by TrimSpace ∅ scheduleIDs with
  | [] => None
  | ids => Some (fun id _ => bool_decide (id ∈ ids))
  end.

Definition scheduleCancelAccessCondition (request : ScheduleCancelRequest) (_ : string) (row : Schedule)
  : bool :=
  let conversation := TrimSpace (Cancel_ConversationID request) in
  let own := bool_decide (CreatorPersonID row = TrimSpace (RequesterPersonID request)) in
  if bool_decide (conversation = "") then own
  else own || bool_decide (ConversationID row = conversation).

(** The condition that the scope adds; [None] when nothing can match. *)
Definition cancel_scope (request : ScheduleCancelRequest) : option (string -> Schedule -> bool) :=
  match Scope request with
  | ScheduleCancelScopeCurrentConversation =>
    let conversation := TrimSpace (Cancel_ConversationID request) in
    if bool_decide (conversation = "") then None
    else Some (fun _ row => bool_decide (ConversationID row = conversation))
  | ScheduleCancelScopeScheduleIDs =>
    condition ← scheduleIDCondition (ScheduleIDs request);
    Some (both condition (scheduleCancelAccessCondition request))
  | _ => Some (fun _ row => bool_decide (CreatorPersonID row = TrimSpace (RequesterPersonID request)))
  end.

Definition cancelled_row (cancelledAt : instant) (row : Schedule) : Schedule :=
  release (set_ExpiresAt (Some cancelledAt) (set_NextRunAt None (set_UpdatedAt cancelledAt row))).

Definition cancellable (cancelledAt : instant) (st : Store) (id : string) (row : Schedule) : bool :=
  active cancelledAt row && negb (managed id st).

Definition CancelSchedules (now : instant) (request : ScheduleCancelRequest) (st : Store)
  : Store * list Schedule :=
  let cancelledAt := or_now (CancelledAt request) now in
  if bool_decide (TrimSpace (RequesterPersonID request) = "") then (st, []) else
  match cancel_scope request with
  | None => (st, [])
  | Some scope =>
    let condition := both (cancellable cancelledAt st) scope in
    (update_where condition (cancelled_row cancelledAt) st,
     cancelled_row cancelledAt <$> select_where condition st)
  end.

Definition count (condition : Schedule -> bool) (rows : list Schedule) : Z :=
  Z.of_nat (length (filter (fun row => condition row = true) rows)).

Definition earliest (times : list instant) : option instant :=
  match times with [] => None | t :: ts => Some (foldr Z.min t ts) end.

Definition latest (times : list instant) : option instant :=
  match times with [] => None | t :: ts => Some (foldr Z.max t ts) end.

Definition unbounded (row : Schedule) : bool :=
  bool_decide (ExpiresAt row = None) && bool_decide (MaxRunCount row = 0).

Definition SummarizeActiveSchedules (now referenceTime : instant) (st : Store) : ScheduleSummary :=
  let referenceTime := or_now referenceTime now in
  let rows := select_where (fun _ => active referenceTime) st in
  let times := omap NextRunAt rows in
  MkSummary (Z.of_nat (length rows)) (count unbounded rows)
    (count (fun row => negb (bool_decide (IntervalSecond row = 0))) rows)
    (count (fun row => negb (bool_decide (CronExpression row = ""))) rows)
    (count (fun row => bool_decide (Kind row = ScheduleKindOnce)) rows)
    (earliest times) (latest times) referenceTime.

Definition scheduleListFilter (now : instant) (request : ListRequest.ScheduleListRequest)
    (_ : string) (row : Schedule) : bool :=
  let referenceTime := or_now (ListRequest.ReferenceTime request) now in
  let conversation := TrimSpace (ListRequest.ConversationID request) in
  let creator := TrimSpace (ListRequest.CreatorPersonID request) in
  (ListRequest.IncludeExpired request || active referenceTime row) &&
  (bool_decide (conversation = "") || bool_decide (ConversationID row = conversation)) &&
  (bool_decide (creator = "") || bool_decide (CreatorPersonID row = creator)) &&
  (negb (ListRequest.UnboundedOnly request) || unbounded row).

Definition scheduleListPage (page : Z) : Z := if page <? 1 then 1 else page.

Definition scheduleListPageSize (pageSize : Z) : Z :=
  if pageSize <? 1 then 50 else if 200 <? pageSize then 200 else pageSize.

Definition countSchedules (condition : string -> Schedule -> bool) (st : Store) : Z :=
  Z.of_nat (length (select_where condition st)).

(** The rows listed by [ORDER BY created_at DESC], equal times in the order of the
    table.  The offset of the page is an [int]; PostgreSQL refuses one below 0. *)
Definition newest_first (left right : Schedule) : bool := CreatedAt right <? CreatedAt left.

Definition ListSchedules (now : instant) (request : ListRequest.ScheduleListRequest) (st : Store)
  : result StoreError ListResult.ScheduleListResult :=
  let condition := scheduleListFilter now request in
  let page := scheduleListPage (ListRequest.Page request) in
  let pageSize := scheduleListPageSize (ListRequest.PageSize request) in
  let offset := wrap64 (wrap64 (page - 1) * pageSize) in
  _ ← refuse_if (offset <? 0) (StoreFailure "OFFSET must not be negative");
  let rows := stable_sort newest_first (select_where condition st) in
  Ok (ListResult.MkScheduleListResult (take (Z.to_nat pageSize) (drop (Z.to_nat offset) rows))
        (countSchedules condition st) page pageSize).

Definition RepairScheduleCreatorPersonID (now : instant) (fromCreatorPersonID toCreatorPersonID : string)
    (st : Store) : Store * Z :=
  let condition := fun _ row => bool_decide (CreatorPersonID row = TrimSpace fromCreatorPersonID) in
  let condition := both condition (fun _ row => negb (bool_decide (CreatorPersonID row = ""))) in
  (update_where condition (fun row => set_CreatorPersonID (TrimSpace toCreatorPersonID)
     (set_UpdatedAt now row)) st, countSchedules condition st).

(** [btrim(value) = '']: only the space character is trimmed. *)
Definition btrim_empty (value : string) : bool :=
  forallb (fun a => Ascii.eqb a " "%char) (bytes_of value).

Definition empty_time_zone (_ : string) (row : Schedule) : bool := btrim_empty (TimeZone row).

Definition CountEmptyScheduleTimeZone (st : Store) : Z := countSchedules empty_time_zone st.

Definition FillEmptyScheduleTimeZone (now : instant) (timeZone : string) (st : Store) : Store * Z :=
  (update_where empty_time_zone (fun row => set_TimeZone (TrimSpace timeZone) (set_UpdatedAt now row)) st,
   countSchedules empty_time_zone st).

(** ** Morning briefings *)

(** The row of a person's briefing: [morning_briefing_schedule JOIN schedule]. *)
Definition findManagedMorningBriefingSchedule (personID : string) (st : Store) : option Schedule :=
  id ← briefings st !! personID;
  table st !! id.

(** Whether anything, and whether the cadence, differs. *)
Definition morningBriefingConfigurationChanged (existing desired : Schedule) : bool * bool :=
  let differs {A} `{EqDecision A} (x y : A) := negb (bool_decide (x = y)) in
  let cadenceChanged :=
    differs (TimeZone existing) (TimeZone desired) || differs (Kind existing) (Kind desired) ||
    differs (CronExpression existing) (CronExpression desired) ||
    differs (bool_decide (NextRunAt existing = None)) (bool_decide (NextRunAt desired = None)) in
  (differs (Name existing) (Name desired) || differs (Prompt existing) (Prompt desired) ||
   differs (ExecutionMode existing) (normalizedScheduleExecutionMode (ExecutionMode desired)) ||
   differs (AgentProfileName existing) (AgentProfileName desired) ||
   differs (Platform existing) (Platform desired) ||
   differs (ConversationID existing) (ConversationID desired) ||
   differs (ReplyTargetID existing) (ReplyTargetID desired) || cadenceChanged, cadenceChanged).

(** The columns [INSERT] names; the others take their defaults. *)
Definition briefing_row (schedule : Schedule) : Schedule :=
  MkSchedule (ScheduleID schedule) (CreatorPersonID schedule) (Name schedule) (Prompt schedule)
    (normalizedScheduleExecutionMode (ExecutionMode schedule)) (AgentProfileName schedule)
    (Platform schedule) (ConversationID schedule) (ReplyTargetID schedule) (TimeZone schedule)
    (Kind schedule) None 0 (CronExpression schedule) 0 0 None (NextRunAt schedule) None "" "" None
    0 "" (Some (CreatedAt schedule)) None (CreatedAt schedule) (CreatedAt schedule).

Definition insertManagedMorningBriefingSchedule (schedule : Schedule) (st : Store)
  : result StoreError Store :=
  match table st !! ScheduleID schedule with
  | Some _ => Err errMorningBriefingScheduleIDConflict
  | None =>
    st ← write_row (ScheduleID schedule) (briefing_row schedule) st;
    match briefings st !! CreatorPersonID schedule with
    | Some _ => Err ConstraintViolation
    | None =>
      if managed (ScheduleID schedule) st then Err ConstraintViolation
      else Ok (add_briefing (CreatorPersonID schedule) (ScheduleID schedule) st)
    end
  end.

Definition reconfigured_row (desired : Schedule) (nextRunAt : option instant) (referenceTime : instant)
    (row : Schedule) : Schedule :=
  set_Name (Name desired) (set_Prompt (Prompt desired)
    (set_ExecutionMode (normalizedScheduleExecutionMode (ExecutionMode desired))
      (set_AgentProfileName (AgentProfileName desired) (set_Kind (Kind desired)
        (set_CronExpression (CronExpression desired) (set_NextRunAt nextRunAt
          (set_Platform (Platform desired) (set_ConversationID (ConversationID desired)
            (set_ReplyTargetID (ReplyTargetID desired) (set_TimeZone (TimeZone desired)
              (set_ExpiresAt (match nextRunAt with None => ExpiresAt row | Some _ => None end)
                (set_UpdatedAt referenceTime row)))))))))))).

Definition reconcileMorningBriefingSchedule (referenceTime : instant) (desired : Schedule) (st : Store)
  : result StoreError Store :=
  match findManagedMorningBriefingSchedule (CreatorPersonID desired) st with
  | None => insertManagedMorningBriefingSchedule desired st
  | Some existing =>
    if negb (bool_decide (ScheduleID existing = ScheduleID desired)) then
      Err (StoreFailure "morning briefing person mapping has a different schedule ID")
    else if match LeasedUntil existing with Some l => After l referenceTime | None => false end then Ok st
    else
      let '(configurationChanged, cadenceChanged) := morningBriefingConfigurationChanged existing desired in
      if negb configurationChanged then Ok st else
      let nextRunAt := if cadenceChanged then NextRunAt desired else NextRunAt existing in
      match table st !! ScheduleID desired with
      | None => Ok st
      | Some row =>
        write_row (ScheduleID desired) (reconfigured_row desired nextRunAt referenceTime row) st
      end
  end.

Definition deactivateMorningBriefing (referenceTime : instant) (personID : string) (st : Store) : Store :=
  match briefings st !! personID with
  | None => st
  | Some id =>
    update_where (both (with_ID id) (fun _ row =>
        match LeasedUntil row with None => true | Some l => negb (After l referenceTime) end))
      (fun row => set_NextRunAt None (set_UpdatedAt referenceTime row)) st
  end.

Definition deactivateMissingMorningBriefings (keptPeople : gset string) (referenceTime : instant)
    (st : Store) : Store :=
  let missingPeople := filter (fun personID => personID ∉ keptPeople) (map_to_list (briefings st)).*1 in
  foldl (fun st personID => deactivateMorningBriefing referenceTime personID st) st missingPeople.

Fixpoint reconcile_all (referenceTime : instant) (desiredPeople : gset string) (desired : list Schedule)
    (st : Store) : result StoreError Store :=
  match desired with
  | [] => Ok st
  | schedule :: rest =>
    let person := CreatorPersonID schedule in
    _ ← refuse_if (bool_decide (person = "")) (StoreFailure "morning briefing schedule has no person");
    _ ← refuse_if (bool_decide (person ∈ desiredPeople))
          (StoreFailure ("duplicate morning briefing schedule for person " +:+ person));
    st ← reconcileMorningBriefingSchedule referenceTime schedule st;
    reconcile_all referenceTime ({[person]} ∪ desiredPeople) rest st
  end.

(** One transaction: an error leaves the store as it was. *)
Definition ReconcileMorningBriefings (now : instant) (desired : list Schedule)
    (unsettledPeople : list string) (referenceTime : instant) (st : Store) : result StoreError Store :=
  let referenceTime := or_now referenceTime now in
  st ← reconcile_all referenceTime ∅ desired st;
  let keptPeople := list_to_set unsettledPeople ∪ list_to_set (CreatorPersonID <$> desired) in
  Ok (deactivateMissingMorningBriefings keptPeople referenceTime st).

Definition retired_row (nextRunAt : option instant) (errorMessage : string) (referenceTime : instant)
    (row : Schedule) : Schedule :=
  release
    (set_ExpiresAt None (set_NextRunAt nextRunAt
      (set_FailureCount 0 (set_LastError errorMessage
        (set_NextAttemptAt (Some referenceTime) (set_UpdatedAt referenceTime row)))))).

Definition RetireMorningBriefingOccurrence `{TimeZoneDatabase} (now : instant) (schedule : Schedule)
    (errorMessage : string) (referenceTime : instant) (st : Store) : result StoreError Store :=
  let referenceTime := or_now referenceTime now in
  _ ← verifyMorningBriefingLease schedule referenceTime st;
  match InitializeSchedule (set_ExpiresAt None schedule) referenceTime with
  | Err e => Err (StoreSchedulerError e)
  | Ok initialized =>
    Ok (update_where (both (with_ID (ScheduleID schedule)) (fun id _ => managed id st))
          (retired_row (NextRunAt initialized) errorMessage referenceTime) st)
  end.

End ScheduleRepository.

(** ** Statements on the table *)

Import ScheduleRepository.

Lemma update_where_lookup condition set st id :
  table (update_where condition set st) !! id =
  (fun row => if condition id row then set row else row) <$> table st !! id.
Proof. cbn; rewrite map_lookup_imap; by destruct (table st !! id). Qed.

Lemma update_where_briefings condition set st : briefings (update_where condition set st) = briefings st.
Proof. done. Qed.

Lemma update_where_outbox condition set st : outbox (update_where condition set st) = outbox st.
Proof. done. Qed.

Lemma select_where_elem condition st row :
  row ∈ select_where condition st <->
  exists id, table st !! id = Some row /\ condition id row = true.
Proof.
  unfold select_where; rewrite list_elem_of_fmap; split.
  - intros ([id row'] & -> & Hin); apply list_elem_of_filter in Hin as [Hc Hin].
    exists id; split; [by apply elem_of_map_to_list|done].
  - intros (id & Hrow & Hc); exists (id, row); split; [done|].
    apply list_elem_of_filter; split; [done|by apply elem_of_map_to_list].
Qed.

Lemma countSchedules_size condition st :
  countSchedules condition st =
  Z.of_nat (size (filter (fun kv => condition kv.1 kv.2 = true) (table st))).
Proof.
  unfold countSchedules, select_where; f_equal; rewrite length_fmap.
  rewrite map_filter_alt; set (l := filter _ (map_to_list (table st))).
  rewrite <- (length_map_to_list (M := gmap string) (list_to_map l)).
  symmetry; apply Permutation_length, map_to_list_to_map.
  eapply sublist_NoDup; [apply (NoDup_fst_map_to_list (table st))|].
  apply fmap_sublist, sublist_filter.
Qed.

(** ** The store as the repository of creations *)

Definition map_error {E F A} (f : E -> F) (r : result E A) : result F A :=
  match r with Ok a => Ok a | Err e => Err (f e) end.

(** The error texts are of no concern to a creation, which hands them on. *)
Definition store_error (e : StoreError) : ScheduleError :=
  match e with
  | StoreFailure message => RepositoryError message
  | StoreSchedulerError e => e
  | _ => RepositoryError ""
  end.

Definition postgres_repository (now : instant) : ScheduleCreateRepository Store := {|
  ScheduleWrite.ListSchedules req st := map_error store_error (ScheduleRepository.ListSchedules now req st);
  ScheduleWrite.UpsertSchedule s st := map_error store_error (ScheduleRepository.UpsertSchedule now s st);
|}.

Lemma map_error_Ok {E F A} (f : E -> F) (r : result E A) a : map_error f r = Ok a <-> r = Ok a.
Proof. destruct r; split; intros [= ->] || done; done. Qed.

Lemma ListSchedules_TotalCount now req st res :
  ScheduleRepository.ListSchedules now req st = Ok res ->
  ListResult.TotalCount res = countSchedules (scheduleListFilter now req) st.
Proof.
  unfold ScheduleRepository.ListSchedules; intros Hl.
  apply bind_Ok in Hl as (_ & _ & Hl); by injection Hl as <-.
Qed.

Lemma write_row_Ok id row st st' :
  write_row id row st = Ok st' -> admits row = true /\ st' = set_table <[id := row]> st.
Proof. unfold write_row; destruct (admits row); [|done]; by intros [= <-]. Qed.

(** The row [INSERT] writes. *)
Definition new_row (now : instant) (s : Schedule) : Schedule :=
  inserted_row (set_UpdatedAt (or_now (UpdatedAt s) now) (set_CreatedAt (or_now (CreatedAt s) now) s)).

Lemma UpsertSchedule_cases now s st st' :
  ScheduleRepository.UpsertSchedule now s st = Ok st' ->
  managed (ScheduleID s) st = false /\
  exists row, admits row = true /\ st' = set_table <[ScheduleID s := row]> st /\
    row = match table st !! ScheduleID s with
          | None => new_row now s
          | Some old => replaced_row old (new_row now s)
          end.
Proof.
  unfold ScheduleRepository.UpsertSchedule; intros Hu.
  destruct (managed (ScheduleID s) st); [done|split; [done|]].
  cbn [set_UpdatedAt set_CreatedAt ScheduleID UpdatedAt] in Hu.
  destruct (table st !! ScheduleID s) as [old|]; apply write_row_Ok in Hu as [Ha ->]; by eexists.
Qed.

Lemma new_row_stored_as now s : stored_as s (new_row now s).
Proof. by unfold stored_as. Qed.

#[export] Program Instance postgres_repository_laws (now : instant) :
  @ScheduleCreateRepositoryLaws Store (postgres_repository now) := {|
  stored := table;
|}.
Next Obligation.
  intros now person ref st res Hne Htrim Hz Hl; apply map_error_Ok, ListSchedules_TotalCount in Hl.
  rewrite Hl, countSchedules_size; unfold open_count; do 2 f_equal.
  apply map_filter_ext; intros id row _; unfold scheduleListFilter, open_for, active, unexpired, or_now.
  cbn [ListRequest.ConversationID ListRequest.CreatorPersonID ListRequest.ReferenceTime
       ListRequest.IncludeExpired ListRequest.UnboundedOnly].
  rewrite Hz, Htrim; change (TrimSpace "") with ""; rewrite (bool_decide_false (person = "")) by congruence.
  cbn; rewrite (bool_decide_true ("" = "")) by done; cbn.
  by destruct (bool_decide (CreatorPersonID row = person)); rewrite ?andb_true_r, ?andb_false_r.
Qed.
Next Obligation.
  intros now s st st' Hnew Hu; apply map_error_Ok, UpsertSchedule_cases in Hu as (_ & row & _ & -> & Hrow).
  rewrite Hnew in Hrow; subst row; exists (new_row now s); split; [apply new_row_stored_as|done].
Qed.

(** ** Operations on the table

    What the program asks of the table; an operation that fails leaves it as it was. *)

Inductive Operation :=
| OpUpsert (now : instant) (schedule : Schedule)
| OpUpdate (now : instant) (scheduleID requesterPersonID : string) (input : UpdateInput.ScheduleUpdateInput)
    (companyTimeZone : string) (referenceTime : instant)
| OpDelete (scheduleID requesterPersonID : string)
| OpCancel (now : instant) (request : ScheduleCancelRequest)
| OpRepairCreator (now : instant) (fromCreatorPersonID toCreatorPersonID : string)
| OpFillTimeZone (now : instant) (timeZone : string)
| OpClaim (now : instant) (locked : gset string) (limit : Z) (leaseDuration : duration)
    (referenceTime : instant) (leaseOwner : string)
| OpSucceeded (now : instant) (schedule : Schedule)
| OpSucceededAndEnqueue (now : instant) (schedule : Schedule) (taskRunID key : string) (reply : OutboundReply)
| OpEnqueue (schedule : Schedule) (taskRunID : string) (reply : OutboundReply)
| OpFailed (now : instant) (schedule : Schedule) (errorMessage : string) (referenceTime : instant)
| OpExpire (now : instant) (schedule : Schedule) (errorMessage : string) (referenceTime : instant)
| OpReconcile (now : instant) (desired : list Schedule) (unsettledPeople : list string)
    (referenceTime : instant)
| OpRetire (now : instant) (schedule : Schedule) (errorMessage : string) (referenceTime : instant).

Definition or_unchanged {E} (st : Store) (r : result E Store) : Store :=
  match r with Ok st' => st' | Err _ => st end.

Definition committed {E A} (st : Store) (r : result E (Store * A)) : Store :=
  match r with Ok (st', _) => st' | Err _ => st end.

Definition apply `{TimeZoneDatabase} (op : Operation) (st : Store) : Store :=
  match op with
  | OpUpsert now s => or_unchanged st (ScheduleRepository.UpsertSchedule now s st)
  | OpUpdate now id requester input company ref =>
    committed st (UpdateSchedule now id requester (fun s => ApplyScheduleUpdate s input company ref) st)
  | OpDelete id requester => (DeleteSchedule id requester st).1
  | OpCancel now request => (CancelSchedules now request st).1
  | OpRepairCreator now from to => (RepairScheduleCreatorPersonID now from to st).1
  | OpFillTimeZone now timeZone => (FillEmptyScheduleTimeZone now timeZone st).1
  | OpClaim now locked limit lease ref owner => (ClaimDueSchedules now locked limit lease ref owner st).1
  | OpSucceeded now s => or_unchanged st (MarkScheduleSucceeded now s st)
  | OpSucceededAndEnqueue now s run key reply =>
    committed st (MarkScheduleSucceededAndEnqueueDelivery now s run key reply st)
  | OpEnqueue s run reply => (EnqueueScheduledConnectorReply s run reply st).1
  | OpFailed now s message ref => or_unchanged st (MarkScheduleFailed now s message ref st)
  | OpExpire now s message ref => ExpireSchedule now s message ref st
  | OpReconcile now desired unsettled ref =>
    or_unchanged st (ReconcileMorningBriefings now desired unsettled ref st)
  | OpRetire now s message ref => or_unchanged st (RetireMorningBriefingOccurrence now s message ref st)
  end.

Definition apply_all `{TimeZoneDatabase} (ops : list Operation) (st : Store) : Store :=
  foldl (fun st op => apply op st) st ops.

Definition empty_store : Store := MkStore ∅ ∅ ∅.

(** A row of the table: under its own ID, and one that carries an approved call runs
    once and is no morning briefing. *)
Definition row_sound (st : Store) (id : string) (row : Schedule) : Prop :=
  ScheduleID row = id /\
  (ApprovedCall row <> None -> Kind row = ScheduleKindOnce /\ managed id st = false).

Definition sound (st : Store) : Prop :=
  (forall id row, table st !! id = Some row -> row_sound st id row) /\
  (forall person id, briefings st !! person = Some id -> is_Some (table st !! id)).

(** What every change of a row keeps. *)
Definition keeps (row row' : Schedule) : Prop :=
  ScheduleID row' = ScheduleID row /\ ApprovedCall row' = ApprovedCall row /\
  (ApprovedCall row <> None -> Kind row = ScheduleKindOnce -> Kind row' = ScheduleKindOnce).

(** How an operation other than a deletion may change the store: rows stay and keep
    what they must, new rows appear under IDs that were free, what is in the outbox
    and who has a briefing stays. *)
Record evolves (st st' : Store) : Prop := {
  evolves_row id row :
    table st !! id = Some row -> exists row', table st' !! id = Some row' /\ keeps row row';
  evolves_new id row' :
    table st !! id = None -> table st' !! id = Some row' ->
    ScheduleID row' = id /\ (ApprovedCall row' <> None -> Kind row' = ScheduleKindOnce);
  evolves_managed id :
    managed id st' = true ->
    managed id st = true \/
    table st !! id = None /\ exists row, table st' !! id = Some row /\ ApprovedCall row = None;
  evolves_briefings : briefings st ⊆ briefings st';
  evolves_outbox : outbox st ⊆ outbox st';
}.

Definition keeps_rows (set : Schedule -> Schedule) : Prop := forall row, keeps row (set row).

Lemma managed_true id st : managed id st = true <-> exists person, briefings st !! person = Some id.
Proof.
  unfold managed; rewrite bool_decide_eq_true, list_elem_of_fmap; split.
  - intros ([person id'] & -> & Hin%elem_of_map_to_list); by exists person.
  - intros (person & Hp); exists (person, id); split; [done|by apply elem_of_map_to_list].
Qed.

Lemma keeps_refl row : keeps row row.
Proof. done. Qed.

Lemma keeps_trans row1 row2 row3 : keeps row1 row2 -> keeps row2 row3 -> keeps row1 row3.
Proof.
  intros (Hi & Ha & Hk) (Hi' & Ha' & Hk'); split_and!; [congruence..|].
  intros Hc Ho; apply Hk'; [by rewrite Ha|by apply Hk].
Qed.

Lemma evolves_refl st : evolves st st.
Proof. split; [by eauto using keeps_refl|by intros id row -> |by left|done..]. Qed.

Lemma evolves_trans st1 st2 st3 : evolves st1 st2 -> evolves st2 st3 -> evolves st1 st3.
Proof.
  intros E1 E2; split.
  - intros id row Hrow; destruct (evolves_row _ _ E1 _ _ Hrow) as (row2 & H2 & K1).
    destruct (evolves_row _ _ E2 _ _ H2) as (row3 & H3 & K2).
    exists row3; split; [done|by eapply keeps_trans].
  - intros id row3 H1 H3; destruct (table st2 !! id) as [row2|] eqn:H2.
    + destruct (evolves_new _ _ E1 _ _ H1 H2) as (Hid & Hk).
      destruct (evolves_row _ _ E2 _ _ H2) as (row & Hrow & Hi & Ha & Ho).
      assert (row = row3) as -> by congruence; split; [congruence|].
      rewrite Ha; intros Hc; by apply Ho, Hk.
    + by apply (evolves_new _ _ E2).
  - intros id H3; destruct (evolves_managed _ _ E2 _ H3) as [H2|(H2 & row & Hrow & Hc)].
    + destruct (evolves_managed _ _ E1 _ H2) as [H1|(H1 & row & Hrow & Hc)]; [by left|right].
      destruct (evolves_row _ _ E2 _ _ Hrow) as (row' & Hrow' & _ & Ha & _).
      split; [done|exists row'; split; [done|congruence]].
    + right; split; [|by exists row].
      destruct (table st1 !! id) as [row1|] eqn:H1; [|done].
      destruct (evolves_row _ _ E1 _ _ H1) as (? & ? & _); congruence.
  - etrans; [apply (evolves_briefings _ _ E1)|apply (evolves_briefings _ _ E2)].
  - etrans; [apply (evolves_outbox _ _ E1)|apply (evolves_outbox _ _ E2)].
Qed.

(** *** Each statement evolves the store *)

Lemma evolves_update_where condition set st :
  (forall id row, table st !! id = Some row -> condition id row = true -> keeps row (set row)) ->
  evolves st (update_where condition set st).
Proof.
  intros Hset; split.
  - intros id row Hrow; rewrite update_where_lookup, Hrow; eexists; split; [done|].
    destruct (condition id row) eqn:Hc; [by apply (Hset id)|apply keeps_refl].
  - intros id row' Hrow; by rewrite update_where_lookup, Hrow.
  - by left.
  - done.
  - done.
Qed.

Lemma admits_once row : admits row = true -> ApprovedCall row <> None -> Kind row = ScheduleKindOnce.
Proof.
  unfold admits; intros Ha Hc; rewrite (bool_decide_false (ApprovedCall row = None)) in Ha by done.
  cbn [orb] in Ha; bool_to_prop; done.
Qed.

(** A row that is written keeps what the old one held; a new one is sound. *)
Lemma evolves_write_row id row st st' :
  (forall old, table st !! id = Some old ->
    ScheduleID row = ScheduleID old /\ ApprovedCall row = ApprovedCall old) ->
  (table st !! id = None -> ScheduleID row = id) ->
  write_row id row st = Ok st' -> evolves st st'.
Proof.
  intros Hold Hnew [Ha ->]%write_row_Ok; pose proof (admits_once _ Ha) as Ho; split.
  - intros i r Hr; destruct (decide (i = id)) as [->|Hne]; cbn.
    + rewrite lookup_insert_eq; exists row; split; [done|].
      destruct (Hold _ Hr) as [Hi Hc]; split_and!; [done..|rewrite <- Hc; by intros Hs _; apply Ho].
    + rewrite lookup_insert_ne by done; exists r; split; [done|apply keeps_refl].
  - intros i r Hnone Hr; destruct (decide (i = id)) as [->|Hne]; cbn in Hr.
    + rewrite lookup_insert_eq in Hr; injection Hr as <-; split; [by apply Hnew|done].
    + rewrite lookup_insert_ne in Hr by done; congruence.
  - by left.
  - done.
  - done.
Qed.

Lemma evolves_enqueue key schedule reply st : evolves st (enqueue key schedule reply st).
Proof.
  split; cbn; [by eauto using keeps_refl|by intros id row -> |by left|done|].
  destruct (outbox st !! key) eqn:Hk; [done|by apply insert_subseteq].
Qed.

Lemma evolves_Upsert now s st st' :
  sound st -> ScheduleRepository.UpsertSchedule now s st = Ok st' -> evolves st st'.
Proof.
  intros [Hrows _] (_ & row & Ha & -> & Hrow)%UpsertSchedule_cases.
  apply (evolves_write_row (ScheduleID s) row); [| |by unfold write_row; rewrite Ha].
  - intros old Hold; rewrite Hold in Hrow; subst row; by destruct (Hrows _ _ Hold) as [-> _].
  - intros Hnone; by rewrite Hnone in Hrow; subst row.
Qed.

Lemma changeable_Some now id requester st row :
  changeable now id requester st = Some row ->
  table st !! id = Some row /\ managed id st = false /\ CreatorPersonID row = requester /\
  active now row = true.
Proof.
  unfold changeable; intros Hc; destruct (table st !! id) as [r|]; cbn in Hc; [|done].
  split_match_in Hc; [|done]; injection Hc as ->; by bool_to_prop.
Qed.

(** An update that writes. *)
Lemma UpdateSchedule_Ok `{TimeZoneDatabase} now id requester input company ref st st' s :
  sound st ->
  UpdateSchedule now id requester (fun s => ApplyScheduleUpdate s input company ref) st = Ok (st', Some s) ->
  exists row, changeable now (TrimSpace id) (TrimSpace requester) st = Some row /\
    ApplyScheduleUpdate row input company ref = Ok s /\ ScheduleID s = TrimSpace id /\
    write_row (TrimSpace id) (updated_row row s) st = Ok st'.
Proof.
  intros [Hrows _]; unfold UpdateSchedule; intros Hu; split_match_in Hu; [done|].
  destruct (changeable _ _ _ _) as [row|] eqn:Hc; [|done]; exists row; split; [done|].
  destruct (ApplyScheduleUpdate row input company ref) as [s0|] eqn:Ha; [|done].
  apply changeable_Some in Hc as (Hrow & _); apply Hrows in Hrow as Hid; destruct Hid as [Hid _].
  assert (ScheduleID s0 = TrimSpace id) as Hs.
  { apply ApplyScheduleUpdate_Ok in Ha as (_ & s1 & s2 & n & H1 & _ & H2 & -> & _).
    apply applyScheduleUpdateCadence_identity in H2; rewrite H1 in H2; injection H2 as Hs _.
    by cbn; rewrite Hs, Hid. }
  unfold updateScheduleWithTransaction in Hu; rewrite Hs, Hrow in Hu.
  destruct (write_row _ _ _) as [st1|] eqn:Hw; [|done]; injection Hu as <- <-; done.
Qed.

Lemma UpdateSchedule_None {E} now id requester update st st' :
  UpdateSchedule (E := E) now id requester update st = Ok (st', None) -> st' = st.
Proof.
  unfold UpdateSchedule; intros Hu; repeat (split_match_in Hu; try done); by injection Hu as <-.
Qed.

Lemma evolves_Update `{TimeZoneDatabase} now id requester input company ref st r :
  sound st ->
  UpdateSchedule now id requester (fun s => ApplyScheduleUpdate s input company ref) st = Ok r ->
  evolves st r.1.
Proof.
  intros Hs Hu; destruct r as [st' [s|]]; cbn.
  - apply UpdateSchedule_Ok in Hu as (row & Hc & _ & Hid & Hw); [|done].
    apply changeable_Some in Hc as (Hrow & _); apply evolves_write_row in Hw; [done| |].
    + intros old Hold; assert (old = row) as -> by congruence; split; [|done].
      cbn; rewrite Hid; symmetry; by apply Hs.
    + congruence.
  - apply UpdateSchedule_None in Hu as ->; apply evolves_refl.
Qed.

Ltac evolves_update :=
  apply evolves_update_where; intros ? ? _ _; split_and!; [done..|by intros].

Lemma evolves_settle schedule set st st' :
  keeps_rows set -> settle_row schedule set st = Ok st' -> evolves st st'.
Proof.
  unfold settle_row; intros Hk Hs; split_match_in Hs; [done|]; injection Hs as <-.
  apply evolves_update_where; intros; apply Hk.
Qed.

Lemma evolves_Succeeded now s st st' : MarkScheduleSucceeded now s st = Ok st' -> evolves st st'.
Proof. by apply evolves_settle. Qed.

Lemma evolves_Failed now s message ref st st' : MarkScheduleFailed now s message ref st = Ok st' -> evolves st st'.
Proof. by apply evolves_settle. Qed.

Lemma evolves_insertManaged s st st' : insertManagedMorningBriefingSchedule s st = Ok st' -> evolves st st'.
Proof.
  unfold insertManagedMorningBriefingSchedule; intros Hi.
  destruct (table st !! ScheduleID s) eqn:Hrow; [done|]; apply bind_Ok in Hi as (st1 & Hw & Hi).
  pose proof Hw as Hst1; apply write_row_Ok in Hst1 as [_ Hst1].
  apply evolves_write_row in Hw; [|congruence|done].
  destruct (briefings st1 !! CreatorPersonID s) eqn:Hp; [done|].
  destruct (managed (ScheduleID s) st1); [done|]; injection Hi as <-.
  split; cbn [table outbox add_briefing].
  - apply (evolves_row _ _ Hw).
  - apply (evolves_new _ _ Hw).
  - intros id [person Hm]%managed_true; cbn in Hm.
    destruct (decide (person = CreatorPersonID s)) as [->|Hne].
    + rewrite lookup_insert_eq in Hm; injection Hm as <-; right; split; [done|].
      exists (briefing_row s); subst st1; cbn; by rewrite lookup_insert_eq.
    + rewrite lookup_insert_ne in Hm by done; apply (evolves_managed _ _ Hw), managed_true; by exists person.
  - etrans; [apply (evolves_briefings _ _ Hw)|by apply insert_subseteq].
  - apply (evolves_outbox _ _ Hw).
Qed.

Lemma evolves_reconcile ref desired st st' :
  reconcileMorningBriefingSchedule ref desired st = Ok st' -> evolves st st'.
Proof.
  unfold reconcileMorningBriefingSchedule; intros Hr.
  destruct (findManagedMorningBriefingSchedule _ _) as [existing|]; [|by apply evolves_insertManaged in Hr].
  split_match_in Hr; [done|]; destruct (match LeasedUntil existing with Some _ => _ | None => _ end);
    [injection Hr as <-; apply evolves_refl|].
  destruct (morningBriefingConfigurationChanged _ _) as [[] cadence]; cbn [negb] in Hr;
    [|injection Hr as <-; apply evolves_refl].
  destruct (table st !! ScheduleID desired) as [row|] eqn:Hrow; [|injection Hr as <-; apply evolves_refl].
  apply evolves_write_row in Hr; [done| |congruence].
  intros old Hold; assert (old = row) as -> by congruence; by split.
Qed.

Lemma evolves_reconcile_all ref people desired st st' :
  reconcile_all ref people desired st = Ok st' -> evolves st st'.
Proof.
  revert people st; induction desired as [|s desired IH]; intros people st Hr; cbn [reconcile_all] in Hr.
  { injection Hr as <-; apply evolves_refl. }
  apply bind_Ok in Hr as (? & _ & Hr); apply bind_Ok in Hr as (? & _ & Hr).
  apply bind_Ok in Hr as (st1 & H1 & Hr); eapply evolves_trans; [by eapply evolves_reconcile|by eapply IH].
Qed.

Lemma evolves_deactivate ref person st : evolves st (deactivateMorningBriefing ref person st).
Proof.
  unfold deactivateMorningBriefing; destruct (briefings st !! person); [evolves_update|apply evolves_refl].
Qed.

Lemma evolves_ReconcileMorningBriefings now desired unsettled ref st st' :
  ReconcileMorningBriefings now desired unsettled ref st = Ok st' -> evolves st st'.
Proof.
  unfold ReconcileMorningBriefings; intros Hr; apply bind_Ok in Hr as (st1 & H1%evolves_reconcile_all & Hr).
  injection Hr as <-; eapply evolves_trans; [exact H1|]; unfold deactivateMissingMorningBriefings.
  match goal with |- evolves _ (foldl _ _ ?l) => generalize l end.
  intros people; revert st1 H1; induction people as [|p people IH]; intros st1 H1; cbn; [apply evolves_refl|].
  eapply evolves_trans; [apply evolves_deactivate|apply IH].
  eapply evolves_trans; [exact H1|apply evolves_deactivate].
Qed.

Lemma evolves_Retire `{TimeZoneDatabase} now s message ref st st' :
  RetireMorningBriefingOccurrence now s message ref st = Ok st' -> evolves st st'.
Proof.
  unfold RetireMorningBriefingOccurrence; intros Hr; apply bind_Ok in Hr as (? & _ & Hr).
  destruct (InitializeSchedule _ _); [|done]; injection Hr as <-; evolves_update.
Qed.

Lemma evolves_SucceededAndEnqueue now s run key reply st r :
  MarkScheduleSucceededAndEnqueueDelivery now s run key reply st = Ok r -> evolves st r.1.
Proof.
  unfold MarkScheduleSucceededAndEnqueueDelivery; intros Hm.
  apply bind_Ok in Hm as (? & _ & Hm); apply bind_Ok in Hm as (? & _ & Hm); injection Hm as <-; cbn.
  eapply evolves_trans; [apply evolves_enqueue|evolves_update].
Qed.

Lemma evolves_Cancel now request st : evolves st (CancelSchedules now request st).1.
Proof.
  unfold CancelSchedules; split_match; [apply evolves_refl|].
  destruct (cancel_scope request); [evolves_update|apply evolves_refl].
Qed.

Definition is_deletion (op : Operation) : bool := match op with OpDelete _ _ => true | _ => false end.

Lemma evolves_apply `{TimeZoneDatabase} op st :
  sound st -> is_deletion op = false -> evolves st (apply op st).
Proof.
  intros Hs Hop; destruct op; cbn [apply]; [..|].
  all: unfold or_unchanged, committed; repeat match goal with
    | |- evolves _ (match ?r with Ok _ => _ | Err _ => _ end) =>
      destruct r as [?|?] eqn:?; [|apply evolves_refl]
    | |- evolves _ (let '(_, _) := ?p in _) => destruct p end.
  - by eapply evolves_Upsert.
  - by apply evolves_Update in Heqr.
  - done.
  - apply evolves_Cancel.
  - evolves_update.
  - evolves_update.
  - evolves_update.
  - by eapply evolves_Succeeded.
  - by apply evolves_SucceededAndEnqueue in Heqr.
  - apply evolves_enqueue.
  - by eapply evolves_Failed.
  - evolves_update.
  - by eapply evolves_ReconcileMorningBriefings.
  - by eapply evolves_Retire.
Qed.

Lemma evolves_sound st st' : sound st -> evolves st st' -> sound st'.
Proof.
  intros [Hrows Hb] E; split.
  - intros id row' Hrow'; destruct (table st !! id) as [row|] eqn:Hrow.
    + destruct (evolves_row _ _ E _ _ Hrow) as (row1 & H1 & Hi & Ha & Ho).
      assert (row1 = row') as -> by congruence; destruct (Hrows _ _ Hrow) as [Hid Hc].
      split; [congruence|]; rewrite Ha; intros Hsome; destruct (Hc Hsome) as [Hk Hm].
      split; [by apply Ho|]; destruct (managed id st') eqn:Hm'; [|done].
      destruct (evolves_managed _ _ E _ Hm') as [?|[? _]]; congruence.
    + destruct (evolves_new _ _ E _ _ Hrow Hrow') as [Hid Hc]; split; [done|].
      intros Hsome; split; [by apply Hc|]; destruct (managed id st') eqn:Hm'; [|done].
      destruct (evolves_managed _ _ E _ Hm') as [[person Hp]%managed_true|(_ & row & Hr & ?)]; [|congruence].
      destruct (Hb _ _ Hp) as [? ?]; congruence.
  - intros person id Hp; assert (Hm : managed id st' = true) by (apply managed_true; by exists person).
    destruct (evolves_managed _ _ E _ Hm) as [[person' Hp']%managed_true|(_ & row & Hr & _)]; [|by exists row].
    destruct (Hb _ _ Hp') as [row Hrow]; destruct (evolves_row _ _ E _ _ Hrow) as (row' & ? & _); by exists row'.
Qed.

Lemma DeleteSchedule_cases id requester st :
  (DeleteSchedule id requester st).1 = st \/
  exists row, table st !! TrimSpace id = Some row /\ managed (TrimSpace id) st = false /\
    CreatorPersonID row = TrimSpace requester /\
    (DeleteSchedule id requester st).1 = set_table (delete (TrimSpace id)) st.
Proof.
  unfold DeleteSchedule; split_match; [by left|].
  destruct (table st !! TrimSpace id) as [row|]; [|by left].
  split_match; [right|by left]; bool_to_prop; by exists row.
Qed.

Lemma delete_sound id st : sound st -> managed id st = false -> sound (set_table (delete id) st).
Proof.
  intros [Hrows Hb] Hm; split; cbn.
  - intros i row [_ Hrow]%lookup_delete_Some; by apply Hrows.
  - intros person i Hp; rewrite lookup_delete_ne; [by apply (Hb person)|].
    intros ->; assert (managed i st = true) by (apply managed_true; by exists person); congruence.
Qed.

Lemma apply_sound `{TimeZoneDatabase} op st : sound st -> sound (apply op st).
Proof.
  intros Hs; destruct (is_deletion op) eqn:Hd; [|by eapply evolves_sound, evolves_apply].
  destruct op; try done; cbn [apply].
  destruct (DeleteSchedule_cases scheduleID requesterPersonID st) as [->|(row & _ & Hm & _ & ->)]; [done|].
  by apply delete_sound.
Qed.

Lemma apply_all_sound `{TimeZoneDatabase} ops st : sound st -> sound (apply_all ops st).
Proof.
  revert st; induction ops as [|op ops IH]; intros st Hs; cbn; [done|]; by apply IH, apply_sound.
Qed.

Lemma empty_store_sound : sound empty_store.
Proof. split; cbn; [by intros id row|by intros person id]. Qed.

(** ** Claims *)

Lemma runs_before_asym x y : runs_before x y = true -> runs_before y x = false.
Proof. unfold runs_before; destruct (NextRunAt x), (NextRunAt y); try done; intros; lia. Qed.

(** Among rows that have a next run. *)
Definition runs_at (row : Schedule) : instant := default 0 (NextRunAt row).

Definition by_run (left right : Schedule) : bool := runs_at left <? runs_at right.

Lemma stable_sort_runs_before rows :
  Forall (fun row => NextRunAt row <> None) rows ->
  stable_sort runs_before rows = stable_sort by_run rows.
Proof.
  intros Hrows; induction Hrows as [|x rows Hx Hrows IH]; [done|]; cbn; rewrite IH; clear IH.
  assert (Hall : Forall (fun row => NextRunAt row <> None) (stable_sort by_run rows))
    by by rewrite stable_sort_perm.
  induction Hall as [|y l Hy Hall IH]; [done|]; cbn; rewrite IH.
  unfold by_run, runs_at, runs_before; destruct (NextRunAt x), (NextRunAt y); done.
Qed.

Definition claim_candidates (ref : instant) (locked : gset string) (owner : string) (st : Store)
  : list Schedule :=
  select_where (fun id row => claimable ref owner row && negb (bool_decide (id ∈ locked))) st.

Lemma claim_candidates_run ref locked owner st :
  Forall (fun row => NextRunAt row <> None) (claim_candidates ref locked owner st).
Proof.
  apply Forall_forall; intros row (id & _ & Hc)%select_where_elem; unfold claimable in Hc.
  bool_to_prop; destruct (NextRunAt row); done.
Qed.

Lemma select_where_NoDup condition st :
  sound st -> NoDup (ScheduleID <$> select_where condition st).
Proof.
  intros [Hrows _].
  assert (ScheduleID <$> select_where condition st =
    (filter (fun kv => condition kv.1 kv.2 = true) (map_to_list (table st))).*1) as ->.
  { unfold select_where; rewrite <- list_fmap_compose; apply list_fmap_ext.
    intros i [id row] [_ Hin%elem_of_map_to_list]%list_elem_of_lookup_2%list_elem_of_filter.
    by apply Hrows. }
  eapply sublist_NoDup; [apply (NoDup_fst_map_to_list (table st))|apply fmap_sublist, sublist_filter].
Qed.

(** The rows a claim takes, as they were. *)
Definition taken (limit : Z) (ref : instant) (locked : gset string) (owner : string) (st : Store)
  : list Schedule :=
  take (Z.to_nat (if limit <=? 0 then 1 else limit)) (stable_sort by_run (claim_candidates ref locked owner st)).

Definition is_taken (rows : list Schedule) (id : string) (_ : Schedule) : bool :=
  bool_decide (id ∈ ScheduleID <$> rows).

Definition lease_end (now ref : instant) (lease : duration) : instant :=
  Add (or_now ref now) ((if Z.quot lease Second <=? 0 then 300 else Z.quot lease Second) * Second).

Lemma ClaimDueSchedules_taken now locked limit lease ref owner st :
  let ref' := or_now ref now in
  let set := leased owner (lease_end now ref lease) ref' in
  let rows := taken limit ref' locked owner st in
  ClaimDueSchedules now locked limit lease ref owner st =
  (update_where (is_taken rows) set st, set <$> rows).
Proof.
  cbn zeta; unfold ClaimDueSchedules, taken, is_taken, lease_end.
  by rewrite <- stable_sort_runs_before by apply claim_candidates_run.
Qed.

Lemma leased_IDs owner until ref (rows : list Schedule) :
  ScheduleID <$> (leased owner until ref <$> rows) = ScheduleID <$> rows.
Proof. by rewrite <- list_fmap_compose. Qed.

Lemma taken_NoDup limit ref locked owner st : sound st -> NoDup (ScheduleID <$> taken limit ref locked owner st).
Proof.
  intros Hs; eapply sublist_NoDup; [|apply fmap_sublist, sublist_take].
  rewrite stable_sort_perm; by apply select_where_NoDup.
Qed.

Lemma taken_length limit ref locked owner st :
  Z.of_nat (length (taken limit ref locked owner st)) <= Z.max 1 limit.
Proof. unfold taken; rewrite length_take; destruct (limit <=? 0) eqn:?; lia. Qed.

Lemma taken_row limit ref locked owner st row :
  sound st -> row ∈ taken limit ref locked owner st ->
  table st !! ScheduleID row = Some row /\ claimable ref owner row = true /\ ScheduleID row ∉ locked.
Proof.
  intros Hs Hrow; assert (Hin : row ∈ stable_sort by_run (claim_candidates ref locked owner st)).
  { eapply elem_of_sublist; [exact Hrow|apply sublist_take]. }
  rewrite stable_sort_perm in Hin; apply select_where_elem in Hin as (id & Hid & Hc).
  assert (ScheduleID row = id) as -> by by apply Hs.
  bool_to_prop; done.
Qed.

(** A row that could have been taken and is not. *)
Lemma taken_left limit ref locked owner st id left :
  sound st -> table st !! id = Some left -> claimable ref owner left = true -> id ∉ locked ->
  (id ∉ ScheduleID <$> taken limit ref locked owner st) ->
  Z.of_nat (length (taken limit ref locked owner st)) = Z.max 1 limit /\
  forall row, row ∈ taken limit ref locked owner st -> runs_at row <= runs_at left.
Proof.
  intros Hs Hleft Hcl Hlk; unfold taken; set (n := Z.to_nat _); intros Hnot.
  set (sorted := stable_sort by_run (claim_candidates ref locked owner st)) in *.
  assert (Hn : Z.of_nat n = Z.max 1 limit) by (unfold n; destruct (limit <=? 0) eqn:?; lia).
  assert (Hcand : left ∈ sorted).
  { unfold sorted; rewrite stable_sort_perm; apply select_where_elem; exists id; split; [done|].
    by rewrite Hcl, bool_decide_false. }
  rewrite <- (take_drop n sorted), elem_of_app in Hcand; destruct Hcand as [Ht|Hd].
  { destruct Hnot; apply list_elem_of_fmap; exists left; split; [symmetry; by apply Hs|done]. }
  split.
  - rewrite length_take, <- Hn; pose proof (length_drop sorted n).
    destruct (drop n sorted) eqn:He; [by apply elem_of_nil in Hd|]; cbn in *; lia.
  - intros row Hrow; assert (by_run left row = false) as Hb.
    { eapply stable_sort_take; [..|exact Hrow|exact Hd]; unfold by_run; intros; lia. }
    unfold by_run in Hb; bool_to_prop; done.
Qed.

(** What is leased to one worker is not taken by another before the lease ends. *)
Lemma taken_apart rows owner until ref st limit2 ref2 locked2 owner2 row :
  sound st -> owner2 <> owner -> ref2 < until ->
  row ∈ taken limit2 ref2 locked2 owner2 (update_where (is_taken rows) (leased owner until ref) st) ->
  (ScheduleID row ∉ ScheduleID <$> rows).
Proof.
  intros Hs Hne Hlt Hrow Hin.
  assert (Hs' : sound (update_where (is_taken rows) (leased owner until ref) st)).
  { eapply evolves_sound; [exact Hs|evolves_update]. }
  apply taken_row in Hrow as (Hrow & Hcl & _); [|done].
  rewrite update_where_lookup in Hrow; destruct (table st !! ScheduleID row) as [old|]; [|done].
  injection Hrow as Hrow; unfold is_taken in Hrow; rewrite bool_decide_true in Hrow by done.
  rewrite <- Hrow in Hcl; unfold claimable in Hcl; bool_to_prop; cbn in *.
  apply orb_true_iff in H0 as [?|?]; unfold After in *; bool_to_prop; [lia|congruence].
Qed.

(** ** Whose schedules a person's operation touches *)

(** The operations a person asks for, with the person; and the conversation they may
    cancel in. *)
Definition asked_by (op : Operation) : option (string * string) :=
  match op with
  | OpUpdate _ _ requester _ _ _ | OpDelete _ requester => Some (TrimSpace requester, "")
  | OpCancel _ request =>
    Some (TrimSpace (RequesterPersonID request), TrimSpace (Cancel_ConversationID request))
  | _ => None
  end.

(** A row the person created, or one of the conversation they name. *)
Definition theirs (person conversation : string) (row : Schedule) : Prop :=
  CreatorPersonID row = person \/ conversation <> "" /\ ConversationID row = conversation.

Lemma cancel_scope_theirs request scope id row :
  cancel_scope request = Some scope -> scope id row = true ->
  theirs (TrimSpace (RequesterPersonID request)) (TrimSpace (Cancel_ConversationID request)) row.
Proof.
  unfold cancel_scope, theirs; intros Hs Hc; destruct (Scope request) as [| | |name].
  - case_bool_decide; [done|]; injection Hs as <-; bool_to_prop; by right.
  - injection Hs as <-; bool_to_prop; by left.
  - destruct (scheduleIDCondition (ScheduleIDs request)); [|done]; injection Hs as <-.
    unfold both in Hc; bool_to_prop; unfold scheduleCancelAccessCondition in *; revert H0.
    case_bool_decide; intros Ha; bool_to_prop; [by left|].
    apply orb_true_iff in Ha as [?|?]; bool_to_prop; [by left|by right].
  - injection Hs as <-; bool_to_prop; by left.
Qed.

Lemma lookup_update_changed condition set st id :
  table (update_where condition set st) !! id <> table st !! id ->
  exists row, table st !! id = Some row /\ condition id row = true.
Proof.
  rewrite update_where_lookup; intros Hne; destruct (table st !! id) as [row|]; [|done].
  cbn in Hne; destruct (condition id row) eqn:Hc; [by exists row|done].
Qed.

(** ** Properties *)

(** C15. Whatever sequence of operations ran on the table, each row is stored under
    its own ID, one that carries an approved call runs once and is no morning
    briefing, and a person's briefing exists; afterwards, as long as nobody deletes,
    no operation removes a row, changes the call it carries, or takes or replaces a
    reply that is queued. *)
Theorem schedule_table_stays_sound `{TimeZoneDatabase} ops1 ops2 :
  forallb (fun op => negb (is_deletion op)) ops2 = true ->
  let st := apply_all ops1 empty_store in
  sound st /\ outbox st ⊆ outbox (apply_all ops2 st) /\
  forall id row, table st !! id = Some row ->
    exists row', table (apply_all ops2 st) !! id = Some row' /\
      ScheduleID row' = id /\ ApprovedCall row' = ApprovedCall row.
Proof.
  intros Hops st; assert (Hs : sound st) by apply apply_all_sound, empty_store_sound.
  assert (E : evolves st (apply_all ops2 st)).
  { revert Hops; clearbody st; revert st Hs; induction ops2 as [|op ops2 IH]; intros st Hs Hops; cbn.
    - apply evolves_refl.
    - cbn in Hops; bool_to_prop; eapply evolves_trans; [by apply evolves_apply|].
      apply IH; [by apply apply_sound|done]. }
  split_and!; [done|apply (evolves_outbox _ _ E)|].
  intros id row Hrow; destruct (evolves_row _ _ E _ _ Hrow) as (row' & Hrow' & Hi & Ha & _).
  destruct Hs as [Hrows _]; destruct (Hrows _ _ Hrow) as [Hid _].
  exists row'; split_and!; [done|congruence|done].
Qed.

Definition stored_schedule : Schedule := new_row (1000 * Second) sample_schedule.

Lemma schedule_table_stays_sound_witness :
  let ops1 := [OpUpsert (1000 * Second) sample_schedule] in
  let ops2 := [OpExpire (2000 * Second) stored_schedule "gone" (2000 * Second)] in
  let st := @apply_all utc_only ops1 empty_store in
  sound st /\ outbox st ⊆ outbox (@apply_all utc_only ops2 st) /\
  exists row', table (@apply_all utc_only ops2 st) !! "id-1" = Some row' /\
    ScheduleID row' = "id-1" /\ ApprovedCall row' = ApprovedCall stored_schedule.
Proof.
  intros ops1 ops2 st.
  destruct (@schedule_table_stays_sound utc_only ops1 ops2 eq_refl) as (Hs & Ho & Hr).
  split_and!; [done..|]; apply Hr; vm_compute; reflexivity.
Defined.

(** An update, a deletion or a cancellation changes only schedules that the
    person who asks for it created (a cancellation, also those delivered to the
    conversation it names), and never a morning briefing; it does nothing when the
    person is not named. *)
Theorem only_own_schedules_change `{TimeZoneDatabase} op person conversation st id :
  sound st -> asked_by op = Some (person, conversation) ->
  table (apply op st) !! id <> table st !! id ->
  person <> "" /\
  exists row, table st !! id = Some row /\ managed id st = false /\ theirs person conversation row.
Proof.
  intros Hs Hop Hne; destruct op; try done; injection Hop as <- <-; cbn [apply] in Hne.
  - unfold committed in Hne; destruct (UpdateSchedule _ _ _ _ _) as [[st' [s|]]|] eqn:Hu; [| |done].
    + assert (TrimSpace requesterPersonID <> "") as Hp.
      { intros He; unfold UpdateSchedule in Hu; rewrite He, (bool_decide_true ("" = "")), orb_true_r in Hu; done. }
      apply UpdateSchedule_Ok in Hu as (row & Hc & _ & _ & [_ ->]%write_row_Ok); [|done].
      apply changeable_Some in Hc as (Hrow & Hm & Hcr & _); split; [done|].
      destruct (decide (id = TrimSpace scheduleID)) as [->|Hd]; [exists row; split_and!; [done..|by left]|].
      by cbn in Hne; rewrite lookup_insert_ne in Hne.
    + by apply UpdateSchedule_None in Hu as ->.
  - assert (TrimSpace requesterPersonID <> "") as Hp.
    { intros He; unfold DeleteSchedule in Hne.
      rewrite He, (bool_decide_true ("" = "")), orb_true_r in Hne; done. }
    destruct (DeleteSchedule_cases scheduleID requesterPersonID st) as [He|(row & Hrow & Hm & Hcr & He)];
      rewrite He in Hne; [done|split; [done|]].
    destruct (decide (id = TrimSpace scheduleID)) as [->|Hd]; [exists row; split_and!; [done..|by left]|].
    by cbn in Hne; rewrite lookup_delete_ne in Hne.
  - unfold CancelSchedules in Hne; case_bool_decide; [done|split; [done|]].
    destruct (cancel_scope request) as [scope|] eqn:Hsc; [|done]; cbn [fst] in Hne.
    apply lookup_update_changed in Hne as (row & Hrow & Hc); exists row; split; [done|].
    unfold both, cancellable in Hc; bool_to_prop; split; [done|by eapply cancel_scope_theirs].
Qed.

Lemma only_own_schedules_change_witness :
  let st := set_table <["id-1" := stored_schedule]> empty_store in
  "person-1" <> "" /\
  exists row, table st !! "id-1" = Some row /\ managed "id-1" st = false /\ theirs "person-1" "" row.
Proof.
  intros st; apply (@only_own_schedules_change utc_only (OpDelete "id-1" "person-1") "person-1" "" st "id-1").
  - split; [|by intros ? ?]; intros id row Hrow; cbn in Hrow.
    apply lookup_insert_Some in Hrow as [[<- <-]|[_ ?]]; [|done]; by split.
  - reflexivity.
  - vm_compute; discriminate.
Defined.

(** C16. A claim takes distinct due rows that nobody else has locked or leased, at most
    as many as the limit (one, if the limit is not positive), the earliest first: a
    row it could have taken and left runs no earlier than those taken, and is left
    only when the limit is reached.  Until the lease ends no other worker claims a
    claimed row, whatever it has locked, its limit and the time. *)
Theorem claims_are_exclusive now locked limit lease ref owner st st' rows :
  sound st -> IsZero ref = false ->
  ClaimDueSchedules now locked limit lease ref owner st = (st', rows) ->
  NoDup (ScheduleID <$> rows) /\ Z.of_nat (length rows) <= Z.max 1 limit /\
  (forall row, row ∈ rows -> exists old, table st !! ScheduleID row = Some old /\
    claimable ref owner old = true /\ (ScheduleID row ∉ locked) /\
    row = leased owner (lease_end now ref lease) ref old /\ table st' !! ScheduleID row = Some row) /\
  (forall id left, table st !! id = Some left -> claimable ref owner left = true -> id ∉ locked ->
    (id ∉ ScheduleID <$> rows) ->
    Z.of_nat (length rows) = Z.max 1 limit /\ forall row, row ∈ rows -> runs_at row <= runs_at left) /\
  (forall now2 locked2 limit2 lease2 ref2 owner2 row,
    owner2 <> owner -> IsZero ref2 = false -> ref2 < lease_end now ref lease ->
    row ∈ (ClaimDueSchedules now2 locked2 limit2 lease2 ref2 owner2 st').2 ->
    (ScheduleID row ∉ ScheduleID <$> rows)).
Proof.
  assert (Hor : forall ref now, IsZero ref = false -> or_now ref now = ref)
    by (unfold or_now; intros ? ? H; by rewrite H).
  intros Hs Hz Hc; rewrite ClaimDueSchedules_taken in Hc; cbn zeta in Hc; rewrite Hor in Hc by done.
  injection Hc as <- <-; rewrite leased_IDs, length_fmap; split_and!.
  - by apply taken_NoDup.
  - apply taken_length.
  - intros row (old & -> & Hold)%list_elem_of_fmap; pose proof Hold as Hin.
    apply taken_row in Hold as (Hrow & Hcl & Hlk); [|done]; exists old; split_and!; [done..|].
    cbn [leased set_LeaseOwner set_LeasedUntil set_UpdatedAt ScheduleID].
    assert (is_taken (taken limit ref locked owner st) (ScheduleID old) old = true) as Htk.
    { apply bool_decide_eq_true_2; by apply list_elem_of_fmap_2. }
    rewrite update_where_lookup, Hrow; cbn [fmap option_fmap option_map]; by rewrite Htk.
  - intros id left Hleft Hcl Hlk Hnot; destruct (taken_left _ _ _ _ _ _ _ Hs Hleft Hcl Hlk Hnot) as [Hn Hb].
    split; [done|]; intros row (old & -> & Hold)%list_elem_of_fmap.
    change (runs_at old <= runs_at left); by apply Hb.
  - intros now2 locked2 limit2 lease2 ref2 owner2 row Hne Hz2 Hlt Hrow.
    rewrite ClaimDueSchedules_taken in Hrow; cbn [snd] in Hrow; rewrite Hor in Hrow by done.
    apply list_elem_of_fmap in Hrow as (row2 & -> & Hrow2); by eapply taken_apart in Hrow2.
Qed.

Lemma claims_are_exclusive_witness :
  let st := set_table <["id-1" := stored_schedule]> empty_store in
  let claim := ClaimDueSchedules 0 ∅ 10 (15 * Minute) (2000 * Second) "worker" st in
  NoDup (ScheduleID <$> claim.2) /\ Z.of_nat (length claim.2) = 1 /\
  Z.of_nat (length (ClaimDueSchedules 0 ∅ 10 (15 * Minute) (2001 * Second) "other" claim.1).2) = 0 /\
  forall row, row ∈ (ClaimDueSchedules 0 ∅ 10 (15 * Minute) (2001 * Second) "other" claim.1).2 ->
    (ScheduleID row ∉ ScheduleID <$> claim.2).
Proof.
  intros st claim.
  assert (Hs : sound st).
  { split; [|by intros ? ?]; intros id row Hrow; cbn in Hrow.
    apply lookup_insert_Some in Hrow as [[<- <-]|[_ ?]]; [|done]; by split. }
  destruct (claims_are_exclusive 0 ∅ 10 (15 * Minute) (2000 * Second) "worker" st claim.1 claim.2
    Hs eq_refl (surjective_pairing _)) as (Hnd & _ & _ & _ & Hex).
  split_and!; [done|vm_compute; reflexivity|vm_compute; reflexivity|].
  intros row; apply (Hex 0 ∅ 10 (15 * Minute) (2001 * Second) "other" row); [done|vm_compute; reflexivity..].
Defined.
