(* ===== verification/ScheduleList.v ===== *)
(** * Listing schedules ([schedule_list.go]) and resolving a hint to one of them
    ([schedule_hint.go]). *)

From S2P Require Export Schedule.

(** ** Data *)

Definition scheduleListReadPageSize : Z := 200.
Definition scheduleListDefaultLimit : Z := 50.
Definition scheduleListMaximumLimit : Z := 100.

Module ListInput.
Record ScheduleListInput := MkScheduleListInput {
  Status : string;
  Limit : Z;
  Cursor : string;
}.
End ListInput.

Module ListItem.
Record ScheduleListItem := MkScheduleListItem {
  ScheduleID : string;
  TaskInstruction : string;
  Description : string;
  Cadence : string;
  CronExpression : string;
  RunAt : option instant;
  Status : string;
  NextRunAt : option instant;
  LastRunAt : option instant;
}.
End ListItem.

Module ListOutput.
Record ScheduleListOutput := MkScheduleListOutput {
  Schedules : list ListItem.ScheduleListItem;
  TotalCount : Z;
  NextCursor : string;
}.
End ListOutput.

Record scheduleListPosition := MkPosition {
  position_CreatedAt : instant;
  position_ScheduleID : string;
}.

(** The cursor's text: unpadded URL base64 of the JSON of a position. *)
Class CursorCodec := {
  encode_position : scheduleListPosition -> string;
  decode_position : string -> option scheduleListPosition;
}.

(** A position with an ID and a time reads back as it was written, and its text
    is neither empty nor ends in blanks. *)
Class CursorCodecLaws `{CursorCodec} : Prop := {
  decode_encode_position p :
    position_ScheduleID p <> "" -> 0 <= year_of UTC (position_CreatedAt p) <= 9999 ->
    decode_position (encode_position p) = Some p;
  encode_trimmed p : TrimSpace (encode_position p) = encode_position p;
  encode_not_empty p :
    0 <= year_of UTC (position_CreatedAt p) <= 9999 -> encode_position p <> "";
}.

(** ** Status and order *)

Definition scheduleStatus (schedule : Schedule) (referenceTime : instant) : string :=
  if bool_decide (NextRunAt schedule = None) ||
     match ExpiresAt schedule with Some e => negb (After e referenceTime) | None => false end
  then "expired"
  else if negb (bool_decide (TrimSpace (LastError schedule) = "")) then "failed"
  else "active".

Definition scheduleCadence (schedule : Schedule) : string :=
  match Kind schedule with
  | ScheduleKindInterval => "every " +:+ Itoa (IntervalSecond schedule) +:+ " seconds"
  | ScheduleKindCron => "cron"
  | _ => "once"
  end.

Definition schedulesWithStatus (schedules : list Schedule) (status : string)
    (referenceTime : instant) : list Schedule :=
  filter (fun schedule => status = "" \/ scheduleStatus schedule referenceTime = status) schedules.

Definition isScheduleListedBefore (schedule : Schedule) (position : scheduleListPosition) : bool :=
  if negb (CreatedAt schedule =? position_CreatedAt position) then
    After (CreatedAt schedule) (position_CreatedAt position)
  else str_lt (ScheduleID schedule) (position_ScheduleID position).

Definition position_of (schedule : Schedule) : scheduleListPosition :=
  MkPosition (CreatedAt schedule) (ScheduleID schedule).

(** The order of the list: newest first, then by ID. *)
Definition listed_before (left right : Schedule) : bool :=
  isScheduleListedBefore left (position_of right).

(** [sort.SliceStable]: the stable sort by the order. *)
Definition sortSchedulesNewestFirst (schedules : list Schedule) : list Schedule :=
  stable_sort listed_before schedules.

Fixpoint skip_to_after (after : scheduleListPosition) (schedules : list Schedule) : list Schedule :=
  match schedules with
  | [] => []
  | s :: l =>
    if negb (isScheduleListedBefore s after) &&
       negb (bool_decide (ScheduleID s = position_ScheduleID after)) then s :: l
    else skip_to_after after l
  end.

Definition schedulesAfter (schedules : list Schedule) (after : option scheduleListPosition)
  : list Schedule :=
  match after with
  | None => schedules
  | Some after => skip_to_after after schedules
  end.

Definition normalizedScheduleListLimit (limit : Z) : Z :=
  if limit <=? 0 then scheduleListDefaultLimit else Z.min limit scheduleListMaximumLimit.

Definition scheduleListItemFromSchedule (schedule : Schedule) (referenceTime : instant)
  : ListItem.ScheduleListItem :=
  {| ListItem.ScheduleID := ScheduleID schedule;
     ListItem.TaskInstruction := Prompt schedule;
     ListItem.Description := Name schedule;
     ListItem.Cadence := scheduleCadence schedule;
     ListItem.CronExpression := CronExpression schedule;
     ListItem.RunAt := RunAt schedule;
     ListItem.Status := scheduleStatus schedule referenceTime;
     ListItem.NextRunAt := NextRunAt schedule;
     ListItem.LastRunAt := LastRunAt schedule |}.

(** ** A page of the list *)

Section with_codec.
Context `{CursorCodec}.

Definition encodedScheduleListPosition (schedule : Schedule) : string :=
  encode_position (position_of schedule).

Definition decodedScheduleListPosition (cursor : string)
  : result ScheduleError (option scheduleListPosition) :=
  let trimmedCursor := TrimSpace cursor in
  if bool_decide (trimmedCursor = "") then Ok None
  else match decode_position trimmedCursor with
       | None => Err ErrScheduleListCursor
       | Some position =>
         if bool_decide (position_ScheduleID position = "") ||
            IsZero (position_CreatedAt position)
         then Err ErrScheduleListCursor
         else Ok (Some position)
       end.

Definition ProjectScheduleList (schedules : list Schedule) (input : ListInput.ScheduleListInput)
    (referenceTime : instant) : result ScheduleError ListOutput.ScheduleListOutput :=
  after ← decodedScheduleListPosition (ListInput.Cursor input);
  let matching := sortSchedulesNewestFirst
    (schedulesWithStatus schedules (TrimSpace (ListInput.Status input)) referenceTime) in
  let remaining := schedulesAfter matching after in
  let limit := normalizedScheduleListLimit (ListInput.Limit input) in
  let page := take (Z.to_nat (Z.min limit (Z.of_nat (length remaining)))) remaining in
  let nextCursor :=
    match last page with
    | Some s => if (length page <? length remaining)%nat then encodedScheduleListPosition s else ""
    | None => ""
    end in
  Ok (ListOutput.MkScheduleListOutput
        ((fun s => scheduleListItemFromSchedule s referenceTime) <$> page)
        (Z.of_nat (length matching)) nextCursor).

End with_codec.

(** ** The order *)

Lemma listed_before_irrefl s : listed_before s s = false.
Proof.
  unfold listed_before, isScheduleListedBefore; cbn.
  rewrite Z.eqb_refl; apply str_lt_irrefl.
Qed.

Lemma listed_before_cases s t :
  listed_before s t = true <->
  CreatedAt t < CreatedAt s \/
  CreatedAt s = CreatedAt t /\ str_lt (ScheduleID s) (ScheduleID t) = true.
Proof.
  unfold listed_before, isScheduleListedBefore, After; cbn.
  destruct (CreatedAt s =? CreatedAt t) eqn:He; bool_to_prop; cbn [negb].
  - split; [auto|intros [?|[_ ?]]; [lia|done]].
  - rewrite Z.ltb_lt; split; [auto|intros [?|[? _]]; [done|lia]].
Qed.

Lemma listed_before_trans s t u :
  listed_before s t = true -> listed_before t u = true -> listed_before s u = true.
Proof.
  rewrite !listed_before_cases; intros [?|[? Hst]] [?|[? Htu]]; [left; lia..|].
  right; split; [lia|by eapply str_lt_trans].
Qed.

Lemma listed_before_asym s t : listed_before s t = true -> listed_before t s = false.
Proof.
  intros Hst; apply not_true_is_false; intros Hts.
  pose proof (listed_before_trans _ _ _ Hst Hts) as Hss; by rewrite listed_before_irrefl in Hss.
Qed.

Lemma listed_before_total s t :
  ScheduleID s <> ScheduleID t -> listed_before s t = false -> listed_before t s = true.
Proof.
  intros Hne Hst; apply not_true_iff_false in Hst; rewrite listed_before_cases in *.
  destruct (Z.lt_trichotomy (CreatedAt s) (CreatedAt t)) as [?|[?|?]]; [by left| |tauto].
  right; split; [done|].
  destruct (str_lt_total (ScheduleID s) (ScheduleID t)) as [?|[?|?]]; [tauto|done|done].
Qed.

Definition sorted (l : list Schedule) : Prop := sorted_by listed_before l.

Lemma sortSchedulesNewestFirst_perm l : sortSchedulesNewestFirst l ≡ₚ l.
Proof. apply stable_sort_perm. Qed.

Lemma sortSchedulesNewestFirst_sorted l :
  NoDup (ScheduleID <$> l) -> sorted (sortSchedulesNewestFirst l).
Proof.
  intros Hnd; eapply stable_sort_sorted; [exact listed_before_trans|exact Hnd|].
  intros s t _ _ Hne; destruct (listed_before s t) eqn:Hst; [by left|right].
  by apply listed_before_total.
Qed.

(** After the position of one of its elements, a sorted list goes on with the
    elements that follow it. *)
Lemma skip_to_after_sorted l1 x l2 :
  sorted (l1 ++ x :: l2) -> NoDup (ScheduleID <$> l1 ++ x :: l2) ->
  skip_to_after (position_of x) (l1 ++ x :: l2) = l2.
Proof.
  unfold sorted, sorted_by; induction l1 as [|y l1 IH]; cbn [app skip_to_after]; intros Hs Hnd.
  - fold (listed_before x x); rewrite listed_before_irrefl, bool_decide_eq_true_2 by done.
    cbn [negb andb]; apply StronglySorted_inv in Hs as [_ Hall].
    destruct l2 as [|z l2]; [done|]; cbn [skip_to_after].
    apply Forall_cons in Hall as [Hz _]; fold (listed_before z x).
    rewrite (listed_before_asym _ _ Hz), bool_decide_eq_false_2; [done|].
    rewrite !fmap_cons, NoDup_cons, not_elem_of_cons in Hnd; cbn.
    destruct Hnd as [[Hne _] _]; congruence.
  - apply StronglySorted_inv in Hs as [Hs Hall].
    rewrite fmap_cons in Hnd; apply NoDup_cons in Hnd as [_ Hnd].
    assert (Hy : listed_before y x = true).
    { rewrite Forall_app, Forall_cons in Hall; tauto. }
    unfold listed_before in Hy; rewrite Hy; cbn [negb andb]; by apply IH.
Qed.

(** ** Reading the whole list, page by page *)

Section paging.
Context `{CursorCodecLaws}.

(** A client that follows [NextCursor] until there is none. *)
Fixpoint read_pages (fuel : nat) (schedules : list Schedule) (status : string) (limit : Z)
    (cursor : string) (referenceTime : instant)
  : result ScheduleError (list ListItem.ScheduleListItem) :=
  match fuel with
  | O => Err LoopDoesNotEnd
  | S fuel' =>
    output ← ProjectScheduleList schedules (ListInput.MkScheduleListInput status limit cursor)
               referenceTime;
    if bool_decide (ListOutput.NextCursor output = "") then Ok (ListOutput.Schedules output)
    else
      rest ← read_pages fuel' schedules status limit (ListOutput.NextCursor output) referenceTime;
      Ok (ListOutput.Schedules output ++ rest)%list
  end.

(** The schedules of a page have an ID and a creation time a cursor can carry. *)
Definition listable (s : Schedule) : Prop :=
  ScheduleID s <> "" /\ CreatedAt s <> 0 /\ 0 <= year_of UTC (CreatedAt s) <= 9999.

(** The cursor points behind [front]. *)
Definition cursor_after (cursor : string) (front : list Schedule) : Prop :=
  match last front with
  | None => cursor = ""
  | Some x => cursor = encodedScheduleListPosition x
  end.

Lemma schedulesAfter_cursor cursor front rest :
  sorted (front ++ rest) -> NoDup (ScheduleID <$> front ++ rest) ->
  Forall listable (front ++ rest) -> cursor_after cursor front ->
  exists after, decodedScheduleListPosition cursor = Ok after /\
    schedulesAfter (front ++ rest) after = rest.
Proof.
  intros Hs Hnd Hall Hc; unfold cursor_after in Hc.
  destruct (last front) as [x|] eqn:Hx.
  - apply last_Some_snoc in Hx as [l ->]; rewrite <- app_assoc in *; cbn [app] in *.
    exists (Some (position_of x)); split; [|by apply skip_to_after_sorted].
    rewrite Forall_app, Forall_cons in Hall; destruct Hall as (_ & (Hid & Hzero & Hyear) & _).
    unfold decodedScheduleListPosition, encodedScheduleListPosition in *.
    rewrite Hc, encode_trimmed, bool_decide_eq_false_2 by (by apply encode_not_empty).
    rewrite decode_encode_position by done; cbn [position_of position_ScheduleID position_CreatedAt].
    rewrite bool_decide_eq_false_2 by done; unfold IsZero, zero_time; cbn [orb].
    by rewrite (proj2 (Z.eqb_neq _ _) Hzero).
  - apply last_None in Hx as ->; exists None; split; [|done].
    subst cursor; unfold decodedScheduleListPosition.
    assert (TrimSpace "" = "") as -> by (vm_compute; reflexivity); done.
Qed.

Lemma normalizedScheduleListLimit_range limit :
  1 <= normalizedScheduleListLimit limit <= 100.
Proof.
  unfold normalizedScheduleListLimit, scheduleListDefaultLimit, scheduleListMaximumLimit.
  destruct (limit <=? 0) eqn:?; bool_to_prop; lia.
Qed.

(** One page: the next [k] schedules, and the cursor behind them. *)
Lemma ProjectScheduleList_page schedules status limit cursor ref front rest :
  sortSchedulesNewestFirst (schedulesWithStatus schedules (TrimSpace status) ref) = (front ++ rest)%list ->
  sorted (front ++ rest) -> NoDup (ScheduleID <$> front ++ rest) ->
  Forall listable (front ++ rest) -> cursor_after cursor front ->
  exists page rest' output, rest = (page ++ rest')%list /\
    ProjectScheduleList schedules (ListInput.MkScheduleListInput status limit cursor) ref = Ok output /\
    ListOutput.Schedules output = (fun s => scheduleListItemFromSchedule s ref) <$> page /\
    ListOutput.TotalCount output = Z.of_nat (length (front ++ rest)) /\
    (rest' = [] /\ ListOutput.NextCursor output = "" \/
     page <> [] /\ cursor_after (ListOutput.NextCursor output) (front ++ page) /\
     ListOutput.NextCursor output <> "").
Proof.
  intros Hm Hs Hnd Hall Hc.
  destruct (schedulesAfter_cursor _ _ _ Hs Hnd Hall Hc) as (after & Hdec & Hrest).
  unfold ProjectScheduleList; cbn [ListInput.Cursor ListInput.Status ListInput.Limit].
  rewrite Hdec, Hm; cbn [mbind result_mbind]; rewrite Hrest.
  pose proof (normalizedScheduleListLimit_range limit) as Hlim.
  set (k := Z.to_nat _); exists (take k rest), (drop k rest); eexists.
  split; [by rewrite take_drop|]; split; [reflexivity|]; split; [done|]; split; [done|].
  cbn [ListOutput.NextCursor]; rewrite length_take.
  destruct (decide (length rest <= k)%nat) as [Hk|Hk].
  - left; split; [by apply drop_ge|].
    destruct (last _); [|done]; destruct (_ <? _)%nat eqn:Hlt; [|done].
    apply Nat.ltb_lt in Hlt; lia.
  - assert (k <> 0%nat) by lia; assert (Hne : take k rest <> []).
    { intros Hnil; apply (f_equal length) in Hnil; rewrite length_take in Hnil; cbn in Hnil; lia. }
    right; split; [done|].
    destruct (last (take k rest)) as [x|] eqn:Hx; [|by apply last_None in Hx].
    rewrite (proj2 (Nat.ltb_lt _ _)) by lia; split.
    + unfold cursor_after; by rewrite last_app, Hx.
    + apply encode_not_empty; apply last_Some_elem_of in Hx.
      assert (Hin : x ∈ (front ++ rest)%list).
      { apply elem_of_app; right; eapply elem_of_submseteq; [exact Hx|].
        by apply sublist_submseteq, sublist_take. }
      by apply (proj1 (Forall_forall _ _) Hall) in Hin as (_ & _ & ?).
Qed.

Lemma read_pages_from fuel schedules status limit cursor ref front rest :
  sortSchedulesNewestFirst (schedulesWithStatus schedules (TrimSpace status) ref) = (front ++ rest)%list ->
  sorted (front ++ rest) -> NoDup (ScheduleID <$> front ++ rest) ->
  Forall listable (front ++ rest) -> cursor_after cursor front ->
  (length rest < fuel)%nat ->
  read_pages fuel schedules status limit cursor ref =
    Ok ((fun s => scheduleListItemFromSchedule s ref) <$> rest).
Proof.
  revert cursor front rest; induction fuel as [|fuel IH];
    intros cursor front rest Hm Hs Hnd Hall Hc Hf; [lia|].
  destruct (ProjectScheduleList_page _ _ limit _ _ _ _ Hm Hs Hnd Hall Hc)
    as (page & rest' & output & -> & Hout & Hitems & _ & Hnext).
  cbn [read_pages]; rewrite Hout; cbn [mbind result_mbind].
  destruct Hnext as [[-> ->]|(Hne & Hafter & Hcur)].
  - by rewrite bool_decide_eq_true_2, app_nil_r, Hitems.
  - rewrite bool_decide_eq_false_2 by done.
    rewrite app_assoc in *; rewrite length_app in Hf.
    rewrite (IH _ (front ++ page)%list rest'); [|done..|].
    + cbn [mbind result_mbind]; by rewrite Hitems, fmap_app.
    + destruct page; [done|cbn in Hf; lia].
Qed.

End paging.

(** ** Hints *)

Inductive ScheduleHintOutcome :=
| ScheduleHintResolved
| ScheduleHintAmbiguous
| ScheduleHintNotFound.

Module Candidate.
Record ScheduleCandidate := MkScheduleCandidate {
  ScheduleID : string;
  Description : string;
  NextRunAt : option instant;
}.
End Candidate.

(** [Match] is the zero schedule in Go where there is none. *)
Record ScheduleHintResolution := MkResolution {
  Outcome : ScheduleHintOutcome;
  Match : option Schedule;
  Candidates : list Candidate.ScheduleCandidate;
}.

Definition OpenSchedulesCreatedBy (schedules : list Schedule) (creatorPersonID : string)
    (referenceTime : instant) : list Schedule :=
  let creator := TrimSpace creatorPersonID in
  filter (fun s => TrimSpace (CreatorPersonID s) = creator /\
                   scheduleStatus s referenceTime <> "expired") schedules.

Definition ScheduleCandidatesOf (schedules : list Schedule) : list Candidate.ScheduleCandidate :=
  (fun s => Candidate.MkScheduleCandidate (ScheduleID s) (Name s) (NextRunAt s)) <$> schedules.

Definition resolutionFrom (matches : list Schedule) : option ScheduleHintResolution :=
  match matches with
  | [] => None
  | [s] => Some (MkResolution ScheduleHintResolved (Some s) [])
  | _ => Some (MkResolution ScheduleHintAmbiguous None (ScheduleCandidatesOf matches))
  end.

Section with_unicode.
Context `{UnicodeTables}.

Definition description_equals (hint : string) (s : Schedule) : bool :=
  EqualFold (TrimSpace (Name s)) hint.

Definition description_contains (hint : string) (s : Schedule) : bool :=
  let description := ToLower (TrimSpace (Name s)) in
  negb (bool_decide (description = "")) && Contains description (ToLower hint).

Definition schedulesWithDescriptionEqualTo (hint : string) (schedules : list Schedule)
  : list Schedule := List.filter (description_equals hint) schedules.

Definition schedulesWithDescriptionContaining (hint : string) (schedules : list Schedule)
  : list Schedule := List.filter (description_contains hint) schedules.

Definition ResolveScheduleHint (hint : string) (schedules : list Schedule)
  : ScheduleHintResolution :=
  let trimmedHint := TrimSpace hint in
  let notFound := MkResolution ScheduleHintNotFound None [] in
  if bool_decide (trimmedHint = "") then notFound else
  match List.find (fun s => bool_decide (TrimSpace (ScheduleID s) = trimmedHint)) schedules with
  | Some s => MkResolution ScheduleHintResolved (Some s) []
  | None =>
    match resolutionFrom (schedulesWithDescriptionEqualTo trimmedHint schedules) with
    | Some resolution => resolution
    | None =>
      match resolutionFrom (schedulesWithDescriptionContaining trimmedHint schedules) with
      | Some resolution => resolution
      | None => notFound
      end
    end
  end.

(** The schedules a hint names: by ID; without one, by the whole description;
    without one, by a part of it. *)
Definition hint_matches (hint : string) (schedules : list Schedule) : list Schedule :=
  match schedulesWithDescriptionEqualTo hint schedules with
  | [] => schedulesWithDescriptionContaining hint schedules
  | matches => matches
  end.

End with_unicode.

(** ** Properties *)

(** A client that follows the cursor of each page until there is none reads
    every schedule of the asked status exactly once, newest first, whatever the
    page size; and reading ends. *)
Theorem read_pages_lists_all `{CursorCodecLaws} schedules status limit ref :
  NoDup (ScheduleID <$> schedules) -> Forall listable schedules ->
  let matching := sortSchedulesNewestFirst (schedulesWithStatus schedules (TrimSpace status) ref) in
  read_pages (S (length schedules)) schedules status limit "" ref =
    Ok ((fun s => scheduleListItemFromSchedule s ref) <$> matching) /\
  matching ≡ₚ schedulesWithStatus schedules (TrimSpace status) ref /\ sorted matching.
Proof.
  intros Hnd Hall matching; set (chosen := schedulesWithStatus schedules (TrimSpace status) ref).
  assert (Hsub : chosen `sublist_of` schedules) by apply sublist_filter.
  assert (Hnd' : NoDup (ScheduleID <$> chosen)).
  { eapply sublist_NoDup; [exact Hnd|]; by apply fmap_sublist. }
  assert (Hperm : matching ≡ₚ chosen) by apply sortSchedulesNewestFirst_perm.
  assert (Hs : sorted matching) by (by apply sortSchedulesNewestFirst_sorted).
  split; [|done].
  apply (read_pages_from _ _ _ _ _ _ [] matching); cbn [app]; try done.
  - by rewrite Hperm.
  - rewrite Hperm, Forall_forall in *; intros s' [_ Hin]%list_elem_of_filter; by apply Hall.
  - rewrite Hperm; apply Nat.lt_succ_r; by apply sublist_length.
Qed.

(** A codec for examples: the binary digits of the position's number. *)
Fixpoint digits_of (p : positive) : bytes :=
  match p with
  | xH => ["e"%char]
  | xO p => "0"%char :: digits_of p
  | xI p => "1"%char :: digits_of p
  end.

Fixpoint of_digits (l : bytes) : option positive :=
  match l with
  | [] => None
  | a :: l =>
    if Ascii.eqb a "e" then Some xH
    else if Ascii.eqb a "0" then xO <$> of_digits l
    else xI <$> of_digits l
  end.

Definition position_number (p : scheduleListPosition) : positive :=
  encode (position_CreatedAt p, position_ScheduleID p).

#[local] Instance binary_codec : CursorCodec := {
  encode_position p := of_bytes (digits_of (position_number p));
  decode_position s :=
    n ← of_digits (bytes_of s);
    p ← @decode (Z * string) _ _ n;
    Some (MkPosition p.1 p.2);
}.

Lemma of_digits_of p : of_digits (digits_of p) = Some p.
Proof. induction p as [p IH|p IH|]; cbn; by rewrite ?IH. Qed.

Lemma digits_of_solid p : forallb solid_ascii (digits_of p) = true.
Proof. induction p; cbn [digits_of forallb]; by rewrite ?andb_true_iff. Qed.

#[local] Instance binary_codec_laws : CursorCodecLaws.
Proof.
  split; intros p; cbn [encode_position decode_position binary_codec].
  - intros _ _; rewrite bytes_of_bytes, of_digits_of; cbn [mbind option_bind].
    unfold position_number; rewrite decode_encode; by destruct p.
  - apply TrimSpace_ascii; rewrite bytes_of_bytes; apply digits_of_solid.
  - intros _; destruct (position_number p); discriminate.
Qed.

Definition named_schedule (id name : string) (created : instant) : Schedule :=
  MkSchedule id "p" name "" ScheduleExecutionModeAgent "" "" "" "" "UTC" ScheduleKindOnce None 0 ""
    0 0 None (Some 0) None "" "" None 0 "" None None created created.

(** Two pages of one schedule each. *)
Lemma read_pages_lists_all_witness :
  let schedules := [named_schedule "a" "water" (7 * Hour); named_schedule "b" "feed" (9 * Hour)] in
  let matching := sortSchedulesNewestFirst (schedulesWithStatus schedules (TrimSpace "") 0) in
  read_pages (S (length schedules)) schedules "" 1 "" 0 =
    Ok ((fun s => scheduleListItemFromSchedule s 0) <$> matching) /\
  matching ≡ₚ schedulesWithStatus schedules (TrimSpace "") 0 /\ sorted matching.
Proof.
  intros schedules; apply (read_pages_lists_all schedules "" 1 0).
  - apply NoDup_cons; split; [|apply NoDup_singleton].
    intros Hin; apply list_elem_of_singleton in Hin; discriminate Hin.
  - apply Forall_cons; split; [|apply Forall_singleton];
      (split; [discriminate|split; [discriminate|vm_compute; split; discriminate]]).
Defined.

(** A hint names a schedule of the requester's own open ones or nothing: it
    resolves only to the schedule with that ID, or to the single one its words
    fit; when several fit it asks, with all of them; it finds nothing only when
    nothing fits. *)
Theorem ResolveScheduleHint_own `{UnicodeTables} hint all person ref :
  let own := OpenSchedulesCreatedBy all person ref in
  let name := TrimSpace hint in
  let r := ResolveScheduleHint hint own in
  match Outcome r with
  | ScheduleHintResolved => exists s, Match r = Some s /\ s ∈ all /\
      TrimSpace (CreatorPersonID s) = TrimSpace person /\ scheduleStatus s ref <> "expired" /\
      (TrimSpace (ScheduleID s) = name \/ hint_matches name own = [s])
  | ScheduleHintAmbiguous => Match r = None /\ (2 <= length (hint_matches name own))%nat /\
      Candidates r = ScheduleCandidatesOf (hint_matches name own)
  | ScheduleHintNotFound => name = "" \/
      hint_matches name own = [] /\ forall s, s ∈ own -> TrimSpace (ScheduleID s) <> name
  end.
Proof.
  intros own name r; unfold r, ResolveScheduleHint; fold name.
  assert (Hown : forall s, s ∈ own -> s ∈ all /\
    TrimSpace (CreatorPersonID s) = TrimSpace person /\ scheduleStatus s ref <> "expired").
  { intros s [[? ?] ?]%list_elem_of_filter; done. }
  assert (Hin : forall f s, s ∈ List.filter f own -> s ∈ own).
  { intros f s [Hs _]%list_elem_of_In%filter_In; by apply list_elem_of_In. }
  case_bool_decide as Hname; [by left|].
  destruct (List.find _ own) as [s|] eqn:Hfind.
  { apply find_some in Hfind as [Hs Hid]; bool_to_prop; cbn; exists s; split; [done|].
    apply list_elem_of_In, Hown in Hs as (? & ? & ?); auto. }
  assert (Hnone : forall s, s ∈ own -> TrimSpace (ScheduleID s) <> name).
  { intros s Hs%list_elem_of_In; pose proof (find_none _ _ Hfind s Hs) as Hf.
    cbv beta in Hf; by bool_to_prop. }
  unfold hint_matches, schedulesWithDescriptionEqualTo, schedulesWithDescriptionContaining.
  destruct (List.filter (description_equals name) own) as [|s [|t l]] eqn:He; cbn [resolutionFrom];
    cycle 1.
  { cbn; exists s; split; [done|]; destruct (Hown s) as (? & ? & ?); [|by auto].
    apply (Hin (description_equals name)); rewrite He; by left. }
  { cbn; split_and!; [done|lia|done]. }
  destruct (List.filter (description_contains name) own) as [|s [|t l]] eqn:Hc; cbn [resolutionFrom].
  - by right.
  - cbn; exists s; split; [done|]; destruct (Hown s) as (? & ? & ?); [|by auto].
    apply (Hin (description_contains name)); rewrite Hc; by left.
  - cbn; split_and!; [done|lia|done].
Qed.
