(* ===== verification/SchedulePoller.v ===== *)
(** * The schedule poller ([scheduler/schedule_poller.go], [agentruntime/schedule_runner.go])
    on the schedule table ([ScheduleStore]).

    A poll claims due schedules, runs each and settles it.  What lies outside is an
    [Environment]: at every step other sessions may change the table, a statement
    may be refused, be done and reported as failed, or the process may die before or
    after it, and an agent may fail or take the process down with it.  The events
    appended to task runs, the cancelling of stale runs and the log are left out. *)

From S2P Require Export ScheduleStore.
Import ScheduleRepository.

(** ** Data *)

Definition TaskRunID (turn : TurnResult) : string := Run_ID (Turn_TaskRun turn).
Definition Status (turn : TurnResult) : TaskStatus := Run_Status (Turn_TaskRun turn).
Definition FailureReason (turn : TurnResult) : string := Run_FailureReason (Turn_TaskRun turn).

Inductive PollerError :=
| scheduleTerminalError (message : string)
| scheduledRunFailedError (message : string) (notice : OutboundReply) (missingNoticeReason : string)
| SchedulerError (e : ScheduleError)
| DatabaseError (e : StoreError)
| PollerFailure (message : string).

(** [Error()].  Of the scheduler's errors [AdvanceSchedule] returns the first three. *)
Definition error_text (e : ScheduleError) : string :=
  match e with
  | errorInvalidSchedule => "invalid task schedule"
  | errorInvalidCronExpression => "invalid cron expression"
  | errorUnableToFindNextTaskRun => "unable to find next task run"
  | RepositoryError message => message
  | _ => ""
  end.

Definition store_error_text (e : StoreError) : string :=
  match e with
  | errManagedScheduleMutation =>
    "managed morning briefing schedules cannot be changed by generic schedule operations"
  | errMorningBriefingScheduleIDConflict => "morning briefing schedule ID belongs to another schedule"
  | errStaleMorningBriefingLease => "morning briefing schedule lease is no longer owned"
  | ErrNoRows => "sql: no rows in result set"
  | StoreFailure message => message
  | ConstraintViolation => ""
  | StoreSchedulerError e => error_text e
  end.

Definition error_message (e : PollerError) : string :=
  match e with
  | scheduleTerminalError message => message
  | scheduledRunFailedError message _ _ => message
  | SchedulerError e => error_text e
  | DatabaseError e => store_error_text e
  | PollerFailure message => message
  end.

Record scheduleExecutionResult := MkExecution {
  Executed_Schedule : Schedule;
  Executed_TaskRunID : string;
  Reply : OutboundReply;
  DidRun : bool;
}.

Definition scheduleLeaseDuration : duration := 15 * Minute.
Definition maxScheduleFailureCount : Z := 5.

(** ** The world *)

(** What happens to a statement: it works; it is refused; it is done and reported as
    failed; the process dies before it, or after it. *)
Inductive Fault := Works | Refuses (message : string) | Lost (message : string)
  | CrashesBefore | CrashesAfter.

Inductive LaunchOutcome := LaunchFails (message : string) | LaunchCrashes | Launches (turn : TurnResult).

(** [launched]: the schedule, its occurrence and the time of each start of an agent. *)
Record World := MkWorld {
  store : Store;
  launched : list (string * option instant * instant);
  steps : nat;
}.

(** What the code under the poller answers, by the number of the step. *)
Record Environment := MkEnvironment {
  meanwhile : nat -> list Operation;
  clock : nat -> instant;
  fate : nat -> Fault;
  locked_rows : nat -> gset string;
  is_cancelled : nat -> bool;
  IsQuiesced : bool;
  launch : nat -> Schedule -> LaunchOutcome;
  failed_turn : nat -> Schedule -> TurnResult;
  skipEmptyMorningBriefing : nat -> Schedule -> bool;
  CanRun : nat -> Schedule -> result string bool;
  desired_briefings : nat -> result string (list Schedule * list string);
  message_run : nat -> Schedule -> result string string;
  FailTaskRun : nat -> string -> string -> option string;
  ListTaskRun : nat -> list TaskRun;
}.

(** The services the poller was built with, and what its repository supports. *)
Record Services := MkServices {
  has_TaskRunService : bool;
  has_DeliveryRepository : bool;
  has_MorningBriefing : bool;
  is_transactional : bool;
  retires_briefings : bool;
  WorkerID : string;
}.

Inductive outcome (A : Type) := Done (a : A) | Failed (e : PollerError) | Crashed.
Arguments Done {A} _.
Arguments Failed {A} _.
Arguments Crashed {A}.

(** A piece of the poller's work: it changes the world, and returns, fails or takes
    the process down. *)
Definition Effect (A : Type) : Type := World -> World * outcome A.

#[export] Instance Effect_ret : MRet Effect := fun A a w => (w, Done a).
#[export] Instance Effect_bind : MBind Effect := fun A B k m w =>
  match m w with
  | (w', Done a) => k a w'
  | (w', Failed e) => (w', Failed e)
  | (w', Crashed) => (w', Crashed)
  end.

Definition fail {A} (e : PollerError) : Effect A := fun w => (w, Failed e).

Definition lift {A} (r : result PollerError A) : Effect A := fun w =>
  match r with Ok a => (w, Done a) | Err e => (w, Failed e) end.

Definition scheduled {A} (r : result ScheduleError A) : result PollerError A := map_error SchedulerError r.

(** The error of [m] as a value. *)
Definition attempt {A} (m : Effect A) : Effect (result PollerError A) := fun w =>
  match m w with
  | (w', Done a) => (w', Done (Ok a))
  | (w', Failed e) => (w', Done (Err e))
  | (w', Crashed) => (w', Crashed)
  end.

Definition with_store (st : Store) (w : World) : World := MkWorld st (launched w) (steps w).

(** ** Replies *)

Definition firstNonEmptyString (values : list string) : string := firstNonBlankScheduleValue values.

Definition taskStatusRequiresInteraction (status : TaskStatus) : bool :=
  bool_decide (status = TaskStatusWaitingApproval) || bool_decide (status = TaskStatusWaitingUserInput) ||
  bool_decide (status = TaskStatusBlocked).

Section with_protocol.

(** The texts of the statuses, of the protocol library. *)
Context (status_text : TaskStatus -> string).

Definition scheduledRunNotCompleted (turn : TurnResult) : PollerError :=
  let reason := TrimSpace (FailureReason turn) in
  let reason := if bool_decide (reason = "") then "" else " reason=" +:+ reason in
  let message := "scheduled task did not complete: taskRunID=" +:+ TaskRunID turn +:+
    " status=" +:+ status_text (Status turn) +:+ reason in
  if taskStatusRequiresInteraction (Status turn) then scheduleTerminalError message
  else
    let '(notice, missingNoticeReason) := UserNoticeReply turn (TaskRunID turn) in
    scheduledRunFailedError message notice missingNoticeReason.

Definition scheduledTaskReply (turn : TurnResult) : result PollerError OutboundReply :=
  let reply := TrimSpace (FinishMessage turn) in
  if negb (bool_decide (Status turn = TaskStatusCompleted)) then Err (scheduledRunNotCompleted turn)
  else if bool_decide (reply = "") then Err (PollerFailure "scheduled task completed without a reply")
  else Ok (MkReply reply (TaskRunID turn) "success" "" "" (Turn_Attachments turn) [] "" None).

Definition normalizedScheduleReply (execution : scheduleExecutionResult) : OutboundReply :=
  let reply := Reply execution in
  MkReply (Message reply) (firstNonEmptyString [Reply_TaskRunID reply; Executed_TaskRunID execution])
    (firstNonEmptyString [ReplyKind reply; "success"]) (RawEventID reply) (OutboxID reply)
    (Reply_Attachments reply) (Reply_RecoveryActions reply) (FailureNotice reply) (Interaction reply).

Definition scheduleDeliveryDeduplicationKey (schedule : Schedule) : string :=
  let occurrenceTime := default zero_time (NextRunAt schedule) in
  ScheduleSessionID (ScheduleID schedule) +:+ ":occurrence:" +:+ Format_RFC3339Nano occurrenceTime.

Definition validateScheduleDeliveryTarget (schedule : Schedule) : result PollerError unit :=
  if blank (Platform schedule) then Err (scheduleTerminalError "scheduled task platform is required")
  else if blank (ConversationID schedule) then
    Err (scheduleTerminalError "scheduled task conversation is required")
  else if blank (ReplyTargetID schedule) then
    Err (scheduleTerminalError "scheduled task reply target is required")
  else Ok tt.

Definition scheduleFailureIsTerminal (schedule : Schedule) (e : PollerError) : bool :=
  (maxScheduleFailureCount <=? wrap64 (FailureCount schedule + 1)) ||
  match e with scheduleTerminalError _ => true | _ => false end.

(** ** The poll *)

Context `{TimeZoneDatabase} (env : Environment) (services : Services).

Definition workerID : string :=
  if blank (WorkerID services) then "blueclaw-task-schedule-poller" else TrimSpace (WorkerID services).

(** A step: other sessions have had their turn. *)
Definition next_step {A} (act : nat -> Effect A) : Effect A := fun w =>
  act (steps w) (MkWorld (apply_all (meanwhile env (steps w)) (store w)) (launched w) (S (steps w))).

(** A statement or transaction of the database, at the time of the step. *)
Definition transact {A} (change : instant -> Store -> result StoreError (Store * A)) : Effect A :=
  next_step (fun k w =>
    let changed := change (clock env k) (store w) in
    let done := match changed with Ok (st, _) => with_store st w | Err _ => w end in
    match fate env k with
    | Works =>
      match changed with
      | Ok (_, a) => (done, Done a)
      | Err e => (w, Failed (DatabaseError e))
      end
    | Refuses message => (w, Failed (PollerFailure message))
    | Lost message => (done, Failed (PollerFailure message))
    | CrashesBefore => (w, Crashed)
    | CrashesAfter => (done, Crashed)
    end).

Definition execute (change : instant -> Store -> result StoreError Store) : Effect unit :=
  transact (fun now st => st' ← change now st; Ok (st', tt)).

Definition with_launch (s : Schedule) (now : instant) (w : World) : World :=
  MkWorld (store w) (launched w ++ [(ScheduleID s, NextRunAt s, now)]) (steps w).

(** [taskLauncher.Launch]: from here on the agent has acted. *)
Definition Launch (schedule : Schedule) : Effect TurnResult :=
  next_step (fun k w =>
    let w := with_launch schedule (clock env k) w in
    match launch env k schedule with
    | LaunchFails message => (w, Failed (PollerFailure message))
    | LaunchCrashes => (w, Crashed)
    | Launches turn => (w, Done turn)
    end).

(** A question to code under the poller. *)
Definition ask {A} (question : nat -> A) : Effect A := next_step (fun k w => (w, Done (question k))).

Definition AdvanceSchedule_ (schedule : Schedule) (referenceTime : instant) : Effect Schedule :=
  lift (scheduled (AdvanceSchedule schedule referenceTime)).

(** *** [ScheduleRunner] *)

(** The schedule after the run, the turn, and whether the agent ran. *)
Record ScheduleRunResult := MkRunResult {
  Run_Schedule : Schedule;
  Run_Turn : option TurnResult;
}.

Definition advancedPast (schedule : Schedule) (referenceTime : instant) (turn : TurnResult)
  : Effect ScheduleRunResult :=
  advancedSchedule ← AdvanceSchedule_ schedule referenceTime;
  mret (MkRunResult (set_LastTaskRunID (TaskRunID turn) advancedSchedule) (Some turn)).

Definition RunIfDue (schedule : Schedule) (referenceTime : instant) : Effect ScheduleRunResult :=
  referenceTime ← ask (fun k => or_now referenceTime (clock env k));
  if negb (IsScheduleDue schedule referenceTime) then mret (MkRunResult schedule None) else
  skips ← ask (fun k => IsMorningBriefing schedule && skipEmptyMorningBriefing env k schedule);
  if skips : bool then
    advancedSchedule ← AdvanceSchedule_ schedule referenceTime;
    mret (MkRunResult advancedSchedule None)
  else
    turn ← Launch schedule;
    advancedPast schedule referenceTime turn.

Definition ReportOutlivedStartWindow (schedule : Schedule) (referenceTime : instant)
  : Effect ScheduleRunResult :=
  turn ← ask (fun k => failed_turn env k schedule);
  advancedPast schedule referenceTime turn.

(** *** Running one schedule *)

Definition did_not_run (schedule : Schedule) : scheduleExecutionResult :=
  MkExecution schedule "" no_reply false.

Definition reportOutlivedStartWindow (schedule : Schedule) (referenceTime : instant)
  : Effect scheduleExecutionResult :=
  run ← ReportOutlivedStartWindow schedule referenceTime;
  match Run_Turn run with
  | None => mret (did_not_run (Run_Schedule run))
  | Some turn =>
    let '(notice, missingNoticeReason) := UserNoticeReply turn (TaskRunID turn) in
    if negb (bool_decide (missingNoticeReason = "")) then mret (did_not_run (Run_Schedule run))
    else mret (MkExecution (Run_Schedule run) (TaskRunID turn) notice true)
  end.

(** The task run of an interaction that cannot happen is failed before the error
    returns. *)
Definition fail_interaction (turn : TurnResult) (e : PollerError) : Effect scheduleExecutionResult :=
  match e with
  | scheduleTerminalError message =>
    if negb (has_TaskRunService services) then
      fail (PollerFailure "task run service is unavailable while recording scheduled interaction")
    else
      failError ← ask (fun k => FailTaskRun env k (TaskRunID turn) message);
      match failError with
      | Some failure => fail (PollerFailure failure)
      | None => fail e
      end
  | _ => fail e
  end.

Definition executeAgentSchedule (schedule : Schedule) (referenceTime : instant)
  : Effect scheduleExecutionResult :=
  run ← RunIfDue schedule referenceTime;
  match Run_Turn run with
  | None => mret (did_not_run (Run_Schedule run))
  | Some turn =>
    match scheduledTaskReply turn with
    | Err e => fail_interaction turn e
    | Ok reply => mret (MkExecution (Run_Schedule run) (TaskRunID turn) reply true)
    end
  end.

Definition executeMessageSchedule (schedule : Schedule) (referenceTime : instant)
  : Effect scheduleExecutionResult :=
  if negb (IsScheduleDue schedule referenceTime) then mret (did_not_run schedule) else
  if negb (has_TaskRunService services) then fail (PollerFailure "task run service is unavailable") else
  completed ← ask (fun k => message_run env k schedule);
  match completed with
  | Err message => fail (PollerFailure message)
  | Ok taskRunID =>
    advancedSchedule ← AdvanceSchedule_ schedule referenceTime;
    mret (MkExecution (set_LastTaskRunID taskRunID advancedSchedule) taskRunID
            (MkReply (Prompt schedule) taskRunID "success" "" "" [] [] "" None) true)
  end.

Definition executeSchedule (schedule : Schedule) (referenceTime : instant)
  : Effect scheduleExecutionResult :=
  if HasOutlivedItsStartWindow schedule referenceTime then reportOutlivedStartWindow schedule referenceTime
  else if bool_decide (ExecutionMode schedule = ScheduleExecutionModeMessage) then
    executeMessageSchedule schedule referenceTime
  else executeAgentSchedule schedule referenceTime.

Definition enqueuePreparedScheduleReply (schedule : Schedule) (taskRunID : string) (reply : OutboundReply)
  : Effect string :=
  if negb (has_DeliveryRepository services) then
    fail (PollerFailure "task schedule delivery repository is unavailable")
  else transact (fun _ st => Ok (EnqueueScheduledConnectorReply schedule taskRunID reply st)).

Definition mark_succeeded (schedule : Schedule) : Effect unit :=
  execute (fun now => MarkScheduleSucceeded now schedule).

Definition markScheduleSucceededAndEnqueueReply (claimedSchedule : Schedule)
    (execution : scheduleExecutionResult) : Effect unit :=
  let reply := normalizedScheduleReply execution in
  let deliveryDeduplicationKey := scheduleDeliveryDeduplicationKey claimedSchedule in
  if is_transactional services then
    _ ← transact (fun now => MarkScheduleSucceededAndEnqueueDelivery now (Executed_Schedule execution)
          (Executed_TaskRunID execution) deliveryDeduplicationKey reply);
    mret tt
  else
    _ ← enqueuePreparedScheduleReply (Executed_Schedule execution) (Executed_TaskRunID execution) reply;
    mark_succeeded (Executed_Schedule execution).

Definition canRunMorningBriefing (schedule : Schedule) : Effect (result string bool) :=
  if negb (has_MorningBriefing services) then mret (Ok true)
  else ask (fun k => if IsMorningBriefing schedule then CanRun env k schedule else Ok true).

Definition pauseMorningBriefing (schedule : Schedule) (errorValue : option string) : Effect unit :=
  match errorValue with
  | Some message => fail (PollerFailure message)
  | None => mark_succeeded (set_NextRunAt None schedule)
  end.

(** [if canRun, errorValue := ...; errorValue != nil || !canRun { return pause }] *)
Definition unless_paused (schedule paused : Schedule) (rest : Effect unit) : Effect unit :=
  canRun ← canRunMorningBriefing schedule;
  match canRun with
  | Err message => pauseMorningBriefing paused (Some message)
  | Ok false => pauseMorningBriefing paused None
  | Ok true => rest
  end.

Definition spendAnApprovedCallBeforeItRuns (schedule : Schedule) (referenceTime : instant) : Effect unit :=
  if negb (CarriesAnApprovedCall schedule) then mret tt else
  spentSchedule ← AdvanceSchedule_ schedule referenceTime;
  mark_succeeded spentSchedule.

Definition runSchedule (schedule : Schedule) (referenceTime : instant) : Effect unit :=
  unless_paused schedule schedule (
    _ ← lift (validateScheduleDeliveryTarget schedule);
    _ ← spendAnApprovedCallBeforeItRuns schedule referenceTime;
    execution ← executeSchedule schedule referenceTime;
    if negb (DidRun execution) then mark_succeeded (Executed_Schedule execution) else
    unless_paused schedule (Executed_Schedule execution) (
      markScheduleSucceededAndEnqueueReply schedule execution)).

(** *** Failures *)

Definition tellTheRequesterTheScheduleGaveUp (schedule : Schedule) (e : PollerError) : Effect unit :=
  match e with
  | scheduledRunFailedError _ notice missingNoticeReason =>
    if negb (bool_decide (missingNoticeReason = "")) then mret tt else
    _ ← attempt (enqueuePreparedScheduleReply schedule (Reply_TaskRunID notice) notice);
    mret tt
  | _ => mret tt
  end.

Definition recordScheduleFailure (schedule : Schedule) (e : PollerError) (referenceTime : instant)
  : Effect unit :=
  if scheduleFailureIsTerminal schedule e then
    _ ← tellTheRequesterTheScheduleGaveUp schedule e;
    if IsMorningBriefing schedule && retires_briefings services then
      execute (fun now => RetireMorningBriefingOccurrence now schedule (error_message e) referenceTime)
    else execute (fun now st => Ok (ExpireSchedule now schedule (error_message e) referenceTime st))
  else execute (fun now => MarkScheduleFailed now schedule (error_message e) referenceTime).

Definition is_active_run (taskRun : TaskRun) : bool :=
  match Run_Status taskRun with
  | TaskStatusPlanned | TaskStatusRunning | TaskStatusWaitingApproval | TaskStatusWaitingUserInput
  | TaskStatusBlocked => true
  | _ => false
  end.

Definition hasActiveScheduleRun (schedule : Schedule) : Effect bool :=
  if negb (has_TaskRunService services) then mret false else
  ask (fun k => existsb (fun taskRun =>
    bool_decide (OriginConversationID taskRun = ScheduleSessionID (ScheduleID schedule)) &&
    is_active_run taskRun) (ListTaskRun env k)).

(** The body of the loop over the claimed schedules: whether the schedule ran. *)
Definition poll_schedule (schedule : Schedule) (referenceTime : instant) : Effect bool :=
  isActive ← hasActiveScheduleRun schedule;
  if isActive : bool then mret false else
  ran ← attempt (runSchedule schedule referenceTime);
  match ran with
  | Ok _ => mret true
  | Err e => _ ← attempt (recordScheduleFailure schedule e referenceTime); mret false
  end.

Fixpoint poll_schedules (schedules : list Schedule) (referenceTime : instant) (runCount : Z) : Effect Z :=
  match schedules with
  | [] => mret runCount
  | schedule :: schedules' =>
    isCancelled ← ask (is_cancelled env);
    if isCancelled : bool then fail (PollerFailure "context canceled") else
    ran ← poll_schedule schedule referenceTime;
    poll_schedules schedules' referenceTime (if ran : bool then runCount + 1 else runCount)
  end.

(** [MorningBriefing.Reconcile]: the schedules it wants, and their transaction. *)
Definition Reconcile (referenceTime : instant) : Effect unit :=
  desired ← ask (desired_briefings env);
  match desired with
  | Err message => fail (PollerFailure message)
  | Ok (schedules, unsettledPeople) =>
    execute (fun now => ReconcileMorningBriefings now schedules unsettledPeople referenceTime)
  end.

Definition RunDue (referenceTime : instant) (limit : Z) : Effect Z :=
  if IsQuiesced env then mret 0 else
  _ ← (if has_MorningBriefing services then _ ← attempt (Reconcile referenceTime); mret tt else mret tt);
  schedules ← (fun w => transact (fun now st =>
      Ok (ClaimDueSchedules now (locked_rows env (steps w)) limit scheduleLeaseDuration referenceTime workerID st)) w);
  poll_schedules schedules referenceTime 0.

End with_protocol.

(** ** Reasoning about effects

    [triple E P m Q]: from a world with [P], [m] leaves one with [E] however it ends,
    and when it returns a value, one with [Q]. *)

Definition triple {A} (E P : World -> Prop) (m : Effect A) (Q : A -> World -> Prop) : Prop :=
  forall w, P w -> E (m w).1 /\ forall a, (m w).2 = Done a -> Q a (m w).1.

Section triples.
Context (E : World -> Prop).
Implicit Types (P : World -> Prop).

Lemma triple_bind {A B} P (Q : A -> World -> Prop) (R : B -> World -> Prop) m k :
  triple E P m Q -> (forall a, triple E (Q a) (k a) R) -> triple E P (m ≫= k) R.
Proof.
  intros Hm Hk w Hw; destruct (Hm w Hw) as [He Hq].
  unfold mbind, Effect_bind; destruct (m w) as [w' [a|e|]]; cbn in *; [|done..].
  by apply (Hk a), Hq.
Qed.

Lemma triple_ret {A} P (a : A) (Q : A -> World -> Prop) :
  (forall w, P w -> E w) -> (forall w, P w -> Q a w) -> triple E P (mret a) Q.
Proof. intros He Hq w Hw; cbn; split; [by apply He|]; intros b [= <-]; by apply Hq. Qed.

Lemma triple_fail {A} P e (Q : A -> World -> Prop) : (forall w, P w -> E w) -> triple E P (fail e) Q.
Proof. intros He w Hw; split; [by apply He|done]. Qed.

Lemma triple_lift {A} P (r : result PollerError A) (Q : A -> World -> Prop) :
  (forall w, P w -> E w) -> (forall a w, r = Ok a -> P w -> Q a w) -> triple E P (lift r) Q.
Proof.
  intros He Hq w Hw; unfold lift; destruct r as [a|e]; cbn; (split; [by apply He|]); [|done].
  intros b [= <-]; by apply Hq.
Qed.

(** After an error the next piece starts from [E]. *)
Lemma triple_attempt {A} P (m : Effect A) (Q : A -> World -> Prop) (R : result PollerError A -> World -> Prop) :
  triple E P m Q -> (forall a w, Q a w -> R (Ok a) w) -> (forall e w, E w -> R (Err e) w) ->
  triple E P (attempt m) R.
Proof.
  intros Hm Hok Herr w Hw; destruct (Hm w Hw) as [He Hq]; unfold attempt.
  destruct (m w) as [w' [a|e|]]; cbn in *; (split; [done|]); intros r [= <-]; eauto.
Qed.

Lemma triple_weaken {A} P P' (m : Effect A) (Q Q' : A -> World -> Prop) :
  triple E P m Q -> (forall w, P' w -> P w) -> (forall a w, Q a w -> Q' a w) -> triple E P' m Q'.
Proof. intros Hm HP HQ w Hw; destruct (Hm w (HP _ Hw)) as [He Hq]; split; [done|]; eauto. Qed.

Lemma triple_pure {A} (fact : Prop) P (m : Effect A) (Q : A -> World -> Prop) :
  (fact -> triple E P m Q) -> triple E (fun w => P w /\ fact) m Q.
Proof. intros Hm w [Hw Hf]; by apply Hm. Qed.

End triples.

Lemma triple_ends {A} (E E' P : World -> Prop) (m : Effect A) (Q : A -> World -> Prop) :
  triple E P m Q -> (forall w, E w -> E' w) -> triple E' P m Q.
Proof. intros Hm HE w Hw; destruct (Hm w Hw) as [He Hq]; split; [by apply HE|done]. Qed.

(** What [m] keeps, whatever its value. *)
Definition preserves {A} (K : World -> Prop) (m : Effect A) : Prop := triple K K m (fun _ => K).

Lemma keeps_bind {A B} K (m : Effect A) (k : A -> Effect B) :
  preserves K m -> (forall a, preserves K (k a)) -> preserves K (m ≫= k).
Proof. intros Hm Hk; by apply (triple_bind _ _ (fun _ => K)). Qed.

Lemma keeps_ret {A} K (a : A) : preserves K (mret a).
Proof. by apply triple_ret. Qed.

Lemma keeps_fail {A} K e : preserves K (fail (A := A) e).
Proof. by apply triple_fail. Qed.

Lemma keeps_attempt {A} K (m : Effect A) : preserves K m -> preserves K (attempt m).
Proof. intros Hm; by apply (triple_attempt _ _ _ (fun _ => K)). Qed.

#[export] Hint Resolve keeps_bind keeps_ret keeps_fail keeps_attempt : go.

(** ** Calls that were approved once *)

Section approved_call.
Context (status_text : TaskStatus -> string) `{TimeZoneDatabase} (env : Environment) (services : Services).
Context (X : string).

(** An operation of another session; the ID of a schedule is given out once. *)
Definition session_op (op : Operation) : bool :=
  match op with
  | OpUpsert _ schedule => negb (bool_decide (ScheduleID schedule = X))
  | OpUpdate _ _ _ _ _ _ | OpDelete _ _ | OpCancel _ _ | OpRepairCreator _ _ _ | OpFillTimeZone _ _ => true
  | _ => false
  end.

Definition carries (st : Store) : Prop :=
  forall row, table st !! X = Some row -> CarriesAnApprovedCall row = true.

Definition spent (st : Store) : Prop :=
  forall row, table st !! X = Some row -> NextRunAt row = None.

(** The row [X] does not appear, keeps its call, and is not given a next run. *)
Definition calm (st st' : Store) : Prop :=
  forall row', table st' !! X = Some row' ->
    exists row, table st !! X = Some row /\ ApprovedCall row' = ApprovedCall row /\
      (NextRunAt row = None -> NextRunAt row' = None).

Lemma calm_same st st' : table st' !! X = table st !! X -> calm st st'.
Proof. intros He row' Hrow'; exists row'; split; [congruence|done]. Qed.

Lemma calm_trans st1 st2 st3 : calm st1 st2 -> calm st2 st3 -> calm st1 st3.
Proof.
  intros C1 C2 row3 H3; destruct (C2 _ H3) as (row2 & H2 & Ha & Hn).
  destruct (C1 _ H2) as (row1 & H1 & Ha1 & Hn1); exists row1; split_and!; [done|congruence|eauto].
Qed.

Lemma calm_carries st st' : calm st st' -> carries st -> carries st'.
Proof.
  intros C Hc row' (row & Hrow & Ha & _)%C; unfold carries, CarriesAnApprovedCall in *.
  rewrite Ha; by apply Hc.
Qed.

Lemma calm_spent st st' : calm st st' -> spent st -> spent st'.
Proof. intros C Hs row' (row & Hrow & _ & Hn)%C; by apply Hn, Hs. Qed.

Lemma calm_update_where condition set st :
  (forall row, condition X row = true ->
    ApprovedCall (set row) = ApprovedCall row /\ (NextRunAt row = None -> NextRunAt (set row) = None)) ->
  calm st (update_where condition set st).
Proof.
  intros Hset row' Hrow'; rewrite update_where_lookup in Hrow'.
  destruct (table st !! X) as [row|]; [|done]; injection Hrow' as <-; exists row; split; [done|].
  destruct (condition X row) eqn:Hc; [by apply Hset|done].
Qed.

Lemma calm_write_row id row st st' : id <> X -> write_row id row st = Ok st' -> calm st st'.
Proof. intros Hne [_ ->]%write_row_Ok; apply calm_same; cbn; by rewrite lookup_insert_ne. Qed.

Lemma session_op_calm op st : sound st -> carries st -> session_op op = true -> calm st (apply op st).
Proof.
  intros Hs Hc Hop; destruct op; cbn [apply session_op] in *; try done.
  - bool_to_prop; unfold or_unchanged; destruct (ScheduleRepository.UpsertSchedule _ _ _) as [st'|] eqn:Hu;
      [|by apply calm_same].
    apply UpsertSchedule_cases in Hu as (_ & row & _ & -> & _); apply calm_same; cbn.
    by rewrite lookup_insert_ne.
  - unfold committed; destruct (UpdateSchedule _ _ _ _ _) as [[st' [s|]]|] eqn:Hu; [| |by apply calm_same].
    + apply UpdateSchedule_Ok in Hu as (row & Hch & Ha & Hid & Hw); [|done].
      eapply calm_write_row; [|exact Hw]; intros He; apply changeable_Some in Hch as (Hrow & _).
      rewrite He in Hrow; apply Hc in Hrow; apply ApplyScheduleUpdate_Ok in Ha as [? _]; congruence.
    + apply UpdateSchedule_None in Hu as ->; by apply calm_same.
  - destruct (DeleteSchedule_cases scheduleID requesterPersonID st) as [->|(row & _ & _ & _ & ->)];
      [by apply calm_same|].
    intros row' Hrow'; cbn in Hrow'; apply lookup_delete_Some in Hrow' as [_ Hrow'].
    exists row'; by split_and!.
  - unfold CancelSchedules; split_match; [by apply calm_same|].
    destruct (cancel_scope request); [|by apply calm_same]; by apply calm_update_where.
  - by apply calm_update_where.
  - by apply calm_update_where.
Qed.

(** *** What a poll keeps *)

Hypothesis meanwhile_session : forall k, forallb session_op (meanwhile env k) = true.

Definition run_count (w : World) : nat := length (filter (fun run => run.1.1 = X) (launched w)).

(** The call ran at most [n] times, and [inv] holds of the table. *)
Definition kept (inv : Store -> Prop) (n : nat) (w : World) : Prop :=
  sound (store w) /\ carries (store w) /\ inv (store w) /\ (run_count w <= n)%nat.

Definition any (st : Store) : Prop := True.

Definition closed (inv : Store -> Prop) : Prop := forall st st', inv st -> calm st st' -> inv st'.

Lemma closed_any : closed any.
Proof. done. Qed.

Lemma closed_spent : closed spent.
Proof. intros st st' Hs Hc; by eapply calm_spent. Qed.

Lemma kept_calm inv n w st :
  closed inv -> kept inv n w -> sound st -> calm (store w) st -> kept inv n (with_store st w).
Proof.
  intros Hcl (Hs & Hc & Hi & Hn) Hs' Hcalm; split_and!; [done|by eapply calm_carries|by eapply Hcl|done].
Qed.

Lemma session_ops_calm ops st :
  forallb session_op ops = true -> sound st -> carries st ->
  sound (apply_all ops st) /\ calm st (apply_all ops st).
Proof.
  revert st; induction ops as [|op ops IH]; intros st Hops Hs Hc; cbn; [by split; [|apply calm_same]|].
  cbn in Hops; bool_to_prop; assert (calm st (apply op st)) as Hcalm by by apply session_op_calm.
  destruct (IH (apply op st)) as [? ?]; [done|by apply apply_sound|by eapply calm_carries|].
  split; [done|by eapply calm_trans].
Qed.

Lemma kept_step inv n w :
  closed inv -> kept inv n w ->
  kept inv n (MkWorld (apply_all (meanwhile env (steps w)) (store w)) (launched w) (S (steps w))).
Proof.
  intros Hcl Hw; pose proof Hw as (Hs & Hc & _).
  destruct (session_ops_calm _ _ (meanwhile_session (steps w)) Hs Hc) as [Hs' Hcalm].
  exact (kept_calm _ _ _ _ Hcl Hw Hs' Hcalm).
Qed.

Lemma triple_ask {A} E inv n (question : nat -> A) :
  closed inv -> (forall w, kept inv n w -> E w) ->
  triple E (kept inv n) (ask env question) (fun _ => kept inv n).
Proof.
  intros Hcl He w Hw; apply kept_step in Hw; [|done]; unfold ask, next_step; cbn.
  split; [by apply He|by intros].
Qed.

(** The answer is the one of some step. *)
Lemma triple_ask_value {A} inv n (question : nat -> A) :
  closed inv ->
  triple (kept inv n) (kept inv n) (ask env question)
    (fun a w => kept inv n w /\ exists k, a = question k).
Proof.
  intros Hcl w Hw; apply kept_step in Hw; [|done]; unfold ask, next_step; cbn.
  split; [done|]; intros a [= <-]; split; [done|by eexists].
Qed.

(** A statement of the poller, seen from the row [X]. *)
Definition calm_change {A} (change : instant -> Store -> result StoreError (Store * A)) : Prop :=
  forall now st st' a, sound st -> carries st -> change now st = Ok (st', a) -> sound st' /\ calm st st'.

(** With [Q], what the statement does when it works. *)
Lemma triple_transact {A} (E : World -> Prop) inv n change (Q : A -> World -> Prop) :
  closed inv -> calm_change change -> (forall w, kept inv n w -> E w) ->
  (forall now w st' a, kept inv n w -> change now (store w) = Ok (st', a) ->
    kept inv n (with_store st' w) -> Q a (with_store st' w)) ->
  triple E (kept inv n) (transact env change) Q.
Proof.
  intros Hcl Hch He HQ w Hw; unfold transact, next_step; apply kept_step in Hw; [|done].
  set (w1 := MkWorld _ _ _) in *.
  pose proof Hw as (Hs & Hc & _); destruct (change (clock env (steps w)) (store w1)) as [[st' a]|e] eqn:Hr.
  - destruct (Hch _ _ _ _ Hs Hc Hr) as [Hs' Hcalm]; pose proof (kept_calm _ _ _ _ Hcl Hw Hs' Hcalm) as Hk.
    destruct (fate env (steps w)); cbn; (split; [by apply He|]); try done.
    intros b [= <-]; by eapply HQ.
  - destruct (fate env (steps w)); cbn; (split; [by apply He|done]).
Qed.

(** *** The statements of a poll *)

(** Writing [schedule] back does not give [X] a next run. *)
Definition quiet (schedule : Schedule) : Prop := ScheduleID schedule = X -> NextRunAt schedule = None.

Lemma calm_execute change :
  (forall now st st', sound st -> carries st -> change now st = Ok st' -> evolves st st' /\ calm st st') ->
  calm_change (fun now st => st' ← change now st; Ok (st', tt)).
Proof.
  intros Hch now st st' a Hs Hc Hr; apply bind_Ok in Hr as (st1 & Hr & [= <- _]).
  destruct (Hch _ _ _ Hs Hc Hr) as [Hev Hcalm]; split; [by eapply evolves_sound|done].
Qed.

Lemma calm_settle schedule set st st' :
  (forall row, ScheduleID schedule = X ->
    ApprovedCall (set row) = ApprovedCall row /\ (NextRunAt row = None -> NextRunAt (set row) = None)) ->
  settle_row schedule set st = Ok st' -> calm st st'.
Proof.
  unfold settle_row; intros Hset Hs; split_match_in Hs; [done|]; injection Hs as <-.
  apply calm_update_where; intros row Hc; apply Hset; unfold settles, with_ID in Hc; by bool_to_prop.
Qed.

Lemma calm_mark_succeeded schedule :
  quiet schedule ->
  calm_change (fun now st => st' ← MarkScheduleSucceeded now schedule st; Ok (st', tt)).
Proof.
  intros Hq; apply calm_execute; intros now st st' _ _ Hm; split; [by eapply evolves_Succeeded|].
  eapply calm_settle; [|exact Hm]; intros row He; cbn; by rewrite Hq.
Qed.

Lemma calm_mark_failed schedule message ref :
  calm_change (fun now st => st' ← MarkScheduleFailed now schedule message ref st; Ok (st', tt)).
Proof.
  apply calm_execute; intros now st st' _ _ Hm; split; [by eapply evolves_Failed|].
  by eapply calm_settle; [|exact Hm].
Qed.

Lemma calm_expire schedule message ref :
  calm_change (fun now st => st' ← Ok (ExpireSchedule now schedule message ref st); Ok (st', tt)).
Proof.
  apply calm_execute; intros now st st' _ _ [= <-]; split; [evolves_update|by apply calm_update_where].
Qed.

Lemma calm_retire schedule message ref :
  calm_change (fun now st => st' ← RetireMorningBriefingOccurrence now schedule message ref st; Ok (st', tt)).
Proof.
  apply calm_execute; intros now st st' Hs Hc Hr; split; [by eapply evolves_Retire|].
  unfold RetireMorningBriefingOccurrence in Hr; apply bind_Ok in Hr as (? & Hv & Hr).
  destruct (InitializeSchedule _ _); [|done]; injection Hr as <-.
  apply calm_update_where; intros row Hcond; unfold both, with_ID in Hcond; bool_to_prop.
  unfold verifyMorningBriefingLease in Hv; rewrite <- H0 in Hv.
  destruct (table st !! X) as [row'|] eqn:Hrow; [|done]; pose proof (Hc _ Hrow) as Hcarry.
  destruct Hs as [Hrows _]; destruct (Hrows _ _ Hrow) as [_ Hm].
  destruct Hm as [_ Hm]; [|congruence]; unfold CarriesAnApprovedCall in Hcarry.
  by destruct (ApprovedCall row').
Qed.

Lemma calm_enqueue schedule taskRunID reply :
  calm_change (fun _ st => Ok (EnqueueScheduledConnectorReply schedule taskRunID reply st)).
Proof.
  intros now st st' a Hs _ [= <- _]; split; [|by apply calm_same].
  eapply evolves_sound; [done|apply evolves_enqueue].
Qed.

Lemma calm_mark_and_enqueue schedule taskRunID key reply :
  quiet schedule ->
  calm_change (fun now => MarkScheduleSucceededAndEnqueueDelivery now schedule taskRunID key reply).
Proof.
  intros Hq now st st' a Hs _ Hm; split.
  - pose proof (evolves_SucceededAndEnqueue _ _ _ _ _ _ _ Hm) as Hev; by eapply evolves_sound in Hev.
  - unfold MarkScheduleSucceededAndEnqueueDelivery in Hm.
    apply bind_Ok in Hm as (? & _ & Hm); apply bind_Ok in Hm as (? & _ & Hm); injection Hm as <- _.
    eapply calm_trans; [|apply (calm_update_where (with_ID (ScheduleID schedule)))].
    + by apply calm_same.
    + intros row He; unfold with_ID in He; bool_to_prop; cbn; by rewrite Hq.
Qed.

Lemma calm_claim (locked : gset string) limit lease ref owner :
  calm_change (fun now st => Ok (ClaimDueSchedules now locked limit lease ref owner st)).
Proof.
  intros now st st' rows Hs _ Hc; rewrite ClaimDueSchedules_taken in Hc.
  injection Hc as <- _; split; [eapply evolves_sound; [done|evolves_update]|by apply calm_update_where].
Qed.

Lemma calm_deactivate ref people st :
  calm st (foldl (fun st personID => deactivateMorningBriefing ref personID st) st people).
Proof.
  revert st; induction people as [|person people IH]; intros st; cbn; [by apply calm_same|].
  eapply calm_trans; [|apply IH]; unfold deactivateMorningBriefing.
  destruct (briefings st !! person); [by apply calm_update_where|by apply calm_same].
Qed.

Lemma calm_reconcile_one ref desired st st' :
  ScheduleID desired <> X -> reconcileMorningBriefingSchedule ref desired st = Ok st' -> calm st st'.
Proof.
  intros Hne; unfold reconcileMorningBriefingSchedule; intros Hr.
  destruct (findManagedMorningBriefingSchedule _ _) as [existing|].
  - split_match_in Hr; [done|]; destruct (match LeasedUntil existing with Some _ => _ | None => _ end);
      [injection Hr as <-; by apply calm_same|].
    destruct (morningBriefingConfigurationChanged _ _) as [[] cadence]; cbn [negb] in Hr;
      [|injection Hr as <-; by apply calm_same].
    destruct (table st !! ScheduleID desired) as [row|] eqn:Hrow; [|injection Hr as <-; by apply calm_same].
    by eapply calm_write_row in Hr.
  - unfold insertManagedMorningBriefingSchedule in Hr; destruct (table st !! ScheduleID desired); [done|].
    apply bind_Ok in Hr as (st1 & Hw & Hr); eapply calm_write_row in Hw; [|done].
    destruct (briefings st1 !! CreatorPersonID desired); [done|].
    destruct (managed _ st1); [done|]; injection Hr as <-; eapply calm_trans; [exact Hw|by apply calm_same].
Qed.

Lemma calm_reconcile desired unsettled ref :
  Forall (fun schedule => ScheduleID schedule <> X) desired ->
  calm_change (fun now st => st' ← ReconcileMorningBriefings now desired unsettled ref st; Ok (st', tt)).
Proof.
  intros Hids; apply calm_execute; intros now st st' _ _ Hr; split; [by eapply evolves_ReconcileMorningBriefings|].
  unfold ReconcileMorningBriefings in Hr; apply bind_Ok in Hr as (st1 & H1 & [= <-]).
  eapply calm_trans; [|apply calm_deactivate].
  revert st H1; generalize (∅ : gset string); induction Hids as [|s desired Hs Hids IH]; intros people st H1;
    cbn [reconcile_all] in H1; [injection H1 as <-; by apply calm_same|].
  apply bind_Ok in H1 as (? & _ & H1); apply bind_Ok in H1 as (? & _ & H1).
  apply bind_Ok in H1 as (st2 & H2 & H1); eapply calm_trans; [by eapply calm_reconcile_one|by eapply IH].
Qed.

(** *** Pieces that keep what a poll keeps *)

Section pieces.
Context (inv : Store -> Prop) (n : nat) (inv_closed : closed inv).

Lemma keeps_ask {A} (question : nat -> A) : preserves (kept inv n) (ask env question).
Proof. by apply triple_ask. Qed.

Lemma keeps_statement {A} (change : instant -> Store -> result StoreError (Store * A)) :
  calm_change change -> preserves (kept inv n) (transact env change).
Proof. intros Hch; by apply triple_transact. Qed.

Lemma keeps_mark_succeeded schedule :
  quiet schedule -> preserves (kept inv n) (mark_succeeded env schedule).
Proof. intros Hq; by apply keeps_statement, calm_mark_succeeded. Qed.

Lemma keeps_can_run schedule : preserves (kept inv n) (canRunMorningBriefing env services schedule).
Proof.
  unfold canRunMorningBriefing; destruct (has_MorningBriefing services); cbn [negb];
    [apply keeps_ask|apply keeps_ret].
Qed.

Lemma keeps_pause schedule e : preserves (kept inv n) (pauseMorningBriefing env schedule e).
Proof. destruct e; cbn [pauseMorningBriefing]; [apply keeps_fail|by apply keeps_mark_succeeded]. Qed.

Lemma keeps_enqueue schedule taskRunID reply :
  preserves (kept inv n) (enqueuePreparedScheduleReply env services schedule taskRunID reply).
Proof.
  unfold enqueuePreparedScheduleReply; destruct (has_DeliveryRepository services); cbn [negb];
    [by apply keeps_statement, calm_enqueue|apply keeps_fail].
Qed.

Lemma keeps_reply claimed execution :
  quiet (Executed_Schedule execution) ->
  preserves (kept inv n) (markScheduleSucceededAndEnqueueReply env services claimed execution).
Proof.
  intros Hq; unfold markScheduleSucceededAndEnqueueReply; destruct (is_transactional services).
  - apply keeps_bind; [by apply keeps_statement, calm_mark_and_enqueue|]; intros key; apply keeps_ret.
  - apply keeps_bind; [apply keeps_enqueue|intros key; by apply keeps_mark_succeeded].
Qed.

Lemma keeps_record schedule e ref :
  preserves (kept inv n) (recordScheduleFailure env services schedule e ref).
Proof.
  unfold recordScheduleFailure; destruct (scheduleFailureIsTerminal schedule e);
    [|apply keeps_statement, calm_mark_failed].
  apply keeps_bind.
  - unfold tellTheRequesterTheScheduleGaveUp; destruct e as [|message notice reason| | |]; try apply keeps_ret.
    destruct (bool_decide (reason = "")); cbn [negb]; [|apply keeps_ret].
    apply keeps_bind; [apply keeps_attempt, keeps_enqueue|intros r; apply keeps_ret].
  - intros _; destruct (IsMorningBriefing schedule && retires_briefings services);
      apply keeps_statement; [apply calm_retire|apply calm_expire].
Qed.

Lemma keeps_active schedule : preserves (kept inv n) (hasActiveScheduleRun env services schedule).
Proof.
  unfold hasActiveScheduleRun; destruct (has_TaskRunService services); cbn [negb];
    [apply keeps_ask|apply keeps_ret].
Qed.

End pieces.

(** *** One schedule

    [before] what holds until the agent starts, [after] what holds from then on. *)

Section one_schedule.
Context (schedule : Schedule) (ref : instant) (ref_given : IsZero ref = false).
Context (inv : Store -> Prop) (n m : nat) (inv_closed : closed inv).
Hypothesis n_le_m : (n <= m)%nat.
Hypothesis launch_runs : triple (kept inv m) (kept inv n) (Launch env schedule) (fun _ => kept inv m).
Hypothesis advanced_quiet : forall t advanced run,
  AdvanceSchedule schedule t = Ok advanced -> quiet (set_LastTaskRunID run advanced).
Hypothesis due_or_other : quiet schedule \/ IsScheduleDue schedule ref = true.

Lemma kept_later w : kept inv n w -> kept inv m w.
Proof. intros (? & ? & ? & ?); split_and!; [done..|lia]. Qed.

Definition ran_quietly (execution : scheduleExecutionResult) (w : World) : Prop :=
  kept inv m w /\ quiet (Executed_Schedule execution).

Lemma triple_advance k t :
  (k = n \/ k = m) ->
  triple (kept inv m) (kept inv k) (AdvanceSchedule_ schedule t)
    (fun advanced w => kept inv m w /\ forall run, quiet (set_LastTaskRunID run advanced)).
Proof.
  intros Hk; assert (Hlater : forall w, kept inv k w -> kept inv m w)
    by (destruct Hk as [->| ->]; [apply kept_later|done]).
  apply triple_lift; [done|]; intros advanced w Ha Hw; split; [by apply Hlater|]; intros run.
  unfold scheduled in Ha; apply map_error_Ok in Ha; by eapply advanced_quiet.
Qed.

Lemma triple_advancedPast turn :
  triple (kept inv m) (kept inv m) (advancedPast schedule ref turn)
    (fun run w => kept inv m w /\ quiet (Run_Schedule run)).
Proof.
  eapply triple_bind; [apply triple_advance; by right|]; intros advanced; apply triple_pure; intros Hq.
  apply triple_ret; [done|]; intros w Hw; split; [done|apply Hq].
Qed.

Lemma triple_before {A} (question : nat -> A) :
  triple (kept inv m) (kept inv n) (ask env question) (fun _ => kept inv n).
Proof. apply triple_ask; [done|apply kept_later]. Qed.

Lemma triple_RunIfDue :
  triple (kept inv m) (kept inv n) (RunIfDue env schedule ref)
    (fun run w => kept inv m w /\ quiet (Run_Schedule run)).
Proof.
  unfold RunIfDue; apply (triple_bind _ _ (fun t w => kept inv n w /\ t = ref)).
  { intros w Hw; destruct (triple_before (fun k => or_now ref (clock env k)) w Hw) as [He Hq].
    split; [done|]; intros t Ht; split; [by eapply Hq|].
    unfold ask, next_step in Ht; cbn in Ht; injection Ht as <-; unfold or_now; by rewrite ref_given. }
  intros t; apply triple_pure; intros ->; destruct (IsScheduleDue schedule ref) eqn:Hdue; cbn [negb].
  - eapply triple_bind; [apply triple_before|]; intros [].
    + eapply triple_bind; [apply triple_advance; by left|]; intros advanced; apply triple_pure; intros Hq.
      apply triple_ret; [done|]; intros w Hw; split; [done|exact (Hq "")].
    + eapply triple_bind; [exact launch_runs|intros turn; apply triple_advancedPast].
  - destruct due_or_other as [Hq|?]; [|congruence].
    apply triple_ret; [apply kept_later|]; intros w Hw; split; [by apply kept_later|done].
Qed.

Lemma triple_executeAgent :
  triple (kept inv m) (kept inv n) (executeAgentSchedule status_text env services schedule ref) ran_quietly.
Proof.
  eapply triple_bind; [apply triple_RunIfDue|]; intros run; apply triple_pure; intros Hq.
  destruct (Run_Turn run) as [turn|]; [|by apply triple_ret].
  destruct (scheduledTaskReply status_text turn) as [reply|e]; [by apply triple_ret|].
  unfold fail_interaction; destruct e; try by apply triple_fail.
  destruct (has_TaskRunService services); cbn [negb]; [|by apply triple_fail].
  eapply triple_bind; [by apply keeps_ask|]; intros [failure|]; by apply triple_fail.
Qed.

Lemma triple_executeMessage :
  triple (kept inv m) (kept inv n) (executeMessageSchedule env services schedule ref) ran_quietly.
Proof.
  unfold executeMessageSchedule; destruct (IsScheduleDue schedule ref) eqn:Hdue; cbn [negb].
  - destruct (has_TaskRunService services); cbn [negb]; [|apply triple_fail, kept_later].
    eapply triple_bind; [apply triple_before|].
    intros [taskRunID|message]; [|apply triple_fail, kept_later].
    eapply triple_bind; [apply triple_advance; by left|]; intros advanced; apply triple_pure; intros Hq.
    apply triple_ret; [done|]; intros w Hw; split; [done|apply Hq].
  - destruct due_or_other as [Hq|?]; [|congruence].
    apply triple_ret; [apply kept_later|]; intros w Hw; split; [by apply kept_later|done].
Qed.

Lemma triple_executeSchedule :
  triple (kept inv m) (kept inv n) (executeSchedule status_text env services schedule ref) ran_quietly.
Proof.
  unfold executeSchedule; destruct (HasOutlivedItsStartWindow schedule ref).
  - apply (triple_bind _ _ (fun run w => kept inv m w /\ quiet (Run_Schedule run))).
    + eapply triple_bind; [apply triple_before|]; intros turn.
      eapply triple_weaken; [apply triple_advancedPast|apply kept_later|done].
    + intros run; apply triple_pure; intros Hq; destruct (Run_Turn run) as [turn|]; [|by apply triple_ret].
      destruct (UserNoticeReply turn (TaskRunID turn)) as [notice reason].
      destruct (bool_decide (reason = "")); by apply triple_ret.
  - case_bool_decide; [apply triple_executeMessage|apply triple_executeAgent].
Qed.

(** From the execution on. *)
Definition execute_and_settle : Effect unit :=
  execution ← executeSchedule status_text env services schedule ref;
  if negb (DidRun execution) then mark_succeeded env (Executed_Schedule execution) else
  unless_paused env services schedule (Executed_Schedule execution)
    (markScheduleSucceededAndEnqueueReply env services schedule execution).

Lemma triple_executed : triple (kept inv m) (kept inv n) execute_and_settle (fun _ => kept inv m).
Proof.
  eapply triple_bind; [apply triple_executeSchedule|]; intros execution; apply triple_pure; intros Hq.
  destruct (DidRun execution); cbn [negb]; [|by apply keeps_mark_succeeded].
  apply keeps_bind; [by apply keeps_can_run|]; intros [[]|message];
    [by apply keeps_reply|by apply keeps_pause..].
Qed.

End one_schedule.

(** *** Turns *)

Lemma launch_triple inv n m schedule :
  closed inv -> (n <= m)%nat -> (ScheduleID schedule = X -> m = S n) ->
  triple (kept inv m) (kept inv n) (Launch env schedule) (fun _ => kept inv m).
Proof.
  intros Hcl Hle Hm w Hw; unfold Launch, next_step; apply kept_step in Hw; [|done].
  set (w1 := MkWorld _ _ _) in *.
  assert (Hk : kept inv m (with_launch schedule (clock env (steps w)) w1)).
  { destruct Hw as (Hs & Hc & Hi & Hn); split_and!; [done..|].
    unfold run_count, with_launch in *; cbn [launched] in *; rewrite filter_app, length_app.
    destruct (decide (ScheduleID schedule = X)) as [He|He].
    - rewrite filter_cons_True, filter_nil by done; cbn [length]; rewrite (Hm He); lia.
    - rewrite filter_cons_False, filter_nil by done; cbn [length]; lia. }
  destruct (launch env (steps w) schedule); cbn; (split; [done|]); by intros.
Qed.

Section other_schedule.
Context (schedule : Schedule) (ref : instant) (ref_given : IsZero ref = false).
Context (other : ScheduleID schedule <> X) (inv : Store -> Prop) (n : nat) (inv_closed : closed inv).

Lemma other_quiet : quiet schedule.
Proof. intros ?; congruence. Qed.

Lemma other_advanced t advanced run : AdvanceSchedule schedule t = Ok advanced -> quiet (set_LastTaskRunID run advanced).
Proof. intros [-> _]%AdvanceSchedule_cases He; cbn in He; congruence. Qed.

Lemma other_executed : preserves (kept inv n) (execute_and_settle schedule ref).
Proof.
  apply triple_executed; try done; [by apply launch_triple|apply other_advanced|left; apply other_quiet].
Qed.

Lemma keeps_other_spend :
  preserves (kept inv n) (spendAnApprovedCallBeforeItRuns env schedule ref).
Proof.
  unfold spendAnApprovedCallBeforeItRuns; destruct (CarriesAnApprovedCall schedule); cbn [negb]; [|apply keeps_ret].
  unfold AdvanceSchedule_; eapply (triple_bind _ _ (fun advanced w => kept inv n w /\ quiet advanced)).
  - apply triple_lift; [done|]; intros advanced w Ha Hw; split; [done|].
    unfold scheduled in Ha; apply map_error_Ok in Ha; by apply (other_advanced _ _ (LastTaskRunID advanced)) in Ha.
  - intros advanced; apply triple_pure; intros Hq; by apply keeps_mark_succeeded.
Qed.

Lemma keeps_other_turn :
  preserves (kept inv n) (poll_schedule status_text env services schedule ref).
Proof.
  unfold poll_schedule; apply keeps_bind; [by apply keeps_active|]; intros []; [apply keeps_ret|].
  apply keeps_bind.
  - apply keeps_attempt; unfold runSchedule, unless_paused; apply keeps_bind; [by apply keeps_can_run|].
    intros [[]|message]; [|by apply keeps_pause..].
    apply keeps_bind; [by apply triple_lift|intros _].
    apply keeps_bind; [apply keeps_other_spend|intros _; apply other_executed].
  - intros [?|e]; [apply keeps_ret|].
    apply keeps_bind; [by apply keeps_attempt, keeps_record|intros ?; apply keeps_ret].
Qed.

End other_schedule.

Section approved_schedule.
Context (schedule : Schedule) (ref : instant) (ref_given : IsZero ref = false).
Hypothesis (is_X : ScheduleID schedule = X) (approved : CarriesAnApprovedCall schedule = true).
Hypothesis (once : Kind schedule = ScheduleKindOnce) (due : IsScheduleDue schedule ref = true).
Context (n : nat).

(** It did not run, or ran once more and will not again. *)
Definition run_or_spent (w : World) : Prop := kept any n w \/ kept spent (S n) w.

Lemma once_advanced t advanced : AdvanceSchedule schedule t = Ok advanced -> NextRunAt advanced = None.
Proof.
  intros [He Hn]%AdvanceSchedule_cases; destruct (NextRunAt advanced) as [next|]; [|done].
  destruct (Hn next eq_refl) as (_ & _ & Hc); unfold calculateNextRunAt in Hc.
  change (Kind (executed schedule t)) with (Kind schedule) in Hc; rewrite once in Hc.
  by apply calculateOneTimeNextRunAt_Some in Hc as (_ & ? & _).
Qed.

Lemma MarkScheduleSucceeded_spends now advanced st st' :
  ScheduleID advanced = X -> NextRunAt advanced = None ->
  MarkScheduleSucceeded now advanced st = Ok st' -> spent st'.
Proof.
  intros Hid Hnone; unfold MarkScheduleSucceeded, settle_row; intros Hm; split_match_in Hm; [done|].
  injection Hm as <-; intros row' Hrow'; rewrite update_where_lookup in Hrow'.
  destruct (table st !! X) as [row|] eqn:Hrow; [|done]; injection Hrow' as <-.
  assert (settles advanced st X row = true) as ->; [|done].
  unfold settles, with_ID; rewrite Hid, bool_decide_true by done; cbn.
  destruct (IsMorningBriefing advanced) eqn:Hb; [|done]; cbn in Heqb |- *; bool_to_prop.
  destruct (select_where _ _) as [|sel rows] eqn:Hsel; [done|].
  assert (Hin : sel ∈ select_where (settles advanced st) st) by (rewrite Hsel; by left).
  apply select_where_elem in Hin as (id & Hid' & Hc); unfold settles, with_ID in Hc.
  rewrite Hb in Hc; cbn in Hc; apply andb_true_iff in Hc as [Hx Hc]; bool_to_prop.
  assert (row = sel) as -> by congruence; rewrite Hid in *.
  apply andb_true_iff; by split.
Qed.

Lemma triple_spend :
  triple run_or_spent (kept any n) (spendAnApprovedCallBeforeItRuns env schedule ref) (fun _ => kept spent n).
Proof.
  unfold spendAnApprovedCallBeforeItRuns; rewrite approved; cbn [negb].
  assert (Hend : forall w, kept any n w -> run_or_spent w) by by left.
  apply (triple_bind _ _ (fun advanced w => kept any n w /\ AdvanceSchedule schedule ref = Ok advanced)).
  - apply triple_lift; [done|]; intros advanced w Ha Hw; by apply map_error_Ok in Ha.
  - intros advanced; apply triple_pure; intros Ha; pose proof (once_advanced _ _ Ha) as Hnone.
    apply AdvanceSchedule_cases in Ha as [He _].
    assert (ScheduleID advanced = X) as Hid by by rewrite He.
    apply triple_transact; [apply closed_any|apply calm_mark_succeeded; by intros _|done|].
    intros now w st' [] (Hs & Hc & _ & Hn) Hm Hk.
    apply bind_Ok in Hm as (st1 & Hm & [= <-]); destruct Hk as (Hs' & Hc' & _ & Hn').
    split_and!; [done..| |done]; by eapply MarkScheduleSucceeded_spends.
Qed.

Lemma triple_approved_executed :
  triple run_or_spent (kept spent n) (execute_and_settle schedule ref) (fun _ => run_or_spent).
Proof.
  apply (triple_weaken _ (kept spent n) _ _ (fun _ => kept spent (S n))); [|done|by right].
  apply (triple_ends (kept spent (S n))); [|by right].
  apply triple_executed; [done|apply closed_spent|lia| | |by right].
  - by apply launch_triple; [apply closed_spent|lia|].
  - intros t advanced run Ha _; cbn; by eapply once_advanced.
Qed.

Lemma triple_run_approved :
  triple run_or_spent (kept any n) (runSchedule status_text env services schedule ref) (fun _ => run_or_spent).
Proof.
  assert (Hany : forall w, kept any n w -> run_or_spent w) by by left.
  assert (Hends : forall A (m : Effect A), preserves (kept any n) m ->
    triple run_or_spent (kept any n) m (fun _ => kept any n)) by (intros; by eapply triple_ends).
  unfold runSchedule, unless_paused.
  apply (triple_bind _ _ (fun _ => kept any n)); [by apply Hends, keeps_can_run|].
  intros [[]|message].
  - apply (triple_bind _ _ (fun _ => kept any n)); [by apply Hends, triple_lift|intros u].
    apply (triple_bind _ _ (fun _ => kept spent n)); [apply triple_spend|].
    intros _; apply triple_approved_executed.
  - apply (triple_weaken _ (kept any n) _ _ (fun _ => kept any n));
      [by apply Hends, keeps_pause|done|intros _; apply Hany].
  - apply (triple_weaken _ (kept any n) _ _ (fun _ => kept any n));
      [by apply Hends, keeps_pause|done|intros _; apply Hany].
Qed.

Lemma keeps_run_or_spent {A} (m : Effect A) :
  (forall inv k, closed inv -> preserves (kept inv k) m) -> preserves run_or_spent m.
Proof.
  intros Hm w [Hw|Hw].
  - destruct (Hm any n closed_any w Hw) as [He Hq]; split; [by left|]; intros; left; by eapply Hq.
  - destruct (Hm spent (S n) closed_spent w Hw) as [He Hq]; split; [by right|]; intros; right; by eapply Hq.
Qed.

Lemma triple_approved_turn :
  triple run_or_spent (kept any n) (poll_schedule status_text env services schedule ref) (fun _ => run_or_spent).
Proof.
  assert (Hany : forall w, kept any n w -> run_or_spent w) by by left.
  unfold poll_schedule; apply (triple_bind _ _ (fun _ => kept any n)).
  { eapply triple_ends; [by apply keeps_active|exact Hany]. }
  intros []; [by apply triple_ret|].
  eapply (triple_bind _ _ (fun _ => run_or_spent));
    [eapply triple_attempt; [apply triple_run_approved|done|done]|].
  intros [?|e]; [by apply triple_ret|]; apply keeps_run_or_spent; intros inv k Hcl.
  apply keeps_bind; [by apply keeps_attempt, keeps_record|intros ?; apply keeps_ret].
Qed.

End approved_schedule.

(** *** The whole poll *)

Hypothesis other_briefings : forall k schedules unsettled,
  desired_briefings env k = Ok (schedules, unsettled) ->
  Forall (fun schedule => ScheduleID schedule <> X) schedules.

(** A claimed schedule is due, and as [X] it carries the call. *)
Definition claimed_as_approved (ref : instant) (schedule : Schedule) : Prop :=
  ScheduleID schedule = X ->
  CarriesAnApprovedCall schedule = true /\ Kind schedule = ScheduleKindOnce /\
  IsScheduleDue schedule ref = true.

Lemma claimable_due ref owner row : claimable ref owner row = true -> IsScheduleDue row ref = true.
Proof.
  unfold claimable, IsScheduleDue, unexpired, scheduleExpired; intros Hc; bool_to_prop.
  destruct (NextRunAt row) as [next|]; [|done].
  destruct (ExpiresAt row) as [e|]; [|by bool_to_prop; apply negb_true_iff].
  match goal with H : After e ref = true |- _ => rewrite H end; rewrite andb_false_r.
  by bool_to_prop; apply negb_true_iff.
Qed.

Lemma triple_claim (E : World -> Prop) inv n limit ref (locked : gset string) :
  closed inv -> IsZero ref = false -> (forall w, kept inv n w -> E w) ->
  triple E (kept inv n) (transact env (fun now st =>
      Ok (ClaimDueSchedules now locked limit scheduleLeaseDuration ref (workerID services) st)))
    (fun rows w => kept inv n w /\ NoDup (ScheduleID <$> rows) /\
       (forall row, row ∈ rows -> claimed_as_approved ref row) /\
       (inv = spent -> forall row, row ∈ rows -> ScheduleID row <> X)).
Proof.
  intros Hcl Hz He; apply triple_transact; [done|apply calm_claim|done|].
  intros now w st' rows (Hs & Hc & Hi & Hn) Hr Hk; split; [done|].
  rewrite ClaimDueSchedules_taken in Hr; injection Hr as _ <-.
  assert (or_now ref now = ref) as -> by (unfold or_now; by rewrite Hz).
  rewrite leased_IDs; split_and!; [by apply taken_NoDup| |].
  - intros row (old & -> & Hold)%list_elem_of_fmap Hid; apply taken_row in Hold as (Hrow & Hcl' & _); [|done].
    change (ScheduleID old = X) in Hid; rewrite Hid in Hrow; pose proof (Hc _ Hrow) as Ha.
    destruct Hs as [Hrows _]; destruct (Hrows _ _ Hrow) as [_ Ho]; split; [exact Ha|split].
    + apply Ho; unfold CarriesAnApprovedCall in Ha; by destruct (ApprovedCall old).
    + exact (claimable_due _ _ _ Hcl').
  - intros -> row (old & -> & Hold)%list_elem_of_fmap Hid; apply taken_row in Hold as (Hrow & Hcl' & _); [|done].
    change (ScheduleID old = X) in Hid; rewrite Hid in Hrow; apply Hi in Hrow.
    unfold claimable in Hcl'; by rewrite Hrow in Hcl'.
Qed.

Lemma keeps_other_schedules inv n rows ref count :
  closed inv -> IsZero ref = false -> (forall row, row ∈ rows -> ScheduleID row <> X) ->
  preserves (kept inv n) (poll_schedules status_text env services rows ref count).
Proof.
  intros Hcl Hz; revert count; induction rows as [|row rows IH]; intros count Hrows; cbn; [apply keeps_ret|].
  apply keeps_bind; [by apply keeps_ask|intros []; [apply keeps_fail|]].
  apply keeps_bind; [apply keeps_other_turn; [done|apply Hrows; by left|done]|].
  intros ran; apply IH; intros row' Hrow'; apply Hrows; by right.
Qed.

Lemma triple_schedules n rows ref count :
  IsZero ref = false -> NoDup (ScheduleID <$> rows) -> (forall row, row ∈ rows -> claimed_as_approved ref row) ->
  triple (run_or_spent n) (kept any n) (poll_schedules status_text env services rows ref count)
    (fun _ => run_or_spent n).
Proof.
  intros Hz; revert count; induction rows as [|row rows IH]; intros count Hnd Hrows; cbn.
  { apply triple_ret; by left. }
  rewrite fmap_cons, NoDup_cons in Hnd; destruct Hnd as [Hrow Hnd].
  apply (triple_bind _ _ (fun _ => kept any n)).
  { eapply triple_ends; [by apply keeps_ask|by left]. }
  intros []; [apply triple_fail; by left|].
  destruct (decide (ScheduleID row = X)) as [He|He].
  - destruct (Hrows row) as (Ha & Ho & Hd); [by left|done|].
    eapply triple_bind; [by apply triple_approved_turn|]; intros ran.
    apply keeps_run_or_spent; intros inv k Hcl; apply keeps_other_schedules; [done..|].
    intros row' Hrow' He'; apply Hrow; rewrite He, <- He'; by apply list_elem_of_fmap_2.
  - apply (triple_bind _ _ (fun _ => kept any n)).
    { eapply triple_ends; [by apply keeps_other_turn|by left]. }
    intros ran; apply IH; [done|]; intros row' Hrow'; apply Hrows; by right.
Qed.

Lemma keeps_reconcile inv n ref :
  closed inv -> preserves (kept inv n)
    (if has_MorningBriefing services then _ ← attempt (Reconcile env ref); mret tt else mret tt).
Proof.
  intros Hcl; destruct (has_MorningBriefing services); [|apply keeps_ret].
  apply keeps_bind; [apply keeps_attempt|intros ?; apply keeps_ret].
  eapply triple_bind; [by apply triple_ask_value|]; intros desired; apply triple_pure; intros [k Hd].
  destruct desired as [[schedules unsettled]|message]; [|apply keeps_fail].
  apply keeps_statement; [done|]; apply calm_reconcile; by eapply other_briefings.
Qed.

Definition claim_due (ref : instant) (limit : Z) : Effect (list Schedule) := fun w =>
  transact env (fun now st => Ok (ClaimDueSchedules now (locked_rows env (steps w)) limit
    scheduleLeaseDuration ref (workerID services) st)) w.

Lemma RunDue_run_or_spent n ref limit :
  IsZero ref = false -> preserves (run_or_spent n) (RunDue status_text env services ref limit).
Proof.
  intros Hz; unfold RunDue; destruct (IsQuiesced env); [apply keeps_ret|].
  apply keeps_bind; [apply keeps_run_or_spent; intros; by apply keeps_reconcile|intros _].
  fold (claim_due ref limit); intros w [Hw|Hw]; revert w Hw.
  - match goal with |- forall w, _ -> ?c => change (triple (run_or_spent n) (kept any n)
      (claim_due ref limit ≫= fun rows => poll_schedules status_text env services rows ref 0)
      (fun _ => run_or_spent n)) end.
    eapply triple_bind.
    + intros w; exact (triple_claim (run_or_spent n) any n limit ref (locked_rows env (steps w))
        closed_any Hz (fun _ Hk => or_introl Hk) w).
    + intros rows w (Hw & Hnd & Hrows & _); by apply (triple_schedules n rows ref 0 Hz Hnd Hrows).
  - match goal with |- forall w, _ -> ?c => change (triple (run_or_spent n) (kept spent (S n))
      (claim_due ref limit ≫= fun rows => poll_schedules status_text env services rows ref 0)
      (fun _ => run_or_spent n)) end.
    eapply triple_bind.
    + intros w; exact (triple_claim (run_or_spent n) spent (S n) limit ref (locked_rows env (steps w))
        closed_spent Hz (fun _ Hk => or_intror Hk) w).
    + intros rows w (Hw & _ & _ & Hrows).
      destruct (keeps_other_schedules spent (S n) rows ref 0 closed_spent Hz (Hrows eq_refl) w Hw) as [He Hq].
      split; [by right|intros a Ha; right; by eapply Hq].
Qed.

End approved_call.

(** ** What a turn decides

    With a database that works, and nobody else at the table, a turn of a due schedule
    comes down to one decision and one transaction. *)

Section decisions.
Context (status_text : TaskStatus -> string) `{TimeZoneDatabase}.

(** What the code under the poller answers in the turn: the agent's launch, the turn
    of a run that is reported and not started, the task run of a message, and the
    failure to fail a task run. *)
Record Answers := MkAnswers {
  answer_launch : result string TurnResult;
  answer_failed : TurnResult;
  answer_message : result string string;
  answer_fail : option string;
}.

Definition advanced (schedule : Schedule) (ref : instant) (taskRunID : string) (reply : option OutboundReply)
  : result PollerError scheduleExecutionResult :=
  next ← scheduled (AdvanceSchedule schedule ref);
  let next := set_LastTaskRunID taskRunID next in
  match reply with
  | None => Ok (did_not_run next)
  | Some reply => Ok (MkExecution next taskRunID reply true)
  end.

Definition decide_outlived (schedule : Schedule) (ref : instant) (turn : TurnResult)
  : result PollerError scheduleExecutionResult :=
  match userNoticeReplyMessage turn with
  | Ok _ => advanced schedule ref (TaskRunID turn) (Some (UserNoticeReply turn (TaskRunID turn)).1)
  | Err _ => advanced schedule ref (TaskRunID turn) None
  end.

Definition decide_agent (schedule : Schedule) (ref : instant) (answers : Answers)
  : result PollerError scheduleExecutionResult :=
  match answer_launch answers with
  | Err message => Err (PollerFailure message)
  | Ok turn =>
    next ← scheduled (AdvanceSchedule schedule ref);
    match scheduledTaskReply status_text turn, answer_fail answers with
    | Ok reply, _ => advanced schedule ref (TaskRunID turn) (Some reply)
    | Err (scheduleTerminalError _), Some failure => Err (PollerFailure failure)
    | Err e, _ => Err e
    end
  end.

Definition decide (schedule : Schedule) (ref : instant) (answers : Answers)
  : result PollerError scheduleExecutionResult :=
  _ ← validateScheduleDeliveryTarget schedule;
  if HasOutlivedItsStartWindow schedule ref then decide_outlived schedule ref (answer_failed answers)
  else if bool_decide (ExecutionMode schedule = ScheduleExecutionModeMessage) then
    match answer_message answers with
    | Err message => Err (PollerFailure message)
    | Ok taskRunID =>
      advanced schedule ref taskRunID (Some (MkReply (Prompt schedule) taskRunID "success" "" "" [] [] "" None))
    end
  else decide_agent schedule ref answers.

(** The notice that the requester gets when a schedule is given up. *)
Definition notified (schedule : Schedule) (e : PollerError) (st : Store) : Store :=
  match e with
  | scheduledRunFailedError _ notice "" =>
    (EnqueueScheduledConnectorReply schedule (Reply_TaskRunID notice) notice st).1
  | _ => st
  end.

(** The decision written down: a reply is queued together with the next run; a failure
    is postponed, or the schedule given up. *)
Definition settled (now : instant) (schedule : Schedule) (ref : instant)
    (decision : result PollerError scheduleExecutionResult) (st : Store) : Store :=
  let rows := with_ID (ScheduleID schedule) in
  match decision with
  | Ok execution =>
    let next := Executed_Schedule execution in
    update_where rows (succeeded_row now next)
      (if DidRun execution then
         enqueueScheduledConnectorReplyWithTransaction next (Executed_TaskRunID execution)
           (TrimSpace (scheduleDeliveryDeduplicationKey schedule)) (normalizedScheduleReply execution) st
       else st)
  | Err e =>
    if scheduleFailureIsTerminal schedule e then
      update_where rows (expired_row (error_message e) ref) (notified schedule e st)
    else
      update_where rows (failed_row (error_message e)
        (Add ref (scheduleRetryDelay (wrap64 (FailureCount schedule + 1)))) ref) st
  end.

Context (env : Environment) (services : Services) (schedule : Schedule) (ref : instant) (answers : Answers).

(** The database is transactional and works, nobody else is at the table, the answers are these, and
    the schedule is due, no morning briefing, and carries no approved call. *)
Record undisturbed : Prop := {
  fate_works k : fate env k = Works;
  alone k : meanwhile env k = [];
  launches k : launch env k schedule =
    match answer_launch answers with Ok turn => Launches turn | Err message => LaunchFails message end;
  fails_without_running k : failed_turn env k schedule = answer_failed answers;
  sends k : message_run env k schedule = answer_message answers;
  fails_run k run message : FailTaskRun env k run message = answer_fail answers;
  not_active k : existsb (fun taskRun =>
    bool_decide (OriginConversationID taskRun = ScheduleSessionID (ScheduleID schedule)) &&
    is_active_run taskRun) (ListTaskRun env k) = false;
  services_there : has_TaskRunService services = true /\ has_DeliveryRepository services = true /\
    is_transactional services = true;
  ordinary : IsMorningBriefing schedule = false /\ CarriesAnApprovedCall schedule = false;
  is_due : IsScheduleDue schedule ref = true;
  ref_given : IsZero ref = false;
}.

Hypothesis (env_works : undisturbed).

(** [m] leaves the table as it is, and ends with [r]. *)
Definition only_answers {A} (m : Effect A) (r : result PollerError A) : Prop := forall w, exists w',
  store w' = store w /\ m w = (w', match r with Ok a => Done a | Err e => Failed e end).

(** [m] ends with [r], and leaves the store [change] makes of it, at some time. *)
Definition ends_with {A} (m : Effect A) (r : result PollerError A) (change : instant -> Store -> Store) : Prop :=
  forall w, exists w' k, store w' = change (clock env k) (store w) /\
    m w = (w', match r with Ok a => Done a | Err e => Failed e end).

Lemma only_answers_bind {A B} (m : Effect A) (k : A -> Effect B) r r' :
  only_answers m r -> (forall a, r = Ok a -> only_answers (k a) (r' a)) -> only_answers (m ≫= k) (r ≫= r').
Proof.
  intros Hm Hk w; destruct (Hm w) as (w1 & H1 & Hr); unfold mbind, Effect_bind; rewrite Hr.
  destruct r as [a|e]; cbn; [|by exists w1].
  destruct (Hk a eq_refl w1) as (w2 & H2 & Hr2); exists w2; split; [congruence|done].
Qed.

Lemma only_answers_then {A B} (m : Effect A) (k : A -> Effect B) a r :
  only_answers m (Ok a) -> only_answers (k a) r -> only_answers (m ≫= k) r.
Proof.
  intros Hm Hk; apply (only_answers_bind m k (Ok a) (fun _ => r) Hm); by intros a' [= <-].
Qed.

Lemma only_answers_Err {A B} (m : Effect A) (k : A -> Effect B) e :
  only_answers m (Err e) -> only_answers (m ≫= k) (Err e).
Proof. intros Hm; by apply (only_answers_bind m k (Err e) (fun _ => Err e) Hm). Qed.

Lemma ends_with_bind {A B} (m : Effect A) (k : A -> Effect B) a r change :
  only_answers m (Ok a) -> ends_with (k a) r change -> ends_with (m ≫= k) r change.
Proof.
  intros Hm Hk w; destruct (Hm w) as (w1 & H1 & Hr); unfold mbind, Effect_bind; rewrite Hr.
  destruct (Hk w1) as (w2 & i & H2 & Hr2); exists w2, i; split; [congruence|done].
Qed.

Lemma only_answers_ret {A} (a : A) : only_answers (mret a) (Ok a).
Proof. intros w; by exists w. Qed.

Lemma only_answers_fail {A} e : only_answers (fail (A := A) e) (Err e).
Proof. intros w; by exists w. Qed.

Lemma only_answers_lift {A} (r : result PollerError A) : only_answers (lift r) r.
Proof. intros w; exists w; by destruct r. Qed.

Lemma only_answers_ask {A} (question : nat -> A) a : (forall k, question k = a) -> only_answers (ask env question) (Ok a).
Proof.
  intros Hq w; eexists; split; [|unfold ask, next_step; by rewrite Hq]; cbn.
  by rewrite (alone env_works).
Qed.

Lemma ends_with_transact {A} (change : instant -> Store -> result StoreError (Store * A)) a (f : instant -> Store -> Store) :
  (forall now st, change now st = Ok (f now st, a)) -> ends_with (transact env change) (Ok a) f.
Proof.
  intros Hf w; unfold transact, next_step; rewrite (alone env_works), (fate_works env_works), Hf; cbn.
  eexists _, (steps w); split; [|reflexivity]; reflexivity.
Qed.

Lemma only_answers_Advance : only_answers (AdvanceSchedule_ schedule ref) (scheduled (AdvanceSchedule schedule ref)).
Proof. apply only_answers_lift. Qed.

Lemma Launch_answers :
  only_answers (Launch env schedule) (map_error PollerFailure (answer_launch answers)).
Proof.
  intros w; eexists; split; [|unfold Launch, next_step; rewrite (launches env_works);
    destruct (answer_launch answers); reflexivity]; cbn; by rewrite (alone env_works).
Qed.

Lemma advancedPast_answers turn :
  only_answers (advancedPast schedule ref turn)
    (next ← scheduled (AdvanceSchedule schedule ref);
     Ok (MkRunResult (set_LastTaskRunID (TaskRunID turn) next) (Some turn))).
Proof. apply only_answers_bind; [apply only_answers_Advance|intros next _; apply only_answers_ret]. Qed.

Lemma RunIfDue_answers :
  only_answers (RunIfDue env schedule ref)
    (turn ← map_error PollerFailure (answer_launch answers);
     next ← scheduled (AdvanceSchedule schedule ref);
     Ok (MkRunResult (set_LastTaskRunID (TaskRunID turn) next) (Some turn))).
Proof.
  unfold RunIfDue; apply (only_answers_then _ _ ref).
  { apply only_answers_ask; intros k; unfold or_now; by rewrite (ref_given env_works). }
  rewrite (is_due env_works); cbn [negb]; apply (only_answers_then _ _ false).
  { apply only_answers_ask; intros k; by rewrite (proj1 (ordinary env_works)). }
  apply only_answers_bind; [apply Launch_answers|intros turn _; apply advancedPast_answers].
Qed.

Lemma executeAgent_answers :
  only_answers (executeAgentSchedule status_text env services schedule ref) (decide_agent schedule ref answers).
Proof.
  unfold executeAgentSchedule, decide_agent; pose proof RunIfDue_answers as Hrun.
  destruct (answer_launch answers) as [turn|message]; cbn [map_error mbind result_mbind] in Hrun.
  2: { by apply only_answers_Err. }
  unfold advanced; destruct (scheduled (AdvanceSchedule schedule ref)) as [next|e]; cbn [mbind result_mbind] in *.
  2: { by apply only_answers_Err. }
  eapply only_answers_then; [exact Hrun|]; cbn [Run_Turn Run_Schedule].
  destruct (scheduledTaskReply status_text turn) as [reply|e]; [apply only_answers_ret|].
  destruct e; cbn [fail_interaction]; try apply only_answers_fail.
  rewrite (proj1 (services_there env_works)); cbn [negb].
  eapply only_answers_then; [apply only_answers_ask; intros k; apply (fails_run env_works)|].
  destruct (answer_fail answers); apply only_answers_fail.
Qed.

Lemma userNoticeReplyMessage_reason turn reason : userNoticeReplyMessage turn = Err reason -> reason <> "".
Proof.
  unfold userNoticeReplyMessage; intros Hr.
  repeat (split_match_in Hr; try done); by injection Hr as <-.
Qed.

Lemma reportOutlived_answers :
  only_answers (reportOutlivedStartWindow env schedule ref) (decide_outlived schedule ref (answer_failed answers)).
Proof.
  set (turn := answer_failed answers).
  assert (Hrun : only_answers (ReportOutlivedStartWindow env schedule ref)
    (next ← scheduled (AdvanceSchedule schedule ref);
     Ok (MkRunResult (set_LastTaskRunID (TaskRunID turn) next) (Some turn)))).
  { eapply only_answers_then; [apply only_answers_ask; intros k; apply (fails_without_running env_works)|].
    apply advancedPast_answers. }
  unfold reportOutlivedStartWindow, decide_outlived, UserNoticeReply, advanced.
  destruct (scheduled (AdvanceSchedule schedule ref)) as [next|e]; cbn [mbind result_mbind] in *.
  2: { destruct (userNoticeReplyMessage turn); by apply only_answers_Err. }
  destruct (userNoticeReplyMessage turn) as [[message notice]|reason] eqn:Hn;
    (eapply only_answers_then; [exact Hrun|]); cbn [Run_Turn Run_Schedule]; rewrite Hn.
  - apply only_answers_ret.
  - rewrite bool_decide_false by (by eapply userNoticeReplyMessage_reason); apply only_answers_ret.
Qed.

Lemma executeMessage_answers :
  only_answers (executeMessageSchedule env services schedule ref)
    (match answer_message answers with
     | Err message => Err (PollerFailure message)
     | Ok taskRunID =>
       advanced schedule ref taskRunID (Some (MkReply (Prompt schedule) taskRunID "success" "" "" [] [] "" None))
     end).
Proof.
  unfold executeMessageSchedule; rewrite (is_due env_works), (proj1 (services_there env_works)); cbn [negb].
  eapply only_answers_then; [apply only_answers_ask; intros k; apply (sends env_works)|].
  destruct (answer_message answers); [|apply only_answers_fail].
  apply only_answers_bind; [apply only_answers_Advance|intros next _; apply only_answers_ret].
Qed.

Lemma executeSchedule_answers :
  only_answers (_ ← lift (validateScheduleDeliveryTarget schedule);
                _ ← spendAnApprovedCallBeforeItRuns env schedule ref;
                executeSchedule status_text env services schedule ref)
    (decide schedule ref answers).
Proof.
  apply only_answers_bind; [apply only_answers_lift|intros _ _].
  apply (only_answers_then _ _ tt).
  { unfold spendAnApprovedCallBeforeItRuns; rewrite (proj2 (ordinary env_works)); apply only_answers_ret. }
  unfold executeSchedule; destruct (HasOutlivedItsStartWindow schedule ref); [apply reportOutlived_answers|].
  case_bool_decide; [apply executeMessage_answers|apply executeAgent_answers].
Qed.

Lemma can_run_answers : only_answers (canRunMorningBriefing env services schedule) (Ok (Ok true)).
Proof.
  unfold canRunMorningBriefing; destruct (has_MorningBriefing services); cbn [negb]; [|apply only_answers_ret].
  apply only_answers_ask; intros k; by rewrite (proj1 (ordinary env_works)).
Qed.

(** The decision says whose row is written. *)
Lemma decide_schedule execution :
  decide schedule ref answers = Ok execution ->
  ScheduleID (Executed_Schedule execution) = ScheduleID schedule /\
  CreatorPersonID (Executed_Schedule execution) = CreatorPersonID schedule.
Proof.
  assert (Hadv : forall run reply, advanced schedule ref run reply = Ok execution ->
    ScheduleID (Executed_Schedule execution) = ScheduleID schedule /\
    CreatorPersonID (Executed_Schedule execution) = CreatorPersonID schedule).
  { unfold advanced, scheduled; intros run reply Ha; apply bind_Ok in Ha as (next & Hn & Ha).
    apply map_error_Ok, AdvanceSchedule_cases in Hn as [Hn _].
    assert (ScheduleID next = ScheduleID schedule /\ CreatorPersonID next = CreatorPersonID schedule)
      by (rewrite Hn; done).
    destruct reply; by injection Ha as <-. }
  unfold decide, decide_outlived, decide_agent; intros Hd; apply bind_Ok in Hd as (? & _ & Hd).
  repeat split_match_in Hd; try discriminate Hd; try exact (Hadv _ _ Hd).
  all: apply bind_Ok in Hd as (next & _ & Hd); repeat split_match_in Hd.
  all: first [discriminate Hd|exact (Hadv _ _ Hd)].
Qed.

Lemma settle_ordinary s set st :
  IsMorningBriefing s = false -> settle_row s set st = Ok (update_where (with_ID (ScheduleID s)) set st).
Proof.
  unfold settle_row; intros Hb; rewrite Hb; cbn [andb]; f_equal.
  unfold update_where, set_table; f_equal; apply map_eq; intros id; rewrite !map_lookup_imap.
  destruct (table st !! id); [|done]; cbn; unfold settles; by rewrite Hb, orb_true_l, andb_true_r.
Qed.

(** What follows the execution. *)
Definition after_execution (execution : scheduleExecutionResult) : Effect unit :=
  if negb (DidRun execution) then mark_succeeded env (Executed_Schedule execution) else
  unless_paused env services schedule (Executed_Schedule execution)
    (markScheduleSucceededAndEnqueueReply env services schedule execution).

Lemma runSchedule_split w :
  runSchedule status_text env services schedule ref w =
  (canRun ← canRunMorningBriefing env services schedule;
   match canRun with
   | Err message => pauseMorningBriefing env schedule (Some message)
   | Ok false => pauseMorningBriefing env schedule None
   | Ok true =>
     (_ ← lift (validateScheduleDeliveryTarget schedule);
      _ ← spendAnApprovedCallBeforeItRuns env schedule ref;
      executeSchedule status_text env services schedule ref) ≫= after_execution
   end) w.
Proof.
  unfold runSchedule, unless_paused, mbind, Effect_bind.
  destruct (canRunMorningBriefing env services schedule w) as [w1 [[[]|]| |]]; try done.
  destruct (lift (validateScheduleDeliveryTarget schedule) w1) as [w2 [[]| |]]; try done.
  destruct (spendAnApprovedCallBeforeItRuns env schedule ref w2) as [w3 [[]| |]]; try done.
Qed.

Lemma key_given : TrimSpace (scheduleDeliveryDeduplicationKey schedule) <> "".
Proof. by apply TrimSpace_solid_head. Qed.

Lemma after_execution_settles execution :
  decide schedule ref answers = Ok execution ->
  ends_with (after_execution execution) (Ok tt) (fun now => settled now schedule ref (Ok execution)).
Proof.
  intros Hd; apply decide_schedule in Hd as [Hid Hcr].
  assert (Hb : IsMorningBriefing (Executed_Schedule execution) = false).
  { unfold IsMorningBriefing; rewrite Hid, Hcr; apply (proj1 (ordinary env_works)). }
  unfold after_execution, settled; cbn zeta; rewrite <- Hid; destruct (DidRun execution) eqn:Hran; cbn [negb].
  - eapply ends_with_bind; [apply can_run_answers|]; cbn iota.
    unfold markScheduleSucceededAndEnqueueReply; rewrite (proj2 (proj2 (services_there env_works))).
    intros w; edestruct (ends_with_transact (fun now => MarkScheduleSucceededAndEnqueueDelivery now
      (Executed_Schedule execution) (Executed_TaskRunID execution)
      (scheduleDeliveryDeduplicationKey schedule) (normalizedScheduleReply execution))) as (w' & k & Hw & Hr).
    { intros now st; unfold MarkScheduleSucceededAndEnqueueDelivery.
      rewrite bool_decide_false by apply key_given; rewrite Hb; reflexivity. }
    exists w', k; split; [exact Hw|]; unfold mbind, Effect_bind; by rewrite Hr.
  - apply ends_with_transact; intros now st; unfold MarkScheduleSucceeded.
    by rewrite settle_ordinary.
Qed.

Lemma runSchedule_settles execution :
  decide schedule ref answers = Ok execution ->
  ends_with (runSchedule status_text env services schedule ref) (Ok tt)
    (fun now => settled now schedule ref (Ok execution)).
Proof.
  intros Hd w; rewrite runSchedule_split; revert w.
  match goal with |- forall w, exists w' k, _ /\ ?m w = _ => change (ends_with m (Ok tt)
    (fun now => settled now schedule ref (Ok execution))) end.
  eapply ends_with_bind; [apply can_run_answers|]; cbn iota.
  eapply ends_with_bind; [rewrite <- Hd; apply executeSchedule_answers|by apply after_execution_settles].
Qed.

Lemma runSchedule_fails e :
  decide schedule ref answers = Err e ->
  only_answers (runSchedule status_text env services schedule ref) (Err e).
Proof.
  intros Hd w; rewrite runSchedule_split; revert w.
  match goal with |- forall w, exists w', _ /\ ?m w = _ => change (only_answers m (Err e)) end.
  eapply only_answers_then; [apply can_run_answers|]; cbn iota.
  apply only_answers_Err; rewrite <- Hd; apply executeSchedule_answers.
Qed.

Lemma notified_tells e w :
  exists w', store w' = notified schedule e (store w) /\
    tellTheRequesterTheScheduleGaveUp env services schedule e w = (w', Done tt).
Proof.
  destruct e as [|message notice reason| | |]; try by exists w.
  destruct reason as [|a reason]; [|by exists w]; cbn [tellTheRequesterTheScheduleGaveUp notified].
  rewrite bool_decide_true by done; cbn [negb]; unfold enqueuePreparedScheduleReply.
  rewrite (proj1 (proj2 (services_there env_works))); cbn [negb].
  destruct (ends_with_transact (fun _ st => Ok (EnqueueScheduledConnectorReply schedule (Reply_TaskRunID notice) notice st))
    ("schedule:" +:+ ScheduleID schedule +:+ ":task:" +:+ Reply_TaskRunID notice)
    (fun _ st => (EnqueueScheduledConnectorReply schedule (Reply_TaskRunID notice) notice st).1)
    (fun now st => eq_refl) w) as (w' & k & Hw & Hr).
  exists w'; split; [exact Hw|]; unfold mbind, Effect_bind, attempt; by rewrite Hr.
Qed.

Lemma recordScheduleFailure_settles e :
  ends_with (recordScheduleFailure env services schedule e ref) (Ok tt)
    (fun now => settled now schedule ref (Err e)).
Proof.
  assert (Hor : forall now, or_now ref now = ref) by (intros; unfold or_now; by rewrite (ref_given env_works)).
  unfold recordScheduleFailure, settled; rewrite (proj1 (ordinary env_works)); cbn [andb].
  destruct (scheduleFailureIsTerminal schedule e).
  - intros w; destruct (notified_tells e w) as (w1 & H1 & Hr1); unfold mbind, Effect_bind; rewrite Hr1, <- H1.
    exact (ends_with_transact (fun now st => st' ← Ok (ExpireSchedule now schedule (error_message e) ref st);
      Ok (st', tt)) tt (fun _ => update_where (with_ID (ScheduleID schedule)) (expired_row (error_message e) ref))
      ltac:(intros now st; unfold ExpireSchedule; by rewrite Hor) w1).
  - apply ends_with_transact; intros now st; unfold MarkScheduleFailed.
    by rewrite settle_ordinary, Hor by apply (proj1 (ordinary env_works)).
Qed.

Lemma poll_schedule_settles :
  ends_with (poll_schedule status_text env services schedule ref) (Ok (is_ok (decide schedule ref answers)))
    (fun now => settled now schedule ref (decide schedule ref answers)).
Proof.
  unfold poll_schedule, hasActiveScheduleRun; rewrite (proj1 (services_there env_works)); cbn [negb].
  eapply ends_with_bind; [apply only_answers_ask; intros k; apply (not_active env_works)|]; cbn iota.
  destruct (decide schedule ref answers) as [execution|e] eqn:Hd; cbn [is_ok].
  - intros w; destruct (runSchedule_settles _ Hd w) as (w' & k & Hw & Hr); exists w', k; split; [done|].
    unfold mbind, Effect_bind, attempt; by rewrite Hr.
  - eapply (ends_with_bind _ _ (Err e)).
    { intros w; destruct (runSchedule_fails _ Hd w) as (w' & Hw & Hr); exists w'; split; [done|].
      unfold attempt; by rewrite Hr. }
    intros w; destruct (recordScheduleFailure_settles e w) as (w' & k & Hw & Hr); exists w', k; split; [done|].
    unfold mbind, Effect_bind, attempt; by rewrite Hr.
Qed.

End decisions.

(** ** Properties *)

(** What happens to the world one poll after the other, by any environments, with the
    operations of other sessions between and during the polls. *)
Inductive polls `{TimeZoneDatabase} (X : string) : World -> World -> Prop :=
| polls_end w : polls X w w
| polls_sessions ops w w' :
    forallb (session_op X) ops = true ->
    polls X (with_store (apply_all ops (store w)) w) w' -> polls X w w'
| polls_poll status_text env services ref limit w w' :
    (forall k, forallb (session_op X) (meanwhile env k) = true) ->
    (forall k schedules unsettled, desired_briefings env k = Ok (schedules, unsettled) ->
      Forall (fun schedule => ScheduleID schedule <> X) schedules) ->
    IsZero ref = false ->
    polls X (RunDue status_text env services ref limit w).1 w' -> polls X w w'.

(** C1. A schedule that carries an approved call starts its agent at most once more,
    through any sequence of polls: whether statements of the database fail, work and
    are reported as failed, or the process dies before or after any of them or while
    the agent runs and polls again, and whatever people do to schedules meanwhile. *)
Theorem approved_calls_run_once `{TimeZoneDatabase} X w w' :
  sound (store w) -> carries X (store w) -> polls X w w' ->
  (run_count X w' <= S (run_count X w))%nat.
Proof.
  intros Hs Hc Hp; set (n := run_count X w).
  assert (Hw : run_or_spent X n w) by (left; split_and!; done).
  clearbody n; clear Hs Hc; induction Hp as [w|ops w w' Hops _ IH|status env services ref limit w w' Hm Hb Hz _ IH].
  - destruct Hw as [(_ & _ & _ & ?)|(_ & _ & _ & ?)]; lia.
  - apply IH; destruct Hw as [Hw|Hw]; [left|right]; pose proof Hw as (Hs & Hc & _);
      destruct (session_ops_calm X ops (store w) Hops Hs Hc) as [? ?];
      (eapply kept_calm; [|exact Hw|done|done]); [apply closed_any|apply closed_spent].
  - apply IH; by apply (RunDue_run_or_spent status env services X Hm Hb n ref limit Hz).
Qed.

(** *** A poll on a table *)

Definition approved_schedule : Schedule :=
  set_ApprovedCall (Some (Build_ScheduleApprovedCall "host_update" "{}" "person-1" (500 * Second) "run-1"))
    (set_Kind ScheduleKindOnce (set_RunAt (Some (1000 * Second)) (set_IntervalSecond 0 stored_schedule))).

Definition world_of (s : Schedule) : World :=
  MkWorld (set_table <[ScheduleID s := s]> empty_store) [] 0.

Definition failed_answer : TurnResult :=
  MkTurnResult (MkTaskRun "run-2" "" TaskStatusFailed zero_time "" "" "no model" "" "" false) "" "" "" "The run failed." [] [].

Definition completed_answer : TurnResult :=
  MkTurnResult (MkTaskRun "run-2" "" TaskStatusCompleted zero_time "" "" "" "" "" false) "" "All plants are watered." "" "" [] [].

(** An environment that answers the same at each step. *)
Definition steady (outcome : LaunchOutcome) (now : nat -> instant) : Environment :=
  MkEnvironment (fun _ => []) now (fun _ => Works) (fun _ => ∅) (fun _ => false) false
    (fun _ _ => outcome) (fun _ _ => failed_answer) (fun _ _ => false) (fun _ _ => Ok true)
    (fun _ => Err "") (fun _ _ => Err "") (fun _ _ _ => None) (fun _ => []).

Definition all_services : Services := MkServices true true false true true "".

Definition no_status_text (_ : TaskStatus) : string := "".

Definition poll_once (outcome : LaunchOutcome) (ref : instant) (w : World) : World :=
  (@RunDue no_status_text utc_only (steady outcome (fun _ => ref)) all_services ref 10 w).1.

Lemma approved_calls_run_once_witness :
  let w := world_of approved_schedule in
  let w1 := poll_once LaunchCrashes (1001 * Second) w in
  let w2 := poll_once (Launches completed_answer) (3000 * Second) w1 in
  run_count "id-1" w1 = 1%nat /\ (run_count "id-1" w2 <= 1)%nat.
Proof.
  intros w w1 w2; split; [vm_compute; reflexivity|].
  change 1%nat with (S (run_count "id-1" w)); apply (@approved_calls_run_once utc_only "id-1" w w2).
  - split; [|by intros ? ?]; intros id row Hrow; cbn in Hrow.
    apply lookup_insert_Some in Hrow as [[<- <-]|[_ ?]]; [|done]; by split.
  - intros row Hrow; cbn in Hrow; rewrite lookup_insert_eq in Hrow; injection Hrow as <-; reflexivity.
  - apply (polls_poll "id-1" no_status_text (steady LaunchCrashes (fun _ => 1001 * Second)) all_services
      (1001 * Second) 10); [done..|reflexivity|].
    apply (polls_poll "id-1" no_status_text (steady (Launches completed_answer) (fun _ => 3000 * Second))
      all_services (3000 * Second) 10); [done..|reflexivity|]; apply polls_end.
Defined.

(** C5. With a transactional database that works and nobody else at the table, the turn of a due
    schedule that is no morning briefing and carries no approved call is one decision: a function
    of the schedule, the time of the poll and what the agent answered.  After the turn the store
    is what that decision makes of the store before it, at one instant: the reply and the next run, or
    the failure and when to try again, or the end of the schedule and, where it is given up
    with a notice, the notice; and the turn is reported done as the decision is. *)
Theorem turns_settle_as_decided `{TimeZoneDatabase} status_text env services schedule ref answers w :
  undisturbed env services schedule ref answers ->
  let decision := decide status_text schedule ref answers in
  exists w' now, store w' = settled now schedule ref decision (store w) /\
    poll_schedule status_text env services schedule ref w = (w', Done (is_ok decision)).
Proof.
  intros Hu decision; destruct (poll_schedule_settles status_text env services schedule ref answers Hu w)
    as (w' & k & Hw & Hr).
  exists w', (clock env k); split; [exact Hw|exact Hr].
Qed.

(** The answers of [steady (Launches turn)]. *)
Definition answers_of (launched : result string TurnResult) : Answers :=
  MkAnswers launched failed_answer (Err "") None.

Lemma steady_undisturbed outcome launched now schedule ref :
  outcome = match launched with Ok turn => Launches turn | Err message => LaunchFails message end ->
  IsMorningBriefing schedule = false -> CarriesAnApprovedCall schedule = false ->
  IsScheduleDue schedule ref = true -> IsZero ref = false ->
  undisturbed (steady outcome now) all_services schedule ref (answers_of launched).
Proof. intros -> Hb Hc Hd Hz; by split. Qed.

Lemma turns_settle_as_decided_witness :
  let env := steady (Launches completed_answer) (fun _ => 1500 * Second) in
  let w := world_of stored_schedule in
  let decision := @decide no_status_text utc_only stored_schedule (1500 * Second) (answers_of (Ok completed_answer)) in
  is_ok decision = true /\
  exists w' now, store w' = settled now stored_schedule (1500 * Second) decision (store w) /\
    @poll_schedule no_status_text utc_only env all_services stored_schedule (1500 * Second) w =
      (w', Done (is_ok decision)).
Proof.
  intros env w decision; split; [vm_compute; reflexivity|].
  apply (@turns_settle_as_decided utc_only no_status_text env all_services stored_schedule (1500 * Second)
    (answers_of (Ok completed_answer)) w).
  by apply steady_undisturbed; [..|vm_compute; reflexivity|].
Defined.

(** Turns of one schedule that fail one after the other.  Between two of them the
    table may change, but the schedule's failures stay counted and it is not started
    again once it has no next run. *)
Inductive failed_turns `{TimeZoneDatabase} (id : string) : nat -> Store -> Store -> Prop :=
| no_turn st : failed_turns id 0 st st
| between_turns n st1 st2 st3 :
    (forall row2, table st2 !! id = Some row2 -> exists row1, table st1 !! id = Some row1 /\
      FailureCount row2 = FailureCount row1 /\ (NextRunAt row1 = None -> NextRunAt row2 = None)) ->
    failed_turns id n st2 st3 -> failed_turns id n st1 st3
| one_more_turn n status_text env services schedule ref answers e w row st' :
    undisturbed env services schedule ref answers ->
    decide status_text schedule ref answers = Err e ->
    ScheduleID schedule = id -> table (store w) !! id = Some row ->
    FailureCount schedule = FailureCount row -> NextRunAt schedule = NextRunAt row ->
    failed_turns id n (store (poll_schedule status_text env services schedule ref w).1) st' ->
    failed_turns id (S n) (store w) st'.

(** The schedule has ended, or has failed at least [c] times and fewer than five. *)
Definition failed_at_least (id : string) (c : Z) (st : Store) : Prop :=
  forall row, table st !! id = Some row -> NextRunAt row = None \/ c <= FailureCount row < 5.

Lemma failure_counts schedule ref now e st row c :
  table st !! ScheduleID schedule = Some row -> FailureCount schedule = FailureCount row ->
  0 <= c <= FailureCount row -> FailureCount row < 5 ->
  failed_at_least (ScheduleID schedule) (c + 1) (settled now schedule ref (Err e) st).
Proof.
  intros Hrow Hf Hc H5 row' Hrow'; unfold settled in Hrow'.
  assert (Hn : table (notified schedule e st) = table st).
  { destruct e as [|message notice [|]| | |]; done. }
  destruct (scheduleFailureIsTerminal schedule e) eqn:Ht; rewrite update_where_lookup in Hrow';
    [rewrite Hn in Hrow'|]; rewrite Hrow in Hrow'; injection Hrow' as <-; unfold with_ID;
    rewrite bool_decide_true by done; [by left|right].
  unfold scheduleFailureIsTerminal, maxScheduleFailureCount in Ht; bool_to_prop.
  rewrite Hf, wrap64_id in * by (unfold int64_min, int64_max; lia); cbn; lia.
Qed.

Lemma failed_turns_count `{TimeZoneDatabase} id n st st' :
  failed_turns id n st st' -> forall c, 0 <= c <= 5 -> failed_at_least id c st ->
  (forall row, table st !! id = Some row -> NextRunAt row <> None -> c + Z.of_nat n <= 5) /\
  failed_at_least id (c + Z.of_nat n) st' /\ (n = 0%nat \/ c + Z.of_nat n <= 5).
Proof.
  intros Hf; induction Hf as [st|n st1 st2 st3 Hb _ IH|n status env services s ref answers e w row st' Hu Hd Hid Hrow Hc Hr Hf IH];
    intros c Hcb Hst.
  - rewrite Z.add_0_r; split_and!; [lia|done|by left].
  - destruct (IH c Hcb) as (H1 & H2 & H3).
    { intros row2 (row1 & Hrow1 & Hf1 & Hn1)%Hb; destruct (Hst _ Hrow1) as [Hn|Hn]; [left; auto|right; lia]. }
    split_and!; [|done|done]; intros row Hrow Hnext; destruct H3 as [->|H3]; lia.
  - destruct (poll_schedule_settles status env services s ref answers Hu w) as (w' & k & Hw & Hp).
    rewrite Hp, Hd in *; cbn [fst] in *.
    assert (Hdue : NextRunAt row <> None).
    { pose proof (is_due _ _ _ _ _ Hu) as Hdue; unfold IsScheduleDue in Hdue; rewrite Hr in Hdue.
      by destruct (scheduleExpired s ref), (NextRunAt row). }
    destruct (Hst _ Hrow) as [?|H5]; [done|]; rewrite <- Hid in Hrow.
    pose proof (failure_counts s ref (clock env k) e (store w) row c Hrow Hc ltac:(lia) ltac:(lia)) as Hnext.
    rewrite <- Hw, Hid in Hnext; destruct (IH (c + 1) ltac:(lia) Hnext) as (_ & H2 & H3).
    replace (c + Z.of_nat (S n)) with (c + 1 + Z.of_nat n) by lia.
    assert (c + 1 + Z.of_nat n <= 5) by (destruct H3 as [->|?]; lia).
    split_and!; [done|done|by right].
Qed.

(** A schedule whose runs fail is given up: starting from no failure it fails at
    most five times in a row, whatever the errors and the time between the polls, and
    after the fifth failure it has no next run, and so is not claimed again. *)
Theorem failing_schedules_are_given_up `{TimeZoneDatabase} id n st st' :
  (forall row, table st !! id = Some row -> FailureCount row = 0) ->
  failed_turns id n st st' ->
  (n <= 5)%nat /\
  (n = 5%nat -> forall row ref owner, table st' !! id = Some row ->
    NextRunAt row = None /\ claimable ref owner row = false).
Proof.
  intros H0 Hf; destruct (failed_turns_count _ _ _ _ Hf 0) as (_ & Hend & Hn); [lia| |].
  { intros row Hrow; right; rewrite (H0 _ Hrow); lia. }
  split; [destruct Hn; lia|]; intros -> row ref owner Hrow.
  destruct (Hend _ Hrow) as [Hnone|?]; [|lia]; split; [done|]; unfold claimable; by rewrite Hnone.
Qed.

(** Five turns of the same schedule, as its row counts the failures. *)
Definition failing_turn (st : Store) : Store :=
  match table st !! "id-1" with
  | None => st
  | Some row => store (@poll_schedule no_status_text utc_only (steady (LaunchFails "no model") (fun _ => 1500 * Second))
      all_services row (1500 * Second) (MkWorld st [] 0)).1
  end.

Lemma failing_schedules_are_given_up_witness :
  let st := store (world_of stored_schedule) in
  (5 <= 5)%nat /\
  (5%nat = 5%nat -> forall row ref owner, table (Nat.iter 5 failing_turn st) !! "id-1" = Some row ->
    NextRunAt row = None /\ claimable ref owner row = false).
Proof.
  intros st; apply (@failing_schedules_are_given_up utc_only "id-1" 5 st).
  - intros row Hrow; cbn in Hrow; rewrite lookup_insert_eq in Hrow; injection Hrow as <-; reflexivity.
  - cbn [Nat.iter].
    assert (Hturn : forall n st1 st2 row e, table st1 !! "id-1" = Some row ->
      ScheduleID row = "id-1" -> IsMorningBriefing row = false -> CarriesAnApprovedCall row = false ->
      IsScheduleDue row (1500 * Second) = true ->
      @decide no_status_text utc_only row (1500 * Second) (answers_of (Err "no model")) = Err e ->
      @failed_turns utc_only "id-1" n (failing_turn st1) st2 -> @failed_turns utc_only "id-1" (S n) st1 st2).
    { intros n st1 st2 row e Hrow Hid Hb Hc Hd He Hf; unfold failing_turn in Hf; rewrite Hrow in Hf.
      eapply (@one_more_turn utc_only "id-1" n no_status_text (steady (LaunchFails "no model") (fun _ => 1500 * Second))
        all_services row (1500 * Second) (answers_of (Err "no model")) e (MkWorld st1 [] 0) row st2);
        [by apply steady_undisturbed|done..]. }
    do 5 (eapply Hturn; [vm_compute; reflexivity..|]); apply no_turn.
Defined.

(** ** Where the code departs from what it means *)

(** An approved call whose run fails is not tried again and nobody is told: the row has
    no next run, the failure counts as one to retry, and the outbox stays empty. *)
Lemma failed_approved_call_is_silent :
  let w := poll_once (Launches failed_answer) (1001 * Second) (world_of approved_schedule) in
  run_count "id-1" w = 1%nat /\ outbox (store w) = ∅ /\
  (fun row => (NextRunAt row, FailureCount row, ExpiresAt row)) <$> table (store w) !! "id-1" =
    Some (None, 1, None).
Proof. split_and!; vm_compute; reflexivity. Qed.

(** The window is judged by the time of the poll, not of the run: behind a run that
    takes half an hour the next one starts half an hour late. *)
Lemma second_run_starts_late :
  let second := MkSchedule "id-2" "person-1" "stretch" "stretch" ScheduleExecutionModeAgent
    "default" "slack" "C1" "1700.1" "UTC" ScheduleKindInterval None 3600 "" 0 0 None
    (Some (1000 * Second)) None "" "" None 0 "" (Some (1000 * Second)) None (1000 * Second) (1000 * Second) in
  let st := set_table (fun t => <["id-2" := second]> (<["id-1" := stored_schedule]> t)) empty_store in
  let clock k := if (k <=? 9)%nat then 1001 * Second else 1001 * Second + 30 * Minute in
  let w := (@RunDue no_status_text utc_only (steady (Launches completed_answer) clock) all_services
    (1001 * Second) 10 (MkWorld st [] 0)).1 in
  launched w = [("id-1", Some (1000 * Second), 1001 * Second);
                ("id-2", Some (1000 * Second), 1001 * Second + 30 * Minute)] /\
  ScheduledRunStartWindow < Sub (1001 * Second + 30 * Minute) (1000 * Second).
Proof. split; vm_compute; reflexivity. Qed.

(** A change of the cadence while the agent runs is overwritten in part: the next run
    is the one of the old cadence. *)
Lemma update_during_a_run_is_overwritten :
  let update := UpdateInput.MkScheduleUpdateInput None None None None None None (Some 600) None None None
    (Some "unbounded") in
  let op := OpUpdate (1100 * Second) "id-1" "person-1" update "UTC" (1100 * Second) in
  let env := MkEnvironment (fun k => if (k =? 6)%nat then [op] else []) (fun _ => 1200 * Second)
    (fun _ => Works) (fun _ => ∅) (fun _ => false) false (fun _ _ => Launches completed_answer)
    (fun _ _ => failed_answer) (fun _ _ => false) (fun _ _ => Ok true) (fun _ => Err "") (fun _ _ => Err "")
    (fun _ _ _ => None) (fun _ => []) in
  let st := store (@RunDue no_status_text utc_only env all_services (1001 * Second) 10 (world_of stored_schedule)).1 in
  (fun row => (IntervalSecond row, NextRunAt row)) <$> table (@apply utc_only op (store (world_of stored_schedule))) !! "id-1" =
    Some (600, Some (1100 * Second)) /\
  (fun row => (IntervalSecond row, NextRunAt row)) <$> table st !! "id-1" =
    Some (600, Some (1001 * Second + 3600 * Second)).
Proof. split; vm_compute; reflexivity. Qed.
