(* ===== verification/WaitTokens.v ===== *)
(** * Open questions of a task: the in-memory repository of wait tokens
    ([task_wait_token_repository.go]). *)

From S2P Require Export GoTime.

(** ** Data *)

(** The fields of a [TaskWaitToken] (a type of the protocol library) that the
    repository reads or writes. *)
Record TaskWaitToken := MkToken {
  WaitID : string;
  TaskRunID : string;
  PersonID : string;
  Platform : string;
  ConversationID : string;
  ReplyTargetID : string;
  ThreadRootID : string;
  DispatchID : string;
  InteractionID : string;
  Kind : string;
  State : string;
  ExpiresAt : instant;
  CreatedAt : instant;
  ResolvedAt : option instant;
}.

(** The map of [InMemoryTaskWaitTokenRepository]. *)
Definition NewInMemoryTaskWaitTokenRepository : gmap string TaskWaitToken := ∅.

(** One turn of a [range] over the map: what [time.Now()] reads then, the key
    and the token. *)
Definition turn : Type := instant * (string * TaskWaitToken).

(** Go visits the entries of a map once each, in an order it does not tell. *)
Definition ranges_over (r : gmap string TaskWaitToken) (turns : list turn) : Prop :=
  turns.*2 ≡ₚ map_to_list r.

(** ** Operations *)

Definition normalizeTaskWaitToken (now : instant) (t : TaskWaitToken) : TaskWaitToken :=
  {| WaitID := TrimSpace (WaitID t);
     TaskRunID := TrimSpace (TaskRunID t);
     PersonID := TrimSpace (PersonID t);
     Platform := TrimSpace (Platform t);
     ConversationID := TrimSpace (ConversationID t);
     ReplyTargetID := TrimSpace (ReplyTargetID t);
     ThreadRootID := TrimSpace (ThreadRootID t);
     DispatchID := TrimSpace (DispatchID t);
     InteractionID := TrimSpace (InteractionID t);
     Kind := TrimSpace (Kind t);
     State := if bool_decide (TrimSpace (State t) = "") then "open" else TrimSpace (State t);
     ExpiresAt := ExpiresAt t;
     CreatedAt := if IsZero (CreatedAt t) then now else CreatedAt t;
     ResolvedAt := ResolvedAt t |}.

Definition with_WaitID (waitID : string) (t : TaskWaitToken) : TaskWaitToken :=
  MkToken waitID (TaskRunID t) (PersonID t) (Platform t) (ConversationID t) (ReplyTargetID t)
    (ThreadRootID t) (DispatchID t) (InteractionID t) (Kind t) (State t) (ExpiresAt t)
    (CreatedAt t) (ResolvedAt t).

Definition with_State (state : string) (resolvedAt : instant) (t : TaskWaitToken) : TaskWaitToken :=
  MkToken (WaitID t) (TaskRunID t) (PersonID t) (Platform t) (ConversationID t) (ReplyTargetID t)
    (ThreadRootID t) (DispatchID t) (InteractionID t) (Kind t) state (ExpiresAt t)
    (CreatedAt t) (Some resolvedAt).

(** [newIdentifier] is the value of [NewIdentifier()]. *)
Definition InsertTaskWaitToken (newIdentifier : string) (now : instant) (t : TaskWaitToken)
    (r : gmap string TaskWaitToken) : gmap string TaskWaitToken :=
  let t := normalizeTaskWaitToken now t in
  let t := if bool_decide (WaitID t = "") then with_WaitID newIdentifier t else t in
  <[WaitID t := t]> r.

Definition taskWaitTokenIsOpen (t : TaskWaitToken) (now : instant) : bool :=
  if negb (bool_decide (State t = "open")) then false
  else if IsZero (ExpiresAt t) then true
  else After (ExpiresAt t) now.

Definition taskWaitTokenMatchesConversation (t : TaskWaitToken)
    (personID platform conversationID : string) : bool :=
  bool_decide (PersonID t = TrimSpace personID) &&
  bool_decide (Platform t = TrimSpace platform) &&
  bool_decide (ConversationID t = TrimSpace conversationID).

(** Oldest first, then by wait ID. *)
Definition token_before (left right : TaskWaitToken) : bool :=
  if negb (CreatedAt left =? CreatedAt right) then Before (CreatedAt left) (CreatedAt right)
  else str_lt (WaitID left) (WaitID right).

Definition sortTaskWaitTokens (tokens : list TaskWaitToken) : list TaskWaitToken :=
  stable_sort token_before tokens.

(** The loop of the finders: the tokens open when visited that match. *)
Definition open_matching (matches : TaskWaitToken -> bool) (turns : list turn)
  : list TaskWaitToken :=
  (fun v : turn => v.2.2) <$>
    List.filter (fun v : turn => taskWaitTokenIsOpen v.2.2 v.1 && matches v.2.2) turns.

Definition findOpen (matches : TaskWaitToken -> bool) (turns : list turn) : option TaskWaitToken :=
  head (sortTaskWaitTokens (open_matching matches turns)).

Definition FindOpenByWaitID (waitID : string) : list turn -> option TaskWaitToken :=
  findOpen (fun t => bool_decide (WaitID t = TrimSpace waitID)).

Definition FindOpenByPersonConversationAndReplyTarget
    (personID platform conversationID replyTargetID : string) : list turn -> option TaskWaitToken :=
  findOpen (fun t => taskWaitTokenMatchesConversation t personID platform conversationID &&
                     bool_decide (ReplyTargetID t = TrimSpace replyTargetID)).

Definition FindOpenByPersonConversationAndThreadRoot
    (personID platform conversationID threadRootID : string) : list turn -> option TaskWaitToken :=
  findOpen (fun t => taskWaitTokenMatchesConversation t personID platform conversationID &&
                     bool_decide (ThreadRootID t = TrimSpace threadRootID)).

Definition FindOpenByPersonConversationAndDispatchID
    (personID platform conversationID dispatchID : string) : list turn -> option TaskWaitToken :=
  findOpen (fun t => taskWaitTokenMatchesConversation t personID platform conversationID &&
                     bool_decide (DispatchID t = TrimSpace dispatchID)).

Definition FindOpenByPersonTaskRunAndInteraction
    (personID taskRunID interactionID : string) : list turn -> option TaskWaitToken :=
  findOpen (fun t => bool_decide (PersonID t = TrimSpace personID) &&
                     bool_decide (TaskRunID t = TrimSpace taskRunID) &&
                     bool_decide (InteractionID t = TrimSpace interactionID)).

Definition FindOpenByPersonAndConversation (personID platform conversationID : string)
    (turns : list turn) : list TaskWaitToken :=
  sortTaskWaitTokens
    (open_matching (fun t => taskWaitTokenMatchesConversation t personID platform conversationID)
       turns).

Definition ResolveTaskWait (waitID : string) (resolvedAt now : instant) (r : gmap string TaskWaitToken)
  : gmap string TaskWaitToken :=
  match r !! TrimSpace waitID with
  | None => r
  | Some t =>
    let resolvedAt := if IsZero resolvedAt then now else resolvedAt in
    <[WaitID t := with_State "resolved" resolvedAt t]> r
  end.

(** The loop of the expiry: it writes the entry it visits, at its key. *)
Definition expire_turn (expiredAt : instant) (matches : TaskWaitToken -> bool)
    (acc : gmap string TaskWaitToken * list string) (v : string * TaskWaitToken) : gmap string TaskWaitToken * list string :=
  let '(r, taskRunIDs) := acc in
  let '(waitID, t) := v in
  if negb (bool_decide (State t = "open")) || negb (matches t) then acc
  else (<[waitID := with_State "expired" expiredAt t]> r, (taskRunIDs ++ [TaskRunID t])%list).

Definition expireMatchingTaskWaits (expiredAt : instant) (matches : TaskWaitToken -> bool)
    (order : list (string * TaskWaitToken)) (r : gmap string TaskWaitToken) : gmap string TaskWaitToken * list string :=
  let '(r', taskRunIDs) := foldl (expire_turn expiredAt matches) (r, []) order in
  (r', stable_sort str_lt taskRunIDs).

Definition ExpireOldTaskWaits (before now : instant) (order : list (string * TaskWaitToken))
    (r : gmap string TaskWaitToken) : gmap string TaskWaitToken * list string :=
  let before := if IsZero before then now else before in
  expireMatchingTaskWaits before
    (fun t => Before (ExpiresAt t) before || (ExpiresAt t =? before)) order r.

Definition ExpireTaskWaitTokensForPerson (personID : string) (expiredAt now : instant)
    (order : list (string * TaskWaitToken)) (r : gmap string TaskWaitToken) : gmap string TaskWaitToken * list string :=
  let expiredAt := if IsZero expiredAt then now else expiredAt in
  let trimmedPersonID := TrimSpace personID in
  expireMatchingTaskWaits expiredAt (fun t => bool_decide (PersonID t = trimmedPersonID)) order r.

(** ** The invariant: a token is stored at its own ID *)

Definition keyed (r : gmap string TaskWaitToken) : Prop := forall k t, r !! k = Some t -> WaitID t = k.

Lemma keyed_insert t r : keyed r -> keyed (<[WaitID t := t]> r).
Proof.
  intros Hr k u [[<- <-]|[_ Hu]]%lookup_insert_Some; [done|by apply Hr].
Qed.

Lemma InsertTaskWaitToken_keyed newID now t r : keyed r -> keyed (InsertTaskWaitToken newID now t r).
Proof. intros Hr; by apply keyed_insert. Qed.

Lemma ResolveTaskWait_lookup waitID at_ now r k :
  keyed r ->
  ResolveTaskWait waitID at_ now r !! k =
    if bool_decide (k = TrimSpace waitID)
    then with_State "resolved" (if IsZero at_ then now else at_) <$> r !! k
    else r !! k.
Proof.
  intros Hr; unfold ResolveTaskWait.
  destruct (r !! TrimSpace waitID) as [t|] eqn:Ht.
  - rewrite (Hr _ _ Ht); case_bool_decide as Hk.
    + subst k; by rewrite lookup_insert_eq, Ht.
    + by rewrite lookup_insert_ne by done.
  - case_bool_decide as Hk; [|done]; subst k; by rewrite Ht.
Qed.

Lemma ResolveTaskWait_keyed waitID at_ now r : keyed r -> keyed (ResolveTaskWait waitID at_ now r).
Proof.
  intros Hr k u; rewrite ResolveTaskWait_lookup by done; case_bool_decide; [|apply Hr].
  destruct (r !! k) as [t|] eqn:Ht; cbn; [intros [= <-]; by apply (Hr _ _ Ht)|done].
Qed.

(** ** Expiry, entry by entry *)

Definition closes (matches : TaskWaitToken -> bool) (t : TaskWaitToken) : bool :=
  bool_decide (State t = "open") && matches t.

Lemma expire_turn_eq expiredAt matches r ids k t :
  expire_turn expiredAt matches (r, ids) (k, t) =
    if closes matches t
    then (<[k := with_State "expired" expiredAt t]> r, (ids ++ [TaskRunID t])%list)
    else (r, ids).
Proof.
  unfold expire_turn, closes; destruct (bool_decide (State t = "open")), (matches t); done.
Qed.

Lemma foldl_expire expiredAt matches order r ids :
  NoDup order.*1 -> (forall k t, (k, t) ∈ order -> r !! k = Some t) ->
  let '(r', ids') := foldl (expire_turn expiredAt matches) (r, ids) order in
  (forall k, r' !! k =
     match (list_to_map order : gmap string TaskWaitToken) !! k with
     | Some t => if closes matches t then Some (with_State "expired" expiredAt t) else Some t
     | None => r !! k
     end) /\
  ids' = (ids ++ (TaskRunID <$> List.filter (closes matches) order.*2))%list.
Proof.
  revert r ids; induction order as [|[k t] order IH]; intros r ids Hnd Hin.
  { cbn; split; [done|by rewrite app_nil_r]. }
  rewrite fmap_cons, NoDup_cons in Hnd; destruct Hnd as [Hk Hnd].
  assert (Ht : r !! k = Some t) by (apply Hin; by left).
  cbn [foldl]; rewrite expire_turn_eq.
  set (acc := if closes matches t then _ else _).
  assert (Hacc : exists r1, acc = (r1, (ids ++ if closes matches t then [TaskRunID t] else [])%list) /\
    (forall j, j <> k -> r1 !! j = r !! j) /\
    r1 !! k = if closes matches t then Some (with_State "expired" expiredAt t) else Some t).
  { unfold acc; destruct (closes matches t); eexists; (split; [by rewrite ?app_nil_r|]); split;
      intros; [by rewrite lookup_insert_ne|by rewrite lookup_insert_eq|done|done]. }
  destruct Hacc as (r1 & -> & Hother & Hself).
  assert (Hin1 : forall j u, (j, u) ∈ order -> r1 !! j = Some u).
  { intros j u Hj; rewrite Hother; [apply Hin; by right|].
    intros ->; apply Hk; by apply (list_elem_of_fmap_2 fst) in Hj. }
  specialize (IH r1 (ids ++ if closes matches t then [TaskRunID t] else [])%list Hnd Hin1).
  destruct (foldl _ _ order) as [r' ids']; destruct IH as [Hr' ->]; split.
  - intros j; rewrite Hr'; cbn [list_to_map foldr uncurry fst snd].
    destruct (decide (j = k)) as [->|Hjk].
    + rewrite lookup_insert_eq, not_elem_of_list_to_map_1 by done; done.
    + rewrite lookup_insert_ne by done; destruct ((list_to_map order : gmap string TaskWaitToken) !! j); [done|by apply Hother].
  - cbn [fmap list_fmap fst snd List.filter]; rewrite <- app_assoc; by destruct (closes matches t).
Qed.

(** The order of the visit does not matter: each open token that matches is
    closed in place, every other entry stays. *)
Lemma expireMatchingTaskWaits_spec expiredAt matches order r :
  order ≡ₚ map_to_list r ->
  let '(r', ids) := expireMatchingTaskWaits expiredAt matches order r in
  (forall k, r' !! k =
     (fun t => if closes matches t then with_State "expired" expiredAt t else t) <$> r !! k) /\
  ids ≡ₚ TaskRunID <$> List.filter (closes matches) (map_to_list r).*2.
Proof.
  intros Ho; unfold expireMatchingTaskWaits.
  assert (Hnd : NoDup order.*1) by (rewrite Ho; apply NoDup_fst_map_to_list).
  pose proof (foldl_expire expiredAt matches order r [] Hnd) as Hf.
  destruct (foldl _ _ order) as [r' ids]; destruct Hf as [Hr' ->].
  { intros k t Hkt; rewrite Ho in Hkt; by apply elem_of_map_to_list. }
  assert (Hmap : (list_to_map order : gmap string TaskWaitToken) = r).
  { rewrite <- (list_to_map_to_list r); by apply list_to_map_proper. }
  split.
  - intros k; rewrite Hr', Hmap; destruct (r !! k) as [t|]; cbn; [by destruct (closes matches t)|done].
  - rewrite stable_sort_perm; cbn [app]; apply fmap_Permutation.
    assert (Hp : order.*2 ≡ₚ (map_to_list r).*2) by (by apply fmap_Permutation).
    clear -Hp; induction Hp; cbn.
    + done.
    + destruct (closes matches x); by rewrite ?IHHp.
    + destruct (closes matches x), (closes matches y); [apply perm_swap|done..].
    + by etrans.
Qed.

(** ** The order of the finders *)

Lemma token_before_cases s t :
  token_before s t = true <->
  CreatedAt s < CreatedAt t \/
  CreatedAt s = CreatedAt t /\ str_lt (WaitID s) (WaitID t) = true.
Proof.
  unfold token_before, Before; destruct (CreatedAt s =? CreatedAt t) eqn:He; bool_to_prop; cbn [negb].
  - split; [auto|intros [?|[_ ?]]; [lia|done]].
  - rewrite Z.ltb_lt; split; [auto|intros [?|[? _]]; [done|lia]].
Qed.

Lemma token_before_trans s t u :
  token_before s t = true -> token_before t u = true -> token_before s u = true.
Proof.
  rewrite !token_before_cases; intros [?|[? Hst]] [?|[? Htu]]; [left; lia..|].
  right; split; [lia|by eapply str_lt_trans].
Qed.

Lemma token_before_total s t :
  WaitID s <> WaitID t -> token_before s t = true \/ token_before t s = true.
Proof.
  rewrite !token_before_cases; intros Hne.
  destruct (Z.lt_trichotomy (CreatedAt s) (CreatedAt t)) as [?|[?|?]]; [by left; left| |by right; left].
  destruct (str_lt_total (WaitID s) (WaitID t)) as [?|[?|?]];
    [left; right; by split|done|right; right; by split].
Qed.

(** A range all of whose turns read the same time. *)
Definition reads (now : instant) (turns : list turn) : Prop := Forall (fun v : turn => v.1 = now) turns.

Lemma open_matching_elem matches now r turns t :
  keyed r -> ranges_over r turns -> reads now turns ->
  t ∈ open_matching matches turns <->
  r !! WaitID t = Some t /\ taskWaitTokenIsOpen t now = true /\ matches t = true.
Proof.
  intros Hk Hr Hnow; unfold open_matching, ranges_over, reads in *.
  rewrite Forall_forall in Hnow; rewrite list_elem_of_fmap; split.
  - intros ([now' [k u]] & -> & [Hin Hf]%list_elem_of_In%filter_In); cbn in *.
    apply list_elem_of_In in Hin; apply andb_true_iff in Hf as [Ho Hm].
    assert (now' = now) as -> by (by specialize (Hnow _ Hin)).
    assert (Hu : (k, u) ∈ turns.*2) by (by apply (list_elem_of_fmap_2 snd) in Hin).
    rewrite Hr in Hu; apply elem_of_map_to_list in Hu; by rewrite (Hk _ _ Hu).
  - intros (Ht & Ho & Hm); apply elem_of_map_to_list in Ht; rewrite <- Hr in Ht.
    apply list_elem_of_fmap in Ht as ([now' [k u]] & Heq & Hin); cbn in Heq; injection Heq as Hk' Hu'.
    subst; exists (now', (WaitID u, u)); split; [done|].
    assert (now' = now) as -> by (by specialize (Hnow _ Hin)).
    apply list_elem_of_In, filter_In; split; [by apply list_elem_of_In|]; cbn.
    by rewrite Ho, Hm.
Qed.

Lemma open_matching_NoDup matches r turns :
  keyed r -> ranges_over r turns -> NoDup (WaitID <$> open_matching matches turns).
Proof.
  intros Hk Hr.
  assert (Hids : WaitID <$> turns.*2.*2 = turns.*2.*1).
  { assert (Hall : Forall (fun kv : string * TaskWaitToken => WaitID kv.2 = kv.1) turns.*2).
    { rewrite Hr; apply Forall_forall; intros [k t] Hkt%elem_of_map_to_list; by apply Hk. }
    induction Hall as [|[k t] l Hkt _ IH]; [done|]; cbn in *; by rewrite Hkt, IH. }
  assert (Hnd : NoDup (WaitID <$> turns.*2.*2)).
  { rewrite Hids; unfold ranges_over in Hr; rewrite Hr; apply NoDup_fst_map_to_list. }
  clear -Hnd; unfold open_matching; induction turns as [|v turns IH]; [done|].
  cbn in *; apply NoDup_cons in Hnd as [Hv Hnd]; destruct (_ && _); [|by apply IH].
  cbn; apply NoDup_cons; split; [|by apply IH].
  intros Hin; apply Hv; apply list_elem_of_fmap in Hin as (t & Ht & Hin).
  apply list_elem_of_fmap in Hin as (w & -> & [Hw _]%list_elem_of_In%filter_In).
  rewrite Ht; by do 3 apply list_elem_of_fmap_2; apply list_elem_of_In.
Qed.

Lemma sortTaskWaitTokens_sorted matches r turns :
  keyed r -> ranges_over r turns ->
  sorted_by token_before (sortTaskWaitTokens (open_matching matches turns)).
Proof.
  intros Hk Hr; eapply stable_sort_sorted; [exact token_before_trans| |].
  - by eapply open_matching_NoDup.
  - intros s t _ _; apply token_before_total.
Qed.

(** ** Operations in sequence *)

(** One operation of the repository. The label is the ID an insertion writes. *)
Inductive repository_step : option string -> gmap string TaskWaitToken -> gmap string TaskWaitToken -> Prop :=
| step_insert newID now t r :
    repository_step
      (Some (if bool_decide (TrimSpace (WaitID t) = "") then newID else TrimSpace (WaitID t)))
      r (InsertTaskWaitToken newID now t r)
| step_resolve waitID at_ now r : repository_step None r (ResolveTaskWait waitID at_ now r)
| step_expire_old before now order r :
    order ≡ₚ map_to_list r -> repository_step None r (ExpireOldTaskWaits before now order r).1
| step_expire_person personID at_ now order r :
    order ≡ₚ map_to_list r ->
    repository_step None r (ExpireTaskWaitTokensForPerson personID at_ now order r).1.

(** Operations that never insert at [k]. *)
Inductive steps_without (k : string) : gmap string TaskWaitToken -> gmap string TaskWaitToken -> Prop :=
| steps_refl r : steps_without k r r
| steps_cons label r1 r2 r3 :
    repository_step label r1 r2 -> label <> Some k -> steps_without k r2 r3 ->
    steps_without k r1 r3.

Lemma expire_fst_lookup expiredAt matches order r k :
  order ≡ₚ map_to_list r ->
  (expireMatchingTaskWaits expiredAt matches order r).1 !! k =
    (fun t => if closes matches t then with_State "expired" expiredAt t else t) <$> r !! k.
Proof.
  intros Ho; pose proof (expireMatchingTaskWaits_spec expiredAt matches order r Ho) as Hs.
  destruct (expireMatchingTaskWaits _ _ _ _) as [r' ids]; by destruct Hs as [Hs _].
Qed.

Lemma expire_keyed expiredAt matches order r :
  order ≡ₚ map_to_list r -> keyed r ->
  keyed (expireMatchingTaskWaits expiredAt matches order r).1.
Proof.
  intros Ho Hk k u; rewrite expire_fst_lookup by done.
  destruct (r !! k) as [t|] eqn:Ht; cbn; [|done]; intros [= <-].
  destruct (closes matches t); by apply (Hk _ _ Ht).
Qed.

Lemma repository_step_keyed label r r' : repository_step label r r' -> keyed r -> keyed r'.
Proof.
  destruct 1; intros Hk.
  - by apply InsertTaskWaitToken_keyed.
  - by apply ResolveTaskWait_keyed.
  - by apply expire_keyed.
  - by apply expire_keyed.
Qed.

(** A closed token keeps its state under every operation but its insertion. *)
Lemma repository_step_closed label r r' k t :
  repository_step label r r' -> keyed r -> label <> Some k ->
  r !! k = Some t -> State t <> "open" ->
  exists t', r' !! k = Some t' /\ State t' <> "open" /\ TaskRunID t' = TaskRunID t.
Proof.
  intros Hstep Hk Hl Ht Ho; destruct Hstep.
  - exists t; split; [|done]; unfold InsertTaskWaitToken.
    rewrite lookup_insert_ne; [done|]; cbn [normalizeTaskWaitToken WaitID] in *.
    intros He; apply Hl; rewrite <- He; case_bool_decide as Hb; [done|]; by rewrite ?Hb.
  - rewrite ResolveTaskWait_lookup, Ht by done.
    case_bool_decide; cbn; eexists; (split; [done|]); split; done.
  - exists t; unfold ExpireOldTaskWaits; rewrite expire_fst_lookup, Ht by done; cbn.
    unfold closes; by rewrite (bool_decide_eq_false_2 _ Ho).
  - exists t; unfold ExpireTaskWaitTokensForPerson; rewrite expire_fst_lookup, Ht by done; cbn.
    unfold closes; by rewrite (bool_decide_eq_false_2 _ Ho).
Qed.

Lemma steps_without_closed k r r' t :
  steps_without k r r' -> keyed r -> r !! k = Some t -> State t <> "open" ->
  keyed r' /\ exists t', r' !! k = Some t' /\ State t' <> "open" /\ TaskRunID t' = TaskRunID t.
Proof.
  intros Hs; revert t; induction Hs as [|label r1 r2 r3 Hstep Hl _ IH]; intros t Hk Ht Ho; [eauto|].
  destruct (repository_step_closed _ _ _ _ _ Hstep Hk Hl Ht Ho) as (t' & Ht' & Ho' & Hid).
  apply (repository_step_keyed _ _ _ Hstep) in Hk.
  destruct (IH t' Hk Ht' Ho') as (Hk' & u & Hu & Hou & Hidu); split; [done|].
  exists u; split_and!; [done..|congruence].
Qed.

(** ** Properties *)

(** A finder answers with the oldest open question that fits, whatever the
    order Go ranges over the map in: the token it returns is stored, open and
    fits, and every other open token that fits is younger (or as old, with a
    later ID); it finds nothing only when no open token fits. *)
Theorem findOpen_oldest matches now r turns :
  keyed r -> ranges_over r turns -> reads now turns ->
  match findOpen matches turns with
  | Some t =>
    r !! WaitID t = Some t /\ taskWaitTokenIsOpen t now = true /\ matches t = true /\
    forall k u, r !! k = Some u -> taskWaitTokenIsOpen u now = true -> matches u = true ->
      u = t \/ token_before t u = true
  | None => forall k u, r !! k = Some u -> taskWaitTokenIsOpen u now = true -> matches u = false
  end.
Proof.
  intros Hk Hr Hnow; unfold findOpen.
  pose proof (sortTaskWaitTokens_sorted matches r turns Hk Hr) as Hs.
  assert (Hin : forall t, t ∈ sortTaskWaitTokens (open_matching matches turns) <->
    r !! WaitID t = Some t /\ taskWaitTokenIsOpen t now = true /\ matches t = true).
  { intros t; unfold sortTaskWaitTokens; rewrite stable_sort_perm; by apply open_matching_elem. }
  assert (Hstored : forall k u, r !! k = Some u -> r !! WaitID u = Some u).
  { intros k u Hu; by rewrite (Hk _ _ Hu). }
  destruct (sortTaskWaitTokens _) as [|t l]; cbn [head].
  - intros k u Hu Ho; apply not_true_is_false; intros Hm.
    by apply (not_elem_of_nil u), Hin; eauto.
  - destruct (proj1 (Hin t)) as (? & ? & ?); [by left|]; split_and!; try done.
    intros k u Hu Ho Hm; assert (Hul : u ∈ t :: l) by (apply Hin; eauto).
    apply elem_of_cons in Hul as [->|Hul]; [by left|right].
    apply StronglySorted_inv in Hs as [_ Hall]; by apply (proj1 (Forall_forall _ _) Hall).
Qed.

Definition sample_token (waitID : string) (created expires : instant) : TaskWaitToken :=
  MkToken waitID "task-1" "p" "slack" "C1" "" "" "" "" "approval" "open" expires created None.

Definition two_tokens : gmap string TaskWaitToken :=
  <["w2" := sample_token "w2" 5 100]> (<["w1" := sample_token "w1" 7 100]> ∅).

Lemma two_tokens_keyed : keyed two_tokens.
Proof.
  unfold two_tokens; intros k t [[<- <-]|[_ Ht]]%lookup_insert_Some; [done|].
  by apply lookup_insert_Some in Ht as [[<- <-]|[_ ?%lookup_empty_Some]].
Qed.

Lemma two_tokens_turns : ranges_over two_tokens ((fun kv => (50, kv)) <$> map_to_list two_tokens).
Proof. unfold ranges_over; rewrite <- list_fmap_compose; by rewrite list_fmap_id. Qed.

Lemma findOpen_oldest_witness :
  exists t, findOpen (fun _ => true) ((fun kv => (50, kv)) <$> map_to_list two_tokens) = Some t /\
    two_tokens !! WaitID t = Some t /\ taskWaitTokenIsOpen t 50 = true /\ true = true /\
    forall k u, two_tokens !! k = Some u -> taskWaitTokenIsOpen u 50 = true -> true = true ->
      u = t \/ token_before t u = true.
Proof.
  exists (sample_token "w2" 5 100).
  assert (Hf : findOpen (fun _ => true) ((fun kv => (50, kv)) <$> map_to_list two_tokens) =
    Some (sample_token "w2" 5 100)) by (vm_compute; reflexivity).
  split; [exact Hf|].
  pose proof (findOpen_oldest (fun _ => true) 50 two_tokens
    ((fun kv => (50, kv)) <$> map_to_list two_tokens) two_tokens_keyed two_tokens_turns) as Hs.
  rewrite Hf in Hs; apply Hs, Forall_fmap, Forall_true; done.
Defined.

(** A question that was answered or has lapsed is never asked about again:
    whatever happens to the repository afterwards, short of inserting a token
    of the same ID anew, no finder returns it, at any time and in any order. *)
Theorem closed_question_stays_closed k r r' t matches turns :
  keyed r -> r !! k = Some t -> State t <> "open" ->
  steps_without k r r' -> ranges_over r' turns ->
  (TrimSpace k = k -> FindOpenByWaitID k turns = None) /\
  forall u, findOpen matches turns = Some u -> WaitID u <> k.
Proof.
  intros Hk Ht Ho Hs Hr.
  destruct (steps_without_closed _ _ _ _ Hs Hk Ht Ho) as (Hk' & t' & Ht' & Ho' & _).
  assert (Hclosed : forall f u, findOpen f turns = Some u -> WaitID u <> k /\ f u = true).
  { intros f u Hu; unfold findOpen in Hu; apply head_Some_elem_of in Hu.
    unfold sortTaskWaitTokens in Hu; rewrite stable_sort_perm in Hu.
    apply list_elem_of_fmap in Hu as ([now [j v]] & -> & [Hin Hf]%list_elem_of_In%filter_In).
    cbn in *; apply list_elem_of_In, (list_elem_of_fmap_2 snd) in Hin; cbn in Hin.
    unfold ranges_over in Hr; rewrite Hr in Hin; apply elem_of_map_to_list in Hin.
    apply andb_true_iff in Hf as [Hopen Hf]; split; [|done].
    rewrite (Hk' _ _ Hin); intros ->; rewrite Hin in Ht'; injection Ht' as ->.
    unfold taskWaitTokenIsOpen in Hopen; by rewrite (bool_decide_eq_false_2 _ Ho') in Hopen. }
  split; [|intros u Hu; by apply Hclosed in Hu as [? _]].
  intros Htrim; unfold FindOpenByWaitID; destruct (findOpen _ turns) as [u|] eqn:Hu; [|done].
  apply Hclosed in Hu as [Hne Hid]; bool_to_prop; congruence.
Qed.

Lemma closed_question_stays_closed_witness :
  let r := ResolveTaskWait "w1" 20 20 two_tokens in
  (TrimSpace "w1" = "w1" ->
    FindOpenByWaitID "w1" ((fun kv => (50, kv)) <$> map_to_list r) = None) /\
  forall u, findOpen (fun _ => true) ((fun kv => (50, kv)) <$> map_to_list r) = Some u ->
    WaitID u <> "w1".
Proof.
  intros r; apply (closed_question_stays_closed "w1" r r
    (with_State "resolved" 20 (sample_token "w1" 7 100))).
  - apply ResolveTaskWait_keyed, two_tokens_keyed.
  - vm_compute; reflexivity.
  - discriminate.
  - constructor.
  - unfold ranges_over; rewrite <- list_fmap_compose; by rewrite list_fmap_id.
Defined.

(** The sweep closes exactly the open questions that have lapsed, whatever
    the order of its range: each of them in place, every other token left as it
    is, so that a question still open expires later; and it reports the task
    of each question it closed. *)
Theorem ExpireOldTaskWaits_exact before now order r :
  order ≡ₚ map_to_list r ->
  let limit := if IsZero before then now else before in
  let lapsed := fun t => bool_decide (State t = "open") && (ExpiresAt t <=? limit) in
  let '(r', taskRunIDs) := ExpireOldTaskWaits before now order r in
  (forall k, r' !! k = (fun t => if lapsed t then with_State "expired" limit t else t) <$> r !! k) /\
  (forall k t, r' !! k = Some t -> State t = "open" -> limit < ExpiresAt t) /\
  taskRunIDs ≡ₚ TaskRunID <$> List.filter lapsed (map_to_list r).*2.
Proof.
  intros Ho limit lapsed; unfold ExpireOldTaskWaits; fold limit.
  pose proof (expireMatchingTaskWaits_spec limit
    (fun t => Before (ExpiresAt t) limit || (ExpiresAt t =? limit)) order r Ho) as Hs.
  destruct (expireMatchingTaskWaits _ _ _ _) as [r' ids]; destruct Hs as [Hr' Hids].
  assert (Hlapsed : forall t,
    closes (fun t => Before (ExpiresAt t) limit || (ExpiresAt t =? limit)) t = lapsed t).
  { intros t; unfold closes, lapsed, Before; f_equal.
    destruct (ExpiresAt t <? limit) eqn:?, (ExpiresAt t =? limit) eqn:?,
      (ExpiresAt t <=? limit) eqn:?; bool_to_prop; try done; lia. }
  assert (Hr : forall k, r' !! k = (fun t => if lapsed t then with_State "expired" limit t else t) <$> r !! k).
  { intros k; rewrite Hr'; destruct (r !! k); cbn; by rewrite ?Hlapsed. }
  split_and!; [done| |].
  - intros k t Ht Hopen; rewrite Hr in Ht; destruct (r !! k) as [u|]; cbn in Ht; [|done].
    destruct (lapsed u) eqn:Hu; injection Ht as <-; [by cbn in Hopen|].
    unfold lapsed in Hu; rewrite (bool_decide_eq_true_2 _ Hopen) in Hu; cbn in Hu.
    bool_to_prop; lia.
  - rewrite Hids; apply fmap_Permutation.
    by rewrite (filter_ext _ _ Hlapsed).
Qed.

Lemma ExpireOldTaskWaits_exact_witness :
  exists r' taskRunIDs,
    ExpireOldTaskWaits 100 100 (map_to_list two_tokens) two_tokens = (r', taskRunIDs) /\
    let lapsed := fun t => bool_decide (State t = "open") && (ExpiresAt t <=? 100) in
    (forall k, r' !! k = (fun t => if lapsed t then with_State "expired" 100 t else t) <$> two_tokens !! k) /\
    (forall k t, r' !! k = Some t -> State t = "open" -> 100 < ExpiresAt t) /\
    taskRunIDs ≡ₚ TaskRunID <$> List.filter lapsed (map_to_list two_tokens).*2.
Proof.
  pose proof (ExpireOldTaskWaits_exact 100 100 (map_to_list two_tokens) two_tokens
    (reflexivity _)) as Hs.
  destruct (ExpireOldTaskWaits 100 100 (map_to_list two_tokens) two_tokens) as [r' ids].
  exists r', ids; split; [reflexivity|exact Hs].
Defined.

(** ** Where the code departs from what it means *)

(** A token without an expiry is open for the finders at any time, and yet the
    first sweep closes it. *)
Lemma token_without_expiry_is_swept :
  let t := sample_token "w1" 7 zero_time in
  (forall now, taskWaitTokenIsOpen t now = true) /\
  exists r', ExpireOldTaskWaits 100 100 [("w1", t)] (<["w1" := t]> ∅) = (r', ["task-1"]) /\
    State <$> r' !! "w1" = Some "expired".
Proof.
  intros t; split; [done|]; eexists; split; [vm_compute; reflexivity|vm_compute; reflexivity].
Qed.
