(* ===== verification/Auth.v ===== *)
(** * Signing in to a task: magic links, sessions
    ([auth/magic_link_service.go], [auth/session_service.go]) and access to
    task runs ([task/task_auth_service.go]). *)

From S2P Require Export GoTime.

(** [hex(sha256(token))]. *)
Class TokenHash := hashToken : string -> string.

(** The runs of the task service: what [FindTaskRun] finds, and the requester
    of a run (a type of the protocol library). *)
Class TaskRuns := {
  TaskRun : Type;
  RequesterPersonID : TaskRun -> string;
  FindTaskRun : string -> option TaskRun;
}.

Module MagicLink.
Record MagicLink := MkMagicLink {
  TokenHash : string;
  PersonID : string;
  TaskRunID : string;
  ExpiresAt : instant;
  ConsumedAt : instant;
}.
End MagicLink.

Module Session.
Record Session := MkSession {
  SessionID : string;
  PersonID : string;
  ExpiresAt : instant;
}.
End Session.

(** [TaskSession] of the protocol library: the fields the service fills. *)
Record TaskSession := MkTaskSession {
  TaskSessionID : string;
  TaskSession_PersonID : string;
  TaskSession_ExpiresAt : instant;
}.

Inductive AuthError :=
| RandomSourceFailed
| MagicLinkInvalid
| TaskSessionInvalid
| TaskRunNotFound
| TaskRunAccessDenied.

Section with_hash.
Context `{TokenHash}.

(** ** Magic links *)

(** [random] is the token read from [crypto/rand], or a failure to read one. *)
Definition IssueMagicLink (random : option string) (personID taskRunID : string)
    (lifetime : duration) (now : instant) (links : gmap string MagicLink.MagicLink)
  : result AuthError (string * gmap string MagicLink.MagicLink) :=
  match random with
  | None => Err RandomSourceFailed
  | Some token =>
    let tokenHash := hashToken token in
    Ok (token, <[tokenHash :=
      MagicLink.MkMagicLink tokenHash personID taskRunID (Add now lifetime) zero_time]> links)
  end.

(** [now] is read for the check, [consumedAt] for the mark. *)
Definition ConsumeMagicLink (token : string) (now consumedAt : instant)
    (links : gmap string MagicLink.MagicLink)
  : option MagicLink.MagicLink * gmap string MagicLink.MagicLink :=
  let tokenHash := hashToken token in
  match links !! tokenHash with
  | None => (None, links)
  | Some link =>
    if After now (MagicLink.ExpiresAt link) || negb (IsZero (MagicLink.ConsumedAt link)) then
      (None, links)
    else
      let link := MagicLink.MkMagicLink (MagicLink.TokenHash link) (MagicLink.PersonID link)
        (MagicLink.TaskRunID link) (MagicLink.ExpiresAt link) consumedAt in
      (Some link, <[tokenHash := link]> links)
  end.

End with_hash.

(** ** Sessions *)

Definition CreateSession (random : option string) (personID : string) (lifetime : duration)
    (now : instant) (sessions : gmap string Session.Session)
  : result AuthError (Session.Session * gmap string Session.Session) :=
  match random with
  | None => Err RandomSourceFailed
  | Some sessionID =>
    let session := Session.MkSession sessionID personID (Add now lifetime) in
    Ok (session, <[sessionID := session]> sessions)
  end.

Definition ResolveSession (sessionID : string) (now : instant)
    (sessions : gmap string Session.Session) : option Session.Session :=
  match sessions !! sessionID with
  | None => None
  | Some session => if After now (Session.ExpiresAt session) then None else Some session
  end.

(** ** The task's sign-in service *)

Record TaskAuthService := MkTaskAuthService {
  magicLinks : gmap string MagicLink.MagicLink;
  sessions : gmap string Session.Session;
}.

Definition NewTaskAuthService : TaskAuthService := MkTaskAuthService ∅ ∅.

Definition taskSessionOf (session : Session.Session) : TaskSession :=
  MkTaskSession (Session.SessionID session) (Session.PersonID session) (Session.ExpiresAt session).

Section with_services.
Context `{TokenHash} `{TaskRuns}.

Definition TaskAuth_IssueMagicLink (random : option string) (personID taskRunID : string)
    (now : instant) (service : TaskAuthService) : result AuthError (string * TaskAuthService) :=
  '(token, links) ← IssueMagicLink random personID taskRunID (15 * Minute) now (magicLinks service);
  Ok (token, MkTaskAuthService links (sessions service)).

(** The link stays consumed when no session can be made for it. *)
Definition TaskAuth_ConsumeMagicLink (token : string) (now consumedAt : instant)
    (random : option string) (sessionNow : instant) (service : TaskAuthService)
  : result AuthError TaskSession * TaskAuthService :=
  let '(link, links) := ConsumeMagicLink token now consumedAt (magicLinks service) in
  let service := MkTaskAuthService links (sessions service) in
  match link with
  | None => (Err MagicLinkInvalid, service)
  | Some magicLink =>
    match CreateSession random (MagicLink.PersonID magicLink) (8 * Hour) sessionNow
            (sessions service) with
    | Err e => (Err e, service)
    | Ok (session, sessions') => (Ok (taskSessionOf session), MkTaskAuthService links sessions')
    end
  end.

Definition CreateTaskSession (random : option string) (personID : string) (now : instant)
    (service : TaskAuthService) : result AuthError (TaskSession * TaskAuthService) :=
  '(session, sessions') ← CreateSession random personID (8 * Hour) now (sessions service);
  Ok (taskSessionOf session, MkTaskAuthService (magicLinks service) sessions').

Definition AuthorizeTaskAccess (taskSessionID taskRunID : string) (now : instant)
    (service : TaskAuthService) : result AuthError TaskRun :=
  match ResolveSession taskSessionID now (sessions service) with
  | None => Err TaskSessionInvalid
  | Some session =>
    match FindTaskRun taskRunID with
    | None => Err TaskRunNotFound
    | Some taskRun =>
      if negb (bool_decide (RequesterPersonID taskRun = Session.PersonID session)) then
        Err TaskRunAccessDenied
      else Ok taskRun
    end
  end.

Definition ResolveTaskSession (taskSessionID : string) (now : instant)
    (service : TaskAuthService) : result AuthError TaskSession :=
  match ResolveSession taskSessionID now (sessions service) with
  | None => Err TaskSessionInvalid
  | Some session => Ok (taskSessionOf session)
  end.

(** ** Runs of the service *)

(** What the service did: the links it issued, by hash and person, the links
    it took, and the sessions it opened. *)
Inductive auth_event :=
| Issued (hash personID : string) (expiresAt : instant)
| Consumed (hash personID : string) (at_ : instant)
| Opened (sessionID personID : string) (expiresAt : instant).

(** A run of the service from its start, with the events of the past, last one
    first. Clocks are past the year 1. *)
Inductive auth_run : list auth_event -> TaskAuthService -> Prop :=
| run_new : auth_run [] NewTaskAuthService
| run_issue trace service random personID taskRunID now token service' :
    auth_run trace service ->
    TaskAuth_IssueMagicLink random personID taskRunID now service = Ok (token, service') ->
    auth_run (Issued (hashToken token) personID (Add now (15 * Minute)) :: trace) service'
| run_consume trace service token now consumedAt random sessionNow session service' :
    auth_run trace service -> consumedAt <> zero_time ->
    TaskAuth_ConsumeMagicLink token now consumedAt random sessionNow service = (Ok session, service') ->
    auth_run (Opened (TaskSessionID session) (TaskSession_PersonID session) (TaskSession_ExpiresAt session)
      :: Consumed (hashToken token) (TaskSession_PersonID session) now :: trace) service'
| run_consume_no_session trace service token now consumedAt sessionNow link links :
    auth_run trace service -> consumedAt <> zero_time ->
    ConsumeMagicLink token now consumedAt (magicLinks service) = (Some link, links) ->
    TaskAuth_ConsumeMagicLink token now consumedAt None sessionNow service
      = (Err RandomSourceFailed, MkTaskAuthService links (sessions service)) ->
    auth_run (Consumed (hashToken token) (MagicLink.PersonID link) now :: trace)
      (MkTaskAuthService links (sessions service))
| run_create trace service random personID now session service' :
    auth_run trace service ->
    CreateTaskSession random personID now service = Ok (session, service') ->
    auth_run (Opened (TaskSessionID session) personID (TaskSession_ExpiresAt session) :: trace) service'.

Definition issues (hash : string) (trace : list auth_event) : nat :=
  length (List.filter (fun e => match e with Issued h _ _ => bool_decide (h = hash) | _ => false end) trace).

Definition consumptions (hash : string) (trace : list auth_event) : nat :=
  length (List.filter (fun e => match e with Consumed h _ _ => bool_decide (h = hash) | _ => false end) trace).

End with_services.

(** ** The invariant of the runs *)

Section invariant.
Context `{TokenHash} `{TaskRuns}.

(** A link in the store was issued, to its person, and is not taken more often
    than its token was issued. *)
Definition links_sound (trace : list auth_event) (links : gmap string MagicLink.MagicLink) : Prop :=
  forall h, match links !! h with
  | None => consumptions h trace = 0%nat
  | Some l =>
    Issued h (MagicLink.PersonID l) (MagicLink.ExpiresAt l) ∈ trace /\
    (consumptions h trace + (if IsZero (MagicLink.ConsumedAt l) then 1 else 0) <= issues h trace)%nat
  end.

Definition sessions_sound (trace : list auth_event) (sessions : gmap string Session.Session) : Prop :=
  forall id s, sessions !! id = Some s ->
    Session.SessionID s = id /\ Opened id (Session.PersonID s) (Session.ExpiresAt s) ∈ trace.

(** Each link taken had been issued to that person, and had not expired. *)
Definition consumed_sound (trace : list auth_event) : Prop :=
  forall h p at_, Consumed h p at_ ∈ trace -> exists e, Issued h p e ∈ trace /\ at_ <= e.

Definition auth_sound (trace : list auth_event) (service : TaskAuthService) : Prop :=
  links_sound trace (magicLinks service) /\ sessions_sound trace (sessions service) /\
  consumed_sound trace.

Lemma consumptions_le_issues trace links h :
  links_sound trace links -> (consumptions h trace <= issues h trace)%nat.
Proof.
  intros Hl; specialize (Hl h); destruct (links !! h) as [l|]; [|lia].
  destruct Hl as [_ Hl]; lia.
Qed.

Lemma links_sound_opened trace links id p e :
  links_sound trace links -> links_sound (Opened id p e :: trace) links.
Proof.
  intros Hl h; specialize (Hl h); unfold consumptions, issues in *; cbn.
  destruct (links !! h); [|done]; destruct Hl; split; [by right|done].
Qed.

Lemma links_sound_issued trace links h p e l :
  links_sound trace links ->
  MagicLink.PersonID l = p -> MagicLink.ExpiresAt l = e -> MagicLink.ConsumedAt l = zero_time ->
  links_sound (Issued h p e :: trace) (<[h := l]> links).
Proof.
  intros Hl Hp He Hc h'; pose proof (consumptions_le_issues _ _ h Hl) as Hle.
  specialize (Hl h'); unfold consumptions, issues in *; cbn.
  destruct (decide (h' = h)) as [->|Hne].
  - rewrite lookup_insert_eq, bool_decide_eq_true_2 by done; rewrite Hp, He, Hc; cbn.
    split; [by left|lia].
  - rewrite lookup_insert_ne, bool_decide_eq_false_2 by done.
    destruct (links !! h'); [|done]; destruct Hl; split; [by right|done].
Qed.

Lemma links_sound_consumed trace links token now consumedAt link links' :
  links_sound trace links -> consumedAt <> zero_time ->
  ConsumeMagicLink token now consumedAt links = (Some link, links') ->
  links_sound (Consumed (hashToken token) (MagicLink.PersonID link) now :: trace) links' /\
  exists e, Issued (hashToken token) (MagicLink.PersonID link) e ∈ trace /\ now <= e.
Proof.
  unfold ConsumeMagicLink; intros Hl Hnz Hc.
  pose proof (Hl (hashToken token)) as Hh.
  destruct (links !! hashToken token) as [l|] eqn:Hlink; [|done].
  destruct Hh as [Hin Hle]; destruct (_ || _) eqn:Hok; [done|]; injection Hc as <- <-.
  apply orb_false_iff in Hok as [Hexp Hzero]; apply negb_eq_false in Hzero.
  rewrite Hzero in Hle; unfold After in Hexp; bool_to_prop; cbn [MagicLink.PersonID].
  split; [|by exists (MagicLink.ExpiresAt l)].
  intros h'; specialize (Hl h'); unfold consumptions, issues in *; cbn.
  destruct (decide (h' = hashToken token)) as [->|Hne].
  - rewrite lookup_insert_eq, bool_decide_eq_true_2 by done; cbn.
    split; [by right|]; unfold IsZero; destruct (consumedAt =? zero_time) eqn:?; bool_to_prop;
      [done|lia].
  - rewrite lookup_insert_ne, bool_decide_eq_false_2 by done.
    destruct (links !! h'); [|done]; destruct Hl; split; [by right|done].
Qed.

Lemma sessions_sound_cons e trace sessions :
  sessions_sound trace sessions -> sessions_sound (e :: trace) sessions.
Proof. intros Hs id s Hid; destruct (Hs id s Hid); split; [done|by right]. Qed.

Lemma CreateSession_sound trace random personID lifetime now sessions s sessions' :
  sessions_sound trace sessions ->
  CreateSession random personID lifetime now sessions = Ok (s, sessions') ->
  Session.PersonID s = personID /\
  sessions_sound (Opened (Session.SessionID s) personID (Session.ExpiresAt s) :: trace) sessions'.
Proof.
  unfold CreateSession; intros Hs Hc; destruct random as [id|]; [|done].
  injection Hc as <- <-; split; [done|]; cbn.
  intros id' s' [[<- <-]|[_ Hid]]%lookup_insert_Some; cbn; [split; [done|by left]|].
  destruct (Hs id' s' Hid); split; [done|by right].
Qed.

Lemma consumed_sound_cons e trace :
  (forall h p at_, e <> Consumed h p at_) -> consumed_sound trace -> consumed_sound (e :: trace).
Proof.
  intros He Hc h p at_ [Heq|Hin]%elem_of_cons; [by destruct (He h p at_)|].
  destruct (Hc h p at_ Hin) as (x & ? & ?); exists x; split; [by right|done].
Qed.

Lemma consumed_sound_consumed trace h p now :
  (exists e, Issued h p e ∈ trace /\ now <= e) -> consumed_sound trace ->
  consumed_sound (Consumed h p now :: trace).
Proof.
  intros (e & Hin & Hle) Hc h' p' at_ [[= -> -> ->]|Hin']%elem_of_cons.
  - exists e; split; [by right|done].
  - destruct (Hc h' p' at_ Hin') as (x & ? & ?); exists x; split; [by right|done].
Qed.

Lemma auth_run_sound trace service : auth_run trace service -> auth_sound trace service.
Proof.
  induction 1 as [|trace service random personID taskRunID now token service' _ (Hl & Hs & Hc) Hi
    |trace service token now consumedAt random sessionNow session service' _ (Hl & Hs & Hc) Hnz Ht
    |trace service token now consumedAt sessionNow link links _ (Hl & Hs & Hc) Hnz Hcons _
    |trace service random personID now session service' _ (Hl & Hs & Hc) Hcr].
  - split_and!; [intros h; cbn [magicLinks NewTaskAuthService]; by rewrite lookup_empty|
      intros id s; cbn [sessions NewTaskAuthService]; by rewrite lookup_empty|].
    by intros h p at_ ?%elem_of_nil.
  - unfold TaskAuth_IssueMagicLink, IssueMagicLink in Hi; destruct random as [t|]; [|done].
    cbn in Hi; injection Hi as <- <-; split_and!; cbn [magicLinks sessions].
    + by apply links_sound_issued.
    + by apply sessions_sound_cons.
    + by apply consumed_sound_cons.
  - unfold TaskAuth_ConsumeMagicLink in Ht.
    destruct (ConsumeMagicLink _ _ _ _) as [[link|] links] eqn:Hcons; [|done].
    destruct (CreateSession _ _ _ _ _) as [[s ss]|] eqn:Hcr; [|done]; injection Ht as <- <-.
    eapply links_sound_consumed in Hcons as [Hl' Hex]; [|done..].
    eapply (CreateSession_sound (Consumed (hashToken token) (MagicLink.PersonID link) now :: trace))
      in Hcr as [Hp Hs']; [|by apply sessions_sound_cons].
    cbn [taskSessionOf TaskSessionID TaskSession_PersonID TaskSession_ExpiresAt]; rewrite Hp.
    split_and!; [by apply links_sound_opened|done|].
    apply consumed_sound_cons; [done|by apply consumed_sound_consumed].
  - eapply links_sound_consumed in Hcons as [Hl' Hex]; [|done..].
    split_and!; [done|by apply sessions_sound_cons|by apply consumed_sound_consumed].
  - unfold CreateTaskSession in Hcr.
    destruct (CreateSession _ _ _ _ _) as [[s ss]|] eqn:Hs'; [|done].
    cbn in Hcr; injection Hcr as <- <-.
    eapply CreateSession_sound in Hs' as [_ Hs']; [|done].
    split_and!; [by apply links_sound_opened|done|by apply consumed_sound_cons].
Qed.

End invariant.

(** ** Properties *)

(** A magic link signs a person in at most as often as its token was
    issued, and only the person it was issued to, before it expires: in no run
    of the service is a link used twice, used late, or used for another. *)
Theorem magic_links_are_used_once `{TokenHash} `{TaskRuns} trace service h :
  auth_run trace service ->
  (consumptions h trace <= issues h trace)%nat /\
  forall p at_, Consumed h p at_ ∈ trace -> exists e, Issued h p e ∈ trace /\ at_ <= e.
Proof.
  intros (Hl & _ & Hc)%auth_run_sound; split; [by eapply consumptions_le_issues|].
  intros p at_; apply Hc.
Qed.

(** Tokens in the clear, and one run, of "ann". *)
Definition plain_hash : TokenHash := fun token => token.

Definition one_run : TaskRuns := {|
  TaskRun := string;
  RequesterPersonID := fun _ => "ann";
  FindTaskRun := fun id => if bool_decide (id = "task-1") then Some id else None;
|}.

(** Ann's link is issued at 0 and used a minute later. *)
Definition ann_service : TaskAuthService :=
  MkTaskAuthService
    (<["t" := MagicLink.MkMagicLink "t" "ann" "task-1" (15 * Minute) Minute]> ∅)
    (<["s" := Session.MkSession "s" "ann" (Minute + 8 * Hour)]> ∅).

Definition ann_trace : list auth_event :=
  [Opened "s" "ann" (Minute + 8 * Hour); Consumed "t" "ann" Minute; Issued "t" "ann" (15 * Minute)].

Lemma ann_run : @auth_run plain_hash ann_trace ann_service.
Proof.
  apply (run_consume (H := plain_hash) [Issued "t" "ann" (15 * Minute)]
    (MkTaskAuthService (<["t" := MagicLink.MkMagicLink "t" "ann" "task-1" (15 * Minute) 0]> ∅) ∅)
    "t" Minute Minute (Some "s") Minute (MkTaskSession "s" "ann" (Minute + 8 * Hour))).
  - apply (run_issue (H := plain_hash) [] NewTaskAuthService (Some "t") "ann" "task-1" 0 "t");
      [constructor|vm_compute; reflexivity].
  - discriminate.
  - vm_compute; reflexivity.
Qed.

Lemma magic_links_are_used_once_witness :
  (consumptions "t" ann_trace <= issues "t" ann_trace)%nat /\
  forall p at_, Consumed "t" p at_ ∈ ann_trace -> exists e, Issued "t" p e ∈ ann_trace /\ at_ <= e.
Proof.
  apply (magic_links_are_used_once (H := plain_hash) (H0 := one_run) ann_trace ann_service "t").
  exact ann_run.
Defined.

(** Access to a task run is granted exactly to its requester, holding a
    session that was opened for that very person and has not expired. *)
Theorem AuthorizeTaskAccess_only_requester `{TokenHash} `{TaskRuns} trace service
    taskSessionID taskRunID now run :
  auth_run trace service ->
  AuthorizeTaskAccess taskSessionID taskRunID now service = Ok run <->
  FindTaskRun taskRunID = Some run /\
  exists e, sessions service !! taskSessionID =
      Some (Session.MkSession taskSessionID (RequesterPersonID run) e) /\
    Opened taskSessionID (RequesterPersonID run) e ∈ trace /\ now <= e.
Proof.
  intros (_ & Hs & _)%auth_run_sound; unfold AuthorizeTaskAccess, ResolveSession, After.
  destruct (sessions service !! taskSessionID) as [s|] eqn:Hid; cycle 1.
  { split; [done|by intros (_ & e & ? & _)]. }
  destruct (Hs _ _ Hid) as [Hsid Hopen]; split.
  - destruct (Session.ExpiresAt s <? now) eqn:Hexp; [done|]; bool_to_prop.
    destruct (FindTaskRun taskRunID) as [run'|]; [|done].
    case_bool_decide as Hreq; [|done]; intros [= ->]; split; [done|].
    exists (Session.ExpiresAt s); rewrite Hreq; split_and!; [|done..].
    destruct s; cbn in *; by subst.
  - intros (Hrun & e & [= ->] & _ & Hle); cbn; rewrite (proj2 (Z.ltb_ge _ _)) by done.
    by rewrite Hrun, bool_decide_eq_true_2.
Qed.

Lemma AuthorizeTaskAccess_only_requester_witness :
  @AuthorizeTaskAccess one_run "s" "task-1" Hour ann_service = Ok "task-1" <->
  @FindTaskRun one_run "task-1" = Some "task-1" /\
  exists e, sessions ann_service !! "s" =
      Some (Session.MkSession "s" (@RequesterPersonID one_run "task-1") e) /\
    Opened "s" (@RequesterPersonID one_run "task-1") e ∈ ann_trace /\ Hour <= e.
Proof.
  apply (AuthorizeTaskAccess_only_requester (H := plain_hash) (H0 := one_run)), ann_run.
Defined.
