(* ===== verification/Policy.v ===== *)
(** * The policy document: its canonical form, its validation, and the tables
    projected from it ([policy_document.go], [policy_projection_service.go],
    [policy_validator.go]). *)

From S2P Require Export GoStrings.

(** ** Data *)

Module Person.
Record PersonPolicy := MkPersonPolicy {
  PersonID : string;
  DisplayName : string;
  Emails : list string;
  Circles : list string;
  IsAdmin : bool;
  JobTitle : string;
  Group : string;
  SupervisorID : string;
}.
End Person.

Record OrgGroupPolicy := MkOrgGroupPolicy {
  OrgGroup_ID : string;
  OrgGroup_Name : string;
}.

Record CompanyPolicy := MkCompanyPolicy {
  Company_Name : string;
  BrandName : string;
  Slogan : string;
  Company_Description : string;
  Representative : string;
  Website : string;
  Company_TimeZone : string;
  Locale : string;
}.

Definition IsEmpty (company : CompanyPolicy) : bool :=
  bool_decide (Company_Name company = "") && bool_decide (BrandName company = "") &&
  bool_decide (Company_Description company = "").

Module Circle.
Record CirclePolicy := MkCirclePolicy {
  CircleID : string;
  DisplayName : string;
  MattermostChannelID : string;
  WorkspaceDirectoryPath : string;
  MemberCircles : list string;
}.
End Circle.

Module Channel.
Record ChannelPolicy := MkChannelPolicy {
  Platform : string;
  ExternalConversationID : string;
  ConversationType : string;
  DisplayName : string;
  IsCollectEnabled : bool;
  IsReplyEnabled : bool;
}.
End Channel.

Module Rule.
Record ResourceAccessPolicy := MkResourceAccessPolicy {
  Resource : string;
  Actions : list string;
  Circles : list string;
}.
End Rule.

(** [People] is [nil] or a list; the two differ in [NamesItsPeople] only. *)
Record PolicyDocument := MkPolicyDocument {
  People : option (list Person.PersonPolicy);
  Circles : list Circle.CirclePolicy;
  OrgGroups : list OrgGroupPolicy;
  Company : CompanyPolicy;
  Channels : list Channel.ChannelPolicy;
  ResourceAccess : list Rule.ResourceAccessPolicy;
  RawEventDays : Z;
  Version : Z;
  Author : string;
}.

Definition NamesItsPeople (d : PolicyDocument) : bool := negb (bool_decide (People d = None)).

Definition people (d : PolicyDocument) : list Person.PersonPolicy := default [] (People d).

Module Access.
Record PersonAccess := MkPersonAccess {
  PersonID : string;
  Circles : list string;
  ResourceAccessRules : list Rule.ResourceAccessPolicy;
}.
End Access.

Record PolicyProjection := MkPolicyProjection {
  ApprovedEmailByPersonID : gmap string (list string);
  PersonIDByEmail : gmap string string;
  DisplayNameByPersonID : gmap string string;
  ContainedCirclesByID : gmap string (list string);
  PersonAccessByPersonID : gmap string Access.PersonAccess;
  ChannelByCompositeKey : gmap string Channel.ChannelPolicy;
  ResourceAccessRules : list Rule.ResourceAccessPolicy;
}.

Inductive PolicyError :=
| PersonIDRequired
| DuplicatePersonID
| PersonEmailRequired
| DuplicateEmail
| TooManyCircles
| CircleIDRequired
| DuplicateCircleID
| ChannelKeyRequired
| ResourceRequired
| ResourceActionRequired
| RetentionNotPositive.

#[export] Instance PersonPolicy_eq_dec : EqDecision Person.PersonPolicy.
Proof. solve_decision. Defined.

Definition MemberCircleID : string := "member".
Definition AdminCircleID : string := "admin".
Definition MaximumCircleCount : Z := 10.

(** ** Normal forms *)

Section with_unicode.
Context `{UnicodeTables}.

(** [strings.ToLower(strings.TrimSpace(value))] *)
Definition normalizeText (value : string) : string := ToLower (TrimSpace value).

Fixpoint normalize_unseen (seenValue : gset string) (values : list string) : list string :=
  match values with
  | [] => []
  | value :: values' =>
    let normalizedValue := normalizeText value in
    if bool_decide (normalizedValue = "") || bool_decide (normalizedValue ∈ seenValue)
    then normalize_unseen seenValue values'
    else normalizedValue :: normalize_unseen ({[normalizedValue]} ∪ seenValue) values'
  end.

Definition normalizePolicyStrings (values : list string) : list string :=
  normalize_unseen ∅ values.

Definition effectivePersonCircles (p : Person.PersonPolicy) : list string :=
  normalizePolicyStrings
    (MemberCircleID :: Person.Circles p ++ if Person.IsAdmin p then [AdminCircleID] else [])%list.

Definition CircleHoldsADirectory (circleID : string) : bool :=
  let normalizedCircleID := normalizeText circleID in
  negb (bool_decide (normalizedCircleID = "")) &&
  negb (bool_decide (normalizedCircleID = AdminCircleID)).

Definition EnsureRequesterDefaults (a : Access.PersonAccess) : Access.PersonAccess :=
  Access.MkPersonAccess (Access.PersonID a)
    (normalizePolicyStrings (MemberCircleID :: Access.Circles a)) (Access.ResourceAccessRules a).

Definition hasCirclePolicy (circlePolicies : list Circle.CirclePolicy) (circleID : string) : bool :=
  existsb (fun c => bool_decide (normalizeText (Circle.CircleID c) = circleID)) circlePolicies.

Definition canonicalCircle (c : Circle.CirclePolicy) : Circle.CirclePolicy :=
  Circle.MkCirclePolicy (normalizeText (Circle.CircleID c)) (Circle.DisplayName c)
    (Circle.MattermostChannelID c) (Circle.WorkspaceDirectoryPath c)
    (normalizePolicyStrings (Circle.MemberCircles c)).

Definition memberCircle : Circle.CirclePolicy :=
  Circle.MkCirclePolicy MemberCircleID "Member" "" ("/workspace/circles/" +:+ MemberCircleID) [].

Definition canonicalCirclePolicies (circlePolicies : list Circle.CirclePolicy)
  : list Circle.CirclePolicy :=
  let result := canonicalCircle <$> circlePolicies in
  if hasCirclePolicy result MemberCircleID then result else memberCircle :: result.

Definition canonicalPerson (p : Person.PersonPolicy) : Person.PersonPolicy :=
  Person.MkPersonPolicy (Person.PersonID p) (Person.DisplayName p) (Person.Emails p)
    (effectivePersonCircles p) (Person.IsAdmin p) (Person.JobTitle p) (Person.Group p)
    (Person.SupervisorID p).

(** The value it returns; in Go the caller's [People] array is rewritten too. *)
Definition CanonicalizePolicyDocument (d : PolicyDocument) : PolicyDocument :=
  MkPolicyDocument (map canonicalPerson <$> People d) (canonicalCirclePolicies (Circles d))
    (OrgGroups d) (Company d) (Channels d) (ResourceAccess d) (RawEventDays d) (Version d)
    (Author d).

(** ** Projection *)

Definition contain_circle (contained : gmap string (list string)) (c : Circle.CirclePolicy)
  : gmap string (list string) :=
  let circleID := normalizeText (Circle.CircleID c) in
  let memberCircles := normalizePolicyStrings (Circle.MemberCircles c) in
  if bool_decide (circleID = "") || bool_decide (memberCircles = []) then contained
  else <[circleID := memberCircles]> contained.

Definition ContainedCircles (circlePolicies : list Circle.CirclePolicy)
  : gmap string (list string) :=
  foldl contain_circle ∅ circlePolicies.

Definition project_person (rules : list Rule.ResourceAccessPolicy) (t : PolicyProjection)
    (p : Person.PersonPolicy) : PolicyProjection :=
  let personID := Person.PersonID p in
  let displayName := TrimSpace (Person.DisplayName p) in
  {| ApprovedEmailByPersonID := <[personID := Person.Emails p]> (ApprovedEmailByPersonID t);
     PersonIDByEmail :=
       foldl (fun m email => <[ToLower email := personID]> m) (PersonIDByEmail t) (Person.Emails p);
     DisplayNameByPersonID :=
       if negb (bool_decide (displayName = "")) then <[personID := displayName]> (DisplayNameByPersonID t)
       else DisplayNameByPersonID t;
     ContainedCirclesByID := ContainedCirclesByID t;
     PersonAccessByPersonID :=
       <[personID := Access.MkPersonAccess personID (effectivePersonCircles p) rules]>
         (PersonAccessByPersonID t);
     ChannelByCompositeKey := ChannelByCompositeKey t;
     ResourceAccessRules := ResourceAccessRules t |}.

Definition channel_key (c : Channel.ChannelPolicy) : string :=
  Channel.Platform c +:+ ":" +:+ Channel.ExternalConversationID c.

Definition project_channel (t : PolicyProjection) (c : Channel.ChannelPolicy) : PolicyProjection :=
  MkPolicyProjection (ApprovedEmailByPersonID t) (PersonIDByEmail t) (DisplayNameByPersonID t)
    (ContainedCirclesByID t) (PersonAccessByPersonID t)
    (<[channel_key c := c]> (ChannelByCompositeKey t)) (ResourceAccessRules t).

Definition ReplacePolicyProjectionTransactionally (d : PolicyDocument) : PolicyProjection :=
  let t := MkPolicyProjection ∅ ∅ ∅ (ContainedCircles (Circles d)) ∅ ∅ (ResourceAccess d) in
  let t := foldl (project_person (ResourceAccess d)) t (people d) in
  foldl project_channel t (Channels d).

(** ** Validation *)

(** The loop over the emails of a person. *)
Fixpoint validate_emails (emailSet : gset string) (emails : list string)
  : result PolicyError (gset string) :=
  match emails with
  | [] => Ok emailSet
  | email :: emails' =>
    let normalizedEmail := normalizeText email in
    if bool_decide (normalizedEmail = "") then Err PersonEmailRequired
    else if bool_decide (normalizedEmail ∈ emailSet) then Err DuplicateEmail
    else validate_emails ({[normalizedEmail]} ∪ emailSet) emails'
  end.

Fixpoint validate_people (personSet emailSet : gset string) (people : list Person.PersonPolicy)
  : result PolicyError unit :=
  match people with
  | [] => Ok tt
  | p :: people' =>
    if bool_decide (Person.PersonID p = "") then Err PersonIDRequired
    else if bool_decide (Person.PersonID p ∈ personSet) then Err DuplicatePersonID
    else if bool_decide (Person.Emails p = []) then Err PersonEmailRequired
    else
      emailSet ← validate_emails emailSet (Person.Emails p);
      validate_people ({[Person.PersonID p]} ∪ personSet) emailSet people'
  end.

Fixpoint validate_circles (circleSet : gset string) (circles : list Circle.CirclePolicy)
  : result PolicyError unit :=
  match circles with
  | [] => Ok tt
  | c :: circles' =>
    let circleID := normalizeText (Circle.CircleID c) in
    if bool_decide (circleID = "") then Err CircleIDRequired
    else if bool_decide (circleID ∈ circleSet) then Err DuplicateCircleID
    else validate_circles ({[circleID]} ∪ circleSet) circles'
  end.

Fixpoint validate_channels (channels : list Channel.ChannelPolicy) : result PolicyError unit :=
  match channels with
  | [] => Ok tt
  | c :: channels' =>
    if bool_decide (Channel.Platform c = "") || bool_decide (Channel.ExternalConversationID c = "")
    then Err ChannelKeyRequired else validate_channels channels'
  end.

Fixpoint validate_resources (rules : list Rule.ResourceAccessPolicy) : result PolicyError unit :=
  match rules with
  | [] => Ok tt
  | r :: rules' =>
    if bool_decide (TrimSpace (Rule.Resource r) = "") then Err ResourceRequired
    else if bool_decide (Rule.Actions r = []) then Err ResourceActionRequired
    else validate_resources rules'
  end.

Definition ValidatePolicyDocument (d : PolicyDocument) : result PolicyError unit :=
  _ ← validate_people ∅ ∅ (people d);
  _ ← refuse_if (MaximumCircleCount <? Z.of_nat (length (Circles d))) TooManyCircles;
  _ ← validate_circles ∅ (Circles d);
  _ ← validate_channels (Channels d);
  _ ← validate_resources (ResourceAccess d);
  refuse_if (RawEventDays d <=? 0) RetentionNotPositive.

End with_unicode.

Arguments normalizeText : simpl never.
Arguments normalizePolicyStrings : simpl never.

(** ** Lists in normal form *)

Section normal_forms.
Context `{UnicodeLaws}.

Lemma normalizeText_idemp v : normalizeText (normalizeText v) = normalizeText v.
Proof. apply ToLower_TrimSpace_idemp. Qed.

(** Two texts with the same lower case have the same normal form. *)
Lemma normalizeText_ToLower v : normalizeText (ToLower v) = normalizeText v.
Proof. unfold normalizeText; by rewrite TrimSpace_ToLower, ToLower_idemp. Qed.

Lemma normalizeText_TrimSpace v : TrimSpace (normalizeText v) = normalizeText v.
Proof. unfold normalizeText; by rewrite TrimSpace_ToLower, TrimSpace_idemp. Qed.

Lemma normalize_unseen_elem seen values x :
  x ∈ normalize_unseen seen values <->
  x <> "" /\ (x ∉ seen) /\ (exists v, v ∈ values /\ normalizeText v = x).
Proof. exact (distinct_by_elem normalizeText seen values x). Qed.

Lemma normalizePolicyStrings_elem values x :
  x ∈ normalizePolicyStrings values <-> x <> "" /\ exists v, v ∈ values /\ normalizeText v = x.
Proof.
  unfold normalizePolicyStrings; rewrite normalize_unseen_elem; split.
  - by intros (? & _ & ?).
  - intros (? & ?); split_and!; [done|apply not_elem_of_empty|done].
Qed.

Lemma normalize_unseen_NoDup seen values : NoDup (normalize_unseen seen values).
Proof. exact (distinct_by_NoDup normalizeText seen values). Qed.

(** A list of distinct normal texts is its own normal form. *)
Lemma normalize_unseen_id seen values :
  NoDup values -> (forall v, v ∈ values -> v <> "" /\ normalizeText v = v /\ v ∉ seen) ->
  normalize_unseen seen values = values.
Proof.
  revert seen; induction values as [|v values IH]; intros seen Hnd Hv; [done|].
  apply NoDup_cons in Hnd as [Hnotin Hnd].
  destruct (Hv v) as (Hne & Hn & Hs); [by left|]; cbn [normalize_unseen].
  rewrite Hn, !bool_decide_eq_false_2 by done; cbn [orb]; f_equal; apply IH; [done|].
  intros w Hw; destruct (Hv w) as (? & ? & ?); [by right|]; split_and!; [done..|].
  rewrite not_elem_of_union, not_elem_of_singleton; split; [by intros ->|done].
Qed.

Lemma normalizePolicyStrings_idemp values :
  normalizePolicyStrings (normalizePolicyStrings values) = normalizePolicyStrings values.
Proof.
  apply normalize_unseen_id; [apply normalize_unseen_NoDup|].
  intros v (Hne & w & _ & <-)%normalizePolicyStrings_elem.
  split_and!; [done|apply normalizeText_idemp|apply not_elem_of_empty].
Qed.

(** The two circles the code names are in normal form. *)
Lemma MemberCircleID_normal : normalizeText MemberCircleID = MemberCircleID.
Proof. vm_compute; reflexivity. Qed.

Lemma AdminCircleID_normal : normalizeText AdminCircleID = AdminCircleID.
Proof. vm_compute; reflexivity. Qed.

Lemma normalize_unseen_app seen l1 l2 :
  normalize_unseen seen (l1 ++ l2) =
    (normalize_unseen seen l1 ++
     normalize_unseen (list_to_set (normalize_unseen seen l1) ∪ seen) l2)%list.
Proof.
  revert seen; induction l1 as [|v l1 IH]; intros seen; cbn [app normalize_unseen].
  { cbn; by rewrite union_empty_l_L. }
  destruct (_ || _); [apply IH|]; cbn [app]; f_equal; rewrite IH; do 2 f_equal.
  apply set_eq; intros y; rewrite list_to_set_cons, !elem_of_union; tauto.
Qed.

Lemma normalize_unseen_seen seen l :
  (forall v, v ∈ l -> normalizeText v ∈ seen) -> normalize_unseen seen l = [].
Proof.
  intros Hl; induction l as [|v l IH]; [done|]; cbn [normalize_unseen].
  rewrite (bool_decide_eq_true_2 (normalizeText v ∈ seen)) by (apply Hl; by left).
  rewrite orb_true_r; apply IH; intros w Hw; apply Hl; by right.
Qed.

(** Adding again, at the ends, what a normal list already holds changes nothing. *)
Lemma normalizePolicyStrings_absorb x l l' :
  normalizeText x = x -> x <> "" ->
  let n := normalizePolicyStrings (x :: l ++ l') in
  (forall v, v ∈ l' -> normalizeText v <> "" ) ->
  normalizePolicyStrings (x :: n ++ l') = n.
Proof.
  intros Hx Hne n Hl'.
  assert (Hn : exists tail, n = x :: tail).
  { unfold n, normalizePolicyStrings; cbn [normalize_unseen].
    rewrite Hx, !bool_decide_eq_false_2 by (done || apply not_elem_of_empty); eauto. }
  assert (Hid : forall v, v ∈ n -> v <> "" /\ normalizeText v = v).
  { intros v (Hv & w & _ & <-)%normalizePolicyStrings_elem; split; [done|apply normalizeText_idemp]. }
  assert (Hnd : NoDup n) by apply normalize_unseen_NoDup.
  assert (Hin : forall v, v ∈ l' -> normalizeText v ∈ n).
  { intros v Hv; apply normalizePolicyStrings_elem; split; [by apply Hl'|].
    exists v; split; [|done]; right; apply elem_of_app; by right. }
  destruct Hn as [tail Hn]; clearbody n; subst n.
  unfold normalizePolicyStrings; cbn [app normalize_unseen].
  rewrite Hx, !bool_decide_eq_false_2 by (done || apply not_elem_of_empty).
  rewrite bool_decide_eq_true_2 by (by apply elem_of_union_l, elem_of_singleton).
  cbn [orb]; f_equal.
  apply NoDup_cons in Hnd as [Hxt Hnd].
  rewrite normalize_unseen_app, (normalize_unseen_id _ tail), normalize_unseen_seen, app_nil_r; [done|..].
  - intros v Hv; specialize (Hin v Hv); rewrite elem_of_cons in Hin.
    rewrite !elem_of_union, elem_of_list_to_set, elem_of_singleton; tauto.
  - done.
  - intros v Hv; destruct (Hid v) as [? ?]; [by right|]; split_and!; [done..|].
    rewrite not_elem_of_union, not_elem_of_singleton; split; [by intros ->|apply not_elem_of_empty].
Qed.

End normal_forms.

(** ** The canonical document *)

Section canonical.
Context `{UnicodeLaws}.

Lemma canonicalPerson_idemp p : canonicalPerson (canonicalPerson p) = canonicalPerson p.
Proof.
  unfold canonicalPerson at 1 3; cbn [canonicalPerson Person.PersonID Person.DisplayName
    Person.Emails Person.IsAdmin Person.JobTitle Person.Group Person.SupervisorID]; f_equal.
  unfold effectivePersonCircles; cbn [canonicalPerson Person.Circles Person.IsAdmin].
  apply normalizePolicyStrings_absorb; [apply MemberCircleID_normal|done|].
  destruct (Person.IsAdmin p); [|by intros v ?%elem_of_nil].
  intros v ->%list_elem_of_singleton; by rewrite AdminCircleID_normal.
Qed.

Lemma canonicalCircle_idemp c : canonicalCircle (canonicalCircle c) = canonicalCircle c.
Proof.
  unfold canonicalCircle; cbn [Circle.CircleID Circle.DisplayName Circle.MattermostChannelID
    Circle.WorkspaceDirectoryPath Circle.MemberCircles]; by rewrite normalizeText_idemp, normalizePolicyStrings_idemp.
Qed.

Lemma canonicalCircle_member : canonicalCircle memberCircle = memberCircle.
Proof. unfold canonicalCircle; cbn [Circle.CircleID memberCircle]; by rewrite MemberCircleID_normal. Qed.

Lemma canonicalCirclePolicies_idemp cs :
  canonicalCirclePolicies (canonicalCirclePolicies cs) = canonicalCirclePolicies cs.
Proof.
  assert (Hmap : canonicalCircle <$> (canonicalCircle <$> cs) = canonicalCircle <$> cs).
  { rewrite <- list_fmap_compose; apply list_fmap_ext; intros i c _; apply canonicalCircle_idemp. }
  unfold canonicalCirclePolicies at 2 3.
  destruct (hasCirclePolicy (canonicalCircle <$> cs) MemberCircleID) eqn:Hhas.
  - unfold canonicalCirclePolicies; by rewrite Hmap, Hhas.
  - unfold canonicalCirclePolicies; rewrite fmap_cons, canonicalCircle_member, Hmap.
    unfold hasCirclePolicy; cbn [existsb Circle.CircleID memberCircle].
    by rewrite MemberCircleID_normal, bool_decide_eq_true_2.
Qed.

Lemma effectivePersonCircles_elem p x :
  x ∈ effectivePersonCircles p <->
  x = MemberCircleID \/ Person.IsAdmin p = true /\ x = AdminCircleID \/
  x <> "" /\ exists v, v ∈ Person.Circles p /\ normalizeText v = x.
Proof.
  unfold effectivePersonCircles; rewrite normalizePolicyStrings_elem; split.
  - intros (Hne & v & Hv & <-); rewrite elem_of_cons, elem_of_app in Hv.
    destruct Hv as [->|[Hv|Hv]]; [left; apply MemberCircleID_normal|by right; right; eauto|].
    destruct (Person.IsAdmin p); [|by apply elem_of_nil in Hv].
    apply list_elem_of_singleton in Hv as ->; right; left; split; [done|apply AdminCircleID_normal].
  - intros [->|[[Ha ->]|(Hne & v & Hv & <-)]].
    + split; [done|]; exists MemberCircleID; split; [by left|apply MemberCircleID_normal].
    + split; [done|]; exists AdminCircleID; split; [|apply AdminCircleID_normal].
      rewrite Ha; right; apply elem_of_app; right; by left.
    + split; [done|]; exists v; split; [|done]; right; apply elem_of_app; by left.
Qed.

Lemma canonicalCirclePolicies_elem cs c :
  c ∈ canonicalCirclePolicies cs ->
  normalizeText (Circle.CircleID c) = Circle.CircleID c /\
  normalizePolicyStrings (Circle.MemberCircles c) = Circle.MemberCircles c.
Proof.
  intros Hc; assert (Hcase : c = memberCircle \/ exists c', c = canonicalCircle c').
  { unfold canonicalCirclePolicies in Hc; destruct (hasCirclePolicy _ _).
    - apply list_elem_of_fmap in Hc as (c' & -> & _); by right; eauto.
    - apply elem_of_cons in Hc as [->|Hc]; [by left|].
      apply list_elem_of_fmap in Hc as (c' & -> & _); by right; eauto. }
  destruct Hcase as [->|[c' ->]]; [split; [apply MemberCircleID_normal|done]|].
  cbn; split; [apply normalizeText_idemp|apply normalizePolicyStrings_idemp].
Qed.

Lemma canonicalCirclePolicies_member cs :
  exists c, c ∈ canonicalCirclePolicies cs /\ Circle.CircleID c = MemberCircleID.
Proof.
  unfold canonicalCirclePolicies; destruct (hasCirclePolicy _ _) eqn:Hhas.
  - apply existsb_elem_of in Hhas as (c & Hc & Hid); bool_to_prop; exists c; split; [done|].
    apply list_elem_of_fmap in Hc as (c' & -> & _); cbn in *; by rewrite normalizeText_idemp in Hid.
  - exists memberCircle; split; [by left|done].
Qed.

End canonical.

(** ** What the validator accepts *)

Section validation.
Context `{UnicodeTables}.

(** A document the program may run on. *)
Record valid_document (d : PolicyDocument) : Prop := {
  valid_person p : p ∈ people d -> Person.PersonID p <> "" /\ Person.Emails p <> [] /\
    forall e, e ∈ Person.Emails p -> normalizeText e <> "";
  valid_person_ids : NoDup (Person.PersonID <$> people d);
  valid_emails : NoDup (normalizeText <$> (people d ≫= Person.Emails));
  valid_circle_count : Z.of_nat (length (Circles d)) <= MaximumCircleCount;
  valid_circle c : c ∈ Circles d -> normalizeText (Circle.CircleID c) <> "";
  valid_circle_ids : NoDup (normalizeText ∘ Circle.CircleID <$> Circles d);
  valid_channel c : c ∈ Channels d ->
    Channel.Platform c <> "" /\ Channel.ExternalConversationID c <> "";
  valid_rule r : r ∈ ResourceAccess d -> TrimSpace (Rule.Resource r) <> "" /\ Rule.Actions r <> [];
  valid_retention : 0 < RawEventDays d;
}.

Lemma validate_emails_Ok emailSet emails s :
  validate_emails emailSet emails = Ok s <->
  (forall e, e ∈ emails -> normalizeText e <> "" /\ normalizeText e ∉ emailSet) /\
  NoDup (normalizeText <$> emails) /\ s = list_to_set (normalizeText <$> emails) ∪ emailSet.
Proof.
  revert emailSet; induction emails as [|e emails IH]; intros emailSet; cbn [validate_emails].
  { split; [|intros (_ & _ & ->); cbn; by rewrite union_empty_l_L].
    intros [= <-]; split_and!; [by intros e ?%elem_of_nil|constructor|]; cbn; by rewrite union_empty_l_L. }
  case_bool_decide as Hne; [split; [done|intros (Hall & _); by destruct (Hall e) as [? _]; [left|]]|].
  case_bool_decide as Hin; [split; [done|intros (Hall & _); by destruct (Hall e) as [_ ?]; [left|]]|].
  rewrite IH, fmap_cons, NoDup_cons, list_to_set_cons; split.
  - intros (Hall & Hnd & ->); split_and!; [| |done|].
    + intros e' [->|He']%elem_of_cons; [done|]; destruct (Hall e' He') as [? Hs].
      rewrite not_elem_of_union in Hs; tauto.
    + intros (e' & Heq & He')%list_elem_of_fmap; destruct (Hall e' He') as [_ Hs].
      rewrite Heq in Hs; apply Hs, elem_of_union_l; by apply elem_of_singleton.
    + apply set_eq; intros y; rewrite !elem_of_union; tauto.
  - intros (Hall & [Hnotin Hnd] & ->); split_and!; [|done|].
    + intros e' He'; destruct (Hall e') as [? Hs]; [by right|]; split; [done|].
      rewrite not_elem_of_union, not_elem_of_singleton; split; [|done].
      intros Heq; apply Hnotin; rewrite <- Heq; by apply list_elem_of_fmap_2.
    + apply set_eq; intros y; rewrite !elem_of_union; tauto.
Qed.

Lemma validate_people_Ok personSet emailSet ps :
  validate_people personSet emailSet ps = Ok tt <->
  (forall p, p ∈ ps -> Person.PersonID p <> "" /\ (Person.PersonID p ∉ personSet) /\
    Person.Emails p <> [] /\
    forall e, e ∈ Person.Emails p -> normalizeText e <> "" /\ normalizeText e ∉ emailSet) /\
  NoDup (Person.PersonID <$> ps) /\ NoDup (normalizeText <$> (ps ≫= Person.Emails)).
Proof.
  revert personSet emailSet; induction ps as [|p ps IH]; intros personSet emailSet; cbn [validate_people].
  { split; [|done]; intros _; split_and!; [by intros p ?%elem_of_nil|constructor|constructor]. }
  case_bool_decide as Hid; [split; [done|intros (Hall & _); by destruct (Hall p) as [? _]; [left|]]|].
  case_bool_decide as Hin; [split; [done|intros (Hall & _); by destruct (Hall p) as (_ & ? & _); [left|]]|].
  case_bool_decide as Hem; [split; [done|intros (Hall & _); by destruct (Hall p) as (_ & _ & ? & _); [left|]]|].
  rewrite bind_cons, fmap_app, NoDup_app, fmap_cons, NoDup_cons; split.
  - intros (s & (Hall & Hnd & ->)%validate_emails_Ok & Hps)%bind_Ok.
    apply IH in Hps as (Hps & Hids & Hems); split_and!; [| |done|done| |done].
    + intros q [->|Hq]%elem_of_cons; [done|]; destruct (Hps q Hq) as (? & Hs & ? & He).
      rewrite not_elem_of_union in Hs; split_and!; [done|tauto|done|].
      intros e Hqe; destruct (He e Hqe) as [? Hn]; rewrite not_elem_of_union in Hn; tauto.
    + intros (q & Heq & Hq)%list_elem_of_fmap; destruct (Hps q Hq) as (_ & Hs & _).
      rewrite <- Heq in Hs; apply Hs, elem_of_union_l; by apply elem_of_singleton.
    + intros x Hx (e & -> & He)%list_elem_of_fmap.
      apply list_elem_of_bind in He as (q & Hqe & Hq).
      destruct (Hps q Hq) as (_ & _ & _ & He); destruct (He e Hqe) as [_ Hn].
      apply Hn, elem_of_union_l; by apply elem_of_list_to_set.
  - intros (Hall & [Hnotin Hids] & Hnd & Hdisj & Hems).
    destruct (Hall p) as (_ & _ & _ & Hp); [by left|].
    apply bind_Ok; eexists; split; [apply validate_emails_Ok; split_and!; [exact Hp|done|reflexivity]|].
    apply IH; split_and!; [|done|done].
    intros q Hq; destruct (Hall q) as (? & ? & ? & He); [by right|]; split_and!; [done| |done|].
    + rewrite not_elem_of_union, not_elem_of_singleton; split; [|done].
      intros Heq; apply Hnotin; rewrite <- Heq; by apply list_elem_of_fmap_2.
    + intros e Hqe; destruct (He e Hqe); split; [done|]; rewrite not_elem_of_union; split; [|done].
      rewrite elem_of_list_to_set; intros Hx; apply (Hdisj _ Hx).
      apply list_elem_of_fmap_2, list_elem_of_bind; by exists q.
Qed.

Lemma validate_circles_Ok circleSet cs :
  validate_circles circleSet cs = Ok tt <->
  (forall c, c ∈ cs -> normalizeText (Circle.CircleID c) <> "" /\
    normalizeText (Circle.CircleID c) ∉ circleSet) /\
  NoDup (normalizeText ∘ Circle.CircleID <$> cs).
Proof.
  revert circleSet; induction cs as [|c cs IH]; intros circleSet; cbn [validate_circles].
  { split; [|done]; intros _; split; [by intros c ?%elem_of_nil|constructor]. }
  case_bool_decide as Hne; [split; [done|intros (Hall & _); by destruct (Hall c) as [? _]; [left|]]|].
  case_bool_decide as Hin; [split; [done|intros (Hall & _); by destruct (Hall c) as [_ ?]; [left|]]|].
  rewrite IH, fmap_cons, NoDup_cons; split.
  - intros (Hall & Hnd); split; [|split; [|done]].
    + intros c' [->|Hc']%elem_of_cons; [done|]; destruct (Hall c' Hc') as [? Hs].
      rewrite not_elem_of_union in Hs; tauto.
    + intros (c' & Heq & Hc')%list_elem_of_fmap; destruct (Hall c' Hc') as [_ Hs].
      cbn in Heq; rewrite <- Heq in Hs; apply Hs, elem_of_union_l; by apply elem_of_singleton.
  - intros (Hall & Hnotin & Hnd); split; [|done].
    intros c' Hc'; destruct (Hall c') as [? Hs]; [by right|]; split; [done|].
    rewrite not_elem_of_union, not_elem_of_singleton; split; [|done].
    intros Heq; apply Hnotin; cbn; rewrite <- Heq.
    by apply (list_elem_of_fmap_2 (normalizeText ∘ Circle.CircleID)) in Hc'.
Qed.

Lemma validate_channels_Ok cs :
  validate_channels cs = Ok tt <->
  forall c, c ∈ cs -> Channel.Platform c <> "" /\ Channel.ExternalConversationID c <> "".
Proof.
  induction cs as [|c cs IH]; cbn [validate_channels]; [by split; [intros _ c ?%elem_of_nil|]|].
  destruct (_ || _) eqn:Hb.
  - split; [done|]; intros Hall; destruct (Hall c) as [? ?]; [by left|].
    apply orb_true_iff in Hb as [?|?]; bool_to_prop; done.
  - bool_to_prop; rewrite IH; split.
    + intros Hall c' [->|Hc']%elem_of_cons; [done|by apply Hall].
    + intros Hall c' Hc'; apply Hall; by right.
Qed.

Lemma validate_resources_Ok rs :
  validate_resources rs = Ok tt <->
  forall r, r ∈ rs -> TrimSpace (Rule.Resource r) <> "" /\ Rule.Actions r <> [].
Proof.
  induction rs as [|r rs IH]; cbn [validate_resources]; [by split; [intros _ r ?%elem_of_nil|]|].
  case_bool_decide as Hr; [split; [done|intros Hall; by destruct (Hall r) as [? _]; [left|]]|].
  case_bool_decide as Ha; [split; [done|intros Hall; by destruct (Hall r) as [_ ?]; [left|]]|].
  rewrite IH; split.
  - intros Hall r' [->|Hr']%elem_of_cons; [done|by apply Hall].
  - intros Hall r' Hr'; apply Hall; by right.
Qed.

Lemma ValidatePolicyDocument_Ok d : ValidatePolicyDocument d = Ok tt <-> valid_document d.
Proof.
  unfold ValidatePolicyDocument; split.
  - intros ([] & (Hp & Hids & Hems)%validate_people_Ok & Hd)%bind_Ok.
    apply bind_Ok in Hd as ([] & Hcount%refuse_if_Ok & Hd).
    apply bind_Ok in Hd as ([] & (Hc & Hcids)%validate_circles_Ok & Hd).
    apply bind_Ok in Hd as ([] & Hch & Hd); apply bind_Ok in Hd as ([] & Hr & Hret%refuse_if_Ok).
    bool_to_prop; split; try done.
    + intros p Hin; destruct (Hp p Hin) as (? & _ & ? & He); split_and!; [done..|].
      intros e Hpe; by destruct (He e Hpe).
    + intros c Hin; by destruct (Hc c Hin).
    + by apply validate_channels_Ok.
    + by apply validate_resources_Ok.
  - intros [Hp Hids Hems Hcount Hc Hcids Hch Hr Hret].
    apply bind_Ok; exists tt; split.
    { apply validate_people_Ok; split_and!; [|done..].
      intros p Hin; destruct (Hp p Hin) as (? & ? & He); split_and!; [done|apply not_elem_of_empty|done|].
      intros e Hpe; split; [by apply He|apply not_elem_of_empty]. }
    apply bind_Ok; exists tt; split; [by apply refuse_if_Ok, Z.ltb_ge|].
    apply bind_Ok; exists tt; split.
    { apply validate_circles_Ok; split; [|done].
      intros c Hin; split; [by apply Hc|apply not_elem_of_empty]. }
    apply bind_Ok; exists tt; split; [by apply validate_channels_Ok|].
    apply bind_Ok; exists tt; split; [by apply validate_resources_Ok|].
    by apply refuse_if_Ok, Z.leb_gt.
Qed.

End validation.

(** ** The tables of a valid document *)

Section projection.
Context `{UnicodeLaws}.

(** Who an email names, in the order of the document. *)
Definition email_owners (d : PolicyDocument) : list (string * string) :=
  people d ≫= fun p => (fun e => (ToLower e, Person.PersonID p)) <$> Person.Emails p.

Lemma project_person_emails rules ps t :
  PersonIDByEmail (foldl (project_person rules) t ps) =
    insert_all (PersonIDByEmail t)
      (ps ≫= fun p => (fun e => (ToLower e, Person.PersonID p)) <$> Person.Emails p).
Proof.
  revert t; induction ps as [|p ps IH]; intros t; [done|]; cbn [foldl].
  rewrite IH, bind_cons, insert_all_app; f_equal; cbn [project_person PersonIDByEmail].
  generalize (PersonIDByEmail t); induction (Person.Emails p) as [|e es IHe]; intros m; [done|].
  cbn; by rewrite IHe.
Qed.

Lemma project_channel_emails cs t :
  PersonIDByEmail (foldl project_channel t cs) = PersonIDByEmail t.
Proof. revert t; induction cs as [|c cs IH]; intros t; [done|]; cbn; by rewrite IH. Qed.

Lemma project_channel_access cs t :
  PersonAccessByPersonID (foldl project_channel t cs) = PersonAccessByPersonID t.
Proof. revert t; induction cs as [|c cs IH]; intros t; [done|]; cbn; by rewrite IH. Qed.

Lemma project_person_access rules ps t :
  PersonAccessByPersonID (foldl (project_person rules) t ps) =
    insert_all (PersonAccessByPersonID t)
      ((fun p => (Person.PersonID p,
        Access.MkPersonAccess (Person.PersonID p) (effectivePersonCircles p) rules)) <$> ps).
Proof. revert t; induction ps as [|p ps IH]; intros t; [done|]; cbn; by rewrite IH. Qed.

Lemma email_owners_elem d k personID :
  (k, personID) ∈ email_owners d <->
  exists p e, p ∈ people d /\ e ∈ Person.Emails p /\ ToLower e = k /\ Person.PersonID p = personID.
Proof.
  unfold email_owners; rewrite list_elem_of_bind; split.
  - intros (p & (e & [= -> ->] & He)%list_elem_of_fmap & Hp); by exists p, e.
  - intros (p & e & Hp & He & <- & <-); exists p; split; [|done].
    by apply (list_elem_of_fmap_2 (fun e => (ToLower e, Person.PersonID p))).
Qed.

Lemma email_owners_keys d :
  (email_owners d).*1 = ToLower <$> (people d ≫= Person.Emails).
Proof.
  unfold email_owners; induction (people d) as [|p ps IH]; [done|].
  rewrite !bind_cons, !fmap_app, IH; f_equal; by rewrite <- list_fmap_compose.
Qed.

(** Distinct normal forms, distinct keys. *)
Lemma email_owners_NoDup d : valid_document d -> NoDup (email_owners d).*1.
Proof.
  intros Hv; rewrite email_owners_keys; pose proof (valid_emails d Hv) as Hnd.
  induction (people d ≫= Person.Emails) as [|e es IH]; [constructor|].
  rewrite fmap_cons, NoDup_cons in *; destruct Hnd as [He Hnd]; split; [|by apply IH].
  intros (e' & Heq & He')%list_elem_of_fmap; apply He.
  rewrite <- (normalizeText_ToLower e), Heq, normalizeText_ToLower.
  by apply list_elem_of_fmap_2.
Qed.

Lemma PersonIDByEmail_lookup d k personID :
  valid_document d ->
  PersonIDByEmail (ReplacePolicyProjectionTransactionally d) !! k = Some personID <->
  exists p e, p ∈ people d /\ e ∈ Person.Emails p /\ ToLower e = k /\ Person.PersonID p = personID.
Proof.
  intros Hv; unfold ReplacePolicyProjectionTransactionally.
  rewrite project_channel_emails, project_person_emails; cbn [PersonIDByEmail].
  fold (email_owners d); rewrite insert_all_Some by (by apply email_owners_NoDup).
  rewrite email_owners_elem, lookup_empty; split; [by intros [?|[_ ?]]|by left].
Qed.

Lemma PersonAccessByPersonID_lookup d personID a :
  valid_document d ->
  PersonAccessByPersonID (ReplacePolicyProjectionTransactionally d) !! personID = Some a <->
  exists p, p ∈ people d /\ Person.PersonID p = personID /\
    a = Access.MkPersonAccess personID (effectivePersonCircles p) (ResourceAccess d).
Proof.
  intros Hv; unfold ReplacePolicyProjectionTransactionally.
  rewrite project_channel_access, project_person_access; cbn [PersonAccessByPersonID].
  rewrite insert_all_Some; cycle 1.
  { rewrite <- list_fmap_compose; exact (valid_person_ids d Hv). }
  rewrite lookup_empty, list_elem_of_fmap; split.
  - intros [(p & [= -> ->] & Hp)|[_ ?]]; [|done]; by exists p.
  - intros (p & Hp & <- & ->); left; by exists p.
Qed.

End projection.

(** ** Properties *)

(** A document with one administrator and no circle. *)
Definition sample_document : PolicyDocument :=
  MkPolicyDocument
    (Some [Person.MkPersonPolicy "ann" "Ann" ["Ann@Example.com"; "ann@work.example"] [" Finance "; "finance"]
             true "" "" "";
           Person.MkPersonPolicy "bob" "" ["bob@example.com"] [] false "" "" ""])
    [] [] (MkCompanyPolicy "" "" "" "" "" "" "" "") [] [] 30 1 "".

(** Canonicalizing a document is idempotent, and gives what the rest of the
    program relies on: each person is in the member circle, in the admin circle
    if an administrator, and otherwise in the named circles only, each once, in
    normal form; the member circle exists, and every circle's ID and members
    are in normal form. *)
Theorem CanonicalizePolicyDocument_canonical `{UnicodeLaws} d :
  let c := CanonicalizePolicyDocument d in
  CanonicalizePolicyDocument c = c /\
  (forall p, p ∈ people c -> NoDup (Person.Circles p) /\ exists q, q ∈ people d /\
    Person.PersonID p = Person.PersonID q /\ Person.Emails p = Person.Emails q /\
    forall x, x ∈ Person.Circles p <->
      x = MemberCircleID \/ Person.IsAdmin q = true /\ x = AdminCircleID \/
      x <> "" /\ exists v, v ∈ Person.Circles q /\ normalizeText v = x) /\
  (exists m, m ∈ Circles c /\ Circle.CircleID m = MemberCircleID) /\
  (forall m, m ∈ Circles c -> normalizeText (Circle.CircleID m) = Circle.CircleID m /\
    normalizePolicyStrings (Circle.MemberCircles m) = Circle.MemberCircles m).
Proof.
  intros c; split_and!.
  - unfold c, CanonicalizePolicyDocument; cbn [People Circles OrgGroups Company Channels
      ResourceAccess RawEventDays Version Author].
    rewrite canonicalCirclePolicies_idemp; f_equal; destruct (People d) as [ps|]; [|done].
    cbn; f_equal; rewrite map_map; apply map_ext; intros p; apply canonicalPerson_idemp.
  - intros p Hp; unfold c, people, CanonicalizePolicyDocument in Hp; cbn [People] in Hp.
    unfold people; destruct (People d) as [ps|]; cbn in Hp; [|by apply elem_of_nil in Hp].
    apply list_elem_of_In, in_map_iff in Hp as (q & <- & Hq%list_elem_of_In).
    split; [apply normalize_unseen_NoDup|]; exists q; split_and!; [done..|].
    intros x; apply effectivePersonCircles_elem.
  - apply canonicalCirclePolicies_member.
  - intros m; apply canonicalCirclePolicies_elem.
Qed.

Lemma CanonicalizePolicyDocument_canonical_witness :
  let U := ascii_tables in
  let d := sample_document in
  let c := @CanonicalizePolicyDocument U d in
  @CanonicalizePolicyDocument U c = c /\
  (forall p, p ∈ people c -> NoDup (Person.Circles p) /\ exists q, q ∈ people d /\
    Person.PersonID p = Person.PersonID q /\ Person.Emails p = Person.Emails q /\
    forall x, x ∈ Person.Circles p <->
      x = MemberCircleID \/ Person.IsAdmin q = true /\ x = AdminCircleID \/
      x <> "" /\ exists v, v ∈ Person.Circles q /\ @normalizeText U v = x) /\
  (exists m, m ∈ Circles c /\ Circle.CircleID m = MemberCircleID) /\
  (forall m, m ∈ Circles c -> @normalizeText U (Circle.CircleID m) = Circle.CircleID m /\
    @normalizePolicyStrings U (Circle.MemberCircles m) = Circle.MemberCircles m).
Proof. exact (@CanonicalizePolicyDocument_canonical ascii_tables ascii_laws sample_document). Defined.

(** ** Where the code departs from what it means *)

(** A document of ten circles is valid; its canonical form, which adds the
    member circle, is not. *)
Definition ten_circles : PolicyDocument :=
  MkPolicyDocument (Some [])
    ((fun id => Circle.MkCirclePolicy id "" "" "" []) <$>
       ["a"; "b"; "c"; "d"; "e"; "f"; "g"; "h"; "i"; "j"])
    [] (MkCompanyPolicy "" "" "" "" "" "" "" "") [] [] 30 1 "".

Lemma canonical_form_exceeds_the_limit `{UnicodeTables} :
  ValidatePolicyDocument ten_circles = Ok tt /\
  ValidatePolicyDocument (CanonicalizePolicyDocument ten_circles) = Err TooManyCircles.
Proof. split; vm_compute; reflexivity. Qed.
