(* ===== verification/AccessControl.v ===== *)
(** * Who may use what: the decision on an action and a resource
    ([access/access.go]). *)

From S2P Require Export Policy.

Definition ActionRead : string := "read".
Definition ActionWrite : string := "write".
Definition ActionExecute : string := "execute".
Definition ActionManage : string := "manage".

Record Request := MkRequest {
  RequestPersonAccess : Access.PersonAccess;
  Action : string;
  RequestResource : string;
}.

Section with_unicode.
Context `{UnicodeTables}.

(** The same loop as [normalizePolicyStrings], copied in this package. *)
Definition normalizeCircles (values : list string) : list string := normalize_unseen ∅ values.

Definition hasCircle (personAccess : Access.PersonAccess) (circleID : string) : bool :=
  let normalizedCircleID := normalizeText circleID in
  existsb (fun value => bool_decide (value = normalizedCircleID))
    (normalizeCircles (Access.Circles personAccess)).

Definition hasAnyCircle (personAccess : Access.PersonAccess) (circles : list string) : bool :=
  existsb (hasCircle personAccess) (normalizeCircles circles).

Definition is_action (action : string) (actions : list string) : bool :=
  bool_decide (action ∈ actions).

Definition actionAllowedForCircle (personAccess : Access.PersonAccess) (action circleID : string)
  : bool :=
  is_action action [ActionRead; ActionWrite; ActionManage] && hasCircle personAccess circleID.

Definition actionAllowedForPrivatePerson (personAccess : Access.PersonAccess)
    (action personID : string) : bool :=
  is_action action [ActionRead; ActionWrite] &&
  bool_decide (TrimSpace (Access.PersonID personAccess) = TrimSpace personID).

Definition containsAction (actions : list string) (action : string) : bool :=
  existsb (fun value => bool_decide (normalizeText value = action)) actions.

Definition matchingResourceRules (rules : list Rule.ResourceAccessPolicy) (action resource : string)
  : list Rule.ResourceAccessPolicy :=
  List.filter (fun rule => bool_decide (normalizeText (Rule.Resource rule) = resource) &&
                           containsAction (Rule.Actions rule) action) rules.

(** A rule lets a person through: it names no circle, or one of theirs. *)
Definition rule_allows (personAccess : Access.PersonAccess) (rule : Rule.ResourceAccessPolicy)
  : bool :=
  bool_decide (normalizeCircles (Rule.Circles rule) = []) ||
  hasAnyCircle personAccess (Rule.Circles rule).

Definition canAccessPolicyResource (personAccess : Access.PersonAccess) (action resource : string)
  : bool :=
  let matchingRules :=
    matchingResourceRules (Access.ResourceAccessRules personAccess) action resource in
  if bool_decide (matchingRules = []) then true else existsb (rule_allows personAccess) matchingRules.

Definition canAccessDerivedResource (personAccess : Access.PersonAccess) (action resource : string)
  : bool :=
  if is_action resource ["file:public"; "file:workspace"; "memory:workspace"; "memory:conversation"]
  then is_action action [ActionRead; ActionWrite]
  else match CutPrefix resource "file:circle:" with
  | Some circleID => actionAllowedForCircle personAccess action circleID
  | None =>
    match CutPrefix resource "memory:circle:" with
    | Some circleID => actionAllowedForCircle personAccess action circleID
    | None =>
      match CutPrefix resource "file:private:" with
      | Some personID => actionAllowedForPrivatePerson personAccess action personID
      | None =>
        match CutPrefix resource "memory:private:" with
        | Some personID => actionAllowedForPrivatePerson personAccess action personID
        | None =>
          if bool_decide (resource = "file:internal") then
            hasCircle personAccess "admin" &&
            is_action action [ActionRead; ActionWrite; ActionManage]
          else false
        end
      end
    end
  end.

Definition isDeniedDerivedResource (personAccess : Access.PersonAccess) (resource : string) : bool :=
  match CutPrefix resource "file:circle:" with
  | Some circleID => negb (hasCircle personAccess circleID)
  | None =>
    match CutPrefix resource "memory:circle:" with
    | Some circleID => negb (hasCircle personAccess circleID)
    | None =>
      match CutPrefix resource "file:private:" with
      | Some personID =>
        negb (bool_decide (TrimSpace (Access.PersonID personAccess) = TrimSpace personID))
      | None =>
        match CutPrefix resource "memory:private:" with
        | Some personID =>
          negb (bool_decide (TrimSpace (Access.PersonID personAccess) = TrimSpace personID))
        | None =>
          bool_decide (resource = "file:internal") && negb (hasCircle personAccess "admin")
        end
      end
    end
  end.

Definition CanAccess (request : Request) : bool :=
  let personAccess := RequestPersonAccess request in
  let resource := normalizeText (RequestResource request) in
  let action := normalizeText (Action request) in
  if bool_decide (resource = "") || bool_decide (action = "") then false
  else if negb (bool_decide
         (matchingResourceRules (Access.ResourceAccessRules personAccess) action resource = []))
  then canAccessPolicyResource personAccess action resource
  else if canAccessDerivedResource personAccess action resource then true
  else if isDeniedDerivedResource personAccess resource then false
  else canAccessPolicyResource personAccess action resource.

(** ** The decision in a closed form *)

(** Who holds a resource by its name: the people of a circle, one person, the
    administrators; [None] for a resource that is everyone's. *)
Inductive holder :=
| CircleHolder (circleID : string)
| PersonHolder (personID : string).

Definition resource_holder (resource : string) : option holder :=
  match CutPrefix resource "file:circle:" with
  | Some circleID => Some (CircleHolder circleID)
  | None =>
    match CutPrefix resource "memory:circle:" with
    | Some circleID => Some (CircleHolder circleID)
    | None =>
      match CutPrefix resource "file:private:" with
      | Some personID => Some (PersonHolder personID)
      | None =>
        match CutPrefix resource "memory:private:" with
        | Some personID => Some (PersonHolder personID)
        | None => if bool_decide (resource = "file:internal") then Some (CircleHolder "admin") else None
        end
      end
    end
  end.

Definition holds (personAccess : Access.PersonAccess) (h : option holder) : bool :=
  match h with
  | None => true
  | Some (CircleHolder circleID) => hasCircle personAccess circleID
  | Some (PersonHolder personID) =>
    bool_decide (TrimSpace (Access.PersonID personAccess) = TrimSpace personID)
  end.

Lemma derived_and_denied personAccess action resource :
  (if canAccessDerivedResource personAccess action resource then true
   else negb (isDeniedDerivedResource personAccess resource))
  = holds personAccess (resource_holder resource).
Proof.
  unfold canAccessDerivedResource, isDeniedDerivedResource, resource_holder, holds, is_action.
  destruct (bool_decide (resource ∈ _)) eqn:Hpublic.
  { bool_to_prop; repeat (apply elem_of_cons in Hpublic as [->|Hpublic]);
      [..|by apply elem_of_nil in Hpublic]; vm_compute CutPrefix; cbn;
      by destruct (bool_decide (action ∈ _)). }
  unfold actionAllowedForCircle, actionAllowedForPrivatePerson, is_action.
  destruct (CutPrefix resource "file:circle:") as [c|].
  { by destruct (bool_decide (action ∈ _)), (hasCircle personAccess c). }
  destruct (CutPrefix resource "memory:circle:") as [c|].
  { by destruct (bool_decide (action ∈ _)), (hasCircle personAccess c). }
  destruct (CutPrefix resource "file:private:") as [p|].
  { by destruct (bool_decide (action ∈ _)), (bool_decide (TrimSpace _ = _)). }
  destruct (CutPrefix resource "memory:private:") as [p|].
  { by destruct (bool_decide (action ∈ _)), (bool_decide (TrimSpace _ = _)). }
  destruct (bool_decide (resource = "file:internal")); [|done].
  by destruct (hasCircle personAccess "admin"), (bool_decide (action ∈ _)).
Qed.

End with_unicode.

Section decision.
Context `{UnicodeLaws}.

Lemma hasCircle_true personAccess circleID :
  hasCircle personAccess circleID = true <->
  normalizeText circleID <> "" /\
  exists v, v ∈ Access.Circles personAccess /\ normalizeText v = normalizeText circleID.
Proof.
  unfold hasCircle, normalizeCircles; rewrite existsb_elem_of.
  fold (normalizePolicyStrings (Access.Circles personAccess)); split.
  - intros (x & Hx & Heq); bool_to_prop; subst x; by apply normalizePolicyStrings_elem in Hx.
  - intros Hv; exists (normalizeText circleID); split; [|by apply bool_decide_eq_true].
    by apply normalizePolicyStrings_elem.
Qed.

Lemma hasAnyCircle_true personAccess circles :
  hasAnyCircle personAccess circles = true <->
  exists c v, c ∈ circles /\ v ∈ Access.Circles personAccess /\
    normalizeText c = normalizeText v /\ normalizeText c <> "".
Proof.
  unfold hasAnyCircle, normalizeCircles; rewrite existsb_elem_of.
  fold (normalizePolicyStrings circles); split.
  - intros (x & (_ & c & Hc & <-)%normalizePolicyStrings_elem & (Hne & v & Hv & Heq)%hasCircle_true).
    rewrite normalizeText_idemp in *; by exists c, v.
  - intros (c & v & Hc & Hv & Heq & Hne); exists (normalizeText c); split.
    + apply normalizePolicyStrings_elem; split; [done|by exists c].
    + apply hasCircle_true; rewrite normalizeText_idemp; split; [done|by exists v].
Qed.

Lemma normalizeCircles_nil circles :
  normalizeCircles circles = [] <-> forall c, c ∈ circles -> normalizeText c = "".
Proof.
  split.
  - intros Hnil c Hc; destruct (decide (normalizeText c = "")) as [|Hne]; [done|].
    assert (Hin : normalizeText c ∈ normalizePolicyStrings circles)
      by (apply normalizePolicyStrings_elem; split; [done|by exists c]).
    unfold normalizeCircles in Hnil; unfold normalizePolicyStrings in Hin.
    rewrite Hnil in Hin; by apply elem_of_nil in Hin.
  - intros Hall; destruct (normalizeCircles circles) as [|x l] eqn:Hl; [done|].
    assert (Hin : x ∈ normalizePolicyStrings circles).
    { unfold normalizePolicyStrings; unfold normalizeCircles in Hl; rewrite Hl; by left. }
    apply normalizePolicyStrings_elem in Hin as (Hne & c & Hc & <-); by rewrite Hall in Hne.
Qed.

(** The rules of a policy that name this resource and this action. *)
Definition rule_names (action resource : string) (rule : Rule.ResourceAccessPolicy) : Prop :=
  normalizeText (Rule.Resource rule) = normalizeText resource /\
  exists a, a ∈ Rule.Actions rule /\ normalizeText a = normalizeText action.

(** A rule is open to a person: it names no circle, or one the person is in. *)
Definition rule_open (personAccess : Access.PersonAccess) (rule : Rule.ResourceAccessPolicy) : Prop :=
  (forall c, c ∈ Rule.Circles rule -> normalizeText c = "") \/
  exists c v, c ∈ Rule.Circles rule /\ v ∈ Access.Circles personAccess /\
    normalizeText c = normalizeText v /\ normalizeText c <> "".

Lemma matchingResourceRules_elem rules action resource rule :
  rule ∈ matchingResourceRules rules (normalizeText action) (normalizeText resource) <->
  rule ∈ rules /\ rule_names action resource rule.
Proof.
  unfold matchingResourceRules, rule_names.
  rewrite list_elem_of_In, filter_In, <- list_elem_of_In, andb_true_iff, bool_decide_eq_true.
  unfold containsAction; rewrite existsb_elem_of; split.
  - intros (Hin & Hr & a & Ha & Heq); bool_to_prop; split; [done|]; split; [done|by exists a].
  - intros (Hin & Hr & a & Ha & Heq); split; [done|]; split; [done|]; exists a.
    split; [done|by apply bool_decide_eq_true].
Qed.

Lemma rule_allows_true personAccess rule :
  rule_allows personAccess rule = true <-> rule_open personAccess rule.
Proof.
  unfold rule_allows, rule_open.
  by rewrite orb_true_iff, bool_decide_eq_true, normalizeCircles_nil, hasAnyCircle_true.
Qed.

(** ** Properties *)

(** The whole decision: a request names a resource and an action or is
    refused; if the policy has rules for that action on that resource, one of
    them must be open to the person, and nothing else counts; if it has none,
    a circle's resource is for the people of the circle, a private one for its
    person alone, the internal files for administrators, and any other for
    everyone. *)
Theorem CanAccess_decision request :
  let personAccess := RequestPersonAccess request in
  let resource := RequestResource request in
  CanAccess request = true <->
  normalizeText resource <> "" /\ normalizeText (Action request) <> "" /\
  ((exists rule, rule ∈ Access.ResourceAccessRules personAccess /\
     rule_names (Action request) resource rule /\ rule_open personAccess rule) \/
   (forall rule, rule ∈ Access.ResourceAccessRules personAccess ->
     ~ rule_names (Action request) resource rule) /\
   holds personAccess (resource_holder (normalizeText resource)) = true).
Proof.
  intros personAccess resource; unfold CanAccess; fold personAccess resource.
  set (rules := matchingResourceRules (Access.ResourceAccessRules personAccess) _ _).
  assert (Hrules : forall rule, rule ∈ rules <-> rule ∈ Access.ResourceAccessRules personAccess /\
    rule_names (Action request) resource rule) by apply matchingResourceRules_elem.
  destruct (bool_decide (normalizeText resource = "") || _) eqn:Hblank.
  { apply orb_true_iff in Hblank as [?|?]; bool_to_prop; split; [done|tauto|done|tauto]. }
  bool_to_prop; unfold canAccessPolicyResource; fold rules.
  destruct (bool_decide (rules = [])) eqn:Hnil; bool_to_prop; cbn [negb].
  - rewrite <- (derived_and_denied personAccess (normalizeText (Action request))).
    assert (Hnone : forall rule, rule ∈ Access.ResourceAccessRules personAccess ->
      ~ rule_names (Action request) resource rule).
    { intros rule Hin Hn; assert (Hr : rule ∈ rules) by (by apply Hrules).
      rewrite Hnil in Hr; by apply elem_of_nil in Hr. }
    transitivity ((if canAccessDerivedResource personAccess (normalizeText (Action request))
        (normalizeText resource) then true
      else negb (isDeniedDerivedResource personAccess (normalizeText resource))) = true).
    { destruct (canAccessDerivedResource _ _ _); [done|].
      by destruct (isDeniedDerivedResource _ _). }
    split; [intros Hh; split_and!; [done..|by right]|].
    intros (_ & _ & [(rule & Hin & Hn & _)|[_ Hh]]); [by destruct (Hnone rule Hin)|done].
  - rewrite existsb_elem_of; split.
    + intros (rule & [Hin Hn]%Hrules & Ho%rule_allows_true); split_and!; [done..|].
      left; by exists rule.
    + intros (_ & _ & [(rule & Hin & Hn & Ho)|[Hnone _]]).
      * exists rule; split; [by apply Hrules|by apply rule_allows_true].
      * destruct rules as [|rule l]; [done|]; destruct (proj1 (Hrules rule)) as [Hin Hn]; [by left|].
        by destruct (Hnone rule Hin).
Qed.

End decision.

(** A request of Ann's, under a policy without rules. *)
Definition ann_request (action resource : string) : Request :=
  MkRequest (Access.MkPersonAccess "ann" ["member"; "finance"] []) action resource.

Lemma CanAccess_decision_witness :
  let request := ann_request "read" "file:circle:Finance" in
  let personAccess := RequestPersonAccess request in
  let resource := RequestResource request in
  @CanAccess ascii_tables request = true <->
  @normalizeText ascii_tables resource <> "" /\ @normalizeText ascii_tables (Action request) <> "" /\
  ((exists rule, rule ∈ Access.ResourceAccessRules personAccess /\
     @rule_names ascii_tables (Action request) resource rule /\
     @rule_open ascii_tables personAccess rule) \/
   (forall rule, rule ∈ Access.ResourceAccessRules personAccess ->
     ~ @rule_names ascii_tables (Action request) resource rule) /\
   @holds ascii_tables personAccess (resource_holder (@normalizeText ascii_tables resource)) = true).
Proof. exact (@CanAccess_decision ascii_tables ascii_laws (ann_request "read" "file:circle:Finance")). Defined.

(** ** Where the code departs from what it means *)

(** The actions a circle's member may take on its resource ("read", "write",
    "manage") are listed in vain: what the list leaves out is allowed too, as
    no rule forbids it. *)
Lemma unlisted_actions_are_allowed `{UnicodeLaws} :
  actionAllowedForCircle (RequestPersonAccess (ann_request "execute" "file:circle:finance"))
    ActionExecute "finance" = false /\
  CanAccess (ann_request "execute" "file:circle:finance") = true.
Proof. split; vm_compute; reflexivity. Qed.

(** The resource is lower-cased and the person's ID is not: a person whose ID
    has a capital letter is denied their own private files. *)
Lemma capital_letters_lock_out `{UnicodeLaws} :
  CanAccess (MkRequest (Access.MkPersonAccess "Ann" ["member"] []) "read" "file:private:Ann") = false /\
  CanAccess (MkRequest (Access.MkPersonAccess "ann" ["member"] []) "read" "file:private:Ann") = true.
Proof. split; vm_compute; reflexivity. Qed.
