(* ===== verification/Identity.v ===== *)
(** * Who a message comes from and goes to: the identity service
    ([identity/identity_service.go]) and direct-message accounts
    ([identity/direct_message_account.go]). *)

From S2P Require Export AccessControl.

(** ** Data *)

Module Account.
Record PlatformAccountIdentity := MkPlatformAccountIdentity {
  Platform : string;
  ExternalUserID : string;
  Email : string;
  DisplayName : string;
  PersonID : string;
}.
End Account.

(** [platformAccountRepository] is kept apart: the operations that read it take
    what [ListPlatformAccount] returned. *)
Record IdentityService := MkIdentityService {
  personIDByEmail : gmap string string;
  emailByPersonID : gmap string string;
  displayNameByPersonID : gmap string string;
  personAccessByPersonID : gmap string Access.PersonAccess;
  channelByCompositeKey : gmap string Channel.ChannelPolicy;
  personIDByPlatformAccountKey : gmap string string;
  containedCirclesByID : gmap string (list string);
}.

Definition empty_service : IdentityService := MkIdentityService ∅ ∅ ∅ ∅ ∅ ∅ ∅.

Definition account_key (platform externalUserID : string) : string :=
  platform +:+ ":" +:+ externalUserID.

Section with_unicode.
Context `{UnicodeTables}.

(** ** Loading the policy *)

(** One turn of the range over the emails of the projection. *)
Definition load_email (tables : gmap string string * gmap string string) (kv : string * string)
  : gmap string string * gmap string string :=
  let '(byEmail, byPerson) := tables in
  let '(email, personID) := kv in
  let normalizedEmail := normalizeText email in
  let byEmail := <[normalizedEmail := personID]> byEmail in
  let byPerson :=
    if bool_decide (default "" (byPerson !! personID) = "")
    then <[personID := normalizedEmail]> byPerson else byPerson in
  (byEmail, byPerson).

(** [emails] is the order in which the range visits the projection's emails.
    The other tables are copied entry by entry. *)
Definition reloadPolicyProjection (emails : list (string * string)) (projection : PolicyProjection)
  : IdentityService :=
  let '(byEmail, byPerson) := foldl load_email (∅, ∅) emails in
  {| personIDByEmail := byEmail;
     emailByPersonID := byPerson;
     displayNameByPersonID := DisplayNameByPersonID projection;
     personAccessByPersonID := PersonAccessByPersonID projection;
     channelByCompositeKey := ChannelByCompositeKey projection;
     personIDByPlatformAccountKey := ∅;
     containedCirclesByID := ContainedCirclesByID projection |}.

Definition NewIdentityService (emails : list (string * string)) (projection : PolicyProjection)
  : IdentityService := reloadPolicyProjection emails projection.

(** ** Platform accounts *)

Definition currentPolicyPersonID (service : IdentityService)
    (account : Account.PlatformAccountIdentity) : string :=
  let emailPersonID :=
    if negb (bool_decide (Account.Email account = ""))
    then default "" (personIDByEmail service !! normalizeText (Account.Email account))
    else "" in
  if negb (bool_decide (emailPersonID = "")) then emailPersonID
  else match personAccessByPersonID service !! Account.PersonID account with
       | Some _ => Account.PersonID account
       | None => ""
       end.

Definition set_account (platform externalUserID personID : string) (s : IdentityService)
  : IdentityService :=
  MkIdentityService (personIDByEmail s) (emailByPersonID s) (displayNameByPersonID s)
    (personAccessByPersonID s) (channelByCompositeKey s)
    (<[account_key platform externalUserID := personID]> (personIDByPlatformAccountKey s))
    (containedCirclesByID s).

Definition load_account (s : IdentityService) (account : Account.PlatformAccountIdentity)
  : IdentityService :=
  let personID := currentPolicyPersonID s account in
  if bool_decide (personID = "") then s
  else set_account (Account.Platform account) (Account.ExternalUserID account) personID s.

(** [accounts]: [None] without a repository, or when listing fails. *)
Definition reloadPlatformAccounts (accounts : option (list Account.PlatformAccountIdentity))
    (s : IdentityService) : IdentityService :=
  match accounts with None => s | Some accounts => foldl load_account s accounts end.

Definition UsePlatformAccountRepository
    (accounts : option (list Account.PlatformAccountIdentity)) (s : IdentityService)
  : IdentityService := reloadPlatformAccounts accounts s.

Definition ReloadPolicyProjection (emails : list (string * string)) (projection : PolicyProjection)
    (accounts : option (list Account.PlatformAccountIdentity)) (s : IdentityService)
  : IdentityService :=
  reloadPlatformAccounts accounts (reloadPolicyProjection emails projection).

(** The account to save, if the email is a person's. *)
Definition RememberPlatformAccount (account : Account.PlatformAccountIdentity)
    (s : IdentityService) : IdentityService * option Account.PlatformAccountIdentity :=
  match personIDByEmail s !! normalizeText (Account.Email account) with
  | None => (s, None)
  | Some personID =>
    (set_account (Account.Platform account) (Account.ExternalUserID account) personID s,
     Some (Account.MkPlatformAccountIdentity (Account.Platform account)
       (Account.ExternalUserID account) (Account.Email account) (Account.DisplayName account)
       personID))
  end.

(** ** Lookups *)

Definition ResolvePersonIDByEmail (email : string) (s : IdentityService) : option string :=
  personIDByEmail s !! normalizeText email.

Definition IsApprovedInternalEmail (email : string) (s : IdentityService) : bool :=
  bool_decide (is_Some (ResolvePersonIDByEmail email s)).

Definition ResolvePersonIDByPlatformAccount (platform externalUserID : string)
    (s : IdentityService) : option string :=
  personIDByPlatformAccountKey s !! account_key platform externalUserID.

Definition ResolvePersonAccess (personID : string) (s : IdentityService) : Access.PersonAccess :=
  match personAccessByPersonID s !! personID with
  | None => EnsureRequesterDefaults (Access.MkPersonAccess personID [] [])
  | Some personAccess => EnsureRequesterDefaults personAccess
  end.

Definition FindPersonAccess (personID : string) (s : IdentityService)
  : option Access.PersonAccess :=
  EnsureRequesterDefaults <$> personAccessByPersonID s !! personID.

Definition ResolvePersonPrimaryEmail (personID : string) (s : IdentityService) : string :=
  default "" (emailByPersonID s !! TrimSpace personID).

Definition ResolvePersonDisplayName (personID : string) (s : IdentityService) : string :=
  default "" (displayNameByPersonID s !! TrimSpace personID).

Definition ResolveConversationPolicy (platform conversationID : string) (s : IdentityService)
  : option Channel.ChannelPolicy :=
  channelByCompositeKey s !! account_key platform conversationID.

(** The loop of [ResolvePersonIDByDisplayName]; [None]: a second match. *)
Fixpoint find_display_name (wanted matchedPersonID : string) (names : list (string * string))
  : option string :=
  match names with
  | [] => Some matchedPersonID
  | (personID, candidate) :: names' =>
    if negb (EqualFold (TrimSpace candidate) wanted) then
      find_display_name wanted matchedPersonID names'
    else if negb (bool_decide (matchedPersonID = "")) then None
    else find_display_name wanted personID names'
  end.

(** [names] is the order in which the range visits the display names. *)
Definition ResolvePersonIDByDisplayName (names : list (string * string)) (displayName : string)
  : option string :=
  let wanted := TrimSpace displayName in
  if bool_decide (wanted = "") then None
  else match find_display_name wanted "" names with
       | None => None
       | Some matchedPersonID =>
         if negb (bool_decide (matchedPersonID = "")) then Some matchedPersonID else None
       end.

(** The people the directory names; [order] is the order their set is visited in. *)
Definition known_people (s : IdentityService) : gset string :=
  list_to_set (map_to_list (personIDByEmail s)).*2 ∪ dom (personAccessByPersonID s).

Definition EveryPersonAccess (order : list string) (s : IdentityService) : list Access.PersonAccess :=
  (fun personID => ResolvePersonAccess personID s) <$> order.

(** Every circle somebody holds. *)
Definition HeldCircles (s : IdentityService) : gset string :=
  list_to_set ((map_to_list (personAccessByPersonID s)).*2 ≫= fun a =>
    normalizeText <$> Access.Circles a).

(** ** The account to message a person directly *)

Definition account_before (a b : Account.PlatformAccountIdentity) : bool :=
  if negb (bool_decide (Account.Platform a = Account.Platform b)) then
    str_lt (Account.Platform a) (Account.Platform b)
  else str_lt (Account.ExternalUserID a) (Account.ExternalUserID b).

Definition direct_account (personID : string) (a : Account.PlatformAccountIdentity) : bool :=
  bool_decide (Account.PersonID a = personID) &&
  negb (bool_decide (Account.ExternalUserID a = "")) &&
  negb (bool_decide (Account.Platform a = "")) && negb (bool_decide (Account.Platform a = "api")).

Definition DirectMessageAccount (personID : string)
    (accounts : list Account.PlatformAccountIdentity) : option Account.PlatformAccountIdentity :=
  match stable_sort account_before (List.filter (direct_account personID) accounts) with
  | [] => None
  | [a] => Some a
  | a :: b :: _ =>
    if bool_decide (Account.Platform a = Account.Platform b) &&
       negb (bool_decide (Account.ExternalUserID a = Account.ExternalUserID b))
    then None else Some a
  end.

End with_unicode.

(** ** The tables after a load *)

Lemma NoDup_fmap_inj_on {A B} (f : A -> B) l x y :
  NoDup (f <$> l) -> x ∈ l -> y ∈ l -> f x = f y -> x = y.
Proof.
  induction l as [|z l IH]; [by intros _ ?%elem_of_nil|].
  rewrite fmap_cons, NoDup_cons; intros [Hz Hnd] [->|Hx]%elem_of_cons [->|Hy]%elem_of_cons Heq; auto.
  - destruct Hz; rewrite Heq; by apply list_elem_of_fmap_2.
  - destruct Hz; rewrite <- Heq; by apply list_elem_of_fmap_2.
Qed.

Section load.
Context `{UnicodeLaws}.

Lemma load_email_fst emails t :
  (foldl load_email t emails).1 = insert_all t.1 ((fun kv => (normalizeText kv.1, kv.2)) <$> emails).
Proof.
  revert t; induction emails as [|[e p] emails IH]; intros [m1 m2]; [done|]; cbn [foldl].
  rewrite IH; done.
Qed.

Lemma reload_personIDByEmail emails projection :
  personIDByEmail (reloadPolicyProjection emails projection) =
    insert_all ∅ ((fun kv => (normalizeText kv.1, kv.2)) <$> emails).
Proof.
  unfold reloadPolicyProjection; pose proof (load_email_fst emails (∅, ∅)) as Hl.
  by destruct (foldl load_email (∅, ∅) emails).
Qed.

Lemma reload_personAccess emails projection :
  personAccessByPersonID (reloadPolicyProjection emails projection) = PersonAccessByPersonID projection.
Proof. unfold reloadPolicyProjection; by destruct (foldl load_email _ _). Qed.

Lemma reload_accounts emails projection :
  personIDByPlatformAccountKey (reloadPolicyProjection emails projection) = ∅.
Proof. unfold reloadPolicyProjection; by destruct (foldl load_email _ _). Qed.

(** For a valid document the order of the range does not matter: an email is
    known exactly when it is, up to blanks and case, one of a person's. *)
Lemma reload_valid d emails k personID :
  valid_document d ->
  emails ≡ₚ map_to_list (PersonIDByEmail (ReplacePolicyProjectionTransactionally d)) ->
  personIDByEmail (reloadPolicyProjection emails (ReplacePolicyProjectionTransactionally d)) !! k
    = Some personID <->
  exists p e, p ∈ people d /\ e ∈ Person.Emails p /\ normalizeText e = k /\ Person.PersonID p = personID.
Proof.
  intros Hv He; set (t := ReplacePolicyProjectionTransactionally d) in *.
  assert (Hin : forall e' p', (e', p') ∈ emails <->
    exists p e, p ∈ people d /\ e ∈ Person.Emails p /\ ToLower e = e' /\ Person.PersonID p = p').
  { intros e' p'; rewrite He, elem_of_map_to_list; by apply PersonIDByEmail_lookup. }
  rewrite reload_personIDByEmail, insert_all_Some; cycle 1.
  { assert (Hkeys : ((fun kv : string * string => (normalizeText kv.1, kv.2)) <$> emails).*1
      = normalizeText <$> emails.*1) by (rewrite <- !list_fmap_compose; reflexivity).
    rewrite Hkeys.
    apply NoDup_fmap_2_strong; [|rewrite He; apply NoDup_fst_map_to_list].
    intros x y Hx Hy Heq.
    apply list_elem_of_fmap in Hx as ([e1 p1] & -> & (q1 & f1 & Hq1 & Hf1 & <- & _)%Hin).
    apply list_elem_of_fmap in Hy as ([e2 p2] & -> & (q2 & f2 & Hq2 & Hf2 & <- & _)%Hin).
    cbn in *; rewrite !normalizeText_ToLower in Heq; f_equal.
    eapply NoDup_fmap_inj_on; [exact (valid_emails d Hv)|..|exact Heq];
      apply list_elem_of_bind; eauto. }
  rewrite lookup_empty, list_elem_of_fmap; split.
  - intros [([e' p'] & [= -> ->] & (p & e & Hp & Hpe & <- & <-)%Hin)|[_ ?]]; [|done].
    exists p, e; by rewrite normalizeText_ToLower.
  - intros (p & e & Hp & Hpe & <- & <-); left; exists (ToLower e, Person.PersonID p); cbn.
    split; [by rewrite normalizeText_ToLower|]; apply Hin; by exists p, e.
Qed.

(** ** Accounts name people of the policy *)

Definition known_person (s : IdentityService) (personID : string) : Prop :=
  (exists email, personIDByEmail s !! email = Some personID) \/
  is_Some (personAccessByPersonID s !! personID).

Definition accounts_known (s : IdentityService) : Prop :=
  forall key personID, personIDByPlatformAccountKey s !! key = Some personID -> known_person s personID.

Lemma set_account_known platform user personID s :
  accounts_known s -> known_person s personID -> accounts_known (set_account platform user personID s).
Proof.
  intros Hs Hp key p Hkey; cbn [set_account personIDByPlatformAccountKey] in Hkey.
  apply lookup_insert_Some in Hkey as [[_ <-]|[_ Hkey]]; [done|by apply (Hs key)].
Qed.

Lemma currentPolicyPersonID_known s account :
  currentPolicyPersonID s account <> "" -> known_person s (currentPolicyPersonID s account).
Proof.
  unfold currentPolicyPersonID, known_person; intros Hne.
  set (e := if negb _ then _ else "") in *.
  destruct (bool_decide (e = "")) eqn:He; cbn [negb] in *.
  - destruct (personAccessByPersonID s !! Account.PersonID account) eqn:Ha; [|done].
    right; rewrite Ha; by eexists.
  - left; unfold e in *; clear e; destruct (bool_decide (Account.Email account = "")); cbn in *; [done|].
    destruct (personIDByEmail s !! _) as [p|] eqn:Hp; [by eexists|done].
Qed.

Lemma load_account_known account s : accounts_known s -> accounts_known (load_account s account).
Proof.
  intros Hs; unfold load_account; case_bool_decide as He; [done|].
  apply set_account_known; [done|by apply currentPolicyPersonID_known].
Qed.

Lemma reloadPlatformAccounts_known accounts s :
  accounts_known s -> accounts_known (reloadPlatformAccounts accounts s).
Proof.
  destruct accounts as [accounts|]; [|done]; cbn.
  revert s; induction accounts as [|a accounts IH]; intros s Hs; [done|]; cbn.
  by apply IH, load_account_known.
Qed.

Lemma reloadPolicyProjection_known emails projection :
  accounts_known (reloadPolicyProjection emails projection).
Proof. intros key p; rewrite reload_accounts; by rewrite lookup_empty. Qed.

Lemma RememberPlatformAccount_known account s :
  accounts_known s -> accounts_known (RememberPlatformAccount account s).1.
Proof.
  intros Hs; unfold RememberPlatformAccount.
  destruct (personIDByEmail s !! _) as [p|] eqn:Hp; [|done]; cbn.
  apply set_account_known; [done|left; by eexists].
Qed.

(** A life of the service. *)
Inductive identity_run : IdentityService -> Prop :=
| identity_new emails projection : identity_run (NewIdentityService emails projection)
| identity_use accounts s : identity_run s -> identity_run (UsePlatformAccountRepository accounts s)
| identity_reload emails projection accounts s :
    identity_run s -> identity_run (ReloadPolicyProjection emails projection accounts s)
| identity_remember account s : identity_run s -> identity_run (RememberPlatformAccount account s).1.

Lemma identity_run_known s : identity_run s -> accounts_known s.
Proof.
  induction 1.
  - apply reloadPolicyProjection_known.
  - by apply reloadPlatformAccounts_known.
  - apply reloadPlatformAccounts_known, reloadPolicyProjection_known.
  - by apply RememberPlatformAccount_known.
Qed.

End load.

(** ** Properties *)

(** With a policy the validator accepts, an email names a person exactly
    when it is, up to blanks and case, one of that person's emails: nobody is
    taken for another, and nobody is unknown, whatever order the tables are
    filled in. *)
Theorem emails_name_their_person `{UnicodeLaws} d emails email personID :
  ValidatePolicyDocument d = Ok tt ->
  emails ≡ₚ map_to_list (PersonIDByEmail (ReplacePolicyProjectionTransactionally d)) ->
  let s := NewIdentityService emails (ReplacePolicyProjectionTransactionally d) in
  ResolvePersonIDByEmail email s = Some personID <->
  exists p, p ∈ people d /\ Person.PersonID p = personID /\
    exists e, e ∈ Person.Emails p /\ normalizeText e = normalizeText email.
Proof.
  intros Hv%ValidatePolicyDocument_Ok He s; unfold ResolvePersonIDByEmail, s, NewIdentityService.
  rewrite reload_valid by done; split.
  - intros (p & e & ? & ? & ? & ?); exists p; split_and!; [done..|by exists e].
  - intros (p & ? & ? & e & ? & ?); by exists p, e.
Qed.

Lemma emails_name_their_person_witness :
  let t := @ReplacePolicyProjectionTransactionally ascii_tables sample_document in
  let s := @NewIdentityService ascii_tables (map_to_list (PersonIDByEmail t)) t in
  @ResolvePersonIDByEmail ascii_tables " ANN@example.com" s = Some "ann" <->
  exists p, p ∈ people sample_document /\ Person.PersonID p = "ann" /\
    exists e, e ∈ Person.Emails p /\
      @normalizeText ascii_tables e = @normalizeText ascii_tables " ANN@example.com".
Proof.
  apply (@emails_name_their_person ascii_tables ascii_laws).
  - vm_compute; reflexivity.
  - reflexivity.
Defined.

(** A platform account never signs in as somebody the policy does not know:
    in any life of the service (loads, reloads, accounts remembered, accounts
    read from a repository) an account resolves only to a person who has an
    email or an entry in the policy loaded last. *)
Theorem accounts_resolve_to_known_people `{UnicodeLaws} s platform externalUserID personID :
  identity_run s ->
  ResolvePersonIDByPlatformAccount platform externalUserID s = Some personID ->
  known_person s personID.
Proof. intros Hr Hk; by eapply identity_run_known. Qed.

Definition ann_account : Account.PlatformAccountIdentity :=
  Account.MkPlatformAccountIdentity "slack" "U1" "ann@example.com" "Ann" "".

Lemma accounts_resolve_to_known_people_witness :
  let t := @ReplacePolicyProjectionTransactionally ascii_tables sample_document in
  let s := (@RememberPlatformAccount ascii_tables ann_account
    (@NewIdentityService ascii_tables (map_to_list (PersonIDByEmail t)) t)).1 in
  known_person s "ann".
Proof.
  intros t s; apply (@accounts_resolve_to_known_people ascii_tables ascii_laws s "slack" "U1" "ann").
  - apply identity_remember, identity_new.
  - vm_compute; reflexivity.
Defined.

(** What a person may do is what the policy says of that person and no
    more: with a valid policy a person's circles are the member circle, the
    admin circle for an administrator, and the circles the policy lists; and an
    ID the policy does not name is in the member circle alone, under no rule. *)
Theorem ResolvePersonAccess_follows_the_policy `{UnicodeLaws} d emails personID :
  ValidatePolicyDocument d = Ok tt ->
  let a := ResolvePersonAccess personID
    (NewIdentityService emails (ReplacePolicyProjectionTransactionally d)) in
  Access.PersonID a = personID /\
  (forall x, x ∈ Access.Circles a <-> x = MemberCircleID \/
    exists p, p ∈ people d /\ Person.PersonID p = personID /\
      (Person.IsAdmin p = true /\ x = AdminCircleID \/
       x <> "" /\ exists v, v ∈ Person.Circles p /\ normalizeText v = x)) /\
  Access.ResourceAccessRules a =
    if existsb (fun p => bool_decide (Person.PersonID p = personID)) (people d)
    then ResourceAccess d else [].
Proof.
  intros Hv%ValidatePolicyDocument_Ok a; unfold a, ResolvePersonAccess, NewIdentityService.
  rewrite reload_personAccess.
  pose proof (fun b => PersonAccessByPersonID_lookup d personID b Hv) as Hl.
  destruct (PersonAccessByPersonID _ !! personID) as [b|].
  - destruct (proj1 (Hl b) eq_refl) as (p & Hp & Hid & ->); cbn.
    assert (Hunique : forall q, q ∈ people d -> Person.PersonID q = personID -> q = p).
    { intros q Hq Hqid; eapply NoDup_fmap_inj_on; [exact (valid_person_ids d Hv)|done|done|congruence]. }
    split_and!; [done| |].
    + intros x; rewrite normalizePolicyStrings_elem; split.
      * intros (Hne & v & [->|Hvin]%elem_of_cons & <-); [left; apply MemberCircleID_normal|].
        assert (Hnv : normalizeText v = v).
        { unfold effectivePersonCircles in Hvin.
          apply normalizePolicyStrings_elem in Hvin as (_ & w & _ & <-); apply normalizeText_idemp. }
        rewrite Hnv in *; apply effectivePersonCircles_elem in Hvin as [->|Hvin]; [by left|right].
        by exists p.
      * intros [->|(q & Hq & Hqid & Hx)].
        { split; [done|]; exists MemberCircleID; split; [by left|apply MemberCircleID_normal]. }
        rewrite (Hunique q Hq Hqid) in Hx.
        assert (Hin : x ∈ effectivePersonCircles p) by (apply effectivePersonCircles_elem; by right).
        pose proof Hin as Hn; unfold effectivePersonCircles in Hn.
        apply normalizePolicyStrings_elem in Hn as (Hne & w & _ & <-).
        split; [done|]; exists (normalizeText w); split; [by right|apply normalizeText_idemp].
    + assert (Hex : existsb (fun p => bool_decide (Person.PersonID p = personID)) (people d) = true).
      { apply existsb_elem_of; exists p; split; [done|by apply bool_decide_eq_true]. }
      by rewrite Hex.
  - assert (Hnone : forall p, p ∈ people d -> Person.PersonID p <> personID).
    { intros p Hp Hid; assert (Hl' := proj2 (Hl (Access.MkPersonAccess personID
        (effectivePersonCircles p) (ResourceAccess d)))); discriminate Hl'; by exists p. }
    cbn; split_and!; [done| |].
    + intros x; rewrite normalizePolicyStrings_elem; split.
      * intros (_ & v & ->%list_elem_of_singleton & <-); left; apply MemberCircleID_normal.
      * intros [->|(p & Hp & Hid & _)]; [|by destruct (Hnone p Hp)].
        split; [done|]; exists MemberCircleID; split; [by left|apply MemberCircleID_normal].
    + destruct (existsb _ _) eqn:Hex; [|done].
      apply existsb_elem_of in Hex as (p & Hp & Hid); bool_to_prop; by destruct (Hnone p Hp).
Qed.

Lemma ResolvePersonAccess_follows_the_policy_witness :
  let U := ascii_tables in
  let a := @ResolvePersonAccess U "eve" (@NewIdentityService U []
    (@ReplacePolicyProjectionTransactionally U sample_document)) in
  Access.PersonID a = "eve" /\
  (forall x, x ∈ Access.Circles a <-> x = MemberCircleID \/
    exists p, p ∈ people sample_document /\ Person.PersonID p = "eve" /\
      (Person.IsAdmin p = true /\ x = AdminCircleID \/
       x <> "" /\ exists v, v ∈ Person.Circles p /\ @normalizeText U v = x)) /\
  Access.ResourceAccessRules a =
    if existsb (fun p => bool_decide (Person.PersonID p = "eve")) (people sample_document)
    then ResourceAccess sample_document else [].
Proof.
  apply (@ResolvePersonAccess_follows_the_policy ascii_tables ascii_laws sample_document []).
  vm_compute; reflexivity.
Defined.

(** ** Where the code departs from what it means *)

(** The primary email of a person with two is the one Go's range happens to
    visit first, not the first one of the policy: it may change at each load. *)
Definition two_emails : PolicyDocument :=
  MkPolicyDocument (Some [Person.MkPersonPolicy "p" "" ["a@x"; "b@x"] [] false "" "" ""])
    [] [] (MkCompanyPolicy "" "" "" "" "" "" "" "") [] [] 30 1 "".

Lemma primary_email_depends_on_the_range `{UnicodeLaws} :
  let t := ReplacePolicyProjectionTransactionally two_emails in
  let one := [("a@x", "p"); ("b@x", "p")] in
  let other := [("b@x", "p"); ("a@x", "p")] in
  map_to_list (PersonIDByEmail t) ≡ₚ one /\ map_to_list (PersonIDByEmail t) ≡ₚ other /\
  ResolvePersonPrimaryEmail "p" (NewIdentityService one t) = "a@x" /\
  ResolvePersonPrimaryEmail "p" (NewIdentityService other t) = "b@x".
Proof.
  intros t one other.
  assert (Hone : map_to_list (PersonIDByEmail t) ≡ₚ one).
  { assert (PersonIDByEmail t = list_to_map one) as -> by (vm_compute; reflexivity).
    apply map_to_list_to_map, NoDup_cons; split; [|apply NoDup_singleton].
    by intros ?%list_elem_of_singleton. }
  split_and!; [done|rewrite Hone; apply perm_swap|vm_compute; reflexivity|vm_compute; reflexivity].
Qed.
