(* ===== verification/PosixIdentity.v ===== *)
(** * Linux users, groups and directories for the people and circles of a policy
    ([security/posix_identity.go], [security/task_temporary_directory.go]).

    SHA-1 is the function of [GoHash.v].  The order in which a map is visited and
    the system's user database are parameters. *)

From S2P Require Export GoHash GoPath Policy.

(** ** Lists of strings *)

Definition uniqueStrings (values : list string) : list string := distinct_by TrimSpace ∅ values.

Fixpoint firstNonEmptyString (values : list string) : string :=
  match values with
  | [] => ""
  | value :: values' =>
    if negb (bool_decide (TrimSpace value = "")) then TrimSpace value
    else firstNonEmptyString values'
  end.

(** ** Names of Linux users and groups *)

Definition blueclawServiceUserName : string := "blueclaw".
Definition posixSharedGroupName : string := "bc_shared".
Definition posixNameMaximumLength : Z := 31.
Definition LinuxCircleGroupPrefix : string := "bc_circle_".
Definition LinuxPersonPrefix : string := "bc_person_".

Definition len (s : string) : Z := Z.of_nat (length (bytes_of s)).

(** [s[:n]]; the code slices within the length. *)
Definition slice_to (s : string) (n : Z) : string := of_bytes (take (Z.to_nat n) (bytes_of s)).

Definition shortHash (value : string) : string :=
  slice_to (of_bytes (EncodeToString (Sum (bytes_of value)))) 8.

Definition name_ends : bytes := ["_"%char; "-"%char].

(** What the loop over runes writes for one. *)
Definition linux_name_byte (runeValue : Z) : ascii :=
  if between 97 122 runeValue then byte_of runeValue
  else if between 48 57 runeValue then byte_of runeValue
  else if (runeValue =? 45) || (runeValue =? 95) then byte_of runeValue
  else "_"%char.

Definition starts_with_digit (value : string) : bool :=
  match bytes_of value with a :: _ => between 48 57 (byte a) | [] => false end.

Section names.
Context `{UnicodeTables}.

Definition normalizeLinuxNameValue (value : string) : string :=
  let builder := of_bytes (linux_name_byte <$> runes (ToLower (TrimSpace value))) in
  let normalizedValue := Trim builder name_ends in
  if bool_decide (normalizedValue = "") then "id_" +:+ shortHash value
  else if starts_with_digit normalizedValue then "id_" +:+ normalizedValue
  else normalizedValue.

Definition hasLossyLinuxNameNormalization (value normalizedValue : string) : bool :=
  let trimmedValue := TrimSpace value in
  if bool_decide (trimmedValue = "") then true
  else if starts_with_digit trimmedValue then true
  else negb (bool_decide (ToLower trimmedValue = normalizedValue)).

Definition linuxNameValueWithSuffix (normalizedValue value : string) (maximumLength : Z) : string :=
  let hashValue := shortHash value in
  let valueLength := maximumLength - len hashValue - 1 in
  if valueLength <? 1 then slice_to hashValue maximumLength
  else
    let shortenedValue := Trim normalizedValue name_ends in
    let shortenedValue :=
      if valueLength <? len shortenedValue then Trim (slice_to shortenedValue valueLength) name_ends
      else shortenedValue in
    let shortenedValue := if bool_decide (shortenedValue = "") then "id" else shortenedValue in
    shortenedValue +:+ "_" +:+ hashValue.

Definition shortenedLinuxName (prefix value : string) : string :=
  let normalizedValue := normalizeLinuxNameValue value in
  let normalizedValue :=
    if hasLossyLinuxNameNormalization value normalizedValue
    then linuxNameValueWithSuffix normalizedValue value (posixNameMaximumLength - len prefix)
    else normalizedValue in
  let candidate := prefix +:+ normalizedValue in
  if len candidate <=? posixNameMaximumLength then candidate
  else
    let hashValue := shortHash value in
    let valueLength := posixNameMaximumLength - len prefix - len hashValue - 1 in
    let valueLength := if valueLength <? 1 then 1 else valueLength in
    prefix +:+ Trim (slice_to normalizedValue valueLength) name_ends +:+ "_" +:+ hashValue.

Definition LinuxPersonUserName (personID : string) : string :=
  shortenedLinuxName LinuxPersonPrefix personID.

Definition LinuxCircleGroupName (circleID : string) : string :=
  shortenedLinuxName LinuxCircleGroupPrefix circleID.

Definition normalizeStringList (values : list string) : list string :=
  List.filter (fun v => negb (bool_decide (v = ""))) (normalizeText <$> values).

End names.

Example names_of_tests :
  @LinuxPersonUserName ascii_tables "person-1" = "bc_person_person-1" /\
  @LinuxCircleGroupName ascii_tables "C-Level" = "bc_circle_c-level" /\
  @LinuxPersonUserName ascii_tables "this-person-identifier-is-far-too-long-for-linux"
    = "bc_person_this-person_6852e812" /\
  @LinuxPersonUserName ascii_tables "person!" = "bc_person_person_ab0ff811".
Proof. vm_compute; repeat split. Qed.

(** ** Paths of the workspace *)

Definition isDirectoryLetter (letter : Z) : bool :=
  between 97 122 letter || between 65 90 letter || between 48 57 letter ||
  (letter =? 45) || (letter =? 95).

Definition isDirectoryName (identifier : string) : bool :=
  negb (bool_decide (identifier = "")) && forallb isDirectoryLetter (runes identifier).

Definition underWorkspace (workspaceRootPath : string) (names : list string) : string :=
  if bool_decide (TrimSpace workspaceRootPath = "") then ""
  else PathJoin (workspaceRootPath :: names).

Definition subjectDirectoryPath (parentPath subjectID : string) : string :=
  let trimmedSubjectID := TrimSpace subjectID in
  if bool_decide (parentPath = "") || negb (isDirectoryName trimmedSubjectID) then ""
  else PathJoin [parentPath; trimmedSubjectID].

Definition PersonHomeDirectoryPath (workspaceRootPath personID : string) : string :=
  subjectDirectoryPath (underWorkspace workspaceRootPath ["private"; "people"]) personID.

Definition RequesterTemporaryDirectoryPath (requesterHomePath : string) : string :=
  if bool_decide (TrimSpace requesterHomePath = "") then ""
  else PathJoin [requesterHomePath; "tmp"].

Definition taskTemporaryDirectoryName : string := "tasks".

Definition TaskTemporaryDirectoryPath (requesterHomePath taskRunID : string) : string :=
  let requesterTemporaryDirectoryPath := RequesterTemporaryDirectoryPath requesterHomePath in
  let trimmedTaskRunID := TrimSpace taskRunID in
  if bool_decide (requesterTemporaryDirectoryPath = "") || bool_decide (trimmedTaskRunID = "")
  then ""
  else PathJoin [requesterTemporaryDirectoryPath; taskTemporaryDirectoryName; trimmedTaskRunID].

Definition ProtectedDirectoryPath (subjectDirectoryPath : string) : string :=
  if bool_decide (TrimSpace subjectDirectoryPath = "") then ""
  else PathJoin [subjectDirectoryPath; ".protected"].

Definition PeopleProtectedDirectoryPath (workspaceRootPath : string) : string :=
  underWorkspace workspaceRootPath ["private"; "protected"].

Definition PersonProtectedDirectoryPath (workspaceRootPath personID : string) : string :=
  subjectDirectoryPath (PeopleProtectedDirectoryPath workspaceRootPath) personID.

Definition CirclesDirectoryPath (workspaceRootPath : string) : string :=
  underWorkspace workspaceRootPath ["circles"].

Definition CircleDirectoryPath (workspaceRootPath circleID : string) : string :=
  subjectDirectoryPath (CirclesDirectoryPath workspaceRootPath) circleID.

Definition SharedDirectoryPath (workspaceRootPath : string) : string :=
  underWorkspace workspaceRootPath ["shared"].

Example paths_of_tests :
  PersonHomeDirectoryPath "/workspace" "person-1" = "/workspace/private/people/person-1" /\
  TaskTemporaryDirectoryPath "/workspace/private/people/person-1" "task-run-1"
    = "/workspace/private/people/person-1/tmp/tasks/task-run-1" /\
  CircleDirectoryPath "/workspace" <$> ["../../etc"; ".."; "a/b"; "a b"; ""; "finance"]
    = [""; ""; ""; ""; ""; "/workspace/circles/finance"].
Proof. vm_compute; repeat split. Qed.

(** ** The state the system is to have *)

Record ExecutionIdentity := MkExecutionIdentity {
  UserName : string;
  GroupName : string;
  SupplementaryGroupNames : list string;
  HomeDirectoryPath : string;
  UserID : Z;
  GroupID : Z;
  SupplementaryGroupIDs : list Z;
}.

Record POSIXGroup := MkPOSIXGroup { POSIXGroup_Name : string }.

Module User.
Record POSIXUser := MkPOSIXUser {
  Name : string;
  HomePath : string;
  GroupName : string;
  Groups : list string;
}.
End User.

Module Directory.
Record POSIXDirectory := MkPOSIXDirectory {
  Path : string;
  Owner : string;
  Group : string;
  ModeText : string;
}.
End Directory.

Record POSIXState := MkPOSIXState {
  Users : list User.POSIXUser;
  Groups : list POSIXGroup;
  Directories : list Directory.POSIXDirectory;
}.

Definition service_directory (path group modeText : string) : Directory.POSIXDirectory :=
  Directory.MkPOSIXDirectory path blueclawServiceUserName group modeText.

Definition appendProtectedDirectory (directories : list Directory.POSIXDirectory)
    (protectedPath groupName : string) : list Directory.POSIXDirectory :=
  if bool_decide (protectedPath = "") then directories
  else (directories ++ [service_directory protectedPath groupName "2750"])%list.

Section state.
Context `{UnicodeTables}.

Definition isPOSIXCircle (normalizedCircleID : string) : bool :=
  CircleHoldsADirectory normalizedCircleID.

Definition ExecutionIdentityForPersonAccess (personAccess : Access.PersonAccess)
    (workspaceRootPath : string) : ExecutionIdentity :=
  let personID := TrimSpace (Access.PersonID personAccess) in
  if bool_decide (personID = "") then MkExecutionIdentity "" "" [] "" 0 0 []
  else
    let personAccess := EnsureRequesterDefaults personAccess in
    let groupNames :=
      posixSharedGroupName ::
      (LinuxCircleGroupName <$>
        List.filter isPOSIXCircle (normalizeText <$> Access.Circles personAccess)) in
    let userName := LinuxPersonUserName personID in
    MkExecutionIdentity userName userName (uniqueStrings groupNames)
      (PersonHomeDirectoryPath workspaceRootPath personID) 0 0 [].

Definition effectivePersonCirclesForPOSIX (personPolicy : Person.PersonPolicy) : list string :=
  uniqueStrings
    (List.filter isPOSIXCircle
      (normalizeStringList (MemberCircleID :: Person.Circles personPolicy))).

Definition circlePoliciesWithMemberDefault (circlePolicies : list Circle.CirclePolicy)
    (workspaceRootPath : string) : list Circle.CirclePolicy :=
  if existsb (fun c => bool_decide (normalizeText (Circle.CircleID c) = MemberCircleID)) circlePolicies
  then circlePolicies
  else
    (circlePolicies ++
     [Circle.MkCirclePolicy MemberCircleID "" "" (CircleDirectoryPath workspaceRootPath MemberCircleID) []])%list.

(** The directories that are there whatever the policy. *)
Definition workspace_directories (root : string) : list Directory.POSIXDirectory :=
  appendProtectedDirectory
    [service_directory (root +:+ "/circles") blueclawServiceUserName "0711";
     service_directory (root +:+ "/private") blueclawServiceUserName "0711";
     service_directory (root +:+ "/private/people") blueclawServiceUserName "0711";
     service_directory (root +:+ "/private/protected") blueclawServiceUserName "0711";
     service_directory (SharedDirectoryPath root) posixSharedGroupName "2755";
     service_directory (root +:+ "/shared/cache") posixSharedGroupName "2775";
     service_directory (root +:+ "/shared/cache/dependencies") posixSharedGroupName "2775";
     service_directory (root +:+ "/shared/cache/dependencies/bun") posixSharedGroupName "2775";
     service_directory (root +:+ "/shared/cache/dependencies/uv") posixSharedGroupName "2775";
     service_directory (root +:+ "/shared/cache/weather") posixSharedGroupName "2775";
     service_directory (root +:+ "/shared/cache/weather/open-meteo-v1") posixSharedGroupName "2775"]
    (ProtectedDirectoryPath (SharedDirectoryPath root)) posixSharedGroupName.

(** The loop over the circles, one turn. *)
Definition project_circle (root : string) (state : POSIXState) (circlePolicy : Circle.CirclePolicy)
  : POSIXState :=
  let circleID := normalizeText (Circle.CircleID circlePolicy) in
  if negb (isPOSIXCircle circleID) then state
  else
    let groupName := LinuxCircleGroupName circleID in
    let circleWorkspacePath :=
      firstNonEmptyString
        [Circle.WorkspaceDirectoryPath circlePolicy; CircleDirectoryPath root circleID] in
    MkPOSIXState (Users state) (Groups state ++ [MkPOSIXGroup groupName])
      (appendProtectedDirectory
        (Directories state ++ [service_directory circleWorkspacePath groupName "2750"])
        (ProtectedDirectoryPath circleWorkspacePath) groupName).

(** The loop over the people, one turn. *)
Definition project_posix_user (root : string) (state : POSIXState) (personPolicy : Person.PersonPolicy)
  : POSIXState :=
  let personID := TrimSpace (Person.PersonID personPolicy) in
  if bool_decide (personID = "") then state
  else
    let userName := LinuxPersonUserName personID in
    let groupNames :=
      userName :: posixSharedGroupName ::
      (LinuxCircleGroupName <$> effectivePersonCirclesForPOSIX personPolicy) in
    let homePath := PersonHomeDirectoryPath root personID in
    let own path := Directory.MkPOSIXDirectory path userName userName "0700" in
    MkPOSIXState
      (Users state ++ [User.MkPOSIXUser userName homePath userName (uniqueStrings groupNames)])
      (Groups state ++ [MkPOSIXGroup userName])
      (appendProtectedDirectory
        (Directories state ++
         [own homePath; own (RequesterTemporaryDirectoryPath homePath); own (homePath +:+ "/artifacts")])
        (PersonProtectedDirectoryPath root personID) userName).

(** The order in which the map of groups is visited. *)
Context (visit : gmap string POSIXGroup -> list (string * POSIXGroup)).

Definition name_group (m : gmap string POSIXGroup) (name : string) : gmap string POSIXGroup :=
  if negb (bool_decide (TrimSpace name = "")) then <[name := MkPOSIXGroup name]> m else m.

Definition name_user_groups (m : gmap string POSIXGroup) (user : User.POSIXUser)
  : gmap string POSIXGroup :=
  foldl name_group (<[User.GroupName user := MkPOSIXGroup (User.GroupName user)]> m)
    (User.Groups user).

Definition normalizePOSIXState (state : POSIXState) : POSIXState :=
  let groupByName := foldl name_group ∅ (POSIXGroup_Name <$> Groups state) in
  let groupByName := foldl name_user_groups groupByName (Users state) in
  MkPOSIXState (Users state) (visit groupByName).*2 (Directories state).

Definition POSIXStateForPolicy (policyDocument : PolicyDocument) (workspaceRootPath : string)
  : POSIXState :=
  let state :=
    MkPOSIXState [] [MkPOSIXGroup posixSharedGroupName] (workspace_directories workspaceRootPath) in
  let state :=
    foldl (project_circle workspaceRootPath) state
      (circlePoliciesWithMemberDefault (Policy.Circles policyDocument) workspaceRootPath) in
  let state := foldl (project_posix_user workspaceRootPath) state (people policyDocument) in
  normalizePOSIXState state.

End state.

(** ** Portable names *)

Definition portable_byte (a : ascii) : bool :=
  between 97 122 (byte a) || between 48 57 (byte a) || (byte a =? 45) || (byte a =? 95).

Definition portable (s : string) : bool := forallb portable_byte (bytes_of s).

Lemma len_app s t : len (s +:+ t) = len s + len t.
Proof. unfold len; rewrite bytes_of_app, length_app; lia. Qed.

Lemma len_nonneg s : 0 <= len s.
Proof. unfold len; lia. Qed.

Lemma portable_app s t : portable (s +:+ t) = portable s && portable t.
Proof. unfold portable; by rewrite bytes_of_app, forallb_app. Qed.

Lemma portable_of_bytes l : portable (of_bytes l) = forallb portable_byte l.
Proof. unfold portable; by rewrite bytes_of_bytes. Qed.

Lemma forallb_take {A} (f : A -> bool) n l : forallb f l = true -> forallb f (take n l) = true.
Proof.
  intros H; rewrite <- (take_drop n l), forallb_app in H; by apply andb_true_iff in H as [H _].
Qed.

Lemma skip_set_suffix set l : exists p, l = (p ++ skip_set set l)%list.
Proof.
  induction l as [|a l [p Hp]]; [by exists []|]; cbn.
  case_bool_decide; [exists (a :: p); by rewrite Hp at 1|by exists []].
Qed.

Lemma forallb_skip_set (f : ascii -> bool) set l :
  forallb f l = true -> forallb f (skip_set set l) = true.
Proof.
  destruct (skip_set_suffix set l) as [p Hp]; intros H; rewrite Hp, forallb_app in H.
  by apply andb_true_iff in H as [_ H].
Qed.

Lemma skip_set_length set l : (length (skip_set set l) <= length l)%nat.
Proof. destruct (skip_set_suffix set l) as [p Hp]; rewrite Hp at 2; rewrite length_app; lia. Qed.

Lemma forallb_rev {A} (f : A -> bool) l : forallb f (rev l) = forallb f l.
Proof.
  induction l as [|a l IH]; [done|]; cbn; rewrite forallb_app, IH; cbn.
  by rewrite andb_true_r, andb_comm.
Qed.

Lemma portable_Trim s set : portable s = true -> portable (Trim s set) = true.
Proof.
  unfold Trim; rewrite portable_of_bytes, forallb_rev; intros H.
  by apply forallb_skip_set; rewrite forallb_rev; apply forallb_skip_set.
Qed.

Lemma len_Trim s set : len (Trim s set) <= len s.
Proof.
  unfold Trim, len; rewrite bytes_of_bytes, length_rev.
  pose proof (skip_set_length set (rev (skip_set set (bytes_of s)))) as H1.
  pose proof (skip_set_length set (bytes_of s)) as H2; rewrite length_rev in H1; lia.
Qed.

Lemma portable_slice s n : portable s = true -> portable (slice_to s n) = true.
Proof. unfold slice_to; rewrite portable_of_bytes; apply forallb_take. Qed.

Lemma len_slice s n : 0 <= n -> len (slice_to s n) = Z.min n (len s).
Proof. intros Hn; unfold slice_to, len; rewrite bytes_of_bytes, length_take; lia. Qed.

Lemma hex_portable a : is_hex a = true -> portable_byte a = true.
Proof. unfold is_hex, portable_byte, between; lia. Qed.

Lemma forallb_weaken {A} (f g : A -> bool) l :
  (forall a, f a = true -> g a = true) -> forallb f l = true -> forallb g l = true.
Proof. intros Hfg; rewrite !forallb_elem_of; eauto. Qed.

Lemma shortHash_portable value : portable (shortHash value) = true.
Proof.
  apply portable_slice; rewrite portable_of_bytes.
  apply (forallb_weaken is_hex); [apply hex_portable|]; apply EncodeToString_hex, Sum_shape.
Qed.

Lemma shortHash_len value : len (shortHash value) = 8.
Proof.
  unfold shortHash; rewrite len_slice by lia; unfold len.
  by rewrite bytes_of_bytes, EncodeToString_length, (proj1 (Sum_shape _)).
Qed.

Lemma linux_name_byte_portable r : portable_byte (linux_name_byte r) = true.
Proof.
  unfold linux_name_byte, portable_byte, between.
  repeat case_match; try done; bool_to_prop; rewrite byte_byte_of; lia.
Qed.

Section portable_names.
Context `{UnicodeTables}.

Lemma normalizeLinuxNameValue_portable value : portable (normalizeLinuxNameValue value) = true.
Proof.
  unfold normalizeLinuxNameValue; cbv zeta.
  assert (Ht : portable (Trim (of_bytes (linux_name_byte <$> runes (ToLower (TrimSpace value)))) name_ends) = true).
  { apply portable_Trim; rewrite portable_of_bytes; apply forallb_elem_of.
    intros a (r & -> & _)%list_elem_of_fmap; apply linux_name_byte_portable. }
  repeat case_match; [by rewrite portable_app, shortHash_portable|by rewrite portable_app, Ht|done].
Qed.

Lemma linuxNameValueWithSuffix_portable normalizedValue value maximumLength :
  portable normalizedValue = true ->
  portable (linuxNameValueWithSuffix normalizedValue value maximumLength) = true.
Proof.
  intros Hn; unfold linuxNameValueWithSuffix; cbv zeta.
  destruct (_ <? 1); [apply portable_slice, shortHash_portable|].
  rewrite !portable_app, shortHash_portable; change (portable "_") with true; rewrite !andb_true_r.
  case_bool_decide; [done|]; destruct (_ <? _); auto using portable_Trim, portable_slice.
Qed.

Lemma linuxNameValueWithSuffix_len normalizedValue value maximumLength :
  11 <= maximumLength ->
  len (linuxNameValueWithSuffix normalizedValue value maximumLength) <= maximumLength.
Proof.
  intros Hm; unfold linuxNameValueWithSuffix; cbv zeta; rewrite !shortHash_len.
  destruct (Z.ltb_spec (maximumLength - 8 - 1) 1); [lia|].
  rewrite !len_app, shortHash_len; change (len "_") with 1.
  case_bool_decide; [change (len "id") with 2; lia|].
  destruct (Z.ltb_spec (maximumLength - 8 - 1) (len (Trim normalizedValue name_ends))); [|lia].
  pose proof (len_Trim (slice_to (Trim normalizedValue name_ends) (maximumLength - 8 - 1)) name_ends) as Hl.
  rewrite len_slice in Hl by lia; lia.
Qed.

(** A name is the prefix and a portable rest, within the length Linux allows. *)
Lemma shortenedLinuxName_shape prefix value :
  portable prefix = true -> len prefix <= 20 ->
  exists rest, shortenedLinuxName prefix value = prefix +:+ rest /\
    portable rest = true /\ len (shortenedLinuxName prefix value) <= posixNameMaximumLength.
Proof.
  intros Hp Hl; pose proof (len_nonneg prefix) as Hpos.
  unfold shortenedLinuxName, posixNameMaximumLength; cbv zeta; rewrite shortHash_len.
  set (name := if hasLossyLinuxNameNormalization _ _ then _ else _).
  assert (Hn : portable name = true).
  { unfold name; case_match;
      [apply linuxNameValueWithSuffix_portable|]; apply normalizeLinuxNameValue_portable. }
  destruct (Z.leb_spec (len (prefix +:+ name)) 31); [by exists name|].
  eexists; split; [done|]; rewrite !portable_app, shortHash_portable, portable_Trim
    by (by apply portable_slice); split; [done|].
  rewrite !len_app, shortHash_len; change (len "_") with 1.
  set (n := if 31 - len prefix - 8 - 1 <? 1 then 1 else 31 - len prefix - 8 - 1).
  pose proof (len_Trim (slice_to name n) name_ends) as Ht.
  assert (Hn' : 1 <= n <= 22 - len prefix) by (unfold n; case_match; lia).
  rewrite len_slice in Ht by lia; lia.
Qed.

Lemma person_name_shape personID :
  exists rest, LinuxPersonUserName personID = "bc_person_" +:+ rest /\
    portable rest = true /\ len (LinuxPersonUserName personID) <= posixNameMaximumLength.
Proof. by apply shortenedLinuxName_shape. Qed.

Lemma circle_name_shape circleID :
  exists rest, LinuxCircleGroupName circleID = "bc_circle_" +:+ rest /\
    portable rest = true /\ len (LinuxCircleGroupName circleID) <= posixNameMaximumLength.
Proof. by apply shortenedLinuxName_shape. Qed.

(** Whatever an ID holds, the Linux user of a person and the group of a
    circle have names of at most 31 bytes, of lower-case letters, digits, dashes
    and underscores, under prefixes of their own: no person's user is a circle's
    group, the shared group, or the service's. *)
Theorem linux_names_are_portable personID circleID :
  let user := LinuxPersonUserName personID in
  let group := LinuxCircleGroupName circleID in
  (portable user = true /\ (len user <= posixNameMaximumLength)%Z /\ HasPrefix user "bc_person_" = true) /\
  (portable group = true /\ (len group <= posixNameMaximumLength)%Z /\
    HasPrefix group LinuxCircleGroupPrefix = true) /\
  user <> group /\
  (user ∉ [posixSharedGroupName; blueclawServiceUserName]) /\
  (group ∉ [posixSharedGroupName; blueclawServiceUserName]).
Proof.
  cbv zeta.
  destruct (person_name_shape personID) as (r & Hu & Hpu & Hlu).
  destruct (circle_name_shape circleID) as (r' & Hg & Hpg & Hlg).
  rewrite Hu in Hlu |- *; rewrite Hg in Hlg |- *; rewrite !portable_app, Hpu, Hpg, !HasPrefix_app.
  rewrite !not_elem_of_cons; repeat split; try done; apply not_elem_of_nil.
Qed.

End portable_names.

(** ** The state projected from a policy *)

Lemma uniqueStrings_elem values x :
  x ∈ uniqueStrings values <-> x <> "" /\ exists v, v ∈ values /\ TrimSpace v = x.
Proof.
  unfold uniqueStrings; rewrite distinct_by_elem; split; [by intros (? & _ & ?)|].
  intros (? & ?); split_and!; [done|apply not_elem_of_empty|done].
Qed.

(** A text that is trimmed and not empty. *)
Definition trimmed (s : string) : Prop := TrimSpace s = s /\ s <> "".

Lemma uniqueStrings_trimmed values x :
  Forall trimmed values -> x ∈ uniqueStrings values <-> x ∈ values.
Proof.
  rewrite Forall_forall; intros Hv; rewrite uniqueStrings_elem; split.
  - intros (_ & v & Hin & <-); by rewrite (proj1 (Hv v Hin)).
  - intros Hin; destruct (Hv x Hin) as [Ht Hne]; split; [done|by exists x].
Qed.

Lemma portable_solid a : portable_byte a = true -> solid_ascii a = true.
Proof. destruct a as [[] [] [] [] [] [] [] []]; vm_compute; congruence. Qed.

Lemma portable_trimmed s : portable s = true -> s <> "" -> trimmed s.
Proof.
  intros Hp Hne; split; [|done]; apply TrimSpace_ascii.
  by apply (forallb_weaken portable_byte); [apply portable_solid|].
Qed.

(** States are built by appending: a turn of a loop on [state] appends what it
    makes of the empty state. *)
Definition empty_state : POSIXState := MkPOSIXState [] [] [].

Definition state_app (s1 s2 : POSIXState) : POSIXState :=
  MkPOSIXState (Users s1 ++ Users s2) (Groups s1 ++ Groups s2) (Directories s1 ++ Directories s2).

Lemma appendProtectedDirectory_app ds1 ds2 path group :
  appendProtectedDirectory (ds1 ++ ds2) path group =
    (ds1 ++ appendProtectedDirectory ds2 path group)%list.
Proof. unfold appendProtectedDirectory; case_bool_decide; by rewrite ?app_assoc. Qed.

Lemma appendProtectedDirectory_elem ds path group d :
  d ∈ appendProtectedDirectory ds path group ->
  d ∈ ds \/ d = service_directory path group "2750".
Proof.
  unfold appendProtectedDirectory; case_bool_decide; [by left|].
  rewrite elem_of_app, list_elem_of_singleton; tauto.
Qed.

Section state_lemmas.
Context `{UnicodeLaws} (root : string).

Lemma project_circle_app state c :
  project_circle root state c = state_app state (project_circle root empty_state c).
Proof.
  unfold project_circle, state_app; cbv zeta; destruct (negb _); cbn;
    [by destruct state; cbn; rewrite !app_nil_r|].
  by rewrite <- appendProtectedDirectory_app, app_nil_r.
Qed.

Lemma project_posix_user_app state p :
  project_posix_user root state p = state_app state (project_posix_user root empty_state p).
Proof.
  unfold project_posix_user, state_app; cbv zeta; case_bool_decide; cbn;
    [by destruct state; cbn; rewrite !app_nil_r|].
  by rewrite <- appendProtectedDirectory_app.
Qed.

(** What a loop of such turns yields, by component. *)
Lemma foldl_state_app {A} (turn : POSIXState -> A -> POSIXState) state l :
  (forall s a, turn s a = state_app s (turn empty_state a)) ->
  (forall u, u ∈ Users (foldl turn state l) <->
    u ∈ Users state \/ exists a, a ∈ l /\ u ∈ Users (turn empty_state a)) /\
  (forall g, g ∈ Groups (foldl turn state l) <->
    g ∈ Groups state \/ exists a, a ∈ l /\ g ∈ Groups (turn empty_state a)) /\
  (forall d, d ∈ Directories (foldl turn state l) <->
    d ∈ Directories state \/ exists a, a ∈ l /\ d ∈ Directories (turn empty_state a)).
Proof.
  intros Hturn; revert state; induction l as [|a l IH]; intros state; cbn.
  { split_and!; intros x; split; try (by left); intros [?|(a & ?%elem_of_nil & _)]; done. }
  destruct (IH (turn state a)) as (Hu & Hg & Hd).
  split_and!; intros x; [rewrite Hu|rewrite Hg|rewrite Hd]; rewrite (Hturn state a); cbn [Users Groups Directories state_app];
    rewrite elem_of_app; split.
  all: try (intros [[?|?]|(b & ? & ?)]; [by left|right; exists a; split; [by left|done]
    |right; exists b; split; [by right|done]]).
  all: intros [?|(b & [->|?]%elem_of_cons & ?)]; [by left; left|by left; right|right; by exists b].
Qed.

(** The map of groups: keyed by their names, and what it holds. *)
Definition keyed_groups (m : gmap string POSIXGroup) : Prop :=
  forall name g, m !! name = Some g -> g = MkPOSIXGroup name.

Lemma name_groups_keyed m names : keyed_groups m -> keyed_groups (foldl name_group m names).
Proof.
  revert m; induction names as [|n names IH]; intros m Hm; cbn; [done|]; apply IH.
  unfold name_group; destruct (negb _); [|done].
  intros name g [[<- <-]|[_ Hl]]%lookup_insert_Some; [done|by apply Hm].
Qed.

Lemma name_groups_lookup m names name :
  is_Some (foldl name_group m names !! name) <->
    is_Some (m !! name) \/ (name ∈ names /\ blank name = false).
Proof.
  revert m; induction names as [|n names IH]; intros m; cbn.
  { split; [by left|]; intros [?|[?%elem_of_nil _]]; done. }
  rewrite IH, elem_of_cons; unfold name_group, blank; case_bool_decide as Hn; cbn.
  - split; [tauto|]; intros [?|[[->|?] Hb]]; [tauto| |tauto]; by rewrite bool_decide_true in Hb.
  - destruct (decide (name = n)) as [->|Hne].
    + rewrite lookup_insert_eq, bool_decide_false by done; split; [|by left; eauto].
      intros _; right; split; [by left|done].
    + rewrite lookup_insert_ne by done; split; [tauto|]; intros [?|[[?|?] ?]]; tauto.
Qed.

Lemma name_users_keyed m users : keyed_groups m -> keyed_groups (foldl name_user_groups m users).
Proof.
  revert m; induction users as [|u users IH]; intros m Hm; cbn; [done|].
  apply IH, name_groups_keyed; intros name g [[<- <-]|[_ Hl]]%lookup_insert_Some; [done|by apply Hm].
Qed.

Lemma name_users_lookup m users name :
  is_Some (m !! name) \/
  (exists u, u ∈ users /\ (name = User.GroupName u \/ name ∈ User.Groups u /\ blank name = false)) ->
  is_Some (foldl name_user_groups m users !! name).
Proof.
  revert m; induction users as [|u users IH]; intros m; cbn.
  { intros [?|(u & ?%elem_of_nil & _)]; done. }
  intros Hname; apply IH; unfold name_user_groups; rewrite name_groups_lookup, lookup_insert_is_Some'.
  destruct Hname as [?|(w & [->|?]%elem_of_cons & [->|?])]; [tauto|tauto|tauto|right; eauto|right; eauto].
Qed.

(** The people who get a user, and its name. *)
Definition named (p : Person.PersonPolicy) : Prop := TrimSpace (Person.PersonID p) <> "".

Definition person_name (p : Person.PersonPolicy) : string :=
  LinuxPersonUserName (TrimSpace (Person.PersonID p)).

Lemma isPOSIXCircle_normal circle :
  normalizeText circle = circle -> isPOSIXCircle circle = true <-> circle <> "" /\ circle <> AdminCircleID.
Proof.
  intros Hn; unfold isPOSIXCircle, CircleHoldsADirectory; cbv zeta; rewrite Hn.
  rewrite andb_true_iff, !negb_true_iff, !bool_decide_eq_false; done.
Qed.

(** The circles a person's user is put in are those the policy gives the person,
    but for the admin circle. *)
Lemma effectivePersonCirclesForPOSIX_elem p circle :
  circle ∈ effectivePersonCirclesForPOSIX p <->
    circle ∈ effectivePersonCircles p /\ circle <> AdminCircleID.
Proof.
  unfold effectivePersonCirclesForPOSIX, effectivePersonCircles, normalizeStringList.
  rewrite uniqueStrings_elem, normalizePolicyStrings_elem; split.
  - intros (Hne & v & Hv & Ht); apply list_elem_of_In, filter_In in Hv as [Hv Hc].
    apply filter_In in Hv as [Hv _]; apply list_elem_of_In, list_elem_of_fmap in Hv as (w & -> & Hw).
    rewrite normalizeText_TrimSpace in Ht; subst circle.
    apply isPOSIXCircle_normal in Hc as [_ Hadmin]; [|apply normalizeText_idemp].
    split_and!; [done| |done]; exists w; split; [|done].
    apply elem_of_cons in Hw as [->|Hw]; [by left|right; apply elem_of_app; by left].
  - intros [(Hne & v & Hv & <-) Hadmin]; split; [done|]; exists (normalizeText v).
    split; [|apply normalizeText_TrimSpace]; apply list_elem_of_In, filter_In.
    split; [|apply isPOSIXCircle_normal; [apply normalizeText_idemp|done]].
    apply filter_In; rewrite bool_decide_false by done; split; [|done].
    apply list_elem_of_In, list_elem_of_fmap_2.
    apply elem_of_cons in Hv as [->|[Hv|Hv]%elem_of_app]; [by left|by right|].
    destruct (Person.IsAdmin p); [|by apply elem_of_nil in Hv].
    apply list_elem_of_singleton in Hv as ->; by rewrite AdminCircleID_normal in Hadmin.
Qed.

Lemma person_name_trimmed personID : trimmed (LinuxPersonUserName personID).
Proof.
  destruct (person_name_shape personID) as (r & -> & Hr & _).
  apply portable_trimmed; [by rewrite portable_app, Hr|done].
Qed.

Lemma circle_name_trimmed circleID : trimmed (LinuxCircleGroupName circleID).
Proof.
  destruct (circle_name_shape circleID) as (r & -> & Hr & _).
  apply portable_trimmed; [by rewrite portable_app, Hr|done].
Qed.

(** The groups of a person's user. *)
Lemma user_groups_elem p circles g :
  g ∈ uniqueStrings (LinuxPersonUserName p :: posixSharedGroupName :: (LinuxCircleGroupName <$> circles)) <->
  g = LinuxPersonUserName p \/ g = posixSharedGroupName \/
    exists circle, circle ∈ circles /\ g = LinuxCircleGroupName circle.
Proof.
  rewrite uniqueStrings_trimmed.
  - rewrite !elem_of_cons, list_elem_of_fmap; split; intros [?|[?|(c & ? & ?)]]; eauto 6.
  - constructor; [apply person_name_trimmed|]; constructor; [by vm_compute|].
    apply Forall_fmap, Forall_forall; intros c _; apply circle_name_trimmed.
Qed.

(** Directories the service owns: of its own or the shared group, or closed to
    everyone but the group; or a person's, closed to everyone else. *)
Definition held_by_service (dir : Directory.POSIXDirectory) : Prop :=
  Directory.Owner dir = blueclawServiceUserName /\
  (Directory.Group dir ∈ [blueclawServiceUserName; posixSharedGroupName] \/
   Directory.ModeText dir = "2750").

Definition held_by_person (p : Person.PersonPolicy) (dir : Directory.POSIXDirectory) : Prop :=
  Directory.Owner dir = person_name p /\ Directory.Group dir = person_name p /\
  Directory.ModeText dir = "0700".

Definition group_in (groups : list POSIXGroup) (name : string) : Prop :=
  name = blueclawServiceUserName \/ MkPOSIXGroup name ∈ groups.

Lemma workspace_directory_held dir :
  dir ∈ workspace_directories root ->
  held_by_service dir /\ group_in [MkPOSIXGroup posixSharedGroupName] (Directory.Group dir).
Proof.
  intros Hd; apply appendProtectedDirectory_elem in Hd as [Hd| ->].
  - unfold held_by_service, group_in; rewrite !elem_of_cons.
    repeat (apply elem_of_cons in Hd as [->|Hd]); [..|by apply elem_of_nil in Hd];
      cbn; (split; [split; [done|]; left|]); auto.
  - split; [by split; [|right]|right; by left].
Qed.

Lemma circle_directory_held c dir :
  dir ∈ Directories (project_circle root empty_state c) ->
  held_by_service dir /\ MkPOSIXGroup (Directory.Group dir) ∈ Groups (project_circle root empty_state c).
Proof.
  unfold project_circle; cbv zeta; destruct (negb _); [by intros ?%elem_of_nil|].
  cbn [Directories Groups empty_state app]; intros Hd.
  apply appendProtectedDirectory_elem in Hd as [->%list_elem_of_singleton| ->];
    (split; [by split; [|right]|by left]).
Qed.

Lemma person_directory_held p dir :
  dir ∈ Directories (project_posix_user root empty_state p) ->
  named p /\ (held_by_service dir \/ held_by_person p dir) /\
  MkPOSIXGroup (Directory.Group dir) ∈ Groups (project_posix_user root empty_state p).
Proof.
  unfold project_posix_user, named; cbv zeta; case_bool_decide; [by intros ?%elem_of_nil|].
  cbn [Directories Groups empty_state app]; intros Hd; split; [done|].
  apply appendProtectedDirectory_elem in Hd as [Hd| ->].
  - repeat (apply elem_of_cons in Hd as [->|Hd]); [..|by apply elem_of_nil in Hd];
      (split; [by right|by left]).
  - split; [left; by split; [|right]|by left].
Qed.

Lemma person_user p u :
  u ∈ Users (project_posix_user root empty_state p) <->
  named p /\ u = User.MkPOSIXUser (person_name p)
    (PersonHomeDirectoryPath root (TrimSpace (Person.PersonID p))) (person_name p)
    (uniqueStrings (person_name p :: posixSharedGroupName ::
      (LinuxCircleGroupName <$> effectivePersonCirclesForPOSIX p))).
Proof.
  unfold project_posix_user, named; cbv zeta; case_bool_decide; cbn [Users empty_state app].
  - split; [by intros ?%elem_of_nil|by intros [? _]].
  - rewrite list_elem_of_singleton; tauto.
Qed.

(** The state before its groups are gathered. *)
Definition projected_state (d : PolicyDocument) : POSIXState :=
  foldl (project_posix_user root)
    (foldl (project_circle root)
      (MkPOSIXState [] [MkPOSIXGroup posixSharedGroupName] (workspace_directories root))
      (circlePoliciesWithMemberDefault (Policy.Circles d) root))
    (people d).

Lemma projected_users d u :
  u ∈ Users (projected_state d) <->
  exists p, p ∈ people d /\ u ∈ Users (project_posix_user root empty_state p).
Proof.
  unfold projected_state.
  destruct (foldl_state_app (project_posix_user root)
    (foldl (project_circle root)
      (MkPOSIXState [] [MkPOSIXGroup posixSharedGroupName] (workspace_directories root))
      (circlePoliciesWithMemberDefault (Policy.Circles d) root)) (people d)) as (-> & _);
    [apply project_posix_user_app|].
  destruct (foldl_state_app (project_circle root)
      (MkPOSIXState [] [MkPOSIXGroup posixSharedGroupName] (workspace_directories root))
      (circlePoliciesWithMemberDefault (Policy.Circles d) root)) as (-> & _);
    [apply project_circle_app|].
  split; [|by right]; intros [[?%elem_of_nil|(c & _ & Hc)]|?]; [done| |done].
  unfold project_circle in Hc; cbv zeta in Hc; destruct (negb _); by apply elem_of_nil in Hc.
Qed.

Lemma projected_directories d dir :
  dir ∈ Directories (projected_state d) ->
  group_in (Groups (projected_state d)) (Directory.Group dir) /\
  (held_by_service dir \/ exists p, p ∈ people d /\ named p /\ held_by_person p dir).
Proof.
  unfold projected_state, group_in.
  destruct (foldl_state_app (project_posix_user root)
    (foldl (project_circle root)
      (MkPOSIXState [] [MkPOSIXGroup posixSharedGroupName] (workspace_directories root))
      (circlePoliciesWithMemberDefault (Policy.Circles d) root)) (people d)) as (_ & -> & ->);
    [apply project_posix_user_app|].
  destruct (foldl_state_app (project_circle root)
      (MkPOSIXState [] [MkPOSIXGroup posixSharedGroupName] (workspace_directories root))
      (circlePoliciesWithMemberDefault (Policy.Circles d) root)) as (_ & -> & ->);
    [apply project_circle_app|]; cbn [Groups Directories].
  intros [[Hd|(c & Hc & Hd)]|(p & Hp & Hd)].
  - apply workspace_directory_held in Hd as [Hh [?|Hg]]; (split; [|by left]); [by left|].
    right; by left; left.
  - apply circle_directory_held in Hd as [Hh Hg]; split; [right; left; right; eauto|by left].
  - apply person_directory_held in Hd as (Hn & Hh & Hg); split; [right; right; eauto|].
    destruct Hh; [by left|right; eauto].
Qed.

Lemma projected_groups_trimmed d name :
  MkPOSIXGroup name ∈ Groups (projected_state d) -> trimmed name.
Proof.
  unfold projected_state.
  destruct (foldl_state_app (project_posix_user root)
    (foldl (project_circle root)
      (MkPOSIXState [] [MkPOSIXGroup posixSharedGroupName] (workspace_directories root))
      (circlePoliciesWithMemberDefault (Policy.Circles d) root)) (people d)) as (_ & -> & _);
    [apply project_posix_user_app|].
  destruct (foldl_state_app (project_circle root)
      (MkPOSIXState [] [MkPOSIXGroup posixSharedGroupName] (workspace_directories root))
      (circlePoliciesWithMemberDefault (Policy.Circles d) root)) as (_ & -> & _);
    [apply project_circle_app|]; cbn [Groups].
  intros [[[= ->]%list_elem_of_singleton|(c & _ & Hc)]|(p & _ & Hp)]; [by vm_compute| |].
  - unfold project_circle in Hc; cbv zeta in Hc; destruct (negb _); [by apply elem_of_nil in Hc|].
    apply list_elem_of_singleton in Hc as [= ->]; apply circle_name_trimmed.
  - unfold project_posix_user in Hp; cbv zeta in Hp; case_bool_decide; [by apply elem_of_nil in Hp|].
    apply list_elem_of_singleton in Hp as [= ->]; apply person_name_trimmed.
Qed.

Context (visit : gmap string POSIXGroup -> list (string * POSIXGroup)).

Lemma visited_groups m :
  (forall m, visit m ≡ₚ map_to_list m) -> keyed_groups m ->
  (visit m).*2 ≡ₚ MkPOSIXGroup <$> (map_to_list m).*1.
Proof.
  intros Hvisit Hm; rewrite (Hvisit m), <- list_fmap_compose.
  erewrite list_fmap_ext; [done|]; intros j [name g] Hj; cbn.
  apply (Hm name g), elem_of_map_to_list; by eapply list_elem_of_lookup_2.
Qed.

Lemma normalized_groups state :
  (forall m, visit m ≡ₚ map_to_list m) ->
  NoDup (Groups (normalizePOSIXState visit state)) /\
  (forall name, MkPOSIXGroup name ∈ Groups state -> blank name = false ->
    MkPOSIXGroup name ∈ Groups (normalizePOSIXState visit state)) /\
  (forall u name, u ∈ Users state -> name ∈ User.Groups u -> blank name = false ->
    MkPOSIXGroup name ∈ Groups (normalizePOSIXState visit state)).
Proof.
  intros Hvisit; unfold normalizePOSIXState; cbn [Groups].
  set (m := foldl name_user_groups _ _).
  assert (Hm : keyed_groups m).
  { apply name_users_keyed, name_groups_keyed; intros name g Hl; by rewrite lookup_empty in Hl. }
  pose proof (visited_groups m Hvisit Hm) as Hv.
  assert (Hin : forall name, is_Some (m !! name) -> MkPOSIXGroup name ∈ (visit m).*2).
  { intros name [g Hg]; rewrite Hv; apply list_elem_of_fmap_2, list_elem_of_fmap.
    exists (name, g); by rewrite elem_of_map_to_list. }
  split_and!.
  - rewrite Hv; apply NoDup_fmap_2; [by intros x y [= ->]|apply NoDup_fst_map_to_list].
  - intros name Hname Hb; apply Hin, name_users_lookup; left; apply name_groups_lookup; right.
    split; [|done]; apply list_elem_of_fmap; by exists (MkPOSIXGroup name).
  - intros u name Hu Hname Hb; apply Hin, name_users_lookup; right; by exists u; eauto.
Qed.

Lemma trimmed_not_blank s : trimmed s -> blank s = false.
Proof. intros [Ht Hne]; apply blank_false; by rewrite Ht. Qed.

(** Every group that a directory or a user of the state has is declared. *)
Lemma POSIXStateForPolicy_declares d :
  (forall m, visit m ≡ₚ map_to_list m) ->
  let state := POSIXStateForPolicy visit d root in
  (forall dir, dir ∈ Directories state -> group_in (Groups state) (Directory.Group dir)) /\
  (forall u g, u ∈ Users state -> g ∈ User.Groups u -> MkPOSIXGroup g ∈ Groups state).
Proof.
  intros Hvisit state; destruct (normalized_groups (projected_state d) Hvisit) as (_ & Hg & Hug).
  change (normalizePOSIXState visit (projected_state d)) with state in *.
  change (Users state) with (Users (projected_state d)).
  change (Directories state) with (Directories (projected_state d)); split.
  - intros dir [[?|Hin] _]%projected_directories; [by left|right].
    by apply Hg, trimmed_not_blank, (projected_groups_trimmed d).
  - intros u g Hu Hgu; apply (Hug u); [done..|]; apply trimmed_not_blank.
    apply projected_users in Hu as (p & _ & [_ ->]%person_user).
    apply user_groups_elem in Hgu as [->|[->|(c & _ & ->)]];
      [apply person_name_trimmed|by vm_compute|apply circle_name_trimmed].
Qed.

(** The state of the system that a policy asks for: one user for each person,
    in its own group, the shared group, and the groups of the circles the policy
    gives the person, never the admin circle's; every directory is the service's -
    its own, the shared group's, or closed to all but one group - or a person's,
    closed to everyone else; and every group it names is created, once, in
    whatever order the map of groups is visited. *)
Theorem POSIXStateForPolicy_isolates d :
  (forall m, visit m ≡ₚ map_to_list m) ->
  let state := POSIXStateForPolicy visit d root in
  (forall u, u ∈ Users state -> exists p, p ∈ people d /\ named p /\
    User.Name u = person_name p /\ User.GroupName u = person_name p /\
    forall g, g ∈ User.Groups u <->
      g = person_name p \/ g = posixSharedGroupName \/
      exists circle, (circle ∈ effectivePersonCircles p) /\ circle <> AdminCircleID /\
        g = LinuxCircleGroupName circle) /\
  (forall p, p ∈ people d -> named p -> person_name p ∈ User.Name <$> Users state) /\
  (forall dir, dir ∈ Directories state ->
    held_by_service dir \/ exists p, p ∈ people d /\ named p /\ held_by_person p dir) /\
  (forall dir, dir ∈ Directories state -> group_in (Groups state) (Directory.Group dir)) /\
  (forall u g, u ∈ Users state -> g ∈ User.Groups u -> MkPOSIXGroup g ∈ Groups state) /\
  NoDup (Groups state).
Proof.
  intros Hvisit state; destruct (normalized_groups (projected_state d) Hvisit) as (Hnd & _).
  destruct (POSIXStateForPolicy_declares d Hvisit) as [Hdirs Hgroups].
  change (normalizePOSIXState visit (projected_state d)) with state in *.
  change (Users state) with (Users (projected_state d)) in *.
  change (Directories state) with (Directories (projected_state d)) in *.
  split_and!; [| | |done|done|done].
  - intros u (p & Hp & [Hn ->]%person_user)%projected_users; exists p; split_and!; try done.
    intros g; cbn [User.Groups]; unfold person_name; rewrite user_groups_elem.
    split; (intros [?|[?|(c & Hc)]]; [by left|by right; left|right; right; exists c];
      rewrite effectivePersonCirclesForPOSIX_elem in Hc || rewrite effectivePersonCirclesForPOSIX_elem;
      tauto).
  - intros p Hp Hn; apply list_elem_of_fmap; eexists; split; [|apply projected_users; exists p; split;
      [done|by apply person_user]]; done.
  - by intros dir [_ Hh]%projected_directories.
Qed.

Lemma execution_circles_elem p rules circle :
  circle ∈ List.filter isPOSIXCircle (normalizeText <$> Access.Circles
      (EnsureRequesterDefaults
        (Access.MkPersonAccess (Person.PersonID p) (effectivePersonCircles p) rules))) <->
  circle ∈ effectivePersonCirclesForPOSIX p.
Proof.
  rewrite effectivePersonCirclesForPOSIX_elem, list_elem_of_In, filter_In, <- list_elem_of_In.
  assert (Hn : forall c, c ∈ effectivePersonCircles p -> c <> "" /\ normalizeText c = c).
  { intros c (Hc & v & _ & <-)%normalizePolicyStrings_elem; split; [done|apply normalizeText_idemp]. }
  assert (Hmember : MemberCircleID ∈ effectivePersonCircles p).
  { apply normalizePolicyStrings_elem; split; [done|]; exists MemberCircleID.
    split; [by left|apply MemberCircleID_normal]. }
  cbn [EnsureRequesterDefaults Access.Circles]; rewrite list_elem_of_fmap; split.
  - intros [(w & -> & (Hne & v & Hv & <-)%normalizePolicyStrings_elem) Hc].
    rewrite normalizeText_idemp in *; apply isPOSIXCircle_normal in Hc as [_ Ha];
      [|apply normalizeText_idemp]; split; [|done].
    apply elem_of_cons in Hv as [->|Hv]; [by rewrite MemberCircleID_normal|].
    by rewrite (proj2 (Hn v Hv)).
  - intros [Hc Ha]; destruct (Hn circle Hc) as [Hne Hnorm].
    split; [|by apply isPOSIXCircle_normal].
    exists circle; split; [done|]; apply normalizePolicyStrings_elem; split; [done|].
    exists circle; split; [by right|done].
Qed.

(** A person's commands run as the user and in the home the state gives the
    person, and with the groups of that user: with the person's access as the
    policy projects it, the supplementary groups of the identity are those of the
    user, its own group apart. *)
Theorem execution_groups_follow_state d p rules :
  p ∈ people d -> named p ->
  let identity := ExecutionIdentityForPersonAccess
    (Access.MkPersonAccess (Person.PersonID p) (effectivePersonCircles p) rules) root in
  exists u, u ∈ Users (POSIXStateForPolicy visit d root) /\
    UserName identity = User.Name u /\ GroupName identity = User.GroupName u /\
    HomeDirectoryPath identity = User.HomePath u /\
    forall g, g ∈ SupplementaryGroupNames identity <->
      g ∈ User.Groups u /\ g <> GroupName identity.
Proof.
  intros Hp Hn identity; eexists; split.
  { change (Users (POSIXStateForPolicy visit d root)) with (Users (projected_state d)).
    apply projected_users; exists p; split; [done|by apply person_user]. }
  unfold identity, ExecutionIdentityForPersonAccess; cbv zeta; cbn [Access.PersonID].
  rewrite bool_decide_false by exact Hn.
  cbn [UserName GroupName HomeDirectoryPath SupplementaryGroupNames
    User.Name User.GroupName User.HomePath User.Groups]; split_and!; [done..|].
  intros g; unfold person_name; rewrite user_groups_elem, uniqueStrings_trimmed.
  - rewrite elem_of_cons, list_elem_of_fmap.
    destruct (person_name_shape (TrimSpace (Person.PersonID p))) as (r & Hr & _).
    split.
    + intros [->|(c & -> & Hc%(proj1 (execution_circles_elem p rules c)))]; [rewrite Hr; split; [by right; left|done]|].
      destruct (circle_name_shape c) as (r' & Hr' & _); split; [right; right; by exists c|].
      by rewrite Hr, Hr'.
    + intros [[?|[?|(c & Hc & ?)]] Hne]; [done|by left|right].
      exists c; split; [done|]; by apply (proj2 (execution_circles_elem p rules c)).
  - constructor; [by vm_compute|]; apply Forall_fmap, Forall_forall; intros c _; apply circle_name_trimmed.
Qed.

End state_lemmas.

(** ** Witnesses *)

Definition visit_in_order (m : gmap string POSIXGroup) : list (string * POSIXGroup) := map_to_list m.

Definition posix_person (personID : string) (circles : list string) : Person.PersonPolicy :=
  Person.MkPersonPolicy personID personID [personID +:+ "@example.com"] circles false "" "" "".

Definition posix_document (persons : list Person.PersonPolicy) : PolicyDocument :=
  MkPolicyDocument (Some persons)
    [Circle.MkCirclePolicy "finance" "Finance" "" "/workspace/circles/finance" []] []
    (MkCompanyPolicy "" "" "" "" "" "" "" "") [] [] 30 1 "".

Lemma POSIXStateForPolicy_isolates_witness :
  exists u, u ∈ Users (@POSIXStateForPolicy ascii_tables visit_in_order
      (posix_document [posix_person "person-1" ["finance"; "admin"]]) "/workspace") /\
    User.Groups u = ["bc_person_person-1"; "bc_shared"; "bc_circle_member"; "bc_circle_finance"] /\
    MkPOSIXGroup "bc_circle_finance" ∈ Groups (@POSIXStateForPolicy ascii_tables visit_in_order
      (posix_document [posix_person "person-1" ["finance"; "admin"]]) "/workspace").
Proof.
  destruct (@POSIXStateForPolicy_isolates ascii_tables ascii_laws "/workspace" visit_in_order
    (posix_document [posix_person "person-1" ["finance"; "admin"]]) ltac:(done))
    as (_ & _ & _ & _ & Hg & _).
  set (u := User.MkPOSIXUser "bc_person_person-1" "/workspace/private/people/person-1"
    "bc_person_person-1" ["bc_person_person-1"; "bc_shared"; "bc_circle_member"; "bc_circle_finance"]).
  assert (Hu : u ∈ Users (@POSIXStateForPolicy ascii_tables visit_in_order
      (posix_document [posix_person "person-1" ["finance"; "admin"]]) "/workspace")).
  { apply list_elem_of_singleton; vm_compute; reflexivity. }
  exists u; split; [exact Hu|]; split; [reflexivity|].
  apply (Hg u); [exact Hu|]; right; right; right; left.
Defined.

Lemma execution_groups_follow_state_witness :
  posix_person "person-1" ["finance"; "admin"] ∈
    people (posix_document [posix_person "person-1" ["finance"; "admin"]]) /\
  exists u, u ∈ Users (@POSIXStateForPolicy ascii_tables visit_in_order
      (posix_document [posix_person "person-1" ["finance"; "admin"]]) "/workspace") /\
    "bc_person_person-1" = User.Name u.
Proof.
  split; [left|].
  destruct (@execution_groups_follow_state ascii_tables ascii_laws "/workspace" visit_in_order
    (posix_document [posix_person "person-1" ["finance"; "admin"]])
    (posix_person "person-1" ["finance"; "admin"]) [] ltac:(left) ltac:(by vm_compute))
    as (u & Hu & Hn & _).
  exists u; split; [exact Hu|]; rewrite <- Hn; vm_compute; reflexivity.
Defined.

(** ** Where the code departs from its intent *)

(** Two people of a valid policy whose IDs differ only in the case of a letter get
    one Linux user, and so each other's private home. *)
Lemma letter_case_shares_a_user :
  @ValidatePolicyDocument ascii_tables (posix_document [posix_person "Ann" []; posix_person "ann2" []])
    = Ok tt /\
  @ValidatePolicyDocument ascii_tables
    (posix_document [Person.MkPersonPolicy "Ann" "" ["a@example.com"] [] false "" "" "";
                     Person.MkPersonPolicy "ann" "" ["b@example.com"] [] false "" "" ""]) = Ok tt /\
  @LinuxPersonUserName ascii_tables "Ann" = @LinuxPersonUserName ascii_tables "ann" /\
  PersonHomeDirectoryPath "/workspace" "Ann" <> PersonHomeDirectoryPath "/workspace" "ann".
Proof. vm_compute; repeat split; congruence. Qed.

(** The hash keeps lossy names apart from each other, not from an ID that is
    itself such a name. *)
Lemma suffixed_name_is_taken :
  @LinuxPersonUserName ascii_tables "person!" = @LinuxPersonUserName ascii_tables "person_ab0ff811".
Proof. vm_compute; reflexivity. Qed.

(** A person whose ID cannot name a directory still gets directories: one without
    a path, and [/artifacts] at the root of the file system. *)
Lemma dotted_ID_asks_for_root_directory :
  @ValidatePolicyDocument ascii_tables (posix_document [posix_person "ann.lee" []]) = Ok tt /\
  List.filter (fun d => bool_decide (Directory.Owner d = @LinuxPersonUserName ascii_tables "ann.lee"))
    (Directories (@POSIXStateForPolicy ascii_tables visit_in_order
      (posix_document [posix_person "ann.lee" []]) "/workspace")) =
  (fun path => Directory.MkPOSIXDirectory path (@LinuxPersonUserName ascii_tables "ann.lee")
    (@LinuxPersonUserName ascii_tables "ann.lee") "0700") <$> [""; ""; "/artifacts"].
Proof. vm_compute; split; reflexivity. Qed.
