(* ===== verification/PosixHelper.v ===== *)
(** * The POSIX helper ([cmd/blueclaw-posix-helper/main.go]): the numbers of the
    Linux users and groups, the groups that are retired, the content whose group
    is repaired, and what the helper accepts from its caller.

    The helper's commands ([groupadd], [install], [chgrp], ...) and the kernel are
    outside; the JSON of the identity map and the system's groups and users come in
    as arguments. *)

From S2P Require Export PosixIdentity.

(** ** Numbers *)

Definition uint32 (z : Z) : Prop := 0 <= z < 2 ^ 32.

(** [strconv.ParseUint(s, base, 32)] and [strconv.ParseInt(s, 10, 32)] for bases up
    to 10; [None] is their error. *)
Fixpoint digits_in (base : Z) (l : bytes) (acc : Z) : option Z :=
  match l with
  | [] => Some acc
  | a :: l' =>
    match digit a with
    | Some d => if d <? base then digits_in base l' (base * acc + d) else None
    | None => None
    end
  end.

Definition ParseUint32 (base : Z) (s : string) : option Z :=
  match bytes_of s with
  | [] => None
  | l =>
    match digits_in base l 0 with
    | Some z => if z <? 2 ^ 32 then Some z else None
    | None => None
    end
  end.

Definition ParseInt32 (s : string) : option Z :=
  match Atoi s with
  | Some z => if (- 2 ^ 31 <=? z) && (z <? 2 ^ 31) then Some z else None
  | None => None
  end.

(** ** The table of identities *)

Definition posixIdentityBaseID : Z := 100000.

Record identityAllocationTable := MkTable {
  allocations : gmap string Z;
  reserved : gset Z;
  dirty : bool;
}.

Record systemIdentity := MkSystemIdentity { identity_name : string; identityID : Z }.

Definition recoverProjectedAllocation (identity : systemIdentity) (table : identityAllocationTable)
  : identityAllocationTable :=
  if (identityID identity <? posixIdentityBaseID) ||
     negb (HasPrefix (identity_name identity) "bc_") then table
  else
    match allocations table !! identity_name identity with
    | Some _ => table
    | None =>
      MkTable (<[identity_name identity := identityID identity]> (allocations table))
        (reserved table) true
    end.

Definition reserve_identity (table : identityAllocationTable) (identity : systemIdentity)
  : identityAllocationTable :=
  recoverProjectedAllocation identity
    (MkTable (allocations table) ({[identityID identity]} ∪ reserved table) (dirty table)).

Definition reserve (identities : list systemIdentity) (table : identityAllocationTable)
  : identityAllocationTable :=
  foldl reserve_identity table identities.

Section load.
Context {E : Type}.

(** [document] is the identity map of the disk, empty when there is no file;
    [groups] and [users] are what [/etc/group] and [/etc/passwd] name. *)
Definition reserveSystemIdentities (groups users : result E (list systemIdentity))
    (table : identityAllocationTable) : result E identityAllocationTable :=
  groups ← groups;
  users ← users;
  Ok (reserve users (reserve groups table)).

Definition loadIdentityAllocationTable (document : result E (gmap string Z))
    (groups users : result E (list systemIdentity)) : result E identityAllocationTable :=
  allocations ← document;
  reserveSystemIdentities groups users (MkTable allocations ∅ false).
End load.

(** The loop over the allocations, in the order the map is visited. *)
Definition past_allocations (ids : list Z) : Z :=
  foldl (fun candidate identityID =>
    if candidate <=? identityID then word32 (identityID + 1) else candidate)
    posixIdentityBaseID ids.

(** [for table.reserved[candidate] { candidate++ }] *)
Fixpoint skip_reserved (fuel : nat) (reserved : gset Z) (candidate : Z) : option Z :=
  if bool_decide (candidate ∈ reserved) then
    match fuel with
    | O => None
    | S fuel' => skip_reserved fuel' reserved (word32 (candidate + 1))
    end
  else Some candidate.

Section allocate.
Context (visit : gmap string Z -> list (string * Z)).

Definition nextFreeID (table : identityAllocationTable) : option Z :=
  skip_reserved (size (reserved table)) (reserved table)
    (past_allocations (visit (allocations table)).*2).

Definition idFor (name : string) (table : identityAllocationTable)
  : option (Z * identityAllocationTable) :=
  match allocations table !! name with
  | Some identityID => Some (identityID, table)
  | None =>
    identityID ← nextFreeID table;
    Some (identityID,
      MkTable (<[name := identityID]> (allocations table)) ({[identityID]} ∪ reserved table) true)
  end.

(** The calls of a synchronization, one name after another. *)
Fixpoint idsFor (names : list string) (table : identityAllocationTable)
  : option (list Z * identityAllocationTable) :=
  match names with
  | [] => Some ([], table)
  | name :: names' =>
    '(identityID, table) ← idFor name table;
    '(ids, table) ← idsFor names' table;
    Some (identityID :: ids, table)
  end.

(** The names a synchronization asks for, in its order. *)
Definition synchronized_names (state : POSIXState) : list string :=
  ((POSIXGroup_Name <$> Groups state) ++
   concat ((fun user => [User.Name user; User.GroupName user]) <$> Users state))%list.

End allocate.

(** What the disk holds once the table is written; it is written when it changed. *)
Definition persist (table : identityAllocationTable) (disk : gmap string Z) : gmap string Z :=
  if negb (dirty table) then disk else allocations table.

(** ** The identities the system reports *)

Definition formatID (identityID : Z) : string := Itoa identityID.

Definition parseColonIdentityID (fields : list string) (index : nat) : option Z :=
  match fields !! index with Some field => ParseUint32 10 field | None => None end.

(** [readColonIdentities] on the document read from [/etc/passwd] or [/etc/group]. *)
Definition readColonRecords (document : string) : list (list string) :=
  (fun line => Split line ":"%char) <$>
    List.filter (fun line => negb (blank line)) (Split document newline).

Definition readColonIdentities (document : string) : list systemIdentity :=
  omap (fun fields =>
    identityID ← parseColonIdentityID fields 2;
    name ← head fields;
    Some (MkSystemIdentity name identityID)) (readColonRecords document).

(** The loop body of [parseDirectoryServiceList]: the last field is the number. *)
Definition directory_service_line (line : string) : option systemIdentity :=
  let fields := Fields line in
  if (length fields <? 2)%nat then None
  else
    identityID ← ParseUint32 10 (List.last fields "");
    Some (MkSystemIdentity (Join " " (removelast fields)) identityID).

Definition parseDirectoryServiceList (output : string) : list systemIdentity :=
  omap directory_service_line (Split output newline).

Fixpoint after_last (sep : ascii) (l : bytes) : option bytes :=
  match l with
  | [] => None
  | a :: l' =>
    match after_last sep l' with
    | Some rest => Some rest
    | None => if Ascii.eqb a sep then Some l' else None
    end
  end.

Definition parseDirectoryServiceValue (output : string) : string :=
  let '(firstLine, remainingLines) := default (output, "") (Cut output nl) in
  match after_last ":"%char (bytes_of firstLine) with
  | None => TrimSpace output
  | Some value => TrimSpace (of_bytes value +:+ " " +:+ remainingLines)
  end.

Example system_identities :
  readColonIdentities ("root:x:0:" +:+ nl +:+ nl +:+ "bc_shared:x:100002:ann,bob" +:+ nl +:+ "broken:x" +:+ nl)
    = [MkSystemIdentity "root" 0; MkSystemIdentity "bc_shared" 100002] /\
  parseDirectoryServiceList ("nobody  -2" +:+ nl +:+ "AD\dave hopper   100003" +:+ nl +:+ "trailing")
    = [MkSystemIdentity "AD\dave hopper" 100003] /\
  parseDirectoryServiceValue ("UserShell: /bin/zsh" +:+ nl) = "/bin/zsh" /\
  parseDirectoryServiceValue ("dsAttrTypeNative:IsHidden: 1" +:+ nl) = "1" /\
  parseDirectoryServiceValue ("RealName:" +:+ nl +:+ " dongha lee" +:+ nl) = "dongha lee".
Proof. vm_compute; repeat split. Qed.

(** ** Groups that are retired, and content whose group changed *)

Definition groupNames (groups : list POSIXGroup) : list string := POSIXGroup_Name <$> groups.

Definition retiredCircleGroups `{UnicodeTables} (systemGroups declaredGroups circleFolders : list string)
  : list string :=
  let inUse : gset string :=
    list_to_set declaredGroups ∪ list_to_set (LinuxCircleGroupName <$> circleFolders) in
  List.filter (fun name =>
    HasPrefix name LinuxCircleGroupPrefix && negb (bool_decide (name ∈ inUse))) systemGroups.

Definition directoryIsCoveredByAncestor (directory : Directory.POSIXDirectory)
    (directories : list Directory.POSIXDirectory) : bool :=
  existsb (fun candidate =>
    negb (bool_decide (Directory.Path candidate = Directory.Path directory) ||
          negb (bool_decide (Directory.Group candidate = Directory.Group directory))) &&
    HasPrefix (Directory.Path directory) (Directory.Path candidate +:+ "/")) directories.

(** The commands it runs, each as long as the ones before succeed. *)
Definition healChangedGroupContent (directories : list Directory.POSIXDirectory)
    (changedGroups : gset string) : list (list string) :=
  omap (fun directory =>
    if negb (bool_decide (Directory.Group directory ∈ changedGroups)) then None
    else if directoryIsCoveredByAncestor directory directories then None
    else Some ["chgrp"; "-R"; Directory.Group directory; Directory.Path directory]) directories.

Definition modeTextIncludesSetGID (modeText : string) : bool :=
  match ParseUint32 8 (TrimSpace modeText) with
  | None => false
  | Some modeValue => negb (Z.land modeValue 1024 =? 0)
  end.

Definition ensureDirectory (directory : Directory.POSIXDirectory) : list (list string) :=
  [["install"; "-d"; "-o"; Directory.Owner directory; "-g"; Directory.Group directory;
    "-m"; Directory.ModeText directory; Directory.Path directory];
   ["chmod"; if modeTextIncludesSetGID (Directory.ModeText directory) then "g+s" else "g-s";
    Directory.Path directory]].

(** ** What the helper does for its caller *)

Inductive HelperError :=
| UnauthorizedCaller
| UnknownService
| UidAndGidRequired
| WorkingDirectoryRequired
| ExecutableRequired
| GroupIDsInvalid
| ModeInvalid
| PersonIDRequired
| NotOnePrivateHome
| HomeOutsideScope.

Definition isAuthorizedHelperCaller (realUserID blueclawUserID : Z) : bool :=
  (realUserID =? 0) || (realUserID =? blueclawUserID).

(** [blueclawUserID] is what the system says of the user [blueclaw], if it has it. *)
Definition authorizeHelperCaller (realUserID : Z) (blueclawUserID : option Z) : result HelperError unit :=
  match blueclawUserID with
  | None => Err UnknownService
  | Some blueclawUserID =>
    refuse_if (negb (isAuthorizedHelperCaller realUserID blueclawUserID)) UnauthorizedCaller
  end.

Fixpoint group_IDs (values : list string) : option (list Z) :=
  match values with
  | [] => Some []
  | value :: values' =>
    let trimmedValue := TrimSpace value in
    if bool_decide (trimmedValue = "") then group_IDs values'
    else
      parsedValue ← ParseInt32 trimmedValue;
      groupIDs ← group_IDs values';
      Some (parsedValue :: groupIDs)
  end.

Definition parseGroupIDs (document : string) : option (list Z) := group_IDs (Split document ","%char).

Definition parseFileMode (value : string) : option Z := ParseUint32 8 (TrimSpace value).

(** The bits of [os.FileMode] for set-user-ID, set-group-ID and sticky. *)
Definition ModeSetuid : Z := 2 ^ 23.
Definition ModeSetgid : Z := 2 ^ 22.
Definition ModeSticky : Z := 2 ^ 20.

Definition modeBits (mode : Z) : Z :=
  let rawBits := Z.land mode 4095 in
  let permission := Z.land rawBits 511 in
  let permission := if negb (Z.land rawBits 2048 =? 0) then Z.lor permission ModeSetuid else permission in
  let permission := if negb (Z.land rawBits 1024 =? 0) then Z.lor permission ModeSetgid else permission in
  if negb (Z.land rawBits 512 =? 0) then Z.lor permission ModeSticky else permission.

Record fsOperationRequest := MkFSRequest {
  Operation : string;
  FS_Path : string;
  FS_Source : string;
  FS_Mode : Z;
  MaxBytes : Z;
  Offset : Z;
  Overwrite : bool;
}.

(** What the helper asks of the kernel, in order; an operation on files stands for
    the calls it makes. *)
Inductive SystemCall :=
| Setgroups (groupIDs : list Z)
| Setgid (groupID : Z)
| Setuid (userID : Z)
| Chdir (path : string)
| Exec (arguments : list string)
| PerformFSOperation (request : fsOperationRequest).

(** [int] of a [uint]. *)
Definition int_of_uint (z : Z) : Z := wrap64 z.

Definition applyIdentity (userID groupID : Z) (groupIDs : list Z) : list SystemCall :=
  [Setgroups groupIDs; Setgid (int_of_uint groupID); Setuid (int_of_uint userID)].

Definition prepareExecProcess (userID groupID : Z) (groupIDs : list Z) (workingDirectoryPath : string)
  : list SystemCall :=
  (applyIdentity userID groupID groupIDs ++ [Chdir workingDirectoryPath])%list.

(** The flags of [exec], parsed. *)
Record ExecRequest := MkExecRequest {
  uid : Z;
  gid : Z;
  groups : string;
  cwd : string;
  executableArguments : list string;
}.

Definition runExec (request : ExecRequest) : result HelperError (list SystemCall) :=
  _ ← refuse_if ((uid request =? 0) || (gid request =? 0)) UidAndGidRequired;
  _ ← refuse_if (blank (cwd request)) WorkingDirectoryRequired;
  _ ← refuse_if (bool_decide (executableArguments request = [])) ExecutableRequired;
  match parseGroupIDs (groups request) with
  | None => Err GroupIDsInvalid
  | Some groupIDs =>
    Ok (prepareExecProcess (uid request) (gid request) groupIDs (cwd request) ++
        [Exec (executableArguments request)])%list
  end.

(** [fs] with its flags; the mode and the groups are still text. *)
Definition runFS (userID groupID : Z) (groupIDsDocument modeText : string)
    (request : fsOperationRequest) : result HelperError (list SystemCall) :=
  _ ← refuse_if ((userID =? 0) || (groupID =? 0)) UidAndGidRequired;
  match parseGroupIDs groupIDsDocument with
  | None => Err GroupIDsInvalid
  | Some groupIDs =>
    match parseFileMode modeText with
    | None => Err ModeInvalid
    | Some mode =>
      Ok (applyIdentity userID groupID groupIDs ++
          [PerformFSOperation (MkFSRequest (Operation request) (FS_Path request) (FS_Source request)
             mode (MaxBytes request) (Offset request) (Overwrite request))])%list
    end
  end.

Definition runAuthorized (realUserID : Z) (blueclawUserID : option Z)
    (run : result HelperError (list SystemCall)) : result HelperError (list SystemCall) :=
  _ ← authorizeHelperCaller realUserID blueclawUserID;
  run.

(** The calls made: each if those before it succeeded. *)
Fixpoint performed (succeeds : SystemCall -> bool) (calls : list SystemCall) : list SystemCall :=
  match calls with
  | [] => []
  | call :: calls' => call :: if succeeds call then performed succeeds calls' else []
  end.

Definition reconcileHomePath (workspacePath personID : string) : result HelperError string :=
  let trimmedPersonID := TrimSpace personID in
  _ ← refuse_if (bool_decide (trimmedPersonID = "")) PersonIDRequired;
  _ ← refuse_if (bool_decide (trimmedPersonID = ".") || bool_decide (trimmedPersonID = "..") ||
                 has_byte trimmedPersonID slash) NotOnePrivateHome;
  let rootPath := TrimSpace workspacePath in
  let rootPath := if bool_decide (rootPath = "") then "/workspace" else rootPath in
  let privatePeoplePath := PathJoin [rootPath; "private"; "people"] in
  let homePath := PathJoin [privatePeoplePath; trimmedPersonID] in
  match Rel privatePeoplePath homePath with
  | None => Err HomeOutsideScope
  | Some relativePath =>
    if negb (bool_decide (relativePath = trimmedPersonID)) then Err HomeOutsideScope else Ok homePath
  end.

(** ** The next free number *)

Lemma word32_id z : uint32 z -> word32 z = z.
Proof. intros Hz; unfold word32; by apply Z.mod_small. Qed.

Lemma word32_range z : uint32 (word32 z).
Proof. unfold word32, uint32; apply Z.mod_pos_bound; lia. Qed.

(** A search that gives up has met a reserved number at every turn. *)
Lemma skip_reserved_None fuel r c i :
  skip_reserved fuel r c = None -> uint32 c -> (i <= fuel)%nat -> word32 (c + Z.of_nat i) ∈ r.
Proof.
  revert c i; induction fuel as [|fuel IH]; intros c i; cbn; case_bool_decide as Hc; try done;
    intros Hs Hr Hi; (destruct i as [|i]; [by rewrite Z.add_0_r, word32_id|]); [lia|].
  replace (word32 (c + Z.of_nat (S i))) with (word32 (word32 (c + 1) + Z.of_nat i)).
  - apply IH; [done|apply word32_range|lia].
  - unfold word32; rewrite Zplus_mod_idemp_l; f_equal; lia.
Qed.

(** One turn more than there are reserved numbers is enough. *)
Lemma skip_reserved_total r c :
  uint32 c -> Z.of_nat (size r) < 2 ^ 32 -> is_Some (skip_reserved (size r) r c).
Proof.
  intros Hc Hsize; destruct (skip_reserved (size r) r c) as [id|] eqn:Hs; [done|exfalso].
  set (l := (fun i => word32 (c + Z.of_nat i)) <$> seq 0 (S (size r))).
  assert (Hsub : list_to_set (C := gset Z) l ⊆ r).
  { intros x Hx; apply elem_of_list_to_set, list_elem_of_fmap in Hx as (i & -> & Hi).
    apply elem_of_seq in Hi; apply (skip_reserved_None (size r)); [done|done|lia]. }
  assert (Hnd : NoDup l).
  { apply NoDup_fmap_2_strong; [|apply NoDup_seq].
    intros i j Hi Hj Hij; apply elem_of_seq in Hi, Hj; unfold word32, uint32 in *.
    div_lia. }
  apply subseteq_size in Hsub; rewrite size_list_to_set in Hsub by done.
  unfold l in Hsub; rewrite length_fmap, length_seq in Hsub; lia.
Qed.

Lemma skip_reserved_bounded fuel r c B id :
  skip_reserved fuel r c = Some id -> (forall x, x ∈ r -> x < B) -> B < 2 ^ 32 -> 0 <= c <= B ->
  (id ∉ r) /\ c <= id <= B.
Proof.
  intros Hs Hr HB; revert c Hs; induction fuel as [|fuel IH]; intros c; cbn;
    case_bool_decide as Hc; try done.
  1,3: intros [= <-] Hc'; split; [done|lia].
  intros Hs Hc'; specialize (Hr c Hc); rewrite word32_id in Hs by (unfold uint32; lia).
  destruct (IH (c + 1) Hs) as [? ?]; [lia|]; split; [done|lia].
Qed.

Lemma past_allocations_bounded ids B :
  (forall id, id ∈ ids -> 0 <= id < B) -> posixIdentityBaseID <= B < 2 ^ 32 ->
  posixIdentityBaseID <= past_allocations ids <= B /\
  forall id, id ∈ ids -> id < past_allocations ids.
Proof.
  intros Hids HB; unfold past_allocations.
  assert (Hc : posixIdentityBaseID <= B) by lia.
  generalize posixIdentityBaseID as c, Hc; clear Hc.
  induction ids as [|id ids IH]; intros c Hc; cbn.
  { split; [lia|]; by intros id ?%elem_of_nil. }
  assert (Hid : 0 <= id < B) by (apply Hids; left).
  set (c' := if c <=? id then word32 (id + 1) else c).
  assert (Hc' : c <= c' <= B /\ id < c').
  { unfold c'; destruct (Z.leb_spec c id); [rewrite word32_id by (unfold uint32; lia)|]; lia. }
  destruct (IH ltac:(intros x Hx; apply Hids; by right) c' ltac:(lia)) as [H1 H2].
  split; [lia|]; intros x [->|Hx]%elem_of_cons; [lia|by apply H2].
Qed.

(** ** Allocating *)

(** No two names have one number. *)
Definition injective (m : gmap string Z) : Prop :=
  forall n1 n2 id, m !! n1 = Some id -> m !! n2 = Some id -> n1 = n2.

(** Every number in the table lies in [0, B). *)
Definition below (B : Z) (table : identityAllocationTable) : Prop :=
  (forall name id, allocations table !! name = Some id -> 0 <= id < B) /\
  (forall id, id ∈ reserved table -> 0 <= id < B).

(** Numbers below a bound are fewer than it. *)
Lemma size_below (r : gset Z) B :
  (forall x, x ∈ r -> 0 <= x < B) -> Z.of_nat (size r) <= Z.max 0 B.
Proof.
  intros Hr.
  assert (Hsub : r ⊆ list_to_set (C := gset Z) (seqZ 0 B)).
  { intros x Hx; apply elem_of_list_to_set, elem_of_seqZ; specialize (Hr x Hx); lia. }
  apply subseteq_size in Hsub; rewrite size_list_to_set in Hsub by apply NoDup_seqZ.
  rewrite length_seqZ in Hsub; lia.
Qed.

Section allocation.
Context (visit : gmap string Z -> list (string * Z)).
Hypothesis Hvisit : forall m, visit m ≡ₚ map_to_list m.

Lemma nextFreeID_free table B :
  below B table -> posixIdentityBaseID <= B < 2 ^ 32 ->
  exists id, nextFreeID visit table = Some id /\ posixIdentityBaseID <= id <= B /\
    (id ∉ reserved table) /\ forall name id', allocations table !! name = Some id' -> id' < id.
Proof.
  intros [Ha Hr] HB; unfold nextFreeID.
  assert (Hids : forall id, id ∈ (visit (allocations table)).*2 <->
    exists name, allocations table !! name = Some id).
  { intros id; rewrite (Hvisit (allocations table)), list_elem_of_fmap; split.
    - intros ([name id'] & -> & Hin%elem_of_map_to_list); by exists name.
    - intros [name Hin]; exists (name, id); by rewrite elem_of_map_to_list. }
  destruct (past_allocations_bounded (visit (allocations table)).*2 B) as [Hc Hpast]; [|done|].
  { intros id [name Hin]%Hids; by apply (Ha name). }
  assert (H0 : 0 <= posixIdentityBaseID) by done.
  destruct (skip_reserved_total (reserved table) (past_allocations (visit (allocations table)).*2))
    as [id Hid].
  { unfold uint32; lia. }
  { pose proof (size_below (reserved table) B Hr); lia. }
  exists id; split; [done|].
  destruct (skip_reserved_bounded _ _ _ B id Hid) as [Hfree Hle]; [intros x Hx; by apply Hr|lia|lia|].
  split_and!; [lia|lia|done|]; intros name id' Hin.
  assert (Hlt : id' < past_allocations (visit (allocations table)).*2) by (apply Hpast, Hids; eauto).
  lia.
Qed.

(** What one call of [idFor] gives. *)
Record allocated (table table' : identityAllocationTable) (name : string) (id : Z) : Prop := {
  allocated_extends : allocations table ⊆ allocations table';
  allocated_name : allocations table' !! name = Some id;
  allocated_injective : injective (allocations table');
  allocated_reserved : reserved table ⊆ reserved table';
  allocated_fresh : allocations table !! name = None ->
    posixIdentityBaseID <= id /\ (id ∉ reserved table);
  allocated_clean : dirty table' = false -> dirty table = false /\ allocations table' = allocations table;
}.

Lemma idFor_allocates name table B :
  below B table -> injective (allocations table) -> posixIdentityBaseID <= B < 2 ^ 32 ->
  exists id table', idFor visit name table = Some (id, table') /\
    allocated table table' name id /\ below (B + 1) table'.
Proof.
  intros Hb Hinj HB; unfold idFor; destruct (allocations table !! name) as [id|] eqn:Hname.
  { exists id, table; split; [done|]; split; [split; by rewrite ?Hname|].
    destruct Hb as [Ha Hr]; split; [intros n i Hi; specialize (Ha n i Hi); lia|].
    intros i Hi; specialize (Hr i Hi); lia. }
  destruct (nextFreeID_free table B Hb HB) as (id & -> & Hid & Hfree & Hmax); cbn.
  eexists id, _; split; [done|]; destruct Hb as [Ha Hr].
  assert (Hbase : 0 <= posixIdentityBaseID) by done.
  split; split; cbn; try done.
  - by apply insert_subseteq.
  - apply lookup_insert_eq.
  - intros n1 n2 i [[<- <-]|[? H1]]%lookup_insert_Some [[<- Hi]|[? H2]]%lookup_insert_Some; [done| | |by eapply Hinj].
    + specialize (Hmax _ _ H2); lia.
    + subst i; specialize (Hmax _ _ H1); lia.
  - apply union_subseteq_r.
  - by split; [lia|].
  - intros n i [[<- <-]|[? Hi]]%lookup_insert_Some; [lia|]; specialize (Ha _ _ Hi); lia.
  - intros i [->%elem_of_singleton|Hi]%elem_of_union; [lia|]; specialize (Hr i Hi); lia.
Qed.

(** What a run of calls gives. *)
Record all_allocated (table table' : identityAllocationTable) (names : list string) (ids : list Z)
  : Prop := {
  run_length : length ids = length names;
  run_extends : allocations table ⊆ allocations table';
  run_injective : injective (allocations table');
  run_names : Forall2 (fun name id => allocations table' !! name = Some id) names ids;
  run_fresh : forall name id, allocations table' !! name = Some id ->
    allocations table !! name = None -> posixIdentityBaseID <= id /\ (id ∉ reserved table);
  run_clean : dirty table' = false -> dirty table = false /\ allocations table' = allocations table;
}.

Lemma idFor_adds_only name table id table' n :
  idFor visit name table = Some (id, table') -> n <> name ->
  allocations table' !! n = allocations table !! n.
Proof.
  unfold idFor; destruct (allocations table !! name); [by intros [= <- <-]|].
  destruct (nextFreeID visit table); [|done]; intros [= <- <-] Hne; cbn.
  by apply lookup_insert_ne.
Qed.

Lemma idsFor_allocates names table B :
  below B table -> injective (allocations table) ->
  posixIdentityBaseID <= B -> B + Z.of_nat (length names) <= 2 ^ 32 ->
  exists ids table', idsFor visit names table = Some (ids, table') /\
    all_allocated table table' names ids.
Proof.
  revert table B; induction names as [|name names IH]; intros table B Hb Hinj HB Hlen.
  { exists [], table; split; [done|]; split; try done.
    intros name id H1 H2; by rewrite H1 in H2. }
  cbn [length] in Hlen.
  destruct (idFor_allocates name table B Hb Hinj ltac:(lia)) as (id & t1 & H1 & Hone & Hb1).
  destruct (IH t1 (B + 1) Hb1 (allocated_injective _ _ _ _ Hone) ltac:(lia) ltac:(lia))
    as (ids & t2 & H2 & Hrest).
  exists (id :: ids), t2; split; [cbn [idsFor]; by rewrite H1; cbn; rewrite H2|].
  destruct Hone, Hrest; split; cbn.
  - by f_equal.
  - by etransitivity.
  - done.
  - constructor; [by eapply lookup_weaken|done].
  - intros n i Hi Hn; destruct (decide (n = name)) as [->|Hne].
    + rewrite (lookup_weaken _ _ _ _ allocated_name0 run_extends0) in Hi; injection Hi as <-; auto.
    + destruct (run_fresh0 n i Hi) as [? Hres].
      { by rewrite (idFor_adds_only name table id t1 n H1 Hne). }
      split; [done|]; by intros Hin%allocated_reserved0.
  - intros Hd; destruct (run_clean0 Hd) as [Hd1 Ha1], (allocated_clean0 Hd1) as [? Ha].
    split; [done|]; congruence.
Qed.

(** Names that have numbers keep them, and nothing changes. *)
Lemma idsFor_known names ids table :
  Forall2 (fun name id => allocations table !! name = Some id) names ids ->
  idsFor visit names table = Some (ids, table).
Proof.
  induction 1 as [|name id names ids Hname _ IH]; [done|]; cbn [idsFor].
  unfold idFor; rewrite Hname; cbn; by rewrite IH.
Qed.

(** ** Loading *)

Lemma recover_allocations identity table name :
  allocations (recoverProjectedAllocation identity table) !! name =
    match allocations table !! name with
    | Some id => Some id
    | None =>
      if bool_decide (name = identity_name identity) && (posixIdentityBaseID <=? identityID identity) &&
        HasPrefix (identity_name identity) "bc_" then Some (identityID identity) else None
    end.
Proof.
  unfold recoverProjectedAllocation; rewrite Z.ltb_antisym.
  destruct (posixIdentityBaseID <=? identityID identity); cbn;
    [|rewrite andb_false_r; by destruct (allocations table !! name)].
  destruct (HasPrefix _ _); cbn; [|rewrite !andb_false_r; by destruct (allocations table !! name)].
  rewrite !andb_true_r; case_bool_decide as Hn; [subst name|].
  - destruct (allocations table !! identity_name identity) eqn:He; [done|cbn].
    by rewrite lookup_insert_eq.
  - destruct (allocations table !! identity_name identity) eqn:He; cbn;
      [|rewrite lookup_insert_ne by done]; by destruct (allocations table !! name).
Qed.

Lemma reserve_extends identities table : allocations table ⊆ allocations (reserve identities table).
Proof.
  revert table; induction identities as [|i identities IH]; intros table; cbn; [done|].
  etransitivity; [|apply IH]; apply map_subseteq_spec; intros name id Hin.
  unfold reserve_identity; rewrite recover_allocations; cbn; by rewrite Hin.
Qed.

(** A name of the program that the system has and the map lost gets its number back. *)
Lemma reserve_recovers identities table i :
  i ∈ identities -> posixIdentityBaseID <= identityID i -> HasPrefix (identity_name i) "bc_" = true ->
  (forall j, j ∈ identities -> identity_name j = identity_name i -> identityID j = identityID i) ->
  allocations table !! identity_name i = None ->
  allocations (reserve identities table) !! identity_name i = Some (identityID i).
Proof.
  intros Hi Hbase Hbc; revert table; induction identities as [|j identities IH]; intros table Hsame Hnone.
  { by apply elem_of_nil in Hi. }
  cbn; destruct (decide (identity_name j = identity_name i)) as [Hji|Hji].
  - eapply lookup_weaken; [|apply reserve_extends]; unfold reserve_identity; rewrite recover_allocations; cbn.
    rewrite Hnone, Hji, (Hsame j), Hbc, bool_decide_true by (done || left).
    by destruct (Z.leb_spec posixIdentityBaseID (identityID i)); [|lia].
  - apply elem_of_cons in Hi as [->|Hi]; [done|]; apply IH; [done| |].
    + intros k Hk; apply Hsame; by right.
    + unfold reserve_identity; rewrite recover_allocations; cbn; rewrite Hnone, bool_decide_false by done; done.
Qed.

Lemma load_extends {E} disk (groups users : result E (list systemIdentity)) table :
  loadIdentityAllocationTable (Ok disk) groups users = Ok table -> disk ⊆ allocations table.
Proof.
  unfold loadIdentityAllocationTable, reserveSystemIdentities; intros Hl; run_inv.
  etransitivity; [|apply reserve_extends]; apply (reserve_extends _ (MkTable _ ∅ false)).
Qed.

(** A run of the helper gives every name of the system state a number of its
    own: it always finds one, keeps those the table has, and takes none below the
    base, none the system uses and none twice, as long as the numbers stay within
    32 bits; and once the table is written, the next run, whatever groups and
    users the system then has, gives every name the same number again. *)
Theorem identities_are_kept state table B disk :
  let names := synchronized_names state in
  below B table -> injective (allocations table) ->
  posixIdentityBaseID <= B -> B + Z.of_nat (length names) <= 2 ^ 32 ->
  (dirty table = false -> allocations table = disk) ->
  exists ids table', idsFor visit names table = Some (ids, table') /\
    all_allocated table table' names ids /\
    forall E (groups users : result E (list systemIdentity)) next,
      loadIdentityAllocationTable (Ok (persist table' disk)) groups users = Ok next ->
      idsFor visit names next = Some (ids, next).
Proof.
  intros names Hb Hinj HB Hlen Hdisk.
  destruct (idsFor_allocates names table B Hb Hinj HB Hlen) as (ids & table' & Hrun & Hall).
  exists ids, table'; split_and!; [done..|]; intros E groups users next Hload.
  apply idsFor_known; eapply Forall2_impl; [apply (run_names _ _ _ _ Hall)|].
  intros name id Hid; cbn in *; eapply lookup_weaken; [|by apply load_extends in Hload].
  unfold persist; destruct (dirty table') eqn:Hd; [done|]; cbn.
  destruct (run_clean _ _ _ _ Hall Hd) as [Hd' Ha]; by rewrite <- Hdisk, <- Ha.
Qed.

End allocation.

(** ** Whom the helper works as *)

(** An identifier as the kernel takes it, in 32 bits. *)
Definition kernel_id (z : Z) : Z := word32 z.

Lemma kernel_id_of_flag z : uint32 z -> kernel_id (int_of_uint z) = z.
Proof.
  unfold uint32; intros Hz; unfold kernel_id, int_of_uint.
  rewrite wrap64_id by (unfold int64_min, int64_max; lia); by apply word32_id.
Qed.

(** The last of a list of calls is made only after all the others succeeded. *)
Lemma performed_last succeeds calls call :
  call ∉ calls -> call ∈ performed succeeds (calls ++ [call]) ->
  performed succeeds (calls ++ [call]) = (calls ++ [call])%list /\ forallb succeeds calls = true.
Proof.
  induction calls as [|c calls IH]; cbn; [by destruct (succeeds call)|]; intros Hnot Hin.
  apply not_elem_of_cons in Hnot as [Hne Hnot]; apply elem_of_cons in Hin as [?|Hin]; [done|].
  destruct (succeeds c); [|by apply elem_of_nil in Hin].
  by destruct (IH Hnot Hin) as [-> ->].
Qed.

Lemma runAuthorized_Ok realUserID blueclawUserID run calls :
  runAuthorized realUserID blueclawUserID run = Ok calls ->
  (realUserID = 0 \/ blueclawUserID = Some realUserID) /\ run = Ok calls.
Proof.
  unfold runAuthorized, authorizeHelperCaller, isAuthorizedHelperCaller; intros Hr; run_inv.
  split; [|done]; destruct blueclawUserID as [b|]; run_inv.
  match goal with H : negb _ = false |- _ => apply negb_eq_false, orb_true_iff in H as [H|H] end;
    bool_to_prop; subst; auto.
Qed.

Definition identity_taken (userID groupID : Z) (groupIDsDocument : string)
    (calls : list SystemCall) : Prop :=
  exists groupIDs, parseGroupIDs groupIDsDocument = Some groupIDs /\
    userID <> 0 /\ groupID <> 0 /\
    firstn 3 calls = [Setgroups groupIDs; Setgid (int_of_uint groupID); Setuid (int_of_uint userID)].

(** The helper works for root and for the service only, and starts a program,
    or touches a file, only after the kernel has accepted the groups, the group and
    the user asked for, in this order, and - for a program - the directory: never
    before, and never when one of them was refused. The user and the group are not
    root's, for numbers that fit the kernel's 32 bits. *)
Theorem helper_takes_the_identity_first succeeds realUserID blueclawUserID :
  (forall request calls, runAuthorized realUserID blueclawUserID (runExec request) = Ok calls ->
    (realUserID = 0 \/ blueclawUserID = Some realUserID) /\
    forall arguments, Exec arguments ∈ performed succeeds calls ->
      arguments = executableArguments request /\ arguments <> [] /\
      identity_taken (uid request) (gid request) (groups request) (performed succeeds calls) /\
      (uint32 (uid request) -> kernel_id (int_of_uint (uid request)) = uid request) /\
      exists before, performed succeeds calls = (before ++ [Chdir (cwd request); Exec arguments])%list /\
        forallb succeeds (before ++ [Chdir (cwd request)]) = true) /\
  (forall userID groupID groupIDs modeText request calls,
    runAuthorized realUserID blueclawUserID (runFS userID groupID groupIDs modeText request) = Ok calls ->
    (realUserID = 0 \/ blueclawUserID = Some realUserID) /\
    forall operation, PerformFSOperation operation ∈ performed succeeds calls ->
      parseFileMode modeText = Some (FS_Mode operation) /\
      identity_taken userID groupID groupIDs (performed succeeds calls) /\
      (uint32 userID -> kernel_id (int_of_uint userID) = userID) /\
      exists before, performed succeeds calls = (before ++ [PerformFSOperation operation])%list /\
        forallb succeeds before = true).
Proof.
  split.
  - intros request calls [Hcaller Hrun]%runAuthorized_Ok; split; [done|]; intros arguments Hin.
    unfold runExec in Hrun; run_inv; destruct (parseGroupIDs (groups request)) as [ids|] eqn:Hids; [|done].
    run_inv; bool_to_prop.
    assert (Ha : arguments = executableArguments request).
    { cbn in Hin; repeat (destruct (succeeds _)); repeat (apply elem_of_cons in Hin as [Hin|Hin]; [by simplify_eq|]);
        by apply elem_of_nil in Hin. }
    subst arguments.
    apply (performed_last succeeds (prepareExecProcess (uid request) (gid request) ids (cwd request)))
      in Hin as [Hall Hs];
      [|unfold prepareExecProcess, applyIdentity; rewrite !not_elem_of_app, !not_elem_of_cons;
        repeat split; try done; apply not_elem_of_nil].
    unfold prepareExecProcess, applyIdentity in Hall, Hs; cbn [app] in Hall, Hs.
    rewrite Hall; split_and!; [done|done|by exists ids|apply kernel_id_of_flag|].
    by exists (applyIdentity (uid request) (gid request) ids).
  - intros userID groupID groupIDs modeText request calls [Hcaller Hrun]%runAuthorized_Ok.
    split; [done|]; intros operation Hin.
    unfold runFS in Hrun; run_inv; destruct (parseGroupIDs groupIDs) as [ids|] eqn:Hids; [|done].
    destruct (parseFileMode modeText) as [mode|] eqn:Hmode; [|done]; run_inv; bool_to_prop.
    assert (Ha : operation = MkFSRequest (Operation request) (FS_Path request) (FS_Source request)
      mode (MaxBytes request) (Offset request) (Overwrite request)).
    { cbn in Hin; repeat (destruct (succeeds _)); repeat (apply elem_of_cons in Hin as [Hin|Hin]; [by simplify_eq|]);
        by apply elem_of_nil in Hin. }
    subst operation.
    apply (performed_last succeeds (applyIdentity userID groupID ids)) in Hin as [Hall Hs];
      [|unfold applyIdentity; rewrite !not_elem_of_cons; repeat split; try done; apply not_elem_of_nil].
    unfold applyIdentity in Hall, Hs; cbn [app] in Hall, Hs.
    rewrite Hall; split_and!; [done|by exists ids|apply kernel_id_of_flag|].
    by exists (applyIdentity userID groupID ids).
Qed.

(** ** Private homes *)

(** The path given, or the default. *)
Definition root_of (workspacePath : string) : string :=
  if bool_decide (TrimSpace workspacePath = "") then "/workspace" else TrimSpace workspacePath.

(** The home that is reconciled is the entry of the people's directory that the
    ID names, and nothing else is ever a home: an ID that is empty, that is a dot or
    two, or that has a slash is refused, and every other one is taken. *)
Theorem reconcileHomePath_exact workspacePath personID home :
  reconcileHomePath workspacePath personID = Ok home <->
    normal (TrimSpace personID) /\
    home = PathJoin [root_of workspacePath; "private"; "people"] +:+ "/" +:+ TrimSpace personID.
Proof.
  set (id := TrimSpace personID); set (root := root_of workspacePath).
  assert (Hroot : root <> "").
  { unfold root, root_of; case_bool_decide; [done|done]. }
  assert (Hnames : Forall normal ["private"; "people"]) by (by repeat constructor).
  set (cs := (components root ++ ["private"; "people"])%list).
  assert (Hcs : clean_components (is_rooted root) cs)
    by (apply clean_components_app; [apply components_shape|done]).
  assert (Hne : cs <> []) by (unfold cs; by destruct (components root)).
  assert (Hpeople : PathJoin [root; "private"; "people"] = render (is_rooted root) cs)
    by (by apply PathJoin_names).
  assert (Hhome : normal id ->
    PathJoin [render (is_rooted root) cs; id] = render (is_rooted root) cs +:+ "/" +:+ id).
  { intros Hid; rewrite PathJoin_rendered by (done || by constructor); by apply render_snoc. }
  unfold reconcileHomePath; cbv zeta; fold id root.
  change (if bool_decide (TrimSpace workspacePath = "") then "/workspace" else TrimSpace workspacePath)
    with root; rewrite Hpeople; split.
  - intros Hr; run_inv; bool_to_prop.
    assert (Hid : normal id) by done; rewrite (Hhome Hid), <- render_snoc, Rel_child in Hr by done.
    rewrite bool_decide_true in Hr by done; cbn in Hr; run_inv; split; [done|by rewrite render_snoc].
  - intros [Hid ->]; pose proof Hid as (H1 & H2 & H3 & H4); rewrite !bool_decide_false, H4 by done.
    cbn [refuse_if mbind result_mbind orb]; rewrite (Hhome Hid), <- render_snoc, Rel_child by done.
    by rewrite bool_decide_true.
Qed.

(** ** Groups in use *)

(** Whether the content of a directory gets its group again: by a command on it, or
    on a directory above it. *)
Definition healed (commands : list (list string)) (directory : Directory.POSIXDirectory) : Prop :=
  exists path, ["chgrp"; "-R"; Directory.Group directory; path] ∈ commands /\
    (path = Directory.Path directory \/ HasPrefix (Directory.Path directory) (path +:+ "/") = true).

Lemma HasPrefix_spec s p : HasPrefix s p = true <-> exists t, s = p +:+ t.
Proof.
  split; [|by intros [t ->]; apply HasPrefix_app].
  unfold HasPrefix; intros Hs; destruct (strip_prefix (bytes_of p) (bytes_of s)) as [rest|] eqn:He; [|done].
  assert (Hp : forall l1 l2 l, strip_prefix l1 l2 = Some l -> l2 = (l1 ++ l)%list).
  { clear; induction l1 as [|a l1 IH]; intros [|b l2] l; cbn; try congruence.
    destruct (Ascii.eqb_spec a b) as [->|]; [|done]; intros Hl; f_equal; by apply IH. }
  exists (of_bytes rest); apply bytes_of_eq; rewrite bytes_of_app, bytes_of_bytes; by apply Hp.
Qed.

Lemma covered_shorter directory directories :
  directoryIsCoveredByAncestor directory directories = true ->
  exists candidate, candidate ∈ directories /\
    Directory.Group candidate = Directory.Group directory /\
    HasPrefix (Directory.Path directory) (Directory.Path candidate +:+ "/") = true /\
    len (Directory.Path candidate) < len (Directory.Path directory).
Proof.
  unfold directoryIsCoveredByAncestor; intros (c & Hc & Hcond)%existsb_elem_of.
  apply andb_true_iff in Hcond as [Hcond Hp]; exists c; split; [done|].
  bool_to_prop; split_and!; [done|done|].
  apply HasPrefix_spec in Hp as [t ->]; rewrite !len_app; pose proof (len_nonneg t).
  change (len "/") with 1; lia.
Qed.

Lemma heal_reaches directories changedGroups n directory :
  (len (Directory.Path directory) <= Z.of_nat n) ->
  directory ∈ directories -> Directory.Group directory ∈ changedGroups ->
  healed (healChangedGroupContent directories changedGroups) directory.
Proof.
  revert directory; induction n as [n IH] using lt_wf_ind; intros directory Hlen Hin Hg.
  destruct (directoryIsCoveredByAncestor directory directories) eqn:Hcov.
  - apply covered_shorter in Hcov as (c & Hc & Hgroup & Hp & Hlt).
    pose proof (len_nonneg (Directory.Path c)).
    destruct (IH (Z.to_nat (len (Directory.Path c))) ltac:(lia) c ltac:(lia) Hc ltac:(by rewrite Hgroup))
      as (path & Hcmd & Hpath).
    exists path; rewrite <- Hgroup; split; [done|right].
    destruct Hpath as [->|Hpath]; [done|].
    apply HasPrefix_spec in Hp as [t ->]; apply HasPrefix_spec in Hpath as [t' ->].
    rewrite !append_assoc; rewrite <- (append_assoc path); apply HasPrefix_app.
  - exists (Directory.Path directory); split; [|by left].
    unfold healChangedGroupContent; apply list_elem_of_omap; exists directory; split; [done|].
    by rewrite bool_decide_true, Hcov.
Qed.

(** A synchronization takes no group away from anyone and leaves no content
    behind: a group it retires is a circle's group of the system that no user of the
    state is in, that no directory of the state has, and that no circle folder still
    maps to; and where the number of a group changed, the content of every directory
    of that group gets the group again, by a command on the directory itself or on
    one of the same group above it. *)
Theorem synchronization_keeps_groups_in_use `{UnicodeLaws} visit root d systemGroups folders changedGroups :
  (forall m, visit m ≡ₚ map_to_list m) ->
  let state := POSIXStateForPolicy visit d root in
  (forall name, name ∈ retiredCircleGroups systemGroups (groupNames (Groups state)) folders <->
    name ∈ systemGroups /\ HasPrefix name LinuxCircleGroupPrefix = true /\
    (MkPOSIXGroup name ∉ Groups state) /\ (name ∉ LinuxCircleGroupName <$> folders)) /\
  (forall name, name ∈ retiredCircleGroups systemGroups (groupNames (Groups state)) folders ->
    (forall u, u ∈ Users state -> name ∉ User.Groups u) /\
    (forall dir, dir ∈ Directories state -> Directory.Group dir <> name)) /\
  (forall dir, dir ∈ Directories state -> Directory.Group dir ∈ changedGroups ->
    healed (healChangedGroupContent (Directories state) changedGroups) dir).
Proof.
  intros Hvisit state; destruct (POSIXStateForPolicy_declares root visit d Hvisit) as [Hdirs Husers].
  assert (Hretired : forall name,
    name ∈ retiredCircleGroups systemGroups (groupNames (Groups state)) folders <->
    name ∈ systemGroups /\ HasPrefix name LinuxCircleGroupPrefix = true /\
    (MkPOSIXGroup name ∉ Groups state) /\ (name ∉ LinuxCircleGroupName <$> folders)).
  { intros name; unfold retiredCircleGroups; cbv zeta; rewrite list_elem_of_In, filter_In, <- list_elem_of_In.
    rewrite andb_true_iff, negb_true_iff, bool_decide_eq_false, not_elem_of_union, !elem_of_list_to_set.
    assert (Hn : name ∈ groupNames (Groups state) <-> MkPOSIXGroup name ∈ Groups state).
    { unfold groupNames; rewrite list_elem_of_fmap; split; [by intros ([n] & -> & ?)|].
      intros Hin; by exists (MkPOSIXGroup name). }
    rewrite Hn; tauto. }
  split_and!; [done| |].
  - intros name (_ & Hp & Hnot & _)%Hretired; split.
    + intros u Hu Hg; by apply Hnot, (Husers u).
    + intros dir Hd <-; destruct (Hdirs dir Hd) as [Hs|Hin]; [|done].
      by rewrite Hs in Hp; vm_compute in Hp.
  - intros dir Hd Hc; apply (heal_reaches _ _ (Z.to_nat (len (Directory.Path dir)))); [|done|done].
    pose proof (len_nonneg (Directory.Path dir)); lia.
Qed.

(** ** Witnesses *)

Definition two_group_state : POSIXState :=
  MkPOSIXState
    [User.MkPOSIXUser "bc_person_ann" "/workspace/private/people/ann" "bc_person_ann" ["bc_shared"]]
    [MkPOSIXGroup "bc_shared"; MkPOSIXGroup "bc_person_ann"] [].

Definition one_allocation : identityAllocationTable :=
  MkTable {["bc_shared" := 100000]} (list_to_set [0; 100000; 100001]) false.

Lemma identities_are_kept_witness :
  exists ids table', idsFor map_to_list (synchronized_names two_group_state) one_allocation = Some (ids, table') /\
    ids = [100000; 100002; 100002; 100002].
Proof.
  destruct (identities_are_kept map_to_list ltac:(done) two_group_state one_allocation 100010
    {["bc_shared" := 100000]}) as (ids & table' & Hrun & _).
  - split.
    + intros name id Hid; cbn in Hid; apply lookup_singleton_Some in Hid as [_ <-]; done.
    + intros id Hid; cbn [reserved one_allocation] in Hid; apply elem_of_list_to_set in Hid.
      repeat (apply elem_of_cons in Hid as [->|Hid]; [done|]); by apply elem_of_nil in Hid.
  - intros n1 n2 id H1 H2; cbn in H1, H2.
    apply lookup_singleton_Some in H1 as [<- _]; by apply lookup_singleton_Some in H2 as [<- _].
  - done.
  - vm_compute; discriminate.
  - done.
  - exists ids, table'; split; [exact Hrun|].
    assert (Hids : fst <$> idsFor map_to_list (synchronized_names two_group_state) one_allocation
      = Some [100000; 100002; 100002; 100002]) by (vm_compute; reflexivity).
    rewrite Hrun in Hids; by injection Hids.
Defined.

Lemma helper_takes_the_identity_first_witness :
  [Setgroups [100001]; Setgid 100000; Setuid 100000; Chdir "/workspace"; Exec ["/bin/ls"]] =
    performed (fun _ => true)
      [Setgroups [100001]; Setgid 100000; Setuid 100000; Chdir "/workspace"; Exec ["/bin/ls"]] /\
  ["/bin/ls"] <> [].
Proof.
  destruct (helper_takes_the_identity_first (fun _ => true) 999 (Some 999)) as [Hexec _].
  destruct (Hexec (MkExecRequest 100000 100000 "100001" "/workspace" ["/bin/ls"])
    [Setgroups [100001]; Setgid 100000; Setuid 100000; Chdir "/workspace"; Exec ["/bin/ls"]]
    ltac:(vm_compute; reflexivity)) as [_ Hargs].
  split; [reflexivity|].
  destruct (Hargs ["/bin/ls"]) as (_ & Hne & _); [do 4 right; left|exact Hne].
Defined.

Lemma synchronization_keeps_groups_in_use_witness :
  "bc_circle_old" ∈ @retiredCircleGroups ascii_tables ["root"; "bc_circle_old"; "bc_circle_finance"; "bc_circle_kept"]
    (groupNames (Groups (@POSIXStateForPolicy ascii_tables visit_in_order (posix_document []) "/workspace")))
    ["kept"] /\
  forall u, u ∈ Users (@POSIXStateForPolicy ascii_tables visit_in_order (posix_document []) "/workspace") ->
    "bc_circle_old" ∉ User.Groups u.
Proof.
  assert (Hr : @retiredCircleGroups ascii_tables ["root"; "bc_circle_old"; "bc_circle_finance"; "bc_circle_kept"]
    (groupNames (Groups (@POSIXStateForPolicy ascii_tables visit_in_order (posix_document []) "/workspace")))
    ["kept"] = ["bc_circle_old"]) by (vm_compute; reflexivity).
  destruct (@synchronization_keeps_groups_in_use ascii_tables ascii_laws visit_in_order "/workspace"
    (posix_document []) ["root"; "bc_circle_old"; "bc_circle_finance"; "bc_circle_kept"] ["kept"] ∅
    ltac:(done)) as (_ & Hkeep & _).
  split; [rewrite Hr; left|].
  apply (Hkeep "bc_circle_old"); rewrite Hr; left.
Defined.

(** ** Where the code departs from its intent *)

(** The guard against root compares the flag, of 64 bits; the kernel takes 32 of
    them: a user ID of 2^32 passes the guard and is root's. *)
Lemma wide_user_ID_is_root :
  runAuthorized 999 (Some 999) (runExec (MkExecRequest (2 ^ 32) (2 ^ 32) "" "/" ["/bin/sh"])) =
    Ok [Setgroups []; Setgid (2 ^ 32); Setuid (2 ^ 32); Chdir "/"; Exec ["/bin/sh"]] /\
  kernel_id (int_of_uint (2 ^ 32)) = 0.
Proof. vm_compute; split; reflexivity. Qed.

(** Repairing the content of a circle's directory takes the content of another
    circle's directory below it along, and nothing gives that its group back. *)
Lemma nested_directory_changes_group :
  let outer := service_directory "/w/circles/finance" "bc_circle_finance" "2750" in
  let inner := service_directory "/w/circles/finance/board" "bc_circle_board" "2750" in
  healChangedGroupContent [outer; inner] {["bc_circle_finance"]} =
    [["chgrp"; "-R"; "bc_circle_finance"; "/w/circles/finance"]].
Proof. vm_compute; reflexivity. Qed.

(** A table that holds the last number of 32 bits starts again below the base. *)
Lemma last_number_wraps :
  nextFreeID map_to_list (MkTable {["bc_person_ann" := 4294967295]} (list_to_set [0; 1; 4294967295]) false)
    = Some 2.
Proof. vm_compute; reflexivity. Qed.
