(* ===== verification/SkillDocument.v ===== *)
(** * SKILL.md documents: the front matter and what it names
    ([skill/skill_loader.go], [skill/skill_type.go], [skill/missing_tools.go],
    [skill/skill_requirement.go]). *)

From S2P Require Export GoStrings.

(** ** Data *)

(** [SkillBundle]; [ToolReference] is a string. *)
Record SkillBundle := MkSkillBundle {
  Bundle_Name : string;
  Bundle_Description : string;
  ToolReferences : list string;
  RequiredEnvironmentVariables : list string;
  RequiredAnyFilePaths : list string;
  DeliveryCheck : string;
  Instruction : string;
  DirectoryPath : string;
}.

Record skillMetadata := MkMetadata {
  metadata_Name : string;
  metadata_Description : string;
  metadata_ToolReferences : list string;
  metadata_RequiredEnvironmentVariables : list string;
  metadata_RequiredAnyFilePaths : list string;
  metadata_DeliveryCheck : string;
}.

Definition no_metadata : skillMetadata := MkMetadata "" "" [] [] [] "".

Definition set_name (v : string) (m : skillMetadata) : skillMetadata :=
  MkMetadata v (metadata_Description m) (metadata_ToolReferences m)
    (metadata_RequiredEnvironmentVariables m) (metadata_RequiredAnyFilePaths m)
    (metadata_DeliveryCheck m).

Definition set_description (v : string) (m : skillMetadata) : skillMetadata :=
  MkMetadata (metadata_Name m) v (metadata_ToolReferences m)
    (metadata_RequiredEnvironmentVariables m) (metadata_RequiredAnyFilePaths m)
    (metadata_DeliveryCheck m).

Definition add_tools (v : list string) (m : skillMetadata) : skillMetadata :=
  MkMetadata (metadata_Name m) (metadata_Description m) (metadata_ToolReferences m ++ v)
    (metadata_RequiredEnvironmentVariables m) (metadata_RequiredAnyFilePaths m)
    (metadata_DeliveryCheck m).

Definition add_environment (v : list string) (m : skillMetadata) : skillMetadata :=
  MkMetadata (metadata_Name m) (metadata_Description m) (metadata_ToolReferences m)
    (metadata_RequiredEnvironmentVariables m ++ v) (metadata_RequiredAnyFilePaths m)
    (metadata_DeliveryCheck m).

Definition add_files (v : list string) (m : skillMetadata) : skillMetadata :=
  MkMetadata (metadata_Name m) (metadata_Description m) (metadata_ToolReferences m)
    (metadata_RequiredEnvironmentVariables m) (metadata_RequiredAnyFilePaths m ++ v)
    (metadata_DeliveryCheck m).

Definition set_delivery_check (v : string) (m : skillMetadata) : skillMetadata :=
  MkMetadata (metadata_Name m) (metadata_Description m) (metadata_ToolReferences m)
    (metadata_RequiredEnvironmentVariables m) (metadata_RequiredAnyFilePaths m) v.

Definition vendorToolReferencesKey : string := "kim.intern.tool-references".
Definition vendorRequiredEnvironmentKey : string := "kim.intern.requires-environment".
Definition vendorRequiredAnyFileKey : string := "kim.intern.requires-any-file".
Definition vendorDeliveryCheckKey : string := "kim.intern.delivery-check".

(** ** Scalars and lists *)

Definition cleanSkillScalar (value : string) : string :=
  Trim (TrimSpace value) [double_quote; "'"%char].

Definition parseSkillList (value : string) : list string :=
  let trimmedValue := TrimSpace value in
  let trimmedValue :=
    if HasPrefix trimmedValue "[" && HasSuffix trimmedValue "]"
    then TrimSuffix (TrimPrefix trimmedValue "[") "]" else trimmedValue in
  List.filter (fun part => negb (bool_decide (part = "")))
    (cleanSkillScalar <$> Split trimmedValue ","%char).

Definition parseSkillSpaceSeparatedList (value : string) : list string :=
  if has_byte value ","%char || HasPrefix (TrimSpace value) "[" then parseSkillList value
  else List.filter (fun part => negb (bool_decide (part = "")))
         (cleanSkillScalar <$> Fields value).

Definition parseSkillToolReferences (value : string) : list string :=
  parseSkillSpaceSeparatedList value.

Fixpoint unique_trimmed (seenValues : gset string) (values : list string) : list string :=
  match values with
  | [] => []
  | value :: values' =>
    let trimmedValue := TrimSpace value in
    if bool_decide (trimmedValue = "") || bool_decide (trimmedValue ∈ seenValues)
    then unique_trimmed seenValues values'
    else trimmedValue :: unique_trimmed ({[trimmedValue]} ∪ seenValues) values'
  end.

Definition uniqueTrimmedSkillValues (values : list string) : list string :=
  unique_trimmed ∅ values.

Definition joinSkillDescription (left right : string) : string :=
  if bool_decide (TrimSpace left = "") then TrimSpace right
  else if bool_decide (TrimSpace right = "") then TrimSpace left
  else TrimSpace left +:+ " " +:+ TrimSpace right.

(** The loop of [firstMarkdownParagraph]; [lines] is what it collected. *)
Fixpoint paragraph_lines (lines : list string) (document : list string) : list string :=
  match document with
  | [] => lines
  | line :: document' =>
    let trimmedLine := TrimSpace line in
    if bool_decide (trimmedLine = "") then
      if (0 <? length lines)%nat then lines else paragraph_lines lines document'
    else if HasPrefix trimmedLine "#" then paragraph_lines lines document'
    else paragraph_lines (lines ++ [trimmedLine]) document'
  end.

Definition firstMarkdownParagraph (document : string) : string :=
  Join " " (paragraph_lines [] (Split document newline)).

(** ** The front matter *)

Definition setSkillMetadataValue (m : skillMetadata) (key value : string) : skillMetadata :=
  if bool_decide (key = "name") then set_name (cleanSkillScalar value) m
  else if bool_decide (key = "description") then
    set_description (joinSkillDescription (metadata_Description m) (cleanSkillScalar value)) m
  else if bool_decide (key = vendorToolReferencesKey) then
    add_tools (parseSkillToolReferences value) m
  else if bool_decide (key = vendorRequiredEnvironmentKey) then
    add_environment (parseSkillSpaceSeparatedList value) m
  else if bool_decide (key = vendorRequiredAnyFileKey) then
    add_files (parseSkillSpaceSeparatedList value) m
  else if bool_decide (key = vendorDeliveryCheckKey) then
    set_delivery_check (cleanSkillScalar value) m
  else m.

Definition appendSkillFrontmatterListItem (m : skillMetadata) (section value : string)
  : skillMetadata :=
  let cleanedValue := cleanSkillScalar value in
  if bool_decide (section = vendorToolReferencesKey) then add_tools [cleanedValue] m
  else if bool_decide (section = vendorRequiredEnvironmentKey) then add_environment [cleanedValue] m
  else if bool_decide (section = vendorRequiredAnyFileKey) then add_files [cleanedValue] m
  else m.

(** One line of the front matter: the metadata and the section so far. *)
Definition frontmatter_line (acc : skillMetadata * string) (line : string)
  : skillMetadata * string :=
  let '(m, section) := acc in
  let trimmedLine := TrimSpace line in
  if bool_decide (trimmedLine = "") then acc
  else if HasPrefix trimmedLine "- " then
    (appendSkillFrontmatterListItem m section (TrimPrefix trimmedLine "- "), section)
  else match Cut trimmedLine ":" with
  | None =>
    if bool_decide (section = "description") then
      (set_description (joinSkillDescription (metadata_Description m)
        (cleanSkillScalar trimmedLine)) m, section)
    else acc
  | Some (key, value) =>
    let key := TrimSpace key in
    let value := TrimSpace value in
    if bool_decide (value = "") then (m, key)
    else (setSkillMetadataValue m key value, key)
  end.

Definition parseSkillFrontmatter (frontmatter : string) : skillMetadata :=
  let '(m, _) := foldl frontmatter_line (no_metadata, "") (Split frontmatter newline) in
  MkMetadata (metadata_Name m) (metadata_Description m)
    (uniqueTrimmedSkillValues (metadata_ToolReferences m))
    (uniqueTrimmedSkillValues (metadata_RequiredEnvironmentVariables m))
    (uniqueTrimmedSkillValues (metadata_RequiredAnyFilePaths m)) (metadata_DeliveryCheck m).

Definition parseSkillDocument (document : string) : skillMetadata * string :=
  let trimmedDocument := TrimSpace document in
  if negb (HasPrefix trimmedDocument ("---" +:+ nl)) then (no_metadata, document)
  else
    let remainingDocument := TrimPrefix trimmedDocument ("---" +:+ nl) in
    match Cut remainingDocument (nl +:+ "---") with
    | None => (no_metadata, document)
    | Some (frontmatter, instruction) => (parseSkillFrontmatter frontmatter, TrimSpace instruction)
    end.

(** [None] is [os.ErrInvalid]. *)
Definition ParseDocument (document : string) : option SkillBundle :=
  let trimmedDocument := TrimSpace document in
  if bool_decide (trimmedDocument = "") then None else
  let '(m, instruction) := parseSkillDocument trimmedDocument in
  let hasFence := HasPrefix trimmedDocument ("---" +:+ nl) in
  if hasFence && bool_decide (TrimSpace (metadata_Name m) = "") then None
  else if hasFence && bool_decide (TrimSpace instruction = "") then None
  else
    let description :=
      if bool_decide (TrimSpace (metadata_Description m) = "")
      then firstMarkdownParagraph instruction else metadata_Description m in
    Some {| Bundle_Name := metadata_Name m;
            Bundle_Description := description;
            ToolReferences := metadata_ToolReferences m;
            RequiredEnvironmentVariables := metadata_RequiredEnvironmentVariables m;
            RequiredAnyFilePaths := metadata_RequiredAnyFilePaths m;
            DeliveryCheck := metadata_DeliveryCheck m;
            Instruction := TrimSpace instruction;
            DirectoryPath := "" |}.

(** [document]: what [SKILL.md] holds; [base]: the directory's name. *)
Definition LoadSkillBundle (directoryPath base document : string) : SkillBundle :=
  let '(m, instruction) := parseSkillDocument document in
  let name := if bool_decide (TrimSpace (metadata_Name m) = "") then base else metadata_Name m in
  let description :=
    if bool_decide (TrimSpace (metadata_Description m) = "")
    then firstMarkdownParagraph instruction else metadata_Description m in
  {| Bundle_Name := name;
     Bundle_Description := description;
     ToolReferences := metadata_ToolReferences m;
     RequiredEnvironmentVariables := metadata_RequiredEnvironmentVariables m;
     RequiredAnyFilePaths := metadata_RequiredAnyFilePaths m;
     DeliveryCheck := metadata_DeliveryCheck m;
     Instruction := TrimSpace instruction;
     DirectoryPath := directoryPath |}.

(** ** What a skill is missing *)

Definition ReferencedToolNames (b : SkillBundle) : list string := ToolReferences b.

Definition MissingToolNames (b : SkillBundle) (offeredToolNames : list string) : list string :=
  let offered : gset string :=
    list_to_set (List.filter (fun t => negb (bool_decide (t = ""))) (TrimSpace <$> offeredToolNames)) in
  List.filter (fun toolName => negb (bool_decide (toolName = "") || bool_decide (toolName ∈ offered)))
    (TrimSpace <$> ToolReferences b).

(** [lookupEnv] is [os.LookupEnv]. *)
Definition MissingEnvironmentVariables (lookupEnv : string -> option string) (b : SkillBundle)
  : list string :=
  List.filter (fun name => match lookupEnv name with Some v => blank v | None => true end)
    (RequiredEnvironmentVariables b).

(** [isReadableFile] asks the file system. *)
Definition MissingAnyFilePaths (isReadableFile : string -> bool) (b : SkillBundle) : list string :=
  if existsb isReadableFile (RequiredAnyFilePaths b) then [] else RequiredAnyFilePaths b.

(** ** A document written out and read back *)

(** A document of a name, a description and an instruction. *)
Definition render_skill (name description instruction : string) : string :=
  "---" +:+ nl +:+ "name: " +:+ name +:+ nl +:+ "description: " +:+ description +:+ nl +:+
  "---" +:+ nl +:+ instruction.

Definition no_newline (l : bytes) : bool := negb (existsb (Ascii.eqb newline) l).

(** A value that stands on its line as it is: not blank, no blanks or quotes at
    its ends, on one line. *)
Record plain (v : string) : Prop := {
  plain_not_empty : v <> "";
  plain_trimmed : TrimSpace v = v;
  plain_unquoted : cleanSkillScalar v = v;
  plain_one_line : no_newline (bytes_of v) = true;
}.

Lemma split_bytes_line l l2 field :
  no_newline l = true -> split_bytes newline (l ++ newline :: l2) field
    = (field ++ l)%list :: split_bytes newline l2 [].
Proof.
  revert field; induction l as [|a l IH]; intros field Hl.
  - cbn [app split_bytes]; rewrite Ascii.eqb_refl; by rewrite app_nil_r.
  - unfold no_newline in *; cbn [existsb] in Hl; rewrite negb_orb in Hl.
    apply andb_true_iff in Hl as [Ha Hl]; cbn [app split_bytes].
    rewrite Ascii.eqb_sym; apply negb_eq_true in Ha; rewrite Ha.
    rewrite IH by done; by rewrite <- app_assoc.
Qed.

Lemma split_bytes_last l field :
  no_newline l = true -> split_bytes newline l field = [(field ++ l)%list].
Proof.
  revert field; induction l as [|a l IH]; intros field Hl; [by cbn; rewrite app_nil_r|].
  unfold no_newline in *; cbn [existsb] in Hl; rewrite negb_orb in Hl.
  apply andb_true_iff in Hl as [Ha Hl]; cbn [split_bytes].
  rewrite Ascii.eqb_sym; apply negb_eq_true in Ha; rewrite Ha.
  rewrite IH by done; by rewrite <- app_assoc.
Qed.

(** No separator that starts with a newline lies within a line. *)
Lemma cut_seq_line sep l l2 field :
  no_newline l = true ->
  cut_seq (newline :: sep) (l ++ l2) field = cut_seq (newline :: sep) l2 (field ++ l).
Proof.
  revert field; induction l as [|a l IH]; intros field Hl; [by rewrite app_nil_r|].
  unfold no_newline in *; cbn [existsb] in Hl; rewrite negb_orb in Hl.
  apply andb_true_iff in Hl as [Ha Hl]; apply negb_eq_true in Ha.
  cbn [app cut_seq strip_prefix]; rewrite Ha, IH by done; by rewrite <- app_assoc.
Qed.

Lemma cut_seq_here sep l field : sep <> [] -> cut_seq sep (sep ++ l) field = Some (field, l).
Proof.
  intros Hne; destruct sep as [|a sep]; [done|].
  pose proof (strip_prefix_app (a :: sep) l) as Hs; cbn [app] in *.
  cbn [cut_seq]; by rewrite Hs.
Qed.

(** A "key: value" line sets the value. *)
Lemma frontmatter_line_value m section key value :
  key ∈ ["name"; "description"] -> plain value ->
  frontmatter_line (m, section) (key +:+ ": " +:+ value) =
    (setSkillMetadataValue m key value, key).
Proof.
  intros Hkey [Hne Htrim Hclean _]; unfold frontmatter_line.
  assert (Hline : TrimSpace (key +:+ ": " +:+ value) = key +:+ ": " +:+ value).
  { rewrite <- append_assoc; apply TrimSpace_app_solid; [| |..|done|done].
    all: repeat (apply elem_of_cons in Hkey as [->|Hkey]); [..|by apply elem_of_nil in Hkey];
      try reflexivity; discriminate. }
  rewrite Hline.
  assert (Hvalue : TrimSpace (" " +:+ value) = value) by (by apply TrimSpace_app_blank).
  repeat (apply elem_of_cons in Hkey as [->|Hkey]); [..|by apply elem_of_nil in Hkey].
  - assert (Hcut : Cut ("name" +:+ ": " +:+ value) ":" = Some ("name", " " +:+ value)).
    { unfold Cut; rewrite !bytes_of_app; cbn.
      change (" "%char :: bytes_of value) with (bytes_of (" " +:+ value)); by rewrite of_bytes_of. }
    rewrite Hcut, Hvalue; by rewrite !bool_decide_eq_false_2 by done.
  - assert (Hcut : Cut ("description" +:+ ": " +:+ value) ":" = Some ("description", " " +:+ value)).
    { unfold Cut; rewrite !bytes_of_app; cbn.
      change (" "%char :: bytes_of value) with (bytes_of (" " +:+ value)); by rewrite of_bytes_of. }
    rewrite Hcut, Hvalue; by rewrite !bool_decide_eq_false_2 by done.
Qed.


Lemma append_cons a s t : String a s +:+ t = String a (s +:+ t).
Proof. done. Qed.

(** The two lines between the fences. *)
Definition front_matter (name description : string) : string :=
  "name: " +:+ name +:+ nl +:+ "description: " +:+ description.

Lemma render_skill_fences n d i :
  render_skill n d i = ("---" +:+ nl) +:+ front_matter n d +:+ (nl +:+ "---") +:+ (nl +:+ i).
Proof. unfold render_skill, front_matter; by rewrite !append_assoc. Qed.

Lemma no_newline_app l1 l2 : no_newline (l1 ++ l2) = no_newline l1 && no_newline l2.
Proof. unfold no_newline; by rewrite existsb_app, negb_orb. Qed.

Lemma front_matter_bytes n d :
  bytes_of (front_matter n d) =
    ((bytes_of "name: " ++ bytes_of n) ++ newline :: (bytes_of "description: " ++ bytes_of d))%list.
Proof. unfold front_matter; rewrite !bytes_of_app; by rewrite <- !app_assoc. Qed.

Lemma front_matter_lines n d :
  plain n -> plain d ->
  Split (front_matter n d) newline = ["name" +:+ ": " +:+ n; "description" +:+ ": " +:+ d].
Proof.
  intros Hn Hd; unfold Split; rewrite front_matter_bytes.
  rewrite split_bytes_line, split_bytes_last by (rewrite no_newline_app;
    first [rewrite (plain_one_line _ Hn)|rewrite (plain_one_line _ Hd)]; done).
  cbn [app fmap list_fmap]; by rewrite <- !bytes_of_app, !of_bytes_of.
Qed.

(** A newline not followed by the separator's second byte is no separator. *)
Lemma cut_seq_other s sep c l field :
  Ascii.eqb s c = false ->
  cut_seq (newline :: s :: sep) (newline :: c :: l) field =
    cut_seq (newline :: s :: sep) (c :: l) (field ++ [newline]).
Proof. intros Hc; cbn [cut_seq strip_prefix]; by rewrite Ascii.eqb_refl, Hc. Qed.

Lemma cut_front_matter n d i :
  plain n -> plain d ->
  Cut (front_matter n d +:+ (nl +:+ "---") +:+ (nl +:+ i)) (nl +:+ "---") =
    Some (front_matter n d, nl +:+ i).
Proof.
  intros Hn Hd; unfold Cut.
  change (bytes_of (nl +:+ "---")) with (newline :: "-"%char :: bytes_of "--").
  rewrite bytes_of_app, front_matter_bytes, bytes_of_app.
  change (bytes_of (nl +:+ "---")) with (newline :: "-"%char :: bytes_of "--").
  rewrite <- app_assoc, cut_seq_line
    by (rewrite no_newline_app; by rewrite (plain_one_line _ Hn)).
  change (bytes_of "description: ") with ("d"%char :: bytes_of "escription: ").
  cbn [app]; rewrite cut_seq_other by done; rewrite app_comm_cons, cut_seq_line
    by (change ("d"%char :: ?l) with (["d"%char] ++ l)%list; rewrite !no_newline_app;
        by rewrite (plain_one_line _ Hd)).
  rewrite !app_comm_cons, cut_seq_here by done; cbn -[of_bytes nl]; f_equal; f_equal.
  - apply bytes_of_eq; rewrite bytes_of_bytes, front_matter_bytes; by rewrite <- !app_assoc.
  - apply bytes_of_eq; by rewrite bytes_of_bytes.
Qed.

Lemma render_skill_trimmed n d i :
  i <> "" -> TrimSpace i = i -> TrimSpace (render_skill n d i) = render_skill n d i.
Proof.
  intros Hne Hi.
  assert (Hr : render_skill n d i =
    String "-" ("--" +:+ nl +:+ front_matter n d +:+ (nl +:+ "---")) +:+ String newline i).
  { rewrite render_skill_fences; rewrite !append_cons, !append_assoc; done. }
  rewrite Hr; by apply TrimSpace_framed.
Qed.

(** A SKILL.md document written from a name, a description and an
    instruction (each free of what the format gives a meaning) is read back by
    [ParseDocument] as exactly these, with no tool, variable or file required;
    the bundle's instruction is the text after the second fence, whatever
    Markdown, fences included, it holds. *)
Theorem ParseDocument_reads_back (name description instruction : string) :
  plain name -> plain description -> instruction <> "" -> TrimSpace instruction = instruction ->
  ParseDocument (render_skill name description instruction) =
    Some {| Bundle_Name := name; Bundle_Description := description;
            ToolReferences := []; RequiredEnvironmentVariables := [];
            RequiredAnyFilePaths := []; DeliveryCheck := "";
            Instruction := instruction; DirectoryPath := "" |}.
Proof.
  intros Hn Hd Hne Hi; unfold ParseDocument.
  rewrite render_skill_trimmed, bool_decide_eq_false_2 by done.
  unfold parseSkillDocument; rewrite render_skill_trimmed by done.
  rewrite render_skill_fences, HasPrefix_app, TrimPrefix_app; cbn [negb].
  rewrite cut_front_matter by done; unfold parseSkillFrontmatter.
  rewrite front_matter_lines by done; cbn [foldl].
  rewrite !frontmatter_line_value by (done || by repeat constructor).
  destruct Hn as [Hn0 Hn1 Hn2 _], Hd as [Hd0 Hd1 Hd2 _]; unfold setSkillMetadataValue.
  change (bool_decide ("name" = "name")) with true.
  change (bool_decide ("description" = "name")) with false.
  change (bool_decide ("description" = "description")) with true; cbv iota.
  assert (Hjoin : joinSkillDescription "" description = description)
    by (unfold joinSkillDescription; rewrite bool_decide_eq_true_2 by done; done).
  cbn -[TrimSpace joinSkillDescription cleanSkillScalar].
  rewrite Hn2, Hd2, Hjoin, Hn1, Hd1, TrimSpace_app_blank, Hi by done.
  by rewrite !bool_decide_eq_false_2 by done.
Qed.

Lemma ParseDocument_reads_back_witness :
  plain "weekly report" /\
  ParseDocument (render_skill "weekly report" "Sends the report" "Do it --- now") =
    Some {| Bundle_Name := "weekly report"; Bundle_Description := "Sends the report";
            ToolReferences := []; RequiredEnvironmentVariables := [];
            RequiredAnyFilePaths := []; DeliveryCheck := "";
            Instruction := "Do it --- now"; DirectoryPath := "" |}.
Proof.
  split; [by split|].
  apply ParseDocument_reads_back; [by split|by split|discriminate|reflexivity].
Defined.
