(* ===== verification/LearningStore.v ===== *)
(** * Learned skills: the store and its lifecycle ([learning/store.go]).

    The store keeps, for each skill ID, its revisions, oldest first.  An
    operation computes a new map from a copy, writes it to disk, and only then
    makes it the store's; [persistSkills], the write, is a parameter of the
    model, which may fail.  Maps and slices are values here: the code clones
    them ([cloneSkills], [cloneSkill]) before it changes or returns one. *)

From S2P Require Export GoTime SkillDocument.

(** ** Data *)

Record Skill := MkSkill {
  ID : string;
  Version : Z;
  Audience : string;
  Description : string;
  Skill_Instruction : string;
  EvidenceIDs : list string;
  Reason : string;
  Verification : string;
  Status : string;
  Protected : bool;
  CreatedAt : instant;
  UpdatedAt : instant;
  RetiredAt : instant;
}.

Record Store := MkStore {
  activeLimit : Z;
  enabled : bool;
  skills : gmap string (list Skill);
}.

Record Settings := MkSettings {
  Enabled : bool;
  ActiveLimit : Z;
}.

Record StoreDecision := MkDecision {
  Action : string;
  Decision_Skill : Skill;
  Decision_ID : string;
  ReplaceID : string;
  ExpectedVersion : Z;
}.

(** The error values, in the order they occur in the file. *)
Inductive StoreError :=
| SkillNotFound
| LimitNotPositive
| RevisionStale
| ActiveLimitReached
| UnsupportedDecision
| ActiveSkillNotFound
| ActiveSkillCannotBeRetired
| ReplaceTargetUnavailable
| AudienceCannotChange
| ReplacementIncomplete
| ReplacementNeedsNewID
| ReplacementIDExists
| StatusInvalid
| InstructionTooLarge
| CandidateLimitReached
| HistoryLimitReached
| FieldsRequired
| ProtectedCannotBeReplaced
| InvalidDocument
| NameDoesNotMatch
| DescriptionRequired
| RetiredSkillNotFound
| ProtectedCannotBeRetired
| PersistFailed (cause : string).

Definition DefaultActiveLimit : Z := 20.
Definition maximumSkillInstructionBytes : Z := 8 * 1024.
Definition maximumSkillInstructionLines : Z := 300.
Definition maximumCandidateSkills : Z := 20.
Definition maximumRetainedRevisions : Z := 100.

(** Field updates. *)
Definition with_Status (status : string) (s : Skill) : Skill :=
  MkSkill (ID s) (Version s) (Audience s) (Description s) (Skill_Instruction s) (EvidenceIDs s)
    (Reason s) (Verification s) status (Protected s) (CreatedAt s) (UpdatedAt s) (RetiredAt s).
Definition with_Version (version : Z) (s : Skill) : Skill :=
  MkSkill (ID s) version (Audience s) (Description s) (Skill_Instruction s) (EvidenceIDs s)
    (Reason s) (Verification s) (Status s) (Protected s) (CreatedAt s) (UpdatedAt s) (RetiredAt s).
Definition with_Protected (protected : bool) (s : Skill) : Skill :=
  MkSkill (ID s) (Version s) (Audience s) (Description s) (Skill_Instruction s) (EvidenceIDs s)
    (Reason s) (Verification s) (Status s) protected (CreatedAt s) (UpdatedAt s) (RetiredAt s).
Definition with_CreatedAt (t : instant) (s : Skill) : Skill :=
  MkSkill (ID s) (Version s) (Audience s) (Description s) (Skill_Instruction s) (EvidenceIDs s)
    (Reason s) (Verification s) (Status s) (Protected s) t (UpdatedAt s) (RetiredAt s).
Definition with_UpdatedAt (t : instant) (s : Skill) : Skill :=
  MkSkill (ID s) (Version s) (Audience s) (Description s) (Skill_Instruction s) (EvidenceIDs s)
    (Reason s) (Verification s) (Status s) (Protected s) (CreatedAt s) t (RetiredAt s).
Definition with_RetiredAt (t : instant) (s : Skill) : Skill :=
  MkSkill (ID s) (Version s) (Audience s) (Description s) (Skill_Instruction s) (EvidenceIDs s)
    (Reason s) (Verification s) (Status s) (Protected s) (CreatedAt s) (UpdatedAt s) t.

(** ** Counting *)

Definition is_status (status : string) (versions : list Skill) : bool :=
  match last versions with Some s => bool_decide (Status s = status) | None => false end.

(** A count over the entries of the map, as [range] loops make it. *)
Definition count_skills (weight : list Skill -> Z) (m : gmap string (list Skill)) : Z :=
  map_fold (fun _ versions count => weight versions + count) 0 m.

Definition activeCount (m : gmap string (list Skill)) : Z :=
  count_skills (fun versions => if is_status "active" versions then 1 else 0) m.

Definition candidateCount (m : gmap string (list Skill)) : Z :=
  count_skills (fun versions => if is_status "candidate" versions then 1 else 0) m.

Definition revisionCount (m : gmap string (list Skill)) : Z :=
  count_skills (fun versions => Z.of_nat (length versions)) m.

(** [store.skills[id]]: nil when there is none. *)
Definition versions_of (m : gmap string (list Skill)) (id : string) : list Skill :=
  default [] (m !! id).

(** ** Validation *)

Definition validateSkillInstruction (candidate : Skill) : result StoreError unit :=
  match ParseDocument (Skill_Instruction candidate) with
  | None => Err InvalidDocument
  | Some parsed =>
    refuse_if (negb (blank (Bundle_Name parsed))
      && negb (bool_decide (TrimSpace (Bundle_Name parsed) = TrimSpace (ID candidate))))
      NameDoesNotMatch;;
    refuse_if (blank (Description candidate) && blank (Bundle_Description parsed))
      DescriptionRequired
  end.

Definition too_large (s : Skill) : bool :=
  (maximumSkillInstructionBytes <? Z.of_nat (String.length (Skill_Instruction s)))
  || (maximumSkillInstructionLines <? Z.of_nat (length (Split (Skill_Instruction s) newline))).

Definition status_invalid (s : Skill) : bool :=
  negb (bool_decide (Status s = "candidate")) && negb (bool_decide (Status s = "active")).

Definition default_status (s : Skill) : Skill :=
  if bool_decide (Status s = "") then with_Status "candidate" s else s.

Definition default_version (s : Skill) : Skill :=
  if Version s =? 0 then with_Version 1 s else s.

(** The times [Put] writes. *)
Definition stamp (now : instant) (s : Skill) : Skill :=
  with_UpdatedAt now (if IsZero (CreatedAt s) then with_CreatedAt now s else s).

(** ** Reading *)

Definition latest_of (versions : list Skill) : list Skill := option_list (last versions).

Definition newest_first (l : list Skill) : list Skill :=
  stable_sort (fun first second => After (UpdatedAt first) (UpdatedAt second)) l.

(** [range] is the order in which the map is visited; [sort.Slice] leaves skills
    updated at the same instant in an order of its own, one that some [range]
    gives. *)
Definition List_skills (range : list (list Skill)) (audience : string) (includeRetired : bool)
  : list Skill :=
  newest_first (filter (fun s => Audience s = audience /\
    (includeRetired = true \/ Status s = "active")) (range ≫= latest_of)).

Definition ListEveryAudience (range : list (list Skill)) : list Skill :=
  newest_first (range ≫= latest_of).

Definition Get (s : Store) (id audience : string) (includeHistory : bool)
  : result StoreError (list Skill) :=
  let versions := versions_of (skills s) (TrimSpace id) in
  match last versions with
  | None => Err SkillNotFound
  | Some latest =>
    refuse_if (negb (bool_decide (Audience latest = audience))) SkillNotFound;;
    Ok (if includeHistory then versions else [latest])
  end.

Definition Settings_of (s : Store) : Settings := MkSettings (enabled s) (activeLimit s).
Definition ActiveCount (s : Store) : Z := activeCount (skills s).

(** ** Writing *)

(** The two readings of [time.Now()] an operation makes, in order. *)
Definition clock : Type := instant * instant.

(** [copySkills[id][len(versions)-1].X = v]. *)
Definition change_latest (id : string) (f : Skill -> Skill) (m : gmap string (list Skill))
  : gmap string (list Skill) :=
  alter (set_last f) id m.

(** [copySkills[id] = append(copySkills[id], s)]. *)
Definition append_revision (id : string) (s : Skill) (m : gmap string (list Skill))
  : gmap string (list Skill) :=
  <[id := versions_of m id ++ [s]]> m.

(** The skill as the copy has it. *)
Definition latest_or (d : Skill) (m : gmap string (list Skill)) (id : string) : Skill :=
  default d (last (versions_of m id)).

(** What [Put] makes of a skill before it looks at the limits: a revision of
    the latest version, or a new skill. *)
Definition put_revision (versions : list Skill) (s : Skill) : result StoreError Skill :=
  match last versions with
  | None => Ok s
  | Some latest =>
    refuse_if ((Version s =? 0) || negb (Version s =? Version latest)) RevisionStale;;
    refuse_if (Protected latest) ProtectedCannotBeReplaced;;
    refuse_if (negb (bool_decide (Audience s = Audience latest))) AudienceCannotChange;;
    Ok (with_CreatedAt (CreatedAt latest) (with_Version (wrap64 (Version latest + 1)) s))
  end.

Definition put_skills (now : clock) (limit : Z) (m : gmap string (list Skill)) (s : Skill)
  : result StoreError (gmap string (list Skill) * Skill) :=
  validateSkillInstruction s;;
  refuse_if (blank (ID s) || blank (Audience s) || blank (Skill_Instruction s)) FieldsRequired;;
  refuse_if (too_large s) InstructionTooLarge;;
  let versions := versions_of m (ID s) in
  s ← put_revision versions s;
  let s := default_status (default_version s) in
  refuse_if (status_invalid s) StatusInvalid;;
  refuse_if (bool_decide (Status s = "active") && (limit <=? activeCount m)
    && negb (is_status "active" versions)) ActiveLimitReached;;
  refuse_if (bool_decide (Status s = "candidate") && (maximumCandidateSkills <=? candidateCount m)
    && negb (is_status "candidate" versions)) CandidateLimitReached;;
  refuse_if ((maximumRetainedRevisions <=? revisionCount m)
    && bool_decide (versions = [])) HistoryLimitReached;;
  let s := stamp (fst now) s in
  Ok (append_revision (ID s) s m, s).

Definition activate_skills (now : clock) (limit : Z) (m : gmap string (list Skill))
  (id : string) (expectedVersion : Z) : result StoreError (gmap string (list Skill) * Skill) :=
  match last (versions_of m id) with
  | None => Err SkillNotFound
  | Some latest =>
    refuse_if (negb (Version latest =? expectedVersion)
      || negb (bool_decide (Status latest = "candidate"))) RevisionStale;;
    refuse_if (limit <=? activeCount m) ActiveLimitReached;;
    let copySkills := change_latest id
      (fun s => with_UpdatedAt (fst now) (with_Status "active" s)) m in
    Ok (copySkills, latest_or latest copySkills id)
  end.

Definition retire_decision_skills (now : clock) (m : gmap string (list Skill))
  (decision : StoreDecision) : result StoreError (gmap string (list Skill) * Skill) :=
  match last (versions_of m (Decision_ID decision)) with
  | None => Err ActiveSkillNotFound
  | Some latest =>
    refuse_if (negb (bool_decide (Audience latest = Audience (Decision_Skill decision))))
      SkillNotFound;;
    refuse_if ((ExpectedVersion decision =? 0)
      || negb (Version latest =? ExpectedVersion decision)) RevisionStale;;
    refuse_if (negb (bool_decide (Status latest = "active")) || Protected latest)
      ActiveSkillCannotBeRetired;;
    let copySkills := change_latest (Decision_ID decision)
      (fun s => with_UpdatedAt (snd now) (with_RetiredAt (fst now) (with_Status "retired" s))) m in
    Ok (copySkills, latest_or latest copySkills (Decision_ID decision))
  end.

Definition replace_skills (now : clock) (limit : Z) (m : gmap string (list Skill))
  (decision : StoreDecision) : result StoreError (gmap string (list Skill) * Skill) :=
  let s := Decision_Skill decision in
  validateSkillInstruction s;;
  match last (versions_of m (ReplaceID decision)) with
  | None => Err ReplaceTargetUnavailable
  | Some previous =>
    refuse_if (Protected previous) ReplaceTargetUnavailable;;
    refuse_if ((ExpectedVersion decision =? 0)
      || negb (Version previous =? ExpectedVersion decision)) RevisionStale;;
    refuse_if (negb (bool_decide (Audience previous = Audience s))) AudienceCannotChange;;
    refuse_if (bool_decide (ID s = "") || bool_decide (Audience s = "")
      || bool_decide (Skill_Instruction s = "")) ReplacementIncomplete;;
    refuse_if (bool_decide (ID s = ReplaceID decision)) ReplacementNeedsNewID;;
    refuse_if (negb (bool_decide (versions_of m (ID s) = []))) ReplacementIDExists;;
    let s := default_status s in
    refuse_if (status_invalid s) StatusInvalid;;
    refuse_if (too_large s) InstructionTooLarge;;
    let activeCount :=
      if bool_decide (Status previous = "active") then activeCount m - 1 else activeCount m in
    refuse_if (bool_decide (Status s = "active") && (limit <=? activeCount)) ActiveLimitReached;;
    refuse_if (bool_decide (Status s = "candidate")
      && (maximumCandidateSkills <=? candidateCount m)
      && negb (bool_decide (Status previous = "candidate"))) CandidateLimitReached;;
    refuse_if (maximumRetainedRevisions <=? revisionCount m) HistoryLimitReached;;
    let s := with_UpdatedAt (fst now) (with_CreatedAt (fst now) (with_Version 1 s)) in
    let copySkills := change_latest (ReplaceID decision)
      (fun s => with_RetiredAt (snd now) (with_Status "retired" s)) m in
    Ok (append_revision (ID s) s copySkills, s)
  end.

Definition protect_skills (now : clock) (m : gmap string (list Skill)) (id : string)
  (protected : bool) : result StoreError (gmap string (list Skill) * unit) :=
  match versions_of m id with
  | [] => Err SkillNotFound
  | _ => Ok (change_latest id
           (fun s => with_UpdatedAt (fst now) (with_Protected protected s)) m, tt)
  end.

Definition restore_skills (now : clock) (limit : Z) (m : gmap string (list Skill)) (id : string)
  : result StoreError (gmap string (list Skill) * Skill) :=
  match last (versions_of m id) with
  | None => Err RetiredSkillNotFound
  | Some latest =>
    refuse_if (negb (bool_decide (Status latest = "retired"))) RetiredSkillNotFound;;
    refuse_if (limit <=? activeCount m) ActiveLimitReached;;
    let copySkills := change_latest id
      (fun s => with_UpdatedAt (fst now) (with_RetiredAt zero_time (with_Status "active" s))) m in
    Ok (copySkills, latest_or latest copySkills id)
  end.

Definition status_skills (now : clock) (m : gmap string (list Skill)) (id status : string)
  : result StoreError (gmap string (list Skill) * unit) :=
  match last (versions_of m id) with
  | None => Err ActiveSkillNotFound
  | Some latest =>
    refuse_if (negb (bool_decide (Status latest = "active"))) ActiveSkillNotFound;;
    refuse_if (Protected latest) ProtectedCannotBeRetired;;
    Ok (change_latest id (fun s => with_UpdatedAt (snd now)
          (with_RetiredAt (fst now) (with_Status status s))) m, tt)
  end.

Section store.
(** The write to disk: [None], or what went wrong. *)
Context (persistSkills : gmap string (list Skill) -> option string).

(** The end of every operation: the copy is written, then taken over. *)
Definition commit {A} (s : Store) (r : result StoreError (gmap string (list Skill) * A))
  : Store * result StoreError A :=
  match r with
  | Err e => (s, Err e)
  | Ok (copySkills, a) =>
    match persistSkills copySkills with
    | Some cause => (s, Err (PersistFailed cause))
    | None => (MkStore (activeLimit s) (enabled s) copySkills, Ok a)
    end
  end.

Definition Put (now : clock) (s : Store) (skill : Skill) : Store * result StoreError Skill :=
  commit s (put_skills now (activeLimit s) (skills s) skill).

Definition Activate (now : clock) (s : Store) (id : string) (expectedVersion : Z)
  : Store * result StoreError Skill :=
  commit s (activate_skills now (activeLimit s) (skills s) id expectedVersion).

Definition retireDecision (now : clock) (s : Store) (decision : StoreDecision)
  : Store * result StoreError Skill :=
  commit s (retire_decision_skills now (skills s) decision).

Definition replace (now : clock) (s : Store) (decision : StoreDecision)
  : Store * result StoreError Skill :=
  commit s (replace_skills now (activeLimit s) (skills s) decision).

Definition SetProtected (now : clock) (s : Store) (id : string) (protected : bool)
  : Store * result StoreError unit :=
  commit s (protect_skills now (skills s) id protected).

Definition Restore (now : clock) (s : Store) (id : string) : Store * result StoreError Skill :=
  commit s (restore_skills now (activeLimit s) (skills s) id).

Definition changeStatus (now : clock) (s : Store) (id status : string)
  : Store * result StoreError unit :=
  commit s (status_skills now (skills s) id status).

Definition Retire (now : clock) (s : Store) (id : string) : Store * result StoreError unit :=
  changeStatus now s id "retired".

Definition ApplyDecision (now : clock) (s : Store) (decision : StoreDecision)
  : Store * result StoreError Skill :=
  let action := Action decision in
  if bool_decide (action = "create") || bool_decide (action = "revise") then
    Put now s (Decision_Skill decision)
  else if bool_decide (action = "activate") then
    Activate now s (Decision_ID decision) (ExpectedVersion decision)
  else if bool_decide (action = "replace") then replace now s decision
  else if bool_decide (action = "retire") then retireDecision now s decision
  else if bool_decide (action = "restore") then Restore now s (Decision_ID decision)
  else (s, Err UnsupportedDecision).
End store.

(** [writeSettings] writes the settings file. *)
Definition UpdateSettings (writeSettings : Settings -> option string) (s : Store)
  (settings : Settings) : Store * result StoreError unit :=
  if ActiveLimit settings <=? 0 then (s, Err LimitNotPositive)
  else match writeSettings settings with
  | Some cause => (s, Err (PersistFailed cause))
  | None => (MkStore (ActiveLimit settings) (Enabled settings) (skills s), Ok tt)
  end.

(** [document]: what [path] holds, decoded ([None]: no file, or an empty one);
    [range]: the order in which the decoded skills are visited;
    [settings]: what the settings file holds, if it can be read and decoded. *)
Definition Open (limit : Z) (document : result StoreError (option (gmap string (list Skill))))
  (range : list (list Skill)) (settings : option Settings) : result StoreError Store :=
  let limit := if limit <=? 0 then DefaultActiveLimit else limit in
  document ← document;
  loaded ← match document with
    | None => Ok (MkStore limit false ∅)
    | Some stored =>
      _ ← foldl (fun r s => r;; validateSkillInstruction s) (Ok tt) (concat range);
      Ok (MkStore limit false stored)
    end;
  Ok match settings with
     | None => loaded
     | Some settings =>
       MkStore (if 0 <? ActiveLimit settings then ActiveLimit settings else activeLimit loaded)
         (Enabled settings) (skills loaded)
     end.


(** ** What an operation is *)

Inductive Operation :=
| OpPut (s : Skill)
| OpActivate (id : string) (expectedVersion : Z)
| OpDecision (decision : StoreDecision)
| OpSetProtected (id : string) (protected : bool)
| OpRestore (id : string)
| OpRetire (id : string).

Definition perform persistSkills (now : clock) (s : Store) (op : Operation) : Store :=
  match op with
  | OpPut skill => fst (Put persistSkills now s skill)
  | OpActivate id version => fst (Activate persistSkills now s id version)
  | OpDecision decision => fst (ApplyDecision persistSkills now s decision)
  | OpSetProtected id protected => fst (SetProtected persistSkills now s id protected)
  | OpRestore id => fst (Restore persistSkills now s id)
  | OpRetire id => fst (Retire persistSkills now s id)
  end.

(** Operations one after the other, each at its time and with its own luck on
    the disk. *)
Definition perform_all (s : Store)
  (ops : list ((gmap string (list Skill) -> option string) * clock * Operation)) : Store :=
  foldl (fun s o => perform o.1.1 o.1.2 s o.2) s ops.

(** ** The lifecycle of learned skills

    What the operations are allowed to do, without how: the abstract
    specification. *)

(** Two states of one revision: its content is the same. *)
Record same_revision (x y : Skill) : Prop := {
  same_ID : ID y = ID x;
  same_Version : Version y = Version x;
  same_Audience : Audience y = Audience x;
  same_Description : Description y = Description x;
  same_Instruction : Skill_Instruction y = Skill_Instruction x;
  same_EvidenceIDs : EvidenceIDs y = EvidenceIDs x;
  same_Reason : Reason y = Reason x;
  same_Verification : Verification y = Verification x;
  same_CreatedAt : CreatedAt y = CreatedAt x;
}.

(** The number after a version; zero stands for none. *)
Definition next_version (version : Z) : Z :=
  if wrap64 (version + 1) =? 0 then 1 else wrap64 (version + 1).

(** [y] is the revision after [x]. *)
Record follows (x y : Skill) : Prop := {
  follows_Version : Version y = next_version (Version x);
  follows_Audience : Audience y = Audience x;
}.

(** A revision that may enter the store. *)
Record acceptable (s : Skill) : Prop := {
  acceptable_document : validateSkillInstruction s = Ok tt;
  acceptable_size : too_large s = false;
  acceptable_status : Status s = "candidate" \/ Status s = "active";
}.

Inductive lifecycle (op : Operation) (limit : Z) (m : gmap string (list Skill)) : gmap string (list Skill) -> Prop :=
| create_skill s :
  versions_of m (ID s) = [] -> acceptable s ->
  (Status s = "active" -> activeCount m < limit) ->
  (Status s = "candidate" -> candidateCount m < maximumCandidateSkills) ->
  revisionCount m < maximumRetainedRevisions ->
  lifecycle op limit m (<[ID s := [s]]> m)
| revise_skill l x s :
  m !! ID s = Some (l ++ [x]) ->
  Protected x = false -> follows x s -> acceptable s ->
  (Status s = "active" -> Status x = "active" \/ activeCount m < limit) ->
  (Status s = "candidate" -> Status x = "candidate" \/ candidateCount m < maximumCandidateSkills) ->
  lifecycle op limit m (<[ID s := (l ++ [x]) ++ [s]]> m)
| change_status id l x y :
  m !! id = Some (l ++ [x]) -> same_revision x y -> Protected y = Protected x ->
  Status y = "active" /\ Status x <> "active" /\ activeCount m < limit
    \/ Status y = "retired" /\ Protected x = false /\ Status x = "active" ->
  lifecycle op limit m (<[id := l ++ [y]]> m)
| change_protection id protected l x y :
  op = OpSetProtected id protected -> Protected y = protected ->
  m !! id = Some (l ++ [x]) -> same_revision x y -> Status y = Status x ->
  lifecycle op limit m (<[id := l ++ [y]]> m)
| replace_skill id l x y s :
  m !! id = Some (l ++ [x]) -> same_revision x y -> Protected x = false ->
  Protected y = Protected x -> Status y = "retired" ->
  versions_of m (ID s) = [] -> ID s <> id -> acceptable s -> Audience s = Audience x ->
  (Status s = "active" -> activeCount m < limit \/ Status x = "active" /\ activeCount m <= limit) ->
  (Status s = "candidate" ->
    Status x = "candidate" \/ candidateCount m < maximumCandidateSkills) ->
  revisionCount m < maximumRetainedRevisions ->
  lifecycle op limit m (<[ID s := [s]]> (<[id := l ++ [y]]> m)).

(** ** The operations keep to the lifecycle *)

Lemma versions_last m id x :
  last (versions_of m id) = Some x -> exists l, m !! id = Some (l ++ [x]).
Proof.
  unfold versions_of; destruct (m !! id) as [vs|] eqn:Hm; [|done].
  cbn; intros [l ->]%last_Some_snoc; eauto.
Qed.

Lemma change_latest_Some m id l x f :
  m !! id = Some (l ++ [x]) -> change_latest id f m = <[id := l ++ [f x]]> m.
Proof.
  intros Hm; apply map_eq; intros j; unfold change_latest; destruct (decide (id = j)) as [<-|Hj].
  - rewrite lookup_alter_eq, lookup_insert_eq, Hm; cbn; by rewrite set_last_snoc.
  - by rewrite lookup_alter_ne, lookup_insert_ne.
Qed.

Lemma acceptable_default s :
  validateSkillInstruction s = Ok tt -> too_large s = false ->
  status_invalid (default_status s) = false ->
  acceptable (default_status s).
Proof.
  unfold default_status; intros Hv Hl Hs; unfold status_invalid in *.
  split; [by case_match|by case_match|].
  apply andb_false_iff in Hs as [Hs|Hs]; apply negb_eq_false, bool_decide_eq_true in Hs; auto.
Qed.

(** What is written in a revision besides its status. *)
Lemma acceptable_stamped s s' :
  acceptable s -> ID s' = ID s -> Skill_Instruction s' = Skill_Instruction s ->
  Description s' = Description s -> Status s' = Status s -> acceptable s'.
Proof.
  intros [Hv Hl Hs] H1 H2 H3 H4; unfold validateSkillInstruction, too_large in *.
  split; unfold validateSkillInstruction, too_large; by rewrite ?H1, ?H2, ?H3, ?H4.
Qed.

Lemma put_revision_Ok m s s' :
  put_revision (versions_of m (ID s)) s = Ok s' ->
  versions_of m (ID s) = [] /\ s' = s \/
  exists l x, m !! ID s = Some (l ++ [x]) /\ Protected x = false /\ Audience s = Audience x /\
    s' = with_CreatedAt (CreatedAt x) (with_Version (wrap64 (Version x + 1)) s).
Proof.
  unfold put_revision; destruct (last (versions_of m (ID s))) as [x|] eqn:Hlast; intros H.
  - right; run_inv; bool_to_prop; apply versions_last in Hlast as [l Hl]; eauto 10.
  - left; run_inv; split; [|done]; by apply last_None.
Qed.

(** What [Put] fills in besides. *)
Definition put_fields (now : clock) (s : Skill) : Skill :=
  stamp (fst now) (default_status (default_version s)).

Lemma put_fields_spec now s :
  ID (put_fields now s) = ID s /\ Skill_Instruction (put_fields now s) = Skill_Instruction s /\
  Description (put_fields now s) = Description s /\ Audience (put_fields now s) = Audience s /\
  Status (put_fields now s) = Status (default_status s) /\
  Version (put_fields now s) = (if Version s =? 0 then 1 else Version s).
Proof.
  unfold put_fields, stamp, default_status, default_version.
  destruct (Version s =? 0) eqn:Hv; cbn; destruct (bool_decide _); cbn; destruct (IsZero _); done.
Qed.

Lemma status_default_version s :
  Status (default_status (default_version s)) = Status (default_status s).
Proof. unfold default_status, default_version; destruct (Version s =? 0); cbn; by destruct (bool_decide _). Qed.

Lemma status_invalid_eq s s' : Status s = Status s' -> status_invalid s = status_invalid s'.
Proof. unfold status_invalid; by intros ->. Qed.

(** A limit test that let a status through. *)
Lemma limit_passed (b : bool) (status wanted : string) (limit count : Z) :
  bool_decide (status = wanted) && (limit <=? count) && negb b = false ->
  status = wanted -> b = true \/ count < limit.
Proof. intros H ->; rewrite bool_decide_eq_true_2 in H by done; destruct b; [auto|]. lia. Qed.

Lemma is_status_last m id l x status :
  m !! id = Some (l ++ [x]) -> is_status status (versions_of m id) = true -> Status x = status.
Proof.
  unfold is_status, versions_of; intros ->; cbn; rewrite last_snoc; apply bool_decide_eq_true.
Qed.

Lemma is_status_nil status : is_status status [] = true -> False.
Proof. done. Qed.

Lemma append_revision_Some m id vs s :
  m !! id = Some vs -> append_revision id s m = <[id := vs ++ [s]]> m.
Proof. unfold append_revision, versions_of; by intros ->. Qed.

Lemma append_revision_new m id s :
  versions_of m id = [] -> append_revision id s m = <[id := [s]]> m.
Proof. unfold append_revision; by intros ->. Qed.

Lemma put_fields_acceptable now s :
  validateSkillInstruction s = Ok tt -> too_large s = false ->
  status_invalid (default_status (default_version s)) = false ->
  acceptable (put_fields now s).
Proof.
  intros Hv Hl Hs; destruct (put_fields_spec now s) as (H1 & H2 & H3 & _ & H5 & _).
  rewrite (status_invalid_eq _ (default_status s)) in Hs by apply status_default_version.
  destruct (acceptable_default s) as [_ _ Hst]; [done..|].
  apply (acceptable_stamped (default_status s)); [by apply acceptable_default|..].
  all: rewrite ?H1, ?H2, ?H3, ?H5; unfold default_status; by destruct (bool_decide _).
Qed.

Lemma put_skills_lifecycle op now limit m s m' r :
  put_skills now limit m s = Ok (m', r) -> lifecycle op limit m m'.
Proof.
  unfold put_skills; intros H; run_inv.
  rename x into u, x0 into u0, x1 into u1, x2 into s', H4 into Hinvalid.
  destruct u; clear u0 u1 x3 x4 x5 x6.
  change (lifecycle op limit m (append_revision (ID (put_fields now s')) (put_fields now s') m)).
  destruct (put_fields_spec now s') as (HID & _ & _ & HAud & HStatus & HVersion).
  rewrite status_default_version, <- HStatus in H5, H6.
  apply put_revision_Ok in H3 as [[Hnew ->]|(l & x & Hm & Hp & Haud & ->)].
  - rewrite append_revision_new by by rewrite HID.
    apply create_skill; [by rewrite HID|by apply put_fields_acceptable|..].
    + intros Ha; rewrite Hnew in H5; by destruct (limit_passed _ _ _ _ _ H5 Ha).
    + intros Hc; rewrite Hnew in H6; by destruct (limit_passed _ _ _ _ _ H6 Hc).
    + rewrite Hnew, bool_decide_eq_true_2, andb_true_r in H7 by done; lia.
  - cbn [ID with_CreatedAt with_Version] in HID; rewrite HID, (append_revision_Some _ _ _ _ Hm).
    rewrite <- HID; rewrite <- HID in Hm.
    apply revise_skill; [done|done|split|by apply put_fields_acceptable|..].
    + by rewrite HVersion.
    + by rewrite HAud.
    + intros Ha; destruct (limit_passed _ _ _ _ _ H5 Ha); [left|by right].
      rewrite <- HID in *; by eapply is_status_last.
    + intros Hc; destruct (limit_passed _ _ _ _ _ H6 Hc); [left|by right].
      rewrite <- HID in *; by eapply is_status_last.
Qed.

Lemma status_not_active s : Status s = "candidate" \/ Status s = "retired" -> Status s <> "active".
Proof. by intros [-> | ->]. Qed.

Lemma activate_skills_lifecycle op now limit m id version m' r :
  activate_skills now limit m id version = Ok (m', r) -> lifecycle op limit m m'.
Proof.
  unfold activate_skills; intros H.
  destruct (last (versions_of m id)) as [x|] eqn:Hlast; run_inv; bool_to_prop.
  apply versions_last in Hlast as [l Hm]; rewrite (change_latest_Some _ _ _ _ _ Hm).
  apply change_status with (x := x); [done|by split|done|left].
  split_and!; [done| |done]; apply status_not_active; auto.
Qed.

Lemma restore_skills_lifecycle op now limit m id m' r :
  restore_skills now limit m id = Ok (m', r) -> lifecycle op limit m m'.
Proof.
  unfold restore_skills; intros H.
  destruct (last (versions_of m id)) as [x|] eqn:Hlast; run_inv; bool_to_prop.
  apply versions_last in Hlast as [l Hm]; rewrite (change_latest_Some _ _ _ _ _ Hm).
  apply change_status with (x := x); [done|by split|done|left].
  split_and!; [done| |done]; apply status_not_active; auto.
Qed.

Lemma retire_decision_skills_lifecycle op now limit m decision m' r :
  retire_decision_skills now m decision = Ok (m', r) -> lifecycle op limit m m'.
Proof.
  unfold retire_decision_skills; intros H.
  destruct (last (versions_of m (Decision_ID decision))) as [x|] eqn:Hlast; run_inv; bool_to_prop.
  apply versions_last in Hlast as [l Hm]; rewrite (change_latest_Some _ _ _ _ _ Hm).
  apply change_status with (x := x); [done|by split|done|by right].
Qed.

Lemma status_skills_lifecycle op now limit m id m' r :
  status_skills now m id "retired" = Ok (m', r) -> lifecycle op limit m m'.
Proof.
  unfold status_skills; intros H.
  destruct (last (versions_of m id)) as [x|] eqn:Hlast; run_inv; bool_to_prop.
  apply versions_last in Hlast as [l Hm]; rewrite (change_latest_Some _ _ _ _ _ Hm).
  apply change_status with (x := x); [done|by split|done|by right].
Qed.

Lemma protect_skills_lifecycle now limit m id protected m' r :
  protect_skills now m id protected = Ok (m', r) ->
  lifecycle (OpSetProtected id protected) limit m m'.
Proof.
  unfold protect_skills; intros H.
  destruct (versions_of m id) as [|y vs] eqn:Hvs; [done|]; run_inv.
  destruct (last (versions_of m id)) as [x|] eqn:Hlast.
  - apply versions_last in Hlast as [l Hm]; rewrite (change_latest_Some _ _ _ _ _ Hm).
    by apply change_protection with (x := x) (protected := protected).
  - apply last_None in Hlast; congruence.
Qed.

Lemma versions_of_insert_ne m id id' vs :
  id <> id' -> versions_of (<[id := vs]> m) id' = versions_of m id'.
Proof. intros; unfold versions_of; by rewrite lookup_insert_ne. Qed.

Lemma too_large_default s : too_large (default_status s) = too_large s.
Proof. unfold default_status; by destruct (bool_decide (Status s = "")). Qed.

Lemma ID_default s : ID (default_status s) = ID s.
Proof. unfold default_status; by destruct (bool_decide (Status s = "")). Qed.

Lemma Audience_default s : Audience (default_status s) = Audience s.
Proof. unfold default_status; by destruct (bool_decide (Status s = "")). Qed.

Lemma replace_skills_lifecycle op now limit m decision m' r :
  replace_skills now limit m decision = Ok (m', r) -> lifecycle op limit m m'.
Proof.
  unfold replace_skills; intros H; run_inv; rename x into u; destruct u.
  destruct (last (versions_of m (ReplaceID decision))) as [x|] eqn:Hlast; run_inv; bool_to_prop.
  apply versions_last in Hlast as [l Hm]; rewrite (change_latest_Some _ _ _ _ _ Hm).
  set (s := Decision_Skill decision) in *.
  match goal with |- context [append_revision _ ?y _] => set (y0 := y) end.
  assert (Hacc : acceptable y0).
  { apply (acceptable_stamped (default_status s)); [|done..].
    apply acceptable_default; try done; by rewrite <- too_large_default. }
  assert (HID : ID y0 = ID s) by apply ID_default.
  assert (Haud : Audience y0 = Audience s) by apply Audience_default.
  rewrite ID_default, append_revision_new by (by rewrite versions_of_insert_ne by congruence).
  rewrite <- HID; apply replace_skill with (x := x); rewrite ?HID; try done.
  - congruence.
  - intros Ha; change (Status y0) with (Status (default_status s)) in Ha.
    rewrite bool_decide_eq_true_2 in H9 by done; cbn [andb] in H9; bool_to_prop.
    destruct (bool_decide (Status x = "active")) eqn:Hx; bool_to_prop; [right; split; [done|lia]|by left].
  - intros Hc; change (Status y0) with (Status (default_status s)) in Hc.
    destruct (limit_passed _ _ _ _ _ H10 Hc) as [Hx|]; [left|by right]; by bool_to_prop.
Qed.

Lemma commit_lifecycle {A} op persistSkills s (r : result StoreError (gmap string (list Skill) * A)) :
  (forall m' a, r = Ok (m', a) -> lifecycle op (activeLimit s) (skills s) m') ->
  let s' := fst (commit persistSkills s r) in
  activeLimit s' = activeLimit s /\ enabled s' = enabled s /\
  (skills s' = skills s \/ lifecycle op (activeLimit s) (skills s) (skills s')).
Proof.
  intros Hr; unfold commit; destruct r as [[m' a]|e]; [|by cbn; auto].
  destruct (persistSkills m'); cbn; split_and!; eauto.
Qed.

(** C35. Every operation on the store - a write, an activation, a decision of a
    review, protection, retirement, restoration - either leaves it as it was or
    does one of the five things the lifecycle of learned skills allows; it
    never changes the settings. *)
Theorem operations_follow_the_lifecycle persistSkills now s op :
  let s' := perform persistSkills now s op in
  activeLimit s' = activeLimit s /\ enabled s' = enabled s /\
  (skills s' = skills s \/ lifecycle op (activeLimit s) (skills s) (skills s')).
Proof.
  assert (Hrefuse : forall e, let s' := fst (s, @Err StoreError Skill e) in
    activeLimit s' = activeLimit s /\ enabled s' = enabled s /\
    (skills s' = skills s \/ lifecycle op (activeLimit s) (skills s) (skills s'))) by auto.
  destruct op as [skill|id version|decision|id protected|id|id]; cbn [perform];
    [| |unfold ApplyDecision; repeat case_match; try apply Hrefuse| | |];
    apply commit_lifecycle; intros m' a.
  all: first [apply put_skills_lifecycle|apply activate_skills_lifecycle
    |apply replace_skills_lifecycle|apply retire_decision_skills_lifecycle
    |apply restore_skills_lifecycle|apply protect_skills_lifecycle|apply status_skills_lifecycle].
Qed.

(** ** The limits *)

Section counting.
Context (weight : list Skill -> Z) (weight_nil : weight [] = 0).

Lemma count_insert_new m id vs :
  m !! id = None -> count_skills weight (<[id := vs]> m) = weight vs + count_skills weight m.
Proof. intros Hm; unfold count_skills; rewrite map_fold_insert_L; [done| |done]; intros; lia. Qed.

Lemma count_insert m id vs :
  count_skills weight (<[id := vs]> m) =
    count_skills weight m - weight (versions_of m id) + weight vs.
Proof.
  unfold versions_of; destruct (m !! id) as [old|] eqn:Hm;
    [change (default [] (Some old)) with old|change (default [] None) with (@nil Skill)].
  - pose proof (count_insert_new (delete id m) id vs (lookup_delete_eq m id)) as Hnew.
    pose proof (count_insert_new (delete id m) id old (lookup_delete_eq m id)) as Hold.
    rewrite insert_delete_eq in Hnew; rewrite insert_delete_id in Hold by done; lia.
  - rewrite count_insert_new, weight_nil by done; lia.
Qed.
End counting.

(** How an update of one entry moves a count of the latest revisions. *)
Definition status_weight (status : string) (versions : list Skill) : Z :=
  if is_status status versions then 1 else 0.

Lemma status_weight_snoc status l x :
  status_weight status (l ++ [x]) = if bool_decide (Status x = status) then 1 else 0.
Proof. unfold status_weight, is_status; by rewrite last_snoc. Qed.

Lemma status_weight_one status x :
  status_weight status [x] = if bool_decide (Status x = status) then 1 else 0.
Proof. done. Qed.

Lemma count_status_insert status m id vs :
  count_skills (status_weight status) (<[id := vs]> m) =
    count_skills (status_weight status) m - status_weight status (versions_of m id)
      + status_weight status vs.
Proof. by apply count_insert. Qed.

Lemma versions_of_Some m id vs : m !! id = Some vs -> versions_of m id = vs.
Proof. unfold versions_of; by intros ->. Qed.

(** [activeCount] and [candidateCount] after an update, as arithmetic on the
    statuses of the revisions concerned. *)
Ltac count_lia :=
  unfold activeCount, candidateCount in *;
  fold (status_weight "active") (status_weight "candidate") in *;
  repeat match goal with
  | H : ?m !! ?id = Some _ |- _ => apply versions_of_Some in H
  end;
  rewrite ?count_status_insert, ?versions_of_insert_ne by congruence;
  repeat match goal with
  | H : versions_of _ _ = _ |- _ => rewrite H; clear H
  end;
  rewrite ?status_weight_snoc, ?status_weight_one;
  change (status_weight "active" []) with 0; change (status_weight "candidate" []) with 0;
  repeat case_bool_decide; simplify_eq; intuition (congruence || lia).

Lemma lifecycle_active op limit m m' :
  lifecycle op limit m m' -> activeCount m' <= Z.max (activeCount m) limit.
Proof.
  intros [s Hm [_ _ Hst] Ha Hc _|l x s Hm _ _ [_ _ Hst] Ha Hc|id l x y Hm _ _ Hst
    |id protected l x y _ _ Hm _ Hst|id l x y s Hm _ _ _ Hy Hnew Hne [_ _ Hst] _ Ha Hc _].
  all: count_lia.
Qed.

Lemma lifecycle_candidates op limit m m' :
  lifecycle op limit m m' ->
  candidateCount m' <= Z.max (candidateCount m) maximumCandidateSkills.
Proof.
  intros [s Hm [_ _ Hst] Ha Hc _|l x s Hm _ _ [_ _ Hst] Ha Hc|id l x y Hm _ _ Hst
    |id protected l x y _ _ Hm _ Hst|id l x y s Hm _ _ _ Hy Hnew Hne [_ _ Hst] _ Ha Hc _].
  all: count_lia.
Qed.

(** ** Runs of operations *)

Lemma perform_all_ind (P : Store -> Prop) s ops :
  P s ->
  (forall s s' op, op ∈ ops.*2 -> P s ->
     activeLimit s' = activeLimit s -> enabled s' = enabled s ->
     skills s' = skills s \/ lifecycle op (activeLimit s) (skills s) (skills s') -> P s') ->
  P (perform_all s ops).
Proof.
  unfold perform_all; revert s; induction ops as [|o ops IH]; intros s Hs Hstep; [done|]; cbn.
  apply IH.
  - destruct (operations_follow_the_lifecycle o.1.1 o.1.2 s o.2) as (Hl & He & Hm).
    eapply Hstep; [|done..]; left.
  - intros; eapply Hstep; [|done..]; by right.
Qed.

(** However many operations run, and whichever of them fail, the store never
    holds more active skills than its limit, nor more than twenty candidates,
    unless it held that many before: no operation takes a count over its limit. *)
Theorem learned_skills_stay_within_limits s ops :
  let s' := perform_all s ops in
  activeLimit s' = activeLimit s /\
  activeCount (skills s') <= Z.max (activeCount (skills s)) (activeLimit s) /\
  candidateCount (skills s') <= Z.max (candidateCount (skills s)) maximumCandidateSkills.
Proof.
  cbn zeta; apply perform_all_ind; [lia|].
  intros s1 s2 op _ (Hl & Ha & Hc) Hlimit _ [Heq|Hstep]; [rewrite Heq; split_and!; lia|].
  pose proof (lifecycle_active _ _ _ _ Hstep); pose proof (lifecycle_candidates _ _ _ _ Hstep).
  split_and!; lia.
Qed.

(** ** What is kept *)

#[global] Instance same_revision_refl : Reflexive same_revision.
Proof. by split. Qed.

#[global] Instance same_revision_trans : Transitive same_revision.
Proof. intros x y z [] []; split; congruence. Qed.

(** A revision history that goes on: what was there is there, in its place,
    with its content. *)
Definition continues (vs vs' : list Skill) : Prop :=
  exists kept new, vs' = kept ++ new /\ Forall2 same_revision vs kept.

#[global] Instance continues_refl : Reflexive continues.
Proof. intros vs; exists vs, []; rewrite app_nil_r; split; [done|]; reflexivity. Qed.

Lemma continues_trans vs1 vs2 vs3 : continues vs1 vs2 -> continues vs2 vs3 -> continues vs1 vs3.
Proof.
  intros (k1 & n1 & -> & H1) (k2 & n2 & -> & H2).
  apply Forall2_app_inv_l in H2 as (k3 & k4 & H3 & H4 & ->).
  exists k3, (k4 ++ n2); rewrite app_assoc; split; [done|].
  by transitivity k1.
Qed.

Lemma continues_snoc l x y new : same_revision x y -> continues (l ++ [x]) ((l ++ [y]) ++ new).
Proof.
  intros Hs; exists (l ++ [y]), new; split; [done|]; apply Forall2_app.
  - reflexivity.
  - by apply Forall2_cons.
Qed.

Lemma lifecycle_continues op limit m m' id vs :
  lifecycle op limit m m' -> m !! id = Some vs -> exists vs', m' !! id = Some vs' /\ continues vs vs'.
Proof.
  intros Hstep Hvs.
  assert (Hother : forall id' vs', id <> id' ->
    exists vs'', <[id' := vs']> m !! id = Some vs'' /\ continues vs vs'')
    by (intros; rewrite lookup_insert_ne by done; eauto using continues_refl).
  assert (Hnew : forall s, versions_of m id = [] -> continues vs [s])
    by (intros s Hn; pose proof (versions_of_Some _ _ _ Hvs) as He; rewrite Hn in He;
        rewrite <- He; exists [], [s]; split; [done|constructor]).
  destruct Hstep as [s Hm _ _ _ _|l x s Hm _ _ _ _ _|id' l x y Hm Hs _ _
    |id' protected l x y _ _ Hm Hs _|id' l x y s Hm Hs _ _ _ Hn Hne _ _ _ _ _].
  - destruct (decide (id = ID s)) as [->|Hid]; [|by apply Hother].
    rewrite lookup_insert_eq; eauto.
  - destruct (decide (id = ID s)) as [->|Hid]; [|by apply Hother].
    rewrite lookup_insert_eq; simplify_eq; eexists; split; [done|]; by apply continues_snoc.
  - destruct (decide (id = id')) as [->|Hid]; [|by apply Hother].
    rewrite lookup_insert_eq; simplify_eq; eexists; split; [done|].
    rewrite <- (app_nil_r (l ++ [y])); by apply continues_snoc.
  - destruct (decide (id = id')) as [->|Hid]; [|by apply Hother].
    rewrite lookup_insert_eq; simplify_eq; eexists; split; [done|].
    rewrite <- (app_nil_r (l ++ [y])); by apply continues_snoc.
  - destruct (decide (id = ID s)) as [->|Hid]; [rewrite lookup_insert_eq; eauto|].
    rewrite lookup_insert_ne by done.
    destruct (decide (id = id')) as [->|Hid']; [|by apply Hother].
    rewrite lookup_insert_eq; simplify_eq; eexists; split; [done|].
    rewrite <- (app_nil_r (l ++ [y])); by apply continues_snoc.
Qed.

(** A store whose entries are what [Put] and [replace] let in. *)
Record well_kept (id : string) (vs : list Skill) : Prop := {
  kept_some : vs <> [];
  kept_revisions : forall s, s ∈ vs ->
    ID s = id /\ validateSkillInstruction s = Ok tt /\ too_large s = false /\
    (Status s = "candidate" \/ Status s = "active" \/ Status s = "retired");
  kept_chain : forall i x y, vs !! i = Some x -> vs !! S i = Some y -> follows x y;
}.

Lemma well_kept_one s : acceptable s -> well_kept (ID s) [s].
Proof.
  intros [Hv Hl Hs]; split; [done| |by intros [|i] x y].
  intros s' ->%list_elem_of_singleton; intuition.
Qed.

Lemma well_kept_same id l x y :
  well_kept id (l ++ [x]) -> same_revision x y ->
  (Status y = "candidate" \/ Status y = "active" \/ Status y = "retired") ->
  well_kept id (l ++ [y]).
Proof.
  intros [_ Hrev Hchain] [sID sVersion sAud sDesc sInst _ _ _ _] Hst; split; [by destruct l|..].
  - intros s [Hs| ->%list_elem_of_singleton]%elem_of_app; [apply Hrev, elem_of_app; by left|].
    destruct (Hrev x) as (Hid & Hv & Hl & _); [apply elem_of_app; right; by constructor|].
    unfold validateSkillInstruction, too_large in *; by rewrite sID, sDesc, sInst.
  - intros i a b Ha Hb; assert (Hi : (i < length l)%nat).
    { apply lookup_lt_Some in Hb; rewrite length_app in Hb; cbn in Hb; lia. }
    rewrite lookup_app_l in Ha by done.
    destruct (decide (S i < length l)%nat).
    + rewrite lookup_app_l in Hb by done; apply (Hchain i); by rewrite lookup_app_l.
    + rewrite lookup_app_r in Hb by lia; replace (S i - length l)%nat with 0%nat in Hb by lia.
      injection Hb as <-; destruct (Hchain i a x) as [Hfv Hfa].
      * by rewrite lookup_app_l.
      * rewrite lookup_app_r by lia; by replace (S i - length l)%nat with 0%nat by lia.
      * split; congruence.
Qed.

Lemma well_kept_snoc l x s :
  well_kept (ID s) (l ++ [x]) -> acceptable s -> follows x s ->
  well_kept (ID s) ((l ++ [x]) ++ [s]).
Proof.
  intros [_ Hrev Hchain] [Hv Hl Hst] Hf; split; [by destruct l|..].
  - intros s' [Hs| ->%list_elem_of_singleton]%elem_of_app; [by apply Hrev|intuition].
  - intros i a b Ha Hb; assert (Hi : (i < length (l ++ [x]))%nat).
    { apply lookup_lt_Some in Hb; rewrite length_app in Hb; cbn in Hb; lia. }
    rewrite lookup_app_l in Ha by done.
    destruct (decide (S i < length (l ++ [x]))%nat).
    + rewrite lookup_app_l in Hb by done; by apply (Hchain i).
    + rewrite lookup_app_r in Hb by lia; rewrite length_app in *; cbn in *.
      replace (S i - (length l + 1))%nat with 0%nat in Hb by lia; injection Hb as <-.
      rewrite lookup_app_r in Ha by lia; replace (i - length l)%nat with 0%nat in Ha by lia.
      by injection Ha as <-.
Qed.

Lemma lifecycle_well_kept op limit m m' :
  lifecycle op limit m m' -> map_Forall well_kept m -> map_Forall well_kept m'.
Proof.
  intros [s Hm Hacc _ _ _|l x s Hm _ Hf Hacc _ _|id l x y Hm Hs _ Hst
    |id protected l x y _ _ Hm Hs Hst|id l x y s Hm Hs _ _ Hst Hn Hne Hacc _ _ _ _] Hall.
  - apply map_Forall_insert_2; [by apply well_kept_one|done].
  - apply map_Forall_insert_2; [|done]; apply well_kept_snoc; [by apply Hall|done..].
  - apply map_Forall_insert_2; [|done]; apply well_kept_same with (x := x); [by apply Hall|done|].
    destruct Hst as [(-> & _)|(-> & _)]; auto.
  - apply map_Forall_insert_2; [|done]; apply well_kept_same with (x := x); [by apply Hall|done|].
    rewrite Hst; apply (kept_revisions _ _ (Hall _ _ Hm)), elem_of_app; right; by constructor.
  - apply map_Forall_insert_2; [by apply well_kept_one|].
    apply map_Forall_insert_2; [|done]; apply well_kept_same with (x := x); [by apply Hall|done|auto].
Qed.

(** In a store that is well kept - under each ID the revisions of one skill,
    of one audience, numbered one after the other, each a valid SKILL.md
    document within the size limits - any run of operations leaves it so, and
    loses nothing: every revision is still there, in its place, with the content
    it had. *)
Theorem learned_skill_history_is_kept s ops :
  map_Forall well_kept (skills s) ->
  let s' := perform_all s ops in
  map_Forall well_kept (skills s') /\
  forall id vs, skills s !! id = Some vs ->
    exists vs', skills s' !! id = Some vs' /\ continues vs vs'.
Proof.
  intros Hs; cbn zeta; apply perform_all_ind; [by eauto using continues_refl|].
  intros s1 s2 op _ [Hk Hh] _ _ [Heq|Hstep]; [by rewrite Heq|].
  split; [by eapply lifecycle_well_kept|].
  intros id vs Hvs; destruct (Hh _ _ Hvs) as (vs1 & Hm & Hc).
  destruct (lifecycle_continues _ _ _ _ _ _ Hstep Hm) as (vs2 & Hm2 & Hc2).
  eauto using continues_trans.
Qed.

(** The latest revision of a skill is protected and active. *)
Definition stands_protected (vs : list Skill) : bool :=
  match last vs with Some s => Protected s && bool_decide (Status s = "active") | None => false end.

Lemma stands_protected_last l x :
  stands_protected (l ++ [x]) = true -> Protected x = true /\ Status x = "active".
Proof.
  unfold stands_protected; rewrite last_snoc.
  intros [? ?%bool_decide_eq_true]%andb_true_iff; done.
Qed.

Lemma lifecycle_protected op limit m m' id vs :
  lifecycle op limit m m' -> (forall protected, op <> OpSetProtected id protected) ->
  m !! id = Some vs -> stands_protected vs = true -> m' !! id = Some vs.
Proof.
  intros Hstep Hop Hvs Hp.
  assert (Hother : forall id' vs', id <> id' -> <[id' := vs']> m !! id = Some vs)
    by (intros; by rewrite lookup_insert_ne).
  assert (Hlast : forall l x, m !! id = Some (l ++ [x]) -> Protected x = true /\ Status x = "active")
    by (intros; simplify_eq; by apply stands_protected_last in Hp).
  assert (Hempty : versions_of m id <> [])
    by (rewrite (versions_of_Some _ _ _ Hvs); by destruct vs).
  destruct Hstep as [s Hm _ _ _ _|l x s Hm Hx _ _ _ _|id' l x y Hm _ _ Hst
    |id' protected l x y -> _ Hm _ _|id' l x y s Hm _ Hx _ _ Hn Hne _ _ _ _ _].
  - by destruct (decide (id = ID s)) as [->|Hid]; [|apply Hother].
  - destruct (decide (id = ID s)) as [->|Hid]; [|by apply Hother].
    destruct (Hlast _ _ Hm); congruence.
  - destruct (decide (id = id')) as [->|Hid]; [|by apply Hother].
    destruct (Hlast _ _ Hm); destruct Hst as [(_ & ? & _)|(_ & ? & _)]; congruence.
  - destruct (decide (id = id')) as [->|Hid]; [by destruct (Hop protected)|by apply Hother].
  - destruct (decide (id = ID s)) as [->|Hid]; [done|]; rewrite lookup_insert_ne by done.
    destruct (decide (id = id')) as [->|Hid']; [|by apply Hother].
    destruct (Hlast _ _ Hm); congruence.
Qed.

(** An active skill that is protected stays exactly as it is - no revision,
    replacement or retirement touches it - through any run of operations none of
    which sets its protection. *)
Theorem protected_skills_stay s ops id vs :
  (forall protected, (OpSetProtected id protected ∉ ops.*2)) ->
  skills s !! id = Some vs -> stands_protected vs = true ->
  skills (perform_all s ops) !! id = Some vs.
Proof.
  intros Hops Hvs Hp; apply perform_all_ind; [done|].
  intros s1 s2 op Hin Hm _ _ [Heq|Hstep]; [by rewrite Heq|].
  eapply lifecycle_protected; [done| |done|done].
  intros protected ->; by apply (Hops protected).
Qed.

(** ** Examples *)

Definition example_skill (id status : string) (version : Z) : Skill :=
  MkSkill id version "team" "Sends the weekly report" (render_skill id "Sends the report" "Do it.")
    ["task-1"] "asked twice" "evidence-reviewed" status false zero_time zero_time zero_time.

Definition no_trouble : gmap string (list Skill) -> option string := fun _ => None.

Definition example_operations : list ((gmap string (list Skill) -> option string) * clock * Operation) :=
  [(no_trouble, (1, 1), OpPut (example_skill "report" "active" 0));
   (no_trouble, (2, 2), OpPut (example_skill "report" "active" 1));
   (no_trouble, (3, 3), OpSetProtected "report" true);
   (no_trouble, (4, 5), OpRetire "report")].

Definition example_store : Store := perform_all (MkStore 20 true ∅) (take 1 example_operations).
Definition protected_store : Store := perform_all (MkStore 20 true ∅) (take 3 example_operations).

Lemma learned_skill_history_is_kept_witness :
  map Version (versions_of (skills example_store) "report") = [1] /\
  map Version (versions_of (skills (perform_all example_store (drop 1 example_operations))) "report")
    = [1; 2] /\
  map_Forall well_kept (skills (perform_all example_store (drop 1 example_operations))).
Proof.
  split; [vm_compute; reflexivity|split; [vm_compute; reflexivity|]].
  apply learned_skill_history_is_kept.
  apply learned_skill_history_is_kept; apply map_Forall_empty.
Defined.

Lemma protected_skills_stay_witness :
  exists vs, skills protected_store !! "report" = Some vs /\ stands_protected vs = true /\
    skills (perform_all protected_store (drop 3 example_operations)) !! "report" = Some vs.
Proof.
  eexists; split; [vm_compute; reflexivity|split; [vm_compute; reflexivity|]].
  apply protected_skills_stay; [|vm_compute; reflexivity|vm_compute; reflexivity].
  intros protected [Hin|Hin%elem_of_nil]%elem_of_cons; discriminate || done.
Defined.

(** A skill under an ID with blanks around it is stored, and cannot be read:
    [Put] keys it as it is, [Get] looks under the trimmed ID. *)
Lemma padded_ID_cannot_be_read :
  let s := fst (Put no_trouble (1, 1) (MkStore 20 true ∅) (example_skill " report " "active" 0)) in
  is_ok (snd (Put no_trouble (1, 1) (MkStore 20 true ∅) (example_skill " report " "active" 0))) = true /\
  activeCount (skills s) = 1 /\
  Get s " report " "team" false = Err SkillNotFound /\ Get s "report" "team" false = Err SkillNotFound.
Proof. vm_compute; repeat split. Qed.

(** A new active limit below the number of active skills is taken as it is. *)
Lemma limit_below_the_active_skills :
  let s := perform_all (MkStore 20 true ∅)
    [(no_trouble, (1, 1), OpPut (example_skill "report" "active" 0));
     (no_trouble, (2, 2), OpPut (example_skill "digest" "active" 0))] in
  let s' := fst (UpdateSettings (fun _ => None) s (MkSettings true 1)) in
  activeCount (skills s') = 2 /\ activeLimit s' = 1.
Proof. vm_compute; split; reflexivity. Qed.

(** [maximumRetainedRevisions] bounds new skills, not revisions: at the limit,
    a revision of a skill is still kept. *)
Lemma revisions_pass_the_retained_limit :
  let old := map (fun v => with_Version (Z.of_nat v) (example_skill "report" "active" 0)) (seq 1 100) in
  let s := MkStore 20 true {["report" := old]} in
  revisionCount (skills s) = maximumRetainedRevisions /\
  revisionCount (skills (perform no_trouble (1, 1) s (OpPut (example_skill "report" "active" 100))))
    = maximumRetainedRevisions + 1.
Proof. vm_compute; split; reflexivity. Qed.

(** ** One operation and the skills of other audiences *)

(** [vs] ends with a skill of another audience than [audience]. *)
Definition of_another_audience (audience : string) (vs : list Skill) : Prop :=
  exists l x, vs = l ++ [x] /\ Audience x <> audience.

Lemma put_skills_audience now limit m s m' r id vs :
  put_skills now limit m s = Ok (m', r) -> m !! id = Some vs ->
  of_another_audience (Audience s) vs -> m' !! id = Some vs.
Proof.
  unfold put_skills; intros H Hvs (l & y & -> & Haud); run_inv.
  match goal with Hp : put_revision _ _ = Ok ?s0 |- _ => rename s0 into s', Hp into Hput end.
  change (append_revision (ID (put_fields now s')) (put_fields now s') m !! id = Some (l ++ [y])).
  destruct (put_fields_spec now s') as (HID & _).
  unfold append_revision; rewrite lookup_insert_ne; [done|]; rewrite HID.
  apply put_revision_Ok in Hput as [[Hnew ->]|(l' & latest & Hm & _ & Ha & ->)]; cbn; intros <-.
  - rewrite (versions_of_Some _ _ _ Hvs) in Hnew; by destruct l.
  - rewrite Hvs in Hm; injection Hm as Hm; apply app_inj_tail in Hm as [_ ->]; congruence.
Qed.

Lemma versions_last_eq m id l x y :
  m !! id = Some (l ++ [x]) -> last (versions_of m id) = Some y -> y = x.
Proof. intros Hm; rewrite (versions_of_Some _ _ _ Hm), last_snoc; congruence. Qed.

Lemma retire_decision_skills_audience now m decision m' r id vs :
  retire_decision_skills now m decision = Ok (m', r) -> m !! id = Some vs ->
  of_another_audience (Audience (Decision_Skill decision)) vs -> m' !! id = Some vs.
Proof.
  unfold retire_decision_skills; intros H Hvs (l & y & -> & Haud).
  destruct (last (versions_of m (Decision_ID decision))) as [x|] eqn:Hlast; run_inv; bool_to_prop.
  unfold change_latest; rewrite lookup_alter_ne; [done|]; intros <-.
  rewrite (versions_last_eq _ _ _ _ _ Hvs Hlast) in *; congruence.
Qed.

Lemma replace_skills_audience now limit m decision m' r id vs :
  replace_skills now limit m decision = Ok (m', r) -> m !! id = Some vs ->
  of_another_audience (Audience (Decision_Skill decision)) vs -> m' !! id = Some vs.
Proof.
  unfold replace_skills; intros H Hvs (l & y & -> & Haud); run_inv.
  destruct (last (versions_of m (ReplaceID decision))) as [latest|] eqn:Hlast; run_inv; bool_to_prop.
  rewrite ID_default; unfold append_revision, change_latest.
  rewrite lookup_insert_ne.
  - rewrite lookup_alter_ne; [done|]; intros <-.
    rewrite (versions_last_eq _ _ _ _ _ Hvs Hlast) in *; congruence.
  - intros <-; match goal with Hn : versions_of m _ = [] |- _ =>
      rewrite (versions_of_Some _ _ _ Hvs) in Hn; by destruct l end.
Qed.

(** The decisions a review may come to. *)
Lemma ApplyDecision_audience persistSkills now s decision id vs :
  Action decision ∈ ["create"; "revise"; "replace"; "retire"; "soul"; "keep"] ->
  skills s !! id = Some vs ->
  of_another_audience (Audience (Decision_Skill decision)) vs ->
  skills (fst (ApplyDecision persistSkills now s decision)) !! id = Some vs.
Proof.
  intros Hin Hvs Haud.
  assert (Hcommit : forall r : result StoreError (gmap string (list Skill) * Skill),
    (forall m' a, r = Ok (m', a) -> m' !! id = Some vs) ->
    skills (fst (commit persistSkills s r)) !! id = Some vs).
  { intros r Hr; unfold commit; destruct r as [[m' a]|e]; [|done].
    destruct (persistSkills m'); cbn; eauto. }
  unfold ApplyDecision; repeat apply elem_of_cons in Hin as [->|Hin];
    try (by apply elem_of_nil in Hin); try exact Hvs; apply Hcommit; intros m' a Hr.
  all: first [by eapply put_skills_audience|by eapply replace_skills_audience
    |by eapply retire_decision_skills_audience].
Qed.
