(* ===== verification/Persona.v ===== *)
(** * Who the assistant is: the identity, soul and user documents, their normal
    forms and renderings, and the soul's revisions ([persona/persona.go],
    [persona/render.go], [persona/soul_history.go]). *)

From S2P Require Export GoTime.

(** ** Data *)

Record Tone := MkTone {
  Register_of : string;
  Traits : list string;
}.

Record Language := MkLanguage {
  Language_Default : string;
  MatchRequester : bool;
}.

Record UserLanguage := MkUserLanguage {
  UserLanguage_Default : string;
}.

Record MorningBriefing := MkBriefing {
  Briefing_Enabled : bool;
  Briefing_Time : string;
}.

Record Identity := MkIdentity {
  Identity_SchemaVersion : Z;
  Names : list string;
  Handle : string;
  Role : string;
  Creature : string;
  Emoji : string;
  Introduction : string;
}.

Record Soul := MkSoul {
  Soul_SchemaVersion : Z;
  Values : list string;
  Boundaries : list string;
  WorkingStyle : list string;
  Soul_Tone : option Tone;
  Soul_Language : option Language;
}.

Record User := MkUser {
  User_SchemaVersion : Z;
  CallMe : string;
  About_of : string;
  Preferences : list string;
  User_Tone : option Tone;
  User_Language : option UserLanguage;
  User_MorningBriefing : option MorningBriefing;
}.

Definition SchemaVersion : Z := 1.

(** The default of [schema/user.schema.json]. *)
Definition DefaultMorningBriefing : MorningBriefing := MkBriefing true "08:00".

(** The fields a JSON document gives, and the defaults for those it does not. *)
Definition UnmarshalJSON (enabled : option bool) (time : option string) : MorningBriefing :=
  MkBriefing (default (Briefing_Enabled DefaultMorningBriefing) enabled)
    (default (Briefing_Time DefaultMorningBriefing) time).

Section with_unicode.
Context `{UnicodeTables}.

(** ** Normal forms *)

Fixpoint normalize_lines (seen : gset string) (lines : list string) : list string :=
  match lines with
  | [] => []
  | line :: lines' =>
    let trimmed := Join " " (Fields line) in
    let key := ToLower trimmed in
    if bool_decide (trimmed = "") || bool_decide (key ∈ seen) then normalize_lines seen lines'
    else trimmed :: normalize_lines ({[key]} ∪ seen) lines'
  end.

Definition normalizeLines (lines : list string) : list string := normalize_lines ∅ lines.

Definition normalizeTone (tone : option Tone) : option Tone :=
  match tone with
  | None => None
  | Some tone =>
    let normalized := MkTone (ToLower (TrimSpace (Register_of tone))) (normalizeLines (Traits tone)) in
    if bool_decide (Register_of normalized = "") && bool_decide (Traits normalized = [])
    then None else Some normalized
  end.

Definition NormalizeIdentity (identity : Identity) : Identity :=
  {| Identity_SchemaVersion := SchemaVersion;
     Names := normalizeLines (Names identity);
     Handle := ToLower (TrimSpace (Handle identity));
     Role := TrimSpace (Role identity);
     Creature := TrimSpace (Creature identity);
     Emoji := TrimSpace (Emoji identity);
     Introduction := TrimSpace (Introduction identity) |}.

Definition NormalizeSoul (soul : Soul) : Soul :=
  {| Soul_SchemaVersion := SchemaVersion;
     Values := normalizeLines (Values soul);
     Boundaries := normalizeLines (Boundaries soul);
     WorkingStyle := normalizeLines (WorkingStyle soul);
     Soul_Tone := normalizeTone (Soul_Tone soul);
     Soul_Language :=
       match Soul_Language soul with
       | None => None
       | Some given =>
         let language := MkLanguage (TrimSpace (Language_Default given)) (MatchRequester given) in
         if bool_decide (Language_Default language = "") && negb (MatchRequester language)
         then None else Some language
       end |}.

Definition NormalizeUser (user : User) : User :=
  {| User_SchemaVersion := SchemaVersion;
     CallMe := TrimSpace (CallMe user);
     About_of := TrimSpace (About_of user);
     Preferences := normalizeLines (Preferences user);
     User_Tone := normalizeTone (User_Tone user);
     User_Language :=
       match User_Language user with
       | None => None
       | Some given =>
         let language := MkUserLanguage (TrimSpace (UserLanguage_Default given)) in
         if bool_decide (UserLanguage_Default language = "") then None else Some language
       end;
     User_MorningBriefing :=
       match User_MorningBriefing user with
       | None => Some DefaultMorningBriefing
       | Some briefing =>
         Some (MkBriefing (Briefing_Enabled briefing)
           (if blank (Briefing_Time briefing) then Briefing_Time DefaultMorningBriefing
            else TrimSpace (Briefing_Time briefing)))
       end |}.

(** ** Renderings *)

Definition bulleted (lines : list string) : string :=
  Join nl ((fun line => "- " +:+ line) <$> lines).

(** [strings.ReplaceAll(block, newline, newline and two blanks)]. *)
Definition indented (block : string) : string :=
  "  " +:+ Join (nl +:+ "  ") (Split block newline).

Definition quoted (value : string) : string :=
  String double_quote "" +:+ value +:+ String double_quote "".

Definition joinQuoted (values : list string) : string := Join ", " (quoted <$> values).

Definition renderTone (label : string) (tone : option Tone) : string :=
  match tone with
  | None => ""
  | Some tone =>
    let parts :=
      (if bool_decide (Register_of tone = "") then []
       else ["keep a " +:+ Register_of tone +:+ " register"])
      ++ (if bool_decide (Traits tone = []) then [] else ["sound " +:+ Join ", " (Traits tone)]) in
    label +:+ ": " +:+ Join "; " parts +:+ "."
  end.

(** [AgentIdentity] of the protocol library: name and handle. *)
Definition AgentIdentityOf (identity : Identity) : string * string :=
  let identity := NormalizeIdentity identity in
  (default "" (head (Names identity)), Handle identity).

(** [if value != "" { lines = append(lines, prefix + value + suffix) }] *)
Definition line_of (prefix value suffix : string) : list string :=
  if bool_decide (value = "") then [] else [prefix +:+ value +:+ suffix].

Definition RenderIdentityInstruction (identity : Identity) : string :=
  let identity := NormalizeIdentity identity in
  Join nl (["Identity:"]
    ++ match Names identity with name :: _ => ["- Your name is " +:+ name +:+ "."] | [] => [] end
    ++ match Names identity with
       | _ :: ((_ :: _) as others) =>
         ["- These are all your name too, and you answer to any of them: "
            +:+ joinQuoted others +:+ "."]
       | _ => []
       end
    ++ line_of "- People mention you as @" (Handle identity) "."
    ++ line_of "- Your role: " (Role identity) ""
    ++ line_of "- What you are: " (Creature identity) ""
    ++ line_of "- Your emoji: " (Emoji identity) ""
    ++ line_of "- When asked who you are, introduce yourself like this: " (Introduction identity) "").

(** [if len(lines) > 0 { sections = append(sections, title + bulleted(lines)) }] *)
Definition bulleted_section (title : string) (lines : list string) : list string :=
  if bool_decide (lines = []) then [] else [title +:+ bulleted lines].

Definition RenderSoulInstruction (soul : Soul) : string :=
  let soul := NormalizeSoul soul in
  Join nl (bulleted_section ("What you hold to:" +:+ nl) (Values soul)
    ++ bulleted_section ("What you never do:" +:+ nl) (Boundaries soul)
    ++ bulleted_section ("How you work:" +:+ nl) (WorkingStyle soul)
    ++ line_of "" (renderTone "Tone" (Soul_Tone soul)) ""
    ++ match Soul_Language soul with
       | None => []
       | Some language =>
         let parts :=
           line_of "write in " (Language_Default language) " unless something else decides it"
           ++ (if MatchRequester language then ["answer in the language the requester wrote in"]
               else []) in
         if bool_decide (parts = []) then [] else ["Language: " +:+ Join "; " parts +:+ "."]
       end).

Definition RenderUserInstruction (user : User) : string :=
  let user := NormalizeUser user in
  let lines :=
    line_of "- Call them " (CallMe user) "."
    ++ line_of "- About them: " (About_of user) ""
    ++ (if bool_decide (Preferences user = []) then []
        else ["- How they want you to work with them:" +:+ nl
                +:+ indented (bulleted (Preferences user))])
    ++ line_of "- " (renderTone "Tone with them" (User_Tone user)) ""
    ++ match User_Language user with
       | Some language => line_of "- Answer them in " (UserLanguage_Default language) "."
       | None => []
       end in
  if bool_decide (lines = []) then ""
  else "The person asking has told you how they want to work with you:" +:+ nl +:+ Join nl lines.

(** ** The soul's revisions *)

Record SoulRevision := MkRevision {
  Revision_Version : Z;
  Document : string;
  Revision_Reason : string;
  Revision_EvidenceIDs : list string;
  Revision_CreatedAt : instant;
  Origin : string;
}.

Definition maximumSoulHistory : Z := 100.

Inductive PersonaError :=
| NotExist
| HistoryInvalid
| ReadFailed (cause : string)
| DocumentInvalid (cause : string)
| ExpectedRevisionRequired
| RevisionIsStale
| WriteFailed (cause : string).

(** The two files under the root: the ledger, decoded ([None] where there is no
    file, an error where it cannot be read or decoded), and [soul.json]. *)
Record SoulFiles := MkSoulFiles {
  ledger : option (result PersonaError (list SoulRevision));
  projection : option (result PersonaError string);
}.

(** The document written where there is no [soul.json]. *)
Definition empty_soul : string :=
  "{" +:+ quoted "schemaVersion" +:+ ":1}".

(** [decode] checks a document against the schema and decodes it, [encode] is
    [json.MarshalIndent], [checked] the schema check of a document, and [stored]
    what a document inside the ledger reads as once the ledger is written, the
    encoder having indented it anew. *)
Class SoulCodec := {
  decode : string -> result PersonaError Soul;
  encode : Soul -> result PersonaError string;
  checked : string -> result PersonaError unit;
  stored : string -> string;
}.

Context `{SoulCodec}.

Definition ParseSoul (document : string) : result PersonaError Soul :=
  soul ← decode document;
  Ok (NormalizeSoul soul).

Definition CanonicalSoul (soul : Soul) : result PersonaError string :=
  document ← encode (NormalizeSoul soul);
  let document := document +:+ nl in
  checked document;;
  Ok document.

Definition readSoulHistory (now : instant) (files : SoulFiles) (allowMissingBaseline : bool)
  : result PersonaError (list SoulRevision) :=
  match ledger files with
  | Some (Ok history) => refuse_if (bool_decide (history = [])) HistoryInvalid;; Ok history
  | Some (Err e) => Err e
  | None =>
    baseline ← match projection files with
      | None => if allowMissingBaseline then Ok empty_soul else Err NotExist
      | Some document => document
      end;
    soul ← ParseSoul baseline;
    canonical ← CanonicalSoul soul;
    Ok [MkRevision 1 canonical "" [] now "initial"]
  end.

Definition ReadSoulHistory (now : instant) (files : SoulFiles)
  : result PersonaError (list SoulRevision) :=
  readSoulHistory now files true.

(** [history[len(history)-1]] of a history that is not empty. *)
Definition current_of (history : list SoulRevision) : result PersonaError SoulRevision :=
  match last history with Some latest => Ok latest | None => Err HistoryInvalid end.

Definition ReadSoulDocument (now : instant) (files : SoulFiles) : result PersonaError string :=
  history ← readSoulHistory now files false;
  latest ← current_of history;
  Ok (Document latest).

(** How the two writes go: [None], or what went wrong. *)
Record SoulWrites := MkWrites {
  ledger_write : option string;
  projection_write : option string;
}.

Definition kept_history (history : list SoulRevision) : list SoulRevision :=
  if maximumSoulHistory <=? Z.of_nat (length history)
  then drop (Z.to_nat (Z.of_nat (length history) - maximumSoulHistory + 1)) history
  else history.

Definition stored_revision (r : SoulRevision) : SoulRevision :=
  MkRevision (Revision_Version r) (stored (Document r)) (Revision_Reason r)
    (Revision_EvidenceIDs r) (Revision_CreatedAt r) (Origin r).

(** The history to write and the revision it ends with. *)
Definition next_history (now : instant) (files : SoulFiles) (expectedVersion : Z)
  (document reason : string) (evidenceIDs : list string) (origin : string)
  : result PersonaError (list SoulRevision * SoulRevision * string) :=
  refuse_if (expectedVersion <=? 0) ExpectedRevisionRequired;;
  soul ← ParseSoul document;
  canonical ← CanonicalSoul soul;
  history ← ReadSoulHistory now files;
  latest ← current_of history;
  refuse_if (negb (Revision_Version latest =? expectedVersion)) RevisionIsStale;;
  let revision :=
    MkRevision (wrap64 (Revision_Version latest + 1)) canonical reason evidenceIDs now origin in
  Ok (kept_history history ++ [revision], revision, canonical).

(** The ledger is written first: when [soul.json] cannot be, the revision is in
    the ledger all the same. *)
Definition AppendSoulRevision (now : instant) (writes : SoulWrites) (files : SoulFiles)
  (expectedVersion : Z) (document reason : string) (evidenceIDs : list string) (origin : string)
  : SoulFiles * result PersonaError SoulRevision :=
  match next_history now files expectedVersion document reason evidenceIDs origin with
  | Err e => (files, Err e)
  | Ok (history, revision, canonical) =>
    match ledger_write writes with
    | Some cause => (files, Err (WriteFailed cause))
    | None =>
      let files := MkSoulFiles (Some (Ok (stored_revision <$> history))) (projection files) in
      match projection_write writes with
      | Some cause => (files, Err (WriteFailed cause))
      | None => (MkSoulFiles (ledger files) (Some (Ok (canonical +:+ nl))), Ok revision)
      end
    end
  end.
End with_unicode.

(** ** Normal forms are normal *)

(** Lines as [normalizeLines] leaves them: single blanks, none empty, no two
    alike up to letter case, none of [seen]. *)
Record normal_lines `{UnicodeTables} (seen : gset string) (lines : list string) : Prop := {
  normal_each x : x ∈ lines -> x <> "" /\ Join " " (Fields x) = x /\ (ToLower x ∉ seen);
  normal_distinct : NoDup (ToLower <$> lines);
}.

Section normal_forms.
Context `{UnicodeLaws}.

Lemma normalize_lines_normal seen lines : normal_lines seen (normalize_lines seen lines).
Proof.
  revert seen; induction lines as [|line lines IH]; intros seen; cbn [normalize_lines].
  { split; [intros x Hx; by apply elem_of_nil in Hx|constructor]. }
  set (trimmed := Join " " (Fields line)).
  destruct (bool_decide (trimmed = "")) eqn:He; [apply IH|]; bool_to_prop; cbn [orb].
  destruct (bool_decide (ToLower trimmed ∈ seen)) eqn:Hs; [apply IH|]; bool_to_prop.
  destruct (IH ({[ToLower trimmed]} ∪ seen)) as [Heach Hnd]; split.
  - intros x [->|Hx]%elem_of_cons; [split_and!; [done|apply Join_Fields_idemp|done]|].
    destruct (Heach x Hx) as (H1 & H2 & H3); rewrite elem_of_union in H3; tauto.
  - rewrite fmap_cons; apply NoDup_cons; split; [|done].
    intros Hin; apply list_elem_of_fmap in Hin as (x & Heq & Hx).
    destruct (Heach x Hx) as (_ & _ & Hn); apply Hn; rewrite <- Heq.
    apply elem_of_union; left; by apply elem_of_singleton.
Qed.

Lemma normalize_lines_id seen lines : normal_lines seen lines -> normalize_lines seen lines = lines.
Proof.
  revert seen; induction lines as [|line lines IH]; intros seen [Heach Hnd]; [done|].
  cbn [normalize_lines]; destruct (Heach line) as (Hne & Hj & Hs); [by constructor|].
  rewrite Hj, !bool_decide_eq_false_2 by done; cbn [orb]; f_equal.
  rewrite fmap_cons in Hnd; apply NoDup_cons in Hnd as [Hnew Hnd].
  apply IH; split; [|done]; intros x Hx.
  destruct (Heach x) as (H1 & H2 & H3); [by constructor|]; split_and!; try done.
  rewrite elem_of_union, elem_of_singleton; intros [Heq|?]; [|done].
  apply Hnew; rewrite <- Heq; by apply list_elem_of_fmap_2.
Qed.

Lemma normalizeLines_idemp lines : normalizeLines (normalizeLines lines) = normalizeLines lines.
Proof. apply normalize_lines_id, normalize_lines_normal. Qed.

Lemma normalizeLines_nil : normalizeLines [] = [].
Proof. done. Qed.

Lemma normalizeTone_idemp tone : normalizeTone (normalizeTone tone) = normalizeTone tone.
Proof.
  destruct tone as [tone|]; [|done]; unfold normalizeTone at 2 3.
  cbv zeta; cbn [Register_of Traits].
  destruct (_ && _) eqn:He; [done|]; unfold normalizeTone; cbn [Register_of Traits].
  by rewrite ToLower_TrimSpace_idemp, normalizeLines_idemp, He.
Qed.

(** What is written back is what is read: the normal form of an identity, a
    soul or a user document is its own normal form, the names in it are distinct
    up to letter case and spacing, and the document is rendered for the model the
    same before and after it is saved. *)
Theorem documents_have_normal_forms (identity : Identity) (soul : Soul) (user : User) :
  (NormalizeIdentity (NormalizeIdentity identity) = NormalizeIdentity identity /\
   NormalizeSoul (NormalizeSoul soul) = NormalizeSoul soul /\
   NormalizeUser (NormalizeUser user) = NormalizeUser user) /\
  normal_lines ∅ (Names (NormalizeIdentity identity)) /\
  RenderIdentityInstruction (NormalizeIdentity identity) = RenderIdentityInstruction identity /\
  RenderSoulInstruction (NormalizeSoul soul) = RenderSoulInstruction soul /\
  RenderUserInstruction (NormalizeUser user) = RenderUserInstruction user.
Proof.
  assert (Hi : NormalizeIdentity (NormalizeIdentity identity) = NormalizeIdentity identity).
  { unfold NormalizeIdentity; cbn -[normalizeLines TrimSpace ToLower].
    by rewrite normalizeLines_idemp, ToLower_TrimSpace_idemp, !TrimSpace_idemp. }
  assert (Hs : NormalizeSoul (NormalizeSoul soul) = NormalizeSoul soul).
  { unfold NormalizeSoul; cbn -[normalizeLines TrimSpace ToLower normalizeTone blank]; rewrite !normalizeLines_idemp, normalizeTone_idemp; f_equal.
    destruct (Soul_Language soul) as [l|]; [|done]; cbv zeta; cbn [Language_Default MatchRequester].
    destruct (_ && _) eqn:He; [done|]; cbn [Language_Default MatchRequester].
    by rewrite TrimSpace_idemp, He. }
  assert (Hu : NormalizeUser (NormalizeUser user) = NormalizeUser user).
  { unfold NormalizeUser; cbn -[normalizeLines TrimSpace ToLower normalizeTone blank]; rewrite !normalizeLines_idemp, normalizeTone_idemp, !TrimSpace_idemp.
    f_equal.
    - destruct (User_Language user) as [l|]; [|done]; cbn -[TrimSpace].
      destruct (bool_decide _) eqn:He; [done|]; cbn -[normalizeLines TrimSpace ToLower normalizeTone blank]; by rewrite TrimSpace_idemp, He.
    - destruct (User_MorningBriefing user) as [b|]; [|done]; cbn [Briefing_Enabled Briefing_Time].
      destruct (blank (Briefing_Time b)) eqn:Hb; [done|].
      by rewrite blank_TrimSpace, Hb, TrimSpace_idemp. }
  split_and!; try done; [apply normalize_lines_normal|..]; unfold RenderIdentityInstruction, RenderSoulInstruction,
    RenderUserInstruction; by rewrite ?Hi, ?Hs, ?Hu.
Qed.
End normal_forms.

Definition example_identity : Identity :=
  MkIdentity 0 [" Blue  Claw"; "blue claw"; ""; "Claw"] " Claw " "helps " "" "" "".

Lemma documents_have_normal_forms_witness :
  Names (@NormalizeIdentity ascii_tables example_identity) = ["Blue Claw"; "Claw"] /\
  @NormalizeIdentity ascii_tables (@NormalizeIdentity ascii_tables example_identity)
    = @NormalizeIdentity ascii_tables example_identity.
Proof.
  split; [vm_compute; reflexivity|].
  apply (@documents_have_normal_forms ascii_tables ascii_laws example_identity
    (MkSoul 1 [] [] [] None None) (MkUser 1 "" "" [] None None None)).
Defined.

(** ** The ledger of the soul *)

Section ledger.
Context `{UnicodeTables} `{SoulCodec}.

(** Versions numbered one after the other. *)
Definition numbered (history : list SoulRevision) : Prop :=
  forall i x y, history !! i = Some x -> history !! S i = Some y ->
    Revision_Version y = wrap64 (Revision_Version x + 1).

(** A ledger as [AppendSoulRevision] writes it: at most a hundred revisions,
    numbered one after the other. *)
Definition ledger_kept (files : SoulFiles) : Prop :=
  match ledger files with
  | Some (Ok history) => Z.of_nat (length history) <= maximumSoulHistory /\ numbered history
  | _ => True
  end.

Lemma kept_history_suffix history :
  exists dropped, history = dropped ++ kept_history history /\
    (Z.of_nat (length history) <= maximumSoulHistory ->
     Z.of_nat (length (kept_history history)) < maximumSoulHistory).
Proof.
  unfold kept_history, maximumSoulHistory; destruct (100 <=? Z.of_nat (length history)) eqn:Hl; bool_to_prop.
  - exists (take (Z.to_nat (Z.of_nat (length history) - 100 + 1)) history).
    rewrite take_drop; split; [done|]; rewrite length_drop; lia.
  - exists []; split; [done|lia].
Qed.

Lemma numbered_drop d history : numbered (d ++ history) -> numbered history.
Proof.
  intros Hn i x y Hx Hy; apply (Hn (length d + i)%nat).
  - by rewrite lookup_app_r, Nat.add_comm, Nat.add_sub by lia.
  - by rewrite <- Nat.add_succ_r, lookup_app_r, Nat.add_comm, Nat.add_sub by lia.
Qed.

Lemma numbered_snoc l x y :
  numbered (l ++ [x]) -> Revision_Version y = wrap64 (Revision_Version x + 1) ->
  numbered ((l ++ [x]) ++ [y]).
Proof.
  intros Hn Hv i a b Ha Hb; assert (Hi : (S i < length ((l ++ [x]) ++ [y]))%nat)
    by (by apply lookup_lt_Some in Hb).
  rewrite !length_app in Hi; cbn in Hi; rewrite lookup_app_l in Ha by (rewrite length_app; cbn; lia).
  destruct (decide (i = length l)) as [->|Hne].
  - rewrite lookup_app_r, Nat.sub_diag in Ha by lia; injection Ha as <-.
    rewrite lookup_app_r, length_app in Hb by (rewrite length_app; cbn; lia); cbn in Hb.
    replace (S (length l) - (length l + 1))%nat with 0%nat in Hb by lia; by injection Hb as <-.
  - rewrite lookup_app_l in Hb by (rewrite length_app; cbn; lia); by apply (Hn i).
Qed.

Lemma numbered_map f history :
  (forall r, Revision_Version (f r) = Revision_Version r) -> numbered history -> numbered (f <$> history).
Proof.
  intros Hf Hn i x y; rewrite !list_lookup_fmap; intros Hx Hy.
  destruct (history !! i) as [a|] eqn:Ha; [|done]; destruct (history !! S i) as [b|] eqn:Hb; [|done].
  injection Hx as <-; injection Hy as <-; rewrite !Hf; by apply (Hn i).
Qed.
Lemma ReadSoulHistory_kept now files history :
  ledger_kept files -> ReadSoulHistory now files = Ok history ->
  Z.of_nat (length history) <= maximumSoulHistory /\ numbered history.
Proof.
  unfold ledger_kept, ReadSoulHistory, readSoulHistory; intros Hk Hr.
  destruct (ledger files) as [[h|e]|]; run_inv; [done|].
  unfold maximumSoulHistory; split; [cbn; lia|]; by intros [|i] a b.
Qed.

Lemma ReadSoulHistory_ledger now files history :
  ledger files = Some (Ok history) -> history <> [] -> ReadSoulHistory now files = Ok history.
Proof.
  unfold ReadSoulHistory, readSoulHistory; intros -> Hne.
  by rewrite bool_decide_eq_false_2.
Qed.

Lemma current_of_Ok history latest :
  current_of history = Ok latest -> exists l, history = l ++ [latest].
Proof.
  unfold current_of; destruct (last history) as [x|] eqn:Hl; [|done]; intros [= ->].
  by apply last_Some_snoc.
Qed.

Lemma next_history_Ok now files v document reason evidence origin history revision canonical :
  next_history now files v document reason evidence origin = Ok (history, revision, canonical) ->
  exists old latest, ReadSoulHistory now files = Ok (old ++ [latest]) /\
    Revision_Version latest = v /\ 0 < v /\ Revision_Version revision = wrap64 (v + 1) /\
    Document revision = canonical /\ history = kept_history (old ++ [latest]) ++ [revision].
Proof.
  unfold next_history; intros Hn; run_inv; bool_to_prop.
  match goal with Hc : current_of _ = Ok _ |- _ => apply current_of_Ok in Hc as [old ->] end.
  subst; eexists _, _; split; [done|]; cbn; split_and!; done || lia.
Qed.

(** A revision of the soul is appended only by a caller that names the version
    it starts from, and gets the next number; the ledger it is read back from ends
    with it and keeps at most a hundred revisions, numbered one after the other.
    When the revision is refused, or the ledger cannot be written, both files are
    as they were; only when [soul.json] alone cannot be written does the ledger
    hold a revision the caller was told had failed. *)
Theorem AppendSoulRevision_exact now writes files v document reason evidence origin :
  ledger_kept files ->
  let '(files', r) := AppendSoulRevision now writes files v document reason evidence origin in
  ledger_kept files' /\
  match r with
  | Ok revision =>
    exists old latest, ReadSoulHistory now files = Ok (old ++ [latest]) /\
      Revision_Version latest = v /\ Revision_Version revision = wrap64 (v + 1) /\
      ReadSoulHistory now files' =
        Ok (stored_revision <$> kept_history (old ++ [latest]) ++ [revision]) /\
      ReadSoulDocument now files' = Ok (stored (Document revision)) /\
      projection files' = Some (Ok (Document revision +:+ nl))
  | Err e =>
    files' = files \/
    projection files' = projection files /\ exists cause,
      ledger_write writes = None /\ projection_write writes = Some cause /\ e = WriteFailed cause
  end.
Proof.
  intros Hk; unfold AppendSoulRevision.
  destruct (next_history now files v document reason evidence origin)
    as [[[history revision] canonical]|e] eqn:Hnext; [|by auto].
  destruct (ledger_write writes) as [cause|] eqn:Hlw; [by auto|].
  apply next_history_Ok in Hnext as (old & latest & Hread & Hv & Hpos & Hrv & Hdoc & ->).
  set (history := kept_history (old ++ [latest]) ++ [revision]).
  assert (Hkept : ledger_kept (MkSoulFiles (Some (Ok (stored_revision <$> history)))
    (projection files))).
  { destruct (ReadSoulHistory_kept _ _ _ Hk Hread) as [Hlen Hnum].
    destruct (kept_history_suffix (old ++ [latest])) as (dropped & Hsplit & Hshort).
    split; [rewrite length_fmap; unfold history; rewrite length_app; cbn; lia|].
    apply numbered_map; [done|]; apply (numbered_drop dropped); unfold history.
    rewrite app_assoc, <- Hsplit; apply numbered_snoc; [done|congruence]. }
  assert (Hne : stored_revision <$> history <> [])
    by (unfold history; rewrite fmap_app; by destruct (stored_revision <$> kept_history _)).
  destruct (projection_write writes) as [cause|] eqn:Hpw; (split; [exact Hkept|]); [right; eauto|].
  exists old, latest; split_and!; try done.
  - by apply ReadSoulHistory_ledger.
  - unfold ReadSoulDocument.
    change (readSoulHistory now ?f false) with (ReadSoulHistory now f).
    rewrite (ReadSoulHistory_ledger _ _ (stored_revision <$> history)) by done; cbn [mbind result_mbind].
    unfold history, current_of; rewrite fmap_app.
    change (stored_revision <$> [revision]) with [stored_revision revision]; by rewrite last_snoc.
  - cbn; by rewrite Hdoc.
Qed.
End ledger.

(** A codec for examples: documents that start with a brace are souls without
    content, written as the empty soul. *)
Definition example_codec : SoulCodec := {|
  decode document := if HasPrefix document "{" then Ok (MkSoul 1 [] [] [] None None)
                     else Err (DocumentInvalid document);
  encode _ := Ok empty_soul;
  checked _ := Ok tt;
  stored document := TrimSpace document;
|}.

Lemma AppendSoulRevision_exact_witness :
  let r := @AppendSoulRevision ascii_tables example_codec 5 (MkWrites None None)
    (MkSoulFiles None None) 1 empty_soul "steadier" ["task-1"] "reflection" in
  is_ok (snd r) = true /\ ledger_kept (fst r).
Proof.
  split; [vm_compute; reflexivity|].
  apply (@AppendSoulRevision_exact ascii_tables example_codec 5 (MkWrites None None)
    (MkSoulFiles None None) 1 empty_soul "steadier" ["task-1"] "reflection"); exact I.
Defined.
