(* ===== verification/Reflection.v ===== *)
(** * Learning from finished work: evidence, the queue of experiences, and the
    review that may change a skill or the soul ([learning/coordinator.go],
    [learning/reviewer.go], [app/learning_runtime.go]). *)

From S2P Require Export LearningStore Persona.

(** ** Evidence of a finished task ([app/learning_runtime.go]) *)

Record learningText := MkText {
  Value : string;
  ByteLength : Z;
  SHA256 : string;
  Omitted : bool;
}.

(** The fields of a task event (a type of the protocol library) that are read. *)
Record TaskEvent := MkEvent {
  TaskEventID : string;
  Event_Name : string;
  Event_CreatedAt : instant;
  Body_of : string;
}.

Record learningEvidenceEvent := MkEvidence {
  EventID : string;
  Evidence_Name : string;
  Evidence_CreatedAt : instant;
  Evidence_ByteLength : Z;
  Evidence_SHA256 : string;
  Evidence_Body : string;
  BodyOmitted : bool;
}.

Definition maximumLearningEvents : Z := 64.
Definition maximumLearningBody : Z := 2048.
Definition maximumLearningBodyBudget : Z := 4096.

Definition string_length (s : string) : Z := Z.of_nat (String.length s).

(** [sum256] is [crypto/sha256], written in hexadecimal. *)
Definition learningTextOf (sum256 : string -> string) (value : string) (maximumBytes : Z)
  : learningText :=
  if maximumBytes <? string_length value then MkText "" (string_length value) (sum256 value) true
  else MkText value (string_length value) (sum256 value) false.

(** The body as the budget left lets it through. *)
Definition budgeted_body (sum256 : string -> string) (bodyBudget : Z) (event : TaskEvent)
  : learningText :=
  let body := learningTextOf sum256 (Body_of event) maximumLearningBody in
  if negb (Omitted body) && (bodyBudget <? string_length (Value body))
  then MkText "" (ByteLength body) (SHA256 body) true else body.

Definition evidence_of (event : TaskEvent) (body : learningText) : learningEvidenceEvent :=
  MkEvidence (TaskEventID event) (Event_Name event) (Event_CreatedAt event)
    (ByteLength body) (SHA256 body) (Value body) (Omitted body).

(** The loop: the evidence, and how many bodies were left out. *)
Fixpoint bounded_events (sum256 : string -> string) (bodyBudget : Z) (events : list TaskEvent)
  : list learningEvidenceEvent * Z :=
  match events with
  | [] => ([], 0)
  | event :: events' =>
    let body := budgeted_body sum256 bodyBudget event in
    let bodyBudget := if Omitted body then bodyBudget else bodyBudget - string_length (Value body) in
    let '(bounded, omitted) := bounded_events sum256 bodyBudget events' in
    (evidence_of event body :: bounded, (if Omitted body then 1 else 0) + omitted)
  end.

Definition learningEvidenceEvents (sum256 : string -> string) (events : list TaskEvent)
  : list learningEvidenceEvent * Z :=
  let count := Z.of_nat (length events) in
  let dropped := if maximumLearningEvents <? count then count - maximumLearningEvents else 0 in
  let '(bounded, omitted) :=
    bounded_events sum256 maximumLearningBodyBudget (drop (Z.to_nat dropped) events) in
  (bounded, dropped + omitted).

(** The bytes of the bodies kept. *)
Definition body_bytes (evidence : list learningEvidenceEvent) : Z :=
  foldr (fun e n => string_length (Evidence_Body e) + n) 0 evidence.

Lemma budgeted_body_spec sum256 bodyBudget event :
  let body := budgeted_body sum256 bodyBudget event in
  string_length (Value body) <= maximumLearningBody /\
  (Omitted body = true /\ Value body = "" \/
   Omitted body = false /\ Value body = Body_of event /\ string_length (Value body) <= bodyBudget).
Proof.
  unfold budgeted_body, learningTextOf; cbv zeta.
  destruct (maximumLearningBody <? string_length (Body_of event)) eqn:Hl; cbn [Omitted negb andb Value].
  - split; [done|by left].
  - destruct (bodyBudget <? string_length (Body_of event)) eqn:Hb; cbn [Value Omitted]; bool_to_prop;
      (split; [done|auto]).
Qed.

Lemma bounded_events_spec sum256 bodyBudget events bounded omitted :
  bounded_events sum256 bodyBudget events = (bounded, omitted) -> 0 <= bodyBudget ->
  map EventID bounded = map TaskEventID events /\ 0 <= omitted /\
  body_bytes bounded <= bodyBudget /\
  Forall (fun e => string_length (Evidence_Body e) <= maximumLearningBody) bounded /\
  (omitted = 0 -> map Evidence_Body bounded = map Body_of events).
Proof.
  revert bodyBudget bounded omitted; induction events as [|event events IH];
    intros bodyBudget bounded omitted Hb Hpos; [injection Hb as <- <-; by split_and!|].
  cbn [bounded_events] in Hb.
  destruct (budgeted_body_spec sum256 bodyBudget event) as [Hlen Hcase]; cbv zeta in *.
  set (body := budgeted_body sum256 bodyBudget event) in *.
  destruct (bounded_events _ _ events) as [rest missed] eqn:Hrest; injection Hb as <- <-.
  destruct Hcase as [[Ho Hv]|(Ho & Hv & Hfit)]; rewrite Ho in *;
    (apply IH in Hrest as (He & Hm & Hsum & Hall & Hexact);
     [|unfold string_length in *; lia]); cbn [map body_bytes foldr EventID Evidence_Body evidence_of];
    fold (body_bytes rest).
  - split_and!; [by rewrite He|lia|rewrite Hv; change (string_length "") with 0; lia|by constructor|lia].
  - split_and!; [by rewrite He|lia|lia|by constructor|intros; rewrite Hexact, Hv by lia; done].
Qed.

(** The evidence of a task is bounded and does not hide what it leaves out: it
    is of the task's last events, at most 64, in order, with bodies of at most
    2048 bytes each and 4096 in all; and where it counts nothing as left out, it
    has every event with its whole body. *)
Theorem learningEvidenceEvents_bounded sum256 events :
  let '(bounded, omitted) := learningEvidenceEvents sum256 events in
  (length bounded <= 64)%nat /\
  (exists dropped, map TaskEventID events = dropped ++ map EventID bounded) /\
  body_bytes bounded <= maximumLearningBodyBudget /\
  Forall (fun e => string_length (Evidence_Body e) <= maximumLearningBody) bounded /\
  (omitted = 0 -> map EventID bounded = map TaskEventID events /\
                  map Evidence_Body bounded = map Body_of events).
Proof.
  unfold learningEvidenceEvents; cbv zeta.
  set (dropped := if maximumLearningEvents <? Z.of_nat (length events)
    then Z.of_nat (length events) - maximumLearningEvents else 0).
  destruct (bounded_events _ _ _) as [bounded omitted] eqn:Hb.
  apply bounded_events_spec in Hb as (He & Hm & Hsum & Hall & Hexact); [|done].
  assert (Hd : 0 <= dropped /\ Z.of_nat (length events) - dropped <= maximumLearningEvents)
    by (unfold dropped; destruct (_ <? _) eqn:Hl; bool_to_prop; lia).
  unfold maximumLearningEvents in Hd; split_and!; [|eexists|done|done|].
  - apply (f_equal (@length _)) in He; rewrite !length_map, length_drop in He; lia.
  - rewrite He, <- (take_drop (Z.to_nat dropped) events) at 1; apply map_app.
  - intros H0; replace dropped with 0 in * by lia; rewrite drop_0 in *; split; [done|].
    apply Hexact; lia.
Qed.

(** ** Data of the review *)

Record Experience := MkExperience {
  TaskID : string;
  Experience_Audience : string;
  RecordedAt : instant;
  Request : string;
  Outcome : string;
  Tools : list string;
}.

(** [Decision]: what the reviewer proposes. *)
Record ReviewDecision := MkReviewDecision {
  decision_Action : string;
  decision_SkillID : string;
  decision_ExpectedVersion : Z;
  decision_ReplaceID : string;
  decision_ReplaceVersion : Z;
  decision_Description : string;
  decision_Instruction : string;
  decision_SoulDocument : string;
  decision_EvidenceIDs : list string;
  decision_Reason : string;
}.

Definition action_only (action reason : string) : ReviewDecision :=
  MkReviewDecision action "" 0 "" 0 "" "" "" [] reason.

Record reflectionState := MkState {
  Pending : list Experience;
  InFlight : list Experience;
  ReviewedIDs : list string;
  LastObserved : instant;
  LastReview : instant;
  ReviewDay : string;
  DailyReviews : Z;
}.

(** The coordinator, with what it shares: the store of skills (nil: [None]) and
    the files of the soul.  [saved] is what [reflection.json] holds. *)
Record Coordinator := MkCoordinator {
  coordinator_store : option Store;
  state : reflectionState;
  reviewing : bool;
  activeTasks : Z;
  files : SoulFiles;
  saved : option reflectionState;
}.

Inductive ReviewError :=
| ExperienceIncomplete
| EvidenceBudgetReached
| SaveFailed (cause : string)
| MarshalFailed (cause : string)
| CommitCancelled
| SoulChanged
| StoreRefused (e : StoreError)
| PersonaRefused (e : PersonaError)
| ModelFailed (cause : string)
| UnsupportedAction
| EvidenceMissing
| EvidenceUnavailable.

Definition with_state (st : reflectionState) (c : Coordinator) : Coordinator :=
  MkCoordinator (coordinator_store c) st (reviewing c) (activeTasks c) (files c) (saved c).
Definition with_reviewing (b : bool) (c : Coordinator) : Coordinator :=
  MkCoordinator (coordinator_store c) (state c) b (activeTasks c) (files c) (saved c).
Definition with_activeTasks (n : Z) (c : Coordinator) : Coordinator :=
  MkCoordinator (coordinator_store c) (state c) (reviewing c) n (files c) (saved c).
Definition with_store (s : option Store) (c : Coordinator) : Coordinator :=
  MkCoordinator s (state c) (reviewing c) (activeTasks c) (files c) (saved c).
Definition with_files (f : SoulFiles) (c : Coordinator) : Coordinator :=
  MkCoordinator (coordinator_store c) (state c) (reviewing c) (activeTasks c) f (saved c).

Definition set_queues (pending inFlight : list Experience) (st : reflectionState)
  : reflectionState :=
  MkState pending inFlight (ReviewedIDs st) (LastObserved st) (LastReview st) (ReviewDay st)
    (DailyReviews st).
Definition set_LastObserved (t : instant) (st : reflectionState) : reflectionState :=
  MkState (Pending st) (InFlight st) (ReviewedIDs st) t (LastReview st) (ReviewDay st)
    (DailyReviews st).
Definition set_ReviewedIDs (ids : list string) (st : reflectionState) : reflectionState :=
  MkState (Pending st) (InFlight st) ids (LastObserved st) (LastReview st) (ReviewDay st)
    (DailyReviews st).
Definition set_review (t : instant) (day : string) (n : Z) (st : reflectionState)
  : reflectionState :=
  MkState (Pending st) (InFlight st) (ReviewedIDs st) (LastObserved st) t day n.

(** ** The queue of experiences *)

(** [saveState]: [write] is how the write goes, [None] or what went wrong; the
    state changes only when it is written. *)
Definition saveState (write : option string) (st : reflectionState) (c : Coordinator)
  : Coordinator * option ReviewError :=
  match write with
  | Some cause => (c, Some (SaveFailed cause))
  | None =>
    (MkCoordinator (coordinator_store c) st (reviewing c) (activeTasks c) (files c) (Some st), None)
  end.

Definition enabled_of (c : Coordinator) : bool :=
  match coordinator_store c with Some s => enabled s | None => false end.

Definition IsEnabled (c : Coordinator) : bool := enabled_of c.

Definition BeginTask (c : Coordinator) : Coordinator := with_activeTasks (activeTasks c + 1) c.

(** The function [BeginTask] returns.  The new [LastObserved] is not written. *)
Definition EndTask (now : instant) (c : Coordinator) : Coordinator :=
  with_state (set_LastObserved now (state c)) (with_activeTasks (activeTasks c - 1) c).

Definition empty_state : reflectionState := MkState [] [] [] zero_time zero_time "" 0.

(** [document]: what [reflection.json] holds, decoded ([None]: no file). *)
Definition NewCoordinator (write : option string) (store : option Store) (f : SoulFiles)
  (document : option reflectionState) : result ReviewError Coordinator :=
  match document with
  | None => Ok (MkCoordinator store empty_state false 0 f document)
  | Some st =>
    let c := MkCoordinator store st false 0 f document in
    match InFlight st with
    | [] => Ok c
    | inFlight =>
      let '(c, failure) := saveState write (set_queues (inFlight ++ Pending st) [] st) c in
      match failure with Some e => Err e | None => Ok c end
    end
  end.

(** [valid] is [json.Valid]. *)
Definition Observe (valid : string -> bool) (now : instant) (write : option string)
  (experience : Experience) (c : Coordinator) : Coordinator * option ReviewError :=
  let st := state c in
  if bool_decide (TaskID experience = "") || bool_decide (Experience_Audience experience = "")
    || negb (valid (Outcome experience)) then (c, Some ExperienceIncomplete)
  else if bool_decide (TaskID experience ∈ ReviewedIDs st) then (c, None)
  else if bool_decide (TaskID experience ∈ TaskID <$> Pending st) then (c, None)
  else if (100 <=? Z.of_nat (length (Pending st)))
    || (32768 <? string_length (Request experience) + string_length (Outcome experience))
    then (c, Some EvidenceBudgetReached)
  else saveState write
    (set_LastObserved now (set_queues (Pending st ++ [experience]) (InFlight st) st)) c.

Definition maxReviewEvidenceBytes : Z := 48 * 1024.

(** [now.UTC().Format("2006-01-02")], for the years 0 to 9999. *)
Definition day_of_review (now : instant) : string :=
  let '(y, m, d) := date_of UTC now in
  of_bytes (pad4 y ++ "-"%char :: pad2 m ++ "-"%char :: pad2 d)%list.

(** The loop over the pending experiences: the batch and its bytes so far, the
    rest so far.  [size] is the length of an experience written as JSON. *)
Fixpoint pick_batch (size : Experience -> result string Z) (audience : string)
  (batch remaining : list Experience) (evidenceBytes : Z) (pending : list Experience)
  : result ReviewError (list Experience * list Experience) :=
  match pending with
  | [] => Ok (batch, remaining)
  | experience :: pending' =>
    match size experience with
    | Err cause => Err (MarshalFailed cause)
    | Ok n =>
      if bool_decide (Experience_Audience experience = audience)
        && (Z.of_nat (length batch) <? 20) && (evidenceBytes + n <=? maxReviewEvidenceBytes)
      then pick_batch size audience (batch ++ [experience]) remaining (evidenceBytes + n) pending'
      else pick_batch size audience batch (remaining ++ [experience]) evidenceBytes pending'
    end
  end.

(** Whether the clock, the queue and the tasks let a review start. *)
Definition review_may_start (now : instant) (c : Coordinator) : bool :=
  enabled_of c && bool_decide (InFlight (state c) = [])
  && negb ((0 <? activeTasks c) || reviewing c || bool_decide (Pending (state c) = []))
  && negb ((Sub now (LastObserved (state c)) <? 5 * Minute)
           || (Sub now (LastReview (state c)) <? Hour)).

Definition claimBatch (size : Experience -> result string Z) (now : instant)
  (write : option string) (c : Coordinator)
  : Coordinator * result ReviewError (list Experience) :=
  if negb (review_may_start now c) then (c, Ok [])
  else
    let st := state c in
    let day := day_of_review now in
    let daily := if bool_decide (ReviewDay st = day) then DailyReviews st else 0 in
    if 3 <=? daily then (c, Ok [])
    else match Pending st with
    | [] => (c, Ok [])
    | first :: _ =>
      match pick_batch size (Experience_Audience first) [] [] 0 (Pending st) with
      | Err e => (c, Err e)
      | Ok ([], _) => (c, Ok [])
      | Ok (batch, remaining) =>
        let st := set_review now day (daily + 1) (set_queues remaining batch st) in
        match saveState write st c with
        | (c, Some e) => (c, Err e)
        | (c, None) => (with_reviewing true c, Ok batch)
        end
      end
    end.

Definition requeueBatch (write : option string) (batch : list Experience) (c : Coordinator)
  : Coordinator * option ReviewError :=
  saveState write (set_queues (batch ++ Pending (state c)) [] (state c)) c.

Definition kept_IDs (ids : list string) : list string :=
  if 2000 <? Z.of_nat (length ids) then drop (Z.to_nat (Z.of_nat (length ids) - 2000)) ids else ids.

Definition completeBatch (write : option string) (batch : list Experience) (c : Coordinator)
  : Coordinator * option ReviewError :=
  saveState write (set_ReviewedIDs (kept_IDs (ReviewedIDs (state c) ++ (TaskID <$> batch)))
    (set_queues (Pending (state c)) [] (state c))) c.

(** ** The reviewer *)

Record ReviewInput := MkInput {
  Input_Experience : list Experience;
  Input_Skills : list Skill;
  Input_Soul : string;
  AvailableTools : list string;
  Input_ActiveLimit : Z;
}.

Definition validateDecisionEvidence (decision : ReviewDecision) (experiences : list Experience)
  : result ReviewError unit :=
  let action := decision_Action decision in
  if bool_decide (action = "keep") then Ok tt
  else if negb (bool_decide (action ∈ ["create"; "revise"; "replace"; "retire"; "soul"]))
    then Err UnsupportedAction
  else if bool_decide (decision_EvidenceIDs decision = [])
    || (20 <? Z.of_nat (length (decision_EvidenceIDs decision)))
    || bool_decide (decision_Reason decision = "") then Err EvidenceMissing
  else
    let known : gset string := list_to_set (TaskID <$> experiences) in
    refuse_if (existsb (fun id => negb (bool_decide (id ∈ known))) (decision_EvidenceIDs decision))
      EvidenceUnavailable.

(** The model, and the decoding of what it answers: it proposes a decision on an
    input, and assesses a proposal ([supported], [reason]). *)
Class ReviewModel := {
  has_model : bool;
  propose : ReviewInput -> result ReviewError ReviewDecision;
  assessment : ReviewInput -> ReviewDecision -> result ReviewError (bool * string);
}.

Definition assess `{ReviewModel} (input : ReviewInput) (decision : ReviewDecision)
  : result ReviewError ReviewDecision :=
  '(supported, reason) ← assessment input decision;
  if supported : bool then Ok decision else Ok (action_only "keep" reason).

(** Traces of the exchange are left out. *)
Definition Review `{ReviewModel} (input : ReviewInput) : result ReviewError ReviewDecision :=
  if negb has_model || bool_decide (Input_Experience input = []) then Ok (action_only "keep" "")
  else
    decision ← propose input;
    validateDecisionEvidence decision (Input_Experience input);;
    if bool_decide (decision_Action decision = "keep") then Ok decision
    else assess input decision.

(** ** Committing a decision *)

(** What the world does during a commit: how the writes of the skills, of the
    soul's files, go, and the readings of the clock. *)
Record commit_world := MkWorld {
  world_clock : clock;
  persist_skills : gmap string (list Skill) -> option string;
  soul_writes : SoulWrites;
}.

Section commit.
Context `{UnicodeTables} `{SoulCodec}.

Definition lift_persona {A} (r : result PersonaError A) : result ReviewError A :=
  match r with Ok a => Ok a | Err e => Err (PersonaRefused e) end.

(** What [applySoulLocked] checks before it appends: the canonical document and
    the version it follows. *)
Definition soul_revision_to_append (now : instant) (f : SoulFiles) (decision : ReviewDecision)
  (expected : string) : result ReviewError (string * Z) :=
  document ← lift_persona (ParseSoul (decision_SoulDocument decision));
  canonical ← lift_persona (CanonicalSoul document);
  history ← lift_persona (ReadSoulHistory now f);
  current ← lift_persona (current_of history);
  refuse_if (negb (bool_decide (Document current = expected))) SoulChanged;;
  Ok (canonical, Revision_Version current).

Definition applySoulLocked (w : commit_world) (f : SoulFiles) (decision : ReviewDecision)
  (expected : string) : SoulFiles * option ReviewError :=
  match soul_revision_to_append (fst (world_clock w)) f decision expected with
  | Err e => (f, Some e)
  | Ok (canonical, version) =>
    let '(f, r) := AppendSoulRevision (fst (world_clock w)) (soul_writes w) f version canonical
      (decision_Reason decision) (decision_EvidenceIDs decision) "reflection" in
    match r with Ok _ => (f, None) | Err e => (f, Some (PersonaRefused e)) end
  end.

(** The decision as the store takes it; the audience is that of the batch. *)
Definition store_decision (decision : ReviewDecision) (audience : string) : StoreDecision :=
  {| Action := decision_Action decision;
     Decision_Skill :=
       {| ID := decision_SkillID decision; Version := decision_ExpectedVersion decision;
          Audience := audience; Description := decision_Description decision;
          Skill_Instruction := decision_Instruction decision;
          EvidenceIDs := decision_EvidenceIDs decision; Reason := decision_Reason decision;
          Verification := "evidence-reviewed"; Status := "active"; Protected := false;
          CreatedAt := zero_time; UpdatedAt := zero_time; RetiredAt := zero_time |};
     Decision_ID := decision_SkillID decision;
     ReplaceID := decision_ReplaceID decision;
     ExpectedVersion :=
       if bool_decide (decision_Action decision = "replace") then decision_ReplaceVersion decision
       else decision_ExpectedVersion decision |}.

(** [s]: the store, which the caller knows is there. *)
Definition applyDecisionLocked (w : commit_world) (s : Store) (decision : ReviewDecision)
  (input : ReviewInput) (c : Coordinator) : Coordinator * option ReviewError :=
  if bool_decide (decision_Action decision = "keep") then (c, None)
  else if bool_decide (decision_Action decision = "soul") then
    let '(f, failure) := applySoulLocked w (files c) decision (Input_Soul input) in
    (with_files f c, failure)
  else
    let audience := default "" (head (Experience_Audience <$> Input_Experience input)) in
    let '(s, r) := ApplyDecision (persist_skills w) (world_clock w) s
      (store_decision decision audience) in
    (with_store (Some s) c, match r with Ok _ => None | Err e => Some (StoreRefused e) end).

(** The locked part of [ReviewPending] after the review. *)
Definition commit_decision (w : commit_world) (decision : ReviewDecision) (input : ReviewInput)
  (c : Coordinator) : Coordinator * option ReviewError :=
  match coordinator_store c with
  | Some s =>
    if negb (enabled s) || (0 <? activeTasks c) then (c, Some CommitCancelled)
    else applyDecisionLocked w s decision input c
  | None => (c, Some CommitCancelled)
  end.

(** ** A review, in the steps other work can fall between

    [ReviewPending] holds the coordinator's lock while it claims a batch, while it
    commits, and while it puts the batch back or closes it; it does not while the
    model thinks and while it writes its record. *)

(** Where the review is: none runs; a batch is claimed and its input read, with
    the review still to come; the batch is to be put back, and then to be recorded
    or not, an error to return; the record is to be written, the batch having been
    reviewed with success or not. *)
Inductive phase :=
| Idle
| Claimed (batch : list Experience)
| Reviewing (batch : list Experience) (input : ReviewInput)
| PuttingBack (batch : list Experience) (recorded : bool)
| Recording (batch : list Experience) (succeeded : bool)
| Completing (batch : list Experience).

Definition system : Type := Coordinator * phase.

(** The soul the review starts from: the document, or the empty soul where there
    is none; it must parse. *)
Definition soul_of_review (now : instant) (f : SoulFiles) : result ReviewError string :=
  soul ← match ReadSoulDocument now f with
    | Ok document => Ok document
    | Err NotExist => Ok empty_soul
    | Err e => Err (PersonaRefused e)
    end;
  _ ← lift_persona (ParseSoul soul);
  Ok soul.

Inductive step (valid : string -> bool) (size : Experience -> result string Z) `{ReviewModel}
  : system -> system -> Prop :=
(** other work *)
| step_observe c p now write experience :
  step valid size (c, p) (fst (Observe valid now write experience c), p)
| step_begin c p : step valid size (c, p) (BeginTask c, p)
| step_end c p now : step valid size (c, p) (EndTask now c, p)
| step_store c p s : step valid size (c, p) (with_store s c, p)
| step_soul c p f : step valid size (c, p) (with_files f c, p)
| step_restart c p write store c' :
  NewCoordinator write store (files c) (saved c) = Ok c' ->
  step valid size (c, p) (c', Idle)
(** the review *)
| step_claim c now write c' batch :
  claimBatch size now write c = (c', Ok batch) -> batch <> [] ->
  step valid size (c, Idle) (c', Claimed batch)
| step_prepare c batch now soul skills tools limit :
  soul_of_review now (files c) = Ok soul ->
  step valid size (c, Claimed batch)
    (c, Reviewing batch (MkInput batch skills soul (tools ++ (batch ≫= Tools)) limit))
| step_not_prepared c batch now e :
  soul_of_review now (files c) = Err e ->
  step valid size (c, Claimed batch) (c, PuttingBack batch false)
| step_review_failed c batch input e :
  Review input = Err e ->
  step valid size (c, Reviewing batch input) (c, PuttingBack batch true)
| step_commit c batch input w decision c' :
  Review input = Ok decision -> commit_decision w decision input c = (c', None) ->
  step valid size (c, Reviewing batch input) (c', Recording batch true)
| step_commit_failed c batch input w decision c' e :
  Review input = Ok decision -> commit_decision w decision input c = (c', Some e) ->
  step valid size (c, Reviewing batch input) (c', PuttingBack batch true)
| step_put_back c batch recorded write :
  step valid size (c, PuttingBack batch recorded)
    (let c' := fst (requeueBatch write batch c) in
     if recorded : bool then (c', Recording batch false) else (with_reviewing false c', Idle))
| step_recorded c batch succeeded :
  step valid size (c, Recording batch succeeded)
    (if succeeded : bool then (c, Completing batch) else (with_reviewing false c, Idle))
| step_not_recorded c batch succeeded :
  step valid size (c, Recording batch succeeded) (with_reviewing false c, Idle)
| step_complete c batch write :
  step valid size (c, Completing batch)
    (with_reviewing false (fst (completeBatch write batch c)), Idle).
End commit.

(** ** The batch *)

Lemma pick_batch_spec size audience pending batch remaining n batch' remaining' :
  pick_batch size audience batch remaining n pending = Ok (batch', remaining') ->
  Forall (fun e => Experience_Audience e = audience) batch -> (length batch <= 20)%nat ->
  Forall (fun e => Experience_Audience e = audience) batch' /\ (length batch' <= 20)%nat /\
  batch' ++ remaining' ≡ₚ (batch ++ remaining) ++ pending.
Proof.
  revert batch remaining n; induction pending as [|e pending IH]; intros batch remaining n H Hb Hl.
  - injection H as <- <-; by rewrite app_nil_r.
  - cbn [pick_batch] in H; destruct (size e) as [k|]; [|done].
    destruct (_ && _) eqn:Htest.
    + bool_to_prop; apply IH in H as (Ha & Hl' & Hperm); [split_and!; [done..|]| |].
      * rewrite Hperm, <- !app_assoc; apply Permutation_app_head.
        by rewrite (Permutation_app_comm [e]), <- app_assoc, (Permutation_app_comm pending).
      * apply Forall_app; by repeat constructor.
      * rewrite length_app; cbn; lia.
    + apply IH in H as (Ha & Hl' & Hperm); [|done..]; split_and!; [done..|].
      rewrite Hperm; by rewrite <- !app_assoc.
Qed.

(** How many bytes a batch is. *)
Fixpoint batch_bytes (size : Experience -> result string Z) (batch : list Experience) : Z :=
  match batch with
  | [] => 0
  | e :: batch' => match size e with Ok n => n | Err _ => 0 end + batch_bytes size batch'
  end.

Lemma batch_bytes_snoc size batch e n :
  size e = Ok n -> batch_bytes size (batch ++ [e]) = batch_bytes size batch + n.
Proof. intros He; induction batch as [|a batch IH]; cbn; [rewrite He; lia|]; rewrite IH; lia. Qed.

Lemma pick_batch_bytes size audience pending batch remaining batch' remaining' :
  pick_batch size audience batch remaining (batch_bytes size batch) pending = Ok (batch', remaining') ->
  batch_bytes size batch <= maxReviewEvidenceBytes ->
  batch_bytes size batch' <= maxReviewEvidenceBytes.
Proof.
  revert batch remaining; induction pending as [|e pending IH]; intros batch remaining H Hb.
  - by injection H as <- <-.
  - cbn [pick_batch] in H; destruct (size e) as [k|] eqn:Hk; [|done].
    destruct (_ && _) eqn:Htest; [|by eapply IH].
    rewrite <- (batch_bytes_snoc _ _ _ _ Hk) in H; apply IH in H; [done|].
    rewrite (batch_bytes_snoc _ _ _ _ Hk); bool_to_prop; lia.
Qed.

(** What a claim that takes something has done. *)
Record claims size (now : instant) (c c' : Coordinator) (batch remaining : list Experience) : Prop := {
  claims_some : batch <> [];
  claims_may : review_may_start now c = true;
  claims_audience : exists audience, Forall (fun e => Experience_Audience e = audience) batch;
  claims_length : (length batch <= 20)%nat;
  claims_bytes : batch_bytes size batch <= maxReviewEvidenceBytes;
  claims_pending : batch ++ remaining ≡ₚ Pending (state c);
  claims_state : state c' = set_review now (day_of_review now) (DailyReviews (state c'))
    (set_queues remaining batch (state c));
  claims_daily : DailyReviews (state c') =
    (if bool_decide (ReviewDay (state c) = day_of_review now) then DailyReviews (state c) else 0) + 1;
  claims_daily_limit : DailyReviews (state c') <= 3;
  claims_saved : saved c' = Some (state c');
  claims_reviewing : reviewing c' = true;
}.

Lemma claimBatch_cases size now write c c' r :
  claimBatch size now write c = (c', r) ->
  (c' = c /\ forall batch, r = Ok batch -> batch = []) \/
  exists batch remaining, r = Ok batch /\ write = None /\ claims size now c c' batch remaining.
Proof.
  intros H; unfold claimBatch in H.
  destruct (review_may_start now c) eqn:Hmay; [|injection H as <- <-; left; split; [done|congruence]].
  cbn [negb] in H; set (daily := if bool_decide _ then _ else _) in *.
  destruct (3 <=? daily) eqn:Hdaily; [injection H as <- <-; left; split; [done|congruence]|].
  destruct (Pending (state c)) as [|first pending] eqn:Hp;
    [injection H as <- <-; left; split; [done|congruence]|].
  destruct (pick_batch size (Experience_Audience first) [] [] 0 (first :: pending))
    as [[[|e batch] remaining]|err] eqn:Hpick; [injection H as <- <-; left; split; [done|congruence]| |
    injection H as <- <-; by left].
  unfold saveState in H; destruct write as [cause|]; [injection H as <- <-; by left|].
  injection H as <- <-; right; exists (e :: batch), remaining.
  pose proof (pick_batch_bytes size _ _ [] [] _ _ Hpick) as Hbytes.
  apply pick_batch_spec in Hpick as (Haud & Hlen & Hperm); [|constructor|cbn; lia].
  split_and!; [done..|]; bool_to_prop; split; try done; try (cbn; lia); try (by eexists).
  - by apply Hbytes.
  - by rewrite Hp.
Qed.

(** A review starts only when learning is enabled, no task runs, nothing was
    observed for five minutes and no review started for an hour, and at most
    three times a day; it takes pending experiences of one audience, at most
    twenty and at most 48 KiB of them, leaves the others pending, and claims them
    on disk.  Otherwise nothing changes. *)
Theorem claimBatch_exact size now write c c' r :
  claimBatch size now write c = (c', r) ->
  (c' = c /\ forall batch, r = Ok batch -> batch = []) \/
  exists batch remaining,
    r = Ok batch /\ batch <> [] /\ write = None /\
    (enabled_of c = true /\ activeTasks c <= 0 /\ reviewing c = false /\ InFlight (state c) = [] /\
     5 * Minute <= Sub now (LastObserved (state c)) /\ Hour <= Sub now (LastReview (state c))) /\
    (exists audience, Forall (fun e => Experience_Audience e = audience) batch) /\
    (length batch <= 20)%nat /\ batch_bytes size batch <= maxReviewEvidenceBytes /\
    batch ++ remaining ≡ₚ Pending (state c) /\
    state c' = set_review now (day_of_review now) (DailyReviews (state c'))
      (set_queues remaining batch (state c)) /\
    DailyReviews (state c') <= 3 /\
    DailyReviews (state c') =
      (if bool_decide (ReviewDay (state c) = day_of_review now) then DailyReviews (state c) else 0) + 1 /\
    saved c' = Some (state c') /\ reviewing c' = true.
Proof.
  intros H; destruct (claimBatch_cases _ _ _ _ _ _ H) as [?|(batch & remaining & -> & -> & Hc)];
    [by left|right].
  exists batch, remaining; destruct Hc as [? Hmay ? ? ? ? ? ? ? ? ?].
  unfold review_may_start in Hmay; bool_to_prop; split_and!; done.
Qed.

(** ** Nothing observed is lost *)

(** The batch a review holds until it is closed or put back. *)
Definition held (p : phase) : option (list Experience) :=
  match p with
  | Idle | Recording _ false => None
  | Claimed batch | Reviewing batch _ | PuttingBack batch _ | Recording batch true
  | Completing batch => Some batch
  end.

(** The disk holds the queues of the state, or nothing when there are none. *)
Definition saved_queues (c : Coordinator) : Prop :=
  match saved c with
  | Some st =>
    Pending st = Pending (state c) /\ InFlight st = InFlight (state c) /\
    ReviewedIDs st = ReviewedIDs (state c)
  | None => Pending (state c) = [] /\ InFlight (state c) = [] /\ ReviewedIDs (state c) = []
  end.

Record sound (s : system) : Prop := {
  sound_held batch : held s.2 = Some batch -> InFlight (state s.1) = batch /\ (length batch <= 20)%nat;
  sound_saved : saved_queues s.1;
}.

Definition queued (s : system) : list Experience := Pending (state s.1) ++ InFlight (state s.1).

(** [e] is still to be reviewed, or has just been. *)
Definition accounted (s s' : system) (e : Experience) : Prop :=
  e ∈ queued s' \/ TaskID e ∈ ReviewedIDs (state s'.1).

Lemma kept_IDs_app ids new :
  (length new <= 2000)%nat -> forall id, id ∈ new -> id ∈ kept_IDs (ids ++ new).
Proof.
  intros Hl id Hid; unfold kept_IDs; destruct (_ <? _) eqn:Hlong;
    [|apply elem_of_app; by right].
  rewrite length_app in *; bool_to_prop.
  rewrite drop_app_le by lia; apply elem_of_app; by right.
Qed.

Section accounting.
Context `{UnicodeTables} `{SoulCodec} `{ReviewModel}.
Context (valid : string -> bool) (size : Experience -> result string Z).

(** A step that keeps the queues and the disk, and holds no new batch. *)
Lemma same_queues_sound (c c' : Coordinator) p p' :
  sound (c, p) -> state c' = state c -> saved c' = saved c ->
  (forall batch, held p' = Some batch -> held p = Some batch) ->
  sound (c', p') /\ forall e, e ∈ queued (c, p) -> accounted (c, p) (c', p') e.
Proof.
  intros [Hh Hs] Hst Hsv Hp; unfold accounted, queued; cbn [fst snd] in *; rewrite Hst; split; [|by left].
  split; cbn [fst snd]; [|unfold saved_queues in *; by rewrite Hsv, Hst].
  intros batch Hb; rewrite Hst; apply Hh; auto.
Qed.

(** A write of the state: it happens, or nothing does. *)
Lemma saveState_cases write st c :
  fst (saveState write st c) = c \/
  (state (fst (saveState write st c)) = st /\ saved (fst (saveState write st c)) = Some st).
Proof. unfold saveState; destruct write; cbn; auto. Qed.

Lemma commit_decision_state w decision input c :
  state (fst (commit_decision w decision input c)) = state c /\
  saved (fst (commit_decision w decision input c)) = saved c.
Proof.
  unfold commit_decision, applyDecisionLocked.
  destruct (coordinator_store c) as [s|]; [|done].
  repeat (split_match; try done).
Qed.

Lemma observe_sound now write e0 c p :
  sound (c, p) ->
  let c' := fst (Observe valid now write e0 c) in
  sound (c', p) /\ forall e, e ∈ queued (c, p) -> accounted (c, p) (c', p) e.
Proof.
  intros Hs c'; assert (Hcases : c' = c \/
    state c' = set_LastObserved now (set_queues (Pending (state c) ++ [e0]) (InFlight (state c)) (state c))
    /\ saved c' = Some (state c')).
  { unfold c', Observe; repeat (split_match; [by left|]).
    destruct (saveState_cases write (set_LastObserved now (set_queues (Pending (state c) ++ [e0])
      (InFlight (state c)) (state c))) c) as [->|[H3 H4]]; [by left|right; by rewrite H3, H4]. }
  destruct Hcases as [->|[Hst Hsv]]; [by apply same_queues_sound|].
  destruct Hs as [Hh _]; cbn [fst snd] in *; split.
  - split; cbn [fst snd]; [by rewrite Hst|unfold saved_queues; by rewrite Hsv].
  - intros e He; left; unfold queued in *; cbn [fst] in *; rewrite Hst; cbn.
    rewrite !elem_of_app in *; tauto.
Qed.

Lemma restart_sound write store c p c' :
  sound (c, p) -> NewCoordinator write store (files c) (saved c) = Ok c' ->
  sound (c', Idle) /\ forall e, e ∈ queued (c, p) -> accounted (c, p) (c', Idle) e.
Proof.
  intros [_ Hs] Hn; cbn [fst snd] in *; unfold saved_queues in Hs; unfold NewCoordinator in Hn.
  destruct (saved c) as [st|].
  - destruct Hs as (Hp & Hi & Hr); destruct (InFlight st) as [|e0 fl] eqn:Hfl.
    + injection Hn as <-; split.
      * split; [done|]; unfold saved_queues; cbn; auto.
      * intros e He; left; unfold queued in *; cbn [fst state] in *; by rewrite Hp, Hfl, Hi.
    + unfold saveState in Hn; destruct write; [done|]; injection Hn as <-; split.
      * split; [done|]; unfold saved_queues; cbn; auto.
      * intros e He; left; unfold queued in *; cbn [fst state set_queues Pending InFlight] in *.
        rewrite app_nil_r, app_comm_cons, Hi, Hp; rewrite !elem_of_app in *; tauto.
  - destruct Hs as (Hp & Hi & Hr); injection Hn as <-; split; [by split|].
    intros e He; unfold queued in He; cbn [fst] in He; rewrite Hp, Hi in He; by apply elem_of_nil in He.
Qed.

Lemma claim_sound now write c c' batch :
  sound (c, Idle) -> claimBatch size now write c = (c', Ok batch) -> batch <> [] ->
  sound (c', Claimed batch) /\
  forall e, e ∈ queued (c, Idle) -> accounted (c, Idle) (c', Claimed batch) e.
Proof.
  intros _ Hc Hne; apply claimBatch_cases in Hc
    as [[_ Hnil]|(b & remaining & [= <-] & _ & Hc)]; [by destruct (Hne (Hnil _ eq_refl))|].
  destruct Hc as [_ Hmay _ Hlen _ Hperm Hst _ _ Hsv _]; split; [split; cbn [fst snd]|].
  - intros b [= <-]; by rewrite Hst.
  - unfold saved_queues; by rewrite Hsv.
  - intros e He; left; unfold queued in *; cbn [fst] in *; rewrite Hst; cbn.
    unfold review_may_start in Hmay; bool_to_prop.
    match goal with Hi : InFlight (state c) = [] |- _ => rewrite Hi, app_nil_r, <- Hperm in He end.
    rewrite !elem_of_app in *; tauto.
Qed.

Lemma put_back_sound write batch recorded c :
  sound (c, PuttingBack batch recorded) ->
  let c' := fst (requeueBatch write batch c) in
  let s' := if recorded : bool then (c', Recording batch false) else (with_reviewing false c', Idle) in
  sound s' /\ forall e, e ∈ queued (c, PuttingBack batch recorded) ->
    accounted (c, PuttingBack batch recorded) s' e.
Proof.
  intros Hs; cbn zeta; unfold requeueBatch.
  destruct (saveState_cases write (set_queues (batch ++ Pending (state c)) [] (state c)) c)
    as [->|[Hst Hsv]]; [destruct recorded; by apply same_queues_sound|].
  destruct Hs as [Hh _]; destruct (Hh batch eq_refl) as [Hfl _]; cbn [fst snd] in *.
  set (c' := fst (saveState _ _ _)) in *.
  assert (Hq : forall p', queued (c', p') = (batch ++ Pending (state c)) ++ [])
    by (intros; unfold queued; cbn [fst]; by rewrite Hst).
  destruct recorded; (split; [split; [done|]|]);
    try (unfold saved_queues; cbn; rewrite Hsv, Hst; done);
    intros e He; left; unfold queued in *; cbn [fst] in *; cbn; rewrite Hst, Hfl in *; cbn;
    rewrite !elem_of_app in *; tauto.
Qed.

Lemma complete_sound write batch c :
  sound (c, Completing batch) ->
  let s' := (with_reviewing false (fst (completeBatch write batch c)), Idle) in
  sound s' /\ forall e, e ∈ queued (c, Completing batch) -> accounted (c, Completing batch) s' e.
Proof.
  intros Hs; cbn zeta; unfold completeBatch.
  set (st := set_ReviewedIDs _ _).
  destruct (saveState_cases write st c) as [->|[Hst Hsv]]; [by apply same_queues_sound|].
  destruct Hs as [Hh _]; destruct (Hh batch eq_refl) as [Hfl Hlen]; cbn [fst snd] in *; split.
  - split; [done|]; unfold saved_queues; cbn; by rewrite Hsv, Hst.
  - intros e He; unfold accounted, queued in *; cbn [fst] in *; cbn [with_reviewing state].
    rewrite Hst; unfold st; cbn; rewrite app_nil_r, Hfl in *.
    apply elem_of_app in He as [He|He]; [by left|right].
    apply kept_IDs_app; [rewrite length_fmap; lia|by apply list_elem_of_fmap_2].
Qed.

Lemma step_sound s s' :
  step valid size s s' -> sound s ->
  sound s' /\ forall e, e ∈ queued s -> accounted s s' e.
Proof.
  intros Hstep Hs; destruct Hstep.
  - by apply observe_sound.
  - by apply same_queues_sound.
  - destruct Hs as [Hh Hs]; split; [by split|by left].
  - by apply same_queues_sound.
  - by apply same_queues_sound.
  - by eapply restart_sound.
  - by eapply claim_sound.
  - by apply same_queues_sound with (p := Claimed batch) (c := c).
  - by apply same_queues_sound with (p := Claimed batch) (c := c).
  - by apply same_queues_sound with (p := Reviewing batch input) (c := c).
  - destruct (commit_decision_state w decision input c) as [Hst Hsv].
    match goal with Hc : commit_decision _ _ _ _ = _ |- _ => rewrite Hc in Hst, Hsv end.
    by apply same_queues_sound with (p := Reviewing batch input) (c := c).
  - destruct (commit_decision_state w decision input c) as [Hst Hsv].
    match goal with Hc : commit_decision _ _ _ _ = _ |- _ => rewrite Hc in Hst, Hsv end.
    by apply same_queues_sound with (p := Reviewing batch input) (c := c).
  - by apply put_back_sound.
  - destruct succeeded.
    + by apply same_queues_sound with (p := Recording batch true) (c := c).
    + by apply same_queues_sound with (p := Recording batch false) (c := c).
  - by apply same_queues_sound with (p := Recording batch succeeded) (c := c).
  - by apply complete_sound.
Qed.

(** No experience is lost: from a state in which the disk holds the queues (a
    fresh start is one), through any interleaving of tasks, settings, failed writes, crashes and restarts with the steps of a
    review, an experience that is queued stays queued - pending, or claimed by a
    review - until a review of it is completed, when its task is listed as
    reviewed. *)
Theorem experiences_are_kept s1 s2 e :
  sound s1 ->
  rtc (step valid size) s1 s2 -> e ∈ queued s1 ->
  e ∈ queued s2 \/
  exists s, rtc (step valid size) s1 s /\ rtc (step valid size) s s2 /\
    TaskID e ∈ ReviewedIDs (state s.1).
Proof.
  intros Hsound Hrun; induction Hrun as [s|s s' s2 Hstep Hrun IH]; intros He; [by left|].
  destruct (step_sound _ _ Hstep Hsound) as [Hsound' Hacc].
  destruct (Hacc _ He) as [Hq|Hr].
  - destruct (IH Hsound' Hq) as [?|(s0 & H1' & H2' & H3')]; [by left|right].
    exists s0; split_and!; [by eapply rtc_l|done..].
  - right; exists s'; split_and!; [by apply rtc_once|done..].
Qed.
End accounting.

(** ** What a review may change *)

Section reviews.
Context `{UnicodeTables} `{SoulCodec} `{ReviewModel}.

(** A decision [validateDecisionEvidence] lets through. *)
Lemma validateDecisionEvidence_Ok decision experiences u :
  validateDecisionEvidence decision experiences = Ok u ->
  decision_Action decision = "keep" \/
  decision_Action decision ∈ ["create"; "revise"; "replace"; "retire"; "soul"] /\
  decision_EvidenceIDs decision <> [] /\
  forall id, id ∈ decision_EvidenceIDs decision -> id ∈ TaskID <$> experiences.
Proof.
  unfold validateDecisionEvidence; intros Hv.
  destruct (bool_decide (decision_Action decision = "keep")) eqn:Hkeep; bool_to_prop; [by left|right].
  destruct (negb _) eqn:Hin; [done|]; destruct (_ || _) eqn:Hev; [done|]; bool_to_prop.
  apply refuse_if_Ok in Hv; split_and!; [done..|]; intros id Hid.
  destruct (decide (id ∈ TaskID <$> experiences)) as [|Hn]; [done|exfalso].
  apply not_true_iff_false in Hv; apply Hv, existsb_elem_of; exists id; split; [done|].
  apply negb_eq_true, bool_decide_eq_false; by rewrite elem_of_list_to_set.
Qed.

Lemma Review_Ok input decision :
  Review input = Ok decision ->
  decision_Action decision = "keep" \/
  decision_Action decision ∈ ["create"; "revise"; "replace"; "retire"; "soul"] /\
  decision_EvidenceIDs decision <> [] /\
  forall id, id ∈ decision_EvidenceIDs decision -> id ∈ TaskID <$> Input_Experience input.
Proof.
  unfold Review; intros Hr; destruct (negb has_model || _); [injection Hr as <-; by left|].
  run_inv; match goal with Hv : validateDecisionEvidence _ _ = Ok _ |- _ =>
    pose proof (validateDecisionEvidence_Ok _ _ _ Hv) as Hok end.
  destruct (bool_decide _) eqn:Hkeep; [by injection Hr as <-|].
  unfold assess in Hr; run_inv.
  match goal with p : bool * string |- _ => destruct p as [[] reason] end; run_inv; [done|by left].
Qed.

(** A review changes only what its evidence is about: whatever the model
    answers, committing its decision leaves every skill of another audience as it
    is; and it changes something only while learning is enabled and no task runs,
    with recorded evidence, all of it from the experiences that were reviewed. *)
Theorem reviews_stay_with_their_evidence w input audience decision c c' r s :
  Input_Experience input <> [] ->
  Forall (fun e => Experience_Audience e = audience) (Input_Experience input) ->
  Review input = Ok decision -> commit_decision w decision input c = (c', r) ->
  coordinator_store c = Some s ->
  (forall id vs, skills s !! id = Some vs -> of_another_audience audience vs ->
     exists s', coordinator_store c' = Some s' /\ skills s' !! id = Some vs) /\
  (c' <> c -> enabled s = true /\ activeTasks c <= 0 /\ decision_EvidenceIDs decision <> [] /\
     forall id, id ∈ decision_EvidenceIDs decision -> id ∈ TaskID <$> Input_Experience input).
Proof.
  intros Hne Haud Hreview Hcommit Hs; apply Review_Ok in Hreview as Hok.
  unfold commit_decision in Hcommit; rewrite Hs in Hcommit.
  destruct (negb (enabled s) || _) eqn:Hmay; [injection Hcommit as <- <-; split; [by eauto|done]|].
  bool_to_prop; unfold applyDecisionLocked in Hcommit.
  destruct (bool_decide (decision_Action decision = "keep")) eqn:Hkeep;
    [injection Hcommit as <- <-; split; [by eauto|done]|]; bool_to_prop.
  destruct Hok as [?|(Hin & Hev & Hknown)]; [done|].
  split; [|done]; intros id vs Hvs Hother.
  destruct (bool_decide (decision_Action decision = "soul")) eqn:Hsoul.
  - destruct (applySoulLocked _ _ _ _) as [f failure]; injection Hcommit as <- <-; eauto.
  - destruct (Input_Experience input) as [|e es] eqn:Hes; [done|].
    apply Forall_cons in Haud as [He _]; cbn [fmap list_fmap head default] in Hcommit.
    destruct (ApplyDecision _ _ _ _) as [s' r'] eqn:Ha; injection Hcommit as <- <-.
    exists s'; split; [done|].
    change s' with (fst (s', r')); rewrite <- Ha; apply ApplyDecision_audience; [|done|].
    + cbn; repeat apply elem_of_cons in Hin as [->|Hin]; try (by apply elem_of_nil in Hin);
        repeat constructor.
    + cbn; by rewrite He.
Qed.
End reviews.

Definition example_experience : Experience :=
  MkExperience "task-1" "person:ada" 0 "send the report" "{}" ["mail"].

Definition example_coordinator : Coordinator :=
  let st := MkState [example_experience] [] [] 0 0 "" 0 in
  MkCoordinator (Some (MkStore 20 true ∅)) st false 0 (MkSoulFiles None None) (Some st).

Definition example_model : ReviewModel := {|
  has_model := true;
  propose input := Ok (MkReviewDecision "create" "report" 0 "" 0 "Sends the report"
    (render_skill "report" "Sends the report" "Do it.") "" ["task-1"] "asked twice");
  assessment _ _ := Ok (true, "");
|}.

Lemma experiences_are_kept_witness :
  sound (example_coordinator, Idle) /\
  (example_experience ∈ queued (BeginTask example_coordinator, Idle) \/
   exists s, rtc (@step ascii_tables example_codec (fun _ => true) (fun _ => Ok 1) example_model)
       (example_coordinator, Idle) s /\
     rtc (@step ascii_tables example_codec (fun _ => true) (fun _ => Ok 1) example_model)
       s (BeginTask example_coordinator, Idle) /\
     TaskID example_experience ∈ ReviewedIDs (state s.1)).
Proof.
  assert (Hs : sound (example_coordinator, Idle)) by (split; [done|by split_and!]).
  split; [exact Hs|].
  apply (@experiences_are_kept ascii_tables example_codec example_model).
  - exact Hs.
  - apply rtc_once; constructor.
  - by left.
Defined.

Definition example_claim := claimBatch (fun _ => Ok 1) (2 * Hour) None example_coordinator.

Lemma claimBatch_exact_witness :
  snd example_claim = Ok [example_experience] /\
  exists batch, snd example_claim = Ok batch /\ batch <> [] /\ reviewing (fst example_claim) = true.
Proof.
  split; [vm_compute; reflexivity|].
  destruct (claimBatch_exact (fun _ => Ok 1) (2 * Hour) None example_coordinator
    (fst example_claim) (snd example_claim) (surjective_pairing example_claim))
    as [[_ Hnil]|(batch & remaining & Hr & Hne & Hw)].
  - assert (Hr : snd example_claim = Ok [example_experience]) by (vm_compute; reflexivity).
    discriminate (Hnil _ Hr).
  - exists batch; split; [exact Hr|split; [exact Hne|apply Hw]].
Defined.

Definition example_input : ReviewInput := MkInput [example_experience] [] empty_soul [] 20.
Definition example_world : commit_world := MkWorld (1, 1) no_trouble (MkWrites None None).
Definition shared_store : Store :=
  perform no_trouble (1, 1) (MkStore 20 true ∅) (OpPut (example_skill "digest" "active" 0)).

Definition example_decision : ReviewDecision :=
  MkReviewDecision "create" "report" 0 "" 0 "Sends the report"
    (render_skill "report" "Sends the report" "Do it.") "" ["task-1"] "asked twice".

Lemma reviews_stay_with_their_evidence_witness :
  let c := with_store (Some shared_store) example_coordinator in
  let c' := fst (@commit_decision ascii_tables example_codec example_world example_decision
                   example_input c) in
  @Review example_model example_input = Ok example_decision /\
  ActiveCount <$> coordinator_store c' = Some 2 /\
  exists s', coordinator_store c' = Some s' /\
    skills s' !! "digest" = skills shared_store !! "digest".
Proof.
  cbn zeta; split; [vm_compute; reflexivity|split; [vm_compute; reflexivity|]].
  destruct (skills shared_store !! "digest") as [vs|] eqn:Hvs; [|vm_compute in Hvs; discriminate].
  apply (@reviews_stay_with_their_evidence ascii_tables example_codec example_model example_world
    example_input "person:ada" example_decision (with_store (Some shared_store) example_coordinator)
    _ (snd (@commit_decision ascii_tables example_codec example_world example_decision example_input
      (with_store (Some shared_store) example_coordinator))) shared_store) with (id := "digest").
  - discriminate.
  - repeat constructor.
  - vm_compute; reflexivity.
  - apply surjective_pairing.
  - reflexivity.
  - exact Hvs.
  - vm_compute in Hvs; injection Hvs as <-; eexists [], _; split; [reflexivity|discriminate].
Defined.

(** ** What modelling showed *)

Lemma CanonicalSoul_newline `{UnicodeTables} `{SoulCodec} soul :
  CanonicalSoul soul = Ok empty_soul -> False.
Proof.
  unfold CanonicalSoul; intros Hc; run_inv.
  match goal with Hd : _ +:+ nl = empty_soul |- _ =>
    apply (f_equal (fun s => last (bytes_of s))) in Hd; rewrite bytes_of_app in Hd;
    change (bytes_of nl) with [newline] in Hd; rewrite last_snoc in Hd; vm_compute in Hd end.
  discriminate.
Qed.

(** Where the root has neither a ledger nor a [soul.json], a review reads the
    empty soul as it is written in the code, and a commit compares it with its
    canonical form, which ends with a newline: no change of the soul is ever
    committed there. *)
Lemma first_soul_is_never_committed `{UnicodeTables} `{SoulCodec} w decision f failure :
  applySoulLocked w (MkSoulFiles None None) decision empty_soul = (f, failure) ->
  f = MkSoulFiles None None /\ failure <> None.
Proof.
  unfold applySoulLocked.
  destruct (soul_revision_to_append _ _ _ _) as [[canonical version]|e] eqn:Happ;
    [exfalso|intros [= <- <-]; by split].
  unfold soul_revision_to_append in Happ; run_inv.
  repeat match goal with
  | Hl : lift_persona ?r = Ok _ |- _ =>
    unfold lift_persona in Hl; destruct r eqn:?; [injection Hl as <-|discriminate Hl]
  end.
  match goal with Hh : ReadSoulHistory _ _ = Ok _ |- _ =>
    unfold ReadSoulHistory, readSoulHistory in Hh; cbn [ledger projection] in Hh end; run_inv.
  match goal with Hc : current_of _ = Ok _ |- _ => injection Hc as <- end; bool_to_prop.
  match goal with Hd : Document _ = empty_soul |- _ => cbn [Document] in Hd; subst end.
  match goal with Hc : CanonicalSoul _ = Ok empty_soul |- _ => by apply CanonicalSoul_newline in Hc end.
Qed.

(** When the record of a review cannot be written, its batch stays claimed on
    disk, and no review takes anything any more until a restart. *)
Lemma unwritten_record_stops_learning size now write c :
  InFlight (state c) <> [] -> claimBatch size now write c = (c, Ok []).
Proof.
  intros Hfl; unfold claimBatch, review_may_start.
  rewrite (bool_decide_eq_false_2 (InFlight (state c) = [])) by done.
  by rewrite andb_false_r.
Qed.

(** An experience in review is not known to [Observe]: seen again meanwhile, it
    is queued a second time. *)
Lemma experience_in_review_is_queued_again :
  let c := with_state (MkState [] [example_experience] [] 0 0 "" 0) example_coordinator in
  let c' := fst (Observe (fun _ => true) 1 None example_experience c) in
  queued (c', Idle) = [example_experience; example_experience].
Proof. vm_compute; reflexivity. Qed.

(** An experience too large for a batch at the head of the queue, alone of its
    audience, keeps every review from starting. *)
Lemma large_experience_blocks_the_queue :
  let large := MkExperience "task-0" "person:bob" 0 "" "{}" [] in
  let size e := if bool_decide (TaskID e = "task-0") then Ok (maxReviewEvidenceBytes + 1)
                else @Ok string Z 1 in
  let c := with_state (MkState [large; example_experience] [] [] 0 0 "" 0) example_coordinator in
  review_may_start (Hour + 1) c = true /\ claimBatch size (Hour + 1) None c = (c, Ok []).
Proof. vm_compute; split; reflexivity. Qed.
