(* ===== verification/HeldCalls.v ===== *)
(** * Calls held for approval: which calls need one, and the one time an approved
    call is redeemed ([approvalgate/turn_gate.go], [approvalgate/redeemed_call.go],
    [approvalgate/choice_answer.go], [approvalgate/asked_question.go],
    [approvalgate/question.go]).

    The task runs, the record of holds and the tool contract belong to the protocol
    library: what is used of them is a parameter of the model. *)

From S2P Require Export GoStrings.

(** ** Data of the protocol library, as far as it is read *)

Record TaskEvent := MkEvent {
  Event_Name : string;
  Event_Body : string;
}.

Record Choice := MkChoice {
  Choice_Key : string;
  Choice_Label : string;
  Choice_StartsAt : string;
}.

(** A hold, with the name of the tool and the approved input of its call, and its state. *)
Record Hold := MkHold {
  Hold_ID : string;
  Hold_ToolName : string;
  Hold_ApprovedInput : string;
  Hold_Choices : list Choice;
  Hold_State : string;
}.

Record TaskRun := MkRun {
  RequesterPersonID : string;
  TaskEvents : list TaskEvent;
}.

(** The task runs by their IDs; a run's events are appended to, in order. *)
Definition task_runs : Type := gmap string TaskRun.

Definition AppendTaskEvent (runs : gmap string TaskRun) (taskRunID : string) (event : TaskEvent)
  : gmap string TaskRun :=
  alter (fun run => MkRun (RequesterPersonID run) (TaskEvents run ++ [event])) taskRunID runs.

Record ToolDefinition := MkTool {
  Tool_Name : string;
  RequiresApproval : bool;
  InputSchema : string;
  SideEffectClass : string;
}.

(** The fields of a send's input that say where it goes. *)
Record SendTarget := MkTarget {
  TargetType : string;
  Target_ChannelID : string;
  PersonHint : string;
  PersonHints : list string;
}.

(** Functions of the protocol library, and JSON. *)
Class HoldLibrary := {
  Holds : list TaskEvent -> list Hold;
  CanonicalToolName : string -> string;
  CanonicalToolInput : string -> string;
  (** whether a choice is an answer, or defers the call *)
  IsAnAnswer : Choice -> bool;
  DefersTheCall : Choice -> bool;
  (** a decision's hold and decision; a redemption's hold; an answer's key *)
  decided_of : string -> option (string * string);
  redeemed_of : string -> option string;
  answered_of : string -> option string;
  (** the body of a redemption, where it can be encoded *)
  redeemed_body : string -> string -> string -> option string;
  (** the choices of a question, whether an input says it needs approval, where a
      send goes, and the properties a schema declares *)
  asked_choices_of : string -> option (list string);
  approval_required_of : string -> option bool;
  send_target_of : string -> option SendTarget;
  schema_properties_of : string -> option (list string);
  ToolDefinitionSideEffectClass : ToolDefinition -> string;
  (** constants *)
  TaskEventApprovalDecided : string;
  TaskEventApprovalHoldOpened : string;
  DecisionApprove : string;
  AskInputToolName : string;
  ToolSideEffectExternalSend : string;
}.

Section with_library.
Context `{HoldLibrary}.

(** ** Redeeming an approval *)

Definition TaskEventApprovalHoldRedeemed : string := "approval.hold_redeemed".

Record HeldCallRedemption := MkRedemption {
  TaskRunID : string;
  HoldID : string;
  Redemption_RequesterPersonID : string;
  ToolName : string;
  ToolInput : string;
}.

Inductive RedemptionError :=
| ErrHoldBelongsToNoRun
| ErrHoldIsAnotherPersons
| ErrHoldIsNotInThisRun
| ErrHoldWasNotApproved
| ErrHoldWasRedeemedAlready
| ErrHoldApprovedAnotherCall.

Fixpoint holdByID (holds : list Hold) (holdID : string) : option Hold :=
  match holds with
  | [] => None
  | held :: holds' =>
    if negb (bool_decide (TrimSpace holdID = "")) && bool_decide (Hold_ID held = TrimSpace holdID)
    then Some held else holdByID holds' holdID
  end.

(** The first readable decision on the hold is the one that counts. *)
Fixpoint wasApproved (taskEvents : list TaskEvent) (holdID : string) : bool :=
  match taskEvents with
  | [] => false
  | taskEvent :: taskEvents' =>
    if negb (bool_decide (Event_Name taskEvent = TaskEventApprovalDecided))
    then wasApproved taskEvents' holdID
    else match decided_of (Event_Body taskEvent) with
    | Some (decidedHoldID, decision) =>
      if bool_decide (decidedHoldID = holdID) then bool_decide (decision = DecisionApprove)
      else wasApproved taskEvents' holdID
    | None => wasApproved taskEvents' holdID
    end
  end.

Definition redeems (holdID : string) (taskEvent : TaskEvent) : bool :=
  bool_decide (Event_Name taskEvent = TaskEventApprovalHoldRedeemed)
  && bool_decide (redeemed_of (Event_Body taskEvent) = Some holdID).

Definition wasRedeemed (taskEvents : list TaskEvent) (holdID : string) : bool :=
  existsb (redeems holdID) taskEvents.

Definition isTheApprovedCall (held : Hold) (redemption : HeldCallRedemption) : bool :=
  bool_decide (CanonicalToolName (Hold_ToolName held) = CanonicalToolName (ToolName redemption))
  && bool_decide (CanonicalToolInput (Hold_ApprovedInput held)
                  = CanonicalToolInput (ToolInput redemption)).

Definition redeemableHold (taskEvents : list TaskEvent) (redemption : HeldCallRedemption)
  : result RedemptionError unit :=
  match holdByID (Holds taskEvents) (HoldID redemption) with
  | None => Err ErrHoldIsNotInThisRun
  | Some held =>
    refuse_if (negb (wasApproved taskEvents (Hold_ID held))) ErrHoldWasNotApproved;;
    refuse_if (wasRedeemed taskEvents (Hold_ID held)) ErrHoldWasRedeemedAlready;;
    refuse_if (negb (isTheApprovedCall held redemption)) ErrHoldApprovedAnotherCall
  end.

(** [marshalEventBody]: what cannot be encoded becomes an empty body. *)
Definition redeemed_event (redemption : HeldCallRedemption) : TaskEvent :=
  MkEvent TaskEventApprovalHoldRedeemed
    (default "" (redeemed_body (HoldID redemption) (CanonicalToolName (ToolName redemption))
       (CanonicalToolInput (ToolInput redemption)))).

(** The lock makes a redemption one step. *)
Definition RedeemHeldCall (runs : gmap string TaskRun) (redemption : HeldCallRedemption)
  : result RedemptionError (gmap string TaskRun) :=
  let taskRunID := TrimSpace (TaskRunID redemption) in
  match runs !! taskRunID with
  | None => Err ErrHoldBelongsToNoRun
  | Some taskRun =>
    refuse_if (bool_decide (taskRunID = "")) ErrHoldBelongsToNoRun;;
    refuse_if (bool_decide (RequesterPersonID taskRun = "")
      || negb (bool_decide (RequesterPersonID taskRun
                            = TrimSpace (Redemption_RequesterPersonID redemption))))
      ErrHoldIsAnotherPersons;;
    redeemableHold (TaskEvents taskRun) redemption;;
    Ok (AppendTaskEvent runs taskRunID (redeemed_event redemption))
  end.

(** ** Choices *)

Definition CancelChoiceKey : string := "cancel".

Definition choiceReplyLabel (choice : Choice) : string :=
  if IsAnAnswer choice then TrimSpace (Choice_Label choice)
  else if DefersTheCall choice then "run it at " +:+ TrimSpace (Choice_StartsAt choice)
  else "run it now".

(** Keys and labels. *)
Definition ChoiceReplyOptions (choices : list Choice) : list (string * string) :=
  map (fun choice => (TrimSpace (Choice_Key choice), choiceReplyLabel choice)) choices
    ++ [(CancelChoiceKey, "cancel, do not run it")].

Fixpoint ChoiceByKey (choices : list Choice) (key : string) : option Choice :=
  match choices with
  | [] => None
  | choice :: choices' =>
    if bool_decide (TrimSpace (Choice_Key choice) = TrimSpace key)
       && negb (bool_decide (TrimSpace key = ""))
    then Some choice else ChoiceByKey choices' key
  end.

Definition OfferedChoices (taskEvents : list TaskEvent) : list Choice :=
  match last (Holds taskEvents) with None => [] | Some hold => Hold_Choices hold end.

(** The loop of [AnswerChosen], from the latest event on. *)
Fixpoint answer_chosen (choices : list Choice) (latest_first : list TaskEvent) : option Choice :=
  match latest_first with
  | [] => None
  | taskEvent :: earlier =>
    if bool_decide (Event_Name taskEvent = TaskEventApprovalHoldOpened) then None
    else if negb (bool_decide (Event_Name taskEvent = "ask.choice_answered"))
      then answer_chosen choices earlier
    else match answered_of (Event_Body taskEvent) with
    | None => None
    | Some key => ChoiceByKey choices key
    end
  end.

Definition AnswerChosen (taskEvents : list TaskEvent) (choices : list Choice) : option Choice :=
  answer_chosen choices (rev taskEvents).

(** The loop of [AskedChoices]: the labels that are not blank, numbered. *)
Fixpoint number_choices (choices : list Choice) (labels : list string) : list Choice :=
  match labels with
  | [] => choices
  | label :: labels' =>
    if blank label then number_choices choices labels'
    else number_choices
      (choices ++ [MkChoice (Itoa (Z.of_nat (length choices) + 1)) (TrimSpace label) ""]) labels'
  end.

Definition AskedChoices (toolName toolInput : string) : list Choice :=
  if negb (bool_decide (TrimSpace toolName = AskInputToolName)) then []
  else match asked_choices_of toolInput with
  | None => []
  | Some labels => number_choices [] labels
  end.

(** ** Which calls wait for an approval *)

Definition OffersChoices (toolDefinition : ToolDefinition) (toolInput : string) : bool :=
  negb (bool_decide (AskedChoices (Tool_Name toolDefinition) toolInput = [])).

Definition inputSchemaAcceptsApprovalRequired (inputSchema : string) : bool :=
  match schema_properties_of inputSchema with
  | None => false
  | Some properties => bool_decide ("approvalRequired" ∈ properties)
  end.

Definition callNeedsApproval (toolDefinition : ToolDefinition) (toolInput : string) : bool :=
  if RequiresApproval toolDefinition || OffersChoices toolDefinition toolInput then true
  else if negb (inputSchemaAcceptsApprovalRequired (InputSchema toolDefinition)) then false
  else bool_decide (approval_required_of toolInput = Some true).

Section sends.
Context `{UnicodeTables}.

(** The fields of a [TurnContext] that are read. *)
Record TurnContext := MkTurn {
  ConversationType : string;
  ChannelID : string;
}.

Definition SendLandsInTheConversationBeingAnswered (conversationType conversationChannelID
  toolInput : string) : bool :=
  if bool_decide (toolInput = "") then false
  else match send_target_of toolInput with
  | None => false
  | Some target =>
    let targetType := TrimSpace (TargetType target) in
    if bool_decide (targetType = "currentThread") || bool_decide (targetType = "currentChannel") then true
    else if bool_decide (targetType = "channel") then
      let channelID := TrimSpace (Target_ChannelID target) in
      negb (bool_decide (channelID = ""))
      && bool_decide (channelID = TrimSpace conversationChannelID)
    else if bool_decide (targetType = "directMessage") then
      bool_decide (TrimSpace (PersonHint target) = "") && bool_decide (PersonHints target = [])
      && EqualFold (TrimSpace conversationType) "direct"
    else false
  end.

Definition landsInTheConversationBeingAnswered (turnContext : TurnContext)
  (toolDefinition : ToolDefinition) (toolInput : string) : bool :=
  if negb (bool_decide (ToolDefinitionSideEffectClass toolDefinition = ToolSideEffectExternalSend))
  then false
  else SendLandsInTheConversationBeingAnswered (ConversationType turnContext)
    (ChannelID turnContext) toolInput.

(** ** The review of a call *)

(** [ApprovalOutcome], its decision one of the constants of package mcpserver. *)
Record ApprovalOutcome := MkOutcome {
  Outcome_Decision : string;
  Outcome_HoldID : string;
  Outcome_Notice : string;
}.

Definition ApprovalDecisionApproved : string := "approved".
Definition ApprovalDecisionRejected : string := "rejected".
Definition ApprovalDecisionUnanswerable : string := "unanswerable".
Definition ApprovalDecisionUnresolvedTarget : string := "unresolved_target".
Definition ApprovalDecisionDeferred : string := "deferred".

(** What a call that may not proceed is answered with: a failure that asks for an
    approval, one that blocks, or the result the outcome carries. *)
Inductive ToolResult :=
| InteractionRequired (notice : string)
| PolicyBlocked (notice : string)
| FailureOfOutcome
| DeferralOfOutcome.

Record ToolCallReview := MkReview {
  MayProceed : bool;
  Review_HoldID : string;
  Review_Result : option ToolResult;
}.

Definition may_proceed (holdID : string) : ToolCallReview := MkReview true holdID None.
Definition may_not_proceed (r : ToolResult) : ToolCallReview := MkReview false "" (Some r).

Definition HeldCallResult (notice : string) : ToolResult :=
  let heldNotice := TrimSpace notice in
  InteractionRequired (if bool_decide (heldNotice = "") then
    "This call is waiting for the requester's approval and has been recorded. Do not retry it now; call it again unchanged once you are told the approval arrived, and it will run."
    else heldNotice).

Definition unanswerableCallResult : ToolResult :=
  PolicyBlocked "This call needs the requester's approval and there is no conversation they can answer on, so it can never run. Do not wait for an approval; take another route or tell them what you could not do.".

Definition delegatedTurnDeniedResult : ToolResult :=
  PolicyBlocked "This call needs the requester's approval, and a delegated turn has no one to ask: only the turn that was asked for the work can hold a call for approval. Do not wait for an approval; take another route, or report this back as the part you could not do.".

Definition rejectedCallResult (notice : string) : ToolResult :=
  let rejectedNotice := TrimSpace notice in
  PolicyBlocked (if bool_decide (rejectedNotice = "") then
    "The requester declined this call. Do not retry it; choose another way or stop."
    else rejectedNotice).

(** [awaitApproval]: the gate, [None] where there is none, an error as its text. *)
Definition ReviewToolCall (turnContext : TurnContext) (isDelegated : bool)
  (awaitApproval : option (result string ApprovalOutcome)) (toolDefinition : ToolDefinition)
  (toolInput : string) : ToolCallReview :=
  if negb (callNeedsApproval toolDefinition toolInput) then may_proceed ""
  else if landsInTheConversationBeingAnswered turnContext toolDefinition toolInput
    then may_proceed ""
  else if isDelegated then may_not_proceed delegatedTurnDeniedResult
  else match awaitApproval with
  | None => may_not_proceed unanswerableCallResult
  | Some (Err message) => may_not_proceed (HeldCallResult message)
  | Some (Ok outcome) =>
    let decision := Outcome_Decision outcome in
    if bool_decide (decision = ApprovalDecisionApproved) then may_proceed (Outcome_HoldID outcome)
    else if bool_decide (decision = ApprovalDecisionRejected)
      then may_not_proceed (rejectedCallResult (Outcome_Notice outcome))
    else if bool_decide (decision = ApprovalDecisionUnanswerable)
      then may_not_proceed unanswerableCallResult
    else if bool_decide (decision = ApprovalDecisionUnresolvedTarget)
      then may_not_proceed FailureOfOutcome
    else if bool_decide (decision = ApprovalDecisionDeferred)
      then may_not_proceed DeferralOfOutcome
    else may_not_proceed (HeldCallResult (Outcome_Notice outcome))
  end.
End sends.
End with_library.

(** ** An approval is for one call, once *)

Section redemption.
Context `{HoldLibrary}.

Lemma holdByID_Some holds holdID held :
  holdByID holds holdID = Some held ->
  held ∈ holds /\ Hold_ID held = TrimSpace holdID /\ TrimSpace holdID <> "".
Proof.
  induction holds as [|h holds IH]; [done|]; cbn [holdByID].
  destruct (_ && _) eqn:Hh; [intros [= <-]; bool_to_prop|].
  - split_and!; [by constructor|done..].
  - intros Hf; apply IH in Hf as (? & ? & ?); split_and!; [by constructor|done..].
Qed.

(** A decision on the hold, the first of those that can be read. *)
Definition first_decision (taskEvents : list TaskEvent) (holdID decision : string) : Prop :=
  exists before event after, taskEvents = before ++ event :: after /\
    Event_Name event = TaskEventApprovalDecided /\
    decided_of (Event_Body event) = Some (holdID, decision) /\
    forall e d, e ∈ before -> Event_Name e = TaskEventApprovalDecided ->
      decided_of (Event_Body e) <> Some (holdID, d).

Lemma wasApproved_first taskEvents holdID :
  wasApproved taskEvents holdID = true -> first_decision taskEvents holdID DecisionApprove.
Proof.
  assert (Hskip : forall e taskEvents,
    (forall d, Event_Name e = TaskEventApprovalDecided ->
       decided_of (Event_Body e) <> Some (holdID, d)) ->
    first_decision taskEvents holdID DecisionApprove ->
    first_decision (e :: taskEvents) holdID DecisionApprove).
  { intros e l He (before & event & after & -> & Hn & Hd & Hb).
    exists (e :: before), event, after; split_and!; [done..|].
    intros e' d [->|Hin]%elem_of_cons Hname; [by apply He|by apply Hb]. }
  induction taskEvents as [|e taskEvents IH]; [done|]; cbn [wasApproved].
  destruct (negb _) eqn:Hname; bool_to_prop; [intros Ha; apply Hskip; [done|by apply IH]|].
  destruct (decided_of (Event_Body e)) as [[id decision]|] eqn:Hd.
  - destruct (bool_decide (id = holdID)) eqn:Hid; intros Ha; bool_to_prop; subst.
    + exists [], e, taskEvents; split_and!; [done..|by intros ? ? ?%elem_of_nil].
    + apply Hskip; [|by apply IH]; intros d _; rewrite Hd; congruence.
  - intros Ha; apply Hskip; [|by apply IH]; intros d _; by rewrite Hd.
Qed.

Lemma RedeemHeldCall_Ok runs redemption runs' :
  RedeemHeldCall runs redemption = Ok runs' ->
  exists run held, runs !! TrimSpace (TaskRunID redemption) = Some run /\
    (TrimSpace (TaskRunID redemption) <> "" /\ RequesterPersonID run <> "" /\
     RequesterPersonID run = TrimSpace (Redemption_RequesterPersonID redemption)) /\
    holdByID (Holds (TaskEvents run)) (HoldID redemption) = Some held /\
    wasApproved (TaskEvents run) (Hold_ID held) = true /\
    wasRedeemed (TaskEvents run) (Hold_ID held) = false /\
    isTheApprovedCall held redemption = true /\
    runs' = AppendTaskEvent runs (TrimSpace (TaskRunID redemption)) (redeemed_event redemption).
Proof.
  unfold RedeemHeldCall; destruct (runs !! _) as [run|]; [|done]; intros Hr; run_inv.
  match goal with Hh : redeemableHold _ _ = Ok _ |- _ => unfold redeemableHold in Hh;
    destruct (holdByID (Holds (TaskEvents run)) (HoldID redemption)) as [held|] eqn:Hheld end; run_inv.
  bool_to_prop; exists run, held; split_and!; done.
Qed.

(** A held call is redeemed only for the person who asked for the run, only in
    the run that holds it, only when the first decision on the hold approved it,
    only if it was not redeemed before, and only as the call that was approved -
    the same tool and the same input, in canonical form; the redemption is then
    the run's latest event, and nothing else changes. *)
Theorem RedeemHeldCall_only_the_approved_call runs redemption runs' :
  RedeemHeldCall runs redemption = Ok runs' ->
  exists run held, runs !! TrimSpace (TaskRunID redemption) = Some run /\
    RequesterPersonID run <> "" /\
    RequesterPersonID run = TrimSpace (Redemption_RequesterPersonID redemption) /\
    held ∈ Holds (TaskEvents run) /\ Hold_ID held = TrimSpace (HoldID redemption) /\
    first_decision (TaskEvents run) (Hold_ID held) DecisionApprove /\
    (forall event, event ∈ TaskEvents run -> Event_Name event = TaskEventApprovalHoldRedeemed ->
       redeemed_of (Event_Body event) <> Some (Hold_ID held)) /\
    CanonicalToolName (Hold_ToolName held) = CanonicalToolName (ToolName redemption) /\
    CanonicalToolInput (Hold_ApprovedInput held) = CanonicalToolInput (ToolInput redemption) /\
    runs' = <[TrimSpace (TaskRunID redemption) :=
      MkRun (RequesterPersonID run) (TaskEvents run ++ [redeemed_event redemption])]> runs.
Proof.
  intros Hr; apply RedeemHeldCall_Ok in Hr
    as (run & held & Hrun & (_ & Hne & Hreq) & Hheld & Happ & Hred & Hcall & ->).
  apply holdByID_Some in Hheld as (Hin & Hid & _).
  unfold isTheApprovedCall in Hcall; bool_to_prop.
  exists run, held; split_and!; try done.
  - by apply wasApproved_first.
  - intros event He Hname Hbody.
    apply not_true_iff_false in Hred; apply Hred, existsb_elem_of; exists event; split; [done|].
    unfold redeems; by rewrite !bool_decide_eq_true_2.
  - apply map_eq; intros id; unfold AppendTaskEvent.
    destruct (decide (TrimSpace (TaskRunID redemption) = id)) as [<-|Hid'].
    + by rewrite lookup_alter_eq, lookup_insert_eq, Hrun.
    + by rewrite lookup_alter_ne, lookup_insert_ne.
Qed.

(** C23. An approval is spent once: after a redemption by the hold's ID as it is
    written, and however the run goes on, no redemption of that hold in that run
    succeeds again - provided the record of the first could be encoded. *)
Theorem approvals_are_redeemed_once runs redemption runs' later again run :
  RedeemHeldCall runs redemption = Ok runs' ->
  TrimSpace (HoldID redemption) = HoldID redemption ->
  redeemed_of (Event_Body (redeemed_event redemption)) = Some (HoldID redemption) ->
  later !! TrimSpace (TaskRunID redemption) = Some run ->
  (forall before, runs' !! TrimSpace (TaskRunID redemption) = Some before ->
     exists events, TaskEvents run = TaskEvents before ++ events) ->
  TrimSpace (TaskRunID again) = TrimSpace (TaskRunID redemption) ->
  TrimSpace (HoldID again) = HoldID redemption ->
  is_ok (RedeemHeldCall later again) = false.
Proof.
  intros Hr Htrim Hbody Hlater Hext Hsame Hhold.
  apply RedeemHeldCall_Ok in Hr as (run0 & held0 & Hrun0 & _ & _ & _ & _ & _ & ->).
  unfold AppendTaskEvent in Hext; rewrite lookup_alter_eq, Hrun0 in Hext.
  destruct (Hext _ eq_refl) as [events Hevents]; cbn [TaskEvents] in Hevents.
  destruct (RedeemHeldCall later again) as [runs2|e] eqn:Hagain; [exfalso|done].
  apply RedeemHeldCall_Ok in Hagain as (run2 & held & Hrun2 & _ & Hheld & _ & Hred & _).
  rewrite Hsame, Hlater in Hrun2; injection Hrun2 as <-.
  apply holdByID_Some in Hheld as (_ & Hid & _).
  apply not_true_iff_false in Hred; apply Hred, existsb_elem_of.
  exists (redeemed_event redemption); split.
  - rewrite Hevents, !elem_of_app; left; right; by constructor.
  - unfold redeems; rewrite Hid, Hhold, Hbody; by rewrite !bool_decide_eq_true_2.
Qed.
End redemption.

Lemma allowed_review (P Q : Prop) holdID :
  P -> (holdID <> "" -> Q) ->
  let review := may_proceed holdID in
  (MayProceed review = true <-> P) /\
  (MayProceed review = false <-> Review_Result review <> None) /\
  (Review_HoldID review <> "" -> MayProceed review = true /\ Q).
Proof. intros Hp Hq; cbn; split_and!; [done|by split; intros|auto]. Qed.

Lemma refused_review (P Q : Prop) r :
  ~ P ->
  let review := may_not_proceed r in
  (MayProceed review = true <-> P) /\
  (MayProceed review = false <-> Review_Result review <> None) /\
  (Review_HoldID review <> "" -> MayProceed review = true /\ Q).
Proof. intros Hp; cbn; split_and!; [by split; intros|done|done]. Qed.

(** Without an approval nothing happens that needs one: a call that needs an
    approval proceeds only if it is a send into the conversation being answered,
    or if the gate of a turn that is not delegated approved it; a call that needs
    none proceeds; and a call that may not proceed is always answered with a
    result. *)
Theorem ReviewToolCall_needs_an_approval `{HoldLibrary} `{UnicodeTables}
  turn isDelegated awaitApproval tool input :
  let review := ReviewToolCall turn isDelegated awaitApproval tool input in
  (MayProceed review = true <->
   callNeedsApproval tool input = false \/
   landsInTheConversationBeingAnswered turn tool input = true \/
   isDelegated = false /\
   exists outcome, awaitApproval = Some (Ok outcome) /\ Outcome_Decision outcome = "approved") /\
  (MayProceed review = false <-> Review_Result review <> None) /\
  (Review_HoldID review <> "" -> MayProceed review = true /\
   exists outcome, awaitApproval = Some (Ok outcome) /\ Review_HoldID review = Outcome_HoldID outcome).
Proof.
  cbn zeta; unfold ReviewToolCall.
  destruct (callNeedsApproval tool input); cbn [negb]; [|by apply allowed_review; [left|]].
  destruct (landsInTheConversationBeingAnswered turn tool input);
    [by apply allowed_review; [right; left|]|].
  destruct isDelegated; [by apply refused_review; intros [?|[?|[? _]]]|].
  destruct awaitApproval as [[outcome|message]|];
    [|by apply refused_review; intros [?|[?|(_ & ? & ? & _)]]..].
  unfold ApprovalDecisionApproved.
  destruct (bool_decide (Outcome_Decision outcome = "approved")) eqn:Happ; bool_to_prop.
  - apply allowed_review; [right; right|]; eauto.
  - assert (Hno : ~ (true = false \/ false = true \/ false = false /\ exists outcome0,
      Some (Ok outcome) = Some (@Ok string ApprovalOutcome outcome0) /\
      Outcome_Decision outcome0 = "approved"))
      by (intros [?|[?|(_ & ? & [= <-] & ?)]]; done).
    repeat case_bool_decide; by apply refused_review.
Qed.

(** ** Examples *)

(** A library for examples: a run holds what its "opened" events name, each event
    of a decision or a redemption has the hold's ID as its body. *)
Definition example_library : HoldLibrary := {|
  Holds := fun events => map (fun e => MkHold (Event_Body e) "mail.send" "{}" [] "")
    (List.filter (fun e => bool_decide (Event_Name e = "opened")) events);
  CanonicalToolName := TrimSpace;
  CanonicalToolInput := TrimSpace;
  IsAnAnswer := fun c => negb (blank (Choice_Label c));
  DefersTheCall := fun c => negb (blank (Choice_StartsAt c));
  decided_of := fun body => Some (body, "approve");
  redeemed_of := Some;
  answered_of := Some;
  redeemed_body := fun holdID _ _ => Some holdID;
  asked_choices_of := fun _ => None;
  approval_required_of := fun _ => None;
  send_target_of := fun _ => None;
  schema_properties_of := fun _ => None;
  ToolDefinitionSideEffectClass := SideEffectClass;
  TaskEventApprovalDecided := "decided";
  TaskEventApprovalHoldOpened := "opened";
  DecisionApprove := "approve";
  AskInputToolName := "ask_input";
  ToolSideEffectExternalSend := "external_send";
|}.

Definition example_runs : gmap string TaskRun :=
  {["run-1" := MkRun "ada" [MkEvent "opened" "hold-1"; MkEvent "decided" "hold-1"]]}.

Definition example_redemption (holdID : string) : HeldCallRedemption :=
  MkRedemption "run-1" holdID "ada" "mail.send" "{}".

Definition redeemed_runs : gmap string TaskRun :=
  match @RedeemHeldCall example_library example_runs (example_redemption "hold-1") with
  | Ok runs => runs
  | Err _ => ∅
  end.

Lemma RedeemHeldCall_only_the_approved_call_witness :
  @RedeemHeldCall example_library example_runs (example_redemption "hold-1") = Ok redeemed_runs /\
  exists run, example_runs !! TrimSpace (TaskRunID (example_redemption "hold-1")) = Some run /\
    RequesterPersonID run <> "".
Proof.
  assert (Hr : @RedeemHeldCall example_library example_runs (example_redemption "hold-1")
    = Ok redeemed_runs) by (vm_compute; reflexivity).
  split; [exact Hr|].
  destruct (@RedeemHeldCall_only_the_approved_call example_library _ _ _ Hr)
    as (run & held & Hrun & Hne & _); eauto.
Defined.

Lemma approvals_are_redeemed_once_witness :
  is_ok (@RedeemHeldCall example_library redeemed_runs (example_redemption " hold-1 ")) = false.
Proof.
  eapply (@approvals_are_redeemed_once example_library example_runs (example_redemption "hold-1")
    redeemed_runs redeemed_runs (example_redemption " hold-1 ")).
  - vm_compute; reflexivity.
  - vm_compute; reflexivity.
  - vm_compute; reflexivity.
  - vm_compute; reflexivity.
  - intros before Hb; vm_compute in Hb; injection Hb as <-; exists []; reflexivity.
  - vm_compute; reflexivity.
  - vm_compute; reflexivity.
Defined.

(** A redemption by an ID with blanks around it finds the hold by the trimmed ID
    and records the ID with its blanks: the same approval is redeemed again, and
    again. *)
Lemma padded_hold_is_redeemed_again :
  is_ok (runs ← @RedeemHeldCall example_library example_runs (example_redemption " hold-1");
         @RedeemHeldCall example_library runs (example_redemption " hold-1")) = true.
Proof. vm_compute; reflexivity. Qed.
