(* ===== verification/ApprovalGate.v ===== *)
(** * The approval gate ([approvalgate/gate.go], [permission_asker.go], [target.go],
    [choices.go], [question.go], [wording.go], [hold_settlement.go],
    [executed_call.go], [harness_permission.go]).

    A call that needs an approval is held: its run is paused, the hold recorded, the
    requester asked, and the answer settled.  The task runs and the record of holds are
    the protocol library's ([ApprovalLibrary]); who is asked and what they answer, the
    wording of the question, the resolution of the target and the scheduler are the
    fields of a [Gate], functions of the world.  While the requester is asked anything
    may happen to the store: the asker returns the store as it then is. *)

From S2P Require Import ScheduleWrite.
From S2P Require Export HeldCalls.

(** ** Data *)

(** [agentcontract.ApprovalTarget], its fields that are read. *)
Record ApprovalTarget := MkApprovalTarget {
  Approval_ID : string;
  Approval_IDs : list string;
  InputField : string;
  Target_HandoffID : string;
}.

(** [ApprovalTarget{}] *)
Definition no_target : ApprovalTarget := MkApprovalTarget "" [] "" "".

Record HeldCall := MkHeldCall {
  Call_ToolName : string;
  Call_ToolInput : string;
  Call_ApprovedToolInput : option string;
  Call_Confirmation : string;
  Call_HarnessSession : string;
  Call_HandoffID : string;
}.

(** [HeldCall{}] *)
Definition no_call : HeldCall := MkHeldCall "" "" None "" "" "".

(** The task runs of [taskstate.TaskRunStore], the functions of [holdrecord], and JSON. *)
Class ApprovalLibrary `{HoldLibrary} := {
  Store : Type;
  ListTaskEvent : string -> Store -> list TaskEvent;
  AppendEvent : string -> TaskEvent -> Store -> Store;
  (** [None] is an error *)
  PauseTaskRun : string -> string -> Store -> option Store;
  AdvanceTaskRun : string -> string -> Store -> option Store;
  CurrentAgentProfileName : string -> Store -> option string;
  LatestHold : list Hold -> string -> option Hold;
  StatePending : string;
  StateRejected : string;
  ApprovedHoldForCall : list Hold -> string -> string -> option Hold;
  HeldCallOf : Hold -> HeldCall;
  Open : string -> HeldCall -> list Choice -> Store -> Store * Hold;
  DecideHold : string -> string -> string -> string -> Store -> Store;
  Spend : string -> string -> string -> string -> Store -> Store;
  SpendApprovedCall : string -> string -> string -> Store -> Store * bool;
  ApprovedInput : HeldCall -> string;
  IsResolved : ApprovalTarget -> bool;
  ApprovalSignalApprove : string;
  ApprovalSignalReject : string;
  IsApprovalSignalName : string -> bool;
  DecisionReject : string;
  DecisionDefer : string;
  TaskEventConfirmationRequested : string;
  TaskEventAskRequested : string;
  (** JSON: an object of strings, the fields of an object, an identity *)
  marshal_event_body : list (string * string) -> string;
  (** the record of a deferral, its start printed in the offset the choice gives it *)
  marshal_deferral : string -> string -> string -> instant -> string;
  unmarshal_object : string -> option (gmap string string);
  marshal_object : gmap string string -> option string;
  marshal_identity : list string + string -> option string;
  asked_question_of : string -> string;
}.

Record ApprovalRequest := MkApprovalRequest {
  Request_RequesterPersonID : string;
  Request_RequesterEmail : string;
  Request_TaskRunID : string;
  Request_ToolName : string;
  Request_ToolInput : string;
  Request_SideEffectClass : string;
  Request_ResponseLanguage : string;
  Request_Prompt : string;
  Request_Platform : string;
  Request_ConversationID : string;
  Request_ReplyTargetID : string;
  Request_ModelDraft : string;
  Request_HarnessSession : string;
}.

(** [failure]: the text of a result that carries a failure. *)
Record ApprovalTargetResolution := MkResolution {
  Resolution_Target : ApprovalTarget;
  Resolution_Choices : list Choice;
  Resolution_Failure : option string;
}.

(** [ApprovalTargetResolution{}] *)
Definition no_resolution : ApprovalTargetResolution := MkResolution no_target [] None.

Inductive AskStatus := AskAnswered | AskUnreachable | AskExpired | AskInterrupted.

#[export] Instance AskStatus_eq_dec : EqDecision AskStatus.
Proof. solve_decision. Defined.

Definition status_text (status : AskStatus) : string :=
  match status with
  | AskAnswered => "answered"
  | AskUnreachable => "unreachable"
  | AskExpired => "expired"
  | AskInterrupted => "interrupted"
  end.

Record ApprovalAnswer := MkAnswer { Signal : string; ChoiceKey : string }.

Record PermissionQuestion := MkPermissionQuestion {
  Question_HoldID : string;
  Question_Confirmation : string;
  Question_Choices : list Choice;
  Question_HandoffID : string;
}.

(** What a deferral comes to: [deferredCallResult], or [DeferralFailedResult]. *)
Inductive DeferralResult :=
| CallScheduled (scheduleID : string) (startsAt : instant) (toolName toolInput : string)
| DeferralFailed (message : string).

Record CarriedOutCall := MkCarriedOut {
  Carried_ToolName : string;
  Carried_ToolInput : string;
  Carried_Result : DeferralResult;
}.

(** [mcpserver.ApprovalOutcome] *)
Record GateOutcome := MkGateOutcome {
  Decision : string;
  Notice : string;
  Outcome_Failure : option string;
  Outcome_Deferral : option DeferralResult;
  Gate_HoldID : string;
}.

Definition ApprovalDecisionHeld : string := "held".

Definition decided (decision : string) : GateOutcome := MkGateOutcome decision "" None None "".
Definition noticed (decision notice : string) : GateOutcome := MkGateOutcome decision notice None None "".

(** The outcome as the review of a call reads it. *)
Definition as_outcome (outcome : GateOutcome) : ApprovalOutcome :=
  MkOutcome (Decision outcome) (Gate_HoldID outcome) (Notice outcome).

(** An option of the agent client protocol (a library). *)
Inductive PermissionOptionKind := AllowOnce | AllowAlways | RejectOnce | RejectAlways.

Record PermissionOption := MkPermissionOption {
  OptionId : string;
  Option_Kind : PermissionOptionKind;
  Option_Name : string;
}.

Record HarnessPermissionQuestion := MkHarnessQuestion {
  Harness_Text : string;
  (** the JSON of the call's raw input, "" where there is none *)
  RawInput : string;
  Harness_Options : list PermissionOption;
}.

(** ** The gate *)

Section gate.
Context `{UnicodeTables, ApprovalLibrary}.

Record Gate := MkGate {
  (** the text, and a failure *)
  questionWorder : option (ApprovalRequest -> ApprovalTargetResolution -> string * option string);
  approvalTargetResolver : option (ApprovalRequest -> result string ApprovalTargetResolution);
  permissionAsker : option (ApprovalRequest -> PermissionQuestion -> Store -> Store * (ApprovalAnswer * AskStatus));
  (** the asker, where it also asks about the calls of a harness: the option selected, if any *)
  harnessAsker : option (ApprovalRequest -> HarnessPermissionQuestion -> Store -> Store * (option string * AskStatus));
  (** [time.Now()] when a call is deferred, and the scheduler: the schedule's ID *)
  gate_clock : instant;
  approvedCallScheduler : option (Approved.ApprovedCallScheduleRequest -> Store -> Store * result string string);
}.

(** *** Settling holds ([hold_settlement.go], [executed_call.go], [continuation.go]) *)

Definition SettleLatest (taskRunID decision source : string) (st : Store) : Store :=
  if blank taskRunID then st else
  match LatestHold (Holds (ListTaskEvent taskRunID st)) StatePending with
  | None => st
  | Some pendingHold => DecideHold taskRunID (Hold_ID pendingHold) decision source st
  end.

Definition SettleSignal (taskRunID : string) (approvalSignal : option string) (source : string) (st : Store) : Store :=
  match approvalSignal with
  | None => st
  | Some signal => if negb (IsApprovalSignalName signal) then st else SettleLatest taskRunID signal source st
  end.

Definition approvedInputOf (approvedHold : option Hold) (requestedInput : string) : string :=
  match approvedHold with
  | Some hold => if bool_decide (Hold_ID hold = "") then requestedInput else ApprovedInput (HeldCallOf hold)
  | None => requestedInput
  end.

Definition hold_ID (hold : option Hold) : string := match hold with Some hold => Hold_ID hold | None => "" end.

Definition RecordApprovalSpent (taskRunID toolName toolInput : string) (st : Store) : Store * string :=
  let approvedHold := ApprovedHoldForCall (Holds (ListTaskEvent taskRunID st)) toolName toolInput in
  (Spend taskRunID (hold_ID approvedHold) toolName (approvedInputOf approvedHold toolInput) st, hold_ID approvedHold).

Definition PendingHeldCall (taskEvents : list TaskEvent) : option HeldCall :=
  HeldCallOf <$> LatestHold (Holds taskEvents) StatePending.

(** [asked_question.go] *)
Definition RecordChoiceAnswer (taskRunID : string) (choice : Choice) (st : Store) : Store :=
  if blank taskRunID || negb (IsAnAnswer choice) then st
  else AppendEvent taskRunID (MkEvent "ask.choice_answered" (marshal_event_body [("key", TrimSpace (Choice_Key choice))])) st.

(** *** Targets ([target.go]) *)

Definition namesNothingThatExists (resolution : ApprovalTargetResolution) : bool :=
  negb (IsResolved (Resolution_Target resolution)) && is_some (Resolution_Failure resolution).

Definition namesTheRequester (request : ApprovalRequest) (recipient : string) : bool :=
  let trimmedRecipient := TrimSpace recipient in
  let requesterEmail := TrimSpace (Request_RequesterEmail request) in
  bool_decide (trimmedRecipient = TrimSpace (Request_RequesterPersonID request)) ||
  (negb (bool_decide (requesterEmail = "")) && EqualFold trimmedRecipient requesterEmail).

Definition sendReachesOnlyTheRequester (request : ApprovalRequest) (target : ApprovalTarget) : bool :=
  if negb (bool_decide (TrimSpace (Request_SideEffectClass request) = ToolSideEffectExternalSend)) || negb (IsResolved target)
  then false
  else forallb (fun recipient => blank recipient || namesTheRequester request recipient)
         (Approval_ID target :: Approval_IDs target).

(** [refusal]: the target the context carries; [files]: the failure of the files it carries. *)
Definition resolveApprovalTarget (gate : Gate) (refusal : option ApprovalTarget) (files : option string)
    (request : ApprovalRequest) : ApprovalTargetResolution :=
  match refusal with
  | Some target => MkResolution target [] None
  | None =>
    match approvalTargetResolver gate with
    | None => no_resolution
    | Some resolve =>
      match files with
      | Some failure => MkResolution no_target [] (Some failure)
      | None => match resolve request with Ok resolution => resolution | Err _ => no_resolution end
      end
    end
  end.

Definition narrowedIdentity (target : ApprovalTarget) : list string + string :=
  if bool_decide (Approval_IDs target = []) then inr (TrimSpace (Approval_ID target)) else inl (Approval_IDs target).

Definition narrowedToolInput (toolInput : string) (target : ApprovalTarget) : option string :=
  if negb (IsResolved target) then None else
  document ← unmarshal_object toolInput;
  identity ← marshal_identity (narrowedIdentity target);
  marshal_object (<[TrimSpace (InputField target) := identity]> document).

(** *** Questions ([question.go], [wording.go]) *)

Definition questionToAsk (request : ApprovalRequest) : option (ApprovalTargetResolution * string) :=
  let choices := AskedChoices (Request_ToolName request) (Request_ToolInput request) in
  if bool_decide (choices = []) then None
  else Some (MkResolution no_target choices None,
    Join nl (TrimSpace (asked_question_of (Request_ToolInput request)) ::
      imap (fun index choice => Itoa (Z.of_nat index + 1) +:+ ". " +:+ Choice_Label choice) choices)).

Definition TaskEventApprovalWordingFailed : string := "approval.wording_failed".

Definition recordWordingFailure (request : ApprovalRequest) (failure : string) (st : Store) : Store :=
  let taskRunID := TrimSpace (Request_TaskRunID request) in
  if bool_decide (taskRunID = "") then st
  else AppendEvent taskRunID (MkEvent TaskEventApprovalWordingFailed
    (marshal_event_body [("toolName", TrimSpace (Request_ToolName request)); ("error", failure)])) st.

Definition confirmationWording (gate : Gate) (request : ApprovalRequest) (resolution : ApprovalTargetResolution)
    (st : Store) : Store * string :=
  match questionWorder gate with
  | None => (recordWordingFailure request "approval wording needs a question worder and none is configured" st,
             TrimSpace (Request_ToolName request))
  | Some word =>
    let '(text, failure) := word request resolution in
    (match failure with Some message => recordWordingFailure request message st | None => st end, text)
  end.

(** *** Deferring a call ([choices.go]) *)

Definition TaskEventApprovalDeferred : string := "approval.deferred".

Record DeferralRequest := MkDeferralRequest {
  Deferral_TaskRunID : string;
  Deferral_ToolName : string;
  Deferral_ToolInput : string;
  Deferral_RequesterPersonID : string;
  Deferral_Platform : string;
  Deferral_ConversationID : string;
  Deferral_ReplyTargetID : string;
  Deferral_Prompt : string;
  Deferral_Choice : Choice;
  Deferral_ReferenceTime : instant;
}.

Definition approved_call_request (request : DeferralRequest) (startsAt : instant) : Approved.ApprovedCallScheduleRequest :=
  Approved.MkApprovedCallScheduleRequest
    {| Schedule.ToolName := Deferral_ToolName request;
       Schedule.ToolInput := Deferral_ToolInput request;
       Schedule.ApproverPersonID := Deferral_RequesterPersonID request;
       Schedule.ApprovedAt := Deferral_ReferenceTime request;
       Schedule.OriginTaskRunID := Deferral_TaskRunID request |}
    startsAt
    (if blank (Deferral_Prompt request) then TrimSpace (Deferral_ToolName request) else TrimSpace (Deferral_Prompt request))
    ""
    (Delivery.MkScheduleDeliveryBinding (Deferral_Platform request) (Deferral_ConversationID request) (Deferral_ReplyTargetID request))
    "" (Deferral_ReferenceTime request).

Definition DeferApprovedCall (gate : Gate) (request : DeferralRequest) (st : Store) : Store * result string DeferralResult :=
  match approvedCallScheduler gate with
  | None => (st, Err "this agent has no scheduler to hold an approved call for later")
  | Some schedule_call =>
    match Parse_RFC3339 (TrimSpace (Choice_StartsAt (Deferral_Choice request))) with
    | None => (st, Err "an approval choice's startsAt is not an RFC 3339 instant")
    | Some startsAt =>
      let '(st, scheduled) := schedule_call (approved_call_request request startsAt) st in
      match scheduled with
      | Err message => (st, Err message)
      | Ok scheduleID =>
        let st := SettleLatest (Deferral_TaskRunID request) DecisionDefer "approval_choice" st in
        let st := AppendEvent (Deferral_TaskRunID request) (MkEvent TaskEventApprovalDeferred (marshal_deferral
          (TrimSpace (Deferral_ToolName request)) (Deferral_ToolInput request) scheduleID startsAt)) st in
        (st, Ok (CallScheduled scheduleID startsAt (TrimSpace (Deferral_ToolName request)) (Deferral_ToolInput request)))
      end
    end
  end.

(** [DeferHeldCall], with [deferralResult]: the gate is the deferrer. *)
Definition DeferHeldCall (gate : Gate) (heldCall : HeldCall) (request : DeferralRequest) (st : Store)
  : Store * CarriedOutCall :=
  let request := MkDeferralRequest (Deferral_TaskRunID request) (Call_ToolName heldCall) (ApprovedInput heldCall)
    (Deferral_RequesterPersonID request) (Deferral_Platform request) (Deferral_ConversationID request)
    (Deferral_ReplyTargetID request) (Deferral_Prompt request) (Deferral_Choice request) (Deferral_ReferenceTime request) in
  let '(st, deferred) := DeferApprovedCall gate request st in
  (st, MkCarriedOut (Deferral_ToolName request) (Deferral_ToolInput request)
     (match deferred with Ok deferral => deferral | Err message => DeferralFailed message end)).

Definition deferHeldCall (gate : Gate) (request : ApprovalRequest) (heldCall : HeldCall) (choice : Choice) (st : Store)
  : Store * CarriedOutCall :=
  DeferHeldCall gate heldCall (MkDeferralRequest (Request_TaskRunID request) "" "" (Request_RequesterPersonID request)
    (Request_Platform request) (Request_ConversationID request) (Request_ReplyTargetID request) (Request_Prompt request)
    choice (gate_clock gate)) st.

(** *** Asking ([permission_asker.go]) *)

Definition defaultAgentProfileName : string := "default".
Definition TaskEventApprovalUnreachable : string := "approval.unreachable".
Definition TaskEventApprovalExpired : string := "approval.expired".
Definition expiredCallNotice : string :=
  "Nobody answered the requester's approval question within 24 hours, so this call was not approved and will not run. Do not retry it; tell the requester it did not run because the question went unanswered, and what they can ask for instead.".

Definition currentAgentProfileName (taskRunID : string) (st : Store) : string :=
  match CurrentAgentProfileName taskRunID st with
  | None => defaultAgentProfileName
  | Some name => if blank name then defaultAgentProfileName else TrimSpace name
  end.

Definition ChosenFrom (answer : ApprovalAnswer) (choices : list Choice) : option Choice :=
  ChoiceByKey choices (ChoiceKey answer).

Record AnswerSettlement := MkSettlement {
  Settled_Signal : string;
  DeferredCall : option CarriedOutCall;
}.

(** [None] is the error of a run that does not advance. *)
Definition SettleAnswer (gate : Gate) (request : ApprovalRequest) (answer : ApprovalAnswer) (st : Store)
  : Store * option AnswerSettlement :=
  let taskRunID := TrimSpace (Request_TaskRunID request) in
  let taskEvents := ListTaskEvent taskRunID st in
  match AdvanceTaskRun taskRunID (currentAgentProfileName taskRunID st) st with
  | None => (st, None)
  | Some st =>
    let heldCall := default no_call (PendingHeldCall taskEvents) in
    match ChosenFrom answer (OfferedChoices taskEvents) with
    | Some choice =>
      if DefersTheCall choice then
        let '(st, carried) := deferHeldCall gate request heldCall choice st in
        (st, Some (MkSettlement (Signal answer) (Some carried)))
      else
        let st := RecordChoiceAnswer taskRunID choice st in
        (SettleSignal taskRunID (Some (Signal answer)) "acp_permission" st, Some (MkSettlement (Signal answer) None))
    | None =>
      (SettleSignal taskRunID (Some (Signal answer)) "acp_permission" st, Some (MkSettlement (Signal answer) None))
    end
  end.

Definition approvedOutcome (taskRunID : string) (request : ApprovalRequest) (st : Store) : Store * GateOutcome :=
  let '(st, holdID) := RecordApprovalSpent taskRunID (Request_ToolName request) (Request_ToolInput request) st in
  (st, MkGateOutcome ApprovalDecisionApproved "" None None holdID).

Definition answeredOutcome (gate : Gate) (taskRunID : string) (request : ApprovalRequest) (confirmation : string)
    (answer : ApprovalAnswer) (st : Store) : Store * GateOutcome :=
  let '(st, settlement) := SettleAnswer gate request answer st in
  match settlement with
  | None => (st, noticed ApprovalDecisionHeld confirmation)
  | Some settlement =>
    match DeferredCall settlement with
    | Some carried => (st, MkGateOutcome ApprovalDecisionDeferred "" None (Some (Carried_Result carried)) "")
    | None =>
      if bool_decide (Settled_Signal settlement = ApprovalSignalReject) then (st, decided ApprovalDecisionRejected)
      else approvedOutcome taskRunID request st
    end
  end.

Definition endUnansweredHold (taskRunID profileName : string) (status : AskStatus) (st : Store) : Store :=
  let st := SettleSignal taskRunID (Some ApprovalSignalReject) (status_text status) st in
  default st (AdvanceTaskRun taskRunID profileName st).

Definition unreachableOutcome (taskRunID : string) (request : ApprovalRequest) (reason : string) (st : Store)
  : Store * GateOutcome :=
  ((if bool_decide (taskRunID = "") then st else
    AppendEvent taskRunID (MkEvent TaskEventApprovalUnreachable (marshal_event_body
      [("toolName", TrimSpace (Request_ToolName request)); ("requesterPersonID", Request_RequesterPersonID request);
       ("reason", reason)])) st),
   decided ApprovalDecisionUnanswerable).

(** [gate.go] *)
Definition approvalReasonCode (request : ApprovalRequest) : string :=
  if blank (Request_SideEffectClass request) then "approval_required" else TrimSpace (Request_SideEffectClass request).

Definition askRecord (request : ApprovalRequest) (confirmation : string) : list (string * string) :=
  [("kind", "ask_confirm"); ("message", confirmation); ("reasonCode", approvalReasonCode request);
   ("reasonDetail", "approval gate for " +:+ Request_ToolName request); ("responseLanguage", Request_ResponseLanguage request)].

Definition recordHeldCall (taskRunID : string) (request : ApprovalRequest) (confirmation : string)
    (resolution : ApprovalTargetResolution) (st : Store) : Store * Hold :=
  let '(st, hold) := Open taskRunID (MkHeldCall (Request_ToolName request) (Request_ToolInput request)
    (narrowedToolInput (Request_ToolInput request) (Resolution_Target resolution)) confirmation
    (Request_HarnessSession request) (Target_HandoffID (Resolution_Target resolution))) (Resolution_Choices resolution) st in
  let st := AppendEvent taskRunID (MkEvent TaskEventConfirmationRequested (marshal_event_body
    [("userFacingMessage", confirmation); ("message", confirmation); ("reasonCode", approvalReasonCode request);
     ("reasonDetail", "approval gate for " +:+ Request_ToolName request);
     ("responseLanguage", Request_ResponseLanguage request); ("source", "tool_catalog")])) st in
  (AppendEvent taskRunID (MkEvent TaskEventAskRequested (marshal_event_body (askRecord request confirmation))) st, hold).

Definition holdCall (taskRunID : string) (request : ApprovalRequest) (confirmation : string)
    (resolution : ApprovalTargetResolution) (st : Store) : option (Store * Hold) :=
  recordHeldCall taskRunID request confirmation resolution <$> PauseTaskRun taskRunID confirmation st.

Definition askedOutcome (gate : Gate) (taskRunID : string) (request : ApprovalRequest) (confirmation : string)
    (resolution : ApprovalTargetResolution) (st : Store) : Store * GateOutcome :=
  match permissionAsker gate with
  | None => unreachableOutcome taskRunID request "no_asker" st
  | Some ask =>
    if bool_decide (taskRunID = "") then unreachableOutcome taskRunID request "no_asker" st else
    let profileName := currentAgentProfileName taskRunID st in
    match holdCall taskRunID request confirmation resolution st with
    | None => (st, decided ApprovalDecisionUnanswerable)
    | Some (st, hold) =>
      let '(st, (answer, status)) := ask request (MkPermissionQuestion (Hold_ID hold) confirmation
        (Resolution_Choices resolution) (Call_HandoffID (HeldCallOf hold))) st in
      match status with
      | AskAnswered => answeredOutcome gate taskRunID request confirmation answer st
      | AskUnreachable =>
        unreachableOutcome taskRunID request (status_text status) (endUnansweredHold taskRunID profileName status st)
      | AskExpired =>
        let st := endUnansweredHold taskRunID profileName status st in
        (AppendEvent taskRunID (MkEvent TaskEventApprovalExpired (marshal_event_body
           [("toolName", TrimSpace (Request_ToolName request)); ("requesterPersonID", Request_RequesterPersonID request)])) st,
         noticed ApprovalDecisionRejected expiredCallNotice)
      | AskInterrupted => (st, noticed ApprovalDecisionHeld confirmation)
      end
    end
  end.

Definition approvedHold (taskRunID : string) (request : ApprovalRequest) (st : Store) : option Hold :=
  if bool_decide (taskRunID = "") then None
  else ApprovedHoldForCall (Holds (ListTaskEvent taskRunID st)) (Request_ToolName request) (Request_ToolInput request).

Definition AwaitApproval (gate : Gate) (refusal : option ApprovalTarget) (files : option string)
    (request : ApprovalRequest) (st : Store) : Store * GateOutcome :=
  let taskRunID := TrimSpace (Request_TaskRunID request) in
  if is_some (approvedHold taskRunID request st) then approvedOutcome taskRunID request st else
  match questionToAsk request with
  | Some (resolution, confirmation) => askedOutcome gate taskRunID request confirmation resolution st
  | None =>
    let resolution := resolveApprovalTarget gate refusal files request in
    if namesNothingThatExists resolution
    then (st, MkGateOutcome ApprovalDecisionUnresolvedTarget "" (Resolution_Failure resolution) None "") else
    if sendReachesOnlyTheRequester request (Resolution_Target resolution) then (st, decided ApprovalDecisionApproved) else
    let '(st, confirmation) := confirmationWording gate request resolution st in
    askedOutcome gate taskRunID request confirmation resolution st
  end.

(** *** The calls of a harness ([harness_permission.go]) *)

Definition harnessPermissionSource : string := "harness_permission".

Definition heldCallOfHarnessQuestion (question : HarnessPermissionQuestion) : HeldCall :=
  MkHeldCall "" (RawInput question) None (Harness_Text question) "" "".

Definition optionOfKind (options : list PermissionOption) (kind : PermissionOptionKind) : option PermissionOption :=
  find (fun permissionOption => match Option_Kind permissionOption, kind with
    | AllowOnce, AllowOnce | AllowAlways, AllowAlways | RejectOnce, RejectOnce | RejectAlways, RejectAlways => true
    | _, _ => false
    end) options.

Definition isAllowOption (options : list PermissionOption) (optionID : string) : bool :=
  match find (fun permissionOption => bool_decide (OptionId permissionOption = optionID)) options with
  | None => false
  | Some permissionOption => match Option_Kind permissionOption with AllowOnce | AllowAlways => true | _ => false end
  end.

Definition spendApprovedHarnessCall (taskRunID : string) (heldCall : HeldCall) (options : list PermissionOption) (st : Store)
  : Store * option string :=
  match optionOfKind options AllowOnce with
  | None => (st, None)
  | Some allowOnce =>
    let '(st, isSpent) := SpendApprovedCall taskRunID (Call_ToolName heldCall) (Call_ToolInput heldCall) st in
    (st, if isSpent then Some (OptionId allowOnce) else None)
  end.

Definition settleHarnessHold (taskRunID holdID : string) (options : list PermissionOption) (selected : option string)
    (st : Store) : Store :=
  let isAllowed := match selected with Some optionID => isAllowOption options optionID | None => false end in
  DecideHold taskRunID holdID (if isAllowed then DecisionApprove else DecisionReject) harnessPermissionSource st.

(** The option selected, and the status. *)
Definition AskHarnessPermission (gate : Gate) (request : ApprovalRequest) (question : HarnessPermissionQuestion) (st : Store)
  : Store * (option string * AskStatus) :=
  match harnessAsker gate with
  | None => (st, (None, AskUnreachable))
  | Some ask =>
    let taskRunID := TrimSpace (Request_TaskRunID request) in
    if bool_decide (taskRunID = "") then ask request question st else
    let heldCall := heldCallOfHarnessQuestion question in
    let '(st, spent) := spendApprovedHarnessCall taskRunID heldCall (Harness_Options question) st in
    match spent with
    | Some optionID => (st, (Some optionID, AskAnswered))
    | None =>
      let profileName := currentAgentProfileName taskRunID st in
      match PauseTaskRun taskRunID (Harness_Text question) st with
      | None => (st, (None, AskUnreachable))
      | Some st =>
        let '(st, hold) := Open taskRunID heldCall [] st in
        let '(st, (selected, status)) := ask request question st in
        match status with
        | AskAnswered =>
          let st := settleHarnessHold taskRunID (Hold_ID hold) (Harness_Options question) selected st in
          (default st (AdvanceTaskRun taskRunID profileName st), (selected, AskAnswered))
        | AskUnreachable | AskExpired => (endUnansweredHold taskRunID profileName status st, (None, status))
        | AskInterrupted => (st, (None, status))
        end
      end
    end
  end.

(** *** What a resumed run is told ([continuation.go], [asked_question.go]) *)

Definition DeclinedCallNote (taskEvents : list TaskEvent) : string :=
  match last (Holds taskEvents) with
  | None => ""
  | Some hold =>
    if negb (bool_decide (Hold_State hold = StateRejected)) then ""
    else "The requester declined the " +:+ Call_ToolName (HeldCallOf hold) +:+ " call you asked about. Do not attempt it again; continue without it or stop and say why you cannot."
  end.

(** The label of the choice that was picked; [None] is a failure. *)
Definition ChosenAnswerResult (taskEvents : list TaskEvent) (toolInput : string) : option string :=
  Choice_Label <$> AnswerChosen taskEvents (AskedChoices AskInputToolName toolInput).

(** *** Two askers ([routed_asker.go]): the primary one for the conversations it serves *)

Definition AskerRoutedBy {Q A} (serves : string -> string -> bool)
    (primary otherwise : ApprovalRequest -> Q -> Store -> Store * (A * AskStatus))
    (request : ApprovalRequest) (question : Q) (st : Store) : Store * (A * AskStatus) :=
  if serves (Request_Platform request) (Request_ConversationID request) then primary request question st
  else otherwise request question st.

(** ** An asker answers with an approval or a rejection, if it answers *)

Definition signals_only (ask : ApprovalRequest -> PermissionQuestion -> Store -> Store * (ApprovalAnswer * AskStatus)) : Prop :=
  forall request question st st' answer, ask request question st = (st', (answer, AskAnswered)) ->
    Signal answer = ApprovalSignalApprove \/ Signal answer = ApprovalSignalReject.

Lemma AskerRoutedBy_signals serves primary otherwise :
  signals_only primary -> signals_only otherwise -> signals_only (AskerRoutedBy serves primary otherwise).
Proof. intros Hp Ho request question st st' answer; unfold AskerRoutedBy; destruct (serves _ _); [apply Hp|apply Ho]. Qed.

(** ** When a call proceeds *)

Lemma approvedOutcome_Decision taskRunID request st : Decision (approvedOutcome taskRunID request st).2 = ApprovalDecisionApproved.
Proof. done. Qed.

(** The requester was asked about this call, after it was held, and answered with such a signal. *)
Definition approved_by_answer (gate : Gate) (request : ApprovalRequest) (approves : string -> Prop) : Prop :=
  exists ask confirmation resolution before held hold asked advanced answer,
    permissionAsker gate = Some ask /\
    holdCall (TrimSpace (Request_TaskRunID request)) request confirmation resolution before = Some (held, hold) /\
    ask request (MkPermissionQuestion (Hold_ID hold) confirmation (Resolution_Choices resolution)
      (Call_HandoffID (HeldCallOf hold))) held = (asked, (answer, AskAnswered)) /\
    SettleAnswer gate request answer asked = (advanced, Some (MkSettlement (Signal answer) None)) /\
    approves (Signal answer).

Lemma SettleAnswer_signal gate request answer st st' settlement :
  SettleAnswer gate request answer st = (st', Some settlement) -> Settled_Signal settlement = Signal answer.
Proof.
  unfold SettleAnswer; destruct (AdvanceTaskRun _ _ _) as [st1|]; [|done].
  destruct (ChosenFrom _ _) as [choice|]; [destruct (DefersTheCall choice)|].
  - destruct (deferHeldCall _ _ _ _ _) as [st2 carried]; by intros [= _ <-].
  - by intros [= _ <-].
  - by intros [= _ <-].
Qed.

Lemma askedOutcome_approved gate request confirmation resolution st :
  Decision (askedOutcome gate (TrimSpace (Request_TaskRunID request)) request confirmation resolution st).2 = ApprovalDecisionApproved ->
  approved_by_answer gate request (fun signal => signal <> ApprovalSignalReject).
Proof.
  unfold askedOutcome; destruct (permissionAsker gate) as [ask|] eqn:Hask; [|done].
  case_bool_decide as Hrun; [done|]; destruct (holdCall _ _ _ _ _) as [[held hold]|] eqn:Hheld; [|done].
  destruct (ask request _ held) as [asked [answer []]] eqn:Hasked; try done.
  unfold answeredOutcome; destruct (SettleAnswer gate request answer asked) as [advanced [settlement|]] eqn:Hs; [|done].
  destruct settlement as [signal [carried|]]; cbn [DeferredCall Settled_Signal]; [done|].
  pose proof (SettleAnswer_signal _ _ _ _ _ _ Hs) as Hsig; cbn in Hsig; subst signal.
  case_bool_decide as Hr; [done|]; intros _.
  exists ask, confirmation, resolution, st, held, hold, asked, advanced, answer; split_and!; done.
Qed.

Lemma AwaitApproval_approved gate refusal files request st :
  let outcome := (AwaitApproval gate refusal files request st).2 in
  Decision outcome = ApprovalDecisionApproved ->
  (exists hold, approvedHold (TrimSpace (Request_TaskRunID request)) request st = Some hold /\ Gate_HoldID outcome = Hold_ID hold) \/
  (AskedChoices (Request_ToolName request) (Request_ToolInput request) = [] /\
   sendReachesOnlyTheRequester request (Resolution_Target (resolveApprovalTarget gate refusal files request)) = true) \/
  approved_by_answer gate request (fun signal => signal <> ApprovalSignalReject).
Proof.
  unfold AwaitApproval; cbv zeta; destruct (approvedHold _ request st) as [hold|] eqn:Hh; cbn [is_some].
  - intros _; left; exists hold; split; [done|]; unfold approvedHold in Hh; case_bool_decide; [done|].
    unfold approvedOutcome, RecordApprovalSpent; cbn; by rewrite Hh.
  - unfold questionToAsk; case_bool_decide as Hc.
    + destruct (namesNothingThatExists _); [done|]; destruct (sendReachesOnlyTheRequester _ _) eqn:Hs; [intros _; right; by left|].
      destruct (confirmationWording gate request _ st) as [st1 confirmation]; intros Ha; right; right.
      by eapply askedOutcome_approved.
    + intros Ha; right; right; by eapply askedOutcome_approved.
Qed.

End gate.

(** C4. A call that needs an approval, and does not land in the conversation being answered,
    proceeds only on an approval: one the record of holds already has for this call, and
    then under that hold's ID; or because it is a send that was resolved and reaches nobody
    but the requester, and is no question with choices; or because the call was held, the
    requester was asked about it, the run went on, and the answer was an approval that does
    not put the call off.  A delegated turn never proceeds, nor one whose requester could
    not be asked, did not answer, or was interrupted. *)
Theorem calls_proceed_only_when_approved `{UnicodeTables, ApprovalLibrary} gate refusal files request st turnContext
    isDelegated toolDefinition toolInput :
  (forall ask, permissionAsker gate = Some ask -> signals_only ask) ->
  Request_ToolName request = Tool_Name toolDefinition -> Request_ToolInput request = toolInput ->
  callNeedsApproval toolDefinition toolInput = true ->
  landsInTheConversationBeingAnswered turnContext toolDefinition toolInput = false ->
  let outcome := as_outcome (AwaitApproval gate refusal files request st).2 in
  let review := ReviewToolCall turnContext isDelegated (Some (Ok outcome)) toolDefinition toolInput in
  MayProceed review = true ->
  isDelegated = false /\
  ((exists hold, ApprovedHoldForCall (Holds (ListTaskEvent (TrimSpace (Request_TaskRunID request)) st))
      (Tool_Name toolDefinition) toolInput = Some hold /\ Review_HoldID review = Hold_ID hold) \/
   (AskedChoices (Tool_Name toolDefinition) toolInput = [] /\
    let target := Resolution_Target (resolveApprovalTarget gate refusal files request) in
    IsResolved target = true /\
    forall recipient, recipient ∈ Approval_ID target :: Approval_IDs target -> TrimSpace recipient <> "" ->
      namesTheRequester request recipient = true) \/
   approved_by_answer gate request (fun signal => signal = ApprovalSignalApprove)).
Proof.
  intros Hsignals <- <- Hneeds Hlands; cbv zeta; unfold ReviewToolCall; rewrite Hneeds, Hlands; cbn [negb].
  destruct isDelegated; [done|]; cbn [as_outcome Outcome_Decision Outcome_HoldID Outcome_Notice].
  case_bool_decide as Hd; [|repeat split_match; done]; intros _; cbn [Review_HoldID may_proceed]; split; [done|].
  apply AwaitApproval_approved in Hd as [(hold & Hh & Hid)|[[Hc Hs]|Ha]].
  - left; exists hold; split; [|done]; unfold approvedHold in Hh; by case_bool_decide.
  - right; left; split; [done|]; unfold sendReachesOnlyTheRequester in Hs.
    destruct (negb _ || negb _) eqn:Hg; [done|]; apply orb_false_iff in Hg as [_ Hg%negb_false_iff].
    split; [done|]; intros recipient Hin Hne; rewrite forallb_elem_of in Hs; specialize (Hs _ Hin).
    apply orb_true_iff in Hs as [Hb|?]; [|done]; by apply blank_true in Hb.
  - right; right; destruct Ha as (ask & c & r & before & held & hold & asked & advanced & answer & Hask & Hh & Hanswer & Hs & Hr).
    exists ask, c, r, before, held, hold, asked, advanced, answer; split_and!; try done.
    by destruct (Hsignals ask Hask _ _ _ _ _ Hanswer).
Qed.

(** ** A library for examples: the events of each run *)

(** A hold is opened by an event "opened" whose body is the tool's name, its ID the number
    of events before it; an event "decided:ID" has the decision as its body. *)
Fixpoint example_holds (index : nat) (events : list TaskEvent) (later : list TaskEvent) : list Hold :=
  match events with
  | [] => []
  | event :: events' =>
    let ID := Itoa (Z.of_nat index) in
    let decision := find (fun e => bool_decide (Event_Name e = "decided:" +:+ ID)) later in
    if bool_decide (Event_Name event = "opened")
    then MkHold ID (Event_Body event) "{}" [MkChoice "1" "" "2026-01-02T09:00:00Z"]
           (match decision with Some e => Event_Body e | None => "pending" end) :: example_holds (S index) events' later
    else example_holds (S index) events' later
  end.

Definition gate_holds : HoldLibrary := {|
  Holds := fun events => example_holds 0 events events;
  CanonicalToolName := TrimSpace;
  CanonicalToolInput := TrimSpace;
  IsAnAnswer := fun c => negb (blank (Choice_Label c));
  DefersTheCall := fun c => negb (blank (Choice_StartsAt c));
  decided_of := fun body => Some (body, "approve");
  redeemed_of := Some;
  answered_of := Some;
  redeemed_body := fun holdID _ _ => Some holdID;
  asked_choices_of := fun _ => None;
  approval_required_of := fun _ => None;
  send_target_of := fun _ => None;
  schema_properties_of := fun _ => None;
  ToolDefinitionSideEffectClass := SideEffectClass;
  TaskEventApprovalDecided := "decided";
  TaskEventApprovalHoldOpened := "opened";
  DecisionApprove := "approve";
  AskInputToolName := "ask_input";
  ToolSideEffectExternalSend := "external_send";
|}.

Definition run_store : Type := gmap string (list TaskEvent).
Definition run_events (taskRunID : string) (st : run_store) : list TaskEvent := default [] (st !! taskRunID).
Definition append_event (taskRunID : string) (event : TaskEvent) (st : run_store) : run_store :=
  <[taskRunID := (run_events taskRunID st ++ [event])%list]> st.

Definition gate_library : @ApprovalLibrary gate_holds := {|
  Store := run_store;
  ListTaskEvent := run_events;
  AppendEvent := append_event;
  PauseTaskRun := fun taskRunID _ st => Some (append_event taskRunID (MkEvent "paused" "") st);
  AdvanceTaskRun := fun taskRunID _ st => Some (append_event taskRunID (MkEvent "advanced" "") st);
  CurrentAgentProfileName := fun _ _ => None;
  LatestHold := fun holds state => last (filter (fun hold => Hold_State hold = state) holds);
  StatePending := "pending";
  StateRejected := "reject";
  ApprovedHoldForCall := fun holds toolName _ =>
    find (fun hold => bool_decide (Hold_ToolName hold = toolName) && bool_decide (Hold_State hold = "approve")) holds;
  HeldCallOf := fun hold => MkHeldCall (Hold_ToolName hold) "{}" None "" "" "";
  Open := fun taskRunID call _ st =>
    (append_event taskRunID (MkEvent "opened" (Call_ToolName call)) st,
     MkHold (Itoa (Z.of_nat (length (run_events taskRunID st)))) (Call_ToolName call) "{}" [] "pending");
  DecideHold := fun taskRunID holdID decision _ st => append_event taskRunID (MkEvent ("decided:" +:+ holdID) decision) st;
  Spend := fun taskRunID holdID _ _ st => append_event taskRunID (MkEvent ("spent:" +:+ holdID) "") st;
  SpendApprovedCall := fun _ _ _ st => (st, false);
  ApprovedInput := fun call => Call_ToolInput call;
  IsResolved := fun target => negb (bool_decide (Approval_ID target = ""));
  ApprovalSignalApprove := "approve";
  ApprovalSignalReject := "reject";
  IsApprovalSignalName := fun signal => bool_decide (signal ∈ ["approve"; "reject"]);
  DecisionReject := "reject";
  DecisionDefer := "defer";
  TaskEventConfirmationRequested := "confirmation.requested";
  TaskEventAskRequested := "ask.requested";
  marshal_event_body := fun fields => Join "," (map (fun kv => kv.1 +:+ "=" +:+ kv.2) fields);
  marshal_deferral := fun toolName _ scheduleID _ => toolName +:+ "@" +:+ scheduleID;
  unmarshal_object := fun _ => None;
  marshal_object := fun _ => None;
  marshal_identity := fun _ => None;
  asked_question_of := fun _ => "";
|}.

Definition answering (answer : ApprovalAnswer) : @Gate gate_holds gate_library :=
  @MkGate gate_holds gate_library None None (Some (fun _ _ st => (st, (answer, AskAnswered)))) None zero_time
    (Some (fun _ st => (st, Err "ErrApprovedCallNeedsAFutureStart"))).

Definition send_request : ApprovalRequest :=
  MkApprovalRequest "ann" "ann@example.com" "run-1" "mail.send" "{}" "external_send" "en" "send it" "slack" "C1" "T1" "" "".

Definition send_tool : ToolDefinition := MkTool "mail.send" true "" "external_send".

Definition held_run : run_store := {["run-1" := [MkEvent "created" ""]]}.

Definition direct_turn : TurnContext := MkTurn "direct" "".

Lemma calls_proceed_only_when_approved_witness :
  let gate := answering (MkAnswer "approve" "") in
  let outcome := as_outcome (@AwaitApproval ascii_tables gate_holds gate_library gate None None send_request held_run).2 in
  MayProceed (@ReviewToolCall gate_holds ascii_tables direct_turn false (Some (Ok outcome)) send_tool "{}") = true /\
  @ApprovedHoldForCall gate_holds gate_library (@Holds gate_holds (run_events "run-1" held_run)) "mail.send" "{}" = None.
Proof.
  intros gate outcome.
  assert (Hp : MayProceed (@ReviewToolCall gate_holds ascii_tables direct_turn false (Some (Ok outcome)) send_tool "{}") = true)
    by (vm_compute; reflexivity).
  split; [exact Hp|].
  destruct (@calls_proceed_only_when_approved ascii_tables gate_holds gate_library gate None None send_request held_run
    direct_turn false send_tool "{}") as [_ [(hold & Hh & _)|[(_ & Hr & _)|_]]]; try done.
  - intros ask [= <-] request question st st' answer [= _ <-]; by left.
Defined.

(** ** Departures *)

(** The requester picks "run it later", and the schedule cannot be made: the answer has been
    given and the run goes on, but the hold stays pending. *)
Lemma failed_deferral_leaves_the_hold_pending :
  let '(st, outcome) := @AwaitApproval ascii_tables gate_holds gate_library (answering (MkAnswer "approve" "1")) None None
    send_request held_run in
  Decision outcome = ApprovalDecisionDeferred /\
  Outcome_Deferral outcome = Some (DeferralFailed "ErrApprovedCallNeedsAFutureStart") /\
  is_some (@PendingHeldCall gate_holds gate_library (run_events "run-1" st)) = true.
Proof. vm_compute; split_and!; reflexivity. Qed.
