(* ===== verification/ConnectorEvents.v ===== *)
(** * The connectors' queue in Postgres ([store/postgres/raw_event_repository.go],
    [raw_event_revisions.go], [connectors/runtime_messages.go]).

    Every message of a chat platform is a row of [raw_event], and every reply a row of
    [connector_outbox]; workers claim rows, and settle them.  A statement or
    transaction is a function on the [QueueStore], as in [ScheduleStore.v]; the rows
    that other sessions hold locked are an argument of the claims.  A JSON column is
    the value it encodes, where an absent key is the zero value; a result without a
    reason has no key [reason].  Columns that are written and never read (ciphertexts,
    hashes, expiry) are left out. *)

From S2P Require Export ScheduleStore.

(** ** Messages ([connectors/runtime_messages.go], [connectors/pending_request.go]) *)

Record InputAttachment := MkAttachment {
  Attachment_Platform : string;
  FileID : string;
  URL : string;
  Attachment_MessageID : string;
  Filename : string;
  ContentType : string;
  SizeBytes : Z;
  Attachment_Path : string;
  ContentBase64 : string;
  IsAvailable : bool;
  ErrorCode : string;
  Attachment_Message : string;
}.

Record PendingRequestMessage := MkPendingMessage {
  SourceReference : string;
  Message_MessageID : string;
  Message_Prompt : string;
  Message_InputParts : list AgentPart;
  Message_InputAttachments : list InputAttachment;
}.

Record AddressingMetadata := MkAddressing { BotMentioned : bool; OtherPersonMentioned : bool }.

Record VisibleContextSender := MkSender {
  Sender_Platform : string;
  Sender_SenderID : string;
  Sender_Handle : string;
  Sender_Email : string;
  Sender_Name : string;
  Sender_CallingName : string;
}.

Record VisibleContextMessage := MkContextMessage {
  Speaker : string;
  SpeakerCallingName : string;
  SpeakerHandle : string;
  Context_Text : string;
  Context_SentAt : instant;
  Context_InputAttachments : list InputAttachment;
}.

Record VisibleContext := MkVisibleContext {
  Context_Messages : list VisibleContextMessage;
  HasMoreBefore : bool;
  HistoryCursor : string;
  Context_ResponseLanguage : string;
  RequesterTimeZone : string;
  Sender : VisibleContextSender;
  ConversationType : string;
  ChannelID : string;
  ChannelName : string;
  RoomMemberEmails : list string;
  Addressing : AddressingMetadata;
  AttachmentsOnly : bool;
  MessagesOpenOtherExchanges : bool;
  InputAttachments : list InputAttachment;
  Materials : list InputAttachment;
}.

Definition no_context : VisibleContext :=
  MkVisibleContext [] false "" "" "" (MkSender "" "" "" "" "" "") "" "" "" [] (MkAddressing false false)
    false false [] [].

Definition set_InputAttachments (attachments : list InputAttachment) (context : VisibleContext) : VisibleContext :=
  let '(MkVisibleContext ms more cur rl tz snd ct cid cn room adr ao other _ mats) := context in
  MkVisibleContext ms more cur rl tz snd ct cid cn room adr ao other attachments mats.

Record TaskRetryReference := MkTaskRetry { SourceTaskRunID : string; Retry_TaskRunID : string }.

Record PlatformInboundEvent := MkEvent {
  Event_Platform : string;
  Event_Source : string;
  Event_ConversationID : string;
  MessageID : string;
  EventID : string;
  SenderID : string;
  Event_ReplyTargetID : string;
  IsThread : option bool;
  PreviousMessages : list PendingRequestMessage;
  Event_Prompt : string;
  InputParts : list AgentPart;
  ResponseLanguage : string;
  EventContext : VisibleContext;
  RawReceivedAt : instant;
  TaskRetry : option TaskRetryReference;
}.

Definition no_event : PlatformInboundEvent :=
  MkEvent "" "" "" "" "" "" "" None [] "" [] "" no_context zero_time None.

Definition set_PreviousMessages (messages : list PendingRequestMessage) (event : PlatformInboundEvent)
  : PlatformInboundEvent :=
  let '(MkEvent p s c m e sd rt th _ pr ip rl ctx at_ retry) := event in
  MkEvent p s c m e sd rt th messages pr ip rl ctx at_ retry.

(** The three fields that are not in the JSON of an event. *)
Definition set_envelope (platform source : string) (receivedAt : instant) (event : PlatformInboundEvent)
  : PlatformInboundEvent :=
  let '(MkEvent _ _ c m e sd rt th prev pr ip rl ctx _ retry) := event in
  MkEvent platform source c m e sd rt th prev pr ip rl ctx receivedAt retry.

Definition firstNonEmptyString (values : list string) : string :=
  foldr (fun value rest => if bool_decide (TrimSpace value = "") then rest else TrimSpace value) "" values.

Definition ExternalEventID (event : PlatformInboundEvent) : string :=
  firstNonEmptyString [TrimSpace (EventID event); TrimSpace (MessageID event)].

Definition DedupeKey (event : PlatformInboundEvent) : string :=
  Event_Platform event +:+ ":" +:+ TrimSpace (Event_ConversationID event) +:+ ":" +:+ ExternalEventID event.

(** [connectors/runtime.go]: what keeps an event out of the queue. *)
Definition malformedEventReason (event : PlatformInboundEvent) : string :=
  if blank (MessageID event) then "missing_message_id" else
  if blank (Event_ConversationID event) then "missing_conversation_id" else
  if blank (SenderID event) then "missing_sender_id" else
  if blank (Event_ReplyTargetID event) then "missing_reply_target_id" else
  if blank (Event_Prompt event) then "missing_prompt" else
  if HasMoreBefore (EventContext event) && blank (HistoryCursor (EventContext event))
  then "missing_history_cursor" else "".

Record ReplyTarget := MkReplyTarget {
  Target_ConversationID : string;
  Target_ReplyTargetID : string;
  AnsweringMessageID : string;
  Target_DedupeKey : string;
}.

Record ConnectorRuntimeResult := MkResult {
  Handled : bool;
  Result_Platform : string;
  Duplicate : bool;
  Ignored : bool;
  Reason : string;
  Result_TaskRunID : string;
  ReplyDispatchID : string;
}.

Definition no_result : ConnectorRuntimeResult := MkResult false "" false false "" "" "".

Record QueuedConnectorEvent := MkQueuedEvent {
  QueuedEvent : PlatformInboundEvent;
  Event_AttemptCount : Z;
}.

Record QueuedConnectorReply := MkQueuedReply {
  Queued_OutboxID : string;
  Queued_RawEventID : string;
  Queued_Platform : string;
  Queued_Target : ReplyTarget;
  QueuedReply : OutboundReply;
  Reply_AttemptCount : Z;
}.

Definition SupersededRequestReason : string := "superseded_by_new_message".

(** ** The tables *)

(** The column [connector_event_json]: ['{}'], the document [marshalConnectorEvent]
    writes, or an event by itself, which [unmarshalConnectorEvent] also reads. *)
Inductive EventDocument :=
| NoDocument
| Envelope (platform source : string) (receivedAt : instant) (event : PlatformInboundEvent)
| PlainDocument (event : PlatformInboundEvent).

(** An event as its JSON shows it. *)
Definition event_json : PlatformInboundEvent -> PlatformInboundEvent := set_envelope "" "" zero_time.

Definition marshalConnectorEvent (event : PlatformInboundEvent) : EventDocument :=
  Envelope (Event_Platform event) (Event_Source event) (RawReceivedAt event) (event_json event).

(** An envelope read as an event has none of its keys. *)
Definition unmarshalConnectorEvent (document : EventDocument) : PlatformInboundEvent :=
  match document with
  | Envelope platform source receivedAt event =>
    if bool_decide (MessageID event = "") then no_event
    else set_envelope platform source receivedAt (event_json event)
  | PlainDocument event => event_json event
  | NoDocument => no_event
  end.

(** [connector_event_json->>'senderID']: the key of an event is at the top of the
    document only where there is no envelope. *)
Definition document_senderID (document : EventDocument) : option string :=
  match document with
  | PlainDocument event => Some (SenderID event)
  | _ => None
  end.

Definition has_document (document : EventDocument) : bool :=
  match document with NoDocument => false | _ => true end.

Inductive DeliveryStatus := StatusPending | StatusRunning | StatusSucceeded | StatusFailed | StatusSuppressed.

#[export] Instance DeliveryStatus_eq_dec : EqDecision DeliveryStatus.
Proof. solve_decision. Defined.

Record RawEvent := MkRawEvent {
  Row_Platform : string;
  Row_ConversationID : string;
  ExternalMessageID : string;
  Document : EventDocument;
  Status : DeliveryStatus;
  AttemptCount : Z;
  Row_NextAttemptAt : instant;
  StartedAt : option instant;
  CompletedAt : option instant;
  Row_Error : string;
  Row_Result : ConnectorRuntimeResult;
  IngestedAt : instant;
}.

Record ReplyRow := MkReplyRow {
  Reply_RawEventID : string;
  Reply_Platform : string;
  Reply_Target : ReplyTarget;
  Reply_Document : OutboundReply;
  Reply_Status : DeliveryStatus;
  Reply_Attempts : Z;
  Reply_NextAttemptAt : instant;
  Reply_StartedAt : option instant;
  Reply_CompletedAt : option instant;
  DispatchID : string;
  Reply_Error : string;
  Reply_CreatedAt : instant;
}.

Record QueueStore := MkQueueStore {
  events : gmap string RawEvent;
  replies : gmap string ReplyRow;
}.

Definition set_events (f : gmap string RawEvent -> gmap string RawEvent) (st : QueueStore) : QueueStore :=
  MkQueueStore (f (events st)) (replies st).

Definition set_replies (f : gmap string ReplyRow -> gmap string ReplyRow) (st : QueueStore) : QueueStore :=
  MkQueueStore (events st) (f (replies st)).

(** The columns a statement sets; the others stay. *)
Definition set_Status (s : DeliveryStatus) (row : RawEvent) : RawEvent :=
  let '(MkRawEvent p c x d _ n na sa ca e r i) := row in MkRawEvent p c x d s n na sa ca e r i.
Definition set_AttemptCount (n : Z) (row : RawEvent) : RawEvent :=
  let '(MkRawEvent p c x d s _ na sa ca e r i) := row in MkRawEvent p c x d s n na sa ca e r i.
Definition set_Row_NextAttemptAt (na : instant) (row : RawEvent) : RawEvent :=
  let '(MkRawEvent p c x d s n _ sa ca e r i) := row in MkRawEvent p c x d s n na sa ca e r i.
Definition set_StartedAt (sa : instant) (row : RawEvent) : RawEvent :=
  let '(MkRawEvent p c x d s n na _ ca e r i) := row in MkRawEvent p c x d s n na (Some sa) ca e r i.
Definition set_CompletedAt (ca : instant) (row : RawEvent) : RawEvent :=
  let '(MkRawEvent p c x d s n na sa _ e r i) := row in MkRawEvent p c x d s n na sa (Some ca) e r i.
Definition set_Row_Error (e : string) (row : RawEvent) : RawEvent :=
  let '(MkRawEvent p c x d s n na sa ca _ r i) := row in MkRawEvent p c x d s n na sa ca e r i.
Definition set_Row_Result (r : ConnectorRuntimeResult) (row : RawEvent) : RawEvent :=
  let '(MkRawEvent p c x d s n na sa ca e _ i) := row in MkRawEvent p c x d s n na sa ca e r i.

Definition set_Reply_Status (s : DeliveryStatus) (row : ReplyRow) : ReplyRow :=
  let '(MkReplyRow id p t d _ n na sa ca di e c) := row in MkReplyRow id p t d s n na sa ca di e c.
Definition set_Reply_Attempts (n : Z) (row : ReplyRow) : ReplyRow :=
  let '(MkReplyRow id p t d s _ na sa ca di e c) := row in MkReplyRow id p t d s n na sa ca di e c.
Definition set_Reply_NextAttemptAt (na : instant) (row : ReplyRow) : ReplyRow :=
  let '(MkReplyRow id p t d s n _ sa ca di e c) := row in MkReplyRow id p t d s n na sa ca di e c.
Definition set_Reply_StartedAt (sa : instant) (row : ReplyRow) : ReplyRow :=
  let '(MkReplyRow id p t d s n na _ ca di e c) := row in MkReplyRow id p t d s n na (Some sa) ca di e c.
Definition set_Reply_CompletedAt (ca : instant) (row : ReplyRow) : ReplyRow :=
  let '(MkReplyRow id p t d s n na sa _ di e c) := row in MkReplyRow id p t d s n na sa (Some ca) di e c.
Definition set_DispatchID (di : string) (row : ReplyRow) : ReplyRow :=
  let '(MkReplyRow id p t d s n na sa ca _ e c) := row in MkReplyRow id p t d s n na sa ca di e c.
Definition set_Reply_Error (e : string) (row : ReplyRow) : ReplyRow :=
  let '(MkReplyRow id p t d s n na sa ca di _ c) := row in MkReplyRow id p t d s n na sa ca di e c.

(** The row [UNIQUE (platform, conversation_id, external_message_id)] names. *)
Definition find_message (platform conversationID messageID : string) (st : QueueStore)
  : option (string * RawEvent) :=
  head (select_rows (fun _ row =>
    bool_decide (Row_Platform row = platform) && bool_decide (Row_ConversationID row = conversationID) &&
    bool_decide (ExternalMessageID row = messageID)) (events st)).

(** [connector_result_json->>'reason' IS DISTINCT FROM $n] is its negation. *)
Definition superseded (row : RawEvent) : bool :=
  bool_decide (Reason (Row_Result row) = SupersededRequestReason).

(** [status IN ('pending', 'running')] *)
Definition is_open (status : DeliveryStatus) : bool :=
  match status with StatusPending | StatusRunning => true | _ => false end.

Inductive QueueError :=
| QueueNoRows
| QueueConstraintViolation.

Definition queue_conversation (event : PlatformInboundEvent) : string :=
  Event_Platform event +:+ ":" +:+ Event_ConversationID event.

(** ** The repository's statements *)

Module RawEventRepository.

(** *** Messages into the queue *)

Definition new_row (now : instant) (event : PlatformInboundEvent) (messageID : string)
    (document : EventDocument) (status : DeliveryStatus) : RawEvent :=
  MkRawEvent (Event_Platform event) (queue_conversation event) messageID document status 0 now None None
    "" no_result now.

Definition superseded_result (result : ConnectorRuntimeResult) : ConnectorRuntimeResult :=
  MkResult true (Result_Platform result) (Duplicate result) (Ignored result) SupersededRequestReason
    (Result_TaskRunID result) (ReplyDispatchID result).

Definition superseded_row (now : instant) (row : RawEvent) : RawEvent :=
  set_Status StatusSucceeded (set_CompletedAt now
    (set_Row_Result (superseded_result (Row_Result row)) (set_Row_Error "" row))).

Definition suppressed_reply (now : instant) (reason : string) (row : ReplyRow) : ReplyRow :=
  set_Reply_Status StatusSuppressed (set_Reply_CompletedAt now (set_Reply_Error reason row)).

Definition source_references (messages : list PendingRequestMessage) : list string :=
  filter (fun reference => reference <> "") (TrimSpace ∘ SourceReference <$> messages).

Definition suppressSupersededConnectorEvents (now : instant) (messages : list PendingRequestMessage)
    (st : QueueStore) : QueueStore :=
  let references := source_references messages in
  if bool_decide (references = []) then st else
  MkQueueStore
    (update_rows (fun id _ => bool_decide (id ∈ references)) (superseded_row now) (events st))
    (update_rows (fun _ row => bool_decide (Reply_RawEventID row ∈ references) && is_open (Reply_Status row))
      (suppressed_reply now SupersededRequestReason) (replies st)).

Definition connectorResultReason (status : DeliveryStatus) : string :=
  match status with
  | StatusPending => "queued"
  | StatusRunning => "running"
  | StatusFailed => "failed"
  | StatusSucceeded => "succeeded"
  | StatusSuppressed => "suppressed"
  end.

Definition GetConnectorResultByRawEventID (event : PlatformInboundEvent) (st : QueueStore)
  : result QueueError ConnectorRuntimeResult :=
  match events st !! DedupeKey event with
  | None => Err QueueNoRows
  | Some row =>
    Ok (if Handled (Row_Result row) then Row_Result row
        else MkResult true (Event_Platform event) false false (connectorResultReason (Status row)) "" "")
  end.

(** The insert into [raw_event]; [None] where [ON CONFLICT] does nothing. *)
Definition insert_event (id : string) (row : RawEvent) (st : QueueStore)
  : result QueueError (option QueueStore) :=
  match find_message (Row_Platform row) (Row_ConversationID row) (ExternalMessageID row) st with
  | Some _ => Ok None
  | None =>
    match events st !! id with
    | Some _ => Err QueueConstraintViolation
    | None => Ok (Some (set_events <[id := row]> st))
    end
  end.

Definition TryEnqueueConnectorEvent (now : instant) (event : PlatformInboundEvent) (st : QueueStore)
  : result QueueError (QueueStore * (bool * ConnectorRuntimeResult)) :=
  let row := new_row now event (ExternalEventID event) (marshalConnectorEvent event) StatusPending in
  inserted ← insert_event (DedupeKey event) row st;
  match inserted with
  | Some st' => Ok (suppressSupersededConnectorEvents now (PreviousMessages event) st', (false, no_result))
  | None => res ← GetConnectorResultByRawEventID event st; Ok (st, (true, res))
  end.

(** *** Claiming messages *)

Definition event_due (now staleStartedAt : instant) (row : RawEvent) : bool :=
  has_document (Document row) &&
  match Status row with
  | StatusPending => negb (After (Row_NextAttemptAt row) now)
  | StatusRunning => match StartedAt row with Some t => negb (After t staleStartedAt) | None => false end
  | _ => false
  end.

Definition ingested_before (left right : string * RawEvent) : bool := IngestedAt left.2 <? IngestedAt right.2.

(** The rows [burst] joins to the [head] of the queue. *)
Definition same_burst (head row : RawEvent) : bool :=
  bool_decide (Row_Platform row = Row_Platform head) &&
  bool_decide (Row_ConversationID row = Row_ConversationID head) &&
  bool_decide (document_senderID (Document row) = document_senderID (Document head)).

Definition claimed_event (now : instant) (row : RawEvent) : RawEvent :=
  set_Status StatusRunning (set_StartedAt now (set_AttemptCount (AttemptCount row + 1) (set_Row_Error "" row))).

Definition queued_event (row : RawEvent) : QueuedConnectorEvent :=
  MkQueuedEvent (unmarshalConnectorEvent (Document row)) (AttemptCount row).

(** Rows ingested at the same instant come in the order of the table. *)
Definition ClaimPendingConnectorEvents (now : instant) (locked : gset string) (limit : Z)
    (leaseDuration : duration) (st : QueueStore) : QueueStore * list QueuedConnectorEvent :=
  let limit := if limit <=? 0 then 1 else limit in
  let staleStartedAt := Add now (- leaseDuration) in
  let claimable id row := event_due now staleStartedAt row && negb (bool_decide (id ∈ locked)) in
  match stable_sort ingested_before (select_rows claimable (events st)) with
  | [] => (st, [])
  | (headID, head) :: _ =>
    let others := select_rows (fun id row =>
      claimable id row && negb (bool_decide (id = headID)) && same_burst head row) (events st) in
    let burst := take (Z.to_nat (limit - 1)) (stable_sort ingested_before others) in
    let claimed := (headID, head) :: burst in
    (set_events (update_rows (fun id _ => bool_decide (id ∈ claimed.*1)) (claimed_event now)) st,
     (fun claim => queued_event (claimed_event now claim.2)) <$> stable_sort ingested_before claimed)
  end.

(** *** Settling messages *)

Definition MarkConnectorEventSucceeded (now : instant) (event : PlatformInboundEvent)
    (result : ConnectorRuntimeResult) : QueueStore -> QueueStore :=
  set_events (update_rows (fun id row => bool_decide (id = DedupeKey event) && negb (superseded row))
    (fun row => set_Status StatusSucceeded (set_CompletedAt now (set_Row_Result result (set_Row_Error "" row))))).

(** The zero [nextAttemptAt] gives the message up. *)
Definition MarkConnectorEventFailed (now : instant) (queuedEvent : QueuedConnectorEvent) (message : string)
    (nextAttemptAt : instant) : QueueStore -> QueueStore :=
  let status := if IsZero nextAttemptAt then StatusFailed else StatusPending in
  let nextAttemptAt := if IsZero nextAttemptAt then now else nextAttemptAt in
  set_events (update_rows
    (fun id row => bool_decide (id = DedupeKey (QueuedEvent queuedEvent)) && negb (superseded row))
    (fun row => set_Status status (set_Row_NextAttemptAt nextAttemptAt
      (set_CompletedAt now (set_Row_Error message row))))).

Definition ReleaseConnectorEventClaim (queuedEvent : QueuedConnectorEvent) (nextAttemptAt : instant)
  : QueueStore -> QueueStore :=
  set_events (update_rows
    (fun id row => bool_decide (id = DedupeKey (QueuedEvent queuedEvent)) &&
       bool_decide (Status row = StatusRunning))
    (fun row => set_Status StatusPending (set_Row_NextAttemptAt nextAttemptAt
      (set_AttemptCount (Z.max (AttemptCount row - 1) 0) row)))).

(** *** Replies *)

Definition connectorReplyOutboxID (rawEventID : string) (reply : OutboundReply) : string :=
  let document := String.concat (String "000" "")
    [TrimSpace rawEventID; TrimSpace (Reply_TaskRunID reply); TrimSpace (ReplyKind reply);
     TrimSpace (Message reply)] in
  let digest := Sum256 (bytes_of document) in
  TrimSpace rawEventID +:+ ":reply:" +:+ TrimSpace (ReplyKind reply) +:+ ":" +:+
  of_bytes (EncodeToString (take 8 digest)).

Definition ensureSyntheticRawEvent (now : instant) (event : PlatformInboundEvent) (st : QueueStore)
  : result QueueError QueueStore :=
  let rawEventID := DedupeKey event in
  let messageID := if bool_decide (ExternalEventID event = "") then rawEventID else ExternalEventID event in
  match events st !! rawEventID with
  | Some _ => Ok st
  | None =>
    match find_message (Event_Platform event) (queue_conversation event) messageID st with
    | Some _ => Err QueueConstraintViolation
    | None => Ok (set_events <[rawEventID := new_row now event messageID NoDocument StatusSucceeded]> st)
    end
  end.

Definition insert_reply (outboxID : string) (row : ReplyRow) (st : QueueStore) : QueueStore :=
  match replies st !! outboxID with
  | Some _ => st
  | None => set_replies <[outboxID := row]> st
  end.

Definition address_reply (rawEventID outboxID : string) (reply : OutboundReply) : OutboundReply :=
  MkReply (Message reply) (Reply_TaskRunID reply) (ReplyKind reply) rawEventID outboxID
    (Reply_Attachments reply) (Reply_RecoveryActions reply) (FailureNotice reply) (Interaction reply).

Definition pending_reply (now : instant) (rawEventID platform : string) (target : ReplyTarget)
    (reply : OutboundReply) : ReplyRow :=
  MkReplyRow rawEventID platform target reply StatusPending 0 now None None "" "" now.

(** The outbox ID is empty where the message of the reply is superseded. *)
Definition EnqueueConnectorReply (now : instant) (event : PlatformInboundEvent) (target : ReplyTarget)
    (reply : OutboundReply) (st : QueueStore) : result QueueError (QueueStore * string) :=
  let rawEventID := DedupeKey event in
  let outboxID := connectorReplyOutboxID rawEventID reply in
  st ← ensureSyntheticRawEvent now event st;
  match events st !! rawEventID with
  | None => Err QueueNoRows
  | Some row =>
    if superseded row then Ok (st, "") else
    Ok (insert_reply outboxID
          (pending_reply now rawEventID (Event_Platform event) target
            (address_reply rawEventID outboxID reply)) st, outboxID)
  end.

Definition EnqueueScheduledConnectorReply (now : instant) (schedule : Schedule) (taskRunID : string)
    (reply : OutboundReply) (st : QueueStore) : result QueueError (QueueStore * string) :=
  let rawEventID := "schedule:" +:+ ScheduleID schedule +:+ ":task:" +:+ taskRunID in
  let conversationID := Platform schedule +:+ ":" +:+ ConversationID schedule in
  let reply := MkReply (Message reply)
    (if blank (Reply_TaskRunID reply) then taskRunID else Reply_TaskRunID reply)
    (if blank (ReplyKind reply) then "success" else ReplyKind reply)
    rawEventID rawEventID (Reply_Attachments reply) (Reply_RecoveryActions reply) (FailureNotice reply) (Interaction reply) in
  let target := MkReplyTarget (ConversationID schedule) (ReplyTargetID schedule) "" rawEventID in
  let row := MkRawEvent (Platform schedule) conversationID rawEventID NoDocument StatusSucceeded 0 now
    None None "" no_result now in
  let insert st := insert_reply rawEventID
    (pending_reply now rawEventID (Platform schedule) target reply) st in
  match events st !! rawEventID with
  | Some _ => Ok (insert st, rawEventID)
  | None =>
    match find_message (Platform schedule) conversationID rawEventID st with
    | Some _ => Err QueueConstraintViolation
    | None => Ok (insert (set_events <[rawEventID := row]> st), rawEventID)
    end
  end.

Definition reply_due (now staleStartedAt : instant) (row : ReplyRow) : bool :=
  match Reply_Status row with
  | StatusPending => negb (After (Reply_NextAttemptAt row) now)
  | StatusRunning => match Reply_StartedAt row with Some t => negb (After t staleStartedAt) | None => false end
  | _ => false
  end.

Definition created_before (left right : string * ReplyRow) : bool :=
  Reply_CreatedAt left.2 <? Reply_CreatedAt right.2.

Definition claimed_reply (now : instant) (row : ReplyRow) : ReplyRow :=
  set_Reply_Status StatusRunning (set_Reply_StartedAt now
    (set_Reply_Attempts (Reply_Attempts row + 1) (set_Reply_Error "" row))).

Definition queued_reply (outboxID : string) (row : ReplyRow) : QueuedConnectorReply :=
  MkQueuedReply outboxID (Reply_RawEventID row) (Reply_Platform row) (Reply_Target row) (Reply_Document row)
    (Reply_Attempts row).

Definition ClaimPendingConnectorReplies (now : instant) (locked : gset string) (limit : Z)
    (leaseDuration : duration) (st : QueueStore) : QueueStore * list QueuedConnectorReply :=
  let limit := if limit <=? 0 then 1 else limit in
  let staleStartedAt := Add now (- leaseDuration) in
  let candidates := select_rows (fun id row =>
    reply_due now staleStartedAt row && negb (bool_decide (id ∈ locked))) (replies st) in
  let claim := take (Z.to_nat limit) (stable_sort created_before candidates) in
  (set_replies (update_rows (fun id _ => bool_decide (id ∈ claim.*1)) (claimed_reply now)) st,
   (fun '(id, row) => queued_reply id (claimed_reply now row)) <$> claim).

Definition MarkConnectorReplySent (now : instant) (queuedReply : QueuedConnectorReply) (dispatchID : string)
  : QueueStore -> QueueStore :=
  set_replies (update_rows (fun id _ => bool_decide (id = Queued_OutboxID queuedReply))
    (fun row => set_Reply_Status StatusSucceeded (set_DispatchID dispatchID
      (set_Reply_CompletedAt now (set_Reply_Error "" row))))).

Definition MarkConnectorReplyFailed (now : instant) (queuedReply : QueuedConnectorReply) (message : string)
    (nextAttemptAt : instant) : QueueStore -> QueueStore :=
  let status := if IsZero nextAttemptAt then StatusFailed else StatusPending in
  let nextAttemptAt := if IsZero nextAttemptAt then now else nextAttemptAt in
  set_replies (update_rows (fun id _ => bool_decide (id = Queued_OutboxID queuedReply))
    (fun row => set_Reply_Status status (set_Reply_NextAttemptAt nextAttemptAt
      (set_Reply_CompletedAt now (set_Reply_Error message row))))).

Definition SuppressConnectorReply (now : instant) (queuedReply : QueuedConnectorReply) (reason : string)
  : QueueStore -> QueueStore :=
  set_replies (update_rows
    (fun id row => bool_decide (id = Queued_OutboxID queuedReply) && is_open (Reply_Status row))
    (suppressed_reply now reason)).

(** *** What a restart reads *)

Definition has_reply (id : string) (c : DeliveryStatus -> bool) (st : QueueStore) : bool :=
  negb (bool_decide (select_rows (fun _ row =>
    bool_decide (Reply_RawEventID row = id) && c (Reply_Status row)) (replies st) = [])).

Definition unanswered (st : QueueStore) (id : string) (row : RawEvent) : bool :=
  has_document (Document row) &&
  (is_open (Status row) || bool_decide (Status row = StatusSucceeded) && has_reply id is_open st) &&
  negb (has_reply id (fun status => bool_decide (status = StatusSucceeded)) st).

Definition ingested_then_ID (left right : string * RawEvent) : bool :=
  (IngestedAt left.2 <? IngestedAt right.2) ||
  (IngestedAt left.2 =? IngestedAt right.2) && String.ltb left.1 right.1.

Definition ListUnansweredConnectorEvents (st : QueueStore) : list PlatformInboundEvent :=
  unmarshalConnectorEvent ∘ Document ∘ snd <$>
  stable_sort ingested_then_ID (select_rows (unanswered st) (events st)).

End RawEventRepository.

Export RawEventRepository.

(** ** Any sequence of statements *)

Inductive QueueOperation :=
| OpEnqueueEvent (now : instant) (event : PlatformInboundEvent)
| OpClaimEvents (now : instant) (locked : gset string) (limit : Z) (lease : duration)
| OpEventSucceeded (now : instant) (event : PlatformInboundEvent) (result : ConnectorRuntimeResult)
| OpEventFailed (now : instant) (queuedEvent : QueuedConnectorEvent) (message : string) (next : instant)
| OpReleaseClaim (queuedEvent : QueuedConnectorEvent) (next : instant)
| OpEnqueueReply (now : instant) (event : PlatformInboundEvent) (target : ReplyTarget) (reply : OutboundReply)
| OpScheduledReply (now : instant) (schedule : Schedule) (taskRunID : string) (reply : OutboundReply)
| OpClaimReplies (now : instant) (locked : gset string) (limit : Z) (lease : duration)
| OpReplySent (now : instant) (queuedReply : QueuedConnectorReply) (dispatchID : string)
| OpReplyFailed (now : instant) (queuedReply : QueuedConnectorReply) (message : string) (next : instant)
| OpSuppressReply (now : instant) (queuedReply : QueuedConnectorReply) (reason : string).

Definition after {A} (st : QueueStore) (r : result QueueError (QueueStore * A)) : QueueStore :=
  match r with Ok (st', _) => st' | Err _ => st end.

(** Only events that are not malformed reach the queue ([HandleInboundEvent]). *)
Definition apply_queue (op : QueueOperation) (st : QueueStore) : QueueStore :=
  match op with
  | OpEnqueueEvent now event =>
    if bool_decide (malformedEventReason event = "") then after st (TryEnqueueConnectorEvent now event st) else st
  | OpClaimEvents now locked limit lease => (ClaimPendingConnectorEvents now locked limit lease st).1
  | OpEventSucceeded now event res => MarkConnectorEventSucceeded now event res st
  | OpEventFailed now queued message next => MarkConnectorEventFailed now queued message next st
  | OpReleaseClaim queued next => ReleaseConnectorEventClaim queued next st
  | OpEnqueueReply now event target reply => after st (EnqueueConnectorReply now event target reply st)
  | OpScheduledReply now schedule run reply => after st (EnqueueScheduledConnectorReply now schedule run reply st)
  | OpClaimReplies now locked limit lease => (ClaimPendingConnectorReplies now locked limit lease st).1
  | OpReplySent now queued dispatchID => MarkConnectorReplySent now queued dispatchID st
  | OpReplyFailed now queued message next => MarkConnectorReplyFailed now queued message next st
  | OpSuppressReply now queued reason => SuppressConnectorReply now queued reason st
  end.

Definition apply_queue_all (ops : list QueueOperation) (st : QueueStore) : QueueStore :=
  foldl (fun st op => apply_queue op st) st ops.

Definition empty_queue : QueueStore := MkQueueStore ∅ ∅.

(** The columns of [UNIQUE (platform, conversation_id, external_message_id)]. *)
Definition message_of (row : RawEvent) : string * string * string :=
  (Row_Platform row, Row_ConversationID row, ExternalMessageID row).

(** The document of a row is the event it was made for. *)
Definition document_sound (id : string) (row : RawEvent) : Prop :=
  match Document row with
  | NoDocument => True
  | PlainDocument _ => False
  | Envelope _ _ _ _ =>
    let event := unmarshalConnectorEvent (Document row) in
    DedupeKey event = id /\ Event_Platform event = Row_Platform row /\
    queue_conversation event = Row_ConversationID row /\ ExternalEventID event = ExternalMessageID row
  end.

Definition event_sound (id : string) (row : RawEvent) : Prop :=
  document_sound id row /\ 0 <= AttemptCount row /\
  (Status row = StatusRunning -> StartedAt row <> None) /\
  (superseded row = true -> Status row = StatusSucceeded) /\ Status row <> StatusSuppressed.

Definition reply_sound (st : QueueStore) (id : string) (row : ReplyRow) : Prop :=
  is_Some (events st !! Reply_RawEventID row) /\
  OutboxID (Reply_Document row) = id /\ RawEventID (Reply_Document row) = Reply_RawEventID row /\
  0 <= Reply_Attempts row /\ (Reply_Status row = StatusRunning -> Reply_StartedAt row <> None).

Record queue_sound (st : QueueStore) : Prop := {
  sound_messages : forall id1 id2 row1 row2, events st !! id1 = Some row1 -> events st !! id2 = Some row2 ->
    message_of row1 = message_of row2 -> id1 = id2;
  sound_events : forall id row, events st !! id = Some row -> event_sound id row;
  sound_replies : forall id row, replies st !! id = Some row -> reply_sound st id row;
}.

(** What no statement changes of a row, and what it keeps of a superseded one. *)
Definition event_keeps (row row' : RawEvent) : Prop :=
  message_of row' = message_of row /\ Document row' = Document row /\ IngestedAt row' = IngestedAt row /\
  (superseded row = true -> superseded row' = true).

Definition reply_keeps (row row' : ReplyRow) : Prop :=
  Reply_RawEventID row' = Reply_RawEventID row /\ Reply_Platform row' = Reply_Platform row /\
  Reply_Target row' = Reply_Target row /\ Reply_Document row' = Reply_Document row.

(** ** Lemmas on the statements *)

#[local] Ltac rows := repeat match goal with
  | row : RawEvent |- _ => destruct row
  | row : ReplyRow |- _ => destruct row
  end; cbn in *.

Lemma event_keeps_refl row : event_keeps row row.
Proof. by split_and!. Qed.

Lemma event_keeps_trans row1 row2 row3 :
  event_keeps row1 row2 -> event_keeps row2 row3 -> event_keeps row1 row3.
Proof. intros (? & ? & ? & ?) (? & ? & ? & ?); split_and!; [congruence..|tauto]. Qed.

Lemma reply_keeps_refl row : reply_keeps row row.
Proof. by split_and!. Qed.

#[export] Hint Resolve event_keeps_refl reply_keeps_refl : go.

Lemma find_message_Some platform conversationID messageID st id row :
  find_message platform conversationID messageID st = Some (id, row) ->
  events st !! id = Some row /\ message_of row = (platform, conversationID, messageID).
Proof.
  unfold find_message; intros Hh; set (rows := select_rows _ _) in Hh.
  assert (Hin : (id, row) ∈ rows) by (destruct rows; [done|injection Hh as ->; left]).
  apply elem_of_select_rows in Hin as [Hrow Hc]; bool_to_prop; split; [done|].
  unfold message_of; by subst.
Qed.

Lemma find_message_None platform conversationID messageID st :
  find_message platform conversationID messageID st = None <->
  forall id row, events st !! id = Some row -> message_of row <> (platform, conversationID, messageID).
Proof.
  unfold find_message; set (rows := select_rows _ _).
  assert (head rows = None <-> rows = []) as -> by (destruct rows; done).
  unfold rows; rewrite select_rows_nil; unfold message_of; split; intros Hall id row Hrow.
  - intros [= <- <- <-]; specialize (Hall id row Hrow); by rewrite !bool_decide_true in Hall by done.
  - specialize (Hall id row Hrow); repeat case_bool_decide; try done; by subst.
Qed.

(** With distinct messages, a row is the one its message finds. *)
Lemma find_message_of st id row :
  queue_sound st -> events st !! id = Some row ->
  find_message (Row_Platform row) (Row_ConversationID row) (ExternalMessageID row) st = Some (id, row).
Proof.
  intros Hs Hrow; destruct (find_message _ _ _ st) as [[id' row']|] eqn:Hf.
  - apply find_message_Some in Hf as [Hrow' Hm].
    assert (id' = id) as -> by by eapply sound_messages.
    by rewrite Hrow in Hrow'; injection Hrow' as ->.
  - rewrite find_message_None in Hf; by destruct (Hf id row Hrow).
Qed.

Lemma marshal_roundtrip event :
  MessageID event <> "" -> unmarshalConnectorEvent (marshalConnectorEvent event) = event.
Proof. destruct event; cbn; intros ?; by rewrite bool_decide_false. Qed.

(** ** Every statement keeps the tables sound *)

Record queue_evolves (st st' : QueueStore) : Prop := {
  evolves_sound : queue_sound st';
  evolves_event : forall id row, events st !! id = Some row ->
    exists row', events st' !! id = Some row' /\ event_keeps row row';
  evolves_reply : forall id row, replies st !! id = Some row ->
    exists row', replies st' !! id = Some row' /\ reply_keeps row row';
}.

Lemma queue_evolves_refl st : queue_sound st -> queue_evolves st st.
Proof. intros Hs; split; [done|intros id row Hrow; exists row; auto with go..]. Qed.

Lemma queue_evolves_trans st1 st2 st3 :
  queue_evolves st1 st2 -> queue_evolves st2 st3 -> queue_evolves st1 st3.
Proof.
  intros [_ He1 Hr1] [Hs He2 Hr2]; split; [done|..]; intros id row Hrow.
  - apply He1 in Hrow as (row' & (row'' & ? & ?)%He2 & ?); exists row''; split; [done|].
    by eapply event_keeps_trans.
  - apply Hr1 in Hrow as (row' & (row'' & ? & Hk)%Hr2 & Hk'); exists row''; split; [done|].
    destruct Hk as (? & ? & ? & ?), Hk' as (? & ? & ? & ?); split_and!; congruence.
Qed.

Lemma reply_sound_mono st st' id row :
  (forall id, is_Some (events st !! id) -> is_Some (events st' !! id)) ->
  reply_sound st id row -> reply_sound st' id row.
Proof. unfold reply_sound; intros Hall (? & ? & ? & ? & ?); auto. Qed.

Lemma update_events_evolves c f st :
  queue_sound st ->
  (forall id row, events st !! id = Some row -> c id row = true -> event_sound id row ->
    event_sound id (f row) /\ event_keeps row (f row)) ->
  queue_evolves st (set_events (update_rows c f) st).
Proof.
  intros Hs Hf.
  assert (Hev : forall id row', events (set_events (update_rows c f) st) !! id = Some row' ->
    exists row, events st !! id = Some row /\ event_sound id row' /\ event_keeps row row').
  { cbn; intros id row'; rewrite lookup_update_rows.
    destruct (events st !! id) as [row|] eqn:Hrow; [|done]; intros [= <-].
    exists row; split; [done|]; pose proof (sound_events _ Hs _ _ Hrow).
    destruct (c id row) eqn:Hc; [by apply Hf|auto with go]. }
  split; [split|..].
  - intros id1 id2 row1 row2 (old1 & Ho1 & _ & Hk1 & _)%Hev (old2 & Ho2 & _ & Hk2 & _)%Hev Hm.
    eapply (sound_messages _ Hs); [done..|congruence].
  - by intros id row (? & ? & ? & ?)%Hev.
  - intros id row Hrow; eapply reply_sound_mono; [|by apply (sound_replies _ Hs)].
    cbn; intros id' [r Hr]; rewrite lookup_update_rows, Hr; by eexists.
  - cbn; intros id row Hrow; rewrite lookup_update_rows, Hrow; eexists; split; [done|].
    destruct (c id row) eqn:Hc; [|auto with go]; by apply (Hf id row); [..|apply (sound_events _ Hs)].
  - cbn; intros id row Hrow; eauto with go.
Qed.

Lemma update_replies_evolves c f st :
  queue_sound st ->
  (forall id row, c id row = true -> reply_sound st id row -> reply_sound st id (f row) /\ reply_keeps row (f row)) ->
  queue_evolves st (set_replies (update_rows c f) st).
Proof.
  intros Hs Hf; split; [split|..]; cbn.
  - apply (sound_messages _ Hs).
  - apply (sound_events _ Hs).
  - intros id row; rewrite lookup_update_rows.
    destruct (replies st !! id) as [old|] eqn:Hold; [|done]; intros [= <-].
    pose proof (sound_replies _ Hs _ _ Hold); destruct (c id old) eqn:Hc; [|done].
    by apply (Hf id old).
  - intros id row Hrow; eauto with go.
  - intros id row Hrow; rewrite lookup_update_rows, Hrow; eexists; split; [done|].
    destruct (c id row) eqn:Hc; [|auto with go]; apply (Hf id row); [done|]; by apply (sound_replies _ Hs).
Qed.

(** A new row, where its ID and its message are free. *)
Lemma insert_event_evolves id row st :
  queue_sound st -> events st !! id = None ->
  (forall id' row', events st !! id' = Some row' -> message_of row' <> message_of row) ->
  event_sound id row -> queue_evolves st (set_events <[id := row]> st).
Proof.
  intros Hs Hid Hm Hrow; split; [split|..]; cbn.
  - intros id1 id2 row1 row2; rewrite !lookup_insert_Some.
    intros [[<- <-]|[? H1]] [[<- <-]|[? H2]] Heq; [done| | |by eapply sound_messages].
    + by destruct (Hm id2 row2).
    + by destruct (Hm id1 row1).
  - intros id' row'; rewrite lookup_insert_Some; intros [[<- <-]|[_ Hr]]; [done|].
    by apply (sound_events _ Hs).
  - intros id' row' Hr; eapply reply_sound_mono; [|by apply (sound_replies _ Hs)].
    intros id'' Hs''; cbn; by apply lookup_insert_is_Some'; right.
  - intros id' row' Hr; exists row'; split; [|auto with go]; rewrite lookup_insert_ne; congruence.
  - intros id' row' Hr; eauto with go.
Qed.

Lemma insert_reply_evolves id row st :
  queue_sound st -> reply_sound st id row -> queue_evolves st (insert_reply id row st).
Proof.
  intros Hs Hrow; unfold insert_reply; destruct (replies st !! id) eqn:Hid; [by apply queue_evolves_refl|].
  split; [split|..]; cbn.
  - apply (sound_messages _ Hs).
  - apply (sound_events _ Hs).
  - intros id' row'; rewrite lookup_insert_Some; intros [[<- <-]|[_ Hr]]; [done|].
    by apply (sound_replies _ Hs).
  - intros id' row' Hr; eauto with go.
  - intros id' row' Hr; exists row'; split; [|auto with go]; rewrite lookup_insert_ne; congruence.
Qed.

Lemma new_row_sound now event messageID document status :
  status <> StatusRunning -> status <> StatusSuppressed ->
  document = NoDocument \/ (document = marshalConnectorEvent event /\ MessageID event <> "" /\
    messageID = ExternalEventID event) ->
  event_sound (DedupeKey event) (new_row now event messageID document status).
Proof.
  intros Hr Hsup Hd; unfold event_sound, document_sound; cbn -[unmarshalConnectorEvent marshalConnectorEvent].
  split_and!; [|done..].
  destruct Hd as [->|(-> & Hm & ->)]; [done|]; unfold marshalConnectorEvent at 1.
  by rewrite marshal_roundtrip.
Qed.

(** A change of a row's delivery: sound, whatever the row was. *)
#[local] Ltac settle_event :=
  intros; unfold event_sound, document_sound, event_keeps, message_of, superseded in *; rows; intuition (try congruence; try lia).

Lemma superseded_row_ok now id row :
  event_sound id row -> event_sound id (superseded_row now row) /\ event_keeps row (superseded_row now row).
Proof. unfold superseded_row; settle_event. Qed.

Lemma claimed_event_ok now id row :
  is_open (Status row) = true -> event_sound id row ->
  event_sound id (claimed_event now row) /\ event_keeps row (claimed_event now row).
Proof. unfold claimed_event; intros Ho; settle_event; by simplify_eq. Qed.

Lemma event_due_open now stale row : event_due now stale row = true -> is_open (Status row) = true.
Proof. unfold event_due; intros Hd; bool_to_prop; by destruct (Status row). Qed.

Lemma suppressSuperseded_evolves now messages st :
  queue_sound st -> queue_evolves st (suppressSupersededConnectorEvents now messages st).
Proof.
  intros Hs; unfold suppressSupersededConnectorEvents; case_bool_decide; [by apply queue_evolves_refl|].
  set (refs := source_references messages).
  eapply (queue_evolves_trans _
    (set_events (update_rows (fun id _ => bool_decide (id ∈ refs)) (superseded_row now)) st)).
  - apply update_events_evolves; [done|]; intros; by apply superseded_row_ok.
  - apply (update_replies_evolves _ _ (set_events _ st)).
    + apply update_events_evolves; [done|]; intros; by apply superseded_row_ok.
    + unfold reply_sound, reply_keeps, suppressed_reply; intros id row _ Hr; rows; intuition congruence.
Qed.

Lemma insert_event_cases id row st r :
  insert_event id row st = r ->
  match r with
  | Ok None => exists id' row', find_message (Row_Platform row) (Row_ConversationID row) (ExternalMessageID row) st =
      Some (id', row')
  | Ok (Some st') => st' = set_events <[id := row]> st /\ events st !! id = None /\
      forall id' row', events st !! id' = Some row' -> message_of row' <> message_of row
  | Err e => e = QueueConstraintViolation /\ is_Some (events st !! id)
  end.
Proof.
  unfold insert_event; intros <-; destruct (find_message _ _ _ st) as [[id' row']|] eqn:Hf; [by eexists _, _|].
  rewrite find_message_None in Hf; destruct (events st !! id) eqn:Hid; [by split|].
  split_and!; [done..|]; intros; by apply (Hf id').
Qed.

Lemma well_formed_MessageID event : malformedEventReason event = "" -> MessageID event <> "".
Proof. unfold malformedEventReason; intros Hm He; by rewrite He in Hm. Qed.

Lemma accepted_row_evolves now event st :
  let row := new_row now event (ExternalEventID event) (marshalConnectorEvent event) StatusPending in
  queue_sound st -> MessageID event <> "" -> events st !! DedupeKey event = None ->
  (forall id old, events st !! id = Some old -> message_of old <> message_of row) ->
  queue_evolves st (set_events <[DedupeKey event := row]> st).
Proof.
  intros row Hs Hm Hid Hfree; apply insert_event_evolves; [done..|].
  apply new_row_sound; [done..|]; by right.
Qed.

Lemma TryEnqueue_evolves now event st :
  queue_sound st -> MessageID event <> "" ->
  queue_evolves st (after st (TryEnqueueConnectorEvent now event st)).
Proof.
  intros Hs Hm; unfold TryEnqueueConnectorEvent.
  destruct (insert_event _ _ st) as [[st'|]|e] eqn:Hi; apply insert_event_cases in Hi; cbn.
  - destruct Hi as (-> & Hid & Hfree).
    pose proof (accepted_row_evolves now event st Hs Hm Hid Hfree) as Hev.
    eapply queue_evolves_trans; [done|]; by apply suppressSuperseded_evolves, Hev.
  - destruct (GetConnectorResultByRawEventID event st); by apply queue_evolves_refl.
  - by apply queue_evolves_refl.
Qed.

Lemma ensureSynthetic_evolves now event st st' :
  queue_sound st -> ensureSyntheticRawEvent now event st = Ok st' ->
  queue_evolves st st' /\ is_Some (events st' !! DedupeKey event).
Proof.
  intros Hs; unfold ensureSyntheticRawEvent; destruct (events st !! DedupeKey event) eqn:Hid.
  { intros [= <-]; split; [by apply queue_evolves_refl|by eexists]. }
  destruct (find_message _ _ _ st) eqn:Hf; [by intros ?|]; intros <-%Ok_inj.
  rewrite find_message_None in Hf; split; [|by cbn; rewrite lookup_insert_eq; eexists].
  apply insert_event_evolves; [exact Hs|exact Hid|intros ? ? Hr; exact (Hf _ _ Hr)|].
  apply new_row_sound; by auto.
Qed.

Lemma EnqueueReply_evolves now event target reply st :
  queue_sound st -> queue_evolves st (after st (EnqueueConnectorReply now event target reply st)).
Proof.
  intros Hs; unfold EnqueueConnectorReply.
  destruct (ensureSyntheticRawEvent now event st) as [st1|e] eqn:He; [|by apply queue_evolves_refl].
  apply ensureSynthetic_evolves in He as [Hev [row Hrow]]; [|done]; cbn; rewrite Hrow.
  destruct (superseded row); [done|]; cbn.
  eapply queue_evolves_trans; [done|]; apply insert_reply_evolves; [by apply Hev|].
  unfold reply_sound; cbn; split_and!; [by eexists|done..].
Qed.

Lemma EnqueueScheduled_evolves now schedule run reply st :
  queue_sound st -> queue_evolves st (after st (EnqueueScheduledConnectorReply now schedule run reply st)).
Proof.
  intros Hs; unfold EnqueueScheduledConnectorReply.
  destruct (events st !! _) as [row|] eqn:Hid; cbn -[append].
  - apply insert_reply_evolves; [done|]; unfold reply_sound; cbn -[append]; split_and!; [by eexists|done..].
  - destruct (find_message _ _ _ st) eqn:Hf; [by apply queue_evolves_refl|]; cbn -[append].
    rewrite find_message_None in Hf; set (id := _ +:+ _) in *.
    match goal with |- context [set_events <[id := ?r]> st] => set (row := r) end.
    assert (Hev : queue_evolves st (set_events <[id := row]> st)).
    { apply insert_event_evolves; [exact Hs|exact Hid|intros ? ? Hr; exact (Hf _ _ Hr)|].
      by unfold event_sound, document_sound, row, superseded; cbn. }
    eapply queue_evolves_trans; [done|]; apply insert_reply_evolves; [by apply Hev|].
    unfold reply_sound; cbn -[append]; rewrite lookup_insert_eq; split_and!; [by eexists|done..].
Qed.

(** *** Claims *)

Definition event_claimable (now : instant) (locked : gset string) (lease : duration) (id : string)
    (row : RawEvent) : bool :=
  event_due now (Add now (- lease)) row && negb (bool_decide (id ∈ locked)).

Lemma ingested_before_head l x rest y :
  stable_sort ingested_before l = x :: rest -> y ∈ l -> IngestedAt x.2 <= IngestedAt y.2.
Proof.
  intros Hs Hy; destruct (stable_sort_head ingested_before) with l x rest y as [->|Hb];
    unfold ingested_before in *; intros; bool_to_prop; try done; try lia; apply Z.ltb_ge; lia.
Qed.

Record claim_taken (now : instant) (locked : gset string) (limit : Z) (lease : duration) (st : QueueStore)
    (head : RawEvent) (claimed : list (string * RawEvent)) : Prop := {
  taken_NoDup : NoDup claimed.*1;
  taken_rows : forall id row, (id, row) ∈ claimed ->
    events st !! id = Some row /\ event_claimable now locked lease id row = true /\ same_burst head row = true;
  taken_head : exists id, (id, head) ∈ claimed;
  taken_oldest : forall id row, events st !! id = Some row -> event_claimable now locked lease id row = true ->
    IngestedAt head <= IngestedAt row;
  taken_length : Z.of_nat (length claimed) <= Z.max 1 limit;
}.

Lemma claim_spec now locked limit lease st :
  let claim := ClaimPendingConnectorEvents now locked limit lease st in
  claim = (st, []) /\ (forall id row, events st !! id = Some row ->
    event_claimable now locked lease id row = false) \/
  exists head claimed, claim_taken now locked limit lease st head claimed /\
    claim = (set_events (update_rows (fun id _ => bool_decide (id ∈ claimed.*1)) (claimed_event now)) st,
      (fun claim => queued_event (claimed_event now claim.2)) <$> stable_sort ingested_before claimed).
Proof.
  intros claim; unfold claim, ClaimPendingConnectorEvents; fold (event_claimable now locked lease).
  set (rows := select_rows _ (events st)).
  destruct (stable_sort ingested_before rows) as [|[headID head] rest] eqn:Hsort.
  { left; split; [done|]; apply select_rows_nil.
    pose proof (stable_sort_perm ingested_before rows) as Hp; rewrite Hsort in Hp.
    by apply Permutation_nil in Hp. }
  right; set (others := select_rows _ (events st)); set (burst := take _ (stable_sort ingested_before others)).
  exists head, ((headID, head) :: burst); split; [|done].
  assert (Hhead : (headID, head) ∈ rows)
    by (rewrite <- (stable_sort_perm ingested_before rows), Hsort; left).
  assert (Hburst : forall id row, (id, row) ∈ burst -> (id, row) ∈ others).
  { intros id row Hin; rewrite <- (stable_sort_perm ingested_before others).
    eapply elem_of_sublist; [done|apply sublist_take]. }
  pose proof Hhead as [Hh Hc]%elem_of_select_rows; split.
  - cbn; apply NoDup_cons; split.
    + intros ([id row] & Heq & Hin)%list_elem_of_fmap; cbn in Heq; subst id.
      apply Hburst, elem_of_select_rows in Hin as [_ Hb]; bool_to_prop; done.
    + eapply sublist_NoDup; [|apply fmap_sublist, sublist_take]; rewrite stable_sort_perm.
      apply select_rows_NoDup.
  - intros id row [[= -> ->]|Hin]%elem_of_cons.
    + split_and!; [done..|]; unfold same_burst; by rewrite !bool_decide_true.
    + apply Hburst, elem_of_select_rows in Hin as [Hr Hb].
      apply andb_true_iff in Hb as [[Hcl _]%andb_true_iff Hsame]; by split_and!.
  - exists headID; left.
  - intros id row Hrow Hcl; apply (ingested_before_head rows (headID, head) rest (id, row)); [done|].
    by apply elem_of_select_rows.
  - cbn; unfold burst; rewrite length_take; destruct (limit <=? 0) eqn:?; lia.
Qed.

Lemma claim_taken_row now locked limit lease st head claimed id row :
  claim_taken now locked limit lease st head claimed -> id ∈ claimed.*1 -> events st !! id = Some row ->
  (id, row) ∈ claimed.
Proof.
  intros Ht ([id' row'] & -> & Hin)%list_elem_of_fmap Hrow; cbn in *.
  destruct (taken_rows _ _ _ _ _ _ _ Ht _ _ Hin) as (Hr & _); congruence.
Qed.

Lemma event_claimable_open now locked lease id row :
  event_claimable now locked lease id row = true -> is_open (Status row) = true.
Proof. unfold event_claimable; intros Hc; apply andb_true_iff in Hc as [Hd _]; by eapply event_due_open. Qed.

Lemma ClaimEvents_evolves now locked limit lease st :
  queue_sound st -> queue_evolves st (ClaimPendingConnectorEvents now locked limit lease st).1.
Proof.
  intros Hs; destruct (claim_spec now locked limit lease st) as [[-> _]|(head & claimed & Ht & ->)]; cbn.
  { by apply queue_evolves_refl. }
  apply update_events_evolves; [done|]; intros id row Hrow Hc Hok; bool_to_prop.
  apply claimed_event_ok; [|done]; eapply event_claimable_open, taken_rows; [done|].
  by eapply claim_taken_row.
Qed.

Lemma claimed_reply_ok now st id row :
  reply_sound st id row -> reply_sound st id (claimed_reply now row) /\ reply_keeps row (claimed_reply now row).
Proof. unfold claimed_reply, reply_sound, reply_keeps; intros (? & ? & ? & ? & ?); rows; split_and!; done || lia. Qed.

Lemma settled_event_ok (c : string -> RawEvent -> bool) (f : RawEvent -> RawEvent) st :
  queue_sound st ->
  (forall id row, c id row = true -> superseded row = true -> event_sound id row -> False) ->
  (forall id row, event_sound id row -> superseded row = false ->
    event_sound id (f row) /\ event_keeps row (f row)) ->
  queue_evolves st (set_events (update_rows c f) st).
Proof.
  intros Hs Hc Hf; apply update_events_evolves; [done|]; intros id row _ Hcr Hok.
  apply Hf; [done|]; destruct (superseded row) eqn:Hsup; [|done]; by destruct (Hc id row).
Qed.

Lemma apply_queue_evolves op st : queue_sound st -> queue_evolves st (apply_queue op st).
Proof.
  intros Hs; destruct op; cbn [apply_queue].
  - case_bool_decide as Hm; [|by apply queue_evolves_refl].
    by apply TryEnqueue_evolves, well_formed_MessageID.
  - by apply ClaimEvents_evolves.
  - apply settled_event_ok; [done|..].
    + intros id row Hc Hsup _; bool_to_prop; congruence.
    + settle_event.
  - apply settled_event_ok; [done|..].
    + intros id row Hc Hsup _; bool_to_prop; congruence.
    + destruct (IsZero next); settle_event.
  - apply settled_event_ok; [done|..].
    + intros id row Hc Hsup Hok; bool_to_prop; destruct Hok as (_ & _ & _ & Hok & _); by rewrite Hok in H0.
    + settle_event.
  - by apply EnqueueReply_evolves.
  - by apply EnqueueScheduled_evolves.
  - apply update_replies_evolves; [done|]; intros; by apply claimed_reply_ok.
  - apply update_replies_evolves; [done|].
    unfold reply_sound, reply_keeps; intros id row _ Hr; rows; intuition congruence.
  - apply update_replies_evolves; [done|].
    unfold reply_sound, reply_keeps; intros id row _ Hr; rows; destruct (IsZero next); intuition congruence.
  - apply update_replies_evolves; [done|].
    unfold reply_sound, reply_keeps, suppressed_reply; intros id row _ Hr; rows; intuition congruence.
Qed.

Lemma apply_queue_all_evolves ops st : queue_sound st -> queue_evolves st (apply_queue_all ops st).
Proof.
  revert st; induction ops as [|op ops IH]; intros st Hs; [by apply queue_evolves_refl|]; cbn.
  eapply queue_evolves_trans; [by apply apply_queue_evolves|]; by apply IH, apply_queue_evolves.
Qed.

Lemma empty_queue_sound : queue_sound empty_queue.
Proof. split; cbn; intros *; by rewrite ?lookup_empty. Qed.

(** ** What claims promise *)

Definition queued_key (queued : QueuedConnectorEvent) : string := DedupeKey (QueuedEvent queued).

(** The event of a claimed row names the row. *)
Lemma queued_key_row st id row :
  queue_sound st -> events st !! id = Some row -> has_document (Document row) = true ->
  queued_key (queued_event row) = id /\ queue_conversation (QueuedEvent (queued_event row)) = Row_ConversationID row.
Proof.
  intros Hs Hrow Hd; destruct (sound_events _ Hs _ _ Hrow) as (Hdoc & _).
  unfold document_sound in Hdoc; unfold queued_key, queued_event; cbn -[unmarshalConnectorEvent].
  destruct (Document row); [done| |done]; by destruct Hdoc as (? & ? & ? & ?).
Qed.

Lemma event_claimable_document now locked lease id row :
  event_claimable now locked lease id row = true -> has_document (Document row) = true.
Proof. unfold event_claimable, event_due; intros Hc; by repeat (apply andb_true_iff in Hc as [Hc _]). Qed.

Lemma claimed_event_document now row : Document (claimed_event now row) = Document row.
Proof. by destruct row. Qed.

Lemma claimed_event_conversation now row : Row_ConversationID (claimed_event now row) = Row_ConversationID row.
Proof. by destruct row. Qed.

Lemma queued_event_claimed now row :
  QueuedEvent (queued_event (claimed_event now row)) = QueuedEvent (queued_event row).
Proof. unfold queued_event; by rewrite claimed_event_document. Qed.

(** A running row is not due before its lease ends. *)
Lemma claimed_not_claimable now now2 locked2 lease id row :
  now2 < now + lease -> event_claimable now2 locked2 lease id (claimed_event now row) = false.
Proof.
  intros Hlt; unfold event_claimable, event_due, claimed_event, Add, After; rows.
  assert ((now2 + - lease <? now) = true) as -> by (apply Z.ltb_lt; lia); by rewrite andb_false_r.
Qed.

Section claim.
Variables (now : instant) (locked : gset string) (limit : Z) (lease : duration) (st : QueueStore).
Variables (head : RawEvent) (claimed : list (string * RawEvent)).
Hypothesis Hsound : queue_sound st.
Hypothesis Htaken : claim_taken now locked limit lease st head claimed.

Let queued := (fun claim => queued_event (claimed_event now claim.2)) <$> stable_sort ingested_before claimed.
Let st' := set_events (update_rows (fun id _ => bool_decide (id ∈ claimed.*1)) (claimed_event now)) st.

Lemma claimed_row id row : (id, row) ∈ claimed ->
  events st !! id = Some row /\ event_claimable now locked lease id row = true /\
  queued_key (queued_event (claimed_event now row)) = id /\
  queue_conversation (QueuedEvent (queued_event (claimed_event now row))) = Row_ConversationID head.
Proof.
  intros Hin; destruct (taken_rows _ _ _ _ _ _ _ Htaken _ _ Hin) as (Hrow & Hcl & Hsame).
  destruct (queued_key_row st id row) as [Hk Hcv]; [done|done|by eapply event_claimable_document|].
  unfold queued_key in *; rewrite queued_event_claimed; split_and!; [done..|].
  unfold same_burst in Hsame; bool_to_prop; congruence.
Qed.

(** The queued events of a claim, by their rows. *)
Lemma claimed_queued q :
  q ∈ queued -> exists row, (queued_key q, row) ∈ claimed /\ q = queued_event (claimed_event now row).
Proof.
  intros ([id row] & -> & Hin)%list_elem_of_fmap; rewrite stable_sort_perm in Hin; cbn.
  exists row; split; [|done]; by destruct (claimed_row id row) as (_ & _ & -> & _).
Qed.

Lemma claimed_keys : queued_key <$> queued ≡ₚ claimed.*1.
Proof.
  rewrite <- (stable_sort_perm ingested_before claimed); unfold queued.
  rewrite <- list_fmap_compose; apply Permutation_refl', list_fmap_ext; intros i [id row] Hin.
  apply list_elem_of_lookup_2 in Hin; rewrite stable_sort_perm in Hin; by apply claimed_row.
Qed.

Lemma claimed_lookup id :
  events st' !! id = (fun row => if bool_decide (id ∈ claimed.*1) then claimed_event now row else row)
    <$> events st !! id.
Proof. apply lookup_update_rows. Qed.

Lemma claimed_lookup_taken id row : (id, row) ∈ claimed -> events st' !! id = Some (claimed_event now row).
Proof.
  intros Hin; rewrite claimed_lookup; destruct (claimed_row _ _ Hin) as (-> & _); cbn.
  rewrite bool_decide_true; [done|]; apply list_elem_of_fmap; by exists (id, row).
Qed.

(** The oldest of a claim. *)
Lemma claimed_head : exists q, q ∈ queued /\ events st !! queued_key q = Some head.
Proof.
  destruct (taken_head _ _ _ _ _ _ _ Htaken) as [hid Hh]; exists (queued_event (claimed_event now head)); split.
  - apply list_elem_of_fmap; exists (hid, head); by rewrite stable_sort_perm.
  - by destruct (claimed_row _ _ Hh) as (? & _ & -> & _).
Qed.

(** What is claimed stays with its worker until the lease ends. *)
Lemma claimed_not_claimed_again now2 locked2 limit2 q :
  queue_sound st' -> now2 < now + lease ->
  q ∈ (ClaimPendingConnectorEvents now2 locked2 limit2 lease st').2 -> (queued_key q ∉ queued_key <$> queued).
Proof using All.
  intros Hs' Hlt Hq Hin; rewrite claimed_keys in Hin.
  apply list_elem_of_fmap in Hin as ([id row] & Hid & Hr); cbn in Hid; subst id.
  destruct (claim_spec now2 locked2 limit2 lease st') as [[He2 _]|(head2 & claimed2 & Ht2 & He2)];
    rewrite He2 in Hq; cbn in Hq; [by apply elem_of_nil in Hq|].
  apply list_elem_of_fmap in Hq as ([id2 row2] & -> & Hr2); rewrite stable_sort_perm in Hr2; cbn in *.
  destruct (taken_rows _ _ _ _ _ _ _ Ht2 _ _ Hr2) as (Hrow2 & Hcl2 & _).
  destruct (queued_key_row st' id2 row2) as [Hk _]; [done|done|by eapply event_claimable_document|].
  unfold queued_key in *; rewrite queued_event_claimed in Hr; rewrite Hk in Hr.
  apply claimed_lookup_taken in Hr; rewrite Hr in Hrow2; injection Hrow2 as <-.
  by rewrite claimed_not_claimable in Hcl2.
Qed.

End claim.

(** A claim takes distinct messages of one conversation, at most as many as it may,
    none of them locked or in another worker's lease, the oldest that is due among
    them; it leaves every other row as it is, and takes nothing only if nothing is due.
    Each claim counts as an attempt.  Until the lease ends no other claim returns a
    claimed message, whatever it has locked, its limit and the time. *)
Theorem event_claims_are_exclusive now locked limit lease st st' queued :
  queue_sound st -> ClaimPendingConnectorEvents now locked limit lease st = (st', queued) ->
  NoDup (queued_key <$> queued) /\ Z.of_nat (length queued) <= Z.max 1 limit /\
  (forall q, q ∈ queued -> exists row, events st !! queued_key q = Some row /\
    event_claimable now locked lease (queued_key q) row = true /\
    events st' !! queued_key q = Some (claimed_event now row) /\ q = queued_event (claimed_event now row)) /\
  (forall q1 q2, q1 ∈ queued -> q2 ∈ queued ->
    queue_conversation (QueuedEvent q1) = queue_conversation (QueuedEvent q2)) /\
  (forall id, (id ∉ queued_key <$> queued) -> events st' !! id = events st !! id) /\ replies st' = replies st /\
  (forall id row, events st !! id = Some row -> event_claimable now locked lease id row = true ->
    exists q old, q ∈ queued /\ events st !! queued_key q = Some old /\ IngestedAt old <= IngestedAt row) /\
  (forall now2 locked2 limit2 q, now2 < now + lease ->
    q ∈ (ClaimPendingConnectorEvents now2 locked2 limit2 lease st').2 -> (queued_key q ∉ queued_key <$> queued)).
Proof.
  intros Hs Hc; pose proof (ClaimEvents_evolves now locked limit lease st Hs) as [Hs' _ _]; rewrite Hc in Hs'.
  destruct (claim_spec now locked limit lease st) as [[He Hno]|(head & claimed & Ht & He)];
    rewrite He in Hc; injection Hc as <- <-.
  { split_and!; [apply NoDup_nil_2|cbn; lia|by intros ? ?%elem_of_nil|by intros ? ? ?%elem_of_nil|done..| |].
    - intros id row Hrow Hcl; by rewrite (Hno id row Hrow) in Hcl.
    - intros; apply not_elem_of_nil. }
  pose proof (claimed_keys _ _ _ _ _ _ _ Hs Ht) as Hkeys; split_and!.
  - rewrite Hkeys; by eapply taken_NoDup.
  - rewrite length_fmap, stable_sort_perm; by eapply taken_length.
  - intros q (row & Hr & Hq)%(claimed_queued _ _ _ _ _ _ _ Hs Ht).
    destruct (claimed_row _ _ _ _ _ _ _ Hs Ht _ _ Hr) as (Hrow & Hcl & _).
    exists row; split_and!; [exact Hrow|exact Hcl|by eapply claimed_lookup_taken|exact Hq].
  - intros q1 q2 (row1 & Hr1 & ->)%(claimed_queued _ _ _ _ _ _ _ Hs Ht)
      (row2 & Hr2 & ->)%(claimed_queued _ _ _ _ _ _ _ Hs Ht).
    destruct (claimed_row _ _ _ _ _ _ _ Hs Ht _ _ Hr1) as (_ & _ & _ & ->).
    by destruct (claimed_row _ _ _ _ _ _ _ Hs Ht _ _ Hr2) as (_ & _ & _ & ->).
  - intros id Hid; rewrite claimed_lookup, bool_decide_false by by rewrite <- Hkeys.
    by destruct (events st !! id).
  - done.
  - intros id row Hrow Hcl; destruct (claimed_head _ _ _ _ _ _ _ Hs Ht) as (q & Hq & Hold).
    exists q, head; split_and!; [exact Hq|exact Hold|by eapply taken_oldest].
  - intros now2 locked2 limit2 q Hlt Hq.
    exact (claimed_not_claimed_again _ _ _ _ _ _ _ Hs Ht _ _ _ _ Hs' Hlt Hq).
Qed.

(** ** Messages that others supersede *)

Lemma suppressSuperseded_lookup now messages st id row :
  id ∈ source_references messages -> events st !! id = Some row ->
  events (suppressSupersededConnectorEvents now messages st) !! id = Some (superseded_row now row).
Proof.
  intros Hin Hrow; unfold suppressSupersededConnectorEvents.
  rewrite bool_decide_false by (intros He; rewrite He in Hin; by apply elem_of_nil in Hin); cbn.
  by rewrite lookup_update_rows, Hrow; cbn; rewrite bool_decide_true.
Qed.

Lemma suppressSuperseded_replies now messages st id oid row :
  id ∈ source_references messages ->
  replies (suppressSupersededConnectorEvents now messages st) !! oid = Some row ->
  Reply_RawEventID row = id -> is_open (Reply_Status row) = false.
Proof.
  intros Hin; unfold suppressSupersededConnectorEvents.
  rewrite bool_decide_false by (intros He; rewrite He in Hin; by apply elem_of_nil in Hin); cbn.
  rewrite lookup_update_rows; destruct (replies st !! oid) as [old|]; [|done]; intros [= <-] Hid.
  destruct (bool_decide _ && is_open (Reply_Status old)) eqn:Hc; [by destruct old|].
  apply andb_false_iff in Hc as [Hc|Hc]; [|done]; bool_to_prop; by rewrite Hid in Hc.
Qed.

(** The new row of an accepted message, and what its predecessors become. *)
Lemma TryEnqueue_new now event st st' res :
  TryEnqueueConnectorEvent now event st = Ok (st', (false, res)) ->
  exists row, row = new_row now event (ExternalEventID event) (marshalConnectorEvent event) StatusPending /\
  events st !! DedupeKey event = None /\
  (forall id old, events st !! id = Some old -> message_of old <> message_of row) /\
  st' = suppressSupersededConnectorEvents now (PreviousMessages event)
          (set_events <[DedupeKey event := row]> st).
Proof.
  unfold TryEnqueueConnectorEvent; set (row := new_row _ _ _ _ _).
  destruct (insert_event _ row st) as [[st1|]|e] eqn:Hi; apply insert_event_cases in Hi; cbn; [|..|done].
  - intros [= <- _]; exists row; by destruct Hi as (-> & ? & ?).
  - by destruct (GetConnectorResultByRawEventID event st).
Qed.

Lemma superseded_not_claimed st id row now locked limit lease q :
  queue_sound st -> events st !! id = Some row -> superseded row = true ->
  q ∈ (ClaimPendingConnectorEvents now locked limit lease st).2 -> queued_key q <> id.
Proof.
  intros Hs Hrow Hsup Hq <-.
  destruct (claim_spec now locked limit lease st) as [[He _]|(head & claimed & Ht & He)]; rewrite He in Hq.
  { by apply elem_of_nil in Hq. }
  apply (claimed_queued _ _ _ _ _ _ _ Hs Ht) in Hq as (old & Hin & _).
  destruct (claimed_row _ _ _ _ _ _ _ Hs Ht _ _ Hin) as (Hold & Hcl & _).
  rewrite Hrow in Hold; injection Hold as <-; apply event_claimable_open in Hcl.
  destruct (sound_events _ Hs _ _ Hrow) as (_ & _ & _ & Hok & _); by rewrite Hok in Hcl.
Qed.

(** C2. A message that revises earlier ones settles them when it is accepted: none of
    their replies is left in the outbox, and whatever any worker does afterwards -
    late successes and failures, released claims, repeated messages - they stay
    superseded, no claim returns them, and no reply of theirs is stored. *)
Theorem revised_messages_stay_settled now event st st1 res ops id row :
  queue_sound st -> MessageID event <> "" -> TryEnqueueConnectorEvent now event st = Ok (st1, (false, res)) ->
  id ∈ source_references (PreviousMessages event) -> events st !! id = Some row ->
  let st' := apply_queue_all ops st1 in
  (forall oid reply, replies st1 !! oid = Some reply -> Reply_RawEventID reply = id ->
    is_open (Reply_Status reply) = false) /\
  (exists row', events st' !! id = Some row' /\ superseded row' = true /\ Status row' = StatusSucceeded) /\
  (forall now locked limit lease q, q ∈ (ClaimPendingConnectorEvents now locked limit lease st').2 ->
    queued_key q <> id) /\
  (forall now event target reply, DedupeKey event = id ->
    EnqueueConnectorReply now event target reply st' = Ok (st', "")).
Proof.
  intros Hs Hm He Hid Hrow st'; pose proof (TryEnqueue_evolves now event st Hs Hm) as Hev.
  rewrite He in Hev; cbn [after] in Hev.
  apply TryEnqueue_new in He as (new & _ & Hfree & _ & ->); set (st1 := suppressSupersededConnectorEvents _ _ _) in *.
  pose proof (apply_queue_all_evolves ops st1 (evolves_sound _ _ Hev)) as [Hs' Hk _]; fold st' in Hs', Hk.
  assert (Hrow1 : events st1 !! id = Some (superseded_row now row)).
  { apply suppressSuperseded_lookup; [done|]; cbn; rewrite lookup_insert_ne; [done|congruence]. }
  apply Hk in Hrow1 as (row' & Hrow' & _ & _ & _ & Hsup).
  assert (Ht : superseded row' = true) by (apply Hsup; destruct row; unfold superseded; cbn; by rewrite bool_decide_true).
  destruct (sound_events _ Hs' _ _ Hrow') as (_ & _ & _ & Hok & _).
  split_and!; [| |by intros; eapply superseded_not_claimed|].
  - intros oid reply Hr Hi; by eapply suppressSuperseded_replies.
  - exists row'; split_and!; auto.
  - intros now' event' target reply Hkey; unfold EnqueueConnectorReply, ensureSyntheticRawEvent.
    by rewrite Hkey, Hrow'; cbn; rewrite Hrow', Ht.
Qed.

(** ** Repeated messages *)

Lemma after_evolves_lookup ops st id row :
  queue_sound st -> events st !! id = Some row ->
  exists row', events (apply_queue_all ops st) !! id = Some row' /\ message_of row' = message_of row.
Proof.
  intros Hs Hrow; destruct (apply_queue_all_evolves ops st Hs) as [_ Hk _].
  apply Hk in Hrow as (row' & ? & ? & _); by exists row'.
Qed.

Definition event_message (event : PlatformInboundEvent) : string * string * string :=
  (Event_Platform event, queue_conversation event, ExternalEventID event).

Lemma TryEnqueue_accepted now event st st1 res :
  queue_sound st -> MessageID event <> "" -> TryEnqueueConnectorEvent now event st = Ok (st1, (false, res)) ->
  queue_sound st1 /\ exists row, events st1 !! DedupeKey event = Some row /\ message_of row = event_message event.
Proof.
  intros Hs Hm He; apply TryEnqueue_new in He as (new & -> & Hid & Hfree & ->).
  pose proof (accepted_row_evolves now event st Hs Hm Hid Hfree) as [Hs0 _ _].
  destruct (suppressSuperseded_evolves now (PreviousMessages event) _ Hs0) as [Hs1 Hk _]; split; [done|].
  destruct (Hk (DedupeKey event) _ (lookup_insert_eq _ _ _)) as (row & ? & ? & _); by exists row.
Qed.

(** A repeat of a message that has its row. *)
Lemma TryEnqueue_repeated now event st row :
  queue_sound st -> events st !! DedupeKey event = Some row -> message_of row = event_message event ->
  exists told, GetConnectorResultByRawEventID event st = Ok told /\
    TryEnqueueConnectorEvent now event st = Ok (st, (true, told)).
Proof.
  intros Hs Hrow [= Hp Hc Hx]; pose proof (find_message_of _ _ _ Hs Hrow) as Hf; rewrite Hp, Hc, Hx in Hf.
  unfold TryEnqueueConnectorEvent, insert_event, new_row;
    cbn [Row_Platform Row_ConversationID ExternalMessageID]; rewrite Hf; cbn.
  unfold GetConnectorResultByRawEventID; rewrite Hrow; cbn; by eexists.
Qed.

(** A message is queued once: after it was accepted, the same message is a
    duplicate however much time has passed and whatever became of it, changes
    nothing, and is told how the first one stands. *)
Theorem messages_are_queued_once now event st st1 res ops again :
  queue_sound st -> MessageID event <> "" -> TryEnqueueConnectorEvent now event st = Ok (st1, (false, res)) ->
  let st' := apply_queue_all ops st1 in
  exists row told, events st' !! DedupeKey event = Some row /\
    TryEnqueueConnectorEvent again event st' = Ok (st', (true, told)) /\ Handled told = true /\
    (Handled (Row_Result row) = true -> told = Row_Result row) /\
    (Handled (Row_Result row) = false -> Reason told = connectorResultReason (Status row)).
Proof.
  intros Hs Hm He st'; apply TryEnqueue_accepted in He as (Hs1 & row & Hrow & Hmsg); [|done..].
  destruct (after_evolves_lookup ops _ _ _ Hs1 Hrow) as (row' & Hrow' & Hmsg').
  destruct (apply_queue_all_evolves ops st1 Hs1) as [Hs' _ _]; fold st' in Hrow', Hs'.
  destruct (TryEnqueue_repeated again event st' row') as (told & Ht & Hr); [done|done|congruence|].
  exists row', told; unfold GetConnectorResultByRawEventID in Ht; rewrite Hrow' in Ht.
  apply Ok_inj in Ht; subst told.
  split_and!; [done|done|..]; destruct (Handled (Row_Result row')) eqn:Hh; done.
Qed.

(** Whatever statements run, in any order: every message has one row, under the key
    of the event it stores; what is superseded is settled; what runs has a start; every
    reply belongs to a message and names it; and no later statement loses a row, or
    changes what a row or a reply is about. *)
Theorem connector_queue_stays_sound ops later :
  let st := apply_queue_all ops empty_queue in
  let st' := apply_queue_all later st in
  queue_sound st /\
  (forall id row, events st !! id = Some row ->
    exists row', events st' !! id = Some row' /\ message_of row' = message_of row /\
      Document row' = Document row /\ IngestedAt row' = IngestedAt row) /\
  (forall id row, replies st !! id = Some row ->
    exists row', replies st' !! id = Some row' /\ Reply_RawEventID row' = Reply_RawEventID row /\
      Reply_Target row' = Reply_Target row /\ Reply_Document row' = Reply_Document row).
Proof.
  intros st st'.
  destruct (apply_queue_all_evolves ops empty_queue empty_queue_sound) as [Hs _ _]; fold st in Hs.
  destruct (apply_queue_all_evolves later st Hs) as [_ He Hr]; split_and!; [done|..].
  - intros id row (row' & ? & ? & ? & ? & _)%He; by exists row'.
  - intros id row (row' & ? & ? & ? & ? & ?)%Hr; by exists row'.
Qed.

(** ** Concrete inputs *)

Definition sample_event (sender message prompt : string) : PlatformInboundEvent :=
  MkEvent "slack" "http" "C1" message "" sender message None [] prompt [] "" no_context 0 None.

Definition sample_revision : PlatformInboundEvent :=
  set_PreviousMessages [MkPendingMessage "slack:C1:m1" "m1" "Write a report" [] []] (sample_event "U1" "m2" "as HTML").

Definition sample_queue : QueueStore :=
  apply_queue_all [OpEnqueueEvent 10 (sample_event "U1" "m1" "Write a report")] empty_queue.

Lemma sample_queue_sound : queue_sound sample_queue.
Proof. apply apply_queue_all_evolves, empty_queue_sound. Qed.

Lemma connector_queue_stays_sound_witness :
  let st := apply_queue_all [OpEnqueueEvent 10 (sample_event "U1" "m1" "Write a report")] empty_queue in
  let st' := apply_queue_all [OpClaimEvents 20 ∅ 4 (15 * Minute)] st in
  queue_sound st /\
  exists row row', events st !! "slack:C1:m1" = Some row /\ Status row = StatusPending /\
    events st' !! "slack:C1:m1" = Some row' /\ Status row' = StatusRunning /\ Document row' = Document row.
Proof.
  destruct (connector_queue_stays_sound [OpEnqueueEvent 10 (sample_event "U1" "m1" "Write a report")]
    [OpClaimEvents 20 ∅ 4 (15 * Minute)]) as (Hs & He & _).
  split; [exact Hs|].
  eexists _, _; split_and!; vm_compute; reflexivity.
Defined.

Lemma event_claims_are_exclusive_witness :
  let claim := ClaimPendingConnectorEvents 20 ∅ 4 (15 * Minute) sample_queue in
  queued_key <$> claim.2 = ["slack:C1:m1"] /\
  forall q, q ∈ (ClaimPendingConnectorEvents 30 ∅ 4 (15 * Minute) claim.1).2 ->
    (queued_key q ∉ queued_key <$> claim.2).
Proof.
  intros claim; split; [vm_compute; reflexivity|]; intros q.
  refine (_ (event_claims_are_exclusive 20 ∅ 4 (15 * Minute) sample_queue claim.1 claim.2 sample_queue_sound _));
    [|apply surjective_pairing].
  intros (_ & _ & _ & _ & _ & _ & _ & Hex); apply (Hex 30 ∅ 4 q); vm_compute; reflexivity.
Defined.

Definition sample_revised : QueueStore :=
  after sample_queue (TryEnqueueConnectorEvent 20 sample_revision sample_queue).

Lemma revised_messages_stay_settled_witness :
  let late := MkQueuedEvent (sample_event "U1" "m1" "Write a report") 1 in
  let st' := apply_queue_all [OpEventFailed 30 late "late" 40] sample_revised in
  TryEnqueueConnectorEvent 20 sample_revision sample_queue = Ok (sample_revised, (false, no_result)) /\
  exists row', events st' !! "slack:C1:m1" = Some row' /\ superseded row' = true /\ Status row' = StatusSucceeded.
Proof.
  intros late st'.
  assert (Hr : TryEnqueueConnectorEvent 20 sample_revision sample_queue = Ok (sample_revised, (false, no_result)))
    by (vm_compute; reflexivity).
  assert (Hrow : exists row, events sample_queue !! "slack:C1:m1" = Some row)
    by (eexists; vm_compute; reflexivity).
  destruct Hrow as [row Hrow]; split; [exact Hr|].
  refine (_ (revised_messages_stay_settled 20 sample_revision sample_queue sample_revised no_result
    [OpEventFailed 30 late "late" 40] "slack:C1:m1" row sample_queue_sound _ Hr _ Hrow));
    [by intros (_ & ? & _)|discriminate|].
  vm_compute; left.
Defined.

Lemma messages_are_queued_once_witness :
  let event := sample_event "U1" "m1" "Write a report" in
  let st' := apply_queue_all [OpClaimEvents 20 ∅ 4 (15 * Minute)] sample_queue in
  TryEnqueueConnectorEvent 10 event empty_queue = Ok (sample_queue, (false, no_result)) /\
  exists told, TryEnqueueConnectorEvent 30 event st' = Ok (st', (true, told)) /\ Handled told = true.
Proof.
  intros event st'.
  assert (Hr : TryEnqueueConnectorEvent 10 event empty_queue = Ok (sample_queue, (false, no_result)))
    by (vm_compute; reflexivity).
  split; [exact Hr|].
  destruct (messages_are_queued_once 10 event empty_queue sample_queue no_result [OpClaimEvents 20 ∅ 4 (15 * Minute)] 30)
    as (row & told & Hrow & Ht & Hh & _); [apply empty_queue_sound|discriminate|exact Hr|].
  exists told; split; [exact Ht|exact Hh].
Defined.

(** ** Departures *)

(** The rows of a burst are meant to share their sender, who is named by a key at the
    top of the document; the documents written have it one level below, so a burst
    joins the messages of every sender of the conversation. *)
Lemma bursts_join_every_sender head row now event now' event' :
  head = new_row now event (ExternalEventID event) (marshalConnectorEvent event) StatusPending ->
  row = new_row now' event' (ExternalEventID event') (marshalConnectorEvent event') StatusPending ->
  same_burst head row = bool_decide (Row_Platform row = Row_Platform head) &&
    bool_decide (Row_ConversationID row = Row_ConversationID head).
Proof. intros -> ->; unfold same_burst; unfold new_row; cbn [Document marshalConnectorEvent].
  rewrite (bool_decide_true (document_senderID _ = _)) by done; by rewrite andb_true_r.
Qed.

Definition two_senders : QueueStore :=
  apply_queue_all [OpEnqueueEvent 10 (sample_event "U1" "m1" "Write a report");
    OpEnqueueEvent 11 (sample_event "U2" "m2" "Book a room")] empty_queue.

Lemma two_senders_in_one_burst :
  SenderID ∘ QueuedEvent <$> (ClaimPendingConnectorEvents 20 ∅ 4 (15 * Minute) two_senders).2 = ["U1"; "U2"].
Proof. vm_compute; reflexivity. Qed.

(** A worker whose lease ended, and whose turn fails after another worker answered the
    message, puts the answered message back into the queue. *)
Lemma late_failure_reopens_an_answered_message :
  let event := sample_event "U1" "m1" "Write a report" in
  let done_ := MkResult true "slack" false false "" "run-1" "" in
  let st := apply_queue_all [OpClaimEvents 20 ∅ 4 (15 * Minute); OpClaimEvents (20 + 15 * Minute) ∅ 4 (15 * Minute);
    OpEventSucceeded (20 + 16 * Minute) event done_] sample_queue in
  let st' := apply_queue_all [OpEventFailed (20 + 17 * Minute) (MkQueuedEvent event 1) "late" (20 + 18 * Minute)] st in
  Status <$> events st !! "slack:C1:m1" = Some StatusSucceeded /\
  Status <$> events st' !! "slack:C1:m1" = Some StatusPending.
Proof. split; vm_compute; reflexivity. Qed.

(** Likewise a reply that was sent is sent again. *)
Lemma late_failure_sends_a_reply_again queuedReply message next now st row :
  replies st !! Queued_OutboxID queuedReply = Some row -> IsZero next = false ->
  Reply_Status <$> replies (MarkConnectorReplyFailed now queuedReply message next st) !! Queued_OutboxID queuedReply =
    Some StatusPending.
Proof.
  intros Hrow Hz; unfold MarkConnectorReplyFailed; rewrite Hz; cbn.
  rewrite lookup_update_rows, Hrow; cbn; rewrite bool_decide_true by done; by destruct row.
Qed.

(** Claims do not look at the number of attempts: a message that takes its process
    down, so that no failure is recorded, is claimed again for ever. *)
Fixpoint claim_and_crash (n : nat) (now : instant) (st : QueueStore) : QueueStore :=
  match n with
  | O => st
  | S n' => claim_and_crash n' (now + 15 * Minute) (ClaimPendingConnectorEvents now ∅ 4 (15 * Minute) st).1
  end.

Lemma crashing_message_is_claimed_again :
  AttemptCount <$> events (claim_and_crash 50 20 sample_queue) !! "slack:C1:m1" = Some 50.
Proof. vm_compute; reflexivity. Qed.

(** The parts of a key are not told apart: a second message under the key of the first,
    from another conversation, is refused by the primary key, each time it arrives. *)
Lemma keys_of_two_messages_collide :
  let one := MkEvent "slack" "http" "C1" "7:m1" "" "U1" "r" None [] "hello" [] "" no_context 0 None in
  let two := MkEvent "slack" "http" "C1:7" "m1" "" "U2" "r" None [] "hello" [] "" no_context 0 None in
  malformedEventReason one = "" /\ malformedEventReason two = "" /\
  TryEnqueueConnectorEvent 20 two (apply_queue (OpEnqueueEvent 10 one) empty_queue) = Err QueueConstraintViolation.
Proof. split_and!; vm_compute; reflexivity. Qed.

(** The ID of a reply leaves its attachments out: a second reply with the same words
    and another file is reported as queued and is not. *)
Lemma reply_with_another_file_is_dropped now event target reply files st st1 id :
  EnqueueConnectorReply now event target reply st = Ok (st1, id) -> id <> "" ->
  let other := MkReply (Message reply) (Reply_TaskRunID reply) (ReplyKind reply) (RawEventID reply)
    (OutboxID reply) files (Reply_RecoveryActions reply) (FailureNotice reply) (Interaction reply) in
  EnqueueConnectorReply now event target other st1 = Ok (st1, id).
Proof.
  unfold EnqueueConnectorReply; intros He Hid.
  destruct (ensureSyntheticRawEvent now event st) as [st0|] eqn:Hs; [|done]; cbn in He.
  destruct (events st0 !! DedupeKey event) as [row|] eqn:Hrow; [|done].
  destruct (superseded row) eqn:Hsup; [congruence|].
  set (key := connectorReplyOutboxID _ _) in He |- *; fold key.
  assert (Hst : st1 = insert_reply key (pending_reply now (DedupeKey event) (Event_Platform event) target
    (address_reply (DedupeKey event) key reply)) st0 /\ id = key) by (split; congruence).
  destruct Hst as [-> ->]; clear He.
  assert (Hev : events (insert_reply key (pending_reply now (DedupeKey event) (Event_Platform event) target
    (address_reply (DedupeKey event) key reply)) st0) = events st0) by (unfold insert_reply; by destruct (replies st0 !! key)).
  unfold ensureSyntheticRawEvent; rewrite Hev, Hrow; cbn -[insert_reply]; rewrite Hev, Hrow, Hsup.
  do 2 f_equal; unfold insert_reply; destruct (replies st0 !! key) eqn:Hk; [by rewrite Hk|].
  cbn; by rewrite lookup_insert_eq.
Qed.
