(* ===== verification/PendingRequests.v ===== *)
(** * Requests that wait for a reply ([connectors/pending_request.go],
    [request_revision.go], [transport.go]).

    Messages that arrive before the last one is answered revise it: the newest carries
    the texts of all, and supersedes the others, whose turns are cancelled.  The store
    is a heap of requests, as several places hold a pointer to one: the map, the
    [previous] of a newer request, the goroutine that runs its turn.  A channel [done]
    is whether it is closed, a context whether it is cancelled; what would panic is an
    error.  The order in which Go visits the map is an argument. *)

From S2P Require Export ConnectorEvents.

(** ** Data *)

Definition ptr := nat.

Record pendingRequest := MkRequest {
  request_event : PlatformInboundEvent;
  previous : option ptr;
  has_cancel : bool;
  isCancelled : bool;
  done_closed : bool;
  isRunning : bool;
  isFinished : bool;
  isSuperseded : bool;
  hasReply : bool;
}.

(** [fresh] is the next address of the heap. *)
Record pendingRequestStore := MkRequestStore {
  heap : gmap ptr pendingRequest;
  fresh : ptr;
  requests : gmap string ptr;
  supersededReferences : gset string;
}.

Definition newPendingRequestStore : pendingRequestStore := MkRequestStore ∅ 0%nat ∅ ∅.

Inductive pendingRequestStartReason :=
| pendingRequestStarted
| pendingRequestSuperseded
| pendingRequestAlreadyRunning.

Inductive TaskControlIntent := TaskControlIntentNone | TaskControlIntentStop | TaskControlIntentStopAll.

Inductive Panic := NilDereference | CloseOfClosedChannel.

Definition set_previous (p : option ptr) (r : pendingRequest) : pendingRequest :=
  let '(MkRequest e _ c x d ru fi su re) := r in MkRequest e p c x d ru fi su re.
Definition set_done_closed (d : bool) (r : pendingRequest) : pendingRequest :=
  let '(MkRequest e p c x _ ru fi su re) := r in MkRequest e p c x d ru fi su re.
Definition set_isRunning (ru : bool) (r : pendingRequest) : pendingRequest :=
  let '(MkRequest e p c x d _ fi su re) := r in MkRequest e p c x d ru fi su re.
Definition set_isFinished (fi : bool) (r : pendingRequest) : pendingRequest :=
  let '(MkRequest e p c x d ru _ su re) := r in MkRequest e p c x d ru fi su re.
Definition set_isSuperseded (su : bool) (r : pendingRequest) : pendingRequest :=
  let '(MkRequest e p c x d ru fi _ re) := r in MkRequest e p c x d ru fi su re.
Definition set_hasReply (re : bool) (r : pendingRequest) : pendingRequest :=
  let '(MkRequest e p c x d ru fi su _) := r in MkRequest e p c x d ru fi su re.

(** [request.cancel()], where it is set. *)
Definition cancel_request (r : pendingRequest) : pendingRequest :=
  let '(MkRequest e p c x d ru fi su re) := r in MkRequest e p c (c || x) d ru fi su re.

(** [context.WithCancel]: a context of its own for each start. *)
Definition with_new_context (r : pendingRequest) : pendingRequest :=
  let '(MkRequest e p _ _ d ru fi su re) := r in MkRequest e p true false d ru fi su re.

Definition set_heap (f : gmap ptr pendingRequest -> gmap ptr pendingRequest) (st : pendingRequestStore)
  : pendingRequestStore := MkRequestStore (f (heap st)) (fresh st) (requests st) (supersededReferences st).

Definition set_requests (f : gmap string ptr -> gmap string ptr) (st : pendingRequestStore)
  : pendingRequestStore := MkRequestStore (heap st) (fresh st) (f (requests st)) (supersededReferences st).

Definition put (p : ptr) (r : pendingRequest) : pendingRequestStore -> pendingRequestStore := set_heap <[p := r]>.

Definition deref (p : ptr) (st : pendingRequestStore) : result Panic pendingRequest :=
  match heap st !! p with Some r => Ok r | None => Err NilDereference end.

(** [close(request.done)] *)
Definition close_done (r : pendingRequest) : result Panic pendingRequest :=
  if done_closed r then Err CloseOfClosedChannel else Ok (set_done_closed true r).

Definition request_key (r : pendingRequest) : string := DedupeKey (request_event r).

(** ** Messages *)

Section store.
Context `{UnicodeTables}.

(** [connectors/task_control.go] *)
Definition exactTaskControlIntent (prompt : string) : TaskControlIntent :=
  let normalizedPrompt := ToLower (TrimSpace prompt) in
  if bool_decide (normalizedPrompt = "/stop") then TaskControlIntentStop else
  if bool_decide (normalizedPrompt = "/stop-all") then TaskControlIntentStopAll else TaskControlIntentNone.

Definition is_control (event : PlatformInboundEvent) : bool :=
  match exactTaskControlIntent (Event_Prompt event) with TaskControlIntentNone => false | _ => true end.

(** [connectors/conversation_turn.go] *)
Definition eventIsThreadReply (event : PlatformInboundEvent) : bool :=
  match IsThread event with
  | Some isThread => isThread
  | None => negb (bool_decide (Event_ReplyTargetID event = "")) && negb (bool_decide (MessageID event = "")) &&
      negb (bool_decide (Event_ReplyTargetID event = MessageID event))
  end.

Definition pendingRequestsShareScope (previous current : PlatformInboundEvent) : bool :=
  bool_decide (Event_Platform previous = Event_Platform current) &&
  bool_decide (SenderID previous = SenderID current) &&
  bool_decide (Event_ConversationID previous = Event_ConversationID current) &&
  if eventIsThreadReply current
  then bool_decide (Event_ReplyTargetID previous = Event_ReplyTargetID current)
  else negb (eventIsThreadReply previous).

Definition pendingMessageFromEvent (event : PlatformInboundEvent) : PendingRequestMessage :=
  MkPendingMessage (DedupeKey event) (MessageID event) (Event_Prompt event) (InputParts event)
    (InputAttachments (EventContext event)).

(** What a request carries: the messages it revises, and its own. *)
Definition carried_messages (event : PlatformInboundEvent) : list PendingRequestMessage :=
  PreviousMessages event ++ [pendingMessageFromEvent event].

(** ** The store *)

Definition is_open_request (r : pendingRequest) : bool := negb (hasReply r || isSuperseded r).

(** The first request in the [order] of the map that the event revises. *)
Fixpoint find_revised (order : list string) (event : PlatformInboundEvent) (st : pendingRequestStore)
  : option (ptr * pendingRequest) :=
  match order with
  | [] => None
  | key :: order' =>
    match p ← requests st !! key; r ← heap st !! p; Some (p, r) with
    | Some (p, r) =>
      if is_open_request r && pendingRequestsShareScope (request_event r) event then Some (p, r)
      else find_revised order' event st
    | None => find_revised order' event st
    end
  end.

Definition prepare (order : list string) (event : PlatformInboundEvent) (st : pendingRequestStore)
  : result Panic (PlatformInboundEvent * option ptr) :=
  if is_control event then Ok (event, None) else
  match requests st !! DedupeKey event with
  | Some p => r ← deref p st; Ok (request_event r, None)
  | None =>
    match find_revised order event st with
    | None => Ok (event, None)
    | Some (p, r) =>
      if bool_decide (PreviousMessages event = [])
      then Ok (set_PreviousMessages (carried_messages (request_event r)) event, Some p)
      else Ok (event, Some p)
    end
  end.

Definition new_request (event : PlatformInboundEvent) (previous : option ptr) : pendingRequest :=
  MkRequest event previous false false false false false false false.

Definition insert_request (event : PlatformInboundEvent) (previous : option ptr) (st : pendingRequestStore)
  : pendingRequestStore :=
  MkRequestStore (<[fresh st := new_request event previous]> (heap st)) (S (fresh st))
    (<[DedupeKey event := fresh st]> (requests st))
    (supersededReferences st ∪ list_to_set (SourceReference <$> PreviousMessages event)).

(** [previous], superseded: its turn is cancelled, and is over if it did not begin. *)
Definition supersede (r : pendingRequest) : result Panic pendingRequest :=
  let r := cancel_request (set_isSuperseded true r) in
  if negb (isRunning r) && negb (isFinished r) then close_done (set_isFinished true r) else Ok r.

Definition register (event : PlatformInboundEvent) (previous_ : option ptr) (st : pendingRequestStore)
  : result Panic pendingRequestStore :=
  if is_control event then Ok st else
  match requests st !! DedupeKey event with
  | Some _ => Ok st
  | None =>
    let st := insert_request event previous_ st in
    match previous_ with
    | None => Ok st
    | Some q =>
      r ← deref q st;
      r ← supersede r;
      let st := put q r st in
      if isFinished r then
        let st := set_requests (delete (request_key r)) st in
        match requests st !! DedupeKey event with
        | None => Err NilDereference
        | Some p => new ← deref p st; Ok (put p (set_previous (previous r) new) st)
        end
      else Ok st
    end
  end.

(** [prepare] and [register] together, as [restorePendingRequests] and an accepted
    message have them. *)
Definition admit_event (order : list string) (event : PlatformInboundEvent) (st : pendingRequestStore)
  : result Panic pendingRequestStore :=
  '(event', previous_) ← prepare order event st; register event' previous_ st.

Definition start_request (r : pendingRequest) : pendingRequest :=
  with_new_context (set_isRunning true
    (if isFinished r then set_isFinished false (set_done_closed false r) else r)).

Definition begin (order : list string) (event : PlatformInboundEvent) (st : pendingRequestStore)
  : result Panic (pendingRequestStore * (option ptr * pendingRequestStartReason)) :=
  if bool_decide (DedupeKey event ∈ supersededReferences st) then Ok (st, (None, pendingRequestSuperseded)) else
  st ← match requests st !! DedupeKey event with
       | Some _ => Ok st
       | None => admit_event order event st
       end;
  match requests st !! DedupeKey event with
  | None => Err NilDereference
  | Some p =>
    r ← deref p st;
    if isSuperseded r then Ok (st, (Some p, pendingRequestSuperseded)) else
    if isRunning r then Ok (st, (Some p, pendingRequestAlreadyRunning)) else
    Ok (put p (start_request r) st, (Some p, pendingRequestStarted))
  end.

Definition finish (p : ptr) (st : pendingRequestStore) : result Panic (pendingRequestStore * bool) :=
  r ← deref p st;
  let r := set_isRunning false r in
  r ← (if isFinished r then Ok r else close_done (set_isFinished true r));
  let st := if isSuperseded r || hasReply r then set_requests (delete (request_key r)) st else st in
  Ok (put p (cancel_request r) st, isSuperseded r).

(** [pendingRequestReplySender]: [sent] is what sending the reply returns, if it is
    tried; the answer is what was tried and what the sender returns. *)
Definition send_pending_reply (sourceReference : string) (isDelivery : bool) (sent : result string string)
    (st : pendingRequestStore) : pendingRequestStore * (bool * result string string) :=
  if bool_decide (sourceReference ∈ supersededReferences st) then (st, (false, Ok "")) else
  let delivered := match sent with Ok dispatchID => isDelivery && negb (bool_decide (dispatchID = "")) | Err _ => false end in
  (match requests st !! sourceReference with
   | Some p =>
     match heap st !! p with
     | Some r =>
       if delivered then
         let st := put p (set_hasReply true r) st in
         if isFinished r then set_requests (delete sourceReference) st else st
       else st
     | None => st
     end
   | None => st
   end, (true, sent)).

(** [refreshPendingRequestDelivery] visits each request of the sender's scope;
    [replied] are the keys of those whose agent has replied by itself. *)
Definition refresh_request (replied : gset string) (event : PlatformInboundEvent) (st : pendingRequestStore)
    (key : string) : pendingRequestStore :=
  match p ← requests st !! key; r ← heap st !! p; Some (p, r) with
  | None => st
  | Some (p, r) =>
    if is_open_request r && pendingRequestsShareScope (request_event r) event && bool_decide (key ∈ replied) then
      let st := put p (set_hasReply true r) st in
      if isFinished r then set_requests (delete key) st else st
    else st
  end.

Definition refreshPendingRequestDelivery (order : list string) (replied : gset string)
    (event : PlatformInboundEvent) (st : pendingRequestStore) : pendingRequestStore :=
  foldl (refresh_request replied event) st order.

(** [closeControlledPendingRequests]: an answered [/stop] closes what it stopped. *)
Definition controlled_by (event : PlatformInboundEvent) (r : pendingRequest) : bool :=
  bool_decide (Event_Platform (request_event r) = Event_Platform event) &&
  bool_decide (SenderID (request_event r) = SenderID event) &&
  (match exactTaskControlIntent (Event_Prompt event) with TaskControlIntentStopAll => true | _ => false end ||
   pendingRequestsShareScope (request_event r) event).

Definition close_request (event : PlatformInboundEvent) (st : pendingRequestStore) (key : string)
  : pendingRequestStore :=
  match p ← requests st !! key; r ← heap st !! p; Some (p, r) with
  | None => st
  | Some (p, r) => if controlled_by event r then put p (set_hasReply true r) st else st
  end.

Definition closeControlledPendingRequests (order : list string) (event : PlatformInboundEvent)
    (st : pendingRequestStore) : pendingRequestStore := foldl (close_request event) st order.

(** [restorePendingRequests], with the orders the map is visited in. *)
Fixpoint restorePendingRequests (orders : list (list string)) (unanswered : list PlatformInboundEvent)
    (st : pendingRequestStore) : result Panic pendingRequestStore :=
  match unanswered, orders with
  | event :: unanswered', order :: orders' =>
    match TaskRetry event with
    | Some _ => restorePendingRequests (order :: orders') unanswered' st
    | None => st ← admit_event order event st; restorePendingRequests orders' unanswered' st
    end
  | _, _ => Ok st
  end.

(** The requests a turn waits for before it starts ([processPendingInboundEvent]). *)
Fixpoint waits_for (fuel : nat) (p : option ptr) (st : pendingRequestStore) : list ptr :=
  match fuel, p with
  | S fuel', Some q => q :: waits_for fuel' (heap st !! q ≫= previous) st
  | _, _ => []
  end.

(** A pointer only leads to older requests: there are at most as many as addresses. *)
Definition predecessors (p : ptr) (st : pendingRequestStore) : list ptr :=
  waits_for p (heap st !! p ≫= previous) st.

Definition may_launch (p : ptr) (st : pendingRequestStore) : bool :=
  match heap st !! p with
  | Some r => isRunning r && negb (isCancelled r) &&
      forallb (fun q => match heap st !! q with Some r => done_closed r | None => false end) (predecessors p st)
  | None => false
  end.

(** ** Revised requests *)

Definition pendingMessageIdentity (event : PlatformInboundEvent) (message : PendingRequestMessage) : string :=
  if bool_decide (Message_MessageID message = "") then SourceReference message
  else Event_Platform event +:+ ":" +:+ Event_ConversationID event +:+ ":" +:+ Message_MessageID message.

(** The messages no later one replaces: [latestIndexes] keeps the last index of an
    identity. *)
Definition latestIndexes (event : PlatformInboundEvent) (messages : list PendingRequestMessage)
  : gmap string nat :=
  foldl (fun m '(index, message) => <[pendingMessageIdentity event message := index]> m) ∅
    (imap pair messages).

Definition currentRequestMessages (event : PlatformInboundEvent) : list PendingRequestMessage :=
  let messages := carried_messages event in
  (filter (fun im => latestIndexes event messages !! pendingMessageIdentity event im.2 = Some im.1)
    (imap pair messages)).*2.

Definition revision_preamble : string :=
  "The following user messages arrived in order before a reply. They form one revised request. Apply later corrections to earlier details and handle the final combined request once.".

Definition double_newline : string := String "010" (String "010" "").

Definition set_request_text (prompt : string) (parts : list AgentPart) (attachments : list InputAttachment)
    (event : PlatformInboundEvent) : PlatformInboundEvent :=
  let '(MkEvent p s c m e sd rt th prev _ _ rl ctx at_ retry) := event in
  MkEvent p s c m e sd rt th prev prompt parts rl (set_InputAttachments attachments ctx) at_ retry.

Definition revisedRequestEvent (event : PlatformInboundEvent) : PlatformInboundEvent :=
  if bool_decide (PreviousMessages event = []) then event else
  let messages := currentRequestMessages event in
  set_request_text (Join double_newline (revision_preamble :: (Message_Prompt <$> messages)))
    (concat (Message_InputParts <$> messages)) (concat (Message_InputAttachments <$> messages)) event.

End store.

(** ** What every operation keeps *)

Definition request_sound (r : pendingRequest) : Prop :=
  done_closed r = isFinished r /\ (isRunning r = true -> isFinished r = false) /\
  (isRunning r = true -> has_cancel r = true) /\
  (isSuperseded r = true -> isRunning r = true -> isCancelled r = true) /\
  (isSuperseded r = true -> isRunning r = false -> isFinished r = true).

Record store_sound (st : pendingRequestStore) : Prop := {
  sound_fresh : forall p r, heap st !! p = Some r -> (p < fresh st)%nat;
  sound_requests : forall key p, requests st !! key = Some p ->
    exists r, heap st !! p = Some r /\ request_key r = key;
  sound_previous : forall p r q, heap st !! p = Some r -> previous r = Some q ->
    (q < p)%nat /\ exists r', heap st !! q = Some r' /\ isSuperseded r' = true;
  sound_heap : forall p r, heap st !! p = Some r -> request_sound r;
}.

(** What becomes of a request: a superseded one stays superseded, and once its turn is
    over no other begins. *)
Definition request_evolves (r r' : pendingRequest) : Prop :=
  request_event r' = request_event r /\ previous r' = previous r /\
  (isSuperseded r = true -> isSuperseded r' = true /\ (isFinished r = true -> isFinished r' = true)).

Record store_evolves (st st' : pendingRequestStore) : Prop := {
  store_evolves_sound : store_sound st';
  store_evolves_request : forall p r, heap st !! p = Some r ->
    exists r', heap st' !! p = Some r' /\ request_evolves r r';
  store_evolves_references : supersededReferences st ⊆ supersededReferences st';
  store_evolves_fresh : (fresh st <= fresh st')%nat;
}.

#[local] Ltac requests := repeat match goal with r : pendingRequest |- _ => destruct r end; cbn in *.

Lemma request_evolves_refl r : request_evolves r r.
Proof. by split_and!. Qed.

Lemma request_evolves_trans r1 r2 r3 : request_evolves r1 r2 -> request_evolves r2 r3 -> request_evolves r1 r3.
Proof.
  intros (He & Hp & Hs) (He' & Hp' & Hs'); split_and!; [congruence..|]; intros Hsup.
  destruct (Hs Hsup) as [Hsup2 Hf], (Hs' Hsup2) as [Hsup3 Hf']; auto.
Qed.

#[export] Hint Resolve request_evolves_refl : go.

Lemma store_evolves_refl st : store_sound st -> store_evolves st st.
Proof. intros Hs; split; [done| |set_solver|done]; intros p r Hr; exists r; auto with go. Qed.

Lemma store_evolves_trans st1 st2 st3 : store_evolves st1 st2 -> store_evolves st2 st3 -> store_evolves st1 st3.
Proof.
  intros [_ He1 Hr1 Hf1] [Hs He2 Hr2 Hf2]; split; [done| |set_solver|lia]; intros p r Hr.
  apply He1 in Hr as (r' & (r'' & ? & ?)%He2 & ?); exists r''; split; [done|by eapply request_evolves_trans].
Qed.

(** A change of one request, which may leave the map. *)
Lemma put_evolves p r r' m st :
  store_sound st -> heap st !! p = Some r -> request_sound r' -> request_evolves r r' ->
  (forall key q, m !! key = Some q -> requests st !! key = Some q) ->
  store_evolves st (put p r' (set_requests (fun _ => m) st)).
Proof.
  intros Hs Hr Hok (Hev & Hprev & Hsup) Hm; pose proof Hr as Hlt; apply (sound_fresh _ Hs) in Hlt.
  assert (Hheap : forall q rq, heap st !! q = Some rq ->
    exists rq', <[p := r']> (heap st) !! q = Some rq' /\ request_evolves rq rq').
  { intros q rq Hq; destruct (decide (q = p)) as [->|Hne].
    - rewrite lookup_insert_eq; exists r'; split; [done|]; rewrite Hr in Hq; injection Hq as <-; by split_and!.
    - rewrite lookup_insert_ne by done; exists rq; auto with go. }
  split; [split|..]; cbn; [..|done|set_solver|done].
  - intros q rq; rewrite lookup_insert_Some; intros [[<- <-]|[_ Hq]]; [done|by apply (sound_fresh _ Hs) in Hq].
  - intros key q Hkey; apply Hm, (sound_requests _ Hs) in Hkey as (rq & Hq & Hk).
    destruct (Hheap q rq Hq) as (rq' & ? & He & _); exists rq'; split; [done|]; unfold request_key; by rewrite He.
  - intros q rq q'; rewrite lookup_insert_Some; intros Hq Hp.
    assert (Hold : exists old, heap st !! q = Some old /\ previous old = Some q').
    { destruct Hq as [[<- <-]|[_ Hq]]; [exists r; by rewrite <- Hprev|by exists rq]. }
    destruct Hold as (old & Hq0 & Hp0); destruct (sound_previous _ Hs _ _ _ Hq0 Hp0) as (? & r0 & Hr0 & Hs0).
    split; [done|]; destruct (Hheap q' r0 Hr0) as (r0' & ? & _ & _ & Hsup'); exists r0'; split; [done|].
    by apply Hsup'.
  - intros q rq; rewrite lookup_insert_Some; intros [[<- <-]|[_ Hq]]; [done|by apply (sound_heap _ Hs) in Hq].
Qed.

(** The common case: the map stays. *)
Lemma put_same_evolves p r r' st :
  store_sound st -> heap st !! p = Some r -> request_sound r' -> request_evolves r r' ->
  store_evolves st (put p r' st).
Proof.
  intros Hs Hr Hok Hev; replace (put p r' st) with (put p r' (set_requests (fun _ => requests st) st)).
  - by eapply put_evolves.
  - by destruct st.
Qed.

Lemma delete_evolves key st : store_sound st -> store_evolves st (set_requests (delete key) st).
Proof.
  intros Hs; split; [split; cbn|..]; cbn; [apply Hs| |apply Hs|apply Hs| |set_solver|done].
  - intros k p Hk; apply lookup_delete_Some in Hk as [_ Hk]; by apply Hs.
  - intros p r Hr; exists r; auto with go.
Qed.

(** ** Registering a request *)

Section register.
Context `{UnicodeTables}.

Lemma find_revised_Some order event st p r :
  find_revised order event st = Some (p, r) ->
  heap st !! p = Some r /\ is_open_request r = true /\ pendingRequestsShareScope (request_event r) event = true /\
  exists key, key ∈ order /\ requests st !! key = Some p.
Proof.
  induction order as [|key order IH]; cbn [find_revised]; [done|].
  assert (Hrest : find_revised order event st = Some (p, r) ->
    heap st !! p = Some r /\ is_open_request r = true /\
    pendingRequestsShareScope (request_event r) event = true /\
    exists key', key' ∈ key :: order /\ requests st !! key' = Some p).
  { intros (? & ? & ? & key' & ? & ?)%IH; split_and!; [done..|]; exists key'; split; [by right|done]. }
  destruct (requests st !! key) as [p'|] eqn:Hp; cbn; [|done].
  destruct (heap st !! p') as [r'|] eqn:Hr; cbn; [|done].
  destruct (is_open_request r') eqn:Ho; cbn; [|done].
  destruct (pendingRequestsShareScope (request_event r') event) eqn:Hsc; [|done].
  intros [= <- <-]; split_and!; [done..|]; exists key; split; [left|done].
Qed.

(** What [prepare] hands to [register]. *)
Definition replaceable (event : PlatformInboundEvent) (previous_ : option ptr) (st : pendingRequestStore) : Prop :=
  match previous_ with
  | None => True
  | Some q => exists r, heap st !! q = Some r /\ is_open_request r = true /\ request_key r <> DedupeKey event
  end.

Lemma set_PreviousMessages_key messages event : DedupeKey (set_PreviousMessages messages event) = DedupeKey event.
Proof. by destruct event. Qed.

Lemma set_PreviousMessages_control messages event : is_control (set_PreviousMessages messages event) = is_control event.
Proof. by destruct event. Qed.

Lemma prepare_cases order event st :
  store_sound st ->
  exists event' previous_, prepare order event st = Ok (event', previous_) /\ DedupeKey event' = DedupeKey event /\
  match previous_ with
  | None => is_control event = true /\ event' = event \/
      (exists p r, requests st !! DedupeKey event = Some p /\ heap st !! p = Some r /\ event' = request_event r) \/
      requests st !! DedupeKey event = None /\ event' = event
  | Some q => is_control event = false /\ requests st !! DedupeKey event = None /\ is_control event' = false /\
      replaceable event' previous_ st /\
      exists r, heap st !! q = Some r /\ pendingRequestsShareScope (request_event r) event = true /\
        event' = (if bool_decide (PreviousMessages event = [])
                  then set_PreviousMessages (carried_messages (request_event r)) event else event)
  end.
Proof.
  intros Hs; unfold prepare; destruct (is_control event) eqn:Hc.
  { exists event, None; split_and!; [done..|]; by left. }
  destruct (requests st !! DedupeKey event) as [p|] eqn:Hp.
  { pose proof Hp as (r & Hr & Hk)%(sound_requests _ Hs); unfold deref; rewrite Hr; cbn.
    exists (request_event r), None; split_and!; [done..|]; right; left; by exists p, r. }
  destruct (find_revised order event st) as [[q r]|] eqn:Hf.
  2: { exists event, None; split_and!; [done..|]; by right; right. }
  apply find_revised_Some in Hf as (Hr & Ho & Hsc & key & _ & Hkey).
  assert (Hne : request_key r <> DedupeKey event).
  { intros He; apply (sound_requests _ Hs) in Hkey as Hk; destruct Hk as (r0 & Hr0 & Hk0).
    rewrite Hr in Hr0; injection Hr0 as <-; congruence. }
  case_bool_decide as Hpm; eexists _, (Some q); split; [done| |done|];
    rewrite ?set_PreviousMessages_key, ?set_PreviousMessages_control; (split; [done|]); split_and!; try done.
  - exists r; by rewrite set_PreviousMessages_key.
  - exists r; by split_and!.
  - by exists r.
  - exists r; by split_and!.
Qed.

Definition superseded_request (r : pendingRequest) : pendingRequest :=
  let r := cancel_request (set_isSuperseded true r) in
  if negb (isRunning r) && negb (isFinished r) then set_done_closed true (set_isFinished true r) else r.

Lemma supersede_Ok r : request_sound r -> supersede r = Ok (superseded_request r).
Proof.
  intros (Hd & _); unfold supersede, superseded_request, close_done; requests.
  destruct isRunning0, isFinished0; cbn; subst; done.
Qed.

Lemma superseded_request_ok r :
  request_sound r -> request_sound (superseded_request r) /\ request_evolves r (superseded_request r) /\
  isSuperseded (superseded_request r) = true /\
  (isFinished (superseded_request r) = false -> isRunning r = true).
Proof.
  unfold request_sound, request_evolves, superseded_request; intros Hok; requests.
  destruct isRunning0, isFinished0, has_cancel0; cbn in *; intuition congruence.
Qed.

(** The store after a request is registered. *)
Definition registered (event : PlatformInboundEvent) (previous_ : option ptr) (st : pendingRequestStore)
  : pendingRequestStore :=
  match previous_ ≫= (fun q => r ← heap st !! q; Some (q, r)) with
  | None => insert_request event previous_ st
  | Some (q, r) =>
    let r' := superseded_request r in
    let link := if isFinished r' then previous r else Some q in
    let references := list_to_set (SourceReference <$> PreviousMessages event) in
    MkRequestStore (<[fresh st := new_request event link]> (<[q := r']> (heap st))) (S (fresh st))
      (<[DedupeKey event := fresh st]> (if isFinished r' then delete (request_key r) (requests st) else requests st))
      (supersededReferences st ∪ references)
  end.

Lemma register_Ok event previous_ st :
  store_sound st -> is_control event = false -> requests st !! DedupeKey event = None ->
  replaceable event previous_ st -> register event previous_ st = Ok (registered event previous_ st).
Proof.
  intros Hs Hc Hkey Hrep; unfold register, registered; rewrite Hc, Hkey.
  destruct previous_ as [q|]; [|done]; destruct Hrep as (r & Hr & _ & Hne).
  pose proof (sound_fresh _ Hs _ _ Hr) as Hlt; unfold insert_request, deref; cbn.
  rewrite lookup_insert_ne by lia; rewrite Hr; cbn; rewrite supersede_Ok by by eapply sound_heap.
  cbn; destruct (isFinished (superseded_request r)) eqn:Hf.
  2: { unfold put, set_heap; cbn; do 2 f_equal; apply insert_insert_ne; lia. }
  assert (Hk : request_key (superseded_request r) = request_key r).
  { unfold request_key; by destruct (superseded_request_ok r (sound_heap _ Hs _ _ Hr)) as (_ & (-> & _) & _). }
  assert (Hp : previous (superseded_request r) = previous r).
  { by destruct (superseded_request_ok r (sound_heap _ Hs _ _ Hr)) as (_ & (_ & -> & _) & _). }
  rewrite Hk, lookup_delete_ne by done; rewrite lookup_insert_eq; cbn.
  rewrite lookup_insert_ne by lia; rewrite lookup_insert_eq; cbn; rewrite Hp; unfold put, set_heap, set_requests; cbn.
  f_equal; f_equal.
  - rewrite (insert_insert_ne _ q) by lia; by rewrite insert_insert_eq.
  - by rewrite delete_insert_ne.
Qed.

Lemma new_request_sound event link : request_sound (new_request event link).
Proof. by split_and!. Qed.

Lemma insert_request_evolves event link st :
  store_sound st ->
  (forall q, link = Some q -> exists r, heap st !! q = Some r /\ isSuperseded r = true) ->
  store_evolves st (insert_request event link st).
Proof.
  intros Hs Hl.
  assert (Hlt : forall p r, heap st !! p = Some r -> p <> fresh st).
  { intros p r Hr; apply (sound_fresh _ Hs) in Hr; lia. }
  split; [split|..]; cbn; [..|set_solver|lia].
  - intros p r; rewrite lookup_insert_Some; intros [[<- <-]|[_ Hr]]; [lia|]; apply (sound_fresh _ Hs) in Hr; lia.
  - intros key p; rewrite lookup_insert_Some; intros [[<- <-]|[_ Hp]].
    { exists (new_request event link); by rewrite lookup_insert_eq. }
    apply (sound_requests _ Hs) in Hp as (r & Hr & Hk); exists r; split; [|done].
    rewrite lookup_insert_ne; [done|]; intros <-; by apply Hlt in Hr.
  - intros p r q; rewrite lookup_insert_Some; intros [[<- <-]|[_ Hr]] Hp; cbn in *.
    + destruct (Hl q Hp) as (r' & Hr' & Hsup); split; [by apply (sound_fresh _ Hs) in Hr'|].
      exists r'; split; [|done]; rewrite lookup_insert_ne; [done|]; intros <-; by apply Hlt in Hr'.
    + destruct (sound_previous _ Hs _ _ _ Hr Hp) as (? & r' & Hr' & Hsup); split; [done|].
      exists r'; split; [|done]; rewrite lookup_insert_ne; [done|]; intros <-; by apply Hlt in Hr'.
  - intros p r; rewrite lookup_insert_Some; intros [[<- <-]|[_ Hr]]; [apply new_request_sound|].
    by apply (sound_heap _ Hs) in Hr.
  - intros p r Hr; exists r; split; [|auto with go]; rewrite lookup_insert_ne; [done|]; intros <-; by apply Hlt in Hr.
Qed.

(** The superseded request, then the new one. *)
Lemma registered_split event q r st :
  heap st !! q = Some r ->
  let r' := superseded_request r in
  registered event (Some q) st =
  insert_request event (if isFinished r' then previous r else Some q)
    (put q r' (set_requests (fun m => if isFinished r' then delete (request_key r) m else m) st)).
Proof. intros Hr r'; unfold registered; cbn; by rewrite Hr. Qed.

Lemma registered_evolves event previous_ st :
  store_sound st -> replaceable event previous_ st -> store_evolves st (registered event previous_ st).
Proof.
  intros Hs Hrep; destruct previous_ as [q|]; [|by apply insert_request_evolves].
  destruct Hrep as (r & Hr & _); rewrite (registered_split event q r) by done.
  destruct (superseded_request_ok r (sound_heap _ Hs _ _ Hr)) as (Hok & Hev & Hsup & _).
  set (r' := superseded_request r) in *.
  set (m := if isFinished r' then delete (request_key r) (requests st) else requests st).
  assert (Hput : store_evolves st (put q r' (set_requests (fun _ => m) st))).
  { apply (put_evolves q r); [done..|]; intros key p; unfold m; destruct (isFinished r'); [|done].
    by intros [_ ?]%lookup_delete_Some. }
  replace (set_requests (fun m => if isFinished r' then delete (request_key r) m else m) st)
    with (set_requests (fun _ => m) st) by done.
  eapply store_evolves_trans; [done|]; apply insert_request_evolves; [apply Hput|].
  intros q' Hq'; destruct (isFinished r') eqn:Hf.
  - destruct (sound_previous _ Hs _ _ _ Hr Hq') as (_ & r0 & Hr0 & Hs0).
    destruct Hput as [_ Hput _ _]; apply Hput in Hr0 as (r0' & ? & _ & _ & Hs0'); exists r0'; split; [done|].
    by apply Hs0'.
  - injection Hq' as <-; exists r'; cbn; by rewrite lookup_insert_eq.
Qed.

(** The request of a new key. *)
Lemma registered_lookup event previous_ st :
  exists r, heap (registered event previous_ st) !! fresh st = Some r /\ request_event r = event /\
    requests (registered event previous_ st) !! DedupeKey event = Some (fresh st) /\ isSuperseded r = false /\
    isRunning r = false /\ fresh (registered event previous_ st) = S (fresh st).
Proof.
  unfold registered; destruct (previous_ ≫= _) as [[q r]|]; cbn;
    (eexists; rewrite !lookup_insert_eq; by split_and!).
Qed.

Inductive admitted (order : list string) (event : PlatformInboundEvent) (st : pendingRequestStore)
  : pendingRequestStore -> Prop :=
| admitted_known : (is_control event = true \/ is_Some (requests st !! DedupeKey event)) ->
    admitted order event st st
| admitted_new event' previous_ :
    is_control event = false -> requests st !! DedupeKey event = None ->
    prepare order event st = Ok (event', previous_) -> DedupeKey event' = DedupeKey event ->
    replaceable event' previous_ st -> admitted order event st (registered event' previous_ st).

Lemma admit_event_Ok order event st :
  store_sound st -> exists st', admit_event order event st = Ok st' /\ admitted order event st st'.
Proof.
  intros Hs; destruct (prepare_cases order event st Hs) as (event' & previous_ & Hp & Hk & Hcase).
  unfold admit_event; rewrite Hp; cbn; destruct previous_ as [q|].
  - destruct Hcase as (Hc & Hkey & Hc' & Hrep & _); exists (registered event' (Some q) st); split.
    + apply register_Ok; [done|done|by rewrite Hk|done].
    + by eapply admitted_new.
  - destruct Hcase as [[Hc ->]|[(p & r & Hkey & Hr & ->)|[Hkey ->]]].
    + exists st; split; [unfold register; by rewrite Hc|]; constructor; by left.
    + exists st; split; [|constructor; right; by exists p]; unfold register.
      destruct (is_control (request_event r)); [done|]; by rewrite Hk, Hkey.
    + destruct (is_control event) eqn:Hc.
      { exists st; split; [unfold register; by rewrite Hc|]; constructor; by left. }
      exists (registered event None st); split; [by apply register_Ok|]; by eapply admitted_new.
Qed.

Lemma admitted_evolves order event st st' :
  store_sound st -> admitted order event st st' -> store_evolves st st'.
Proof. intros Hs [?|event' previous_ _ _ _ _ Hrep]; [by apply store_evolves_refl|by apply registered_evolves]. Qed.

End register.

(** *** The other operations *)

Section operations.
Context `{UnicodeTables}.

#[local] Ltac same_request := unfold request_sound, request_evolves in *; requests; intuition congruence.

Lemma start_request_ok r :
  request_sound r -> isSuperseded r = false -> isRunning r = false ->
  request_sound (start_request r) /\ request_evolves r (start_request r).
Proof.
  unfold start_request, request_sound, request_evolves; intros Hok Hs Hr; requests.
  destruct isFinished0; cbn in *; intuition congruence.
Qed.

Inductive begun (order : list string) (event : PlatformInboundEvent) (st : pendingRequestStore)
  : pendingRequestStore -> option ptr * pendingRequestStartReason -> Prop :=
| begun_superseded_key : DedupeKey event ∈ supersededReferences st ->
    begun order event st st (None, pendingRequestSuperseded)
| begun_refused st1 p r reason : DedupeKey event ∉ supersededReferences st -> admitted order event st st1 ->
    requests st1 !! DedupeKey event = Some p -> heap st1 !! p = Some r ->
    reason = pendingRequestSuperseded /\ isSuperseded r = true \/
    reason = pendingRequestAlreadyRunning /\ isSuperseded r = false /\ isRunning r = true ->
    begun order event st st1 (Some p, reason)
| begun_started st1 p r : DedupeKey event ∉ supersededReferences st -> admitted order event st st1 ->
    requests st1 !! DedupeKey event = Some p -> heap st1 !! p = Some r ->
    isSuperseded r = false -> isRunning r = false ->
    begun order event st (put p (start_request r) st1) (Some p, pendingRequestStarted).

Lemma admitted_known_key order event st st1 :
  store_sound st -> is_control event = false -> admitted order event st st1 ->
  exists p r, requests st1 !! DedupeKey event = Some p /\ heap st1 !! p = Some r.
Proof.
  intros Hs Hc [[Hc'|[p Hp]]|event' previous_ _ _ _ Hk _]; [congruence| |].
  - pose proof Hp as (r & Hr & _)%(sound_requests _ Hs); by exists p, r.
  - destruct (registered_lookup event' previous_ st) as (r & Hr & _ & Hkey & _); rewrite Hk in Hkey.
    by exists (fresh st), r.
Qed.

Lemma begin_Ok order event st :
  store_sound st -> is_control event = false ->
  exists st' res, begin order event st = Ok (st', res) /\ begun order event st st' res.
Proof.
  intros Hs Hc; unfold begin; case_bool_decide as Hsup.
  { eexists _, _; split; [done|by constructor]. }
  assert (Had : exists st1, match requests st !! DedupeKey event with
    | Some _ => Ok st | None => admit_event order event st end = Ok st1 /\ admitted order event st st1).
  { destruct (requests st !! DedupeKey event) as [p|] eqn:Hp; [|by apply admit_event_Ok].
    exists st; split; [done|]; constructor; right; by exists p. }
  destruct Had as (st1 & -> & Had); cbn.
  destruct (admitted_known_key _ _ _ _ Hs Hc Had) as (p & r & Hkey & Hr); rewrite Hkey; unfold deref; rewrite Hr; cbn.
  destruct (isSuperseded r) eqn:Hs1; [|destruct (isRunning r) eqn:Hr1]; (eexists _, _; split; [done|]).
  - eapply begun_refused; [done..|]; by left.
  - eapply begun_refused; [done..|]; by right.
  - by eapply begun_started.
Qed.

Lemma begun_evolves order event st st' res : store_sound st -> begun order event st st' res -> store_evolves st st'.
Proof.
  intros Hs [?|st1 p r reason _ Had _ _ _|st1 p r _ Had _ Hr Hsup Hrun].
  - by apply store_evolves_refl.
  - by eapply admitted_evolves.
  - pose proof (admitted_evolves _ _ _ _ Hs Had) as Hev; eapply store_evolves_trans; [done|].
    destruct (start_request_ok r (sound_heap _ (store_evolves_sound _ _ Hev) _ _ Hr) Hsup Hrun).
    eapply put_same_evolves; [apply Hev|done..].
Qed.

Definition finished_request (r : pendingRequest) : pendingRequest :=
  cancel_request (set_isFinished true (set_done_closed true (set_isRunning false r))).

Lemma finish_Ok p r st :
  store_sound st -> heap st !! p = Some r -> isRunning r = true ->
  finish p st = Ok (put p (finished_request r)
    (set_requests (fun m => if isSuperseded r || hasReply r then delete (request_key r) m else m) st), isSuperseded r).
Proof.
  intros Hs Hr Hrun; unfold finish, deref; rewrite Hr; cbn.
  destruct (sound_heap _ Hs _ _ Hr) as (Hd & Hf & _); specialize (Hf Hrun); rewrite Hf in Hd.
  destruct r as [e pr c x d ru fi su re]; cbn in *; subst; cbn.
  unfold close_done; cbn; unfold request_key, finished_request; cbn.
  destruct (su || re); [done|]; by destruct st.
Qed.

Lemma finished_request_ok r : request_sound r -> request_sound (finished_request r) /\ request_evolves r (finished_request r).
Proof. unfold finished_request; intros Hok; same_request. Qed.

Lemma finish_evolves p r st :
  store_sound st -> heap st !! p = Some r ->
  store_evolves st (put p (finished_request r)
    (set_requests (fun m => if isSuperseded r || hasReply r then delete (request_key r) m else m) st)).
Proof.
  intros Hs Hr; destruct (finished_request_ok r (sound_heap _ Hs _ _ Hr)).
  apply (put_evolves p r _ (if isSuperseded r || hasReply r then delete (request_key r) (requests st) else requests st));
    [done..|]; intros key q; destruct (isSuperseded r || hasReply r); [by intros [_ ?]%lookup_delete_Some|done].
Qed.

Lemma set_hasReply_ok r : request_sound r -> request_sound (set_hasReply true r) /\ request_evolves r (set_hasReply true r).
Proof. intros Hok; same_request. Qed.

Lemma reply_request_evolves p r st :
  store_sound st -> heap st !! p = Some r -> store_evolves st (put p (set_hasReply true r) st).
Proof.
  intros Hs Hr; destruct (set_hasReply_ok r (sound_heap _ Hs _ _ Hr)); by eapply put_same_evolves.
Qed.

Lemma answered_evolves p r key (b : bool) st :
  store_sound st -> heap st !! p = Some r ->
  store_evolves st (let st := put p (set_hasReply true r) st in
                    if b then set_requests (delete key) st else st).
Proof.
  intros Hs Hr; pose proof (reply_request_evolves p r st Hs Hr) as Hev; cbn zeta; destruct b; [|done].
  eapply store_evolves_trans; [done|apply delete_evolves, Hev].
Qed.

Lemma send_evolves key isDelivery sent st :
  store_sound st -> store_evolves st (send_pending_reply key isDelivery sent st).1.
Proof.
  intros Hs; unfold send_pending_reply; case_bool_decide; [by apply store_evolves_refl|]; cbn.
  destruct (requests st !! key) as [p|]; [|by apply store_evolves_refl].
  destruct (heap st !! p) as [r|] eqn:Hr; [|by apply store_evolves_refl].
  destruct sent as [dispatchID|]; cbn; [|by apply store_evolves_refl].
  destruct (isDelivery && _); [|by apply store_evolves_refl]; by apply answered_evolves.
Qed.

Lemma fold_evolves (f : pendingRequestStore -> string -> pendingRequestStore) order st :
  (forall st key, store_sound st -> store_evolves st (f st key)) ->
  store_sound st -> store_evolves st (foldl f st order).
Proof.
  intros Hf; revert st; induction order as [|key order IH]; intros st Hs; cbn; [by apply store_evolves_refl|].
  eapply store_evolves_trans; [by apply Hf|]; by apply IH, Hf.
Qed.

Lemma refresh_evolves order replied event st :
  store_sound st -> store_evolves st (refreshPendingRequestDelivery order replied event st).
Proof.
  apply fold_evolves; intros st' key Hs'; unfold refresh_request.
  destruct (requests st' !! key) as [p|]; cbn; [|by apply store_evolves_refl].
  destruct (heap st' !! p) as [r|] eqn:Hr; cbn; [|by apply store_evolves_refl].
  destruct (is_open_request r && _ && _); [|by apply store_evolves_refl]; by apply answered_evolves.
Qed.

Lemma closeControlled_evolves order event st :
  store_sound st -> store_evolves st (closeControlledPendingRequests order event st).
Proof.
  apply fold_evolves; intros st' key Hs'; unfold close_request.
  destruct (requests st' !! key) as [p|]; cbn; [|by apply store_evolves_refl].
  destruct (heap st' !! p) as [r|] eqn:Hr; cbn; [|by apply store_evolves_refl].
  destruct (controlled_by event r); [|by apply store_evolves_refl]; by apply reply_request_evolves.
Qed.

End operations.

(** ** Runs: messages arrive, turns begin, start and end, replies go out, in any order *)

(** [lineage] are the requests that one superseded, oldest first, and [launched] those
    whose turn has passed its waits; both only observe. *)
Record Run := MkRun {
  store : pendingRequestStore;
  lineage : gmap ptr (list ptr);
  launched : gset ptr;
}.

Definition new_run : Run := MkRun newPendingRequestStore ∅ ∅.

Definition ancestry (p : ptr) (ru : Run) : list ptr := default [] (lineage ru !! p).

Section runs.
Context `{UnicodeTables}.

(** A request that is registered follows the one it revises. *)
Definition observe_admission (order : list string) (event : PlatformInboundEvent) (st' : pendingRequestStore)
    (ru : Run) : Run :=
  let st := store ru in
  let ancestors := match prepare order event st with Ok (_, Some q) => ancestry q ru ++ [q] | _ => [] end in
  MkRun st' (if bool_decide (fresh st' = fresh st) then lineage ru else <[fresh st := ancestors]> (lineage ru))
    (launched ru).

Definition set_store (st : pendingRequestStore) (ru : Run) : Run := MkRun st (lineage ru) (launched ru).

(** With [histories], an event that is not in the map may come with messages it revises:
    one that a restart reads, or a retry whose request has left the map. *)
Inductive run_step (histories : bool) (ru : Run) : Run -> Prop :=
| step_admit order event st' :
    histories = true \/ PreviousMessages event = [] \/ is_Some (requests (store ru) !! DedupeKey event) ->
    admit_event order event (store ru) = Ok st' ->
    run_step histories ru (observe_admission order event st' ru)
| step_begin order event st' res :
    histories = true \/ PreviousMessages event = [] \/ is_Some (requests (store ru) !! DedupeKey event) ->
    is_control event = false -> begin order event (store ru) = Ok (st', res) ->
    run_step histories ru (observe_admission order event st' ru)
| step_launch p : may_launch p (store ru) = true ->
    run_step histories ru (MkRun (store ru) (lineage ru) ({[p]} ∪ launched ru))
| step_finish p r st' b : heap (store ru) !! p = Some r -> isRunning r = true ->
    finish p (store ru) = Ok (st', b) ->
    run_step histories ru (MkRun st' (lineage ru) (launched ru ∖ {[p]}))
| step_reply key isDelivery sent :
    run_step histories ru (set_store (send_pending_reply key isDelivery sent (store ru)).1 ru)
| step_refresh order replied event :
    run_step histories ru (set_store (refreshPendingRequestDelivery order replied event (store ru)) ru)
| step_stop order event :
    run_step histories ru (set_store (closeControlledPendingRequests order event (store ru)) ru).

Definition run_reaches (histories : bool) : Run -> Run -> Prop := rtc (run_step histories).

(** The messages of requests, as a later one carries them. *)
Definition messages_of (st : pendingRequestStore) (l : list ptr) : list PendingRequestMessage :=
  omap (fun q => pendingMessageFromEvent ∘ request_event <$> heap st !! q) l.

Record run_sound (histories : bool) (ru : Run) : Prop := {
  run_store : store_sound (store ru);
  run_ancestors : forall p q, q ∈ ancestry p ru -> exists r, heap (store ru) !! q = Some r /\
    isSuperseded r = true /\ (isFinished r = true \/ q ∈ predecessors p (store ru));
  run_launched : forall p, p ∈ launched ru -> exists r, heap (store ru) !! p = Some r /\ isRunning r = true /\
    forall q, q ∈ ancestry p ru -> exists r', heap (store ru) !! q = Some r' /\ isFinished r' = true;
  run_lineage : forall p, is_Some (lineage ru !! p) -> is_Some (heap (store ru) !! p);
  run_messages : histories = false -> forall p r, heap (store ru) !! p = Some r ->
    PreviousMessages (request_event r) = messages_of (store ru) (ancestry p ru);
  run_references : histories = false -> forall p r, heap (store ru) !! p = Some r -> isSuperseded r = true ->
    request_key r ∈ supersededReferences (store ru);
}.

(** *** Chains of requests *)

Lemma waits_for_more n m p st : (n <= m)%nat -> forall q, q ∈ waits_for n p st -> q ∈ waits_for m p st.
Proof.
  revert m p; induction n as [|n IH]; intros m p Hle q; [by intros ?%elem_of_nil|].
  destruct m as [|m]; [lia|]; destruct p as [p'|]; cbn; [|done].
  intros [->|Hq]%elem_of_cons; [left|]; right; apply (IH m); [lia|done].
Qed.

Lemma waits_for_evolves n p st st' :
  store_sound st -> store_evolves st st' -> (forall q, p = Some q -> is_Some (heap st !! q)) ->
  waits_for n p st' = waits_for n p st.
Proof.
  intros Hs Hev; revert p; induction n as [|n IH]; intros p Hp; [done|]; destruct p as [q|]; [|done]; cbn.
  destruct (Hp q eq_refl) as [r Hr].
  destruct (store_evolves_request _ _ Hev _ _ Hr) as (r' & Hr' & _ & Hprev & _); rewrite Hr, Hr'; cbn.
  rewrite Hprev, IH; [done|]; intros q' Hq'.
  destruct (sound_previous _ Hs _ _ _ Hr Hq') as (_ & r0 & ? & _); by exists r0.
Qed.

Lemma predecessors_evolves p st st' :
  store_sound st -> store_evolves st st' -> is_Some (heap st !! p) -> predecessors p st' = predecessors p st.
Proof.
  intros Hs Hev [r Hr]; destruct (store_evolves_request _ _ Hev _ _ Hr) as (r' & Hr' & _ & Hprev & _).
  unfold predecessors; rewrite Hr, Hr'; cbn; rewrite Hprev; apply waits_for_evolves; [done..|]; intros q Hq.
  destruct (sound_previous _ Hs _ _ _ Hr Hq) as (_ & r0 & ? & _); by exists r0.
Qed.

(** A change that registers nothing. *)
Lemma keep_sound histories ru st' launched' :
  run_sound histories ru -> store_evolves (store ru) st' ->
  (histories = false -> forall p r', heap st' !! p = Some r' -> isSuperseded r' = true ->
     exists r, heap (store ru) !! p = Some r /\ isSuperseded r = true) ->
  (forall p, is_Some (heap st' !! p) -> is_Some (heap (store ru) !! p)) ->
  (forall p, p ∈ launched' -> exists r, heap st' !! p = Some r /\ isRunning r = true /\
     forall q, q ∈ ancestry p ru -> exists r', heap st' !! q = Some r' /\ isFinished r' = true) ->
  run_sound histories (MkRun st' (lineage ru) launched').
Proof.
  intros [Hs Ha _ Hlin Hm Hr] Hev Hsup Hdom Hl; split; cbn -[ancestry]; [apply Hev| |done| | |].
  - intros p q Hq; destruct (Ha p q Hq) as (r & Hrq & Hs1 & Hf).
    destruct (store_evolves_request _ _ Hev _ _ Hrq) as (r' & Hr' & _ & _ & Hs'); apply Hs' in Hs1 as [Hs2 Hf'].
    exists r'; split_and!; [done..|]; destruct Hf as [Hf|Hf]; [left; auto|right].
    rewrite (predecessors_evolves p (store ru) st'); [done..|]; apply Hlin.
    change (q ∈ ancestry p ru) in Hq; unfold ancestry in Hq; destruct (lineage ru !! p); [by eexists|].
    by apply elem_of_nil in Hq.
  - intros p Hp; destruct (Hlin p Hp) as [r Hr0].
    by destruct (store_evolves_request _ _ Hev _ _ Hr0) as (r' & ? & _); exists r'.
  - intros Hh p r' Hr'; destruct (Hdom p) as [r Hr0]; [by exists r'|].
    destruct (store_evolves_request _ _ Hev _ _ Hr0) as (r1 & Hr1 & He & _).
    rewrite Hr' in Hr1; injection Hr1 as <-; rewrite He, (Hm Hh p r Hr0).
    unfold messages_of; change (ancestry p (MkRun st' (lineage ru) launched')) with (ancestry p ru).
    apply list_omap_ext, Forall_Forall2_diag, Forall_forall; intros q Hq; destruct (Ha p q Hq) as (rq & Hrq & _).
    by destruct (store_evolves_request _ _ Hev _ _ Hrq) as (rq' & -> & Hev' & _); rewrite Hrq; cbn; rewrite Hev'.
  - intros Hh p r' Hr' Hs'; destruct (Hsup Hh p r' Hr' Hs') as (r & Hr0 & Hs0).
    destruct (store_evolves_request _ _ Hev _ _ Hr0) as (r1 & Hr1 & He & _).
    rewrite Hr' in Hr1; injection Hr1 as <-; unfold request_key; rewrite He.
    by apply (store_evolves_references _ _ Hev), (Hr Hh p r Hr0).
Qed.

(** *** A request is registered *)

Lemma registered_heap event previous_ st p r :
  heap st !! p = Some r -> p <> fresh st ->
  exists r', heap (registered event previous_ st) !! p = Some r' /\ isRunning r' = isRunning r /\
    (r' = r \/ previous_ = Some p /\ r' = superseded_request r).
Proof.
  intros Hr Hne; unfold registered; destruct previous_ as [q|]; cbn.
  - destruct (heap st !! q) as [rq|] eqn:Hq; cbn; rewrite lookup_insert_ne by done; [|exists r; auto].
    destruct (decide (p = q)) as [->|Hpq].
    + rewrite lookup_insert_eq; rewrite Hr in Hq; injection Hq as <-.
      exists (superseded_request r); split_and!; [done| |by right].
      unfold superseded_request; destruct r as [? ? ? ? ? ru fi ? ?]; by destruct ru, fi.
    + rewrite lookup_insert_ne by done; exists r; auto.
  - rewrite lookup_insert_ne by done; exists r; auto.
Qed.

Lemma registered_only event previous_ st p r' :
  heap (registered event previous_ st) !! p = Some r' -> p = fresh st \/ is_Some (heap st !! p).
Proof.
  unfold registered; destruct previous_ as [q|]; cbn.
  - destruct (heap st !! q) as [rq|] eqn:Hq; cbn; rewrite lookup_insert_Some; (intros [[<- _]|[_ Hr]]; [by left|right]).
    + apply lookup_insert_Some in Hr as [[<- _]|[_ Hr]]; by eexists.
    + by eexists.
  - rewrite lookup_insert_Some; intros [[<- _]|[_ Hr]]; [by left|right; by eexists].
Qed.

(** The new request waits for what the one it revises waits for, and for that one
    unless its turn is over. *)
Lemma registered_predecessors event q r st :
  store_sound st -> replaceable event (Some q) st -> heap st !! q = Some r ->
  let st' := registered event (Some q) st in
  (isFinished (superseded_request r) = true \/ q ∈ predecessors (fresh st) st') /\
  forall x, x ∈ predecessors q st -> x ∈ predecessors (fresh st) st'.
Proof.
  intros Hs Hrep Hr st'; pose proof (registered_evolves event (Some q) st Hs Hrep) as Hev; fold st' in Hev.
  pose proof (sound_fresh _ Hs _ _ Hr) as Hlt.
  assert (Hprev : waits_for q (previous r) st' = predecessors q st).
  { unfold predecessors; rewrite Hr; cbn; apply waits_for_evolves; [done..|]; intros q' Hq'.
    destruct (sound_previous _ Hs _ _ _ Hr Hq') as (_ & r0 & ? & _); by exists r0. }
  destruct (store_evolves_request _ _ Hev _ _ Hr) as (r' & Hr' & _ & Hpr & _).
  assert (Hnew : heap st' !! fresh st =
    Some (new_request event (if isFinished (superseded_request r) then previous r else Some q))).
  { unfold st', registered; cbn; rewrite Hr; cbn; by rewrite lookup_insert_eq. }
  unfold predecessors at 1 3; rewrite Hnew; cbn [mbind option_bind previous new_request].
  destruct (isFinished (superseded_request r)).
  - split; [by left|]; intros x Hx; eapply (waits_for_more q); [lia|]; by rewrite Hprev.
  - destruct (fresh st) as [|n] eqn:Hf; [lia|]; cbn; rewrite Hr'; cbn; rewrite Hpr; split; [right; left|].
    intros x Hx; right; eapply (waits_for_more q); [lia|]; by rewrite Hprev.
Qed.

Lemma messages_of_evolves st st' l :
  store_evolves st st' -> (forall q, q ∈ l -> is_Some (heap st !! q)) -> messages_of st' l = messages_of st l.
Proof.
  intros Hev Hl; apply list_omap_ext, Forall_Forall2_diag, Forall_forall; intros q Hq; destruct (Hl q Hq) as [rq Hrq].
  by destruct (store_evolves_request _ _ Hev _ _ Hrq) as (rq' & -> & Hev' & _); rewrite Hrq; cbn; rewrite Hev'.
Qed.

Lemma ancestry_heap histories ru p q :
  run_sound histories ru -> q ∈ ancestry p ru -> is_Some (heap (store ru) !! p) /\ is_Some (heap (store ru) !! q).
Proof.
  intros Hs Hq; destruct (run_ancestors _ _ Hs p q Hq) as (r & Hr & _); split; [|by exists r].
  apply (run_lineage _ _ Hs); unfold ancestry in Hq; destruct (lineage ru !! p); [by eexists|by apply elem_of_nil in Hq].
Qed.

Definition extended (ancestors : list ptr) (st' : pendingRequestStore) (ru : Run) : Run :=
  MkRun st' (<[fresh (store ru) := ancestors]> (lineage ru)) (launched ru).

Lemma ancestry_extended ancestors st' ru p :
  ancestry p (extended ancestors st' ru) = if decide (p = fresh (store ru)) then ancestors else ancestry p ru.
Proof.
  unfold ancestry, extended; cbn; case_decide as Hp; [subst p; by rewrite lookup_insert_eq|].
  by rewrite lookup_insert_ne.
Qed.

Section registration.
Variables (histories : bool) (ru : Run) (event : PlatformInboundEvent) (previous_ : option ptr).
Hypothesis Hrun : run_sound histories ru.
Hypothesis Hrep : replaceable event previous_ (store ru).
Hypothesis Hcarried : histories = false ->
  match previous_ with
  | None => PreviousMessages event = []
  | Some q => exists r, heap (store ru) !! q = Some r /\ PreviousMessages event = carried_messages (request_event r)
  end.

Let st := store ru.
Let st' := registered event previous_ st.
Let ancestors := match previous_ with Some q => ancestry q ru ++ [q] | None => [] end.
Let ru' := extended ancestors st' ru.

Lemma registration_evolves : store_evolves st st'.
Proof. apply registered_evolves; [apply Hrun|done]. Qed.

Lemma registration_ancestor q : q ∈ ancestors -> is_Some (heap st !! q).
Proof.
  unfold ancestors; destruct previous_ as [q0|]; [|by intros ?%elem_of_nil].
  rewrite elem_of_app; intros [Hq|Hq]; [by apply (ancestry_heap histories ru q0 q)|].
  apply list_elem_of_singleton in Hq as ->; destruct Hrep as (r & Hr & _); by exists r.
Qed.

Lemma old_is_not_fresh p : is_Some (heap st !! p) -> p <> fresh st.
Proof. intros [r Hr]; apply (sound_fresh _ (run_store _ _ Hrun)) in Hr; unfold st in *; lia. Qed.

Lemma registration_ancestors p q : q ∈ ancestry p ru' -> exists r, heap st' !! q = Some r /\
  isSuperseded r = true /\ (isFinished r = true \/ q ∈ predecessors p st').
Proof.
  pose proof registration_evolves as Hev; unfold ru'; rewrite ancestry_extended; case_decide as Hp.
  - subst p; unfold ancestors, st'; destruct previous_ as [q0|]; [|by intros ?%elem_of_nil].
    pose proof Hrep as (r0 & Hr0 & _).
    destruct (registered_predecessors event q0 r0 st (run_store _ _ Hrun) Hrep Hr0) as [Hq0 Hmore].
    rewrite elem_of_app; intros [Hq|Hq].
    + destruct (run_ancestors _ _ Hrun q0 q Hq) as (r & Hr & Hsup & Hf).
      destruct (store_evolves_request _ _ Hev _ _ Hr) as (r' & Hr' & _ & _ & Hs'); apply Hs' in Hsup as [? Hf'].
      exists r'; split_and!; [done..|]; destruct Hf as [Hf|Hf]; [left; auto|right; by apply Hmore].
    + apply list_elem_of_singleton in Hq as ->.
      assert (Hr0' : heap (registered event (Some q0) st) !! q0 = Some (superseded_request r0)).
      { unfold registered; cbn; change (heap st !! q0 = Some r0) in Hr0; rewrite Hr0; cbn.
        rewrite lookup_insert_ne, lookup_insert_eq; [done|]; apply not_eq_sym, old_is_not_fresh; by exists r0. }
      destruct (superseded_request_ok r0 (sound_heap _ (run_store _ _ Hrun) _ _ Hr0)) as (_ & _ & Hsup & _).
      by exists (superseded_request r0).
  - intros Hq; destruct (run_ancestors _ _ Hrun p q Hq) as (r & Hr & Hsup & Hf).
    destruct (store_evolves_request _ _ Hev _ _ Hr) as (r' & Hr' & _ & _ & Hs'); apply Hs' in Hsup as [? Hf'].
    exists r'; split_and!; [done..|]; destruct Hf as [Hf|Hf]; [left; auto|right].
    rewrite (predecessors_evolves p st st'); [done|apply Hrun|done|].
    by apply (ancestry_heap histories ru p q).
Qed.

Lemma registration_launched p : p ∈ launched ru -> exists r, heap st' !! p = Some r /\ isRunning r = true /\
  forall q, q ∈ ancestry p ru' -> exists r', heap st' !! q = Some r' /\ isFinished r' = true.
Proof.
  intros Hp; destruct (run_launched _ _ Hrun p Hp) as (r & Hr & Hrunning & Hall).
  assert (Hne : p <> fresh st) by (apply old_is_not_fresh; by exists r).
  destruct (registered_heap event previous_ st p r Hr Hne) as (r' & Hr' & Hsame & _).
  exists r'; split_and!; [done|congruence|]; unfold ru'; rewrite ancestry_extended, decide_False by done.
  intros q Hq; destruct (Hall q Hq) as (rq & Hrq & Hf), (run_ancestors _ _ Hrun p q Hq) as (rq2 & Hrq2 & Hsup & _).
  rewrite Hrq in Hrq2; injection Hrq2 as <-.
  destruct (store_evolves_request _ _ registration_evolves _ _ Hrq) as (rq' & Hrq' & _ & _ & Hs').
  exists rq'; split; [done|]; by apply Hs'.
Qed.

Lemma registration_messages p r : histories = false -> heap st' !! p = Some r ->
  PreviousMessages (request_event r) = messages_of st' (ancestry p ru').
Proof.
  intros Hh Hr; pose proof (Hcarried Hh) as Hc; unfold ru'; rewrite ancestry_extended; case_decide as Hp.
  - subst p; rewrite (messages_of_evolves st st'); [|apply registration_evolves|apply registration_ancestor].
    destruct (registered_lookup event previous_ st) as (r1 & Hr1 & He & _); fold st' st in Hr1, Hr.
    rewrite Hr in Hr1; injection Hr1 as <-; rewrite He; unfold ancestors.
    clear -Hc Hrun Hh; destruct previous_ as [q|]; [|done]; destruct Hc as (rq & Hrq & ->); unfold messages_of, carried_messages.
    rewrite omap_app; cbn; change (heap st !! q = Some rq) in Hrq; rewrite Hrq; cbn; f_equal; by apply (run_messages _ _ Hrun Hh q rq).
  - destruct (registered_only _ _ _ _ _ Hr) as [?|[r0 Hr0]]; [done|].
    destruct (store_evolves_request _ _ registration_evolves _ _ Hr0) as (r1 & Hr1 & He & _).
    rewrite Hr in Hr1; injection Hr1 as <-; rewrite He, (run_messages _ _ Hrun Hh p r0 Hr0).
    symmetry; apply messages_of_evolves; [apply registration_evolves|]; intros q Hq; by apply (ancestry_heap histories ru p q).
Qed.

Lemma registration_references p r : histories = false -> heap st' !! p = Some r -> isSuperseded r = true ->
  request_key r ∈ supersededReferences st'.
Proof.
  intros Hh Hr Hsup; pose proof (Hcarried Hh) as Hc.
  destruct (registered_only _ _ _ _ _ Hr) as [->|[r0 Hr0]].
  { destruct (registered_lookup event previous_ st) as (r1 & Hr1 & _ & _ & Hs1 & _); fold st' in Hr1; congruence. }
  assert (Hne : p <> fresh st) by (apply old_is_not_fresh; by exists r0).
  destruct (registered_heap event previous_ st p r0 Hr0 Hne) as (r1 & Hr1 & _ & [->|[Hp ->]]); fold st' in Hr1;
    rewrite Hr in Hr1; injection Hr1 as ->.
  - by apply (store_evolves_references _ _ registration_evolves), (run_references _ _ Hrun Hh p).
  - rewrite Hp in Hc; destruct Hc as (rq & Hrq & Hpm).
    change (heap st !! p = Some rq) in Hrq; rewrite Hr0 in Hrq; injection Hrq as <-.
    destruct (superseded_request_ok r0 (sound_heap _ (run_store _ _ Hrun) _ _ Hr0)) as (_ & (He & _) & _).
    unfold request_key; rewrite He; unfold st', registered; rewrite Hp; cbn.
    change (heap st !! p = Some r0) in Hr0; rewrite Hr0; cbn.
    rewrite Hpm; unfold carried_messages; apply elem_of_union; right.
    apply elem_of_list_to_set, list_elem_of_fmap; exists (pendingMessageFromEvent (request_event r0)).
    split; [done|]; apply elem_of_app; right; left.
Qed.

Lemma registration_sound : run_sound histories ru'.
Proof.
  split; [apply registration_evolves|apply registration_ancestors|apply registration_launched| |
    intros; by apply registration_messages|intros; by eapply registration_references].
  unfold ru', extended; cbn; intros p; rewrite lookup_insert_is_Some'; intros [<-|Hp].
  - destruct (registered_lookup event previous_ st) as (r & Hr & _); by exists r.
  - apply (run_lineage _ _ Hrun) in Hp as [r Hr].
    by destruct (store_evolves_request _ _ registration_evolves _ _ Hr) as (r' & ? & _); exists r'.
Qed.

End registration.

(** *** Every step keeps a run sound *)

Lemma admission_sound histories ru order event st' :
  histories = true \/ PreviousMessages event = [] \/ is_Some (requests (store ru) !! DedupeKey event) ->
  run_sound histories ru -> admitted order event (store ru) st' ->
  run_sound histories (observe_admission order event st' ru).
Proof.
  intros Hh Hs [_|event' previous_ Hc Hkey Hp Hk Hrep]; unfold observe_admission.
  { rewrite bool_decide_true by done; by destruct ru. }
  destruct (registered_lookup event' previous_ (store ru)) as (_ & _ & _ & _ & _ & _ & Hf).
  rewrite bool_decide_false by lia; rewrite Hp; cbn zeta.
  destruct (prepare_cases order event (store ru) (run_store _ _ Hs)) as (e0 & p0 & Hp0 & _ & Hcase).
  rewrite Hp in Hp0; injection Hp0 as <- <-.
  apply (registration_sound histories ru event' previous_ Hs Hrep); intros Hh0.
  destruct Hh as [Hh|[Hpm|[p Hknown]]]; [congruence| |congruence]; destruct previous_ as [q|].
  - destruct Hcase as (_ & _ & _ & _ & r & Hr & _ & ->); exists r; rewrite Hpm, bool_decide_true by done.
    split; [done|]; by destruct event.
  - destruct Hcase as [[_ ->]|[(p & r & Hp1 & _)|[_ ->]]]; [done|congruence|done].
Qed.

(** A change of requests that supersedes none, and of no turn that is under way. *)
Lemma quiet_sound histories ru st' launched' :
  run_sound histories ru -> store_evolves (store ru) st' -> launched' ⊆ launched ru ->
  (forall p r', heap st' !! p = Some r' -> exists r, heap (store ru) !! p = Some r /\
     isSuperseded r' = isSuperseded r /\ (p ∈ launched' -> isRunning r' = isRunning r)) ->
  run_sound histories (MkRun st' (lineage ru) launched').
Proof.
  intros Hs Hev Hsub Hq; apply keep_sound; [done|done|..].
  - intros _ p r' Hr' Hs'; destruct (Hq p r' Hr') as (r & ? & ? & _); exists r; split; congruence.
  - intros p [r' Hr']; destruct (Hq p r' Hr') as (r & ? & _); by exists r.
  - intros p Hp; destruct (run_launched _ _ Hs p) as (r & Hr & Hrun & Hall); [by apply Hsub|].
    destruct (store_evolves_request _ _ Hev _ _ Hr) as (r' & Hr' & _).
    destruct (Hq p r' Hr') as (r0 & Hr0 & _ & Hsame); rewrite Hr in Hr0; injection Hr0 as <-.
    exists r'; split_and!; [done|by rewrite Hsame|]; intros q Hqa; destruct (Hall q Hqa) as (rq & Hrq & Hf).
    destruct (run_ancestors _ _ Hs p q Hqa) as (rq2 & Hrq2 & Hsup & _); rewrite Hrq in Hrq2; injection Hrq2 as <-.
    destruct (store_evolves_request _ _ Hev _ _ Hrq) as (rq' & Hrq' & _ & _ & Hk); exists rq'; split; [done|].
    by apply Hk.
Qed.

Lemma put_quiet p r r' st q rq :
  heap st !! p = Some r -> isSuperseded r' = isSuperseded r -> <[p := r']> (heap st) !! q = Some rq ->
  exists rq0, heap st !! q = Some rq0 /\ isSuperseded rq = isSuperseded rq0 /\
    (q <> p \/ isRunning r' = isRunning r -> isRunning rq = isRunning rq0).
Proof.
  intros Hr Hsup; rewrite lookup_insert_Some; intros [[<- <-]|[Hne Hq]]; [exists r|exists rq; by split_and!].
  split_and!; [done..|]; by intros [?|?].
Qed.

(** Only the mark of a reply changes. *)
Definition marks_replies (st st' : pendingRequestStore) : Prop :=
  forall p r', heap st' !! p = Some r' -> exists r, heap st !! p = Some r /\
    isSuperseded r' = isSuperseded r /\ isRunning r' = isRunning r.

Lemma marks_replies_trans st1 st2 st3 : marks_replies st1 st2 -> marks_replies st2 st3 -> marks_replies st1 st3.
Proof.
  intros H1 H2 p r3 (r2 & (r1 & ? & ? & ?)%H1 & ? & ?)%H2; exists r1; split_and!; congruence.
Qed.

Lemma marks_replies_refl st : marks_replies st st.
Proof. intros p r Hr; by exists r. Qed.

Lemma put_marks p r st : heap st !! p = Some r -> marks_replies st (put p (set_hasReply true r) st).
Proof.
  intros Hr q rq Hq; apply (put_quiet p r) in Hq as (rq0 & ? & ? & Hrun); [|done|by destruct r].
  exists rq0; split_and!; [done..|]; apply Hrun; right; by destruct r.
Qed.

Lemma answered_marks p r key (b : bool) st : heap st !! p = Some r ->
  marks_replies st (let st := put p (set_hasReply true r) st in
                    if b then set_requests (delete key) st else st).
Proof. intros Hr; cbn zeta; destruct b; [|by apply put_marks]; intros q rq Hq; by apply (put_marks p r st Hr q rq). Qed.

Lemma send_marks key isDelivery sent st : marks_replies st (send_pending_reply key isDelivery sent st).1.
Proof.
  unfold send_pending_reply; case_bool_decide; [apply marks_replies_refl|]; cbn.
  destruct (requests st !! key) as [p|]; [|apply marks_replies_refl].
  destruct (heap st !! p) as [r|] eqn:Hr; [|apply marks_replies_refl].
  destruct sent as [dispatchID|]; cbn; [|apply marks_replies_refl].
  destruct (isDelivery && _); [by apply answered_marks|apply marks_replies_refl].
Qed.

Lemma fold_marks (f : pendingRequestStore -> string -> pendingRequestStore) order st :
  (forall st key, marks_replies st (f st key)) -> marks_replies st (foldl f st order).
Proof.
  intros Hf; revert st; induction order as [|key order IH]; intros st; cbn; [apply marks_replies_refl|].
  eapply marks_replies_trans; [apply Hf|apply IH].
Qed.

Lemma refresh_marks order replied event st :
  marks_replies st (refreshPendingRequestDelivery order replied event st).
Proof.
  apply fold_marks; intros st' key; unfold refresh_request.
  destruct (requests st' !! key) as [p|]; cbn; [|apply marks_replies_refl].
  destruct (heap st' !! p) as [r|] eqn:Hr; cbn; [|apply marks_replies_refl].
  destruct (is_open_request r && _ && _); [by apply answered_marks|apply marks_replies_refl].
Qed.

Lemma closeControlled_marks order event st : marks_replies st (closeControlledPendingRequests order event st).
Proof.
  apply fold_marks; intros st' key; unfold close_request.
  destruct (requests st' !! key) as [p|]; cbn; [|apply marks_replies_refl].
  destruct (heap st' !! p) as [r|] eqn:Hr; cbn; [|apply marks_replies_refl].
  destruct (controlled_by event r); [by apply put_marks|apply marks_replies_refl].
Qed.

Lemma marks_sound histories ru st' :
  run_sound histories ru -> store_evolves (store ru) st' -> marks_replies (store ru) st' ->
  run_sound histories (set_store st' ru).
Proof.
  intros Hs Hev Hm; apply quiet_sound; [done|done|done|]; intros p r' (r & ? & ? & ?)%Hm; exists r; by split_and!.
Qed.

Lemma begin_sound histories ru order event st' res :
  histories = true \/ PreviousMessages event = [] \/ is_Some (requests (store ru) !! DedupeKey event) ->
  run_sound histories ru -> begun order event (store ru) st' res ->
  run_sound histories (observe_admission order event st' ru).
Proof.
  intros Hh Hs [?|st1 p r reason _ Had _ _ _|st1 p r _ Had _ Hr Hsup Hrun].
  - unfold observe_admission; rewrite bool_decide_true by done; by destruct ru.
  - by apply admission_sound.
  - pose proof (admission_sound _ _ _ _ _ Hh Hs Had) as Hs1; set (ru1 := observe_admission order event st1 ru) in *.
    change (run_sound histories (MkRun (put p (start_request r) (store ru1)) (lineage ru1) (launched ru1))).
    destruct (start_request_ok r (sound_heap _ (run_store _ _ Hs1) _ _ Hr) Hsup Hrun).
    apply quiet_sound; [done|by apply (put_same_evolves p r); [apply Hs1|..]|done|]; intros q rq Hq.
    apply (put_quiet p r) in Hq as (rq0 & ? & ? & Hsame); [|done|unfold start_request; by destruct r as [? ? ? ? ? ? []]].
    exists rq0; split_and!; [done..|]; intros Hl; apply Hsame; left; intros ->.
    destruct (run_launched _ _ Hs1 p Hl) as (r1 & Hr1 & ? & _); change (heap st1) with (heap (store ru1)) in Hr; congruence.
Qed.

Lemma launch_sound histories ru p :
  run_sound histories ru -> may_launch p (store ru) = true ->
  run_sound histories (MkRun (store ru) (lineage ru) ({[p]} ∪ launched ru)).
Proof.
  intros Hs Hl; apply keep_sound; [done|by apply store_evolves_refl, Hs|intros _ q rq ? ?; by exists rq|done|].
  intros q [->%elem_of_singleton|Hq]%elem_of_union; [|by apply (run_launched _ _ Hs)].
  unfold may_launch in Hl; destruct (heap (store ru) !! p) as [r|] eqn:Hr; [|done]; bool_to_prop.
  exists r; split_and!; [done..|]; intros q Hq; destruct (run_ancestors _ _ Hs p q Hq) as (rq & Hrq & _ & [Hf|Hin]);
    exists rq; split; try done.
  rewrite forallb_elem_of in H1; specialize (H1 q Hin); rewrite Hrq in H1.
  by destruct (sound_heap _ (run_store _ _ Hs) _ _ Hrq) as [<- _].
Qed.

Lemma run_step_sound histories ru ru' : run_sound histories ru -> run_step histories ru ru' -> run_sound histories ru'.
Proof.
  intros Hs Hstep; pose proof (run_store _ _ Hs) as Hst; destruct Hstep as
    [order event st' Hh Had|order event st' res Hh Hc Hb|p Hl|p r st' b Hr Hrun Hf|key isDelivery sent
    |order replied event|order event].
  - destruct (admit_event_Ok order event _ Hst) as (st1 & Hst1 & Had1); rewrite Had in Hst1.
    injection Hst1 as <-; by apply admission_sound.
  - destruct (begin_Ok order event _ Hst Hc) as (st1 & res1 & Hst1 & Hbeg); rewrite Hb in Hst1.
    injection Hst1 as <- <-; by eapply begin_sound.
  - by apply launch_sound.
  - rewrite (finish_Ok p r) in Hf by done; injection Hf as <- _.
    apply quiet_sound; [done|by apply finish_evolves|set_solver|]; intros q rq Hq.
    apply (put_quiet p r) in Hq as (rq0 & ? & ? & Hsame); [|done|by destruct r].
    exists rq0; split_and!; [done..|]; intros Hl; apply Hsame; left; set_solver.
  - apply marks_sound; [done|by apply send_evolves|apply send_marks].
  - apply marks_sound; [done|by apply refresh_evolves|apply refresh_marks].
  - apply marks_sound; [done|by apply closeControlled_evolves|apply closeControlled_marks].
Qed.

Lemma new_run_sound histories : run_sound histories new_run.
Proof. split; [split|..]; cbn; intros *; rewrite ?lookup_empty; set_solver. Qed.

Lemma run_reaches_sound histories ru ru' :
  run_sound histories ru -> run_reaches histories ru ru' -> run_sound histories ru'.
Proof. intros Hs Hr; induction Hr as [|x y z Hstep _ IH]; [done|]; by eapply IH, run_step_sound. Qed.

Lemma run_step_evolves histories ru ru' :
  store_sound (store ru) -> run_step histories ru ru' -> store_evolves (store ru) (store ru').
Proof.
  intros Hs Hstep; destruct Hstep as
    [order event st' Hh Had|order event st' res Hh Hc Hb|p Hl|p r st' b Hr Hrun Hf|key isDelivery sent
    |order replied event|order event]; cbn [store observe_admission set_store].
  - destruct (admit_event_Ok order event _ Hs) as (st1 & Hst1 & Had1); rewrite Had in Hst1.
    injection Hst1 as <-; by eapply admitted_evolves.
  - destruct (begin_Ok order event _ Hs Hc) as (st1 & res1 & Hst1 & Hbeg); rewrite Hb in Hst1.
    injection Hst1 as <- <-; by eapply begun_evolves.
  - by apply store_evolves_refl.
  - rewrite (finish_Ok p r) in Hf by done; injection Hf as <- _; by apply finish_evolves.
  - by apply send_evolves.
  - by apply refresh_evolves.
  - by apply closeControlled_evolves.
Qed.

Lemma run_reaches_evolves histories ru ru' :
  store_sound (store ru) -> run_reaches histories ru ru' -> store_evolves (store ru) (store ru').
Proof.
  intros Hs Hr; induction Hr as [x|x y z Hstep _ IH]; [by apply store_evolves_refl|].
  pose proof (run_step_evolves _ _ _ Hs Hstep) as Hev; eapply store_evolves_trans; [done|]; apply IH, Hev.
Qed.

Lemma waits_for_superseded n l st q :
  store_sound st -> (forall p, l = Some p -> exists r, heap st !! p = Some r /\ isSuperseded r = true) ->
  q ∈ waits_for n l st -> exists r, heap st !! q = Some r /\ isSuperseded r = true /\
    (forall p, l = Some p -> (q <= p)%nat).
Proof.
  intros Hs; revert l; induction n as [|n IH]; intros l Hl; [by intros ?%elem_of_nil|].
  destruct l as [p|]; [|by intros ?%elem_of_nil]; cbn; intros [->|Hq]%elem_of_cons.
  { destruct (Hl p eq_refl) as (r & ? & ?); exists r; split_and!; [done..|]; by intros ? [= ->]. }
  destruct (Hl p eq_refl) as (rp & Hrp & _); rewrite Hrp in Hq; cbn in Hq.
  destruct (IH (previous rp)) as (r & Hr & Hsup & Hle); [|done|].
  { intros p' Hp'; by destruct (sound_previous _ Hs _ _ _ Hrp Hp') as (_ & ?). }
  exists r; split_and!; [done..|]; intros ? [= <-]; destruct (previous rp) as [p'|] eqn:Hp'.
  - destruct (sound_previous _ Hs _ _ _ Hrp Hp') as [? _]; specialize (Hle p' eq_refl); lia.
  - destruct n; by apply elem_of_nil in Hq.
Qed.

(** C36. The store never dereferences a missing request and never closes a channel
    twice, however messages, turns, replies and stops interleave and in whatever order
    the map is visited; and a turn waits only for older requests that are over or whose
    turn has been told to stop, so that turns never wait for each other. *)
Theorem pending_requests_never_panic_or_deadlock histories ru :
  run_reaches histories new_run ru ->
  (forall order event, exists st', admit_event order event (store ru) = Ok st') /\
  (forall order event, is_control event = false -> exists st' res, begin order event (store ru) = Ok (st', res)) /\
  (forall p r, heap (store ru) !! p = Some r -> isRunning r = true ->
    exists st' b, finish p (store ru) = Ok (st', b)) /\
  (forall p q, q ∈ predecessors p (store ru) -> (q < p)%nat /\
    exists r, heap (store ru) !! q = Some r /\ isSuperseded r = true /\
      (done_closed r = true \/ isRunning r = true /\ isCancelled r = true)).
Proof.
  intros Hr; pose proof (run_store _ _ (run_reaches_sound _ _ _ (new_run_sound histories) Hr)) as Hs; split_and!.
  - intros order event; destruct (admit_event_Ok order event _ Hs) as (st' & ? & _); by exists st'.
  - intros order event Hc; destruct (begin_Ok order event _ Hs Hc) as (st' & res & ? & _); by exists st', res.
  - intros p r Hp Hrun; eexists _, _; by apply finish_Ok.
  - intros p q Hq; unfold predecessors in Hq; destruct (heap (store ru) !! p) as [rp|] eqn:Hp; cbn in Hq;
      [|destruct p; by apply elem_of_nil in Hq].
    destruct (previous rp) as [p'|] eqn:Hp'; [|destruct p; by apply elem_of_nil in Hq].
    destruct (sound_previous _ Hs _ _ _ Hp Hp') as (Hlt & Hsup).
    destruct (waits_for_superseded p (Some p') (store ru) q) as (r & Hr0 & Hsq & Hle); [done|by intros ? [= <-]|done|].
    split; [specialize (Hle p' eq_refl); lia|]; exists r; split_and!; [done..|].
    destruct (sound_heap _ Hs _ _ Hr0) as (-> & _ & _ & Hx & Hf); destruct (isRunning r); [right|left]; auto.
Qed.

(** The turns of one revised request exclude each other: when a turn has passed its
    waits, the turn of every request it supersedes, directly or through others, is over,
    and none of them is under way at any later time. *)
Theorem revised_turns_exclude_each_other histories ru later p q :
  run_reaches histories new_run ru -> run_reaches histories ru later ->
  p ∈ launched ru -> q ∈ ancestry p ru ->
  (exists r, heap (store ru) !! q = Some r /\ isSuperseded r = true /\ isFinished r = true) /\
  (q ∉ launched ru) /\ (q ∉ launched later).
Proof.
  intros Hr Hl Hp Hq; pose proof (run_reaches_sound _ _ _ (new_run_sound histories) Hr) as Hs.
  destruct (run_launched _ _ Hs p Hp) as (_ & _ & _ & Hall); destruct (Hall q Hq) as (r & Hrq & Hf).
  destruct (run_ancestors _ _ Hs p q Hq) as (r0 & Hr0 & Hsup & _); rewrite Hrq in Hr0; injection Hr0 as <-.
  assert (Hover : forall run, run_sound histories run -> store_evolves (store ru) (store run) -> q ∉ launched run).
  { intros run Hs' Hev Hin; destruct (run_launched _ _ Hs' q Hin) as (r1 & Hr1 & Hrun & _).
    destruct (store_evolves_request _ _ Hev _ _ Hrq) as (r2 & Hr2 & _ & _ & Hk); rewrite Hr1 in Hr2; injection Hr2 as <-.
    destruct (Hk Hsup) as [_ Hf']; specialize (Hf' Hf).
    destruct (sound_heap _ (run_store _ _ Hs') _ _ Hr1) as (_ & Hnot & _); by rewrite Hnot in Hf'. }
  split_and!; [by exists r|apply Hover; [done|by apply store_evolves_refl, Hs]|].
  apply Hover; [by eapply run_reaches_sound|]; eapply run_reaches_evolves; [apply Hs|done].
Qed.

(** While a process runs, no message is dropped: a request carries the messages of
    all the requests it supersedes, oldest first, each once, and its own last. *)
Theorem revisions_carry_every_message ru p r :
  run_reaches false new_run ru -> heap (store ru) !! p = Some r ->
  exists events, Forall2 (fun q event => exists rq, heap (store ru) !! q = Some rq /\ request_event rq = event /\
      isSuperseded rq = true /\ DedupeKey event ∈ supersededReferences (store ru)) (ancestry p ru) events /\
    carried_messages (request_event r) = pendingMessageFromEvent <$> events ++ [request_event r].
Proof.
  intros Hr Hp; pose proof (run_reaches_sound _ _ _ (new_run_sound false) Hr) as Hs.
  pose proof (run_ancestors _ _ Hs p) as Hall; unfold carried_messages; rewrite (run_messages _ _ Hs eq_refl p r Hp).
  revert Hall; generalize (ancestry p ru) as l; intros l Hall.
  assert (Hl : exists events, Forall2 (fun q event => exists rq, heap (store ru) !! q = Some rq /\
    request_event rq = event /\ isSuperseded rq = true /\ DedupeKey event ∈ supersededReferences (store ru)) l events /\
    messages_of (store ru) l = pendingMessageFromEvent <$> events).
  { induction l as [|q l IH]; [by exists []|].
    destruct IH as (events & Hev & Hm); [intros q' Hq'; apply Hall; by right|].
    destruct (Hall q ltac:(left)) as (rq & Hrq & Hsup & _); exists (request_event rq :: events); split.
    - constructor; [|done]; exists rq; split_and!; [done..|]; by apply (run_references _ _ Hs eq_refl q rq).
    - unfold messages_of; cbn; rewrite Hrq; cbn; f_equal; exact Hm. }
  destruct Hl as (events & Hev & ->); exists events; split; [done|]; by rewrite fmap_app.
Qed.

(** Once a request is superseded, its turn never begins again and no reply of it is
    sent, as long as the process runs. *)
Theorem superseded_requests_stay_silent ru later p r event order isDelivery sent :
  run_reaches false new_run ru -> run_reaches false ru later ->
  heap (store ru) !! p = Some r -> isSuperseded r = true -> DedupeKey event = request_key r ->
  begin order event (store later) = Ok (store later, (None, pendingRequestSuperseded)) /\
  send_pending_reply (request_key r) isDelivery sent (store later) = (store later, (false, Ok "")).
Proof.
  intros Hr Hl Hp Hsup Hkey; pose proof (run_reaches_sound _ _ _ (new_run_sound false) Hr) as Hs.
  pose proof (run_reaches_evolves _ _ _ (run_store _ _ Hs) Hl) as Hev.
  assert (Hin : request_key r ∈ supersededReferences (store later))
    by by apply (store_evolves_references _ _ Hev), (run_references _ _ Hs eq_refl p r).
  unfold begin, send_pending_reply; rewrite Hkey; by rewrite bool_decide_true.
Qed.

End runs.

(** ** The text of a revised request *)

Section revised.
Variable event : PlatformInboundEvent.

Let identity := pendingMessageIdentity event.

(** The messages of a list that none of it replaces. *)
Definition current_of (messages : list PendingRequestMessage) : list PendingRequestMessage :=
  (filter (fun im => latestIndexes event messages !! pendingMessageIdentity event im.2 = Some im.1)
    (imap pair messages)).*2.

Lemma latestIndexes_snoc messages m :
  latestIndexes event (messages ++ [m]) = <[identity m := length messages]> (latestIndexes event messages).
Proof. unfold latestIndexes; rewrite imap_app, foldl_app; cbn; by rewrite Nat.add_0_r. Qed.

(** A message takes the place of its earlier versions, at the end. *)
Lemma current_of_snoc messages m :
  current_of (messages ++ [m]) = filter (fun x => identity x <> identity m) (current_of messages) ++ [m].
Proof.
  unfold current_of; rewrite latestIndexes_snoc, imap_app, filter_app, fmap_app; f_equal.
  - assert (Hlt : Forall (fun im => (im.1 < length messages)%nat) (imap pair messages)).
    { apply Forall_forall; intros [i x] (j & y & [= -> ->] & Hj)%elem_of_lookup_imap_1; cbn.
      by apply lookup_lt_Some in Hj. }
    induction Hlt as [|[i x] l Hi Hl IH]; [done|]; cbn in Hi; rewrite !filter_cons; cbn [fst snd].
    unfold identity in *; destruct (decide (pendingMessageIdentity event x = pendingMessageIdentity event m)) as [He|Hne].
    + rewrite decide_False by (rewrite He, lookup_insert_eq; intros [= Heq]; lia).
      rewrite IH; case_decide; [|done]; cbn; by rewrite decide_False by (intros Hn; by apply Hn).
    + rewrite lookup_insert_ne by done; case_decide; cbn; [|done].
      rewrite decide_True by done; by rewrite IH.
  - cbn; rewrite Nat.add_0_r; unfold identity.
    by rewrite decide_True by by rewrite lookup_insert_eq.
Qed.

Lemma current_of_spec messages :
  let current := current_of messages in
  current `sublist_of` messages /\ NoDup (identity <$> current) /\
  (forall m, m ∈ messages -> exists m', m' ∈ current /\ identity m' = identity m) /\
  (forall m, m ∈ current -> exists l1 l2, messages = l1 ++ m :: l2 /\ identity m ∉ identity <$> l2).
Proof.
  induction messages as [|m messages IH] using rev_ind; cbn zeta in *.
  { split_and!; [done|constructor|by intros ? ?%elem_of_nil..]. }
  destruct IH as (Hsub & Hnd & Hall & Hlast); rewrite current_of_snoc.
  set (kept := filter (fun x => identity x <> identity m) (current_of messages)).
  assert (Hkept : forall x, x ∈ kept <-> identity x <> identity m /\ x ∈ current_of messages)
    by (intros x; unfold kept; by rewrite list_elem_of_filter).
  split_and!.
  - apply sublist_app; [|done]; etrans; [apply sublist_filter|done].
  - rewrite fmap_app; apply NoDup_app; split_and!; [|cbn|apply NoDup_singleton].
    + eapply sublist_NoDup; [exact Hnd|apply fmap_sublist, sublist_filter].
    + intros k (x & -> & [Hne _]%Hkept)%list_elem_of_fmap Hin; by apply list_elem_of_singleton in Hin.
  - intros x [Hx|Hx]%elem_of_app.
    + destruct (Hall x Hx) as (x' & Hx' & Hi); destruct (decide (identity x = identity m)) as [He|Hne].
      * exists m; split; [apply elem_of_app; right; left|done].
      * exists x'; split; [apply elem_of_app; left; apply Hkept; by rewrite Hi|done].
    + apply list_elem_of_singleton in Hx as ->; exists m; split; [apply elem_of_app; right; left|done].
  - intros x [[Hne Hx]%Hkept|Hx]%elem_of_app.
    + destruct (Hlast x Hx) as (l1 & l2 & -> & Hn); exists l1, (l2 ++ [m]); rewrite <- app_assoc; split; [done|].
      rewrite fmap_app, not_elem_of_app; split; [done|]; cbn; intros Hin; by apply list_elem_of_singleton in Hin.
    + apply list_elem_of_singleton in Hx as ->; exists messages, []; split; [done|apply not_elem_of_nil].
Qed.

End revised.

(** A revised request has, in the order they arrived, the texts of its messages
    without the versions a later edit replaces: each message it carries is there in one
    version, the last, and its own text comes last. *)
Theorem revisedRequestEvent_exact event :
  PreviousMessages event <> [] ->
  let identity := pendingMessageIdentity event in
  exists current, let texts := current ++ [pendingMessageFromEvent event] in
    Event_Prompt (revisedRequestEvent event) = Join double_newline (revision_preamble :: (Message_Prompt <$> texts)) /\
    InputParts (revisedRequestEvent event) = concat (Message_InputParts <$> texts) /\
    DedupeKey (revisedRequestEvent event) = DedupeKey event /\
    texts `sublist_of` carried_messages event /\ NoDup (identity <$> texts) /\
    (forall m, m ∈ carried_messages event -> exists m', m' ∈ texts /\ identity m' = identity m) /\
    (forall m, m ∈ texts -> exists l1 l2, carried_messages event = l1 ++ m :: l2 /\
      (identity m ∉ identity <$> l2)).
Proof.
  intros Hne identity; unfold revisedRequestEvent; rewrite bool_decide_false by done.
  assert (Hc : currentRequestMessages event = current_of event (carried_messages event)) by done.
  destruct (current_of_spec event (carried_messages event)) as (Hsub & Hnd & Hall & Hlast).
  unfold carried_messages in Hc at 1; rewrite current_of_snoc in Hc.
  eexists; cbn zeta; rewrite <- Hc; change (currentRequestMessages event) with (current_of event (carried_messages event)).
  split_and!; [by destruct event..|done|done|done|done].
Qed.

(** ** Concrete inputs *)

Section samples.
#[local] Existing Instance ascii_tables.

Definition admit_run (order : list string) (event : PlatformInboundEvent) (ru : Run) : Run :=
  match admit_event order event (store ru) with Ok st' => observe_admission order event st' ru | Err _ => ru end.

Definition begin_run (order : list string) (event : PlatformInboundEvent) (ru : Run) : Run :=
  match begin order event (store ru) with Ok (st', _) => observe_admission order event st' ru | Err _ => ru end.

Definition finish_run (p : ptr) (ru : Run) : Run :=
  match finish p (store ru) with
  | Ok (st', _) => MkRun st' (lineage ru) (launched ru ∖ {[p]})
  | Err _ => ru
  end.

Definition launch_run (p : ptr) (ru : Run) : Run := MkRun (store ru) (lineage ru) ({[p]} ∪ launched ru).

Definition first_message := sample_event "U1" "m1" "Write a report".
Definition second_message := sample_event "U1" "m2" "as HTML".

(** The second message arrives before the first is begun, and its turn starts. *)
Definition two_messages : Run :=
  admit_run ["slack:C1:m1"] second_message (admit_run [] first_message new_run).
Definition revised_turn : Run := launch_run 1%nat (begin_run [] second_message two_messages).

Lemma two_messages_reached : run_reaches false new_run two_messages.
Proof.
  eapply rtc_l; [|eapply rtc_l; [|reflexivity]].
  - apply (step_admit false new_run [] first_message (store (admit_run [] first_message new_run)));
      [right; left; reflexivity|vm_compute; reflexivity].
  - apply (step_admit false _ ["slack:C1:m1"] second_message (store two_messages));
      [right; left; reflexivity|vm_compute; reflexivity].
Qed.

Lemma revised_turn_reached : run_reaches false two_messages revised_turn.
Proof.
  eapply rtc_l; [|eapply rtc_l; [|reflexivity]].
  - apply (step_begin false two_messages [] second_message (store (begin_run [] second_message two_messages))
      (Some 1%nat, pendingRequestStarted)); [right; left; reflexivity|vm_compute; reflexivity|vm_compute; reflexivity].
  - apply step_launch; vm_compute; reflexivity.
Qed.

Lemma revised_turn_reached_anew : run_reaches false new_run revised_turn.
Proof. etrans; [apply two_messages_reached|apply revised_turn_reached]. Qed.

Lemma pending_requests_never_panic_or_deadlock_witness :
  run_reaches false new_run two_messages /\
  exists st' res, begin [] second_message (store two_messages) = Ok (st', res).
Proof.
  split; [exact two_messages_reached|].
  apply (pending_requests_never_panic_or_deadlock false two_messages two_messages_reached); vm_compute; reflexivity.
Defined.

Lemma revised_turns_exclude_each_other_witness :
  (1%nat ∈ launched revised_turn) /\ (0%nat ∈ ancestry 1%nat revised_turn) /\ (0%nat ∉ launched revised_turn).
Proof.
  assert (Hl : 1%nat ∈ launched revised_turn) by (refine (proj1 (bool_decide_eq_true _) _); vm_compute; reflexivity).
  assert (Ha : 0%nat ∈ ancestry 1%nat revised_turn) by (refine (proj1 (bool_decide_eq_true _) _); vm_compute; reflexivity).
  split; [exact Hl|split; [exact Ha|]].
  apply (revised_turns_exclude_each_other false revised_turn revised_turn 1%nat 0%nat
    revised_turn_reached_anew (rtc_refl _ _) Hl Ha).
Defined.

Lemma revisions_carry_every_message_witness :
  exists r, heap (store two_messages) !! 1%nat = Some r /\
    Message_Prompt <$> carried_messages (request_event r) = ["Write a report"; "as HTML"] /\
    exists events, carried_messages (request_event r) = pendingMessageFromEvent <$> events ++ [request_event r].
Proof.
  assert (Hm : (fun r => Message_Prompt <$> carried_messages (request_event r)) <$> heap (store two_messages) !! 1%nat =
    Some ["Write a report"; "as HTML"]) by (vm_compute; reflexivity).
  destruct (heap (store two_messages) !! 1%nat) as [r|] eqn:Hr; [|discriminate Hm].
  exists r; split; [reflexivity|split; [exact (Some_inj _ _ Hm)|]].
  destruct (revisions_carry_every_message two_messages 1%nat r two_messages_reached Hr) as (events & _ & He).
  exists events; exact He.
Defined.

Lemma superseded_requests_stay_silent_witness :
  begin [] first_message (store revised_turn) = Ok (store revised_turn, (None, pendingRequestSuperseded)).
Proof.
  assert (Hm : (fun r => (isSuperseded r, request_key r)) <$> heap (store two_messages) !! 0%nat =
    Some (true, DedupeKey first_message)) by (vm_compute; reflexivity).
  destruct (heap (store two_messages) !! 0%nat) as [r|] eqn:Hr; [|discriminate Hm].
  assert (Hs : isSuperseded r = true) by exact (f_equal fst (Some_inj _ _ Hm)).
  assert (Hk : DedupeKey first_message = request_key r) by exact (eq_sym (f_equal snd (Some_inj _ _ Hm))).
  apply (superseded_requests_stay_silent two_messages revised_turn 0%nat r first_message [] true (Ok "sent")
    two_messages_reached revised_turn_reached Hr Hs Hk).
Defined.

Definition edited_message : PlatformInboundEvent :=
  set_PreviousMessages (carried_messages first_message)
    (MkEvent "slack" "http" "C1" "m1" "edit-1" "U1" "m1" None [] "Write a memo" [] "" no_context 0 None).

Lemma revisedRequestEvent_exact_witness :
  PreviousMessages edited_message <> [] /\
  Message_Prompt <$> currentRequestMessages edited_message = ["Write a memo"] /\
  exists current, Event_Prompt (revisedRequestEvent edited_message) = Join double_newline
    (revision_preamble :: (Message_Prompt <$> (current ++ [pendingMessageFromEvent edited_message]))).
Proof.
  assert (Hne : PreviousMessages edited_message <> []) by (vm_compute; discriminate).
  split; [exact Hne|split; [vm_compute; reflexivity|]].
  destruct (revisedRequestEvent_exact edited_message Hne) as (current & Hp & _); exists current; exact Hp.
Defined.

(** ** Departures *)

(** A message that comes with the messages it revises - a retry, or one that a restart
    reads - still supersedes an open request of its scope, and does not take up what
    that one carries. *)
Lemma history_is_not_extended order event st q r :
  is_control event = false -> requests st !! DedupeKey event = None -> PreviousMessages event <> [] ->
  find_revised order event st = Some (q, r) -> prepare order event st = Ok (event, Some q).
Proof. intros Hc Hk Hp Hf; unfold prepare; rewrite Hc, Hk, Hf; by rewrite bool_decide_false. Qed.

(** A revision of two messages sends a first reply, which closes its request; two more
    messages arrive, the second revising the first; then the turn fails and is retried. *)
Definition third_message := sample_event "U1" "m3" "Book a room".
Definition fourth_message := sample_event "U1" "m4" "for ten people".

Definition failed_revision : Run :=
  finish_run 1%nat (admit_run ["slack:C1:m3"; "slack:C1:m2"] fourth_message
    (admit_run ["slack:C1:m2"] third_message
      (set_store (send_pending_reply "slack:C1:m2" true (Ok "sent") (store revised_turn)).1 revised_turn))).

(** Each is retried with its messages, as the queue stores them. *)
Definition retried_second := set_PreviousMessages (carried_messages first_message) second_message.
Definition retried_fourth := set_PreviousMessages (carried_messages third_message) fourth_message.

Definition request_texts (p : ptr) (ru : Run) : option (list string * bool) :=
  (fun r => (Message_Prompt <$> carried_messages (request_event r), is_open_request r)) <$> heap (store ru) !! p.

(** The older request supersedes the newer, and the newer then the older; neither carries
    the texts of the other, so that each time a turn begins the other's is cancelled. *)
Lemma retried_revisions_supersede_each_other :
  let older_retried := begin_run ["slack:C1:m4"] retried_second failed_revision in
  let newer_retried := begin_run ["slack:C1:m2"] retried_fourth older_retried in
  request_texts 3%nat failed_revision = Some (["Book a room"; "for ten people"], true) /\
  request_texts 3%nat older_retried = Some (["Book a room"; "for ten people"], false) /\
  request_texts 4%nat older_retried = Some (["Write a report"; "as HTML"], true) /\
  request_texts 4%nat newer_retried = Some (["Write a report"; "as HTML"], false) /\
  request_texts 5%nat newer_retried = Some (["Book a room"; "for ten people"], true) /\
  ("slack:C1:m2" ∉ supersededReferences (store newer_retried)).
Proof.
  intros older newer; split_and!; [vm_compute; reflexivity..|].
  apply (proj1 (bool_decide_eq_false _)); vm_compute; reflexivity.
Qed.

(** An answered [/stop] closes the requests it stops, those whose turn is over among
    them, which nothing then takes out of the map. *)
Lemma stopped_request_stays_in_the_map :
  let finished := finish_run 1%nat revised_turn in
  let stopped := closeControlledPendingRequests ["slack:C1:m2"] (sample_event "U1" "m5" "/stop") (store finished) in
  requests stopped !! "slack:C1:m2" = Some 1%nat /\
  (fun r => (isFinished r, hasReply r)) <$> heap stopped !! 1%nat = Some (true, true).
Proof. split; vm_compute; reflexivity. Qed.

End samples.
