(* ===== verification/ConnectorQueue.v ===== *)
(** * The connectors' workers ([connectors/runtime_queue.go], the parts of
    [connectors/request_revision.go] and [runtime.go] they run).

    A message is accepted into the table and the store of pending requests under one
    lock; inbox workers claim messages and settle them by what their turn came to;
    outbox workers send replies.  The turn itself - authorization, the gateway's
    decision, the agent - is an argument: what it returns.  A statement of the database
    is taken to succeed; what its failure leaves is covered by the sequences of
    statements of [ConnectorEvents.v], where any may be missing. *)

From S2P Require Export PendingRequests.

Definition connectorClaimLeaseDuration : duration := 15 * Minute.
Definition connectorWorkerIdleDelay : duration := Second.
Definition connectorMaximumAttemptCount : Z := 5.
Definition requestAlreadyRunningReason : string := "request_already_running".

(** The zero time gives up. *)
Definition nextConnectorAttemptAt (now : instant) (attemptCount : Z) : instant :=
  if connectorMaximumAttemptCount <=? attemptCount then zero_time else
  let delaySeconds := Z.shiftl 1 (Z.max 0 (Z.min attemptCount 6)) in
  Add now (delaySeconds * Second).

Definition shouldDeferQueuedConnectorEvent (result : ConnectorRuntimeResult) : bool :=
  bool_decide (Reason result = requestAlreadyRunningReason) ||
  (Ignored result && bool_decide (Reason result = "task_intake_quiesced")).

Definition markQueuedConnectorEventFailed (now : instant) (queued : QueuedConnectorEvent) (message : string)
  : QueueStore -> QueueStore :=
  MarkConnectorEventFailed now queued message (nextConnectorAttemptAt now (Event_AttemptCount queued)).

(** [processQueuedConnectorEventWithAdapter], by what [processPendingInboundEvent]
    returned; [None] where the process is stopping. *)
Definition settle_queued_event (now : instant) (queued : QueuedConnectorEvent)
    (outcome : option (result string ConnectorRuntimeResult)) (st : QueueStore) : QueueStore :=
  match outcome with
  | None => st
  | Some (Err message) => markQueuedConnectorEventFailed now queued message st
  | Some (Ok res) =>
    if shouldDeferQueuedConnectorEvent res then st
    else MarkConnectorEventSucceeded now (QueuedEvent queued) res st
  end.

(** What [processQueuedConnectorEvent] finds: an adapter of the platform; what
    [answerAskingThread] makes of the message; whether it may pass the lock of its
    conversation, and whether that is free; what its turn returns. *)
Record Surroundings := MkSurroundings {
  has_adapter : bool;
  thread_answer : result string (option ConnectorRuntimeResult);
  looks_like_follow_up : bool;
  conversation_is_free : bool;
  turn_outcome : option (result string ConnectorRuntimeResult);
}.

(** [findAdapter] *)
Definition no_adapter_error (platform : string) : string := "connector adapter not registered: " +:+ platform.

Section workers.
Context `{UnicodeTables}.

(** [shouldProcessBeforeConversationLock] *)
Definition passes_the_lock (superseded_ : bool) (around : Surroundings) (event : PlatformInboundEvent) : bool :=
  bool_decide (TaskRetry event = None) &&
  (superseded_ ||
   bool_decide (PreviousMessages event = []) && (is_control event || looks_like_follow_up around)).

Definition processQueuedConnectorEvent (now : instant) (around : Surroundings) (pending : pendingRequestStore)
    (queued : QueuedConnectorEvent) (st : QueueStore) : QueueStore :=
  let event := QueuedEvent queued in
  if negb (has_adapter around) then markQueuedConnectorEventFailed now queued (no_adapter_error (Event_Platform event)) st else
  match thread_answer around with
  | Err message => markQueuedConnectorEventFailed now queued message st
  | Ok (Some res) => MarkConnectorEventSucceeded now event res st
  | Ok None =>
    let superseded_ := bool_decide (DedupeKey event ∈ supersededReferences pending) in
    if passes_the_lock superseded_ around event || conversation_is_free around
    then settle_queued_event now queued (turn_outcome around) st
    else ReleaseConnectorEventClaim queued (Add now connectorWorkerIdleDelay) st
  end.

(** *** A turn ([processPendingInboundEvent]) *)

Definition superseded_turn (event : PlatformInboundEvent) (taskRunID : string) : ConnectorRuntimeResult :=
  MkResult true (Event_Platform event) false false SupersededRequestReason taskRunID "".

Definition running_turn (event : PlatformInboundEvent) : ConnectorRuntimeResult :=
  MkResult true (Event_Platform event) false false requestAlreadyRunningReason "" "".

(** The start of a turn: an answer at once, or the request and the event its turn is run
    on, once the turns it waits for are over. *)
Definition begin_turn (order : list string) (event : PlatformInboundEvent) (st : pendingRequestStore)
  : result Panic (pendingRequestStore * (ConnectorRuntimeResult + ptr * PlatformInboundEvent)) :=
  '(st, (request, reason)) ← begin order event st;
  match reason, request with
  | pendingRequestAlreadyRunning, _ => Ok (st, inl (running_turn event))
  | pendingRequestSuperseded, _ => Ok (st, inl (superseded_turn event ""))
  | pendingRequestStarted, Some p => r ← deref p st; Ok (st, inr (p, revisedRequestEvent (request_event r)))
  | pendingRequestStarted, None => Err NilDereference
  end.

(** Its end: what a turn of a superseded request returns is not its result. *)
Definition end_turn (p : ptr) (event : PlatformInboundEvent) (outcome : result string ConnectorRuntimeResult)
    (st : pendingRequestStore) : result Panic (pendingRequestStore * result string ConnectorRuntimeResult) :=
  let outcome' :=
    if bool_decide (DedupeKey event ∈ supersededReferences st)
    then Ok (superseded_turn event (match outcome with Ok res => Result_TaskRunID res | Err _ => "" end))
    else outcome in
  '(st, _) ← finish p st; Ok (st, outcome').

(** *** Accepting a message *)

Inductive EnqueueError := EnqueueFailed (e : QueueError) | EnqueuePanic (p : Panic).

Definition enqueueInboundEvent (now : instant) (refreshed : list string) (replied : gset string)
    (order : list string) (event : PlatformInboundEvent) (st : QueueStore) (pending : pendingRequestStore)
  : result EnqueueError (QueueStore * pendingRequestStore * ConnectorRuntimeResult) :=
  let pending := refreshPendingRequestDelivery refreshed replied event pending in
  match prepare order event pending with
  | Err p => Err (EnqueuePanic p)
  | Ok (event, previous_) =>
    match TryEnqueueConnectorEvent now event st with
    | Err e => Err (EnqueueFailed e)
    | Ok (st, (true, res)) =>
      Ok (st, pending, MkResult true (Event_Platform event) true (Ignored res) (Reason res)
                         (Result_TaskRunID res) (ReplyDispatchID res))
    | Ok (st, (false, _)) =>
      match register event previous_ pending with
      | Err p => Err (EnqueuePanic p)
      | Ok pending => Ok (st, pending, MkResult true (Event_Platform event) false false "queued" "" "")
      end
    end
  end.

(** *** Sending a reply *)

(** [seen] is whether the message of the reply was superseded when the worker looked
    first, [sent] what [adapter.SendReply] returns, or [None] without an adapter, and
    [stopping] whether the process is told to stop meanwhile. *)
Definition processQueuedConnectorReply (now : instant) (seen : bool) (sent : option (result string string))
    (stopping : bool) (queued : QueuedConnectorReply) (st : QueueStore) (pending : pendingRequestStore)
  : QueueStore * pendingRequestStore :=
  let fail message :=
    MarkConnectorReplyFailed now queued message (nextConnectorAttemptAt now (Reply_AttemptCount queued)) st in
  let suppress := SuppressConnectorReply now queued SupersededRequestReason st in
  if seen then (suppress, pending) else
  match sent with
  | None => (fail (no_adapter_error (Queued_Platform queued)), pending)
  | Some sent =>
    let '(pending, (_, res)) := send_pending_reply (Queued_RawEventID queued) true sent pending in
    if match res with Ok dispatchID => bool_decide (dispatchID = "") | Err _ => false end &&
       bool_decide (Queued_RawEventID queued ∈ supersededReferences pending)
    then (suppress, pending) else
    if stopping then (st, pending) else
    match res with
    | Err message => (fail message, pending)
    | Ok dispatchID => (MarkConnectorReplySent now queued dispatchID st, pending)
    end
  end.

End workers.

(** ** Attempts *)

(** The wait doubles, from one second to sixteen. *)
Lemma nextConnectorAttemptAt_spec now count :
  0 <= count -> 0 < now ->
  (count < connectorMaximumAttemptCount /\ IsZero (nextConnectorAttemptAt now count) = false /\
   nextConnectorAttemptAt now count = now + 2 ^ count * Second /\
   nextConnectorAttemptAt now count <= now + 16 * Second) \/
  connectorMaximumAttemptCount <= count /\ IsZero (nextConnectorAttemptAt now count) = true.
Proof.
  intros Hc Hn; unfold nextConnectorAttemptAt, connectorMaximumAttemptCount.
  destruct (5 <=? count) eqn:Hle; bool_to_prop; [by right|left].
  rewrite Z.shiftl_1_l; replace (Z.max 0 (Z.min count 6)) with count by lia.
  assert (Hpow : 1 <= 2 ^ count <= 16).
  { split; [apply (Z.pow_le_mono_r 2 0 count); lia|apply (Z.pow_le_mono_r 2 count 4); lia]. }
  unfold IsZero, Add, zero_time, Second; split_and!; [done|apply Z.eqb_neq; lia|lia|lia].
Qed.

(** A round: a claim that takes the message, and its turn's failure. *)
Record Round := MkRound {
  claimed_at : instant;
  others_locked : gset string;
  claim_limit : Z;
  failed_at : instant;
  failure : string;
}.

Definition fail_round (id : string) (r : Round) (st : QueueStore) : option QueueStore :=
  let claim := ClaimPendingConnectorEvents (claimed_at r) (others_locked r) (claim_limit r) connectorClaimLeaseDuration st in
  queued ← find (fun q => bool_decide (queued_key q = id)) claim.2;
  Some (settle_queued_event (failed_at r) queued (Some (Err (failure r))) claim.1).

Fixpoint fail_rounds (id : string) (rounds : list Round) (st : QueueStore) : option QueueStore :=
  match rounds with
  | [] => Some st
  | r :: rounds' => st' ← fail_round id r st; fail_rounds id rounds' st'
  end.

Lemma claim_queued_row now locked limit lease st q :
  queue_sound st -> q ∈ (ClaimPendingConnectorEvents now locked limit lease st).2 ->
  exists row, events st !! queued_key q = Some row /\ event_claimable now locked lease (queued_key q) row = true /\
    events (ClaimPendingConnectorEvents now locked limit lease st).1 !! queued_key q = Some (claimed_event now row) /\
    q = queued_event (claimed_event now row).
Proof.
  intros Hs Hq; destruct (claim_spec now locked limit lease st) as [[He _]|(head & claimed & Ht & He)];
    rewrite He in Hq |- *; cbn [snd fst] in *; [by apply elem_of_nil in Hq|].
  apply (claimed_queued _ _ _ _ _ _ _ Hs Ht) in Hq as (row & Hin & Hq).
  destruct (claimed_row _ _ _ _ _ _ _ Hs Ht _ _ Hin) as (Hrow & Hcl & _); exists row.
  split_and!; [exact Hrow|exact Hcl| |exact Hq]; by eapply claimed_lookup_taken.
Qed.

(** The row after a round. *)
Definition failed_event (r : Round) (row : RawEvent) : RawEvent :=
  let count := AttemptCount row + 1 in
  let next := nextConnectorAttemptAt (failed_at r) count in
  set_Status (if IsZero next then StatusFailed else StatusPending)
    (set_Row_NextAttemptAt (if IsZero next then failed_at r else next)
      (set_CompletedAt (failed_at r) (set_Row_Error (failure r) (claimed_event (claimed_at r) row)))).

Lemma open_not_superseded st id row :
  queue_sound st -> events st !! id = Some row -> is_open (Status row) = true -> superseded row = false.
Proof.
  intros Hs Hrow Ho; destruct (superseded row) eqn:Hsup; [|done].
  destruct (sound_events _ Hs _ _ Hrow) as (_ & _ & _ & Hok & _); by rewrite Hok in Ho.
Qed.

Lemma fail_round_spec id r st st' :
  queue_sound st -> fail_round id r st = Some st' ->
  queue_sound st' /\ exists row, events st !! id = Some row /\
    event_claimable (claimed_at r) (others_locked r) connectorClaimLeaseDuration id row = true /\
    events st' !! id = Some (failed_event r row).
Proof.
  intros Hs; unfold fail_round; set (claim := ClaimPendingConnectorEvents _ _ _ _ st).
  destruct (find _ claim.2) as [q|] eqn:Hf; [|done]; intros [= <-].
  apply find_some in Hf as [Hin Hk]; apply bool_decide_eq_true in Hk; apply list_elem_of_In in Hin.
  destruct (claim_queued_row _ _ _ _ _ _ Hs Hin) as (row & Hrow & Hcl & Hrow' & Hq); rewrite Hk in *.
  assert (Hsup : superseded (claimed_event (claimed_at r) row) = false).
  { pose proof (open_not_superseded _ _ _ Hs Hrow (event_claimable_open _ _ _ _ _ Hcl)); by destruct row. }
  split.
  - apply (apply_queue_evolves (OpEventFailed (failed_at r) q (failure r) _)), ClaimEvents_evolves, Hs.
  - exists row; split_and!; [done..|]; cbn [settle_queued_event]; unfold markQueuedConnectorEventFailed, MarkConnectorEventFailed.
    cbn [events set_events]; rewrite lookup_update_rows; change (DedupeKey (QueuedEvent q)) with (queued_key q).
    rewrite Hk; fold claim in Hrow'; rewrite Hrow'; cbn; rewrite bool_decide_true by done; rewrite Hsup; cbn.
    rewrite Hq; unfold failed_event, queued_event, claimed_event; by destruct row.
Qed.

Lemma failed_event_spec r row :
  0 <= AttemptCount row -> 0 < failed_at r ->
  AttemptCount (failed_event r row) = AttemptCount row + 1 /\ Row_Error (failed_event r row) = failure r /\
  IngestedAt (failed_event r row) = IngestedAt row /\ Document (failed_event r row) = Document row /\
  (AttemptCount row + 1 < connectorMaximumAttemptCount -> Status (failed_event r row) = StatusPending /\
    Row_NextAttemptAt (failed_event r row) <= failed_at r + 16 * Second) /\
  (connectorMaximumAttemptCount <= AttemptCount row + 1 -> Status (failed_event r row) = StatusFailed).
Proof.
  intros Hc Hn; destruct (nextConnectorAttemptAt_spec (failed_at r) (AttemptCount row + 1)) as
    [(Hlt & Hz & _ & Hle)|(Hge & Hz)]; [lia|done|..]; unfold failed_event; rewrite Hz;
    destruct row; cbn in *; split_and!; (done || intros; try done; lia).
Qed.

(** The message after some rounds. *)
Definition after_failures (n : nat) (row : RawEvent) : Prop :=
  AttemptCount row = Z.of_nat n /\ (n <= 5)%nat /\
  ((n < 5)%nat -> Status row = StatusPending) /\ (n = 5%nat -> Status row = StatusFailed).

Lemma fail_rounds_spec id rounds st st' row n :
  queue_sound st -> Forall (fun r => 0 < failed_at r) rounds -> events st !! id = Some row -> after_failures n row ->
  fail_rounds id rounds st = Some st' ->
  queue_sound st' /\ exists row', events st' !! id = Some row' /\ after_failures (n + length rounds) row' /\
    IngestedAt row' = IngestedAt row /\ Document row' = Document row /\
    forall r, last rounds = Some r -> Row_Error row' = failure r /\
      (Status row' = StatusPending -> Row_NextAttemptAt row' <= failed_at r + 16 * Second).
Proof.
  intros Hs Hpos; revert n st row Hs; induction Hpos as [|r rounds Hr Hpos IH]; intros n st row Hs Hrow Hn; cbn.
  { intros [= <-]; split; [done|]; exists row; rewrite Nat.add_0_r; split_and!; [done..|]; done. }
  destruct (fail_round id r st) as [st1|] eqn:Hf; [|done]; cbn.
  apply fail_round_spec in Hf as (Hs1 & row0 & Hrow0 & Hcl & Hrow1); [|done].
  rewrite Hrow in Hrow0; injection Hrow0 as <-; destruct Hn as (Ha & Hle & Hpend & Hfail).
  apply event_claimable_open in Hcl; destruct (decide (n = 5%nat)) as [->|Hne]; [by rewrite Hfail in Hcl|].
  destruct (failed_event_spec r row) as (Ha1 & He1 & Hi1 & Hd1 & Hp1 & Hf1); [lia|done|].
  assert (Hn1 : after_failures (S n) (failed_event r row)).
  { unfold connectorMaximumAttemptCount in *; split_and!; [lia|lia|intros; apply Hp1; lia|intros; apply Hf1; lia]. }
  intros Hrest; destruct (IH (S n) st1 _ Hs1 Hrow1 Hn1 Hrest) as (Hs' & row' & Hrow' & Hn' & Hi' & Hd' & Hlast).
  split; [done|]; exists row'; rewrite Nat.add_succ_r; split_and!; [done|done|congruence|congruence|].
  intros r' Hr'; destruct rounds as [|r2 rounds]; [|by apply Hlast].
  injection Hr' as <-; cbn in Hrest; injection Hrest as <-; rewrite Hrow1 in Hrow'; injection Hrow' as <-.
  split; [done|]; intros Hst; apply Hp1; unfold connectorMaximumAttemptCount.
  destruct Hn1 as (_ & _ & _ & Hf5); destruct (decide (S n = 5%nat)) as [H5|H5]; [|lia].
  by rewrite Hf5 in Hst.
Qed.

(** The oldest message that is due is in every claim. *)
Lemma oldest_is_claimed now locked limit lease st id row :
  queue_sound st -> events st !! id = Some row -> event_claimable now locked lease id row = true ->
  (forall id' row', events st !! id' = Some row' -> id' <> id -> event_claimable now locked lease id' row' = true ->
     IngestedAt row < IngestedAt row') ->
  exists q, q ∈ (ClaimPendingConnectorEvents now locked limit lease st).2 /\ queued_key q = id.
Proof.
  intros Hs Hrow Hcl Hold; destruct (claim_spec now locked limit lease st) as [[_ Hno]|(head & claimed & Ht & ->)].
  { by rewrite (Hno id row Hrow) in Hcl. }
  destruct (claimed_head _ _ _ _ _ _ _ Hs Ht) as (q & Hq & Hhead); exists q; split; [done|].
  destruct (decide (queued_key q = id)) as [|Hne]; [done|]; exfalso.
  apply (claimed_queued _ _ _ _ _ _ _ Hs Ht) in Hq as (row0 & Hin & _).
  destruct (claimed_row _ _ _ _ _ _ _ Hs Ht _ _ Hin) as (Hrow0 & Hcl0 & _).
  pose proof (Hold _ _ Hrow0 Hne Hcl0); pose proof (taken_oldest _ _ _ _ _ _ _ Ht _ _ Hrow Hcl).
  rewrite Hhead in Hrow0; injection Hrow0 as <-; lia.
Qed.

(** C10. A message whose turn keeps failing is tried at most five times and then given up,
    with the last error, for good; before that each failure leaves it due again within
    sixteen seconds, and then, once it is the oldest that is due, a worker that holds no
    lock on it claims it again. *)
Theorem failing_messages_are_given_up st id row rounds st' :
  queue_sound st -> events st !! id = Some row -> Status row = StatusPending -> AttemptCount row = 0 ->
  has_document (Document row) = true -> Forall (fun r => 0 < failed_at r) rounds ->
  fail_rounds id rounds st = Some st' ->
  (length rounds <= 5)%nat /\ exists row', events st' !! id = Some row' /\
    AttemptCount row' = Z.of_nat (length rounds) /\ (forall r, last rounds = Some r -> Row_Error row' = failure r) /\
    (length rounds = 5%nat -> Status row' = StatusFailed /\ forall r, fail_round id r st' = None) /\
    (forall r now locked limit, (length rounds < 5)%nat -> last rounds = Some r ->
      failed_at r + 16 * Second <= now -> id ∉ locked ->
      (forall id' other, events st' !! id' = Some other -> id' <> id ->
        event_claimable now locked connectorClaimLeaseDuration id' other = true -> IngestedAt row < IngestedAt other) ->
      exists q, q ∈ (ClaimPendingConnectorEvents now locked limit connectorClaimLeaseDuration st').2 /\
        queued_key q = id).
Proof.
  intros Hs Hrow Hst Ha Hd Hpos Hr.
  assert (H0 : after_failures 0 row) by (split_and!; [done|lia|done|lia]).
  destruct (fail_rounds_spec _ _ _ _ _ _ Hs Hpos Hrow H0 Hr) as (Hs' & row' & Hrow' & Hn & Hi & Hdoc & Hlast).
  destruct Hn as (Ha' & Hle & Hpend & Hfail); cbn in *; split; [done|]; exists row'; split_and!; [done|done| | |].
  - intros r Hl; by apply Hlast.
  - intros H5; split; [auto|]; intros r; destruct (fail_round id r st') as [st2|] eqn:Hf; [|done].
    apply fail_round_spec in Hf as (_ & row2 & Hrow2 & Hcl & _); [|done]; rewrite Hrow' in Hrow2; injection Hrow2 as <-.
    apply event_claimable_open in Hcl; by rewrite Hfail in Hcl.
  - intros r now locked limit Hlt Hl Hnow Hlk Hold; destruct (Hlast r Hl) as [_ Hnext]; specialize (Hpend Hlt).
    apply (oldest_is_claimed _ _ _ _ _ _ row'); [done|done| |by rewrite Hi].
    unfold event_claimable, event_due, After; rewrite Hdoc, Hd, Hpend, bool_decide_false by done; cbn.
    specialize (Hnext Hpend); by rewrite (proj2 (Z.ltb_ge _ _)) by lia.
Qed.

(** ** What memory and the table say of a request *)

Section worlds.
Context `{UnicodeTables}.

Record World := MkWorld { tables : QueueStore; running : Run }.

Definition empty_world : World := MkWorld empty_queue new_run.

Definition is_enqueue (op : QueueOperation) : bool :=
  match op with OpEnqueueEvent _ _ => true | _ => false end.

(** Messages come without a history ([ParseNormalizedInboundEvent] clears it) and their
    keys without blanks around them, as those of the adapters' names are.  A turn begins of a
    request in the map, or of a message of the table that memory does not have any more and
    that revises nothing; a turn of a message that memory does not have and that does
    revise a waiting request is not a step: see [begun_turns_supersede_in_memory_only]. *)
Inductive world_step (w : World) : World -> Prop :=
| world_arrival now refreshed replied order event st' pending' res :
    malformedEventReason event = "" -> PreviousMessages event = [] -> TrimSpace (DedupeKey event) = DedupeKey event ->
    enqueueInboundEvent now refreshed replied order event (tables w) (store (running w)) = Ok (st', pending', res) ->
    let pending := refreshPendingRequestDelivery refreshed replied event (store (running w)) in
    world_step w (MkWorld st' (observe_admission order event pending' (set_store pending (running w))))
| world_statement op : is_enqueue op = false ->
    world_step w (MkWorld (apply_queue op (tables w)) (running w))
| world_turn ru : run_step false (running w) ru -> fresh (store ru) = fresh (store (running w)) ->
    world_step w (MkWorld (tables w) ru)
| world_begin order event row st' res :
    events (tables w) !! DedupeKey event = Some row -> Document row = marshalConnectorEvent event ->
    PreviousMessages event = [] -> TrimSpace (DedupeKey event) = DedupeKey event -> MessageID event <> "" ->
    is_control event = false -> prepare order event (store (running w)) = Ok (event, None) ->
    begin order event (store (running w)) = Ok (st', res) ->
    world_step w (MkWorld (tables w) (observe_admission order event st' (running w))).

(** A request is stored as memory has it, and what memory has as superseded is settled. *)
Record world_agrees (w : World) : Prop := {
  agrees_tables : queue_sound (tables w);
  agrees_running : run_sound false (running w);
  agrees_requests : forall p r, heap (store (running w)) !! p = Some r ->
    TrimSpace (request_key r) = request_key r /\ MessageID (request_event r) <> "" /\
    exists row, events (tables w) !! request_key r = Some row /\ Document row = marshalConnectorEvent (request_event r);
  agrees_superseded : forall key, key ∈ supersededReferences (store (running w)) ->
    exists row, events (tables w) !! key = Some row /\ superseded row = true;
}.

Lemma DedupeKey_nonempty event : DedupeKey event <> "".
Proof. unfold DedupeKey; by destruct (Event_Platform event). Qed.

Lemma marks_keep_references (f : pendingRequestStore -> string -> pendingRequestStore) order st :
  (forall st key, supersededReferences (f st key) = supersededReferences st) ->
  supersededReferences (foldl f st order) = supersededReferences st.
Proof.
  intros Hf; revert st; induction order as [|key order IH]; intros st; cbn; [done|]; by rewrite IH, Hf.
Qed.

Lemma refresh_references order replied event st :
  supersededReferences (refreshPendingRequestDelivery order replied event st) = supersededReferences st.
Proof.
  apply marks_keep_references; intros st' key; unfold refresh_request.
  destruct (requests st' !! key) as [p|]; cbn; [|done]; destruct (heap st' !! p) as [r|]; cbn; [|done].
  destruct (is_open_request r && _ && _); [|done]; cbn; by destruct (isFinished r).
Qed.

(** A run whose requests and references are those before. *)
Lemma agrees_quiet w tables' ru :
  world_agrees w -> queue_evolves (tables w) tables' -> run_sound false ru ->
  (forall p r', heap (store ru) !! p = Some r' -> exists r, heap (store (running w)) !! p = Some r /\
     request_event r' = request_event r) ->
  supersededReferences (store ru) = supersededReferences (store (running w)) ->
  world_agrees (MkWorld tables' ru).
Proof.
  intros Hw Hev Hrun Hheap Hrefs; split; cbn; [apply Hev|done|..].
  - intros p r' Hr'; destruct (Hheap p r' Hr') as (r & Hr & He); unfold request_key; rewrite He.
    destruct (agrees_requests _ Hw p r Hr) as (Ht & Hm & row & Hrow & Hd); split_and!; [done..|].
    destruct (evolves_event _ _ Hev _ _ Hrow) as (row' & Hrow' & _ & Hd' & _); exists row'; split; [done|congruence].
  - intros key Hkey; rewrite Hrefs in Hkey; destruct (agrees_superseded _ Hw key Hkey) as (row & Hrow & Hs).
    destruct (evolves_event _ _ Hev _ _ Hrow) as (row' & Hrow' & _ & _ & _ & Hk); exists row'; auto.
Qed.

(** A step that registers nothing has the requests it had. *)
Lemma evolves_same_heap st st' :
  store_evolves st st' -> (forall p r', heap st' !! p = Some r' -> is_Some (heap st !! p)) ->
  forall p r', heap st' !! p = Some r' -> exists r, heap st !! p = Some r /\ request_event r' = request_event r.
Proof.
  intros Hev Hdom p r' Hr'; destruct (Hdom p r' Hr') as [r Hr]; exists r; split; [done|].
  destruct (store_evolves_request _ _ Hev _ _ Hr) as (r2 & Hr2 & He & _); congruence.
Qed.

Definition registers_nothing (st st' : pendingRequestStore) : Prop :=
  supersededReferences st' = supersededReferences st /\
  forall p, is_Some (heap st' !! p) -> is_Some (heap st !! p).

Lemma put_registers_nothing p r r' f st :
  heap st !! p = Some r -> registers_nothing st (put p r' (set_requests f st)).
Proof. intros Hr; split; [done|]; intros q; cbn; rewrite lookup_insert_is_Some'; intros [<-|?]; [by exists r|done]. Qed.

Lemma put_same_registers_nothing p r r' st : heap st !! p = Some r -> registers_nothing st (put p r' st).
Proof. intros Hr; split; [done|]; intros q; cbn; rewrite lookup_insert_is_Some'; intros [<-|?]; [by exists r|done]. Qed.

Lemma marks_register_nothing st st' :
  marks_replies st st' -> supersededReferences st' = supersededReferences st -> registers_nothing st st'.
Proof. intros Hm Hr; split; [done|]; intros p [r' Hr']; destruct (Hm p r' Hr') as (r & ? & _); by exists r. Qed.

Lemma send_references key isDelivery sent st :
  supersededReferences (send_pending_reply key isDelivery sent st).1 = supersededReferences st.
Proof. unfold send_pending_reply; repeat (case_match; cbn; try done). Qed.

Lemma stop_references order event st :
  supersededReferences (closeControlledPendingRequests order event st) = supersededReferences st.
Proof. apply marks_keep_references; intros st' key; unfold close_request; repeat (case_match; cbn; try done). Qed.

Lemma admitted_quiet order event st st' :
  admitted order event st st' -> fresh st' = fresh st -> st' = st.
Proof.
  intros [|event' previous_ _ _ _ _ _]; [done|].
  destruct (registered_lookup event' previous_ st) as (_ & _ & _ & _ & _ & _ & ->); lia.
Qed.

Lemma quiet_step histories ru ru' :
  store_sound (store ru) -> run_step histories ru ru' -> fresh (store ru') = fresh (store ru) ->
  registers_nothing (store ru) (store ru').
Proof.
  intros Hs Hstep; destruct Hstep as
    [order event st' Hh Had|order event st' res Hh Hc Hb|p Hl|p r st' b Hr Hrun Hf|key isDelivery sent
    |order replied event|order event]; cbn [store observe_admission set_store]; intros Hfresh.
  - destruct (admit_event_Ok order event _ Hs) as (st1 & Hst1 & Had1); rewrite Had in Hst1.
    injection Hst1 as <-; by rewrite (admitted_quiet _ _ _ _ Had1 Hfresh).
  - destruct (begin_Ok order event _ Hs Hc) as (st1 & res1 & Hst1 & Hbeg); rewrite Hb in Hst1.
    injection Hst1 as <- <-; destruct Hbeg as [?|st1 p r reason _ Had _ _ _|st1 p r _ Had _ Hr _ _]; [done|..].
    + by rewrite (admitted_quiet _ _ _ _ Had Hfresh).
    + apply admitted_quiet in Had as ->; [|done]; by eapply put_same_registers_nothing.
  - done.
  - rewrite (finish_Ok p r) in Hf by done; injection Hf as <- _; by eapply put_registers_nothing.
  - apply marks_register_nothing; [apply send_marks|apply send_references].
  - apply marks_register_nothing; [apply refresh_marks|apply refresh_references].
  - apply marks_register_nothing; [apply closeControlled_marks|apply stop_references].
Qed.

(** What [enqueueInboundEvent] does, by whether the message is new. *)
Lemma enqueue_cases now refreshed replied order event st pending st' pending' res :
  store_sound pending -> enqueueInboundEvent now refreshed replied order event st pending = Ok (st', pending', res) ->
  let refreshed_ := refreshPendingRequestDelivery refreshed replied event pending in
  exists event' previous_, prepare order event refreshed_ = Ok (event', previous_) /\
  (Duplicate res = true /\ st' = st /\ pending' = refreshed_ \/
   Duplicate res = false /\ Reason res = "queued" /\ TryEnqueueConnectorEvent now event' st = Ok (st', (false, no_result)) /\
   register event' previous_ refreshed_ = Ok pending').
Proof.
  intros Hs; unfold enqueueInboundEvent; set (pending1 := refreshPendingRequestDelivery _ _ _ _).
  destruct (prepare order event pending1) as [[event' previous_]|e] eqn:Hp; [|done]; cbn zeta.
  exists event', previous_; split; [done|].
  unfold TryEnqueueConnectorEvent in *; set (row := new_row _ _ _ _ _) in *.
  destruct (insert_event _ row st) as [[st1|]|e] eqn:Hi; cbn in *; [|destruct (GetConnectorResultByRawEventID event' st) eqn:Hg; cbn in *|];
    try done.
  - right; destruct (register event' previous_ pending1) as [st2|] eqn:Hr; [|done].
    injection H0 as <- <- <-; by split_and!.
  - left; injection H0 as <- <- <-; by split_and!.
Qed.


(** *** A message that is accepted *)

Lemma accepted_document now event st st1 :
  queue_sound st -> MessageID event <> "" -> TryEnqueueConnectorEvent now event st = Ok (st1, (false, no_result)) ->
  queue_evolves st st1 /\ events st !! DedupeKey event = None /\
  exists row, events st1 !! DedupeKey event = Some row /\ Document row = marshalConnectorEvent event.
Proof.
  intros Hs Hm He; pose proof (TryEnqueue_evolves now event st Hs Hm) as Hev; rewrite He in Hev; cbn in Hev.
  apply TryEnqueue_new in He as (new & -> & Hid & Hfree & ->); split_and!; [done..|].
  destruct (accepted_row_evolves now event st Hs Hm Hid Hfree) as [Hs0 _ _].
  destruct (suppressSuperseded_evolves now (PreviousMessages event) _ Hs0) as [_ Hk _].
  destruct (Hk (DedupeKey event) _ (lookup_insert_eq _ _ _)) as (row & Hrow & _ & Hd & _); by exists row.
Qed.

Lemma accepted_supersedes now event st st1 m :
  TryEnqueueConnectorEvent now event st = Ok (st1, (false, no_result)) -> m ∈ PreviousMessages event ->
  TrimSpace (SourceReference m) = SourceReference m -> SourceReference m <> "" ->
  is_Some (events st !! SourceReference m) ->
  exists row, events st1 !! SourceReference m = Some row /\ superseded row = true.
Proof.
  intros He Hm Ht Hne [old Hold]; apply TryEnqueue_new in He as (new & _ & Hid & _ & ->).
  exists (superseded_row now old); split.
  - apply suppressSuperseded_lookup; [|cbn; rewrite lookup_insert_ne; [done|congruence]].
    unfold source_references; apply list_elem_of_filter; split; [done|]; apply list_elem_of_fmap; by exists m.
  - destruct old; unfold superseded; cbn; by rewrite bool_decide_true.
Qed.

(** The messages of a request are those of requests. *)
Lemma carried_requests ru p r m :
  run_sound false ru -> heap (store ru) !! p = Some r -> m ∈ carried_messages (request_event r) ->
  exists q r0, heap (store ru) !! q = Some r0 /\ SourceReference m = request_key r0.
Proof.
  intros Hs Hp; unfold carried_messages; rewrite (run_messages _ _ Hs eq_refl p r Hp), elem_of_app.
  intros [(q & Hq & Hm)%list_elem_of_omap|Hm].
  - apply fmap_Some in Hm as (r0 & Hr0 & ->); by exists q, r0.
  - apply list_elem_of_singleton in Hm as ->; by exists p, r.
Qed.

Section arrival.
Variables (w : World) (now : instant) (order : list string) (event event' : PlatformInboundEvent).
Variables (previous_ : option ptr) (st' : QueueStore).
Hypothesis Hagrees : world_agrees w.
Hypothesis Hmessage : MessageID event <> "".
Hypothesis Hhistory : PreviousMessages event = [].
Hypothesis Htrimmed : TrimSpace (DedupeKey event) = DedupeKey event.
Hypothesis Hprepare : prepare order event (store (running w)) = Ok (event', previous_).
Hypothesis Haccepted : TryEnqueueConnectorEvent now event' (tables w) = Ok (st', (false, no_result)).

Let pending := store (running w).

(** The key of a new message is not in the map, so [prepare] only adds a history. *)
Lemma prepared_event :
  DedupeKey event' = DedupeKey event /\ MessageID event' = MessageID event /\
  match previous_ with
  | None => event' = event
  | Some q => exists r, heap pending !! q = Some r /\
      event' = set_PreviousMessages (carried_messages (request_event r)) event
  end.
Proof.
  pose proof (run_store _ _ (agrees_running _ Hagrees)) as Hst.
  destruct (prepare_cases order event pending Hst) as (e0 & p0 & Hp0 & Hk & Hcase).
  unfold pending in Hp0; rewrite Hprepare in Hp0; injection Hp0 as <- <-; split; [done|].
  destruct previous_ as [q|].
  - destruct Hcase as (_ & _ & _ & _ & r & Hr & _ & He); rewrite Hhistory, bool_decide_true in He by done.
    split; [subst event'; by destruct event|]; by exists r.
  - destruct Hcase as [[_ He]|[(p & r & Hkey & Hr & He)|[_ He]]]; [by subst| |by subst]; exfalso.
    apply TryEnqueue_new in Haccepted as (new & _ & Hnone & _).
    destruct (agrees_requests _ Hagrees p r Hr) as (_ & _ & row & Hrow & _).
    subst event'; unfold request_key in Hrow; congruence.
Qed.

Lemma arrival_superseded key :
  key ∈ (list_to_set (SourceReference <$> PreviousMessages event') : gset string) ->
  exists row, events st' !! key = Some row /\ superseded row = true.
Proof.
  intros (m & -> & Hm)%elem_of_list_to_set%list_elem_of_fmap; destruct prepared_event as (_ & _ & He).
  destruct previous_ as [q|]; [|rewrite He, Hhistory in Hm; by apply elem_of_nil in Hm].
  destruct He as (r & Hr & He); assert (Hin : m ∈ carried_messages (request_event r)).
  { rewrite He in Hm; by destruct event. }
  destruct (carried_requests _ _ _ _ (agrees_running _ Hagrees) Hr Hin) as (q0 & r0 & Hr0 & Hk).
  destruct (agrees_requests _ Hagrees q0 r0 Hr0) as (Ht & _ & row & Hrow & _).
  eapply accepted_supersedes; [exact Haccepted|done|congruence| |rewrite Hk; by eexists].
  rewrite Hk; apply DedupeKey_nonempty.
Qed.

Lemma arrival_evolves : queue_evolves (tables w) st' /\ exists row, events st' !! DedupeKey event = Some row /\
  Document row = marshalConnectorEvent event'.
Proof.
  destruct prepared_event as (Hk & Hm & _).
  destruct (accepted_document now event' (tables w) st') as (Hev & _ & Hrow);
    [apply Hagrees|by rewrite Hm|done|by rewrite <- Hk].
Qed.

Lemma arrival_agrees pending' :
  register event' previous_ pending = Ok pending' ->
  world_agrees (MkWorld st' (observe_admission order event pending' (running w))).
Proof.
  intros Hreg; pose proof (run_store _ _ (agrees_running _ Hagrees)) as Hst.
  destruct (admit_event_Ok order event pending Hst) as (st1 & Hst1 & Had).
  assert (st1 = pending') as ->.
  { unfold admit_event, pending in Hst1; rewrite Hprepare in Hst1; cbn in Hst1; unfold pending in Hreg; congruence. }
  pose proof (admission_sound false (running w) order event pending' ltac:(right; by left) (agrees_running _ Hagrees) Had) as Hrun.
  destruct arrival_evolves as (Hev & row & Hrow & Hdoc), prepared_event as (Hk & Hm & _).
  destruct Had as [_|event2 previous2 _ _ Hp2 _ Hrep].
  { unfold observe_admission in *; rewrite bool_decide_true in * by done.
    apply agrees_quiet with w; [done|done|done| |done]; intros p r Hr; by exists r. }
  unfold pending in Hp2; rewrite Hprepare in Hp2; injection Hp2 as <- <-.
  pose proof (registered_evolves event' previous_ pending Hst Hrep) as Hreg_ev.
  split; cbn [tables running]; [apply Hev|done|..]; cbn [store observe_admission].
  - intros p r Hr; destruct (registered_only _ _ _ _ _ Hr) as [->|[r0 Hr0]].
    + destruct (registered_lookup event' previous_ pending) as (r1 & Hr1 & He & _); rewrite Hr in Hr1; injection Hr1 as <-.
      unfold request_key; rewrite He, Hk, Hm; split_and!; [done..|]; by exists row.
    + destruct (store_evolves_request _ _ Hreg_ev _ _ Hr0) as (r1 & Hr1 & He & _); rewrite Hr in Hr1; injection Hr1 as <-.
      unfold request_key; rewrite He; destruct (agrees_requests _ Hagrees p r0 Hr0) as (? & ? & row0 & Hrow0 & Hd0).
      split_and!; [done..|]; destruct (evolves_event _ _ Hev _ _ Hrow0) as (row1 & ? & _ & Hd1 & _).
      exists row1; split; [done|congruence].
  - intros key Hkey; assert (Hcase : key ∈ supersededReferences pending \/
      key ∈ (list_to_set (SourceReference <$> PreviousMessages event') : gset string)).
    { unfold registered in Hkey; destruct (previous_ ≫= _) as [[]|]; cbn in Hkey; by apply elem_of_union in Hkey. }
    destruct Hcase as [Hold|Hnew]; [|by apply arrival_superseded].
    destruct (agrees_superseded _ Hagrees key Hold) as (row0 & Hrow0 & Hs0).
    destruct (evolves_event _ _ Hev _ _ Hrow0) as (row1 & ? & _ & _ & _ & Hk1); exists row1; auto.
Qed.

End arrival.

(** *** A message of the table whose turn begins *)

Lemma claimed_agrees w order event row st1 :
  world_agrees w -> events (tables w) !! DedupeKey event = Some row -> Document row = marshalConnectorEvent event ->
  PreviousMessages event = [] -> TrimSpace (DedupeKey event) = DedupeKey event -> MessageID event <> "" ->
  prepare order event (store (running w)) = Ok (event, None) -> admitted order event (store (running w)) st1 ->
  world_agrees (MkWorld (tables w) (observe_admission order event st1 (running w))).
Proof.
  intros Hw Hrow Hdoc Hh Ht Hm Hp Had.
  pose proof (admission_sound false (running w) order event st1 ltac:(right; by left) (agrees_running _ Hw) Had) as Hrun.
  destruct Had as [_|event2 previous2 _ _ Hp2 _ _].
  { unfold observe_admission in *; rewrite bool_decide_true in * by done.
    apply agrees_quiet with w; [done|apply queue_evolves_refl, Hw|done| |done]; intros p r Hr; by exists r. }
  rewrite Hp in Hp2; injection Hp2 as <- <-; split; cbn [tables running]; [apply Hw|done|..]; cbn [store observe_admission registered mbind option_bind].
  - intros p r; cbn [insert_request heap]; rewrite lookup_insert_Some; intros [[_ <-]|[_ Hr]]; [|by apply (agrees_requests _ Hw p)].
    unfold request_key; cbn; split_and!; [done..|]; by exists row.
  - intros key; cbn [insert_request supersededReferences]; rewrite Hh; cbn [fmap list_fmap list_to_set]; rewrite union_empty_r_L; apply (agrees_superseded _ Hw).
Qed.

Lemma begin_agrees w order event row st' res :
  world_agrees w -> events (tables w) !! DedupeKey event = Some row -> Document row = marshalConnectorEvent event ->
  PreviousMessages event = [] -> TrimSpace (DedupeKey event) = DedupeKey event -> MessageID event <> "" -> is_control event = false ->
  prepare order event (store (running w)) = Ok (event, None) -> begin order event (store (running w)) = Ok (st', res) ->
  world_agrees (MkWorld (tables w) (observe_admission order event st' (running w))).
Proof.
  intros Hw Hrow Hdoc Hh Ht Hm Hc Hp Hb; pose proof (run_store _ _ (agrees_running _ Hw)) as Hst.
  destruct (begin_Ok order event _ Hst Hc) as (st1 & res1 & Hst1 & Hbeg); rewrite Hb in Hst1; injection Hst1 as <- <-.
  pose proof (begin_sound false (running w) order event st' res ltac:(right; by left) (agrees_running _ Hw) Hbeg) as Hrun.
  destruct Hbeg as [_|st1 p r reason _ Had _ _ _|st1 p r _ Had _ Hr _ _].
  - unfold observe_admission in *; rewrite bool_decide_true in * by done.
    apply agrees_quiet with w; [done|apply queue_evolves_refl, Hw|done| |done]; intros p r Hr; by exists r.
  - by eapply claimed_agrees.
  - pose proof (claimed_agrees w order event row st1 Hw Hrow Hdoc Hh Ht Hm Hp Had) as Hw1.
    apply (agrees_quiet _ (tables w) (observe_admission order event (put p (start_request r) st1) (running w))) in Hw1;
      [exact Hw1|apply queue_evolves_refl, Hw|exact Hrun| |done].
    intros q r'; cbn [running store observe_admission put set_heap heap]; rewrite lookup_insert_Some; intros [[<- <-]|[_ Hq]]; [|by exists r'].
    exists r; split; [done|]; unfold start_request; by destruct r as [? ? ? ? ? ? []].
Qed.

Lemma world_step_agrees w w' : world_agrees w -> world_step w w' -> world_agrees w'.
Proof.
  intros Hw [now refreshed replied order event st' pending' res Hmal Hpm Htrim Henq pending|op Hop|ru Hstep Hfresh
    |order event row st' res Hrow Hdoc Hh Ht Hm Hc Hp Hb]; [..|by eapply begin_agrees].
  - pose proof (run_store _ _ (agrees_running _ Hw)) as Hst.
    assert (Hquiet : world_agrees (MkWorld (tables w) (set_store pending (running w)))).
    { apply agrees_quiet with w; [done|apply queue_evolves_refl, Hw|..].
      - apply marks_sound; [apply Hw|by apply refresh_evolves|apply refresh_marks].
      - apply evolves_same_heap; [by apply refresh_evolves|]; intros p r' Hr'.
        by destruct (refresh_marks refreshed replied event _ p r' Hr') as (r & ? & _); exists r.
      - apply refresh_references. }
    destruct (enqueue_cases _ _ _ _ _ _ _ _ _ _ Hst Henq) as (event' & previous_ & Hp & [(_ & -> & ->)|(_ & _ & Hacc & Hreg)]).
    + unfold observe_admission; cbn [store set_store]; by rewrite bool_decide_true.
    + apply (arrival_agrees (MkWorld (tables w) (set_store pending (running w))) now order event event' previous_);
        try done; by apply well_formed_MessageID.
  - apply agrees_quiet with w; [done|by apply apply_queue_evolves, Hw|apply Hw|by intros p r Hr; exists r|done].
  - pose proof (run_store _ _ (agrees_running _ Hw)) as Hst.
    destruct (quiet_step _ _ _ Hst Hstep Hfresh) as [Hrefs Hdom].
    apply agrees_quiet with w; [done|apply queue_evolves_refl, Hw|by eapply run_step_sound; [apply Hw|]|..|done].
    apply evolves_same_heap; [by eapply run_step_evolves|]; intros p r' Hr'; apply Hdom; by exists r'.
Qed.

Lemma empty_world_agrees : world_agrees empty_world.
Proof.
  split; [apply empty_queue_sound|apply new_run_sound|cbn; intros p r; by rewrite lookup_empty|].
  cbn; intros key Hkey; by apply elem_of_empty in Hkey.
Qed.

(** C3. Memory and the table agree, through any arrivals, statements of workers, turns,
    replies and stops: the table holds every request as memory has it, so that a restart
    reads the same event; and a message that memory has as superseded is settled as such
    in the table, so that a restart never takes it up.  A turn begins of a request that memory
    has, or of a message of the table that memory has dropped and that revises nothing; where a
    dropped message is claimed again and does revise a waiting one, they do not agree (a finding). *)
Theorem memory_and_table_agree w :
  rtc world_step empty_world w ->
  (forall p r, heap (store (running w)) !! p = Some r -> exists row, events (tables w) !! request_key r = Some row /\
     unmarshalConnectorEvent (Document row) = request_event r) /\
  (forall p r, heap (store (running w)) !! p = Some r -> isSuperseded r = true ->
     exists row, events (tables w) !! request_key r = Some row /\ superseded row = true /\ Status row = StatusSucceeded /\
       forall now locked limit lease q, q ∈ (ClaimPendingConnectorEvents now locked limit lease (tables w)).2 ->
         queued_key q <> request_key r).
Proof.
  intros Hr; assert (Hw : world_agrees w).
  { pose proof empty_world_agrees as H0; induction Hr as [|x y z Hs _ IH]; [done|]; by eapply IH, world_step_agrees. }
  split; intros p r Hp.
  - destruct (agrees_requests _ Hw p r Hp) as (_ & Hm & row & Hrow & Hd); exists row; split; [done|].
    rewrite Hd; by apply marshal_roundtrip.
  - intros Hs; pose proof (run_references _ _ (agrees_running _ Hw) eq_refl p r Hp Hs) as Hin.
    destruct (agrees_superseded _ Hw _ Hin) as (row & Hrow & Hsup); exists row.
    destruct (sound_events _ (agrees_tables _ Hw) _ _ Hrow) as (_ & _ & _ & Hok & _).
    split_and!; [done|done|by apply Hok|]; intros now locked limit lease q Hq.
    exact (superseded_not_claimed _ _ row _ _ _ _ _ (agrees_tables _ Hw) Hrow Hsup Hq).
Qed.

End worlds.

(** ** How a claimed message is settled *)

Inductive Settlement :=
| SettledWith (res : ConnectorRuntimeResult)
| SettledAsFailed (message : string)
| ReleasedForLater
| LeftRunning.

Definition turn_settlement (outcome : option (result string ConnectorRuntimeResult)) : Settlement :=
  match outcome with
  | None => LeftRunning
  | Some (Err message) => SettledAsFailed message
  | Some (Ok res) => if shouldDeferQueuedConnectorEvent res then LeftRunning else SettledWith res
  end.

Section settlement.
Context `{UnicodeTables}.

Definition settlement_of (around : Surroundings) (pending : pendingRequestStore) (event : PlatformInboundEvent)
  : Settlement :=
  if negb (has_adapter around) then SettledAsFailed (no_adapter_error (Event_Platform event)) else
  match thread_answer around with
  | Err message => SettledAsFailed message
  | Ok (Some res) => SettledWith res
  | Ok None =>
    if passes_the_lock (bool_decide (DedupeKey event ∈ supersededReferences pending)) around event ||
       conversation_is_free around
    then turn_settlement (turn_outcome around) else ReleasedForLater
  end.

(** What the row of a message shows of its settlement. *)
Definition shows (t : instant) (s : Settlement) (old row : RawEvent) : Prop :=
  match s with
  | SettledWith res => Status row = StatusSucceeded /\ Row_Result row = res /\ Row_Error row = "" /\
      AttemptCount row = AttemptCount old + 1
  | SettledAsFailed message => Row_Error row = message /\ Row_Result row = Row_Result old /\
      AttemptCount row = AttemptCount old + 1 /\
      if connectorMaximumAttemptCount <=? AttemptCount row then Status row = StatusFailed
      else Status row = StatusPending /\ Row_NextAttemptAt row = t + 2 ^ AttemptCount row * Second
  | ReleasedForLater => Status row = StatusPending /\ Row_NextAttemptAt row = t + Second /\
      AttemptCount row = AttemptCount old /\ Row_Result row = Row_Result old
  | LeftRunning => Status row = StatusRunning /\ AttemptCount row = AttemptCount old + 1 /\
      Row_Result row = Row_Result old
  end.

(** The statements of a settlement on the claimed row. *)
Lemma update_event_lookup (c : string -> RawEvent -> bool) f id row st :
  events st !! id = Some row -> c id row = true ->
  events (set_events (update_rows c f) st) !! id = Some (f row).
Proof. intros Hrow Hc; cbn; by rewrite lookup_update_rows, Hrow; cbn; rewrite Hc. Qed.

Definition changes_only (key : string) (st st' : QueueStore) : Prop :=
  (forall id, id <> key -> events st' !! id = events st !! id) /\ replies st' = replies st.

Lemma update_changes_only key (c : RawEvent -> bool) f st :
  changes_only key st (set_events (update_rows (fun id row => bool_decide (id = key) && c row) f) st).
Proof.
  split; [|done]; intros id Hne; cbn; rewrite lookup_update_rows, bool_decide_false by done.
  by destruct (events st !! id).
Qed.

Lemma failed_changes_only t q message st :
  changes_only (queued_key q) st (markQueuedConnectorEventFailed t q message st).
Proof. apply (update_changes_only (queued_key q) (fun row => negb (superseded row))). Qed.

Lemma succeeded_changes_only t q res st :
  changes_only (queued_key q) st (MarkConnectorEventSucceeded t (QueuedEvent q) res st).
Proof. apply (update_changes_only (queued_key q) (fun row => negb (superseded row))). Qed.

Lemma released_changes_only q next st :
  changes_only (queued_key q) st (ReleaseConnectorEventClaim q next st).
Proof. apply (update_changes_only (queued_key q) (fun row => bool_decide (Status row = StatusRunning))). Qed.

Section row.
Variables (t claimed_at_ : instant) (q : QueuedConnectorEvent) (old : RawEvent) (st : QueueStore).
Hypothesis Htime : 0 < t.
Hypothesis Hcount : 0 <= AttemptCount old.
Hypothesis Hopen : superseded old = false.
Hypothesis Hattempts : Event_AttemptCount q = AttemptCount old + 1.
Hypothesis Hrow : events st !! queued_key q = Some (claimed_event claimed_at_ old).

Lemma not_superseded_claimed : superseded (claimed_event claimed_at_ old) = false.
Proof. by destruct old. Qed.

Lemma marked_failed message : exists row,
  events (markQueuedConnectorEventFailed t q message st) !! queued_key q = Some row /\
  shows t (SettledAsFailed message) old row.
Proof.
  unfold markQueuedConnectorEventFailed, MarkConnectorEventFailed; rewrite Hattempts; eexists; split.
  { apply update_event_lookup; [exact Hrow|]; by rewrite bool_decide_true, not_superseded_claimed. }
  destruct (nextConnectorAttemptAt_spec t (AttemptCount old + 1)) as [(Hlt & Hz & Hnext & _)|(Hge & Hz)]; [lia|done|..];
    rewrite Hz; clear Hrow; destruct old; cbn in *; split_and!; try done; unfold connectorMaximumAttemptCount in *;
    by rewrite ?(proj2 (Z.leb_gt _ _)), ?(proj2 (Z.leb_le _ _)) by lia.
Qed.

Lemma marked_succeeded res : exists row,
  events (MarkConnectorEventSucceeded t (QueuedEvent q) res st) !! queued_key q = Some row /\
  shows t (SettledWith res) old row.
Proof.
  eexists; split.
  { apply update_event_lookup; [exact Hrow|]; by rewrite bool_decide_true, not_superseded_claimed. }
  clear Hrow; by destruct old.
Qed.

Lemma released_claim : exists row,
  events (ReleaseConnectorEventClaim q (Add t connectorWorkerIdleDelay) st) !! queued_key q = Some row /\
  shows t ReleasedForLater old row.
Proof.
  eexists; split.
  { apply update_event_lookup; [exact Hrow|]; rewrite bool_decide_true by done; by destruct old. }
  clear Hrow; destruct old; cbn in *; split_and!; done || lia.
Qed.

Lemma left_running : exists row, events st !! queued_key q = Some row /\ shows t LeftRunning old row.
Proof. eexists; split; [exact Hrow|]; clear Hrow; by destruct old. Qed.

End row.

#[local] Ltac settlements :=
  destruct (has_adapter _); cbn [negb]; [destruct (thread_answer _) as [[res|]|message]|];
  try (destruct (passes_the_lock _ _ _ || conversation_is_free _);
       [destruct (turn_outcome _) as [[res|message]|]; [destruct (shouldDeferQueuedConnectorEvent res)|..]|]).

(** A claimed message is settled by what its turn came to, whatever that is: answered
    with the turn's result, failed and due again after twice the last wait, or given up at
    the fifth attempt; a message that waits for another turn of its conversation is due
    again in a second and loses no attempt; one whose turn is deferred or cut off stays
    claimed until its lease ends.  No other message changes. *)
Theorem claimed_messages_are_settled now locked limit st t around pending q :
  queue_sound st -> 0 < t ->
  let claim := ClaimPendingConnectorEvents now locked limit connectorClaimLeaseDuration st in
  q ∈ claim.2 ->
  let st' := processQueuedConnectorEvent t around pending q claim.1 in
  (exists old row, events st !! queued_key q = Some old /\ events st' !! queued_key q = Some row /\
    shows t (settlement_of around pending (QueuedEvent q)) old row) /\
  changes_only (queued_key q) claim.1 st' /\ replies st' = replies st.
Proof.
  intros Hs Ht claim Hq st'; destruct (claim_queued_row _ _ _ _ _ _ Hs Hq) as (old & Hold & Hcl & Hrow & Heq).
  fold claim in Hrow; pose proof (open_not_superseded _ _ _ Hs Hold (event_claimable_open _ _ _ _ _ Hcl)) as Hopen.
  destruct (sound_events _ Hs _ _ Hold) as (_ & Hcount & _).
  assert (Hatt : Event_AttemptCount q = AttemptCount old + 1) by (rewrite Heq; by destruct old).
  assert (Hrep : replies claim.1 = replies st)
    by (unfold claim; destruct (claim_spec now locked limit connectorClaimLeaseDuration st) as [[-> _]|(? & ? & _ & ->)]; done).
  assert (Honly : changes_only (queued_key q) claim.1 st').
  { unfold st', processQueuedConnectorEvent, settle_queued_event; settlements;
      lazymatch goal with
      | |- changes_only _ _ (markQueuedConnectorEventFailed _ _ _ _) => apply failed_changes_only
      | |- changes_only _ _ (MarkConnectorEventSucceeded _ _ _ _) => apply succeeded_changes_only
      | |- changes_only _ _ (ReleaseConnectorEventClaim _ _ _) => apply released_changes_only
      | |- _ => by split
      end. }
  split_and!; [|exact Honly|destruct Honly as [_ Hr]; congruence].
  exists old; assert (Hgoal : exists row, events st' !! queued_key q = Some row /\
    shows t (settlement_of around pending (QueuedEvent q)) old row); [|destruct Hgoal as (row & ? & ?); by exists row].
  unfold st', processQueuedConnectorEvent, settlement_of, settle_queued_event, turn_settlement.
  settlements; lazymatch goal with
    | |- context [SettledAsFailed _] => by eapply marked_failed
    | |- context [SettledWith _] => by eapply marked_succeeded
    | |- context [ReleasedForLater] => by eapply released_claim
    | |- _ => by eapply left_running
    end.
Qed.

End settlement.

(** ** Concrete inputs *)

Section samples.
#[local] Existing Instance ascii_tables.

Definition five_rounds : list Round :=
  (fun k => MkRound (k * Minute) ∅ 4 (k * Minute + Second) "no model") <$> [1; 2; 3; 4; 5].

Definition sample_row : RawEvent :=
  new_row 10 first_message "m1" (marshalConnectorEvent first_message) StatusPending.

Lemma sample_queue_row : events sample_queue !! "slack:C1:m1" = Some sample_row.
Proof. vm_compute; reflexivity. Qed.

Definition sample_given_up : QueueStore := default sample_queue (fail_rounds "slack:C1:m1" five_rounds sample_queue).

Lemma failing_messages_are_given_up_witness :
  fail_rounds "slack:C1:m1" five_rounds sample_queue = Some sample_given_up /\
  exists row', events sample_given_up !! "slack:C1:m1" = Some row' /\ AttemptCount row' = 5 /\ Status row' = StatusFailed.
Proof.
  assert (Hr : fail_rounds "slack:C1:m1" five_rounds sample_queue = Some sample_given_up) by (vm_compute; reflexivity).
  assert (Hpos : Forall (fun r => 0 < failed_at r) five_rounds) by (repeat constructor).
  split; [exact Hr|].
  destruct (failing_messages_are_given_up sample_queue "slack:C1:m1" sample_row five_rounds sample_given_up
    sample_queue_sound sample_queue_row eq_refl eq_refl eq_refl Hpos Hr) as (_ & row' & Hrow' & Ha & _ & Hf & _).
  exists row'; split; [exact Hrow'|]; split; [exact Ha|]; apply Hf; reflexivity.
Defined.

(** A message waits for another turn of its conversation: its claim is released. *)
Definition busy_conversation : Surroundings := MkSurroundings true (Ok None) false false None.

Lemma claimed_messages_are_settled_witness :
  let claim := ClaimPendingConnectorEvents 20 ∅ 4 connectorClaimLeaseDuration sample_queue in
  exists q, q ∈ claim.2 /\
    let st' := processQueuedConnectorEvent 30 busy_conversation newPendingRequestStore q claim.1 in
    exists old row, events sample_queue !! queued_key q = Some old /\ events st' !! queued_key q = Some row /\
      Status row = StatusPending /\ AttemptCount row = AttemptCount old.
Proof.
  intros claim; assert (Hq : claim.2 = [MkQueuedEvent first_message 1]) by (vm_compute; reflexivity).
  exists (MkQueuedEvent first_message 1).
  assert (Hin : MkQueuedEvent first_message 1 ∈ claim.2) by (rewrite Hq; left); split; [exact Hin|].
  destruct (claimed_messages_are_settled 20 ∅ 4 sample_queue 30 busy_conversation newPendingRequestStore
    (MkQueuedEvent first_message 1) sample_queue_sound eq_refl Hin) as ((old & row & Ho & Hr & Hs) & _ & _).
  exists old, row; split; [exact Ho|split; [exact Hr|]].
  change (Status row = StatusPending /\ Row_NextAttemptAt row = 30 + Second /\ AttemptCount row = AttemptCount old /\
    Row_Result row = Row_Result old) in Hs.
  destruct Hs as (Hst & _ & Ha & _); split; [exact Hst|exact Ha].
Defined.

Definition arrive (now : instant) (order : list string) (event : PlatformInboundEvent) (w : World) : World :=
  match enqueueInboundEvent now [] ∅ order event (tables w) (store (running w)) with
  | Ok (st', pending', _) => MkWorld st' (observe_admission order event pending' (running w))
  | Err _ => w
  end.

Definition arrived_twice : World :=
  arrive 20 ["slack:C1:m1"] second_message (arrive 10 [] first_message empty_world).

Lemma arrive_step now order event w :
  malformedEventReason event = "" -> PreviousMessages event = [] -> TrimSpace (DedupeKey event) = DedupeKey event ->
  is_ok (enqueueInboundEvent now [] ∅ order event (tables w) (store (running w))) = true ->
  world_step w (arrive now order event w).
Proof.
  intros Hm Hp Ht Hok; unfold arrive.
  destruct (enqueueInboundEvent _ _ _ _ _ _ _) as [[[st' pending'] res]|e] eqn:He; [|done].
  pose proof (world_arrival w now [] ∅ order event st' pending' res Hm Hp Ht He) as Hs; cbn zeta in Hs.
  by destruct w as [tb [st lin lau]].
Qed.

Lemma arrived_twice_reached : rtc world_step empty_world arrived_twice.
Proof.
  apply (rtc_l _ _ (arrive 10 [] first_message empty_world)).
  { apply (arrive_step 10 [] first_message empty_world); vm_compute; reflexivity. }
  apply rtc_once, (arrive_step 20 ["slack:C1:m1"] second_message); vm_compute; reflexivity.
Qed.

Lemma memory_and_table_agree_witness :
  exists r row, heap (store (running arrived_twice)) !! 0%nat = Some r /\ isSuperseded r = true /\
    events (tables arrived_twice) !! request_key r = Some row /\ Status row = StatusSucceeded.
Proof.
  assert (Hm : isSuperseded <$> heap (store (running arrived_twice)) !! 0%nat = Some true) by (vm_compute; reflexivity).
  destruct (heap (store (running arrived_twice)) !! 0%nat) as [r|] eqn:Hr; [|discriminate Hm].
  destruct (memory_and_table_agree arrived_twice arrived_twice_reached) as [_ Hs].
  destruct (Hs 0%nat r Hr (Some_inj _ _ Hm)) as (row & Hrow & _ & Hst & _).
  exists r, row; split; [reflexivity|split; [exact (Some_inj _ _ Hm)|split; [exact Hrow|exact Hst]]].
Defined.

(** ** Departures *)

(** The first message is answered and its request leaves the map before its result is saved; a second
    message arrives and waits. *)
Definition answered_request : result Panic pendingRequestStore :=
  '(st, _) ← begin [] first_message (store (running (arrive 10 [] first_message empty_world)));
  let '(st, _) := send_pending_reply "slack:C1:m1" true (Ok "d1") st in
  '(st, _) ← finish 0%nat st; Ok st.

Definition second_waits : World :=
  let w := arrive 10 [] first_message empty_world in
  arrive 20 [] second_message (MkWorld (tables w) (set_store (match answered_request with Ok st => st | Err _ => newPendingRequestStore end) (running w))).

(** When the first message is claimed again, its turn takes the second message up as one it revises: the second is
    superseded in memory, where its turn is refused, and not in the table. *)
Lemma begun_turns_supersede_in_memory_only :
  match begin ["slack:C1:m2"] first_message (store (running second_waits)) with
  | Ok (st, (Some _, reason)) => reason = pendingRequestStarted /\ "slack:C1:m2" ∈ supersededReferences st /\
      is_ok (begin [] second_message st) = true /\ snd <$> (match begin [] second_message st with Ok (_, res) => Some res | Err _ => None end) = Some pendingRequestSuperseded /\
      superseded <$> events (tables second_waits) !! "slack:C1:m2" = Some false
  | _ => False
  end.
Proof. vm_compute; split_and!; try reflexivity; by apply (bool_decide_unpack _). Qed.

(** A reply that fails after a newer message superseded it goes back to the outbox, and
    after a restart, when the newer message is answered, it makes the message it answers an
    open request, that nothing in memory says is superseded: it is sent. *)
Definition superseded_reply_queue : QueueStore :=
  let reply := MkReply "Here is the report" "run-1" "success" "" "" [] [] "" None in
  let target := MkReplyTarget "C1" "m1" "" "" in
  apply_queue_all [OpEnqueueReply 20 first_message target reply; OpClaimReplies 30 ∅ 1 connectorClaimLeaseDuration;
    OpEnqueueEvent 40 (set_PreviousMessages (carried_messages first_message) second_message)] sample_queue.

Lemma failed_superseded_reply_is_sent_after_a_restart :
  let replies_ st := (fun '(_, row) => Reply_Status row) <$> map_to_list (replies st) in
  let claimed := (ClaimPendingConnectorReplies 30 ∅ 1 connectorClaimLeaseDuration
    (apply_queue (OpEnqueueReply 20 first_message (MkReplyTarget "C1" "m1" "" "")
      (MkReply "Here is the report" "run-1" "success" "" "" [] [] "" None)) sample_queue)).2 in
  replies_ superseded_reply_queue = [StatusSuppressed] /\
  match claimed with
  | [queued] =>
    let failed := MarkConnectorReplyFailed 50 queued "offline" (nextConnectorAttemptAt 50 (Reply_AttemptCount queued))
      superseded_reply_queue in
    let answered := MarkConnectorEventSucceeded 60 second_message no_result failed in
    let again := ClaimPendingConnectorReplies (10 * Second) ∅ 1 connectorClaimLeaseDuration answered in
    replies_ failed = [StatusPending] /\
    match again.2, restorePendingRequests [[]] (ListUnansweredConnectorEvents answered) newPendingRequestStore with
    | [q], Ok restored =>
      replies_ (processQueuedConnectorReply (11 * Second)
        (bool_decide (Queued_RawEventID q ∈ supersededReferences restored)) (Some (Ok "sent")) false q again.1
        restored).1 = [StatusSucceeded]
    | _, _ => False
    end
  | _ => False
  end.
Proof. vm_compute; split_and!; reflexivity. Qed.

End samples.
