(* ===== verification/MemoryLayers.v ===== *)
(** * The layers of memory ([memory/stores.go], [memory/heard_layers.go],
    [memory/read_command.go], [connectors/heard_memory.go], [memory/carry_markdown.go]).

    A subject - a person, a circle, the company - has one memory file, in the
    directory the POSIX state protects for it.  Modelled are the files a reader's
    recall goes through, the layers a conversation may keep what it heard in, and
    the recall itself, around what the memory library (the [bluememo] module)
    answers, which is an argument, as are the order a map is visited in and what
    the file system says of a path. *)

From S2P Require Export Identity PosixIdentity.

(** ** Scopes *)

Record Scope := MkScope { Scope_Kind : string; Scope_ID : string }.

#[export] Instance Scope_eq_dec : EqDecision Scope.
Proof. solve_decision. Defined.

#[export] Instance Scope_countable : Countable Scope.
Proof.
  refine (inj_countable' (fun s => (Scope_Kind s, Scope_ID s)) (fun p => MkScope p.1 p.2) _); by intros [].
Defined.

Definition ScopePerson : string := "person".
Definition ScopeCircle : string := "circle".
Definition ScopeWorkspace : string := "workspace".

Definition PersonScope (personID : string) : Scope := MkScope ScopePerson personID.
Definition CircleScope (circleID : string) : Scope := MkScope ScopeCircle circleID.
Definition WorkspaceScope : Scope := MkScope ScopeWorkspace "".

(** [Scope{}] *)
Definition no_scope : Scope := MkScope "" "".

Definition memoryFileName : string := "memory.db".

Inductive MemoryError :=
| NoWorkspaceRoot
| ScopeNamesNoDirectory (scope : Scope)
| CannotKeepOpen (path : string)
| ReadRefused (message : string)
| StoresOutOfStep.

Definition protectedDirectoryUnder (workspaceRootPath : string) (scope : Scope) : string :=
  if bool_decide (Scope_Kind scope = ScopePerson) then PersonProtectedDirectoryPath workspaceRootPath (Scope_ID scope) else
  if bool_decide (Scope_Kind scope = ScopeCircle)
  then ProtectedDirectoryPath (CircleDirectoryPath workspaceRootPath (Scope_ID scope)) else
  if bool_decide (Scope_Kind scope = ScopeWorkspace) then ProtectedDirectoryPath (SharedDirectoryPath workspaceRootPath)
  else "".

Definition pathUnder (workspaceRootPath : string) (scope : Scope) : result MemoryError string :=
  if blank workspaceRootPath then Err NoWorkspaceRoot else
  let directory := protectedDirectoryUnder workspaceRootPath scope in
  if bool_decide (directory = "") then Err (ScopeNamesNoDirectory scope)
  else Ok (PathJoin [directory; memoryFileName]).

(** How many people a scope is for, by its kind. *)
Definition breadth (scope : Scope) : Z :=
  if bool_decide (Scope_Kind scope = ScopeCircle) then 1 else
  if bool_decide (Scope_Kind scope = ScopeWorkspace) then 2 else 0.

(** ** Where a reader's memory is *)

Section layers.
Context `{UnicodeTables}.

Definition reachable_circles (containedCircles : gmap string (list string)) (circleID : string) : list string :=
  circleID :: default [] (containedCircles !! circleID).

Definition search_circle (acc : gset string * list Scope) (reachable : string) : gset string * list Scope :=
  let '(seen, scopes) := acc in
  if negb (CircleHoldsADirectory reachable) || bool_decide (reachable ∈ seen) then acc
  else ({[reachable]} ∪ seen, scopes ++ [CircleScope reachable])%list.

Definition ScopesToSearch (personAccess : Access.PersonAccess) (containedCircles : gmap string (list string))
  : list Scope :=
  let scopes :=
    if negb (bool_decide (Access.PersonID personAccess = "")) then [PersonScope (Access.PersonID personAccess)] else [] in
  ((foldl search_circle (∅, scopes) (Access.Circles personAccess ≫= reachable_circles containedCircles)).2
   ++ [WorkspaceScope])%list.

(** ** The layers a conversation may keep what it heard in *)

Definition add_reader (personID : string) (readers : gmap Scope (gset string)) (scope : Scope)
  : gmap Scope (gset string) :=
  <[scope := {[personID]} ∪ default ∅ (readers !! scope)]> readers.

Definition readersByScope (everyone : list Access.PersonAccess) (containedCircles : gmap string (list string))
  : gmap Scope (gset string) :=
  foldl (fun readers personAccess =>
    foldl (add_reader (Access.PersonID personAccess)) readers (ScopesToSearch personAccess containedCircles))
    ∅ everyone.

(** The broadest first. *)
Definition layer_before (left right : Scope) : bool :=
  (breadth right <? breadth left) ||
  ((breadth left =? breadth right) && str_lt (Scope_ID left) (Scope_ID right)).

Context (visit : gmap Scope (gset string) -> list (Scope * gset string)).

Definition LayersReadByExactly (roomPersonIDs : list string) (everyone : list Access.PersonAccess)
    (containedCircles : gmap string (list string)) : list Scope :=
  let room : gset string := list_to_set roomPersonIDs in
  if bool_decide (room = ∅) then [] else
  let layers := (filter (fun kv => kv.2 = room) (visit (readersByScope everyone containedCircles))).*1 in
  if bool_decide (WorkspaceScope ∈ layers) then [WorkspaceScope] else stable_sort layer_before layers.

(** [connectors/heard_memory.go]; [isConfigured]: there is a memory and a directory. *)
Fixpoint person_IDs_of (emails : list string) (s : IdentityService) : option (list string) :=
  match emails with
  | [] => Some []
  | email :: emails' =>
    personID ← ResolvePersonIDByEmail email s; personIDs ← person_IDs_of emails' s; Some (personID :: personIDs)
  end.

Definition personIDsOfRoomMembers (emails : list string) (s : IdentityService) : option (list string) :=
  if bool_decide (emails = []) then None else person_IDs_of emails s.

Definition memoryLayersHeardIn (isConfigured : bool) (order : list string) (emails : list string)
    (s : IdentityService) : list Scope :=
  if negb isConfigured then [] else
  match personIDsOfRoomMembers emails s with
  | None => []
  | Some roomPersonIDs => LayersReadByExactly roomPersonIDs (EveryPersonAccess order s) (containedCirclesByID s)
  end.

Definition StackToRemember (target : Scope) (searched : list Scope) : list Scope :=
  target :: filter (fun scope => breadth target < breadth scope) searched.

(** What [rememberHeard] writes a note into, if it does. *)
Definition rememberHeard (isConfigured : bool) (order emails : list string) (layer : Scope)
    (personAccess : Access.PersonAccess) (s : IdentityService) : option (list Scope) :=
  if bool_decide (layer = no_scope) then None else
  if negb (bool_decide (layer ∈ memoryLayersHeardIn isConfigured order emails s)) then None
  else Some (StackToRemember layer (ScopesToSearch personAccess (containedCirclesByID s))).

End layers.

(** ** Recalling through a stack of files *)

(** What the file system says: to the service of a path whose file is [absent], and
    whether the service [keeps_open] a store; to the reader, of both. *)
Record FileAccess := MkFileAccess {
  absent : string -> bool;
  keeps_open : string -> bool;
  absent_to_reader : string -> bool;
  opens_to_reader : string -> bool;
}.

Section recall.
Context (root : string) (files : FileAccess).

Fixpoint Held (scopes : list Scope) : result MemoryError (list Scope) :=
  match scopes with
  | [] => Ok []
  | scope :: scopes' =>
    path ← pathUnder root scope;
    if absent files path then Held scopes' else
    if negb (keeps_open files path) then Err (CannotKeepOpen path) else
    held ← Held scopes'; Ok (scope :: held)
  end.

(** *** The reading process ([RunRead]), under the identity of the reader *)

(** The indices of the stores it opens. *)
Fixpoint openToRead (index : Z) (storePaths : list string) : result MemoryError (list Z) :=
  match storePaths with
  | [] => Ok []
  | path :: storePaths' =>
    if absent_to_reader files path then openToRead (index + 1) storePaths' else
    if negb (opens_to_reader files path) then Err (ReadRefused ("open " +:+ path)) else
    opened ← openToRead (index + 1) storePaths'; Ok (index :: opened)
  end.

Context {Memory : Type} (MemoryID : Memory -> string).

Record ReadResult := MkReadResult { Recall : list Memory; Layers : list Z }.

Definition validate (layerCount : Z) (read : ReadResult) : bool :=
  bool_decide (length (Layers read) = length (Recall read)) &&
  forallb (fun layer => (0 <=? layer) && (layer <? layerCount)) (Layers read).

(** [recordingLayer.Search]: what a store beneath the top answers is noted. *)
Definition record_found (found : gmap string Z) (search : Z * list Memory) : gmap string Z :=
  foldl (fun found entry => <[MemoryID entry := search.1]> found) found search.2.

(** What the library makes of a query on [n] stores beneath the top: the memories, and
    what each search of a store beneath answered. *)
Context (library : nat -> list Memory * list (nat * list Memory)).

Definition RunRead (storePaths : list string) : result MemoryError ReadResult :=
  opened ← openToRead 0 storePaths;
  match opened with
  | [] => Ok (MkReadResult [] [])
  | top :: beneath =>
    let '(recalled, searches) := library (length beneath) in
    let found := foldl record_found ∅
      (omap (fun search => (fun index => (index, search.2)) <$> beneath !! search.1) searches) in
    Ok (MkReadResult recalled ((fun entry => default top (found !! MemoryID entry)) <$> recalled))
  end.

Fixpoint facts_from (held : list Scope) (memories : list Memory) (layers : list Z)
  : result MemoryError (list (Memory * Scope)) :=
  match memories, layers with
  | [], _ => Ok []
  | entry :: memories', layer :: layers' =>
    match held !! Z.to_nat layer with
    | Some scope => facts ← facts_from held memories' layers'; Ok ((entry, scope) :: facts)
    | None => Err StoresOutOfStep
    end
  | _ :: _, [] => Err StoresOutOfStep
  end.

(** [readThrough], with [readAs] and [runRead]: each fact with the scope that holds it.
    [StoresOutOfStep] is an answer that [validate] refuses, or an index out of range. *)
Definition readThrough (scopes : list Scope) : result MemoryError (list (Memory * Scope)) :=
  held ← Held scopes;
  if bool_decide (held = []) then Ok [] else
  paths ← mapM (pathUnder root) held;
  read ← RunRead paths;
  if negb (validate (Z.of_nat (length paths)) read) then Err StoresOutOfStep else
  facts_from held (Recall read) (Layers read).

End recall.

(** ** Facts of a MEMORY.md *)

(** The marker a line begins with, and what follows. *)
Definition bullet (trimmed : string) : option string :=
  match CutPrefix trimmed "- " with Some fact => Some fact | None => CutPrefix trimmed "* " end.

Definition markdownFacts (document : string) : list string :=
  omap (fun line => fact ← bullet (TrimSpace line);
    let fact := TrimSpace fact in if bool_decide (fact = "") then None else Some fact)
    (Split document newline).

(** ** What a reader searches *)

Lemma singleton_union_not_empty (x : string) (X : gset string) : {[x]} ∪ X <> ∅.
Proof. intros He; apply (not_elem_of_empty (C := gset string) x); rewrite <- He, elem_of_union, elem_of_singleton; by left. Qed.

Section search.
Context `{UnicodeLaws}.

Lemma search_circles_elem rs seen scopes s :
  s ∈ (foldl search_circle (seen, scopes) rs).2 <->
  s ∈ scopes \/ exists r, r ∈ rs /\ (r ∉ seen) /\ CircleHoldsADirectory r = true /\ s = CircleScope r.
Proof.
  revert seen scopes; induction rs as [|r rs IH]; intros seen scopes; cbn [foldl].
  { split; [by left|]; intros [?|(r & ?%elem_of_nil & _)]; done. }
  unfold search_circle at 2; destruct (CircleHoldsADirectory r) eqn:Hh; cbn [negb orb]; [case_bool_decide as Hin|];
    rewrite IH; clear IH.
  - split; (intros [?|(x & Hx & Hns & Hhx & ->)]; [by left|right; exists x; split_and!; try done]); [by right|].
    by apply elem_of_cons in Hx as [->|?].
  - rewrite elem_of_app, list_elem_of_singleton; split.
    + intros [[?| ->]|(x & Hx & Hns & Hhx & ->)]; [by left|right; exists r|right; exists x]; split_and!; try done;
        [by left|by right|]; intros Hxs; apply Hns, elem_of_union; by right.
    + intros [?|(x & [->|Hx]%elem_of_cons & Hns & Hhx & ->)]; [by left; left|by left; right|].
      destruct (decide (x = r)) as [->|Hne]; [by left; right|right].
      exists x; split_and!; try done; rewrite elem_of_union, elem_of_singleton; tauto.
  - split; (intros [?|(x & Hx & Hns & Hhx & ->)]; [by left|right; exists x; split_and!; try done]); [by right|].
    apply elem_of_cons in Hx as [->|?]; [congruence|done].
Qed.

(** The files of a reader: its own, those of its circles and of the circles these
    contain, and the company's. *)
Lemma ScopesToSearch_elem a contained s :
  s ∈ ScopesToSearch a contained <->
  Access.PersonID a <> "" /\ s = PersonScope (Access.PersonID a) \/ s = WorkspaceScope \/
  exists c r, c ∈ Access.Circles a /\ r ∈ reachable_circles contained c /\ CircleHoldsADirectory r = true /\
    s = CircleScope r.
Proof.
  unfold ScopesToSearch; cbv zeta; rewrite elem_of_app, list_elem_of_singleton, search_circles_elem.
  assert (Hown : s ∈ (if negb (bool_decide (Access.PersonID a = "")) then [PersonScope (Access.PersonID a)] else [])
    <-> Access.PersonID a <> "" /\ s = PersonScope (Access.PersonID a)).
  { case_bool_decide; cbn [negb]; [split; [by intros ?%elem_of_nil|tauto]|rewrite list_elem_of_singleton; tauto]. }
  rewrite Hown; split.
  - intros [[?|(r & Hr & _ & Hh & ->)]|?]; [by left| |by right; left].
    apply list_elem_of_bind in Hr as (c & Hr & Hc); right; right; by exists c, r.
  - intros [?|[?|(c & r & Hc & Hr & Hh & ->)]]; [by left; left|by right|left; right].
    exists r; split_and!; [|apply not_elem_of_empty|done..]; apply list_elem_of_bind; by exists c.
Qed.

(** ** The readers of a scope *)

Definition readers (everyone : list Access.PersonAccess) (contained : gmap string (list string)) (s : Scope)
  : gset string :=
  list_to_set (Access.PersonID <$> filter (fun a => s ∈ ScopesToSearch a contained) everyone).

Lemma readers_elem everyone contained s personID :
  personID ∈ readers everyone contained s <->
  exists a, a ∈ everyone /\ Access.PersonID a = personID /\ s ∈ ScopesToSearch a contained.
Proof.
  unfold readers; rewrite elem_of_list_to_set, list_elem_of_fmap; split.
  - intros (a & -> & [Hs Ha]%list_elem_of_filter); by exists a.
  - intros (a & Ha & <- & Hs); exists a; split; [done|by apply list_elem_of_filter].
Qed.

Lemma add_readers_lookup personID scopes m s :
  foldl (add_reader personID) m scopes !! s =
    if bool_decide (s ∈ scopes) then Some ({[personID]} ∪ default ∅ (m !! s)) else m !! s.
Proof.
  revert m; induction scopes as [|t scopes IH]; intros m; cbn [foldl].
  { by rewrite bool_decide_false by apply not_elem_of_nil. }
  rewrite IH; unfold add_reader; destruct (decide (s = t)) as [->|Hne].
  - rewrite lookup_insert_eq, (bool_decide_true (t ∈ t :: scopes)) by left.
    case_bool_decide; [|done]; f_equal; cbn [default from_option]; unfold id.
    by rewrite (union_assoc_L {[personID]} {[personID]}), union_idemp_L.
  - rewrite lookup_insert_ne by done; case_bool_decide as Hin.
    + by rewrite bool_decide_true by (by right).
    + by rewrite bool_decide_false by (by rewrite not_elem_of_cons).
Qed.

Lemma readersByScope_lookup everyone contained s :
  readersByScope everyone contained !! s =
    if bool_decide (readers everyone contained s = ∅) then None else Some (readers everyone contained s).
Proof.
  unfold readersByScope; induction everyone as [|a everyone IH] using rev_ind.
  { cbn [foldl]; by rewrite lookup_empty, bool_decide_true. }
  rewrite foldl_app; cbn [foldl]; rewrite add_readers_lookup, IH; clear IH.
  assert (Hsnoc : readers (everyone ++ [a]) contained s =
    if bool_decide (s ∈ ScopesToSearch a contained) then {[Access.PersonID a]} ∪ readers everyone contained s
    else readers everyone contained s).
  { apply set_eq; intros x; rewrite readers_elem; case_bool_decide as Hin;
      rewrite ?elem_of_union, ?elem_of_singleton, readers_elem.
    - split; [intros (b & [Hb| ->%list_elem_of_singleton]%elem_of_app & <- & Hs); [right; by exists b|by left]|].
      intros [->|(b & Hb & <- & Hs)]; [exists a|exists b]; (split_and!; [|done|done]); apply elem_of_app;
        [right; by left|by left].
    - split; [intros (b & [Hb| ->%list_elem_of_singleton]%elem_of_app & <- & Hs); [by exists b|done]|].
      intros (b & Hb & <- & Hs); exists b; (split_and!; [|done|done]); apply elem_of_app; by left. }
  rewrite Hsnoc; destruct (bool_decide (s ∈ ScopesToSearch a contained)); [|done].
  rewrite (bool_decide_false ({[_]} ∪ _ = ∅)) by apply singleton_union_not_empty; f_equal.
  case_bool_decide as He; cbn [default from_option]; [by rewrite He|done].
Qed.

End search.

(** ** The layers of a room *)

Definition subject_scope (s : Scope) : Prop :=
  s = WorkspaceScope \/ exists subjectID, s = PersonScope subjectID \/ s = CircleScope subjectID.

Lemma layer_before_trans x y z : layer_before x y = true -> layer_before y z = true -> layer_before x z = true.
Proof.
  unfold layer_before; rewrite !orb_true_iff, !andb_true_iff, !Z.ltb_lt, !Z.eqb_eq.
  intros [?|[? Hxy]] [?|[? Hyz]]; [left; lia..|right; split; [lia|by eapply str_lt_trans]].
Qed.

Lemma layer_before_irrefl x : layer_before x x = false.
Proof. unfold layer_before; by rewrite Z.ltb_irrefl, str_lt_irrefl, andb_false_r. Qed.

Lemma layer_before_total x y :
  subject_scope x -> subject_scope y -> x <> y -> layer_before x y = true \/ layer_before y x = true.
Proof.
  assert (Hsame : forall kind a b, MkScope kind a <> MkScope kind b ->
    layer_before (MkScope kind a) (MkScope kind b) = true \/ layer_before (MkScope kind b) (MkScope kind a) = true).
  { intros kind a b Hne; unfold layer_before; cbn [Scope_ID].
    change (breadth (MkScope kind b)) with (breadth (MkScope kind a)); rewrite Z.ltb_irrefl, Z.eqb_refl; cbn [orb andb].
    destruct (str_lt_total a b) as [?|[->|?]]; [by left|done|by right]. }
  intros [->|(a & [->| ->])] [->|(b & [->| ->])] Hne; first [by apply Hsame|done|by left|by right].
Qed.

Section room.
Context `{UnicodeLaws} (visit : gmap Scope (gset string) -> list (Scope * gset string)).
Hypothesis visit_perm : forall m, visit m ≡ₚ map_to_list m.

Definition matching (room : gset string) (everyone : list Access.PersonAccess) (contained : gmap string (list string))
  : list Scope := (filter (fun kv => kv.2 = room) (visit (readersByScope everyone contained))).*1.

Lemma matching_elem room everyone contained s :
  room <> ∅ -> s ∈ matching room everyone contained <-> readers everyone contained s = room.
Proof.
  intros Hroom; unfold matching; rewrite list_elem_of_fmap; split.
  - intros ([s' r] & -> & [Hr Hin]%list_elem_of_filter); cbn in Hr |- *; subst r.
    rewrite visit_perm, elem_of_map_to_list, readersByScope_lookup in Hin; case_bool_decide; congruence.
  - intros Hr; exists (s, room); split; [done|]; apply list_elem_of_filter; split; [done|].
    rewrite visit_perm, elem_of_map_to_list, readersByScope_lookup, Hr; by rewrite bool_decide_false.
Qed.

Lemma matching_subject room everyone contained s :
  room <> ∅ -> s ∈ matching room everyone contained -> subject_scope s.
Proof.
  intros Hroom Hs; apply matching_elem in Hs; [|done].
  destruct (set_choose_L room Hroom) as [x Hx]; rewrite <- Hs in Hx; apply readers_elem in Hx as (a & _ & _ & Ha).
  apply ScopesToSearch_elem in Ha as [[_ ->]|[->|(c & r & _ & _ & _ & ->)]];
    [right; eexists; by left|by left|right; eexists; by right].
Qed.

Lemma matching_NoDup room everyone contained : NoDup (matching room everyone contained).
Proof.
  unfold matching; assert (Hnd : NoDup (visit (readersByScope everyone contained)).*1).
  { rewrite visit_perm; apply NoDup_fst_map_to_list. }
  eapply sublist_NoDup; [exact Hnd|]; apply fmap_sublist, sublist_filter.
Qed.

Lemma LayersReadByExactly_sorted room everyone contained :
  sorted_by layer_before (LayersReadByExactly visit room everyone contained).
Proof.
  unfold LayersReadByExactly; cbv zeta; case_bool_decide as Hroom; [constructor|].
  fold (matching (list_to_set room) everyone contained); case_bool_decide; [repeat constructor|].
  apply (stable_sort_sorted layer_before layer_before_trans id).
  - rewrite list_fmap_id; apply matching_NoDup.
  - intros x y Hx%matching_subject Hy%matching_subject Hne; [by apply layer_before_total|done..].
Qed.

Lemma LayersReadByExactly_elem room everyone contained s :
  s ∈ LayersReadByExactly visit room everyone contained <->
  room <> [] /\ readers everyone contained s = list_to_set room /\
  (readers everyone contained WorkspaceScope = list_to_set room -> s = WorkspaceScope).
Proof.
  unfold LayersReadByExactly; cbv zeta.
  assert (Hempty : list_to_set (C := gset string) room = ∅ <-> room = []).
  { split; [|by intros ->]; destruct room as [|x room]; [done|]; intros He; exfalso.
    by apply (singleton_union_not_empty x (list_to_set room)). }
  case_bool_decide as Hroom; [split; [by intros ?%elem_of_nil|by intros [Hne _]; tauto]|].
  fold (matching (list_to_set room) everyone contained); case_bool_decide as Hw.
  - apply matching_elem in Hw; [|done]; rewrite list_elem_of_singleton; split; [intros ->; split_and!; tauto|tauto].
  - rewrite stable_sort_perm, matching_elem by done; rewrite matching_elem in Hw by done; tauto.
Qed.

End room.

(** C39. The layers a conversation may keep what it heard in are those whose readers are
    exactly the people in the room - the company's alone where it qualifies - from the
    broadest to the nearest, whatever the order the map of readers is visited in. *)
Theorem LayersReadByExactly_exact `{UnicodeLaws} visit room everyone contained :
  (forall m, visit m ≡ₚ map_to_list m) ->
  let layers := LayersReadByExactly visit room everyone contained in
  (forall s, s ∈ layers <-> room <> [] /\
    (forall personID, personID ∈ room <->
      exists a, a ∈ everyone /\ Access.PersonID a = personID /\ s ∈ ScopesToSearch a contained) /\
    ((forall personID, personID ∈ room <-> personID ∈ Access.PersonID <$> everyone) -> s = WorkspaceScope)) /\
  sorted_by layer_before layers /\
  forall visit', (forall m, visit' m ≡ₚ map_to_list m) -> LayersReadByExactly visit' room everyone contained = layers.
Proof.
  intros Hv layers.
  assert (Hset : forall s, readers everyone contained s = list_to_set room <-> forall personID, personID ∈ room <->
    exists a, a ∈ everyone /\ Access.PersonID a = personID /\ s ∈ ScopesToSearch a contained).
  { intros s; split.
    - intros He personID; rewrite <- readers_elem, He; symmetry; apply elem_of_list_to_set.
    - intros He; apply set_eq; intros x; by rewrite readers_elem, <- He, elem_of_list_to_set. }
  assert (Hall : readers everyone contained WorkspaceScope = list_to_set room <->
    forall personID, personID ∈ room <-> personID ∈ Access.PersonID <$> everyone).
  { rewrite Hset; split; intros He personID; rewrite He, list_elem_of_fmap; split.
    - intros (a & Ha & <- & _); by exists a.
    - intros (a & -> & Ha); exists a; split_and!; [done..|]; apply ScopesToSearch_elem; by right; left.
    - intros (a & -> & Ha); exists a; split_and!; [done..|]; apply ScopesToSearch_elem; by right; left.
    - intros (a & Ha & <- & _); by exists a. }
  split_and!.
  - intros s; unfold layers; rewrite LayersReadByExactly_elem, Hset, Hall by done; done.
  - by apply LayersReadByExactly_sorted.
  - intros visit' Hv'; apply (sorted_by_unique layer_before layer_before_trans layer_before_irrefl);
      [by apply LayersReadByExactly_sorted..|].
    apply NoDup_Permutation; [by apply (sorted_by_NoDup _ layer_before_irrefl), LayersReadByExactly_sorted..|].
    intros s; unfold layers; by rewrite !LayersReadByExactly_elem by done.
Qed.

(** ** Who the kernel lets read a scope *)

(** The group of the directory a scope's file is in. *)
Definition scope_group `{UnicodeTables} (scope : Scope) : string :=
  if bool_decide (Scope_Kind scope = ScopePerson) then LinuxPersonUserName (TrimSpace (Scope_ID scope)) else
  if bool_decide (Scope_Kind scope = ScopeCircle) then LinuxCircleGroupName (Scope_ID scope) else posixSharedGroupName.

Definition identity_groups (identity : ExecutionIdentity) : list string :=
  GroupName identity :: SupplementaryGroupNames identity.

(** The directory is closed to all but its owner, the service, and its group. *)
Definition kernel_lets_read `{UnicodeTables} (identity : ExecutionIdentity) (scope : Scope) : Prop :=
  scope_group scope ∈ identity_groups identity.

(** The circles a policy names, as a person's or as part of another. *)
Definition circle_IDs `{UnicodeTables} (d : PolicyDocument) : list string :=
  ((people d ≫= effectivePersonCircles) ++ concat (map_to_list (ContainedCircles (Policy.Circles d))).*2)%list.

(** No two people, and no two circles, share a Linux name. *)
Definition names_apart `{UnicodeTables} (d : PolicyDocument) : Prop :=
  (forall p q, p ∈ people d -> q ∈ people d -> person_name p = person_name q -> Person.PersonID p = Person.PersonID q) /\
  (forall c c', c ∈ circle_IDs d -> c' ∈ circle_IDs d -> LinuxCircleGroupName c = LinuxCircleGroupName c' -> c = c').

Section kernel.
Context `{UnicodeLaws} (root : string) (d : PolicyDocument) (emails : list (string * string)).
Hypothesis valid : valid_document d.
Hypothesis emails_perm : emails ≡ₚ map_to_list (PersonIDByEmail (ReplacePolicyProjectionTransactionally d)).
Hypothesis all_named : Forall named (people d).
Hypothesis apart : names_apart d.

Definition directory_service : IdentityService :=
  NewIdentityService emails (ReplacePolicyProjectionTransactionally d).

Lemma effective_defaults p personID rules :
  EnsureRequesterDefaults (Access.MkPersonAccess personID (effectivePersonCircles p) rules) =
    Access.MkPersonAccess personID (effectivePersonCircles p) rules.
Proof.
  unfold EnsureRequesterDefaults; cbn [Access.PersonID Access.Circles Access.ResourceAccessRules]; f_equal.
  unfold effectivePersonCircles.
  set (l := (Person.Circles p ++ _)%list); pose proof (normalizePolicyStrings_absorb MemberCircleID l []) as Ha.
  cbv zeta in Ha; rewrite !app_nil_r in Ha; apply Ha; [apply MemberCircleID_normal|done|by intros v ?%elem_of_nil].
Qed.

Lemma resolved_person p :
  p ∈ people d -> ResolvePersonAccess (Person.PersonID p) directory_service =
    Access.MkPersonAccess (Person.PersonID p) (effectivePersonCircles p) (ResourceAccess d).
Proof.
  intros Hp; unfold ResolvePersonAccess, directory_service, NewIdentityService; rewrite reload_personAccess.
  rewrite (proj2 (PersonAccessByPersonID_lookup d (Person.PersonID p) _ valid)) by (by exists p).
  apply effective_defaults.
Qed.

Lemma known_people_elem personID :
  personID ∈ known_people directory_service <-> exists p, p ∈ people d /\ Person.PersonID p = personID.
Proof.
  unfold known_people; rewrite elem_of_union, elem_of_list_to_set, elem_of_dom, list_elem_of_fmap; split.
  - intros [([k v] & -> & Hk%elem_of_map_to_list)|[a Ha]].
    + apply (reload_valid d emails k v valid emails_perm) in Hk as (p & e & Hp & _ & _ & <-); by exists p.
    + unfold directory_service, NewIdentityService in Ha; rewrite reload_personAccess in Ha.
      apply PersonAccessByPersonID_lookup in Ha as (p & Hp & Hid & _); [by exists p|done].
  - intros (p & Hp & <-); right; unfold directory_service, NewIdentityService; rewrite reload_personAccess.
    eexists; apply PersonAccessByPersonID_lookup; [done|]; by exists p.
Qed.

Lemma everyone_elem order a :
  order ≡ₚ elements (known_people directory_service) ->
  a ∈ EveryPersonAccess order directory_service <->
  exists p, p ∈ people d /\
    a = Access.MkPersonAccess (Person.PersonID p) (effectivePersonCircles p) (ResourceAccess d).
Proof.
  intros Ho; unfold EveryPersonAccess; rewrite list_elem_of_fmap; split.
  - intros (personID & -> & Hin); rewrite Ho, elem_of_elements, known_people_elem in Hin.
    destruct Hin as (p & Hp & <-); exists p; split; [done|by apply resolved_person].
  - intros (p & Hp & ->); exists (Person.PersonID p); split; [symmetry; by apply resolved_person|].
    rewrite Ho, elem_of_elements, known_people_elem; by exists p.
Qed.

Lemma identity_groups_elem p rules g :
  p ∈ people d ->
  g ∈ identity_groups (ExecutionIdentityForPersonAccess
        (Access.MkPersonAccess (Person.PersonID p) (effectivePersonCircles p) rules) root) <->
  g = person_name p \/ g = posixSharedGroupName \/
  exists c, c ∈ effectivePersonCirclesForPOSIX p /\ g = LinuxCircleGroupName c.
Proof.
  intros Hp; rewrite Forall_forall in all_named; pose proof (all_named p Hp) as Hn.
  unfold identity_groups, ExecutionIdentityForPersonAccess; cbv zeta; cbn [Access.PersonID].
  rewrite bool_decide_false by exact Hn; cbn [GroupName SupplementaryGroupNames]; rewrite elem_of_cons.
  rewrite uniqueStrings_trimmed, elem_of_cons, list_elem_of_fmap.
  - split; (intros [?|[?|(c & Hc)]]; [by left|by right; left|right; right]); exists c;
      rewrite (execution_circles_elem p rules c) in Hc || rewrite (execution_circles_elem p rules c); tauto.
  - constructor; [by vm_compute|]; apply Forall_fmap, Forall_forall; intros c _; apply circle_name_trimmed.
Qed.

Lemma group_names_differ personID circleID :
  LinuxPersonUserName personID <> LinuxCircleGroupName circleID /\
  LinuxPersonUserName personID <> posixSharedGroupName /\ LinuxCircleGroupName circleID <> posixSharedGroupName.
Proof.
  destruct (person_name_shape personID) as (r & -> & _), (circle_name_shape circleID) as (r' & -> & _); done.
Qed.

Lemma person_circle_named p c : p ∈ people d -> c ∈ effectivePersonCircles p -> c ∈ circle_IDs d.
Proof. intros Hp Hc; unfold circle_IDs; apply elem_of_app; left; apply list_elem_of_bind; by exists p. Qed.

Lemma directory_circles_contained : containedCirclesByID directory_service = ContainedCircles (Policy.Circles d).
Proof.
  unfold directory_service, NewIdentityService, reloadPolicyProjection; destruct (foldl load_email _ _); cbn.
  unfold ReplacePolicyProjectionTransactionally.
  assert (Hc : forall cs t, ContainedCirclesByID (foldl project_channel t cs) = ContainedCirclesByID t).
  { induction cs as [|c cs IH]; intros t; [done|]; cbn [foldl]; by rewrite IH. }
  assert (Hp : forall ps t, ContainedCirclesByID (foldl (project_person (ResourceAccess d)) t ps) = ContainedCirclesByID t).
  { induction ps as [|c ps IH]; intros t; [done|]; cbn [foldl]; by rewrite IH. }
  by rewrite Hc, Hp.
Qed.

Lemma reachable_named p c r :
  p ∈ people d -> c ∈ effectivePersonCircles p -> r ∈ reachable_circles (ContainedCircles (Policy.Circles d)) c ->
  r ∈ circle_IDs d.
Proof.
  intros Hp Hc [->|Hr]%elem_of_cons; [by apply (person_circle_named p)|].
  unfold circle_IDs; apply elem_of_app; right; apply list_elem_of_In, in_concat.
  destruct (ContainedCircles (Policy.Circles d) !! c) as [members|] eqn:Hm; cbn in Hr; [|by apply elem_of_nil in Hr].
  exists members; split; [|by apply list_elem_of_In]; apply list_elem_of_In, list_elem_of_fmap.
  exists (c, members); split; [done|by apply elem_of_map_to_list].
Qed.

(** What the kernel lets a person read, of all that anyone searches, the person
    searches too; without circles in circles, no less. *)
Lemma kernel_follows_search p q s :
  p ∈ people d -> q ∈ people d ->
  let access p := Access.MkPersonAccess (Person.PersonID p) (effectivePersonCircles p) (ResourceAccess d) in
  let contained := ContainedCircles (Policy.Circles d) in
  s ∈ ScopesToSearch (access q) contained ->
  (kernel_lets_read (ExecutionIdentityForPersonAccess (access p) root) s -> s ∈ ScopesToSearch (access p) contained) /\
  (contained = ∅ -> s ∈ ScopesToSearch (access p) contained ->
    kernel_lets_read (ExecutionIdentityForPersonAccess (access p) root) s).
Proof.
  intros Hp Hq access contained Hs; unfold kernel_lets_read, access in *; rewrite identity_groups_elem by done.
  rewrite !ScopesToSearch_elem in *; cbn [Access.PersonID Access.Circles] in *.
  pose proof all_named as Hn; rewrite Forall_forall in Hn; destruct apart as [Hpeople Hcircles].
  split.
  - intros Hg; destruct Hs as [[Hne ->]|[->|(c & r & Hc & Hr & Hh & ->)]]; [left|by right; left|right; right].
    + change (scope_group _) with (person_name q) in Hg; destruct Hg as [Hg|[Hg|(c & _ & Hg)]];
        [by rewrite (Hpeople q p Hq Hp Hg) in Hne |- *|by apply (group_names_differ _ "") in Hg|by apply group_names_differ in Hg].
    + change (scope_group _) with (LinuxCircleGroupName r) in Hg; destruct Hg as [Hg|[Hg|(c' & Hc' & Hg)]];
        [by symmetry in Hg; apply group_names_differ in Hg|by apply (group_names_differ "" r) in Hg|].
      apply effectivePersonCirclesForPOSIX_elem in Hc' as [Hc' _].
      assert (r = c') as -> by (apply Hcircles; [by apply (reachable_named q c)|by apply (person_circle_named p)|done]).
      exists c', c'; split_and!; [done|by left|done..].
  - intros Hempty [[_ ->]|[->|(c & r & Hc & Hr & Hh & ->)]]; [by left|by right; left|right; right].
    unfold reachable_circles in Hr; rewrite Hempty, lookup_empty in Hr; apply list_elem_of_singleton in Hr as ->.
    exists c; split; [|done]; apply effectivePersonCirclesForPOSIX_elem; split; [done|]; intros ->.
    unfold CircleHoldsADirectory in Hh; by rewrite AdminCircleID_normal in Hh.
Qed.

Lemma room_members_elem roomEmails room personID :
  person_IDs_of roomEmails directory_service = Some room ->
  personID ∈ room <-> exists email, email ∈ roomEmails /\ ResolvePersonIDByEmail email directory_service = Some personID.
Proof.
  revert room; induction roomEmails as [|e roomEmails IH]; intros room; cbn [person_IDs_of].
  { intros [= <-]; split; [by intros ?%elem_of_nil|by intros (? & ?%elem_of_nil & _)]. }
  destruct (ResolvePersonIDByEmail e directory_service) as [x|] eqn:Hx; [|done]; cbn.
  destruct (person_IDs_of roomEmails directory_service) as [rest|]; [|done]; cbn; intros [= <-].
  rewrite elem_of_cons, (IH rest eq_refl); split.
  - intros [->|(e' & He' & Hr)]; [exists e; split; [by left|done]|exists e'; split; [by right|done]].
  - intros (e' & [->|He']%elem_of_cons & Hr); [left; congruence|right; by exists e'].
Qed.

End kernel.

(** C26. What is heard stays among those who heard it, under a valid policy each of whose people has
    an ID that is not blank, and no two of whose people or circles come to one Linux name (which the
    validation does not ensure: see [PosixIdentity.letter_case_shares_a_user]).
    When a conversation may keep what it heard in a layer, a person of the policy whom the kernel lets
    read that layer's file is one of the people in the room; and where no circle is part of another,
    everyone in the room can. *)
Theorem heard_layers_stay_in_the_room `{UnicodeLaws} visit root d emails order isConfigured roomEmails layer p :
  (forall m, visit m ≡ₚ map_to_list m) -> ValidatePolicyDocument d = Ok tt ->
  emails ≡ₚ map_to_list (PersonIDByEmail (ReplacePolicyProjectionTransactionally d)) ->
  let s := NewIdentityService emails (ReplacePolicyProjectionTransactionally d) in
  order ≡ₚ elements (known_people s) ->
  Forall named (people d) -> names_apart d ->
  layer ∈ memoryLayersHeardIn visit isConfigured order roomEmails s ->
  p ∈ people d ->
  let identity := ExecutionIdentityForPersonAccess (ResolvePersonAccess (Person.PersonID p) s) root in
  let in_the_room := exists email, email ∈ roomEmails /\ ResolvePersonIDByEmail email s = Some (Person.PersonID p) in
  (kernel_lets_read identity layer -> in_the_room) /\
  (containedCirclesByID s = ∅ -> in_the_room -> kernel_lets_read identity layer).
Proof.
  intros Hv Hd%ValidatePolicyDocument_Ok He s Ho Hn Ha Hl Hp identity in_the_room.
  unfold memoryLayersHeardIn in Hl; destruct isConfigured; cbn [negb] in Hl; [|by apply elem_of_nil in Hl].
  unfold personIDsOfRoomMembers in Hl; case_bool_decide; [by apply elem_of_nil in Hl|].
  destruct (person_IDs_of roomEmails s) as [room|] eqn:Hroom; [|by apply elem_of_nil in Hl].
  apply LayersReadByExactly_elem in Hl as (Hne & Hreaders & _); [|done].
  assert (Hin : Person.PersonID p ∈ room <-> in_the_room) by exact (room_members_elem d emails roomEmails room _ Hroom).
  assert (Hc : containedCirclesByID s = ContainedCircles (Policy.Circles d)) by exact (directory_circles_contained d emails).
  assert (Hroom' : forall q, q ∈ people d -> Person.PersonID q = Person.PersonID p -> q = p).
  { intros q Hq Hid; by eapply NoDup_fmap_inj_on; [exact (valid_person_ids d Hd)|..]. }
  assert (Hread : Person.PersonID p ∈ room <->
    layer ∈ ScopesToSearch (Access.MkPersonAccess (Person.PersonID p) (effectivePersonCircles p) (ResourceAccess d))
      (ContainedCircles (Policy.Circles d))).
  { rewrite <- (elem_of_list_to_set (C := gset string)), <- Hreaders, readers_elem, Hc; split.
    - intros (a & (q & Hq & ->)%everyone_elem & Hid & Hs); [|done..]; by rewrite (Hroom' q Hq Hid) in Hs.
    - intros Hs; eexists; split_and!; [apply everyone_elem; [done..|]; by exists p|done|done]. }
  destruct (set_choose_L (list_to_set (C := gset string) room)) as [x Hx].
  { destruct room as [|y room]; [done|]; apply singleton_union_not_empty. }
  rewrite <- Hreaders, readers_elem, Hc in Hx.
  destruct Hx as (a & (q & Hq & ->)%everyone_elem & _ & Hs); [|done..].
  destruct (kernel_follows_search root d Hn Ha p q layer Hp Hq Hs) as [Hto Hfrom].
  unfold identity; change s with (directory_service d emails); rewrite (resolved_person d emails Hd p Hp).
  split; [intros Hk; by apply Hin, Hread, Hto|intros Hempty Hr].
  change (containedCirclesByID s = ∅) in Hempty; rewrite Hc in Hempty; apply Hfrom; [done|]; by apply Hread, Hin.
Qed.

(** ** Recall *)

Section recalled.
Context (root : string) (files : FileAccess).

Definition held_ok (s : Scope) : bool :=
  match pathUnder root s with Ok path => absent files path || keeps_open files path | Err _ => false end.

Definition present (s : Scope) : bool :=
  match pathUnder root s with Ok path => negb (absent files path) | Err _ => false end.

Definition readable (path : string) : bool := absent_to_reader files path || opens_to_reader files path.

(** The file of a scope, where the reader opens it. *)
Definition read_from (s : Scope) (path : string) : Prop :=
  pathUnder root s = Ok path /\ absent files path = false /\ keeps_open files path = true /\
  absent_to_reader files path = false /\ opens_to_reader files path = true.

Lemma pathUnder_Err s e : pathUnder root s = Err e -> e <> StoresOutOfStep.
Proof. unfold pathUnder; cbv zeta; destruct (blank root); [by intros [= <-]|]; case_bool_decide; [by intros [= <-]|done]. Qed.

Lemma Held_spec scopes :
  if forallb held_ok scopes then Held root files scopes = Ok (List.filter present scopes)
  else exists e, Held root files scopes = Err e /\ e <> StoresOutOfStep.
Proof.
  induction scopes as [|s scopes IH]; [done|]; cbn [forallb List.filter Held].
  unfold held_ok at 1, present at 1; destruct (pathUnder root s) as [path|e] eqn:Hp; cbn.
  - destruct (absent files path); cbn; [done|]; destruct (keeps_open files path); cbn; [|by eexists].
    destruct (forallb held_ok scopes); [by rewrite IH|]; destruct IH as (e & -> & ?); by exists e.
  - exists e; split; [done|by apply (pathUnder_Err s)].
Qed.

Lemma openToRead_spec paths index :
  if forallb readable paths then exists opened, openToRead files index paths = Ok opened /\
    Forall (fun i => exists path, 0 <= i - index /\ paths !! Z.to_nat (i - index) = Some path /\
      absent_to_reader files path = false /\ opens_to_reader files path = true) opened
  else exists e, openToRead files index paths = Err e /\ e <> StoresOutOfStep.
Proof.
  revert index; induction paths as [|path paths IH]; intros index; [by exists []|]; cbn [forallb openToRead].
  unfold readable at 1; specialize (IH (index + 1)).
  assert (Hnext : forall i, (exists path', 0 <= i - (index + 1) /\ paths !! Z.to_nat (i - (index + 1)) = Some path' /\
      absent_to_reader files path' = false /\ opens_to_reader files path' = true) ->
    exists path', 0 <= i - index /\ (path :: paths) !! Z.to_nat (i - index) = Some path' /\
      absent_to_reader files path' = false /\ opens_to_reader files path' = true).
  { intros i (path' & Hi & Hl & Hr); exists path'; split_and!; try tauto; [lia|].
    by replace (Z.to_nat (i - index)) with (S (Z.to_nat (i - (index + 1)))) by lia. }
  destruct (absent_to_reader files path) eqn:Ha; cbn [orb andb negb].
  - destruct (forallb readable paths); [|done]; destruct IH as (opened & -> & Ho); exists opened; split; [done|].
    eapply Forall_impl; [exact Ho|exact Hnext].
  - destruct (opens_to_reader files path) eqn:Hr; cbn; [|by eexists].
    destruct (forallb readable paths); [|destruct IH as (e & -> & ?); by exists e].
    destruct IH as (opened & -> & Ho); exists (index :: opened); split; [done|]; constructor.
    + exists path; rewrite Z.sub_diag; by split_and!.
    + eapply Forall_impl; [exact Ho|exact Hnext].
Qed.

Context {Memory : Type} (MemoryID : Memory -> string) (library : nat -> list Memory * list (nat * list Memory)).

Definition in_layers (P : Z -> Prop) (found : gmap string Z) : Prop := map_Forall (fun _ => P) found.

Lemma record_found_in P found (search : Z * list Memory) :
  in_layers P found -> P search.1 -> in_layers P (record_found MemoryID found search).
Proof.
  intros Hf Hs; unfold record_found; revert found Hf; induction search.2 as [|entry entries IH]; intros found Hf; [done|].
  cbn [foldl]; apply IH, map_Forall_insert_2; done.
Qed.

Lemma found_in P (searches : list (Z * list Memory)) found :
  in_layers P found -> Forall (fun search => P search.1) searches ->
  in_layers P (foldl (record_found MemoryID) found searches).
Proof.
  revert found; induction searches as [|search searches IH]; intros found Hf Hs; [done|]; inversion Hs; subst.
  cbn [foldl]; apply IH; [by apply record_found_in|done].
Qed.

(** What the reading process answers names a store it opened for every memory. *)
Lemma RunRead_spec paths :
  if forallb readable paths then exists read, RunRead files MemoryID library paths = Ok read /\
    (Recall read = [] \/ exists n, Recall read = (library n).1) /\ length (Layers read) = length (Recall read) /\
    Forall (fun i => exists path, 0 <= i /\ paths !! Z.to_nat i = Some path /\
      absent_to_reader files path = false /\ opens_to_reader files path = true) (Layers read)
  else exists e, RunRead files MemoryID library paths = Err e /\ e <> StoresOutOfStep.
Proof.
  pose proof (openToRead_spec paths 0) as Ho; unfold RunRead.
  destruct (forallb readable paths); [|destruct Ho as (e & -> & ?); by exists e].
  destruct Ho as (opened & -> & Ho); cbn.
  assert (Ho' : Forall (fun i => exists path, 0 <= i /\ paths !! Z.to_nat i = Some path /\
      absent_to_reader files path = false /\ opens_to_reader files path = true) opened).
  { eapply Forall_impl; [exact Ho|]; intros i (path & Hi); rewrite Z.sub_0_r in Hi; by exists path. }
  destruct opened as [|top beneath]; [eexists; split; [done|]; by split_and!; [left|..]|].
  destruct (library (length beneath)) as [recalled searches] eqn:Hl; eexists; split; [done|]; cbn [Recall Layers].
  split_and!; [right; exists (length beneath); by rewrite Hl|by rewrite length_fmap|].
  inversion Ho' as [|? ? Htop Hbeneath]; subst; apply Forall_fmap, Forall_true; intros entry; cbn.
  destruct (_ !! MemoryID entry) as [i|] eqn:Hi; cbn; [|exact Htop].
  pattern i; eapply (found_in _ _ ∅); [apply map_Forall_empty| |exact Hi].
  apply Forall_forall; intros search Hs; apply list_elem_of_omap in Hs as ([k entries] & _ & Hs); cbn in Hs.
  destruct (beneath !! k) as [j|] eqn:Hj; [|done]; injection Hs as <-; cbn.
  rewrite Forall_forall in Hbeneath; apply Hbeneath; by eapply list_elem_of_lookup_2.
Qed.

Lemma facts_from_spec held memories layers :
  length layers = length memories -> Forall (fun i => is_Some (held !! Z.to_nat i)) layers ->
  exists facts, facts_from held memories layers = Ok facts /\ facts.*1 = memories /\
    Forall (fun fact : Memory * Scope => exists i, i ∈ layers /\ held !! Z.to_nat i = Some fact.2) facts.
Proof.
  revert layers; induction memories as [|entry memories IH]; intros [|i layers] Hn Hl; try discriminate Hn.
  { by exists []. }
  inversion Hl as [|? ? [scope Hi] Hl']; subst; cbn [facts_from]; rewrite Hi.
  destruct (IH layers) as (facts & -> & Hf & Hin); [by injection Hn|done|]; cbn.
  exists ((entry, scope) :: facts); split_and!; [done|by rewrite fmap_cons, Hf|]; constructor.
  - exists i; split; [left|done].
  - eapply Forall_impl; [exact Hin|]; intros fact (j & Hj & ?); exists j; split; [by right|done].
Qed.

Lemma held_paths held :
  Forall (fun s => present s = true) held ->
  exists paths, mapM (pathUnder root) held = Ok paths /\ Forall2 (fun s path => pathUnder root s = Ok path) held paths.
Proof.
  induction held as [|s held IH]; intros Hh; [by exists []|]; inversion Hh as [|? ? Hs Hh']; subst.
  destruct (IH Hh') as (paths & Hm & Hp2); unfold present in Hs; destruct (pathUnder root s) as [path|e] eqn:Hp; [|done].
  exists (path :: paths); split; [cbn [mapM]; by rewrite Hp; cbn; rewrite Hm|by constructor].
Qed.

(** A scope a recall can go through: it names a directory, and the file there, if there
    is one, opens to its keeper and to the reader. *)
Definition can_recall (s : Scope) : bool :=
  match pathUnder root s with
  | Ok path => absent files path || keeps_open files path && readable path
  | Err _ => false
  end.

Lemma can_recall_held scopes :
  forallb can_recall scopes =
    forallb held_ok scopes &&
    forallb (fun s => match pathUnder root s with Ok path => readable path | Err _ => false end)
      (List.filter present scopes).
Proof.
  induction scopes as [|s scopes IH]; [done|]; cbn [forallb List.filter]; rewrite IH.
  assert (Hpr : present s = match pathUnder root s with Ok path => negb (absent files path) | Err _ => false end) by done.
  assert (Hok : held_ok s = match pathUnder root s with
    Ok path => absent files path || keeps_open files path | Err _ => false end) by done.
  rewrite Hpr, Hok; unfold can_recall at 1; destruct (pathUnder root s) as [path|] eqn:Hp; [|done].
  destruct (absent files path); [done|]; destruct (keeps_open files path); [|done]; cbn [orb andb negb forallb].
  rewrite Hp; by destruct (readable path), (forallb held_ok scopes).
Qed.

Lemma readable_paths held paths :
  Forall2 (fun s path => pathUnder root s = Ok path) held paths ->
  forallb readable paths =
    forallb (fun s => match pathUnder root s with Ok path => readable path | Err _ => false end) held.
Proof. induction 1 as [|s path held paths Hp _ IH]; [done|]; cbn; by rewrite Hp, IH. Qed.

End recalled.

(** A recall answers exactly when every scope it searches names a directory, and the
    file there, if any, is one its keeper holds open and the reader can open: each fact is
    then one the memory library answered, and is put down to a searched scope whose file
    the reader itself opened.  No answer of the reading process is taken out of step. *)
Theorem recall_reads_as_the_reader root files {Memory} (MemoryID : Memory -> string) library scopes :
  match readThrough root files MemoryID library scopes with
  | Ok facts => forallb (can_recall root files) scopes = true /\
      (facts.*1 = [] \/ exists n, facts.*1 = (library n).1) /\
      forall entry s, (entry, s) ∈ facts -> s ∈ scopes /\ exists path, read_from root files s path
  | Err e => forallb (can_recall root files) scopes = false /\ e <> StoresOutOfStep
  end.
Proof.
  unfold readThrough; rewrite can_recall_held; pose proof (Held_spec root files scopes) as Hh.
  destruct (forallb (held_ok root files) scopes) eqn:Hok; [|destruct Hh as (e & -> & He); by split]; rewrite Hh; cbn; clear Hh.
  set (held := List.filter (present root files) scopes).
  assert (Hheld : forall s, s ∈ held <-> s ∈ scopes /\ present root files s = true).
  { intros s; unfold held; rewrite !list_elem_of_In; apply filter_In. }
  destruct (bool_decide (held = [])) eqn:Hnil; bool_to_prop.
  { rewrite Hnil; split_and!; [done|by left|by intros ? ? ?%elem_of_nil]. }
  destruct (held_paths root files held) as (paths & -> & Hpaths); [apply Forall_forall; intros s Hs; by apply Hheld|]; cbn.
  rewrite <- (readable_paths root files held paths Hpaths); pose proof (RunRead_spec files MemoryID library paths) as Hr.
  destruct (forallb (readable files) paths); [|destruct Hr as (e & -> & He); by split].
  destruct Hr as (read & -> & Hrec & Hll & Hin); cbn.
  assert (Hstore : Forall (fun i => exists s path, 0 <= i < Z.of_nat (length paths) /\ held !! Z.to_nat i = Some s /\
    s ∈ scopes /\ read_from root files s path) (Layers read)).
  { eapply Forall_impl; [exact Hin|]; intros i (path & Hi & Hl & Ha & Ho).
    destruct (Forall2_lookup_r _ _ _ _ _ Hpaths Hl) as (s & Hs & Hp).
    apply lookup_lt_Some in Hl; pose proof (Forall2_length _ _ _ Hpaths) as Hlen; destruct (proj1 (Hheld s) (list_elem_of_lookup_2 _ _ _ Hs)) as [Hsc Hpr].
    unfold present in Hpr; rewrite Hp in Hpr; rewrite forallb_elem_of in Hok.
    specialize (Hok s Hsc); unfold held_ok in Hok; rewrite Hp in Hok.
    destruct (absent files path) eqn:Hab, (keeps_open files path) eqn:Hk; try done.
    exists s, path; split_and!; [done|lia|done..]. }
  assert (Hv : validate (Z.of_nat (length paths)) read = true).
  { unfold validate; rewrite bool_decide_true by done; apply forallb_elem_of; intros i Hi.
    rewrite Forall_forall in Hstore; destruct (Hstore i Hi) as (s & path & ? & _); lia. }
  rewrite Hv; cbn [negb].
  destruct (facts_from_spec held (Recall read) (Layers read)) as (facts & -> & Hf & Hfacts); [done| |].
  { eapply Forall_impl; [exact Hstore|]; intros i (s & path & _ & -> & _); by eexists. }
  split_and!; [done|by rewrite Hf|]; intros entry s Hes; rewrite Forall_forall in Hfacts; rewrite Forall_forall in Hstore.
  destruct (Hfacts _ Hes) as (i & Hi & His); destruct (Hstore i Hi) as (s' & path & _ & Hs' & Hsc & Hr).
  cbn in His; replace s with s' by congruence; split; [done|by exists path].
Qed.

(** ** Witnesses *)

Definition team_circle (circleID path : string) (members : list string) : Circle.CirclePolicy :=
  Circle.MkCirclePolicy circleID circleID "" path members.

Definition team_document (circles : list Circle.CirclePolicy) (persons : list Person.PersonPolicy) : PolicyDocument :=
  MkPolicyDocument (Some persons) circles [] (MkCompanyPolicy "" "" "" "" "" "" "" "") [] [] 30 1 "".

Definition leaders_and_platform : PolicyDocument :=
  team_document [team_circle "leadership" "" []; team_circle "platform" "" []]
    [posix_person "chief" ["leadership"]; posix_person "director" ["leadership"]; posix_person "engineer" ["platform"]].

Definition projected_emails (d : PolicyDocument) : list (string * string) :=
  map_to_list (PersonIDByEmail (@ReplacePolicyProjectionTransactionally ascii_tables d)).

Definition team_service (d : PolicyDocument) : IdentityService :=
  @NewIdentityService ascii_tables (projected_emails d) (@ReplacePolicyProjectionTransactionally ascii_tables d).

Definition team_order (d : PolicyDocument) : list string := elements (known_people (team_service d)).

Definition visit_readers (m : gmap Scope (gset string)) : list (Scope * gset string) := map_to_list m.

Lemma LayersReadByExactly_exact_witness :
  let everyone := @EveryPersonAccess ascii_tables (team_order leaders_and_platform) (team_service leaders_and_platform) in
  @LayersReadByExactly ascii_tables visit_readers ["director"; "chief"] everyone ∅ = [CircleScope "leadership"] /\
  forall visit', (forall m, visit' m ≡ₚ map_to_list m) ->
    @LayersReadByExactly ascii_tables visit' ["director"; "chief"] everyone ∅ = [CircleScope "leadership"].
Proof.
  intros everyone; destruct (@LayersReadByExactly_exact ascii_tables ascii_laws visit_readers ["director"; "chief"] everyone ∅
    ltac:(done)) as (_ & _ & Hv).
  assert (Hl : @LayersReadByExactly ascii_tables visit_readers ["director"; "chief"] everyone ∅ = [CircleScope "leadership"])
    by (vm_compute; reflexivity).
  split; [exact Hl|]; intros visit' Hp; rewrite (Hv visit' Hp); exact Hl.
Defined.

Lemma projected_emails_perm d :
  projected_emails d ≡ₚ map_to_list (PersonIDByEmail (@ReplacePolicyProjectionTransactionally ascii_tables d)).
Proof. unfold projected_emails; apply Permutation_refl. Qed.

Lemma team_order_perm d :
  team_order d ≡ₚ elements (known_people (@NewIdentityService ascii_tables (projected_emails d)
    (@ReplacePolicyProjectionTransactionally ascii_tables d))).
Proof. unfold team_order, team_service; apply Permutation_refl. Qed.

Lemma leaders_named : Forall (@named) (people leaders_and_platform).
Proof. repeat constructor; unfold named; vm_compute; discriminate. Qed.

Lemma leaders_apart : @names_apart ascii_tables leaders_and_platform.
Proof.
  split; intros x y Hx Hy;
    [apply (injective_on_spec _ _ (people leaders_and_platform))
    |apply (injective_on_spec _ id (@circle_IDs ascii_tables leaders_and_platform))]; try done; vm_compute; reflexivity.
Qed.

Lemma heard_layers_stay_in_the_room_witness :
  let d := leaders_and_platform in
  let identity p := @ExecutionIdentityForPersonAccess ascii_tables (@ResolvePersonAccess ascii_tables p (team_service d)) "/workspace" in
  let room := ["chief@example.com"; "director@example.com"] in
  CircleScope "leadership" ∈ @memoryLayersHeardIn ascii_tables visit_readers true (team_order d) room (team_service d) /\
  @kernel_lets_read ascii_tables (identity "chief") (CircleScope "leadership") /\
  (@kernel_lets_read ascii_tables (identity "engineer") (CircleScope "leadership") ->
    exists email, email ∈ room /\ @ResolvePersonIDByEmail ascii_tables email (team_service d) = Some "engineer").
Proof.
  intros d identity room.
  assert (Hl : CircleScope "leadership" ∈ @memoryLayersHeardIn ascii_tables visit_readers true (team_order d) room (team_service d)).
  { assert (He : @memoryLayersHeardIn ascii_tables visit_readers true (team_order d) room (team_service d) = [CircleScope "leadership"])
      by (vm_compute; reflexivity); rewrite He; left. }
  assert (Hd : @ValidatePolicyDocument ascii_tables d = Ok tt) by (vm_compute; reflexivity).
  pose proof (fun p => @heard_layers_stay_in_the_room ascii_tables ascii_laws visit_readers "/workspace" d (projected_emails d)
    (team_order d) true room (CircleScope "leadership") p ltac:(done) Hd (projected_emails_perm d) (team_order_perm d)
    leaders_named leaders_apart Hl) as Hr.
  split_and!; [exact Hl| |].
  - apply (Hr (posix_person "chief" ["leadership"])); [left|vm_compute; reflexivity|].
    exists "chief@example.com"; split; [left|vm_compute; reflexivity].
  - apply (Hr (posix_person "engineer" ["platform"])); right; right; left.
Defined.

(** ** Departures *)

(** A circle that is part of another is searched by the members of both, and its layer
    counts them all as readers; but the POSIX user of a member of the outer circle is
    not in the inner circle's group, so that once the inner circle has a memory file,
    which this member's process cannot open, nothing is recalled for the member at all. *)
Definition nested_circles : PolicyDocument :=
  team_document [team_circle "leadership" "" ["platform"]; team_circle "platform" "" []]
    [posix_person "chief" ["leadership"]; posix_person "engineer" ["platform"]].

Lemma nested_circle_refuses_recall :
  let access := @ResolvePersonAccess ascii_tables "chief" (team_service nested_circles) in
  let scopes := @ScopesToSearch ascii_tables access (containedCirclesByID (team_service nested_circles)) in
  let file := "/workspace/circles/platform/.protected/memory.db" in
  CircleScope "platform" ∈ scopes /\ pathUnder "/workspace" (CircleScope "platform") = Ok file /\
  ~ @kernel_lets_read ascii_tables (@ExecutionIdentityForPersonAccess ascii_tables access "/workspace") (CircleScope "platform") /\
  forall files, absent files file = false -> keeps_open files file = true -> readable files file = false ->
    forallb (can_recall "/workspace" files) scopes = false.
Proof.
  intros access scopes file.
  assert (Hs : scopes = [PersonScope "chief"; CircleScope "member"; CircleScope "leadership"; CircleScope "platform"; WorkspaceScope])
    by (vm_compute; reflexivity).
  assert (Hp : pathUnder "/workspace" (CircleScope "platform") = Ok file) by (vm_compute; reflexivity).
  split_and!; [rewrite Hs; do 3 right; left|done| |].
  - apply (proj1 (bool_decide_eq_false (_ ∈ identity_groups _))); vm_compute; reflexivity.
  - intros files Ha Hk Hr; apply not_true_iff_false; rewrite forallb_elem_of; intros Hall.
    specialize (Hall (CircleScope "platform")); unfold can_recall in Hall; rewrite Hp, Ha, Hk, Hr in Hall.
    discriminate Hall; rewrite Hs; do 3 right; left.
Qed.

(** The memory of a circle is looked for below the default directory of its name; the
    POSIX state protects a directory below the circle's own workspace directory. *)
Lemma moved_circle_has_no_memory_directory :
  let d := team_document [team_circle "finance" "/workspace/teams/finance" []] [posix_person "ann" ["finance"]] in
  let directories := Directories (@POSIXStateForPolicy ascii_tables visit_in_order d "/workspace") in
  existsb (fun dir => bool_decide (Directory.Path dir = protectedDirectoryUnder "/workspace" (CircleScope "finance"))) directories = false /\
  existsb (fun dir => bool_decide (Directory.Path dir = "/workspace/teams/finance/.protected")) directories = true.
Proof. split; vm_compute; reflexivity. Qed.

(** A person whose ID cannot name a directory, which the validator accepts, has no
    memory file of its own, and so recalls nothing from anyone's. *)
Lemma dotted_ID_recalls_nothing files :
  let d := team_document [] [posix_person "ann.lee" []] in
  let access := @ResolvePersonAccess ascii_tables "ann.lee" (team_service d) in
  @ValidatePolicyDocument ascii_tables d = Ok tt /\
  forallb (can_recall "/workspace" files) (@ScopesToSearch ascii_tables access ∅) = false.
Proof. split; vm_compute; reflexivity. Qed.
