(* ===== verification/Engagement.v ===== *)
(** * Engagement with a message ([inboundengagement/*.go]).

    Whether a message starts work, gets a reaction, is kept in memory, or is left
    alone.  The gateway asks a decision model one request about a burst of messages
    ([newDecisionRequest]), reads the answers back into a judgment per message
    ([readJudgments]), and decides ([Resolve]).  What the protocol library makes of
    questions and answers is the class [DecisionLibrary]; the JSON length of a
    request, the model and the random draws are arguments. *)

From S2P Require Export GoFloat TaskRuns MemoryLayers.

(** ** The protocol library *)

(** [model.DecisionAnswer] and [model.DecisionQuestion], [agentcontract.AgentIdentity],
    [IntakeQuestionWork], [WorkNone], [ReadWork], [WorkQuestion], [FormatContextTimestamp]. *)
Class DecisionLibrary := {
  DecisionAnswer : Type;
  Answer_Choice : DecisionAnswer -> string;
  Answer_Confidence : DecisionAnswer -> float64;
  Probabilities : DecisionAnswer -> gmap string float64;
  ChoiceProbability : DecisionAnswer -> string -> float64;
  IsYes : DecisionAnswer -> bool;
  DecisionQuestion : Type;
  ChoiceQuestion : string -> gmap string string -> DecisionQuestion;
  NoulQuestion : string -> string -> string -> DecisionQuestion;
  IntakeQuestionWork : string;
  WorkNone : string;
  ReadWork : DecisionAnswer -> string;
  WorkQuestion : string -> string -> DecisionQuestion;
  FormatContextTimestamp : instant -> string -> string;
  AgentIdentity : Type;
  DisplayName : AgentIdentity -> string;
  MentionExample : AgentIdentity -> string;
}.

(** [len(answer.Probabilities) != 0] *)
Definition HasProbabilities `{DecisionLibrary} (answer : DecisionAnswer) : bool :=
  negb (bool_decide (size (Probabilities answer) = 0%nat)).

(** What is carried and not looked into: its document. *)
Definition IntakeAttachmentFact := string.

(** The fields of [agentcontract.VisibleContext] and of [CompanyContext] that are set or read. *)
Record VisibleContextMaterial := MkMaterial {
  MaterialID : string;
  Material_URL : string;
  Material_FileID : string;
  Material_Platform : string;
  Material_MessageID : string;
  Material_Filename : string;
  Material_ContentType : string;
  Material_SizeBytes : Z;
  Material_Path : string;
  Material_IsAvailable : bool;
  Material_ErrorCode : string;
  Material_Message : string;
  Material_MarkdownPreview : string;
  Material_ConversionStatus : string;
  Material_ConversionMessage : string;
}.

Record AgentContextMessage := MkAgentContextMessage {
  Agent_Speaker : string;
  Agent_SpeakerCallingName : string;
  Agent_SpeakerHandle : string;
  Agent_Text : string;
  Agent_SentAt : instant;
  Message_Materials : list VisibleContextMaterial;
}.

Record AgentVisibleContext := MkAgentContext {
  Agent_Messages : list AgentContextMessage;
  Agent_MessagesOpenOtherExchanges : bool;
  CurrentMaterials : list VisibleContextMaterial;
  PreviousMaterials : list VisibleContextMaterial;
  Agent_HasMoreBefore : bool;
  Agent_HistoryCursor : string;
  Agent_ResponseLanguage : string;
  Agent_RequesterTimeZone : string;
}.

Record CompanyContext := MkCompany { Company_Name : string; Company_TimeZone : string }.

(** ** Vocabulary ([vocabulary.go]) *)

Record Message := MkMessage {
  Message_ID : string;
  Prompt : string;
  SenderName : string;
  SenderHandle : string;
  Message_BotMentioned : bool;
  SentAt : instant;
  Message_Parts : list AgentPart;
  Attachments : list IntakeAttachmentFact;
  IsAttachmentsOnly : bool;
}.

Definition AddressingTarget := string.
Definition AddressingTargetBot : AddressingTarget := "bot".
Definition AddressingTargetHuman : AddressingTarget := "human".
Definition AddressingTargetAnyone : AddressingTarget := "anyone".
Definition AddressingTargetNone : AddressingTarget := "none".
Definition AddressingTargetUnclear : AddressingTarget := "unclear".

Record AddressingDecision := MkAddressingDecision {
  Target : AddressingTarget;
  ShouldRespond : bool;
  Work : string;
  ReactionEmoji : string;
  DutyMatch : bool;
  DutyName : string;
  DutyConfidence : float64;
}.

Definition BusyRoute := string.
Definition BusyRouteStatus : BusyRoute := "status".
Definition BusyRouteSteer : BusyRoute := "steer".
Definition BusyRouteReplace : BusyRoute := "replace".
Definition BusyRouteCancel : BusyRoute := "cancel".
Definition BusyRouteNewTask : BusyRoute := "new_task".
Definition BusyRouteUnrelated : BusyRoute := "unrelated".

Definition BusyRouteNames : list string :=
  [BusyRouteStatus; BusyRouteSteer; BusyRouteReplace; BusyRouteCancel; BusyRouteNewTask; BusyRouteUnrelated].

Definition QuestionTarget : string := "target".
Definition QuestionShouldRespond : string := "shouldRespond".
Definition QuestionReaction : string := "reaction".
Definition QuestionReactionEmoji : string := "reactionEmoji".
Definition QuestionDuty : string := "duty".
Definition QuestionRelatesToActiveTask : string := "relatesToActiveTask".
Definition QuestionBusyRoute : string := "busyRoute".
Definition QuestionRemember : string := "remember".

Definition ReactionOptionNone : string := "none".
Definition ReactionOptionReact : string := "react".
Definition DutyOptionNone : string := "none".
Definition RememberOptionNone : string := "none".

Record StandingDuty := MkDuty {
  Duty_Name : string;
  Duty_Description : string;
  Duty_Instruction : string;
  Duty_ToolNames : list string;
}.

Definition standingDuties : list StandingDuty := [
  MkDuty "calendar_upkeep"
    "a specific meeting, deadline, or scheduled event that should be created or updated as a calendar event right now"
    "Record the concrete meeting, deadline, or scheduled event the overheard message states as a calendar entry. List the existing entries around that date first and update the matching one instead of creating a duplicate. When the message states nothing concrete enough to put on a calendar, send a final reply without changing anything."
    ["event_list"; "event_add"; "event_update"; "conversation_history"; "memory_search"];
  MkDuty "team_flow_update"
    "a specific work task assigned to a person that should be added, or whose status or details should be updated or completed right now"
    "Record the concrete work task the overheard message assigns, or update the existing task whose status or details it changes. List the existing tasks first and update the matching one instead of creating a duplicate. When the message assigns nothing concrete enough to track, send a final reply without changing anything."
    ["task_list"; "task_add"; "task_update"; "conversation_history"; "memory_search"]
].

Definition StandingDutyByName (dutyName : string) : option StandingDuty :=
  let trimmedDutyName := TrimSpace dutyName in
  find (fun duty => bool_decide (Duty_Name duty = trimmedDutyName)) standingDuties.

Record AmbientDutyContext := MkAmbientDuty { IsMatch : bool; Name : string; Confidence : float64 }.

(** [AmbientDutyContext{}] *)
Definition no_duty : AmbientDutyContext := MkAmbientDuty false "" float_zero.

Definition Normalized (context : AmbientDutyContext) : AmbientDutyContext :=
  let name := TrimSpace (Name context) in
  if negb (IsMatch context) || bool_decide (name = "") then no_duty else
  match StandingDutyByName name with
  | None => no_duty
  | Some _ => MkAmbientDuty true name (float_min (float_max (Confidence context) float_zero) float_one)
  end.

Definition ambientDutyContextHeading : string := "Ambient duty context".

Definition ambientDutyOverheardHeading (senderName : string) : string :=
  let trimmedSenderName := TrimSpace senderName in
  if bool_decide (trimmedSenderName = "") then "Overheard message:"
  else "Overheard message from " +:+ trimmedSenderName +:+ ":".

Definition AmbientDutyInstructionPrompt (duty : StandingDuty) (overheardMessage senderName : string) : string :=
  Join nl [
    ambientDutyContextHeading +:+ " (" +:+ Duty_Name duty +:+ ")";
    Duty_Instruction duty;
    "";
    ambientDutyOverheardHeading senderName;
    TrimSpace overheardMessage].

(** [decider_state.go] *)
Definition firstNonEmpty (values : list string) : string :=
  foldr (fun value rest => if bool_decide (TrimSpace value = "") then rest else TrimSpace value) "" values.

(** ** Conversations ([gate.go]) *)

Definition IsMultiPersonConversation `{UnicodeTables} (conversationType : string) : bool :=
  let normalizedConversationType := ToLower (TrimSpace conversationType) in
  if bool_decide (normalizedConversationType = "") then false
  else negb (bool_decide (normalizedConversationType ∈ ["d"; "dm"; "im"; "direct"])).

Definition ShouldIgnoreUninvitedAddressing `{UnicodeTables} (conversationType : string) (botMentioned : bool) : bool :=
  IsMultiPersonConversation conversationType && negb botMentioned.

(** ** What the gateway asks ([decider_questions.go], [memory_layer.go]) *)

Record TaskFacts := MkTaskFacts {
  Facts_Prompt : string;
  Facts_Status : string;
  Facts_Summary : string;
  PostedQuestion : string;
}.

Record Facts `{DecisionLibrary} := MkFacts {
  Messages : list Message;
  Facts_ConversationType : string;
  Facts_VisibleContext : AgentVisibleContext;
  Facts_AgentIdentity : AgentIdentity;
  Company : CompanyContext;
  OpenTask : option TaskFacts;
  FinishedTask : option TaskFacts;
  Duties : list StandingDuty;
  MemoryLayers : list Scope;
  CallableTools : list string;
  EnvironmentNow : instant;
}.
Arguments MkFacts {_}.

Definition reactionEmojis : list (string * string) := [
  ("white_check_mark", "acknowledged, seen");
  ("eyes", "looking at it now");
  ("+1", "agreement or approval");
  ("saluting_face", "on it, will do");
  ("pray", "thanks, or please, aimed at the assistant");
  ("heart", "warmth or appreciation");
  ("tada", "celebration of a result");
  ("clap", "praise for someone's work");
  ("raised_hands", "shared celebration or gratitude");
  ("fire", "impressive results");
  ("rocket", "a launch or shipped work");
  ("sparkles", "something new or polished");
  ("100", "strong agreement with an impressive result");
  ("muscle", "cheering effort on");
  ("wave", "a greeting or a farewell");
  ("thinking_face", "an open question worth considering");
  ("memo", "noted");
  ("bulb", "a good idea");
  ("sob", "sympathy for bad news");
  ("joy", "laughing at a joke");
  ("slightly_smiling_face", "a friendly greeting or a kind word, lightly returned");
  ("sweat_smile", "an awkward or self-deprecating joke")
].

Definition messageKey (index : nat) : string := "m" +:+ Itoa (Z.of_nat index + 1).

Definition questionKey (key questionName : string) : string := key +:+ "." +:+ questionName.

Definition questionNameWithoutMessageKey (questionName : string) : string :=
  match Cut questionName "." with Some (_, name) => name | None => "" end.

Section questions.
Context `{UnicodeTables, DecisionLibrary}.

Definition gatewayQuestionNames : list string :=
  [QuestionTarget; QuestionShouldRespond; IntakeQuestionWork; QuestionReaction; QuestionReactionEmoji;
   QuestionDuty; QuestionRelatesToActiveTask; QuestionBusyRoute; QuestionRemember].

Definition AsksOnlyGatewayQuestions (questions : gmap string DecisionQuestion) : bool :=
  forallb (fun kv => bool_decide (questionNameWithoutMessageKey kv.1 ∈ gatewayQuestionNames)) (map_to_list questions)
  && negb (bool_decide (size questions = 0%nat)).

Definition isChannel (facts : Facts) : bool := IsMultiPersonConversation (Facts_ConversationType facts).

Definition asksTarget (facts : Facts) : bool := isChannel facts.

Definition asksDuty (facts : Facts) (message : Message) : bool :=
  isChannel facts && negb (Message_BotMentioned message) && negb (bool_decide (Duties facts = [])).

Definition asksAnyDuty (facts : Facts) : bool := existsb (asksDuty facts) (Messages facts).

Definition asksBusyRoute (facts : Facts) : bool := is_some (OpenTask facts).

Definition asksRelatesToActiveTask (facts : Facts) : bool := is_some (OpenTask facts) || is_some (FinishedTask facts).

Definition asksRemember (facts : Facts) : bool := negb (bool_decide (MemoryLayers facts = [])).

Definition targetQuestion (about agentName : string) : DecisionQuestion :=
  ChoiceQuestion (about +:+ "Who is it directed at? " +:+ agentName +:+ " is the workplace assistant in this conversation.")
    (list_to_map [
      (AddressingTargetBot, "directed at " +:+ agentName +:+ ", by mention, by reply, or by an unmistakable request to it");
      (AddressingTargetHuman, "directed at one specific person other than " +:+ agentName);
      (AddressingTargetAnyone, "directed at the room in general, a share or an announcement anyone may answer");
      (AddressingTargetNone, "directed at nobody, a self-note, a reaction, or filler");
      (AddressingTargetUnclear, "genuinely impossible to tell who it is aimed at")]).

Definition reactionEmojiOptionDescriptions : gmap string string :=
  foldl (fun descriptions emoji => <[emoji.1 := emoji.2]> descriptions) ∅ reactionEmojis.

Definition addressingQuestions (about agentName : string) : gmap string DecisionQuestion :=
  list_to_map [
    (IntakeQuestionWork, WorkQuestion about agentName);
    (QuestionShouldRespond, NoulQuestion
      (about +:+ "Should " +:+ agentName +:+ " write a text reply to it?")
      ("it is a direct request, question, or instruction to " +:+ agentName +:+ "; it answers a question " +:+ agentName +:+ " asked; it makes " +:+ agentName +:+ " the intended responder; or it is social or playful and aimed at " +:+ agentName +:+ ", where a short in-kind reply keeps the conversation going")
      ("anything else. Ignore is the normal outcome for channel traffic: work chatter between other people, their status updates and coordination, thanks between two other people, " +:+
       "and a share, an FYI, or a closing thanks aimed at " +:+ agentName +:+ " that wants no words back"));
    (QuestionReaction, ChoiceQuestion
      (about +:+ "Would a courteous coworker leave an emoji reaction on it?")
      (list_to_map [
        (ReactionOptionNone, "no reaction; reacting would be noise. Routine work chatter between other people, status exchanges between colleagues, personal thanks between two people, and any message that neither addresses nor includes " +:+ agentName +:+ " get nothing. Topic or wording alone is never a reason to react");
        (ReactionOptionReact, "a single emoji acknowledges it well: a share or FYI posted for the whole team or for " +:+ agentName +:+ ", news worth celebrating, a joke posted for the room, " +:+
         "or a closing thanks or acknowledgement aimed at " +:+ agentName)]));
    (QuestionReactionEmoji, ChoiceQuestion
      (about +:+ "If a reaction were added to it, which emoji fits best?") reactionEmojiOptionDescriptions)].

Definition dutyQuestion (about agentName : string) (duties : list StandingDuty) : DecisionQuestion :=
  ChoiceQuestion
    (about +:+ "Does it specify a concrete item a standing duty should record right now, even though it was not addressed to " +:+ agentName +:+ "? The duties are listed in standingDuties in the state. Answer none for vague mentions, opinions, questions, hypotheticals, and chit-chat, and for anything addressed to " +:+ agentName +:+ " as a request.")
    (foldl (fun descriptions duty => <[Duty_Name duty := Duty_Description duty]> descriptions)
      {[DutyOptionNone := "it records nothing: chatter, a question, a share, or a request aimed at the assistant itself"]}
      duties).

Definition relatesToActiveTaskQuestion (about : string) : DecisionQuestion :=
  NoulQuestion
    (about +:+ "Does it continue, correct, cancel, or ask about the task in the state (activeTask or recentlyFinishedTask)?")
    "it is about that task: a correction, an addition, a cancellation, or a question about its progress"
    "it is a self-contained new request that has nothing to do with that task".

Definition busyRouteQuestion (about : string) : DecisionQuestion :=
  ChoiceQuestion
    (about +:+ "A task is open (activeTask in the state). Its status says whether it is running or waiting: waiting_approval for a yes or no, waiting_user_input for an answer, and postedQuestion is what it asked. What should happen to it? Natural-language stop requests are ordinary messages, so read them by intent.")
    (list_to_map [
      (BusyRouteStatus, "it asks whether work is happening, asks for progress, or asks about the task or what it is waiting for");
      (BusyRouteSteer, "it corrects or redirects the task without cancelling it, including a change to what a waiting task asked about");
      (BusyRouteReplace, "it clearly cancels or replaces the task with a new instruction");
      (BusyRouteCancel, "it asks to stop, cancel, abort, or not continue the task");
      (BusyRouteNewTask, "it is independent and should not affect the task");
      (BusyRouteUnrelated, "it should neither start nor alter work")]).

Definition rememberOptionOf (layer : Scope) : string :=
  if bool_decide (Scope_Kind layer = ScopeWorkspace) then "company" else
  if bool_decide (Scope_Kind layer = ScopeCircle) then "circle:" +:+ Scope_ID layer else "person".

Definition memoryLayerDescription (layer : Scope) (agentName senderName : string) : string :=
  if bool_decide (Scope_Kind layer = ScopeWorkspace)
  then "a lasting fact everyone at the company should keep knowing, kept in the company's memory" else
  if bool_decide (Scope_Kind layer = ScopeCircle)
  then "a lasting fact the " +:+ Scope_ID layer +:+ " circle should keep knowing, kept in that circle's memory" else
  "a lasting fact about " +:+ firstNonEmpty [senderName; "the person writing"] +:+ " that " +:+ agentName +:+ " should keep knowing for them, kept in their own memory".

Definition rememberQuestion (about agentName senderName : string) (layers : list Scope) : DecisionQuestion :=
  ChoiceQuestion
    (about +:+ "Does it state something " +:+ agentName +:+ " should remember for the people in this conversation, whether or not it needs a reply or work? " +:+
     "Each option other than none is a memory read by exactly the people in this conversation. " +:+
     "Remember only a lasting fact the message itself states: a decision, a rule or convention, a standing arrangement, a preference, or a fact about a person, a team, or the company that stays true beyond this conversation. " +:+
     "Do not infer a fact the message does not state; its topic, tone, or wording alone is never a reason to remember it.")
    (foldl (fun descriptions layer => <[rememberOptionOf layer := memoryLayerDescription layer agentName senderName]> descriptions)
      {[RememberOptionNone := "nothing lasting to keep: a question, a greeting, chatter, an opinion, one-off coordination, a request that states no lasting fact, or a fact the message only implies"]}
      layers).

(** [if asks { questions[name] = question }] *)
Definition asked_if (asks : bool) (name : string) (question : DecisionQuestion) (questions : gmap string DecisionQuestion)
  : gmap string DecisionQuestion := if asks then <[name := question]> questions else questions.

Definition questionsForMessage (facts : Facts) (message : Message) (key : string) : gmap string DecisionQuestion :=
  let agentName := DisplayName (Facts_AgentIdentity facts) in
  let about := "About message " +:+ key +:+ " in the state. " in
  asked_if (asksRemember facts) QuestionRemember
    (rememberQuestion about agentName (SenderName message) (MemoryLayers facts))
  (asked_if (asksBusyRoute facts) QuestionBusyRoute (busyRouteQuestion about)
  (asked_if (asksRelatesToActiveTask facts) QuestionRelatesToActiveTask (relatesToActiveTaskQuestion about)
  (asked_if (asksDuty facts message) QuestionDuty (dutyQuestion about agentName (Duties facts))
  (asked_if (asksTarget facts) QuestionTarget (targetQuestion about agentName)
  (addressingQuestions about agentName))))).

End questions.

(** ** The state the questions are about ([decider_state.go]) *)

Definition visibleContextMessageBudget : nat := 8.

Record decisionAgent := MkDecisionAgent { State_AgentName : string; Mention : string }.

Record decisionContextMessage := MkDecisionContextMessage {
  Context_At : string;
  Context_Speaker : string;
  State_Text : string;
}.

Record decisionMessage := MkDecisionMessage {
  State_ID : string;
  State_Sender : string;
  State_Handle : string;
  State_BotMentioned : bool;
  State_At : string;
  Message_Text : string;
  State_Attachments : list IntakeAttachmentFact;
  State_IsAttachmentsOnly : bool;
}.

Record decisionDuty := MkDecisionDuty { State_DutyName : string; State_DutyDescription : string }.

Record decisionState := MkDecisionState {
  State_Agent : decisionAgent;
  State_Company : CompanyContext;
  Placement : string;
  Now : string;
  State_Context : list decisionContextMessage;
  State_Messages : list decisionMessage;
  State_CallableTools : list string;
  State_StandingDuties : list decisionDuty;
  ActiveTask : option TaskFacts;
  RecentlyFinishedTask : option TaskFacts;
}.

Record DecisionRequest `{DecisionLibrary} := MkDecisionRequest {
  State : decisionState;
  Questions : gmap string DecisionQuestion;
}.
Arguments MkDecisionRequest {_}.

Section request.
Context `{UnicodeTables, DecisionLibrary}.

Definition placementOf (facts : Facts) : string := if isChannel facts then "channel" else "direct".

Definition decisionContextMessages (facts : Facts) : list decisionContextMessage :=
  let messages := Agent_Messages (Facts_VisibleContext facts) in
  (fun message => MkDecisionContextMessage
    (FormatContextTimestamp (Agent_SentAt message) (Company_TimeZone (Company facts)))
    (firstNonEmpty [Agent_SpeakerCallingName message; Agent_Speaker message; Agent_SpeakerHandle message; "unknown"])
    (TrimSpace (Agent_Text message)))
  <$> drop (length messages - visibleContextMessageBudget)%nat messages.

Definition decisionMessages (facts : Facts) : list decisionMessage :=
  imap (fun index message => MkDecisionMessage (messageKey index) (TrimSpace (SenderName message))
    (TrimSpace (SenderHandle message)) (Message_BotMentioned message)
    (FormatContextTimestamp (SentAt message) (Company_TimeZone (Company facts)))
    (TrimSpace (Prompt message)) (Attachments message) (IsAttachmentsOnly message)) (Messages facts).

Definition decisionDuties (duties : list StandingDuty) : list decisionDuty :=
  (fun duty => MkDecisionDuty (Duty_Name duty) (Duty_Description duty)) <$> duties.

Definition newDecisionState (facts : Facts) : decisionState :=
  MkDecisionState
    (MkDecisionAgent (DisplayName (Facts_AgentIdentity facts)) (MentionExample (Facts_AgentIdentity facts)))
    (Company facts) (placementOf facts)
    (FormatContextTimestamp (EnvironmentNow facts) (Company_TimeZone (Company facts)))
    (decisionContextMessages facts) (decisionMessages facts) (CallableTools facts)
    (if asksAnyDuty facts then decisionDuties (Duties facts) else [])
    (OpenTask facts)
    (match OpenTask facts with None => FinishedTask facts | Some _ => None end).

(** The questions of the message at an index, under its key. *)
Definition add_questions (facts : Facts) (questions : gmap string DecisionQuestion) (indexed : nat * Message)
  : gmap string DecisionQuestion :=
  let key := messageKey indexed.1 in
  foldl (fun questions kv => <[questionKey key kv.1 := kv.2]> questions) questions
    (map_to_list (questionsForMessage facts indexed.2 key)).

Definition newDecisionRequest (facts : Facts) : DecisionRequest :=
  MkDecisionRequest (newDecisionState facts)
    (foldl (add_questions facts) ∅ (imap (fun index message => (index, message)) (Messages facts))).

End request.

(** ** Reading the answers ([decider.go]) *)

Record Judgment := MkJudgment {
  Judgment_MessageID : string;
  Judgment_Addressing : AddressingDecision;
  ReactionProbability : float64;
  HasRelatesToActiveTask : bool;
  RelatesToActiveTask : bool;
  Judgment_BusyRoute : BusyRoute;
  Judgment_RememberLayer : Scope;
}.

Inductive DecideError :=
| NoMessageToDecide
| NoDecisionModel
| ModelFailed (message : string)
| MissingAnswer (key : string)
| AnsweredWithNoChoice (key : string).

Section reading.
Context `{UnicodeTables, DecisionLibrary}.

Definition knownReactionEmoji (name : string) : string :=
  let normalizedName := ToLower (TrimSpace name) in
  match find (fun emoji => bool_decide (emoji.1 = normalizedName)) reactionEmojis with
  | Some emoji => emoji.1
  | None => ""
  end.

Definition likeliest_reaction (emojiAnswer : DecisionAnswer) : float64 :=
  foldl (fun likeliest emoji => float_max likeliest (ChoiceProbability emojiAnswer emoji.1)) float_zero reactionEmojis.

Definition add_candidate (emojiAnswer : DecisionAnswer) (likeliest : float64)
    (acc : list (string * float64) * float64) (emoji : string * string) : list (string * float64) * float64 :=
  let weight := ChoiceProbability emojiAnswer emoji.1 in
  if float_le weight float_zero || float_lt weight (float_mul likeliest float_half) then acc
  else ((acc.1 ++ [(emoji.1, weight)])%list, float_add acc.2 weight).

Definition reactionCandidates (emojiAnswer : DecisionAnswer) : list (string * float64) * float64 :=
  foldl (add_candidate emojiAnswer (likeliest_reaction emojiAnswer)) ([], float_zero) reactionEmojis.

(** The loop over the candidates; [last_name] is what it ends with. *)
Fixpoint draw_candidate (threshold : float64) (candidates : list (string * float64)) (last_name : string) : string :=
  match candidates with
  | [] => last_name
  | candidate :: candidates' =>
    let threshold := float_sub threshold candidate.2 in
    if float_lt threshold float_zero then candidate.1 else draw_candidate threshold candidates' candidate.1
  end.

Definition drawReactionEmoji (emojiAnswer : DecisionAnswer) (draw : float64) : string :=
  let '(candidates, totalWeight) := reactionCandidates emojiAnswer in
  if bool_decide (candidates = []) then knownReactionEmoji (Answer_Choice emojiAnswer)
  else draw_candidate (float_mul draw totalWeight) candidates "".

Definition offeredLayer (option : string) (layers : list Scope) : Scope :=
  default no_scope (find (fun layer => bool_decide (rememberOptionOf layer = option)) layers).

(** [likeliest], [likeliestWeight] and [keepingWeight] after one more layer. *)
Definition weigh_layer (answer : DecisionAnswer) (acc : Scope * float64 * float64) (layer : Scope)
  : Scope * float64 * float64 :=
  let '(likeliest, likeliestWeight, keepingWeight) := acc in
  let weight := ChoiceProbability answer (rememberOptionOf layer) in
  if float_lt likeliestWeight weight then (layer, weight, float_add keepingWeight weight)
  else (likeliest, likeliestWeight, float_add keepingWeight weight).

Definition readRememberLayer (answer : DecisionAnswer) (layers : list Scope) : Scope :=
  if negb (HasProbabilities answer) then offeredLayer (TrimSpace (Answer_Choice answer)) layers else
  let '(likeliest, _, keepingWeight) := foldl (weigh_layer answer) (no_scope, float_zero, float_zero) layers in
  if float_le keepingWeight (ChoiceProbability answer RememberOptionNone) then no_scope else likeliest.

Context (answers : gmap string DecisionAnswer) (key : string).

Definition choiceAnswer (questionName : string) : result DecideError DecisionAnswer :=
  match answers !! questionKey key questionName with
  | Some answer =>
    if blank (Answer_Choice answer) then Err (AnsweredWithNoChoice (questionKey key questionName)) else Ok answer
  | None => Err (AnsweredWithNoChoice (questionKey key questionName))
  end.

Definition choice (questionName : string) : result DecideError string :=
  answer ← choiceAnswer questionName; Ok (TrimSpace (Answer_Choice answer)).

Definition readTarget (facts : Facts) : result DecideError AddressingTarget :=
  if negb (asksTarget facts) then Ok AddressingTargetBot else choice QuestionTarget.

Definition withDuty (addressing : AddressingDecision) (dutyAnswer : DecisionAnswer) : AddressingDecision :=
  match StandingDutyByName (Answer_Choice dutyAnswer) with
  | None => addressing
  | Some duty => MkAddressingDecision (Target addressing) (ShouldRespond addressing) (Work addressing)
      (ReactionEmoji addressing) true (Duty_Name duty)
      (float_min (float_max (Answer_Confidence dutyAnswer) float_zero) float_one)
  end.

(** [decider.randomSource()] for this message is [draw]. *)
Definition readAddressing (draw : float64) (facts : Facts) (message : Message)
  : result DecideError (AddressingDecision * float64) :=
  target ← readTarget facts;
  match answers !! questionKey key QuestionShouldRespond with
  | None => Err (MissingAnswer (questionKey key QuestionShouldRespond))
  | Some shouldRespondAnswer =>
    workAnswer ← choiceAnswer IntakeQuestionWork;
    reactionAnswer ← choiceAnswer QuestionReaction;
    let reactionProbability := ChoiceProbability reactionAnswer ReactionOptionReact in
    reaction ← (if float_lt (ChoiceProbability reactionAnswer ReactionOptionNone) reactionProbability
      then emojiAnswer ← choiceAnswer QuestionReactionEmoji; Ok (drawReactionEmoji emojiAnswer draw)
      else Ok "");
    let addressing := MkAddressingDecision target (IsYes shouldRespondAnswer) (ReadWork workAnswer) reaction
      false "" float_zero in
    addressing ← (if asksDuty facts message
      then dutyAnswer ← choiceAnswer QuestionDuty; Ok (withDuty addressing dutyAnswer) else Ok addressing);
    Ok ((if bool_decide (Target addressing = AddressingTargetHuman)
         then MkAddressingDecision (Target addressing) false (Work addressing) (ReactionEmoji addressing)
                (DutyMatch addressing) (DutyName addressing) (DutyConfidence addressing)
         else addressing), reactionProbability)
  end.

Definition readJudgment (draw : float64) (facts : Facts) (message : Message) : result DecideError Judgment :=
  addressed ← readAddressing draw facts message;
  let relates := if asksRelatesToActiveTask facts then answers !! questionKey key QuestionRelatesToActiveTask else None in
  busyRoute ← (if asksBusyRoute facts then choice QuestionBusyRoute else Ok "");
  rememberLayer ← (if asksRemember facts
    then rememberAnswer ← choiceAnswer QuestionRemember; Ok (readRememberLayer rememberAnswer (MemoryLayers facts))
    else Ok no_scope);
  Ok (MkJudgment (TrimSpace (Message_ID message)) addressed.1 addressed.2 (is_some relates)
    (match relates with Some relatesAnswer => IsYes relatesAnswer | None => false end) busyRoute rememberLayer).

End reading.

Section decide.
Context `{UnicodeTables, DecisionLibrary}.

(** The random source answers the message at an index with [draw index]. *)
Context (draw : nat -> float64).

Definition readJudgments (facts : Facts) (answers : gmap string DecisionAnswer) : result DecideError (list Judgment) :=
  mapM (fun indexed => readJudgment answers (messageKey indexed.1) (draw indexed.1) facts indexed.2)
    (imap (fun index message => (index, message)) (Messages facts)).

Definition decidedMessageIDs (facts : Facts) : list string :=
  (fun message => TrimSpace (Message_ID message)) <$> Messages facts.

(** [DecisionCallRecord], by what it is made from, and the IDs it is given. *)
Record LLMCallRecord := MkCallRecord {
  Call_Request : DecisionRequest;
  Call_Response : result string (gmap string DecisionAnswer);
  DecidedMessageIDs : list string;
}.

(** The records [observe] is given, and the judgments. *)
Definition Decide (decisionModel : option (DecisionRequest -> result string (gmap string DecisionAnswer)))
    (facts : Facts) : list LLMCallRecord * result DecideError (list Judgment) :=
  if bool_decide (length (Messages facts) = 0%nat) then ([], Err NoMessageToDecide) else
  let request := newDecisionRequest facts in
  if bool_decide (size (Questions request) = 0%nat) then ([], readJudgments facts ∅) else
  match decisionModel with
  | None => ([], Err NoDecisionModel)
  | Some model =>
    let response := model request in
    ([MkCallRecord request response (decidedMessageIDs facts)],
     match response with Err message => Err (ModelFailed message) | Ok answers => readJudgments facts answers end)
  end.

Definition burstRequestByteBudget : Z := 80000.

(** [document_length]: of the JSON of a request, unless it fails. *)
Definition FitsBurstBudget (document_length : DecisionRequest -> option Z) (facts : Facts) : bool :=
  match document_length (newDecisionRequest facts) with
  | Some documentLength => documentLength <=? burstRequestByteBudget
  | None => false
  end.

End decide.

(** ** What becomes of a message ([gate.go]) *)

Definition ambientDutyLaunchConfidenceThreshold : float64 := float_seven_tenths.
Definition attachmentsOnlyUninvitedReason : string := "attachments_only_uninvited".
Definition reactionOnlyReason : string := "reaction_only".
Definition rememberOnlyReason : string := "remember_only".

Record Decision := MkDecision {
  ShouldLaunch : bool;
  Decision_ReactionEmoji : string;
  IgnoreReason : string;
  AmbientDuty : AmbientDutyContext;
  DecidedWork : string;
  RememberLayer : Scope;
}.

Definition launched : Decision := MkDecision true "" "" no_duty "" no_scope.
Definition ignored (reason : string) : Decision := MkDecision false "" reason no_duty "" no_scope.

Record Request := MkRequest {
  Request_MessageID : string;
  Request_ConversationType : string;
  Request_BotMentioned : bool;
  Request_AttachmentsOnly : bool;
}.

Section gate.
Context `{UnicodeTables, DecisionLibrary}.

Definition IsIgnoredWithoutDeciding (request : Request) : bool :=
  IsMultiPersonConversation (Request_ConversationType request) && Request_AttachmentsOnly request &&
  negb (Request_BotMentioned request).

Definition ambientDutyContextFromAddressingDecision (decision : AddressingDecision) : AmbientDutyContext :=
  if negb (DutyMatch decision) || float_lt (DutyConfidence decision) ambientDutyLaunchConfidenceThreshold then no_duty
  else Normalized (MkAmbientDuty true (DutyName decision) (DutyConfidence decision)).

Definition continuesOpenWork (judgment : Judgment) : bool :=
  (HasRelatesToActiveTask judgment && RelatesToActiveTask judgment) ||
  bool_decide (Judgment_BusyRoute judgment ∈ [BusyRouteStatus; BusyRouteSteer; BusyRouteReplace; BusyRouteCancel]).

Definition asksForWork (addressing : AddressingDecision) : bool :=
  negb (bool_decide (Work addressing = "")) && negb (bool_decide (Work addressing = WorkNone)).

Definition isAskedOfTheAgent (request : Request) (addressing : AddressingDecision) : bool :=
  negb (IsMultiPersonConversation (Request_ConversationType request)) || Request_BotMentioned request ||
  bool_decide (Target addressing = AddressingTargetBot).

Definition decidedWork (judgment : Judgment) (ambientDuty : AmbientDutyContext) : string :=
  if IsMatch ambientDuty || continuesOpenWork judgment then "" else Work (Judgment_Addressing judgment).

Definition shouldLaunch (request : Request) (judgment : Judgment) (ambientDuty : AmbientDutyContext) : bool :=
  if ShouldRespond (Judgment_Addressing judgment) || IsMatch ambientDuty then true
  else isAskedOfTheAgent request (Judgment_Addressing judgment) &&
    (asksForWork (Judgment_Addressing judgment) || continuesOpenWork judgment).

(** [judgment]: what [judge] answers, if it is asked. *)
Definition Resolve {E} (request : Request) (judgment : result E Judgment) : Decision :=
  if IsIgnoredWithoutDeciding request then ignored attachmentsOnlyUninvitedReason else
  match judgment with
  | Err _ =>
    if Request_BotMentioned request || negb (IsMultiPersonConversation (Request_ConversationType request))
    then launched else ignored "addressing_decision_failed dutyMatch=false"
  | Ok judgment =>
    let addressing := Judgment_Addressing judgment in
    let ambientDuty := ambientDutyContextFromAddressingDecision addressing in
    if shouldLaunch request judgment ambientDuty
    then MkDecision true (ReactionEmoji addressing) "" ambientDuty (decidedWork judgment ambientDuty)
           (Judgment_RememberLayer judgment) else
    if negb (bool_decide (Judgment_RememberLayer judgment = no_scope))
    then MkDecision false "" rememberOnlyReason no_duty "" (Judgment_RememberLayer judgment) else
    if negb (bool_decide (ReactionEmoji addressing = ""))
    then MkDecision false (ReactionEmoji addressing) reactionOnlyReason no_duty "" no_scope
    else ignored ("addressing_" +:+ Target addressing +:+ " dutyMatch=false")
  end.

End gate.

(** ** The questions of a request *)

Lemma dot_not_in_messageKey index : "."%char ∉ bytes_of (messageKey index).
Proof.
  unfold messageKey; rewrite bytes_of_app; cbn [bytes_of list_ascii_of_string]; fold (bytes_of (Itoa (Z.of_nat index + 1))).
  intros [He%list_elem_of_singleton|He]%elem_of_app; [done|].
  pose proof (Itoa_digits (Z.of_nat index + 1) ltac:(lia)) as Hd; rewrite Forall_forall in Hd.
  by destruct (Hd _ He) as [d Hd'].
Qed.

Lemma Cut_questionKey index name : Cut (questionKey (messageKey index) name) "." = Some (messageKey index, name).
Proof. apply (Cut_at "."%char), dot_not_in_messageKey. Qed.

Lemma questionNameWithoutMessageKey_key index name :
  questionNameWithoutMessageKey (questionKey (messageKey index) name) = name.
Proof. unfold questionNameWithoutMessageKey; by rewrite Cut_questionKey. Qed.

Lemma messageKey_inj i j : messageKey i = messageKey j -> i = j.
Proof.
  unfold messageKey; intros [= He]; apply Itoa_inj in He; lia.
Qed.

(** No key is that of two questions. *)
Lemma questionKey_inj i j name name' :
  questionKey (messageKey i) name = questionKey (messageKey j) name' -> i = j /\ name = name'.
Proof.
  intros He; pose proof (f_equal (fun key => Cut key ".") He) as Hc; cbv beta in Hc.
  rewrite !Cut_questionKey in Hc; apply (inj Some), pair_equal_spec in Hc as [Hij ->].
  split; [by apply messageKey_inj|done].
Qed.

Section request_lemmas.
Context `{UnicodeTables, DecisionLibrary}.

Lemma add_questions_lookup facts questions i m k :
  add_questions facts questions (i, m) !! k =
    match list_find (fun kv => questionKey (messageKey i) kv.1 = k) (map_to_list (questionsForMessage facts m (messageKey i))) with
    | Some (_, kv) => Some kv.2
    | None => questions !! k
    end.
Proof.
  unfold add_questions; cbn [fst snd].
  pose proof (NoDup_fst_map_to_list (questionsForMessage facts m (messageKey i))) as Hnd; revert questions Hnd.
  induction (map_to_list _) as [|[n q] l IH]; intros questions Hnd; [done|]; cbn in Hnd |- *.
  apply NoDup_cons in Hnd as [Hn Hnd]; rewrite IH by done; destruct (decide (questionKey (messageKey i) n = k)) as [<-|Hne].
  - destruct (list_find _ l) as [[x [n' q']]|] eqn:Hf; [|by rewrite lookup_insert_eq].
    apply list_find_Some in Hf as (Hx & He & _); cbn in He; apply questionKey_inj in He as [_ ->].
    exfalso; apply Hn, list_elem_of_fmap; exists (n, q'); split; [done|by eapply list_elem_of_lookup_2].
  - destruct (list_find _ l) as [[x [n' q']]|]; cbn; [done|by rewrite lookup_insert_ne].
Qed.

Lemma add_questions_same facts questions i m name :
  add_questions facts questions (i, m) !! questionKey (messageKey i) name =
    match questionsForMessage facts m (messageKey i) !! name with
    | Some q => Some q
    | None => questions !! questionKey (messageKey i) name
    end.
Proof.
  rewrite add_questions_lookup; destruct (list_find _ _) as [[x [n q]]|] eqn:Hf.
  - apply list_find_Some in Hf as (Hx & He & _); cbn in He; apply questionKey_inj in He as [_ ->].
    apply list_elem_of_lookup_2, elem_of_map_to_list in Hx; by rewrite Hx.
  - destruct (_ !! name) as [q|] eqn:Hq; [|done]; apply list_find_None in Hf; rewrite Forall_forall in Hf.
    exfalso; apply (Hf (name, q)); [by apply elem_of_map_to_list|done].
Qed.

Lemma add_questions_other facts questions i m k :
  (forall name, k <> questionKey (messageKey i) name) -> add_questions facts questions (i, m) !! k = questions !! k.
Proof.
  intros Hk; rewrite add_questions_lookup; destruct (list_find _ _) as [[x [n q]]|] eqn:Hf; [|done].
  apply list_find_Some in Hf as (_ & He & _); cbn in He; by destruct (Hk n).
Qed.

Definition indexed_messages (facts : Facts) : list (nat * Message) :=
  imap (fun index message => (index, message)) (Messages facts).

Lemma indexed_messages_elem facts i m : (i, m) ∈ indexed_messages facts <-> Messages facts !! i = Some m.
Proof.
  unfold indexed_messages; rewrite list_elem_of_lookup; split.
  - intros [j Hj]; rewrite list_lookup_imap in Hj; by destruct (Messages facts !! j) eqn:E; cbn in Hj; simplify_eq.
  - intros Hm; exists i; by rewrite list_lookup_imap, Hm.
Qed.

(** The questions of a request, each under the key of its message. *)
Lemma newDecisionRequest_questions facts k q :
  Questions (newDecisionRequest facts) !! k = Some q <->
  exists i m name, Messages facts !! i = Some m /\ k = questionKey (messageKey i) name /\
    questionsForMessage facts m (messageKey i) !! name = Some q.
Proof.
  unfold newDecisionRequest; cbn [Questions]; fold (indexed_messages facts).
  transitivity (exists i m name, (i, m) ∈ indexed_messages facts /\ k = questionKey (messageKey i) name /\
    questionsForMessage facts m (messageKey i) !! name = Some q);
    [|split; intros (i & m & name & Hm & Hr); exists i, m, name; (split; [by apply indexed_messages_elem|done])].
  assert (Hnd : NoDup (indexed_messages facts).*1).
  { unfold indexed_messages; rewrite fmap_imap.
    replace (imap _ (Messages facts)) with (seq 0 (length (Messages facts))); [apply NoDup_seq|].
    apply list_eq; intros j; rewrite list_lookup_imap; destruct (Messages facts !! j) eqn:E; cbn.
    - apply lookup_lt_Some in E; rewrite lookup_seq_lt by done; by f_equal.
    - apply lookup_ge_None in E; apply lookup_seq_ge; lia. }
  revert Hnd; induction (indexed_messages facts) as [|[i m] l IH] using rev_ind; intros Hnd.
  { cbn; rewrite lookup_empty; split; [done|]; by intros (i & m & name & ?%elem_of_nil & _). }
  rewrite foldl_app; cbn [foldl]; rewrite fmap_app in Hnd; apply NoDup_app in Hnd as (Hl & Hi & _); specialize (IH Hl).
  assert (Hother : forall j m' name, (j, m') ∈ l -> k = questionKey (messageKey j) name ->
    forall name', k <> questionKey (messageKey i) name').
  { intros j m' name Hj -> name' [-> _]%questionKey_inj; apply (Hi i); [|by left].
    apply list_elem_of_fmap; by exists (i, m'). }
  split.
  - intros Hq; destruct (list_find (fun kv => questionKey (messageKey i) kv.1 = k)
      (map_to_list (questionsForMessage facts m (messageKey i)))) as [[x [name q']]|] eqn:Hf.
    + rewrite add_questions_lookup, Hf in Hq; cbn in Hq; injection Hq as <-.
      apply list_find_Some in Hf as (Hx & He & _); apply list_elem_of_lookup_2, elem_of_map_to_list in Hx.
      exists i, m, name; split_and!; [apply elem_of_app; right; by left|done|done].
    + rewrite add_questions_lookup, Hf in Hq; apply IH in Hq as (j & m' & name & Hj & Hr).
      exists j, m', name; split; [apply elem_of_app; by left|done].
  - intros (j & m' & name & [Hj|Hj%list_elem_of_singleton]%elem_of_app & Hk & Hq).
    + rewrite add_questions_other by (by eapply Hother); apply IH; by exists j, m', name.
    + injection Hj as -> ->; subst k; by rewrite add_questions_same, Hq.
Qed.

End request_lemmas.

(** ** Which answers a judgment needs *)

Section needed.
Context `{UnicodeTables, DecisionLibrary}.

Definition chosen (answers : gmap string DecisionAnswer) (key name : string) : Prop :=
  exists answer, answers !! questionKey key name = Some answer /\ blank (Answer_Choice answer) = false.

Definition reacts (answers : gmap string DecisionAnswer) (key : string) : bool :=
  match answers !! questionKey key QuestionReaction with
  | Some answer => float_lt (ChoiceProbability answer ReactionOptionNone) (ChoiceProbability answer ReactionOptionReact)
  | None => false
  end.

Definition when (asks : bool) (name : string) : list string := if asks then [name] else [].

(** The choices that have to be made about a message. *)
Definition needed_choices (facts : Facts) (answers : gmap string DecisionAnswer) (m : Message) (key : string)
  : list string :=
  (when (asksTarget facts) QuestionTarget ++ [IntakeQuestionWork; QuestionReaction] ++
   when (reacts answers key) QuestionReactionEmoji ++ when (asksDuty facts m) QuestionDuty ++
   when (asksBusyRoute facts) QuestionBusyRoute ++ when (asksRemember facts) QuestionRemember)%list.

Definition well_answered (facts : Facts) (answers : gmap string DecisionAnswer) (m : Message) (key : string) : Prop :=
  is_Some (answers !! questionKey key QuestionShouldRespond) /\
  forall name, name ∈ needed_choices facts answers m key -> chosen answers key name.

Lemma choiceAnswer_Ok answers key name a :
  choiceAnswer answers key name = Ok a <-> answers !! questionKey key name = Some a /\ blank (Answer_Choice a) = false.
Proof.
  unfold choiceAnswer; destruct (answers !! _) as [b|]; [|split; [done|by intros []]].
  destruct (blank (Answer_Choice b)) eqn:Hb; split; [done|intros [[= ->] ?]; congruence|by intros [= ->]|by intros [[= ->] _]].
Qed.

Lemma choiceAnswer_chosen answers key name :
  (exists a, choiceAnswer answers key name = Ok a) <-> chosen answers key name.
Proof. split; intros [a Ha]; exists a; by apply choiceAnswer_Ok. Qed.

Lemma when_elem (b : bool) n name : name ∈ when b n <-> b = true /\ name = n.
Proof. unfold when; destruct b; rewrite ?list_elem_of_singleton, ?elem_of_nil; intuition congruence. Qed.

(** One optional step of the reader. *)
Lemma optional_read {A} answers key (b : bool) name (f : DecisionAnswer -> A) (d : A) :
  (exists r, (if b then a ← choiceAnswer answers key name; Ok (f a) else Ok d) = Ok r) <->
  (b = true -> chosen answers key name).
Proof.
  destruct b; [|split; [done|eauto]].
  rewrite <- choiceAnswer_chosen; destruct (choiceAnswer _ _ _) as [a|e]; cbn; split; intros Hr; eauto;
    [by destruct Hr|by destruct (Hr eq_refl)].
Qed.

Lemma readAddressing_Ok answers key draw facts m :
  (exists r, readAddressing answers key draw facts m = Ok r) <->
  (asksTarget facts = true -> chosen answers key QuestionTarget) /\
  is_Some (answers !! questionKey key QuestionShouldRespond) /\ chosen answers key IntakeQuestionWork /\
  chosen answers key QuestionReaction /\ (reacts answers key = true -> chosen answers key QuestionReactionEmoji) /\
  (asksDuty facts m = true -> chosen answers key QuestionDuty).
Proof.
  unfold readAddressing, readTarget, choice.
  rewrite <- (optional_read answers key (asksTarget facts) QuestionTarget (fun a => TrimSpace (Answer_Choice a)) AddressingTargetBot).
  replace (if negb (asksTarget facts) then Ok AddressingTargetBot else _)
    with (if asksTarget facts then a ← choiceAnswer answers key QuestionTarget; Ok (TrimSpace (Answer_Choice a)) else Ok AddressingTargetBot)
    by (by destruct (asksTarget facts)).
  destruct (if asksTarget facts then _ else _) as [target|e]; cbn [mbind result_mbind];
    [|split; [by intros []|by intros [[] _]]].
  destruct (answers !! questionKey key QuestionShouldRespond) as [respond|];
    [|split; [by intros []|by intros (_ & [] & _)]].
  rewrite <- (choiceAnswer_chosen answers key IntakeQuestionWork), <- (choiceAnswer_chosen answers key QuestionReaction).
  destruct (choiceAnswer answers key IntakeQuestionWork) as [work|e]; cbn [mbind result_mbind];
    [|split; [by intros []|by intros (_ & _ & [] & _)]].
  destruct (choiceAnswer answers key QuestionReaction) as [reaction|e] eqn:Hreaction; cbn [mbind result_mbind];
    [|split; [by intros []|by intros (_ & _ & _ & [] & _)]].
  assert (Hreacts : reacts answers key =
    float_lt (ChoiceProbability reaction ReactionOptionNone) (ChoiceProbability reaction ReactionOptionReact)).
  { apply choiceAnswer_Ok in Hreaction as [Hr _]; unfold reacts; by rewrite Hr. }
  rewrite <- Hreacts, <- (optional_read answers key (reacts answers key) QuestionReactionEmoji
    (fun a => drawReactionEmoji a draw) "").
  destruct (if reacts answers key then _ else _) as [emoji|e]; cbn [mbind result_mbind];
    [|split; [by intros []|by intros (_ & _ & _ & _ & [] & _)]].
  set (addressing := MkAddressingDecision _ _ _ _ _ _ _).
  rewrite <- (optional_read answers key (asksDuty facts m) QuestionDuty (withDuty addressing) addressing).
  destruct (if asksDuty facts m then _ else _) as [r|e]; cbn [mbind result_mbind]; [|split; [by intros []|]].
  - split; [intros _; split_and!; eauto|intros _; eauto].
  - by intros (_ & _ & _ & _ & _ & []).
Qed.

Lemma needed_elem facts answers m key name :
  name ∈ needed_choices facts answers m key <->
  (asksTarget facts = true /\ name = QuestionTarget) \/ (name = IntakeQuestionWork \/ name = QuestionReaction) \/
  (reacts answers key = true /\ name = QuestionReactionEmoji) \/ (asksDuty facts m = true /\ name = QuestionDuty) \/
  (asksBusyRoute facts = true /\ name = QuestionBusyRoute) \/ (asksRemember facts = true /\ name = QuestionRemember).
Proof. unfold needed_choices; by rewrite !elem_of_app, !when_elem, elem_of_cons, list_elem_of_singleton. Qed.

Lemma readJudgment_Ok answers key draw facts m :
  (exists r, readJudgment answers key draw facts m = Ok r) <-> well_answered facts answers m key.
Proof.
  assert (Hwell : well_answered facts answers m key <->
    (exists r, readAddressing answers key draw facts m = Ok r) /\
    (asksBusyRoute facts = true -> chosen answers key QuestionBusyRoute) /\
    (asksRemember facts = true -> chosen answers key QuestionRemember)).
  { rewrite readAddressing_Ok; unfold well_answered; split.
    - intros [Hr Hn]; split_and!; try done; try (intros Hasks); apply Hn, needed_elem;
        [left|right; left; left|right; left; right|do 2 right; left|do 3 right; left|do 4 right; left|do 5 right]; done.
    - intros ((Ht & Hr & Hw & Hre & He & Hd) & Hb & Hm); split; [done|].
      intros name [[? ->]|[[->| ->]|[[? ->]|[[? ->]|[[? ->]|[? ->]]]]]]%needed_elem; auto. }
  rewrite Hwell; unfold readJudgment, choice.
  destruct (readAddressing answers key draw facts m) as [addressed|e]; cbn [mbind result_mbind];
    [|split; [by intros []|by intros [[] _]]].
  rewrite <- (optional_read answers key (asksBusyRoute facts) QuestionBusyRoute (fun a => TrimSpace (Answer_Choice a)) "").
  destruct (if asksBusyRoute facts then _ else _) as [busyRoute|e]; cbn [mbind result_mbind];
    [|split; [by intros []|by intros (_ & [] & _)]].
  rewrite <- (optional_read answers key (asksRemember facts) QuestionRemember
    (fun a => readRememberLayer a (MemoryLayers facts)) no_scope).
  destruct (if asksRemember facts then _ else _) as [layer|e]; cbn [mbind result_mbind];
    [|split; [by intros []|by intros (_ & _ & [])]].
  split; [intros _; split_and!; eauto|intros _; eauto].
Qed.

Lemma readJudgments_Ok draw facts answers :
  (exists js, readJudgments draw facts answers = Ok js) <->
  forall i m, Messages facts !! i = Some m -> well_answered facts answers m (messageKey i).
Proof.
  unfold readJudgments; fold (indexed_messages facts); rewrite mapM_is_Ok; split.
  - intros Hl i m Hm; apply (readJudgment_Ok answers _ (draw i)).
    by apply (Hl (i, m)), indexed_messages_elem.
  - intros Hl [i m] Hm%indexed_messages_elem; by apply readJudgment_Ok, Hl.
Qed.

(** The judgment at an index is read from the answers under its key. *)
Lemma readJudgments_lookup draw facts answers js i :
  readJudgments draw facts answers = Ok js ->
  match Messages facts !! i with
  | Some m => exists j, js !! i = Some j /\ readJudgment answers (messageKey i) (draw i) facts m = Ok j
  | None => js !! i = None
  end.
Proof.
  unfold readJudgments; intros Hjs%mapM_Ok; destruct (Messages facts !! i) as [m|] eqn:Hm.
  - destruct (Forall2_lookup_l _ _ _ i (i, m) Hjs) as (j & Hj & Hr); [by rewrite list_lookup_imap, Hm|eauto].
  - apply lookup_ge_None in Hm; apply lookup_ge_None; apply Forall2_length in Hjs; rewrite length_imap in Hjs; lia.
Qed.

Lemma readJudgment_ID answers key draw facts m j :
  readJudgment answers key draw facts m = Ok j -> Judgment_MessageID j = TrimSpace (Message_ID m).
Proof. unfold readJudgment; intros (a & _ & (b & _ & (r & _ & [= <-])%bind_Ok)%bind_Ok)%bind_Ok; done. Qed.

Lemma readJudgments_IDs draw facts answers js :
  readJudgments draw facts answers = Ok js -> Judgment_MessageID <$> js = decidedMessageIDs facts.
Proof.
  intros Hjs; apply list_eq; intros i; unfold decidedMessageIDs; rewrite !list_lookup_fmap.
  pose proof (readJudgments_lookup draw facts answers js i Hjs) as Hi.
  destruct (Messages facts !! i) as [m|]; [|by rewrite Hi].
  destruct Hi as (j & -> & Hj); cbn; by rewrite (readJudgment_ID _ _ _ _ _ _ Hj).
Qed.

(** ** The choices needed are asked for *)

Lemma asked_if_lookup b name q questions name' :
  is_Some (asked_if b name q questions !! name') <-> (b = true /\ name' = name) \/ is_Some (questions !! name').
Proof.
  unfold asked_if; destruct b; [|intuition congruence].
  destruct (decide (name' = name)) as [->|Hne]; [rewrite lookup_insert_eq|rewrite lookup_insert_ne by done];
    intuition (eauto || congruence).
Qed.

Lemma addressingQuestions_dom about agentName name :
  is_Some (addressingQuestions about agentName !! name) <->
  name ∈ [IntakeQuestionWork; QuestionShouldRespond; QuestionReaction; QuestionReactionEmoji].
Proof. unfold addressingQuestions; rewrite <- elem_of_dom, dom_list_to_map_L, elem_of_list_to_set; done. Qed.

Lemma questionsForMessage_dom facts m key name :
  is_Some (questionsForMessage facts m key !! name) <->
  (asksRemember facts = true /\ name = QuestionRemember) \/ (asksBusyRoute facts = true /\ name = QuestionBusyRoute) \/
  (asksRelatesToActiveTask facts = true /\ name = QuestionRelatesToActiveTask) \/
  (asksDuty facts m = true /\ name = QuestionDuty) \/ (asksTarget facts = true /\ name = QuestionTarget) \/
  name ∈ [IntakeQuestionWork; QuestionShouldRespond; QuestionReaction; QuestionReactionEmoji].
Proof. unfold questionsForMessage; cbv zeta; by rewrite !asked_if_lookup, addressingQuestions_dom. Qed.

Lemma questionsForMessage_gateway facts m key name :
  is_Some (questionsForMessage facts m key !! name) -> name ∈ gatewayQuestionNames.
Proof.
  rewrite questionsForMessage_dom; unfold gatewayQuestionNames.
  intros [[_ ->]|[[_ ->]|[[_ ->]|[[_ ->]|[[_ ->]|Hn]]]]]; rewrite !elem_of_cons in *; [do 8 right; by left|do 7 right; by left
    |do 6 right; by left|do 5 right; by left|by left|].
  destruct Hn as [->|[->|[->|[->|Hn%elem_of_nil]]]]; [do 2 right; by left|right; by left|do 3 right; by left
    |do 4 right; by left|done].
Qed.

Lemma needed_asked facts answers m key name :
  name ∈ QuestionShouldRespond :: needed_choices facts answers m key -> is_Some (questionsForMessage facts m key !! name).
Proof.
  rewrite questionsForMessage_dom, elem_of_cons, needed_elem, !elem_of_cons.
  intros [->|[?|[[->| ->]|[[_ ->]|[?|[?|?]]]]]]; [do 5 right; right; by left|do 4 right; by left|do 5 right; by left
    |do 7 right; by left|do 8 right; by left|do 3 right; by left|right; by left|by left].
Qed.

End needed.

(** ** What a judgment may say *)

Section judged.
Context `{UnicodeTables, DecisionLibrary}.

Lemma readJudgment_local answers answers' key draw facts m :
  (forall name, answers !! questionKey key name = answers' !! questionKey key name) ->
  readJudgment answers key draw facts m = readJudgment answers' key draw facts m.
Proof.
  intros Hl.
  assert (Hc : forall name, choiceAnswer answers key name = choiceAnswer answers' key name)
    by (intros name; unfold choiceAnswer; by rewrite Hl).
  unfold readJudgment, readAddressing, readTarget, choice; rewrite !Hl, !Hc.
  by destruct (if negb (asksTarget facts) then _ else _).
Qed.

Lemma draw_candidate_elem threshold candidates last_name :
  candidates <> [] -> exists weight, (draw_candidate threshold candidates last_name, weight) ∈ candidates.
Proof.
  revert threshold last_name; induction candidates as [|[n w] l IH]; intros threshold last_name Hne; [done|]; cbn.
  destruct (float_lt _ _); [exists w; by left|].
  destruct (decide (l = [])) as [->|Hl]; [exists w; by left|].
  destruct (IH (float_sub threshold w) n Hl) as [w' Hw']; exists w'; by right.
Qed.

(** An emoji that may be drawn: its probability is positive, and at least half of the likeliest's. *)
Definition likely_reaction (answer : DecisionAnswer) (name : string) : Prop :=
  name ∈ reactionEmojis.*1 /\ float_le (ChoiceProbability answer name) float_zero = false /\
  float_lt (ChoiceProbability answer name) (float_mul (likeliest_reaction answer) float_half) = false.

Lemma reactionCandidates_elem answer name weight :
  (name, weight) ∈ (reactionCandidates answer).1 <-> likely_reaction answer name /\ weight = ChoiceProbability answer name.
Proof.
  unfold reactionCandidates, likely_reaction; generalize (likeliest_reaction answer) as likeliest; intros likeliest.
  assert (Hfold : forall emojis acc, (name, weight) ∈ (foldl (add_candidate answer likeliest) acc emojis).1 <->
    (name, weight) ∈ acc.1 \/ (name ∈ emojis.*1 /\ float_le (ChoiceProbability answer name) float_zero = false /\
      float_lt (ChoiceProbability answer name) (float_mul likeliest float_half) = false) /\
      weight = ChoiceProbability answer name).
  { intros emojis; induction emojis as [|[n d] l IH]; intros acc; cbn [foldl fmap list_fmap].
    - split; [by left|by intros [?|[[?%elem_of_nil _] _]]].
    - rewrite IH; clear IH; unfold add_candidate; cbn [fst].
      rewrite elem_of_cons; destruct (float_le (ChoiceProbability answer n) float_zero) eqn:H1; cbn [orb];
        [|destruct (float_lt (ChoiceProbability answer n) _) eqn:H2]; cbn [fst];
        rewrite ?elem_of_app, ?list_elem_of_singleton; intuition (subst; try congruence; auto). }
  rewrite Hfold; cbn [fst]; rewrite elem_of_nil; tauto.
Qed.

Lemma knownReactionEmoji_known name : knownReactionEmoji name = "" \/ knownReactionEmoji name ∈ reactionEmojis.*1.
Proof.
  unfold knownReactionEmoji; destruct (find _ reactionEmojis) as [emoji|] eqn:Hf; [right|by left].
  apply find_some in Hf as [Hin _]; apply list_elem_of_fmap; exists emoji; split; [done|by apply list_elem_of_In].
Qed.

(** A drawn reaction is a likely one, whatever the draw; without any weights it is the
    choice of the model, where that is a known emoji. *)
Lemma drawReactionEmoji_likely answer draw :
  let emoji := drawReactionEmoji answer draw in
  (exists name, likely_reaction answer name) /\ likely_reaction answer emoji \/
  (forall name, ~ likely_reaction answer name) /\ emoji = knownReactionEmoji (Answer_Choice answer).
Proof.
  unfold drawReactionEmoji; pose proof (reactionCandidates_elem answer) as Hc.
  destruct (reactionCandidates answer) as [candidates total]; cbn [fst] in Hc |- *; case_bool_decide as Hl.
  - right; split; [|done]; intros name Hn; subst candidates.
    apply (not_elem_of_nil (name, ChoiceProbability answer name)), Hc; done.
  - destruct (draw_candidate_elem (float_mul draw total) candidates "" Hl) as [w Hw]; apply Hc in Hw as [Hw _].
    left; split; [by eexists|done].
Qed.

Lemma drawReactionEmoji_known answer draw :
  drawReactionEmoji answer draw = "" \/ drawReactionEmoji answer draw ∈ reactionEmojis.*1.
Proof.
  destruct (drawReactionEmoji_likely answer draw) as [[_ [Hk _]]|[_ ->]]; [by right|apply knownReactionEmoji_known].
Qed.

Lemma offeredLayer_offered option layers :
  offeredLayer option layers = no_scope \/ (offeredLayer option layers ∈ layers /\ rememberOptionOf (offeredLayer option layers) = option).
Proof.
  unfold offeredLayer; destruct (find _ layers) as [layer|] eqn:Hf; [right|by left].
  apply find_some in Hf as [Hin Ho]; split; [by apply list_elem_of_In|by apply bool_decide_eq_true in Ho].
Qed.

Lemma readRememberLayer_offered answer layers :
  readRememberLayer answer layers = no_scope \/ readRememberLayer answer layers ∈ layers.
Proof.
  unfold readRememberLayer; destruct (HasProbabilities answer); cbn [negb];
    [|destruct (offeredLayer_offered (TrimSpace (Answer_Choice answer)) layers) as [?|[? _]]; [by left|by right]].
  assert (Hfold : forall ls acc, let '(likeliest, _, _) := foldl (weigh_layer answer) acc ls in
    likeliest = acc.1.1 \/ likeliest ∈ ls).
  { intros ls; induction ls as [|l ls IH]; intros [[best w] k]; cbn [foldl fst]; [by left|].
    unfold weigh_layer at 2; destruct (float_lt _ _); specialize (IH (l, ChoiceProbability answer (rememberOptionOf l),
      float_add k (ChoiceProbability answer (rememberOptionOf l)))) as IH1;
      specialize (IH (best, w, float_add k (ChoiceProbability answer (rememberOptionOf l)))) as IH2; cbn [fst] in IH1, IH2;
      [destruct (foldl _ (l, _, _) ls) as [[b ?] ?]; destruct IH1 as [->|?]; right; [by left|by right]
      |destruct (foldl _ (best, _, _) ls) as [[b ?] ?]; destruct IH2 as [->|?]; [by left|right; by right]]. }
  specialize (Hfold layers (no_scope, float_zero, float_zero)); destruct (foldl _ _ layers) as [[best w] k].
  destruct (float_le k _); [by left|]; destruct Hfold as [->|?]; [by left|by right].
Qed.

Lemma StandingDutyByName_Some name duty : StandingDutyByName name = Some duty -> duty ∈ standingDuties /\ Duty_Name duty = TrimSpace name.
Proof.
  unfold StandingDutyByName; intros [Hin Hn]%find_some; split; [by apply list_elem_of_In|by apply bool_decide_eq_true in Hn].
Qed.

(** What a judgment about a message may say. *)
Definition within_the_offer (facts : Facts) (m : Message) (j : Judgment) : Prop :=
  let addressing := Judgment_Addressing j in
  (Judgment_RememberLayer j = no_scope \/ Judgment_RememberLayer j ∈ MemoryLayers facts) /\
  (ReactionEmoji addressing = "" \/ ReactionEmoji addressing ∈ reactionEmojis.*1) /\
  (DutyMatch addressing = true -> asksDuty facts m = true /\ DutyName addressing ∈ Duty_Name <$> standingDuties) /\
  (is_nan (DutyConfidence addressing) = false ->
    float_le float_zero (DutyConfidence addressing) = true /\ float_le (DutyConfidence addressing) float_one = true) /\
  (Target addressing = AddressingTargetHuman -> ShouldRespond addressing = false) /\
  (isChannel facts = false -> Target addressing = AddressingTargetBot) /\
  (OpenTask facts = None -> Judgment_BusyRoute j = "") /\
  (HasRelatesToActiveTask j = true -> is_Some (OpenTask facts) \/ is_Some (FinishedTask facts)).

Lemma withDuty_fields addressing answer :
  Target (withDuty addressing answer) = Target addressing /\
  ReactionEmoji (withDuty addressing answer) = ReactionEmoji addressing /\
  ShouldRespond (withDuty addressing answer) = ShouldRespond addressing.
Proof. unfold withDuty; by destruct (StandingDutyByName _). Qed.

Lemma readAddressing_within answers key draw facts m addressing p :
  readAddressing answers key draw facts m = Ok (addressing, p) ->
  (ReactionEmoji addressing = "" \/ ReactionEmoji addressing ∈ reactionEmojis.*1) /\
  (DutyMatch addressing = true -> asksDuty facts m = true /\ DutyName addressing ∈ Duty_Name <$> standingDuties) /\
  (is_nan (DutyConfidence addressing) = false ->
    float_le float_zero (DutyConfidence addressing) = true /\ float_le (DutyConfidence addressing) float_one = true) /\
  (Target addressing = AddressingTargetHuman -> ShouldRespond addressing = false) /\
  (isChannel facts = false -> Target addressing = AddressingTargetBot).
Proof.
  unfold readAddressing; intros (target & Ht & Hr)%bind_Ok; destruct (answers !! _) as [respond|]; [|done].
  apply bind_Ok in Hr as (work & _ & (reaction & _ & (emoji & He & (a & Ha & [= <- _])%bind_Ok)%bind_Ok)%bind_Ok).
  assert (Htarget : isChannel facts = false -> target = AddressingTargetBot).
  { intros Hc; unfold readTarget, asksTarget in Ht; rewrite Hc in Ht; by injection Ht as <-. }
  assert (Hemoji : emoji = "" \/ emoji ∈ reactionEmojis.*1).
  { destruct (float_lt _ _); [|injection He as <-; by left].
    apply bind_Ok in He as (ea & _ & [= <-]); apply drawReactionEmoji_known. }
  set (plain := MkAddressingDecision target (IsYes respond) (ReadWork work) emoji false "" float_zero) in Ha.
  assert (Hduty : Target a = target /\ ReactionEmoji a = emoji /\
    (DutyMatch a = true -> asksDuty facts m = true /\ DutyName a ∈ Duty_Name <$> standingDuties) /\
    (is_nan (DutyConfidence a) = false ->
      float_le float_zero (DutyConfidence a) = true /\ float_le (DutyConfidence a) float_one = true)).
  { destruct (asksDuty facts m) eqn:Hasks; [|injection Ha as <-; split_and!; done].
    apply bind_Ok in Ha as (da & _ & [= <-]); destruct (withDuty_fields plain da) as (-> & -> & _).
    split_and!; [done|done|..]; unfold withDuty; destruct (StandingDutyByName (Answer_Choice da)) as [duty|] eqn:Hd; try done;
      cbn [DutyMatch DutyName DutyConfidence].
    - intros _; split; [done|]; apply StandingDutyByName_Some in Hd as [Hd _]; by apply list_elem_of_fmap_2.
    - intros Hn; destruct (clamp_bounds float_zero float_one (Answer_Confidence da) eq_refl eq_refl eq_refl) as [Hnan Hb].
      unfold clamp in Hnan, Hb; rewrite Hnan in Hn; by apply Hb. }
  destruct Hduty as (HT & HE & HD & HC); rewrite <- HT in Htarget; rewrite <- HE in Hemoji.
  case_bool_decide as Hh; cbn [Target ShouldRespond ReactionEmoji DutyMatch DutyName DutyConfidence]; split_and!; done.
Qed.

Lemma readJudgment_within answers key draw facts m j :
  readJudgment answers key draw facts m = Ok j -> within_the_offer facts m j.
Proof.
  unfold readJudgment; intros ([addressing p] & Ha & (route & Hb & (layer & Hl & [= <-])%bind_Ok)%bind_Ok)%bind_Ok.
  apply readAddressing_within in Ha as (He & Hd & Hc & Ht & Hi); unfold within_the_offer; cbn.
  split_and!; try done.
  - destruct (asksRemember facts); [|injection Hl as <-; by left].
    apply bind_Ok in Hl as (ra & _ & [= <-]); apply readRememberLayer_offered.
  - intros Ho; unfold asksBusyRoute in Hb; rewrite Ho in Hb; by injection Hb.
  - unfold asksRelatesToActiveTask; destruct (OpenTask facts), (FinishedTask facts); cbn; eauto; done.
Qed.

End judged.

(** ** The properties *)

(** A request about at least one message asks only the gateway's questions, among
    them every choice a judgment may need; the model is asked once.  There is a
    judgment for each message, in their order, exactly when every message has what it
    needs answered; otherwise there is an error and no judgment at all. *)
Theorem Decide_judges_every_message `{UnicodeTables, DecisionLibrary} draw model facts :
  Messages facts <> [] ->
  let request := newDecisionRequest facts in
  let '(records, judged) := Decide draw (Some model) facts in
  records = [MkCallRecord request (model request) (decidedMessageIDs facts)] /\
  AsksOnlyGatewayQuestions (Questions request) = true /\
  (forall answers i m name, Messages facts !! i = Some m ->
    name ∈ QuestionShouldRespond :: needed_choices facts answers m (messageKey i) ->
    is_Some (Questions request !! questionKey (messageKey i) name)) /\
  (is_ok judged = true <->
    exists answers, model request = Ok answers /\
      forall i m, Messages facts !! i = Some m -> well_answered facts answers m (messageKey i)) /\
  (forall js, judged = Ok js -> Judgment_MessageID <$> js = decidedMessageIDs facts).
Proof.
  intros Hne request; destruct (Messages facts) as [|m0 ms] eqn:Hms; [done|]; unfold Decide; cbv zeta; fold request.
  rewrite bool_decide_false by (by rewrite Hms).
  assert (Hneeded : forall answers i m name, Messages facts !! i = Some m ->
    name ∈ QuestionShouldRespond :: needed_choices facts answers m (messageKey i) ->
    is_Some (Questions request !! questionKey (messageKey i) name)).
  { intros answers i m name Hm [q Hq]%needed_asked; exists q; apply newDecisionRequest_questions; by exists i, m, name. }
  assert (Hsize : size (Questions request) <> 0%nat).
  { destruct (Hneeded ∅ 0%nat m0 QuestionShouldRespond) as [q Hq]; [by rewrite Hms|by left|].
    intros Hs; apply map_size_empty_iff in Hs; by rewrite Hs, lookup_empty in Hq. }
  rewrite bool_decide_false by done; split; [done|]; split_and!.
  - unfold AsksOnlyGatewayQuestions; rewrite (bool_decide_false (size _ = _)) by done; rewrite andb_true_r.
    apply forallb_elem_of; intros [k q] Hq%elem_of_map_to_list; apply bool_decide_eq_true; cbn [fst].
    apply newDecisionRequest_questions in Hq as (i & m & name & _ & -> & Hq).
    rewrite questionNameWithoutMessageKey_key; eapply questionsForMessage_gateway; by eexists.
  - rewrite <- Hms; exact Hneeded.
  - destruct (model request) as [answers|e] eqn:Hm; [|split; [done|by intros (? & [=] & _)]].
    rewrite <- Hms, is_ok_true, readJudgments_Ok; split; [eauto|by intros (a & [= <-] & ?)].
  - intros js Hjs; destruct (model request) as [answers|e]; [by eapply readJudgments_IDs|done].
Qed.

(** An answer about one message is never read for another: with any other answer under a
    key of message [j], or an additional one, the judgment of message [i] stays as it was. *)
Theorem answers_stay_with_their_message `{UnicodeTables, DecisionLibrary} draw facts answers i j name answer js js' :
  i <> j ->
  readJudgments draw facts answers = Ok js ->
  readJudgments draw facts (<[questionKey (messageKey j) name := answer]> answers) = Ok js' ->
  js !! i = js' !! i.
Proof.
  intros Hij Hjs Hjs'; pose proof (readJudgments_lookup _ _ _ _ i Hjs) as Hi; pose proof (readJudgments_lookup _ _ _ _ i Hjs') as Hi'.
  destruct (Messages facts !! i) as [m|]; [|congruence].
  destruct Hi as (r & -> & Hr), Hi' as (r' & -> & Hr'); f_equal; apply (Ok_inj (E := DecideError)).
  rewrite <- Hr, <- Hr'; apply readJudgment_local; intros n; rewrite lookup_insert_ne; [done|].
  intros [? _]%questionKey_inj; congruence.
Qed.

(** C32. A judgment keeps to what was asked: a note goes to a layer that was offered, a
    reaction is a known emoji, a duty is a standing one and only matches a message of a
    channel that does not mention the agent, a confidence is between 0 and 1, a message
    directed at a person is not answered, and a busy route or a relation to a task is
    there only with such a task. *)
Theorem judgments_stay_within_the_offer `{UnicodeTables, DecisionLibrary} draw model facts js :
  (Decide draw model facts).2 = Ok js ->
  length js = length (Messages facts) /\
  forall i m j, Messages facts !! i = Some m -> js !! i = Some j -> within_the_offer facts m j.
Proof.
  intros Hd; assert (Hread : exists answers, readJudgments draw facts answers = Ok js).
  { revert Hd; unfold Decide; case_bool_decide; [done|]; case_bool_decide; [by exists ∅|].
    destruct model as [model|]; [|done]; cbn; destruct (model _) as [answers|]; [by exists answers|done]. }
  destruct Hread as [answers Hread]; split.
  - apply readJudgments_IDs in Hread; apply (f_equal length) in Hread.
    unfold decidedMessageIDs in Hread; by rewrite !length_fmap in Hread.
  - intros i m j Hm Hj; pose proof (readJudgments_lookup _ _ _ _ i Hread) as Hi; rewrite Hm, Hj in Hi.
    destruct Hi as (j' & [= <-] & Hr); by eapply readJudgment_within.
Qed.

(** C27. Work between other people is left alone: in a channel, a message that does not
    mention the agent and is directed at another person (or at nobody in particular, and
    needs no reply) starts a run only for a standing duty it matches with a confidence of
    at least 0.7 - then it is no message of attachments alone, and the run is given no
    other work than that duty. *)
Theorem overheard_messages_start_duties_only `{UnicodeTables, DecisionLibrary} draw facts answers js i m j request :
  readJudgments draw facts answers = Ok js -> Messages facts !! i = Some m -> js !! i = Some j ->
  Request_ConversationType request = Facts_ConversationType facts ->
  Request_BotMentioned request = Message_BotMentioned m ->
  isChannel facts = true -> Message_BotMentioned m = false ->
  let addressing := Judgment_Addressing j in
  Target addressing = AddressingTargetHuman \/
    (Target addressing <> AddressingTargetBot /\ ShouldRespond addressing = false) ->
  let decision := Resolve request (@Ok DecideError _ j) in
  (ShouldLaunch decision = true <->
    Request_AttachmentsOnly request = false /\ DutyMatch addressing = true /\
    float_lt (DutyConfidence addressing) ambientDutyLaunchConfidenceThreshold = false) /\
  (ShouldLaunch decision = true ->
    IsMatch (AmbientDuty decision) = true /\ is_Some (StandingDutyByName (Name (AmbientDuty decision))) /\
    DecidedWork decision = "").
Proof.
  intros Hjs Hm Hj Htype Hmention Hchannel Hnot addressing Htarget decision.
  pose proof (readJudgments_lookup _ _ _ _ i Hjs) as Hi; rewrite Hm, Hj in Hi; destruct Hi as (j' & [= <-] & Hr).
  apply readJudgment_within in Hr as (_ & _ & Hduty & _ & Hhuman & _); fold addressing in Hduty, Hhuman.
  assert (Hrespond : ShouldRespond addressing = false) by (destruct Htarget as [?|[_ ?]]; [by apply Hhuman|done]).
  assert (Hbot : Target addressing <> AddressingTargetBot) by (destruct Htarget as [->|[? _]]; done).
  assert (Hknown : DutyMatch addressing = true -> TrimSpace (DutyName addressing) = DutyName addressing /\
    DutyName addressing <> "" /\ is_Some (StandingDutyByName (DutyName addressing))).
  { intros [_ Hd]%Hduty; cbn in Hd; rewrite !elem_of_cons in Hd.
    destruct Hd as [->|[->|Hd%elem_of_nil]]; [split_and!; [done|done|by eexists]..|done]. }
  unfold isChannel in Hchannel; rewrite <- Htype in Hchannel.
  unfold decision, Resolve, IsIgnoredWithoutDeciding, shouldLaunch, isAskedOfTheAgent, ambientDutyContextFromAddressingDecision;
    cbv zeta; fold addressing; rewrite Hmention, Hchannel, Hnot, Hrespond; cbn [negb andb orb]; rewrite andb_true_r.
  destruct (Request_AttachmentsOnly request); [cbn; split; [split; [done|by intros [[=] _]]|done]|].
  rewrite (bool_decide_false (Target addressing = _)) by done.
  destruct (DutyMatch addressing) eqn:Hmatch; cbn [negb orb].
  2:{ cbn [IsMatch no_duty andb]; split; [split; [|by intros (_ & [=] & _)]|]; repeat split_match; done. }
  destruct (Hknown eq_refl) as (Htrim & Hne & Hs); destruct (float_lt _ _) eqn:Hconf.
  { cbn [IsMatch no_duty andb]; split; [split; [|by intros (_ & _ & [=])]|]; repeat split_match; done. }
  unfold Normalized; cbn [IsMatch Name negb orb]; rewrite Htrim, (bool_decide_false (DutyName addressing = "")) by done.
  destruct (StandingDutyByName (DutyName addressing)) as [duty|] eqn:Hsd; [|by destruct Hs].
  cbn [IsMatch]; unfold decidedWork; cbn [IsMatch orb ShouldLaunch AmbientDuty DecidedWork Name]; split; [done|]; intros _.
  split_and!; [done| |done]; rewrite Hsd; by eexists.
Qed.

(** ** A library of concrete answers *)

Record ExampleAnswer := MkExampleAnswer {
  Example_Choice : string;
  Example_Confidence : float64;
  Example_Probabilities : list (string * float64);
}.

Definition example_probability (answer : ExampleAnswer) (option : string) : float64 :=
  match find (fun kv => bool_decide (kv.1 = option)) (Example_Probabilities answer) with
  | Some kv => kv.2
  | None => float_zero
  end.

Definition example_decisions : DecisionLibrary := {|
  DecisionAnswer := ExampleAnswer;
  Answer_Choice := Example_Choice;
  Answer_Confidence := Example_Confidence;
  Probabilities := fun answer => list_to_map (Example_Probabilities answer);
  ChoiceProbability := example_probability;
  IsYes := fun answer => bool_decide (Example_Choice answer = "yes");
  DecisionQuestion := unit;
  ChoiceQuestion := fun _ _ => tt;
  NoulQuestion := fun _ _ _ => tt;
  IntakeQuestionWork := "work";
  WorkNone := "none";
  ReadWork := Example_Choice;
  WorkQuestion := fun _ _ => tt;
  FormatContextTimestamp := fun _ _ => "";
  AgentIdentity := string;
  DisplayName := fun name => name;
  MentionExample := fun name => "@" +:+ name;
|}.

Definition example_message (messageID prompt : string) (mentioned : bool) : Message :=
  MkMessage messageID prompt "Ann" "ann" mentioned zero_time [] [] false.

Definition no_visible_context : AgentVisibleContext := MkAgentContext [] false [] [] false "" "" "".

Definition channel_facts : Facts :=
  @MkFacts example_decisions [example_message "p1" "Bob, please send the deck by Friday" false;
    example_message "p2" "@agent, and what about ours?" true] "channel" no_visible_context "agent" (MkCompany "Acme" "UTC") None None
    standingDuties [CircleScope "sales"] [] zero_time.

Definition example_answers : gmap string ExampleAnswer :=
  let choose choice confidence := MkExampleAnswer choice confidence [] in
  list_to_map [
    ("m1.target", choose "human" float_one); ("m1.shouldRespond", choose "yes" float_one);
    ("m1.work", choose "none" float_one); ("m1.reaction", MkExampleAnswer "react" float_one [("react", float_seven_tenths)]);
    ("m1.reactionEmoji", MkExampleAnswer "eyes" float_one [("eyes", float_half); ("memo", float_seven_tenths)]);
    ("m1.duty", choose "team_flow_update" float_one);
    ("m1.remember", MkExampleAnswer "circle:sales" float_one [("circle:sales", float_half)]);
    ("m2.target", choose "bot" float_one); ("m2.shouldRespond", choose "yes" float_one);
    ("m2.work", choose "run" float_one); ("m2.reaction", choose "none" float_one); ("m2.remember", choose "none" float_one)].

Definition example_model : @DecisionRequest example_decisions -> result string (gmap string ExampleAnswer) :=
  fun _ => Ok example_answers.

Definition example_draw (index : nat) : float64 := float_half.

Definition example_judgments : list Judgment := [
  MkJudgment "p1" (MkAddressingDecision "human" false "none" "memo" true "team_flow_update" float_one)
    float_seven_tenths false false "" (CircleScope "sales");
  MkJudgment "p2" (MkAddressingDecision "bot" true "run" "" false "" float_zero) float_zero false false "" no_scope].

Lemma example_judged : @readJudgments ascii_tables example_decisions example_draw channel_facts example_answers = Ok example_judgments.
Proof. vm_compute; reflexivity. Qed.

Lemma example_decided : (@Decide ascii_tables example_decisions example_draw (Some example_model) channel_facts).2 = Ok example_judgments.
Proof. vm_compute; reflexivity. Qed.

Lemma Decide_judges_every_message_witness :
  let '(records, judged) := @Decide ascii_tables example_decisions example_draw (Some example_model) channel_facts in
  (exists answers, example_model (@newDecisionRequest ascii_tables example_decisions channel_facts) = Ok answers /\
    forall i m, Messages channel_facts !! i = Some m ->
      @well_answered ascii_tables example_decisions channel_facts answers m (messageKey i)) /\
  Judgment_MessageID <$> example_judgments = ["p1"; "p2"].
Proof.
  pose proof (@Decide_judges_every_message ascii_tables example_decisions example_draw example_model channel_facts ltac:(done)) as Hd.
  cbv zeta in Hd; pose proof example_decided as He; destruct (Decide _ _ _) as [records judged]; cbn [snd] in He.
  destruct Hd as (_ & _ & _ & Hok & Hids); split; [apply Hok; by rewrite He|]; by rewrite (Hids _ He).
Defined.

Lemma answers_stay_with_their_message_witness :
  exists js', @readJudgments ascii_tables example_decisions example_draw channel_facts
      (<["m2.target" := MkExampleAnswer "human" float_one []]> example_answers) = Ok js' /\
    example_judgments !! 0%nat = js' !! 0%nat.
Proof.
  destruct (@readJudgments ascii_tables example_decisions example_draw channel_facts
    (<["m2.target" := MkExampleAnswer "human" float_one []]> example_answers)) as [js'|e] eqn:Hjs';
    [exists js'; split; [done|]|vm_compute in Hjs'; discriminate Hjs'].
  apply (@answers_stay_with_their_message ascii_tables example_decisions example_draw channel_facts example_answers 0 1
    QuestionTarget (MkExampleAnswer "human" float_one []) example_judgments js'); [done|exact example_judged|exact Hjs'].
Defined.

Lemma judgments_stay_within_the_offer_witness :
  @within_the_offer ascii_tables example_decisions channel_facts (example_message "p1" "Bob, please send the deck by Friday" false)
    (MkJudgment "p1" (MkAddressingDecision "human" false "none" "memo" true "team_flow_update" float_one)
      float_seven_tenths false false "" (CircleScope "sales")).
Proof.
  destruct (@judgments_stay_within_the_offer ascii_tables example_decisions example_draw (Some example_model) channel_facts
    example_judgments example_decided) as [_ Hj].
  apply (Hj 0%nat); done.
Defined.

Lemma overheard_messages_start_duties_only_witness :
  let decision := @Resolve ascii_tables example_decisions DecideError (MkRequest "p1" "channel" false false)
    (Ok (MkJudgment "p1" (MkAddressingDecision "human" false "none" "memo" true "team_flow_update" float_one)
      float_seven_tenths false false "" (CircleScope "sales"))) in
  ShouldLaunch decision = true /\ IsMatch (AmbientDuty decision) = true /\ DecidedWork decision = "".
Proof.
  destruct (@overheard_messages_start_duties_only ascii_tables example_decisions example_draw channel_facts example_answers
    example_judgments 0 (example_message "p1" "Bob, please send the deck by Friday" false)
    (MkJudgment "p1" (MkAddressingDecision "human" false "none" "memo" true "team_flow_update" float_one)
      float_seven_tenths false false "" (CircleScope "sales")) (MkRequest "p1" "channel" false false)
    example_judged eq_refl eq_refl eq_refl eq_refl ltac:(vm_compute; reflexivity) eq_refl (or_introl eq_refl)) as [Hl Hd].
  assert (Hlaunch : ShouldLaunch (@Resolve ascii_tables example_decisions DecideError (MkRequest "p1" "channel" false false)
    (Ok (MkJudgment "p1" (MkAddressingDecision "human" false "none" "memo" true "team_flow_update" float_one)
      float_seven_tenths false false "" (CircleScope "sales")))) = true) by (apply Hl; split_and!; vm_compute; reflexivity).
  intros decision; destruct (Hd Hlaunch) as (Hm & _ & Hw); split_and!; [exact Hlaunch|exact Hm|exact Hw].
Defined.
