(* ===== verification/AskingThreads.v ===== *)
(** * Questions asked in a conversation ([connectors/ask_in_thread.go],
    [ask_in_thread_restart.go], [message_thread.go], [approval_reply.go],
    [approvalreply/reader.go], [approvalgate/reply_options.go]).

    An approval is asked for where the requester is: a question is posted in their
    conversation, and the run waits on a channel for the option they pick.  Every message
    is first offered to the threads that wait; a decision model reads it as a reply, and
    whatever is not clearly an approval declines.  The list of threads is guarded by a
    mutex, so each of its methods is one step; the threads are pointers, and what holds of
    one of them under any interleaving is proved on runs of these steps.  JSON, the model
    and the order a map is visited in are arguments. *)

From S2P Require Export ApprovalGate PendingRequests Engagement.

(** ** Reading a reply ([approvalreply/reader.go]) *)

Definition OtherOptionID : string := "other".
Definition AnswerQuestionName : string := "answer".

Definition reply_instructions : string := "The state holds a question a person was asked (postedQuestion) and their reply (reply). Which option does the reply pick? Read the reply as an answer to that question, by what the person means, in any language and any script. A reply to a question is usually brief: a word, a bit of shorthand or a single character is a full answer, and polite or friendly words around it do not change it. Choose other only when the reply does not pick any of the options.".

Definition RejectMeaning : string := "the person declines, cancels or halts the action, with or without a reason".
Definition otherMeaning : string := "the reply picks none of the options: it asks something, leaves the decision open, adds to or changes what would be done (target, recipients, content, scope, time or conditions), or is an unrelated request".
Definition allowAsAskedMeaning : string := "the person agrees to go ahead with what the question asks, however briefly or informally, alone or with thanks, politeness or a remark that leaves what would be done exactly as asked".

Definition double_quoted (s : string) : string := String double_quote (s +:+ String double_quote "").

Definition AllowMeaning (optionName : string) : string :=
  "the person agrees to go ahead with " +:+ double_quoted optionName +:+ " as asked, however briefly or informally, alone or with thanks, politeness or a remark that leaves what would be done exactly as asked".

Record Option := MkOption { Option_ID : string; Meaning : string; Option_IsDeclining : bool }.
Record Offer := MkOffer { Offer_ID : string; Offer_Name : string; Offer_IsDeclining : bool }.

Definition countAllowing (offers : list Offer) : Z :=
  foldl (fun count offer => if negb (Offer_IsDeclining offer) then count + 1 else count) 0 offers.

Definition meaningOf (offer : Offer) (isOnlyWayToGoAhead : bool) : string :=
  if Offer_IsDeclining offer then RejectMeaning else
  if isOnlyWayToGoAhead then allowAsAskedMeaning else AllowMeaning (Offer_Name offer).

Definition OptionsOf (offers : list Offer) : list Option :=
  let isOnlyWayToGoAhead := countAllowing offers =? 1 in
  map (fun offer => MkOption (Offer_ID offer) (meaningOf offer isOnlyWayToGoAhead) (Offer_IsDeclining offer)) offers.

Record Question := MkQuestion { Question_Text : string; Options : list Option }.

Definition DecliningOptionID (question : Question) : string :=
  match find Option_IsDeclining (Options question) with Some option => Option_ID option | None => "" end.

Record Reading := MkReading { ApprovedOptionID : string }.

(** [Reading{}] *)
Definition no_reading : Reading := MkReading "".

Definition IsApproval (reading : Reading) : bool := negb (bool_decide (ApprovedOptionID reading = "")).

Record readState := MkReadState { State_PostedQuestion : string; Reply : string }.

Inductive ReadError :=
| NoReplyReader
| NoReplyModel
| ReplyCarriesNoWords
| ReplyModelFailed (message : string).

Section reply.
Context `{DecisionLibrary} (visit : gmap string float64 -> list (string * float64)).

Definition readRequest (question : Question) (reply : string) : readState * gmap string DecisionQuestion :=
  (MkReadState (Question_Text question) reply,
   {[AnswerQuestionName := ChoiceQuestion reply_instructions
      (foldl (fun descriptions option => <[Option_ID option := Meaning option]> descriptions)
        {[OtherOptionID := otherMeaning]} (Options question))]}).

Definition total_probability (probabilities : gmap string float64) : float64 :=
  foldl (fun total kv => float_add total kv.2) float_zero (visit probabilities).

(** An option that is not declining, more likely than all the others together. *)
Definition outweighs (probabilities : gmap string float64) (option : Option) : bool :=
  let probability := default float_zero (probabilities !! Option_ID option) in
  negb (Option_IsDeclining option) && float_lt (float_sub (total_probability probabilities) probability) probability.

Definition approvedOption (question : Question) (probabilities : gmap string float64) : string :=
  match find (outweighs probabilities) (Options question) with Some option => Option_ID option | None => "" end.

(** [answers[AnswerQuestionName].Probabilities] *)
Definition answer_probabilities (answers : gmap string DecisionAnswer) : gmap string float64 :=
  match answers !! AnswerQuestionName with Some answer => Probabilities answer | None => ∅ end.

(** [decisionModel]: the reader's, [None] where it is nil. *)
Definition Read (decisionModel : option (readState * gmap string DecisionQuestion -> result string (gmap string DecisionAnswer)))
    (question : Question) (reply : string) : result ReadError Reading :=
  match decisionModel with
  | None => Err NoReplyModel
  | Some model =>
    let trimmedReply := TrimSpace reply in
    if bool_decide (trimmedReply = "") then Err ReplyCarriesNoWords else
    match model (readRequest question trimmedReply) with
    | Err message => Err (ReplyModelFailed message)
    | Ok answers =>
      Ok (MkReading (approvedOption question (answer_probabilities answers)))
    end
  end.

End reply.

(** ** Options ([connectors/approval_reply.go], [approvalgate/reply_options.go]) *)

Definition ApproveOptionID : string := "approve".
Definition RejectOptionID : string := "reject".

Section options.
Context `{UnicodeTables, ApprovalLibrary}.

Definition offersOf (choices : list Choice) : list Offer :=
  if bool_decide (choices = []) then [MkOffer ApproveOptionID "" false; MkOffer RejectOptionID "" true]
  else map (fun replyOption => MkOffer replyOption.1 replyOption.2 (bool_decide (replyOption.1 = CancelChoiceKey)))
         (ChoiceReplyOptions choices).

Definition approvalQuestionFor (text : string) (choices : list Choice) : Question :=
  MkQuestion text (OptionsOf (offersOf choices)).

Definition isDeclining (permissionOption : PermissionOption) : bool :=
  match Option_Kind permissionOption with RejectOnce | RejectAlways => true | _ => false end.

Definition ReplyOptionsOf (permissionOptions : list PermissionOption) : list Option :=
  OptionsOf (map (fun permissionOption =>
    MkOffer (OptionId permissionOption) (Option_Name permissionOption) (isDeclining permissionOption)) permissionOptions).

Record answeredOption := MkAnsweredOption { Approval : option string; Choices : list string }.

Definition answeredDecision (optionID : string) : answeredOption :=
  if bool_decide (optionID = ApproveOptionID) then MkAnsweredOption (Some ApprovalSignalApprove) [] else
  if bool_decide (optionID = RejectOptionID) then MkAnsweredOption (Some ApprovalSignalReject) []
  else MkAnsweredOption None [optionID].

Definition approvalAnswerOfOption (optionID : string) : ApprovalAnswer :=
  match Approval (answeredDecision optionID) with
  | Some signal => MkAnswer signal ""
  | None =>
    if bool_decide (optionID = CancelChoiceKey) then MkAnswer ApprovalSignalReject ""
    else MkAnswer ApprovalSignalApprove optionID
  end.

Record operatorOptions := MkOperatorOptions { approveOptionID : string; rejectOptionID : string }.

Definition operatorOptionsOfApproval (choices : list Choice) : operatorOptions :=
  if bool_decide (choices = []) then MkOperatorOptions ApproveOptionID RejectOptionID
  else MkOperatorOptions "" CancelChoiceKey.

(** One option of the loop: the first to allow once, and the first to reject once. *)
Definition add_operator_option (options : operatorOptions) (permissionOption : PermissionOption) : operatorOptions :=
  match Option_Kind permissionOption with
  | AllowOnce => if bool_decide (approveOptionID options = "")
      then MkOperatorOptions (OptionId permissionOption) (rejectOptionID options) else options
  | RejectOnce => if bool_decide (rejectOptionID options = "")
      then MkOperatorOptions (approveOptionID options) (OptionId permissionOption) else options
  | _ => options
  end.

Definition operatorOptionsOfHarness (permissionOptions : list PermissionOption) : operatorOptions :=
  foldl add_operator_option (MkOperatorOptions "" "") permissionOptions.

End options.

(** ** Where a message answers a question ([connectors/message_thread.go]) *)

Record MessagePlacement := MkPlacement {
  Placement_ConversationID : string;
  Placement_ReplyTargetID : string;
  Placement_IsThread : bool;
}.

Module Posted.
Record PostedQuestion := MkPosted { ConversationID : string; ReplyTargetID : string; MessageID : string }.
End Posted.

Definition placementOfEvent (event : PlatformInboundEvent) : MessagePlacement :=
  MkPlacement (Event_ConversationID event) (Event_ReplyTargetID event) (eventIsThreadReply event).

Definition isReplyInThread (conversationID threadReplyTargetID : string) (reply : MessagePlacement) : bool :=
  Placement_IsThread reply && bool_decide (Placement_ConversationID reply = conversationID) &&
  bool_decide (Placement_ReplyTargetID reply = threadReplyTargetID).

Definition isInThread (question : Posted.PostedQuestion) : bool :=
  let replyTargetID := TrimSpace (Posted.ReplyTargetID question) in
  negb (bool_decide (replyTargetID = "")) && negb (bool_decide (replyTargetID = Posted.ConversationID question)).

Definition threadRootedAtQuestion (question : Posted.PostedQuestion) : string :=
  Posted.ConversationID question +:+ ":" +:+ Posted.MessageID question.

Definition IsAnsweredBy (question : Posted.PostedQuestion) (reply : MessagePlacement) : bool :=
  if isInThread question
  then isReplyInThread (Posted.ConversationID question) (Posted.ReplyTargetID question) reply else
  if negb (Placement_IsThread reply) then bool_decide (Placement_ConversationID reply = Posted.ConversationID question)
  else isReplyInThread (Posted.ConversationID question) (threadRootedAtQuestion question) reply.

Definition connectorReplyKindApprovalQuestion : string := "approval_question".
Definition connectorReplyKindSuccess : string := "success".

(** The events of replies, and the JSON of their bodies. *)
Class ReplyEvents := {
  TaskEventConnectorReplySent : string;
  TaskEventConnectorReplyEnqueued : string;
  TaskEventConfirmationReplyClassified : string;
  (** the kind and the dispatch ID in the body of a reply *)
  reply_sent_of : string -> option (string * string);
  classified_body : PlatformInboundEvent -> answeredOption -> string;
  operator_answer_body : string -> string;
}.

Section posted.
Context `{UnicodeTables, ApprovalLibrary, ReplyEvents}.

Definition approvalQuestionDispatchID (body : string) : string :=
  match reply_sent_of body with
  | Some (replyKind, dispatchID) =>
    if bool_decide (replyKind = connectorReplyKindApprovalQuestion) then TrimSpace dispatchID else ""
  | None => ""
  end.

Definition PostedApprovalQuestionMessageID (taskEvents : list TaskEvent) : string :=
  foldl (fun messageID taskEvent =>
    if bool_decide (Event_Name taskEvent = TaskEventApprovalHoldOpened) then "" else
    if bool_decide (Event_Name taskEvent = TaskEventConnectorReplySent)
    then firstNonEmptyString [approvalQuestionDispatchID (Event_Body taskEvent); messageID] else messageID) "" taskEvents.

(** [ask_in_thread_restart.go] *)
Definition replyKindCarriesQuestion (body : string) : bool :=
  match reply_sent_of body with
  | Some (replyKind, _) =>
    let replyKind := TrimSpace replyKind in
    bool_decide (replyKind = connectorReplyKindApprovalQuestion) || bool_decide (replyKind = connectorReplyKindSuccess)
  | None => false
  end.

Definition approvalQuestionIsPosted (taskEvents : list TaskEvent) : bool :=
  foldl (fun isPosted taskEvent =>
    if bool_decide (Event_Name taskEvent = TaskEventApprovalHoldOpened) then false else
    if bool_decide (Event_Name taskEvent = TaskEventConnectorReplySent) ||
       bool_decide (Event_Name taskEvent = TaskEventConnectorReplyEnqueued)
    then isPosted || replyKindCarriesQuestion (Event_Body taskEvent) else isPosted) false taskEvents.

End posted.

(** ** The threads that wait ([askingThreads]) *)

Definition approvalExpiry : duration := 24 * Hour.

Module Thread.
(** [answers]: what is in the channel, which holds one answer. *)
Record askingThread := MkThread {
  taskRunID : string;
  requesterPersonID : string;
  platform : string;
  conversationID : string;
  replyTargetID : string;
  question : Question;
  options : operatorOptions;
  answers : list string;
  isClaimed : bool;
  isPosted : bool;
}.
End Thread.

Definition set_claimed (t : Thread.askingThread) : Thread.askingThread :=
  let '(Thread.MkThread r p pl c rt q o a _ po) := t in Thread.MkThread r p pl c rt q o a true po.
Definition set_posted (t : Thread.askingThread) : Thread.askingThread :=
  let '(Thread.MkThread r p pl c rt q o a cl _) := t in Thread.MkThread r p pl c rt q o a cl true.
Definition set_answers (a : list string) (t : Thread.askingThread) : Thread.askingThread :=
  let '(Thread.MkThread r p pl c rt q o _ cl po) := t in Thread.MkThread r p pl c rt q o a cl po.

(** The threads by their pointers, and the slice of those that wait. *)
Record askingThreads := MkThreads { thread_heap : list Thread.askingThread; waiting : list nat }.

Definition no_threads : askingThreads := MkThreads [] [].

Definition join (thread : Thread.askingThread) (ts : askingThreads) : askingThreads * nat :=
  (MkThreads (thread_heap ts ++ [thread]) (waiting ts ++ [length (thread_heap ts)]), length (thread_heap ts)).

Definition leave (departing : nat) (ts : askingThreads) : askingThreads :=
  MkThreads (thread_heap ts) (filter (fun p => p <> departing) (waiting ts)).

(** The threads that wait, with their pointers. *)
Definition waiting_threads (ts : askingThreads) : list (nat * Thread.askingThread) :=
  omap (fun p => (fun t => (p, t)) <$> thread_heap ts !! p) (waiting ts).

Definition awaiting (platform conversationID personID : string) (ts : askingThreads) : list (nat * Thread.askingThread) :=
  filter (fun pt => Thread.platform pt.2 = platform /\ Thread.conversationID pt.2 = conversationID /\
    Thread.requesterPersonID pt.2 = personID /\ Thread.isClaimed pt.2 = false) (waiting_threads ts).

Definition isAwaiting (taskRunID : string) (ts : askingThreads) : bool :=
  existsb (fun pt => bool_decide (Thread.taskRunID pt.2 = taskRunID)) (waiting_threads ts).

Definition awaitingRun (taskRunID : string) (ts : askingThreads) : option (nat * Thread.askingThread) :=
  find (fun pt => bool_decide (Thread.taskRunID pt.2 = taskRunID) && negb (Thread.isClaimed pt.2)) (waiting_threads ts).

Definition markPosted (p : nat) (ts : askingThreads) : askingThreads :=
  MkThreads (alter set_posted p (thread_heap ts)) (waiting ts).

Definition firstPosted (ts : askingThreads) : option (nat * Thread.askingThread) :=
  find (fun pt => Thread.isPosted pt.2 && negb (Thread.isClaimed pt.2)) (waiting_threads ts).

Definition claim (p : nat) (ts : askingThreads) : askingThreads * bool :=
  match thread_heap ts !! p with
  | Some t => if Thread.isClaimed t then (ts, false)
      else (MkThreads (<[p := set_claimed t]> (thread_heap ts)) (waiting ts), true)
  | None => (ts, false)
  end.

(** [thread.answers <- optionID]: [None] where the sender waits, for the channel is full. *)
Definition send_answer (p : nat) (optionID : string) (ts : askingThreads) : option askingThreads :=
  match thread_heap ts !! p with
  | Some t => if bool_decide (Thread.answers t = [])
      then Some (MkThreads (<[p := set_answers [optionID] t]> (thread_heap ts)) (waiting ts)) else None
  | None => None
  end.

(** [<-thread.answers] *)
Definition receive_answer (p : nat) (ts : askingThreads) : option (askingThreads * string) :=
  match thread_heap ts !! p with
  | Some t => match Thread.answers t with
      | optionID :: rest => Some (MkThreads (<[p := set_answers rest t]> (thread_heap ts)) (waiting ts), optionID)
      | [] => None
      end
  | None => None
  end.

(** ** Asking and answering *)

Section asking.
Context `{UnicodeTables, ApprovalLibrary, ReplyEvents}.

Definition newThread (taskRunID requesterPersonID platform conversationID replyTargetID : string) (question : Question)
    (options : operatorOptions) : Thread.askingThread :=
  Thread.MkThread taskRunID requesterPersonID platform conversationID replyTargetID question options [] false false.

(** How a wait for an answer ends. *)
Inductive WaitEnd := GotAnswer (optionID : string) | ContextDone | ExpiryFired.

Definition awaitAnswer (ending : WaitEnd) : string * AskStatus :=
  match ending with
  | GotAnswer optionID => (optionID, AskAnswered)
  | ContextDone => ("", AskInterrupted)
  | ExpiryFired => ("", AskExpired)
  end.

(** A failed delivery: of the transport, or of anything else. *)
Inductive DeliveryFailure := TransportFailure | OtherFailure.

Definition statusOfFailedQuestionDelivery (failure : DeliveryFailure) : AskStatus :=
  match failure with TransportFailure => AskInterrupted | OtherFailure => AskUnreachable end.

(** A turn a question can be put in. *)
Record questionTurn := MkQuestionTurn { turn_platform : string; turn_event : PlatformInboundEvent }.

(** Until the thread waits: [delivered] is how the question's delivery goes.  What is left
    is [awaitAnswer], and to [leave] when it is over. *)
Definition begin_asking (turn : option questionTurn) (request : ApprovalRequest) (question : Question)
    (options : operatorOptions) (delivered : option DeliveryFailure) (ts : askingThreads)
  : askingThreads * (AskStatus + nat) :=
  match turn with
  | None => (ts, inl AskUnreachable)
  | Some turn =>
    let '(ts, p) := join (newThread (Request_TaskRunID request) (Request_RequesterPersonID request) (turn_platform turn)
      (Event_ConversationID (turn_event turn)) (Event_ReplyTargetID (turn_event turn)) question options) ts in
    match delivered with
    | Some failure => (leave p ts, inl (statusOfFailedQuestionDelivery failure))
    | None => (markPosted p ts, inr p)
    end
  end.

(** [askWhereTheyAre], with the steps of others while it waits: [others]. *)
Definition askWhereTheyAre (turn : option questionTurn) (request : ApprovalRequest) (question : Question)
    (options : operatorOptions) (delivered : option DeliveryFailure) (others : nat -> askingThreads -> askingThreads * WaitEnd)
    (ts : askingThreads) : askingThreads * (string * AskStatus) :=
  let '(ts, begun) := begin_asking turn request question options delivered ts in
  match begun with
  | inl status => (ts, ("", status))
  | inr p => let '(ts, ending) := others p ts in (leave p ts, awaitAnswer ending)
  end.

(** [threadPermissionAsker.AskPermission] *)
Definition AskPermission (turn : option questionTurn) (delivered : option DeliveryFailure)
    (others : nat -> askingThreads -> askingThreads * WaitEnd) (request : ApprovalRequest) (question : PermissionQuestion)
    (ts : askingThreads) : askingThreads * (ApprovalAnswer * AskStatus) :=
  let '(ts, (optionID, status)) := askWhereTheyAre turn request
    (approvalQuestionFor (Question_Confirmation question) (Question_Choices question))
    (operatorOptionsOfApproval (Question_Choices question)) delivered others ts in
  match status with
  | AskAnswered => (ts, (approvalAnswerOfOption optionID, AskAnswered))
  | _ => (ts, (MkAnswer "" "", status))
  end.

(** [threadPermissionAsker.AskHarnessPermission]: the option selected. *)
Definition thread_AskHarnessPermission (turn : option questionTurn) (delivered : option DeliveryFailure)
    (others : nat -> askingThreads -> askingThreads * WaitEnd) (request : ApprovalRequest)
    (question : HarnessPermissionQuestion) (ts : askingThreads) : askingThreads * (option string * AskStatus) :=
  let '(ts, (optionID, status)) := askWhereTheyAre turn request
    (MkQuestion (Harness_Text question) (ReplyOptionsOf (Harness_Options question)))
    (operatorOptionsOfHarness (Harness_Options question)) delivered others ts in
  match status with
  | AskAnswered => (ts, (Some optionID, AskAnswered))
  | _ => (ts, (None, status))
  end.

Definition ApprovalAnsweredInThreadReason : string := "approval_answered_in_thread".

Definition postedQuestionOf (thread : Thread.askingThread) (st : ApprovalGate.Store) : Posted.PostedQuestion :=
  Posted.MkPosted (Thread.conversationID thread) (Thread.replyTargetID thread)
    (PostedApprovalQuestionMessageID (ListTaskEvent (Thread.taskRunID thread) st)).

(** The option a reading picks. *)
Definition picked_option (question : Question) (reading : Reading) : string :=
  if IsApproval reading then ApprovedOptionID reading else DecliningOptionID question.

(** What a reply comes to: whether the channel was full is in the last component. *)
Record Settled := MkSettled {
  settled_threads : askingThreads;
  settled_store : ApprovalGate.Store;
  settled_result : option ConnectorRuntimeResult;
  sender_waits : bool;
}.

(** A reply up to its claim: the option it is to answer with, if the thread was claimed.  [read]:
    [readReplyToQuestion]; an error is a reading that is no approval. *)
Definition reply_takes (read : Question -> string -> result ReadError Reading) (p : nat) (thread : Thread.askingThread)
    (event : PlatformInboundEvent) (ts : askingThreads) : askingThreads * option (string * Reading) :=
  let reading := match read (Thread.question thread) (Event_Prompt event) with Ok reading => reading | Err _ => no_reading end in
  let '(ts, claimed) := claim p ts in
  if negb claimed then (ts, None) else (ts, Some (picked_option (Thread.question thread) reading, reading)).

Definition settleThreadWithReply (read : Question -> string -> result ReadError Reading) (p : nat) (thread : Thread.askingThread)
    (event : PlatformInboundEvent) (ts : askingThreads) (st : ApprovalGate.Store) : Settled :=
  let '(ts, taken) := reply_takes read p thread event ts in
  match taken with
  | None => MkSettled ts st None false
  | Some (optionID, reading) =>
  let st := AppendEvent (Thread.taskRunID thread) (HeldCalls.MkEvent TaskEventConfirmationReplyClassified
    (classified_body event (answeredDecision optionID))) st in
  match send_answer p optionID ts with
  | None => MkSettled ts st None true
  | Some ts =>
    MkSettled ts st
      (if IsApproval reading
       then Some (MkResult true (Thread.platform thread) false false ApprovalAnsweredInThreadReason (Thread.taskRunID thread) "")
       else None) false
  end
  end.

Definition answerAwaitingThreads (read : Question -> string -> result ReadError Reading) (platform personID : string)
    (event : PlatformInboundEvent) (ts : askingThreads) (st : ApprovalGate.Store) : Settled :=
  if negb (bool_decide (TaskRetry event = None)) || is_control event then MkSettled ts st None false else
  match find (fun pt => IsAnsweredBy (postedQuestionOf pt.2 st) (placementOfEvent event))
    (awaiting platform (Event_ConversationID event) personID ts) with
  | Some (p, thread) => settleThreadWithReply read p thread event ts st
  | None => MkSettled ts st None false
  end.

Definition answerAskingThread (read : Question -> string -> result ReadError Reading) (identity : IdentityService)
    (adapterName : string) (event : PlatformInboundEvent) (ts : askingThreads) (st : ApprovalGate.Store) : Settled :=
  match ResolvePersonIDByPlatformAccount adapterName (SenderID event) identity with
  | None => MkSettled ts st None false
  | Some personID => answerAwaitingThreads read adapterName personID event ts st
  end.

(** [AnswerAwaitedHold]: whether it was awaited, or [ErrHoldOffersChoices]. *)
Inductive OperatorError := ErrHoldOffersChoices | OperatorWaits.

(** The operator's answer to the thread of a run, up to its claim: the option it is to answer with, or what is returned. *)
Definition operator_takes (signal : string) (p : nat) (thread : Thread.askingThread) (ts : askingThreads)
  : askingThreads * (result OperatorError bool + string) :=
  let optionID := if bool_decide (signal = ApprovalSignalApprove) then approveOptionID (Thread.options thread)
    else rejectOptionID (Thread.options thread) in
  if bool_decide (optionID = "") then (ts, inl (Err ErrHoldOffersChoices)) else
  let '(ts, claimed) := claim p ts in
  if negb claimed then (ts, inl (Ok true)) else (ts, inr optionID).

Definition AnswerAwaitedHold (taskRunID signal : string) (ts : askingThreads) (st : ApprovalGate.Store)
  : askingThreads * ApprovalGate.Store * result OperatorError bool :=
  match awaitingRun taskRunID ts with
  | None => (ts, st, Ok false)
  | Some (p, thread) =>
    let '(ts, taken) := operator_takes signal p thread ts in
    match taken with
    | inl returned => (ts, st, returned)
    | inr optionID =>
      let st := AppendEvent taskRunID (HeldCalls.MkEvent TaskEventConfirmationReplyClassified (operator_answer_body signal)) st in
      match send_answer p optionID ts with
      | None => (ts, st, Err OperatorWaits)
      | Some ts => (ts, st, Ok true)
      end
    end
  end.

(** [AwaitedQuestion] *)
Definition AwaitedQuestion (ts : askingThreads) (st : ApprovalGate.Store) : option (string * string) :=
  (fun pt => (Thread.taskRunID pt.2, PostedApprovalQuestionMessageID (ListTaskEvent (Thread.taskRunID pt.2) st)))
  <$> firstPosted ts.

(** ** After a restart ([ask_in_thread_restart.go]) *)

Definition restartedThread (taskRunID requesterPersonID : string) (turn : questionTurn) (confirmation : string)
    (taskEvents : list TaskEvent) : Thread.askingThread :=
  newThread taskRunID requesterPersonID (turn_platform turn) (Event_ConversationID (turn_event turn))
    (Event_ReplyTargetID (turn_event turn)) (approvalQuestionFor confirmation (OfferedChoices taskEvents))
    (operatorOptionsOfApproval (OfferedChoices taskEvents)).

(** What [beginReawaiting] decides before the thread joins. *)
Inductive Reawaiting :=
| NotReawaited
| HoldEnds (status : AskStatus)
| Reawaits (thread : Thread.askingThread).

Definition decide_reawaiting (now updatedAt : instant) (taskRunID requesterPersonID : string) (turn : option questionTurn)
    (taskEvents : list TaskEvent) (ts : askingThreads) : Reawaiting :=
  match PendingHeldCall taskEvents with
  | None => NotReawaited
  | Some heldCall =>
    if isAwaiting taskRunID ts then NotReawaited else
    match turn with
    | None => HoldEnds AskUnreachable
    | Some turn =>
      if approvalExpiry <? Sub now updatedAt then HoldEnds AskExpired
      else Reawaits (restartedThread taskRunID requesterPersonID turn (Call_Confirmation heldCall) taskEvents)
    end
  end.

Definition beginReawaiting (now updatedAt : instant) (taskRunID requesterPersonID : string) (turn : option questionTurn)
    (taskEvents : list TaskEvent) (ts : askingThreads) : askingThreads * (Reawaiting * option nat) :=
  match decide_reawaiting now updatedAt taskRunID requesterPersonID turn taskEvents ts with
  | Reawaits thread => let '(ts, p) := join thread ts in (ts, (Reawaits thread, Some p))
  | decision => (ts, (decision, None))
  end.

(** What [awaitReawakenedThread] ends in: the run resumes with an option, the hold ends,
    or nothing, when the process stops again. *)
Inductive Reawakened := ResumeWith (optionID : string) | EndHold (status : AskStatus) | LeaveHeld.

Definition awaitReawakenedThread (taskEvents : list TaskEvent) (delivered : option DeliveryFailure) (ending : WaitEnd)
  : Reawakened :=
  if negb (approvalQuestionIsPosted taskEvents) && is_some delivered then EndHold AskUnreachable else
  match awaitAnswer ending with
  | (optionID, AskAnswered) => ResumeWith optionID
  | (_, AskExpired) => EndHold AskExpired
  | _ => LeaveHeld
  end.

Definition endedHoldEventName (status : AskStatus) : string :=
  if bool_decide (status = AskExpired) then TaskEventApprovalExpired else TaskEventApprovalUnreachable.

End asking.

(** ** Runs of the threads *)

Section runs.
Context `{UnicodeTables, ApprovalLibrary, ReplyEvents}.

(** The threads; the thread each worker is to answer and with which option, as its claim left it; and the threads
    that were answered. *)
Record thread_run := MkThreadRun {
  run_threads : askingThreads;
  holding : gmap nat (nat * string);
  sent : list nat;
}.

Definition run_start : thread_run := MkThreadRun no_threads ∅ [].

Definition takes (w p : nat) (taken : option string) (held : gmap nat (nat * string)) : gmap nat (nat * string) :=
  match taken with Some optionID => <[w := (p, optionID)]> held | None => held end.

(** Workers settle threads with replies and the operator answers them, each up to its claim, with a thread it may have
    found long before; whoever is to answer sends, later; threads join, are posted, are left, and receive. *)
Inductive thread_step : thread_run -> thread_run -> Prop :=
| step_join r taskRunID personID platform conversationID replyTargetID question options :
    thread_step r (MkThreadRun (join (newThread taskRunID personID platform conversationID replyTargetID question options) (run_threads r)).1 (holding r) (sent r))
| step_leave r p : thread_step r (MkThreadRun (leave p (run_threads r)) (holding r) (sent r))
| step_posted r p : thread_step r (MkThreadRun (markPosted p (run_threads r)) (holding r) (sent r))
| step_reply r w read p thread event ts taken :
    holding r !! w = None -> reply_takes read p thread event (run_threads r) = (ts, taken) ->
    thread_step r (MkThreadRun ts (takes w p (fst <$> taken) (holding r)) (sent r))
| step_operator r w signal p thread ts taken :
    holding r !! w = None -> operator_takes signal p thread (run_threads r) = (ts, taken) ->
    thread_step r (MkThreadRun ts (takes w p (match taken with inr optionID => Some optionID | inl _ => None end) (holding r)) (sent r))
| step_send r w p optionID ts :
    holding r !! w = Some (p, optionID) -> send_answer p optionID (run_threads r) = Some ts ->
    thread_step r (MkThreadRun ts (delete w (holding r)) (sent r ++ [p]))
| step_receive r p ts optionID :
    receive_answer p (run_threads r) = Some (ts, optionID) -> thread_step r (MkThreadRun ts (holding r) (sent r)).

(** A thread is claimed by the worker that holds it or was answered, not both, and an
    answer waits in the channel of an answered thread only. *)
Record run_ok (r : thread_run) : Prop := {
  held_ok w p optionID : holding r !! w = Some (p, optionID) ->
    (p ∉ sent r) /\ exists t, thread_heap (run_threads r) !! p = Some t /\ Thread.isClaimed t = true /\ Thread.answers t = [];
  held_once w w' p optionID optionID' : holding r !! w = Some (p, optionID) -> holding r !! w' = Some (p, optionID') -> w = w';
  sent_ok p : p ∈ sent r -> exists t, thread_heap (run_threads r) !! p = Some t /\ Thread.isClaimed t = true;
  sent_once : NoDup (sent r);
  answered_ok p t : thread_heap (run_threads r) !! p = Some t -> Thread.answers t <> [] -> p ∈ sent r;
  one_answer p t : thread_heap (run_threads r) !! p = Some t -> (length (Thread.answers t) <= 1)%nat;
}.

(** The changes of a thread that keep what a run says of it. *)
Definition keeps_thread (t t' : Thread.askingThread) : Prop :=
  Thread.isClaimed t' = Thread.isClaimed t /\ (Thread.answers t' = Thread.answers t \/ Thread.answers t' = []).

Lemma run_ok_keeps r ts' :
  run_ok r ->
  (forall p t, thread_heap (run_threads r) !! p = Some t -> exists t', thread_heap ts' !! p = Some t' /\ keeps_thread t t') ->
  (forall p t', thread_heap ts' !! p = Some t' -> thread_heap (run_threads r) !! p = None -> Thread.answers t' = []) ->
  run_ok (MkThreadRun ts' (holding r) (sent r)).
Proof.
  intros [Hh Ho Hs Hn Ha Hl] Hk Hf.
  assert (Hback : forall p t', thread_heap ts' !! p = Some t' -> Thread.answers t' <> [] ->
    exists t, thread_heap (run_threads r) !! p = Some t /\ Thread.answers t' = Thread.answers t).
  { intros p t' Ht' Hne; destruct (thread_heap (run_threads r) !! p) as [t|] eqn:Ht; cycle 1.
    { destruct Hne; by eapply Hf. }
    destruct (Hk p t Ht) as (t'' & Ht'' & _ & He); assert (t'' = t') as -> by congruence; exists t.
    split; [done|]; by destruct He. }
  constructor; cbn [run_threads holding sent].
  - intros w p o Hw; destruct (Hh w p o Hw) as (Hns & t & Ht & Hc & He); split; [done|].
    destruct (Hk p t Ht) as (t' & Ht' & Hc' & He'); exists t'; split_and!; [done|congruence|].
    by destruct He' as [-> | ->].
  - exact Ho.
  - intros p Hp; destruct (Hs p Hp) as (t & Ht & Hc); destruct (Hk p t Ht) as (t' & Ht' & Hc' & _).
    exists t'; split; [done|congruence].
  - exact Hn.
  - intros p t' Ht' Hne; destruct (Hback p t' Ht' Hne) as (t & Ht & He); apply (Ha p t Ht); congruence.
  - intros p t' Ht'; destruct (Thread.answers t') as [|a l] eqn:Hat; [cbn; lia|].
    destruct (Hback p t' Ht') as (t & Ht & He); [by rewrite Hat|]; rewrite <- Hat, He; by eapply Hl.
Qed.

Lemma claim_true p ts ts' :
  claim p ts = (ts', true) -> exists t, thread_heap ts !! p = Some t /\ Thread.isClaimed t = false /\
    ts' = MkThreads (<[p := set_claimed t]> (thread_heap ts)) (waiting ts).
Proof.
  unfold claim; destruct (thread_heap ts !! p) as [t|]; [|done]; destruct (Thread.isClaimed t) eqn:Hc; [done|].
  intros [= <-]; by exists t.
Qed.

Lemma claim_false p ts ts' : claim p ts = (ts', false) -> ts' = ts.
Proof. unfold claim; repeat split_match; by intros [= <-]. Qed.

Lemma send_answer_Some p optionID ts ts' :
  send_answer p optionID ts = Some ts' -> exists t, thread_heap ts !! p = Some t /\ Thread.answers t = [] /\
    ts' = MkThreads (<[p := set_answers [optionID] t]> (thread_heap ts)) (waiting ts).
Proof.
  unfold send_answer; destruct (thread_heap ts !! p) as [t|]; [|done]; case_bool_decide; [|done].
  intros [= <-]; by exists t.
Qed.

Lemma set_claimed_fields t : Thread.isClaimed (set_claimed t) = true /\ Thread.answers (set_claimed t) = Thread.answers t.
Proof. by destruct t. Qed.

Lemma set_answers_fields a t : Thread.isClaimed (set_answers a t) = Thread.isClaimed t /\ Thread.answers (set_answers a t) = a.
Proof. by destruct t. Qed.

Lemma run_ok_claim r w p optionID ts' :
  run_ok r -> holding r !! w = None -> claim p (run_threads r) = (ts', true) ->
  run_ok (MkThreadRun ts' (<[w := (p, optionID)]> (holding r)) (sent r)).
Proof.
  intros Hr Hw (t & Ht & Hc & ->)%claim_true; pose proof Hr as [Hh Ho Hs Hn Ha Hl].
  assert (Hnew : p ∉ sent r) by (intros Hp; destruct (Hs p Hp) as (t' & Ht' & Hc'); congruence).
  assert (Hempty : Thread.answers t = []).
  { destruct (Thread.answers t) eqn:He; [done|]; exfalso; apply Hnew, (Ha p t Ht); by rewrite He. }
  assert (Hfree : forall w' o, holding r !! w' <> Some (p, o)).
  { intros w' o Hw'; destruct (Hh w' p o Hw') as (_ & t' & Ht' & Hc' & _); congruence. }
  destruct (set_claimed_fields t) as [Hfc Hfa]; apply lookup_lt_Some in Ht as Hlt.
  constructor; cbn [run_threads holding sent thread_heap].
  - intros w' q o Hq; destruct (decide (w' = w)) as [->|Hne].
    + rewrite lookup_insert_eq in Hq; injection Hq as <- <-; split; [done|].
      exists (set_claimed t); rewrite list_lookup_insert_eq by done; split_and!; congruence.
    + rewrite lookup_insert_ne in Hq by done; destruct (Hh w' q o Hq) as (Hns & t' & Ht' & Hc' & He'); split; [done|].
      exists t'; rewrite list_lookup_insert_ne by (intros ->; by eapply Hfree); done.
  - intros w1 w2 q o1 o2 Hq1 Hq2; destruct (decide (w1 = w)) as [->|Hn1], (decide (w2 = w)) as [->|Hn2]; [done|..].
    + rewrite lookup_insert_eq in Hq1; rewrite lookup_insert_ne in Hq2 by done; injection Hq1 as <- <-; by destruct (Hfree w2 o2).
    + rewrite lookup_insert_eq in Hq2; rewrite lookup_insert_ne in Hq1 by done; injection Hq2 as <- <-; by destruct (Hfree w1 o1).
    + rewrite lookup_insert_ne in Hq1, Hq2 by done; by eapply Ho.
  - intros q Hq; destruct (Hs q Hq) as (t' & Ht' & Hc'); exists t'.
    rewrite list_lookup_insert_ne by (intros ->; done); done.
  - done.
  - intros q t' Hq Hne; destruct (decide (q = p)) as [->|Hnq].
    + rewrite list_lookup_insert_eq in Hq by done; injection Hq as <-; congruence.
    + rewrite list_lookup_insert_ne in Hq by done; by eapply Ha.
  - intros q t' Hq; destruct (decide (q = p)) as [->|Hnq].
    + rewrite list_lookup_insert_eq in Hq by done; injection Hq as <-; rewrite Hfa, Hempty; cbn; lia.
    + rewrite list_lookup_insert_ne in Hq by done; by eapply Hl.
Qed.

Lemma run_ok_send r w p optionID ts' :
  run_ok r -> holding r !! w = Some (p, optionID) -> send_answer p optionID (run_threads r) = Some ts' ->
  run_ok (MkThreadRun ts' (delete w (holding r)) (sent r ++ [p])).
Proof.
  intros Hr Hw (t & Ht & He & ->)%send_answer_Some; pose proof Hr as [Hh Ho Hs Hn Ha Hl].
  destruct (Hh w p _ Hw) as (Hnew & t0 & Ht0 & Hc & _); rewrite Ht in Ht0; injection Ht0 as <-.
  destruct (set_answers_fields [optionID] t) as [Hfc Hfa]; apply lookup_lt_Some in Ht as Hlt.
  constructor; cbn [run_threads holding sent thread_heap].
  - intros w' q o Hq; apply lookup_delete_Some in Hq as [Hne Hq].
    assert (Hqp : q <> p) by (intros ->; by destruct (Ho w w' p _ _ Hw Hq)).
    destruct (Hh w' q o Hq) as (Hns & t' & Ht' & Hc' & He'); split; [rewrite elem_of_app, list_elem_of_singleton; tauto|].
    exists t'; by rewrite list_lookup_insert_ne.
  - intros w1 w2 q o1 o2 [_ Hq1]%lookup_delete_Some [_ Hq2]%lookup_delete_Some; by eapply Ho.
  - intros q [Hq| ->%list_elem_of_singleton]%elem_of_app.
    + destruct (Hs q Hq) as (t' & Ht' & Hc'); exists t'; rewrite list_lookup_insert_ne by (intros ->; done); done.
    + exists (set_answers [optionID] t); rewrite list_lookup_insert_eq by done; split; congruence.
  - apply NoDup_app; split_and!; [done| |apply NoDup_singleton]; intros q Hq ->%list_elem_of_singleton; done.
  - intros q t' Hq Hne; apply elem_of_app; destruct (decide (q = p)) as [->|Hnq]; [right; by left|].
    rewrite list_lookup_insert_ne in Hq by done; left; by eapply Ha.
  - intros q t' Hq; destruct (decide (q = p)) as [->|Hnq].
    + rewrite list_lookup_insert_eq in Hq by done; injection Hq as <-; rewrite Hfa; cbn; lia.
    + rewrite list_lookup_insert_ne in Hq by done; by eapply Hl.
Qed.

Lemma thread_step_ok r r' : thread_step r r' -> run_ok r -> run_ok r'.
Proof.
  destruct 1 as [r taskRunID person platform conversation target question options|r p|r p|r w read p thread event ts taken Hw Htake|r w signal p thread ts taken Hw Htake
    |r w p optionID ts Hw Hs|r p ts optionID Hrec]; intros Hr.
  - apply run_ok_keeps; [done| |]; cbn [join fst thread_heap].
    + intros p t Ht; exists t; split; [by apply lookup_app_l_Some|split; [done|by left]].
    + intros p t' Ht' Hn; apply lookup_app_Some in Ht' as [?|[_ Ht']]; [congruence|].
      by apply list_lookup_singleton_Some in Ht' as [_ <-].
  - apply run_ok_keeps; [done| |]; cbn [leave thread_heap]; [|congruence].
    intros q t Ht; exists t; split; [done|split; [done|by left]].
  - apply run_ok_keeps; [done| |]; cbn [markPosted thread_heap].
    + intros q t Ht; destruct (decide (q = p)) as [->|Hne].
      * exists (set_posted t); rewrite list_lookup_alter_eq, Ht; split; [done|]; destruct t; split; [done|by left].
      * exists t; rewrite list_lookup_alter_ne by done; split; [done|split; [done|by left]].
    + intros q t' Ht' Hn; destruct (decide (q = p)) as [->|Hne].
      * by rewrite list_lookup_alter_eq, Hn in Ht'.
      * rewrite list_lookup_alter_ne in Ht' by done; congruence.
  - unfold reply_takes in Htake; destruct (claim p (run_threads r)) as [ts0 []] eqn:Hcl; cbn in Htake; injection Htake as <- <-; cbn [takes fmap option_fmap option_map fst].
    + by apply run_ok_claim with (p := p).
    + apply claim_false in Hcl as ->; by destruct r.
  - unfold operator_takes in Htake; destruct (bool_decide _); [injection Htake as <- <-; by destruct r|].
    destruct (claim p (run_threads r)) as [ts0 []] eqn:Hcl; cbn in Htake; injection Htake as <- <-; cbn [takes].
    + by apply run_ok_claim with (p := p).
    + apply claim_false in Hcl as ->; by destruct r.
  - by eapply run_ok_send.
  - unfold receive_answer in Hrec; destruct (thread_heap (run_threads r) !! p) as [t|] eqn:Ht; [|done].
    destruct (Thread.answers t) as [|a rest] eqn:He; [done|]; injection Hrec as <- <-.
    pose proof (one_answer r Hr p t Ht) as Hlen; rewrite He in Hlen; destruct rest; [|cbn in Hlen; lia].
    destruct (set_answers_fields [] t) as [Hfc Hfa]; apply lookup_lt_Some in Ht as Hlt.
    apply run_ok_keeps; [done| |]; cbn [thread_heap].
    + intros q t' Ht'; destruct (decide (q = p)) as [->|Hne].
      * exists (set_answers [] t); rewrite list_lookup_insert_eq by done; split; [done|].
        rewrite Ht in Ht'; injection Ht' as <-; split; [done|by right].
      * exists t'; rewrite list_lookup_insert_ne by done; split; [done|split; [done|by left]].
    + intros q t' Hq Hn; destruct (decide (q = p)) as [->|Hne]; [congruence|].
      rewrite list_lookup_insert_ne in Hq by done; congruence.
Qed.

(** C18. However replies, the operator and the waiting runs interleave, a thread that was opened for a
    question takes one answer: no two are to answer one thread, none is answered twice or
    before it was claimed, and whoever is to answer a thread sends at once, for its channel is empty.  Two
    threads that were opened for one hold take an answer each: see [hold_is_awaited_twice]. *)
Theorem each_question_takes_one_answer r :
  rtc thread_step run_start r ->
  NoDup (sent r) /\
  (forall w w' p optionID optionID', holding r !! w = Some (p, optionID) -> holding r !! w' = Some (p, optionID') -> w = w') /\
  (forall w p optionID, holding r !! w = Some (p, optionID) -> (p ∉ sent r) /\ is_Some (send_answer p optionID (run_threads r))) /\
  (forall p t, thread_heap (run_threads r) !! p = Some t -> Thread.isClaimed t = false ->
     (p ∉ sent r) /\ Thread.answers t = [] /\ forall w optionID, holding r !! w <> Some (p, optionID)).
Proof.
  intros Hrun; assert (Hr : run_ok r).
  { assert (Hstart : run_ok run_start) by (constructor; cbn; try done; [by intros p ?%elem_of_nil|constructor]).
    revert Hstart; induction Hrun as [|r1 r2 r3 Hstep _ IH]; [done|]; intros Hstart; by eapply IH, thread_step_ok. }
  destruct Hr as [Hh Ho Hs Hn Ha Hl]; split_and!; [done|done| |].
  - intros w p optionID Hw; destruct (Hh w p _ Hw) as (Hns & t & Ht & _ & He); split; [done|].
    unfold send_answer; rewrite Ht, bool_decide_true by done; by eexists.
  - intros p t Ht Hc; assert (Hns : p ∉ sent r) by (intros Hp; destruct (Hs p Hp) as (t' & Ht' & Hc'); congruence).
    split_and!; [done| |]; [destruct (Thread.answers t) eqn:He; [done|]; exfalso; apply Hns, (Ha p t Ht); by rewrite He|].
    intros w optionID Hw; destruct (Hh w p _ Hw) as (_ & t' & Ht' & Hc' & _); congruence.
Qed.

End runs.

(** ** Who approves *)

Section approving.
Context `{UnicodeTables, ApprovalLibrary, ReplyEvents, DecisionLibrary}.
Context (visit : gmap string float64 -> list (string * float64)).

(** Declining a question answers it with a rejection, whatever the options are called. *)
Lemma DecliningOptionID_rejects text choices :
  approvalAnswerOfOption (DecliningOptionID (approvalQuestionFor text choices)) = MkAnswer ApprovalSignalReject "".
Proof.
  unfold approvalQuestionFor, offersOf; case_bool_decide as Hc; [reflexivity|].
  unfold DecliningOptionID; cbn [Options].
  set (offers := map _ _); unfold OptionsOf; generalize (countAllowing offers =? 1) as only; intros only.
  assert (Hall : forall offer, offer ∈ offers -> Offer_IsDeclining offer = true -> Offer_ID offer = CancelChoiceKey).
  { intros offer (kv & -> & _)%list_elem_of_fmap; cbn; by intros ?%bool_decide_eq_true. }
  assert (Hsome : exists offer, offer ∈ offers /\ Offer_IsDeclining offer = true).
  { eexists; split; [apply list_elem_of_fmap; eexists; split; [reflexivity|]; unfold ChoiceReplyOptions;
      apply elem_of_app; right; apply list_elem_of_singleton; reflexivity|reflexivity]. }
  clearbody offers; induction offers as [|offer offers IH]; [by destruct Hsome as (? & ?%elem_of_nil & _)|].
  cbn [map find Option_IsDeclining]; destruct (Offer_IsDeclining offer) eqn:Hd.
  - rewrite (Hall offer) by (done || by left); reflexivity.
  - apply IH; [intros o Ho; apply Hall; by right|]; destruct Hsome as (o & [->|Ho]%elem_of_cons & Hdo); [congruence|by exists o].
Qed.

(** What has to be read in a reply that approves. *)
Definition says_option (model : readState * gmap string DecisionQuestion -> result string (gmap string DecisionAnswer))
    (question : Question) (reply optionID : string) : Prop :=
  exists answers option,
    TrimSpace reply <> "" /\ model (readRequest question (TrimSpace reply)) = Ok answers /\
    option ∈ Options question /\ Option_ID option = optionID /\ Option_IsDeclining option = false /\
    let probability := default float_zero (answer_probabilities answers !! optionID) in
    float_lt (float_sub (total_probability visit (answer_probabilities answers)) probability) probability = true.

Lemma approvedOption_Some question probabilities :
  approvedOption visit question probabilities <> "" ->
  exists option, option ∈ Options question /\ Option_ID option = approvedOption visit question probabilities /\
    outweighs visit probabilities option = true.
Proof.
  unfold approvedOption; destruct (find _ _) as [option|] eqn:Hf; [|done]; intros _.
  apply find_some in Hf as [Hin Ho]; exists option; split_and!; [by apply list_elem_of_In|done|done].
Qed.

Lemma Read_says model question reply reading :
  Read visit (Some model) question reply = Ok reading -> IsApproval reading = true ->
  says_option model question reply (ApprovedOptionID reading).
Proof.
  unfold Read, IsApproval; case_bool_decide as Hblank; [done|]; destruct (model _) as [answers|] eqn:Hm; [|done].
  intros [= <-]; cbn [ApprovedOptionID]; rewrite negb_true_iff, bool_decide_eq_false; intros Hne.
  destruct (approvedOption_Some _ _ Hne) as (option & Hin & Hid & Ho).
  exists answers, option; unfold outweighs in Ho; rewrite Hid in Ho.
  apply andb_true_iff in Ho as [Hd Ho]; apply negb_true_iff in Hd; split_and!; done.
Qed.

(** What lets a message answer a thread. *)
Definition may_answer (identity : IdentityService) (adapterName : string) (event : PlatformInboundEvent) (ts : askingThreads)
    (st : ApprovalGate.Store) (p : nat) (thread : Thread.askingThread) : Prop :=
  p ∈ waiting ts /\ Thread.isClaimed thread = false /\ Thread.platform thread = adapterName /\
  Thread.conversationID thread = Event_ConversationID event /\
  ResolvePersonIDByPlatformAccount adapterName (SenderID event) identity = Some (Thread.requesterPersonID thread) /\
  TaskRetry event = None /\ is_control event = false /\
  IsAnsweredBy (postedQuestionOf thread st) (placementOfEvent event) = true.

Lemma waiting_threads_elem ts p thread :
  (p, thread) ∈ waiting_threads ts -> p ∈ waiting ts /\ thread_heap ts !! p = Some thread.
Proof.
  unfold waiting_threads; intros (q & Hq & Hp)%list_elem_of_omap.
  destruct (thread_heap ts !! q) as [t|] eqn:Ht; [|done]; cbn in Hp; injection Hp as -> ->; done.
Qed.

(** Only the thread a reply settles changes. *)
Lemma settleThreadWithReply_threads read p thread event ts st q t t' :
  thread_heap ts !! q = Some t ->
  thread_heap (settled_threads (settleThreadWithReply read p thread event ts st)) !! q = Some t' ->
  Thread.answers t' <> Thread.answers t ->
  q = p /\ Thread.answers t = [] /\
  Thread.answers t' = [picked_option (Thread.question thread)
    (match read (Thread.question thread) (Event_Prompt event) with Ok reading => reading | Err _ => no_reading end)].
Proof.
  unfold settleThreadWithReply, reply_takes; intros Hq; destruct (claim p ts) as [ts1 claimed] eqn:Hc; cbv zeta.
  destruct claimed; cbn [negb].
  2:{ apply claim_false in Hc as ->; cbn [settled_threads]; congruence. }
  apply claim_true in Hc as (t0 & Ht0 & Hcl & ->); apply lookup_lt_Some in Ht0 as Hlt.
  destruct (set_claimed_fields t0) as [_ Hans].
  destruct (send_answer p _ _) as [ts2|] eqn:Hs; cbn [settled_threads].
  - apply send_answer_Some in Hs as (t1 & Ht1 & He & ->); cbn [thread_heap] in *.
    rewrite list_lookup_insert_eq in Ht1 by done; injection Ht1 as <-.
    destruct (decide (q = p)) as [->|Hne].
    + rewrite list_lookup_insert_eq by (by rewrite length_insert); intros [= <-] _.
      assert (t = t0) as -> by congruence; destruct (set_answers_fields [picked_option (Thread.question thread)
        (match read (Thread.question thread) (Event_Prompt event) with Ok reading => reading | Err _ => no_reading end)]
        (set_claimed t0)) as [_ ->].
      split_and!; [done|congruence|done].
    + rewrite !list_lookup_insert_ne by done; congruence.
  - cbn [thread_heap]; destruct (decide (q = p)) as [->|Hne].
    + rewrite list_lookup_insert_eq by done; intros [= <-]; congruence.
    + rewrite list_lookup_insert_ne by done; congruence.
Qed.

(** C17. A run goes on with what was held only where its requester said so.  If a message
    puts an option that approves into a thread's channel, the thread waited, nobody had
    claimed it, the sender's account is the requester's, in the conversation and at the
    place the question was asked in, and the decision model gave an option that is not
    declining more weight than all the others together. *)
Theorem replies_approve_only_what_they_say model identity adapterName event ts st p thread thread' optionID text choices :
  ApprovalSignalApprove <> ApprovalSignalReject ->
  thread_heap ts !! p = Some thread ->
  thread_heap (settled_threads (answerAskingThread (Read visit (Some model)) identity adapterName event ts st)) !! p = Some thread' ->
  Thread.answers thread' <> Thread.answers thread -> optionID ∈ Thread.answers thread' ->
  Thread.question thread = approvalQuestionFor text choices ->
  Signal (approvalAnswerOfOption optionID) = ApprovalSignalApprove ->
  may_answer identity adapterName event ts st p thread /\
  says_option model (Thread.question thread) (Event_Prompt event) optionID.
Proof.
  intros Hsignals Hp Hp' Hne Hin Hq Happrove; unfold answerAskingThread in Hp'.
  destruct (ResolvePersonIDByPlatformAccount _ _ _) as [personID|] eqn:Hr; [|cbn [settled_threads] in Hp'; congruence].
  unfold answerAwaitingThreads in Hp'.
  destruct (negb _ || is_control event) eqn:Hcontrol; [cbn [settled_threads] in Hp'; congruence|].
  destruct (find _ _) as [[q thread1]|] eqn:Hf; [|cbn [settled_threads] in Hp'; congruence].
  apply find_some in Hf as [Hf Hanswers]; cbn [snd] in Hanswers.
  apply list_elem_of_In, list_elem_of_filter in Hf as [(Hpl & Hco & Hpe & Hcl) Hw]; cbn [snd] in *.
  apply waiting_threads_elem in Hw as [Hw Hh].
  destruct (settleThreadWithReply_threads _ _ _ _ _ _ _ _ _ Hp Hp' Hne) as (<- & Hempty & Hans).
  assert (thread1 = thread) as -> by congruence.
  apply orb_false_iff in Hcontrol as [Hretry Hcontrol]; apply negb_false_iff, bool_decide_eq_true in Hretry.
  split; [unfold may_answer; split_and!; congruence || done|].
  rewrite Hans in Hin; apply list_elem_of_singleton in Hin; revert Hin; unfold picked_option.
  destruct (Read _ _ _ _) as [reading|] eqn:Hread.
  - destruct (IsApproval reading) eqn:Ha; intros ->; [by apply Read_says|].
    rewrite Hq, DecliningOptionID_rejects in Happrove; by destruct Hsignals.
  - change (IsApproval no_reading) with false; cbv iota; intros ->.
    rewrite Hq, DecliningOptionID_rejects in Happrove; by destruct Hsignals.
Qed.

End approving.

Section asker.
Context `{ApprovalLibrary}.

(** The asker answers with one of the two signals, as the gate expects of it. *)
Lemma AskPermission_signals turn delivered others request question ts ts' answer :
  AskPermission turn delivered others request question ts = (ts', (answer, AskAnswered)) ->
  Signal answer = ApprovalSignalApprove \/ Signal answer = ApprovalSignalReject.
Proof.
  unfold AskPermission; destruct (askWhereTheyAre _ _ _ _ _ _ _) as [ts1 [optionID status]].
  destruct status; try done; intros [= _ <-]; unfold approvalAnswerOfOption, answeredDecision.
  repeat case_bool_decide; cbn [Approval Signal]; auto.
Qed.

End asker.

(** ** A library of concrete events *)

Definition example_events : ReplyEvents := {|
  TaskEventConnectorReplySent := "connector.reply.sent";
  TaskEventConnectorReplyEnqueued := "connector.reply.enqueued";
  TaskEventConfirmationReplyClassified := "confirmation.reply.classified";
  reply_sent_of := fun body => if bool_decide (body = "question") then Some (connectorReplyKindApprovalQuestion, "d1") else None;
  classified_body := fun event _ => MessageID event;
  operator_answer_body := fun signal => signal;
|}.

Definition visit_all (probabilities : gmap string float64) : list (string * float64) := map_to_list probabilities.

Definition ann_on_slack : IdentityService := MkIdentityService ∅ ∅ ∅ ∅ ∅ {[account_key "slack" "U1" := "ann"]} ∅.

Definition send_question : Question := @approvalQuestionFor gate_holds "Send it to Bob?" [].

Definition ann_asked : Thread.askingThread :=
  newThread "run-1" "ann" "slack" "C1" "C1" send_question (operatorOptionsOfApproval []).

Definition picking (optionID : string) : readState * gmap string unit -> result string (gmap string ExampleAnswer) :=
  fun _ => Ok {[AnswerQuestionName := MkExampleAnswer optionID float_one [(optionID, float_seven_tenths); (OtherOptionID, float_zero)]]}.

Definition agreeing_model := picking "approve".

Definition yes_reply : PlatformInboundEvent := sample_event "U1" "m2" "yes please".

Definition settle_example (model : readState * gmap string unit -> result string (gmap string ExampleAnswer))
    (event : PlatformInboundEvent) (ts : askingThreads) (st : ApprovalGate.run_store) : Settled :=
  @answerAskingThread ascii_tables gate_holds gate_library example_events
    (@Read example_decisions visit_all (Some model)) ann_on_slack "slack" event ts st.

Lemma replies_approve_only_what_they_say_witness :
  Thread.answers <$> thread_heap (settled_threads (settle_example agreeing_model yes_reply (join ann_asked no_threads).1 held_run))
    = [["approve"]] /\
  @may_answer ascii_tables gate_holds gate_library example_events ann_on_slack "slack" yes_reply
    (join ann_asked no_threads).1 held_run 0 ann_asked /\
  @says_option example_decisions visit_all agreeing_model send_question "yes please" "approve".
Proof.
  split; [vm_compute; reflexivity|].
  apply (@replies_approve_only_what_they_say ascii_tables gate_holds gate_library example_events example_decisions visit_all
    agreeing_model ann_on_slack "slack" yes_reply (join ann_asked no_threads).1 held_run 0 ann_asked
    (set_answers ["approve"] (set_claimed ann_asked)) "approve" "Send it to Bob?" []);
    [done|reflexivity|vm_compute; reflexivity|done|apply list_elem_of_singleton; reflexivity|reflexivity|reflexivity].
Defined.

(** A reply and the operator come to one thread: the reply claims it, the operator finds it claimed, and the reply
    answers. *)
Lemma each_question_takes_one_answer_witness :
  exists r, rtc (@thread_step gate_holds gate_library) run_start r /\ NoDup (sent r) /\ sent r = [0%nat] /\ holding r = ∅ /\
    exists t, thread_heap (run_threads r) !! 0%nat = Some t /\ Thread.answers t = ["approve"].
Proof.
  pose (claimed := MkThreads [set_claimed ann_asked] [0%nat]); pose (final := MkThreads [set_answers ["approve"] (set_claimed ann_asked)] [0%nat]).
  assert (Hrun : rtc (@thread_step gate_holds gate_library) run_start (MkThreadRun final ∅ [0%nat])).
  { eapply rtc_l; [by apply (@step_join gate_holds gate_library run_start "run-1" "ann" "slack" "C1" "C1" send_question (operatorOptionsOfApproval []))|].
    eapply rtc_l; [apply (@step_reply gate_holds gate_library _ 7%nat (@Read example_decisions visit_all (Some agreeing_model)) 0%nat ann_asked yes_reply claimed
      (Some ("approve", MkReading "approve"))); [reflexivity|vm_compute; reflexivity]|].
    eapply rtc_l; [apply (@step_operator gate_holds gate_library _ 8%nat (@ApprovalSignalReject gate_holds gate_library) 0%nat ann_asked claimed (inl (Ok true))); [reflexivity|vm_compute; reflexivity]|].
    eapply rtc_l; [by apply (@step_send gate_holds gate_library _ 7%nat 0%nat "approve" final)|]; apply rtc_refl. }
  eexists; split; [exact Hrun|]; destruct (@each_question_takes_one_answer gate_holds gate_library _ Hrun) as [Hn _].
  split_and!; [exact Hn|done|done|]; by eexists.
Defined.

(** ** Departures *)

(** [awaiting] does not ask whether the question is posted: between [join] and the delivery, a
    message that has nothing to do with the question approves or declines it. *)
Lemma unposted_question_is_answered :
  Thread.isPosted ann_asked = false /\
  let settled := settle_example agreeing_model yes_reply (join ann_asked no_threads).1 held_run in
  settled_result settled = Some (MkResult true "slack" false false ApprovalAnsweredInThreadReason "run-1" "") /\
  Thread.answers <$> thread_heap (settled_threads settled) = [["approve"]] /\
  @PostedApprovalQuestionMessageID gate_holds example_events (run_events "run-1" held_run) = "".
Proof. vm_compute; split_and!; reflexivity. Qed.

(** The wait of a thread ends while a reply is being read: the reply is reported as the
    answer of the run, and the run takes the question as expired. *)
Lemma late_answer_is_lost :
  let others (p : nat) (ts : askingThreads) := (settled_threads (settle_example agreeing_model yes_reply ts held_run), ExpiryFired) in
  let turn := MkQuestionTurn "slack" (sample_event "U1" "C1" "send it") in
  let asked := askWhereTheyAre (Some turn) send_request send_question (operatorOptionsOfApproval []) None others no_threads in
  snd asked = ("", AskExpired) /\ Thread.answers <$> thread_heap (fst asked) = [["approve"]] /\
  settled_result (settle_example agreeing_model yes_reply
    (begin_asking (Some turn) send_request send_question (operatorOptionsOfApproval []) None no_threads).1 held_run)
  = Some (MkResult true "slack" false false ApprovalAnsweredInThreadReason "run-1" "").
Proof. vm_compute; split_and!; reflexivity. Qed.

(** [beginReawaiting] asks whether a run is awaited and joins in two steps: two that decide at
    once both join, and two messages answer the hold twice. *)
Lemma hold_is_awaited_twice :
  let taskEvents := [HeldCalls.MkEvent "opened" "mail.send"] in
  let turn := MkQuestionTurn "slack" (sample_event "U1" "C1" "send it") in
  let decide := @decide_reawaiting gate_holds gate_library 0 0 "run-1" "ann" (Some turn) taskEvents no_threads in
  exists thread, decide = Reawaits thread /\
    let ts := (join thread (join thread no_threads).1).1 in
    let first := settle_example (picking "1") yes_reply ts held_run in
    let second := settle_example (picking "1") yes_reply (settled_threads first) held_run in
    Thread.answers <$> thread_heap (settled_threads second) = [["1"]; ["1"]].
Proof. eexists; split; [vm_compute; reflexivity|vm_compute; reflexivity]. Qed.
