(* ===== verification/ConversationTasks.v ===== *)
(** * Task runs of a conversation ([connectors/runtime_pending_state.go],
    [runtime_ask_history.go], [task_control.go], [open_interactions.go], [busy_message.go],
    [prior_task_evidence.go], [agent_delivered_reply.go], [runtime.go])

    What a message finds open in its thread: the question that waits for an answer, the
    run that works, the one that has just finished, the goal it continues, the task it
    follows.  Each is the run updated last among those that qualify.  The ledger of task
    runs is of the protocol library (a submodule): a class over the store of [ApprovalGate];
    the documents of its events are JSON, decoded by functions of a class. *)

From S2P Require Export AskingThreads.

(** ** Names ([task/host_task_event_names.go]) *)

Definition TaskEventBlueclawTaskExecutionDuration : string := "blueclaw.task.execution_duration".
Definition TaskEventLaunchLimitStop : string := "blueclaw.launch.limit_stop".
Definition TaskEventLaunchGoalBlocked : string := "blueclaw.launch.goal_blocked".
Definition TaskEventLaunchOrigin : string := "blueclaw.launch.origin".
Definition TaskEventConnectorStopOutboxSuppressed : string := "blueclaw.connector.stop_outbox_suppressed".

(** ** Documents *)

(** Of the protocol library's records, the fields that are read or set. *)
Record OutcomeContract := MkContract {
  RequiredAttachmentSuffixes : list string;
  RequiredEvidenceTools : list string;
  RequiredEvidenceAnyOf : list (list string);
  (** whether a result is required, and its type *)
  ExpectedResults : list (bool * string);
  ArtifactRequirement : string;
}.

Definition no_contract : OutcomeContract := MkContract [] [] [] [] "".

Record ActiveGoal := MkGoal {
  GoalID : string;
  Goal_TaskRunID : string;
  OriginalInstruction : string;
  CurrentObjective : string;
  MissingInformation : list string;
  KnownContext : list string;
  Goal_Status : string;
  Goal_OutcomeContract : OutcomeContract;
  RestoreError : string;
}.

(** [agentcontract.ActiveGoal{}] *)
Definition no_goal : ActiveGoal := MkGoal "" "" "" "" [] [] "" no_contract "".

Record ExecutionPlan := MkPlan {
  Plan_OriginalInstruction : string;
  Plan_Summary : string;
  Plan_MissingInformation : list string;
}.

Record PriorTaskAttempt := MkAttempt {
  Attempt_Tool : string;
  ObservationID : string;
  Attempt_ToolInput : option string;
  ToolInputOmitted : bool;
}.

Record PriorTaskContext := MkPriorTask {
  Prior_TaskRunID : string;
  Prior_Status : string;
  Prior_Prompt : string;
  Prior_Result : string;
  Prior_FailureReason : string;
  Prior_OutcomeContract : OutcomeContract;
  RequestedOutputFormats : list string;
  RecordedAttempts : list PriorTaskAttempt;
  OmittedAttemptCount : Z;
}.

(** [agentcontract.PriorTaskContext{}] *)
Definition no_prior_task : PriorTaskContext := MkPriorTask "" "" "" "" "" no_contract [] [] 0.

(** ** The ledger *)

(** The events of a run come with their IDs. *)
Class TaskLedger `{ApprovalLibrary} := {
  ListTaskRunByPersonID : string -> ApprovalGate.Store -> list TaskRun;
  FindTaskRun : string -> ApprovalGate.Store -> option TaskRun;
  ListRecordedEvent : string -> ApprovalGate.Store -> list (string * TaskEvent);
  (** the run, the person, the reason; the error is not looked at *)
  CancelTaskRunWithReason : string -> string -> string -> ApprovalGate.Store -> ApprovalGate.Store;
  (** [TaskRunCancelRequest]: the runs (all of the person's, where there are none), the person, the reason *)
  CancelActiveTaskRuns : list string -> string -> string -> ApprovalGate.Store -> ApprovalGate.Store * list TaskRun;
  IsTaskRunActuallyRunning : TaskRun -> ApprovalGate.Store -> bool;
  (** whether it was interrupted *)
  InterruptInactiveTaskRun : string -> string -> ApprovalGate.Store -> ApprovalGate.Store * bool;
  IsTaskRunRequesterControllable : TaskStatus -> bool;
  status_name : TaskStatus -> string;
}.

(** Names and documents of events. *)
Class TaskDocuments := {
  TaskEventAskResolved : string;
  TaskEventAskReplyClassified : string;
  TaskEventAgentInputRequested : string;
  TaskEventAgentTaskSource : string;
  TaskEventAgentTaskLaunched : string;
  TaskEventAgentIntake : string;
  TaskEventAgentLimitStop : string;
  TaskEventConfirmationPlanCreated : string;
  AgentGoalTaskEventPrefix : string;
  TaskEventTaskCreated : string;
  TaskEventTaskRunning : string;
  TaskEventLLMCall : string;
  TaskInterruptReasonUnownedExecution : string;
  (** [ToolTaskEventName] of a tool and a suffix, and two suffixes *)
  ToolTaskEventName : string -> string -> string;
  ToolTaskEventResultSuffix : string;
  ToolTaskEventRequestedSuffix : string;
  FileDeliverToolName : string;
  ExpectedResultTypeFile : string;
  ArtifactRequirementRequired : string;
  OutcomeContractHasRequirements : OutcomeContract -> bool;
  ActiveGoalStatusWaitingApproval : string;
  ActiveGoalStatusWaitingUserInput : string;
  ActiveGoalStatusBlocked : string;
  ActiveGoalStatusActive : string;
  AppendUniqueStrings : list string -> list string -> list string;
  ask_of : string -> option AskInteraction;
  resolved_ID_of : string -> option string;
  (** an error carries its text *)
  active_goal_of : string -> result string ActiveGoal;
  execution_plan_of : string -> option ExecutionPlan;
  requested_formats_of : string -> option (list string);
  source_reference_of : string -> option string;
  attempt_of : string -> option PriorTaskAttempt;
  (** the input a call was requested with, and the text fields of such an input *)
  requested_input_of : string -> option string;
  text_fields_of : string -> option (gmap string string);
}.

(** ** The run updated last *)

(** The loops over the runs of a person: [read] is what a run is taken for, if it is;
    a later run is taken over an earlier one only when it was updated after it. *)
Definition latest_where {A} (read : TaskRun -> option A) (taskRuns : list TaskRun) : option (TaskRun * A) :=
  foldl (fun selected taskRun =>
    match read taskRun with
    | None => selected
    | Some a =>
      match selected with
      | Some (selectedTaskRun, _) =>
        if After (Run_UpdatedAt taskRun) (Run_UpdatedAt selectedTaskRun) then Some (taskRun, a) else selected
      | None => Some (taskRun, a)
      end
    end) None taskRuns.

Definition qualifies (b : bool) : option unit := if b then Some tt else None.

Section ledger.
Context `{UnicodeTables, TaskLedger, TaskDocuments}.

(** ** Where a run belongs ([task_control.go]) *)

Definition taskRunSharesMessageThread (taskRun : TaskRun) (event : PlatformInboundEvent) : bool :=
  isReplyInThread (OriginConversationID taskRun) (OriginReplyTargetID taskRun) (placementOfEvent event).

Definition taskRunMatchesStopScope (taskRun : TaskRun) (event : PlatformInboundEvent) : bool :=
  if eventIsThreadReply event then taskRunSharesMessageThread taskRun event
  else bool_decide (OriginConversationID taskRun = Event_ConversationID event) && negb (OriginIsThread taskRun).

Definition isTaskControlActiveStatus (status : TaskStatus) : bool := IsTaskRunRequesterControllable status.

Definition interruptInactiveRuntimeTaskIfNeeded (taskRun : TaskRun) (st : ApprovalGate.Store) : ApprovalGate.Store * bool :=
  if negb (bool_decide (Run_Status taskRun = TaskStatusRunning)) && negb (bool_decide (Run_Status taskRun = TaskStatusPlanned))
  then (st, false) else
  if IsTaskRunActuallyRunning taskRun st then (st, false)
  else InterruptInactiveTaskRun (Run_ID taskRun) TaskInterruptReasonUnownedExecution st.

(** One run of the loop below. *)
Definition keep_active_run (acc : ApprovalGate.Store * list TaskRun) (taskRun : TaskRun) : ApprovalGate.Store * list TaskRun :=
  let '(st, taskRuns) := acc in
  let '(st, interrupted) := interruptInactiveRuntimeTaskIfNeeded taskRun st in
  if interrupted then (st, taskRuns) else
  if isTaskControlActiveStatus (Run_Status taskRun) then (st, (taskRuns ++ [taskRun])%list) else (st, taskRuns).

Definition activeTaskRunsForPerson (personID : string) (st : ApprovalGate.Store) : ApprovalGate.Store * list TaskRun :=
  foldl keep_active_run (st, []) (ListTaskRunByPersonID personID st).

Definition latestStopScopedTask (personID : string) (event : PlatformInboundEvent) (st : ApprovalGate.Store) : ApprovalGate.Store * option TaskRun :=
  let '(st, taskRuns) := activeTaskRunsForPerson personID st in
  (st, fst <$> latest_where (fun taskRun => qualifies (taskRunMatchesStopScope taskRun event)) taskRuns).

Definition taskRunWasCancelled (taskRunID : string) (st : ApprovalGate.Store) : bool :=
  match FindTaskRun taskRunID st with
  | Some taskRun => bool_decide (Run_Status taskRun = TaskStatusCancelled)
  | None => false
  end.

(** ** Runs of a thread ([busy_message.go]) *)

Definition recentlyFinishedTaskFollowUpWindow : duration := 15 * Second.

Definition latestRecentlyFinishedConversationTask (now : instant) (personID : string) (event : PlatformInboundEvent) (st : ApprovalGate.Store)
  : option TaskRun :=
  let cutoff := GoTime.Add now (- recentlyFinishedTaskFollowUpWindow) in
  fst <$> latest_where (fun taskRun => qualifies
    (taskRunSharesMessageThread taskRun event && negb (isTaskControlActiveStatus (Run_Status taskRun)) &&
     negb (Before (Run_UpdatedAt taskRun) cutoff))) (ListTaskRunByPersonID personID st).

Definition latestCurrentConversationActiveTask (personID : string) (event : PlatformInboundEvent) (st : ApprovalGate.Store)
  : ApprovalGate.Store * option TaskRun :=
  let '(st, taskRuns) := activeTaskRunsForPerson personID st in
  (st, fst <$> latest_where (fun taskRun => qualifies (taskRunSharesMessageThread taskRun event)) taskRuns).

Definition latestRunningConversationTask (personID : string) (event : PlatformInboundEvent) (st : ApprovalGate.Store)
  : ApprovalGate.Store * option TaskRun :=
  let '(st, taskRuns) := activeTaskRunsForPerson personID st in
  (st, fst <$> latest_where (fun taskRun => qualifies
    (taskRunSharesMessageThread taskRun event && negb (bool_decide (Run_Status taskRun = TaskStatusWaitingApproval)) &&
     negb (bool_decide (Run_Status taskRun = TaskStatusWaitingUserInput)))) taskRuns).

Definition eventsThatReportNoProgress : list string := [TaskEventTaskCreated; TaskEventTaskRunning; TaskEventLLMCall].

(** [body[:240]] *)
Definition summary_body (body : string) : string :=
  let body := TrimSpace body in if 240 <? Z.of_nat (String.length body) then substring 0 240 body else body.

(** From the last event back, until there are six. *)
Fixpoint progress_summaries (room : nat) (reversed : list TaskEvent) : list string :=
  match room, reversed with
  | S room', taskEvent :: rest =>
    if bool_decide (Event_Name taskEvent ∈ eventsThatReportNoProgress) then progress_summaries room rest
    else (TrimSpace (Event_Name taskEvent) +:+ " " +:+ summary_body (Event_Body taskEvent)) :: progress_summaries room' rest
  | _, _ => []
  end.

Definition activeTaskEventSummary (taskRunID : string) (st : ApprovalGate.Store) : string :=
  let summaries := progress_summaries 6 (rev (ListTaskEvent taskRunID st)) in
  if bool_decide (summaries = []) then "No progress events have been recorded yet." else Join nl summaries.

Definition taskFactsOf (taskRun : TaskRun) (st : ApprovalGate.Store) : TaskFacts :=
  MkTaskFacts (Run_Prompt taskRun) (status_name (Run_Status taskRun)) (activeTaskEventSummary (Run_ID taskRun) st) "".

(** ** Questions ([runtime_ask_history.go], [host_task_event_names.go]) *)

Definition IsAskRequestedEvent (eventName : string) : bool :=
  bool_decide (eventName = TaskEventAskRequested) || bool_decide (eventName = TaskEventAgentInputRequested).

Definition askResolvedInteractionID (taskEvent : TaskEvent) : string :=
  match resolved_ID_of (Event_Body taskEvent) with Some interactionID => TrimSpace interactionID | None => "" end.

Definition with_ask_IDs (taskRunID interactionID : string) (interaction : AskInteraction) : AskInteraction :=
  let '(MkAsk i r k m q os rec sel lang target) := interaction in
  MkAsk (firstNonEmptyString [i; interactionID]) (firstNonEmptyString [r; taskRunID]) k m q os rec sel lang target.

(** From the last event back, with the IDs found resolved. *)
Fixpoint open_ask (taskRunID : string) (resolved : gset string) (reversed : list (string * TaskEvent)) : option AskInteraction :=
  match reversed with
  | [] => None
  | (taskEventID, taskEvent) :: rest =>
    if bool_decide (Event_Name taskEvent = TaskEventAskResolved) then
      let interactionID := askResolvedInteractionID taskEvent in
      open_ask taskRunID (if bool_decide (interactionID = "") then resolved else {[interactionID]} ∪ resolved) rest
    else if negb (IsAskRequestedEvent (Event_Name taskEvent)) then open_ask taskRunID resolved rest else
    match ask_of (Event_Body taskEvent) with
    | None => open_ask taskRunID resolved rest
    | Some interaction =>
      let interaction := with_ask_IDs taskRunID taskEventID interaction in
      if bool_decide (TrimSpace (InteractionID interaction) ∈ resolved) || blank (Ask_Kind interaction)
      then open_ask taskRunID resolved rest else Some interaction
    end
  end.

Definition latestAskInteraction (taskRunID : string) (taskEvents : list (string * TaskEvent)) : option AskInteraction :=
  open_ask taskRunID ∅ (rev taskEvents).

(** ** Goals and prior tasks ([runtime_pending_state.go]) *)

Definition findPendingAskInteraction (personID : string) (event : PlatformInboundEvent) (st : ApprovalGate.Store) : option AskInteraction :=
  snd <$> latest_where (fun taskRun =>
    if negb (bool_decide (Run_Status taskRun = TaskStatusWaitingUserInput)) || negb (taskRunSharesMessageThread taskRun event)
    then None else latestAskInteraction (Run_ID taskRun) (ListRecordedEvent (Run_ID taskRun) st)) (ListTaskRunByPersonID personID st).

Definition activeGoalFromConfirmationPlan (taskEvents : list TaskEvent) : ActiveGoal :=
  match list_find (fun taskEvent => Event_Name taskEvent = TaskEventConfirmationPlanCreated /\ is_Some (execution_plan_of (Event_Body taskEvent)))
          (rev taskEvents) with
  | Some (_, taskEvent) =>
    match execution_plan_of (Event_Body taskEvent) with
    | Some plan => MkGoal "" "" (TrimSpace (Plan_OriginalInstruction plan)) (TrimSpace (Plan_Summary plan))
        (Plan_MissingInformation plan) [] ActiveGoalStatusWaitingUserInput no_contract ""
    | None => no_goal
    end
  | None => no_goal
  end.

Definition is_goal_event (taskEvent : TaskEvent) : bool :=
  HasPrefix (Event_Name taskEvent) AgentGoalTaskEventPrefix || bool_decide (Event_Name taskEvent = TaskEventLaunchGoalBlocked).

Definition latestActiveGoal (taskEvents : list TaskEvent) : ActiveGoal :=
  match find is_goal_event (rev taskEvents) with
  | Some taskEvent =>
    match active_goal_of (Event_Body taskEvent) with
    | Ok activeGoal => activeGoal
    | Err message => MkGoal "" "" "" "" [] [] "" no_contract ("latest active goal event is invalid: " +:+ message)
    end
  | None => activeGoalFromConfirmationPlan taskEvents
  end.

Definition activeGoalStatusForTaskRun (taskRun : TaskRun) : string :=
  match Run_Status taskRun with
  | TaskStatusWaitingApproval => ActiveGoalStatusWaitingApproval
  | TaskStatusWaitingUserInput => ActiveGoalStatusWaitingUserInput
  | TaskStatusBlocked => ActiveGoalStatusBlocked
  | _ => ActiveGoalStatusActive
  end.

Definition activeGoalForTaskRun (selectedTaskRun : TaskRun) (st : ApprovalGate.Store) : ActiveGoal :=
  let '(MkGoal g r i o mi kc s c e) := latestActiveGoal (ListTaskEvent (Run_ID selectedTaskRun) st) in
  MkGoal (if blank g then Run_ID selectedTaskRun else g) (if blank r then Run_ID selectedTaskRun else r)
    (if blank i then Run_Prompt selectedTaskRun else i) o mi kc
    (if bool_decide (s = "") then activeGoalStatusForTaskRun selectedTaskRun else s) c e.

Definition toolNamesContain (toolNames : list string) (expectedToolName : string) : bool :=
  existsb (fun toolName => bool_decide (TrimSpace toolName = expectedToolName)) toolNames.

Definition toolNameGroupsContain (toolNameGroups : list (list string)) (expectedToolName : string) : bool :=
  existsb (fun toolNameGroup => toolNamesContain toolNameGroup expectedToolName) toolNameGroups.

Definition outcomeContractRequiresFileAttachment (contract : OutcomeContract) : bool :=
  negb (bool_decide (RequiredAttachmentSuffixes contract = [])) ||
  toolNamesContain (RequiredEvidenceTools contract) FileDeliverToolName ||
  toolNameGroupsContain (RequiredEvidenceAnyOf contract) FileDeliverToolName ||
  existsb (fun result => result.1 && bool_decide (result.2 = ExpectedResultTypeFile)) (ExpectedResults contract) ||
  (bool_decide (ArtifactRequirement contract = ArtifactRequirementRequired) && OutcomeContractHasRequirements contract).

Definition taskRunHasLimitStop (taskEvents : list TaskEvent) : bool :=
  existsb (fun taskEvent => bool_decide (Event_Name taskEvent = TaskEventAgentLimitStop) ||
    bool_decide (Event_Name taskEvent = TaskEventLaunchLimitStop)) (rev taskEvents).

Definition taskRunHasRecoverableArtifactDelivery (taskEvents : list TaskEvent) : bool :=
  outcomeContractRequiresFileAttachment (Goal_OutcomeContract (latestActiveGoal taskEvents)).

Definition taskRunCanContinueGoal (taskRun : TaskRun) (taskEvents : list TaskEvent) : bool :=
  match Run_Status taskRun with
  | TaskStatusWaitingUserInput | TaskStatusWaitingApproval => true
  | TaskStatusBlocked => taskRunHasLimitStop taskEvents || taskRunHasRecoverableArtifactDelivery taskEvents
  | _ => false
  end.

(** [ts]: the threads that wait, for a run that is asked about goes on through its thread. *)
Definition findActiveGoal (now : instant) (personID : string) (event : PlatformInboundEvent) (ts : askingThreads) (st : ApprovalGate.Store)
  : option ActiveGoal :=
  (fun selected => activeGoalForTaskRun selected.1 st) <$> latest_where (fun taskRun => qualifies
    (taskRunCanContinueGoal taskRun (ListTaskEvent (Run_ID taskRun) st) && negb (isAwaiting (Run_ID taskRun) ts) &&
     taskRunSharesMessageThread taskRun event && negb (approvalExpiry <? Sub now (Run_UpdatedAt taskRun))))
    (ListTaskRunByPersonID personID st).

Definition taskRunCanProvidePriorContext (taskRun : TaskRun) : bool :=
  match Run_Status taskRun with TaskStatusBlocked | TaskStatusFailed | TaskStatusCompleted => true | _ => false end.

Definition outputFormatsFromAttachmentSuffixes (suffixes : list string) : list string :=
  foldl (fun formats suffix =>
    let format := TrimPrefix (ToLower (TrimSpace suffix)) "." in
    if bool_decide (format ∈ ["html"; "pptx"; "pdf"; "txt"; "docx"; "xlsx"; "csv"])
    then AppendUniqueStrings formats [format] else formats) [] suffixes.

(** [latestIntakeDecision(...).RequestedOutputFormats] *)
Definition latestIntakeFormats (taskEvents : list TaskEvent) : list string :=
  match list_find (fun taskEvent => Event_Name taskEvent = TaskEventAgentIntake /\ is_Some (requested_formats_of (Event_Body taskEvent)))
          (rev taskEvents) with
  | Some (_, taskEvent) => default [] (requested_formats_of (Event_Body taskEvent))
  | None => []
  end.

(** [prior_task_evidence.go] *)
Definition priorTaskAttemptLimit : Z := 12.
Definition priorTaskInputByteLimit : Z := 2048.

Definition recorded_attempt (taskEvent : TaskEvent) : option PriorTaskAttempt :=
  let toolName := TrimSuffix (TrimPrefix (Event_Name taskEvent) "tool.") ToolTaskEventResultSuffix in
  if negb (bool_decide (Event_Name taskEvent = ToolTaskEventName toolName ToolTaskEventResultSuffix)) then None else
  match attempt_of (Event_Body taskEvent) with
  | None => None
  | Some attempt =>
    if bool_decide (ObservationID attempt = "") then None else
    if priorTaskInputByteLimit <? match Attempt_ToolInput attempt with Some input => Z.of_nat (String.length input) | None => 0 end
    then Some (MkAttempt (CanonicalToolName toolName) (ObservationID attempt) None true)
    else Some (MkAttempt (CanonicalToolName toolName) (ObservationID attempt) (Attempt_ToolInput attempt) (ToolInputOmitted attempt))
  end.

Definition priorTaskRecordedAttempts (taskEvents : list TaskEvent) : list PriorTaskAttempt * Z :=
  let attempts := omap recorded_attempt taskEvents in
  let omittedCount := Z.max 0 (Z.of_nat (length attempts) - priorTaskAttemptLimit) in
  (drop (Z.to_nat omittedCount) attempts, omittedCount).

Definition priorTaskContextForTaskRun (taskRun : TaskRun) (taskEvents : list TaskEvent) : PriorTaskContext :=
  let activeGoal := latestActiveGoal taskEvents in
  let requestedOutputFormats := AppendUniqueStrings (AppendUniqueStrings [] (latestIntakeFormats taskEvents))
    (outputFormatsFromAttachmentSuffixes (RequiredAttachmentSuffixes (Goal_OutcomeContract activeGoal))) in
  let '(attempts, omittedAttemptCount) := priorTaskRecordedAttempts taskEvents in
  MkPriorTask (TrimSpace (Run_ID taskRun)) (status_name (Run_Status taskRun)) (TrimSpace (Run_Prompt taskRun))
    (TrimSpace (Run_Result taskRun)) (TrimSpace (Run_FailureReason taskRun)) (Goal_OutcomeContract activeGoal)
    requestedOutputFormats attempts omittedAttemptCount.

Definition findPriorTaskContext (now : instant) (personID : string) (event : PlatformInboundEvent) (st : ApprovalGate.Store)
  : option PriorTaskContext :=
  snd <$> latest_where (fun taskRun =>
    if taskRunCanProvidePriorContext taskRun && taskRunSharesMessageThread taskRun event &&
       negb (72 * Hour <? Sub now (Run_UpdatedAt taskRun))
    then Some (priorTaskContextForTaskRun taskRun (ListTaskEvent (Run_ID taskRun) st)) else None)
    (ListTaskRunByPersonID personID st).

Definition activeGoalForLaunch (activeGoal : option ActiveGoal) : ActiveGoal := default no_goal activeGoal.

(** ** Source references ([runtime.go]) *)

Definition isSourceReferenceRecord (eventName : string) : bool :=
  bool_decide (eventName ∈ [TaskEventAgentTaskSource; TaskEventAgentTaskLaunched; TaskEventLaunchOrigin]).

Definition taskEventSourceReference (taskEvent : TaskEvent) : string :=
  match source_reference_of (Event_Body taskEvent) with Some sourceReference => TrimSpace sourceReference | None => "" end.

Definition taskRunHasSourceReference (taskRunID sourceReference : string) (st : ApprovalGate.Store) : bool :=
  existsb (fun taskEvent => isSourceReferenceRecord (Event_Name taskEvent) &&
    bool_decide (taskEventSourceReference taskEvent = sourceReference)) (ListTaskEvent taskRunID st).

Definition FindTaskRunBySourceReference (personID sourceReference : string) (st : ApprovalGate.Store) : option TaskRun :=
  let trimmedSourceReference := TrimSpace sourceReference in
  if bool_decide (trimmedSourceReference = "") then None else
  fst <$> latest_where (fun taskRun => qualifies (taskRunHasSourceReference (Run_ID taskRun) trimmedSourceReference st))
    (ListTaskRunByPersonID personID st).

(** ** What the agent has sent itself ([agent_delivered_reply.go]) *)

Definition messageSendToolName : string := "message_send".

Definition messageSendTargets (toolInput : string) (knownTargets : list string) : bool :=
  match text_fields_of toolInput with
  | None => false
  | Some decodedInput =>
    existsb (fun fieldName =>
      match decodedInput !! fieldName with
      | Some value => existsb (fun knownTarget => bool_decide (TrimSpace value = knownTarget)) knownTargets
      | None => false
      end) ["conversationID"; "targetID"; "channelID"; "threadID"; "replyTargetID"]
  end.

Definition messageSendSucceeded (taskEvents : list TaskEvent) : bool :=
  existsb (fun taskEvent =>
    bool_decide (Event_Name taskEvent = ToolTaskEventName messageSendToolName ToolTaskEventResultSuffix) &&
    negb (Contains (Event_Body taskEvent) (double_quoted "failure"))) taskEvents.

Definition agentAlreadyDeliveredTo (taskEvents : list TaskEvent) (deliveryTargets : list string) : bool :=
  let knownTargets := filter (fun target => target <> "") (map TrimSpace deliveryTargets) in
  if bool_decide (knownTargets = []) then false else
  if negb (messageSendSucceeded taskEvents) then false else
  existsb (fun taskEvent =>
    bool_decide (Event_Name taskEvent = ToolTaskEventName messageSendToolName ToolTaskEventRequestedSuffix) &&
    match requested_input_of (Event_Body taskEvent) with
    | Some input => messageSendTargets input knownTargets
    | None => false
    end) taskEvents.

Definition agentAlreadyReplied (taskRunID : string) (deliveryTargets : list string) (st : ApprovalGate.Store) : bool :=
  if blank taskRunID then false else agentAlreadyDeliveredTo (ListTaskEvent taskRunID st) deliveryTargets.

(** ** What is open ([open_interactions.go]) *)

Record openInteractions := MkOpen {
  open_ask_ : option AskInteraction;
  askTaskRun : TaskRun;
  runningTask : option TaskRun;
}.

Definition isEmpty (open : openInteractions) : bool := negb (is_some (open_ask_ open)) && negb (is_some (runningTask open)).

Definition readOpenInteractions (personID : string) (event : PlatformInboundEvent) (st : ApprovalGate.Store) : ApprovalGate.Store * openInteractions :=
  let ask := findPendingAskInteraction personID event st in
  let askRun := match ask with Some ask => default no_run (FindTaskRun (Ask_TaskRunID ask) st) | None => no_run end in
  let '(st, running) := latestRunningConversationTask personID event st in
  (st, MkOpen ask askRun running).

End ledger.

(** ** Lemmas: the run updated last *)

Section latest.
Context {A : Type} (read : TaskRun -> option A).

(** What is selected is a run that qualifies, and none that qualifies was updated after it. *)
Definition selects (taskRuns : list TaskRun) (selected : option (TaskRun * A)) : Prop :=
  match selected with
  | Some (taskRun, a) => taskRun ∈ taskRuns /\ read taskRun = Some a /\
      forall taskRun', taskRun' ∈ taskRuns -> is_Some (read taskRun') -> Run_UpdatedAt taskRun' <= Run_UpdatedAt taskRun
  | None => forall taskRun, taskRun ∈ taskRuns -> read taskRun = None
  end.

Lemma latest_where_selects taskRuns : selects taskRuns (latest_where read taskRuns).
Proof.
  unfold latest_where; induction taskRuns as [|taskRun taskRuns IH] using rev_ind; [by intros r ?%elem_of_nil|].
  rewrite foldl_app; cbn [foldl]; set (selected := foldl _ _ _) in *.
  destruct (read taskRun) as [a|] eqn:Hr.
  - destruct selected as [[best b]|]; cbn [selects] in *.
    + destruct IH as (Hin & Hb & Hmax); unfold After; destruct (Run_UpdatedAt best <? Run_UpdatedAt taskRun) eqn:Hafter; cbn.
      * apply Z.ltb_lt in Hafter; split_and!; [apply elem_of_app; right; by left|done|].
        intros r [Hr'| ->%list_elem_of_singleton]%elem_of_app Hs; [specialize (Hmax r Hr' Hs); lia|lia].
      * apply Z.ltb_ge in Hafter; split_and!; [apply elem_of_app; by left|done|].
        intros r [Hr'| ->%list_elem_of_singleton]%elem_of_app Hs; [by apply Hmax|lia].
    + split_and!; [apply elem_of_app; right; by left|done|].
      intros r [Hr'| ->%list_elem_of_singleton]%elem_of_app [x Hx]; [by rewrite IH in Hx|lia].
  - destruct selected as [[best b]|]; cbn [selects] in *.
    + destruct IH as (Hin & Hb & Hmax); split_and!; [apply elem_of_app; by left|done|].
      intros r [Hr'| ->%list_elem_of_singleton]%elem_of_app Hs; [by apply Hmax|]; destruct Hs as [x Hx]; congruence.
    + intros r [Hr'| ->%list_elem_of_singleton]%elem_of_app; [by apply IH|done].
Qed.

Lemma latest_where_Some taskRuns taskRun a :
  latest_where read taskRuns = Some (taskRun, a) -> taskRun ∈ taskRuns /\ read taskRun = Some a.
Proof. intros Hl; pose proof (latest_where_selects taskRuns) as Hs; rewrite Hl in Hs; by destruct Hs as (? & ? & _). Qed.

Lemma fst_latest_where_Some taskRuns taskRun :
  fst <$> latest_where read taskRuns = Some taskRun -> taskRun ∈ taskRuns /\ is_Some (read taskRun).
Proof.
  destruct (latest_where read taskRuns) as [[r a]|] eqn:Hl; [|done]; intros [= <-].
  apply latest_where_Some in Hl as [? ?]; split; [done|by exists a].
Qed.

End latest.

(** ** What the ledger promises *)

Section frames.
Context `{TaskLedger}.

Definition run_requester (taskRunID : string) (st : ApprovalGate.Store) : option string :=
  Run_RequesterPersonID <$> FindTaskRun taskRunID st.

Definition run_view (taskRunID : string) (st : ApprovalGate.Store) : option TaskRun * list TaskEvent :=
  (FindTaskRun taskRunID st, ListTaskEvent taskRunID st).

(** Only the runs of [touched] change, and no run changes its requester. *)
Definition only_touches (touched : string -> Prop) (st st' : ApprovalGate.Store) : Prop :=
  (forall taskRunID, ~ touched taskRunID -> run_view taskRunID st' = run_view taskRunID st) /\
  (forall taskRunID, run_requester taskRunID st' = run_requester taskRunID st).

(** The runs of a person. *)
Definition runs_of (personID : string) (st : ApprovalGate.Store) (taskRunID : string) : Prop :=
  run_requester taskRunID st = Some personID.

Lemma only_touches_refl touched st : only_touches touched st st.
Proof. done. Qed.

Lemma only_touches_trans touched st st1 st2 :
  only_touches touched st st1 -> only_touches touched st1 st2 -> only_touches touched st st2.
Proof. intros [Hv Hr] [Hv' Hr']; split; intros id; [intros Hid; by rewrite Hv', Hv|by rewrite Hr', Hr]. Qed.

Lemma only_touches_weaken (touched touched' : string -> Prop) st st' :
  (forall id, touched id -> touched' id) -> only_touches touched st st' -> only_touches touched' st st'.
Proof. intros Hw [Hv Hr]; split; [intros id Hid; apply Hv; by intros ?%Hw|done]. Qed.

End frames.

(** A run that is listed is the person's, and says so; an operation on a run leaves the others, and
    requesters, as they are; only runs of the person are cancelled for them; the run that is
    interrupted is the one named. *)
Class LedgerLaws `{TaskLedger} : Prop := {
  listed_run personID taskRun st :
    taskRun ∈ ListTaskRunByPersonID personID st -> runs_of personID st (Run_ID taskRun);
  listed_requester personID taskRun st :
    taskRun ∈ ListTaskRunByPersonID personID st -> Run_RequesterPersonID taskRun = personID;
  append_touches taskRunID taskEvent st :
    only_touches (fun id => id = taskRunID) st (AppendEvent taskRunID taskEvent st);
  cancel_touches taskRunID personID reason st :
    only_touches (fun id => id = taskRunID) st (CancelTaskRunWithReason taskRunID personID reason st);
  cancel_active_touches taskRunIDs personID reason st :
    only_touches (runs_of personID st) st (CancelActiveTaskRuns taskRunIDs personID reason st).1;
  cancelled_runs taskRunIDs personID reason st taskRun :
    taskRun ∈ (CancelActiveTaskRuns taskRunIDs personID reason st).2 -> runs_of personID st (Run_ID taskRun);
  interrupt_touches taskRunID reason st :
    only_touches (fun id => id = taskRunID) st (InterruptInactiveTaskRun taskRunID reason st).1;
}.

Section owned.
Context `{UnicodeTables, LedgerLaws, TaskDocuments}.

Lemma runs_of_kept touched st st' personID id :
  only_touches touched st st' -> runs_of personID st' id <-> runs_of personID st id.
Proof. intros [_ Hr]; unfold runs_of; by rewrite Hr. Qed.

(** Operations on a run of the person. *)
Lemma append_own personID st st' taskRunID taskEvent :
  only_touches (runs_of personID st) st st' -> runs_of personID st taskRunID ->
  only_touches (runs_of personID st) st (AppendEvent taskRunID taskEvent st').
Proof.
  intros Ht Hid; eapply only_touches_trans; [exact Ht|]; eapply only_touches_weaken; [|apply append_touches]; by intros id ->.
Qed.

Lemma cancel_own personID st st' taskRunID person reason :
  only_touches (runs_of personID st) st st' -> runs_of personID st taskRunID ->
  only_touches (runs_of personID st) st (CancelTaskRunWithReason taskRunID person reason st').
Proof.
  intros Ht Hid; eapply only_touches_trans; [exact Ht|]; eapply only_touches_weaken; [|apply cancel_touches]; by intros id ->.
Qed.

Lemma interruptInactive_own personID st st' taskRun :
  only_touches (runs_of personID st) st st' -> runs_of personID st (Run_ID taskRun) ->
  only_touches (runs_of personID st) st (interruptInactiveRuntimeTaskIfNeeded taskRun st').1.
Proof.
  intros Ht Hid; unfold interruptInactiveRuntimeTaskIfNeeded; repeat split_match; try done.
  eapply only_touches_trans; [exact Ht|]; eapply only_touches_weaken; [|apply interrupt_touches]; by intros id ->.
Qed.

Lemma keep_active_run_spec personID st todo st' kept :
  Forall (fun taskRun => taskRun ∈ ListTaskRunByPersonID personID st) todo ->
  only_touches (runs_of personID st) st st' ->
  Forall (fun taskRun => taskRun ∈ ListTaskRunByPersonID personID st) kept ->
  only_touches (runs_of personID st) st (foldl keep_active_run (st', kept) todo).1 /\
  Forall (fun taskRun => taskRun ∈ ListTaskRunByPersonID personID st) (foldl keep_active_run (st', kept) todo).2.
Proof.
  intros Hall; revert st' kept; induction Hall as [|taskRun todo Hin Hall IH]; intros st' kept Ht Hk; [done|].
  cbn [foldl keep_active_run]; pose proof (interruptInactive_own personID st st' taskRun Ht (listed_run _ _ _ Hin)) as Hi.
  destruct (interruptInactiveRuntimeTaskIfNeeded taskRun st') as [st1 interrupted]; cbn [fst] in Hi.
  destruct interrupted; [by apply IH|]; destruct (isTaskControlActiveStatus _); [|by apply IH].
  apply IH; [done|]; apply Forall_app; split; [done|by apply Forall_singleton].
Qed.

(** The runs that are active are listed, and looking for them touches only the person's. *)
Lemma activeTaskRunsForPerson_spec personID st :
  only_touches (runs_of personID st) st (activeTaskRunsForPerson personID st).1 /\
  Forall (fun taskRun => taskRun ∈ ListTaskRunByPersonID personID st) (activeTaskRunsForPerson personID st).2.
Proof. apply keep_active_run_spec; [by apply Forall_forall|apply only_touches_refl|constructor]. Qed.

Lemma active_run_owned personID st taskRun :
  taskRun ∈ (activeTaskRunsForPerson personID st).2 -> runs_of personID st (Run_ID taskRun).
Proof.
  intros Hin; destruct (activeTaskRunsForPerson_spec personID st) as [_ Hall]; rewrite Forall_forall in Hall.
  by apply (listed_run personID), Hall.
Qed.

End owned.

(** ** A ledger of concrete runs *)

Definition store_events (taskRunID : string) (st : gmap string (TaskRun * list TaskEvent)) : list TaskEvent :=
  match st !! taskRunID with Some (_, taskEvents) => taskEvents | None => [] end.
Definition store_append (taskRunID : string) (taskEvent : TaskEvent) (st : gmap string (TaskRun * list TaskEvent)) : gmap string (TaskRun * list TaskEvent) :=
  alter (fun row => (row.1, (row.2 ++ [taskEvent])%list)) taskRunID st.
Definition set_Run_Status (status : TaskStatus) (taskRun : TaskRun) : TaskRun :=
  let '(MkTaskRun i p _ u pr r f c t th) := taskRun in MkTaskRun i p status u pr r f c t th.
Definition store_status (status : TaskStatus) (taskRunID : string) (st : gmap string (TaskRun * list TaskEvent)) : gmap string (TaskRun * list TaskEvent) :=
  alter (fun row => (set_Run_Status status row.1, row.2)) taskRunID st.

Definition ledger_library : @ApprovalLibrary gate_holds := {|
  ApprovalGate.Store := gmap string (TaskRun * list TaskEvent);
  ApprovalGate.ListTaskEvent := store_events;
  ApprovalGate.AppendEvent := store_append;
  ApprovalGate.PauseTaskRun := fun taskRunID _ st => Some (store_status TaskStatusWaitingApproval taskRunID st);
  ApprovalGate.AdvanceTaskRun := fun taskRunID _ st => Some (store_status TaskStatusRunning taskRunID st);
  ApprovalGate.CurrentAgentProfileName := fun _ _ => None;
  ApprovalGate.LatestHold := @ApprovalGate.LatestHold gate_holds gate_library;
  ApprovalGate.StatePending := "pending";
  ApprovalGate.StateRejected := "reject";
  ApprovalGate.ApprovedHoldForCall := @ApprovalGate.ApprovedHoldForCall gate_holds gate_library;
  ApprovalGate.HeldCallOf := @ApprovalGate.HeldCallOf gate_holds gate_library;
  ApprovalGate.Open := fun taskRunID call _ st =>
    (store_append taskRunID (HeldCalls.MkEvent "opened" (Call_ToolName call)) st,
     MkHold (Itoa (Z.of_nat (length (store_events taskRunID st)))) (Call_ToolName call) "{}" [] "pending");
  ApprovalGate.DecideHold := fun taskRunID holdID decision _ st => store_append taskRunID (HeldCalls.MkEvent ("decided:" +:+ holdID) decision) st;
  ApprovalGate.Spend := fun taskRunID holdID _ _ st => store_append taskRunID (HeldCalls.MkEvent ("spent:" +:+ holdID) "") st;
  ApprovalGate.SpendApprovedCall := fun _ _ _ st => (st, false);
  ApprovalGate.ApprovedInput := fun call => Call_ToolInput call;
  ApprovalGate.IsResolved := fun target => negb (bool_decide (Approval_ID target = ""));
  ApprovalGate.ApprovalSignalApprove := "approve";
  ApprovalGate.ApprovalSignalReject := "reject";
  ApprovalGate.IsApprovalSignalName := fun signal => bool_decide (signal ∈ ["approve"; "reject"]);
  ApprovalGate.DecisionReject := "reject";
  ApprovalGate.DecisionDefer := "defer";
  ApprovalGate.TaskEventConfirmationRequested := "confirmation.requested";
  ApprovalGate.TaskEventAskRequested := "ask.requested";
  ApprovalGate.marshal_event_body := fun fields => Join "," (map (fun kv => kv.1 +:+ "=" +:+ kv.2) fields);
  ApprovalGate.marshal_deferral := fun toolName _ scheduleID _ => toolName +:+ "@" +:+ scheduleID;
  ApprovalGate.unmarshal_object := fun _ => None;
  ApprovalGate.marshal_object := fun _ => None;
  ApprovalGate.marshal_identity := fun _ => None;
  ApprovalGate.asked_question_of := fun _ => "";
|}.

Definition is_active (status : TaskStatus) : bool :=
  bool_decide (status ∈ [TaskStatusPlanned; TaskStatusRunning; TaskStatusWaitingApproval; TaskStatusWaitingUserInput; TaskStatusBlocked]).

Definition is_run_of (personID : string) (row : TaskRun * list TaskEvent) : bool :=
  bool_decide (Run_RequesterPersonID row.1 = personID).

Definition store_cancel (taskRunID personID : string) (st : gmap string (TaskRun * list TaskEvent)) : gmap string (TaskRun * list TaskEvent) :=
  match st !! taskRunID with
  | Some row => if is_run_of personID row then store_status TaskStatusCancelled taskRunID st else st
  | None => st
  end.

(** The runs that are cancelled for a person. *)
Definition store_cancelled (taskRunIDs : list string) (personID : string) (st : gmap string (TaskRun * list TaskEvent)) : list TaskRun :=
  omap (fun kv => if is_run_of personID kv.2 && bool_decide (Run_ID kv.2.1 = kv.1) && is_active (Run_Status kv.2.1) &&
      (bool_decide (taskRunIDs = []) || bool_decide (kv.1 ∈ taskRunIDs))
    then Some (set_Run_Status TaskStatusCancelled kv.2.1) else None) (map_to_list st).

Definition example_ledger : @TaskLedger gate_holds ledger_library :=
  @Build_TaskLedger gate_holds ledger_library
    (fun personID st => omap (fun kv => if is_run_of personID kv.2 && bool_decide (Run_ID kv.2.1 = kv.1)
      then Some kv.2.1 else None) (map_to_list st))
    (fun taskRunID st => fst <$> st !! taskRunID)
    (fun taskRunID st => imap (fun index taskEvent => ("event-" +:+ Itoa (Z.of_nat index), taskEvent)) (store_events taskRunID st))
    (fun taskRunID personID _ st => store_cancel taskRunID personID st)
    (fun taskRunIDs personID _ st =>
      let cancelled := store_cancelled taskRunIDs personID st in
      (foldl (fun st taskRun => store_cancel (Run_ID taskRun) personID st) st cancelled, cancelled))
    (fun _ _ => true)
    (fun taskRunID _ st => (store_status TaskStatusInterrupted taskRunID st, true))
    is_active
    (fun _ => "").

Definition example_documents : TaskDocuments := {|
  TaskEventAskResolved := "ask.resolved";
  TaskEventAskReplyClassified := "ask.reply_classified";
  TaskEventAgentInputRequested := "agent.input_requested";
  TaskEventAgentTaskSource := "agent.task_source";
  TaskEventAgentTaskLaunched := "agent.task_launched";
  TaskEventAgentIntake := "agent.intake";
  TaskEventAgentLimitStop := "agent.limit_stop";
  TaskEventConfirmationPlanCreated := "confirmation.plan_created";
  AgentGoalTaskEventPrefix := "agent.goal.";
  TaskEventTaskCreated := "task.created";
  TaskEventTaskRunning := "task.running";
  TaskEventLLMCall := "llm.call";
  TaskInterruptReasonUnownedExecution := "unowned_execution";
  ToolTaskEventName := fun toolName suffix => "tool." +:+ toolName +:+ suffix;
  ToolTaskEventResultSuffix := ".result";
  ToolTaskEventRequestedSuffix := ".requested";
  FileDeliverToolName := "file_deliver";
  ExpectedResultTypeFile := "file";
  ArtifactRequirementRequired := "required";
  OutcomeContractHasRequirements := fun _ => false;
  ActiveGoalStatusWaitingApproval := "waiting_approval";
  ActiveGoalStatusWaitingUserInput := "waiting_user_input";
  ActiveGoalStatusBlocked := "blocked";
  ActiveGoalStatusActive := "active";
  AppendUniqueStrings := fun values more => (values ++ filter (fun v => v ∉ values) more)%list;
  ask_of := fun body => Some (MkAsk "" "" "text" "" body [] "" "" "" "");
  resolved_ID_of := Some;
  active_goal_of := fun body => Err body;
  execution_plan_of := fun _ => None;
  requested_formats_of := fun _ => None;
  source_reference_of := Some;
  attempt_of := fun _ => None;
  requested_input_of := Some;
  text_fields_of := fun body => Some {["conversationID" := body]};
|}.

Definition sample_run (taskRunID personID : string) (status : TaskStatus) (updatedAt : instant) : TaskRun :=
  MkTaskRun taskRunID personID status updatedAt "Write a report" "" "" "C1" "m1" true.

(** An operation that alters a row, but not whose run it is. *)
Lemma alter_touches taskRunID (f : TaskRun * list TaskEvent -> TaskRun * list TaskEvent) (st : gmap string (TaskRun * list TaskEvent)) :
  (forall row, Run_RequesterPersonID (f row).1 = Run_RequesterPersonID row.1) ->
  @only_touches gate_holds ledger_library example_ledger (fun id => id = taskRunID) st (alter f taskRunID st).
Proof.
  intros Hf; split.
  - intros id Hid; unfold run_view; cbn; unfold store_events; by rewrite lookup_alter_ne by congruence.
  - intros id; unfold run_requester; cbn; destruct (decide (id = taskRunID)) as [->|Hid].
    + rewrite lookup_alter_eq; destruct (st !! taskRunID) as [row|]; [|done]; cbn; by rewrite Hf.
    + by rewrite lookup_alter_ne by congruence.
Qed.

Lemma set_Run_Status_requester status taskRun :
  Run_RequesterPersonID (set_Run_Status status taskRun) = Run_RequesterPersonID taskRun.
Proof. by destruct taskRun. Qed.

Lemma store_cancel_touches taskRunID personID (st : gmap string (TaskRun * list TaskEvent)) :
  @only_touches gate_holds ledger_library example_ledger (fun id => id = taskRunID) st (store_cancel taskRunID personID st).
Proof.
  unfold store_cancel; destruct (st !! taskRunID) as [row|]; [|done]; destruct (is_run_of personID row); [|done].
  apply alter_touches; intros row'; apply set_Run_Status_requester.
Qed.

Lemma store_cancel_own taskRunID personID (st st' : gmap string (TaskRun * list TaskEvent)) :
  @only_touches gate_holds ledger_library example_ledger (@runs_of gate_holds ledger_library example_ledger personID st) st st' ->
  @only_touches gate_holds ledger_library example_ledger (@runs_of gate_holds ledger_library example_ledger personID st) st
    (store_cancel taskRunID personID st').
Proof.
  intros Ht; unfold store_cancel; destruct (st' !! taskRunID) as [row|] eqn:Hrow; [|done].
  destruct (is_run_of personID row) eqn:Hown; [|done].
  eapply only_touches_trans; [exact Ht|]; eapply only_touches_weaken;
    [|apply alter_touches; intros row'; apply set_Run_Status_requester].
  intros id ->; destruct Ht as [_ Hr]; unfold runs_of; rewrite <- Hr; unfold run_requester; cbn; rewrite Hrow; cbn.
  apply bool_decide_eq_true in Hown; by rewrite Hown.
Qed.

Lemma store_cancels_own (cancelled : list TaskRun) personID (st st' : gmap string (TaskRun * list TaskEvent)) :
  @only_touches gate_holds ledger_library example_ledger (@runs_of gate_holds ledger_library example_ledger personID st) st st' ->
  @only_touches gate_holds ledger_library example_ledger (@runs_of gate_holds ledger_library example_ledger personID st) st
    (foldl (fun st taskRun => store_cancel (Run_ID taskRun) personID st) st' cancelled).
Proof.
  revert st'; induction cancelled as [|taskRun cancelled IH]; intros st' Ht; [done|]; cbn [foldl].
  by apply IH, store_cancel_own.
Qed.

Lemma stored_row k row (st : gmap string (TaskRun * list TaskEvent)) : (k, row) ∈ map_to_list st -> st !! k = Some row.
Proof. apply elem_of_map_to_list. Qed.

#[export] Instance example_ledger_laws : @LedgerLaws gate_holds ledger_library example_ledger.
Proof.
  constructor.
  - intros personID taskRun st ([k row] & Hin & Hr)%list_elem_of_omap; cbn [snd fst] in Hr.
    apply stored_row in Hin; destruct (is_run_of personID row && bool_decide (Run_ID row.1 = k)) eqn:Hown; [|done].
    injection Hr as <-; apply andb_true_iff in Hown as [Hown Hid]; apply bool_decide_eq_true in Hid.
    unfold runs_of, run_requester; cbn; rewrite Hid, Hin; cbn; apply bool_decide_eq_true in Hown; by rewrite Hown.
  - intros personID taskRun st ([k row] & _ & Hr)%list_elem_of_omap; cbn [snd fst] in Hr.
    destruct (is_run_of personID row && _) eqn:Hown; [|done]; injection Hr as <-.
    by apply andb_true_iff in Hown as [?%bool_decide_eq_true _].
  - intros taskRunID taskEvent st; by apply alter_touches.
  - intros taskRunID personID reason st; apply store_cancel_touches.
  - intros taskRunIDs personID reason st; cbn [CancelActiveTaskRuns example_ledger fst].
    generalize (store_cancelled taskRunIDs personID st) as cancelled; intros cancelled.
    apply store_cancels_own, only_touches_refl.
  - intros taskRunIDs personID reason st taskRun ([k row] & Hin & Hr)%list_elem_of_omap; cbn [snd fst] in Hr.
    apply stored_row in Hin; destruct (is_run_of personID row && _ && _ && _) eqn:Hown; [|done].
    injection Hr as <-; do 3 apply andb_true_iff in Hown as [Hown ?]; unfold runs_of, run_requester; cbn.
    assert (Hk : Run_ID (set_Run_Status TaskStatusCancelled row.1) = k)
      by (match goal with He : bool_decide (Run_ID _ = k) = true |- _ => apply bool_decide_eq_true in He; rewrite <- He end;
          by destruct row.1); rewrite Hk.
    rewrite Hin; cbn; apply bool_decide_eq_true in Hown; by rewrite Hown.
  - intros taskRunID reason st; apply alter_touches; intros row; apply set_Run_Status_requester.
Qed.
