(* ===== verification/GatewayBursts.v ===== *)
(** * Judging messages together ([connectors/gateway_burst.go], [gateway_decision.go],
    [inbound_engagement.go], [runtime_messages.go], [runtime.go])

    The decision model is asked once about a burst of messages that one person sent into
    one conversation.  Each message carries a pointer to its decision, made at most once
    ([sync.Once]); a decision made with the burst is kept there, and a message that is
    judged later by itself asks the model then.  The pointers are a heap of cells; the
    decider is an interface whose law the decision model's reader satisfies. *)

From S2P Require Export ConversationTasks.

(** ** What an agent is shown ([runtime_messages.go], [runtime_attachments.go]) *)

Section shown.
Context `{UnicodeTables}.

Definition is_path_rune (character : Z) : bool :=
  between 97 122 character || between 48 57 character || (character =? 45) || (character =? 95).

Definition connectorSafePathSegment (value : string) : string :=
  let segment := Trim (of_runes (map (fun character => if is_path_rune character then character else 45)
    (runes (ToLower (TrimSpace value))))) ["-"%char; "_"%char] in
  if bool_decide (segment = "") then "unknown" else segment.

Definition attachmentMaterialID (attachment : InputAttachment) : string :=
  let platform := firstNonEmptyString [TrimSpace (Attachment_Platform attachment); "attachment"] in
  let fileID := TrimSpace (FileID attachment) in
  if negb (bool_decide (fileID = "")) then platform +:+ ":" +:+ fileID
  else platform +:+ ":" +:+ connectorSafePathSegment
         (firstNonEmptyString [Attachment_Path attachment; Filename attachment; URL attachment]).

Definition agent_material (attachment : InputAttachment) : option VisibleContextMaterial :=
  if blank (FileID attachment) && blank (Attachment_Path attachment) && blank (URL attachment) then None
  else Some (MkMaterial (attachmentMaterialID attachment) (TrimSpace (URL attachment)) (TrimSpace (FileID attachment))
    (Attachment_Platform attachment) (Attachment_MessageID attachment) (Filename attachment) (ContentType attachment)
    (SizeBytes attachment) (Attachment_Path attachment) (IsAvailable attachment) (ErrorCode attachment)
    (Attachment_Message attachment) "" "" "").

Definition agentVisibleContextMaterials (attachments : list InputAttachment) : list VisibleContextMaterial :=
  omap agent_material attachments.

Definition agentPreviousVisibleContextMaterials (attachments : list InputAttachment)
    (currentMaterials : list VisibleContextMaterial) : list VisibleContextMaterial :=
  let currentMaterialIDs := filter (fun currentMaterialID => currentMaterialID <> "")
    (map (fun material => TrimSpace (MaterialID material)) currentMaterials) in
  filter (fun material => TrimSpace (MaterialID material) ∉ currentMaterialIDs) (agentVisibleContextMaterials attachments).

Definition ToAgentVisibleContext (visibleContext : VisibleContext) : AgentVisibleContext :=
  let messages := map (fun message => MkAgentContextMessage (Speaker message) (SpeakerCallingName message)
    (SpeakerHandle message) (Context_Text message) (Context_SentAt message)
    (agentVisibleContextMaterials (Context_InputAttachments message))) (Context_Messages visibleContext) in
  let currentMaterials := agentVisibleContextMaterials (InputAttachments visibleContext) in
  MkAgentContext messages (MessagesOpenOtherExchanges visibleContext) currentMaterials
    (agentPreviousVisibleContextMaterials (Materials visibleContext) currentMaterials)
    (HasMoreBefore visibleContext) (HistoryCursor visibleContext) (Context_ResponseLanguage visibleContext)
    (RequesterTimeZone visibleContext).

End shown.

(** ** The engagement of an event ([inbound_engagement.go]) *)

Definition engagementRequestForEvent (event : PlatformInboundEvent) : Request :=
  MkRequest (MessageID event) (ConversationType (EventContext event)) (BotMentioned (Addressing (EventContext event)))
    (AttachmentsOnly (EventContext event)).

Section engagement.
Context `{UnicodeTables}.

Definition isIgnoredWithoutDeciding (event : PlatformInboundEvent) : bool :=
  IsIgnoredWithoutDeciding (engagementRequestForEvent event).

Definition isMultiPersonConversation (event : PlatformInboundEvent) : bool :=
  IsMultiPersonConversation (ConversationType (EventContext event)).

Definition shouldIgnoreUninvitedAddressing (event : PlatformInboundEvent) : bool :=
  ShouldIgnoreUninvitedAddressing (ConversationType (EventContext event)) (BotMentioned (Addressing (EventContext event))).

(** ** Which messages make a burst ([gateway_burst.go]) *)

Definition connectorDecisionBurstSize : Z := 4.
Definition connectorDecisionBurstWindow : duration := 30 * Second.

(** The loop both splittings run: [accepts] says whether the burst takes one more. *)
Definition split_step {A} (accepts : list A -> A -> bool) (acc : list (list A) * list A) (a : A) : list (list A) * list A :=
  let '(bursts, burst) := acc in
  if negb (bool_decide (length burst = 0%nat)) && negb (accepts burst a) then ((bursts ++ [burst])%list, [a])
  else (bursts, (burst ++ [a])%list).

Definition split_bursts {A} (accepts : list A -> A -> bool) (l : list A) : list (list A) :=
  let '(bursts, burst) := foldl (split_step accepts) ([], []) l in (bursts ++ [burst])%list.

(** An event with the pointer to its decision. *)
Definition judged_event : Type := PlatformInboundEvent * option nat.

Definition isBurstDecidableEvent (event : PlatformInboundEvent) : bool :=
  if negb (bool_decide (TaskRetry event = None)) || bool_decide (MessageID event = "") ||
     bool_decide (SenderID event = "") || bool_decide (Event_ConversationID event = "") then false
  else negb (isIgnoredWithoutDeciding event).

Definition inboundDecisionBurstKey (event : PlatformInboundEvent) : string :=
  Event_Platform event +:+ ":" +:+ Event_ConversationID event +:+ ":" +:+ SenderID event.

Definition isWithinBurstWindow (firstReceivedAt receivedAt : instant) : bool :=
  if IsZero firstReceivedAt || IsZero receivedAt then true
  else Sub receivedAt firstReceivedAt <=? connectorDecisionBurstWindow.

Definition burstAccepts (burst : list judged_event) (event : judged_event) : bool :=
  if connectorDecisionBurstSize <=? Z.of_nat (length burst) then false
  else match burst with
  | first :: _ => isWithinBurstWindow (RawReceivedAt first.1) (RawReceivedAt event.1)
  | [] => true
  end.

Definition burstsOfSeveralMessages (bursts : list (list judged_event)) : list (list judged_event) :=
  filter (fun burst => (1 < length burst)%nat) bursts.

Definition burstsWithinBudget (events : list judged_event) : list (list judged_event) :=
  burstsOfSeveralMessages (split_bursts burstAccepts events).

(** [conversationOrder]: each key where it is first seen. *)
Definition see_conversation (order : list string) (event : judged_event) : list string :=
  let key := inboundDecisionBurstKey event.1 in
  if bool_decide (key ∈ order) then order else (order ++ [key])%list.

Definition conversationOrder (events : list judged_event) : list string := foldl see_conversation [] events.

Definition inboundDecisionBursts (queuedEvents : list judged_event) : list (list judged_event) :=
  let decidable := filter (fun event => isBurstDecidableEvent event.1 = true) queuedEvents in
  conversationOrder decidable ≫= fun conversationKey =>
    burstsWithinBudget (filter (fun event => inboundDecisionBurstKey event.1 = conversationKey) decidable).

End engagement.

(** ** The decider *)

Inductive JudgeError :=
| NoGatewayDecider
| DecideFailed (e : DecideError)
| AnsweredAboutNoMessage (messageID : string).

(** [inboundengagement.Decider]: a call is told apart from the calls before it. *)
Record Decider `{DecisionLibrary} := MkDecider {
  decide_facts : nat -> Facts -> list LLMCallRecord * result DecideError (list Judgment);
  decider_FitsBurstBudget : Facts -> bool;
}.
Arguments MkDecider {_}.

(** What the gateway relies on: a decision is about the messages it was asked about, in order. *)
Class DeciderLaws `{DecisionLibrary} (decider : Decider) : Prop :=
  decides_about : forall call facts records judgments,
    decide_facts decider call facts = (records, Ok judgments) -> Judgment_MessageID <$> judgments = decidedMessageIDs facts.

(** [DecisionModelDecider] *)
Definition model_decider `{UnicodeTables, DecisionLibrary} (draws : nat -> nat -> float64)
    (models : nat -> option (DecisionRequest -> result string (gmap string DecisionAnswer)))
    (document_length : DecisionRequest -> option Z) : Decider :=
  MkDecider (fun call facts => Decide (draws call) (models call) facts) (FitsBurstBudget document_length).

#[export] Instance model_decider_laws `{UnicodeTables, DecisionLibrary} draws models document_length :
  DeciderLaws (model_decider draws models document_length).
Proof.
  intros call facts records judgments; cbn [model_decider decide_facts]; unfold Decide.
  destruct (bool_decide _); [done|]; destruct (bool_decide _).
  { intros Hd; injection Hd as _ Hjs; by eapply readJudgments_IDs. }
  destruct (models call) as [model|]; [|done]; intros Hd; injection Hd as _ Hjs.
  destruct (model _); [by eapply readJudgments_IDs|done].
Qed.

(** ** Judging ([gateway_decision.go]) *)

(** What a runtime is given: the decider, whether calls without a task are recorded, the
    agent, the company, the clock, the tools a requester may call, the history an adapter
    fetches, the adapters, the memory of what is heard, and the facts of attachments. *)
Record GatewayEnv `{DecisionLibrary} := MkGatewayEnv {
  gatewayDecider : option Decider;
  recordsTasklessLLMCall : bool;
  agentIdentity : AgentIdentity;
  company : CompanyContext;
  env_now : instant;
  callable_tools : string -> string -> list string;
  FetchHistory : string -> string -> Z -> result string VisibleContext;
  adapterByPlatform : gset string;
  heardMemory : bool;
  policy_order : list string;
  visit_readers : gmap Scope (gset string) -> list (Scope * gset string);
  AttachmentFactsFromParts : list AgentPart -> list IntakeAttachmentFact;
}.
Arguments MkGatewayEnv {_}.

(** A call of the decider, and the pointers it was made for. *)
Record GatewayCall `{DecisionLibrary} := MkGatewayCall {
  Call_Cells : list (option nat);
  Call_Facts : Facts;
  Call_Outcome : result DecideError (list Judgment);
}.
Arguments MkGatewayCall {_}.

Record GatewayState `{DecisionLibrary, ApprovalLibrary} := MkGateway {
  gate_store : ApprovalGate.Store;
  gate_cells : list (option (result JudgeError Judgment));
  gate_calls : list GatewayCall;
  gate_records : list (list string * LLMCallRecord);
}.
Arguments MkGateway {_ _ _}.

Section judging.
Context `{UnicodeTables, DecisionLibrary, TaskLedger, TaskDocuments, ReplyEvents}.
Context (env : GatewayEnv) (identity : IdentityService) (ts : askingThreads).

Definition set_store (st : ApprovalGate.Store) (g : GatewayState) : GatewayState :=
  MkGateway st (gate_cells g) (gate_calls g) (gate_records g).

Definition set_cell (p : nat) (r : result JudgeError Judgment) (g : GatewayState) : GatewayState :=
  MkGateway (gate_store g) (<[p := Some r]> (gate_cells g)) (gate_calls g) (gate_records g).

Definition withGatewayDecision (event : judged_event) (g : GatewayState) : GatewayState * judged_event :=
  match event.2 with
  | Some _ => (g, event)
  | None => (MkGateway (gate_store g) (gate_cells g ++ [None]) (gate_calls g) (gate_records g),
             (event.1, Some (length (gate_cells g))))
  end.

Definition judgmentForMessage (judgments : list Judgment) (messageID : string) : result JudgeError Judgment :=
  let trimmedMessageID := TrimSpace messageID in
  match find (fun judgment => bool_decide (Judgment_MessageID judgment = trimmedMessageID)) judgments with
  | Some judgment => Ok judgment
  | None => Err (AnsweredAboutNoMessage messageID)
  end.

Definition JudgedMessageIDs (callRecord : LLMCallRecord) (messages : list Message) : list string :=
  if bool_decide (DecidedMessageIDs callRecord = []) then Message_ID <$> messages else DecidedMessageIDs callRecord.

Definition recordTasklessGatewayCalls (messages : list Message) (callRecords : list LLMCallRecord)
    (records : list (list string * LLMCallRecord)) : list (list string * LLMCallRecord) :=
  if negb (recordsTasklessLLMCall env) then records
  else (records ++ map (fun callRecord => (JudgedMessageIDs callRecord messages, callRecord)) callRecords)%list.

(** [cells]: the pointers the call is made for. *)
Definition judgeFacts (cells : list (option nat)) (facts : Facts) (g : GatewayState)
  : GatewayState * result JudgeError (list Judgment) :=
  match gatewayDecider env with
  | None => (g, Err NoGatewayDecider)
  | Some decider =>
    let '(callRecords, outcome) := decide_facts decider (length (gate_calls g)) facts in
    (MkGateway (gate_store g) (gate_cells g) (gate_calls g ++ [MkGatewayCall cells facts outcome])
       (recordTasklessGatewayCalls (Messages facts) callRecords (gate_records g)),
     match outcome with Ok judgments => Ok judgments | Err e => Err (DecideFailed e) end)
  end.

Definition inboundDecisionMessage (event : PlatformInboundEvent) : Message :=
  MkMessage (MessageID event) (Event_Prompt event) (Sender_Name (Sender (EventContext event)))
    (Sender_Handle (Sender (EventContext event))) (BotMentioned (Addressing (EventContext event)))
    (RawReceivedAt event) (InputParts event) (AttachmentFactsFromParts env (InputParts event))
    (AttachmentsOnly (EventContext event)).

Definition set_EventContext (context : VisibleContext) (event : PlatformInboundEvent) : PlatformInboundEvent :=
  let '(ConnectorEvents.MkEvent p s c m e sd rt th pm pr ip rl _ at_ retry) := event in
  ConnectorEvents.MkEvent p s c m e sd rt th pm pr ip rl context at_ retry.

Definition with_history (historyCursor : string) (fetched context : VisibleContext) : VisibleContext :=
  let '(MkVisibleContext ms hm hc rl tz sd ty ci cn em ad ao oo ia mt) := context in
  let hc := if blank hc then historyCursor else hc in
  if bool_decide (Context_Messages fetched = []) && bool_decide (Materials fetched = [])
  then MkVisibleContext ms hm hc rl tz sd ty ci cn em ad ao oo ia mt
  else MkVisibleContext (Context_Messages fetched) (HasMoreBefore fetched)
    (firstNonEmptyString [HistoryCursor fetched; hc]) (firstNonEmptyString [rl; Context_ResponseLanguage fetched])
    tz sd ty ci cn em ad ao oo ia (mt ++ Materials fetched)%list.

(** [runtime.go] *)
Definition withInitialVisibleContext (platform : string) (event : PlatformInboundEvent) : PlatformInboundEvent :=
  let context := EventContext event in
  if negb (bool_decide (Context_Messages context = [])) then event else
  if negb (HasMoreBefore context) && blank (HistoryCursor context) then event else
  let historyCursor := firstNonEmptyString [HistoryCursor context; Event_ConversationID event] in
  if bool_decide (historyCursor = "") then event else
  match FetchHistory env platform historyCursor 20 with
  | Err _ => event
  | Ok fetched => set_EventContext (with_history historyCursor fetched context) event
  end.

Definition requesterEmailForEvent (personID : string) (event : PlatformInboundEvent) : string :=
  let email := ToLower (TrimSpace (ResolvePersonPrimaryEmail personID identity)) in
  if negb (bool_decide (email = "")) then email
  else ToLower (TrimSpace (Sender_Email (Sender (EventContext event)))).

Definition openTaskFacts (open : openInteractions) (st : ApprovalGate.Store) : option TaskFacts :=
  match open_ask_ open with
  | Some ask =>
    let '(MkTaskFacts prompt status summary _) := taskFactsOf (askTaskRun open) st in
    Some (MkTaskFacts prompt status summary (Ask_Question ask))
  | None => (fun running => taskFactsOf running st) <$> runningTask open
  end.

Definition finishedTaskFacts (personID : string) (event : PlatformInboundEvent) (st : ApprovalGate.Store) : option TaskFacts :=
  (fun taskRun => taskFactsOf taskRun st) <$> latestRecentlyFinishedConversationTask (env_now env) personID event st.

(** [platform]: of the turn's adapter, if it has one. *)
Definition gatewayFactsForTurn (platform : option string) (personID : string) (event : PlatformInboundEvent)
    (st : ApprovalGate.Store) : ApprovalGate.Store * Facts :=
  let event := match platform with Some platform => withInitialVisibleContext platform event | None => event end in
  let '(st, open) := readOpenInteractions personID event st in
  let openTask := openTaskFacts open st in
  (st, MkFacts [inboundDecisionMessage event] (ConversationType (EventContext event))
     (ToAgentVisibleContext (EventContext event)) (agentIdentity env) (company env) openTask
     (if is_some openTask then None else finishedTaskFacts personID event st) standingDuties
     (memoryLayersHeardIn (visit_readers env) (heardMemory env) (policy_order env) (RoomMemberEmails (EventContext event)) identity)
     (callable_tools env personID (requesterEmailForEvent personID event)) (env_now env)).

(** [inboundTurnFor]: the person a turn is of. *)
Definition turn_personID (adapterName : string) (event : PlatformInboundEvent) : string :=
  default "" (ResolvePersonIDByPlatformAccount adapterName (SenderID event) identity).

Definition inboundGatewayFacts (adapterName : string) (event : PlatformInboundEvent) (st : ApprovalGate.Store)
  : ApprovalGate.Store * Facts :=
  gatewayFactsForTurn (Some adapterName) (turn_personID adapterName event) event st.

Definition judgeNow (platform : option string) (personID : string) (event : judged_event) (g : GatewayState)
  : GatewayState * result JudgeError Judgment :=
  let '(st, facts) := gatewayFactsForTurn platform personID event.1 (gate_store g) in
  let '(g, judged) := judgeFacts [event.2] facts (set_store st g) in
  (g, match judged with Ok judgments => judgmentForMessage judgments (MessageID event.1) | Err e => Err e end).

(** [once.Do]: made when it has not been made. *)
Definition judgeEvent (platform : option string) (personID : string) (event : judged_event) (g : GatewayState)
  : GatewayState * result JudgeError Judgment :=
  match event.2 with
  | None => judgeNow platform personID event g
  | Some p =>
    match gate_cells g !! p with
    | Some (Some judged) => (g, judged)
    | _ => let '(g, judged) := judgeNow platform personID event g in (set_cell p judged g, judged)
    end
  end.

Definition judgeInboundMessage (adapterName : string) (event : judged_event) (g : GatewayState)
  : GatewayState * result JudgeError Judgment :=
  judgeEvent (Some adapterName) (turn_personID adapterName event.1) event g.

Definition relatesToActiveTask (adapterName : string) (event : judged_event) (g : GatewayState) : GatewayState * bool :=
  let '(g, judged) := judgeInboundMessage adapterName event g in
  (g, match judged with Ok judgment => HasRelatesToActiveTask judgment && RelatesToActiveTask judgment | Err _ => false end).

(** ** Deciding a burst ([gateway_burst.go]) *)

Definition burstDecisionMessages (events : list judged_event) : list Message :=
  map (fun event => inboundDecisionMessage event.1) events.

Definition set_Messages (messages : list Message) (facts : Facts) : Facts :=
  let '(MkFacts _ ct vc ai co ot ft du ml tools now) := facts in MkFacts messages ct vc ai co ot ft du ml tools now.

Definition decisionRequestFitsTheBudget (facts : Facts) (events : list judged_event) : bool :=
  match gatewayDecider env with
  | None => true
  | Some decider => decider_FitsBurstBudget decider (set_Messages (burstDecisionMessages events) facts)
  end.

Definition burstsWithinTheRequestBudget (facts : Facts) (events : list judged_event) : list (list judged_event) :=
  split_bursts (fun burst event => decisionRequestFitsTheBudget facts (burst ++ [event])) events.

Definition seedInboundDecision (judged : result JudgeError (list Judgment)) (g : GatewayState) (event : judged_event)
  : GatewayState :=
  match event.2 with
  | None => g
  | Some p =>
    match gate_cells g !! p with
    | Some None => set_cell p (match judged with
        | Err e => Err e
        | Ok judgments => judgmentForMessage judgments (MessageID event.1)
        end) g
    | _ => g
    end
  end.

Definition decideFittingBurst (facts : Facts) (g : GatewayState) (events : list judged_event) : GatewayState :=
  let facts := set_Messages (burstDecisionMessages events) facts in
  let '(g, judged) := judgeFacts (map snd events) facts g in
  foldl (seedInboundDecision judged) g events.

Definition isDirectMessageWithNothingOpen (facts : Facts) : bool :=
  negb (IsMultiPersonConversation (Facts_ConversationType facts)) && negb (is_some (OpenTask facts)) &&
  negb (is_some (FinishedTask facts)).

Definition decideInboundBurst (g : GatewayState) (events : list judged_event) : GatewayState :=
  match events, last events with
  | first :: _, Some latest =>
    if negb (bool_decide (Event_Platform first.1 ∈ adapterByPlatform env)) then g else
    let '(st, facts) := inboundGatewayFacts (Event_Platform first.1) latest.1 (gate_store g) in
    let g := set_store st g in
    if isDirectMessageWithNothingOpen facts then g else
    foldl (fun g fittingEvents => if (length fittingEvents <? 2)%nat then g else decideFittingBurst facts g fittingEvents)
      g (burstsWithinTheRequestBudget facts events)
  | _, _ => g
  end.

Definition isReplyToAskingThread (event : PlatformInboundEvent) (st : ApprovalGate.Store) : bool :=
  match ResolvePersonIDByPlatformAccount (Event_Platform event) (SenderID event) identity with
  | None => false
  | Some personID => existsb (fun pt => IsAnsweredBy (postedQuestionOf pt.2 st) (placementOfEvent event))
      (awaiting (Event_Platform event) (Event_ConversationID event) personID ts)
  end.

Definition isDecidedBeforeTheGateway (event : PlatformInboundEvent) (st : ApprovalGate.Store) : bool :=
  is_control event || isReplyToAskingThread event st.

Definition eventsNeedingTheGateway (queuedEvents : list judged_event) (st : ApprovalGate.Store) : list judged_event :=
  filter (fun event => isDecidedBeforeTheGateway event.1 st = false) queuedEvents.

(** The first loop: every event is given its decision. *)
Definition with_decisions (queuedEvents : list judged_event) (g : GatewayState) : GatewayState * list judged_event :=
  foldl (fun acc event => let '(g, event) := withGatewayDecision event acc.1 in (g, (acc.2 ++ [event])%list)) (g, []) queuedEvents.

Definition decideClaimedBurst (queuedEvents : list judged_event) (g : GatewayState) : GatewayState * list judged_event :=
  let '(g, queuedEvents) := with_decisions queuedEvents g in
  (foldl decideInboundBurst g (inboundDecisionBursts (eventsNeedingTheGateway queuedEvents (gate_store g))), queuedEvents).

End judging.

(** ** Lemmas: splitting *)

Section splitting.
Context {A : Type} (accepts : list A -> A -> bool).

(** Each element after the first was accepted by those before it. *)
Definition accepted_burst (burst : list A) : Prop :=
  forall before x after, burst = (before ++ x :: after)%list -> before <> [] -> accepts before x = true.

Lemma accepted_burst_singleton a : accepted_burst [a].
Proof. intros [|b before] x after He Hne; [done|]; injection He as _ He; by destruct before. Qed.

Lemma accepted_burst_snoc burst a :
  accepted_burst burst -> (burst <> [] -> accepts burst a = true) -> accepted_burst (burst ++ [a]).
Proof.
  intros Hb Ha before x after He Hne; destruct (decide (after = [])) as [->|Hafter].
  - apply app_inj_tail in He as [-> ->]; by apply Ha.
  - destruct (exists_last Hafter) as (after' & y & ->); rewrite app_comm_cons, app_assoc in He.
    apply app_inj_tail in He as [-> _]; by eapply Hb.
Qed.

Lemma split_bursts_spec l :
  concat (split_bursts accepts l) = l /\
  (l <> [] -> Forall (fun burst => burst <> []) (split_bursts accepts l)) /\
  Forall accepted_burst (split_bursts accepts l).
Proof.
  unfold split_bursts.
  assert (Hinv : forall done bursts burst, (concat bursts ++ burst)%list = done -> (done <> [] -> burst <> []) ->
    Forall (fun burst => burst <> []) bursts -> Forall accepted_burst bursts -> accepted_burst burst ->
    let '(bursts', burst') := foldl (split_step accepts) (bursts, burst) l in
    (concat bursts' ++ burst')%list = (done ++ l)%list /\ ((done ++ l)%list <> [] -> burst' <> []) /\
    Forall (fun burst => burst <> []) bursts' /\ Forall accepted_burst bursts' /\ accepted_burst burst').
  { induction l as [|a l IH]; intros done bursts burst Hc Hne Hbs Has Ha; cbn [foldl].
    { by rewrite app_nil_r. }
    assert (Happ : (done ++ a :: l)%list = ((done ++ [a]) ++ l)%list) by (by rewrite <- app_assoc); rewrite Happ.
    unfold split_step at 2; destruct (negb _ && _) eqn:Hsplit.
    - apply andb_true_iff in Hsplit as [Hb Hacc]; apply negb_true_iff, bool_decide_eq_false in Hb; apply negb_true_iff in Hacc.
      apply IH.
      + rewrite concat_app; cbn [concat]; by rewrite app_nil_r, <- Hc.
      + done.
      + apply Forall_app; split; [done|]; apply Forall_singleton; by destruct burst.
      + apply Forall_app; split; [done|by apply Forall_singleton].
      + apply accepted_burst_singleton.
    - apply IH; [by rewrite app_assoc, Hc|by intros _ Hnil; destruct burst|done|done|].
      apply accepted_burst_snoc; [done|]; intros Hb; destruct burst as [|b burst]; [done|].
      cbn in Hsplit; by apply negb_false_iff in Hsplit. }
  specialize (Hinv [] [] [] eq_refl ltac:(done) ltac:(constructor) ltac:(constructor)).
  destruct (foldl _ _ _) as [bursts burst]; destruct Hinv as (Hc & Hne & Hbs & Has & Ha).
  { by intros [|? ?] ? ? ?. }
  cbn [app] in *; split_and!.
  - rewrite concat_app; cbn [concat]; by rewrite app_nil_r.
  - intros Hl; apply Forall_app; split; [done|]; apply Forall_singleton; by apply Hne.
  - apply Forall_app; split; [done|by apply Forall_singleton].
Qed.

End splitting.

Lemma concat_filter_sublist {A} (P : list A -> Prop) `{forall x, base.Decision (P x)} (ll : list (list A)) :
  concat (filter P ll) `sublist_of` concat ll.
Proof.
  induction ll as [|l ll IH]; [done|]; rewrite filter_cons; cbn [concat]; destruct (decide (P l)); cbn [concat].
  - by apply sublist_app.
  - by apply sublist_inserts_l.
Qed.

(** Distinct keys select disjoint parts of a list. *)
Lemma bind_filter_submseteq {A} (key : A -> string) (keys : list string) (l : list A) :
  NoDup keys -> keys ≫= (fun k => filter (fun a => key a = k) l) ⊆+ l.
Proof.
  revert l; induction keys as [|k keys IH]; intros l Hn; [apply submseteq_nil_l|].
  apply NoDup_cons in Hn as [Hk Hn]; cbn [mbind list_bind].
  transitivity (filter (fun a => key a = k) l ++ filter (fun a => key a <> k) l).
  - apply submseteq_skips_l; etrans; [|by apply (IH (filter (fun a => key a <> k) l))].
    clear IH Hn; induction keys as [|k' keys IHk]; [done|]; cbn [mbind list_bind].
    apply not_elem_of_cons in Hk as [Hne Hk]; apply submseteq_app; [|by apply IHk].
    rewrite list_filter_filter.
    rewrite (list_filter_iff (fun a => key a = k') (fun a => key a = k' /\ key a <> k));
      [done|intros a; split; [intros <-; split; congruence|by intros []]].
  - by rewrite filter_app_complement.
Qed.

Lemma elem_concat_sublist {A} (l : list A) (ll : list (list A)) : l ∈ ll -> l `sublist_of` concat ll.
Proof.
  induction ll as [|l' ll IH]; [by intros ?%elem_of_nil|]; cbn [concat]; intros [->|Hl]%elem_of_cons.
  - by apply sublist_inserts_r.
  - by apply sublist_inserts_l, IH.
Qed.

Lemma filter_sublist_of {A} (P : A -> Prop) `{forall x, base.Decision (P x)} (l : list A) : filter P l `sublist_of` l.
Proof.
  induction l as [|a l IH]; [done|]; rewrite filter_cons; destruct (decide (P a)); by constructor.
Qed.

Lemma sublist_elem {A} (l k : list A) a : l `sublist_of` k -> a ∈ l -> a ∈ k.
Proof. intros Hs Ha; eapply elem_of_submseteq; [exact Ha|by apply sublist_submseteq]. Qed.

Lemma submseteq_NoDup {A} (l k : list A) : l ⊆+ k -> NoDup k -> NoDup l.
Proof. intros [k' ->]%submseteq_Permutation Hn; by apply NoDup_app in Hn as [? _]. Qed.

Lemma submseteq_fmap {A B} (f : A -> B) (l k : list A) : l ⊆+ k -> f <$> l ⊆+ f <$> k.
Proof. intros [k' ->]%submseteq_Permutation; rewrite fmap_app; by apply submseteq_inserts_r. Qed.

Lemma NoDup_fmap_inj {A B} (f : A -> B) (l : list A) x y :
  NoDup (f <$> l) -> x ∈ l -> y ∈ l -> f x = f y -> x = y.
Proof.
  intros Hn (i & Hi)%list_elem_of_lookup_1 (j & Hj)%list_elem_of_lookup_1 He.
  assert (i = j) as ->; [|congruence]; eapply NoDup_lookup; [exact Hn|rewrite list_lookup_fmap, Hi; reflexivity|].
  by rewrite list_lookup_fmap, Hj, He.
Qed.

(** ** What a burst is *)

Section bursts.
Context `{UnicodeTables}.

(** The text before the first colon, and the text after the last. *)
Lemma before_first (c : ascii) l1 l2 r1 r2 : c ∉ l1 -> c ∉ l2 -> (l1 ++ c :: r1 = l2 ++ c :: r2)%list -> l1 = l2 /\ r1 = r2.
Proof.
  revert l2; induction l1 as [|a l1 IH]; intros [|b l2] H1 H2 He; cbn in He.
  - by injection He as ->.
  - injection He as -> _; by destruct H2; left.
  - injection He as -> _; by destruct H1; left.
  - injection He as -> He; apply not_elem_of_cons in H1 as [_ H1], H2 as [_ H2]; by destruct (IH l2 H1 H2 He) as [-> ->].
Qed.

Lemma after_last (c : ascii) l1 l2 r1 r2 : c ∉ r1 -> c ∉ r2 -> (l1 ++ c :: r1 = l2 ++ c :: r2)%list -> l1 = l2 /\ r1 = r2.
Proof.
  intros H1 H2 He; assert (Hrev : (rev r1 ++ c :: rev l1 = rev r2 ++ c :: rev l2)%list).
  { apply (f_equal (@rev ascii)) in He; rewrite !rev_app_distr in He; cbn in He; by rewrite <- !app_assoc in He. }
  assert (Hin : forall l : list ascii, c ∉ l -> c ∉ rev l) by (intros l Hl Hr; apply Hl, list_elem_of_In, in_rev; by apply list_elem_of_In).
  apply before_first in Hrev as [Hr Hl]; [|by apply Hin..]; split; [by rewrite <- (rev_involutive l1), Hl, rev_involutive|by rewrite <- (rev_involutive r1), Hr, rev_involutive].
Qed.

(** A name without a colon. *)
Definition plain_name (name : string) : Prop := ":"%char ∉ bytes_of name.

Lemma burst_key_parts event event' : inboundDecisionBurstKey event = inboundDecisionBurstKey event' ->
  plain_name (Event_Platform event) -> plain_name (Event_Platform event') -> plain_name (SenderID event) -> plain_name (SenderID event') ->
  Event_Platform event = Event_Platform event' /\ Event_ConversationID event = Event_ConversationID event' /\ SenderID event = SenderID event'.
Proof.
  unfold inboundDecisionBurstKey, plain_name; intros He%(f_equal bytes_of) Hp Hp' Hs Hs'; rewrite !bytes_of_app in He.
  change (bytes_of ":") with [":"%char] in He; cbn [app] in He.
  apply before_first in He as [Hplatform He]; [|done..]; apply after_last in He as [Hconversation Hsender]; [|done..].
  split_and!; by apply bytes_of_eq.
Qed.

(** The messages of a burst: two to four, in the order they came, from one sender in one
    conversation, each received within the window after the first. *)
Record burst_sound (queuedEvents burst : list judged_event) : Prop := {
  burst_size : (2 <= length burst <= 4)%nat;
  burst_in_order : burst `sublist_of` queuedEvents;
  burst_decidable event : event ∈ burst -> TaskRetry event.1 = None /\ MessageID event.1 <> "" /\ SenderID event.1 <> "" /\
    Event_ConversationID event.1 <> "" /\
    ~ (IsMultiPersonConversation (ConversationType (EventContext event.1)) = true /\ AttachmentsOnly (EventContext event.1) = true /\
       BotMentioned (Addressing (EventContext event.1)) = false);
  burst_one_key e e' : e ∈ burst -> e' ∈ burst ->
    Event_Platform e.1 +:+ ":" +:+ Event_ConversationID e.1 +:+ ":" +:+ SenderID e.1 =
    Event_Platform e'.1 +:+ ":" +:+ Event_ConversationID e'.1 +:+ ":" +:+ SenderID e'.1;
  burst_one_sender e e' : e ∈ burst -> e' ∈ burst ->
    plain_name (Event_Platform e.1) -> plain_name (Event_Platform e'.1) -> plain_name (SenderID e.1) -> plain_name (SenderID e'.1) ->
    Event_Platform e.1 = Event_Platform e'.1 /\ Event_ConversationID e.1 = Event_ConversationID e'.1 /\ SenderID e.1 = SenderID e'.1;
  burst_window first rest event : burst = first :: rest -> event ∈ rest ->
    IsZero (RawReceivedAt first.1) = false -> IsZero (RawReceivedAt event.1) = false ->
    Sub (RawReceivedAt event.1) (RawReceivedAt first.1) <= 30 * Second;
}.

Lemma accepted_burst_size burst : accepted_burst burstAccepts burst -> (length burst <= 4)%nat.
Proof.
  intros Hb; destruct (decide (length burst <= 4)%nat) as [|Hlen]; [done|]; exfalso.
  destruct (exists_last (l := burst)) as (before & x & ->); [by intros ->; cbn in Hlen; lia|].
  rewrite length_app in Hlen; cbn in Hlen.
  assert (Ha := Hb before x [] eq_refl ltac:(intros ->; cbn in Hlen; lia)); unfold burstAccepts, connectorDecisionBurstSize in Ha.
  destruct (4 <=? Z.of_nat (length before)) eqn:He; [done|lia].
Qed.

Lemma accepted_burst_window first rest event :
  accepted_burst burstAccepts (first :: rest) -> event ∈ rest ->
  IsZero (RawReceivedAt first.1) = false -> IsZero (RawReceivedAt event.1) = false ->
  Sub (RawReceivedAt event.1) (RawReceivedAt first.1) <= 30 * Second.
Proof.
  intros Hb (r1 & r2 & ->)%list_elem_of_split Hfirst Hevent.
  assert (Ha := Hb (first :: r1) event r2 eq_refl ltac:(done)); unfold burstAccepts, isWithinBurstWindow in Ha.
  destruct (connectorDecisionBurstSize <=? _); [done|]; rewrite Hfirst, Hevent in Ha; by apply Z.leb_le.
Qed.

Lemma decidable_message event : isBurstDecidableEvent event = true -> TaskRetry event = None /\ MessageID event <> "" /\ SenderID event <> "" /\
  Event_ConversationID event <> "" /\
  ~ (IsMultiPersonConversation (ConversationType (EventContext event)) = true /\ AttachmentsOnly (EventContext event) = true /\
     BotMentioned (Addressing (EventContext event)) = false).
Proof.
  unfold isBurstDecidableEvent; destruct (_ || _) eqn:Hdrop; [done|]; intros Hi%negb_true_iff.
  apply orb_false_iff in Hdrop as [[[Hretry%negb_false_iff Hm]%orb_false_iff Hs]%orb_false_iff Hc].
  apply bool_decide_eq_true in Hretry; apply bool_decide_eq_false in Hm, Hs, Hc; split_and!; [done..|]; intros (H1 & H2 & H3).
  unfold isIgnoredWithoutDeciding, IsIgnoredWithoutDeciding, engagementRequestForEvent in Hi; cbn in Hi; by rewrite H1, H2, H3 in Hi.
Qed.

Lemma conversationOrder_NoDup events : NoDup (conversationOrder events).
Proof.
  enough (Hall : forall order, NoDup order -> NoDup (foldl see_conversation order events)) by (apply Hall; constructor).
  induction events as [|e events IH]; intros order Hn; [done|]; cbn [foldl]; apply IH; unfold see_conversation; case_bool_decide as Hk; [done|]; apply NoDup_app; split_and!; [done| |apply NoDup_singleton].
  intros k Hin ->%list_elem_of_singleton; done.
Qed.

Lemma burstsWithinBudget_elem events burst :
  burst ∈ burstsWithinBudget events ->
  (1 < length burst)%nat /\ burst `sublist_of` events /\ accepted_burst burstAccepts burst.
Proof.
  unfold burstsWithinBudget, burstsOfSeveralMessages; intros [Hlen Hb]%list_elem_of_filter.
  destruct (split_bursts_spec burstAccepts events) as (Hc & _ & Ha); rewrite Forall_forall in Ha.
  split_and!; [done| |by apply Ha]; rewrite <- Hc; by apply elem_concat_sublist.
Qed.

Lemma inboundDecisionBursts_sound queuedEvents : Forall (burst_sound queuedEvents) (inboundDecisionBursts queuedEvents).
Proof.
  unfold inboundDecisionBursts; set (decidable := filter _ queuedEvents).
  assert (Hsub : decidable `sublist_of` queuedEvents) by apply filter_sublist_of.
  apply Forall_forall; intros burst (k & Hb & _)%list_elem_of_bind; set (same := filter _ decidable) in Hb.
  apply burstsWithinBudget_elem in Hb as (Hlen & Hs & Ha); pose proof (accepted_burst_size _ Ha) as Hmax.
  assert (Hin : forall e, e ∈ burst -> inboundDecisionBurstKey e.1 = k /\ isBurstDecidableEvent e.1 = true).
  { intros e He; apply (sublist_elem _ _ _ Hs), list_elem_of_filter in He as [Hk He]; split; [done|].
    by apply list_elem_of_filter in He as [He _]. }
  constructor.
  - lia.
  - etrans; [exact Hs|]; etrans; [apply filter_sublist_of|done].
  - intros e He; by apply decidable_message, Hin.
  - intros e e' He He'; destruct (Hin e He), (Hin e' He'); change (inboundDecisionBurstKey e.1 = inboundDecisionBurstKey e'.1); congruence.
  - intros e e' He He'; destruct (Hin e He), (Hin e' He'); apply burst_key_parts; congruence.
  - intros first rest event ->; by apply accepted_burst_window.
Qed.

Lemma inboundDecisionBursts_apart queuedEvents : concat (inboundDecisionBursts queuedEvents) ⊆+ queuedEvents.
Proof.
  unfold inboundDecisionBursts; set (decidable := filter _ queuedEvents).
  transitivity decidable; [|apply sublist_submseteq, filter_sublist_of].
  etrans; [|apply (bind_filter_submseteq (fun event => inboundDecisionBurstKey event.1) (conversationOrder decidable) decidable),
    conversationOrder_NoDup].
  generalize (conversationOrder decidable) as keys; induction keys as [|k keys IH]; [done|]; cbn [mbind list_bind].
  rewrite concat_app; apply submseteq_app; [|done].
  apply sublist_submseteq; unfold burstsWithinBudget, burstsOfSeveralMessages.
  etrans; [apply concat_filter_sublist|]; by destruct (split_bursts_spec burstAccepts
    (filter (fun event => inboundDecisionBurstKey event.1 = k) decidable)) as [-> _].
Qed.

(** C31. The decision model is asked together only about messages that belong together: a burst
    is two to four messages of one sender in one conversation of one platform (where platforms and senders
    have no colon in their names: see [colons_join_senders]), in the order they came, each
    received at most thirty seconds after the first where both have a time; none is a retry, lacks an
    ID, a sender or a conversation, or is ignored anyway (only attachments, in a conversation of several, not mentioning
    the agent); and no message is in two bursts. *)
Theorem bursts_are_sound queuedEvents :
  Forall (burst_sound queuedEvents) (inboundDecisionBursts queuedEvents) /\
  concat (inboundDecisionBursts queuedEvents) ⊆+ queuedEvents.
Proof. split; [apply inboundDecisionBursts_sound|apply inboundDecisionBursts_apart]. Qed.

(** The parts of a key are only told apart where they have no colon. *)
Lemma colons_join_senders event event' : Event_Platform event = Event_Platform event' ->
  Event_ConversationID event = "room" -> SenderID event = "1:ann" -> Event_ConversationID event' = "room:1" -> SenderID event' = "ann" ->
  inboundDecisionBurstKey event = inboundDecisionBurstKey event'.
Proof. unfold inboundDecisionBurstKey; by intros -> -> -> -> ->. Qed.

End bursts.

(** ** What a burst decides *)

Section decided.
Context `{UnicodeTables, DecisionLibrary, TaskLedger, TaskDocuments, ReplyEvents}.
Context (env : GatewayEnv) (identity : IdentityService) (ts : askingThreads).

(** What a call says of one of its messages. *)
Definition judged_by (call : GatewayCall) (event : judged_event) (judged : result JudgeError Judgment) : Prop :=
  match Call_Outcome call with
  | Err e => judged = Err (DecideFailed e)
  | Ok judgments => judged = judgmentForMessage judgments (MessageID event.1)
  end.

(** A call about several of the messages, that fits the budget of a request. *)
Definition sound_call (Q : list judged_event -> Prop) (events : list judged_event) (call : GatewayCall) : Prop :=
  exists burst, burst `sublist_of` events /\ (2 <= length burst)%nat /\ Q burst /\ Call_Cells call = burst.*2 /\
    Messages (Call_Facts call) = burstDecisionMessages env burst /\
    (forall decider, gatewayDecider env = Some decider -> decider_FitsBurstBudget decider (Call_Facts call) = true).

(** The pointers of the messages are apart, and their decisions are not made. *)
Definition undecided (events : list judged_event) (g : GatewayState) : Prop :=
  forall e, e ∈ events -> exists p, e.2 = Some p /\ gate_cells g !! p = Some None.

Definition decided_of (calls : list GatewayCall) (g : GatewayState) (event : judged_event) (p : nat) : Prop :=
  (gate_cells g !! p = Some None /\ Some p ∉ concat (Call_Cells <$> calls)) \/
  exists judged, gate_cells g !! p = Some (Some judged) /\
    ((gatewayDecider env = None /\ judged = Err NoGatewayDecider) \/
     exists call, call ∈ calls /\ Some p ∈ Call_Cells call /\ judged_by call event judged).

(** From [g] to [g'], messages were judged together at most once each. *)
Definition decides (Q : list judged_event -> Prop) (events : list judged_event) (g g' : GatewayState) : Prop :=
  exists calls,
    gate_calls g' = (gate_calls g ++ calls)%list /\
    Forall (sound_call Q events) calls /\
    concat (Call_Cells <$> calls) ⊆+ events.*2 /\
    (forall p, Some p ∉ events.*2 -> gate_cells g' !! p = gate_cells g !! p) /\
    (forall e p, e ∈ events -> e.2 = Some p -> decided_of calls g' e p).

Lemma decides_none Q events g : undecided events g -> decides Q events g g.
Proof.
  intros Hu; exists []; rewrite app_nil_r; cbn; split_and!; [done|constructor|apply submseteq_nil_l|done|].
  intros e p He Hp; destruct (Hu e He) as (q & Hq & Hc); assert (q = p) as -> by congruence.
  left; split; [done|by apply not_elem_of_nil].
Qed.

Lemma sound_call_weaken (Q : list judged_event -> Prop) events events' call :
  events `sublist_of` events' -> sound_call Q events call -> sound_call Q events' call.
Proof. intros Hs (burst & Hb & Hrest); exists burst; split; [by etrans|done]. Qed.

Lemma elem_snd (events : list judged_event) e p : e ∈ events -> e.2 = Some p -> Some p ∈ events.*2.
Proof. intros He Hp; apply list_elem_of_fmap; by exists e. Qed.

Lemma decides_app Q events events' g g1 g2 :
  NoDup (events ++ events').*2 -> decides Q events g g1 -> decides Q events' g1 g2 -> decides Q (events ++ events') g g2.
Proof.
  intros Hn (calls & Hc & Hs & Hp & Hk & Hd) (calls' & Hc' & Hs' & Hp' & Hk' & Hd').
  rewrite fmap_app in Hn; apply NoDup_app in Hn as (_ & Hdis & _).
  assert (Hdis' : forall p, Some p ∈ events'.*2 -> Some p ∉ events.*2) by (intros p Ha Hb; by eapply Hdis).
  exists (calls ++ calls')%list; split_and!.
  - by rewrite Hc', Hc, app_assoc.
  - apply Forall_app; split; (eapply Forall_impl; [eassumption|]; intros call; apply sound_call_weaken).
    + by apply sublist_inserts_r.
    + by apply sublist_inserts_l.
  - rewrite !fmap_app, concat_app; by apply submseteq_app.
  - intros p Hnp; rewrite fmap_app, elem_of_app in Hnp; rewrite Hk', Hk by tauto; done.
  - intros e p [He|He]%elem_of_app Hep; pose proof (elem_snd _ _ _ He Hep) as Hin.
    + destruct (Hd e p He Hep) as [[Hcell Hnot]|(judged & Hcell & Hj)].
      * left; rewrite Hk' by (by apply Hdis); split; [done|]; rewrite fmap_app, concat_app, elem_of_app.
        intros [?|Hin']; [done|]; apply (Hdis _ Hin); by eapply elem_of_submseteq.
      * right; exists judged; rewrite Hk' by (by apply Hdis); split; [done|].
        destruct Hj as [?|(call & Hcall & ?)]; [by left|right]; exists call; split; [apply elem_of_app; by left|done].
    + destruct (Hd' e p He Hep) as [[Hcell Hnot]|(judged & Hcell & Hj)].
      * left; split; [done|]; rewrite fmap_app, concat_app, elem_of_app; intros [Hin'|?]; [|done].
        apply (Hdis' p Hin); by eapply elem_of_submseteq.
      * right; exists judged; split; [done|].
        destruct Hj as [?|(call & Hcall & ?)]; [by left|right]; exists call; split; [apply elem_of_app; by right|done].
Qed.

Lemma undecided_kept Q events events' g g1 :
  NoDup (events ++ events').*2 -> undecided (events ++ events') g -> decides Q events g g1 -> undecided events' g1.
Proof.
  intros Hn Hu (calls & _ & _ & _ & Hk & _) e He; destruct (Hu e) as (p & Hp & Hc); [apply elem_of_app; by right|].
  exists p; split; [done|]; rewrite Hk; [done|]; rewrite fmap_app in Hn; apply NoDup_app in Hn as (_ & Hdis & _).
  intros Hin; apply (Hdis _ Hin), (elem_snd _ _ _ He Hp).
Qed.

Lemma undecided_app events events' g : undecided (events ++ events') g -> undecided events g.
Proof. intros Hu e He; apply Hu, elem_of_app; by left. Qed.

(** Groups of messages that are decided one after the other. *)
Lemma fold_decides Q (P : list judged_event -> Prop) (step : GatewayState -> list judged_event -> GatewayState) groups g :
  (forall g group, P group -> NoDup group.*2 -> undecided group g -> decides Q group g (step g group)) ->
  Forall P groups -> NoDup (concat groups).*2 -> undecided (concat groups) g ->
  decides Q (concat groups) g (foldl step g groups).
Proof.
  intros Hstep; revert g; induction groups as [|group groups IH]; intros g HP Hn Hu; [by apply decides_none|]; cbn [concat foldl] in *.
  apply Forall_cons in HP as [HP1 HP].
  assert (Hd : decides Q group g (step g group)).
  { apply Hstep; [done| |by eapply undecided_app]; rewrite fmap_app in Hn; by apply NoDup_app in Hn as [? _]. }
  eapply decides_app; [done|exact Hd|]; apply IH; [done| |by eapply undecided_kept].
  rewrite fmap_app in Hn; by apply NoDup_app in Hn as (_ & _ & ?).
Qed.

Definition decision_of (judged : result JudgeError (list Judgment)) (event : judged_event) : result JudgeError Judgment :=
  match judged with Err e => Err e | Ok judgments => judgmentForMessage judgments (MessageID event.1) end.

Lemma seedInboundDecision_undecided judged g e p :
  e.2 = Some p -> gate_cells g !! p = Some None -> seedInboundDecision judged g e = set_cell p (decision_of judged e) g.
Proof. intros Hp Hc; unfold seedInboundDecision; by rewrite Hp, Hc. Qed.

Lemma seed_all judged events g :
  NoDup events.*2 -> undecided events g ->
  let g' := foldl (seedInboundDecision judged) g events in
  gate_calls g' = gate_calls g /\ (forall p, Some p ∉ events.*2 -> gate_cells g' !! p = gate_cells g !! p) /\
  (forall e p, e ∈ events -> e.2 = Some p -> gate_cells g' !! p = Some (Some (decision_of judged e))).
Proof.
  revert g; induction events as [|e events IH]; intros g Hn Hu; cbn [foldl].
  { split_and!; [done|done|]; by intros e p ?%elem_of_nil. }
  rewrite fmap_cons in Hn; apply NoDup_cons in Hn as [He Hn]; destruct (Hu e) as (q & Hq & Hc); [by left|].
  rewrite (seedInboundDecision_undecided _ _ _ _ Hq Hc); apply lookup_lt_Some in Hc as Hlt.
  assert (Hother : forall e' p, e' ∈ events -> e'.2 = Some p -> p <> q).
  { intros e' p He' Hp ->; apply He; rewrite Hq; by eapply elem_snd. }
  destruct (IH (set_cell q (decision_of judged e) g) Hn) as (Hcalls & Hk & Hd).
  { intros e' He'; destruct (Hu e') as (p & Hp & Hcp); [by right|]; exists p; split; [done|]; cbn [set_cell gate_cells].
    rewrite list_lookup_insert_ne; [done|]; intros <-; by eapply Hother. }
  split_and!.
  - by rewrite Hcalls.
  - intros p Hp; rewrite fmap_cons in Hp; apply not_elem_of_cons in Hp as [Hpq Hp]; rewrite Hk by done; cbn [set_cell gate_cells].
    apply list_lookup_insert_ne; intros ->; congruence.
  - intros e' p [->|He']%elem_of_cons Hp; [|by apply Hd].
    assert (p = q) as -> by congruence; rewrite Hk by (by rewrite <- Hq); cbn [set_cell gate_cells].
    by apply list_lookup_insert_eq.
Qed.

Lemma decideFittingBurst_decides (Q : list judged_event -> Prop) facts events g :
  Q events -> (2 <= length events)%nat -> decisionRequestFitsTheBudget env facts events = true ->
  NoDup events.*2 -> undecided events g -> decides Q events g (decideFittingBurst env facts g events).
Proof.
  intros HQ Hlen Hfits Hn Hu; unfold decideFittingBurst, judgeFacts; unfold decisionRequestFitsTheBudget in Hfits.
  destruct (gatewayDecider env) as [decider|] eqn:Hdecider.
  - destruct (decide_facts decider _ _) as [records outcome]; set (call := MkGatewayCall _ _ _).
    set (g1 := MkGateway _ _ _ _); destruct (seed_all (match outcome with Ok judgments => Ok judgments | Err e => Err (DecideFailed e) end)
      events g1 Hn Hu) as (Hcalls & Hk & Hd).
    exists [call]; split_and!; [exact Hcalls| | |exact Hk|].
    + apply Forall_singleton; exists events; split_and!; [done|done|done|done|by destruct facts|].
      intros d Hd'; rewrite Hdecider in Hd'; injection Hd' as <-; exact Hfits.
    + cbn; by rewrite app_nil_r.
    + intros e p He Hp; right; eexists; split; [by apply Hd|]; right; exists call; split_and!; [by left|cbn; by eapply elem_snd|].
      unfold judged_by; cbn; by destruct outcome.
  - destruct (seed_all (Err NoGatewayDecider) events g Hn Hu) as (Hcalls & Hk & Hd).
    exists []; rewrite app_nil_r; split_and!; [done|constructor|apply submseteq_nil_l|done|].
    intros e p He Hp; right; eexists; split; [by apply Hd|by left].
Qed.

(** At most four of [all] the messages, in their order, from one sender into one conversation. *)
Definition one_sender (all events : list judged_event) : Prop :=
  events `sublist_of` all /\ (length events <= 4)%nat /\
  forall e e', e ∈ events -> e' ∈ events -> inboundDecisionBurstKey e.1 = inboundDecisionBurstKey e'.1.

Lemma one_sender_sublist all events events' :
  events `sublist_of` events' -> one_sender all events' -> one_sender all events.
Proof.
  intros Hs (Ha & Hl & Hk); split; [by etrans|split; [apply sublist_length in Hs; lia|]].
  intros e e' He He'; apply Hk; by eapply sublist_elem.
Qed.

Lemma decideInboundBurst_decides all events g :
  one_sender all events -> NoDup events.*2 -> undecided events g ->
  decides (one_sender all) events g (decideInboundBurst env identity g events).
Proof.
  intros HQ Hn Hu; unfold decideInboundBurst.
  destruct events as [|first rest] eqn:Hevents; [by apply decides_none|]; rewrite <- Hevents in *.
  destruct (last events) as [latest|]; [|by apply decides_none].
  destruct (negb _); [by apply decides_none|].
  destruct (inboundGatewayFacts _ _ _ _) as [st facts].
  assert (Hst : forall g', decides (one_sender all) events (set_store st g) g' -> decides (one_sender all) events g g') by done.
  destruct (isDirectMessageWithNothingOpen facts); [by apply Hst, decides_none|]; apply Hst.
  unfold burstsWithinTheRequestBudget.
  destruct (split_bursts_spec (fun burst event => decisionRequestFitsTheBudget env facts (burst ++ [event])) events)
    as (Hc & _ & Ha).
  set (groups := split_bursts _ events) in *; rewrite <- Hc.
  apply (fold_decides _ (fun group => one_sender all group /\
    ((2 <= length group)%nat -> decisionRequestFitsTheBudget env facts group = true))); [| |by rewrite Hc|by rewrite Hc].
  - intros g1 group [HQ1 Hfits] Hn1 Hu1; destruct (length group <? 2)%nat eqn:Hlen; [by apply decides_none|].
    apply Nat.ltb_ge in Hlen; apply decideFittingBurst_decides; auto.
  - apply Forall_forall; intros group Hgroup; split.
    { eapply one_sender_sublist; [|exact HQ]; rewrite <- Hc; by apply elem_concat_sublist. }
    intros Hlen; rewrite Forall_forall in Ha; specialize (Ha group Hgroup).
    destruct (exists_last (l := group)) as (before & x & ->); [by intros ->; cbn in Hlen; lia|].
    apply (Ha before x [] eq_refl); intros ->; cbn in Hlen; lia.
Qed.

Lemma with_decisions_spec queuedEvents g :
  Forall (fun event => event.2 = None) queuedEvents ->
  let '(g', events) := with_decisions queuedEvents g in
  events.*1 = queuedEvents.*1 /\ NoDup events.*2 /\ undecided events g' /\
  gate_calls g' = gate_calls g /\ gate_store g' = gate_store g.
Proof.
  unfold with_decisions; intros Hnone.
  enough (Hall : forall done g0, NoDup done.*2 -> undecided done g0 ->
    let '(g', events) := foldl (fun acc event => let '(g, event) := withGatewayDecision event acc.1 in (g, (acc.2 ++ [event])%list))
      (g0, done) queuedEvents in
    events.*1 = (done.*1 ++ queuedEvents.*1)%list /\ NoDup events.*2 /\ undecided events g' /\
    gate_calls g' = gate_calls g0 /\ gate_store g' = gate_store g0).
  { apply (Hall [] g); [constructor|]; by intros e ?%elem_of_nil. }
  induction queuedEvents as [|[event o] queuedEvents IH]; intros done g0 Hn Hu; cbn [foldl].
  { by rewrite app_nil_r. }
  apply Forall_cons in Hnone as [Ho Hnone]; cbn in Ho; subst o; cbn [withGatewayDecision fst snd].
  set (g1 := MkGateway _ _ _ _); specialize (IH Hnone (done ++ [(event, Some (length (gate_cells g0)))])%list g1).
  destruct (foldl _ _ queuedEvents) as [g' events].
  destruct IH as (He & Hn' & Hu' & Hc & Hs).
  - rewrite fmap_app; apply NoDup_app; split_and!; [done| |apply NoDup_singleton].
    intros q (e & -> & Hin)%list_elem_of_fmap Hq%list_elem_of_singleton; destruct (Hu e Hin) as (p & Hp & Hcell).
    cbn in Hq; apply lookup_lt_Some in Hcell; assert (p = length (gate_cells g0)) by congruence; lia.
  - intros e [Hin| ->%list_elem_of_singleton]%elem_of_app.
    + destruct (Hu e Hin) as (p & Hp & Hcell); exists p; split; [done|]; cbn; by apply lookup_app_l_Some.
    + exists (length (gate_cells g0)); split; [done|]; cbn; by rewrite lookup_app_r, Nat.sub_diag.
  - split_and!; [|done|done|done|done]; rewrite He, fmap_app, <- app_assoc; done.
Qed.

Lemma judgeInboundMessage_decided adapterName event g p judged :
  event.2 = Some p -> gate_cells g !! p = Some (Some judged) ->
  judgeInboundMessage env identity adapterName event g = (g, judged).
Proof. intros Hp Hc; unfold judgeInboundMessage, judgeEvent; by rewrite Hp, Hc. Qed.

(** The decision model is asked at most once about a message of a claimed batch: the calls
    made for the batch are about two to four messages each, of one sender in one conversation,
    fit the budget of a request, and share no message; a message that was part of a call (or of
    a burst without a decider) has its decision from that call, a message that was not has none
    yet, and judging a decided message again asks nobody and answers the same. *)
Theorem messages_are_judged_once queuedEvents g :
  Forall (fun event => event.2 = None) queuedEvents ->
  let '(g', events) := decideClaimedBurst env identity ts queuedEvents g in
  events.*1 = queuedEvents.*1 /\ NoDup events.*2 /\
  exists calls,
    gate_calls g' = (gate_calls g ++ calls)%list /\
    Forall (sound_call (one_sender events) events) calls /\
    NoDup (concat (Call_Cells <$> calls)) /\
    (forall e p, e ∈ events -> e.2 = Some p -> decided_of calls g' e p) /\
    (forall e p judged adapterName, e ∈ events -> e.2 = Some p -> gate_cells g' !! p = Some (Some judged) ->
      judgeInboundMessage env identity adapterName e g' = (g', judged)).
Proof.
  intros Hnone; unfold decideClaimedBurst; pose proof (with_decisions_spec queuedEvents g Hnone) as Hd.
  destruct (with_decisions queuedEvents g) as [g1 events]; destruct Hd as (He & Hn & Hu & Hcalls & _).
  set (needing := eventsNeedingTheGateway _ _ _ _); set (groups := inboundDecisionBursts needing).
  assert (Hneed : needing `sublist_of` events) by apply filter_sublist_of.
  pose proof (inboundDecisionBursts_sound needing) as Hsound; pose proof (inboundDecisionBursts_apart needing) as Hapart.
  fold groups in Hsound, Hapart.
  assert (Hin : concat groups ⊆+ events) by (etrans; [exact Hapart|by apply sublist_submseteq]).
  assert (Hnd : NoDup (concat groups).*2) by (eapply submseteq_NoDup; [|exact Hn]; by apply submseteq_fmap).
  assert (Hd : decides (one_sender events) (concat groups) g1 (foldl (decideInboundBurst env identity) g1 groups)).
  { apply (fold_decides _ (one_sender events)); [intros g2 group HQ; by apply decideInboundBurst_decides| |done|].
    - eapply Forall_impl; [exact Hsound|]; intros group [Hsize Horder _ Hkey _ _]; split_and!; [by etrans|lia|done].
    - intros e Hb; apply Hu; by eapply elem_of_submseteq. }
  destruct Hd as (calls & Hc & Hs & Hp & Hk & Hdec); split_and!; [done|done|].
  exists calls; split_and!.
  - by rewrite Hc, Hcalls.
  - eapply Forall_impl; [exact Hs|]; intros call (burst & _ & Hlen & HQ & Hrest); exists burst; by destruct HQ.
  - by eapply submseteq_NoDup.
  - intros e p Hev Hep; destruct (decide (Some p ∈ (concat groups).*2)) as [Hg|Hg].
    + apply Hdec; [|done]; apply list_elem_of_fmap in Hg as (e' & He' & Hg).
      assert (e = e') as ->; [|done]; apply (NoDup_fmap_inj snd events); [exact Hn|done| |congruence].
      by eapply elem_of_submseteq.
    + left; rewrite Hk by done; destruct (Hu e Hev) as (q & Hq & Hcell); assert (q = p) as -> by congruence.
      split; [done|]; intros Hbad; apply Hg; by eapply elem_of_submseteq.
  - intros e p judged adapterName _ Hep Hcell; by eapply judgeInboundMessage_decided.
Qed.

End decided.

(** ** A burst of two messages in a channel *)

Definition channel_context : VisibleContext :=
  MkVisibleContext [] false "" "" "" (MkSender "" "" "" "" "" "") "channel" "" "" [] (MkAddressing false false) false false [] [].

Definition channel_event (message prompt : string) : judged_event := (set_EventContext channel_context (sample_event "U1" message prompt), None).

Definition example_decider : @Decider example_decisions :=
  @model_decider ascii_tables example_decisions (fun _ => example_draw) (fun _ => Some example_model) (fun _ => Some 100).

Definition example_env : @GatewayEnv example_decisions :=
  @MkGatewayEnv example_decisions (Some example_decider) false "agent" (MkCompany "Acme" "UTC") 0 (fun _ _ => [])
    (fun _ _ _ => Err "offline") {["slack"]} false [] (fun _ => []) (fun _ => []).

Definition example_gateway : @GatewayState example_decisions gate_holds ledger_library :=
  @MkGateway example_decisions gate_holds ledger_library ∅ [] [] [].

Definition decide_example (queuedEvents : list judged_event) :=
  @decideClaimedBurst ascii_tables example_decisions gate_holds ledger_library example_ledger example_documents example_events
    example_env ann_on_slack no_threads queuedEvents example_gateway.

Lemma messages_are_judged_once_witness :
  let queuedEvents := [channel_event "p1" "Bob, please send the deck by Friday"; channel_event "p2" "and ours too"] in
  let '(g', events) := decide_example queuedEvents in
  length (gate_calls g') = 1%nat /\
  events.*1 = queuedEvents.*1 /\ NoDup events.*2.
Proof.
  intros queuedEvents.
  assert (Hcalls : length (gate_calls (decide_example queuedEvents).1) = 1%nat) by (vm_compute; reflexivity).
  pose proof (@messages_are_judged_once ascii_tables example_decisions gate_holds ledger_library example_ledger example_documents
    example_events example_env ann_on_slack no_threads queuedEvents example_gateway ltac:(repeat constructor)) as Hj.
  fold (decide_example queuedEvents) in Hj; destruct (decide_example queuedEvents) as [g' events].
  destruct Hj as (He & Hn & _); split_and!; [exact Hcalls|exact He|exact Hn].
Defined.
