(* ===== verification/Attachments.v ===== *)
(** * Files that come with messages ([connectors/runtime_attachments.go],
    [imported_attachment_writer.go], [sent_attachment_sources.go],
    [agentruntime/conversation_scope.go])

    Before an agent is launched, the files of a message are imported: the adapter fetches
    them (an argument), and they are written into the inbox of the requester's workspace,
    under a name that is free.  The workspace is a map of paths to contents; what the
    operating system refuses, and what a failed write leaves, are functions of the path.
    While the agent runs, a file the conversation mentions is looked up page by page in
    its history; the file of a reply of the agent itself is found by where it was sent
    from, which is remembered for the last 512 files. *)

From S2P Require Export GoBase64 GatewayBursts.

(** ** The scope of a conversation ([conversation_scope.go]) *)

Record ConversationResourceScope := MkResourceScope {
  Resource_Kind : string;
  Resource_PersonID : string;
  Resource : string;
  DefaultDirectoryPath : string;
}.

(** The fields of [ToolCatalogRequest] that are read. *)
Record ScopeRequest := MkScopeRequest {
  Scope_RequesterPersonID : string;
  Scope_ConversationID : string;
  Scope_ConversationType : string;
  Scope_ConversationChannelID : string;
  Scope_ConversationChannelName : string;
}.

Definition hasConversationScopeInput (request : ScopeRequest) : bool :=
  negb (blank (Scope_ConversationID request)) || negb (blank (Scope_ConversationType request)) ||
  negb (blank (Scope_ConversationChannelID request)) || negb (blank (Scope_ConversationChannelName request)).

Definition ConversationScopeForRequest (workspaceRootPath : string) (request : ScopeRequest) : ConversationResourceScope :=
  let personID := TrimSpace (Scope_RequesterPersonID request) in
  if negb (hasConversationScopeInput request) || bool_decide (personID = "")
  then MkResourceScope "workspace" "" "file:workspace" workspaceRootPath
  else MkResourceScope "private" personID ("file:private:" +:+ personID)
         (PathJoin [workspaceRootPath; "private"; "people"; personID]).

(** ** Attachments and events *)

Definition set_Attachment_Path (path : string) (attachment : InputAttachment) : InputAttachment :=
  let '(MkAttachment p f u m n ct sz _ b av ec msg) := attachment in MkAttachment p f u m n ct sz path b av ec msg.

Definition set_Message_InputAttachments (attachments : list InputAttachment) (message : VisibleContextMessage) : VisibleContextMessage :=
  let '(MkContextMessage s cn h t at_ _) := message in MkContextMessage s cn h t at_ attachments.

Definition set_Context_Messages (messages : list VisibleContextMessage) (context : VisibleContext) : VisibleContext :=
  let '(MkVisibleContext _ hm hc rl tz sd ty ci cn em ad ao oo ia mt) := context in
  MkVisibleContext messages hm hc rl tz sd ty ci cn em ad ao oo ia mt.

Definition set_Materials (materials : list InputAttachment) (context : VisibleContext) : VisibleContext :=
  let '(MkVisibleContext ms hm hc rl tz sd ty ci cn em ad ao oo ia _) := context in
  MkVisibleContext ms hm hc rl tz sd ty ci cn em ad ao oo ia materials.

Definition set_InputParts (parts : list AgentPart) (event : PlatformInboundEvent) : PlatformInboundEvent :=
  let '(ConnectorEvents.MkEvent p s c m e sd rt th pm pr _ rl ctx at_ retry) := event in
  ConnectorEvents.MkEvent p s c m e sd rt th pm pr parts rl ctx at_ retry.

Definition connectorAttachmentImportRefusedCode : string := "attachment_import_failed".

Definition refusedInputAttachment (errorValue : string) (attachment : InputAttachment) : InputAttachment :=
  let '(MkAttachment p f u m n ct sz _ _ _ _ _) := attachment in
  MkAttachment p f u m n ct sz "" "" false connectorAttachmentImportRefusedCode errorValue.

Definition connectorInputAttachmentKey (attachment : InputAttachment) : string :=
  let of_ value := TrimSpace (Attachment_Platform attachment) +:+ ":" +:+ TrimSpace value in
  if negb (blank (FileID attachment)) then of_ (FileID attachment) else
  if negb (blank (URL attachment)) then of_ (URL attachment) else
  if negb (blank (Attachment_Path attachment)) then of_ (Attachment_Path attachment) else "".

(** The first of each key; [seen]: the keys before. *)
Fixpoint unique_attachments (seen : list string) (attachments : list InputAttachment) : list InputAttachment :=
  match attachments with
  | [] => []
  | attachment :: rest =>
    let key := connectorInputAttachmentKey attachment in
    if bool_decide (key = "") || bool_decide (key ∈ seen) then unique_attachments seen rest
    else attachment :: unique_attachments (key :: seen) rest
  end.

Definition connectorUniqueInputAttachments (attachments : list InputAttachment) : list InputAttachment :=
  unique_attachments [] attachments.

Definition connectorImportedAttachmentByKey (importedAttachments : list InputAttachment) : gmap string InputAttachment :=
  foldl (fun importedByKey attachment =>
    let key := connectorInputAttachmentKey attachment in
    if bool_decide (key = "") then importedByKey else <[key := attachment]> importedByKey) ∅ importedAttachments.

Definition connectorReplaceImportedInputAttachments (attachments importedAttachments : list InputAttachment) : list InputAttachment :=
  let importedByKey := connectorImportedAttachmentByKey importedAttachments in
  connectorUniqueInputAttachments
    (map (fun attachment => default attachment (importedByKey !! connectorInputAttachmentKey attachment)) attachments).

Definition connectorReplaceImportedMessageAttachments (messages : list VisibleContextMessage) (importedAttachments : list InputAttachment)
  : list VisibleContextMessage :=
  map (fun message => set_Message_InputAttachments
    (connectorReplaceImportedInputAttachments (Context_InputAttachments message) importedAttachments) message) messages.

(** ** Where files go *)

Definition connectorWorkspaceRootPath : string := "/workspace".

Section where_.
Context `{UnicodeTables}.

Definition connectorInputAttachmentScope (personID : string) (event : PlatformInboundEvent) : ConversationResourceScope :=
  ConversationScopeForRequest connectorWorkspaceRootPath
    (MkScopeRequest personID (Event_ConversationID event) (ConversationType (EventContext event))
       (ChannelID (EventContext event)) (ChannelName (EventContext event))).

Definition connectorAttachmentConversationLabel (event : PlatformInboundEvent) : string :=
  let channelName := TrimSpace (ChannelName (EventContext event)) in
  if negb (bool_decide (channelName = "")) then connectorSafePathSegment channelName else
  let conversationID := TrimSpace (Event_ConversationID event) in
  if HasPrefix (ToLower conversationID) "dm:" then "dm"
  else connectorSafePathSegment (firstNonEmptyString [conversationID; "conversation"]).

Definition connectorInputAttachmentDirectory (scope : ConversationResourceScope) (event : PlatformInboundEvent) : string :=
  let platform := connectorSafePathSegment (firstNonEmptyString [Event_Platform event; "platform"]) in
  TrimRight (DefaultDirectoryPath scope) [slash] +:+ "/inbox/" +:+ platform +:+ "/" +:+ connectorAttachmentConversationLabel event.

(** The requester's home is ["~"] to the agent. *)
Definition connectorReadableAttachmentPath (path personID : string) (scope : ConversationResourceScope) : string :=
  if negb (bool_decide (Resource_Kind scope = "private")) || blank personID then path else
  let prefix := "/workspace/private/people/" +:+ connectorSafePathSegment personID in
  let trimmedPath := TrimSpace path in
  if bool_decide (trimmedPath = prefix) then "~" else
  if HasPrefix trimmedPath (prefix +:+ "/") then "~/" +:+ TrimPrefix trimmedPath (prefix +:+ "/") else path.

Definition connectorReadableInputAttachments (attachments : list InputAttachment) (personID : string)
    (scope : ConversationResourceScope) : list InputAttachment :=
  map (fun attachment => set_Attachment_Path
    (connectorReadableAttachmentPath (Attachment_Path attachment) personID scope) attachment) attachments.

(** A function on the paths of a part. *)
Definition map_part_paths (f : PartSource -> string -> string) (part : AgentPart) : AgentPart :=
  let '(MkPart source file image document) := part in
  MkPart source
    ((fun file => MkPartFile (f source (File_Path file)) (File_ContentType file) (File_SizeBytes file) (MarkdownPreview file) (ConversionStatus file) (ConversionMessage file)) <$> file)
    ((fun image => MkPartImage (f source (Image_Path image)) (Image_Filename image) (DataBase64 image)) <$> image) document.

Definition connectorReadableAgentParts (parts : list AgentPart) (personID : string) (scope : ConversationResourceScope) : list AgentPart :=
  map (map_part_paths (fun _ path => connectorReadableAttachmentPath path personID scope)) parts.

End where_.

(** ** Writing ([imported_attachment_writer.go]) *)

Definition mostAttachmentBytesCarried : Z := 2 ^ 24.

(** The requester's hand on the workspace, if it can be had: which directories cannot be
    made, which files cannot be read, which writes fail and what they leave in the file
    ([None]: what was there). *)
Record WorkspaceActor := MkActor {
  mkdir_refused : string -> option string;
  read_refused : string -> bool;
  write_refused : string -> option (string * option string);
}.

(** [importedAttachmentWriter]: whether there is a factory, what it answers, the person. *)
Record importedAttachmentWriter := MkWriter {
  has_actor_factory : bool;
  Requester : string -> result string WorkspaceActor;
  writer_personID : string;
  (** the text of a [base64.CorruptInputError] for a content *)
  corrupt_input_text : string -> string;
}.

Definition requesterActor (writer : importedAttachmentWriter) : result string WorkspaceActor :=
  if negb (has_actor_factory writer) then Err "no workspace identity to write an attachment as" else
  if blank (writer_personID writer)
  then Err "an attachment is written as the person it was sent to, and this message names nobody"
  else Requester writer (writer_personID writer).

(** [DirectWorkspaceActor.ReadFile] ([security/direct_workspace_actor.go]); [None] is an error. *)
Definition ReadFile (actor : WorkspaceActor) (filePath : string) (maximumBytes : Z) (disk : gmap string string) : option string :=
  content ← disk !! filePath;
  if read_refused actor filePath then None else
  if (0 <? maximumBytes) && (maximumBytes <? Z.of_nat (String.length content)) then None else Some content.

Definition WriteFile (actor : WorkspaceActor) (filePath content : string) (disk : gmap string string)
  : gmap string string * option string :=
  match write_refused actor filePath with
  | None => (<[filePath := content]> disk, None)
  | Some (errorValue, None) => (disk, Some errorValue)
  | Some (errorValue, Some left_) => (<[filePath := left_]> disk, Some errorValue)
  end.

Definition holdsOtherContent (actor : WorkspaceActor) (filePath content : string) (disk : gmap string string) : bool :=
  match ReadFile actor filePath mostAttachmentBytesCarried disk with
  | None => false
  | Some existing => negb (bool_decide (Sum256 (bytes_of existing) = Sum256 (bytes_of content)))
  end.

Definition numberedAttachmentPath (filePath : string) (suffix : Z) : string :=
  let extension := PathExt filePath in TrimSuffix filePath extension +:+ "-" +:+ Itoa suffix +:+ extension.

Definition is_free_path (actor : WorkspaceActor) (content : string) (takenPaths : gset string) (disk : gmap string string)
    (candidate : string) : bool :=
  negb (bool_decide (candidate ∈ takenPaths)) && negb (holdsOtherContent actor candidate content disk).

(** The loop, with the number of tries that are left. *)
Fixpoint free_candidate (is_free : string -> bool) (filePath : string) (tries : nat) (suffix : Z) (candidate : string) : string :=
  match tries with
  | O => candidate
  | S tries =>
    if is_free candidate then candidate
    else free_candidate is_free filePath tries (suffix + 1) (numberedAttachmentPath filePath suffix)
  end.

Definition freeAttachmentPath (actor : WorkspaceActor) (filePath content : string) (takenPaths : gset string)
    (disk : gmap string string) : string :=
  free_candidate (is_free_path actor content takenPaths disk) filePath 98 2 filePath.

Definition written_attachment (filePath decoded : string) (attachment : InputAttachment) : InputAttachment :=
  let '(MkAttachment p f u m _ ct _ _ _ _ _ _) := attachment in
  MkAttachment p f u m (PathBase filePath) ct (Z.of_nat (String.length decoded)) filePath "" true "" "".

Definition without_content (attachment : InputAttachment) : InputAttachment :=
  let '(MkAttachment p f u m n ct sz pa _ av ec msg) := attachment in MkAttachment p f u m n ct sz pa "" av ec msg.

(** The workspace, the paths taken, the attachment and its content. *)
Definition write (writer : importedAttachmentWriter) (attachment : InputAttachment) (takenPaths : gset string)
    (disk : gmap string string) : gmap string string * gset string * (InputAttachment * string) :=
  let content := TrimSpace (ContentBase64 attachment) in
  let attachment := without_content attachment in
  if bool_decide (content = "") then (disk, takenPaths, (attachment, "")) else
  match StdEncoding.DecodeString content with
  | None => (disk, takenPaths, (refusedInputAttachment (corrupt_input_text writer content) attachment, ""))
  | Some decoded =>
    match requesterActor writer with
    | Err errorValue => (disk, takenPaths, (refusedInputAttachment errorValue attachment, ""))
    | Ok actor =>
      match mkdir_refused actor (PathDir (Attachment_Path attachment)) with
      | Some errorValue => (disk, takenPaths, (refusedInputAttachment errorValue attachment, ""))
      | None =>
        let filePath := freeAttachmentPath actor (Attachment_Path attachment) decoded takenPaths disk in
        let takenPaths := {[filePath]} ∪ takenPaths in
        let '(disk, failure) := WriteFile actor filePath decoded disk in
        match failure with
        | Some errorValue => (disk, takenPaths, (refusedInputAttachment errorValue attachment, ""))
        | None => (disk, takenPaths, (written_attachment filePath decoded attachment, decoded))
        end
      end
    end
  end.

(** A step of the loop: the workspace, the paths taken, the attachments written, their contents by path. *)
Definition write_step (writer : importedAttachmentWriter)
    (acc : gmap string string * gset string * (list InputAttachment * gmap string string)) (attachment : InputAttachment)
  : gmap string string * gset string * (list InputAttachment * gmap string string) :=
  let '(disk, takenPaths, (written, contents)) := acc in
  let '(disk, takenPaths, (writtenAttachment, content)) := write writer attachment takenPaths disk in
  (disk, takenPaths, ((written ++ [writtenAttachment])%list,
    if IsAvailable writtenAttachment && negb (bool_decide (content = ""))
    then <[Attachment_Path writtenAttachment := content]> contents else contents)).

Definition writeAll (writer : importedAttachmentWriter) (attachments : list InputAttachment) (disk : gmap string string)
  : gmap string string * (list InputAttachment * gmap string string) :=
  let '(disk, _, written) := foldl (write_step writer) (disk, ∅, ([], ∅)) attachments in (disk, written).

(** ** Importing ([runtime_attachments.go]) *)

Definition mostInlineImageBytesShown : Z := 8 * 2 ^ 20.

Definition show_image (contents : gmap string string) (image : PartImage) : PartImage :=
  if negb (blank (DataBase64 image)) then image else
  match contents !! TrimSpace (Image_Path image) with
  | Some content =>
    if Z.of_nat (String.length content) <=? mostInlineImageBytesShown
    then MkPartImage (Image_Path image) (Image_Filename image) (StdEncoding.EncodeToString content) else image
  | None => image
  end.

Definition connectorImagePartsShowingTheirBytes (parts : list AgentPart) (contents : gmap string string) : list AgentPart :=
  map (fun '(MkPart source file image document) => MkPart source file (show_image contents <$> image) document) parts.

Definition pathByFileID (writtenAttachments : list InputAttachment) : gmap string string :=
  foldl (fun paths attachment =>
    if blank (Attachment_Path attachment) || blank (FileID attachment) then paths
    else <[FileID attachment := Attachment_Path attachment]> paths) ∅ writtenAttachments.

Definition connectorInputPartsAtWrittenPaths (parts : list AgentPart) (writtenAttachments : list InputAttachment) : list AgentPart :=
  let paths := pathByFileID writtenAttachments in
  map (map_part_paths (fun source path => firstNonEmptyString [default "" (paths !! Source_FileID source); path])) parts.

Definition connectorIsCurrentInputPart (event : PlatformInboundEvent) (currentFileIDs : list string) (part : AgentPart) : bool :=
  let source := Part_Source part in
  (negb (blank (Source_MessageID source)) && bool_decide (TrimSpace (Source_MessageID source) = TrimSpace (MessageID event))) ||
  (negb (blank (Source_FileID source)) && bool_decide (TrimSpace (Source_FileID source) ∈ currentFileIDs)).

Definition connectorCurrentInputParts (parts : list AgentPart) (event : PlatformInboundEvent) : list AgentPart :=
  let currentFileIDs := filter (fun fileID => fileID <> "")
    (map (fun attachment => TrimSpace (FileID attachment)) (InputAttachments (EventContext event))) in
  List.filter (connectorIsCurrentInputPart event currentFileIDs) parts.

Record InputAttachmentImportRequest := MkImport {
  Import_MessageID : string;
  TargetDirectoryPath : string;
  Import_InputAttachments : list InputAttachment;
}.

Record InputAttachmentImportResult := MkImported {
  Imported_InputParts : list AgentPart;
  Imported_InputAttachments : list InputAttachment;
}.

(** [InputAttachmentImportingAdapter], where the adapter is one. *)
Definition Importer : Type := option (InputAttachmentImportRequest -> result string InputAttachmentImportResult).

Section importing.
Context `{UnicodeTables}.

(** What has been imported and written, in an event. *)
Definition with_imported (writtenAttachments : list InputAttachment) (personID : string) (scope : ConversationResourceScope)
    (event : PlatformInboundEvent) : PlatformInboundEvent :=
  let importedAttachments := connectorReadableInputAttachments writtenAttachments personID scope in
  let context := EventContext event in
  set_EventContext
    (set_Context_Messages (connectorReplaceImportedMessageAttachments (Context_Messages context) importedAttachments)
      (set_Materials (connectorReplaceImportedInputAttachments (Materials context) importedAttachments)
        (set_InputAttachments (connectorReplaceImportedInputAttachments (InputAttachments context) importedAttachments) context)))
    event.

Definition with_refused (refused : list InputAttachment) (event : PlatformInboundEvent) : PlatformInboundEvent :=
  let context := EventContext event in
  set_EventContext
    (set_Context_Messages (connectorReplaceImportedMessageAttachments (Context_Messages context) refused)
      (set_Materials refused (set_InputAttachments refused context))) event.

Definition with_parts (parts : list AgentPart) (personID : string) (scope : ConversationResourceScope) (event : PlatformInboundEvent)
  : PlatformInboundEvent :=
  if bool_decide (parts = []) then event else
  set_InputParts (InputParts event ++ connectorCurrentInputParts (connectorReadableAgentParts parts personID scope) event)%list event.

Definition withAttachmentMaterials (importing : Importer) (writer : importedAttachmentWriter) (personID : string)
    (event : PlatformInboundEvent) (disk : gmap string string) : gmap string string * PlatformInboundEvent :=
  let attachments := connectorUniqueInputAttachments (InputAttachments (EventContext event)) in
  if bool_decide (attachments = []) then (disk, event) else
  match importing with
  | None => (disk, set_EventContext (set_Materials attachments (EventContext event)) event)
  | Some importInputAttachments =>
    let scope := connectorInputAttachmentScope personID event in
    match importInputAttachments (MkImport (MessageID event) (connectorInputAttachmentDirectory scope event) attachments) with
    | Err errorValue => (disk, with_refused (map (refusedInputAttachment errorValue) attachments) event)
    | Ok (MkImported parts imported) =>
      if bool_decide (imported = []) then (disk, with_parts parts personID scope event) else
      let '(disk, (writtenAttachments, writtenContents)) := writeAll writer imported disk in
      let parts := connectorImagePartsShowingTheirBytes (connectorInputPartsAtWrittenPaths parts writtenAttachments) writtenContents in
      (disk, with_parts parts personID scope (with_imported writtenAttachments personID scope event))
    end
  end.

End importing.

(** ** What has been sent ([sent_attachment_sources.go]) *)

Definition sentAttachmentSourceCapacity : nat := 512.

Record sentAttachmentSourceStore := MkSentSources {
  pathsByKey : gmap string string;
  orderedKeys : list string;
}.

Definition newSentAttachmentSourceStore : sentAttachmentSourceStore := MkSentSources ∅ [].

Definition zero_byte : string := of_bytes [byte_of 0].

Definition sentAttachmentSourceKey (platform messageID filename : string) : string :=
  TrimSpace platform +:+ zero_byte +:+ TrimSpace messageID +:+ zero_byte +:+ TrimSpace filename.

(** The paths by filename, and the filenames that stand for two. *)
Definition note_attachment (acc : gmap string string * gset string) (attachment : FileAttachment) : gmap string string * gset string :=
  let '(pathsByFilename, ambiguousFilenames) := acc in
  let filename := TrimSpace (File_Filename attachment) in
  let devicePath := TrimSpace (DevicePath attachment) in
  if bool_decide (filename = "") || bool_decide (devicePath = "") then acc else
  if is_some (pathsByFilename !! filename) then (pathsByFilename, {[filename]} ∪ ambiguousFilenames)
  else (<[filename := devicePath]> pathsByFilename, ambiguousFilenames).

Definition unambiguousAttachmentSourcePaths (attachments : list FileAttachment) : gmap string string :=
  let '(pathsByFilename, ambiguousFilenames) := foldl note_attachment (∅, ∅) attachments in
  filter (fun kv => kv.1 ∉ ambiguousFilenames) pathsByFilename.

(** The loop that drops the oldest keys, with the number of keys there are. *)
Fixpoint drop_oldest (fuel : nat) (store : sentAttachmentSourceStore) : sentAttachmentSourceStore :=
  match fuel, orderedKeys store with
  | S fuel, oldestKey :: rest =>
    if (sentAttachmentSourceCapacity <? length (orderedKeys store))%nat
    then drop_oldest fuel (MkSentSources (delete oldestKey (pathsByKey store)) rest) else store
  | _, _ => store
  end.

Definition record (store : sentAttachmentSourceStore) (key devicePath : string) : sentAttachmentSourceStore :=
  let orderedKeys' := if is_some (pathsByKey store !! key) then orderedKeys store else (orderedKeys store ++ [key])%list in
  drop_oldest (length orderedKeys') (MkSentSources (<[key := devicePath]> (pathsByKey store)) orderedKeys').

(** [visit]: the order a map is ranged over in. *)
Definition RecordReply (visit : gmap string string -> list (string * string)) (platform messageID : string)
    (attachments : list FileAttachment) (store : sentAttachmentSourceStore) : sentAttachmentSourceStore :=
  if blank platform || blank messageID then store else
  foldl (fun store '(filename, devicePath) => record store (sentAttachmentSourceKey platform messageID filename) devicePath)
    store (visit (unambiguousAttachmentSourcePaths attachments)).

Definition SourcePath (platform messageID filename : string) (store : sentAttachmentSourceStore) : option string :=
  pathsByKey store !! sentAttachmentSourceKey platform messageID filename.

(** ** Looking a file up *)

Definition attachmentHistoryPageLimit : nat := 40.

Inductive ResolveError :=
| NotVisible
| HistoryLookupFailed (e : string)
| TooManyPages
| ImportFailed (e : string)
| NoMaterial
| NoReadablePath
| ImportUnavailable.

Section resolving.
Context `{UnicodeTables}.

Definition visibleContextAttachmentMaterials (visibleContext : VisibleContext) : list InputAttachment :=
  connectorUniqueInputAttachments (Materials visibleContext ++ InputAttachments visibleContext ++
    concat (map Context_InputAttachments (Context_Messages visibleContext)))%list.

Definition findAttachmentMaterialInContext (visibleContext : VisibleContext) (reference : string) : option InputAttachment :=
  let trimmedReference := TrimSpace reference in
  if bool_decide (trimmedReference = "") then None else
  find (fun attachment => bool_decide (attachmentMaterialID attachment = trimmedReference) ||
    bool_decide (TrimSpace (URL attachment) = trimmedReference)) (visibleContextAttachmentMaterials visibleContext).

(** The pages of the history from a cursor; [fetch]: [FetchHistory] with a limit of 50. *)
Fixpoint find_in_pages (fetch : string -> result string VisibleContext) (materialID : string) (pages : nat) (historyCursor : string)
  : result ResolveError (option InputAttachment) :=
  match pages with
  | O => Err TooManyPages
  | S pages =>
    match fetch historyCursor with
    | Err e => Err (HistoryLookupFailed e)
    | Ok visibleContext =>
      match findAttachmentMaterialInContext visibleContext materialID with
      | Some attachment => Ok (Some attachment)
      | None =>
        if negb (HasMoreBefore visibleContext) then Ok None else
        let nextHistoryCursor := TrimSpace (HistoryCursor visibleContext) in
        if bool_decide (nextHistoryCursor = "") || bool_decide (nextHistoryCursor = historyCursor) then Ok None
        else find_in_pages fetch materialID pages nextHistoryCursor
      end
    end
  end.

Definition findAttachmentMaterial (fetch : string -> result string VisibleContext) (event : PlatformInboundEvent) (materialID : string)
  : result ResolveError (option InputAttachment) :=
  match findAttachmentMaterialInContext (EventContext event) materialID with
  | Some attachment => Ok (Some attachment)
  | None =>
    let historyCursor := TrimSpace (HistoryCursor (EventContext event)) in
    if bool_decide (historyCursor = "") then Ok None
    else find_in_pages fetch materialID attachmentHistoryPageLimit historyCursor
  end.

Definition available_at (path : string) (attachment : InputAttachment) : InputAttachment :=
  let '(MkAttachment p f u m n ct sz _ b _ _ _) := attachment in MkAttachment p f u m n ct sz path b true "" "".

Definition sentSourceMaterial (personID : string) (event : PlatformInboundEvent) (sentSources : sentAttachmentSourceStore)
    (attachment : InputAttachment) : option VisibleContextMaterial :=
  devicePath ← SourcePath (Attachment_Platform attachment) (Attachment_MessageID attachment) (Filename attachment) sentSources;
  let readablePath := connectorReadableAttachmentPath devicePath personID (connectorInputAttachmentScope personID event) in
  if bool_decide (readablePath = devicePath) then None
  else agent_material (available_at readablePath attachment).

Definition connectorAgentPartMaterialID (part : AgentPart) : string :=
  let fileID := TrimSpace (Source_FileID (Part_Source part)) in
  let platform := firstNonEmptyString [TrimSpace (Source_Platform (Part_Source part)); "attachment"] in
  if negb (bool_decide (fileID = "")) then platform +:+ ":" +:+ fileID else
  match Part_File part with
  | Some file => if blank (File_Path file) then "" else platform +:+ ":" +:+ connectorSafePathSegment (File_Path file)
  | None => ""
  end.

Definition with_preview (file : PartFile) (material : VisibleContextMaterial) : VisibleContextMaterial :=
  let '(MkMaterial i u f p m n ct sz pa av ec msg _ _ _) := material in
  MkMaterial i u f p m n ct sz pa av ec msg (TrimSpace (MarkdownPreview file)) (TrimSpace (ConversionStatus file))
    (TrimSpace (ConversionMessage file)).

Definition previews_material (material : VisibleContextMaterial) (part : AgentPart) : bool :=
  let materialID := TrimSpace (MaterialID material) in
  let path := TrimSpace (Material_Path material) in
  match Part_File part with
  | None => false
  | Some file =>
    if negb (bool_decide (materialID = "")) && negb (bool_decide (connectorAgentPartMaterialID part = materialID)) then false else
    if bool_decide (materialID = "") && negb (bool_decide (path = "")) && negb (bool_decide (TrimSpace (File_Path file) = path))
    then false else true
  end.

Definition connectorMaterialWithPreview (material : VisibleContextMaterial) (parts : list AgentPart) : VisibleContextMaterial :=
  match find (previews_material material) parts with
  | Some part => match Part_File part with Some file => with_preview file material | None => material end
  | None => material
  end.

(** [VisibleContextMaterial{}] *)
Definition no_material : VisibleContextMaterial := MkMaterial "" "" "" "" "" "" "" 0 "" false "" "" "" "" "".

Definition connectorAttachmentToAgentMaterial (personID : string) (event : PlatformInboundEvent) (attachment : InputAttachment)
  : VisibleContextMaterial :=
  default no_material (head (agentVisibleContextMaterials
    (connectorReadableInputAttachments [attachment] personID (connectorInputAttachmentScope personID event)))).

Definition importAttachmentWithAdapter (importInputAttachments : InputAttachmentImportRequest -> result string InputAttachmentImportResult)
    (writer : importedAttachmentWriter) (personID : string) (event : PlatformInboundEvent) (attachment : InputAttachment)
    (disk : gmap string string) : gmap string string * result ResolveError VisibleContextMaterial :=
  let scope := connectorInputAttachmentScope personID event in
  let messageID := firstNonEmptyString [Attachment_MessageID attachment; MessageID event] in
  match importInputAttachments (MkImport messageID (connectorInputAttachmentDirectory scope event) [attachment]) with
  | Err e => (disk, Err (ImportFailed e))
  | Ok (MkImported parts imported) =>
    let '(disk, (writtenAttachments, writtenContents)) := writeAll writer imported disk in
    match connectorReadableInputAttachments writtenAttachments personID scope with
    | [] => (disk, Err NoMaterial)
    | importedAttachment :: _ =>
      if blank (Attachment_Path importedAttachment) then (disk, Err NoReadablePath) else
      let parts := connectorImagePartsShowingTheirBytes (connectorInputPartsAtWrittenPaths parts writtenAttachments) writtenContents in
      (disk, Ok (connectorMaterialWithPreview (default no_material (agent_material importedAttachment)) parts))
    end
  end.

Definition importAttachmentMaterial (importing : Importer) (writer : importedAttachmentWriter) (sentSources : sentAttachmentSourceStore)
    (personID : string) (event : PlatformInboundEvent) (attachment : InputAttachment) (disk : gmap string string)
  : gmap string string * result ResolveError VisibleContextMaterial :=
  let has_path := negb (blank (Attachment_Path attachment)) && blank (ErrorCode attachment) in
  let as_it_is := Ok (connectorAttachmentToAgentMaterial personID event attachment) in
  match sentSourceMaterial personID event sentSources attachment with
  | Some material => (disk, Ok material)
  | None =>
    match importing with
    | None => (disk, if has_path then as_it_is else Err ImportUnavailable)
    | Some importInputAttachments =>
      if negb (blank (FileID attachment)) then
        let '(disk, material) := importAttachmentWithAdapter importInputAttachments writer personID event attachment disk in
        match material with
        | Ok _ => (disk, material)
        | Err e => (disk, if has_path then as_it_is else Err e)
        end
      else if has_path then (disk, as_it_is)
      else importAttachmentWithAdapter importInputAttachments writer personID event attachment disk
    end
  end.

Definition ResolveAttachmentMaterial (fetch : string -> result string VisibleContext) (importing : Importer)
    (writer : importedAttachmentWriter) (sentSources : sentAttachmentSourceStore) (personID : string) (event : PlatformInboundEvent)
    (materialID : string) (disk : gmap string string) : gmap string string * result ResolveError VisibleContextMaterial :=
  match findAttachmentMaterial fetch event materialID with
  | Err e => (disk, Err e)
  | Ok None => (disk, Err NotVisible)
  | Ok (Some attachment) => importAttachmentMaterial importing writer sentSources personID event attachment disk
  end.

End resolving.

(** ** Lemmas: writing *)

Definition last_number (attachments : list InputAttachment) (p : string) : Prop :=
  exists attachment, attachment ∈ attachments /\ p = numberedAttachmentPath (Attachment_Path attachment) 99.

Lemma free_candidate_spec is_free filePath tries suffix candidate :
  let r := free_candidate is_free filePath (S tries) suffix candidate in
  is_free r = true \/ r = numberedAttachmentPath filePath (suffix + Z.of_nat tries).
Proof.
  revert suffix candidate; induction tries as [|tries IH]; intros suffix candidate; cbn [free_candidate].
  - destruct (is_free candidate) eqn:Hf; [by left|right; f_equal; lia].
  - destruct (is_free candidate) eqn:Hf; [by left|]; destruct (IH (suffix + 1) (numberedAttachmentPath filePath suffix)) as [?|Hr];
      [by left|right; cbv zeta in Hr; cbn [free_candidate] in Hr; rewrite Hr; f_equal; lia].
Qed.

Lemma freeAttachmentPath_spec actor filePath content takenPaths disk :
  let r := freeAttachmentPath actor filePath content takenPaths disk in
  ((r ∉ takenPaths) /\ holdsOtherContent actor r content disk = false) \/ r = numberedAttachmentPath filePath 99.
Proof.
  unfold freeAttachmentPath; destruct (free_candidate_spec (is_free_path actor content takenPaths disk) filePath 97 2 filePath) as [Hf|Hr];
    [left|by right].
  unfold is_free_path in Hf at 1; bool_to_prop; by split.
Qed.

Lemma WriteFile_other actor filePath content disk p :
  p <> filePath -> (WriteFile actor filePath content disk).1 !! p = disk !! p.
Proof. intros Hp; unfold WriteFile; destruct (write_refused _ _) as [[e [l|]]|]; cbn; by rewrite ?lookup_insert_ne by congruence. Qed.

(** The ways a write can go: nothing is written, or a content goes to a path. *)
Inductive write_outcome (writer : importedAttachmentWriter) (attachment : InputAttachment) (takenPaths : gset string)
    (disk : gmap string string) : gmap string string * gset string * (InputAttachment * string) -> Prop :=
| WroteNothing attachment' : write_outcome writer attachment takenPaths disk (disk, takenPaths, (attachment', ""))
| Wrote actor decoded disk' failure attachment' content :
    Requester writer (writer_personID writer) = Ok actor ->
    WriteFile actor (freeAttachmentPath actor (Attachment_Path attachment) decoded takenPaths disk) decoded disk = (disk', failure) ->
    (failure = None -> content = decoded /\ attachment' =
      written_attachment (freeAttachmentPath actor (Attachment_Path attachment) decoded takenPaths disk) decoded (without_content attachment)) ->
    (failure <> None -> IsAvailable attachment' = false) ->
    write_outcome writer attachment takenPaths disk
      (disk', {[freeAttachmentPath actor (Attachment_Path attachment) decoded takenPaths disk]} ∪ takenPaths, (attachment', content)).

Lemma requesterActor_Ok writer actor : requesterActor writer = Ok actor -> Requester writer (writer_personID writer) = Ok actor.
Proof. unfold requesterActor; by repeat split_match. Qed.

Lemma without_content_Path attachment : Attachment_Path (without_content attachment) = Attachment_Path attachment.
Proof. by destruct attachment. Qed.

Lemma refused_unavailable e attachment : IsAvailable (refusedInputAttachment e attachment) = false.
Proof. by destruct attachment. Qed.

Lemma write_cases writer attachment takenPaths disk : write_outcome writer attachment takenPaths disk (write writer attachment takenPaths disk).
Proof.
  unfold write; destruct (bool_decide _); [constructor|]; destruct (StdEncoding.DecodeString _) as [decoded|]; [|constructor].
  destruct (requesterActor writer) as [actor|e] eqn:Ha; [|constructor]; destruct (mkdir_refused _ _); [constructor|].
  apply requesterActor_Ok in Ha; rewrite without_content_Path.
  destruct (WriteFile actor _ decoded disk) as [disk' [e|]] eqn:Hw; (eapply Wrote; [exact Ha|exact Hw| |]); try done.
  intros; apply refused_unavailable.
Qed.

(** What is kept at a path through a batch: the content of a file that was there, and what
    the batch itself wrote. *)
Definition kept_at (p content : string) (disk : gmap string string) (takenPaths : gset string) : Prop :=
  exists content', disk !! p = Some content' /\ Sum256 (bytes_of content') = Sum256 (bytes_of content) /\
    (p ∈ takenPaths \/ content' = content).

Definition undisturbed (writer : importedAttachmentWriter) (p : string) : Prop :=
  forall actor, Requester writer (writer_personID writer) = Ok actor -> read_refused actor p = false /\ write_refused actor p = None.

Lemma write_keeps writer attachment takenPaths disk p content :
  undisturbed writer p -> Z.of_nat (String.length content) <= mostAttachmentBytesCarried ->
  p <> numberedAttachmentPath (Attachment_Path attachment) 99 ->
  kept_at p content disk takenPaths ->
  let '(disk', takenPaths', _) := write writer attachment takenPaths disk in kept_at p content disk' takenPaths'.
Proof.
  intros Hu Hlen Hn Hk; destruct (write_cases writer attachment takenPaths disk) as [|actor decoded disk' failure attachment' content' Ha Hw _ _]; [done|].
  destruct (Hu actor Ha) as [Hread Hwrite].
  pose proof (freeAttachmentPath_spec actor (Attachment_Path attachment) decoded takenPaths disk) as Hspec; cbv zeta in Hspec.
  revert Hw Hspec; generalize (freeAttachmentPath actor (Attachment_Path attachment) decoded takenPaths disk) as filePath; intros filePath Hw Hspec.
  destruct Hk as (c & Hc & Hsum & Hor); destruct (decide (p = filePath)) as [Hp|Hp].
  - destruct Hspec as [[Htaken Hfree]|Hlast]; [|by rewrite Hlast in Hp].
    destruct Hor as [Hin|Heq]; [by rewrite Hp in Hin|]; rewrite Heq in Hc.
    unfold holdsOtherContent, ReadFile in Hfree; rewrite <- Hp, Hc in Hfree; cbn in Hfree; rewrite Hread in Hfree.
    replace (mostAttachmentBytesCarried <? Z.of_nat (String.length content)) with false in Hfree by (symmetry; apply Z.ltb_ge; lia).
    rewrite andb_false_r in Hfree; cbn in Hfree; bool_to_prop.
    unfold WriteFile in Hw; rewrite <- Hp, Hwrite in Hw; injection Hw as <- <-.
    exists decoded; rewrite lookup_insert_eq; split_and!; [done|congruence|left; apply elem_of_union; left; by apply elem_of_singleton].
  - exists c; pose proof (WriteFile_other actor filePath decoded disk p Hp) as Hother; rewrite Hw in Hother; cbn in Hother.
    rewrite Hother; split_and!; [done|done|]; destruct Hor; [left; apply elem_of_union; by right|by right].
Qed.

(** The contents that are handed on are in the workspace, at paths that are taken. *)
Definition contents_there (last_ : string -> Prop) (contents : gmap string string) (disk : gmap string string) (takenPaths : gset string) : Prop :=
  forall p c, contents !! p = Some c -> ~ last_ p -> disk !! p = Some c /\ p ∈ takenPaths.

Lemma write_step_there writer attachment (last_ : string -> Prop) disk takenPaths written contents :
  last_ (numberedAttachmentPath (Attachment_Path attachment) 99) ->
  contents_there last_ contents disk takenPaths ->
  let '(disk', takenPaths', (_, contents')) := write_step writer (disk, takenPaths, (written, contents)) attachment in
  contents_there last_ contents' disk' takenPaths'.
Proof.
  intros Hlast Ht; unfold write_step; destruct (write_cases writer attachment takenPaths disk) as [attachment'|actor decoded disk' failure attachment' content Ha Hw Hok Hbad].
  { by rewrite bool_decide_eq_true_2, andb_false_r by done. }
  pose proof (freeAttachmentPath_spec actor (Attachment_Path attachment) decoded takenPaths disk) as Hspec; cbv zeta in Hspec.
  revert Hw Hok Hspec; generalize (freeAttachmentPath actor (Attachment_Path attachment) decoded takenPaths disk) as filePath.
  intros filePath Hw Hok Hspec.
  assert (Hfresh : last_ filePath \/ filePath ∉ takenPaths) by (destruct Hspec as [[? _]| ->]; [by right|by left]).
  assert (Hkeep : contents_there last_ contents disk' ({[filePath]} ∪ takenPaths)).
  { intros p c Hc Hp; destruct (Ht p c Hc Hp) as [Hd Hin]; split; [|apply elem_of_union; by right].
    pose proof (WriteFile_other actor filePath decoded disk p) as Ho; rewrite Hw in Ho; cbn [fst] in Ho; rewrite Ho; [done|].
    intros ->; by destruct Hfresh. }
  destruct (IsAvailable attachment' && _) eqn:Hav; [|done]; apply andb_true_iff in Hav as [Hav _].
  destruct failure as [e|]; [by rewrite Hbad in Hav|]; destruct (Hok eq_refl) as [-> ->].
  intros p c Hc Hp; assert (Hpath : Attachment_Path (written_attachment filePath decoded (without_content attachment)) = filePath)
    by (by destruct attachment).
  rewrite Hpath in Hc; destruct (decide (p = filePath)) as [->|Hne].
  - rewrite lookup_insert_eq in Hc; injection Hc as <-; split; [|apply elem_of_union; left; by apply elem_of_singleton].
    unfold WriteFile in Hw; destruct (write_refused actor filePath) as [[e [l|]]|]; [done|done|]; injection Hw as <-; apply lookup_insert_eq.
  - rewrite lookup_insert_ne in Hc by congruence; by apply Hkeep.
Qed.

Lemma write_all_keeps writer attachments disk takenPaths written contents p content :
  undisturbed writer p -> Z.of_nat (String.length content) <= mostAttachmentBytesCarried ->
  ~ last_number attachments p -> kept_at p content disk takenPaths ->
  let '(disk', takenPaths', _) := foldl (write_step writer) (disk, takenPaths, (written, contents)) attachments in
  kept_at p content disk' takenPaths'.
Proof.
  intros Hu Hlen; revert disk takenPaths written contents; induction attachments as [|a attachments IH]; intros disk takenPaths written contents Hn Hk; [done|].
  cbn [foldl]; destruct (write_step writer _ a) as [[disk1 taken1] [written1 contents1]] eqn:Hs.
  apply IH; [intros (b & Hb & ->); apply Hn; exists b; split; [by right|done]|].
  unfold write_step in Hs; pose proof (write_keeps writer a takenPaths disk p content Hu Hlen) as Hw.
  destruct (write writer a takenPaths disk) as [[disk2 taken2] [a' c']]; injection Hs as <- <- <- <-.
  apply Hw; [|done]; intros ->; apply Hn; exists a; split; [by left|done].
Qed.

Lemma write_all_there writer attachments all disk takenPaths written contents :
  (forall a, a ∈ attachments -> a ∈ all) -> contents_there (last_number all) contents disk takenPaths ->
  let '(disk', takenPaths', (_, contents')) := foldl (write_step writer) (disk, takenPaths, (written, contents)) attachments in
  contents_there (last_number all) contents' disk' takenPaths'.
Proof.
  revert disk takenPaths written contents; induction attachments as [|a attachments IH]; intros disk takenPaths written contents Hall Ht; [done|].
  cbn [foldl]; pose proof (write_step_there writer a (last_number all) disk takenPaths written contents) as Hs.
  destruct (write_step writer _ a) as [[disk1 taken1] [written1 contents1]].
  apply IH; [intros b Hb; apply Hall; by right|]; apply Hs; [exists a; split; [apply Hall; by left|done]|done].
Qed.

(** C34. Writing the files of a message takes nothing from the workspace.  A file of at most
    16 MiB that can be read, and whose writes do not fail, still has its content when the
    batch is written, to its SHA-256 sum; and what is handed on as the content of a written
    file is in the workspace at that path.  The exception is the name of a file that ends in -99,
    which is taken without a look once the ninety-eight before it are in use. *)
Theorem imported_files_are_kept writer attachments disk :
  let '(disk', (written, contents)) := writeAll writer attachments disk in
  (forall p content, disk !! p = Some content -> Z.of_nat (String.length content) <= mostAttachmentBytesCarried ->
    undisturbed writer p -> ~ last_number attachments p ->
    exists content', disk' !! p = Some content' /\ Sum256 (bytes_of content') = Sum256 (bytes_of content)) /\
  (forall p content, contents !! p = Some content -> ~ last_number attachments p -> disk' !! p = Some content).
Proof.
  unfold writeAll.
  pose proof (fun p content => write_all_keeps writer attachments disk ∅ [] ∅ p content) as Hkeep.
  pose proof (write_all_there writer attachments attachments disk ∅ [] ∅ (fun _ H => H)) as Hthere.
  destruct (foldl _ _ attachments) as [[disk' taken] [written contents]]; split.
  - intros p content Hp Hlen Hu Hn; destruct (Hkeep p content Hu Hlen Hn) as (c & Hc & Hs & _); [|by exists c].
    exists content; split_and!; [done|done|by right].
  - intros p content Hc Hn; eapply Hthere; [|done|done]; intros q c Hq; by rewrite lookup_empty in Hq.
Qed.

(** A file that is too large to be read counts as no file: it is overwritten. *)
Lemma large_file_is_overwritten actor path content disk large :
  disk !! path = Some large -> mostAttachmentBytesCarried < Z.of_nat (String.length large) -> write_refused actor path = None ->
  freeAttachmentPath actor path content ∅ disk = path /\
  (WriteFile actor path content disk).1 !! path = Some content.
Proof.
  intros Hp Hlen Hw; split.
  - unfold freeAttachmentPath; cbn [free_candidate]; unfold is_free_path at 1, holdsOtherContent, ReadFile; rewrite Hp; cbn.
    replace (mostAttachmentBytesCarried <? Z.of_nat (String.length large)) with true by (symmetry; by apply Z.ltb_lt).
    by destruct (read_refused actor path).
  - unfold WriteFile; rewrite Hw; apply lookup_insert_eq.
Qed.

(** ** Lemmas: what has been sent *)

(** At most 512 keys, each once, and a path for each. *)
Definition sent_sound (store : sentAttachmentSourceStore) : Prop :=
  NoDup (orderedKeys store) /\ (length (orderedKeys store) <= sentAttachmentSourceCapacity)%nat /\
  (forall key, key ∈ orderedKeys store <-> is_Some (pathsByKey store !! key)).

Lemma drop_oldest_enough fuel store :
  (length (orderedKeys store) <= sentAttachmentSourceCapacity)%nat -> drop_oldest fuel store = store.
Proof.
  destruct fuel as [|fuel]; [done|]; cbn [drop_oldest]; destruct store as [paths keys]; cbn [orderedKeys]; destruct keys; [done|].
  intros Hl; by rewrite (proj2 (Nat.ltb_ge _ _) Hl).
Qed.

Lemma drop_oldest_full fuel paths oldest keys :
  length keys = sentAttachmentSourceCapacity ->
  drop_oldest (S fuel) (MkSentSources paths (oldest :: keys)) = MkSentSources (delete oldest paths) keys.
Proof.
  intros Hl; cbn [drop_oldest orderedKeys pathsByKey]; rewrite (proj2 (Nat.ltb_lt _ _)) by (cbn [length]; lia).
  apply drop_oldest_enough; cbn [orderedKeys]; lia.
Qed.

(** Recording drops the oldest key, where there are too many. *)
Lemma record_spec store key devicePath :
  sent_sound store ->
  sent_sound (record store key devicePath) /\ pathsByKey (record store key devicePath) !! key = Some devicePath /\
  exists dropped, (dropped ++ orderedKeys (record store key devicePath))%list =
    (if is_some (pathsByKey store !! key) then orderedKeys store else orderedKeys store ++ [key])%list /\
    (length dropped <= 1)%nat /\ (length (orderedKeys store) < sentAttachmentSourceCapacity -> dropped = [])%nat /\
    (forall key', key' ∉ dropped -> key' <> key -> pathsByKey (record store key devicePath) !! key' = pathsByKey store !! key').
Proof.
  intros (Hn & Hl & Hk); unfold record; destruct (pathsByKey store !! key) as [old|] eqn:Hold; cbn [is_some].
  - rewrite drop_oldest_enough by done; cbn [orderedKeys pathsByKey]; split_and!.
    + split_and!; [done|done|]; intros key'; cbn; rewrite Hk; destruct (decide (key' = key)) as [->|Hne].
      * rewrite Hold, lookup_insert_eq; split; intros _; eauto.
      * by rewrite lookup_insert_ne by congruence.
    + apply lookup_insert_eq.
    + exists []; split_and!; [done|cbn; lia|done|]; intros key' _ Hne; by rewrite lookup_insert_ne by congruence.
  - assert (Hkey : key ∉ orderedKeys store) by (rewrite Hk, Hold; by intros []).
    assert (Hn' : NoDup (orderedKeys store ++ [key])).
    { apply NoDup_app; split_and!; [done| |apply NoDup_singleton]; by intros x Hx ->%list_elem_of_singleton. }
    assert (Hk' : forall key', key' ∈ (orderedKeys store ++ [key])%list <-> is_Some (<[key := devicePath]> (pathsByKey store) !! key')).
    { intros key'; rewrite elem_of_app, list_elem_of_singleton; destruct (decide (key' = key)) as [->|Hne].
      - rewrite lookup_insert_eq; split; [eauto|by right].
      - rewrite lookup_insert_ne by congruence; rewrite Hk; naive_solver. }
    destruct (decide (length (orderedKeys store) < sentAttachmentSourceCapacity)%nat) as [Hroom|Hfull].
    + rewrite drop_oldest_enough by (cbn; rewrite length_app; cbn; lia); cbn [orderedKeys pathsByKey]; split_and!.
      * split_and!; [done|cbn; rewrite length_app; cbn; lia|done].
      * apply lookup_insert_eq.
      * exists []; split_and!; [done|cbn; lia|done|]; intros key' _ Hne; by rewrite lookup_insert_ne by congruence.
    + assert (Hlen : length (orderedKeys store) = sentAttachmentSourceCapacity) by lia.
      destruct (orderedKeys store) as [|oldest keys] eqn:Hkeys; [done|].
      rewrite <- app_comm_cons; cbn [length]; rewrite drop_oldest_full by (cbn [length] in Hlen; rewrite length_app; cbn [length]; lia).
      cbn [orderedKeys pathsByKey].
      cbn [app] in Hn', Hk'; apply NoDup_cons in Hn' as [Hold' Hn'].
      assert (Hne : oldest <> key) by (intros ->; apply Hkey; by left).
      split_and!.
      * split_and!; [done|cbn in *; rewrite length_app; cbn; lia|]; intros key'; cbn.
        destruct (decide (key' = oldest)) as [->|Hne']; [rewrite lookup_delete_eq; split; [by intros ?%Hold'|by intros []]|].
        rewrite lookup_delete_ne by congruence; rewrite <- Hk', elem_of_cons; naive_solver.
      * rewrite lookup_delete_ne by congruence; apply lookup_insert_eq.
      * exists [oldest]; split_and!; [done|done|cbn in *; lia|]; intros key' Hd Hne'.
        rewrite lookup_delete_ne by (intros ->; apply Hd; by left); by rewrite lookup_insert_ne by congruence.
Qed.

Lemma sent_key_inj platform messageID filename filename' :
  TrimSpace filename = filename -> TrimSpace filename' = filename' ->
  sentAttachmentSourceKey platform messageID filename = sentAttachmentSourceKey platform messageID filename' -> filename = filename'.
Proof.
  unfold sentAttachmentSourceKey; intros Hf Hf'; rewrite Hf, Hf'; intros He; by do 4 apply (inj (String.append _)) in He.
Qed.

(** Recording files that are not recorded yet. *)
Lemma record_all_spec (key_of : string -> string) files store older :
  sent_sound store -> orderedKeys store = older -> NoDup (key_of <$> files.*1) ->
  (forall filename, filename ∈ files.*1 -> pathsByKey store !! key_of filename = None) ->
  forall recorded, recorded `suffix_of` older -> (length recorded + length files <= sentAttachmentSourceCapacity)%nat ->
  let store' := foldl (fun store '(filename, devicePath) => record store (key_of filename) devicePath) store files in
  sent_sound store' /\ (forall key, key ∈ recorded -> pathsByKey store' !! key = pathsByKey store !! key) /\
  (forall filename devicePath, (filename, devicePath) ∈ files -> pathsByKey store' !! key_of filename = Some devicePath).
Proof.
  revert store older; induction files as [|[filename devicePath] files IH]; intros store older Hs Ho Hn Hfresh recorded Hr Hlen; cbn [foldl].
  { split_and!; [done|done|]; by intros f p ?%elem_of_nil. }
  cbn [fmap list_fmap fst] in Hn, Hfresh; apply NoDup_cons in Hn as [Hnew Hn].
  destruct (record_spec store (key_of filename) devicePath Hs) as (Hs' & Hkey & dropped & Hd & Hone & Hroom & Hother).
  rewrite (Hfresh filename) in Hd by (by left); cbn [is_some] in Hd.
  destruct Hs as (Hnd & Hcap & Hdom).
  assert (Hdropped : forall key, key ∈ dropped -> key ∉ (recorded ++ [key_of filename])%list).
  { intros key Hin; destruct dropped as [|d [|]]; [by apply elem_of_nil in Hin| |cbn in Hone; lia]; apply list_elem_of_singleton in Hin as ->.
    assert (Hnotroom : (sentAttachmentSourceCapacity <= length (orderedKeys store))%nat).
    { destruct (decide (length (orderedKeys store) < sentAttachmentSourceCapacity)%nat) as [Hlt|]; [by specialize (Hroom Hlt)|lia]. }
    destruct Hr as [front Hfront]; destruct front as [|f front].
    - rewrite Ho, Hfront in Hnotroom; cbn [app length] in Hnotroom, Hlen; lia.
    - rewrite Ho, Hfront in Hd; cbn [app] in Hd; injection Hd as -> Hd.
      rewrite Ho, Hfront in Hnd; cbn [app] in Hnd; apply NoDup_cons in Hnd as [Hnd _].
      rewrite elem_of_app, list_elem_of_singleton; intros [Hin|Heq]; [apply Hnd, elem_of_app; by right|].
      assert (Hf : f ∈ orderedKeys store) by (rewrite Ho, Hfront; by left).
      apply Hdom in Hf; rewrite Heq, (Hfresh filename) in Hf by (by left); by destruct Hf. }
  assert (Hsuffix : (recorded ++ [key_of filename]) `suffix_of` orderedKeys (record store (key_of filename) devicePath)).
  { destruct Hr as [front Hfront]; rewrite Ho, Hfront in Hd.
    destruct dropped as [|d [|]]; [rewrite app_nil_l in Hd; rewrite Hd, <- app_assoc; by exists front| |cbn in Hone; lia].
    destruct front as [|f front].
    - cbn [app] in Hd; exfalso; apply (Hdropped d); [by left|]; destruct recorded as [|r recorded]; cbn [app] in Hd; injection Hd as -> _; by left.
    - cbn [app] in Hd; injection Hd as _ Hd; rewrite Hd, <- app_assoc; by exists front. }
  destruct (IH (record store (key_of filename) devicePath) _ Hs' eq_refl Hn) with (recorded := (recorded ++ [key_of filename])%list) as (Hs2 & Hk2 & Hf2).
  - intros f Hf; assert (Hne : key_of f <> key_of filename).
    { intros He; apply Hnew; rewrite <- He; by apply list_elem_of_fmap_2. }
    assert (Hnone : pathsByKey store !! key_of f = None) by (apply Hfresh; by right).
    rewrite Hother; [done| |done]; intros Hin.
    assert (Hin' : key_of f ∈ (orderedKeys store ++ [key_of filename])%list) by (rewrite <- Hd; apply elem_of_app; by left).
    apply elem_of_app in Hin' as [Hin'|Hin'%list_elem_of_singleton]; [|done].
    apply Hdom in Hin'; rewrite Hnone in Hin'; by destruct Hin'.
  - done.
  - rewrite length_app; cbn [length] in *; lia.
  - split_and!; [done| |].
    + intros key Hin; rewrite Hk2 by (apply elem_of_app; by left); apply Hother.
      * intros Hbad; apply (Hdropped key Hbad), elem_of_app; by left.
      * intros ->; destruct Hr as [front Hfront]; assert (Hin' : key_of filename ∈ orderedKeys store) by (rewrite Ho, Hfront; apply elem_of_app; by right).
        apply Hdom in Hin'; rewrite (Hfresh filename) in Hin' by (by left); by destruct Hin'.
    + intros f p [Heq|Hin]%elem_of_cons; [|by apply Hf2]; injection Heq as -> ->.
      rewrite Hk2 by (apply elem_of_app; right; by left); done.
Qed.

(** The names under which files are recorded are trimmed. *)
Lemma note_attachments_trimmed attachments acc :
  (forall filename, is_Some (acc.1 !! filename) -> TrimSpace filename = filename) ->
  forall filename, is_Some ((foldl note_attachment acc attachments).1 !! filename) -> TrimSpace filename = filename.
Proof.
  revert acc; induction attachments as [|a attachments IH]; intros [paths ambiguous] Hacc; [done|]; cbn [foldl]; apply IH.
  unfold note_attachment; destruct (_ || _); [done|]; destruct (is_some _); [done|]; intros filename Hf; cbn [fst] in *.
  destruct (decide (filename = TrimSpace (File_Filename a))) as [->|Hne]; [apply TrimSpace_idemp|].
  rewrite lookup_insert_ne in Hf by congruence; by apply Hacc.
Qed.

Lemma unambiguous_trimmed attachments filename :
  is_Some (unambiguousAttachmentSourcePaths attachments !! filename) -> TrimSpace filename = filename.
Proof.
  unfold unambiguousAttachmentSourcePaths; pose proof (note_attachments_trimmed attachments (∅, ∅)) as Ht.
  destruct (foldl _ _ attachments) as [paths ambiguous]; intros [p [Hp _]%map_lookup_filter_Some]; apply Ht; [|by exists p].
  intros f Hf; cbn in Hf; rewrite lookup_empty in Hf; by destruct Hf.
Qed.

Lemma record_files_sound (key_of : string -> string) files store :
  sent_sound store -> sent_sound (foldl (fun store '(filename, devicePath) => record store (key_of filename) devicePath) store files).
Proof.
  revert store; induction files as [|[f p] files IH]; intros store Hs; [done|]; cbn [foldl]; by apply IH, record_spec.
Qed.

(** What the agent has sent is found again.  The memory of sent files never holds more
    than 512 of them, each once; and after a reply with at most 512 files, under a message ID
    that is not in the memory yet, each file whose name stands for one path is looked up to
    the path it was sent from. *)
Theorem sent_files_are_found visit platform messageID attachments store :
  (forall m : gmap string string, visit m ≡ₚ map_to_list m) -> sent_sound store ->
  let paths := unambiguousAttachmentSourcePaths attachments in
  let store' := RecordReply visit platform messageID attachments store in
  sent_sound store' /\
  (blank platform = false -> blank messageID = false -> (size paths <= 512)%nat ->
   (forall filename, SourcePath platform messageID filename store = None) ->
   forall filename devicePath, paths !! filename = Some devicePath ->
     SourcePath platform messageID filename store' = Some devicePath).
Proof.
  intros Hvisit Hs paths store'; unfold store', RecordReply; destruct (blank platform || blank messageID) eqn:Hblank.
  { split; [done|]; intros Hp Hm; by rewrite Hp, Hm in Hblank. }
  split; [by apply record_files_sound|]; intros _ _ Hsize Hfresh filename devicePath Hf.
  assert (Htrim : forall f, f ∈ (visit paths).*1 -> TrimSpace f = f).
  { intros f ([k p] & -> & Hin)%list_elem_of_fmap; rewrite Hvisit in Hin; apply elem_of_map_to_list in Hin.
    by apply (unambiguous_trimmed attachments); exists p. }
  destruct (record_all_spec (sentAttachmentSourceKey platform messageID) (visit paths) store _ Hs eq_refl) with (recorded := @nil string)
    as (_ & _ & Hfound).
  - apply NoDup_fmap_2_strong.
    + intros f f' Hin Hin'; apply sent_key_inj; by apply Htrim.
    + rewrite Hvisit; apply NoDup_fst_map_to_list.
  - intros f _; apply Hfresh.
  - apply suffix_nil.
  - rewrite Hvisit; cbn; unfold sentAttachmentSourceCapacity; by rewrite length_map_to_list.
  - apply Hfound; rewrite Hvisit; by apply elem_of_map_to_list.
Qed.

(** ** Lemmas: looking a file up *)

Section visible.
Context `{UnicodeTables}.

(** The pages that are read from a cursor on. *)
Inductive page_from (fetch : string -> result string VisibleContext) : nat -> string -> VisibleContext -> Prop :=
| PageHere pages historyCursor visibleContext : fetch historyCursor = Ok visibleContext ->
    page_from fetch (S pages) historyCursor visibleContext
| PageBefore pages historyCursor visibleContext visibleContext' : fetch historyCursor = Ok visibleContext ->
    HasMoreBefore visibleContext = true -> page_from fetch pages (TrimSpace (HistoryCursor visibleContext)) visibleContext' ->
    page_from fetch (S pages) historyCursor visibleContext'.

(** A file the agent may name: one that the message shows, or one of the pages before it. *)
Definition visible_attachment (fetch : string -> result string VisibleContext) (event : PlatformInboundEvent)
    (attachment : InputAttachment) : Prop :=
  attachment ∈ visibleContextAttachmentMaterials (EventContext event) \/
  exists visibleContext, page_from fetch attachmentHistoryPageLimit (TrimSpace (HistoryCursor (EventContext event))) visibleContext /\
    attachment ∈ visibleContextAttachmentMaterials visibleContext.

Lemma findAttachmentMaterialInContext_Some visibleContext reference attachment :
  findAttachmentMaterialInContext visibleContext reference = Some attachment ->
  attachment ∈ visibleContextAttachmentMaterials visibleContext /\
  (attachmentMaterialID attachment = TrimSpace reference \/ TrimSpace (URL attachment) = TrimSpace reference).
Proof.
  unfold findAttachmentMaterialInContext; destruct (bool_decide _); [done|]; intros [Hin Hp]%find_some.
  split; [by apply list_elem_of_In|]; apply orb_true_iff in Hp as [Hp|Hp]; bool_to_prop; auto.
Qed.

Lemma find_in_pages_Some fetch materialID pages historyCursor attachment :
  find_in_pages fetch materialID pages historyCursor = Ok (Some attachment) ->
  exists visibleContext, page_from fetch pages historyCursor visibleContext /\
    findAttachmentMaterialInContext visibleContext materialID = Some attachment.
Proof.
  revert historyCursor; induction pages as [|pages IH]; intros historyCursor; cbn [find_in_pages]; [done|].
  destruct (fetch historyCursor) as [context|e] eqn:Hf; [|done].
  destruct (findAttachmentMaterialInContext context materialID) as [a|] eqn:Ha.
  { intros [= ->]; exists context; split; [by constructor|done]. }
  destruct (HasMoreBefore context) eqn:Hmore; [|done]; cbn [negb]; destruct (_ || _); [done|].
  intros (vc & Hp & Hv)%IH; exists vc; split; [by eapply PageBefore|done].
Qed.

Lemma findAttachmentMaterial_Some fetch event materialID attachment :
  findAttachmentMaterial fetch event materialID = Ok (Some attachment) ->
  visible_attachment fetch event attachment /\
  (attachmentMaterialID attachment = TrimSpace materialID \/ TrimSpace (URL attachment) = TrimSpace materialID).
Proof.
  unfold findAttachmentMaterial; destruct (findAttachmentMaterialInContext (EventContext event) materialID) as [a|] eqn:Ha.
  { intros [= ->]; apply findAttachmentMaterialInContext_Some in Ha as [? ?]; split; [by left|done]. }
  destruct (bool_decide _); [done|]; intros (vc & Hp & Hv)%find_in_pages_Some.
  apply findAttachmentMaterialInContext_Some in Hv as [? ?]; split; [right; by exists vc|done].
Qed.

(** An agent gets only the files its conversation shows.  A material is resolved to a file
    of the message, of what comes with it, or of at most forty pages of the history before it,
    that has the ID or the URL asked for; nothing is asked of the adapter, and nothing is
    written, about any other file. *)
Theorem resolved_materials_are_visible fetch importing writer sentSources personID event materialID disk :
  match ResolveAttachmentMaterial fetch importing writer sentSources personID event materialID disk with
  | (disk', Ok material) => exists attachment, visible_attachment fetch event attachment /\
      (attachmentMaterialID attachment = TrimSpace materialID \/ TrimSpace (URL attachment) = TrimSpace materialID) /\
      importAttachmentMaterial importing writer sentSources personID event attachment disk = (disk', Ok material)
  | (disk', Err e) => disk' = disk \/ exists attachment, visible_attachment fetch event attachment /\
      importAttachmentMaterial importing writer sentSources personID event attachment disk = (disk', Err e)
  end.
Proof.
  unfold ResolveAttachmentMaterial; destruct (findAttachmentMaterial fetch event materialID) as [[attachment|]|e] eqn:Hf; [|by left|by left].
  apply findAttachmentMaterial_Some in Hf as [Hv Hid].
  destruct (importAttachmentMaterial _ _ _ _ _ attachment disk) as [disk' [material|e]] eqn:Hi;
    [by exists attachment|right; by exists attachment].
Qed.

End visible.

(** ** Concrete files *)

Definition every_path_works : WorkspaceActor := MkActor (fun _ => None) (fun _ => false) (fun _ => None).

Definition ann_writer : importedAttachmentWriter := MkWriter true (fun _ => Ok every_path_works) "ann" (fun _ => "illegal base64 data").

Definition report_of (content : string) : InputAttachment :=
  MkAttachment "slack" "F1" "" "m1" "report.txt" "text/plain" 0 "/workspace/private/people/ann/inbox/slack/c1/report.txt"
    (StdEncoding.EncodeToString content) false "" "".

Definition report_path : string := "/workspace/private/people/ann/inbox/slack/c1/report.txt".
Definition second_report_path : string := "/workspace/private/people/ann/inbox/slack/c1/report-2.txt".
Definition third_report_path : string := "/workspace/private/people/ann/inbox/slack/c1/report-3.txt".

(** Two files of one name, where there is one already. *)
Example two_reports_are_written :
  (writeAll ann_writer [report_of "new"; report_of "newer"] {[report_path := "old"]}).1 =
  {[report_path := "old"; second_report_path := "new"; third_report_path := "newer"]}.
Proof. apply (bool_decide_unpack _); vm_compute; exact I. Qed.

Definition slack_history (historyCursor : string) : result string VisibleContext :=
  if bool_decide (historyCursor = "page-1") then Ok (set_Materials [report_of ""] no_context) else Err "unknown cursor".

Definition one_file : list FileAttachment := [MkFileAttachment "plan.pdf" "/workspace/private/people/ann/documents/plan.pdf" ""].

Lemma sent_files_are_found_witness :
  SourcePath "slack" "m9" "plan.pdf" (RecordReply map_to_list "slack" "m9" one_file newSentAttachmentSourceStore) =
    Some "/workspace/private/people/ann/documents/plan.pdf".
Proof.
  destruct (sent_files_are_found map_to_list "slack" "m9" one_file newSentAttachmentSourceStore) as [_ Hf].
  - done.
  - split_and!; [constructor|cbn; lia|]; intros key; cbn; rewrite lookup_empty; split; [by intros ?%elem_of_nil|by intros []].
  - apply Hf; [reflexivity|reflexivity|vm_compute; lia|intros filename; unfold SourcePath; cbn; apply lookup_empty|vm_compute; reflexivity].
Defined.
