(* ===== verification/TurnLaunch.v ===== *)
(** * What a turn launches ([agentruntime/task_launcher.go] ([TaskLaunchRequest]),
    [connectors/conversation_turn.go], [inbound_turn.go], [auto_resume.go], [task_retry.go],
    [task_reply_dispatch.go], [runtime_refusals.go])

    A message, a run that was interrupted, a retry: each becomes a request to the task
    launcher.  A run that is resumed is found by what its launch recorded, so what is
    recorded and what is read are one contract ([LaunchDocuments]).  The functions a request
    carries (history, attachments, checkpoints) are the data they close over. *)

From S2P Require Export Attachments.

(** ** Data *)

(** [agentcontract.PendingInputContext], [ChoiceReplyOption] *)
Record ChoiceReplyOption := MkReplyOption {
  Option_Key : string;
  Option_Label : string;
  Option_ShortLabel : string;
  Option_Value : string;
}.

Record PendingInputContext := MkPendingInput {
  Pending_TaskRunID : string;
  Pending_Question : string;
  Pending_SelectionMode : string;
  Pending_Options : list ChoiceReplyOption;
}.

Definition no_pending_input : PendingInputContext := MkPendingInput "" "" "" [].

Definition TaskLaunchSourceConnector : string := "connector".

(** The fields a connector sets and that are read here; the request of the code also says what a scheduled run, a
    harness or a test sets (the scheduled run and its approved call, pinned tools, an observer of tool calls, the catalog of
    records, times), which is left as it is by the functions modelled. *)
Module Launch.
Record TaskLaunchRequest := MkLaunchRequest {
  Source : string;
  SourceReference : string;
  RequesterPersonID : string;
  RequesterName : string;
  RequesterCallingName : string;
  RequesterHandle : string;
  RequesterEmail : string;
  RequesterPlatformUserID : string;
  IsRuntimeRestartResume : bool;
  ExistingTaskRunID : string;
  IsTaskRunOpenedForThisTurn : bool;
  OriginReplyTargetID : string;
  OriginIsThread : bool;
  ProfileName : string;
  Platform : string;
  ConversationID : string;
  ConversationType : string;
  ConversationChannelID : string;
  ConversationChannelName : string;
  ReplyTargetID : string;
  Prompt : string;
  InputParts : list AgentPart;
  ResponseLanguage : string;
  VisibleContext : AgentVisibleContext;
  ActiveGoal : ActiveGoal;
  PriorTask : PriorTaskContext;
  SettledCalls : list CarriedOutCall;
  TaskLevel : string;
  DecidedWork : string;
  PendingInput : PendingInputContext;
  AmbientDuty : AmbientDutyContext;
  (** the adapter *)
  HistoryProvider : option string;
  (** the person and the event *)
  AttachmentMaterialResolver : option (string * PlatformInboundEvent);
  PersonAccess : Access.PersonAccess;
  AccessibleConversationIDs : list string;
  (** the event and the target *)
  CheckpointSender : option (PlatformInboundEvent * ReplyTarget);
}.
End Launch.

Abbreviation TaskLaunchRequest := Launch.TaskLaunchRequest.

(** [ConversationTurn] *)
Module Turn.
Record ConversationTurn := MkTurn {
  Platform : string;
  Adapter : string;
  Event : PlatformInboundEvent;
  Target : ReplyTarget;
  RequesterPersonID : string;
  RequesterEmail : string;
  PersonAccess : Access.PersonAccess;
  SettledCalls : list CarriedOutCall;
  ActiveGoal : option ActiveGoal;
  PriorTask : PriorTaskContext;
  PendingInput : PendingInputContext;
  AmbientDuty : AmbientDutyContext;
  DecidedWork : string;
  CheckpointSender : option (PlatformInboundEvent * ReplyTarget);
  AccessibleConversationIDs : list string;
  IsBlockedContinuation : bool;
}.
End Turn.

Abbreviation ConversationTurn := Turn.ConversationTurn.

(** [interruptedTaskLaunchContext] *)
Module Interrupted.
Record LaunchContext := MkContext {
  SourceReference : string;
  ProfileName : string;
  RequesterPersonID : string;
  ConversationID : string;
  ReplyTargetID : string;
  IsThread : bool;
  ConversationType : string;
  ChannelID : string;
  ChannelName : string;
  Platform : string;
}.
End Interrupted.

Abbreviation LaunchContext := Interrupted.LaunchContext.

(** [taskLaunchOrigin] ([agentruntime/event.go]) *)
Module Origin.
Record taskLaunchOrigin := MkOrigin {
  Source : string;
  SourceReference : string;
  Platform : string;
  ProfileName : string;
  RequesterPersonID : string;
  ConversationID : string;
  ReplyTargetID : string;
  IsThread : bool;
  ConversationType : string;
  ChannelID : string;
  ChannelName : string;
}.
End Origin.

(** Documents of launches and retries, and what else the protocol library decides. *)
Class LaunchDocuments := {
  ResolveResponseLanguage : string -> string -> string;
  TaskLevelLow : string;
  launch_context_of : string -> option LaunchContext;
  marshal_origin : Origin.taskLaunchOrigin -> string;
  (** the source and the run of a retry *)
  retry_reference_of : string -> option TaskRetryReference;
  retry_source_body : string -> string;
  retry_request_body : string -> string;
}.

(** A document that names a launch is read with the fields it was written with. *)
Class LaunchDocumentsLaws `{LaunchDocuments} : Prop :=
  launch_context_origin o : launch_context_of (marshal_origin o) = Some (Interrupted.MkContext (Origin.SourceReference o)
    (Origin.ProfileName o) (Origin.RequesterPersonID o) (Origin.ConversationID o) (Origin.ReplyTargetID o) (Origin.IsThread o)
    (Origin.ConversationType o) (Origin.ChannelID o) (Origin.ChannelName o) (Origin.Platform o)).

(** ** The launch of a message ([conversation_turn.go]) *)

Section turn.
Context `{UnicodeTables, TaskLedger, TaskDocuments, LaunchDocuments}.
Context (identity : IdentityService).

Definition responseLanguageForEvent (event : PlatformInboundEvent) : string :=
  ResolveResponseLanguage (ResponseLanguage event) (Context_ResponseLanguage (EventContext event)).

Definition requesterNameForEvent (personID : string) (event : PlatformInboundEvent) : string :=
  let name := TrimSpace (Sender_Name (Sender (EventContext event))) in
  if negb (bool_decide (name = "")) then name else TrimSpace (ResolvePersonDisplayName personID identity).

Definition ambientDutyForTurn (turn : ConversationTurn) : option StandingDuty :=
  if IsMatch (Turn.AmbientDuty turn) then StandingDutyByName (Name (Turn.AmbientDuty turn)) else None.

Definition taskLevelForTurn (turn : ConversationTurn) : string :=
  if is_some (ambientDutyForTurn turn) then TaskLevelLow else "".

Definition decidedWorkForTurn (turn : ConversationTurn) : string :=
  if is_some (Turn.ActiveGoal turn) then "" else Turn.DecidedWork turn.

Definition existingGoalTaskRunIDFromTurn (turn : ConversationTurn) : string :=
  match Turn.ActiveGoal turn with Some activeGoal => Goal_TaskRunID activeGoal | None => "" end.

Definition choiceReplyOptions (options : list AskChoiceOption) : list ChoiceReplyOption :=
  map (fun option => MkReplyOption (TrimSpace (Ask_Key option)) (TrimSpace (Ask_Label option))
    (TrimSpace (Ask_ShortLabel option)) (TrimSpace (Ask_Value option))) options.

Definition pendingInputOf (pendingAskInteraction : option AskInteraction) : PendingInputContext :=
  match pendingAskInteraction with
  | None => no_pending_input
  | Some ask => MkPendingInput (Ask_TaskRunID ask) (Ask_Question ask) (SelectionMode ask) (choiceReplyOptions (Ask_Options ask))
  end.

Definition withTurnMessage (request : TaskLaunchRequest) (event : PlatformInboundEvent)
    (resolver : option (string * PlatformInboundEvent)) : TaskLaunchRequest :=
  let '(Launch.MkLaunchRequest s sr p n cn h e pu rr ex op ot th pf pl c ct ci cc rt pr _ rl _ ag pt sc tl dw pi ad hp _ pa ac cs) := request in
  Launch.MkLaunchRequest s sr p n cn h e pu rr ex op ot th pf pl c ct ci cc rt pr (InputParts event) rl
    (ToAgentVisibleContext (EventContext event)) ag pt sc tl dw pi ad hp resolver pa ac cs.

Definition withAmbientDuty (request : TaskLaunchRequest) (turn : ConversationTurn) : TaskLaunchRequest :=
  let '(Launch.MkLaunchRequest s sr p n cn h e pu rr ex op ot th pf pl c ct ci cc rt pr ip rl vc ag pt sc tl dw pi _ hp re pa ac cs) := request in
  match ambientDutyForTurn turn with
  | None => Launch.MkLaunchRequest s sr p n cn h e pu rr ex op ot th pf pl c ct ci cc rt pr ip rl vc ag pt sc tl dw pi
      (Turn.AmbientDuty turn) hp re pa ac cs
  | Some duty =>
    let prompt := AmbientDutyInstructionPrompt duty (Event_Prompt (Turn.Event turn))
      (Sender_Name (Sender (EventContext (Turn.Event turn)))) in
    Launch.MkLaunchRequest s sr p n cn h e pu rr ex op ot th pf pl c ct ci cc rt prompt ip rl vc ag pt sc tl dw pi
      (Turn.AmbientDuty turn) hp re pa ac None
  end.

Definition withTurnContinuation (request : TaskLaunchRequest) (turn : ConversationTurn) : TaskLaunchRequest :=
  let '(Launch.MkLaunchRequest s sr p n cn h e pu _ _ op ot th pf pl c ct ci cc rt pr ip rl vc _ _ _ _ _ _ ad hp re pa ac cs) := request in
  withAmbientDuty (Launch.MkLaunchRequest s sr p n cn h e pu (Turn.IsBlockedContinuation turn) (existingGoalTaskRunIDFromTurn turn)
    op ot th pf pl c ct ci cc rt pr ip rl vc (activeGoalForLaunch (Turn.ActiveGoal turn)) (Turn.PriorTask turn)
    (Turn.SettledCalls turn) (taskLevelForTurn turn) (decidedWorkForTurn turn) (Turn.PendingInput turn) ad hp re pa ac cs) turn.

Definition buildTaskLaunchRequest (turn : ConversationTurn) : TaskLaunchRequest :=
  let event := Turn.Event turn in
  let context := EventContext event in
  let resolver := Some (Turn.RequesterPersonID turn, event) in
  withTurnContinuation (withTurnMessage {|
    Launch.Source := TaskLaunchSourceConnector;
    Launch.SourceReference := DedupeKey event;
    Launch.RequesterPersonID := Turn.RequesterPersonID turn;
    Launch.RequesterName := requesterNameForEvent (Turn.RequesterPersonID turn) event;
    Launch.RequesterCallingName := Sender_CallingName (Sender context);
    Launch.RequesterHandle := Sender_Handle (Sender context);
    Launch.RequesterEmail := Turn.RequesterEmail turn;
    Launch.RequesterPlatformUserID := SenderID event;
    Launch.IsRuntimeRestartResume := false;
    Launch.ExistingTaskRunID := "";
    Launch.IsTaskRunOpenedForThisTurn := false;
    Launch.OriginReplyTargetID := Event_ReplyTargetID event;
    Launch.OriginIsThread := eventIsThreadReply event;
    Launch.ProfileName := "default";
    Launch.Platform := Turn.Platform turn;
    Launch.ConversationID := Event_ConversationID event;
    Launch.ConversationType := ConversationType context;
    Launch.ConversationChannelID := ChannelID context;
    Launch.ConversationChannelName := ChannelName context;
    Launch.ReplyTargetID := Event_ReplyTargetID event;
    Launch.Prompt := Event_Prompt event;
    Launch.InputParts := [];
    Launch.ResponseLanguage := responseLanguageForEvent event;
    Launch.VisibleContext := no_visible_context;
    Launch.ActiveGoal := no_goal;
    Launch.PriorTask := no_prior_task;
    Launch.SettledCalls := [];
    Launch.TaskLevel := "";
    Launch.DecidedWork := "";
    Launch.PendingInput := no_pending_input;
    Launch.AmbientDuty := no_duty;
    Launch.HistoryProvider := Some (Turn.Adapter turn);
    Launch.AttachmentMaterialResolver := None;
    Launch.PersonAccess := Turn.PersonAccess turn;
    Launch.AccessibleConversationIDs := Turn.AccessibleConversationIDs turn;
    Launch.CheckpointSender := Turn.CheckpointSender turn;
  |} event resolver) turn.

End turn.

(** ** The launch of a run that was interrupted ([auto_resume.go]) *)

Record taskResumeProfile := MkProfile {
  Profile_sourceReference : string;
  guidanceNote : string;
  Profile_instruction : string;
}.

Definition autoResumeTaskProfile (taskRunID : string) : taskResumeProfile :=
  MkProfile ("auto_resume:" +:+ taskRunID)
    "Runtime restarted mid-task before the prior attempt completed. Assess prior progress from the task event ledger and restored observations, then continue or redo only the work that is still missing."
    "".

Definition userSteerTaskProfile (platform taskRunID instruction : string) : taskResumeProfile :=
  MkProfile (platform +:+ ":steer:" +:+ taskRunID)
    "The user asked to continue this paused task. Assess prior progress from the task event ledger and restored observations, follow the latest steering instruction, and finish only the work that is still missing."
    instruction.

Definition platformFromSourceReference (sourceReference : string) : string :=
  match Cut (TrimSpace sourceReference) ":" with
  | None => ""
  | Some (platform, _) =>
    let platform := TrimSpace platform in
    if bool_decide (platform ∈ ["auto_resume"; "user_steer"; "steer"]) then "" else platform
  end.

Section resume.
Context `{UnicodeTables, TaskLedger, TaskDocuments, LaunchDocuments}.
Context (identity : IdentityService).

Definition launch_context_at (taskRun : TaskRun) (launchContext : LaunchContext) : LaunchContext :=
  let '(Interrupted.MkContext sr pf rp c rt th ct ci cn pl) := launchContext in
  Interrupted.MkContext sr pf rp (firstNonEmptyString [OriginConversationID taskRun; c])
    (firstNonEmptyString [OriginReplyTargetID taskRun; rt]) th ct ci cn (firstNonEmptyString [pl; platformFromSourceReference sr]).

Definition is_whole_context (launchContext : LaunchContext) : bool :=
  negb (blank (Interrupted.Platform launchContext) || blank (Interrupted.ConversationID launchContext) ||
        blank (Interrupted.ReplyTargetID launchContext)).

(** From the last event back. *)
Fixpoint recorded_context (eventName : string) (taskRun : TaskRun) (reversed : list TaskEvent) : option LaunchContext :=
  match reversed with
  | [] => None
  | taskEvent :: rest =>
    if negb (bool_decide (Event_Name taskEvent = eventName)) then recorded_context eventName taskRun rest else
    match launch_context_of (Event_Body taskEvent) with
    | None => recorded_context eventName taskRun rest
    | Some launchContext =>
      let launchContext := launch_context_at taskRun launchContext in
      if is_whole_context launchContext then Some launchContext else recorded_context eventName taskRun rest
    end
  end.

Definition latestLaunchContextRecordedAs (eventName : string) (taskRun : TaskRun) (taskEvents : list TaskEvent) : option LaunchContext :=
  recorded_context eventName taskRun (rev taskEvents).

Definition interruptedTaskLaunchContextFromEvents (taskRun : TaskRun) (taskEvents : list TaskEvent) : option LaunchContext :=
  match latestLaunchContextRecordedAs TaskEventAgentTaskLaunched taskRun taskEvents with
  | Some launchContext => Some launchContext
  | None => latestLaunchContextRecordedAs TaskEventLaunchOrigin taskRun taskEvents
  end.

Definition interruptedTaskResumeEvent (taskRun : TaskRun) (launchContext : LaunchContext) : PlatformInboundEvent :=
  let conversationID := firstNonEmptyString [OriginConversationID taskRun; Interrupted.ConversationID launchContext] in
  let replyTargetID := firstNonEmptyString [OriginReplyTargetID taskRun; Interrupted.ReplyTargetID launchContext] in
  ConnectorEvents.MkEvent (Interrupted.Platform launchContext) "auto_resume" conversationID ("auto_resume:" +:+ Run_ID taskRun) ""
    (Run_RequesterPersonID taskRun) replyTargetID None [] (Run_Prompt taskRun) [] ""
    (MkVisibleContext [] false conversationID "" "" (MkSender "" "" "" "" "" "") (Interrupted.ConversationType launchContext)
      (Interrupted.ChannelID launchContext) (Interrupted.ChannelName launchContext) [] (MkAddressing false false) false false [] [])
    zero_time None.

Definition heldToolNames (taskEvents : list TaskEvent) : list string := map Hold_ToolName (Holds taskEvents).

Definition interruptedTaskActiveGoalWithInstruction (taskRun : TaskRun) (taskEvents : list TaskEvent) (guidanceNote instruction : string)
  : ActiveGoal :=
  let '(MkGoal g r i o mi kc _ (MkContract suffixes tools any results artifact) e) := latestActiveGoal taskEvents in
  let trimmedInstruction := TrimSpace instruction in
  let o := if bool_decide (trimmedInstruction = "") then o else trimmedInstruction in
  MkGoal (firstNonEmptyString [g; Run_ID taskRun]) (firstNonEmptyString [r; Run_ID taskRun])
    (firstNonEmptyString [i; Run_Prompt taskRun]) (firstNonEmptyString [o; Run_Prompt taskRun]) mi (kc ++ [guidanceNote])%list
    ActiveGoalStatusActive (MkContract suffixes (AppendUniqueStrings tools (heldToolNames taskEvents)) any results artifact) e.

Definition interruptedTaskActiveGoal (taskRun : TaskRun) (taskEvents : list TaskEvent) (guidanceNote : string) : ActiveGoal :=
  interruptedTaskActiveGoalWithInstruction taskRun taskEvents guidanceNote "".

Definition ActiveGoalOfARunResumedOnItsHeldCall (taskRun : TaskRun) (taskEvents : list TaskEvent) : ActiveGoal :=
  interruptedTaskActiveGoal taskRun taskEvents (guidanceNote (autoResumeTaskProfile (Run_ID taskRun))).

(** [adapter]: its name. *)
Definition interruptedTaskLaunchRequest (taskRun : TaskRun) (taskEvents : list TaskEvent) (launchContext : LaunchContext)
    (event : PlatformInboundEvent) (adapter : string) (profile : taskResumeProfile) : TaskLaunchRequest :=
  let conversationID := firstNonEmptyString [OriginConversationID taskRun; Interrupted.ConversationID launchContext] in
  let replyTargetID := firstNonEmptyString [OriginReplyTargetID taskRun; Interrupted.ReplyTargetID launchContext] in
  {|
    Launch.Source := TaskLaunchSourceConnector;
    Launch.SourceReference := Profile_sourceReference profile;
    Launch.RequesterPersonID := Run_RequesterPersonID taskRun;
    Launch.RequesterName := ResolvePersonDisplayName (Run_RequesterPersonID taskRun) identity;
    Launch.RequesterCallingName := "";
    Launch.RequesterHandle := "";
    Launch.RequesterEmail := ResolvePersonPrimaryEmail (Run_RequesterPersonID taskRun) identity;
    Launch.RequesterPlatformUserID := "";
    Launch.IsRuntimeRestartResume := true;
    Launch.ExistingTaskRunID := Run_ID taskRun;
    Launch.IsTaskRunOpenedForThisTurn := false;
    Launch.OriginReplyTargetID := replyTargetID;
    Launch.OriginIsThread := OriginIsThread taskRun || Interrupted.IsThread launchContext;
    Launch.ProfileName := Interrupted.ProfileName launchContext;
    Launch.Platform := Interrupted.Platform launchContext;
    Launch.ConversationID := conversationID;
    Launch.ConversationType := Interrupted.ConversationType launchContext;
    Launch.ConversationChannelID := Interrupted.ChannelID launchContext;
    Launch.ConversationChannelName := Interrupted.ChannelName launchContext;
    Launch.ReplyTargetID := replyTargetID;
    Launch.Prompt := Run_Prompt taskRun;
    Launch.InputParts := [];
    Launch.ResponseLanguage := Context_ResponseLanguage (EventContext event);
    Launch.VisibleContext := ToAgentVisibleContext (EventContext event);
    Launch.ActiveGoal := interruptedTaskActiveGoalWithInstruction taskRun taskEvents (guidanceNote profile) (Profile_instruction profile);
    Launch.PriorTask := no_prior_task;
    Launch.SettledCalls := [];
    Launch.TaskLevel := "";
    Launch.DecidedWork := "";
    Launch.PendingInput := no_pending_input;
    Launch.AmbientDuty := no_duty;
    Launch.HistoryProvider := Some adapter;
    Launch.AttachmentMaterialResolver := Some (Run_RequesterPersonID taskRun, event);
    Launch.PersonAccess := ResolvePersonAccess (Run_RequesterPersonID taskRun) identity;
    Launch.AccessibleConversationIDs := [conversationID];
    Launch.CheckpointSender := Some (event, MkReplyTarget conversationID (Event_ReplyTargetID event) "" (DedupeKey event));
  |}.

(** [busy_message.go] *)
Definition steeredTaskLaunchRequest (launchRequest : TaskLaunchRequest) (event : PlatformInboundEvent) (instruction : string)
  : TaskLaunchRequest :=
  let steeredPrompt := firstNonEmptyString [TrimSpace (Event_Prompt event); instruction] in
  if bool_decide (steeredPrompt = "") then launchRequest else
  let '(Launch.MkLaunchRequest s sr p n cn h e pu _ ex op ot th pf pl c ct ci cc rt _ ip rl vc ag pt sc tl dw pi ad hp re pa ac cs) := launchRequest in
  Launch.MkLaunchRequest s sr p n cn h e pu false ex op ot th pf pl c ct ci cc rt steeredPrompt ip rl vc ag pt sc tl dw pi ad hp re pa ac cs.

(** ** The launch of a retry ([task_retry.go]) *)

Definition taskRetryRequestedEvent : string := "task.retry_requested".
Definition taskRetrySourceEvent : string := "task.retry_source".

Definition hasTaskRetrySource (taskEvents : list TaskEvent) (sourceTaskRunID : string) : bool :=
  existsb (fun taskEvent => bool_decide (Event_Name taskEvent = taskRetrySourceEvent) &&
    match retry_reference_of (Event_Body taskEvent) with
    | Some reference => bool_decide (SourceTaskRunID reference = sourceTaskRunID)
    | None => false
    end) taskEvents.

(** The first of the runs a retry was recorded with that there is. *)
Fixpoint retryChildForSource (taskEvents : list TaskEvent) (st : ApprovalGate.Store) : option TaskRun :=
  match taskEvents with
  | [] => None
  | taskEvent :: rest =>
    if negb (bool_decide (Event_Name taskEvent = taskRetryRequestedEvent)) then retryChildForSource rest st else
    match retry_reference_of (Event_Body taskEvent) with
    | None => retryChildForSource rest st
    | Some reference =>
      if bool_decide (Retry_TaskRunID reference = "") then retryChildForSource rest st else
      match FindTaskRun (Retry_TaskRunID reference) st with
      | Some child => Some child
      | None => retryChildForSource rest st
      end
    end
  end.

Definition pendingRetrySource (taskEvents : list TaskEvent) (st : ApprovalGate.Store) : option TaskRun :=
  if existsb (fun taskEvent => bool_decide (Event_Name taskEvent = TaskEventAgentTaskLaunched)) taskEvents then None else
  match find (fun taskEvent => bool_decide (Event_Name taskEvent = taskRetrySourceEvent) &&
      is_some (retry_reference_of (Event_Body taskEvent))) taskEvents with
  | Some taskEvent =>
    match retry_reference_of (Event_Body taskEvent) with
    | Some reference => FindTaskRun (SourceTaskRunID reference) st
    | None => None
    end
  | None => None
  end.

Definition retryInboundEvent (sourceTaskRun childTaskRun : TaskRun) (launchContext : LaunchContext) : PlatformInboundEvent :=
  let '(ConnectorEvents.MkEvent p _ c _ _ sd rt _ pm pr ip rl ctx at_ _) := interruptedTaskResumeEvent childTaskRun launchContext in
  let messageID := "task_retry:" +:+ Run_ID childTaskRun in
  ConnectorEvents.MkEvent p "task_retry" c messageID messageID sd rt (Some (OriginIsThread childTaskRun)) pm pr ip rl ctx at_
    (Some (MkTaskRetry (Run_ID sourceTaskRun) (Run_ID childTaskRun))).

Definition interruptedRetryLaunchRequest (sourceTaskRun childTaskRun : TaskRun) (taskEvents : list TaskEvent)
    (launchContext : LaunchContext) (event : PlatformInboundEvent) (adapter : string) : TaskLaunchRequest :=
  let '(Launch.MkLaunchRequest s sr p n cn h e pu _ _ _ ot th pf pl c ct ci cc rt pr ip rl vc _ _ sc tl dw pi ad hp re pa ac cs) :=
    interruptedTaskLaunchRequest sourceTaskRun taskEvents launchContext event adapter (MkProfile (DedupeKey event) "" "") in
  Launch.MkLaunchRequest s sr p n cn h e pu false (Run_ID childTaskRun) true ot th pf pl c ct ci cc rt pr ip rl vc no_goal
    (priorTaskContextForTaskRun sourceTaskRun taskEvents) sc tl dw pi ad hp re pa ac cs.

End resume.

(** ** The reply ([task_reply_dispatch.go]) *)

Inductive taskReplyDecisionKind :=
| taskReplyDecisionSuppressCancelled
| taskReplyDecisionSuppressSuperseded
| taskReplyDecisionSuppressRequested
| taskReplyDecisionSuppressDelivered
| taskReplyDecisionSendUserNotice
| taskReplyDecisionSendFinal.

#[export] Instance taskReplyDecisionKind_eq_dec : EqDecision taskReplyDecisionKind.
Proof. solve_decision. Defined.

(** The kind, and the reason. *)
Definition decideTaskReply (turnResult : TurnResult) (isCancelledBeforeSend hasAgentDeliveredReply : bool)
  : taskReplyDecisionKind * string :=
  let taskRun := Turn_TaskRun turnResult in
  if negb (blank (ReplySuppressionReason turnResult)) && negb (bool_decide (Run_Status taskRun = TaskStatusWaitingApproval)) &&
     negb (bool_decide (Run_Status taskRun = TaskStatusWaitingUserInput))
  then (taskReplyDecisionSuppressRequested, TrimSpace (ReplySuppressionReason turnResult)) else
  if bool_decide (Run_Status taskRun = TaskStatusCancelled) || isCancelledBeforeSend
  then (taskReplyDecisionSuppressCancelled, "task_cancelled") else
  if bool_decide (Run_Status taskRun = TaskStatusInterrupted) &&
     bool_decide (TrimSpace (Run_FailureReason taskRun) = "superseded_by_new_message")
  then (taskReplyDecisionSuppressSuperseded, "superseded_by_new_message") else
  if negb (bool_decide (Run_Status taskRun = TaskStatusCompleted)) then (taskReplyDecisionSendUserNotice, "task_not_completed") else
  if hasAgentDeliveredReply then (taskReplyDecisionSuppressDelivered, "agent_already_replied_to_this_conversation")
  else (taskReplyDecisionSendFinal, "").

(** ** Refusals ([runtime_refusals.go]) *)

Record senderAuthorization := MkAuthorization {
  Authorized_PersonID : string;
  IsAllowed : bool;
  Authorized_Platform : string;
  PlatformAccountEmail : string;
  DirectoryUnreachable : bool;
}.

Definition unmatchedAccountReplyOpeningFor (locale : string) : string :=
  if bool_decide (locale = "ko")
  then "이 김인턴은 회원님의 계정을 알고 있는 사람과 연결하지 못했습니다. 관리자에게 확인을 요청하세요."
  else "This Intern Kim could not match your account to anyone it knows about. Ask the administrator to check it.".

Definition directoryUnreachableReplyFor (locale : string) : string :=
  if bool_decide (locale = "ko")
  then "이 김인턴이 방금 디렉터리에 연결하지 못해 계정을 확인할 수 없습니다. 회원님의 계정 자체에는 문제가 없는 것으로 보입니다. 잠시 후 다시 시도해 보시고, 계속되면 관리자에게 알려주세요."
  else "This Intern Kim could not reach the directory just now, so it cannot tell whose account this is. As far as it knows there is nothing wrong with your account. Try again in a moment, and tell the administrator if it keeps happening.".

Definition noEmailAddressReplySuffixFor (locale : string) : string :=
  if bool_decide (locale = "ko")
  then " 회원님의 계정에는 이메일 주소가 없고, 이 김인턴은 이메일 주소로 계정을 대조합니다."
  else " Your account presents no email address, and that is what this Intern Kim matches on.".

(** The template with its three arguments. *)
Definition unmatchedEmailAddressReplyTemplateFor (locale opening email platform : string) : string :=
  if bool_decide (locale = "ko")
  then opening +:+ " 회원님의 계정은 " +:+ email +:+ " 주소를 사용 중인데, 이 주소로 등록된 사람이 없습니다 — 다른 주소로 등록되어 있거나, 이 " +:+ platform +:+ " 계정이 아직 이 김인턴과 연결되지 않았을 수 있습니다."
  else opening +:+ " Your account presents " +:+ email +:+ ", and no one here is on file under that address — either it is recorded under a different one, or this " +:+ platform +:+ " account has not reached this Intern Kim yet.".

Section refusals.
Context `{UnicodeTables}.

Definition normalizeCompanyReplyLocale (locale : string) : string :=
  if EqualFold (TrimSpace locale) "ko" then "ko" else "en".

Definition unmatchedAccountReplyFor (authorization : senderAuthorization) (locale : string) : string :=
  let locale := normalizeCompanyReplyLocale locale in
  if DirectoryUnreachable authorization then directoryUnreachableReplyFor locale else
  let opening := unmatchedAccountReplyOpeningFor locale in
  let platformAccountEmail := TrimSpace (PlatformAccountEmail authorization) in
  if bool_decide (platformAccountEmail = "") then opening +:+ noEmailAddressReplySuffixFor locale
  else unmatchedEmailAddressReplyTemplateFor locale opening platformAccountEmail (TrimSpace (Authorized_Platform authorization)).

End refusals.
