(* ===== verification/Delivery.v ===== *)
(** * Sending a reply ([connectors/reply_delivery.go], [turn_narration.go], [runtime_queue.go]
    ([enqueueConnectorReply]), [request_revision.go] ([pendingRequestReplySender]), [runtime.go])

    A reply goes through the adapter, or into the outbox; what was done is recorded in its
    task run, and the files it carried are remembered.  Nothing is sent for a request that a
    newer message superseded.  While an agent works, one message shows what it is doing; a
    reply takes its place.  What an adapter answers is a function of the number of the call. *)

From S2P Require Export TurnLaunch.

(** ** Data *)

Inductive ReplyAct :=
| Sent (target : ReplyTarget) (reply : OutboundReply) (dispatchID : string)
| Enqueued (target : ReplyTarget) (reply : OutboundReply) (outboxID : string)
| Edited (messageID text : string)
| Deleted (messageID : string).

(** The adapter: its answers to the calls, by their number; editing and deleting where it can.
    An error is its text; [None] is success. *)
Record Platform_ := MkPlatform {
  platform_SendReply : nat -> ReplyTarget -> OutboundReply -> result string string;
  platform_EditReply : option (nat -> string -> string -> option string);
  platform_DeleteReply : option (nat -> string -> option string);
}.

(** Names of events, and what is written in them. *)
Class ReplyDocuments := {
  TaskEventConnectorReplySuppressed : string;
  TaskEventConnectorReplyFailed : string;
}.

Section delivery.
Context `{UnicodeTables, TaskLedger, ReplyEvents, ReplyDocuments}.

Record DeliveryWorld := MkDelivery {
  reply_store : ApprovalGate.Store;
  reply_sources : sentAttachmentSourceStore;
  reply_acts : list ReplyAct;
  reply_calls : nat;
}.

Definition set_reply_store (st : ApprovalGate.Store) (w : DeliveryWorld) : DeliveryWorld :=
  MkDelivery st (reply_sources w) (reply_acts w) (reply_calls w).

(** A call to the adapter is made, and done. *)
Definition acted (act : option ReplyAct) (w : DeliveryWorld) : DeliveryWorld :=
  MkDelivery (reply_store w) (reply_sources w) (reply_acts w ++ option_list act)%list (S (reply_calls w)).

(** A [ReplySender] *)
Definition Sender : Type := ReplyTarget -> OutboundReply -> DeliveryWorld -> DeliveryWorld * result string string.

(** [runtime.go] *)
Definition connectorReplyEventBody (event : PlatformInboundEvent) (reply : OutboundReply) (outboxID dispatchID reason : string)
  : list (string * string) :=
  [("taskRunID", TrimSpace (Reply_TaskRunID reply)); ("replyKind", TrimSpace (ReplyKind reply));
   ("outboxID", TrimSpace outboxID); ("dispatchID", TrimSpace dispatchID); ("messageID", TrimSpace (MessageID event));
   ("reason", TrimSpace reason)].

Definition appendConnectorReplyEvent (taskRunID name : string) (body : list (string * string)) (st : ApprovalGate.Store) : ApprovalGate.Store :=
  if blank taskRunID then st else AppendEvent taskRunID (HeldCalls.MkEvent name (marshal_event_body body)) st.

(** [reply_delivery.go]; [visit]: the order a map is ranged over in. *)
Definition recordReplySent (visit : gmap string string -> list (string * string)) (event : PlatformInboundEvent)
    (reply : OutboundReply) (dispatchID : string) (w : DeliveryWorld) : DeliveryWorld :=
  MkDelivery
    (appendConnectorReplyEvent (Reply_TaskRunID reply) TaskEventConnectorReplySent
      (connectorReplyEventBody event reply (OutboxID reply) dispatchID "") (reply_store w))
    (RecordReply visit (Event_Platform event) dispatchID (Reply_Attachments reply) (reply_sources w))
    (reply_acts w) (reply_calls w).

Section sending.
Context (platform : Platform_) (visit : gmap string string -> list (string * string)) (event : PlatformInboundEvent).

Definition recordingDelivery (deliver : Sender) : Sender := fun target reply w =>
  match deliver target reply w with
  | (w, Err e) => (w, Err e)
  | (w, Ok dispatchID) => (recordReplySent visit event reply dispatchID w, Ok dispatchID)
  end.

(** [adapter.SendReply] *)
Definition adapter_SendReply : Sender := fun target reply w =>
  match platform_SendReply platform (reply_calls w) target reply with
  | Ok dispatchID => (acted (Some (Sent target reply dispatchID)) w, Ok dispatchID)
  | Err e => (acted None w, Err e)
  end.

(** [enqueue]: what the outbox answers. *)
Definition enqueueConnectorReply (enqueue : nat -> ReplyTarget -> OutboundReply -> result string string) : Sender := fun target reply w =>
  match enqueue (reply_calls w) target reply with
  | Ok outboxID =>
    let w := acted (Some (Enqueued target reply outboxID)) w in
    (set_reply_store (appendConnectorReplyEvent (Reply_TaskRunID reply) TaskEventConnectorReplyEnqueued
      (connectorReplyEventBody event reply outboxID "" "") (reply_store w)) w, Ok outboxID)
  | Err e => (acted None w, Err e)
  end.

(** [isSuperseded]: of the request, by the number of the call. *)
Definition pendingRequestReplySender (isSuperseded : nat -> bool) (sendReply : Sender) : Sender := fun target reply w =>
  if isSuperseded (reply_calls w) then (w, Ok "") else sendReply target reply w.

(** ** Narration ([turn_narration.go]) *)

Record narratedCall := MkNarrated { call_ID : string; call_label : string; call_outcome : string }.

Definition narrationLineLimit : nat := 6.
Definition narrationOutcomeDone : string := " ✓".
Definition narrationOutcomeFailed : string := " ✗".

Definition narrated_text (call : narratedCall) : string := call_label call +:+ call_outcome call.

Definition narrationMessage (calls : list narratedCall) : string :=
  if bool_decide (calls = []) then "" else
  let shown := drop (length calls - narrationLineLimit) calls in
  "_" +:+ Join ("_" +:+ nl +:+ "_") (map narrated_text shown) +:+ "_".

(** [acp.SessionUpdate]: a call, a status of a call, or anything else. *)
Inductive SessionUpdate :=
| ToolCall (ToolCallId Title : string)
| ToolCallUpdate (ToolCallId : string) (Status : option string)
| OtherUpdate.

Definition ToolCallStatusCompleted : string := "completed".
Definition ToolCallStatusFailed : string := "failed".

Definition narrationOutcomeOf (status : string) : option string :=
  if bool_decide (status = ToolCallStatusCompleted) then Some narrationOutcomeDone else
  if bool_decide (status = ToolCallStatusFailed) then Some narrationOutcomeFailed else None.

Record turnNarrator := MkNarrator {
  narrator_calls : list narratedCall;
  narrator_messageID : string;
  narrator_isFinished : bool;
}.

Definition new_narrator : turnNarrator := MkNarrator [] "" false.

(** The first call of the ID gets the outcome. *)
Fixpoint set_outcome (id outcome : string) (calls : list narratedCall) : option (list narratedCall) :=
  match calls with
  | [] => None
  | call :: rest =>
    if bool_decide (call_ID call = id) then Some (MkNarrated (call_ID call) (call_label call) outcome :: rest)
    else cons call <$> set_outcome id outcome rest
  end.

(** The calls after an update, where it is one to tell of. *)
Definition take_update (update : SessionUpdate) (calls : list narratedCall) : option (list narratedCall) :=
  match update with
  | ToolCall id title => Some (calls ++ [MkNarrated id title ""])%list
  | ToolCallUpdate id (Some status) => outcome ← narrationOutcomeOf status; set_outcome id outcome calls
  | _ => None
  end.

Definition beginNextProgress (narrator : turnNarrator) : turnNarrator := MkNarrator [] "" (narrator_isFinished narrator).
Definition finish_narrating (narrator : turnNarrator) : turnNarrator := MkNarrator [] "" true.

Definition ConnectorReplyKindProgress : string := "progress".
Definition connectorReplyKindCheckpoint : string := "checkpoint".

Definition progress_reply (message : string) : OutboundReply := MkReply message "" ConnectorReplyKindProgress "" "" [] [] "" None.

(** [editor.EditReply] *)
Definition adapter_EditReply (messageID text : string) (w : DeliveryWorld) : DeliveryWorld * option string :=
  match platform_EditReply platform with
  | None => (w, Some "the platform cannot edit a message")
  | Some edit =>
    match edit (reply_calls w) messageID text with
    | None => (acted (Some (Edited messageID text)) w, None)
    | Some e => (acted None w, Some e)
    end
  end.

(** A narrator there is where the adapter can edit. *)
Definition observe (target : ReplyTarget) (update : SessionUpdate) (narrator : turnNarrator) (w : DeliveryWorld)
  : turnNarrator * DeliveryWorld :=
  if narrator_isFinished narrator then (narrator, w) else
  match take_update update (narrator_calls narrator) with
  | None => (narrator, w)
  | Some taken =>
    let narrator := MkNarrator taken (narrator_messageID narrator) (narrator_isFinished narrator) in
    let message := narrationMessage taken in
    if bool_decide (narrator_messageID narrator = "") then
      match adapter_SendReply target (progress_reply message) w with
      | (w, Ok id) => (MkNarrator taken (TrimSpace id) (narrator_isFinished narrator), w)
      | (w, Err _) => (narrator, w)
      end
    else (narrator, fst (adapter_EditReply (narrator_messageID narrator) message w))
  end.

Definition replyIsOnlyWords (reply : OutboundReply) : bool :=
  negb (blank (ScheduleStore.Message reply)) && bool_decide (Reply_Attachments reply = []) &&
  bool_decide (Reply_RecoveryActions reply = []) && negb (is_some (Interaction reply)).

Definition editingInto (messageID : string) : Sender := fun target reply w =>
  match adapter_EditReply messageID (ScheduleStore.Message reply) w with
  | (w, None) => (w, Ok messageID)
  | (w, Some e) => (w, Err e)
  end.

(** The message it went into, if it did. *)
Definition editIntoProgress (target : ReplyTarget) (reply : OutboundReply) (narrator : turnNarrator) (w : DeliveryWorld)
  : DeliveryWorld * option string :=
  if bool_decide (narrator_messageID narrator = "") || negb (replyIsOnlyWords reply) then (w, None) else
  match recordingDelivery (editingInto (narrator_messageID narrator)) target reply w with
  | (w, Ok dispatchID) => (w, Some dispatchID)
  | (w, Err _) => (w, None)
  end.

Definition takeDownProgress (narrator : turnNarrator) (w : DeliveryWorld) : turnNarrator * DeliveryWorld :=
  let id := narrator_messageID narrator in
  let narrator := beginNextProgress narrator in
  if bool_decide (id = "") then (narrator, w) else
  match platform_DeleteReply platform with
  | None => (narrator, w)
  | Some delete_ =>
    match delete_ (reply_calls w) id with
    | None => (narrator, acted (Some (Deleted id)) w)
    | Some _ => (narrator, acted None w)
    end
  end.

Definition sayCheckpoint (target : ReplyTarget) (reply : OutboundReply) (narrator : turnNarrator) (w : DeliveryWorld)
  : turnNarrator * DeliveryWorld * result string string :=
  match editIntoProgress target reply narrator w with
  | (w, Some dispatchID) => (beginNextProgress narrator, w, Ok dispatchID)
  | (w, None) =>
    match recordingDelivery adapter_SendReply target reply w with
    | (w, Err e) => (narrator, w, Err e)
    | (w, Ok dispatchID) => let '(narrator, w) := takeDownProgress narrator w in (narrator, w, Ok dispatchID)
    end
  end.

Definition sayFinal (sendReply : Sender) (target : ReplyTarget) (reply : OutboundReply) (narrator : turnNarrator) (w : DeliveryWorld)
  : turnNarrator * DeliveryWorld * result string string :=
  let edited := if is_some (platform_DeleteReply platform) then (w, None) else editIntoProgress target reply narrator w in
  match edited with
  | (w, Some dispatchID) => (finish_narrating narrator, w, Ok dispatchID)
  | (w, None) =>
    match sendReply target reply w with
    | (w, Err e) => (narrator, w, Err e)
    | (w, Ok dispatchID) => let '(narrator, w) := takeDownProgress narrator w in (finish_narrating narrator, w, Ok dispatchID)
    end
  end.

(** The sender of a turn that is narrated; [None]: the adapter cannot edit. *)
Definition takeOverSending (sendReply : Sender) (target : ReplyTarget) (reply : OutboundReply) (narrator : option turnNarrator)
    (w : DeliveryWorld) : option turnNarrator * DeliveryWorld * result string string :=
  match narrator with
  | None => let '(w, r) := sendReply target reply w in (None, w, r)
  | Some narrator =>
    if narrator_isFinished narrator then let '(w, r) := sendReply target reply w in (Some narrator, w, r) else
    let '(narrator, w, r) :=
      if bool_decide (ReplyKind reply = connectorReplyKindCheckpoint) then sayCheckpoint target reply narrator w
      else sayFinal sendReply target reply narrator w in
    (Some narrator, w, r)
  end.

End sending.

End delivery.

(** ** Lemmas *)

Section said.
Context `{UnicodeTables, LedgerLaws, ReplyEvents, ReplyDocuments}.
Context (platform : Platform_) (visit : gmap string string -> list (string * string)) (event : PlatformInboundEvent).

(** The run of an ID, where there is one. *)
Definition run_named (taskRunID id : string) : Prop := id = taskRunID /\ blank taskRunID = false.

(** An act that carries a reply to its target. *)
Definition carries (target : ReplyTarget) (reply : OutboundReply) (act : ReplyAct) : Prop :=
  match act with
  | Sent target' reply' _ => target' = target /\ reply' = reply
  | Enqueued target' reply' _ => target' = target /\ reply' = reply
  | Edited _ text => text = ScheduleStore.Message reply
  | Deleted _ => False
  end.

(** A sender that says a reply at most once, and not at all where it fails; it appends to the
    run the reply names, and to no other. *)
Definition says_at_most_once (sendReply : Sender) : Prop := forall target reply w,
  let '(w', r) := sendReply target reply w in
  only_touches (run_named (Reply_TaskRunID reply)) (reply_store w) (reply_store w') /\
  exists act, reply_acts w' = (reply_acts w ++ option_list act)%list /\
    match r with Ok _ => forall a, act = Some a -> carries target reply a | Err _ => act = None end.

(** A sender that says a reply once, and reports what the message became, except where it is mute;
    and not at all where it fails. *)
Definition says_once (how : ReplyTarget -> OutboundReply -> string -> ReplyAct -> Prop) (mute : DeliveryWorld -> bool) (sendReply : Sender) : Prop :=
  forall target reply w, let '(w', r) := sendReply target reply w in
  only_touches (run_named (Reply_TaskRunID reply)) (reply_store w) (reply_store w') /\
  match r with
  | Ok id => if mute w then reply_acts w' = reply_acts w
      else exists act, reply_acts w' = (reply_acts w ++ [act])%list /\ how target reply id act
  | Err _ => reply_acts w' = reply_acts w
  end.

Definition dispatched (target : ReplyTarget) (reply : OutboundReply) (id : string) (act : ReplyAct) : Prop :=
  act = Sent target reply id \/ act = Enqueued target reply id.

Definition edited_into (messageID : string) (target : ReplyTarget) (reply : OutboundReply) (id : string) (act : ReplyAct) : Prop :=
  act = Edited messageID (ScheduleStore.Message reply) /\ id = messageID.

Definition never (w : DeliveryWorld) : bool := false.

Lemma says_once_at_most how mute sendReply : (forall target reply id act, how target reply id act -> carries target reply act) ->
  says_once how mute sendReply -> says_at_most_once sendReply.
Proof.
  intros Hhow Hs target reply w; specialize (Hs target reply w); destruct (sendReply target reply w) as [w' [id|e]]; destruct Hs as [Ht Hs]; (split; [done|]).
  - destruct (mute w); [exists None; by rewrite app_nil_r|]; destruct Hs as (act & Ha & Hc); exists (Some act); split; [done|].
    intros a [= <-]; by eapply Hhow.
  - exists None; by rewrite app_nil_r.
Qed.

Lemma dispatched_carries target reply id act : dispatched target reply id act -> carries target reply act.
Proof. by intros [->| ->]. Qed.

Lemma appendConnectorReplyEvent_touches taskRunID name body st :
  only_touches (run_named taskRunID) st (appendConnectorReplyEvent taskRunID name body st).
Proof.
  unfold appendConnectorReplyEvent; destruct (blank taskRunID) eqn:Hb; [apply only_touches_refl|].
  eapply only_touches_weaken; [|apply append_touches]; by intros id ->.
Qed.

Lemma recordingDelivery_once how mute deliver : says_once how mute deliver -> says_once how mute (recordingDelivery visit event deliver).
Proof.
  intros Hd target reply w; unfold recordingDelivery; specialize (Hd target reply w); destruct (deliver target reply w) as [w' [id|e]]; [|done].
  destruct Hd as [Ht Ha]; split; [|exact Ha]; cbn [reply_store recordReplySent].
  eapply only_touches_trans; [exact Ht|apply appendConnectorReplyEvent_touches].
Qed.

Lemma adapter_SendReply_once : says_once dispatched never (adapter_SendReply platform).
Proof.
  intros target reply w; unfold adapter_SendReply; destruct (platform_SendReply _ _ _ _) as [id|e]; (split; [apply only_touches_refl|]); cbn; [|by rewrite app_nil_r].
  exists (Sent target reply id); split; [done|by left].
Qed.

Lemma enqueueConnectorReply_once enqueue : says_once dispatched never (enqueueConnectorReply event enqueue).
Proof.
  intros target reply w; unfold enqueueConnectorReply; destruct (enqueue _ _ _) as [id|e].
  - split; [apply appendConnectorReplyEvent_touches|]; exists (Enqueued target reply id); split; [done|by right].
  - split; [apply only_touches_refl|]; cbn; by rewrite app_nil_r.
Qed.

(** A request that a newer message superseded is answered by nothing. *)
Lemma pendingRequestReplySender_once how mute isSuperseded sendReply : says_once how mute sendReply ->
  says_once how (fun w => isSuperseded (reply_calls w) || mute w) (pendingRequestReplySender isSuperseded sendReply).
Proof.
  intros Hs target reply w; unfold pendingRequestReplySender; destruct (isSuperseded _); [|apply Hs]; by split; [apply only_touches_refl|].
Qed.

Lemma editingInto_once id : says_once (edited_into id) never (editingInto platform id).
Proof.
  intros target reply w; unfold editingInto, adapter_EditReply; destruct (platform_EditReply platform) as [edit|]; [|by split; [apply only_touches_refl|]].
  destruct (edit _ _ _) as [e|]; (split; [apply only_touches_refl|]); cbn; [by rewrite app_nil_r|].
  by exists (Edited id (ScheduleStore.Message reply)).
Qed.

(** Nothing but words. *)
Definition only_words (reply : OutboundReply) : Prop :=
  blank (ScheduleStore.Message reply) = false /\ Reply_Attachments reply = [] /\ Reply_RecoveryActions reply = [] /\ Interaction reply = None.

Lemma replyIsOnlyWords_spec reply : replyIsOnlyWords reply = true -> only_words reply.
Proof.
  unfold replyIsOnlyWords, only_words; rewrite !andb_true_iff, !bool_decide_eq_true, !negb_true_iff; intros [[[? ?] ?] Hi]; split_and!; try done.
  by destruct (Interaction reply).
Qed.

(** Edited into the progress: said there, or nothing happened. *)
Lemma editIntoProgress_spec target reply narrator w :
  let '(w', edited) := editIntoProgress platform visit event target reply narrator w in
  only_touches (run_named (Reply_TaskRunID reply)) (reply_store w) (reply_store w') /\
  match edited with
  | Some id => narrator_messageID narrator <> "" /\ id = narrator_messageID narrator /\ only_words reply /\
      reply_acts w' = (reply_acts w ++ [Edited (narrator_messageID narrator) (ScheduleStore.Message reply)])%list
  | None => reply_acts w' = reply_acts w
  end.
Proof.
  unfold editIntoProgress; destruct (_ || _) eqn:Hskip; [by split; [apply only_touches_refl|]|].
  apply orb_false_iff in Hskip as [Hid%bool_decide_eq_false Hwords%negb_false_iff].
  pose proof (recordingDelivery_once _ _ _ (editingInto_once (narrator_messageID narrator)) target reply w) as Hs.
  destruct (recordingDelivery _ _ _ _ _ _) as [w' [id|e]]; destruct Hs as [Ht Hs]; (split; [done|]); [|done].
  destruct Hs as (act & Ha & -> & ->); split_and!; [done|done|by apply replyIsOnlyWords_spec|done].
Qed.

(** The message that showed the progress is taken down, if there is one, the platform can, and it does. *)
Definition taken_down (held : option turnNarrator) (down : option ReplyAct) : Prop :=
  match down with
  | Some act => exists narrator, held = Some narrator /\ narrator_messageID narrator <> "" /\ act = Deleted (narrator_messageID narrator)
  | None => forall narrator, held = Some narrator -> narrator_isFinished narrator = false ->
      narrator_messageID narrator = "" \/ platform_DeleteReply platform = None \/
      exists delete_ n e, platform_DeleteReply platform = Some delete_ /\ delete_ n (narrator_messageID narrator) = Some e
  end.

Lemma takeDownProgress_spec narrator w :
  let '(narrator', w') := takeDownProgress platform narrator w in
  narrator' = beginNextProgress narrator /\ reply_store w' = reply_store w /\
  exists down, reply_acts w' = (reply_acts w ++ option_list down)%list /\ taken_down (Some narrator) down.
Proof.
  unfold takeDownProgress; destruct (bool_decide _) eqn:Hid.
  { apply bool_decide_eq_true in Hid; split_and!; [done|done|]; exists None; rewrite app_nil_r; split; [done|]; intros n [= <-]; by left. }
  apply bool_decide_eq_false in Hid; destruct (platform_DeleteReply platform) as [delete_|] eqn:Hdel;
    [destruct (delete_ _ _) as [e|] eqn:He|]; (split_and!; [done|done|]).
  - exists None; split; [done|]; intros n [= <-] _; right; right; by exists delete_, (reply_calls w), e.
  - exists (Some (Deleted (narrator_messageID narrator))); split; [done|]; by exists narrator.
  - exists None; rewrite app_nil_r; split; [done|]; intros n _ _; right; by left.
Qed.

(** A reply was said, and its message is [id]: edited into the progress message, where that cannot be
    taken down and the reply is nothing but words; or sent once, unless the sender was mute when it came to that, and then
    the progress message was taken down. *)
Definition said (mute : DeliveryWorld -> bool) (target : ReplyTarget) (reply : OutboundReply) (held : option turnNarrator) (id : string) (w w' : DeliveryWorld) : Prop :=
  (exists narrator, held = Some narrator /\ narrator_messageID narrator <> "" /\ id = narrator_messageID narrator /\
     platform_DeleteReply platform = None /\ only_words reply /\
     reply_acts w' = (reply_acts w ++ [Edited (narrator_messageID narrator) (ScheduleStore.Message reply)])%list) \/
  exists w1 act down, reply_acts w1 = reply_acts w /\
    (if mute w1 then act = None else exists a, act = Some a /\ dispatched target reply id a) /\
    reply_acts w' = (reply_acts w ++ option_list act ++ option_list down)%list /\ taken_down held down.

(** A sender that has said its last reply, or never narrated. *)
Definition speaks_plainly (held : option turnNarrator) : Prop :=
  forall narrator, held = Some narrator -> narrator_isFinished narrator = true.

Section final.
Context (mute : DeliveryWorld -> bool) (sendReply : Sender) (Hsend : says_once dispatched mute sendReply).

Lemma said_plainly target reply held id w w' : speaks_plainly held ->
  (if mute w then reply_acts w' = reply_acts w else exists act, reply_acts w' = (reply_acts w ++ [act])%list /\ dispatched target reply id act) ->
  said mute target reply held id w w'.
Proof.
  intros Hp Hw; right; assert (Hd : taken_down held None) by (intros narrator Hn; by rewrite (Hp narrator Hn)).
  destruct (mute w) eqn:Hm.
  - exists w, None, None; rewrite Hm, app_nil_r; by split_and!.
  - destruct Hw as (act & Ha & Hact); exists w, (Some act), None; rewrite Hm; split_and!; [done|by exists act|done|done].
Qed.

Lemma sayFinal_said target reply narrator w : narrator_isFinished narrator = false ->
  let '(narrator', w', r) := sayFinal platform visit event sendReply target reply narrator w in
  only_touches (run_named (Reply_TaskRunID reply)) (reply_store w) (reply_store w') /\
  match r with
  | Ok id => said mute target reply (Some narrator) id w w' /\ narrator_isFinished narrator' = true
  | Err _ => narrator' = narrator /\ reply_acts w' = reply_acts w
  end.
Proof.
  intros Hfin; unfold sayFinal.
  assert (He : forall (edited : DeliveryWorld * option string), edited = (if is_some (platform_DeleteReply platform) then (w, None)
      else editIntoProgress platform visit event target reply narrator w) ->
    only_touches (run_named (Reply_TaskRunID reply)) (reply_store w) (reply_store edited.1) /\
    match edited.2 with
    | Some id => narrator_messageID narrator <> "" /\ id = narrator_messageID narrator /\ platform_DeleteReply platform = None /\ only_words reply /\
        reply_acts edited.1 = (reply_acts w ++ [Edited (narrator_messageID narrator) (ScheduleStore.Message reply)])%list
    | None => reply_acts edited.1 = reply_acts w
    end).
  { intros edited ->; destruct (platform_DeleteReply platform); cbn [is_some]; [by split; [apply only_touches_refl|]|].
    pose proof (editIntoProgress_spec target reply narrator w) as Hs; destruct (editIntoProgress _ _ _ _ _ _ _) as [w1 [id|]]; [|done].
    destruct Hs as (Ht & Hid & -> & Hw & Ha); by split_and!. }
  specialize (He _ eq_refl); destruct (if is_some _ then _ else _) as [w1 [id|]]; cbn [fst snd] in He; destruct He as (Ht & He).
  { split; [exact Ht|split; [|done]]; left; destruct He as (? & ? & ? & ? & ?); exists narrator; by split_and!. }
  specialize (Hsend target reply w1); destruct (sendReply target reply w1) as [w2 [id|e]]; destruct Hsend as [Ht2 Hs2];
    [|split; [by eapply only_touches_trans|by rewrite Hs2]].
  pose proof (takeDownProgress_spec narrator w2) as Hd; destruct (takeDownProgress platform narrator w2) as [narrator' w3]; destruct Hd as (-> & Hst & down & Hdown & Hd).
  split; [rewrite Hst; by eapply only_touches_trans|]; split; [|done]; right; destruct (mute w1) eqn:Hm.
  - exists w1, None, down; rewrite Hm; split_and!; [done|done|by rewrite Hdown, Hs2, He|done].
  - destruct Hs2 as (act & Hact & Hc); exists w1, (Some act), down; rewrite Hm; split_and!; [done|by exists act| |done].
    by rewrite Hdown, Hact, He, <- app_assoc.
Qed.

(** A last reply, through whatever sender the turn has. *)
Lemma takeOverSending_said target reply held w : ReplyKind reply <> connectorReplyKindCheckpoint ->
  let '(held', w', r) := takeOverSending platform visit event sendReply target reply held w in
  only_touches (run_named (Reply_TaskRunID reply)) (reply_store w) (reply_store w') /\
  (held' = None <-> held = None) /\
  match r with
  | Ok id => said mute target reply held id w w' /\ speaks_plainly held'
  | Err _ => held' = held /\ reply_acts w' = reply_acts w
  end.
Proof.
  intros Hkind; unfold takeOverSending.
  assert (Hplain : forall held0, speaks_plainly held0 -> let '(w', r) := sendReply target reply w in
    only_touches (run_named (Reply_TaskRunID reply)) (reply_store w) (reply_store w') /\
    match r with
    | Ok id => said mute target reply held0 id w w' /\ speaks_plainly held0
    | Err _ => reply_acts w' = reply_acts w
    end).
  { intros held0 Hp; specialize (Hsend target reply w); destruct (sendReply target reply w) as [w' [id|e]]; destruct Hsend as [Ht Hs]; (split; [exact Ht|]); [|done].
    split; [by apply said_plainly|done]. }
  destruct held as [narrator|]; [destruct (narrator_isFinished narrator) eqn:Hfin|].
  - specialize (Hplain (Some narrator) ltac:(by intros n [= <-])); destruct (sendReply target reply w) as [w' [id|e]]; by destruct Hplain.
  - rewrite (bool_decide_eq_false_2 _ Hkind); pose proof (sayFinal_said target reply narrator w Hfin) as Hs.
    destruct (sayFinal _ _ _ _ _ _ _ _) as [[narrator' w'] [id|e]]; destruct Hs as (Ht & Hs); (split; [exact Ht|split; [done|]]).
    + destruct Hs as [Hs Hf]; split; [done|]; by intros n [= <-].
    + by destruct Hs as [-> ?].
  - specialize (Hplain None ltac:(done)); destruct (sendReply target reply w) as [w' [id|e]]; by destruct Hplain.
Qed.

(** C19. The last reply of a turn is said once.  Where sending through the narrator of a turn
    succeeds, either the reply was edited into the message that showed the progress, which only happens to
    a reply that is nothing but words on a platform that cannot take that message down, or it was sent or enqueued to its target once
    and the progress message was then taken down if the platform could; the message that is
    reported is that one.  It is not sent only where the sender is mute, as that of a request is
    once a newer message superseded it.  Nothing else was said, only the task run of the reply was written
    to, and the narrator says nothing more; where it fails, nothing was said. *)
Theorem final_replies_are_said_once target reply narrator w :
  narrator_isFinished narrator = false -> ReplyKind reply <> connectorReplyKindCheckpoint ->
  match takeOverSending platform visit event sendReply target reply (Some narrator) w with
  | (Some narrator', w', r) =>
    only_touches (run_named (Reply_TaskRunID reply)) (reply_store w) (reply_store w') /\
    match r with
    | Ok dispatchID => said mute target reply (Some narrator) dispatchID w w' /\
        (forall target update w2, observe platform target update narrator' w2 = (narrator', w2)) /\
        (forall target reply w2, takeOverSending platform visit event sendReply target reply (Some narrator') w2 =
          let '(w3, r) := sendReply target reply w2 in (Some narrator', w3, r))
    | Err _ => narrator' = narrator /\ reply_acts w' = reply_acts w
    end
  | (None, _, _) => False
  end.
Proof.
  intros Hfin Hkind; pose proof (takeOverSending_said target reply (Some narrator) w Hkind) as Hs.
  destruct (takeOverSending _ _ _ _ _ _ (Some narrator) _) as [[[narrator'|] w'] [id|e]]; destruct Hs as (Ht & Hn & Hs);
    [| |discriminate (proj1 Hn eq_refl)|discriminate (proj1 Hn eq_refl)]; (split; [exact Ht|]).
  - destruct Hs as [Hs Hp]; specialize (Hp narrator' eq_refl); split; [done|].
    split; [intros; unfold observe; by rewrite Hp|intros; unfold takeOverSending; by rewrite Hp].
  - destruct Hs as [[= ->] ?]; done.
Qed.

End final.

End said.

(** ** A concrete turn *)

Definition example_reply_documents : ReplyDocuments := {|
  TaskEventConnectorReplySuppressed := "connector.reply.suppressed";
  TaskEventConnectorReplyFailed := "connector.reply.failed";
|}.

(** An adapter that can edit; it can delete, or not. *)
Definition editing_platform (can_delete : bool) : Platform_ :=
  MkPlatform (fun n _ _ => Ok ("d" +:+ Itoa (Z.of_nat n))) (Some (fun _ _ _ => None))
    (if can_delete then Some (fun _ _ => None) else None).

Definition report_reply (replyKind : string) : OutboundReply := MkReply "Here is the report" "run-1" replyKind "" "" [] [] "" None.

Definition report_target : ReplyTarget := MkReplyTarget "C1" "m1" "m1" "slack:C1:m1".

Definition example_delivery : @DeliveryWorld gate_holds ledger_library :=
  @MkDelivery gate_holds ledger_library {["run-1" := (sample_run "run-1" "ann" TaskStatusRunning 5, [])]} newSentAttachmentSourceStore [] 0.

(** The narrator of a turn after its first call. *)
Definition working_narrator (can_delete : bool) : turnNarrator * @DeliveryWorld gate_holds ledger_library :=
  @observe gate_holds ledger_library (editing_platform can_delete) report_target (ToolCall "c1" "Reading the sheet") new_narrator example_delivery.

Definition direct_sender (can_delete : bool) : @Sender gate_holds ledger_library :=
  @recordingDelivery gate_holds ledger_library example_events map_to_list (sample_event "U1" "m1" "report")
    (@adapter_SendReply gate_holds ledger_library (editing_platform can_delete)).

Definition send_narrated (can_delete superseded : bool) (replyKind : string) :=
  @takeOverSending gate_holds ledger_library example_events (editing_platform can_delete) map_to_list
    (sample_event "U1" "m1" "report") (@pendingRequestReplySender gate_holds ledger_library (fun _ => superseded) (direct_sender can_delete))
    report_target (report_reply replyKind) (Some (working_narrator can_delete).1) (working_narrator can_delete).2.

Lemma final_replies_are_said_once_witness :
  (reply_acts <$> [(send_narrated true false "success").1.2; (send_narrated false false "success").1.2]) =
    [[Sent report_target (progress_reply "_Reading the sheet_") "d0"; Sent report_target (report_reply "success") "d1"; Deleted "d0"];
     [Sent report_target (progress_reply "_Reading the sheet_") "d0"; Edited "d0" "Here is the report"]] /\
  exists narrator' w' id, send_narrated true false "success" = (Some narrator', w', Ok id) /\
    said (editing_platform true) (fun _ => false) report_target (report_reply "success") (Some (working_narrator true).1) id (working_narrator true).2 w'.
Proof.
  split; [vm_compute; reflexivity|].
  pose proof (@final_replies_are_said_once gate_holds ledger_library example_ledger example_ledger_laws example_events
    (editing_platform true) map_to_list (sample_event "U1" "m1" "report") _
    (@pendingRequestReplySender gate_holds ledger_library (fun _ => false) (direct_sender true))
    (pendingRequestReplySender_once _ _ _ _ (recordingDelivery_once _ _ _ _ _ (adapter_SendReply_once _)))
    report_target (report_reply "success") (working_narrator true).1 (working_narrator true).2 eq_refl ltac:(done)) as Hs.
  fold (send_narrated true false "success") in Hs.
  assert (Hok : (send_narrated true false "success").2 = Ok "d1") by (vm_compute; reflexivity).
  destruct (send_narrated true false "success") as [[[narrator'|] w'] [id|e]] eqn:Hr; [| |done|done].
  - exists narrator', w', id; split; [done|]; by destruct Hs as (_ & ? & _).
  - discriminate Hok.
Defined.

(** ** Departures *)

(** The narrator sends checkpoints through the adapter, and edits a reply into the progress
    message where it cannot be deleted, past the sender it took over: a request that a newer
    message superseded is still answered. *)
Lemma superseded_request_speaks_through_its_narrator :
  reply_acts (send_narrated true true "success").1.2 =
    [Sent report_target (progress_reply "_Reading the sheet_") "d0"; Deleted "d0"] /\
  reply_acts (send_narrated false true "success").1.2 =
    [Sent report_target (progress_reply "_Reading the sheet_") "d0"; Edited "d0" "Here is the report"] /\
  reply_acts (send_narrated true true "checkpoint").1.2 =
    [Sent report_target (progress_reply "_Reading the sheet_") "d0"; Edited "d0" "Here is the report"].
Proof. split_and!; vm_compute; reflexivity. Qed.
