(* ===== verification/Intake.v ===== *)
(** * A message from its arrival to its reply ([connectors/runtime.go], [inbound_turn.go],
    [open_interactions.go], [busy_message.go], [task_control.go], [request_revision.go],
    [runtime_reactions.go], [task_retry.go], [task_reply_dispatch.go])

    A message is admitted (its sender is someone known, it is not a second copy, it is not a
    command), settled against what is open in its thread, judged, and prepared; then a task
    is launched for it and its reply is dispatched.  A handler of the message changes the
    world of the turn and goes on, or ends the turn: with a result, or with a launch.
    What the task launcher does is a tree of its interactions with the turn; the failure
    completer, the reply generator and the platform are functions of the environment.  The
    clock stands still within a turn, and the checks of its context are numbered. *)

From S2P Require Export Delivery.

(** ** Names and documents *)

Inductive EventValue := TextValue (s : string) | FlagValue (b : bool) | TextsValue (l : list string) | CountValue (z : Z).

Record revisedRequestEvidence := MkEvidence {
  Evidence_TaskRunID : string;
  Evidence_Status : TaskStatus;
  Evidence_Prompt : string;
  Evidence_Result : string;
  ToolResults : list TaskEvent;
}.

(** Of the protocol library; bodies are JSON. *)
Class TurnEvents := {
  TaskEventConnectorDuplicateSourceSuppressed : string;
  TaskEventTaskSupersededByMessage : string;
  TaskEventTaskStopRequested : string;
  TaskEventTaskStopClassified : string;
  TaskEventTaskStopCancelled : string;
  TaskEventTaskBusyMessageRouted : string;
  TaskEventTaskCancelRequested : string;
  TaskEventTaskStatusRequested : string;
  TaskEventTaskSteerRequested : string;
  TaskEventTaskSteerResumeUnavailable : string;
  TaskEventTaskReplaced : string;
  TaskEventTaskBusyMessageAfterFinish : string;
  TaskEventReplySuppressedDuplicate : string;
  TurnRouteContinueTask : string;
  intent_text : TaskControlIntent -> string;
  marshal_values : list (string * EventValue) -> string;
  marshal_evidence : list revisedRequestEvidence -> string;
}.

(** [runtime.go] *)
Definition connectorReplyKindSuccess : string := "success".
Definition connectorReplyKindPermissionNotice : string := "permission_notice".
Definition SupersededRequestReason : string := "superseded_by_new_message".
Definition ErrTaskRetryUnavailable : string := "task retry is unavailable".

(** ** What happens in a turn *)

Record ReactionTarget := MkReaction {
  Reaction_Platform : string;
  Reaction_ConversationID : string;
  Reaction_MessageID : string;
  EmojiName : string;
  Reaction_Reason : string;
}.

(** [Remembered]: the layers, the note and its speaker, and whether the keeping is marked. *)
Inductive TurnAct :=
| AddedReaction (target : ReactionTarget)
| RemovedReaction (target : ReactionTarget)
| StartedProgress (target : ReplyTarget)
| StoppedProgress (target : ReplyTarget)
| Remembered (stack : list Scope) (body speaker : string) (isAcknowledged : bool).

(** [agentcontract.AgentTurnRequest]: the fields a failed launch is completed with. *)
Module Failed.
Record AgentTurnRequest := MkTurnRequest {
  RequesterPersonID : string;
  RequesterEmail : string;
  ExistingTaskRunID : string;
  OriginReplyTargetID : string;
  OriginIsThread : bool;
  ProfileName : string;
  Platform : string;
  ConversationID : string;
  Prompt : string;
  ResponseLanguage : string;
  VisibleContext : AgentVisibleContext;
  ActiveGoal : ActiveGoal;
}.
End Failed.

(** [agentcontract.AgentCheckpoint]: the fields that are read. *)
Record AgentCheckpoint := MkCheckpoint {
  Checkpoint_TaskRunID : string;
  Checkpoint_Message : string;
  Checkpoint_Attachments : list FileAttachment;
}.

(** A launch, as the turn sees it: it tells of tool calls, says checkpoints, changes the
    ledger, and ends in the result of the agent's turn or fails. *)
Inductive LaunchRun `{ApprovalLibrary} :=
| LaunchEnded (r : result string TurnResult)
| LaunchTold (update : SessionUpdate) (rest : LaunchRun)
| LaunchSaid (checkpoint : AgentCheckpoint) (rest : option string -> LaunchRun)
| LaunchChanged (change : ApprovalGate.Store -> ApprovalGate.Store) (rest : ApprovalGate.Store -> LaunchRun).

(** What the turn is to launch, and what becomes of its result. *)
Record LaunchPlan `{ApprovalLibrary} := MkLaunchPlan {
  plan_request : TaskLaunchRequest;
  plan_event : PlatformInboundEvent;
  plan_target : ReplyTarget;
  plan_ack : string;
  (** the launch of a message: narrated, and its duration recorded *)
  plan_isMessage : bool;
  plan_failure : ApprovalGate.Store -> Failed.AgentTurnRequest;
  plan_step : string;
}.
Arguments MkLaunchPlan {_ _}.

Inductive TurnError :=
| JudgmentFailed (e : JudgeError)
| InvalidBusyRoute
| TurnFailure (message : string).

Inductive TurnEnd `{ApprovalLibrary} :=
| Returned (r : result TurnError ConnectorRuntimeResult)
| Launching (plan : LaunchPlan).

(** What the runtime and the adapter of the turn answer.  [cancelled]: the error of the
    context, at the numbered checks. *)
Record TurnEnv `{DecisionLibrary, ApprovalLibrary} := MkTurnEnv {
  turn_gateway : GatewayEnv;
  turn_threads : askingThreads;
  adapterName : string;
  turn_platform : Platform_;
  visit_paths : gmap string string -> list (string * string);
  ResolveIdentity : string -> result string Account.PlatformAccountIdentity;
  unknownAccountResolver : option (string -> string -> string -> result string bool);
  companyLocale : string;
  AddReaction : option (ReactionTarget -> option string);
  RemoveReaction : option (ReactionTarget -> option string);
  turn_importer : Importer;
  attachmentWriterFor : string -> importedAttachmentWriter;
  GenerateReplyWithContext : string -> AgentVisibleContext -> result string string;
  taskIntakeQuiesced : bool;
  cancelled : nat -> option string;
  Launch_ : TaskLaunchRequest -> ApprovalGate.Store -> LaunchRun;
  CompleteLaunchFailure : Failed.AgentTurnRequest -> string -> string -> ApprovalGate.Store -> ApprovalGate.Store * TurnResult;
  durationMs : Z;
}.
Arguments MkTurnEnv {_ _ _}.

(** The state a turn works on; [world_narrator]: of the sender that was taken over. *)
Record TurnWorld `{DecisionLibrary, ApprovalLibrary} := MkTurnWorld {
  world_gate : GatewayState;
  world_identity : IdentityService;
  world_disk : gmap string string;
  world_sources : sentAttachmentSourceStore;
  world_replies : list ReplyAct;
  world_calls : nat;
  world_acts : list TurnAct;
  world_showing : bool;
  world_narrator : option turnNarrator;
}.
Arguments MkTurnWorld {_ _ _}.

(** ** Handlers *)

Section handling.
Context `{DecisionLibrary, ApprovalLibrary}.

(** A piece of the turn's work: it changes the world, and goes on or ends the turn. *)
Definition Handling (A : Type) : Type := TurnWorld -> TurnWorld * (TurnEnd + A).

#[export] Instance Handling_ret : MRet Handling := fun A a w => (w, inr a).
#[export] Instance Handling_bind : MBind Handling := fun A B k m w =>
  match m w with
  | (w', inr a) => k a w'
  | (w', inl e) => (w', inl e)
  end.

Definition returns {A} (r : ConnectorRuntimeResult) : Handling A := fun w => (w, inl (Returned (Ok r))).
Definition fails {A} (e : TurnError) : Handling A := fun w => (w, inl (Returned (Err e))).
Definition launches {A} (plan : LaunchPlan) : Handling A := fun w => (w, inl (Launching plan)).

Definition set_world_gate (g : GatewayState) (w : TurnWorld) : TurnWorld :=
  MkTurnWorld g (world_identity w) (world_disk w) (world_sources w) (world_replies w) (world_calls w) (world_acts w)
    (world_showing w) (world_narrator w).

Definition set_world_identity (s : IdentityService) (w : TurnWorld) : TurnWorld :=
  MkTurnWorld (world_gate w) s (world_disk w) (world_sources w) (world_replies w) (world_calls w) (world_acts w)
    (world_showing w) (world_narrator w).

Definition set_world_disk (disk : gmap string string) (w : TurnWorld) : TurnWorld :=
  MkTurnWorld (world_gate w) (world_identity w) disk (world_sources w) (world_replies w) (world_calls w) (world_acts w)
    (world_showing w) (world_narrator w).

Definition set_world_narrator (narrator : option turnNarrator) (w : TurnWorld) : TurnWorld :=
  MkTurnWorld (world_gate w) (world_identity w) (world_disk w) (world_sources w) (world_replies w) (world_calls w) (world_acts w)
    (world_showing w) narrator.

Definition note_act (act : TurnAct) (isShowing : bool) (w : TurnWorld) : TurnWorld :=
  MkTurnWorld (world_gate w) (world_identity w) (world_disk w) (world_sources w) (world_replies w) (world_calls w)
    (world_acts w ++ [act])%list isShowing (world_narrator w).

Definition turn_store (w : TurnWorld) : ApprovalGate.Store := gate_store (world_gate w).

(** What senders work on. *)
Definition delivery_of (w : TurnWorld) : DeliveryWorld :=
  MkDelivery (turn_store w) (world_sources w) (world_replies w) (world_calls w).

Definition with_delivery (d : DeliveryWorld) (w : TurnWorld) : TurnWorld :=
  MkTurnWorld (set_store (reply_store d) (world_gate w)) (world_identity w) (world_disk w) (reply_sources d) (reply_acts d)
    (reply_calls d) (world_acts w) (world_showing w) (world_narrator w).

Definition reads {A} (f : TurnWorld -> A) : Handling A := fun w => (w, inr (f w)).

Definition on_store {A} (f : ApprovalGate.Store -> ApprovalGate.Store * A) : Handling A := fun w =>
  let '(st, a) := f (turn_store w) in (set_world_gate (set_store st (world_gate w)) w, inr a).

Definition changes_store (f : ApprovalGate.Store -> ApprovalGate.Store) : Handling unit := on_store (fun st => (f st, tt)).

Definition on_gate {A} (f : GatewayState -> GatewayState * A) : Handling A := fun w =>
  let '(g, a) := f (world_gate w) in (set_world_gate g w, inr a).

Definition AppendTaskEvent (taskRunID name body : string) : Handling unit :=
  changes_store (AppendEvent taskRunID (HeldCalls.MkEvent name body)).

Definition acts (act : TurnAct) : Handling unit := fun w => (note_act act (world_showing w) w, inr tt).

End handling.

Section turn.
Context `{UnicodeTables, DecisionLibrary, TaskLedger, TaskDocuments, LaunchDocuments, ReplyEvents, ReplyDocuments, TurnEvents}.
Context (env : TurnEnv).

Definition handled (reason taskRunID dispatchID : string) : ConnectorRuntimeResult :=
  MkResult true (adapterName env) false false reason taskRunID dispatchID.
Definition ignored_result (reason : string) : ConnectorRuntimeResult := MkResult true (adapterName env) false true reason "" "".

(** [turn.sendReply]: the sender, or the narrator that took it over. *)
Definition say (sendReply : Sender) (event : PlatformInboundEvent) (target : ReplyTarget) (reply : OutboundReply)
  : Handling (result string string) := fun w =>
  let '(narrator, d, r) := takeOverSending (turn_platform env) (visit_paths env) event sendReply target reply (world_narrator w)
    (delivery_of w) in
  (set_world_narrator narrator (with_delivery d w), inr r).

(** ** Reactions ([runtime_reactions.go]) and progress *)

Definition engagedAckReactionEmojiName : string := "eyes".

Definition reaction_to (event : PlatformInboundEvent) (emojiName reason : string) : ReactionTarget :=
  MkReaction (adapterName env) (Event_ConversationID event) (MessageID event) emojiName reason.

(** Whether it was added. *)
Definition add_reaction (target : ReactionTarget) : Handling bool :=
  match AddReaction env with
  | None => mret false
  | Some add =>
    match add target with
    | Some _ => mret false
    | None => acts (AddedReaction target);; mret true
    end
  end.

Definition applyEngagedAckReaction (event : PlatformInboundEvent) (isEngaged : bool) : Handling string :=
  if negb isEngaged || negb (isMultiPersonConversation event) then mret "" else
  added ← add_reaction (reaction_to event engagedAckReactionEmojiName "engaged_ack");
  mret (if added : bool then engagedAckReactionEmojiName else "").

Definition clearEngagedAckReaction (event : PlatformInboundEvent) (emojiName : string) : Handling unit :=
  if blank emojiName then mret tt else
  match RemoveReaction env with
  | None => mret tt
  | Some remove =>
    let target := reaction_to event emojiName "engaged_ack_cleared" in
    match remove target with Some _ => mret tt | None => acts (RemovedReaction target) end
  end.

Definition addAddressingReaction (event : PlatformInboundEvent) (reactionEmojiName : string) : Handling unit :=
  added ← add_reaction (reaction_to event reactionEmojiName "addressing_ack"); mret tt.

(** An error of the adapter is logged; the refreshing of the progress is the timer's. *)
Definition showTurnProgress (target : ReplyTarget) : Handling unit := fun w =>
  if world_showing w then (w, inr tt) else (note_act (StartedProgress target) true w, inr tt).

Definition endProgress (target : ReplyTarget) (w : TurnWorld) : TurnWorld :=
  if world_showing w then note_act (StoppedProgress target) (world_showing w) w else w.

Definition shouldStartProgressBeforeAddressing (event : PlatformInboundEvent) : bool :=
  negb (isMultiPersonConversation event) || BotMentioned (Addressing (EventContext event)).

Definition replyTargetOf (event : PlatformInboundEvent) : ReplyTarget :=
  MkReplyTarget (Event_ConversationID event) (Event_ReplyTargetID event) (MessageID event) (DedupeKey event).

(** [ctx.Err()], at a check. *)
Definition checks_context (check : nat) : Handling unit :=
  match cancelled env check with Some e => fails (TurnFailure e) | None => mret tt end.

(** ** Who sent it ([runtime.go]) *)

(** The person; whether there is one; whether the directory could not be reached. *)
Definition askTheHostAboutUnknownAccount (account : Account.PlatformAccountIdentity) (s : IdentityService)
  : IdentityService * (string * bool * bool) :=
  match unknownAccountResolver env with
  | None => (s, ("", false, false))
  | Some resolve =>
    match resolve (Account.Platform account) (Account.ExternalUserID account) (Account.Email account) with
    | Err _ => (s, ("", false, true))
    | Ok false => (s, ("", false, false))
    | Ok true =>
      let '(s, _) := RememberPlatformAccount account s in
      match ResolvePersonIDByPlatformAccount (Account.Platform account) (Account.ExternalUserID account) s with
      | None => (s, ("", false, true))
      | Some personID => (s, (personID, true, false))
      end
    end
  end.

Definition authorizeSender (event : PlatformInboundEvent) (s : IdentityService) : IdentityService * result string senderAuthorization :=
  match ResolvePersonIDByPlatformAccount (adapterName env) (SenderID event) s with
  | Some personID => (s, Ok (MkAuthorization personID true (adapterName env) "" false))
  | None =>
    match ResolveIdentity env (SenderID event) with
    | Err e => (s, Err e)
    | Ok account =>
      let account := Account.MkPlatformAccountIdentity (adapterName env) (SenderID event) (Account.Email account)
        (Account.DisplayName account) (Account.PersonID account) in
      let '(s, _) := RememberPlatformAccount account s in
      match ResolvePersonIDByPlatformAccount (adapterName env) (SenderID event) s with
      | Some personID => (s, Ok (MkAuthorization personID true (adapterName env) (Account.Email account) false))
      | None =>
        let '(s, (personID, isFound, directoryUnreachable)) := askTheHostAboutUnknownAccount account s in
        (s, Ok (MkAuthorization personID isFound (adapterName env) (Account.Email account) directoryUnreachable))
      end
    end
  end.

(** [inbound_turn.go] *)
Definition refuseUnauthorizedSender {A} (sendReply : Sender) (event : PlatformInboundEvent) (authorization : senderAuthorization)
  : Handling A :=
  if shouldIgnoreUninvitedAddressing event then returns (ignored_result "not_addressed_to_bot") else
  let refusalReason := if DirectoryUnreachable authorization then "directory_unreachable" else "unmatched_account" in
  sent ← say sendReply event (replyTargetOf event)
    (MkReply (unmatchedAccountReplyFor authorization (companyLocale env)) "" connectorReplyKindPermissionNotice "" "" [] [] "" None);
  match sent with
  | Err _ => returns (handled refusalReason "" "")
  | Ok dispatchID => returns (handled refusalReason "" dispatchID)
  end.

(** ** A second copy, a revision, a command *)

Definition suppressDuplicateSourceTaskIfNeeded (event : PlatformInboundEvent) (personID : string) : Handling unit :=
  let sourceReference := DedupeKey event in
  found ← reads (fun w => FindTaskRunBySourceReference personID sourceReference (turn_store w));
  match found with
  | None => mret tt
  | Some taskRun =>
    AppendTaskEvent (Run_ID taskRun) TaskEventConnectorDuplicateSourceSuppressed
      (marshal_event_body [("messageID", MessageID event); ("sourceReference", sourceReference)]);;
    returns (MkResult true (adapterName env) true false "duplicate_source_reference" (Run_ID taskRun) "")
  end.

(** [request_revision.go] *)
Definition cancelPendingSourceTask (personID sourceReference : string) (st : ApprovalGate.Store) : ApprovalGate.Store :=
  match FindTaskRunBySourceReference personID sourceReference st with
  | None => st
  | Some taskRun =>
    if bool_decide (Run_Status taskRun = TaskStatusCompleted) then st else
    let st := if isTaskControlActiveStatus (Run_Status taskRun)
      then CancelTaskRunWithReason (Run_ID taskRun) personID SupersededRequestReason st else st in
    AppendEvent (Run_ID taskRun) (HeldCalls.MkEvent TaskEventTaskSupersededByMessage
      (marshal_event_body [("sourceReference", sourceReference)])) st
  end.

Definition cancelPreviousMessages (personID : string) (event : PlatformInboundEvent) (st : ApprovalGate.Store) : ApprovalGate.Store :=
  foldl (fun st message => cancelPendingSourceTask personID (ConnectorEvents.SourceReference message) st) st (PreviousMessages event).

(** [task_control.go] *)
Record taskControlSelection := MkSelection {
  selection_intent : TaskControlIntent;
  selection_reason : string;
  cancelledTaskRuns : list TaskRun;
  hasNoTarget : bool;
}.

Definition cancelLatestStopScopedTask (personID : string) (event : PlatformInboundEvent) (reason : string) (st : ApprovalGate.Store)
  : ApprovalGate.Store * list TaskRun :=
  let '(st, found) := latestStopScopedTask personID event st in
  match found with
  | None => (st, [])
  | Some taskRun => CancelActiveTaskRuns [Run_ID taskRun] personID reason st
  end.

Definition applyTaskControlIntent (intent : TaskControlIntent) (decisionReason personID : string) (event : PlatformInboundEvent)
    (st : ApprovalGate.Store) : ApprovalGate.Store * taskControlSelection :=
  let reason := firstNonEmptyString [decisionReason; "user requested task stop"] in
  let '(st, cancelledTaskRuns) := match intent with
    | TaskControlIntentStopAll => CancelActiveTaskRuns [] personID reason st
    | TaskControlIntentStop => cancelLatestStopScopedTask personID event reason st
    | TaskControlIntentNone => (st, [])
    end in
  (st, MkSelection intent reason cancelledTaskRuns (bool_decide (cancelledTaskRuns = []))).

Definition record_stop (event : PlatformInboundEvent) (selection : taskControlSelection) (st : ApprovalGate.Store) (taskRun : TaskRun)
  : ApprovalGate.Store :=
  let append name body st := AppendEvent (Run_ID taskRun) (HeldCalls.MkEvent name body) st in
  let intent := intent_text (selection_intent selection) in
  append TaskEventTaskStopCancelled (marshal_event_body [("messageID", MessageID event)])
    (append TaskEventTaskStopClassified (marshal_values [("intent", TextValue intent); ("reason", TextValue (selection_reason selection));
        ("classifiedByLLM", FlagValue false); ("originConversation", TextValue (Event_ConversationID event))])
      (append TaskEventTaskStopRequested (marshal_event_body [("messageID", MessageID event); ("intent", intent);
        ("reason", selection_reason selection)]) st)).

Definition taskControlCountText (count : nat) : string := Itoa (Z.of_nat count).

Definition taskControlReply (selection : taskControlSelection) (responseLanguage : string) : string :=
  if hasNoTarget selection then
    if bool_decide (responseLanguage = "en") then "There is no active task to stop right now."
    else "현재 중단할 작업이 없습니다."
  else
    let count := taskControlCountText (length (cancelledTaskRuns selection)) in
    if bool_decide (responseLanguage = "en") then "Stopped " +:+ count +:+ ". Scheduled future runs were not cancelled."
    else "진행 중인 작업 " +:+ count +:+ "을 중단했습니다. 예약된 반복 실행은 유지됩니다.".

Definition handleTaskControlIfRequested (sendReply : Sender) (event : PlatformInboundEvent) (personID : string) : Handling unit :=
  match exactTaskControlIntent (Event_Prompt event) with
  | TaskControlIntentNone => mret tt
  | intent =>
    selection ← on_store (applyTaskControlIntent intent "explicit control command" personID event);
    changes_store (fun st => foldl (record_stop event selection) st (cancelledTaskRuns selection));;
    sent ← say sendReply event (replyTargetOf event)
      (MkReply (taskControlReply selection (responseLanguageForEvent event)) "" "" "" "" [] [] "" None);
    match sent with
    | Err _ => returns (handled "task_control_reply_failed" "" "")
    | Ok dispatchID => returns (handled "task_control" "" dispatchID)
    end
  end.

(** The person of the turn. *)
Definition admitInboundTurn (sendReply : Sender) (event : PlatformInboundEvent) : Handling string :=
  authorized ← (fun w => let '(s, authorized) := authorizeSender event (world_identity w) in (set_world_identity s w, inr authorized));
  match authorized with
  | Err e => fails (TurnFailure e)
  | Ok authorization =>
    if negb (IsAllowed authorization) then refuseUnauthorizedSender sendReply event authorization else
    let personID := Authorized_PersonID authorization in
    suppressDuplicateSourceTaskIfNeeded event personID;;
    changes_store (cancelPreviousMessages personID event);;
    handleTaskControlIfRequested sendReply event personID;;
    mret personID
  end.

(** ** What is open in its thread ([open_interactions.go], [busy_message.go]) *)

(** [inboundTurn]: the fields that change as the turn goes on. *)
Record inboundTurn := MkInboundTurn {
  turn_event : judged_event;
  turn_person : string;
  engagedAckEmojiName : string;
  pendingAskInteraction : option AskInteraction;
  clearsActiveGoal : bool;
  turn_activeGoal : option ActiveGoal;
  addressingLaunch : Decision;
  turn_priorTask : PriorTaskContext;
}.

Definition askReplyReason : string := "a reply in the thread the run asked its question in".

Definition recordAskReplyClassified (event : PlatformInboundEvent) (ask : AskInteraction) : Handling unit :=
  AppendTaskEvent (Ask_TaskRunID ask) TaskEventAskReplyClassified (marshal_values [("messageID", TextValue (MessageID event));
    ("choices", TextsValue []); ("route", TextValue TurnRouteContinueTask); ("reason", TextValue askReplyReason)]).

Definition appendAskResolvedEvent (ask : AskInteraction) (event : PlatformInboundEvent) : Handling unit :=
  AppendTaskEvent (Ask_TaskRunID ask) TaskEventAskResolved (marshal_values
    [("interactionID", TextValue (TrimSpace (InteractionID ask))); ("kind", TextValue (TrimSpace (Ask_Kind ask)));
     ("messageID", TextValue (TrimSpace (MessageID event))); ("choices", TextsValue []);
     ("route", TextValue TurnRouteContinueTask); ("reason", TextValue askReplyReason)]).

Definition settleAsk (event : PlatformInboundEvent) (ask : AskInteraction) : Handling unit :=
  recordAskReplyClassified event ask;; appendAskResolvedEvent ask event.

Definition recordBusyRoute (event : PlatformInboundEvent) (runningTask : TaskRun) (busyRoute : BusyRoute) : Handling unit :=
  AppendTaskEvent (Run_ID runningTask) TaskEventTaskBusyMessageRouted (marshal_event_body [("messageID", MessageID event);
    ("busyRoute", busyRoute); ("latestUserInput", TrimSpace (Event_Prompt event))]).

Definition busy_prompt (event : PlatformInboundEvent) (activeTaskRun : TaskRun) (route : string) (st : ApprovalGate.Store) : string :=
  Join nl [
    "Write a short user-facing reply for an in-progress task.";
    "Response language: " +:+ responseLanguageForEvent event;
    "Route: " +:+ route;
    "Original task: " +:+ TrimSpace (Run_Prompt activeTaskRun);
    "Task status: " +:+ status_name (Run_Status activeTaskRun);
    "Current progress: " +:+ activeTaskEventSummary (Run_ID activeTaskRun) st;
    "Latest user message: " +:+ TrimSpace (Event_Prompt event);
    "Do not expose internal event names or task IDs.";
    "Status and steer replies must not claim the task is complete. Cancel replies may say the active task has been stopped."].

Definition generateBusyReply (event : PlatformInboundEvent) (activeTaskRun : TaskRun) (route : string) : Handling (result string string) :=
  reads (fun w => GenerateReplyWithContext env (busy_prompt event activeTaskRun route (turn_store w))
    (ToAgentVisibleContext (EventContext event))).

(** A reply of the busy task that ends the turn; an error ends it too. *)
Definition sendBusyReply {A} (sendReply : Sender) (event : PlatformInboundEvent) (taskRun : TaskRun) (route kind reason : string) : Handling A :=
  generated ← generateBusyReply event taskRun route;
  match generated with
  | Err e => fails (TurnFailure e)
  | Ok message =>
    sent ← say sendReply event (replyTargetOf event) (MkReply message (Run_ID taskRun) kind "" "" [] [] "" None);
    match sent with
    | Err e => fails (TurnFailure e)
    | Ok dispatchID => returns (handled reason (Run_ID taskRun) dispatchID)
    end
  end.

Definition latest_input (event : PlatformInboundEvent) : string :=
  marshal_event_body [("messageID", MessageID event); ("latestUserInput", TrimSpace (Event_Prompt event))].

Definition cancel_busy (event : PlatformInboundEvent) (activeTaskRun : TaskRun) (reason eventName : string) : Handling unit :=
  changes_store (CancelTaskRunWithReason (Run_ID activeTaskRun) (Run_RequesterPersonID activeTaskRun) reason);;
  AppendTaskEvent (Run_ID activeTaskRun) eventName (latest_input event).

Definition handleBusyCancelMessage {A} (sendReply : Sender) (event : PlatformInboundEvent) (activeTaskRun : TaskRun) : Handling A :=
  cancel_busy event activeTaskRun "task cancelled by newer user instruction" TaskEventTaskCancelRequested;;
  sendBusyReply sendReply event activeTaskRun "cancel" connectorReplyKindUserNotice "busy_cancel".

Definition handleBusyStatusMessage {A} (sendReply : Sender) (event : PlatformInboundEvent) (activeTaskRun : TaskRun) : Handling A :=
  AppendTaskEvent (Run_ID activeTaskRun) TaskEventTaskStatusRequested (marshal_event_body [("messageID", MessageID event)]);;
  sendBusyReply sendReply event activeTaskRun "status" connectorReplyKindCheckpoint "busy_status".

Definition appendSteerRequestedEvent (taskRunID : string) (event : PlatformInboundEvent) (instruction : string) : Handling unit :=
  AppendTaskEvent taskRunID TaskEventTaskSteerRequested (marshal_event_body [("messageID", MessageID event); ("instruction", instruction)]).

Definition replySteerResumeUnavailable {A} (sendReply : Sender) (event : PlatformInboundEvent) (activeTaskRun : TaskRun) : Handling A :=
  AppendTaskEvent (Run_ID activeTaskRun) TaskEventTaskSteerResumeUnavailable (marshal_event_body [("messageID", MessageID event)]);;
  sendBusyReply sendReply event activeTaskRun "steer" connectorReplyKindUserNotice "busy_steer_resume_unavailable".

(** [withAttachmentMaterials], on the disk of the turn. *)
Definition imports_attachments (personID : string) (event : PlatformInboundEvent) : Handling PlatformInboundEvent := fun w =>
  let '(disk, event) := withAttachmentMaterials (turn_importer env) (attachmentWriterFor env personID) personID event (world_disk w) in
  (set_world_disk disk w, inr event).

Definition steer_failure (event : PlatformInboundEvent) (activeTaskRun : TaskRun) : Failed.AgentTurnRequest :=
  Failed.MkTurnRequest (Run_RequesterPersonID activeTaskRun) "" (Run_ID activeTaskRun) "" false "" (adapterName env)
    (Event_ConversationID event) (Run_Prompt activeTaskRun) (Context_ResponseLanguage (EventContext event)) no_visible_context no_goal.

(** The adapter is the one of the turn, unless its name is blank. *)
Definition resumePausedTaskForSteer {A} (sendReply : Sender) (event : PlatformInboundEvent) (activeTaskRun : TaskRun) (instruction : string)
  : Handling A :=
  taskEvents ← reads (fun w => ListTaskEvent (Run_ID activeTaskRun) (turn_store w));
  match interruptedTaskLaunchContextFromEvents activeTaskRun taskEvents with
  | None => replySteerResumeUnavailable sendReply event activeTaskRun
  | Some launchContext =>
    let adapter := firstNonEmptyString [adapterName env; Interrupted.Platform launchContext] in
    if negb (bool_decide (adapter ∈ adapterByPlatform (turn_gateway env))) then replySteerResumeUnavailable sendReply event activeTaskRun else
    appendSteerRequestedEvent (Run_ID activeTaskRun) event instruction;;
    importedEvent ← imports_attachments (Run_RequesterPersonID activeTaskRun) event;
    launchRequest ← reads (fun w => interruptedTaskLaunchRequest (world_identity w) activeTaskRun taskEvents launchContext importedEvent
      adapter (userSteerTaskProfile (adapterName env) (Run_ID activeTaskRun) instruction));
    launches (MkLaunchPlan (steeredTaskLaunchRequest launchRequest importedEvent instruction) importedEvent (replyTargetOf event) "" false
      (fun _ => steer_failure importedEvent activeTaskRun) "steer_resume")
  end.

Definition handleBusySteerMessage {A} (sendReply : Sender) (event : PlatformInboundEvent) (activeTaskRun : TaskRun) : Handling A :=
  let instruction := TrimSpace (Event_Prompt event) in
  isRunning ← reads (fun w => IsTaskRunActuallyRunning activeTaskRun (turn_store w));
  if negb isRunning then resumePausedTaskForSteer sendReply event activeTaskRun instruction else
  appendSteerRequestedEvent (Run_ID activeTaskRun) event instruction;;
  sendBusyReply sendReply event activeTaskRun "steer" connectorReplyKindCheckpoint "busy_steer".

Definition replaceBusyTask (event : PlatformInboundEvent) (activeTaskRun : TaskRun) : Handling unit :=
  cancel_busy event activeTaskRun "task replaced by newer user instruction" TaskEventTaskReplaced.

Definition supersedeBusyTask (event : PlatformInboundEvent) (activeTaskRun : TaskRun) : Handling unit :=
  cancel_busy event activeTaskRun "superseded_by_new_message" TaskEventTaskSupersededByMessage.

(** Whether the goal is cleared, where the turn goes on. *)
Definition settleBusyDecision (sendReply : Sender) (event : PlatformInboundEvent) (activeTaskRun : TaskRun) (busyRoute : BusyRoute)
  : Handling bool :=
  if bool_decide (busyRoute = BusyRouteStatus) then handleBusyStatusMessage sendReply event activeTaskRun else
  if bool_decide (busyRoute = BusyRouteSteer) then handleBusySteerMessage sendReply event activeTaskRun else
  if bool_decide (busyRoute = BusyRouteReplace) then replaceBusyTask event activeTaskRun;; mret true else
  if bool_decide (busyRoute = BusyRouteCancel) then handleBusyCancelMessage sendReply event activeTaskRun else
  if bool_decide (busyRoute = BusyRouteNewTask) then supersedeBusyTask event activeTaskRun;; mret true else
  if bool_decide (busyRoute = BusyRouteUnrelated) then returns (ignored_result "busy_unrelated")
  else fails InvalidBusyRoute.

(** [judgeInboundMessage] *)
Definition judges (event : judged_event) : Handling (result JudgeError Judgment) := fun w =>
  let '(g, judged) := judgeInboundMessage (turn_gateway env) (world_identity w) (adapterName env) event (world_gate w) in
  (set_world_gate g w, inr judged).

Definition settleRunningTask (sendReply : Sender) (event : judged_event) (runningTask : TaskRun) : Handling bool :=
  judged ← judges event;
  match judged with
  | Err e => fails (JudgmentFailed e)
  | Ok judgment =>
    recordBusyRoute event.1 runningTask (Judgment_BusyRoute judgment);;
    settleBusyDecision sendReply event.1 runningTask (Judgment_BusyRoute judgment)
  end.

Definition finished_prompt (event : PlatformInboundEvent) (finishedTaskRun : TaskRun) : string :=
  Join nl [
    "Write a short user-facing reply. The task the user seems to be reacting to already finished before this message arrived.";
    "Response language: " +:+ responseLanguageForEvent event;
    "Finished task: " +:+ TrimSpace (Run_Prompt finishedTaskRun);
    "Final status: " +:+ status_name (Run_Status finishedTaskRun);
    "Latest user message: " +:+ TrimSpace (Event_Prompt event);
    "Tell the user the task already finished before this message could apply to it, and ask whether they want it undone/redone or want to start something new. Do not silently start new work."].

Definition generateFinishedTaskFollowUpReply (event : PlatformInboundEvent) (finishedTaskRun : TaskRun) : result string string :=
  GenerateReplyWithContext env (finished_prompt event finishedTaskRun) (ToAgentVisibleContext (EventContext event)).

Definition handlePossibleFinishedTaskFollowUp (sendReply : Sender) (event : judged_event) (personID : string) : Handling unit :=
  found ← reads (fun w => latestRecentlyFinishedConversationTask (env_now (turn_gateway env)) personID event.1 (turn_store w));
  match found with
  | None => mret tt
  | Some finishedTaskRun =>
    if IsZero (RawReceivedAt event.1) || negb (Before (RawReceivedAt event.1) (Run_UpdatedAt finishedTaskRun)) then mret tt else
    relates ← (fun w => let '(g, relates) := relatesToActiveTask (turn_gateway env) (world_identity w) (adapterName env) event (world_gate w) in
      (set_world_gate g w, inr relates));
    if negb relates then mret tt else
    AppendTaskEvent (Run_ID finishedTaskRun) TaskEventTaskBusyMessageAfterFinish (latest_input event.1);;
    match generateFinishedTaskFollowUpReply event.1 finishedTaskRun with
    | Err e => fails (TurnFailure e)
    | Ok message =>
      sent ← say sendReply event.1 (replyTargetOf event.1)
        (MkReply message (Run_ID finishedTaskRun) connectorReplyKindUserNotice "" "" [] [] "" None);
      match sent with
      | Err e => fails (TurnFailure e)
      | Ok dispatchID => returns (handled "busy_finished_followup" (Run_ID finishedTaskRun) dispatchID)
      end
    end
  end.

Definition settleFinishedTaskFollowUp (sendReply : Sender) (event : judged_event) (personID : string) : Handling unit :=
  if negb (bool_decide (PreviousMessages event.1 = [])) || isIgnoredWithoutDeciding event.1 then mret tt
  else handlePossibleFinishedTaskFollowUp sendReply event personID.

(** The question that was answered, and whether the goal is cleared. *)
Definition settleOpenInteractions (sendReply : Sender) (event : judged_event) (personID : string) : Handling (option AskInteraction * bool) :=
  open ← on_store (readOpenInteractions personID event.1);
  if isEmpty open then settleFinishedTaskFollowUp sendReply event personID;; mret (None, false) else
  match open_ask_ open with
  | Some ask => settleAsk event.1 ask;; mret (Some ask, false)
  | None =>
    if isIgnoredWithoutDeciding event.1 then mret (None, false) else
    match runningTask open with
    | Some running =>
      if bool_decide (PreviousMessages event.1 = [])
      then clears ← settleRunningTask sendReply event running; mret (None, clears)
      else mret (None, false)
    | None => mret (None, false)
    end
  end.

(** ** The goal it continues, and whether it is meant for the agent ([inbound_turn.go]) *)

Definition resolveOpenInteractions (sendReply : Sender) (event : judged_event) (personID : string)
  : Handling (string * option AskInteraction * bool) :=
  emojiName ← applyEngagedAckReaction event.1 (BotMentioned (Addressing (EventContext event.1)));
  settled ← settleOpenInteractions sendReply event personID;
  mret (emojiName, settled.1, settled.2).

(** The goal, and the reaction that says the agent has taken the message up. *)
Definition resolveTurnActiveGoal (event : PlatformInboundEvent) (personID emojiName : string) (ask : option AskInteraction) (clears : bool)
  : Handling (option ActiveGoal * string) :=
  found ← reads (fun w => findActiveGoal (env_now (turn_gateway env)) personID event (turn_threads env) (turn_store w));
  let activeGoal := if clears || negb (bool_decide (PreviousMessages event = [])) then None else found in
  if bool_decide (emojiName = "") then
    emojiName ← applyEngagedAckReaction event (is_some ask || is_some activeGoal); mret (activeGoal, emojiName)
  else mret (activeGoal, emojiName).

(** [resolveInboundEngagement]: the judgment is asked for where the request is not ignored without it. *)
Definition resolveInboundEngagement (event : judged_event) : Handling Decision :=
  let request := engagementRequestForEvent event.1 in
  if IsIgnoredWithoutDeciding request then mret (Resolve request (@Err JudgeError Judgment NoGatewayDecider)) else
  judged ← judges event; mret (Resolve request judged).

(** [heard_memory.go]; the settling runs beside the turn. *)
Definition remembers (event : PlatformInboundEvent) (personID : string) (decision : Decision) : Handling unit := fun w =>
  let personAccess := ResolvePersonAccess personID (world_identity w) in
  match rememberHeard (visit_readers (turn_gateway env)) (heardMemory (turn_gateway env)) (policy_order (turn_gateway env))
    (RoomMemberEmails (EventContext event)) (RememberLayer decision) personAccess (world_identity w) with
  | None => (w, inr tt)
  | Some stack => acts (Remembered stack (Event_Prompt event) (Sender_Name (ConnectorEvents.Sender (EventContext event))) (negb (ShouldLaunch decision))) w
  end.

Definition shouldDeferNewTaskLaunch (ask : option AskInteraction) (activeGoal : option ActiveGoal) : bool :=
  taskIntakeQuiesced env && negb (is_some ask) && negb (is_some activeGoal).

Definition set_event (event : PlatformInboundEvent) (judged : judged_event) : judged_event := (event, judged.2).

(** The message with its history, the decision, and the reaction that stands. *)
Definition resolveTurnAddressing (event : judged_event) (personID emojiName : string) (ask : option AskInteraction)
    (activeGoal : option ActiveGoal) : Handling (judged_event * Decision * string) :=
  let event := set_event (withInitialVisibleContext (turn_gateway env) (adapterName env) event.1) event in
  match ask with
  | Some _ => mret (event, launched, emojiName)
  | None =>
    decision ← resolveInboundEngagement event;
    let reaction := Decision_ReactionEmoji decision in
    emojiName ← (if bool_decide (reaction = "") then mret emojiName else
      standing ← (if negb (bool_decide (emojiName = "")) && negb (bool_decide (emojiName = reaction))
        then clearEngagedAckReaction event.1 emojiName;; mret "" else mret emojiName);
      addAddressingReaction event.1 reaction;; mret standing);
    remembers event.1 personID decision;;
    if negb (ShouldLaunch decision) then
      returns (ignored_result (firstNonEmptyString [IgnoreReason decision; "addressing_react_only"]))
    else if shouldDeferNewTaskLaunch ask activeGoal then returns (ignored_result "task_intake_quiesced")
    else mret (event, decision, emojiName)
  end.

(** ** The task it follows *)

Definition revisedTaskEvidence (taskRun : TaskRun) (taskEvents : list TaskEvent) : revisedRequestEvidence :=
  MkEvidence (Run_ID taskRun) (Run_Status taskRun) (Run_Prompt taskRun) (Run_Result taskRun)
    (filter (fun taskEvent => HasPrefix (Event_Name taskEvent) "tool." && HasSuffix (Event_Name taskEvent) ".result" = true) taskEvents).

(** The runs of the messages it revises. *)
Definition revised_runs (personID : string) (event : PlatformInboundEvent) (st : ApprovalGate.Store) : list TaskRun :=
  omap (fun message => FindTaskRunBySourceReference personID (ConnectorEvents.SourceReference message) st) (PreviousMessages event).

Definition revisedPriorTask (personID : string) (event : PlatformInboundEvent) (st : ApprovalGate.Store) : option PriorTaskContext :=
  match last (revised_runs personID event st) with
  | None => None
  | Some taskRun =>
    let evidence := map (fun taskRun => revisedTaskEvidence taskRun (ListTaskEvent (Run_ID taskRun) st)) (revised_runs personID event st) in
    Some (MkPriorTask (Run_ID taskRun) (status_name (Run_Status taskRun)) (Event_Prompt event)
      ("Recorded work from the superseded requests. Cancellation does not undo these effects. Inspect and amend existing results to satisfy the revised request without duplicating them." +:+ nl +:+ marshal_evidence evidence)
      (Run_FailureReason taskRun) no_contract [] [] 0)
  end.

Definition resolveTurnPriorTask (personID : string) (event : PlatformInboundEvent) (ask : option AskInteraction)
    (activeGoal : option ActiveGoal) (st : ApprovalGate.Store) : PriorTaskContext :=
  if is_some ask || is_some activeGoal then no_prior_task else
  match revisedPriorTask personID event st with
  | Some priorTask => priorTask
  | None => default no_prior_task (findPriorTaskContext (env_now (turn_gateway env)) personID event st)
  end.

(** The message with its attachments, and the task it follows; nothing where the context has ended. *)
Definition prepareTurnForLaunch (event : judged_event) (personID : string) (ask : option AskInteraction) (activeGoal : option ActiveGoal)
  : Handling (judged_event * PriorTaskContext) :=
  showTurnProgress (replyTargetOf event.1);;
  match cancelled env 1 with
  | Some _ => mret (event, no_prior_task)
  | None =>
    importedEvent ← imports_attachments personID event.1;
    priorTask ← reads (fun w => resolveTurnPriorTask personID importedEvent ask activeGoal (turn_store w));
    mret (set_event importedEvent event, priorTask)
  end.

(** ** The launch *)

Definition conversationTurnFor (turn : inboundTurn) (s : IdentityService) : ConversationTurn :=
  let event := (turn_event turn).1 in
  let target := replyTargetOf event in
  Turn.MkTurn (adapterName env) (adapterName env) event target (turn_person turn)
    (requesterEmailForEvent s (turn_person turn) event) (ResolvePersonAccess (turn_person turn) s) [] (turn_activeGoal turn)
    (turn_priorTask turn) (pendingInputOf (pendingAskInteraction turn)) (AmbientDuty (addressingLaunch turn))
    (DecidedWork (addressingLaunch turn)) (Some (event, target)) [Event_ConversationID event]
    (match turn_activeGoal turn with Some goal => bool_decide (Goal_Status goal = ActiveGoalStatusBlocked) | None => false end).

Definition turn_failure (turn : inboundTurn) (s : IdentityService) : Failed.AgentTurnRequest :=
  let event := (turn_event turn).1 in
  Failed.MkTurnRequest (turn_person turn) (requesterEmailForEvent s (turn_person turn) event) "" "" false "" (adapterName env)
    (Event_ConversationID event) (Event_Prompt event) (Context_ResponseLanguage (EventContext event)) no_visible_context no_goal.

Definition launchTurn {A} (turn : inboundTurn) : Handling A :=
  plan ← reads (fun w =>
    let event := (turn_event turn).1 in
    MkLaunchPlan (buildTaskLaunchRequest (world_identity w) (conversationTurnFor turn (world_identity w))) event (replyTargetOf event)
      (engagedAckEmojiName turn) true (fun _ => turn_failure turn (world_identity w)) "connector_launch");
  launches plan.

(** ** A retry ([task_retry.go]) *)

Definition retry_duplicate (childTaskRun : TaskRun) : ConnectorRuntimeResult :=
  MkResult true (adapterName env) true false "" (Run_ID childTaskRun) "".

Definition retry_failure (childTaskRun : TaskRun) : Failed.AgentTurnRequest :=
  Failed.MkTurnRequest (Run_RequesterPersonID childTaskRun) "" (Run_ID childTaskRun) "" false "" "" "" (Run_Prompt childTaskRun) ""
    no_visible_context no_goal.

Definition retry_unavailable {A} : Handling A := fails (TurnFailure ErrTaskRetryUnavailable).

Definition is_retryable (status : TaskStatus) : bool :=
  bool_decide (status = TaskStatusPlanned) || bool_decide (status = TaskStatusInterrupted).

Definition launch_retry {A} (sourceTaskRun childTaskRun : TaskRun) : Handling A :=
  taskEvents ← reads (fun w => ListTaskEvent (Run_ID sourceTaskRun) (turn_store w));
  match interruptedTaskLaunchContextFromEvents sourceTaskRun taskEvents with
  | None => retry_unavailable
  | Some launchContext =>
    if negb (bool_decide (adapterName env = Interrupted.Platform launchContext)) then retry_unavailable else
    let event := retryInboundEvent sourceTaskRun childTaskRun launchContext in
    request ← reads (fun w => interruptedRetryLaunchRequest (world_identity w) sourceTaskRun childTaskRun taskEvents launchContext event
      (adapterName env));
    launches (MkLaunchPlan request event (MkReplyTarget (Event_ConversationID event) (Event_ReplyTargetID event) "" (DedupeKey event)) ""
      false (fun _ => retry_failure childTaskRun) "task_retry")
  end.

Definition processTaskRetry {A} (retry : TaskRetryReference) : Handling A :=
  if taskIntakeQuiesced env then returns (MkResult false "" false true "task_intake_quiesced" "" "") else
  if bool_decide (Retry_TaskRunID retry = "") || bool_decide (SourceTaskRunID retry = "") then retry_unavailable else
  st ← reads turn_store;
  match FindTaskRun (SourceTaskRunID retry) st, FindTaskRun (Retry_TaskRunID retry) st with
  | Some sourceTaskRun, Some childTaskRun =>
    if negb (bool_decide (Run_RequesterPersonID childTaskRun = Run_RequesterPersonID sourceTaskRun)) then retry_unavailable else
    if negb (is_retryable (Run_Status childTaskRun)) then returns (retry_duplicate childTaskRun) else
    let childEvents := ListTaskEvent (Run_ID childTaskRun) st in
    if negb (is_some (pendingRetrySource childEvents st)) && hasTaskRetrySource childEvents (Run_ID sourceTaskRun)
    then returns (retry_duplicate childTaskRun) else
    match retryChildForSource (ListTaskEvent (Run_ID sourceTaskRun) st) st with
    | None => retry_unavailable
    | Some linkedChild =>
      if negb (bool_decide (Run_ID linkedChild = Run_ID childTaskRun)) || negb (hasTaskRetrySource childEvents (Run_ID sourceTaskRun))
      then retry_unavailable else launch_retry sourceTaskRun childTaskRun
    end
  | _, _ => retry_unavailable
  end.

(** ** The turn, up to the launch ([processInboundEventWithReplySender]) *)

Definition inbound_turn (sendReply : Sender) (event : judged_event) : Handling ConnectorRuntimeResult :=
  personID ← admitInboundTurn sendReply event.1;
  (if shouldStartProgressBeforeAddressing event.1 then showTurnProgress (replyTargetOf event.1) else mret tt);;
  checks_context 0;;
  '(emojiName, ask, clears) ← resolveOpenInteractions sendReply event personID;
  '(activeGoal, emojiName) ← resolveTurnActiveGoal event.1 personID emojiName ask clears;
  '(event, decision, emojiName) ← resolveTurnAddressing event personID emojiName ask activeGoal;
  '(event, priorTask) ← prepareTurnForLaunch event personID ask activeGoal;
  checks_context 2;;
  launchTurn (MkInboundTurn event personID emojiName ask clears activeGoal decision priorTask).

Definition until_launch (sendReply : Sender) (event : PlatformInboundEvent * option nat) : Handling ConnectorRuntimeResult :=
  event ← on_gate (withGatewayDecision event);
  match TaskRetry event.1 with
  | Some retry => processTaskRetry retry
  | None => inbound_turn sendReply event
  end.

(** ** The replies of a task ([runtime.go], [task_reply_dispatch.go]) *)

Definition append_reply_event (taskRunID name : string) (body : list (string * string)) : Handling unit :=
  changes_store (appendConnectorReplyEvent taskRunID name body).

(** A reply that carries nothing but its task and its kind. *)
Definition bare_reply (taskRunID replyKind : string) : OutboundReply := MkReply "" taskRunID replyKind "" "" [] [] "" None.

Definition recoveryActionsForEvent (recoveryActions : list RecoveryAction) (event : PlatformInboundEvent) : list RecoveryAction :=
  map (fun recoveryAction =>
    if blank (PlatformUserID recoveryAction)
    then MkRecovery (Recovery_Kind recoveryAction) (TrimSpace (SenderID event)) (Recovery_Document recoveryAction) else recoveryAction)
    (filter (fun recoveryAction => blank (Recovery_Kind recoveryAction) = false) recoveryActions).

Definition optionalAskInteraction (interaction : option AskInteraction) (targetPlatformUserID : string) : option AskInteraction :=
  match interaction with
  | None => None
  | Some (MkAsk i r k m q os rec sel lang _) =>
    if blank k then None else Some (MkAsk i r k m q os rec sel lang (TrimSpace targetPlatformUserID))
  end.

(** The error, if it was not sent. *)
Definition sendCheckpointReply (sendReply : Sender) (event : PlatformInboundEvent) (target : ReplyTarget) (checkpoint : AgentCheckpoint)
  : Handling (option string) :=
  let message := TrimSpace (Checkpoint_Message checkpoint) in
  let taskRunID := TrimSpace (Checkpoint_TaskRunID checkpoint) in
  let reply := MkReply message taskRunID connectorReplyKindCheckpoint "" "" (Checkpoint_Attachments checkpoint) [] "" None in
  if bool_decide (message = "") && bool_decide (Checkpoint_Attachments checkpoint = []) then
    append_reply_event taskRunID TaskEventConnectorReplySuppressed (connectorReplyEventBody event reply "" "" "missing_checkpoint_message");;
    mret (Some "missing checkpoint message")
  else
    sent ← say sendReply event target reply;
    match sent with
    | Ok _ => mret None
    | Err e => append_reply_event taskRunID TaskEventConnectorReplyFailed (connectorReplyEventBody event reply "" "" e);; mret (Some e)
    end.

(** The reply, if there is something to say. *)
Definition notice_reply (event : PlatformInboundEvent) (taskRunID : string) (turnResult : TurnResult) (st : ApprovalGate.Store)
  : OutboundReply * string :=
  let '(reply, missingReason) := UserNoticeReply turnResult taskRunID in
  let '(MkReply message run kind raw outbox attachments _ notice _) := reply in
  (MkReply message run kind raw outbox attachments (recoveryActionsForEvent (RecoveryActions turnResult) event) notice
     (optionalAskInteraction (latestAskInteraction taskRunID (ListRecordedEvent taskRunID st)) (SenderID event)), missingReason).

(** The dispatch ID, if it was sent. *)
Definition sendUserNoticeReply (sendReply : Sender) (event : PlatformInboundEvent) (taskRunID : string) (target : ReplyTarget)
    (turnResult : TurnResult) : Handling (option string) :=
  '(reply, missingReason) ← reads (fun w => notice_reply event taskRunID turnResult (turn_store w));
  if negb (bool_decide (missingReason = "")) then
    append_reply_event taskRunID TaskEventConnectorReplySuppressed
      (connectorReplyEventBody event (bare_reply taskRunID connectorReplyKindUserNotice) "" "" missingReason);;
    mret None
  else
    sent ← say sendReply event target reply;
    match sent with
    | Ok dispatchID => mret (Some dispatchID)
    | Err e => append_reply_event taskRunID TaskEventConnectorReplyFailed (connectorReplyEventBody event reply "" "" e);; mret None
    end.

Definition completed_reply (event : PlatformInboundEvent) (taskRunID : string) (turnResult : TurnResult) : OutboundReply :=
  MkReply (FinishMessage turnResult) taskRunID connectorReplyKindSuccess "" "" (Turn_Attachments turnResult)
    (recoveryActionsForEvent (RecoveryActions turnResult) event) "" None.

Definition sendCompletedTaskReply (sendReply : Sender) (event : PlatformInboundEvent) (taskRunID : string) (target : ReplyTarget)
    (turnResult : TurnResult) : Handling ConnectorRuntimeResult :=
  sent ← say sendReply event target (completed_reply event taskRunID turnResult);
  match sent with
  | Ok dispatchID => mret (handled "" taskRunID dispatchID)
  | Err e =>
    append_reply_event taskRunID TaskEventConnectorReplyFailed
      (connectorReplyEventBody event (bare_reply taskRunID connectorReplyKindSuccess) "" "" e);;
    mret (handled "reply_failed" taskRunID "")
  end.

Definition reply_decision (event : PlatformInboundEvent) (target : ReplyTarget) (turnResult : TurnResult) (st : ApprovalGate.Store)
  : taskReplyDecisionKind * string :=
  let taskRunID := Run_ID (Turn_TaskRun turnResult) in
  decideTaskReply turnResult (taskRunWasCancelled taskRunID st)
    (agentAlreadyReplied taskRunID [Event_ConversationID event; Target_ConversationID target; Target_ReplyTargetID target] st).

Definition dispatchTaskReply (sendReply : Sender) (event : PlatformInboundEvent) (target : ReplyTarget) (turnResult : TurnResult)
    (emojiName : string) : Handling ConnectorRuntimeResult :=
  let taskRunID := Run_ID (Turn_TaskRun turnResult) in
  '(kind, reason) ← reads (fun w => reply_decision event target turnResult (turn_store w));
  match kind with
  | taskReplyDecisionSuppressDelivered =>
    AppendTaskEvent taskRunID TaskEventReplySuppressedDuplicate (marshal_event_body
      [("conversationID", Event_ConversationID event); ("reason", reason)]);;
    mret (handled reason taskRunID "")
  | taskReplyDecisionSuppressCancelled =>
    AppendTaskEvent taskRunID TaskEventConnectorStopOutboxSuppressed (marshal_event_body
      [("messageID", MessageID event); ("reason", "task was cancelled before final reply send")]);;
    mret (handled reason taskRunID "")
  | taskReplyDecisionSuppressSuperseded | taskReplyDecisionSuppressRequested =>
    AppendTaskEvent taskRunID TaskEventConnectorReplySuppressed (marshal_event_body
      [("messageID", MessageID event); ("reason", reason)]);;
    mret (handled reason taskRunID "")
  | taskReplyDecisionSendUserNotice =>
    sent ← sendUserNoticeReply sendReply event taskRunID target turnResult;
    match sent with
    | Some dispatchID => clearEngagedAckReaction event emojiName;; mret (handled reason taskRunID dispatchID)
    | None => mret (handled reason taskRunID "")
    end
  | taskReplyDecisionSendFinal =>
    result ← sendCompletedTaskReply sendReply event taskRunID target turnResult;
    (if bool_decide (ReplyDispatchID result = "") then mret tt else clearEngagedAckReaction event emojiName);;
    mret result
  end.

(** ** The launch itself *)

(** [narrator.toolCallObserver] *)
Definition tells (target : ReplyTarget) (update : SessionUpdate) : Handling unit := fun w =>
  match world_narrator w with
  | None => (w, inr tt)
  | Some narrator =>
    let '(narrator, d) := observe (turn_platform env) target update narrator (delivery_of w) in
    (set_world_narrator (Some narrator) (with_delivery d w), inr tt)
  end.

(** [checkpoints]: the sender the request carries; without one a checkpoint goes nowhere. *)
Fixpoint run_launch (sendReply : Sender) (target : ReplyTarget) (checkpoints : option (PlatformInboundEvent * ReplyTarget)) (run : LaunchRun)
  : Handling (result string TurnResult) :=
  match run with
  | LaunchEnded r => mret r
  | LaunchTold update rest => tells target update;; run_launch sendReply target checkpoints rest
  | LaunchSaid checkpoint rest =>
    match checkpoints with
    | None => run_launch sendReply target checkpoints (rest None)
    | Some (event, checkpointTarget) => fun w =>
      match sendCheckpointReply sendReply event checkpointTarget checkpoint w with
      | (w, inr e) => run_launch sendReply target checkpoints (rest e) w
      | (w, inl stop) => (w, inl stop)
      end
    end
  | LaunchChanged change rest => fun w =>
    let st := change (turn_store w) in
    run_launch sendReply target checkpoints (rest st) (set_world_gate (set_store st (world_gate w)) w)
  end.

Definition appendTaskExecutionDuration (taskRunID : string) : Handling unit :=
  if blank taskRunID then mret tt else
  AppendTaskEvent taskRunID TaskEventBlueclawTaskExecutionDuration (marshal_values [("durationMs", CountValue (durationMs env))]).

(** [newTurnNarrator]: where the adapter can edit. *)
Definition starts_narrating (plan : LaunchPlan) : Handling unit := fun w =>
  (if plan_isMessage plan && is_some (platform_EditReply (turn_platform env)) then set_world_narrator (Some new_narrator) w else w, inr tt).

Definition complete_failure (request : Failed.AgentTurnRequest) (step e : string) : Handling TurnResult :=
  on_store (CompleteLaunchFailure env request step e).

Definition launch_and_reply (sendReply : Sender) (plan : LaunchPlan) : Handling ConnectorRuntimeResult :=
  starts_narrating plan;;
  run ← reads (fun w => Launch_ env (plan_request plan) (turn_store w));
  launchResult ← run_launch sendReply (plan_target plan) (Launch.CheckpointSender (plan_request plan)) run;
  match launchResult with
  | Ok turnResult =>
    (if plan_isMessage plan then appendTaskExecutionDuration (Run_ID (Turn_TaskRun turnResult)) else mret tt);;
    dispatchTaskReply sendReply (plan_event plan) (plan_target plan) turnResult (plan_ack plan)
  | Err e =>
    request ← reads (fun w => plan_failure plan (turn_store w));
    turnResult ← complete_failure request (plan_step plan) e;
    dispatchTaskReply sendReply (plan_event plan) (plan_target plan) turnResult (plan_ack plan)
  end.

(** A piece of work and the launch it ends in. *)
Definition completes (sendReply : Sender) (m : Handling ConnectorRuntimeResult) (w : TurnWorld)
  : TurnWorld * result TurnError ConnectorRuntimeResult :=
  match m w with
  | (w, inr r) => (w, Ok r)
  | (w, inl (Returned r)) => (w, r)
  | (w, inl (Launching plan)) =>
    match launch_and_reply sendReply plan w with
    | (w, inr r) => (w, Ok r)
    | (w, inl (Returned r)) => (w, r)
    | (w, inl (Launching _)) => (w, Err (TurnFailure ""))
    end
  end.

Definition processInboundEventWithReplySender (sendReply : Sender) (event : judged_event) (w : TurnWorld)
  : TurnWorld * result TurnError ConnectorRuntimeResult :=
  let '(w, r) := completes sendReply (until_launch sendReply event) w in (endProgress (replyTargetOf event.1) w, r).

(** ** A run taken up again ([auto_resume.go]) *)

Definition resume_target (event : PlatformInboundEvent) : ReplyTarget :=
  MkReplyTarget (Event_ConversationID event) (Event_ReplyTargetID event) "" (DedupeKey event).

Definition CanResumeInterruptedTaskRun (taskRun : TaskRun) (st : ApprovalGate.Store) : bool :=
  let can_resume taskRun taskEvents := match interruptedTaskLaunchContextFromEvents taskRun taskEvents with
    | None => false
    | Some launchContext => bool_decide (Interrupted.Platform launchContext ∈ adapterByPlatform (turn_gateway env))
    end in
  let taskEvents := ListTaskEvent (Run_ID taskRun) st in
  match pendingRetrySource taskEvents st with
  | None => can_resume taskRun taskEvents
  | Some sourceTaskRun => can_resume sourceTaskRun (ListTaskEvent (Run_ID sourceTaskRun) st)
  end.

Definition resume_failure (taskRun : TaskRun) (launchContext : LaunchContext) (event : PlatformInboundEvent) (s : IdentityService)
    (st : ApprovalGate.Store) : Failed.AgentTurnRequest :=
  Failed.MkTurnRequest (Run_RequesterPersonID taskRun) (ResolvePersonPrimaryEmail (Run_RequesterPersonID taskRun) s) (Run_ID taskRun)
    (Event_ReplyTargetID event) (OriginIsThread taskRun || Interrupted.IsThread launchContext) (Interrupted.ProfileName launchContext)
    (Interrupted.Platform launchContext) (Event_ConversationID event) (Run_Prompt taskRun)
    (Context_ResponseLanguage (EventContext event)) (ToAgentVisibleContext (EventContext event))
    (interruptedTaskActiveGoal taskRun (ListTaskEvent (Run_ID taskRun) st) (guidanceNote (autoResumeTaskProfile (Run_ID taskRun)))).

Definition set_SettledCalls (settledCalls : list CarriedOutCall) (request : TaskLaunchRequest) : TaskLaunchRequest :=
  let '(Launch.MkLaunchRequest s sr p n cn h e pu rr ex op ot th pf pl c ct ci cc rt pr ip rl vc ag pt _ tl dw pi ad hp re pa ac cs) := request in
  Launch.MkLaunchRequest s sr p n cn h e pu rr ex op ot th pf pl c ct ci cc rt pr ip rl vc ag pt settledCalls tl dw pi ad hp re pa ac cs.

(** The turn is of the adapter of the run's platform. *)
Definition resumeTaskRun {A} (taskRun : TaskRun) (taskEvents : list TaskEvent) (launchContext : LaunchContext)
    (settledCalls : list CarriedOutCall) : Handling A :=
  let event := interruptedTaskResumeEvent taskRun launchContext in
  launchRequest ← reads (fun w => set_SettledCalls settledCalls (interruptedTaskLaunchRequest (world_identity w) taskRun taskEvents
    launchContext event (adapterName env) (autoResumeTaskProfile (Run_ID taskRun))));
  failure ← reads (fun w => resume_failure taskRun launchContext event (world_identity w));
  launches (MkLaunchPlan launchRequest event (resume_target event) "" false failure "auto_resume").

(** [resumePendingTaskRetry], then [processTaskRetry] of the event it makes. *)
Definition resumePendingTaskRetry {A} (sourceTaskRun childTaskRun : TaskRun) : Handling A :=
  found ← reads (fun w => interruptedTaskLaunchContextFromEvents sourceTaskRun (ListTaskEvent (Run_ID sourceTaskRun) (turn_store w)));
  match found with
  | None => retry_unavailable
  | Some launchContext =>
    if negb (bool_decide (Interrupted.Platform launchContext ∈ adapterByPlatform (turn_gateway env)))
    then fails (TurnFailure ("connector adapter not registered: " +:+ Interrupted.Platform launchContext)) else
    processTaskRetry (MkTaskRetry (Run_ID sourceTaskRun) (Run_ID childTaskRun))
  end.

(** [None]: the held call of the run is awaited again, beside the turn. *)
Definition ResumeInterruptedTaskRun (taskRun : TaskRun) : Handling ConnectorRuntimeResult :=
  st ← reads turn_store;
  let taskEvents := ListTaskEvent (Run_ID taskRun) st in
  match pendingRetrySource taskEvents st with
  | Some sourceTaskRun => resumePendingTaskRetry sourceTaskRun taskRun
  | None =>
    if is_some (PendingHeldCall taskEvents) then returns (MkResult true "" false false "open_hold_awaited_again" (Run_ID taskRun) "") else
    match interruptedTaskLaunchContextFromEvents taskRun taskEvents with
    | None => fails (TurnFailure "interrupted task launch context is missing")
    | Some launchContext =>
      if negb (bool_decide (Interrupted.Platform launchContext ∈ adapterByPlatform (turn_gateway env)))
      then fails (TurnFailure ("connector adapter not registered: " +:+ Interrupted.Platform launchContext))
      else resumeTaskRun taskRun taskEvents launchContext []
    end
  end.

(** ** A turn of a session ([session_turn.go]); [hasAdapter]: there is one for its platform. *)

Definition judges_turn (hasAdapter : bool) (personID : string) (event : judged_event) : Handling (result JudgeError Judgment) := fun w =>
  let '(g, judged) := judgeEvent (turn_gateway env) (world_identity w) (if hasAdapter then Some (adapterName env) else None) personID event
    (world_gate w) in
  (set_world_gate g w, inr judged).

Definition ResolveEngagement (hasAdapter : bool) (personID : string) (event : judged_event) : Handling Decision :=
  ask ← reads (fun w => findPendingAskInteraction personID event.1 (turn_store w));
  match ask with
  | Some _ => mret launched
  | None =>
    let request := engagementRequestForEvent event.1 in
    decision ← (if IsIgnoredWithoutDeciding request then mret (Resolve request (@Err JudgeError Judgment NoGatewayDecider))
      else judged ← judges_turn hasAdapter personID event; mret (Resolve request judged));
    (if bool_decide (Decision_ReactionEmoji decision = "") || negb hasAdapter then mret tt
     else addAddressingReaction event.1 (Decision_ReactionEmoji decision));;
    remembers event.1 personID decision;;
    mret decision
  end.

(** The request of the session, with the message and what it continues; [decision]: of [ResolveEngagement]. *)
Definition PrepareLaunch (sendReply : Sender) (hasAdapter : bool) (personID : string) (event : judged_event) (decision : Decision)
    (launchRequest : TaskLaunchRequest) : Handling TaskLaunchRequest :=
  if negb hasAdapter then mret (withTurnMessage launchRequest event.1 None) else
  '(emojiName, ask, clears) ← resolveOpenInteractions sendReply event personID;
  '(activeGoal, emojiName) ← resolveTurnActiveGoal event.1 personID emojiName ask clears;
  '(event, priorTask) ← prepareTurnForLaunch event personID ask activeGoal;
  checks_context 2;;
  let turn := MkInboundTurn event personID emojiName ask clears activeGoal decision priorTask in
  reads (fun w => withTurnContinuation (withTurnMessage launchRequest event.1 (Some (personID, event.1)))
    (conversationTurnFor turn (world_identity w))).

End turn.

(** ** Lemmas: what a handler leaves *)

Section triples.
Context `{DecisionLibrary, ApprovalLibrary}.

(** From a world of [P], [m] goes on with a value and a world of [Q], or ends the turn in [E]. *)
Definition triple {A} (E : TurnEnd -> TurnWorld -> Prop) (P : TurnWorld -> Prop) (m : Handling A) (Q : A -> TurnWorld -> Prop) : Prop :=
  forall w, P w -> match m w with (w', inr a) => Q a w' | (w', inl e) => E e w' end.

Lemma triple_goes_on {A} E (P : TurnWorld -> Prop) (a : A) (Q : A -> TurnWorld -> Prop) :
  (forall w, P w -> Q a w) -> triple E P (mret a) Q.
Proof. done. Qed.

Lemma triple_then {A B} E P (m : Handling A) (k : A -> Handling B) R Q :
  triple E P m R -> (forall a, triple E (R a) (k a) Q) -> triple E P (m ≫= k) Q.
Proof.
  intros Hm Hk w Hw; specialize (Hm w Hw); unfold mbind, Handling_bind; destruct (m w) as [w1 [e|a]]; [done|]; by apply Hk.
Qed.

(** Steps that end the turn end it whatever was to follow. *)
Lemma steps_end {A} (m n c : Handling unit) (a : A) w w' e : (m;; n;; c) w = (w', inl e) -> (m;; n;; c;; mret a) w = (w', inl e).
Proof.
  unfold mbind, Handling_bind; destruct (m w) as [w1 [e1|x1]]; [congruence|]; destruct (n w1) as [w2 [e2|x2]]; [congruence|].
  destruct (c w2) as [w3 [e3|x3]]; congruence.
Qed.

Lemma triple_pre {A} E (P P' : TurnWorld -> Prop) (m : Handling A) Q :
  (forall w, P w -> P' w) -> triple E P' m Q -> triple E P m Q.
Proof. intros Hp Hm w Hw; by apply Hm, Hp. Qed.

Lemma triple_returns {A} E P r (Q : A -> TurnWorld -> Prop) :
  (forall w, P w -> E (Returned (Ok r)) w) -> triple E P (returns r) Q.
Proof. intros He w Hw; by apply He. Qed.

Lemma triple_fails {A} E P e (Q : A -> TurnWorld -> Prop) :
  (forall w, P w -> E (Returned (Err e)) w) -> triple E P (fails e) Q.
Proof. intros He w Hw; by apply He. Qed.

Lemma triple_reads {A} E (P : TurnWorld -> Prop) (f : TurnWorld -> A) (Q : A -> TurnWorld -> Prop) :
  (forall w, P w -> Q (f w) w) -> triple E P (reads f) Q.
Proof. intros Hq w Hw; by apply Hq. Qed.

Lemma triple_fact {A} E (R : Prop) P (m : Handling A) Q :
  (R -> triple E P m Q) -> triple E (fun w => R /\ P w) m Q.
Proof. intros Hm w [Hr Hw]; by apply Hm. Qed.

End triples.

Section turns.
Context `{UnicodeTables, DecisionLibrary, LedgerLaws, TaskDocuments, LaunchDocuments, ReplyEvents, ReplyDocuments, TurnEvents}.
Context (env : TurnEnv) (sendReply : Sender) (Hsend : says_at_most_once sendReply).

(** The person the sender is known as. *)
Definition admitted (event : PlatformInboundEvent) (s : IdentityService) : option string :=
  match (authorizeSender env event s).2 with
  | Ok authorization => if IsAllowed authorization then Some (Authorized_PersonID authorization) else None
  | Err _ => None
  end.

(** The runs a turn of the person may touch: their own, and the run that a question which
    waits for them names. *)
Definition touched (personID : string) (event : PlatformInboundEvent) (st0 : ApprovalGate.Store) (taskRunID : string) : Prop :=
  runs_of personID st0 taskRunID \/
  exists st ask, only_touches (runs_of personID st0) st0 st /\ findPendingAskInteraction personID event st = Some ask /\
    taskRunID = Ask_TaskRunID ask.

(** One reply at most, to the target, of no task or of one of [T]. *)
Definition said_once (T : string -> Prop) (target : ReplyTarget) (replies0 replies : list ReplyAct) : Prop :=
  exists act, replies = (replies0 ++ option_list act)%list /\
    forall a, act = Some a -> exists reply, carries target reply a /\ (Reply_TaskRunID reply = "" \/ T (Reply_TaskRunID reply)).

(** A launch for the person: of the message, named by its key, in a new run, a run of theirs or
    one that a goal of theirs names; or of a run of theirs that is steered. *)
Definition launched_for (personID : string) (event : PlatformInboundEvent) (st0 : ApprovalGate.Store) (plan : LaunchPlan) : Prop :=
  let existing := Launch.ExistingTaskRunID (plan_request plan) in
  Launch.RequesterPersonID (plan_request plan) = personID /\ plan_target plan = replyTargetOf event /\
  if plan_isMessage plan then
    Launch.SourceReference (plan_request plan) = DedupeKey event /\
    (existing = "" \/ runs_of personID st0 existing \/
     exists taskRunID st, runs_of personID st0 taskRunID /\ existing = Goal_TaskRunID (latestActiveGoal (ListTaskEvent taskRunID st)))
  else runs_of personID st0 existing.

Section of_person.
Context (personID : string) (event0 : PlatformInboundEvent) (st0 : ApprovalGate.Store) (replies0 : list ReplyAct).

(** Nothing was said yet, and only runs of [T] were touched. *)
Record quiet (T : string -> Prop) (w : TurnWorld) : Prop := {
  quiet_touches : only_touches T st0 (turn_store w);
  quiet_replies : world_replies w = replies0;
  quiet_sender : world_narrator w = None;
  quiet_person : turn_personID (world_identity w) (adapterName env) event0 = personID;
}.

Definition ends (e : TurnEnd) (w : TurnWorld) : Prop :=
  only_touches (touched personID event0 st0) st0 (turn_store w) /\
  match e with
  | Returned _ => said_once (touched personID event0 st0) (replyTargetOf event0) replies0 (world_replies w)
  | Launching plan => world_replies w = replies0 /\ launched_for personID event0 st0 plan
  end.

Lemma quiet_weaken (T T' : string -> Prop) w : (forall id, T id -> T' id) -> quiet T w -> quiet T' w.
Proof. intros Ht [H1' H2' H3' H4']; split; [by eapply only_touches_weaken|done|done|done]. Qed.

Lemma own_touched id : runs_of personID st0 id -> touched personID event0 st0 id.
Proof. by left. Qed.

Lemma quiet_ends T r w : (forall id, T id -> touched personID event0 st0 id) -> quiet T w -> ends (Returned r) w.
Proof.
  intros Ht [H1' H2' _ _]; split; [by eapply only_touches_weaken|]; exists None; rewrite app_nil_r; by split.
Qed.

Lemma triple_store {A} T (f : ApprovalGate.Store -> ApprovalGate.Store * A) (R : A -> Prop) :
  (forall st, only_touches T st0 st -> only_touches T st0 (f st).1 /\ R (f st).2) ->
  triple ends (quiet T) (on_store f) (fun a w => R a /\ quiet T w).
Proof.
  intros Hf w [H1' H2' H3' H4']; unfold on_store; specialize (Hf _ H1'); destruct (f (turn_store w)) as [st a].
  destruct Hf as [Ht Hr]; split; [done|by constructor].
Qed.

Lemma triple_changes T f :
  (forall st, only_touches T st0 st -> only_touches T st0 (f st)) ->
  triple ends (quiet T) (changes_store f) (fun _ => quiet T).
Proof.
  intros Hf w Hw; pose proof (triple_store T (fun st => (f st, tt)) (fun _ => True) ltac:(intros st Ht; split; [by apply Hf|done]) w Hw) as Ht.
  unfold changes_store; destruct (on_store _ w) as [w' [e|[]]]; [done|by destruct Ht].
Qed.

Lemma triple_append (T : string -> Prop) taskRunID name body :
  T taskRunID -> triple ends (quiet T) (AppendTaskEvent taskRunID name body) (fun _ => quiet T).
Proof.
  intros Hid; apply triple_changes; intros st Ht; eapply only_touches_trans; [exact Ht|].
  eapply only_touches_weaken; [|apply append_touches]; by intros id ->.
Qed.

(** What is said, and the world after it. *)
Definition spoken (T : string -> Prop) (w : TurnWorld) : Prop :=
  only_touches T st0 (turn_store w) /\ said_once T (replyTargetOf event0) replies0 (world_replies w).

Lemma spoken_ends T r w : (forall id, T id -> touched personID event0 st0 id) -> spoken T w -> ends (Returned r) w.
Proof.
  intros Ht [H1' (act & H2' & H3')]; split; [by eapply only_touches_weaken|]; exists act; split; [done|].
  intros a Ha; destruct (H3' a Ha) as (reply & Hc & [Hr|Hr]); exists reply; (split; [done|]); [by left|right; by apply Ht].
Qed.

Lemma triple_say (T : string -> Prop) event reply :
  (Reply_TaskRunID reply = "" \/ T (Reply_TaskRunID reply)) ->
  triple ends (quiet T) (say env sendReply event (replyTargetOf event0) reply) (fun _ => spoken T).
Proof.
  intros Hr w [H1' H2' H3' H4']; unfold say; rewrite H3'; cbn [takeOverSending].
  pose proof (Hsend (replyTargetOf event0) reply (delivery_of w)) as Hs.
  destruct (sendReply _ reply (delivery_of w)) as [d r]; destruct Hs as [Ht (act & Hact & Hc)]; cbn [delivery_of reply_store reply_acts] in *.
  split.
  - cbn; eapply only_touches_trans; [exact H1'|]; eapply only_touches_weaken; [|exact Ht].
    intros id [-> Hb]; destruct Hr as [Hr|Hr]; [by rewrite Hr in Hb|done].
  - cbn; exists act; split; [by rewrite Hact, H2'|]; intros a Ha; exists reply; split; [|done].
    destruct r as [id|e]; [by apply Hc|congruence].
Qed.


(** *** The handlers *)

Definition own (id : string) : Prop := runs_of personID st0 id.

Lemma spoken_answers {A} (T : string -> Prop) r Q :
  (forall id, T id -> touched personID event0 st0 id) ->
  triple ends (spoken T) (match r with Ok r => returns r | Err e => @fails _ _ _ A e end) Q.
Proof. intros Ht; destruct r; [apply triple_returns|apply triple_fails]; intros w Hw; by eapply spoken_ends. Qed.

Lemma kept_own st id : only_touches own st0 st -> runs_of personID st id <-> own id.
Proof. intros Ht; by eapply runs_of_kept. Qed.

Lemma within_own st st' : only_touches own st0 st -> only_touches (runs_of personID st) st st' -> only_touches own st0 st'.
Proof.
  intros Ht Ht'; eapply only_touches_trans; [exact Ht|]; eapply only_touches_weaken; [|exact Ht'].
  intros id Hid; by apply (kept_own st).
Qed.

Lemma within_touched (T : string -> Prop) st st' : (forall id, own id -> T id) ->
  only_touches T st0 st -> only_touches (runs_of personID st) st st' -> only_touches T st0 st'.
Proof.
  intros Hw Ht Ht'; eapply only_touches_trans; [exact Ht|]; eapply only_touches_weaken; [|exact Ht'].
  intros id Hid; apply Hw; by apply (runs_of_kept T st0 st).
Qed.

Lemma latestRunningConversationTask_own event st :
  only_touches (runs_of personID st) st (latestRunningConversationTask personID event st).1 /\
  forall running, (latestRunningConversationTask personID event st).2 = Some running ->
    runs_of personID st (Run_ID running) /\ Run_RequesterPersonID running = personID.
Proof.
  unfold latestRunningConversationTask; destruct (activeTaskRunsForPerson_spec personID st) as [Ht Hall].
  destruct (activeTaskRunsForPerson personID st) as [st1 runs]; cbn [fst snd] in *; split; [done|].
  intros running [Hin _]%fst_latest_where_Some; rewrite Forall_forall in Hall; specialize (Hall _ Hin).
  split; [by apply listed_run|by eapply listed_requester].
Qed.

Lemma gatewayFacts_touches identity platform event st :
  only_touches (runs_of personID st) st (gatewayFactsForTurn (turn_gateway env) identity platform personID event st).1.
Proof.
  unfold gatewayFactsForTurn, readOpenInteractions.
  match goal with |- context [latestRunningConversationTask personID ?e st] =>
    destruct (latestRunningConversationTask_own e st) as [Ht _]; destruct (latestRunningConversationTask personID e st) as [st1 running] end.
  exact Ht.
Qed.

Lemma judgeFacts_store cells facts g : gate_store (judgeFacts (turn_gateway env) cells facts g).1 = gate_store g.
Proof. unfold judgeFacts; destruct (gatewayDecider _); [|done]; by destruct (decide_facts _ _ _). Qed.

Lemma judgeEvent_touches identity platform event g :
  only_touches (runs_of personID (gate_store g)) (gate_store g)
    (gate_store (judgeEvent (turn_gateway env) identity platform personID event g).1).
Proof.
  assert (Hnow : only_touches (runs_of personID (gate_store g)) (gate_store g)
      (gate_store (judgeNow (turn_gateway env) identity platform personID event g).1)).
  { unfold judgeNow; pose proof (gatewayFacts_touches identity platform event.1 (gate_store g)) as Ht.
    destruct (gatewayFactsForTurn _ _ _ _ _ _) as [st facts].
    pose proof (judgeFacts_store [event.2] facts (set_store st g)) as Hst; destruct (judgeFacts _ _ _ _) as [g' judged]; cbn in *.
    by rewrite Hst. }
  unfold judgeEvent; destruct event.2 as [p|]; [|done]; destruct (gate_cells g !! p) as [[judged|]|]; [apply only_touches_refl| |];
    by destruct (judgeNow _ _ _ _ _ _) as [g' judged].
Qed.

Lemma triple_judges (T : string -> Prop) event : (forall id, own id -> T id) -> SenderID event.1 = SenderID event0 ->
  triple ends (quiet T) (judges env event) (fun _ => quiet T).
Proof.
  intros Hw Hs w [H1' H2' H3' H4']; unfold judges, judgeInboundMessage.
  assert (Hp : turn_personID (world_identity w) (adapterName env) event.1 = personID) by (rewrite <- H4'; unfold turn_personID; by rewrite Hs).
  rewrite Hp; pose proof (judgeEvent_touches (world_identity w) (Some (adapterName env)) event (world_gate w)) as Ht.
  destruct (judgeEvent _ _ _ _ _ _) as [g judged]; constructor; [|done|done|done]; by eapply within_touched.
Qed.

Lemma triple_relates (T : string -> Prop) event : (forall id, own id -> T id) -> SenderID event.1 = SenderID event0 ->
  triple ends (quiet T) (fun w => let '(g, relates) := relatesToActiveTask (turn_gateway env) (world_identity w) (adapterName env) event (world_gate w) in
    (set_world_gate g w, inr relates)) (fun _ => quiet T).
Proof.
  intros Hw Hs w Hq; pose proof (triple_judges T event Hw Hs w Hq) as Hj; unfold judges in Hj; unfold relatesToActiveTask.
  by destruct (judgeInboundMessage _ _ _ _ _) as [g judged].
Qed.

(** The message is still the one of the turn. *)
Definition same_message (event : PlatformInboundEvent) : Prop :=
  replyTargetOf event = replyTargetOf event0 /\ SenderID event = SenderID event0.

Lemma set_EventContext_same context event : same_message event -> same_message (set_EventContext context event).
Proof. by destruct event. Qed.

Lemma withInitialVisibleContext_same platform event :
  same_message event -> same_message (withInitialVisibleContext (turn_gateway env) platform event).
Proof. intros He; unfold withInitialVisibleContext; repeat split_match; try done; by apply set_EventContext_same. Qed.

Lemma with_parts_same parts person scope event : same_message event -> same_message (with_parts parts person scope event).
Proof. intros He; unfold with_parts; split_match; [done|]; by destruct event. Qed.

Lemma withAttachmentMaterials_same importing writer person event disk :
  same_message event -> same_message (withAttachmentMaterials importing writer person event disk).2.
Proof.
  intros He; unfold withAttachmentMaterials; repeat split_match; cbn [snd]; try done; try (by apply set_EventContext_same);
    try apply with_parts_same; try done; by apply set_EventContext_same.
Qed.

Lemma triple_imports T person event : same_message event ->
  triple ends (quiet T) (imports_attachments env person event) (fun event w => same_message event /\ quiet T w).
Proof.
  intros He w [H1' H2' H3' H4']; unfold imports_attachments.
  pose proof (withAttachmentMaterials_same (turn_importer env) (attachmentWriterFor env person) person event (world_disk w) He) as Hs.
  destruct (withAttachmentMaterials _ _ _ _ _) as [disk event']; split; [exact Hs|by constructor].
Qed.

Lemma triple_launches {A} T plan (Q : A -> TurnWorld -> Prop) : (forall id, T id -> touched personID event0 st0 id) ->
  launched_for personID event0 st0 plan -> triple ends (quiet T) (launches plan) Q.
Proof. intros Ht Hl w [H1' H2' _ _]; split; [by eapply only_touches_weaken|done]. Qed.

(** *** A busy task *)

Lemma triple_cancel_busy taskRun reason name : own (Run_ID taskRun) ->
  triple ends (quiet own) (cancel_busy event0 taskRun reason name) (fun _ => quiet own).
Proof.
  intros Ho; eapply triple_then; [apply triple_changes|intros ?; by apply triple_append].
  intros st Ht; by apply cancel_own.
Qed.

Lemma triple_sendBusyReply {A} taskRun route kind reason (Q : A -> TurnWorld -> Prop) : own (Run_ID taskRun) ->
  triple ends (quiet own) (sendBusyReply env sendReply event0 taskRun route kind reason) Q.
Proof.
  intros Ho; eapply triple_then; [apply (triple_reads _ _ _ (fun _ => quiet own)); by intros w Hw|].
  intros [message|e]; [|apply triple_fails; intros w Hw; by eapply quiet_ends; [apply own_touched|]].
  eapply triple_then; [apply triple_say; by right|].
  intros [id|e]; [apply triple_returns|apply triple_fails]; intros w Hw; by eapply spoken_ends; [apply own_touched|].
Qed.

Lemma steered_fields identity taskRun taskEvents launchContext event adapter profile instruction :
  let request := steeredTaskLaunchRequest (interruptedTaskLaunchRequest identity taskRun taskEvents launchContext event adapter profile)
    event instruction in
  Launch.RequesterPersonID request = Run_RequesterPersonID taskRun /\ Launch.ExistingTaskRunID request = Run_ID taskRun.
Proof. unfold steeredTaskLaunchRequest; by destruct (bool_decide _). Qed.

Lemma triple_steerUnavailable {A} running (Q : A -> TurnWorld -> Prop) : own (Run_ID running) ->
  triple ends (quiet own) (replySteerResumeUnavailable env sendReply event0 running) Q.
Proof. intros Ho; eapply triple_then; [by apply triple_append|intros ?; by apply triple_sendBusyReply]. Qed.

Lemma triple_resumePaused {A} running instruction (Q : A -> TurnWorld -> Prop) :
  own (Run_ID running) -> Run_RequesterPersonID running = personID ->
  triple ends (quiet own) (resumePausedTaskForSteer env sendReply event0 running instruction) Q.
Proof.
  intros Ho Hp; eapply triple_then; [apply (triple_reads _ _ _ (fun _ => quiet own)); by intros w Hw|]; intros taskEvents; cbn beta.
  destruct (interruptedTaskLaunchContextFromEvents _ _) as [launchContext|]; [|by apply triple_steerUnavailable].
  cbv zeta; destruct (negb _); [by apply triple_steerUnavailable|].
  eapply triple_then; [by apply triple_append|intros ?].
  eapply triple_then; [by apply triple_imports|intros importedEvent]; cbn beta; apply triple_fact; intros [Htarget _].
  eapply triple_then; [apply (triple_reads _ _ _ (fun request w => (exists s, request = interruptedTaskLaunchRequest s running taskEvents
    launchContext importedEvent (firstNonEmptyString [adapterName env; Interrupted.Platform launchContext])
    (userSteerTaskProfile (adapterName env) (Run_ID running) instruction)) /\ quiet own w)); intros w Hw; split; [by eexists|done]|].
  intros request; cbn beta; apply triple_fact; intros [s ->].
  apply triple_launches; [apply own_touched|]; destruct (steered_fields s running taskEvents launchContext importedEvent
    (firstNonEmptyString [adapterName env; Interrupted.Platform launchContext])
    (userSteerTaskProfile (adapterName env) (Run_ID running) instruction) instruction) as [Hr He].
  split_and!; cbn [plan_request plan_target plan_isMessage]; [by rewrite Hr|done|by rewrite He].
Qed.

Lemma triple_settleBusy running busyRoute :
  own (Run_ID running) -> Run_RequesterPersonID running = personID ->
  triple ends (quiet own) (settleBusyDecision env sendReply event0 running busyRoute) (fun _ => quiet own).
Proof.
  intros Ho Hp; unfold settleBusyDecision; repeat destruct (bool_decide _).
  - eapply triple_then; [by apply triple_append|intros ?; by apply triple_sendBusyReply].
  - eapply triple_then; [apply (triple_reads _ _ _ (fun _ => quiet own)); by intros w Hw|]; intros isRunning; cbn beta.
    destruct (negb isRunning); [by apply triple_resumePaused|].
    eapply triple_then; [by apply triple_append|intros ?; by apply triple_sendBusyReply].
  - eapply triple_then; [by apply triple_cancel_busy|intros ?; by apply triple_goes_on].
  - eapply triple_then; [by apply triple_cancel_busy|intros ?; by apply triple_sendBusyReply].
  - eapply triple_then; [by apply triple_cancel_busy|intros ?; by apply triple_goes_on].
  - apply triple_returns; intros w Hw; by eapply quiet_ends; [apply own_touched|].
  - apply triple_fails; intros w Hw; by eapply quiet_ends; [apply own_touched|].
Qed.

Lemma triple_settleRunning event running : event.1 = event0 ->
  own (Run_ID running) -> Run_RequesterPersonID running = personID ->
  triple ends (quiet own) (settleRunningTask env sendReply event running) (fun _ => quiet own).
Proof.
  intros He Ho Hp; eapply triple_then; [apply (triple_judges own); [done|by rewrite He]|]; intros [judgment|e]; cbn beta.
  - rewrite He; eapply triple_then; [by apply triple_append|intros ?; by apply triple_settleBusy].
  - apply triple_fails; intros w Hw; by eapply quiet_ends; [apply own_touched|].
Qed.

Lemma latestRecentlyFinished_own now event st running : only_touches own st0 st ->
  latestRecentlyFinishedConversationTask now personID event st = Some running -> own (Run_ID running).
Proof.
  intros Ht Hf; unfold latestRecentlyFinishedConversationTask in Hf; apply fst_latest_where_Some in Hf as [Hin _].
  apply (kept_own st); [done|by apply listed_run].
Qed.

Lemma triple_finished event : event.1 = event0 ->
  triple ends (quiet own) (settleFinishedTaskFollowUp env sendReply event personID) (fun _ => quiet own).
Proof.
  intros He; unfold settleFinishedTaskFollowUp; destruct (_ || _); [by apply triple_goes_on|].
  eapply triple_then; [apply (triple_reads _ _ _ (fun found w => (forall running, found = Some running -> own (Run_ID running)) /\ quiet own w));
    intros w Hw; split; [intros running Hf; eapply latestRecentlyFinished_own; [apply Hw|exact Hf]|done]|].
  intros [finished|]; cbn beta; [|apply triple_goes_on; by intros w [_ Hw]]; apply triple_fact; intros Ho; specialize (Ho _ eq_refl).
  destruct (_ || _); [by apply triple_goes_on|].
  eapply triple_then; [apply (triple_relates own); [done|by rewrite He]|]; intros relates; cbn beta.
  destruct (negb relates); [by apply triple_goes_on|]; rewrite He.
  eapply triple_then; [by apply triple_append|intros ?]; cbn beta.
  destruct (generateFinishedTaskFollowUpReply _ _ _) as [message|e];
    [|apply triple_fails; intros w Hw; by eapply quiet_ends; [apply own_touched|]].
  eapply triple_then; [apply triple_say; by right|].
  intros [id|e]; [apply triple_returns|apply triple_fails]; intros w Hw; by eapply spoken_ends; [apply own_touched|].
Qed.

(** What is open touches only the person's runs; it is theirs, but for the run a question names. *)
Lemma readOpenInteractions_own st : only_touches own st0 st ->
  only_touches own st0 (readOpenInteractions personID event0 st).1 /\
  (forall ask, open_ask_ (readOpenInteractions personID event0 st).2 = Some ask -> touched personID event0 st0 (Ask_TaskRunID ask)) /\
  (forall running, runningTask (readOpenInteractions personID event0 st).2 = Some running ->
    own (Run_ID running) /\ Run_RequesterPersonID running = personID).
Proof.
  intros Ht; unfold readOpenInteractions; destruct (latestRunningConversationTask_own event0 st) as [Hr Hown].
  destruct (latestRunningConversationTask personID event0 st) as [st1 running]; cbn in *; split_and!.
  - by eapply within_own.
  - intros ask Hask; right; by exists st, ask.
  - intros r Hr'; destruct (Hown r Hr') as [Hid Hp]; split; [by apply (kept_own st)|done].
Qed.

Lemma triple_settleOpen event : event.1 = event0 ->
  triple ends (quiet own) (settleOpenInteractions env sendReply event personID) (fun _ => quiet (touched personID event0 st0)).
Proof.
  intros He; unfold settleOpenInteractions; rewrite He.
  assert (Hw : forall w, quiet own w -> quiet (touched personID event0 st0) w) by (intros w; apply quiet_weaken, own_touched).
  eapply triple_then; [apply (triple_store own _ (fun open =>
    (forall ask, open_ask_ open = Some ask -> touched personID event0 st0 (Ask_TaskRunID ask)) /\
    (forall running, runningTask open = Some running -> own (Run_ID running) /\ Run_RequesterPersonID running = personID)))|].
  { intros st Ht; by apply readOpenInteractions_own. }
  intros open; cbn beta; apply triple_fact; intros [Hask Hrun]; destruct (isEmpty open).
  { eapply triple_then; [by apply triple_finished|intros ?; by apply triple_goes_on]. }
  destruct (open_ask_ open) as [ask|].
  { specialize (Hask _ eq_refl); eapply triple_pre; [exact Hw|].
    eapply triple_then; [eapply triple_then; [by apply triple_append|intros ?; by apply triple_append]|intros ?; by apply triple_goes_on]. }
  destruct (isIgnoredWithoutDeciding event0); [by apply triple_goes_on|].
  destruct (runningTask open) as [running|]; [|by apply triple_goes_on]; destruct (Hrun _ eq_refl) as [Ho Hp].
  destruct (bool_decide _); [|by apply triple_goes_on].
  eapply triple_then; [by apply triple_settleRunning|intros ?; by apply triple_goes_on].
Qed.

(** *** Reactions, the goal, the addressing *)

Lemma triple_acts T act : triple ends (quiet T) (acts act) (fun _ => quiet T).
Proof. by intros w [H1' H2' H3' H4']. Qed.

Lemma triple_add_reaction T target : triple ends (quiet T) (add_reaction env target) (fun _ => quiet T).
Proof.
  unfold add_reaction; destruct (AddReaction env) as [add|]; [|by apply triple_goes_on]; destruct (add target); [by apply triple_goes_on|].
  eapply triple_then; [apply triple_acts|intros ?; by apply triple_goes_on].
Qed.

Lemma triple_engaged T event isEngaged : triple ends (quiet T) (applyEngagedAckReaction env event isEngaged) (fun _ => quiet T).
Proof.
  unfold applyEngagedAckReaction; destruct (_ || _); [by apply triple_goes_on|].
  eapply triple_then; [apply triple_add_reaction|intros ?; by apply triple_goes_on].
Qed.

Lemma triple_clear T event emojiName : triple ends (quiet T) (clearEngagedAckReaction env event emojiName) (fun _ => quiet T).
Proof.
  unfold clearEngagedAckReaction; destruct (blank emojiName); [by apply triple_goes_on|].
  destruct (RemoveReaction env) as [remove|]; [|by apply triple_goes_on]; destruct (remove _); [by apply triple_goes_on|apply triple_acts].
Qed.

Lemma triple_addressing_reaction T event emojiName : triple ends (quiet T) (addAddressingReaction env event emojiName) (fun _ => quiet T).
Proof. eapply triple_then; [apply triple_add_reaction|intros ?; by apply triple_goes_on]. Qed.

Lemma triple_progress T target : triple ends (quiet T) (showTurnProgress target) (fun _ => quiet T).
Proof. by intros w [H1' H2' H3' H4']; unfold showTurnProgress; destruct (world_showing w). Qed.

Lemma triple_checks T check : (forall id, T id -> touched personID event0 st0 id) ->
  triple ends (quiet T) (checks_context env check) (fun _ => quiet T).
Proof.
  intros Ht; unfold checks_context; destruct (cancelled env check); [|by apply triple_goes_on].
  apply triple_fails; intros w Hw; by eapply quiet_ends.
Qed.

Abbreviation T := (touched personID event0 st0).

(** The goal of a run of the person, named by it or with its own ID. *)
Definition goal_of_person (goal : ActiveGoal) : Prop :=
  own (Goal_TaskRunID goal) \/
  exists taskRunID st, own taskRunID /\ Goal_TaskRunID goal = Goal_TaskRunID (latestActiveGoal (ListTaskEvent taskRunID st)).

Lemma activeGoalForTaskRun_of_person taskRun st : own (Run_ID taskRun) -> goal_of_person (activeGoalForTaskRun taskRun st).
Proof.
  intros Ho; unfold goal_of_person, activeGoalForTaskRun.
  destruct (latestActiveGoal (ListTaskEvent (Run_ID taskRun) st)) as [g r i o mi kc sg c e] eqn:Hg; cbn [Goal_TaskRunID].
  destruct (blank r); [by left|right; exists (Run_ID taskRun), st; by rewrite Hg].
Qed.

Lemma findActiveGoal_of_person now event ts st goal : only_touches T st0 st ->
  findActiveGoal now personID event ts st = Some goal -> goal_of_person goal.
Proof.
  intros Ht Hf; unfold findActiveGoal in Hf; destruct (latest_where _ _) as [[taskRun []]|] eqn:Hl; [|done]; injection Hf as <-.
  apply latest_where_Some in Hl as [Hin _]; cbn [fst]; apply activeGoalForTaskRun_of_person.
  by apply (runs_of_kept T st0 st), listed_run.
Qed.

Lemma triple_goal event emojiName ask clears :
  triple ends (quiet T) (resolveTurnActiveGoal env event personID emojiName ask clears)
    (fun r w => (forall goal, r.1 = Some goal -> goal_of_person goal) /\ quiet T w).
Proof.
  eapply triple_then; [apply (triple_reads _ _ _ (fun found w => (forall goal, found = Some goal -> goal_of_person goal) /\ quiet T w));
    intros w Hw; split; [intros goal Hf; eapply findActiveGoal_of_person; [apply Hw|exact Hf]|done]|].
  intros found; cbn beta; apply triple_fact; intros Hgoal; cbv zeta.
  assert (Hkept : forall goal, (if clears || negb (bool_decide (PreviousMessages event = [])) then None else found) = Some goal -> goal_of_person goal)
    by (intros goal; destruct (_ || _); [done|apply Hgoal]).
  destruct (bool_decide (emojiName = "")); [|apply triple_goes_on; intros w Hw; by split].
  eapply triple_then; [apply triple_engaged|intros ?; apply triple_goes_on; intros w Hw; by split].
Qed.

Lemma triple_remembers event decision : triple ends (quiet T) (remembers env event personID decision) (fun _ => quiet T).
Proof.
  intros w [H1' H2' H3' H4']; unfold remembers; destruct (rememberHeard _ _ _ _ _ _ _); by constructor.
Qed.

Lemma triple_engagement event : same_message event.1 ->
  triple ends (quiet T) (resolveInboundEngagement env event) (fun _ => quiet T).
Proof.
  intros [_ Hs]; unfold resolveInboundEngagement; destruct (IsIgnoredWithoutDeciding _); [by apply triple_goes_on|].
  eapply triple_then; [apply triple_judges; [apply own_touched|exact Hs]|intros ?; by apply triple_goes_on].
Qed.

Lemma triple_addressing event emojiName ask activeGoal : same_message event.1 ->
  triple ends (quiet T) (resolveTurnAddressing env event personID emojiName ask activeGoal)
    (fun r w => same_message r.1.1.1 /\ quiet T w).
Proof.
  intros He; unfold resolveTurnAddressing.
  pose proof (withInitialVisibleContext_same (adapterName env) event.1 He) as Hv.
  destruct ask as [ask|]; [by apply triple_goes_on|].
  eapply triple_then; [by apply triple_engagement|]; intros decision; cbn beta zeta.
  eapply (triple_then _ _ _ _ (fun _ => quiet T)).
  { destruct (bool_decide _); [by apply triple_goes_on|].
    eapply (triple_then _ _ _ _ (fun _ => quiet T)).
    { destruct (_ && _); [|by apply triple_goes_on]; eapply triple_then; [apply triple_clear|intros ?; by apply triple_goes_on]. }
    intros standing; eapply triple_then; [apply triple_addressing_reaction|intros ?; by apply triple_goes_on]. }
  intros standing; eapply triple_then; [apply triple_remembers|]; intros ?; cbn beta.
  destruct (negb _); [apply triple_returns; intros w Hw; by eapply quiet_ends|].
  destruct (shouldDeferNewTaskLaunch _ _ _); [apply triple_returns; intros w Hw; by eapply quiet_ends|by apply triple_goes_on].
Qed.

Lemma triple_prepare event ask activeGoal : same_message event.1 ->
  triple ends (quiet T) (prepareTurnForLaunch env event personID ask activeGoal) (fun r w => same_message r.1.1 /\ quiet T w).
Proof.
  intros He; eapply triple_then; [apply triple_progress|]; intros ?; cbn beta.
  destruct (cancelled env 1); [by apply triple_goes_on|].
  eapply triple_then; [by apply triple_imports|]; intros importedEvent; cbn beta; apply triple_fact; intros Hi.
  eapply triple_then; [apply (triple_reads _ _ _ (fun _ => quiet T)); by intros w Hw|intros ?; by apply triple_goes_on].
Qed.

Lemma launch_fields identity turn :
  Launch.RequesterPersonID (buildTaskLaunchRequest identity turn) = Turn.RequesterPersonID turn /\
  Launch.ExistingTaskRunID (buildTaskLaunchRequest identity turn) = existingGoalTaskRunIDFromTurn turn /\
  Launch.SourceReference (buildTaskLaunchRequest identity turn) = DedupeKey (Turn.Event turn).
Proof. unfold buildTaskLaunchRequest; cbn; by destruct (ambientDutyForTurn turn). Qed.

Lemma triple_launchTurn {A} turn (Q : A -> TurnWorld -> Prop) : same_message (turn_event turn).1 -> turn_person turn = personID ->
  (forall goal, turn_activeGoal turn = Some goal -> goal_of_person goal) ->
  triple ends (quiet T) (launchTurn env turn) Q.
Proof.
  intros [Ht _] Hp Hg; eapply triple_then; [apply (triple_reads _ _ _ (fun plan w => launched_for personID event0 st0 plan /\ quiet T w))|
    intros plan; cbn beta; apply triple_fact; intros ?; by apply triple_launches].
  intros w Hw; split; [|exact Hw].
  destruct (launch_fields (world_identity w) (conversationTurnFor env turn (world_identity w))) as (Hr & He & Hsr).
  split_and!; cbn [plan_request plan_target plan_isMessage]; [by rewrite Hr|exact Ht|].
  split; [rewrite Hsr; by injection Ht|]; rewrite He; unfold existingGoalTaskRunIDFromTurn; cbn [conversationTurnFor Turn.ActiveGoal].
  destruct (turn_activeGoal turn) as [goal|]; [|by left]; destruct (Hg _ eq_refl) as [Ho|(id & st & Ho & Heq)]; [by right; left|].
  right; right; by exists id, st.
Qed.

(** From the admission on. *)
Lemma triple_admitted event : event.1 = event0 ->
  triple ends (quiet own)
    ((if shouldStartProgressBeforeAddressing event.1 then showTurnProgress (replyTargetOf event.1) else mret tt);;
     checks_context env 0;;
     '(emojiName, ask, clears) ← resolveOpenInteractions env sendReply event personID;
     '(activeGoal, emojiName) ← resolveTurnActiveGoal env event.1 personID emojiName ask clears;
     '(event, decision, emojiName) ← resolveTurnAddressing env event personID emojiName ask activeGoal;
     '(event, priorTask) ← prepareTurnForLaunch env event personID ask activeGoal;
     checks_context env 2;;
     launchTurn env (MkInboundTurn event personID emojiName ask clears activeGoal decision priorTask))
    (fun (_ : ConnectorRuntimeResult) _ => False).
Proof.
  intros He; assert (Hs : same_message event.1) by (by rewrite He).
  eapply (triple_then _ _ _ _ (fun _ => quiet own)); [destruct (shouldStartProgressBeforeAddressing _); [apply triple_progress|by apply triple_goes_on]|].
  intros ?; cbn beta; eapply triple_then; [apply triple_checks, own_touched|]; intros ?; cbn beta.
  eapply (triple_then _ _ _ _ (fun _ => quiet T)).
  { eapply triple_then; [apply triple_engaged|]; intros ?; cbn beta.
    eapply triple_then; [by apply triple_settleOpen|intros ?; by apply triple_goes_on]. }
  intros [[emojiName ask] clears]; cbn beta iota.
  eapply triple_then; [apply triple_goal|]; intros [activeGoal emojiName']; cbn [fst]; apply triple_fact; intros Hg.
  eapply triple_then; [by apply triple_addressing|]; intros [[event' decision] emojiName'']; cbn [fst]; apply triple_fact; intros Hs'.
  eapply triple_then; [by apply triple_prepare|]; intros [event'' priorTask]; cbn [fst]; apply triple_fact; intros Hs''.
  eapply triple_then; [by apply triple_checks|]; intros ?; cbn beta; by apply triple_launchTurn.
Qed.

(** *** The admission *)

Lemma triple_duplicate : triple ends (quiet own) (suppressDuplicateSourceTaskIfNeeded env event0 personID) (fun _ => quiet own).
Proof.
  eapply triple_then; [apply (triple_reads _ _ _ (fun found w => (forall run, found = Some run -> own (Run_ID run)) /\ quiet own w))|].
  - intros w Hw; split; [|done]; intros run Hf; unfold FindTaskRunBySourceReference in Hf; destruct (bool_decide _); [done|].
    apply fst_latest_where_Some in Hf as [Hin _]; apply (kept_own (turn_store w)); [apply Hw|by apply listed_run].
  - intros [run|]; cbn beta; apply triple_fact; intros Ho; [|by apply triple_goes_on]; specialize (Ho _ eq_refl).
    eapply triple_then; [by apply triple_append|]; intros ?; apply triple_returns; intros w Hw; by eapply quiet_ends; [apply own_touched|].
Qed.

Lemma cancelPendingSourceTask_own sourceReference st : only_touches own st0 st ->
  only_touches own st0 (cancelPendingSourceTask personID sourceReference st).
Proof.
  intros Ht; unfold cancelPendingSourceTask; destruct (FindTaskRunBySourceReference _ _ _) as [run|] eqn:Hf; [|done].
  destruct (bool_decide _); [done|]; unfold FindTaskRunBySourceReference in Hf; destruct (bool_decide _); [done|].
  apply fst_latest_where_Some in Hf as [Hin _]; assert (Ho : own (Run_ID run)) by (apply (kept_own st); [done|by apply listed_run]).
  apply append_own; [|done]; destruct (isTaskControlActiveStatus _); [by apply cancel_own|done].
Qed.

Lemma cancelPreviousMessages_own event st : only_touches own st0 st ->
  only_touches own st0 (cancelPreviousMessages personID event st).
Proof.
  unfold cancelPreviousMessages; revert st; induction (PreviousMessages event) as [|message messages IH]; intros st Ht; [done|].
  by apply IH, cancelPendingSourceTask_own.
Qed.

Lemma cancelActive_own ids reason st : only_touches own st0 st ->
  only_touches own st0 (CancelActiveTaskRuns ids personID reason st).1 /\
  Forall (fun run => own (Run_ID run)) (CancelActiveTaskRuns ids personID reason st).2.
Proof.
  intros Ht; split; [eapply within_own; [exact Ht|apply cancel_active_touches]|].
  apply Forall_forall; intros run Hrun; apply (kept_own st); [done|by eapply cancelled_runs].
Qed.

Lemma applyTaskControlIntent_own intent reason st : only_touches own st0 st ->
  only_touches own st0 (applyTaskControlIntent intent reason personID event0 st).1 /\
  Forall (fun run => own (Run_ID run)) (cancelledTaskRuns (applyTaskControlIntent intent reason personID event0 st).2).
Proof.
  intros Ht; unfold applyTaskControlIntent; destruct intent; [by split|cbv iota|].
  - unfold cancelLatestStopScopedTask, latestStopScopedTask; destruct (activeTaskRunsForPerson_spec personID st) as [Ha _].
    destruct (activeTaskRunsForPerson personID st) as [st1 runs]; cbn [fst snd] in *.
    assert (Ht1 : only_touches own st0 st1) by (by eapply within_own).
    destruct (fst <$> _) as [run|]; [|by split].
    match goal with |- context [CancelActiveTaskRuns ?ids personID ?r st1] => pose proof (cancelActive_own ids r st1 Ht1) as Hc end.
    by destruct (CancelActiveTaskRuns _ _ _ _) as [st2 cancelledRuns].
  - match goal with |- context [CancelActiveTaskRuns ?ids personID ?r st] => pose proof (cancelActive_own ids r st Ht) as Hc end.
    by destruct (CancelActiveTaskRuns _ _ _ _) as [st2 cancelledRuns].
Qed.

Lemma record_stops_own selection runs st : Forall (fun run => own (Run_ID run)) runs -> only_touches own st0 st ->
  only_touches own st0 (foldl (record_stop event0 selection) st runs).
Proof.
  intros Hall; revert st; induction Hall as [|run runs Ho Hall IH]; intros st Ht; [done|]; cbn [foldl]; apply IH.
  unfold record_stop; by repeat (apply append_own; [|done]).
Qed.

Lemma triple_control : triple ends (quiet own) (handleTaskControlIfRequested env sendReply event0 personID) (fun _ => quiet own).
Proof.
  assert (Hc : forall intent, triple ends (quiet own)
    (selection ← on_store (applyTaskControlIntent intent "explicit control command" personID event0);
     changes_store (fun st => foldl (record_stop event0 selection) st (cancelledTaskRuns selection));;
     sent ← say env sendReply event0 (replyTargetOf event0)
       (MkReply (taskControlReply selection (responseLanguageForEvent event0)) "" "" "" "" [] [] "" None);
     match sent with
     | Err _ => returns (handled env "task_control_reply_failed" "" "")
     | Ok dispatchID => returns (handled env "task_control" "" dispatchID)
     end) (fun _ : unit => quiet own)).
  { intros intent; eapply triple_then; [apply (triple_store own _ (fun selection => Forall (fun run => own (Run_ID run)) (cancelledTaskRuns selection)))|].
    { intros st Ht; by apply applyTaskControlIntent_own. }
    intros selection; cbn beta; apply triple_fact; intros Hall.
    eapply triple_then; [apply triple_changes; intros st Ht; by apply record_stops_own|]; intros ?; cbn beta.
    eapply triple_then; [apply triple_say; by left|].
    intros [id|e]; apply triple_returns; intros w Hw; by eapply spoken_ends; [apply own_touched|]. }
  unfold handleTaskControlIfRequested; destruct (exactTaskControlIntent _); [by apply triple_goes_on|apply Hc|apply Hc].
Qed.

End of_person.

(** The sender that is admitted is the person the account is known as from then on. *)
Lemma admitted_sender event s personID : admitted event s = Some personID ->
  exists s' authorization, authorizeSender env event s = (s', Ok authorization) /\ IsAllowed authorization = true /\
    Authorized_PersonID authorization = personID /\ turn_personID s' (adapterName env) event = personID.
Proof.
  unfold admitted, authorizeSender, turn_personID.
  destruct (ResolvePersonIDByPlatformAccount _ _ s) as [p|] eqn:Hp.
  { cbn; intros [= <-]; eexists _, _; split_and!; [done|done|done|by rewrite Hp]. }
  destruct (ResolveIdentity env (SenderID event)) as [account|e]; [|done]; cbv zeta.
  destruct (RememberPlatformAccount _ s) as [s1 remembered].
  destruct (ResolvePersonIDByPlatformAccount _ _ s1) as [p|] eqn:Hp1.
  { cbn; intros [= <-]; eexists _, _; split_and!; [done|done|done|by rewrite Hp1]. }
  unfold askTheHostAboutUnknownAccount; destruct (unknownAccountResolver env) as [resolve|]; [|done].
  destruct (resolve _ _ _) as [[]|]; [|done|done]; destruct (RememberPlatformAccount _ s1) as [s2 remembered2]; cbn [Account.Platform Account.ExternalUserID].
  destruct (ResolvePersonIDByPlatformAccount _ _ s2) as [p|] eqn:Hp2; [|done].
  cbn; intros [= <-]; eexists _, _; split_and!; [done|done|done|by rewrite Hp2].
Qed.

Lemma withGatewayDecision_store event g :
  gate_store (withGatewayDecision event g).1 = gate_store g /\ (withGatewayDecision event g).2.1 = event.1 /\
  gate_calls (withGatewayDecision event g).1 = gate_calls g.
Proof. unfold withGatewayDecision; by destruct event.2. Qed.

(** The world a turn of someone known starts in, but for the identities it reads. *)
Definition starts (personID : string) (event : PlatformInboundEvent) (st0 : ApprovalGate.Store) (replies0 : list ReplyAct) (w : TurnWorld) : Prop :=
  turn_store w = st0 /\ world_replies w = replies0 /\ world_narrator w = None /\ admitted event (world_identity w) = Some personID.

Lemma triple_admit personID event st0 replies0 :
  triple (ends personID event st0 replies0) (starts personID event st0 replies0) (admitInboundTurn env sendReply event)
    (fun p w => p = personID /\ quiet personID event st0 replies0 (own personID st0) w).
Proof.
  eapply (triple_then _ _ _ _ (fun authorized w => (exists authorization, authorized = Ok authorization /\ IsAllowed authorization = true /\
    Authorized_PersonID authorization = personID) /\ quiet personID event st0 replies0 (own personID st0) w)).
  - intros w (Hst & Hr & Hn & Ha); destruct (admitted_sender _ _ _ Ha) as (s' & authorization & Hauth & Hallowed & Hperson & Hknown).
    rewrite Hauth; split; [by exists authorization|]; constructor; [|done|done|done].
    change (turn_store _) with (turn_store w); rewrite Hst; apply only_touches_refl.
  - intros authorized; cbn beta; apply triple_fact; intros (authorization & -> & Hallowed & Hperson); rewrite Hallowed; cbn [negb]; cbv zeta.
    rewrite Hperson; eapply triple_then; [apply triple_duplicate|]; intros ?; cbn beta.
    eapply triple_then; [apply triple_changes; intros st Ht; by apply cancelPreviousMessages_own|]; intros ?; cbn beta.
    eapply triple_then; [apply triple_control|]; intros ?; by apply triple_goes_on.
Qed.

(** C7. A message works for the person who sent it.  For a message of someone known, which is
    no retry, the turn up to its launch writes only to task runs of that person, and to the run
    whose question their reply answers.  It ends with a result, after one reply at most, to the
    conversation and the message that asked; or in a launch for that person, with nothing said
    yet, in a new run, a run of theirs, or one that a goal recorded in a run of theirs names. *)
Theorem turns_stay_with_their_sender event decision personID w :
  TaskRetry event = None -> world_narrator w = None -> admitted event (world_identity w) = Some personID ->
  match until_launch env sendReply (event, decision) w with
  | (w', inl e) => ends personID event (turn_store w) (world_replies w) e w'
  | (_, inr _) => False
  end.
Proof.
  intros Hretry Hn Ha; unfold until_launch, on_gate, mbind at 1, Handling_bind.
  destruct (withGatewayDecision_store (event, decision) (world_gate w)) as (Hst & He & _).
  destruct (withGatewayDecision (event, decision) (world_gate w)) as [g judged]; cbn [fst snd] in Hst, He.
  rewrite He, Hretry.
  assert (Ht : triple (ends personID event (turn_store w) (world_replies w)) (starts personID event (turn_store w) (world_replies w))
    (inbound_turn env sendReply judged) (fun _ _ => False)).
  { eapply triple_then; [rewrite He; apply triple_admit|]; intros p; cbn beta; apply triple_fact; intros ->; by apply triple_admitted. }
  specialize (Ht (set_world_gate g w)); destruct (inbound_turn _ _ _ _) as [w' [e|r]]; apply Ht; split_and!; done.
Qed.

(** What the turn keeps when its sender is not known. *)
Lemma admit_stranger event w : world_narrator w = None -> admitted event (world_identity w) = None ->
  match admitInboundTurn env sendReply event w with
  | (w', inl (Returned _)) =>
    only_touches (fun _ => False) (turn_store w) (turn_store w') /\ gate_calls (world_gate w') = gate_calls (world_gate w) /\
    world_disk w' = world_disk w /\ world_acts w' = world_acts w /\
    exists act, world_replies w' = (world_replies w ++ option_list act)%list /\
      forall a, act = Some a -> exists reply, carries (replyTargetOf event) reply a /\ Reply_TaskRunID reply = "" /\
        ReplyKind reply = connectorReplyKindPermissionNotice /\ shouldIgnoreUninvitedAddressing event = false
  | _ => False
  end.
Proof.
  intros Hn; unfold admitted, admitInboundTurn, mbind at 1, Handling_bind at 1.
  destruct (authorizeSender env event (world_identity w)) as [s [authorization|e]]; cbn [snd].
  2: { intros _; split_and!; [apply only_touches_refl|done|done|done|]; exists None; by rewrite app_nil_r. }
  destruct (IsAllowed authorization); [done|]; intros _; cbn [negb]; unfold refuseUnauthorizedSender.
  destruct (shouldIgnoreUninvitedAddressing event).
  { split_and!; [apply only_touches_refl|done|done|done|]; exists None; by rewrite app_nil_r. }
  unfold mbind, Handling_bind, say; cbn [world_narrator set_world_identity]; rewrite Hn; cbn [takeOverSending].
  set (reply := MkReply _ _ _ _ _ _ _ _ _); set (w0 := set_world_identity s w).
  pose proof (Hsend (replyTargetOf event) reply (delivery_of w0)) as Hs.
  destruct (sendReply _ reply _) as [d r]; destruct Hs as (Ht & act & Hact & Hc).
  assert (Hk : only_touches (fun _ => False) (turn_store w) (reply_store d)).
  { eapply only_touches_weaken; [|exact Ht]; by intros id [_ Hb]. }
  destruct r as [id|e]; (split_and!; [exact Hk|done|done|done|]); exists act; (split; [exact Hact|]); intros a Ha.
  - exists reply; split_and!; [by apply Hc|done|done|done].
  - congruence.
Qed.

(** C20. A stranger starts nothing.  For a message whose sender nobody knows (or the directory
    cannot be asked about), which is no retry, the turn ends with a result: no task run is
    written to, the model is not asked, nothing is imported, no reaction or progress is shown,
    and at most one reply is said, the permission notice, where the message addresses the agent
    in a way that may be answered. *)
Theorem strangers_start_nothing event decision w :
  TaskRetry event = None -> world_narrator w = None -> admitted event (world_identity w) = None ->
  match until_launch env sendReply (event, decision) w with
  | (w', inl (Returned _)) =>
    only_touches (fun _ => False) (turn_store w) (turn_store w') /\ gate_calls (world_gate w') = gate_calls (world_gate w) /\
    world_disk w' = world_disk w /\ world_acts w' = world_acts w /\
    exists act, world_replies w' = (world_replies w ++ option_list act)%list /\
      forall a, act = Some a -> exists reply, carries (replyTargetOf event) reply a /\ Reply_TaskRunID reply = "" /\
        ReplyKind reply = connectorReplyKindPermissionNotice /\ shouldIgnoreUninvitedAddressing event = false
  | _ => False
  end.
Proof.
  intros Hretry Hn Ha; unfold until_launch, on_gate, mbind at 1, Handling_bind at 1.
  pose proof (withGatewayDecision_store (event, decision) (world_gate w)) as Hd.
  destruct (withGatewayDecision (event, decision) (world_gate w)) as [g judged]; destruct Hd as (Hst & He & Hcalls); cbn [fst snd] in Hst, He, Hcalls.
  rewrite He, Hretry; unfold inbound_turn, mbind at 1, Handling_bind at 1; rewrite He.
  pose proof (admit_stranger event (set_world_gate g w) Hn Ha) as Hs.
  destruct (admitInboundTurn _ _ _ _) as [w' [[r|plan]|p]]; [|destruct Hs|destruct Hs].
  destruct Hs as (Ht & Hg & Hrest); split_and!; [|by rewrite Hg|apply Hrest..].
  unfold turn_store in *; cbn [world_gate set_world_gate] in Ht; by rewrite Hst in Ht.
Qed.

(** The admission of someone known, and what comes before the person is returned. *)
Lemma until_launch_known event decision personID w :
  TaskRetry event = None -> admitted event (world_identity w) = Some personID ->
  exists s g, gate_store g = turn_store w /\ gate_calls g = gate_calls (world_gate w) /\
    turn_personID s (adapterName env) event = personID /\
    forall w1 e, (suppressDuplicateSourceTaskIfNeeded env event personID;;
        changes_store (cancelPreviousMessages personID event);;
        handleTaskControlIfRequested env sendReply event personID) (set_world_identity s (set_world_gate g w)) = (w1, inl e) ->
      until_launch env sendReply (event, decision) w = (w1, inl e).
Proof.
  intros Hretry Ha; destruct (admitted_sender _ _ _ Ha) as (s & authorization & Hauth & Hallowed & Hperson & Hknown).
  destruct (withGatewayDecision_store (event, decision) (world_gate w)) as (Hst & He & Hcalls).
  exists s, (withGatewayDecision (event, decision) (world_gate w)).1; split_and!; [done|done|done|]; intros w1 e Hrun.
  unfold until_launch, on_gate, mbind at 1, Handling_bind at 1.
  destruct (withGatewayDecision (event, decision) (world_gate w)) as [g judged]; cbn [fst snd] in *.
  rewrite He, Hretry; unfold inbound_turn, mbind at 1, Handling_bind at 1; rewrite He.
  unfold admitInboundTurn, mbind at 1, Handling_bind at 1; cbn [world_identity set_world_gate]; rewrite Hauth, Hallowed; cbn [negb]; cbv zeta.
  rewrite Hperson; by rewrite (steps_end _ _ _ _ _ _ _ Hrun).
Qed.

(** C22. A message that a task run already stands for is answered by that run: a second copy
    launches nothing, asks the model nothing, says nothing and shows nothing; its result is
    that of a duplicate and names the run, and only the record of it is appended to the run. *)
Theorem second_copies_launch_nothing event decision personID taskRun w :
  TaskRetry event = None -> admitted event (world_identity w) = Some personID ->
  FindTaskRunBySourceReference personID (DedupeKey event) (turn_store w) = Some taskRun ->
  exists w', until_launch env sendReply (event, decision) w =
      (w', inl (Returned (Ok (MkResult true (adapterName env) true false "duplicate_source_reference" (Run_ID taskRun) "")))) /\
    turn_store w' = AppendEvent (Run_ID taskRun) (HeldCalls.MkEvent TaskEventConnectorDuplicateSourceSuppressed
      (marshal_event_body [("messageID", MessageID event); ("sourceReference", DedupeKey event)])) (turn_store w) /\
    world_replies w' = world_replies w /\ gate_calls (world_gate w') = gate_calls (world_gate w) /\
    world_disk w' = world_disk w /\ world_acts w' = world_acts w.
Proof.
  intros Hretry Ha Hf; destruct (until_launch_known event decision personID w Hretry Ha) as (s & g & Hst & Hcalls & _ & Hrun).
  eexists; split; [apply Hrun; unfold suppressDuplicateSourceTaskIfNeeded, mbind, Handling_bind, reads|].
  - unfold turn_store in *; cbn [world_gate set_world_gate set_world_identity]; rewrite Hst, Hf; reflexivity.
  - unfold turn_store in *; cbn; rewrite Hst; done.
Qed.

(** A command is carried out, and is not work.  A message that is a stop command, and no
    second copy, ends with the result of task control: it launches nothing and asks the model
    nothing, writes only to task runs of the person who sent it, and is answered once at most,
    by a reply of no task. *)
Theorem commands_are_carried_out_at_once event decision personID w :
  TaskRetry event = None -> world_narrator w = None -> admitted event (world_identity w) = Some personID ->
  FindTaskRunBySourceReference personID (DedupeKey event) (turn_store w) = None ->
  exactTaskControlIntent (Event_Prompt event) <> TaskControlIntentNone ->
  exists w' reason dispatchID, until_launch env sendReply (event, decision) w = (w', inl (Returned (Ok (handled env reason "" dispatchID)))) /\
    (reason = "task_control" \/ reason = "task_control_reply_failed" /\ dispatchID = "") /\
    gate_calls (world_gate w') = gate_calls (world_gate w) /\ world_acts w' = world_acts w /\
    only_touches (runs_of personID (turn_store w)) (turn_store w) (turn_store w') /\
    said_once (fun _ => False) (replyTargetOf event) (world_replies w) (world_replies w').
Proof.
  intros Hretry Hn Ha Hf Hintent; destruct (until_launch_known event decision personID w Hretry Ha) as (s & g & Hst & Hcalls & _ & Hrun).
  set (w0 := set_world_identity s (set_world_gate g w)) in Hrun.
  set (st1 := cancelPreviousMessages personID event (turn_store w)).
  assert (Hst1 : only_touches (own personID (turn_store w)) (turn_store w) st1) by apply cancelPreviousMessages_own, only_touches_refl.
  pose proof (applyTaskControlIntent_own personID event (turn_store w) (exactTaskControlIntent (Event_Prompt event)) "explicit control command" st1 Hst1)
    as [Hst2 Hall].
  destruct (applyTaskControlIntent _ _ _ _ _) as [st2 selection] eqn:Happly; cbn [fst snd] in Hst2, Hall.
  pose proof (record_stops_own personID event (turn_store w) selection _ _ Hall Hst2) as Hst3; set (st3 := foldl _ _ _) in Hst3.
  set (w3 := set_world_gate (set_store st3 g) (set_world_identity s w)).
  set (reply := MkReply (taskControlReply selection (responseLanguageForEvent event)) "" "" "" "" [] [] "" None).
  pose proof (Hsend (replyTargetOf event) reply (delivery_of w3)) as Hs.
  destruct (sendReply (replyTargetOf event) reply (delivery_of w3)) as [d r] eqn:Hsent; destruct Hs as (Ht & act & Hact & Hc).
  assert (Hk : only_touches (runs_of personID (turn_store w)) (turn_store w) (reply_store d)).
  { eapply only_touches_trans; [exact Hst3|]; eapply only_touches_weaken; [|exact Ht]; by intros id [_ Hb]. }
  assert (Hend : (suppressDuplicateSourceTaskIfNeeded env event personID;;
        changes_store (cancelPreviousMessages personID event);;
        handleTaskControlIfRequested env sendReply event personID) w0 =
      (set_world_narrator None (with_delivery d w3), inl (Returned (Ok
        match r with Ok dispatchID => handled env "task_control" "" dispatchID | Err _ => handled env "task_control_reply_failed" "" "" end)))).
  { unfold suppressDuplicateSourceTaskIfNeeded, mbind, Handling_bind, reads, mret, Handling_ret, changes_store, on_store.
    unfold w0, turn_store in *; cbn [world_gate set_world_gate set_world_identity set_store gate_store].
    rewrite Hst, Hf; cbn [world_gate set_world_gate set_world_identity set_store gate_store]; rewrite Hst; fold st1.
    unfold handleTaskControlIfRequested, mbind, Handling_bind, changes_store, on_store, turn_store, say.
    destruct (exactTaskControlIntent _); [done| |];
      cbn [world_gate set_world_gate set_world_identity set_store gate_store]; rewrite Happly;
      cbn [world_gate set_world_gate set_world_identity set_store gate_store world_narrator]; rewrite Hn; cbn [takeOverSending]; fold st3.
    all: fold reply; change (delivery_of _) with (delivery_of w3); rewrite Hsent; by destruct r. }
  apply Hrun in Hend; eexists _, (match r with Ok _ => "task_control" | Err _ => "task_control_reply_failed" end), (match r with Ok id => id | Err _ => "" end).
  split; [rewrite Hend; by destruct r|]; split_and!; [destruct r; tauto|exact Hcalls|done|exact Hk|].
  exists act; split; [exact Hact|]; intros a Hact'; exists reply; split; [|by left].
  destruct r as [id|e]; [by apply Hc|congruence].
Qed.

End turns.

(** *** The replies *)

Section replies.
Context `{UnicodeTables, DecisionLibrary, LedgerLaws, TaskDocuments, LaunchDocuments, ReplyEvents, ReplyDocuments, TurnEvents}.
Context (env : TurnEnv) (mute : DeliveryWorld -> bool) (sendReply : Sender) (Hsend : says_once dispatched mute sendReply).

(** What is kept by a step that neither speaks nor writes to the ledger. *)
Definition same_talk (w w' : TurnWorld) : Prop :=
  turn_store w' = turn_store w /\ world_replies w' = world_replies w /\ world_narrator w' = world_narrator w /\
  world_calls w' = world_calls w /\ world_sources w' = world_sources w.

Lemma clear_same_talk event emojiName w : exists w', clearEngagedAckReaction env event emojiName w = (w', inr tt) /\ same_talk w w'.
Proof.
  unfold clearEngagedAckReaction; destruct (blank emojiName); [by eexists|]; destruct (RemoveReaction env) as [remove|]; [|by eexists].
  destruct (remove _) as [e|]; by eexists.
Qed.

(** The sender is asked to say a reply of a run; what it answers is what became of the reply: its message, which is
    reported, or an error, which is recorded on the run and nothing was said. *)
Definition told (event : PlatformInboundEvent) (target : ReplyTarget) (reply : OutboundReply) (taskRunID dispatchID : string) (w w' : TurnWorld) : Prop :=
  match takeOverSending (turn_platform env) (visit_paths env) event sendReply target reply (world_narrator w) (delivery_of w) with
  | (narrator, d, Ok id) => dispatchID = id /\ turn_store w' = reply_store d /\ world_narrator w' = narrator /\
      said (turn_platform env) mute target reply (world_narrator w) id (delivery_of w) (delivery_of w') /\ speaks_plainly narrator
  | (_, d, Err e) => dispatchID = "" /\ world_replies w' = world_replies w /\ world_narrator w' = world_narrator w /\
      exists body, turn_store w' = appendConnectorReplyEvent taskRunID TaskEventConnectorReplyFailed (connectorReplyEventBody event body "" "" e) (reply_store d)
  end.

(** Nothing is said, and an event of one of the names tells why. *)
Definition unsaid (names : list string) (taskRunID : string) (w w' : TurnWorld) : Prop :=
  world_replies w' = world_replies w /\ world_narrator w' = world_narrator w /\
  exists name body, name ∈ names /\ turn_store w' = AppendEvent taskRunID (HeldCalls.MkEvent name body) (turn_store w).

Lemma say_answers event target reply w : exists w', say env sendReply event target reply w = (w', inr
    (takeOverSending (turn_platform env) (visit_paths env) event sendReply target reply (world_narrator w) (delivery_of w)).2) /\
  delivery_of w' = (takeOverSending (turn_platform env) (visit_paths env) event sendReply target reply (world_narrator w) (delivery_of w)).1.2 /\
  world_narrator w' = (takeOverSending (turn_platform env) (visit_paths env) event sendReply target reply (world_narrator w) (delivery_of w)).1.1.
Proof.
  unfold say; destruct (takeOverSending _ _ _ _ _ _ _ _) as [[narrator d] r]; eexists; split; [reflexivity|]; by destruct d.
Qed.

(** A reply that is sent, or whose failure is recorded. *)
Lemma say_told event target reply body taskRunID w : ReplyKind reply <> connectorReplyKindCheckpoint ->
  exists w' r, say env sendReply event target reply w = (w', inr r) /\
    match r with
    | Ok id => told event target reply taskRunID id w w'
    | Err e => exists w2, append_reply_event taskRunID TaskEventConnectorReplyFailed (connectorReplyEventBody event body "" "" e) w' = (w2, inr tt) /\
        told event target reply taskRunID "" w w2
    end.
Proof.
  intros Hkind; destruct (say_answers event target reply w) as (w' & Hw & Hd & Hn); exists w', (takeOverSending (turn_platform env) (visit_paths env) event
    sendReply target reply (world_narrator w) (delivery_of w)).2; split; [done|]; unfold told.
  pose proof (takeOverSending_said (turn_platform env) (visit_paths env) event mute sendReply Hsend target reply (world_narrator w) (delivery_of w) Hkind) as Hs.
  destruct (takeOverSending _ _ _ _ _ _ _ _) as [[narrator d] [id|e]]; cbn [fst snd] in *; destruct Hs as (_ & _ & Hs).
  - assert (Hst : turn_store w' = reply_store d) by (by rewrite <- Hd); rewrite Hd; destruct Hs; by split_and!.
  - destruct Hs as [-> Hr]; eexists; split; [reflexivity|]; split_and!; [done| | |].
    + transitivity (reply_acts (delivery_of w')); [by destruct w'|]; by rewrite Hd, Hr.
    + transitivity (world_narrator w'); [by destruct w'|done].
    + exists body; rewrite <- Hd; by destruct w'.
Qed.

Lemma told_touches event target reply taskRunID dispatchID w w' : Reply_TaskRunID reply = taskRunID -> ReplyKind reply <> connectorReplyKindCheckpoint ->
  told event target reply taskRunID dispatchID w w' -> only_touches (fun id => id = taskRunID) (turn_store w) (turn_store w').
Proof.
  intros <- Hkind; unfold told.
  pose proof (takeOverSending_said (turn_platform env) (visit_paths env) event mute sendReply Hsend target reply (world_narrator w) (delivery_of w) Hkind) as Hs.
  destruct (takeOverSending _ _ _ _ _ _ _ _) as [[narrator d] [id|e]]; destruct Hs as (Ht & _).
  - intros (_ & -> & _); eapply only_touches_weaken; [|exact Ht]; by intros i [-> _].
  - intros (_ & _ & _ & body & ->); eapply only_touches_weaken; [|eapply only_touches_trans; [exact Ht|apply appendConnectorReplyEvent_touches]]; by intros i [-> _].
Qed.

Lemma told_then_cleared event' emojiName event target reply taskRunID dispatchID w w1 : told event target reply taskRunID dispatchID w w1 ->
  exists w2, clearEngagedAckReaction env event' emojiName w1 = (w2, inr tt) /\ told event target reply taskRunID dispatchID w w2.
Proof.
  destruct (clear_same_talk event' emojiName w1) as (w2 & Hw2 & Hst & Hr & Hn & Hc & Hso); intros Ht; exists w2; split; [done|]; revert Ht; unfold told.
  destruct (takeOverSending _ _ _ _ _ _ _ _) as [[narrator d] [id|e]]; rewrite Hst, Hn, ?Hr; [|done].
  assert (Hd : delivery_of w2 = delivery_of w1) by (destruct w1, w2; unfold delivery_of, turn_store in *; cbn in *; congruence); by rewrite Hd.
Qed.

(** *** What a run has to say *)

(** A run is not spoken of: its agent asked for silence and it waits for nobody, it was cancelled, a new message
    superseded it, or it is done and its agent has answered here already. *)
Definition keeps_silent (event : PlatformInboundEvent) (target : ReplyTarget) (turnResult : TurnResult) (st : ApprovalGate.Store) : Prop :=
  let taskRun := Turn_TaskRun turnResult in
  (blank (ReplySuppressionReason turnResult) = false /\ Run_Status taskRun <> TaskStatusWaitingApproval /\ Run_Status taskRun <> TaskStatusWaitingUserInput) \/
  Run_Status taskRun = TaskStatusCancelled \/
  (exists stored, FindTaskRun (Run_ID taskRun) st = Some stored /\ Run_Status stored = TaskStatusCancelled) \/
  (Run_Status taskRun = TaskStatusInterrupted /\ TrimSpace (Run_FailureReason taskRun) = "superseded_by_new_message") \/
  (Run_Status taskRun = TaskStatusCompleted /\
     agentAlreadyReplied (Run_ID taskRun) [Event_ConversationID event; Target_ConversationID target; Target_ReplyTargetID target] st = true).

Lemma reply_decision_spec event target turnResult st :
  match (reply_decision event target turnResult st).1 with
  | taskReplyDecisionSendFinal => Run_Status (Turn_TaskRun turnResult) = TaskStatusCompleted /\ ~ keeps_silent event target turnResult st
  | taskReplyDecisionSendUserNotice => Run_Status (Turn_TaskRun turnResult) <> TaskStatusCompleted /\ ~ keeps_silent event target turnResult st
  | _ => keeps_silent event target turnResult st
  end.
Proof.
  unfold reply_decision, decideTaskReply, keeps_silent; set (st' := Run_Status (Turn_TaskRun turnResult)).
  assert (Hcancel : taskRunWasCancelled (Run_ID (Turn_TaskRun turnResult)) st = true <->
    exists stored, FindTaskRun (Run_ID (Turn_TaskRun turnResult)) st = Some stored /\ Run_Status stored = TaskStatusCancelled).
  { unfold taskRunWasCancelled; destruct (FindTaskRun _ _) as [stored|].
    - rewrite bool_decide_eq_true; split; [by exists stored|by intros (? & [= <-] & ?)].
    - split; [done|by intros (? & ? & _)]. }
  set (replied := agentAlreadyReplied _ _ _); set (was_cancelled := exists stored, _) in *; set (cancelled := taskRunWasCancelled _ _) in *; clearbody was_cancelled.
  assert (Hwas : was_cancelled \/ cancelled = false) by (destruct cancelled; [left; by apply Hcancel|by right]).
  assert (Hnot : cancelled = false -> ~ was_cancelled) by (intros Hc Hw; apply Hcancel in Hw; congruence).
  clear Hcancel; destruct (blank (ReplySuppressionReason turnResult)), cancelled, replied; cbn [negb andb orb];
    repeat case_bool_decide; cbn [negb andb orb fst]; repeat case_bool_decide; cbn; intuition congruence.
Qed.

(** What is said: of a completed run the message it finished with, of any other its notice, if there is one. *)
Definition message_of (turnResult : TurnResult) : result string string :=
  if bool_decide (Run_Status (Turn_TaskRun turnResult) = TaskStatusCompleted) then Ok (FinishMessage turnResult) else
  match userNoticeReplyMessage turnResult with Ok (message, _) => Ok message | Err reason => Err reason end.

Lemma notice_reply_fields event taskRunID turnResult st :
  match userNoticeReplyMessage turnResult with
  | Ok (message, _) => (notice_reply event taskRunID turnResult st).2 = "" /\ ScheduleStore.Message (notice_reply event taskRunID turnResult st).1 = message /\
      Reply_TaskRunID (notice_reply event taskRunID turnResult st).1 = taskRunID /\
      ReplyKind (notice_reply event taskRunID turnResult st).1 = connectorReplyKindUserNotice /\
      Reply_Attachments (notice_reply event taskRunID turnResult st).1 = Turn_Attachments turnResult
  | Err reason => (notice_reply event taskRunID turnResult st).2 = reason /\ reason <> ""
  end.
Proof.
  unfold notice_reply, UserNoticeReply; destruct (userNoticeReplyMessage turnResult) as [[message notice]|reason] eqn:Hm; cbn; [done|]; split; [done|].
  intros ->; unfold userNoticeReplyMessage in Hm; by repeat case_match.
Qed.

Lemma sendUserNoticeReply_told event taskRunID target turnResult w :
  exists w' sent, sendUserNoticeReply env sendReply event taskRunID target turnResult w = (w', inr sent) /\
    match userNoticeReplyMessage turnResult with
    | Ok _ => told event target (notice_reply event taskRunID turnResult (turn_store w)).1 taskRunID (default "" sent) w w'
    | Err _ => sent = None /\ world_replies w' = world_replies w /\ world_narrator w' = world_narrator w /\ exists body,
        turn_store w' = appendConnectorReplyEvent taskRunID TaskEventConnectorReplySuppressed body (turn_store w)
    end.
Proof.
  unfold sendUserNoticeReply, mbind, Handling_bind, reads, mret, Handling_ret; pose proof (notice_reply_fields event taskRunID turnResult (turn_store w)) as Hf.
  destruct (notice_reply event taskRunID turnResult (turn_store w)) as [reply missingReason]; cbn [fst snd] in *.
  destruct (userNoticeReplyMessage turnResult) as [[message notice]|reason].
  - destruct Hf as (-> & _ & Hid & Hkind & _); rewrite bool_decide_eq_true_2 by done; cbn [negb].
    destruct (say_told event target reply reply taskRunID w ltac:(by rewrite Hkind)) as (w1 & [id|e] & -> & Hs); [by exists w1, (Some id)|].
    destruct Hs as (w2 & -> & Ht); by exists w2, None.
  - destruct Hf as [-> Hne]; rewrite bool_decide_eq_false_2 by done; cbn [negb]; unfold append_reply_event, changes_store, on_store.
    eexists _, None; split; [reflexivity|]; split_and!; [done..|]; by eexists.
Qed.

Lemma sendCompletedTaskReply_told event taskRunID target turnResult w :
  exists w' r, sendCompletedTaskReply env sendReply event taskRunID target turnResult w = (w', inr r) /\
    Handled r = true /\ Result_TaskRunID r = taskRunID /\ told event target (completed_reply event taskRunID turnResult) taskRunID (ReplyDispatchID r) w w'.
Proof.
  unfold sendCompletedTaskReply, mbind, Handling_bind, mret, Handling_ret; set (reply := completed_reply _ _ _).
  destruct (say_told event target reply (bare_reply taskRunID connectorReplyKindSuccess) taskRunID w ltac:(done)) as (w1 & [id|e] & -> & Hs).
  - exists w1, (handled env "" taskRunID id); by split_and!.
  - destruct Hs as (w2 & -> & Ht); exists w2, (handled env "reply_failed" taskRunID ""); by split_and!.
Qed.

(** Nothing is said of a run that has no notice, which is recorded if the run has an ID. *)
Definition noticeless (taskRunID : string) (w w' : TurnWorld) : Prop :=
  world_replies w' = world_replies w /\ world_narrator w' = world_narrator w /\
  exists body, turn_store w' = appendConnectorReplyEvent taskRunID TaskEventConnectorReplySuppressed body (turn_store w).

(** C21. The reply of a task follows its run.  Whatever became of a run, dispatching its reply
    ends with a handled result that names it, and writes to no other run.  A run whose agent asked for
    silence and that waits for nobody, that was cancelled or superseded, or that is done and whose agent answered here
    already, is not spoken of, and an event on the run says so.  Of any other run that completed, its message
    is said, and of any other that did not, the notice of its state, if it has one, with the attachments of the turn: the sender is
    asked to say it to the target; if it does, the message is said once and is the one that is reported, and if it fails, nothing
    is said and the failure is recorded on the run.  Where there is no notice nothing is said, and that is recorded too. *)
Theorem task_replies_follow_their_run event target turnResult emojiName w :
  let taskRunID := Run_ID (Turn_TaskRun turnResult) in
  exists w' r, dispatchTaskReply env sendReply event target turnResult emojiName w = (w', inr r) /\
    Handled r = true /\ Result_TaskRunID r = taskRunID /\
    only_touches (fun id => id = taskRunID) (turn_store w) (turn_store w') /\
    (keeps_silent event target turnResult (turn_store w) -> ReplyDispatchID r = "" /\
       unsaid [TaskEventReplySuppressedDuplicate; TaskEventConnectorStopOutboxSuppressed; TaskEventConnectorReplySuppressed] taskRunID w w') /\
    (~ keeps_silent event target turnResult (turn_store w) ->
      match message_of turnResult with
      | Ok message => exists reply, ScheduleStore.Message reply = message /\ Reply_TaskRunID reply = taskRunID /\
          Reply_Attachments reply = Turn_Attachments turnResult /\ told event target reply taskRunID (ReplyDispatchID r) w w'
      | Err _ => ReplyDispatchID r = "" /\ noticeless taskRunID w w'
      end).
Proof.
  intros taskRunID; unfold dispatchTaskReply; fold taskRunID; unfold mbind at 1, Handling_bind at 1, reads.
  pose proof (reply_decision_spec event target turnResult (turn_store w)) as Hdec; unfold message_of.
  destruct (reply_decision event target turnResult (turn_store w)) as [kind reason]; cbn [fst snd] in *.
  assert (Hsilent : keeps_silent event target turnResult (turn_store w) -> forall name body,
    name ∈ [TaskEventReplySuppressedDuplicate; TaskEventConnectorStopOutboxSuppressed; TaskEventConnectorReplySuppressed] ->
    exists w' r, (AppendTaskEvent taskRunID name body;; mret (handled env reason taskRunID "")) w = (w', inr r) /\ Handled r = true /\ Result_TaskRunID r = taskRunID /\
      only_touches (fun id => id = taskRunID) (turn_store w) (turn_store w') /\ ReplyDispatchID r = "" /\
      unsaid [TaskEventReplySuppressedDuplicate; TaskEventConnectorStopOutboxSuppressed; TaskEventConnectorReplySuppressed] taskRunID w w').
  { intros _ name body Hname; eexists _, _; split; [reflexivity|]; split_and!; [done|done|apply append_touches|done|].
    split_and!; [done|done|]; by exists name, body. }
  destruct kind.
  all: try (edestruct (Hsilent Hdec) as (w' & r & Hw & Hh & Hid & Ht & Hd & Hu); [|exists w', r; rewrite Hw; split_and!; [done..|by intros _|done]];
    first [by left|by right; left|by right; right; left]).
  - destruct Hdec as [Hstatus Hno]; rewrite bool_decide_eq_false_2 by done.
    destruct (sendUserNoticeReply_told event taskRunID target turnResult w) as (w1 & sent & Hsent & Ht).
    pose proof (notice_reply_fields event taskRunID turnResult (turn_store w)) as Hf; unfold mbind at 1, Handling_bind at 1; rewrite Hsent.
    destruct (userNoticeReplyMessage turnResult) as [[message notice]|missing].
    + destruct Hf as (_ & Hm & Hrun & Hkind & Hatt).
      assert (Hend : exists w', (match sent with Some dispatchID => clearEngagedAckReaction env event emojiName;; mret (handled env reason taskRunID dispatchID)
          | None => mret (handled env reason taskRunID "") end) w1 = (w', inr (handled env reason taskRunID (default "" sent))) /\
        told event target (notice_reply event taskRunID turnResult (turn_store w)).1 taskRunID (default "" sent) w w').
      { destruct sent as [id|]; [|by exists w1]; unfold mbind, Handling_bind.
        destruct (told_then_cleared event emojiName _ _ _ _ _ _ _ Ht) as (w2 & -> & Ht2); by exists w2. }
      destruct Hend as (w' & Hend & Ht'); exists w', (handled env reason taskRunID (default "" sent)); split_and!; [done|done|done| |done|].
      * eapply told_touches; [exact Hrun|by rewrite Hkind|exact Ht'].
      * intros _; eexists; by split_and!.
    + destruct Ht as (-> & Hr & Hn & body & Hst); exists w1, (handled env reason taskRunID ""); split_and!; [done|done|done| |done|].
      * rewrite Hst; eapply only_touches_weaken; [|apply appendConnectorReplyEvent_touches]; by intros i [-> _].
      * intros _; unfold noticeless; split_and!; [done|done|done|]; by exists body.
  - destruct Hdec as [Hstatus Hno]; rewrite bool_decide_eq_true_2 by done.
    destruct (sendCompletedTaskReply_told event taskRunID target turnResult w) as (w1 & r & Hsent & Hh & Hid & Ht).
    unfold mbind at 1, Handling_bind at 1; rewrite Hsent; unfold mbind, Handling_bind.
    assert (Hend : exists w', (if bool_decide (ReplyDispatchID r = "") then mret tt else clearEngagedAckReaction env event emojiName) w1 = (w', inr tt) /\
      told event target (completed_reply event taskRunID turnResult) taskRunID (ReplyDispatchID r) w w').
    { destruct (bool_decide (ReplyDispatchID r = "")); [by exists w1|by eapply told_then_cleared]. }
    destruct Hend as (w' & Hend & Ht'); rewrite Hend; exists w', r; split_and!; [done..| | |].
    + by eapply told_touches; [|..|exact Ht'].
    + done.
    + intros _; exists (completed_reply event taskRunID turnResult); by split_and!.
Qed.

(** A launch ends in a reply: [completes] has no other end. *)
Lemma run_launch_ends sendReply' target checkpoints run w :
  exists w' r, run_launch env sendReply' target checkpoints run w = (w', inr r).
Proof.
  assert (Htells : forall update w, exists w', tells env target update w = (w', inr tt)).
  { intros update w0; unfold tells; destruct (world_narrator w0) as [narrator|]; [|by eexists]; destruct (observe _ _ _ _ _); by eexists. }
  assert (Hsaid : forall event target checkpoint w, exists w' e, sendCheckpointReply env sendReply' event target checkpoint w = (w', inr e)).
  { intros event target' checkpoint w0; unfold sendCheckpointReply; destruct (bool_decide _ && _); [by eexists _, _|].
    unfold mbind, Handling_bind, say; destruct (takeOverSending _ _ _ _ _ _ _ _) as [[narrator d] [id|e]]; by eexists _, _. }
  revert w; induction run as [r|update run IH|checkpoint rest IH|change rest IH]; intros w; cbn [run_launch].
  - by eexists _, _.
  - unfold mbind, Handling_bind; destruct (Htells update w) as [w' ->]; apply IH.
  - destruct checkpoints as [[event target']|]; [|apply IH].
    destruct (Hsaid event target' checkpoint w) as (w' & e & ->); apply IH.
  - apply IH.
Qed.

End replies.

(** ** A concrete turn *)

Definition example_launch_documents : LaunchDocuments := {|
  ResolveResponseLanguage := fun language fallback => if bool_decide (language = "") then fallback else language;
  TaskLevelLow := "low";
  launch_context_of := fun _ => None;
  marshal_origin := Origin.ConversationID;
  retry_reference_of := fun _ => None;
  retry_source_body := fun body => body;
  retry_request_body := fun body => body;
|}.

Definition example_turn_events : TurnEvents := {|
  TaskEventConnectorDuplicateSourceSuppressed := "connector.duplicate_source_suppressed";
  TaskEventTaskSupersededByMessage := "task.superseded_by_message";
  TaskEventTaskStopRequested := "task.stop.requested";
  TaskEventTaskStopClassified := "task.stop.classified";
  TaskEventTaskStopCancelled := "task.stop.cancelled";
  TaskEventTaskBusyMessageRouted := "task.busy_message_routed";
  TaskEventTaskCancelRequested := "task.cancel_requested";
  TaskEventTaskStatusRequested := "task.status_requested";
  TaskEventTaskSteerRequested := "task.steer_requested";
  TaskEventTaskSteerResumeUnavailable := "task.steer_resume_unavailable";
  TaskEventTaskReplaced := "task.replaced";
  TaskEventTaskBusyMessageAfterFinish := "task.busy_message_after_finish";
  TaskEventReplySuppressedDuplicate := "reply.suppressed_duplicate";
  TurnRouteContinueTask := "continue_task";
  intent_text := fun intent => match intent with TaskControlIntentStop => "stop" | TaskControlIntentStopAll => "stop_all" | TaskControlIntentNone => "" end;
  marshal_values := fun fields => String.concat "," fields.*1;
  marshal_evidence := fun evidence => String.concat "," (Evidence_TaskRunID <$> evidence);
|}.

(** Slack, where a reply cannot be edited. *)
Definition slack_platform : Platform_ := MkPlatform (fun n _ _ => Ok ("d" +:+ Itoa (Z.of_nat n))) None None.

Definition slack_turn : @TurnEnv example_decisions gate_holds ledger_library :=
  @MkTurnEnv example_decisions gate_holds ledger_library example_env no_threads "slack" slack_platform map_to_list
    (fun userID => if bool_decide (userID = "U2") then Ok (Account.MkPlatformAccountIdentity "slack" "U2" "guest@example.com" "Guest" "")
       else Err "unknown user") None "en" None None None (fun personID => MkWriter false (fun _ => Err "no actor") personID (fun _ => "")) (fun _ _ => Err "offline") false (fun _ => None)
    (fun _ _ => LaunchEnded (Err "offline")) (fun request step e st => (st, MkTurnResult (sample_run "run-9" "ann" TaskStatusFailed 9) "" "" "" "" [] [])) 0.

Definition slack_world (rows : list (TaskRun * list TaskEvent)) : @TurnWorld example_decisions gate_holds ledger_library :=
  @MkTurnWorld example_decisions gate_holds ledger_library
    (@MkGateway example_decisions gate_holds ledger_library (list_to_map ((fun row => (Run_ID row.1, row)) <$> rows)) [] [] [])
    ann_on_slack ∅ newSentAttachmentSourceStore [] 0 [] false None.

Definition slack_sender : @Sender gate_holds ledger_library :=
  @recordingDelivery gate_holds ledger_library example_events map_to_list (sample_event "U1" "m1" "report")
    (@adapter_SendReply gate_holds ledger_library slack_platform).

Definition run_turn (event : PlatformInboundEvent) (rows : list (TaskRun * list TaskEvent)) :=
  @until_launch ascii_tables example_decisions gate_holds ledger_library example_ledger example_documents example_launch_documents
    example_events example_turn_events slack_turn slack_sender (event, None) (slack_world rows).

Lemma slack_sender_once : @says_once gate_holds ledger_library example_ledger dispatched never slack_sender.
Proof. apply (recordingDelivery_once _ _ _ _ _ (adapter_SendReply_once _)). Qed.

Lemma slack_sender_says_once :
  @says_at_most_once gate_holds ledger_library example_ledger slack_sender.
Proof. apply (says_once_at_most _ _ _ dispatched_carries slack_sender_once). Qed.

Definition ann_run (taskRunID : string) (status : TaskStatus) : TaskRun * list TaskEvent := (sample_run taskRunID "ann" status 5, []).

Definition is_launching (e : @TurnEnd gate_holds ledger_library + ConnectorRuntimeResult) : bool :=
  match e with inl (Launching _) => true | _ => false end.

Lemma turns_stay_with_their_sender_witness :
  exists w' plan, run_turn (sample_event "U1" "m1" "report") [ann_run "run-1" TaskStatusCompleted] = (w', inl (Launching plan)) /\
    @launched_for gate_holds ledger_library example_ledger example_documents "ann" (sample_event "U1" "m1" "report")
      (turn_store (slack_world [ann_run "run-1" TaskStatusCompleted])) plan.
Proof.
  pose proof (@turns_stay_with_their_sender ascii_tables example_decisions gate_holds ledger_library example_ledger example_ledger_laws
    example_documents example_launch_documents example_events example_turn_events slack_turn slack_sender slack_sender_says_once
    (sample_event "U1" "m1" "report") None "ann" (slack_world [ann_run "run-1" TaskStatusCompleted]) eq_refl eq_refl eq_refl) as Ht.
  fold (run_turn (sample_event "U1" "m1" "report") [ann_run "run-1" TaskStatusCompleted]) in Ht.
  assert (Hl : is_launching (run_turn (sample_event "U1" "m1" "report") [ann_run "run-1" TaskStatusCompleted]).2 = true) by (vm_compute; reflexivity).
  destruct (run_turn _ _) as [w' [[r|plan]|r]]; cbn in Hl; [discriminate|clear Hl|discriminate].
  exists w', plan; split; [reflexivity|]; by destruct Ht as (_ & _ & ?).
Defined.

Lemma strangers_start_nothing_witness :
  let turned := run_turn (sample_event "U2" "m1" "report") [ann_run "run-1" TaskStatusRunning] in
  length (world_replies turned.1) = 1%nat /\
  gate_calls (world_gate turned.1) = [] /\ world_acts turned.1 = [].
Proof.
  intros turned; split; [vm_compute; reflexivity|].
  pose proof (@strangers_start_nothing ascii_tables example_decisions gate_holds ledger_library example_ledger
    example_documents example_launch_documents example_events example_turn_events slack_turn slack_sender slack_sender_says_once
    (sample_event "U2" "m1" "report") None (slack_world [ann_run "run-1" TaskStatusRunning]) eq_refl eq_refl eq_refl) as Hs.
  fold (run_turn (sample_event "U2" "m1" "report") [ann_run "run-1" TaskStatusRunning]) in Hs; fold turned in Hs.
  destruct turned as [w' [[r|plan]|r]]; [|destruct Hs|destruct Hs]; by destruct Hs as (_ & ? & _ & ? & _).
Defined.

Definition launched_run : TaskRun * list TaskEvent :=
  (sample_run "run-1" "ann" TaskStatusRunning 5, [HeldCalls.MkEvent "agent.task_launched" "slack:C1:m1"]).

Lemma second_copies_launch_nothing_witness :
  exists w', run_turn (sample_event "U1" "m1" "report") [launched_run] =
    (w', inl (Returned (Ok (MkResult true "slack" true false "duplicate_source_reference" "run-1" "")))).
Proof.
  edestruct (@second_copies_launch_nothing ascii_tables example_decisions gate_holds ledger_library example_ledger
    example_documents example_launch_documents example_events example_turn_events slack_turn slack_sender
    (sample_event "U1" "m1" "report") None "ann" launched_run.1 (slack_world [launched_run]) eq_refl eq_refl eq_refl) as (w' & Hw & _).
  by exists w'.
Defined.

Lemma commands_are_carried_out_at_once_witness :
  let rows := [ann_run "run-1" TaskStatusRunning; (sample_run "run-2" "bob" TaskStatusRunning 5, [])] in
  let turned := run_turn (sample_event "U1" "m2" "/stop-all") rows in
  Run_Status <$> (map_to_list (turn_store turned.1)).*2.*1 = [TaskStatusCancelled; TaskStatusRunning] /\
  exists reason dispatchID, turned.2 = inl (Returned (Ok (handled slack_turn reason "" dispatchID))).
Proof.
  intros rows turned; split; [vm_compute; reflexivity|].
  destruct (@commands_are_carried_out_at_once ascii_tables example_decisions gate_holds ledger_library example_ledger example_ledger_laws
    example_documents example_launch_documents example_events example_turn_events slack_turn slack_sender slack_sender_says_once
    (sample_event "U1" "m2" "/stop-all") None "ann" (slack_world rows) eq_refl eq_refl eq_refl eq_refl ltac:(by vm_compute))
    as (w' & reason & dispatchID & Hw & _).
  exists reason, dispatchID; unfold turned, run_turn; by rewrite Hw.
Defined.

(** A completed run, and the reply that tells of it. *)
Definition finished_turn (taskRunID : string) (status : TaskStatus) : TurnResult :=
  MkTurnResult (sample_run taskRunID "ann" status 9) "" "Here is the report" "" "" [] [].

Definition run_dispatch (turnResult : TurnResult) :=
  @dispatchTaskReply example_decisions gate_holds ledger_library example_ledger example_documents example_events
    example_reply_documents example_turn_events slack_turn slack_sender (sample_event "U1" "m1" "report") (replyTargetOf (sample_event "U1" "m1" "report"))
    turnResult "" (slack_world [ann_run "run-1" TaskStatusCompleted]).

Lemma task_replies_follow_their_run_witness :
  (ScheduleStore.Message <$> omap (fun act => match act with Sent _ reply _ => Some reply | _ => None end)
    (world_replies (run_dispatch (finished_turn "run-1" TaskStatusCompleted)).1)) = ["Here is the report"] /\
  world_replies (run_dispatch (finished_turn "run-1" TaskStatusCancelled)).1 = [] /\
  exists w' r reply, run_dispatch (finished_turn "run-1" TaskStatusCompleted) = (w', inr r) /\ Result_TaskRunID r = "run-1" /\
    ScheduleStore.Message reply = "Here is the report" /\
    @told example_decisions gate_holds ledger_library example_events example_reply_documents slack_turn never slack_sender
      (sample_event "U1" "m1" "report") (replyTargetOf (sample_event "U1" "m1" "report")) reply "run-1" (ReplyDispatchID r)
      (slack_world [ann_run "run-1" TaskStatusCompleted]) w'.
Proof.
  split; [vm_compute; reflexivity|]; split; [vm_compute; reflexivity|].
  destruct (@task_replies_follow_their_run example_decisions gate_holds ledger_library example_ledger example_ledger_laws
    example_documents example_events example_reply_documents example_turn_events slack_turn never slack_sender slack_sender_once
    (sample_event "U1" "m1" "report") (replyTargetOf (sample_event "U1" "m1" "report")) (finished_turn "run-1" TaskStatusCompleted) ""
    (slack_world [ann_run "run-1" TaskStatusCompleted])) as (w' & r & Hw & _ & Hr & _ & _ & Hsaid).
  destruct Hsaid as (reply & Hm & _ & _ & Ht).
  { intros [(Hb & _)|[Hs|[(stored & Hs & Hc)|[(Hs & _)|[_ Hs]]]]]; [discriminate Hb|discriminate Hs| |discriminate Hs|vm_compute in Hs; discriminate Hs].
    vm_compute in Hs; injection Hs as <-; discriminate Hc. }
  exists w', r, reply; split_and!; [exact Hw|exact Hr|exact Hm|exact Ht].
Defined.

(** ** Departures *)

Definition settle_independent :=
  @settleBusyDecision ascii_tables example_decisions gate_holds ledger_library example_ledger example_documents
    example_launch_documents example_events example_turn_events slack_turn slack_sender (sample_event "U1" "m2" "and what is the weather?")
    (ann_run "run-1" TaskStatusRunning).1 BusyRouteNewTask (slack_world [ann_run "run-1" TaskStatusRunning]).

(** The model is told that a message of the route [new_task] should not affect the task that
    runs; the route cancels it. *)
Lemma independent_message_cancels_the_task :
  match settle_independent.2 with inr clears => clears | inl _ => false end = true /\
  Run_Status <$> (map_to_list (turn_store settle_independent.1)).*2.*1 = [TaskStatusCancelled].
Proof. split; vm_compute; reflexivity. Qed.

(** A decision that was taken before a task was open has no route for it, and is kept: the turn
    of a message that was judged in a burst fails where an earlier message of the burst opened
    the task. *)
Lemma decision_without_route_fails `{UnicodeTables, DecisionLibrary, TaskLedger, TaskDocuments, LaunchDocuments, ReplyEvents, TurnEvents}
    env sendReply event running p judgment w :
  event.2 = Some p -> gate_cells (world_gate w) !! p = Some (Some (Ok judgment)) -> Judgment_BusyRoute judgment = "" ->
  exists w', settleRunningTask env sendReply event running w = (w', inl (Returned (Err InvalidBusyRoute))).
Proof.
  intros Hp Hc Hr; unfold settleRunningTask, judges, mbind, Handling_bind; rewrite (judgeInboundMessage_decided _ _ _ _ _ _ _ Hp Hc), Hr.
  by eexists.
Qed.
