(* ===== verification/GoText.v ===== *)
(** * More of Go's [strings] and [unicode/utf8]

    Counting, finding and replacing a substring, valid UTF-8 and where its code points
    begin.  A string is cut at a byte; what is proved here is at which bytes a valid text
    can be cut so that both parts are valid. *)

From stdpp Require Import pretty.
From S2P Require Export GoStrings.

Open Scope Z_scope.

(** ** Substrings *)

(** [strings.Count]: occurrences that do not overlap, from the left. *)
Fixpoint count_seq (fuel : nat) (sub l : bytes) : nat :=
  match fuel with
  | O => O
  | S fuel =>
    match cut_seq sub l [] with
    | None => O
    | Some (_, rest) => S (count_seq fuel sub rest)
    end
  end.

Definition Count (s sub : string) : nat :=
  if bool_decide (sub = "") then S (length (runes s)) else count_seq (S (String.length s)) (bytes_of sub) (bytes_of s).

(** [strings.Replace(s, old, new, 1)], for an [old] that is not empty *)
Definition ReplaceFirst (s old new : string) : string :=
  match Cut s old with
  | Some (before, after) => before +:+ new +:+ after
  | None => s
  end.

(** [strings.Index]; [None] is -1. *)
Definition Index (s sub : string) : option nat :=
  '(before, _) ← Cut s sub; Some (String.length before).

(** [strings.TrimLeft] with a cut set of ASCII bytes *)
Definition TrimLeft (s : string) (set : bytes) : string := of_bytes (skip_set set (bytes_of s)).

(** [strings.ReplaceAll] of one byte *)
Definition ReplaceByte (s : string) (old : ascii) (new : string) : string :=
  of_bytes (concat ((fun a => if Ascii.eqb a old then bytes_of new else [a]) <$> bytes_of s)).

(** The bytes from [first] up to [last_], as [s[first:last_]]. *)
Definition slice (first last_ : nat) (s : string) : string := of_bytes (take (last_ - first) (drop first (bytes_of s))).

Lemma length_bytes_of s : length (bytes_of s) = String.length s.
Proof. induction s as [|a s IH]; [done|]; cbn; by rewrite <- IH. Qed.

Lemma strip_prefix_Some p l rest : strip_prefix p l = Some rest -> l = (p ++ rest)%list.
Proof.
  revert l; induction p as [|a p IH]; intros l Hs; cbn in Hs; [by simplify_eq|]; destruct l as [|b l]; [done|].
  destruct (Ascii.eqb_spec a b) as [->|]; [|done]; cbn; f_equal; by apply IH.
Qed.

Lemma cut_seq_app sep l field before rest :
  cut_seq sep l field = Some (before, rest) -> exists p, before = (field ++ p)%list /\ l = (p ++ sep ++ rest)%list.
Proof.
  revert field; induction l as [|a l IH]; intros field; cbn [cut_seq].
  - destruct (strip_prefix sep []) as [rest'|] eqn:Hs; [|done]; intros [= <- <-]; exists [].
    rewrite app_nil_r; split; [done|]; cbn [app]; by apply strip_prefix_Some.
  - destruct (strip_prefix sep (a :: l)) as [rest'|] eqn:Hs.
    + intros [= <- <-]; exists []; rewrite app_nil_r; split; [done|]; cbn [app]; by apply strip_prefix_Some.
    + intros (p & -> & ->)%IH; exists (a :: p); by rewrite <- app_assoc.
Qed.

Lemma Cut_app s sep before after : Cut s sep = Some (before, after) -> s = before +:+ sep +:+ after.
Proof.
  unfold Cut; intros Hc; apply bind_Some in Hc as ([b r] & Hc & [= <- <-]).
  apply cut_seq_app in Hc as (p & -> & Hl); apply bytes_of_eq; by rewrite !bytes_of_app, !bytes_of_bytes.
Qed.

Lemma Cut_Index s sub n : Index s sub = Some n <-> exists before after, Cut s sub = Some (before, after) /\ n = String.length before.
Proof.
  unfold Index; destruct (Cut s sub) as [[before after]|]; cbn.
  - split; [intros [= <-]; by exists before, after|by intros (b & a & [= <- <-] & ->)].
  - split; [done|by intros (b & a & ? & _)].
Qed.

(** An occurrence that is counted is found. *)
Lemma Count_Cut s sub : sub <> "" -> (0 < Count s sub)%nat -> exists before after, Cut s sub = Some (before, after).
Proof.
  intros Hs; unfold Count; rewrite (bool_decide_eq_false_2 _ Hs); cbn [count_seq]; unfold Cut.
  destruct (cut_seq _ _ _) as [[before rest]|]; [|lia]; intros _; cbn; by eexists _, _.
Qed.

Lemma slice_app before middle after :
  slice (String.length before) (String.length before + String.length middle) (before +:+ middle +:+ after) = middle.
Proof.
  unfold slice; rewrite !bytes_of_app, <- !length_bytes_of, Nat.add_comm, Nat.add_sub.
  by rewrite drop_app_length, take_app_length, of_bytes_of.
Qed.

(** [strings.Split] and [strings.Join] undo each other. *)
Lemma split_bytes_cons sep l field : exists s ss, split_bytes sep l field = s :: ss.
Proof. revert field; induction l as [|a l IH]; intros field; cbn; [by eexists _, _|]; destruct (Ascii.eqb a sep); [by eexists _, _|apply IH]. Qed.

Lemma split_bytes_join sep l field :
  String.concat (String sep "") (of_bytes <$> split_bytes sep l field) = of_bytes (field ++ l).
Proof.
  revert field; induction l as [|a l IH]; intros field; cbn [split_bytes]; [by rewrite app_nil_r|].
  destruct (Ascii.eqb_spec a sep) as [->|_]; [|rewrite IH; by rewrite <- app_assoc].
  specialize (IH []); destruct (split_bytes_cons sep l []) as (s & ss & Hsp); rewrite Hsp in *.
  change (of_bytes <$> field :: s :: ss) with (of_bytes field :: (of_bytes <$> s :: ss)).
  change (of_bytes field +:+ String sep "" +:+ String.concat (String sep "") (of_bytes <$> s :: ss) = of_bytes (field ++ sep :: l)).
  rewrite IH; change (sep :: l) with ([sep] ++ l)%list; by rewrite !of_bytes_app.
Qed.

Lemma Join_Split s sep : Join (String sep "") (Split s sep) = s.
Proof. unfold Join, Split; rewrite split_bytes_join; apply of_bytes_of. Qed.

Lemma Split_cons s sep : exists line lines, Split s sep = line :: lines.
Proof. unfold Split; destruct (split_bytes_cons sep (bytes_of s) []) as (x & xs & ->); by eexists _, _. Qed.

Lemma Join_app sep x xs y ys : Join sep ((x :: xs) ++ y :: ys) = Join sep (x :: xs) +:+ sep +:+ Join sep (y :: ys).
Proof.
  unfold Join; revert x; induction xs as [|x' xs IH]; intros x; [done|].
  cbn [app] in *; change (String.concat sep (x :: x' :: xs ++ y :: ys)) with (x +:+ sep +:+ String.concat sep (x' :: xs ++ y :: ys)).
  rewrite IH; change (String.concat sep (x :: x' :: xs)) with (x +:+ sep +:+ String.concat sep (x' :: xs)).
  by rewrite !append_assoc.
Qed.

(** ** Valid UTF-8 *)

(** [utf8.RuneStart] *)
Definition rune_start (a : ascii) : bool := negb (between 128 191 (byte a)).

(** A chunk that is an encoding, not a byte that starts none. *)
Definition proper_chunk (c : Z * bytes) : bool := negb ((c.1 =? rune_error) && (length c.2 =? 1)%nat).

(** [utf8.Valid] *)
Definition valid_bytes (l : bytes) : bool := forallb proper_chunk (chunks l).
Definition ValidString (s : string) : bool := valid_bytes (bytes_of s).

(** Where a code point begins, or the end. *)
Definition boundary (l : bytes) (p : nat) : Prop := exists cs1 cs2, chunks l = cs1 ++ cs2 /\ length (unchunk cs1) = p.

Lemma decode_head_proper a l : proper_chunk ((decode_head a l).1, take (decode_head a l).2 (a :: l)) = true ->
  rune_start a = true /\ Forall (fun b => rune_start b = false) (take (pred (decode_head a l).2) l) /\ ((decode_head a l).2 <= 4)%nat /\
  forall rest, decode_head a (l ++ rest) = decode_head a l.
Proof.
  unfold decode_head, proper_chunk, rune_start, between; pose proof (byte_range a).
  destruct l as [|a1 [|a2 [|a3 l]]];
    repeat (case_match; cbn [fst snd app take pred length negb andb Nat.eqb]; try done);
    cbn [fst snd app take pred length negb andb Nat.eqb]; intros Hp; try (by rewrite ?Z.eqb_refl in Hp);
    (split; [lia|]); (split; [repeat constructor; lia|]); (split; [lia|]); intros rest;
    repeat match goal with Hb : _ = true |- _ => rewrite ?Hb end; repeat (case_match; try done; try lia).
  all: done.
Qed.

Lemma valid_cons a l : valid_bytes (a :: l) = true <->
  proper_chunk ((decode_head a l).1, take (decode_head a l).2 (a :: l)) = true /\ valid_bytes (drop (decode_head a l).2 (a :: l)) = true.
Proof. unfold valid_bytes; rewrite chunks_cons; cbn [forallb]; by rewrite andb_true_iff. Qed.

(** The chunks of a valid text do not depend on what follows it. *)
Lemma chunks_app_valid l rest : valid_bytes l = true -> chunks (l ++ rest) = chunks l ++ chunks rest.
Proof.
  induction l as [l IH] using (induction_ltof1 _ (@List.length ascii)); unfold ltof in IH.
  destruct l as [|a l]; [done|]; intros [Hp Hv]%valid_cons; rewrite <- app_comm_cons, !chunks_cons.
  pose proof (decode_head_width a l) as Hw.
  destruct (decode_head_proper a l Hp) as (_ & _ & _ & He); rewrite He, app_comm_cons, take_app_le, drop_app_le by (cbn; lia).
  cbn [app]; f_equal; apply IH; [rewrite length_drop; cbn; lia|done].
Qed.

Lemma valid_app l rest : valid_bytes l = true -> valid_bytes (l ++ rest) = valid_bytes rest.
Proof. intros Hl; unfold valid_bytes in *; by rewrite chunks_app_valid, forallb_app, Hl. Qed.

Lemma valid_unchunk cs l cs' : chunks l = cs ++ cs' -> valid_bytes l = true -> valid_bytes (unchunk cs) = true /\ valid_bytes (unchunk cs') = true.
Proof.
  intros Hc; unfold valid_bytes; rewrite Hc, forallb_app, andb_true_iff; intros [H1 H2].
  rewrite (chunks_infix l [] cs cs' Hc); split; [done|].
  by rewrite (chunks_infix l cs cs' []) by (by rewrite app_nil_r).
Qed.

(** A valid text is cut into valid texts at the boundaries of its code points, and only there. *)
Lemma boundary_valid l p : valid_bytes l = true -> boundary l p -> valid_bytes (take p l) = true /\ valid_bytes (drop p l) = true.
Proof.
  intros Hv (cs1 & cs2 & Hc & <-); destruct (valid_unchunk _ _ _ Hc Hv) as [H1 H2].
  assert (Hl : l = (unchunk cs1 ++ unchunk cs2)%list) by (rewrite <- (unchunk_chunks l) at 1; by rewrite Hc, unchunk_app).
  rewrite Hl at 1 2; by rewrite take_app_length, drop_app_length.
Qed.

Lemma valid_boundary l p : (p <= length l)%nat -> valid_bytes (take p l) = true -> boundary l p.
Proof.
  intros Hp Hv; exists (chunks (take p l)), (chunks (drop p l)); rewrite <- chunks_app_valid, take_drop by done; split; [done|].
  rewrite unchunk_chunks, length_take; lia.
Qed.

Lemma boundary_0 l : boundary l 0.
Proof. by exists [], (chunks l). Qed.

Lemma boundary_length l : boundary l (length l).
Proof. exists (chunks l), []; by rewrite app_nil_r, unchunk_chunks. Qed.

Lemma boundary_le l p : boundary l p -> (p <= length l)%nat.
Proof. intros (cs1 & cs2 & Hc & <-); rewrite <- (unchunk_chunks l) at 1; rewrite Hc, unchunk_app, length_app; lia. Qed.

(** Where the boundaries of a valid text are: at the bytes that can start a code point. *)
Lemma boundary_cons a l p : (0 < p)%nat -> boundary (a :: l) p <->
  ((decode_head a l).2 <= p)%nat /\ boundary (drop (decode_head a l).2 (a :: l)) (p - (decode_head a l).2).
Proof.
  intros H0; pose proof (decode_head_width a l) as Hw.
  assert (Hlen : length (take (decode_head a l).2 (a :: l)) = (decode_head a l).2) by (rewrite length_take; cbn; lia).
  unfold boundary; rewrite chunks_cons; set (w := (decode_head a l).2) in *; split.
  - intros (cs1 & cs2 & Hc & Hp); destruct cs1 as [|c cs1]; [cbn in Hp; lia|]; injection Hc as <- Hc.
    unfold unchunk in Hp; cbn [fmap list_fmap fst snd concat] in Hp; rewrite length_app, Hlen in Hp; split; [lia|].
    exists cs1, cs2; split; [done|]; unfold unchunk; lia.
  - intros [Hle (cs1 & cs2 & Hc & Hp)]; eexists (_ :: cs1), cs2; rewrite Hc; split; [reflexivity|].
    unfold unchunk in *; cbn [fmap list_fmap fst snd concat]; rewrite length_app, Hlen; lia.
Qed.

Lemma boundary_iff l p : valid_bytes l = true -> (p < length l)%nat ->
  boundary l p <-> exists a, l !! p = Some a /\ rune_start a = true.
Proof.
  revert p; induction l as [l IH] using (induction_ltof1 _ (@List.length ascii)); unfold ltof in IH; intros p Hv Hp.
  destruct l as [|a l]; [cbn in Hp; lia|]; destruct (proj1 (valid_cons a l) Hv) as [Hproper Hrest].
  destruct (decode_head_proper a l Hproper) as (Hstart & Hconts & Hw4 & _); pose proof (decode_head_width a l) as Hw.
  destruct (decide (p = 0%nat)) as [->|H0]; [split; [by exists a|intros _; apply boundary_0]|].
  rewrite boundary_cons by lia; destruct (decide ((decode_head a l).2 <= p)%nat) as [Hle|Hlt].
  - rewrite IH; [|rewrite length_drop; cbn; lia|done|rewrite length_drop; cbn in *; lia].
    rewrite lookup_drop; replace ((decode_head a l).2 + (p - (decode_head a l).2))%nat with p by lia.
    split; [by intros [_ ?]|done].
  - split; [by intros [? _]|]; intros (b & Hb & Hs); exfalso.
    destruct p as [|p]; [done|]; cbn in Hb; rewrite Forall_lookup in Hconts.
    specialize (Hconts p b); rewrite lookup_take_lt in Hconts by lia; rewrite (Hconts Hb) in Hs; done.
Qed.

(** From any byte of a valid text a boundary is at most three bytes back. *)
Lemma boundary_near l p : valid_bytes l = true -> (p <= length l)%nat -> exists q, boundary l q /\ (q <= p)%nat /\ (p < q + 4)%nat.
Proof.
  revert p; induction l as [l IH] using (induction_ltof1 _ (@List.length ascii)); unfold ltof in IH; intros p Hv Hp.
  destruct l as [|a l]; [cbn in Hp; exists 0%nat; split_and!; [apply boundary_0|lia|lia]|].
  destruct (proj1 (valid_cons a l) Hv) as [Hproper Hrest].
  destruct (decode_head_proper a l Hproper) as (_ & _ & Hw4 & _); pose proof (decode_head_width a l) as Hw.
  destruct (decide ((decode_head a l).2 <= p)%nat) as [Hle|Hlt]; [|exists 0%nat; split_and!; [apply boundary_0|lia|lia]].
  destruct (IH (drop (decode_head a l).2 (a :: l)) ltac:(rewrite length_drop; cbn; lia) (p - (decode_head a l).2)%nat Hrest
    ltac:(rewrite length_drop; cbn in *; lia)) as (q & Hq & Hq1 & Hq2).
  exists (q + (decode_head a l).2)%nat; split_and!; [|lia|lia].
  apply boundary_cons; [lia|]; split; [lia|]; by rewrite Nat.add_sub.
Qed.

(** ** Encoding the code points of a valid text gives the text *)

Lemma encode_decode a l : proper_chunk ((decode_head a l).1, take (decode_head a l).2 (a :: l)) = true ->
  encode_rune (decode_head a l).1 = take (decode_head a l).2 (a :: l).
Proof.
  unfold proper_chunk, decode_head, encode_rune, between; pose proof (byte_range a).
  destruct l as [|a1 [|a2 [|a3 l]]]; try pose proof (byte_range a1); try pose proof (byte_range a2); try pose proof (byte_range a3);
    repeat (case_match; cbn [fst snd take length negb andb Nat.eqb] in *; try discriminate; try lia); intros _;
    repeat (apply f_equal2); try reflexivity;
    match goal with |- byte_of _ = ?b => transitivity (byte_of (byte b)); [f_equal; div_lia|apply byte_of_byte] end.
Qed.

Lemma encode_chunks l : valid_bytes l = true -> concat (encode_rune <$> (chunks l).*1) = l.
Proof.
  induction l as [l IH] using (induction_ltof1 _ (@List.length ascii)); unfold ltof in IH.
  destruct l as [|a l]; [done|]; intros [Hp Hv]%valid_cons; rewrite chunks_cons; pose proof (decode_head_width a l) as Hw.
  cbn [fmap list_fmap concat fst]; fold (@fmap list list_fmap); rewrite IH by (rewrite ?length_drop; cbn; (lia || done)).
  rewrite encode_decode by done; apply take_drop.
Qed.

Lemma of_runes_runes s : ValidString s = true -> of_runes (runes s) = s.
Proof. intros Hv; unfold of_runes, runes; rewrite encode_chunks by done; apply of_bytes_of. Qed.

Lemma valid_of_runes rs : forallb valid_rune rs = true -> ValidString (of_runes rs) = true.
Proof.
  intros Hv; unfold ValidString, valid_bytes, of_runes; rewrite bytes_of_bytes, chunks_encode by done.
  apply forallb_forall; intros c (r & <- & Hr%list_elem_of_In)%in_map_iff; unfold proper_chunk; cbn [fst snd].
  destruct (Z.eqb_spec r rune_error) as [->|]; done.
Qed.

Lemma of_runes_app rs1 rs2 : of_runes (rs1 ++ rs2) = of_runes rs1 +:+ of_runes rs2.
Proof. unfold of_runes; by rewrite fmap_app, concat_app, of_bytes_app. Qed.

Lemma runes_nil s : runes s = [] -> s = "".
Proof.
  unfold runes; intros Hr; apply fmap_nil_inv in Hr; apply bytes_of_eq; rewrite <- (unchunk_chunks (bytes_of s)); by rewrite Hr.
Qed.

Lemma runes_app s t : ValidString s = true -> runes (s +:+ t) = runes s ++ runes t.
Proof. intros Hv; unfold runes; by rewrite bytes_of_app, chunks_app_valid, fmap_app. Qed.

Lemma valid_starts s : ValidString s = true -> s <> "" -> exists a l, bytes_of s = a :: l /\ rune_start a = true.
Proof.
  destruct s as [|a s]; [done|]; intros Hv _; exists a, (bytes_of s); split; [done|].
  apply valid_cons in Hv as [Hp _]; by apply decode_head_proper in Hp as [? _].
Qed.

(** What stands before a valid part of a valid text is valid. *)
Lemma valid_before before middle after :
  ValidString (before +:+ middle +:+ after) = true -> ValidString middle = true -> middle <> "" -> ValidString before = true.
Proof.
  intros Hv Hm Hne; destruct (valid_starts middle Hm Hne) as (a & l & Hl & Hs); unfold ValidString in *; rewrite !bytes_of_app, Hl in Hv.
  rewrite <- (take_app_length (bytes_of before) ((a :: l) ++ bytes_of after)); apply boundary_valid; [done|].
  apply boundary_iff; [done|rewrite length_app; cbn; lia|]; exists a; split; [|done].
  rewrite lookup_app_r by lia; by rewrite Nat.sub_diag.
Qed.

(** ** Numbers as text and back *)

Lemma digits_pretty x s : digits (bytes_of (pretty_N_go x s)) 0 = digits (bytes_of s) (Z.of_N x).
Proof.
  revert s; induction x as [x IH] using (well_founded_induction N.lt_wf_0); intros s.
  assert (x = 0 \/ 0 < x)%N as [->|Hx] by lia; [by rewrite pretty_N_go_0|]; rewrite pretty_N_go_step, IH by (lia || by apply N.div_lt).
  assert (Hd : digit (pretty_N_char (x mod 10)) = Some (Z.of_N (x mod 10))).
  { pose proof (N.mod_lt x 10 ltac:(done)) as Hm; generalize dependent (x mod 10)%N; intros m Hm.
    assert (m = 0 \/ m = 1 \/ m = 2 \/ m = 3 \/ m = 4 \/ m = 5 \/ m = 6 \/ m = 7 \/ m = 8 \/ m = 9)%N as Hcases by lia.
    by destruct Hcases as [->|[->|[->|[->|[->|[->|[->|[->|[->| ->]]]]]]]]]. }
  change (bytes_of (String (pretty_N_char (x mod 10)) s)) with (pretty_N_char (x mod 10) :: bytes_of s); cbn [digits]; rewrite Hd; f_equal.
  pose proof (N.div_mod x 10 ltac:(done)) as Hx'; lia.
Qed.

Lemma Atoi_Itoa z : 0 < z <= int64_max -> Atoi (Itoa z) = Some z.
Proof.
  intros Hz; pose proof (Itoa_digits z ltac:(lia)) as Hd; unfold Atoi.
  assert (Hu : unsigned (bytes_of (Itoa z)) = Some z).
  { destruct z as [|p|p]; [lia| |lia]; unfold Itoa, pretty, pretty_Z, pretty, pretty_positive, pretty, pretty_N.
    destruct (decide _); [done|]; pose proof (digits_pretty (N.pos p) "") as Hp; unfold unsigned.
    destruct (bytes_of (pretty_N_go (N.pos p) "")) eqn:He; [|exact Hp]; cbn in Hp; lia || congruence. }
  destruct (bytes_of (Itoa z)) as [|a l]; [done|]; apply Forall_cons in Hd as [[d Ha] _].
  assert (a <> "-"%char /\ a <> "+"%char) as [Hm Hp] by (split; intros ->; discriminate Ha).
  assert (Hs : match a :: l with "-"%char :: l => Z.opp <$> unsigned l | "+"%char :: l => unsigned l | l => unsigned l end = unsigned (a :: l)).
  { destruct a as [[] [] [] [] [] [] [] []]; first [reflexivity|by destruct Hm|by destruct Hp]. }
  rewrite Hs, Hu; unfold in_int64; by rewrite (proj2 (andb_true_iff _ _)) by (split; apply Z.leb_le; unfold int64_min; lia).
Qed.
