(* ===== verification/FileEdits.v ===== *)
(** * Windows of a file and edits of a text ([agentruntime/file_tools.go])

    What the file tools do with the text of a file once they have it: the window a read
    returns, by lines or by bytes, and the replacement an edit makes, in four layers: the
    exact text, whole lines but for their indentation, look-alike characters, and runs of
    blanks.  A length or an offset of a text is a [nat]; numbers the model gives are 64-bit. *)

From S2P Require Export GoText.

Open Scope Z_scope.

(** ** What a read returns *)

Record fileReadToolInput := MkReadInput {
  Read_Path : string;
  Read_SourcePlatform : string;
  Read_SourceFileID : string;
  Read_Stage : string;
  MaxOutputBytes : Z;
  StartLine : Z;
  LineCount : Z;
  StartByte : Z;
}.

Record fileReadOutput := MkReadOutput {
  Output_Content : string;
  Output_StartLine : Z;
  Output_EndLine : Z;
  TotalLines : Z;
  IsTruncated : bool;
  Output_StartByte : Z;
  EndByte : Z;
  NextByte : Z;
  TotalBytes : Z;
  IsEndOfFile : bool;
  ReadHint : string;
}.

Definition len (s : string) : Z := Z.of_nat (String.length s).

(** The longest valid start of at most [n] bytes. *)
Fixpoint longest_valid (n : nat) (l : bytes) : bytes :=
  match n with
  | O => []
  | S m => if valid_bytes (take n l) then take n l else longest_valid m l
  end.

Definition truncateTextByBytes (content : string) (maxBytes : Z) : string * bool :=
  if (maxBytes <=? 0) || (len content <=? maxBytes) then (content, false)
  else (of_bytes (longest_valid (Z.to_nat maxBytes) (bytes_of content)), true).

(** How many bytes up to the next that starts a code point. *)
Fixpoint continuation_run (l : bytes) : nat :=
  match l with
  | a :: l => if rune_start a then O else S (continuation_run l)
  | [] => O
  end.

Definition snapForwardToRuneBoundary (content : string) (index : nat) : nat :=
  (index + continuation_run (drop index (bytes_of content)))%nat.

Fixpoint snapBackToRuneBoundary (content : bytes) (index minimum : nat) : nat :=
  match index with
  | O => O
  | S previous =>
    match content !! index with
    | Some a => if (minimum <? index)%nat && negb (rune_start a) then snapBackToRuneBoundary content previous minimum else index
    | None => index
    end
  end.

Definition byteWindowReadResult (content : string) (startByte maxOutputBytes : Z) : fileReadOutput :=
  let totalBytes := len content in
  let start := snapForwardToRuneBoundary content (Z.to_nat (Z.min startByte totalBytes)) in
  let end_ := Z.to_nat (Z.min (Z.of_nat start + maxOutputBytes) totalBytes) in
  let end_ := snapBackToRuneBoundary (bytes_of content) end_ start in
  let nextByte := if Z.of_nat end_ <? totalBytes then Z.of_nat end_ else 0 in
  MkReadOutput (slice start end_ content) 0 0 0 (0 <? nextByte) (Z.of_nat start) (Z.of_nat end_) nextByte totalBytes (nextByte =? 0) "".

Definition splitFileLines (content : string) : list string :=
  if bool_decide (content = "") then [] else
  let normalizedContent := TrimSuffix content nl in
  if bool_decide (normalizedContent = "") then [""] else Split normalizedContent newline.

Definition past_end_hint (startLine totalLines totalBytes : Z) : string :=
  "startLine " +:+ Itoa startLine +:+ " is past totalLines " +:+ Itoa totalLines +:+ "; this file has few lines but " +:+
  Itoa totalBytes +:+ " bytes. Re-read with startByte for byte-range reads instead of paginating by line.".

(** [None]: the slice of the lines panics. *)
Definition fileReadResult (content : string) (input : fileReadToolInput) (maxOutputBytes : Z) : option fileReadOutput :=
  let totalBytes := len content in
  if 0 <? StartByte input then Some (byteWindowReadResult content (StartByte input) maxOutputBytes) else
  let lines := splitFileLines content in
  let totalLines := Z.of_nat (length lines) in
  if totalLines =? 0 then Some (MkReadOutput "" 0 0 0 false 0 0 0 totalBytes true "") else
  if StartLine input <=? 0 then
    let '(windowedContent, isTruncated) := truncateTextByBytes content maxOutputBytes in
    Some (MkReadOutput windowedContent 1 totalLines totalLines isTruncated 0 (len windowedContent)
      (if isTruncated then len windowedContent else 0) totalBytes (negb isTruncated) "")
  else if totalLines <? StartLine input then
    Some (MkReadOutput "" (StartLine input) (StartLine input - 1) totalLines false 0 0 0 totalBytes true
      (past_end_hint (StartLine input) totalLines totalBytes))
  else
    let lineCount := if LineCount input <=? 0 then 200 else LineCount input in
    let endLine := Z.min (wrap64 (StartLine input + lineCount - 1)) totalLines in
    if endLine <? StartLine input - 1 then None else
    let first := Z.to_nat (StartLine input - 1) in
    let '(windowedContent, isTruncated) :=
      truncateTextByBytes (Join nl (take (Z.to_nat endLine - first) (drop first lines))) maxOutputBytes in
    Some (MkReadOutput windowedContent (StartLine input) endLine totalLines isTruncated 0 0 0 totalBytes
      ((totalLines <=? endLine) && negb isTruncated) "").

(** ** Edits: the exact text, and blanks in it *)

Definition blanks : bytes := [" "%char; "009"%char].

Definition is_blank (a : ascii) : bool := bool_decide (a ∈ blanks).

(** Each byte that is kept, and where it stood. *)
Fixpoint collapse_from (inWhitespaceRun : bool) (index : nat) (l : bytes) : list (ascii * nat) :=
  match l with
  | [] => []
  | a :: l =>
    if is_blank a then
      if inWhitespaceRun then collapse_from true (S index) l else (" "%char, index) :: collapse_from true (S index) l
    else (a, index) :: collapse_from false (S index) l
  end.

Definition collapseInlineWhitespace (value : string) : string * list nat :=
  let kept := collapse_from false 0%nat (bytes_of value) in
  (of_bytes kept.*1, (kept.*2 ++ [String.length value])%list).

(** The text, or how many places match. *)
Definition applyWhitespaceTolerantEdit (content oldText newText : string) : result nat string :=
  let normalizedOldText := (collapseInlineWhitespace oldText).1 in
  if blank normalizedOldText then Err O else
  let '(normalizedContent, originalOffsets) := collapseInlineWhitespace content in
  let count := Count normalizedContent normalizedOldText in
  if negb (count =? 1)%nat then Err count else
  let normalizedStart := default O (Index normalizedContent normalizedOldText) in
  let normalizedEnd := (normalizedStart + String.length normalizedOldText)%nat in
  Ok (slice 0 (nth normalizedStart originalOffsets O) content +:+ newText +:+
      slice (nth normalizedEnd originalOffsets O) (String.length content) content).

(** ** Edits: look-alike characters *)

Definition lookalike (character : Z) : Z :=
  if bool_decide (character ∈ [8216; 8217; 8218; 8219]) then 39 else
  if bool_decide (character ∈ [8220; 8221; 8222; 8223]) then 34 else
  if bool_decide (character ∈ [8208; 8209; 8210; 8211; 8212; 8213; 8722]) then 45 else
  if bool_decide (character ∈ [160; 8194; 8195; 8196; 8197; 8198; 8199; 8200; 8201; 8202; 8239; 8287; 12288]) then 32
  else character.

Definition normalizeEditLookalikes (value : string) : string := of_runes (lookalike <$> runes value).

Definition applyUnicodeNormalizedEdit (content oldText newText : string) : result nat string :=
  let normalizedContent := normalizeEditLookalikes content in
  let normalizedOldText := normalizeEditLookalikes oldText in
  let count := Count normalizedContent normalizedOldText in
  if negb (count =? 1)%nat then Err count else
  let byteIndex := default O (Index normalizedContent normalizedOldText) in
  let runeIndex := length (runes (slice 0 byteIndex normalizedContent)) in
  let oldTextRuneLength := length (runes normalizedOldText) in
  let contentRunes := runes content in
  Ok (of_runes (take runeIndex contentRunes) +:+ newText +:+ of_runes (drop (runeIndex + oldTextRuneLength) contentRunes)).

(** ** Edits: whole lines but for their indentation *)

Definition smaller_indent (minimum : option nat) (line : string) : option nat :=
  if blank line then minimum else
  let leading := (String.length line - String.length (TrimLeft line blanks))%nat in
  match minimum with
  | None => Some leading
  | Some least => if (leading <? least)%nat then Some leading else minimum
  end.

Definition minCommonLeadingWhitespace (lines : list string) : nat :=
  default O (foldl smaller_indent None lines).

Definition outdentLines (lines : list string) (amount : nat) : list string :=
  (fun line => if blank line || (String.length line <? amount)%nat then line else slice amount (String.length line) line) <$> lines.

Definition rightTrimLines (lines : list string) : list string := (fun line => TrimRight line blanks) <$> lines.

(** The prefixes of the lines that are not blank; [None]: a line is shorter than its pattern. *)
Fixpoint line_prefixes (window pattern : list string) : option (list string) :=
  match window, pattern with
  | line :: window, patternLine :: pattern =>
    if blank line then line_prefixes window pattern else
    if (String.length line <? String.length patternLine)%nat then None else
    prefixes ← line_prefixes window pattern;
    Some (slice 0 (String.length line - String.length patternLine) line :: prefixes)
  | _, _ => Some []
  end.

Definition matchButForLeadingWhitespace (windowLines patternLines : list string) : option string :=
  if negb (length windowLines =? length patternLines)%nat then None else
  let window := rightTrimLines windowLines in
  let pattern := rightTrimLines patternLines in
  if negb (bool_decide ((fun line => TrimLeft line blanks) <$> window = (fun line => TrimLeft line blanks) <$> pattern)) then None else
  prefixes ← line_prefixes window pattern;
  match remove_dups prefixes with
  | [] => Some ""
  | [prefix] => Some prefix
  | _ => None
  end.

(** Where the pattern matches, and the prefix it lacks there. *)
Definition line_matches (fileLines partLines : list string) : list (nat * string) :=
  omap (fun index => prefix ← matchButForLeadingWhitespace (take (length partLines) (drop index fileLines)) partLines; Some (index, prefix))
    (seq 0 (S (length fileLines - length partLines))).

Definition replacePartWithMissingLeadingWhitespace (content oldText newText : string) : option string :=
  let fileLines := Split content newline in
  let partLines := Split oldText newline in
  let replaceLines := Split newText newline in
  if (length fileLines <? length partLines)%nat then None else
  let minLead := minCommonLeadingWhitespace (partLines ++ replaceLines) in
  let partLines := if (0 <? minLead)%nat then outdentLines partLines minLead else partLines in
  let replaceLines := if (0 <? minLead)%nat then outdentLines replaceLines minLead else replaceLines in
  match line_matches fileLines partLines with
  | [(matchStart, addedPrefix)] =>
    let reindentedReplacement := (fun line => if blank line then line else addedPrefix +:+ line) <$> replaceLines in
    Some (Join nl (take matchStart fileLines ++ reindentedReplacement ++ drop (matchStart + length partLines) fileLines))
  | _ => None
  end.

(** ** The edit *)

Definition applyExactOrTolerantEdit (content oldText newText : string) : result nat string :=
  if bool_decide (oldText = "") then Err O else
  let count := Count content oldText in
  if (1 <? count)%nat then Err count else
  if (count =? 1)%nat then Ok (ReplaceFirst content oldText newText) else
  match replacePartWithMissingLeadingWhitespace content oldText newText with
  | Some updated => Ok updated
  | None =>
    match applyUnicodeNormalizedEdit content oldText newText with
    | Ok updated => Ok updated
    | Err count =>
      if (1 <? count)%nat then Err count else
      match applyWhitespaceTolerantEdit content oldText newText with
      | Ok updated => Ok updated
      | Err count => Err (if (1 <? count)%nat then count else O)
      end
    end
  end.

(** ** What an edit that fails is told *)

Definition mostDistinctiveLine (oldText : string) : string :=
  foldl (fun distinctive line => let trimmed := TrimSpace line in
    if (String.length distinctive <? String.length trimmed)%nat then trimmed else distinctive) "" (Split oldText newline).

(** The pairs of neighbouring characters, as texts. *)
Definition characterBigrams (value : string) : gset string :=
  list_to_set (zip_with (fun a b => of_runes [a; b]) (runes value) (tail (runes value))).

(** A quotient of two small counts, which is all the score is compared as: [(n, d)] is n/d. *)
Definition lineSimilarity (first second : string) : Z * Z :=
  let firstBigrams := characterBigrams first in
  let secondBigrams := characterBigrams second in
  if bool_decide (firstBigrams = ∅) || bool_decide (secondBigrams = ∅) then (0, 1) else
  (2 * Z.of_nat (size (firstBigrams ∩ secondBigrams)), Z.of_nat (size firstBigrams + size secondBigrams)).

Definition score_lt (x y : Z * Z) : bool := x.1 * y.2 <? y.1 * x.2.

(** The first line of the best score, from three fifths on. *)
Definition closest_line (target : string) (contentLines : list string) : option nat :=
  (foldl (fun best line =>
    let '(index, bestScore, bestIndex) := best in
    let trimmed := TrimSpace line in
    let score := lineSimilarity trimmed target in
    if bool_decide (trimmed = "") || score_lt score (3, 5) || negb (score_lt bestScore score) then (S index, bestScore, bestIndex)
    else (S index, score, Some index)) (O, (0, 1), None) contentLines).2.

Definition closestFileLines (content oldText : string) : string :=
  let target := mostDistinctiveLine oldText in
  if bool_decide (target = "") then "" else
  let contentLines := Split content newline in
  match closest_line target contentLines with
  | None => ""
  | Some bestIndex =>
    let windowStart := (bestIndex - 2)%nat in
    Join nl (take (bestIndex + 4 - windowStart) (drop windowStart contentLines))
  end.

Definition fileEditMatchFailureGuidance (content oldText : string) (matchCount : nat) : string :=
  if (1 <? matchCount)%nat then
    "oldText matched " +:+ Itoa (Z.of_nat matchCount) +:+ " places; include more surrounding lines so oldText identifies exactly one location."
  else
    let similar := closestFileLines content oldText in
    if negb (bool_decide (similar = "")) then
      "oldText was not found, even after allowing whitespace and quote differences. The closest current lines in the file are:" +:+ nl +:+
      similar +:+ nl +:+ "Copy the exact text shown above into oldText and retry edit. Do not rewrite the whole file — that discards the rest of the work."
    else "oldText was not found, even after allowing whitespace and quote differences. Read the file with file_read to copy the exact current text, then retry edit. Do not rewrite the whole file.".

Example edit_examples :
  (applyExactOrTolerantEdit ("if x {" +:+ nl +:+ "    run()" +:+ nl +:+ "}") "run()" "stop()",
   applyExactOrTolerantEdit ("a" +:+ nl +:+ "    b" +:+ nl +:+ "    c" +:+ nl +:+ "d") ("b" +:+ nl +:+ "c ") ("b" +:+ nl +:+ "e"),
   applyExactOrTolerantEdit "say ‘hi’ now" "say 'hi' now" "bye",
   applyExactOrTolerantEdit "a  =   1;" "a = 1" "b = 2",
   applyExactOrTolerantEdit "x x" "x" "y") =
  (Ok ("if x {" +:+ nl +:+ "    stop()" +:+ nl +:+ "}"),
   Ok ("a" +:+ nl +:+ "    b" +:+ nl +:+ "    e" +:+ nl +:+ "d"), Ok "bye", Ok "b = 2;", Err 2%nat).
Proof. vm_compute; reflexivity. Qed.

(** ** Reading in pieces *)

Definition read_at (start : Z) : fileReadToolInput := MkReadInput "" "" "" "" 0 0 0 start.

(** The pieces that following [NextByte] gives; [None]: a read fails, or there is no end. *)
Fixpoint read_pieces (fuel : nat) (content : string) (maxOutputBytes start : Z) : option (list string) :=
  match fuel with
  | O => None
  | S fuel =>
    output ← fileReadResult content (read_at start) maxOutputBytes;
    if NextByte output =? 0 then Some [Output_Content output] else
    pieces ← read_pieces fuel content maxOutputBytes (NextByte output);
    Some (Output_Content output :: pieces)
  end.

Lemma longest_valid_spec l n : valid_bytes l = true -> (n <= length l)%nat -> exists q, longest_valid n l = take q l /\ boundary l q /\
  (q <= n)%nat /\ forall p, boundary l p -> (p <= n)%nat -> (p <= q)%nat.
Proof.
  intros Hv; induction n as [|n IH]; intros Hn; cbn [longest_valid].
  - exists 0%nat; split_and!; [done|apply boundary_0|done|by intros p _ ?].
  - destruct (valid_bytes (take (S n) l)) eqn:Ht.
    + exists (S n); split_and!; [done|by apply valid_boundary|done|by intros p _ ?].
    + destruct IH as (q & -> & Hb & Hq & Hmax); [lia|]; exists q; split_and!; [done|done|lia|].
      intros p Hp Hle; apply Hmax; [done|]; destruct (decide (p = S n)) as [->|]; [|lia].
      by rewrite (proj1 (boundary_valid _ _ Hv Hp)) in Ht.
Qed.

Lemma snapBack_spec l index minimum : valid_bytes l = true -> boundary l minimum -> (minimum <= index <= length l)%nat ->
  boundary l (snapBackToRuneBoundary l index minimum) /\ (minimum <= snapBackToRuneBoundary l index minimum <= index)%nat /\
  forall p, boundary l p -> (p <= index)%nat -> (p <= snapBackToRuneBoundary l index minimum)%nat \/ (p < minimum)%nat.
Proof.
  intros Hv Hmin; induction index as [|previous IH]; intros [Hlo Hhi]; cbn [snapBackToRuneBoundary].
  { assert (minimum = 0%nat) as -> by lia; split_and!; [done|lia|lia|]; left; lia. }
  destruct (l !! S previous) as [a|] eqn:Ha.
  - destruct ((minimum <? S previous)%nat && negb (rune_start a)) eqn:Hc.
    + apply andb_true_iff in Hc as [Hlt%Nat.ltb_lt Hs%negb_true_iff].
      destruct IH as (Hb & Hr & Hmax); [lia|]; split_and!; [done|lia|lia|]; intros p Hp Hle.
      destruct (decide (p = S previous)) as [->|]; [|apply Hmax; [done|lia]].
      apply boundary_iff in Hp as (b & Hb' & Hsb); [|done|by apply lookup_lt_Some in Ha]; congruence.
    + split_and!; [|lia|lia|left; lia]; apply andb_false_iff in Hc as [Hlt%Nat.ltb_ge|Hs%negb_false_iff].
      * by assert (S previous = minimum) as -> by lia.
      * apply boundary_iff; [done|by apply lookup_lt_Some in Ha|by exists a].
  - split_and!; [|lia|lia|left; lia]; apply lookup_ge_None in Ha.
    assert (S previous = length l) as -> by lia; apply boundary_length.
Qed.

Lemma length_slice first last_ s : (first <= last_ <= String.length s)%nat -> String.length (slice first last_ s) = (last_ - first)%nat.
Proof.
  intros Hle; rewrite <- length_bytes_of; unfold slice; rewrite bytes_of_bytes, length_take, length_drop, length_bytes_of; lia.
Qed.

Lemma boundary_drop l p q : valid_bytes l = true -> boundary l p -> boundary l q -> (p <= q)%nat -> boundary (drop p l) (q - p).
Proof.
  intros Hv Hp Hq Hle; pose proof (boundary_le _ _ Hq); destruct (boundary_valid _ _ Hv Hp) as [_ Hd].
  destruct (decide (q = length l)) as [->|Hne].
  - rewrite <- length_drop; apply boundary_length.
  - apply boundary_iff; [done|rewrite length_drop; lia|]; rewrite lookup_drop, Nat.add_comm, Nat.sub_add by done.
    apply boundary_iff in Hq; [done|done|lia].
Qed.

Lemma slice_valid content p q : ValidString content = true -> boundary (bytes_of content) p -> boundary (bytes_of content) q -> (p <= q)%nat ->
  ValidString (slice p q content) = true.
Proof.
  intros Hv Hp Hq Hle; unfold ValidString, slice; rewrite bytes_of_bytes.
  apply (proj1 (boundary_valid _ _ (proj2 (boundary_valid _ _ Hv Hp)) (boundary_drop _ _ _ Hv Hp Hq Hle))).
Qed.

(** The next piece, from a boundary on. *)
Lemma window_step content max start : ValidString content = true -> 4 <= max -> (0 < start < String.length content)%nat ->
  boundary (bytes_of content) start ->
  exists end_, boundary (bytes_of content) end_ /\ (start < end_ <= String.length content)%nat /\ (end_ - start <= Z.to_nat max)%nat /\
    byteWindowReadResult content (Z.of_nat start) max =
      MkReadOutput (slice start end_ content) 0 0 0 (end_ <? String.length content)%nat (Z.of_nat start) (Z.of_nat end_)
        (if (end_ <? String.length content)%nat then Z.of_nat end_ else 0) (len content) (negb (end_ <? String.length content)%nat) "".
Proof.
  intros Hv Hmax Hs Hb; set (stop := Z.to_nat (Z.min (Z.of_nat start + max) (len content))); pose proof (length_bytes_of content) as Hlen.
  assert (Hstop : (start <= stop <= String.length content)%nat) by (unfold stop, len; lia).
  pose proof (proj1 (boundary_iff (bytes_of content) start Hv ltac:(rewrite Hlen; lia)) Hb) as (a & Ha & Hst).
  destruct (snapBack_spec (bytes_of content) stop start Hv Hb ltac:(rewrite Hlen; lia)) as (He & Hr & Hlast).
  set (end_ := snapBackToRuneBoundary (bytes_of content) stop start) in *.
  exists end_; split_and!; [done| |lia|unfold stop in Hr; lia|].
  - destruct (boundary_near (bytes_of content) stop Hv ltac:(rewrite Hlen; lia)) as (q & Hq & Hq1 & Hq2).
    destruct (decide (stop = String.length content)) as [Hfull|Hpart].
    + destruct (Hlast stop ltac:(rewrite Hfull, <- Hlen; apply boundary_length) ltac:(lia)); lia.
    + assert (start < q)%nat by (unfold stop, len in *; lia); destruct (Hlast q Hq Hq1); lia.
  - unfold byteWindowReadResult; rewrite Z.min_l by (unfold len; lia); rewrite Nat2Z.id.
    assert (snapForwardToRuneBoundary content start = start) as ->.
    { unfold snapForwardToRuneBoundary; rewrite (drop_S _ _ _ Ha); cbn [continuation_run]; rewrite Hst; lia. }
    fold stop; fold end_; unfold len;
    destruct (Nat.ltb_spec end_ (String.length content)) as [Hlt|Hge].
    + rewrite (proj2 (Z.ltb_lt (Z.of_nat end_) (Z.of_nat (String.length content)))) by lia.
      by rewrite (proj2 (Z.ltb_lt 0 _)), (proj2 (Z.eqb_neq _ 0)) by lia.
    + by rewrite (proj2 (Z.ltb_ge (Z.of_nat end_) (Z.of_nat (String.length content)))) by lia.
Qed.

Lemma slice_slice content p q r : (p <= q <= r)%nat -> (r <= String.length content)%nat -> slice p q content +:+ slice q r content = slice p r content.
Proof.
  intros Hle Hr; apply bytes_of_eq; rewrite bytes_of_app; unfold slice; rewrite !bytes_of_bytes.
  set (l := bytes_of content).
  assert (Hq : take (r - q) (drop q l) = drop (q - p) (take (r - p) (drop p l))).
  { rewrite skipn_firstn_comm, drop_drop; f_equal; [lia|f_equal; lia]. }
  assert (Hp : take (q - p) (drop p l) = take (q - p) (take (r - p) (drop p l))) by (rewrite take_take; f_equal; lia).
  rewrite Hq, Hp; apply take_drop.
Qed.

Lemma slice_all content : slice 0 (String.length content) content = content.
Proof. unfold slice; rewrite Nat.sub_0_r, <- length_bytes_of, drop_0, firstn_all; apply of_bytes_of. Qed.

Definition fit (maxOutputBytes : Z) (piece : string) : Prop := len piece <= maxOutputBytes /\ ValidString piece = true.

Lemma window_pieces content max : ValidString content = true -> 4 <= max ->
  forall fuel start, (0 < start < String.length content)%nat -> boundary (bytes_of content) start -> (String.length content - start < fuel)%nat ->
  exists pieces, read_pieces fuel content max (Z.of_nat start) = Some pieces /\
    String.concat "" pieces = slice start (String.length content) content /\ Forall (fit max) pieces.
Proof.
  intros Hv Hmax; induction fuel as [|fuel IH]; intros start Hs Hb Hf; [lia|].
  destruct (window_step content max start Hv Hmax Hs Hb) as (end_ & He & Hr & Hsize & Hw).
  cbn [read_pieces]; unfold fileReadResult; cbn [StartByte read_at]; rewrite (proj2 (Z.ltb_lt 0 _)) by lia; rewrite Hw.
  cbn [mbind option_bind NextByte Output_Content].
  assert (Hfit : fit max (slice start end_ content)) by (split; [unfold len; rewrite length_slice; lia|apply slice_valid; auto; lia]).
  destruct (Nat.ltb_spec end_ (String.length content)) as [Hlt|Hge].
  - rewrite (proj2 (Z.eqb_neq _ 0)) by lia; destruct (IH end_ ltac:(lia) He ltac:(lia)) as (pieces & -> & Hc & Hall).
    exists (slice start end_ content :: pieces); split_and!; [done| |by constructor].
    assert (Hcons : forall p ps, String.concat "" (p :: ps) = p +:+ String.concat "" ps).
    { intros p [|p' ps]; [cbn; apply bytes_of_eq; rewrite bytes_of_app; cbn; by rewrite app_nil_r|done]. }
    rewrite Hcons, Hc; apply slice_slice; lia.
  - cbn; exists [slice start end_ content]; split_and!; [done| |by apply Forall_singleton].
    cbn; f_equal; lia.
Qed.

Lemma splitFileLines_nil content : splitFileLines content = [] -> content = "".
Proof.
  unfold splitFileLines; destruct (bool_decide (content = "")) eqn:He; [intros _; by apply bool_decide_eq_true in He|].
  destruct (bool_decide (TrimSuffix content nl = "")); [intros [=]|].
  destruct (Split_cons (TrimSuffix content nl) newline) as (x & xs & Hx); rewrite Hx; intros [=].
Qed.

(** The first piece, from the start of the file. *)
Lemma first_piece content max : ValidString content = true -> 4 <= max ->
  exists q output, boundary (bytes_of content) q /\ fileReadResult content (read_at 0) max = Some output /\
    Output_Content output = slice 0 q content /\ Z.of_nat q <= max /\ (q <= String.length content)%nat /\
    (NextByte output = 0 /\ q = String.length content \/ NextByte output = Z.of_nat q /\ (0 < q < String.length content)%nat).
Proof.
  intros Hv Hmax; pose proof (length_bytes_of content) as Hlen; unfold fileReadResult; cbn [StartByte StartLine read_at]; cbn [Z.ltb Z.leb Z.compare].
  destruct (Z.of_nat (length (splitFileLines content)) =? 0) eqn:Hz.
  { apply Z.eqb_eq in Hz; destruct (splitFileLines content) eqn:Hl; [|done]; apply splitFileLines_nil in Hl as ->.
    eexists 0%nat, _; split_and!; [apply boundary_0|done|done|lia|done|by left]. }
  unfold truncateTextByBytes; rewrite (proj2 (Z.leb_gt max 0)) by lia; cbn [orb].
  destruct (Z.leb_spec (len content) max) as [Hle|Hgt].
  - eexists (String.length content), _; split_and!; [rewrite <- Hlen; apply boundary_length|done|by rewrite slice_all|done|done|by left].
  - unfold len in Hgt; destruct (longest_valid_spec (bytes_of content) (Z.to_nat max) Hv ltac:(rewrite Hlen; lia)) as (q & -> & Hb & Hq & Hmost).
    destruct (boundary_near (bytes_of content) (Z.to_nat max) Hv ltac:(rewrite Hlen; lia)) as (p & Hp & Hp1 & Hp2); specialize (Hmost p Hp Hp1).
    assert (Hs : of_bytes (take q (bytes_of content)) = slice 0 q content) by (unfold slice; by rewrite Nat.sub_0_r, drop_0).
    eexists q, _; split_and!; [done|done|done|lia|lia|right]; cbn [NextByte].
    rewrite Hs; unfold len; rewrite length_slice by lia; split; lia.
Qed.

(** C14. A file can be read in pieces.  For a text of valid UTF-8 and a window of at least four
    bytes, reading from the start and then from the next byte each read names comes to the end
    of the text in at most two more reads than it has bytes; no piece is larger than the window, none
    cuts a character, and together they are the text. *)
Theorem pieces_make_the_file content maxOutputBytes :
  ValidString content = true -> 4 <= maxOutputBytes ->
  exists pieces, read_pieces (2 + String.length content) content maxOutputBytes 0 = Some pieces /\
    String.concat "" pieces = content /\ Forall (fit maxOutputBytes) pieces.
Proof.
  intros Hv Hmax; destruct (first_piece content maxOutputBytes Hv Hmax) as (q & output & Hb & Hread & Hc & Hsize & Hq & Hnext).
  assert (Hfit : fit maxOutputBytes (slice 0 q content)).
  { split; [unfold len; rewrite length_slice; lia|apply slice_valid; [done|apply boundary_0|done|lia]]. }
  change (2 + String.length content)%nat with (S (S (String.length content))); cbn [read_pieces]; rewrite Hread; cbn [mbind option_bind]; rewrite Hc.
  destruct Hnext as [[-> ->]|[-> Hrange]]; cbn [Z.eqb].
  - exists [slice 0 (String.length content) content]; split_and!; [done|apply slice_all|by apply Forall_singleton].
  - rewrite (proj2 (Z.eqb_neq _ 0)) by lia.
    destruct (window_pieces content maxOutputBytes Hv Hmax (S (String.length content)) q Hrange Hb ltac:(lia)) as (pieces & Hp & Hcat & Hall).
    cbn [read_pieces] in Hp; rewrite Hp; cbn [mbind option_bind].
    exists (slice 0 q content :: pieces); split_and!; [done| |by constructor].
    assert (Hcons : forall p ps, String.concat "" (p :: ps) = p +:+ String.concat "" ps).
    { intros p [|p' ps]; [apply bytes_of_eq; rewrite bytes_of_app; cbn; by rewrite app_nil_r|done]. }
    rewrite Hcons, Hcat, slice_slice by lia; apply slice_all.
Qed.

Lemma pieces_make_the_file_witness :
  read_pieces 12 "한국어" 4 0 = Some ["한"; "국"; "어"] /\
  exists pieces, read_pieces 11 "한국어" 4 0 = Some pieces /\ String.concat "" pieces = "한국어".
Proof.
  split; [vm_compute; reflexivity|].
  destruct (pieces_make_the_file "한국어" 4 ltac:(vm_compute; reflexivity) ltac:(lia)) as (pieces & Hp & Hc & _).
  exists pieces; split; [exact Hp|exact Hc].
Defined.

(** A window smaller than a character makes no progress: the read names the byte it started
    at as the next one, and, from the start of the file, none. *)
Lemma small_window_makes_no_progress :
  (NextByte <$> fileReadResult "a한" (read_at 1) 2, NextByte <$> fileReadResult "한국" (read_at 0) 2,
   IsEndOfFile <$> fileReadResult "한국" (read_at 0) 2) = (Some 1, Some 0, Some false).
Proof. vm_compute; reflexivity. Qed.

(** A count of lines near the largest integer wraps the last line, and slicing the lines panics. *)
Lemma large_line_count_panics :
  fileReadResult ("a" +:+ nl +:+ "b") (MkReadInput "" "" "" "" 0 2 int64_max 0) 1000 = None.
Proof. vm_compute; reflexivity. Qed.

(** ** An edit replaces one place *)

Lemma collapse_shift r i j l : (collapse_from r i l).*1 = (collapse_from r j l).*1.
Proof.
  revert r i j; induction l as [|a l IH]; intros r i j; cbn [collapse_from]; [done|].
  destruct (is_blank a), r; rewrite ?fmap_cons; try apply (f_equal (cons _)); apply IH.
Qed.

(** Where what is kept is cut, the text is cut. *)
Lemma collapse_split l r i k : (k <= length (collapse_from r i l))%nat ->
  exists l1 l2, l = (l1 ++ l2)%list /\ collapse_from r i l1 = take k (collapse_from r i l) /\
    collapse_from false (i + length l1)%nat l2 = drop k (collapse_from r i l) /\
    nth k ((collapse_from r i l).*2 ++ [(i + length l)%nat])%list O = (i + length l1)%nat.
Proof.
  revert r i k; induction l as [|a l IH]; intros r i k Hk.
  { exists [], []; cbn in *; assert (k = 0%nat) as -> by lia; cbn; by rewrite Nat.add_0_r. }
  cbn [collapse_from] in *; destruct (is_blank a) eqn:Hb; [destruct r|].
  - destruct (IH true (S i) k Hk) as (l1 & l2 & -> & H1 & H2 & H3); exists (a :: l1), l2; cbn [collapse_from app length].
    rewrite Hb, <- !Nat.add_succ_comm; done.
  - destruct k as [|k]; [exists [], (a :: l); cbn; rewrite Hb, Nat.add_0_r; done|].
    destruct (IH true (S i) k ltac:(cbn in Hk; lia)) as (l1 & l2 & -> & H1 & H2 & H3); exists (a :: l1), l2; cbn [collapse_from app length].
    rewrite Hb, <- !Nat.add_succ_comm; cbn; rewrite H1; done.
  - destruct k as [|k]; [exists [], (a :: l); cbn; rewrite Hb, Nat.add_0_r; done|].
    destruct (IH false (S i) k ltac:(cbn in Hk; lia)) as (l1 & l2 & -> & H1 & H2 & H3); exists (a :: l1), l2; cbn [collapse_from app length].
    rewrite Hb, <- !Nat.add_succ_comm; cbn; rewrite H1; done.
Qed.

(** An occurrence in the collapsed text is one of the text. *)
Lemma collapse_occurrence l before middle after :
  (collapse_from false 0%nat l).*1 = (before ++ middle ++ after)%list -> middle <> [] ->
  exists l1 l2 l3, l = (l1 ++ l2 ++ l3)%list /\ (collapse_from false 0%nat l2).*1 = middle /\
    nth (length before) ((collapse_from false 0%nat l).*2 ++ [length l])%list O = length l1 /\
    nth (length before + length middle)%nat ((collapse_from false 0%nat l).*2 ++ [length l])%list O = length (l1 ++ l2)%list.
Proof.
  intros Hc Hne; set (C := collapse_from false 0%nat l) in *.
  assert (HlenC : length C = (length before + length middle + length after)%nat) by (rewrite <- (length_fmap fst), Hc, !length_app; lia).
  destruct (collapse_split l false 0 (length before + length middle)%nat) as (p & l3 & -> & Hp & _ & Hend); [fold C; lia|]; fold C in Hp, Hend.
  assert (Hm0 : (0 < length middle)%nat) by (destruct middle; [done|cbn; lia]).
  destruct (collapse_split p false 0 (length before)) as (l1 & l2 & -> & _ & H2 & Hstart); [rewrite Hp, length_take; lia|].
  exists l1, l2, l3; split_and!; [by rewrite <- app_assoc| | |exact Hend].
  - rewrite (collapse_shift false 0 (0 + length l1)), H2, Hp, fmap_drop, fmap_take, Hc, app_assoc.
    rewrite take_app_le, firstn_all2, drop_app_length by (rewrite length_app; lia); done.
  - cbn [Nat.add] in Hstart; rewrite <- Hstart, Hp; rewrite !app_nth1 by (rewrite length_fmap, ?length_take; lia).
    rewrite fmap_take; rewrite <- (take_drop (length before + length middle) C.*2) at 1; rewrite app_nth1 by (rewrite length_take, length_fmap; lia); done.
Qed.

Lemma slice_of_bytes first last_ l : slice first last_ (of_bytes l) = of_bytes (take (last_ - first) (drop first l)).
Proof. unfold slice; by rewrite bytes_of_bytes. Qed.

Lemma whitespace_edit content oldText newText updated : applyWhitespaceTolerantEdit content oldText newText = Ok updated ->
  exists before span after, content = before +:+ span +:+ after /\ updated = before +:+ newText +:+ after /\
    (collapseInlineWhitespace span).1 = (collapseInlineWhitespace oldText).1.
Proof.
  unfold applyWhitespaceTolerantEdit; destruct (blank _) eqn:Hb; [done|].
  destruct (collapseInlineWhitespace content) as [normalized offsets] eqn:Hn; set (old := (collapseInlineWhitespace oldText).1) in *.
  destruct (Count normalized old =? 1)%nat eqn:Hcount; [|done]; cbn [negb]; intros [= <-]; apply Nat.eqb_eq in Hcount.
  assert (Hold : old <> "") by (intros He; rewrite He in Hb; done).
  destruct (Count_Cut normalized old Hold ltac:(lia)) as (before & after & Hcut).
  assert (Hi : Index normalized old = Some (String.length before)) by (apply Cut_Index; eauto); rewrite Hi; cbn [default].
  apply Cut_app in Hcut; injection Hn as Hn Ho; set (l := bytes_of content) in *.
  assert (Hl : (collapse_from false 0%nat l).*1 = (bytes_of before ++ bytes_of old ++ bytes_of after)%list).
  { rewrite <- !bytes_of_app, <- Hcut, <- Hn; by rewrite bytes_of_bytes. }
  destruct (collapse_occurrence l _ _ _ Hl) as (l1 & l2 & l3 & Heq & Hmid & H1 & H2).
  { intros He; apply Hold, bytes_of_eq; by rewrite He. }
  rewrite <- Ho; unfold l in H1, H2; rewrite !length_bytes_of in H1; rewrite !length_bytes_of in H2; unfold id, l.
  exists (of_bytes l1), (of_bytes l2), (of_bytes l3); split_and!.
  - apply bytes_of_eq; rewrite !bytes_of_app, !bytes_of_bytes; exact Heq.
  - rewrite H1, H2, <- length_bytes_of; unfold slice; fold l; rewrite Heq.
    rewrite drop_0, Nat.sub_0_r, take_app_length; f_equal; f_equal.
    by rewrite app_assoc, drop_app_length, length_app, Nat.add_comm, Nat.add_sub, firstn_all.
  - unfold collapseInlineWhitespace at 1; cbn [fst]; rewrite bytes_of_bytes, Hmid; apply of_bytes_of.
Qed.

Lemma lookalike_valid r : valid_rune r = true -> valid_rune (lookalike r) = true.
Proof. unfold lookalike; intros Hr; repeat case_bool_decide; done. Qed.

Lemma lookalikes_valid s : forallb valid_rune (lookalike <$> runes s) = true.
Proof.
  pose proof (runes_valid s) as Hv; induction (runes s) as [|r rs IH]; [done|]; cbn in *.
  apply andb_true_iff in Hv as [Hr Hrs]; by rewrite lookalike_valid, IH.
Qed.

Lemma runes_normalizeEditLookalikes s : runes (normalizeEditLookalikes s) = lookalike <$> runes s.
Proof. apply runes_of_runes, lookalikes_valid. Qed.

Lemma lookalike_edit content oldText newText updated : ValidString content = true -> oldText <> "" ->
  applyUnicodeNormalizedEdit content oldText newText = Ok updated ->
  exists before span after, content = before +:+ span +:+ after /\ updated = before +:+ newText +:+ after /\
    normalizeEditLookalikes span = normalizeEditLookalikes oldText.
Proof.
  intros Hv Hne; unfold applyUnicodeNormalizedEdit; set (old := normalizeEditLookalikes oldText); set (text := normalizeEditLookalikes content).
  destruct (Count text old =? 1)%nat eqn:Hcount; [|done]; cbn [negb]; intros Hu; apply Ok_inj in Hu; subst updated; apply Nat.eqb_eq in Hcount.
  assert (Hold : old <> "").
  { intros He; apply Hne, runes_nil, (fmap_nil_inv lookalike); by rewrite <- runes_normalizeEditLookalikes; fold old; rewrite He. }
  destruct (Count_Cut text old Hold ltac:(lia)) as (before & after & Hcut).
  assert (Hi : Index text old = Some (String.length before)) by (apply Cut_Index; eauto); rewrite Hi; cbn [default]; unfold id.
  apply Cut_app in Hcut.
  assert (Htext : ValidString (before +:+ old +:+ after) = true) by (rewrite <- Hcut; apply valid_of_runes, lookalikes_valid).
  assert (Holdv : ValidString old = true) by (apply valid_of_runes, lookalikes_valid).
  pose proof (valid_before _ _ _ Htext Holdv Hold) as Hbv.
  assert (Hs : slice 0 (String.length before) text = before) by (rewrite Hcut; apply (slice_app "" before)); rewrite Hs.
  pose proof (runes_normalizeEditLookalikes content) as Hr; fold text in Hr.
  rewrite Hcut, runes_app, runes_app in Hr by done; symmetry in Hr.
  apply fmap_app_inv in Hr as (rb & rest & Hrb & Hrest & Hc); symmetry in Hrest; apply fmap_app_inv in Hrest as (ro & ra & Hro & Hra & ->).
  rewrite Hrb, Hro, !length_fmap, Hc, take_app_length; exists (of_runes rb), (of_runes ro), (of_runes ra); split_and!.
  - rewrite <- (of_runes_runes content Hv) at 1; by rewrite Hc, !of_runes_app.
  - by rewrite app_assoc, <- length_app, drop_app_length.
  - pose proof (runes_valid content) as Hall; rewrite Hc, !forallb_app in Hall; apply andb_true_iff in Hall as [_ [Hall _]%andb_true_iff].
    unfold normalizeEditLookalikes at 1; rewrite runes_of_runes, <- Hro by done; by apply of_runes_runes.
Qed.

(** A line without the blanks around it, and texts whose lines are the same but for those. *)
Definition solid_line (line : string) : string := TrimLeft (TrimRight line blanks) blanks.
Definition same_lines (text given : string) : Prop :=
  exists lines, text = Join nl lines /\ solid_line <$> lines = solid_line <$> Split given newline.

Definition solid_bytes (l : bytes) : bytes := skip_set blanks (rev (skip_set blanks (rev l))).

Lemma bytes_of_solid line : bytes_of (solid_line line) = solid_bytes (bytes_of line).
Proof. unfold solid_line, TrimLeft, TrimRight; by rewrite !bytes_of_bytes. Qed.

Lemma skip_set_snoc set l a : a ∈ set -> skip_set set (l ++ [a]) = match skip_set set l with [] => [] | rest => (rest ++ [a])%list end.
Proof.
  intros Ha; induction l as [|b l IH]; cbn; [by rewrite bool_decide_eq_true_2|]; by destruct (bool_decide (b ∈ set)).
Qed.

Lemma solid_app p l : Forall (fun a => a ∈ blanks) p -> solid_bytes (p ++ l) = solid_bytes l.
Proof.
  induction 1 as [|a p Ha _ IH]; [done|]; rewrite <- IH; unfold solid_bytes; cbn [app rev]; rewrite skip_set_snoc by done.
  destruct (skip_set blanks (rev (p ++ l))) as [|b rest]; [done|]; rewrite rev_app_distr; cbn [rev app skip_set].
  by rewrite (bool_decide_eq_true_2 _ Ha).
Qed.

Lemma skip_set_split set l : exists p, l = (p ++ skip_set set l)%list /\ Forall (fun a => a ∈ set) p.
Proof.
  induction l as [|a l (p & Hl & Hp)]; [by exists []|]; cbn [skip_set]; case_bool_decide as Ha; [|by exists []].
  exists (a :: p); split; [cbn; by rewrite <- Hl|by constructor].
Qed.

(** The first bytes of a line, up to its indentation, are blanks. *)
Lemma take_indent set n l : (n + length (skip_set set l) <= length l)%nat -> Forall (fun a => a ∈ set) (take n l).
Proof.
  destruct (skip_set_split set l) as (p & Hl & Hp); rewrite Hl at 2 3; rewrite length_app; intros Hn.
  rewrite take_app_le by lia; by apply Forall_take.
Qed.

Lemma length_TrimLeft s : String.length (TrimLeft s blanks) = length (skip_set blanks (bytes_of s)).
Proof. unfold TrimLeft; by rewrite <- length_bytes_of, bytes_of_bytes. Qed.

Lemma bytes_of_slice first last_ s : bytes_of (slice first last_ s) = take (last_ - first) (drop first (bytes_of s)).
Proof. unfold slice; apply bytes_of_bytes. Qed.

Lemma solid_slice amount line : (amount + String.length (TrimLeft line blanks) <= String.length line)%nat ->
  solid_line (slice amount (String.length line) line) = solid_line line.
Proof.
  rewrite length_TrimLeft, <- length_bytes_of; intros Hle; apply bytes_of_eq; rewrite !bytes_of_solid, bytes_of_slice.
  rewrite firstn_all2 by (rewrite length_drop; lia).
  rewrite <- (take_drop amount (bytes_of line)) at 2; by rewrite solid_app by (by apply (take_indent blanks)).
Qed.

(** No line that is not blank is indented less than the least indentation. *)
Lemma minCommon_fold lines least :
  (forall least0, least = Some least0 -> exists n, foldl smaller_indent least lines = Some n /\ (n <= least0)%nat) /\
  forall line, line ∈ lines -> blank line = false -> exists n, foldl smaller_indent least lines = Some n /\ (n <= String.length line - String.length (TrimLeft line blanks))%nat.
Proof.
  revert least; induction lines as [|first lines IH]; intros least.
  { split; [intros ? ->; by eexists|by intros line ?%not_elem_of_nil]. }
  cbn [foldl]; set (next := smaller_indent least first); destruct (IH next) as [Hleast Hlines]; split.
  - intros least0 ->; subst next; unfold smaller_indent in *; destruct (blank first); [by apply Hleast|].
    destruct (Nat.ltb_spec (String.length first - String.length (TrimLeft first blanks)) least0);
      edestruct Hleast as (n & Hn & Hle); [reflexivity| |reflexivity|]; exists n; split; (done || lia).
  - intros line [->|Hin]%elem_of_cons Hb; [|by apply Hlines]; subst next; unfold smaller_indent in *; rewrite Hb in *; destruct least as [least|].
    + destruct (Nat.ltb_spec (String.length first - String.length (TrimLeft first blanks)) least);
        edestruct Hleast as (n & Hn & Hle); [reflexivity| |reflexivity|]; exists n; split; (done || lia).
    + by apply Hleast.
Qed.

Lemma outdent_solid lines all : lines ⊆ all -> solid_line <$> outdentLines lines (minCommonLeadingWhitespace all) = solid_line <$> lines.
Proof.
  intros Hsub; unfold outdentLines; rewrite <- list_fmap_compose; apply list_fmap_ext; intros i line Hline; unfold compose.
  apply list_elem_of_lookup_2 in Hline; destruct (blank line) eqn:Hb; [done|].
  destruct (String.length line <? minCommonLeadingWhitespace all)%nat eqn:Hlen; [done|]; cbn [orb].
  apply Nat.ltb_ge in Hlen; apply solid_slice; unfold minCommonLeadingWhitespace in *.
  destruct (proj2 (minCommon_fold all None) line (Hsub _ Hline) Hb) as (n & Hn & Hle); rewrite Hn in *; cbn in *; unfold id in *.
  assert (String.length (TrimLeft line blanks) <= String.length line)%nat; [|lia].
  rewrite length_TrimLeft, <- length_bytes_of; destruct (skip_set_split blanks (bytes_of line)) as (p & Hl & _).
  rewrite Hl at 2; rewrite length_app; lia.
Qed.

Lemma solid_prefixed prefix line : Forall (fun a => a ∈ blanks) (bytes_of prefix) -> solid_line (prefix +:+ line) = solid_line line.
Proof. intros Hp; apply bytes_of_eq; rewrite !bytes_of_solid, bytes_of_app; by apply solid_app. Qed.

(** What a line has in front of the pattern that matches it is blanks. *)
Lemma line_prefixes_blank window pattern prefixes :
  (fun line => TrimLeft line blanks) <$> window = (fun line => TrimLeft line blanks) <$> pattern -> line_prefixes window pattern = Some prefixes ->
  Forall (fun prefix => Forall (fun a => a ∈ blanks) (bytes_of prefix)) prefixes.
Proof.
  revert pattern prefixes; induction window as [|line window IH]; intros [|patternLine pattern] prefixes Heq; cbn [line_prefixes]; try (by intros [= <-]).
  rewrite !fmap_cons in Heq; injection Heq as Hline Heq; destruct (blank line); [by apply IH|].
  destruct (Nat.ltb_spec (String.length line) (String.length patternLine)) as [|Hle]; [done|].
  destruct (line_prefixes window pattern) as [rest|] eqn:Hrest; [|done]; intros [= <-]; constructor; [|by eapply IH].
  rewrite bytes_of_slice, drop_0, Nat.sub_0_r; apply take_indent; rewrite <- length_TrimLeft, Hline, length_TrimLeft, length_bytes_of.
  destruct (skip_set_split blanks (bytes_of patternLine)) as (p & Hl & _).
  assert (length (skip_set blanks (bytes_of patternLine)) <= String.length patternLine)%nat; [|lia].
  rewrite <- (length_bytes_of patternLine); rewrite Hl at 2; rewrite length_app; lia.
Qed.

Lemma match_but_solid windowLines patternLines prefix : matchButForLeadingWhitespace windowLines patternLines = Some prefix ->
  solid_line <$> windowLines = solid_line <$> patternLines /\ length windowLines = length patternLines /\
  Forall (fun a => a ∈ blanks) (bytes_of prefix).
Proof.
  unfold matchButForLeadingWhitespace; destruct (Nat.eqb_spec (length windowLines) (length patternLines)) as [Hlen|]; [|done].
  case_bool_decide as Heq; [|done]; cbn [negb]; destruct (line_prefixes _ _) as [prefixes|] eqn:Hp; [|done]; cbn [mbind option_bind].
  pose proof (line_prefixes_blank _ _ _ Heq Hp) as Hall; intros Hd; split_and!; [|done|].
  - unfold rightTrimLines in Heq; rewrite <- !list_fmap_compose in Heq; exact Heq.
  - destruct (remove_dups prefixes) as [|first [|second rest]] eqn:Hr; [by injection Hd as <-; constructor| |done]; injection Hd as ->.
    rewrite Forall_forall in Hall; apply Hall, elem_of_remove_dups; rewrite Hr; by apply list_elem_of_singleton.
Qed.

Lemma line_matches_one fileLines partLines m prefix : line_matches fileLines partLines = [(m, prefix)] ->
  matchButForLeadingWhitespace (take (length partLines) (drop m fileLines)) partLines = Some prefix.
Proof.
  intros Hm; assert (Hin : (m, prefix) ∈ line_matches fileLines partLines) by (rewrite Hm; by apply list_elem_of_singleton).
  unfold line_matches in Hin; apply list_elem_of_omap in Hin as (index & _ & Hi).
  destruct (matchButForLeadingWhitespace _ _) as [prefix'|] eqn:He; [|done]; by injection Hi as -> ->.
Qed.

(** Lines that are replaced, in the text of the file. *)
Lemma Join_middle sep xs ys : exists before after, forall lines, lines <> [] -> Join sep (xs ++ lines ++ ys) = before +:+ Join sep lines +:+ after.
Proof.
  exists (match xs with [] => "" | _ => Join sep xs +:+ sep end), (match ys with [] => "" | _ => sep +:+ Join sep ys end).
  intros [|line lines] Hne; [done|].
  assert (Hend : Join sep ((line :: lines) ++ ys) = Join sep (line :: lines) +:+ (match ys with [] => "" | _ => sep +:+ Join sep ys end)).
  { destruct ys as [|y ys]; [|apply Join_app]; rewrite app_nil_r; apply bytes_of_eq; by rewrite bytes_of_app, app_nil_r. }
  destruct xs as [|x xs]; [exact Hend|]; rewrite <- Hend; cbn [app]; rewrite append_assoc; apply (Join_app sep x xs line (lines ++ ys)).
Qed.

Lemma lines_edit content oldText newText updated : replacePartWithMissingLeadingWhitespace content oldText newText = Some updated ->
  exists before span after replacement, content = before +:+ span +:+ after /\ updated = before +:+ replacement +:+ after /\
    same_lines span oldText /\ same_lines replacement newText.
Proof.
  unfold replacePartWithMissingLeadingWhitespace; destruct (_ <? _)%nat; [done|].
  set (all := (Split oldText newline ++ Split newText newline)%list); set (least := minCommonLeadingWhitespace all).
  set (part := if (0 <? least)%nat then _ else _); set (given := if (0 <? least)%nat then outdentLines (Split newText newline) least else _).
  assert (Hpart : solid_line <$> part = solid_line <$> Split oldText newline).
  { subst part; destruct (0 <? least)%nat; [|done]; apply outdent_solid; unfold all; set_solver. }
  assert (Hgiven : solid_line <$> given = solid_line <$> Split newText newline).
  { subst given; destruct (0 <? least)%nat; [|done]; apply outdent_solid; unfold all; set_solver. }
  destruct (line_matches _ part) as [|[m prefix] [|]] eqn:Hm; [done| |done]; intros [= <-].
  apply line_matches_one, match_but_solid in Hm as (Hsolid & Hlen & Hprefix); set (file := Split content newline) in *.
  set (window := take (length part) (drop m file)) in *; set (lines := _ <$> given).
  destruct (Join_middle nl (take m file) (drop (m + length part) file)) as (before & after & Hjoin).
  assert (Hfile : file = (take m file ++ window ++ drop (m + length part) file)%list).
  { rewrite <- (take_drop m file) at 1; f_equal; unfold window; rewrite <- drop_drop; symmetry; apply take_drop. }
  assert (Hne : forall l s, solid_line <$> l = solid_line <$> Split s newline -> l <> []).
  { intros l s Hl ->; destruct (Split_cons s newline) as (x & xs & Hx); by rewrite Hx in Hl. }
  assert (Hlines : solid_line <$> lines = solid_line <$> Split newText newline).
  { rewrite <- Hgiven; subst lines; rewrite <- list_fmap_compose; apply list_fmap_ext; intros i line _; unfold compose.
    destruct (blank line); [done|by apply solid_prefixed]. }
  exists before, (Join nl window), after, (Join nl lines); split_and!.
  - rewrite <- Hjoin, <- Hfile by (apply (Hne _ oldText); by rewrite Hsolid); symmetry; apply Join_Split.
  - by rewrite <- Hjoin by by apply (Hne _ newText).
  - exists window; split; [done|by rewrite Hsolid].
  - by exists lines.
Qed.

Lemma exact_edit content oldText newText : oldText <> "" -> Count content oldText = 1%nat ->
  exists before after, content = before +:+ oldText +:+ after /\ ReplaceFirst content oldText newText = before +:+ newText +:+ after.
Proof.
  intros Hne Hc; destruct (Count_Cut content oldText Hne ltac:(lia)) as (before & after & Hcut); exists before, after.
  unfold ReplaceFirst; rewrite Hcut; split; [by apply Cut_app|done].
Qed.

(** How what is replaced, and what it is replaced by, stand for the two texts of the edit. *)
Inductive edit_layer (oldText newText span replacement : string) : Prop :=
| layer_exact : span = oldText -> replacement = newText -> edit_layer oldText newText span replacement
| layer_lines : same_lines span oldText -> same_lines replacement newText -> edit_layer oldText newText span replacement
| layer_lookalikes : normalizeEditLookalikes span = normalizeEditLookalikes oldText -> replacement = newText ->
    edit_layer oldText newText span replacement
| layer_blanks : (collapseInlineWhitespace span).1 = (collapseInlineWhitespace oldText).1 -> replacement = newText ->
    edit_layer oldText newText span replacement.

(** An edit changes one place.  In a file of valid UTF-8, an edit that succeeds replaces one
    part of the text and leaves what is before and after it byte for byte.  The part that is
    replaced is the old text itself, or has its lines but for the blanks around them (and then
    so has the replacement those of the new text), or is the same but for look-alike quotes,
    dashes and spaces, or but for the length of its runs of blanks. *)
Theorem edits_change_one_place content oldText newText updated : ValidString content = true ->
  applyExactOrTolerantEdit content oldText newText = Ok updated ->
  exists before span after replacement, content = before +:+ span +:+ after /\ updated = before +:+ replacement +:+ after /\
    edit_layer oldText newText span replacement.
Proof.
  intros Hv; unfold applyExactOrTolerantEdit; case_bool_decide as Hne; [done|]; destruct (1 <? _)%nat; [done|].
  destruct (Nat.eqb_spec (Count content oldText) 1) as [Hone|_].
  { intros [= <-]; destruct (exact_edit content oldText newText Hne Hone) as (b & a & -> & Hu).
    exists b, oldText, a, newText; by eauto using layer_exact. }
  destruct (replacePartWithMissingLeadingWhitespace _ _ _) as [lines|] eqn:Hlines.
  { intros [= <-]; apply lines_edit in Hlines as (b & s & a & r & ? & ? & ? & ?); exists b, s, a, r; eauto using layer_lines. }
  destruct (applyUnicodeNormalizedEdit _ _ _) as [text|count] eqn:Hlook.
  { intros [= <-]; apply lookalike_edit in Hlook as (b & s & a & ? & ? & ?); [|done..]; exists b, s, a, newText; eauto using layer_lookalikes. }
  destruct (1 <? count)%nat; [done|]; destruct (applyWhitespaceTolerantEdit _ _ _) as [text|] eqn:Hspace; [|done]; intros [= <-].
  apply whitespace_edit in Hspace as (b & s & a & ? & ? & ?); exists b, s, a, newText; eauto using layer_blanks.
Qed.

Lemma edits_change_one_place_witness :
  applyExactOrTolerantEdit "let x  =  ‘a’" "x = ‘a’" "x = 1" = Ok "let x = 1" /\
  exists before span after replacement, "let x  =  ‘a’" = before +:+ span +:+ after /\ "let x = 1" = before +:+ replacement +:+ after /\
    edit_layer "x = ‘a’" "x = 1" span replacement.
Proof.
  assert (He : applyExactOrTolerantEdit "let x  =  ‘a’" "x = ‘a’" "x = 1" = Ok "let x = 1") by (vm_compute; reflexivity).
  assert (Hv : ValidString "let x  =  ‘a’" = true) by (vm_compute; reflexivity).
  split; [exact He|exact (edits_change_one_place "let x  =  ‘a’" "x = ‘a’" "x = 1" "let x = 1" Hv He)].
Defined.

(** Occurrences that overlap are counted once: the old text stands at two places, and the edit
    takes the first. *)
Lemma overlapping_occurrences_count_once :
  (Count "ababa" "aba", applyExactOrTolerantEdit "ababa" "aba" "x") = (1%nat, Ok "xba").
Proof. vm_compute; reflexivity. Qed.

(** In a file that is not valid UTF-8 the look-alike layer rewrites bytes far from the edit. *)
Lemma lookalike_edit_rewrites_other_bytes :
  applyExactOrTolerantEdit (of_bytes [byte_of 233; "010"%char] +:+ "say “hi”") ("say " +:+ String double_quote "hi" +:+ String double_quote "") "bye" =
    Ok (of_bytes [byte_of 239; byte_of 191; byte_of 189; "010"%char] +:+ "bye").
Proof. vm_compute; reflexivity. Qed.
