(* ===== verification/FileTools.v ===== *)
(** * The file tools ([agentruntime/file_tools.go], [requester_shell.go], [delivery_check.go],
    [delivered_file_metadata.go], and of [tool_catalog.go] the actor of a request, its
    failures and the paths)

    A tool does nothing to a file itself: it runs a shell command as the requester, through
    the workspace actor.  The actor, the documents of encoding/json, the conversion and image
    capabilities and the terminal are the fields of a class; the world they act on is a
    type, and what a theorem needs of the shell is a class of laws, of which [PosixShell] is
    an instance: an interpreter of the commands the tools write, quoting included. *)

From S2P Require Export FileEdits Attachments.
From S2P Require Import GoBase64.

Open Scope Z_scope.

(** ** Data *)

Record WorkspaceActorError := MkActorError {
  Operation : string;
  Error_Stage : string;
  ActorUser : string;
  VirtualPath : string;
  Error_Code : string;
  Detail : string;
}.

(** An error is one of the actor's or another, its text. *)
Inductive actor_failure :=
| ActorFailed (e : WorkspaceActorError)
| OtherFailure (text : string).

Definition ActorErrorCodeIdentityMissing : string := "actor_identity_missing".
Definition ActorErrorCodeRuntimeUnavailable : string := "actor_runtime_unavailable".
Definition ActorErrorCodePermissionDenied : string := "permission_denied".
Definition ActorErrorCodeNotFound : string := "not_found".
Definition ActorErrorCodeInvalidPath : string := "invalid_path".
Definition ActorErrorCodeOperationFailed : string := "operation_failed".

(** The fields of [security.CommandRequest] the file tools set. *)
Record CommandRequest := MkCommandRequest {
  Command : string;
  Stdin : string;
  EnvironmentVariables : gmap string string;
  TimeoutSecond : Z;
  OutputMaximumBytes : Z;
  Request_ExecutionIdentity : ExecutionIdentity;
}.

Record CommandResult := MkCommandResult { ExitCode : Z; Stdout : string; Stderr : string }.

Record requesterShellCommand := MkShellCommand {
  Shell_Command : string;
  Shell_Stdin : string;
  Shell_TimeoutSecond : Z;
  Shell_OutputMaximumBytes : Z;
}.

Record requesterShellOutcome := MkOutcome {
  Outcome_Result : CommandResult;
  Outcome_Identity : ExecutionIdentity;
  RunError : option actor_failure;
}.

(** A [map[string]any] that a tool answers with. *)
Inductive document_value :=
| VText (s : string)
| VInt (z : Z)
| VFlag (b : bool)
| VTexts (l : list string).

Definition document := gmap string document_value.

Inductive FailureKind :=
| FailureInvalidInput
| FailureExternalService
| FailurePermissionDenied
| FailureNotFound
| FailureDependencyUnavailable.

Record ToolFailure := MkFailure {
  Failure_Kind : FailureKind;
  Failure_Stage : string;
  UserSafeSummary : string;
  Retryable : bool;
  RetryPolicy : string;
}.

Record DeliveredFile := MkDelivered {
  DevicePath : string;
  Filename : string;
  ContentType : string;
  SizeBytes : Z;
  Title : string;
  ContentBase64 : string;
  Holds : string;
}.

Record ToolResult := MkToolResult {
  Content : string;
  Data : option document;
  Failure : option ToolFailure;
  Result_Attachments : list DeliveredFile;
  ReplyNotes : list string;
}.

Record deliveredFileMetadata := MkMetadata { Metadata_Holds : string; Notes : list string; Refusal : string }.
Definition no_metadata : deliveredFileMetadata := MkMetadata "" [] "".

Record SkillCheck := MkSkillCheck { Check_Name : string; DirectoryPath : string; DeliveryCheck : string }.

(** What the tools run on.  An actor is the person it acts for. *)
Class ToolHost (World : Type) := {
  workspaceRootPath : string;
  workspaceActorFactory : option (Access.PersonAccess -> World -> World * option actor_failure);
  Run : Access.PersonAccess -> CommandRequest -> World -> World * (CommandResult * option actor_failure);
  ReadFile : Access.PersonAccess -> string -> Z -> World -> result actor_failure string;
  StatModified : Access.PersonAccess -> string -> World -> option Z;
  MarshalBody : document -> string;
  UnmarshalMetadata : string -> option deliveredFileMetadata;
  FileHoldsOf : string -> option string;
  TypeByExtension : string -> string;
  (** [url.Parse]: the scheme and the host *)
  url_parts : string -> option (string * string);
  (** The image capability, when there is one, and the conversion capability, when there is a client for it. *)
  image_read : option (string -> World -> World * ToolResult);
  document_read : option (Access.PersonAccess -> string -> World -> World * option (string * bool * string));
  skill_checks : World -> list SkillCheck;
  (** The terminal tool: what it failed with, if it failed. *)
  run_terminal : string -> World -> World * option string;
}.

(** The fields of the request of a catalog that files are found and read by. *)
Record ToolCatalogRequest (World : Type) := MkCatalogRequest {
  Request_PersonAccess : Access.PersonAccess;
  Request_RequesterPersonID : string;
  Request_InputParts : list AgentPart;
  Request_VisibleContext : AgentVisibleContext;
  AttachmentMaterialResolver : option (string -> World -> World * result string VisibleContextMaterial);
}.
Arguments MkCatalogRequest {World}.
Arguments Request_PersonAccess {World}.
Arguments Request_RequesterPersonID {World}.
Arguments Request_InputParts {World}.
Arguments Request_VisibleContext {World}.
Arguments AttachmentMaterialResolver {World}.

(** ** Paths and the shell *)

Definition single_quote : string := String "'"%char "".

Definition shellSingleQuoted (value : string) : string :=
  single_quote +:+ ReplaceByte value "'"%char (single_quote +:+ "\" +:+ single_quote +:+ single_quote) +:+ single_quote.

Definition quoted_home : string := String double_quote "$HOME" +:+ String double_quote "".

Definition shellPathArgument (path : string) : string :=
  if bool_decide (path = "~") then quoted_home else
  if HasPrefix path "~/" then quoted_home +:+ "/" +:+ shellSingleQuoted (TrimPrefix path "~/") else
  shellSingleQuoted path.

Definition requesterShellScript (command : string) : string :=
  "mkdir -p -- " +:+ quoted_home +:+ " && cd -- " +:+ quoted_home +:+ " || exit 1" +:+ nl +:+ command.

Definition requesterShellEnvironment (executionIdentity : ExecutionIdentity) : gmap string string :=
  if blank (HomeDirectoryPath executionIdentity) then ∅ else {["HOME" := HomeDirectoryPath executionIdentity]}.

Definition fileWriteShellCommand (path : string) : string :=
  let pathArgument := shellPathArgument path in
  "mkdir -p -- " +:+ String double_quote "$(dirname -- " +:+ pathArgument +:+ ")" +:+ String double_quote " && cat > " +:+ pathArgument.

Definition fileReadShellCommand (path : string) (readLimitBytes : Z) : string :=
  let pathArgument := shellPathArgument path in
  "wc -c < " +:+ pathArgument +:+ " && head -c " +:+ Itoa readLimitBytes +:+ " < " +:+ pathArgument.

Definition fileReadShellOutputReserveBytes : Z := 64.

Definition parseFileReadShellOutput (stdout : string) : option (Z * string) :=
  let '(sizeLine, content) := default (stdout, "") (Cut stdout nl) in
  match Atoi (TrimSpace sizeLine) with
  | Some sizeBytes => if sizeBytes <? 0 then None else Some (sizeBytes, content)
  | None => None
  end.

(** ** Results *)

Definition ToolFailureResult (kind : FailureKind) (stage message : string) : ToolResult :=
  MkToolResult message None (Some (MkFailure kind stage message false "")) [] [].

(** [Error()] of an error *)
Definition failure_text (errorValue : actor_failure) : string :=
  match errorValue with
  | ActorFailed e =>
    "actor." +:+ Operation e +:+ " failed for " +:+ firstNonEmptyString [VirtualPath e; "workspace path"] +:+ " as " +:+
    firstNonEmptyString [ActorUser e; "unknown"] +:+ ": " +:+ firstNonEmptyString [Detail e; "operation failed"]
  | OtherFailure text => text
  end.

Definition actorFailureDetail (errorValue : actor_failure) : string :=
  match errorValue with
  | ActorFailed e => firstNonEmptyString [TrimSpace (Detail e); failure_text errorValue]
  | OtherFailure text => text
  end.

Definition actorFailureCode (errorValue : actor_failure) : string :=
  match errorValue with ActorFailed e => TrimSpace (Error_Code e) | OtherFailure _ => ActorErrorCodeOperationFailed end.

Definition actorFailureUser (errorValue : actor_failure) : string :=
  match errorValue with ActorFailed e => TrimSpace (ActorUser e) | OtherFailure _ => "" end.

Definition actorFailureMessage (operation virtualPath : string) (errorValue : actor_failure) : string :=
  let actorUser := actorFailureUser errorValue in
  "actor." +:+ operation +:+ " failed for " +:+ TrimSpace virtualPath +:+ " as " +:+
  (if bool_decide (actorUser = "") then "unknown" else actorUser) +:+ ": " +:+ actorFailureDetail errorValue.

Definition actorFailureDataFields (operation stage virtualPath : string) (errorValue : actor_failure) : document :=
  list_to_map [("operation", VText operation); ("stage", VText stage); ("virtualPath", VText virtualPath);
    ("code", VText (actorFailureCode errorValue)); ("detail", VText (actorFailureDetail errorValue));
    ("actorUser", VText (actorFailureUser errorValue))].

Definition actor_failure_kind (code : string) : FailureKind :=
  if bool_decide (code = ActorErrorCodePermissionDenied) then FailurePermissionDenied else
  if bool_decide (code = ActorErrorCodeNotFound) then FailureNotFound else
  if bool_decide (code = ActorErrorCodeInvalidPath) then FailureInvalidInput else FailureExternalService.

Definition actorToolFailure (operation stage virtualPath : string) (errorValue : actor_failure) : ToolResult :=
  let message := actorFailureMessage operation virtualPath errorValue in
  MkToolResult message (Some (actorFailureDataFields operation stage virtualPath errorValue))
    (Some (MkFailure (actor_failure_kind (actorFailureCode errorValue)) stage message true "")) [] [].

Section tools.
Context `{UnicodeTables} {World : Type} `{ToolHost World}.

Definition failureCode (outcome : requesterShellOutcome) : string :=
  let detail := ToLower (Stderr (Outcome_Result outcome)) in
  if Contains detail "no such file or directory" then ActorErrorCodeNotFound else
  if Contains detail "permission denied" || Contains detail "operation not permitted" || Contains detail "read-only file system"
  then ActorErrorCodePermissionDenied else
  if Contains detail "is a directory" then ActorErrorCodeInvalidPath else ActorErrorCodeOperationFailed.

Definition failureDetail (outcome : requesterShellOutcome) : string :=
  if negb (blank (Stderr (Outcome_Result outcome))) then TrimSpace (Stderr (Outcome_Result outcome)) else
  match RunError outcome with
  | Some errorValue => failure_text errorValue
  | None => "command failed"
  end.

Definition actorError (outcome : requesterShellOutcome) (operation path : string) : actor_failure :=
  ActorFailed (MkActorError operation "shell" (UserName (Outcome_Identity outcome)) path (failureCode outcome) (failureDetail outcome)).

Definition toolFailure (outcome : requesterShellOutcome) (operation stage path : string) : ToolResult :=
  actorToolFailure operation stage path (actorError outcome operation path).

Definition fileToolSuccess (doc : document) : ToolResult := MkToolResult (MarshalBody doc) (Some doc) None [] [].

Definition fileExactEditFailure (stage path : string) (editIndex matchCount : Z) (guidance : string) : ToolResult :=
  let doc := list_to_map [("path", VText (TrimSpace path)); ("editIndex", VInt editIndex); ("matchCount", VInt matchCount);
    ("guidance", VText (TrimSpace guidance))] in
  MkToolResult (MarshalBody doc) (Some doc) (Some (MkFailure FailureInvalidInput stage (MarshalBody doc) true "different_input")) [] [].

(** ** The requester's shell *)

Definition requester_access (request : ToolCatalogRequest World) : Access.PersonAccess :=
  if blank (Access.PersonID (Request_PersonAccess request))
  then Access.MkPersonAccess (TrimSpace (Request_RequesterPersonID request)) (Access.Circles (Request_PersonAccess request))
    (Access.ResourceAccessRules (Request_PersonAccess request))
  else Request_PersonAccess request.

Definition executionIdentityForRequester (request : ToolCatalogRequest World) : ExecutionIdentity :=
  ExecutionIdentityForPersonAccess (requester_access request) workspaceRootPath.

(** [None]: there is an actor. *)
Definition workspaceActorForRequest (request : ToolCatalogRequest World) (w : World) : World * option ToolResult :=
  match workspaceActorFactory with
  | None => (w, Some (actorToolFailure "requester" "actor_runtime" "" (ActorFailed
      (MkActorError "requester" "factory" "" "" ActorErrorCodeRuntimeUnavailable "workspace actor factory is unavailable"))))
  | Some requester =>
    let '(w, errorValue) := requester (requester_access request) w in
    (w, (fun errorValue =>
      let stage := if bool_decide (actorFailureCode errorValue = ActorErrorCodeIdentityMissing) then "actor_identity_missing" else "actor_runtime" in
      actorToolFailure "requester" stage "" errorValue) <$> errorValue)
  end.

Definition shell_request (request : ToolCatalogRequest World) (shellCommand : requesterShellCommand) : CommandRequest :=
  let executionIdentity := executionIdentityForRequester request in
  MkCommandRequest (requesterShellScript (Shell_Command shellCommand)) (Shell_Stdin shellCommand)
    (requesterShellEnvironment executionIdentity) (Shell_TimeoutSecond shellCommand) (Shell_OutputMaximumBytes shellCommand) executionIdentity.

Definition runRequesterShell (request : ToolCatalogRequest World) (shellCommand : requesterShellCommand) (w : World)
    : World * result ToolResult requesterShellOutcome :=
  let '(w, actorFailure) := workspaceActorForRequest request w in
  match actorFailure with
  | Some failure => (w, Err failure)
  | None =>
    let '(w, (commandResult, runError)) := Run (requester_access request) (shell_request request shellCommand) w in
    (w, Ok (MkOutcome commandResult (executionIdentityForRequester request) runError))
  end.

Definition runRequesterFileWrite (request : ToolCatalogRequest World) (stage path content : string) (w : World) : World * option ToolResult :=
  let '(w, outcome) := runRequesterShell request (MkShellCommand (fileWriteShellCommand path) content 0 0) w in
  match outcome with
  | Err actorFailure => (w, Some actorFailure)
  | Ok outcome => (w, match RunError outcome with Some _ => Some (toolFailure outcome "write_file" stage path) | None => None end)
  end.

(** ** Writing and deleting *)

Record fileWriteToolInput := MkWriteInput { Write_Path : string; Write_Content : string }.

Definition writeFileTool (input : fileWriteToolInput) (request : ToolCatalogRequest World) (w : World) : World * ToolResult :=
  let path := TrimSpace (Write_Path input) in
  if bool_decide (path = "") then (w, ToolFailureResult FailureInvalidInput "write" "path is required") else
  if bool_decide (Write_Content input = "") then (w, ToolFailureResult FailureInvalidInput "write" "content is required") else
  let '(w, failureResult) := runRequesterFileWrite request "write" path (Write_Content input) w in
  (w, default (fileToolSuccess (list_to_map [("path", VText path); ("sizeBytes", VInt (len (Write_Content input)))])) failureResult).

Definition deleteFileTool (Delete_Path : string) (request : ToolCatalogRequest World) (w : World) : World * ToolResult :=
  let path := TrimSpace Delete_Path in
  if bool_decide (path = "") then (w, ToolFailureResult FailureInvalidInput "file_delete" "path is required") else
  let '(w, outcome) := runRequesterShell request (MkShellCommand ("rm -- " +:+ shellPathArgument path) "" 0 0) w in
  match outcome with
  | Err actorFailure => (w, actorFailure)
  | Ok outcome =>
    (w, match RunError outcome with
        | Some _ => toolFailure outcome "remove_file" "file_delete" path
        | None => fileToolSuccess (list_to_map [("path", VText path); ("deleted", VFlag true)])
        end)
  end.

(** ** Editing *)

Record filePatchEditInput := MkEdit { Edit_Path : string; OldText : string; NewText : string }.

Record filePatchState := MkPatchState {
  originalContents : gmap string string;
  currentContents : gmap string string;
  pathOrder : list string;
}.

Definition newFilePatchState : filePatchState := MkPatchState ∅ ∅ [].

Definition maximumEditableTextFileBytes : Z := 2 * 1024 * 1024.

Definition is_text (content : string) : bool := ValidString content && negb (bool_decide ("000"%char ∈ bytes_of content)).

Definition loadEditableFile (request : ToolCatalogRequest World) (patchState : filePatchState) (path : string) (w : World)
    : World * result ToolResult filePatchState :=
  match currentContents patchState !! path with
  | Some _ => (w, Ok patchState)
  | None =>
    let '(w, outcome) := runRequesterShell request
      (MkShellCommand (fileReadShellCommand path (maximumEditableTextFileBytes + 1)) "" 0 (maximumEditableTextFileBytes + fileReadShellOutputReserveBytes)) w in
    (w, match outcome with
        | Err actorFailure => Err actorFailure
        | Ok outcome =>
          match RunError outcome with
          | Some _ => Err (toolFailure outcome "read_file" "edit" path)
          | None =>
            match parseFileReadShellOutput (Stdout (Outcome_Result outcome)) with
            | None => Err (ToolFailureResult FailureExternalService "edit" "file size probe returned unreadable output")
            | Some (sizeBytes, content) =>
              if (maximumEditableTextFileBytes <? sizeBytes) || (maximumEditableTextFileBytes <? len content)
              then Err (fileExactEditFailure "edit" path (-1) 0
                "file is too large for exact edit; rewrite a smaller generated file or use a more specific workflow")
              else if negb (is_text content)
              then Err (ToolFailureResult FailureInvalidInput "edit"
                "edit supports UTF-8 text files; use a specialized document or artifact tool for binary files")
              else Ok (MkPatchState (<[path := content]> (originalContents patchState)) (<[path := content]> (currentContents patchState))
                (pathOrder patchState ++ [path])%list)
            end
          end
        end)
  end.

Definition validatePatchEdit (request : ToolCatalogRequest World) (patchState : filePatchState) (edit : filePatchEditInput) (editIndex : Z) (w : World)
    : World * result ToolResult filePatchState :=
  let path := TrimSpace (Edit_Path edit) in
  if bool_decide (path = "") then (w, Err (fileExactEditFailure "edit" "" editIndex 0 "path is required")) else
  if bool_decide (OldText edit = "") then (w, Err (fileExactEditFailure "edit" path editIndex 0 "oldText is required")) else
  let '(w, loaded) := loadEditableFile request patchState path w in
  match loaded with
  | Err failure => (w, Err failure)
  | Ok patchState =>
    let currentContent := default "" (currentContents patchState !! path) in
    (w, match applyExactOrTolerantEdit currentContent (OldText edit) (NewText edit) with
        | Err matchCount => Err (fileExactEditFailure "edit" path editIndex (Z.of_nat matchCount)
            (fileEditMatchFailureGuidance currentContent (OldText edit) matchCount))
        | Ok updatedContent =>
          Ok (MkPatchState (originalContents patchState) (<[path := updatedContent]> (currentContents patchState)) (pathOrder patchState))
        end)
  end.

Fixpoint validate_edits (request : ToolCatalogRequest World) (patchState : filePatchState) (edits : list filePatchEditInput) (editIndex : Z) (w : World)
    : World * result ToolResult filePatchState :=
  match edits with
  | [] => (w, Ok patchState)
  | edit :: edits =>
    let '(w, validated) := validatePatchEdit request patchState edit editIndex w in
    match validated with
    | Err failure => (w, Err failure)
    | Ok patchState => validate_edits request patchState edits (editIndex + 1) w
    end
  end.

Definition rollbackPatchWrites (request : ToolCatalogRequest World) (patchState : filePatchState) (writtenPaths : list string) (w : World) : World :=
  foldl (fun w path => (runRequesterFileWrite request "edit" path (default "" (originalContents patchState !! path)) w).1) w writtenPaths.

(** The paths still to write, and those written. *)
Fixpoint write_paths (request : ToolCatalogRequest World) (patchState : filePatchState) (paths writtenPaths : list string) (w : World)
    : World * option ToolResult :=
  match paths with
  | [] => (w, None)
  | path :: paths =>
    let '(w, failureResult) := runRequesterFileWrite request "edit" path (default "" (currentContents patchState !! path)) w in
    match failureResult with
    | Some failure => (rollbackPatchWrites request patchState writtenPaths w, Some failure)
    | None => write_paths request patchState paths (writtenPaths ++ [path]) w
    end
  end.

Definition writePatchState (request : ToolCatalogRequest World) (patchState : filePatchState) (w : World) : World * option ToolResult :=
  write_paths request patchState (pathOrder patchState) [] w.

Definition patchFileTool (edits : list filePatchEditInput) (request : ToolCatalogRequest World) (w : World) : World * ToolResult :=
  match edits with
  | [] => (w, fileExactEditFailure "edit" "" (-1) 0 "edits is required")
  | _ =>
    if (100 <? Z.of_nat (length edits)) then
      (w, fileExactEditFailure "edit" "" (-1) (Z.of_nat (length edits)) "too many edits; split the patch into smaller groups")
    else
      let '(w, validated) := validate_edits request newFilePatchState edits 0 w in
      match validated with
      | Err failure => (w, failure)
      | Ok patchState =>
        let '(w, failureResult) := writePatchState request patchState w in
        (w, default (fileToolSuccess (list_to_map
          [("editedFiles", VTexts (pathOrder patchState)); ("editCount", VInt (Z.of_nat (length edits)))])) failureResult)
      end
  end.

(** ** Attachments: urls, materials and previews that are kept *)

Definition resolveAgentWorkspacePath (value : string) : string :=
  let trimmedPath := TrimSpace value in
  if bool_decide (trimmedPath = "") then "" else
  if bool_decide (workspaceRootPath = "/workspace") then trimmedPath else
  if bool_decide (trimmedPath = "/workspace") then workspaceRootPath else
  if HasPrefix trimmedPath "/workspace/" then PathJoin [workspaceRootPath; TrimPrefix trimmedPath "/workspace/"] else trimmedPath.

Definition isAttachmentURLReference (reference : string) : bool :=
  match url_parts (TrimSpace reference) with
  | Some (scheme, host) => (bool_decide (scheme = "http") || bool_decide (scheme = "https")) && negb (bool_decide (host = ""))
  | None => false
  end.

Definition attachmentResolutionFailure (stage errorValue : string) : ToolResult :=
  ToolFailureResult FailureInvalidInput stage (TrimSpace errorValue +:+ ". This attachment reference is not openable in the current conversation. If it is a file you created or saved earlier, it persists as a workspace file: find it by name (for example `ls ~/documents`) and open that workspace path with the read tool, or edit it with your document skill's script. Only if no such workspace file exists, summarize from the conversation or tell the user it could not be opened.").

Definition resolveReadableAttachmentMaterial (request : ToolCatalogRequest World) (materialID : string) (w : World)
    : World * result string VisibleContextMaterial :=
  match AttachmentMaterialResolver request with
  | None => (w, Err "attachment material resolver is unavailable")
  | Some resolve =>
    let '(w, material) := resolve materialID w in
    (w, match material with
        | Err e => Err e
        | Ok material => if blank (Material_Path material) then Err "attachment material has no readable workspace path" else Ok material
        end)
  end.

(** [None]: the reference is not a url. *)
Definition resolveAttachmentMaterialURL (request : ToolCatalogRequest World) (stage reference : string) (w : World)
    : World * option (result ToolResult VisibleContextMaterial) :=
  if negb (isAttachmentURLReference reference) then (w, None) else
  let '(w, material) := resolveReadableAttachmentMaterial request (TrimSpace reference) w in
  (w, Some match material with Err e => Err (attachmentResolutionFailure stage e) | Ok material => Ok material end).

Definition attachmentMaterialLooksLikeImage (material : VisibleContextMaterial) : bool :=
  HasPrefix (ToLower (TrimSpace (Material_ContentType material))) "image/" ||
  existsb (HasSuffix (ToLower (TrimSpace (Material_Filename material)))) [".png"; ".jpg"; ".jpeg"; ".gif"; ".webp"].

Definition resolveAttachmentURL (request : ToolCatalogRequest World) (stage reference : string) (w : World)
    : World * option (result ToolResult VisibleContextMaterial) :=
  let '(w, resolved) := resolveAttachmentMaterialURL request stage reference w in
  (w, match resolved with
      | Some (Ok material) =>
        if attachmentMaterialLooksLikeImage material
        then Some (Err (ToolFailureResult FailureInvalidInput stage "attachment is an image; open it with the read tool"))
        else Some (Ok material)
      | _ => resolved
      end).

(** The path, and the platform and the id of its source. *)
Definition resolveAttachmentReference (request : ToolCatalogRequest World) (stage reference sourcePlatform sourceFileID : string) (w : World)
    : World * result ToolResult (string * string * string) :=
  let '(w, resolved) := resolveAttachmentURL request stage reference w in
  (w, match resolved with
      | Some (Err failure) => Err failure
      | None => Ok (TrimSpace reference, TrimSpace sourcePlatform, TrimSpace sourceFileID)
      | Some (Ok material) =>
        Ok (resolveAgentWorkspacePath (Material_Path material), TrimSpace (Material_Platform material), TrimSpace (Material_FileID material))
      end).

Definition visibleAttachmentMaterialKey (material : VisibleContextMaterial) : string :=
  if negb (blank (MaterialID material)) then "material:" +:+ TrimSpace (MaterialID material) else
  if negb (blank (Material_Path material)) then "path:" +:+ TrimSpace (Material_Path material) else
  if negb (blank (Material_Filename material)) then "filename:" +:+ TrimSpace (Material_Filename material) else "".

Definition uniqueVisibleAttachmentMaterials (materials : list VisibleContextMaterial) : list VisibleContextMaterial :=
  (foldl (fun '(seen, kept) material =>
    let key := visibleAttachmentMaterialKey material in
    if bool_decide (key = "") || bool_decide (key ∈ (seen : gset string)) then (seen, kept)
    else ({[key]} ∪ seen, (kept ++ [material])%list)) (∅, []) materials).2.

Definition visibleAttachmentMaterials (visibleContext : AgentVisibleContext) : list VisibleContextMaterial :=
  uniqueVisibleAttachmentMaterials (CurrentMaterials visibleContext ++ PreviousMaterials visibleContext ++
    concat (Message_Materials <$> Agent_Messages visibleContext)).

Definition visibleAttachmentMaterialForPath (visibleContext : AgentVisibleContext) (path : string) : option VisibleContextMaterial :=
  List.find (fun material => bool_decide (TrimSpace (Material_Path material) = TrimSpace path)) (visibleAttachmentMaterials visibleContext).

Definition previewContentType (path : string) : string :=
  firstNonEmptyString [TypeByExtension (PathExt (TrimSpace path)); "application/octet-stream"].

Definition filePreviewResult (path contentType : string) (sizeBytes : Z) (markdownPreview conversionStatus conversionMessage : string) : document :=
  list_to_map [("path", VText (TrimSpace path)); ("filename", VText (PathBase (TrimSpace path))); ("contentType", VText (TrimSpace contentType));
    ("sizeBytes", VInt sizeBytes); ("previewFormat", VText "markdown"); ("markdownPreview", VText (TrimSpace markdownPreview));
    ("conversionStatus", VText (TrimSpace conversionStatus)); ("conversionMessage", VText (TrimSpace conversionMessage))].

Definition filePreviewResultFromVisibleMaterial (material : VisibleContextMaterial) : option document :=
  let preview := TrimSpace (Material_MarkdownPreview material) in
  let status := TrimSpace (Material_ConversionStatus material) in
  let message := TrimSpace (Material_ConversionMessage material) in
  if bool_decide (preview = "") && bool_decide (status = "") && bool_decide (message = "") then None else
  let contentType := firstNonEmptyString [TrimSpace (Material_ContentType material); previewContentType (Material_Path material)] in
  Some (filePreviewResult (Material_Path material) contentType (Material_SizeBytes material) preview status message).

Definition cachedFilePreviewResultFromPart (part : AgentPart) : option document :=
  file ← Part_File part;
  if blank (MarkdownPreview file) && blank (ConversionStatus file) then None else
  Some (filePreviewResult (File_Path file) (File_ContentType file) (File_SizeBytes file) (MarkdownPreview file)
    (firstNonEmptyString [ConversionStatus file; "cached"]) (ConversionMessage file)).

Definition agentPartMatchesSource (part : AgentPart) (platform fileID : string) : bool :=
  negb (blank fileID) && bool_decide (TrimSpace (Source_FileID (Part_Source part)) = TrimSpace fileID) &&
  bool_decide (TrimSpace (Source_Platform (Part_Source part)) = TrimSpace platform).

Definition cachedFilePreviewResultBySource (parts : list AgentPart) (platform fileID : string) : option document :=
  part ← List.find (fun part => agentPartMatchesSource part platform fileID) parts; cachedFilePreviewResultFromPart part.

Definition part_at_path (path : string) (part : AgentPart) : bool :=
  match Part_File part with Some file => bool_decide (TrimSpace (File_Path file) = TrimSpace path) | None => false end.

Definition cachedFilePreviewResult (parts : list AgentPart) (path : string) : option document :=
  part ← List.find (part_at_path path) parts; cachedFilePreviewResultFromPart part.

(** ** Reading *)

Definition defaultFileReadMaximumBytes : Z := 128 * 1024.
Definition maximumFileReadBytes : Z := 1024 * 1024.

Definition fileReadResultMap (base : document) (readResult : fileReadOutput) : document :=
  let base := list_to_map [("content", VText (Output_Content readResult)); ("startLine", VInt (Output_StartLine readResult));
      ("endLine", VInt (Output_EndLine readResult)); ("totalLines", VInt (TotalLines readResult));
      ("returnedBytes", VInt (len (Output_Content readResult))); ("startByte", VInt (Output_StartByte readResult));
      ("endByte", VInt (EndByte readResult)); ("nextByte", VInt (NextByte readResult)); ("totalBytes", VInt (TotalBytes readResult));
      ("isEndOfFile", VFlag (IsEndOfFile readResult))] ∪ base in
  let base := match base !! "isTruncated" with Some _ => base | None => <["isTruncated" := VFlag (IsTruncated readResult)]> base end in
  if blank (ReadHint readResult) then base else <["readHint" := VText (ReadHint readResult)]> base.

Definition stringMapValue (doc : document) (key : string) : string :=
  match doc !! key with Some (VText s) => TrimSpace s | _ => "" end.

Definition int64MapValue (doc : document) (key : string) : Z :=
  match doc !! key with Some (VInt z) => z | _ => 0 end.

(** The answer, or [None]: the read panics. *)
Definition cachedFileReadResultFromPreview (preview : document) (input : fileReadToolInput) : option ToolResult :=
  readResult ← fileReadResult (stringMapValue preview "markdownPreview") input defaultFileReadMaximumBytes;
  Some (fileToolSuccess (fileReadResultMap (list_to_map [("path", VText (stringMapValue preview "path")); ("totalLinesKnown", VFlag true);
    ("originalSizeBytes", VInt (int64MapValue preview "sizeBytes")); ("sizeBytes", VInt (int64MapValue preview "sizeBytes"));
    ("isTruncated", VFlag (IsTruncated readResult)); ("source", VText "attachmentPreview"); ("isExactFileRead", VFlag false)]) readResult)).

Definition read_stage (input : fileReadToolInput) : string := firstNonEmptyString [TrimSpace (Read_Stage input); "file_read"].

Definition set_Read_source (path sourcePlatform sourceFileID : string) (input : fileReadToolInput) : fileReadToolInput :=
  MkReadInput path sourcePlatform sourceFileID (Read_Stage input) (MaxOutputBytes input) (StartLine input) (LineCount input) (StartByte input).

(** What the shell gave, as an answer. *)
Definition exact_read (stage path : string) (input : fileReadToolInput) (maxOutputBytes readMaximumBytes : Z) (stdout : string) : option ToolResult :=
  match parseFileReadShellOutput stdout with
  | None => Some (ToolFailureResult FailureExternalService stage "file size probe returned unreadable output")
  | Some (originalSizeBytes, content) =>
    if readMaximumBytes <? originalSizeBytes then
      Some (ToolFailureResult FailureInvalidInput stage
        "file is too large for an exact text read; read it in pieces with startByte, or narrow it with grep or sed through shell")
    else
      let isFileTruncated := readMaximumBytes <? len content in
      let content := if isFileTruncated then slice 0 (Z.to_nat readMaximumBytes) content else content in
      if negb (is_text content) then
        Some (ToolFailureResult FailureInvalidInput stage
          "this file is not UTF-8 text, so it has no exact text form; it needs document conversion or a specialized tool")
      else
        readResult ← fileReadResult content input maxOutputBytes;
        Some (fileToolSuccess (fileReadResultMap (list_to_map [("path", VText path); ("totalLinesKnown", VFlag (negb isFileTruncated));
          ("originalSizeBytes", VInt originalSizeBytes); ("sizeBytes", VInt originalSizeBytes);
          ("isTruncated", VFlag (isFileTruncated || IsTruncated readResult))]) readResult))
  end.

Definition read_limits (input : fileReadToolInput) : Z * Z :=
  let maxOutputBytes := MaxOutputBytes input in
  let maxOutputBytes := if (maxOutputBytes <=? 0) || (maximumFileReadBytes <? maxOutputBytes) then defaultFileReadMaximumBytes else maxOutputBytes in
  (maxOutputBytes, if maximumFileReadBytes <? maxOutputBytes then maxOutputBytes else maximumFileReadBytes).

(** The outer [None]: out of fuel, that is, paths of attachments that lead to one another;
    the inner [None]: the read panics. *)
Fixpoint readFileTool (fuel : nat) (input : fileReadToolInput) (request : ToolCatalogRequest World) (w : World)
    : option (World * option ToolResult) :=
  match fuel with
  | O => None
  | S fuel =>
    let stage := read_stage input in
    let '(w, reference) := resolveAttachmentReference request stage (Read_Path input) (Read_SourcePlatform input) (Read_SourceFileID input) w in
    match reference with
    | Err failure => Some (w, Some failure)
    | Ok (path, sourcePlatform, sourceFileID) =>
      let input := set_Read_source path sourcePlatform sourceFileID input in
      match cachedFilePreviewResultBySource (Request_InputParts request) sourcePlatform sourceFileID with
      | Some preview => Some (w, cachedFileReadResultFromPreview preview input)
      | None =>
        if bool_decide (path = "") then Some (w, Some (ToolFailureResult FailureInvalidInput stage "path is required")) else
        let '(maxOutputBytes, readMaximumBytes) := read_limits input in
        let '(w, outcome) := runRequesterShell request
          (MkShellCommand (fileReadShellCommand path (readMaximumBytes + 1)) "" 0 (readMaximumBytes + fileReadShellOutputReserveBytes)) w in
        match outcome with
        | Err actorFailure => Some (w, Some actorFailure)
        | Ok outcome =>
          match RunError outcome with
          | None => Some (w, exact_read stage path input maxOutputBytes readMaximumBytes (Stdout (Outcome_Result outcome)))
          | Some _ =>
            let failed := Some (toolFailure outcome "read_file" stage path) in
            match cachedFilePreviewResult (Request_InputParts request) path with
            | Some preview => Some (w, cachedFileReadResultFromPreview preview input)
            | None =>
              match visibleAttachmentMaterialForPath (Request_VisibleContext request) path with
              | None => Some (w, failed)
              | Some material =>
                if blank (MaterialID material) then Some (w, failed) else
                let '(w, resolved) := resolveReadableAttachmentMaterial request (TrimSpace (MaterialID material)) w in
                match resolved with
                | Err e => Some (w, Some (attachmentResolutionFailure stage e))
                | Ok resolvedMaterial =>
                  if attachmentMaterialLooksLikeImage resolvedMaterial then
                    Some (w, Some (ToolFailureResult FailureInvalidInput stage "attachment material is an image; open it with the read tool"))
                  else
                    match filePreviewResultFromVisibleMaterial resolvedMaterial with
                    | Some preview => Some (w, cachedFileReadResultFromPreview preview input)
                    | None =>
                      let fallbackPath := resolveAgentWorkspacePath (Material_Path resolvedMaterial) in
                      if bool_decide (fallbackPath = "") || bool_decide (fallbackPath = TrimSpace path) then Some (w, failed)
                      else readFileTool fuel (set_Read_source fallbackPath "" "" input) request w
                    end
                end
              end
            end
          end
        end
      end
    end
  end.

(** ** Previews *)

Record filePreviewToolInput := MkPreviewInput {
  Preview_Path : string;
  Preview_SourcePlatform : string;
  Preview_SourceFileID : string;
  Preview_Stage : string;
}.

Definition maximumFilePreviewBytes : Z := 200 * 1024.

Definition nativeBridgePath (path : string) (identity : ExecutionIdentity) : string :=
  let trimmedPath := TrimSpace path in
  if bool_decide (trimmedPath = "~") then HomeDirectoryPath identity else
  if HasPrefix trimmedPath "~/" then PathJoin [HomeDirectoryPath identity; TrimPrefix trimmedPath "~/"] else
  if is_rooted trimmedPath then trimmedPath else PathJoin [HomeDirectoryPath identity; trimmedPath].

Definition nativeRequesterPath (request : ToolCatalogRequest World) (path : string) : string :=
  let '(MkExecutionIdentity u g gs home uid gid gids) := executionIdentityForRequester request in
  let home := if blank home then workspaceRootPath else home in
  nativeBridgePath (resolveAgentWorkspacePath path) (MkExecutionIdentity u g gs home uid gid gids).

Definition agentWorkspacePath (path : string) : string :=
  match Rel workspaceRootPath path with
  | None => path
  | Some relativePath =>
    if bool_decide (relativePath = ".") || HasPrefix relativePath "../" || bool_decide (relativePath = "..") then path
    else PathJoin ["/workspace"; relativePath]
  end.

Definition capabilityBridgePath (request : ToolCatalogRequest World) (path : string) : string :=
  agentWorkspacePath (nativeRequesterPath request path).

Definition convertFilePreviewWithCapability (convert : Access.PersonAccess -> string -> World -> World * option (string * bool * string))
    (request : ToolCatalogRequest World) (path bridgePath contentType : string) (sizeBytes : Z) (w : World) : World * option ToolResult :=
  let '(w, converted) := convert (requester_access request) bridgePath w in
  (w, x ← converted;
      let '(content, isTruncated, format) := (x : string * bool * string) in
      let doc := filePreviewResult path contentType sizeBytes content (if isTruncated then "truncated" else "converted") "" in
      Some (fileToolSuccess (if blank format then doc else <["previewFormat" := VText (TrimSpace format)]> doc))).

Definition filePreviewFromShellContent (path contentType : string) (sizeBytes : Z) (content : string) : ToolResult :=
  let isTruncated := maximumFilePreviewBytes <? len content in
  let content := if isTruncated then slice 0 (Z.to_nat maximumFilePreviewBytes) content else content in
  if negb (is_text content) then
    fileToolSuccess (filePreviewResult path contentType sizeBytes "" "unsupported" "file is not UTF-8 text and no converted preview is available")
  else
    let '(windowedContent, isContentTruncated) := truncateTextByBytes content maximumFilePreviewBytes in
    fileToolSuccess (filePreviewResult path contentType sizeBytes windowedContent
      (if isTruncated || isContentTruncated then "truncated" else "converted") "").

(** The result, or the path to go on with; [None]: there is no fallback. *)
Definition filePreviewFallbackPath (request : ToolCatalogRequest World) (stage path : string) (w : World)
    : World * option (result ToolResult string) :=
  match visibleAttachmentMaterialForPath (Request_VisibleContext request) path with
  | None => (w, None)
  | Some material =>
    if blank (MaterialID material) then (w, None) else
    let '(w, resolved) := resolveReadableAttachmentMaterial request (TrimSpace (MaterialID material)) w in
    (w, Some match resolved with
      | Err e => Err (attachmentResolutionFailure stage e)
      | Ok resolvedMaterial =>
        if attachmentMaterialLooksLikeImage resolvedMaterial then
          Err (ToolFailureResult FailureInvalidInput stage "attachment material is an image; open it with the read tool")
        else match filePreviewResultFromVisibleMaterial resolvedMaterial with
        | Some preview => Err (fileToolSuccess preview)
        | None => Ok (resolveAgentWorkspacePath (Material_Path resolvedMaterial))
        end
      end)
  end.

Definition preview_shell_content (request : ToolCatalogRequest World) (stage previewPath stdout : string) (w : World) : World * ToolResult :=
  match parseFileReadShellOutput stdout with
  | None => (w, ToolFailureResult FailureExternalService stage "file size probe returned unreadable output")
  | Some (sizeBytes, content) =>
    let contentType := previewContentType previewPath in
    if HasPrefix contentType "image/" then
      (w, fileToolSuccess (filePreviewResult previewPath contentType sizeBytes "" "image" "open this path with the read tool to see the image itself"))
    else match document_read with
    | None => (w, filePreviewFromShellContent previewPath contentType sizeBytes content)
    | Some convert =>
      let '(w, converted) :=
        convertFilePreviewWithCapability convert request previewPath (capabilityBridgePath request previewPath) contentType sizeBytes w in
      (w, default (filePreviewFromShellContent previewPath contentType sizeBytes content) converted)
    end
  end.

(** [None]: out of fuel. *)
Fixpoint previewFileTool (fuel : nat) (input : filePreviewToolInput) (request : ToolCatalogRequest World) (w : World) : option (World * ToolResult) :=
  match fuel with
  | O => None
  | S fuel =>
    let stage := firstNonEmptyString [TrimSpace (Preview_Stage input); "file_preview"] in
    let '(w, resolved) := resolveAttachmentURL request stage (Preview_Path input) w in
    let input := match resolved with
      | Some (Ok material) => MkPreviewInput (resolveAgentWorkspacePath (Material_Path material)) (TrimSpace (Material_Platform material))
          (TrimSpace (Material_FileID material)) (Preview_Stage input)
      | _ => input
      end in
    match resolved, (match resolved with Some (Ok material) => filePreviewResultFromVisibleMaterial material | _ => None end) with
    | Some (Err failure), _ => Some (w, failure)
    | _, Some preview => Some (w, fileToolSuccess preview)
    | _, None =>
      match cachedFilePreviewResultBySource (Request_InputParts request) (Preview_SourcePlatform input) (Preview_SourceFileID input) with
      | Some preview => Some (w, fileToolSuccess preview)
      | None =>
        match cachedFilePreviewResult (Request_InputParts request) (TrimSpace (Preview_Path input)) with
        | Some preview => Some (w, fileToolSuccess preview)
        | None =>
          let previewPath := TrimSpace (Preview_Path input) in
          if bool_decide (previewPath = "") then Some (w, ToolFailureResult FailureInvalidInput stage "path is required") else
          let '(w, outcome) := runRequesterShell request
            (MkShellCommand (fileReadShellCommand previewPath (maximumFilePreviewBytes + 1)) "" 0
              (maximumFilePreviewBytes + fileReadShellOutputReserveBytes)) w in
          match outcome with
          | Err actorFailure => Some (w, actorFailure)
          | Ok outcome =>
            match RunError outcome with
            | None => Some (preview_shell_content request stage previewPath (Stdout (Outcome_Result outcome)) w)
            | Some _ =>
              let failed := toolFailure outcome "read_file" stage previewPath in
              let '(w, fallback) := filePreviewFallbackPath request stage previewPath w in
              match fallback with
              | Some (Err fallbackFailure) => Some (w, fallbackFailure)
              | Some (Ok fallbackPath) =>
                if negb (blank fallbackPath) && negb (bool_decide (TrimSpace fallbackPath = TrimSpace previewPath))
                then previewFileTool fuel (MkPreviewInput fallbackPath "" "" (Preview_Stage input)) request w
                else Some (w, failed)
              | None => Some (w, failed)
              end
            end
          end
        end
      end
    end
  end.

(** ** The read tool: what the content is decides how it is read *)

Definition baseContentType (contentType : string) : string :=
  let normalizedContentType := ToLower (TrimSpace contentType) in
  match Cut normalizedContentType ";" with Some (base, _) => TrimSpace base | None => normalizedContentType end.

Definition contentTypeIsImage (contentType : string) : bool := HasPrefix (baseContentType contentType) "image/".

Definition contentTypeConvertsToMarkdown (contentType : string) : bool :=
  let normalizedContentType := baseContentType contentType in
  bool_decide (normalizedContentType ∈ ["text/html"; "application/xhtml+xml"; "application/pdf"; "application/rtf"; "text/rtf"; "application/epub+zip"]) ||
  existsb (HasPrefix normalizedContentType)
    ["application/vnd.openxmlformats-officedocument."; "application/vnd.oasis.opendocument."; "application/vnd.ms-"; "application/msword"].

Definition readImageWithCapability (path : string) (w : World) : World * ToolResult :=
  match image_read with
  | None => (w, ToolFailureResult FailureDependencyUnavailable "read" "image reading is not available on this device")
  | Some read => read path w
  end.

Definition readTool (fuel : nat) (input : fileReadToolInput) (request : ToolCatalogRequest World) (w : World) : option (World * option ToolResult) :=
  let input := MkReadInput (Read_Path input) (Read_SourcePlatform input) (Read_SourceFileID input) "read" (MaxOutputBytes input)
    (StartLine input) (LineCount input) (StartByte input) in
  if blank (Read_Path input) then Some (w, Some (ToolFailureResult FailureInvalidInput "read" "path is required")) else
  let '(w, resolved) := resolveAttachmentMaterialURL request "read" (Read_Path input) w in
  match resolved with
  | Some (Err failure) => Some (w, Some failure)
  | _ =>
    let '(input, contentType) := match resolved with
      | Some (Ok material) =>
        (set_Read_source (resolveAgentWorkspacePath (Material_Path material)) (TrimSpace (Material_Platform material)) (TrimSpace (Material_FileID material)) input,
         firstNonEmptyString [TrimSpace (Material_ContentType material); previewContentType (Material_Path material)])
      | _ => (input, previewContentType (Read_Path input))
      end in
    if contentTypeIsImage contentType then let '(w, read) := readImageWithCapability (Read_Path input) w in Some (w, Some read) else
    if negb (contentTypeConvertsToMarkdown contentType) then readFileTool fuel input request w else
    match (match resolved with Some (Ok material) => filePreviewResultFromVisibleMaterial material | _ => None end) with
    | Some preview => Some (w, Some (fileToolSuccess preview))
    | None =>
      '(w, preview) ← previewFileTool fuel (MkPreviewInput (Read_Path input) (Read_SourcePlatform input) (Read_SourceFileID input) "read") request w;
      Some (w, Some preview)
    end
  end.

(** ** Delivering files *)

Record fileAttachFileInput := MkAttachFile {
  Attach_Path : string;
  Attach_Filename : string;
  Attach_ContentType : string;
  Attach_Title : string;
}.

Definition inlineAttachmentMaximumBytes : Z := 25 * 1024 * 1024.

Definition normalizeFileAttachInputs (input : fileAttachFileInput) (files : list fileAttachFileInput) : list fileAttachFileInput :=
  match files with
  | [] => if blank (Attach_Path input) then [] else [input]
  | _ => files
  end.

Definition attachmentFilename (input : fileAttachFileInput) (resolvedPath : string) : string :=
  if negb (blank (Attach_Filename input)) then TrimSpace (Attach_Filename input) else PathBase resolvedPath.

Definition deliveredDocumentsDirectoryPath : string := "~/documents".

Definition isPersistableDocumentFilename (filename : string) : bool :=
  bool_decide (ToLower (PathExt (TrimSpace filename)) ∈ [".docx"; ".doc"; ".pdf"; ".xlsx"; ".xlsm"; ".xls"; ".pptx"; ".ppt"; ".csv"]).

Definition persistDeliveredDocument (request : ToolCatalogRequest World) (sourcePath filename content : string) (w : World) : World :=
  if negb (isPersistableDocumentFilename filename) then w else
  let destinationPath := deliveredDocumentsDirectoryPath +:+ "/" +:+ filename in
  if bool_decide (nativeRequesterPath request destinationPath = nativeRequesterPath request sourcePath) then w else
  (runRequesterFileWrite request "file_deliver" destinationPath content w).1.

Definition isHomeRelativePath (path : string) : bool :=
  let trimmedPath := TrimSpace path in
  negb (bool_decide (trimmedPath = "~")) && negb (HasPrefix trimmedPath "~/") && negb (is_rooted trimmedPath).

Definition withFailureMessage (message : string) (result : ToolResult) : ToolResult :=
  let '(MkToolResult _ data failure attachments notes) := result in
  MkToolResult message data ((fun f => MkFailure (Failure_Kind f) (Failure_Stage f) message (Retryable f) (RetryPolicy f)) <$> failure) attachments notes.

Definition fileDeliverCandidateFileLimit : nat := 8.

Definition directoryEntryNames (request : ToolCatalogRequest World) (directoryPath : string) (w : World) : World * list string :=
  let '(w, outcome) := runRequesterShell request (MkShellCommand ("ls -1A -- " +:+ shellPathArgument directoryPath) "" 5 0) w in
  (w, match outcome with
      | Err _ => []
      | Ok outcome =>
        match RunError outcome with
        | Some _ => []
        | None =>
          if negb (ExitCode (Outcome_Result outcome) =? 0) then [] else
          filter (fun line => line <> "") (TrimSpace <$> Split (Stdout (Outcome_Result outcome)) newline)
        end
      end).

Definition fileDeliverCandidateDirectories (request : ToolCatalogRequest World) (path : string) : list string :=
  let requestedDirectoryPath := PathDir (TrimSpace path) in
  let requestedDirectoryPath := if isHomeRelativePath requestedDirectoryPath then PathJoin ["~"; requestedDirectoryPath] else requestedDirectoryPath in
  if bool_decide (nativeRequesterPath request deliveredDocumentsDirectoryPath = nativeRequesterPath request requestedDirectoryPath)
  then [requestedDirectoryPath] else [requestedDirectoryPath; deliveredDocumentsDirectoryPath].

(** The files of one directory, up to the limit. *)
Fixpoint add_candidates (candidateFiles : list string) (directoryPath : string) (filenames : list string) : list string :=
  match filenames with
  | [] => candidateFiles
  | filename :: filenames =>
    let candidatePath := PathJoin [directoryPath; filename] in
    if bool_decide (candidatePath ∈ candidateFiles) then add_candidates candidateFiles directoryPath filenames else
    let candidateFiles := (candidateFiles ++ [candidatePath])%list in
    if (fileDeliverCandidateFileLimit <=? length candidateFiles)%nat then candidateFiles
    else add_candidates candidateFiles directoryPath filenames
  end.

Fixpoint candidate_files (request : ToolCatalogRequest World) (candidateFiles directories : list string) (w : World) : World * list string :=
  match directories with
  | [] => (w, candidateFiles)
  | directoryPath :: directories =>
    let '(w, filenames) := directoryEntryNames request directoryPath w in
    let candidateFiles := add_candidates candidateFiles directoryPath filenames in
    if (fileDeliverCandidateFileLimit <=? length candidateFiles)%nat then (w, candidateFiles)
    else candidate_files request candidateFiles directories w
  end.

Definition fileDeliverCandidateFiles (request : ToolCatalogRequest World) (path : string) (w : World) : World * list string :=
  candidate_files request [] (fileDeliverCandidateDirectories request path) w.

Definition set_Data (doc : document) (result : ToolResult) : ToolResult :=
  let '(MkToolResult content _ failure attachments notes) := result in MkToolResult content (Some doc) failure attachments notes.

Definition fileDeliverReadFailure (request : ToolCatalogRequest World) (path : string) (outcome : requesterShellOutcome) (w : World) : World * ToolResult :=
  let result := toolFailure outcome "read_file" "file_deliver" path in
  if negb (bool_decide (failureCode outcome = ActorErrorCodeNotFound)) then (w, result) else
  let dataFields := actorFailureDataFields "read_file" "file_deliver" path (actorError outcome "read_file" path) in
  let homePath := agentWorkspacePath (nativeRequesterPath request "~") in
  let '(result, dataFields) := if isHomeRelativePath path
    then (withFailureMessage (default "" (UserSafeSummary <$> Failure result) +:+ ". A relative path is read from " +:+ homePath +:+
            ", where every command starts, not from a directory an earlier command changed into; give the file's absolute path.") result,
          <["readFrom" := VText homePath]> dataFields)
    else (result, dataFields) in
  let '(w, candidateFiles) := fileDeliverCandidateFiles request path w in
  (w, set_Data (if bool_decide (candidateFiles = []) then dataFields else <["candidateFiles" := VTexts candidateFiles]> dataFields) result).

Definition fileAttachment (request : ToolCatalogRequest World) (input : fileAttachFileInput) (w : World) : World * result ToolResult DeliveredFile :=
  let path := TrimSpace (Attach_Path input) in
  if bool_decide (path = "") then (w, Err (ToolFailureResult FailureInvalidInput "file_deliver" "delivery path is required")) else
  let '(w, outcome) := runRequesterShell request
    (MkShellCommand (fileReadShellCommand path (inlineAttachmentMaximumBytes + 1)) "" 0 (inlineAttachmentMaximumBytes + fileReadShellOutputReserveBytes)) w in
  match outcome with
  | Err actorFailure => (w, Err actorFailure)
  | Ok outcome =>
    match RunError outcome with
    | Some _ => let '(w, failure) := fileDeliverReadFailure request path outcome w in (w, Err failure)
    | None =>
      match parseFileReadShellOutput (Stdout (Outcome_Result outcome)) with
      | None => (w, Err (ToolFailureResult FailureExternalService "file_deliver" "file size probe returned unreadable output"))
      | Some (sizeBytes, content) =>
        if (inlineAttachmentMaximumBytes <? sizeBytes) || (inlineAttachmentMaximumBytes <? len content)
        then (w, Err (ToolFailureResult FailureInvalidInput "file_deliver" "file is too large to deliver as an inline attachment"))
        else
          let concretePath := nativeRequesterPath request path in
          let filename := attachmentFilename input concretePath in
          let w := persistDeliveredDocument request path filename content w in
          (w, Ok (MkDelivered (agentWorkspacePath concretePath) filename
            (firstNonEmptyString [Attach_ContentType input; TypeByExtension (PathExt filename); "application/octet-stream"])
            sizeBytes (TrimSpace (Attach_Title input)) (StdEncoding.EncodeToString content) ""))
      end
    end
  end.

(** *** What is checked before a file goes out *)

Definition deliveryCheckFailureLimit : nat := 400.

Definition boundedText (text : string) : string :=
  let trimmed := TrimSpace text in
  if (String.length trimmed <=? deliveryCheckFailureLimit)%nat then trimmed else slice 0 deliveryCheckFailureLimit trimmed.

(** [None]: the check has no word, and taking the first panics. *)
Definition deliveryCheckCommand (bundle : SkillCheck) (concretePath : string) : option string :=
  match Fields (DeliveryCheck bundle) with
  | [] => None
  | word :: words => Some (Join " " (shellSingleQuoted (PathJoin [DirectoryPath bundle; word]) :: (shellSingleQuoted <$> (words ++ [concretePath]))%list))
  end.

Definition run_check (request : ToolCatalogRequest World) (concretePath : string) (acc : option (World * list string)) (bundle : SkillCheck)
    : option (World * list string) :=
  '(w, failures) ← acc;
  if bool_decide (DeliveryCheck bundle = "") then Some (w, failures) else
  command ← deliveryCheckCommand bundle concretePath;
  let '(w, failed) := run_terminal command w in
  Some (w, match failed with
      | None => failures
      | Some text => (failures ++ [PathBase concretePath +:+ ": " +:+ Check_Name bundle +:+
          "'s delivery check failed, so the file went out unchecked: " +:+ boundedText text])%list
      end).

Definition runDeliveryChecks (request : ToolCatalogRequest World) (concretePath : string) (w : World) : option (World * list string) :=
  foldl (run_check request concretePath) (Some (w, [])) (skill_checks w).

Definition isAtLeastAsNewAs (actor : Access.PersonAccess) (path otherPath : string) (w : World) : bool :=
  match StatModified actor path w, StatModified actor otherPath w with
  | Some modified, Some other => other <=? modified
  | _, _ => false
  end.

Definition bounded (metadata : deliveredFileMetadata) : deliveredFileMetadata :=
  MkMetadata (default "" (FileHoldsOf (Metadata_Holds metadata))) (filter (fun note => note <> "") (TrimSpace <$> Notes metadata)) (TrimSpace (Refusal metadata)).

Definition readDeliveredMetadata (actor : Access.PersonAccess) (concretePath : string) (w : World) : deliveredFileMetadata :=
  let metadataPath := concretePath +:+ ".meta.json" in
  if negb (isAtLeastAsNewAs actor metadataPath concretePath w) then no_metadata else
  match ReadFile actor metadataPath 65536 w with
  | Err _ => no_metadata
  | Ok content => default no_metadata (bounded <$> UnmarshalMetadata content)
  end.

Definition deliveredMetadata (request : ToolCatalogRequest World) (concretePath : string) (w : World) : World * deliveredFileMetadata :=
  let '(w, actorFailure) := workspaceActorForRequest request w in
  (w, match actorFailure with Some _ => no_metadata | None => readDeliveredMetadata (requester_access request) concretePath w end).

Definition checkDeliveries (request : ToolCatalogRequest World) (attachmentInputs : list fileAttachFileInput) (w : World)
    : option (World * list (list string * deliveredFileMetadata)) :=
  foldl (fun acc attachmentInput =>
    '(w, checked) ← acc;
    let concretePath := nativeRequesterPath request (TrimSpace (Attach_Path attachmentInput)) in
    '(w, failures) ← runDeliveryChecks request concretePath w;
    let '(w, metadata) := deliveredMetadata request concretePath w in
    Some (w, (checked ++ [(failures, metadata)])%list)) (Some (w, [])) attachmentInputs.

Definition deliveryRefusals (checked : list (list string * deliveredFileMetadata)) : list string :=
  filter (fun refusal => refusal <> "") ((fun delivery => Refusal delivery.2) <$> checked).

Definition fileDeliverRefusal (refusals : list string) : ToolResult :=
  let message := Join nl refusals in
  MkToolResult message None (Some (MkFailure FailureInvalidInput "file_deliver" message true "different_input")) [] [].

Definition set_Holds (holds : string) (attachment : DeliveredFile) : DeliveredFile :=
  let '(MkDelivered path filename contentType size title content _) := attachment in MkDelivered path filename contentType size title content holds.

Fixpoint attach_all (request : ToolCatalogRequest World) (inputs : list (fileAttachFileInput * (list string * deliveredFileMetadata)))
    (attachments : list DeliveredFile) (replyNotes : list string) (w : World) : World * result ToolResult (list DeliveredFile * list string) :=
  match inputs with
  | [] => (w, Ok (attachments, replyNotes))
  | (input, (failures, metadata)) :: inputs =>
    let '(w, attached) := fileAttachment request input w in
    match attached with
    | Err failure => (w, Err failure)
    | Ok attachment =>
      attach_all request inputs (attachments ++ [set_Holds (Metadata_Holds metadata) attachment]) (replyNotes ++ failures ++ Notes metadata) w
    end
  end.

Definition fileDeliverStagedContent : string := "files staged: they go out with the final reply and have not reached the person yet".

(** [None]: a check of a skill panics. *)
Definition attachFileTool (input : fileAttachFileInput) (files : list fileAttachFileInput) (request : ToolCatalogRequest World) (w : World)
    : option (World * ToolResult) :=
  let attachmentInputs := normalizeFileAttachInputs input files in
  if bool_decide (length attachmentInputs = 0%nat) then
    Some (w, ToolFailureResult FailureInvalidInput "file_deliver" "files must contain at least one path")
  else
  '(w, checked) ← checkDeliveries request attachmentInputs w;
  let refusals := deliveryRefusals checked in
  if negb (bool_decide (refusals = [])) then Some (w, fileDeliverRefusal refusals) else
  let '(w, attached) := attach_all request (zip attachmentInputs checked) [] [] w in
  Some match attached with
  | Err failure => (w, failure)
  | Ok (attachments, replyNotes) =>
    (w, MkToolResult (Join "; " (fileDeliverStagedContent :: replyNotes))
      (Some (list_to_map [("deliveredPaths", VTexts (DevicePath <$> attachments)); ("attachmentCount", VInt (Z.of_nat (length attachments)))]))
      None attachments replyNotes)
  end.

End tools.
