(* ===== verification/PosixShell.v ===== *)
(** * What the file tools do to the files (on [FileTools.v])

    The tools speak to a shell.  [ShellLaws] is what they rely on: a command that reads a file
    prints its size and its start and changes nothing, and one that writes a file gives it the
    content or fails and leaves every other file.  [PosixShell] is such a shell: it reads
    words as POSIX quotes them and carries out the commands the tools write. *)

From S2P Require Export FileTools.

Open Scope Z_scope.

(** ** Words of a shell command *)

Inductive quoting := Bare | Single | Double.

Definition ends_word (a : ascii) : bool := bool_decide (a ∈ [" "%char; "009"%char; newline; "&"%char; ";"%char; "|"%char; "<"%char; ">"%char; "("%char; ")"%char]).
Definition expands (a : ascii) : bool := bool_decide (a ∈ ["$"%char; "`"%char; "*"%char; "?"%char; "["%char; "#"%char; "~"%char]).

(** The word a command begins with and what follows it; [None]: a quote is not closed, or the
    word has an expansion other than [$HOME] within double quotes. *)
Fixpoint sh_word (home : bytes) (mode : quoting) (l word : bytes) : option (bytes * bytes) :=
  match mode, l with
  | Bare, [] => Some (word, [])
  | Bare, a :: rest =>
    if Ascii.eqb a "'"%char then sh_word home Single rest word else
    if Ascii.eqb a double_quote then sh_word home Double rest word else
    if Ascii.eqb a "\"%char then match rest with b :: rest => sh_word home Bare rest (word ++ [b]) | [] => None end else
    if ends_word a then Some (word, l) else
    if expands a then None else sh_word home Bare rest (word ++ [a])
  | Single, a :: rest => if Ascii.eqb a "'"%char then sh_word home Bare rest word else sh_word home Single rest (word ++ [a])
  | Double, a :: rest =>
    if Ascii.eqb a double_quote then sh_word home Bare rest word else
    if Ascii.eqb a "$"%char then
      match rest with
      | "H"%char :: "O"%char :: "M"%char :: "E"%char :: rest => sh_word home Double rest (word ++ home)
      | _ => None
      end
    else if bool_decide (a ∈ ["`"%char; "\"%char]) then None else sh_word home Double rest (word ++ [a])
  | _, [] => None
  end.

(** The file a path names, from the home directory. *)
Definition expanded (home path : string) : string :=
  if bool_decide (path = "~") then home else
  if HasPrefix path "~/" then home +:+ "/" +:+ TrimPrefix path "~/" else path.

Definition word_ends (rest : bytes) : Prop := match rest with [] => True | a :: _ => ends_word a = true end.

Lemma sh_word_single home value rest word :
  sh_word home Single (bytes_of (ReplaceByte value "'"%char (single_quote +:+ "\" +:+ single_quote +:+ single_quote)) ++ "'"%char :: rest) word =
  sh_word home Bare rest (word ++ bytes_of value).
Proof.
  unfold ReplaceByte; rewrite bytes_of_bytes; set (f := fun a => _); revert word; induction (bytes_of value) as [|a l IH]; intros word.
  { cbn; by rewrite app_nil_r. }
  rewrite fmap_cons; cbn [concat]; rewrite <- app_assoc; subst f; cbv beta; destruct (Ascii.eqb a "'"%char) eqn:Ha.
  - apply Ascii.eqb_eq in Ha as ->; etransitivity; [|etransitivity; [apply (IH (word ++ ["'"%char])%list)|by rewrite <- app_assoc]]; reflexivity.
  - cbn [app sh_word]; rewrite Ha, IH; by rewrite <- app_assoc.
Qed.

Lemma sh_word_quoted home value rest word :
  sh_word home Bare (bytes_of (shellSingleQuoted value) ++ rest) word = sh_word home Bare rest (word ++ bytes_of value).
Proof.
  unfold shellSingleQuoted; rewrite !bytes_of_app; change (bytes_of single_quote) with ["'"%char]; rewrite <- !app_assoc; cbn [app].
  transitivity (sh_word home Single (bytes_of (ReplaceByte value "'"%char (single_quote +:+ "\" +:+ single_quote +:+ single_quote)) ++ "'"%char :: rest) word);
    [reflexivity|apply sh_word_single].
Qed.

Lemma sh_word_end home rest word : word_ends rest -> sh_word home Bare rest word = Some (word, rest).
Proof.
  destruct rest as [|a rest]; [done|]; cbn [word_ends sh_word]; intros Ha.
  unfold ends_word in *; apply bool_decide_eq_true in Ha as Hin.
  repeat match type of Hin with _ ∈ _ :: _ => apply elem_of_cons in Hin as [->|Hin]; [done|] end; by apply not_elem_of_nil in Hin.
Qed.

Lemma sh_word_path home path rest : word_ends rest ->
  sh_word (bytes_of home) Bare (bytes_of (shellPathArgument path) ++ rest) [] = Some (bytes_of (expanded home path), rest).
Proof.
  intros Hend; unfold shellPathArgument, expanded; case_bool_decide as Htilde.
  - transitivity (sh_word (bytes_of home) Bare rest (bytes_of home)); [reflexivity|by apply sh_word_end].
  - destruct (HasPrefix path "~/").
    + rewrite !bytes_of_app, <- !app_assoc.
      transitivity (sh_word (bytes_of home) Bare (bytes_of (shellSingleQuoted (TrimPrefix path "~/")) ++ rest) (bytes_of home ++ ["/"%char]));
        [reflexivity|]; rewrite sh_word_quoted, sh_word_end by done; by rewrite <- app_assoc.
    + by rewrite sh_word_quoted, sh_word_end.
Qed.

(** A path is one word.  Whatever a path has in it (quotes, spaces, dollar signs, line breaks),
    the shell reads the argument the tools make of it as one word, the path itself with the
    home directory for a leading tilde, and goes on where the argument ends: a path cannot add
    a command, an option's end or an expansion. *)
Theorem paths_stay_one_word home path rest : word_ends rest ->
  sh_word (bytes_of home) Bare (bytes_of (shellPathArgument path) ++ rest) [] = Some (bytes_of (expanded home path), rest).
Proof. apply sh_word_path. Qed.

Lemma paths_stay_one_word_witness :
  sh_word (bytes_of "/home/ann") Bare (bytes_of (shellPathArgument "~/it's; rm -rf $HOME") ++ bytes_of " && x") [] =
    Some (bytes_of "/home/ann/it's; rm -rf $HOME", bytes_of " && x").
Proof. exact (paths_stay_one_word "/home/ann" "~/it's; rm -rf $HOME" (bytes_of " && x") eq_refl). Defined.

(** ** The laws of the shell *)

Definition file_named (environment : gmap string string) (path : string) : string := expanded (default "" (environment !! "HOME")) path.

Class ShellLaws (World : Type) `{ToolHost World} := {
  files : World -> gmap string string;
  requester_keeps_files : forall requester access w, workspaceActorFactory = Some requester -> files (requester access w).1 = files w;
  shell_reads : forall access path limit stdin environment timeout output identity w, 0 < limit <= int64_max -> limit <= output ->
    let ran := Run access (MkCommandRequest (requesterShellScript (fileReadShellCommand path limit)) stdin environment timeout output identity) w in
    files ran.1 = files w /\
    (ran.2.2 = None -> exists text size, files w !! file_named environment path = Some text /\ (newline ∉ bytes_of size) /\
      Atoi (TrimSpace size) = Some (len text) /\ Stdout ran.2.1 = size +:+ nl +:+ slice 0 (Z.to_nat limit) text);
  shell_writes : forall access path stdin environment timeout output identity w,
    let ran := Run access (MkCommandRequest (requesterShellScript (fileWriteShellCommand path)) stdin environment timeout output identity) w in
    match ran.2.2 with
    | None => files ran.1 = <[file_named environment path := stdin]> (files w)
    | Some _ => forall name, name <> file_named environment path -> files ran.1 !! name = files w !! name
    end;
}.

Section edits.
Context `{UnicodeTables} {World : Type} `{ShellLaws World}.
Variable request : ToolCatalogRequest World.

(** The file a path of the requester names. *)
Definition the_file (path : string) : string := file_named (requesterShellEnvironment (executionIdentityForRequester request)) path.

Definition failed (result : ToolResult) : Prop := Failure result <> None.

Lemma actor_keeps_files w : files (workspaceActorForRequest request w).1 = files w /\
  match (workspaceActorForRequest request w).2 with Some result => failed result | None => True end.
Proof.
  unfold workspaceActorForRequest; destruct workspaceActorFactory as [requester|] eqn:Hf; [|done].
  pose proof (requester_keeps_files requester (requester_access request) w Hf) as Hk.
  destruct (requester (requester_access request) w) as [w' [e|]]; done.
Qed.

(** Reading a file: nothing changes, and what is read is its size and its start. *)
Lemma read_shell path limit output w : 0 < limit <= int64_max -> limit <= output ->
  let ran := runRequesterShell request (MkShellCommand (fileReadShellCommand path limit) "" 0 output) w in
  files ran.1 = files w /\
  match ran.2 with
  | Err result => failed result
  | Ok outcome => RunError outcome = None -> exists text, files w !! the_file path = Some text /\
      parseFileReadShellOutput (Stdout (Outcome_Result outcome)) = Some (len text, slice 0 (Z.to_nat limit) text)
  end.
Proof.
  intros Hl Ho; cbv zeta; unfold runRequesterShell; pose proof (actor_keeps_files w) as [Hf He].
  destruct (workspaceActorForRequest request w) as [w1 [result|]]; cbn in *; [done|].
  unfold shell_request; cbn [Shell_Command Shell_Stdin Shell_TimeoutSecond Shell_OutputMaximumBytes].
  pose proof (shell_reads (requester_access request) path limit "" (requesterShellEnvironment (executionIdentityForRequester request)) 0 output
    (executionIdentityForRequester request) w1 Hl Ho) as [Hkeep Hread]; destruct (Run _ _ _) as [w2 [commandResult runError]]; cbn in *.
  split; [congruence|]; intros He'; destruct (Hread He') as (text & size & Htext & Hsize & Hatoi & Hout); exists text; split; [by rewrite <- Hf|].
  rewrite Hout; unfold parseFileReadShellOutput; change (nl +:+ slice 0 (Z.to_nat limit) text) with (String newline (slice 0 (Z.to_nat limit) text)).
  change nl with (String newline "").
  rewrite (Cut_at newline size (slice 0 (Z.to_nat limit) text) Hsize); cbn [default]; unfold id; rewrite Hatoi.
  by rewrite (proj2 (Z.ltb_ge (len text) 0)) by (unfold len; lia).
Qed.

Lemma write_shell stage path content w :
  let ran := runRequesterFileWrite request stage path content w in
  match ran.2 with
  | None => files ran.1 = <[the_file path := content]> (files w)
  | Some result => failed result /\ forall name, name <> the_file path -> files ran.1 !! name = files w !! name
  end.
Proof.
  cbv zeta; unfold runRequesterFileWrite, runRequesterShell; pose proof (actor_keeps_files w) as [Hf He].
  destruct (workspaceActorForRequest request w) as [w1 [result|]]; cbn in *; [by split; [|intros; rewrite Hf]|].
  unfold shell_request; cbn [Shell_Command Shell_Stdin Shell_TimeoutSecond Shell_OutputMaximumBytes].
  pose proof (shell_writes (requester_access request) path content (requesterShellEnvironment (executionIdentityForRequester request)) 0 0
    (executionIdentityForRequester request) w1) as Hwrite; destruct (Run _ _ _) as [w2 [commandResult runError]]; cbn in *.
  destruct runError; cbn; [split; [done|]; intros name Hn; rewrite Hwrite by done; by rewrite Hf|by rewrite Hwrite, Hf].
Qed.

(** What the edits come to, on the files: one after another, each on the file its path names. *)
Definition edit_file (contents : gmap string string) (edit : filePatchEditInput) : option (gmap string string) :=
  let name := the_file (TrimSpace (Edit_Path edit)) in
  content ← contents !! name;
  match applyExactOrTolerantEdit content (OldText edit) (NewText edit) with
  | Ok updated => Some (<[name := updated]> contents)
  | Err _ => None
  end.

Definition edit_files (contents : gmap string string) (edits : list filePatchEditInput) : option (gmap string string) :=
  foldl (fun contents edit => contents ← contents; edit_file contents edit) (Some contents) edits.

Definition edited_paths (edits : list filePatchEditInput) : list string := (fun edit => TrimSpace (Edit_Path edit)) <$> edits.

(** The files while the edits are checked: those that are loaded have what they are to have,
    the others what they have. *)
Record loaded (paths : list string) (start : gmap string string) (state : filePatchState) (now : gmap string string) : Prop := MkLoaded {
  loaded_paths : pathOrder state ⊆ paths;
  loaded_order : forall path, path ∈ pathOrder state <-> is_Some (currentContents state !! path);
  loaded_original : forall path, path ∈ pathOrder state -> exists text, originalContents state !! path = Some text /\ start !! the_file path = Some text;
  loaded_current : forall path text, currentContents state !! path = Some text -> now !! the_file path = Some text;
  loaded_others : forall name, (forall path, path ∈ pathOrder state -> name <> the_file path) -> now !! name = start !! name;
}.

(** No two of the paths name one file. *)
Definition distinct (paths : list string) : Prop := forall p q, p ∈ paths -> q ∈ paths -> the_file p = the_file q -> p = q.

Lemma loaded_new paths start : loaded paths start newFilePatchState start.
Proof.
  split; cbn; try done; [set_solver|intros path; split; [by intros ?%not_elem_of_nil|by intros [x Hx]]|by intros ? ?%not_elem_of_nil].
Qed.

Lemma load_state paths start state now path text : distinct paths -> path ∈ paths -> loaded paths start state now ->
  currentContents state !! path = None -> start !! the_file path = Some text ->
  loaded paths start (MkPatchState (<[path := text]> (originalContents state)) (<[path := text]> (currentContents state)) (pathOrder state ++ [path])) now.
Proof.
  intros Hd Hin [Hsub Hord Horig Hcur Hoth] Hnone Htext.
  assert (Hnew : path ∉ pathOrder state) by (intros Hp; apply Hord in Hp as [? Hx]; congruence).
  split; cbn [pathOrder originalContents currentContents].
  - intros p [Hp|Hp%list_elem_of_singleton]%elem_of_app; [by apply Hsub|by subst].
  - intros p; rewrite elem_of_app, list_elem_of_singleton, Hord; destruct (decide (p = path)) as [->|Hne].
    + rewrite lookup_insert_eq; split; [by eexists|by right].
    + rewrite lookup_insert_ne by congruence; split; [by intros [?|?]|by left].
  - intros p [Hp|Hp%list_elem_of_singleton]%elem_of_app; [|subst p; exists text; by rewrite lookup_insert_eq].
    destruct (decide (p = path)) as [->|Hne]; [done|]; rewrite lookup_insert_ne by congruence; by apply Horig.
  - intros p t; destruct (decide (p = path)) as [->|Hne]; [rewrite lookup_insert_eq; intros [= <-]|rewrite lookup_insert_ne by congruence; apply Hcur].
    rewrite Hoth, Htext; [done|]; intros q Hq He; apply Hnew; rewrite (Hd path q); [done|done|by apply Hsub|done].
  - intros name Hname; apply Hoth; intros q Hq; apply Hname, elem_of_app; by left.
Qed.

Lemma load_sound paths start state now path w : distinct paths -> path ∈ paths -> loaded paths start state now -> files w = start ->
  let ran := loadEditableFile request state path w in
  files ran.1 = start /\
  match ran.2 with
  | Err result => failed result
  | Ok state => loaded paths start state now /\ exists text, currentContents state !! path = Some text /\ now !! the_file path = Some text
  end.
Proof.
  intros Hd Hin Hl Hw; cbv zeta; unfold loadEditableFile; destruct (currentContents state !! path) as [text|] eqn:Hc.
  { split; [done|]; split; [done|]; exists text; split; [done|by apply (loaded_current _ _ _ _ Hl)]. }
  pose proof (read_shell path (maximumEditableTextFileBytes + 1) (maximumEditableTextFileBytes + fileReadShellOutputReserveBytes) w
    ltac:(split; by vm_compute) ltac:(unfold maximumEditableTextFileBytes, fileReadShellOutputReserveBytes; lia)) as [Hf Hr].
  destruct (runRequesterShell request _ w) as [w' [outcome|result]]; cbn [fst snd] in *; (split; [congruence|]); [|done].
  destruct (RunError outcome); [done|]; destruct (Hr eq_refl) as (text & Htext & ->).
  destruct ((maximumEditableTextFileBytes <? len text) || _) eqn:Hbig; [done|]; destruct (negb _); [done|].
  apply orb_false_iff in Hbig as [Hsize%Z.ltb_ge _].
  assert (Hall : slice 0 (Z.to_nat (maximumEditableTextFileBytes + 1)) text = text).
  { unfold slice; rewrite drop_0, firstn_all2, of_bytes_of by (unfold len in Hsize; rewrite ?length_bytes_of in *; lia); done. }
  rewrite Hall, Hw in *; split; [by apply load_state|]; exists text; cbn [currentContents]; rewrite lookup_insert_eq; split; [done|].
  apply (loaded_current _ _ _ _ (load_state paths start state now path text Hd Hin Hl Hc Htext)); cbn; by rewrite lookup_insert_eq.
Qed.

Lemma edit_state paths start state now path text updated : distinct paths -> loaded paths start state now ->
  currentContents state !! path = Some text ->
  loaded paths start (MkPatchState (originalContents state) (<[path := updated]> (currentContents state)) (pathOrder state)) (<[the_file path := updated]> now).
Proof.
  intros Hd [Hsub Hord Horig Hcur Hoth] Hc; assert (Hp : path ∈ pathOrder state) by (apply Hord; by eexists).
  split; cbn [pathOrder originalContents currentContents]; [done| |done| |].
  - intros p; rewrite Hord; destruct (decide (p = path)) as [->|Hne]; [rewrite lookup_insert_eq, Hc; split; intros _; by eexists|].
    by rewrite lookup_insert_ne by congruence.
  - intros p t; destruct (decide (p = path)) as [->|Hne]; [rewrite lookup_insert_eq; intros [= <-]; by rewrite lookup_insert_eq|].
    rewrite lookup_insert_ne by congruence; intros Ht; rewrite lookup_insert_ne; [by apply Hcur|].
    intros He; apply Hne; symmetry; apply Hd; [by apply Hsub|apply Hsub, Hord; by eexists|done].
  - intros name Hname; rewrite lookup_insert_ne; [by apply Hoth|]; intros He; by apply (Hname path Hp).
Qed.

Lemma edit_sound paths start state now edit index w : distinct paths -> TrimSpace (Edit_Path edit) ∈ paths -> loaded paths start state now -> files w = start ->
  let ran := validatePatchEdit request state edit index w in
  files ran.1 = start /\
  match ran.2 with
  | Err result => failed result
  | Ok state => exists next, edit_file now edit = Some next /\ loaded paths start state next
  end.
Proof.
  intros Hd Hin Hl Hw; cbv zeta; unfold validatePatchEdit, edit_file; set (path := TrimSpace (Edit_Path edit)) in *.
  case_bool_decide; [done|]; case_bool_decide; [done|]; pose proof (load_sound paths start state now path w Hd Hin Hl Hw) as [Hf Hr].
  destruct (loadEditableFile request state path w) as [w' [state'|result]]; cbn [fst snd] in *; (split; [done|]); [|done].
  destruct Hr as [Hl' (text & Hc & Hn)]; rewrite Hc, Hn; cbn [default mbind option_bind]; unfold id.
  destruct (applyExactOrTolerantEdit text (OldText edit) (NewText edit)) as [updated|]; [|done]; eexists; split; [reflexivity|].
  by apply (edit_state paths start state' now path text updated).
Qed.

Lemma edit_files_none edits : foldl (fun contents edit => contents ← contents; edit_file contents edit) None edits = None.
Proof. induction edits as [|edit edits IH]; [done|]; exact IH. Qed.

Lemma edits_sound paths start edits : distinct paths -> edited_paths edits ⊆ paths -> forall state now index w,
  loaded paths start state now -> files w = start ->
  let ran := validate_edits request state edits index w in
  files ran.1 = start /\
  match ran.2 with
  | Err result => failed result
  | Ok state => exists final, edit_files now edits = Some final /\ loaded paths start state final
  end.
Proof.
  intros Hd; induction edits as [|edit edits IH]; intros Hsub state now index w Hl Hw; cbn [validate_edits]; [split; [done|by exists now]|].
  assert (Hin : TrimSpace (Edit_Path edit) ∈ paths) by (apply Hsub; by left).
  pose proof (edit_sound paths start state now edit index w Hd Hin Hl Hw) as [Hf Hr].
  destruct (validatePatchEdit request state edit index w) as [w' [state'|result]]; cbn [fst snd] in *; [|done].
  destruct Hr as (next & Hnext & Hl'); unfold edit_files; cbn [foldl mbind option_bind]; rewrite Hnext.
  apply IH; [|done|done]; intros p Hp; apply Hsub; by right.
Qed.
(** A path that was written once can be written again. *)
Definition writes_again : Prop := forall path content w, (runRequesterFileWrite request "edit" path content w).2 = None ->
  forall content' w', (runRequesterFileWrite request "edit" path content' w').2 = None.

Definition was_written (path : string) : Prop := exists content w, (runRequesterFileWrite request "edit" path content w).2 = None.

Lemma rollback_restores (start : gmap string string) state bad written w : writes_again ->
  (forall path, path ∈ written -> was_written path /\ exists text, originalContents state !! path = Some text /\ start !! the_file path = Some text) ->
  (forall name, name <> bad -> (forall path, path ∈ written -> name <> the_file path) -> files w !! name = start !! name) ->
  forall name, name <> bad -> files (rollbackPatchWrites request state written w) !! name = start !! name.
Proof.
  intros Hagain; unfold rollbackPatchWrites; revert w; induction written as [|path written IH]; intros w Hold Hrest name Hname; cbn [foldl].
  { apply Hrest; [done|by intros ? ?%not_elem_of_nil]. }
  destruct (Hold path ltac:(by left)) as [(content & w0 & Hw0) (text & Horig & Hstart)]; rewrite Horig; cbn [default]; unfold id.
  pose proof (write_shell "edit" path text w) as Hwrite; cbv zeta in Hwrite; rewrite (Hagain path content w0 Hw0 text w) in Hwrite.
  apply IH; [intros p Hp; apply Hold; by right| |done]; intros q Hq Hnot; rewrite Hwrite.
  destruct (decide (q = the_file path)) as [->|Hne]; [by rewrite lookup_insert_eq|]; rewrite lookup_insert_ne by congruence.
  apply Hrest; [done|]; intros p [->|Hp]%elem_of_cons; [done|by apply Hnot].
Qed.

(** The tool's answer is that of a write that failed: it was to give the file of a path what the edits made
    of it, when every file had what it had at the start or what the edits made of it. *)
Definition write_failed (start final : gmap string string) (path : string) (result : ToolResult) : Prop := exists text w w',
  final !! the_file path = Some text /\ runRequesterFileWrite request "edit" path text w = (w', Some result) /\
  forall name, files w !! name = start !! name \/ files w !! name = final !! name.

(** The files while they are written: those written have their new content, the others what they had. *)
Lemma write_sound paths start state final todo done_ w : writes_again -> distinct paths -> loaded paths start state final -> (done_ ++ todo)%list = pathOrder state ->
  (forall path, path ∈ done_ -> was_written path) ->
  (forall path, path ∈ done_ -> files w !! the_file path = final !! the_file path) ->
  (forall name, (forall path, path ∈ done_ -> name <> the_file path) -> files w !! name = start !! name) ->
  let ran := write_paths request state todo done_ w in
  match ran.2 with
  | None => files ran.1 = final
  | Some result => failed result /\ exists path, path ∈ pathOrder state /\ write_failed start final path result /\
      forall name, name <> the_file path -> files ran.1 !! name = start !! name
  end.
Proof.
  intros Hagain Hd Hl; revert done_ w; induction todo as [|path todo IH]; intros done_ w Hall Hwas Hdone Hrest; cbn [write_paths].
  - rewrite app_nil_r in Hall; apply map_eq; intros name; subst done_.
    destruct (decide (Exists (fun path => name = the_file path) (pathOrder state))) as [(p & Hp & ->)%Exists_exists|Hno]; [by apply Hdone|].
    assert (Hother : forall p, p ∈ pathOrder state -> name <> the_file p) by (intros p Hp He; apply Hno, Exists_exists; by exists p).
    by rewrite Hrest, (loaded_others _ _ _ _ Hl).
  - assert (Hin : path ∈ pathOrder state) by (rewrite <- Hall; apply elem_of_app; right; by left).
    destruct (proj1 (loaded_order _ _ _ _ Hl path) Hin) as [text Hc]; rewrite Hc; cbn [default]; unfold id.
    pose proof (write_shell "edit" path text w) as Hwrite; cbv zeta in Hwrite.
    destruct (runRequesterFileWrite request "edit" path text w) as [w' [result|]] eqn:Hrun; cbn [fst snd] in *.
    + destruct Hwrite as [Hfail Hkeep]; split; [done|]; exists path; split; [done|]; split.
      { exists text, w, w'; split_and!; [by apply (loaded_current _ _ _ _ Hl)|done|]; intros name.
        destruct (decide (Exists (fun path => name = the_file path) done_)) as [(p & Hp & ->)%Exists_exists|Hno]; [right; by apply Hdone|].
        left; apply Hrest; intros p Hp He; apply Hno, Exists_exists; by exists p. }
      apply rollback_restores; [done| |].
      * intros p Hp; split; [by apply Hwas|]; apply (loaded_original _ _ _ _ Hl); rewrite <- Hall; apply elem_of_app; by left.
      * intros name Hname Hnot; rewrite Hkeep by done; by apply Hrest.
    + apply IH; [by rewrite <- app_assoc| | |].
      * intros p [Hp| ->%list_elem_of_singleton]%elem_of_app; [by apply Hwas|exists text, w; by rewrite Hrun].
      * intros p Hp; rewrite Hwrite; destruct (decide (the_file path = the_file p)) as [He|Hne].
        -- rewrite <- He, lookup_insert_eq; symmetry; by apply (loaded_current _ _ _ _ Hl).
        -- rewrite lookup_insert_ne by done; apply elem_of_app in Hp as [Hp| ->%list_elem_of_singleton]; [by apply Hdone|done].
      * intros name Hnot; rewrite Hwrite, lookup_insert_ne; [apply Hrest; intros p Hp; apply Hnot, elem_of_app; by left|].
        intros He; apply (Hnot path); [apply elem_of_app; right; by apply list_elem_of_singleton|done].
Qed.

(** C11. Edits are made together or not at all, when no two paths of a patch name one file.  A patch
    that succeeds leaves the files as its edits make them one after another.  A patch with an edit
    that cannot be made (there is no such file, or the text is not found in it as the edit needs it) fails
    and leaves every file as it was, and so does any other patch that fails, unless the failure it
    reports is that of a write of what the edits made of one of its files: then every file but that one is
    as it was, where a file that was written once can be written again. *)
Theorem edits_are_all_or_nothing edits w w' result : distinct (edited_paths edits) -> writes_again ->
  patchFileTool edits request w = (w', result) ->
  (edit_files (files w) edits = None -> failed result /\ files w' = files w) /\
  (Failure result = None -> edit_files (files w) edits = Some (files w')) /\
  (failed result -> files w' = files w \/
    exists path final, path ∈ edited_paths edits /\ edit_files (files w) edits = Some final /\ write_failed (files w) final path result /\
      forall name, name <> the_file path -> files w' !! name = files w !! name).
Proof.
  intros Hd Hagain; unfold patchFileTool; destruct edits as [|edit edits]; [intros [= <- <-]; split_and!; [done|done|by left]|].
  set (all := edit :: edits) in *; destruct (100 <? _); [intros [= <- <-]; split_and!; [done|done|by left]|].
  pose proof (edits_sound (edited_paths all) (files w) all Hd ltac:(done) newFilePatchState (files w) 0 w (loaded_new _ _) eq_refl) as [Hf Hr].
  destruct (validate_edits request newFilePatchState all 0 w) as [w1 [state|refused]]; cbn [fst snd] in *; [|intros [= <- <-]; by split_and!; [|intros|left]].
  destruct Hr as (final & Hfinal & Hl); rewrite Hfinal; unfold writePatchState.
  pose proof (write_sound _ _ state final (pathOrder state) [] w1 Hagain Hd Hl eq_refl ltac:(by intros ? ?%not_elem_of_nil)
    ltac:(by intros ? ?%not_elem_of_nil) ltac:(intros; by rewrite Hf)) as Hw; cbv zeta in Hw.
  destruct (write_paths request state (pathOrder state) [] w1) as [w2 [failure|]]; cbn [fst snd] in *; intros [= <- <-]; (split; [done|]).
  - destruct Hw as [Hfail (path & Hp & Hfailed & Hkeep)]; split; [done|]; intros _; right; exists path, final.
    split_and!; [by apply (loaded_paths _ _ _ _ Hl)|done..].
  - split; [by rewrite Hw|done].
Qed.

Lemma persist_writes path filename content w :
  let after := files (persistDeliveredDocument request path filename content w) in
  after = files w \/ forall name, name <> the_file (deliveredDocumentsDirectoryPath +:+ "/" +:+ filename) -> after !! name = files w !! name.
Proof.
  cbv zeta; unfold persistDeliveredDocument; destruct (negb _); [by left|]; case_bool_decide; [by left|]; right; intros name Hname.
  pose proof (write_shell "file_deliver" (deliveredDocumentsDirectoryPath +:+ "/" +:+ filename) content w) as Hw; cbv zeta in Hw.
  destruct (runRequesterFileWrite _ _ _ _ _) as [w' [result|]]; cbn [fst snd] in *; [by apply Hw|]; by rewrite Hw, lookup_insert_ne by congruence.
Qed.

(** What is delivered is the file.  A file that is attached carries, in base64, the bytes
    the requester's file has, all of them, with their number; nothing else of the requester
    changes but the copy of a document under the delivered documents. *)
Theorem deliveries_carry_the_file input w w' delivered : fileAttachment request input w = (w', Ok delivered) ->
  exists text, files w !! the_file (TrimSpace (Attach_Path input)) = Some text /\
    StdEncoding.DecodeString (ContentBase64 delivered) = Some text /\ SizeBytes delivered = len text /\ len text <= inlineAttachmentMaximumBytes /\
    forall name, name <> the_file (deliveredDocumentsDirectoryPath +:+ "/" +:+ Filename delivered) -> files w' !! name = files w !! name.
Proof.
  unfold fileAttachment; set (path := TrimSpace (Attach_Path input)); case_bool_decide; [done|].
  pose proof (read_shell path (inlineAttachmentMaximumBytes + 1) (inlineAttachmentMaximumBytes + fileReadShellOutputReserveBytes) w
    ltac:(split; by vm_compute) ltac:(unfold inlineAttachmentMaximumBytes, fileReadShellOutputReserveBytes; lia)) as [Hf Hr].
  destruct (runRequesterShell request _ w) as [w1 [outcome|refused]]; cbn [fst snd] in *; [|done].
  destruct (RunError outcome); [destruct (fileDeliverReadFailure _ _ _ _); done|]; destruct (Hr eq_refl) as (text & Htext & ->).
  destruct ((inlineAttachmentMaximumBytes <? len text) || _) eqn:Hbig; [done|]; apply orb_false_iff in Hbig as [Hsize%Z.ltb_ge _].
  assert (Hall : slice 0 (Z.to_nat (inlineAttachmentMaximumBytes + 1)) text = text).
  { unfold slice; rewrite drop_0, firstn_all2, of_bytes_of by (unfold len in Hsize; rewrite ?length_bytes_of in *; lia); done. }
  rewrite Hall; set (filename := attachmentFilename input _); intros [= <- <-]; exists text; cbn [ContentBase64 SizeBytes Filename].
  split_and!; [done|apply StdEncoding.DecodeString_EncodeToString|done|done|]; intros name Hname.
  destruct (persist_writes path filename text w1) as [->|Hother]; [by rewrite Hf|by rewrite Hother, Hf].
Qed.

End edits.

(** ** A shell for the commands the tools write *)

(** ** A shell for the commands the tools write *)

Definition disk : Type := gmap string string.

Inductive script :=
| ReadScript (sized : bytes) (limit : Z) (shown : bytes)
| WriteScript (parent : bytes) (written : bytes).

Definition write_middle : string := ")" +:+ String double_quote " && cat > ".
Definition write_head : string := "mkdir -p -- " +:+ String double_quote "$(dirname -- ".

Definition read_script (home l : bytes) : option script :=
  '(sized, l) ← sh_word home Bare l [];
  l ← strip_prefix (bytes_of " && head -c ") l;
  '(count, l) ← Cut (of_bytes l) " ";
  limit ← Atoi count;
  l ← strip_prefix (bytes_of "< ") (bytes_of l);
  '(shown, l) ← sh_word home Bare l [];
  match l with [] => Some (ReadScript sized limit shown) | _ => None end.

Definition write_script (home l : bytes) : option script :=
  '(parent, l) ← sh_word home Bare l [];
  l ← strip_prefix (bytes_of write_middle) l;
  '(written, l) ← sh_word home Bare l [];
  match l with [] => Some (WriteScript parent written) | _ => None end.

(** A command, after the change into the home directory. *)
Definition parse_script (home : bytes) (command : string) : option script :=
  l ← strip_prefix (bytes_of (requesterShellScript "")) (bytes_of command);
  match strip_prefix (bytes_of "wc -c < ") l with
  | Some l => read_script home l
  | None => l ← strip_prefix (bytes_of write_head) l; write_script home l
  end.

Definition ran_with (code : Z) (stdout stderr : string) : CommandResult * option actor_failure :=
  (MkCommandResult code stdout stderr, if code =? 0 then None else Some (OtherFailure "exit status 1")).

(** A file of [locked] cannot be written. *)
Definition run_script (locked : gset string) (command : CommandRequest) (d : disk) : disk * (CommandResult * option actor_failure) :=
  match parse_script (bytes_of (default "" (EnvironmentVariables command !! "HOME"))) (Command command) with
  | Some (ReadScript sized limit shown) =>
    match d !! of_bytes sized, d !! of_bytes shown with
    | Some text, Some text' =>
      if int64_max <? len text then (d, ran_with 1 "" "too large")
      else (d, ran_with 0 (Itoa (len text) +:+ nl +:+ slice 0 (Z.to_nat limit) text') "")
    | _, _ => (d, ran_with 1 "" "cannot open: No such file or directory")
    end
  | Some (WriteScript _ written) =>
    if bool_decide (of_bytes written ∈ locked) then (d, ran_with 1 "" "Permission denied")
    else (<[of_bytes written := Stdin command]> d, ran_with 0 "" "")
  | None => (d, ran_with 1 "" "not a command of the tools")
  end.

Definition posix_host (locked : gset string) : ToolHost disk := {|
  workspaceRootPath := "/workspace";
  workspaceActorFactory := Some (fun _ d => (d, None));
  Run _ command d := run_script locked command d;
  ReadFile _ path _ d := match d !! path with Some text => Ok text | None => Err (OtherFailure "no such file or directory") end;
  StatModified _ path d := (fun _ => 0) <$> d !! path;
  MarshalBody _ := "";
  UnmarshalMetadata _ := None;
  FileHoldsOf _ := None;
  TypeByExtension _ := "";
  url_parts _ := None;
  image_read := None;
  document_read := None;
  skill_checks _ := [];
  run_terminal _ d := (d, None);
|}.

Lemma strip_script command : strip_prefix (bytes_of (requesterShellScript "")) (bytes_of (requesterShellScript command)) = Some (bytes_of command).
Proof.
  assert (Hs : requesterShellScript command = requesterShellScript "" +:+ command) by reflexivity; rewrite Hs, bytes_of_app; apply strip_prefix_app.
Qed.

Lemma parse_read home path limit : 0 < limit <= int64_max ->
  parse_script (bytes_of home) (requesterShellScript (fileReadShellCommand path limit)) =
    Some (ReadScript (bytes_of (expanded home path)) limit (bytes_of (expanded home path))).
Proof.
  intros Hl; unfold parse_script; rewrite strip_script; cbn [mbind option_bind]; unfold fileReadShellCommand; rewrite bytes_of_app, strip_prefix_app.
  unfold read_script; rewrite bytes_of_app, sh_word_path by done; cbn [mbind option_bind].
  rewrite bytes_of_app, strip_prefix_app; cbn [mbind option_bind]; rewrite of_bytes_of.
  change (Itoa limit +:+ " < " +:+ shellPathArgument path) with (Itoa limit +:+ String " "%char ("< " +:+ shellPathArgument path)).
  change " " with (String " "%char ""); rewrite Cut_at.
  2: { intros Hin; pose proof (Itoa_digits limit ltac:(lia)) as Hd; rewrite Forall_forall in Hd; destruct (Hd _ Hin) as [d He]; discriminate He. }
  cbn [mbind option_bind]; rewrite Atoi_Itoa by done; cbn [mbind option_bind]; rewrite bytes_of_app, strip_prefix_app; cbn [mbind option_bind].
  rewrite <- (app_nil_r (bytes_of (shellPathArgument path))), sh_word_path by done; reflexivity.
Qed.

Lemma parse_write home path :
  parse_script (bytes_of home) (requesterShellScript (fileWriteShellCommand path)) =
    Some (WriteScript (bytes_of (expanded home path)) (bytes_of (expanded home path))).
Proof.
  unfold parse_script; rewrite strip_script; cbn [mbind option_bind].
  assert (Hw : fileWriteShellCommand path = write_head +:+ (shellPathArgument path +:+ (write_middle +:+ shellPathArgument path))) by reflexivity.
  rewrite Hw, bytes_of_app; change (strip_prefix (bytes_of "wc -c < ") (bytes_of write_head ++ _)) with (@None bytes); cbn match.
  rewrite strip_prefix_app; cbn [mbind option_bind]; unfold write_script; rewrite bytes_of_app, sh_word_path by done; cbn [mbind option_bind].
  rewrite bytes_of_app, strip_prefix_app; cbn [mbind option_bind].
  rewrite <- (app_nil_r (bytes_of (shellPathArgument path))), sh_word_path by done; reflexivity.
Qed.

Lemma digit_solid a : is_digit a -> solid_ascii a = true /\ a <> newline.
Proof.
  intros [d Hd]; destruct a as [[] [] [] [] [] [] [] []]; first [by split|by exfalso; discriminate Hd].
Qed.

(** The size a shell prints is the size that is read. *)
Lemma size_line z : 0 <= z <= int64_max -> (newline ∉ bytes_of (Itoa z)) /\ Atoi (TrimSpace (Itoa z)) = Some z.
Proof.
  intros Hz; destruct (decide (z = 0)) as [->|Hne]; [split; [by apply (bool_decide_eq_false_1 (newline ∈ bytes_of (Itoa 0))); vm_compute|by vm_compute]|].
  pose proof (Itoa_digits z ltac:(lia)) as Hd; rewrite Forall_forall in Hd; split.
  - intros Hin; by destruct (digit_solid _ (Hd _ Hin)).
  - rewrite TrimSpace_ascii; [apply Atoi_Itoa; lia|]; apply forallb_forall; intros a Ha%list_elem_of_In; by destruct (digit_solid _ (Hd _ Ha)).
Qed.

Definition posix_laws (locked : gset string) : @ShellLaws disk (posix_host locked).
Proof.
  refine (@Build_ShellLaws disk (posix_host locked) id _ _ _); unfold id.
  - by intros requester access w [= <-].
  - intros access path limit stdin environment timeout output identity w Hl _; unfold Run, posix_host, run_script.
    cbn [EnvironmentVariables Command]; rewrite parse_read by done; rewrite !of_bytes_of; fold (file_named environment path).
    destruct (w !! file_named environment path) as [text|] eqn:Htext; [|done]; destruct (Z.ltb_spec int64_max (len text)); [done|].
    split; [done|]; intros _; exists text, (Itoa (len text)); destruct (size_line (len text)) as [Hn Ha]; [unfold len in *; lia|by split_and!].
  - intros access path stdin environment timeout output identity w; unfold Run, posix_host, run_script.
    cbn [EnvironmentVariables Command Stdin]; rewrite parse_write, of_bytes_of; destruct (bool_decide _); done.
Defined.

(** ** Ann's files, one of them locked *)

#[local] Existing Instance ascii_tables.
#[local] Instance ann_host : ToolHost disk := posix_host {["b.txt"]}.
#[local] Instance ann_laws : ShellLaws disk := posix_laws {["b.txt"]}.

Definition ann_request : ToolCatalogRequest disk := MkCatalogRequest (Access.MkPersonAccess "ann" [] []) "" [] no_visible_context None.
Definition ann_files : disk := {["a.txt" := "one two"; "b.txt" := "three"; "c.txt" := "four"]}.

Lemma locked_writes_again (request : ToolCatalogRequest disk) : writes_again request.
Proof.
  intros path content w; unfold runRequesterFileWrite, runRequesterShell, workspaceActorForRequest; cbn [workspaceActorFactory ann_host posix_host].
  unfold Run, ann_host, posix_host, run_script, shell_request; cbn [EnvironmentVariables Command Stdin Shell_Command Shell_Stdin].
  rewrite parse_write, of_bytes_of; by destruct (bool_decide _).
Qed.

Lemma edits_are_all_or_nothing_witness :
  let edits := [MkEdit "a.txt" "two" "2"; MkEdit "b.txt" "three" "3"] in
  let unmatched := [MkEdit "a.txt" "two" "2"; MkEdit "c.txt" "five" "5"] in
  let run := patchFileTool edits ann_request ann_files in
  let refused := patchFileTool unmatched ann_request ann_files in
  run.1 = ann_files /\ failed run.2 /\
  (patchFileTool (take 1 edits) ann_request ann_files).1 = <["a.txt" := "one 2"]> ann_files /\
  (files run.1 = files ann_files \/
    exists path final, path ∈ edited_paths edits /\ edit_files ann_request (files ann_files) edits = Some final /\
      write_failed ann_request (files ann_files) final path run.2 /\
      forall name, name <> the_file ann_request path -> files run.1 !! name = files ann_files !! name) /\
  failed refused.2 /\ files refused.1 = files ann_files.
Proof.
  intros edits unmatched run refused; assert (Hfail : failed run.2) by (vm_compute; discriminate).
  split; [vm_compute; reflexivity|]; split; [exact Hfail|]; split; [vm_compute; reflexivity|]; split.
  - refine (proj2 (proj2 (edits_are_all_or_nothing ann_request edits ann_files run.1 run.2 _ _ _)) Hfail); [|apply locked_writes_again|apply surjective_pairing].
    intros p q [->|[->|?%not_elem_of_nil]%elem_of_cons]%elem_of_cons [->|[->|?%not_elem_of_nil]%elem_of_cons]%elem_of_cons; by vm_compute.
  - refine (proj1 (edits_are_all_or_nothing ann_request unmatched ann_files refused.1 refused.2 _ _ _) _);
      [|apply locked_writes_again|apply surjective_pairing|vm_compute; reflexivity].
    intros p q [->|[->|?%not_elem_of_nil]%elem_of_cons]%elem_of_cons [->|[->|?%not_elem_of_nil]%elem_of_cons]%elem_of_cons; by vm_compute.
Defined.

Lemma deliveries_carry_the_file_witness :
  let input := MkAttachFile "c.txt" "" "" "" in
  let run := fileAttachment ann_request input ann_files in
  (ContentBase64 <$> match run.2 with Ok delivered => Some delivered | Err _ => None end) = Some "Zm91cg==" /\
  exists delivered text, run.2 = Ok delivered /\ ann_files !! the_file ann_request "c.txt" = Some text /\
    StdEncoding.DecodeString (ContentBase64 delivered) = Some text.
Proof.
  intros input run; split; [vm_compute; reflexivity|]; destruct run.2 as [delivered|refused] eqn:Hrun; [|vm_compute in Hrun; discriminate Hrun].
  destruct (deliveries_carry_the_file ann_request input ann_files run.1 delivered) as (text & Ht & Hd & _).
  - rewrite <- Hrun; apply surjective_pairing.
  - exists delivered, text; split_and!; [reflexivity|exact Ht|exact Hd].
Defined.

(** Two spellings of one path are two files of a patch: the second edit, of the text before the
    first, is written last, and the first is lost though both are reported. *)
Lemma spellings_lose_an_edit :
  let home := the_file ann_request "~" in
  let edits := [MkEdit "~/d.txt" "one" "1"; MkEdit (home +:+ "/d.txt") "two" "2"] in
  let run := patchFileTool edits ann_request {[home +:+ "/d.txt" := "one two"]} in
  (Failure run.2, run.1 !! (home +:+ "/d.txt")) = (None, Some "one 2").
Proof. vm_compute; reflexivity. Qed.

(** A file over the limit is refused whatever part of it is asked for. *)
Lemma large_files_are_refused_in_pieces stage path input maxOutputBytes stdout size content :
  parseFileReadShellOutput stdout = Some (size, content) -> maximumFileReadBytes < size -> 0 < StartByte input ->
  exact_read stage path input maxOutputBytes maximumFileReadBytes stdout = Some (ToolFailureResult FailureInvalidInput stage
    "file is too large for an exact text read; read it in pieces with startByte, or narrow it with grep or sed through shell").
Proof. intros Hp Hs _; unfold exact_read; rewrite Hp; by rewrite (proj2 (Z.ltb_lt _ _) Hs). Qed.

(** A document that is delivered takes the place of another of its name. *)
Lemma deliveries_replace_documents :
  let kept := the_file ann_request "~/documents/report.pdf" in
  (fileAttachment ann_request (MkAttachFile "/tmp/report.pdf" "" "" "") {["/tmp/report.pdf" := "new"; kept := "old"]}).1 !! kept = Some "new".
Proof. vm_compute; reflexivity. Qed.

(** A skill whose check is blank stops every delivery. *)
Lemma blank_check_panics concretePath : deliveryCheckCommand (MkSkillCheck "pdf" "/workspace/skills/pdf" " ") concretePath = None.
Proof. reflexivity. Qed.
