(* ===== verification/Capabilities.v ===== *)
(** * Calls of the capabilities ([agentruntime/capability_tools.go], [capability_tool_provider.go],
    [capability_registry.go])

    A tool of the host ("capabilityd") is called over HTTP, for the person of the turn: who may
    call it, what its input may hold, which files are read for it and as whom, what is
    posted, what an answer means, and the one repetition an approval allows.  The bytes of
    a document are strings; encoding/json, the gate and the host are a class. *)

From S2P Require Export FileTools.
From S2P Require Import GoBase64.
From S2P Require GoHash.
From S2P Require Import AccessControl HeldCalls.

Open Scope Z_scope.

(** ** Data *)

(** [capability.ToolDescriptor], the fields that are read here. *)
Record ToolDescriptor := MkDescriptor {
  Descriptor_Name : string;
  CanonicalName : string;
  Namespace : string;
  ModelName : string;
  ModelVisibility : string;
  Description : string;
  PrivacyClass : string;
  RequiresUserPresence : bool;
  Descriptor_InputSchema : string;
  InputIntentSchema : string;
  OutputSchema : string;
  ResultContractSchema : option string;
  PolicyResource : string;
  Descriptor_SideEffectClass : string;
  Descriptor_RequiresApproval : bool;
  CompletionMode : option string;
  AvailabilityState : string;
  AvailabilityReason : string;
  IdempotencySupported : bool;
  IdempotencyRequired : bool;
  IdempotencyScope : string;
}.

(** What the context of a call carries. *)
Record CallContext := MkCallContext {
  Context_TaskRunID : string;
  Context_ObservationID : string;
  Context_HoldID : string;
  Context_ResponseLanguage : string;
  Context_ScheduledCall : option string;
}.

Definition WithHoldID (holdID : string) (ctx : CallContext) : CallContext :=
  MkCallContext (Context_TaskRunID ctx) (Context_ObservationID ctx) holdID (Context_ResponseLanguage ctx) (Context_ScheduledCall ctx).

(** What a capability is told of the requester and the conversation. *)
Record RequesterFacts := MkRequesterFacts {
  Fact_RequesterPersonID : string;
  Fact_RequesterEmail : string;
  Fact_RequesterName : string;
  Fact_RequesterPlatformUserID : string;
  Fact_TaskSource : string;
  Fact_IsScheduledRun : bool;
  Fact_ConversationID : string;
  Fact_ConversationType : string;
  Fact_ChannelID : string;
  Fact_ChannelName : string;
  Fact_ReplyTargetID : string;
  Fact_Platform : string;
  Fact_ScheduledRun : option string;
}.

(** A file that is carried: its path and name, its bytes in base64 and their digest. *)
Record CarriedFile := MkCarried {
  Carried_Path : string;
  Carried_Filename : string;
  Carried_Base64 : string;
  Carried_SHA256 : string;
}.

Inductive CapabilityTransport :=
| NoTransport
| OneFile (file : CarriedFile)
| SomeFiles (files : list CarriedFile).

Record preparedCapabilityToolPayload := MkPayload { Payload_Input : string; Transport : CapabilityTransport }.

(** The document that is posted. *)
Record CapabilityRequest := MkCapabilityRequest {
  Posted_ToolName : string;
  Posted_Input : string;
  Posted_IdempotencyKey : string;
  Posted_Facts : RequesterFacts;
  Posted_ResponseLanguage : string;
  Posted_Hold : option (string * string);
  Posted_ScheduledCall : option string;
  Posted_Transport : CapabilityTransport;
  Posted_PrivacyClass : string;
  Posted_RequiresUserPresence : bool;
}.

Record CapabilityResponse := MkResponse {
  Provider : string;
  SelectedBackend : string;
  Response_ToolName : string;
  Outcome : string;
  Response_Content : string;
  IsError : bool;
  Response_Status : string;
  Response_Message : string;
  Response_ErrorCode : string;
  Response_FailureStage : string;
  Response_Retryable : bool;
  Response_SafeRetry : bool;
  Response_Result : string;
}.

Inductive CapabilityFailureKind :=
| CapabilityPermissionDenied
| CapabilityInvalidInput
| CapabilityRateLimited
| CapabilityNotFound
| CapabilityDependencyUnavailable
| CapabilityPolicyBlocked
| CapabilityInteractionRequired
| CapabilityExternalService.

Record RecoveryHint := MkHint { Hint_Action : string; Hint_ToolNames : list string; Hint_Reason : string }.

Record CapabilityFailure := MkCapabilityFailure {
  CF_Kind : CapabilityFailureKind;
  CF_Code : string;
  CF_Stage : string;
  CF_Summary : string;
  CF_RequiresApproval : bool;
  CF_Retryable : bool;
  CF_SafeRetry : bool;
  CF_Hints : list RecoveryHint;
}.

Record CapabilityResult := MkCapabilityResult {
  CR_Content : string;
  CR_Data : string;
  CR_Failure : option CapabilityFailure;
  CR_Attachments : list DeliveredFile;
  CR_RecoveryActions : list string;
}.

(** What a call ends with: a result of the capability, a failure of the workspace actor, what the
    gate answers, or the error of the post. *)
Inductive CallEnd :=
| Ended (r : CapabilityResult)
| ActorRefused (r : FileTools.ToolResult)
| GateAnswered (r : option HeldCalls.ToolResult)
| PostFailed (e : string).

(** encoding/json on the bytes of a document: what each [json.Unmarshal] of the calls gives. *)
Class JSONDocuments := {
  decode_members : string -> option (gmap string string);
  decode_text : string -> option string;
  decode_texts : string -> option (list string);
  decode_flag : string -> option bool;
  decode_elements : string -> option (list string);
  (** into [map[string]any] and back: the members, encoded again *)
  decode_document : string -> option (gmap string string);
  encode_document : gmap string string -> string;
  encode_text : string -> string;
  (** [struct { Type string }], and with the description and the enumeration *)
  decode_attachment : string -> option DeliveredFile;
  decode_attachments : string -> option (list DeliveredFile);
  decode_recovery_kind : string -> option (option string);
  decode_hints : string -> option (list RecoveryHint);
  decode_target : string -> ApprovalGate.ApprovalTarget;
}.

(** The codes of failures of the tool contract. *)
Class FailureCodes := {
  CanonicalFailureCode : string -> string;
  Code_AccessDenied : string;
  Code_InvalidInput : string;
  Code_RateLimited : string;
  Code_NotFound : string;
  Code_Unavailable : string;
  Code_PolicyBlocked : string;
  Code_InteractionRequired : string;
  Code_OperationFailed : string;
}.

Class CapabilityHost (World : Type) := {
  host_tools :: ToolHost World;
  host_JSON :: JSONDocuments;
  host_codes :: FailureCodes;
  PathEscape : string -> string;
  PostJSON : string -> CapabilityRequest -> World -> World * result string CapabilityResponse;
  (** The holds of a run, in its events; [None]: no task runs to look in. *)
  HoldsOfRun : option (string -> World -> list Hold);
  (** The gate of the turn: [None] there is none; the answer's [None] is an error. *)
  ToolCallGate : option (ApprovalGate.ApprovalTarget -> string -> string -> string -> World -> World * option ToolCallReview);
  capabilityToolDefinitions : World -> list ToolDescriptor;
}.

Section calls.
Context `{UnicodeTables} `{JSONDocuments}.

Definition sorted_names {A} (m : gmap string A) : list string := stable_sort str_lt (map_to_list m).*1.

(** The members of a schema's object, and a member that is decoded; absent or null is the zero value. *)
Definition schema_properties (members : gmap string string) : option (gmap string string) :=
  match members !! "properties" with None => Some ∅ | Some raw => decode_members raw end.

Definition schema_required (members : gmap string string) : option (list string) :=
  match members !! "required" with None => Some [] | Some raw => decode_texts raw end.

Definition schema_text (name : string) (members : gmap string string) : option string :=
  match members !! name with None => Some "" | Some raw => decode_text raw end.

(** ** What a schema says of an input *)

Definition capabilityCatalogMaxDepth : nat := 4.

Definition capabilityCatalogEnumValues (values : list string) : list string :=
  (fun value => default (TrimSpace value) (decode_text value)) <$> values.

(** The fields of an object, given how a field's type is written. *)
Definition object_fields (fieldType : string -> string) (objectSchema : string) : string :=
  default "" (members ← decode_members objectSchema; properties ← schema_properties members; required ← schema_required members;
    if bool_decide (properties = ∅) then None else
    let names := sorted_names properties in
    let field name := name +:+ " " +:+ fieldType (default "" (properties !! name)) in
    Some (Join ", " (((fun name => field name +:+ " (required)") <$> filter (fun name => name ∈ required) names) ++
      (field <$> filter (fun name => name ∉ required) names)))).

(** [depth] is how deep it may still go. *)
Fixpoint capabilityCatalogFieldType (depth : nat) (property : string) : string :=
  default "value" (members ← decode_members property;
    fieldType ← schema_text "type" members;
    values ← match members !! "enum" with None => Some [] | Some raw => decode_elements raw end;
    if negb (bool_decide (values = [])) then Some ("enum(" +:+ Join "|" (capabilityCatalogEnumValues values) +:+ ")") else
    let fieldType := TrimSpace fieldType in
    let nested := match depth with
      | O => None
      | S depth =>
        if bool_decide (fieldType = "object") then
          let nested := object_fields (capabilityCatalogFieldType depth) property in
          if bool_decide (nested = "") then None else Some ("object{ " +:+ nested +:+ " }")
        else match members !! "items" with
        | Some items => if bool_decide (fieldType = "array") then Some ("array[" +:+ capabilityCatalogFieldType depth items +:+ "]") else None
        | None => None
        end
      end in
    Some (default (if bool_decide (fieldType = "") then "value" else fieldType) nested)).

Definition capabilityCatalogObjectFields (objectSchema : string) : string :=
  object_fields (capabilityCatalogFieldType capabilityCatalogMaxDepth) objectSchema.

Definition capabilityCatalogParameters (inputSchema : string) : string :=
  let fields := capabilityCatalogObjectFields inputSchema in
  if bool_decide (fields = "") then "" else "{ " +:+ fields +:+ " }".

Definition capabilityCatalogBaseType (property : string) : string :=
  match members ← decode_members property; schema_text "type" members with
  | Some fieldType => if blank fieldType then "value" else fieldType
  | None => "value"
  end.

Definition isEmptyCapabilityInputValue (value : string) : bool :=
  bool_decide (TrimSpace value ∈ [""; "null"; String double_quote (String double_quote ""); "{}"; "[]"]).

Definition missingRequiredCapabilityInputFields (inputSchema toolInput : string) : list string :=
  match members ← decode_members inputSchema; schema_required members with
  | None => []
  | Some required =>
    let input := default ∅ (decode_members toolInput) in
    List.filter (fun field => match input !! field with Some value => isEmptyCapabilityInputValue value | None => true end) required
  end.

Definition unexpectedCapabilityInputFields (inputSchema toolInput : string) : list string :=
  default [] (members ← decode_members inputSchema; properties ← schema_properties members;
    additional ← (raw ← members !! "additionalProperties"; decode_flag raw);
    if (additional : bool) then None else
    input ← decode_members toolInput;
    Some (filter (fun fieldName => properties !! fieldName = None) (sorted_names input))).

Definition capabilityInputFieldNames (inputSchema : string) : list string :=
  default [] (members ← decode_members inputSchema; properties ← schema_properties members; Some (sorted_names properties)).

Definition requiredFieldsFromSchema (inputSchema : string) : list string :=
  default [] (members ← decode_members inputSchema; schema_required members).

Definition capabilityRequiredInputDescription (inputSchema : string) (requiredFields : list string) : string :=
  let properties := default ∅ (members ← decode_members inputSchema; schema_properties members) in
  Join ", " ((fun field => field +:+ " " +:+ capabilityCatalogBaseType (default "" (properties !! field))) <$> requiredFields).

Definition capabilityInputSkeleton (inputSchema : string) (requiredFields : list string) : gmap string string :=
  let properties := default ∅ (members ← decode_members inputSchema; schema_properties members) in
  list_to_map (rev ((fun field =>
    let members := default ∅ (raw ← properties !! field; decode_members raw) in
    let fieldType := firstNonEmptyString [default "" (schema_text "type" members); "value"] in
    let description := TrimSpace (default "" (schema_text "description" members)) in
    (field, if bool_decide (description = "") then "<" +:+ fieldType +:+ ">" else "<" +:+ fieldType +:+ ": " +:+ description +:+ ">")) <$> requiredFields)).

Definition capabilityInputSkeletonData (inputSchema : string) (requiredFields : list string) : string :=
  match requiredFields with
  | [] => ""
  | _ => encode_document {["inputSkeleton" := encode_document (encode_text <$> capabilityInputSkeleton inputSchema requiredFields)]}
  end.

End calls.

Section host.
Context `{UnicodeTables} {World : Type} `{CapabilityHost World}.

(** ** Who may call a tool, and its failures *)

Definition may_call (request : ToolCatalogRequest World) (descriptor : ToolDescriptor) : bool :=
  CanAccess (AccessControl.MkRequest (Request_PersonAccess request) ActionExecute (PolicyResource descriptor)).

Inductive ToolAvailability := AvailabilityUnstated | AvailabilityDenied (reason : string) | AvailabilityUnavailable (reason : string) | AvailabilityAvailable.

Definition capabilityToolAvailability (toolDescriptor : ToolDescriptor) (request : ToolCatalogRequest World) : ToolAvailability :=
  let state := TrimSpace (AvailabilityState toolDescriptor) in
  if bool_decide (state = "not_allowed") then AvailabilityDenied (AvailabilityReason toolDescriptor) else
  if bool_decide (state = "not_connected") || bool_decide (state = "not_ready") then AvailabilityUnavailable (AvailabilityReason toolDescriptor) else
  if negb (bool_decide (state = "ok")) then AvailabilityUnstated else
  if negb (may_call request toolDescriptor) then AvailabilityDenied "access denied" else AvailabilityAvailable.

Definition capability_refusal (kind : CapabilityFailureKind) (code stage message data : string) (retry : bool) (hints : list RecoveryHint) : CapabilityResult :=
  MkCapabilityResult message data (Some (MkCapabilityFailure kind code stage message false retry retry hints)) [] [].

Definition capabilityMissingInputFailure (operation : string) (toolDescriptor : ToolDescriptor) (missing : list string) : CapabilityResult :=
  let schema := Descriptor_InputSchema toolDescriptor in
  let message := operation +:+ " needs these input fields: " +:+ Join ", " missing +:+ ". Call " +:+ operation +:+
    " with a JSON object containing them. See inputSkeleton in this failure's data for a fillable template." in
  capability_refusal CapabilityInvalidInput Code_InvalidInput "capability_input" message (capabilityInputSkeletonData schema missing) true
    [MkHint ("Retry " +:+ operation +:+ " with real values for required fields: " +:+ capabilityRequiredInputDescription schema missing +:+ ".") [operation]
       ("Input schema for " +:+ operation +:+ ": " +:+ capabilityCatalogParameters schema +:+ ". Never send an empty input.")].

Definition capabilityUnexpectedInputFailure (operation : string) (toolDescriptor : ToolDescriptor) (unexpected : list string) : CapabilityResult :=
  let schema := Descriptor_InputSchema toolDescriptor in
  let message := operation +:+ " does not accept these input fields: " +:+ Join ", " unexpected +:+ ". Call " +:+ operation +:+
    " using only these fields: " +:+ Join ", " (capabilityInputFieldNames schema) +:+ "." in
  capability_refusal CapabilityInvalidInput Code_InvalidInput "capability_input" message "" true
    [MkHint ("Retry " +:+ operation +:+ " using only the operation's declared input fields.") [operation]
       ("Input schema for " +:+ operation +:+ ": " +:+ capabilityCatalogParameters schema +:+ ".")].

(** ** What an answer means *)

Definition capabilityResultString (result_ fieldName : string) : string :=
  TrimSpace (default "" (members ← decode_members result_; raw ← members !! fieldName; decode_text raw)).

Definition capabilityResultBoolean (result_ fieldName : string) : bool :=
  default false (members ← decode_members result_; raw ← members !! fieldName; decode_flag raw).

Definition capabilityFailureKind (errorCode : string) : CapabilityFailureKind :=
  let code := TrimSpace errorCode in
  if bool_decide (code = Code_AccessDenied) then CapabilityPermissionDenied else
  if bool_decide (code = Code_InvalidInput) then CapabilityInvalidInput else
  if bool_decide (code = Code_RateLimited) then CapabilityRateLimited else
  if bool_decide (code = Code_NotFound) then CapabilityNotFound else
  if bool_decide (code = Code_Unavailable) then CapabilityDependencyUnavailable else
  if bool_decide (code = Code_PolicyBlocked) then CapabilityPolicyBlocked else
  if bool_decide (code = Code_InteractionRequired) then CapabilityInteractionRequired else CapabilityExternalService.

Definition capabilityAttachments (result_ : string) : list DeliveredFile :=
  if bool_decide (result_ = "") then [] else
  match decode_attachment result_ with
  | Some attachment =>
    if blank (DevicePath attachment)
    then List.filter (fun candidate => negb (blank (DevicePath candidate))) (default [] (decode_attachments result_))
    else [attachment]
  | None => List.filter (fun candidate => negb (blank (DevicePath candidate))) (default [] (decode_attachments result_))
  end.

Definition recovery_kind (result_ : string) : option string :=
  kind ← decode_recovery_kind result_; kind ← kind; if blank kind then None else Some kind.

Definition capabilityRecoveryActions (result_ : string) : list string := match recovery_kind result_ with Some kind => [kind] | None => [] end.

Definition statedCapabilityRecoveryHints (hints : list RecoveryHint) : list RecoveryHint :=
  List.filter (fun hint => negb (blank (Hint_Action hint) && bool_decide (Hint_ToolNames hint = []))) hints.

Definition capabilityRecoveryHints (result_ : string) : list RecoveryHint :=
  match decode_hints result_ with
  | None => []
  | Some hints =>
    let hints := statedCapabilityRecoveryHints hints in
    match recovery_kind result_ with
    | None => hints
    | Some kind => (hints ++ [MkHint (TrimSpace kind) [] "Capability returned a user-visible recovery action."])%list
    end
  end.

Definition capabilityToolResult (content data : string) (isFailed : bool) (response : CapabilityResponse) : CapabilityResult :=
  let attachments := capabilityAttachments data in
  let actions := capabilityRecoveryActions data in
  if negb isFailed then MkCapabilityResult content data None attachments actions else
  let resolvedErrorCode := firstNonEmptyString [Response_ErrorCode response; capabilityResultString data "errorCode"; Code_OperationFailed] in
  let canonicalErrorCode := CanonicalFailureCode resolvedErrorCode in
  MkCapabilityResult content data (Some (MkCapabilityFailure (capabilityFailureKind canonicalErrorCode) canonicalErrorCode
    (firstNonEmptyString [Response_FailureStage response; capabilityResultString data "failureStage"; "capability_invoke"])
    (firstNonEmptyString [Response_Message response; capabilityResultString data "message"; content])
    (bool_decide (TrimSpace resolvedErrorCode = "approval_required"))
    (Response_Retryable response || capabilityResultBoolean data "retryable")
    (Response_SafeRetry response || capabilityResultBoolean data "safeRetry")
    (capabilityRecoveryHints data))) attachments actions.

Definition validateCapabilityResultIdentity (operation : string) (response : CapabilityResponse) (isError : bool) : option string :=
  if blank (Provider response) || blank (SelectedBackend response) then Some "capability result provider and selectedBackend are required" else
  if negb (bool_decide (TrimSpace (Response_ToolName response) = TrimSpace operation))
  then Some "capability result toolName does not match the invoked operation" else
  let expectedOutcome := if isError then "failed" else "succeeded" in
  let outcome := TrimSpace (Outcome response) in
  if negb (bool_decide (outcome = expectedOutcome)) && negb (isError && bool_decide (outcome = "denied"))
  then Some "capability result outcome does not match its status" else None.

(** ** What is posted *)

Definition capabilityToolIdempotencyKey (ctx : CallContext) (descriptor : ToolDescriptor) : string :=
  if negb (IdempotencySupported descriptor) then "" else
  let taskRunID := TrimSpace (Context_TaskRunID ctx) in
  let observationID := TrimSpace (Context_ObservationID ctx) in
  if bool_decide (taskRunID = "") || bool_decide (observationID = "") then "" else
  of_bytes (GoHash.EncodeToString (GoHash.Sum256 (bytes_of (taskRunID +:+ ":" +:+ observationID +:+ ":" +:+ TrimSpace (CanonicalName descriptor))))).

Definition capabilityToolRequest (ctx : CallContext) (descriptor : ToolDescriptor) (facts : RequesterFacts) (payload : preparedCapabilityToolPayload)
    : CapabilityRequest :=
  MkCapabilityRequest (CanonicalName descriptor) (Payload_Input payload) (capabilityToolIdempotencyKey ctx descriptor) facts
    (Context_ResponseLanguage ctx)
    (if bool_decide (Context_HoldID ctx = "") then None else Some (Context_HoldID ctx, Context_TaskRunID ctx))
    (Context_ScheduledCall ctx) (Transport payload) (PrivacyClass descriptor) (RequiresUserPresence descriptor).

(** ** Files a call needs *)

Definition capabilityToolReadsAWorkspaceFile (toolName : string) : bool := bool_decide (TrimSpace toolName ∈ ["document_read"; "image_read"]).
Definition capabilityToolNeedsWorkspacePath (toolName : string) : bool :=
  bool_decide (TrimSpace toolName ∈ ["document_read"; "image_read"; "image_generate"]).

Definition mostWorkspaceFileBytesCarried : Z := 16 * 2 ^ 20.

Definition capabilityToolDescriptorByName (operation : string) (w : World) : option ToolDescriptor :=
  List.find (fun descriptor => bool_decide (TrimSpace (Descriptor_Name descriptor) = operation)) (capabilityToolDefinitions w).

Definition capabilityToolCarriesWorkspaceAttachments (toolName : string) (w : World) : bool :=
  match capabilityToolDescriptorByName (TrimSpace toolName) w with
  | None => false
  | Some descriptor =>
    match members ← decode_members (Descriptor_InputSchema descriptor); properties ← schema_properties members; properties !! "attachments" with
    | Some _ => true
    | None => false
    end
  end.

Definition carried (path filename content : string) : CarriedFile :=
  MkCarried path filename (StdEncoding.EncodeToString content) (of_bytes (GoHash.EncodeToString (GoHash.Sum256 (bytes_of content)))).

(** The document of an input; no bytes are the empty document. *)
Definition input_document (toolInput : string) : option (gmap string string) :=
  if bool_decide (toolInput = "") then Some ∅ else decode_document toolInput.

Definition document_text (name : string) (doc : gmap string string) : string := default "" (raw ← doc !! name; decode_text raw).

(** A failure to prepare is a failure of the actor or an error of the input. *)
Definition prepared (A : Type) : Type := result (FileTools.ToolResult + string) A.

Definition carry_path (toolName : string) (request : ToolCatalogRequest World) (w : World) (files : prepared (list CarriedFile)) (namedPath : string)
    : prepared (list CarriedFile) :=
  match files with
  | Err e => Err e
  | Ok files =>
    let path := default "" (decode_text namedPath) in
    if blank path then Ok files else
    match ReadFile (requester_access request) (nativeRequesterPath request path) mostWorkspaceFileBytesCarried w with
    | Err errorValue => Err (inl (actorToolFailure "read_file" toolName path errorValue))
    | Ok content => Ok (files ++ [carried path (PathBase path) content])%list
    end
  end.

Definition prepareWorkspaceAttachments (toolName : string) (request : ToolCatalogRequest World) (toolInput : string) (w : World)
    : World * prepared preparedCapabilityToolPayload :=
  match input_document toolInput with
  | None => (w, Err (inr "invalid JSON"))
  | Some doc =>
    let namedPaths := default [] (raw ← doc !! "attachments"; decode_elements raw) in
    if bool_decide (namedPaths = []) then (w, Ok (MkPayload toolInput NoTransport)) else
    let '(w, toolFailure) := workspaceActorForRequest request w in
    match toolFailure with
    | Some failure => (w, Err (inl failure))
    | None =>
      (w, match foldl (carry_path toolName request w) (Ok []) namedPaths with
          | Err e => Err e
          | Ok carriedFiles => Ok (MkPayload toolInput (SomeFiles carriedFiles))
          end)
    end
  end.

Definition validateAttachmentMaterialTool (toolName : string) (material : VisibleContextMaterial) : option string :=
  let contentType := ToLower (TrimSpace (Material_ContentType material)) in
  if bool_decide (TrimSpace toolName = "image_read") && negb (bool_decide (contentType = "")) && negb (HasPrefix contentType "image/")
  then Some "attachment material is not an image; use document_read" else
  if bool_decide (TrimSpace toolName = "document_read") && HasPrefix contentType "image/"
  then Some "attachment material is an image; use image_read" else None.

Definition readable_material (toolName materialID : string) (request : ToolCatalogRequest World) (w : World) : World * result string VisibleContextMaterial :=
  let '(w, resolved) := resolveReadableAttachmentMaterial request materialID w in
  (w, match resolved with
      | Err e => Err e
      | Ok material => match validateAttachmentMaterialTool toolName material with Some e => Err e | None => Ok material end
      end).

(** The input with the path the capability knows, and the path as it was named. *)
Definition resolveCapabilityWorkspaceFilePath (toolName : string) (request : ToolCatalogRequest World) (toolInput : string) (w : World)
    : World * result string (string * string) :=
  match input_document toolInput with
  | None => (w, Err "invalid JSON")
  | Some doc =>
    let path := document_text "path" doc in
    let materialID := document_text "materialID" doc in
    let '(w, found) := if blank materialID then (w, Ok (path, doc)) else
      let '(w, material) := readable_material toolName materialID request w in
      (w, match material with Err e => Err e | Ok material => Ok (Material_Path material, delete "materialID" doc) end) in
    (w, match found with
        | Err e => Err e
        | Ok (path, doc) =>
          if blank path then Err "path is required" else
          Ok (encode_document (<["path" := encode_text (capabilityBridgePath request path)]> doc), path)
        end)
  end.

Definition capabilityInputWithPath (toolInput path : string) : option string :=
  doc ← input_document toolInput; Some (encode_document (<["path" := encode_text path]> doc)).

Definition read_and_carry (toolName : string) (request : ToolCatalogRequest World) (input agentPath : string) (w : World) : prepared preparedCapabilityToolPayload :=
  match ReadFile (requester_access request) (nativeRequesterPath request agentPath) mostWorkspaceFileBytesCarried w with
  | Err errorValue => Err (inl (actorToolFailure "read_file" toolName agentPath errorValue))
  | Ok content => Ok (MkPayload input (OneFile (carried (capabilityBridgePath request agentPath) (PathBase agentPath) content)))
  end.

Definition prepareWorkspaceFileRead (toolName : string) (request : ToolCatalogRequest World) (toolInput : string) (w : World)
    : World * prepared preparedCapabilityToolPayload :=
  let '(w, resolved) := resolveCapabilityWorkspaceFilePath toolName request toolInput w in
  match resolved with
  | Err e => (w, Err (inr e))
  | Ok (input, agentPath) =>
    let '(w, toolFailure) := workspaceActorForRequest request w in
    match toolFailure with
    | Some failure => (w, Err (inl failure))
    | None =>
      if negb (isAttachmentURLReference agentPath) then (w, read_and_carry toolName request input agentPath w) else
      let '(w, material) := readable_material toolName (TrimSpace agentPath) request w in
      match material with
      | Err e => (w, Err (inl (attachmentResolutionFailure toolName e)))
      | Ok material =>
        match capabilityInputWithPath input (capabilityBridgePath request (Material_Path material)) with
        | None => (w, Err (inr "invalid JSON"))
        | Some input => (w, read_and_carry toolName request input (Material_Path material) w)
        end
      end
    end
  end.

Definition prepareCapabilityToolInput (toolName : string) (request : ToolCatalogRequest World) (toolInput : string) (w : World)
    : World * prepared preparedCapabilityToolPayload :=
  if capabilityToolReadsAWorkspaceFile toolName then prepareWorkspaceFileRead toolName request toolInput w else
  if capabilityToolCarriesWorkspaceAttachments toolName w then prepareWorkspaceAttachments toolName request toolInput w else
  if capabilityToolNeedsWorkspacePath toolName then
    let '(w, resolved) := resolveCapabilityWorkspaceFilePath toolName request toolInput w in
    (w, match resolved with Err e => Err (inr e) | Ok (input, _) => Ok (MkPayload input NoTransport) end)
  else (w, Ok (MkPayload toolInput NoTransport)).

(** ** The call *)

Definition inputUnderApproval (ctx : CallContext) (requestedInput : string) (w : World) : string :=
  match HoldsOfRun with
  | None => requestedInput
  | Some holds =>
    if bool_decide (Context_HoldID ctx = "") || bool_decide (Context_TaskRunID ctx = "") then requestedInput else
    match List.find (fun hold => bool_decide (Hold_ID hold = Context_HoldID ctx)) (holds (Context_TaskRunID ctx) w) with
    | Some hold => Hold_ApprovedInput hold
    | None => requestedInput
    end
  end.

(** One call, up to what its answer means: the input that was prepared and the result. *)
Definition call_once (ctx : CallContext) (operation : string) (toolDescriptor : ToolDescriptor) (request : ToolCatalogRequest World) (facts : RequesterFacts)
    (requestedInput : string) (w : World) : World * (CallEnd + string * CapabilityResult) :=
  let rawInput := inputUnderApproval ctx requestedInput w in
  if negb (may_call request toolDescriptor) then
    (w, inl (Ended (capability_refusal CapabilityPermissionDenied Code_AccessDenied "capability_access" "current account cannot execute this tool" "" false [])))
  else
  let unexpected := unexpectedCapabilityInputFields (Descriptor_InputSchema toolDescriptor) rawInput in
  if negb (bool_decide (unexpected = [])) then (w, inl (Ended (capabilityUnexpectedInputFailure operation toolDescriptor unexpected))) else
  let '(w, payload) := prepareCapabilityToolInput operation request rawInput w in
  match payload with
  | Err (inl toolFailure) => (w, inl (ActorRefused toolFailure))
  | Err (inr e) => (w, inl (Ended (capability_refusal CapabilityInvalidInput Code_InvalidInput "capability_input" e "" false [])))
  | Ok payload =>
    let toolInput := Payload_Input payload in
    let missing := missingRequiredCapabilityInputFields (Descriptor_InputSchema toolDescriptor) toolInput in
    if negb (bool_decide (missing = [])) then (w, inl (Ended (capabilityMissingInputFailure operation toolDescriptor missing))) else
    let '(w, answered) := PostJSON ("/v1/tools/" +:+ PathEscape operation +:+ "/invoke") (capabilityToolRequest ctx toolDescriptor facts payload) w in
    match answered with
    | Err e => (w, inl (PostFailed e))
    | Ok response =>
      let isError := IsError response || bool_decide (Response_Status response = "error") || bool_decide (Response_Status response = "denied") in
      match validateCapabilityResultIdentity operation response isError with
      | Some e => (w, inl (Ended (capability_refusal CapabilityExternalService Code_OperationFailed "capability_result_identity" e "" false [])))
      | None =>
        let content := TrimSpace (Response_Content response) in
        let content := if bool_decide (content = "") && negb (bool_decide (Response_Result response = "")) then Response_Result response else content in
        (w, inr (toolInput, capabilityToolResult content (Response_Result response) isError response))
      end
    end
  end.

(** Whether the gate is to be asked about a refusal. *)
Definition asks_gate (ctx : CallContext) (result : CapabilityResult) : bool :=
  match CR_Failure result with
  | Some failure => CF_RequiresApproval failure && bool_decide (Context_HoldID ctx = "")
  | None => false
  end.

(** The end, or the hold the call is repeated under. *)
Definition settleApprovalRefusal (ctx : CallContext) (toolDescriptor : ToolDescriptor) (toolInput : string) (result : CapabilityResult) (w : World)
    : World * (CallEnd + string) :=
  match ToolCallGate with
  | None => (w, inl (Ended result))
  | Some review =>
    if negb (asks_gate ctx result) then (w, inl (Ended result)) else
    let '(w, review) := review (decode_target (CR_Data result)) (Descriptor_Name toolDescriptor) toolInput (Descriptor_SideEffectClass toolDescriptor) w in
    (w, match review with
        | None => inl (Ended result)
        | Some review =>
          if negb (MayProceed review) then inl (GateAnswered (Review_Result review)) else
          if bool_decide (Review_HoldID review = "") then inl (Ended result) else inr (Review_HoldID review)
        end)
  end.

(** [None]: out of fuel. *)
Fixpoint invokeCapabilityOperation (fuel : nat) (ctx : CallContext) (operation : string) (toolDescriptor : ToolDescriptor) (request : ToolCatalogRequest World)
    (facts : RequesterFacts) (requestedInput : string) (w : World) : option (World * CallEnd) :=
  match fuel with
  | O => None
  | S fuel =>
    let rawInput := inputUnderApproval ctx requestedInput w in
    let '(w, called) := call_once ctx operation toolDescriptor request facts requestedInput w in
    match called with
    | inl ended => Some (w, ended)
    | inr (toolInput, result) =>
      let '(w, settled) := settleApprovalRefusal ctx toolDescriptor toolInput result w in
      match settled with
      | inl ended => Some (w, ended)
      | inr holdID => invokeCapabilityOperation fuel (WithHoldID holdID ctx) operation toolDescriptor request facts rawInput w
      end
    end
  end.

End host.

(** ** The provider of the tools, and the registry they come from *)

Section provider.
Context `{JSONDocuments}.

Definition validCapabilityObjectSchema (schema : string) : bool :=
  negb (bool_decide (schema = "")) &&
  match members ← decode_members schema; schema_text "type" members with Some t => bool_decide (t = "object") | None => false end.

Definition idempotency_is_none (descriptor : ToolDescriptor) : bool := negb (IdempotencyRequired descriptor) && negb (IdempotencySupported descriptor).

Definition required_values (d : ToolDescriptor) : list string :=
  [Descriptor_Name d; CanonicalName d; Namespace d; ModelName d; ModelVisibility d; Description d; PrivacyClass d; PolicyResource d;
   Descriptor_SideEffectClass d; AvailabilityState d].

(** Whether a descriptor is valid; [needs_intent] is the tool contract's. *)
Definition validateCapabilityToolDescriptor (needs_intent : string -> string -> bool) (d : ToolDescriptor) : bool :=
  forallb (fun value => negb (blank value)) (required_values d) &&
  (idempotency_is_none d || negb (blank (IdempotencyScope d))) &&
  bool_decide (ModelVisibility d ∈ ["model"; "internal"; "control"]) &&
  negb (bool_decide (ModelVisibility d = "model") && bool_decide (ResultContractSchema d = None)) &&
  (negb (needs_intent (ModelVisibility d) (Descriptor_SideEffectClass d)) || validCapabilityObjectSchema (InputIntentSchema d)) &&
  (bool_decide (InputIntentSchema d = "") || validCapabilityObjectSchema (InputIntentSchema d)) &&
  bool_decide (AvailabilityState d ∈ ["ok"; "not_allowed"; "not_connected"; "not_ready"]) &&
  validCapabilityObjectSchema (Descriptor_InputSchema d) && validCapabilityObjectSchema (OutputSchema d) &&
  match ResultContractSchema d with Some schema => validCapabilityObjectSchema schema | None => true end &&
  match CompletionMode d with Some mode => bool_decide (mode = "success") | None => true end.

Definition capabilityDescriptorIsRegistered (isScheduledRun : bool) (d : ToolDescriptor) : bool := negb isScheduledRun || negb (RequiresUserPresence d).

(** The tools that are bound; [None]: one of them is invalid, and none is. *)
Fixpoint ListTools (needs_intent : string -> string -> bool) (isScheduledRun : bool) (descriptors : list ToolDescriptor) : option (list ToolDescriptor) :=
  match descriptors with
  | [] => Some []
  | d :: descriptors =>
    if negb (validateCapabilityToolDescriptor needs_intent d) then None else
    bound ← ListTools needs_intent isScheduledRun descriptors;
    Some (if capabilityDescriptorIsRegistered isScheduledRun d then d :: bound else bound)
  end.

Definition modelNameOf (d : ToolDescriptor) : string := if blank (ModelName d) then TrimSpace (Descriptor_Name d) else TrimSpace (ModelName d).

(** What is kept, and what is reported as shadowed. *)
Definition withoutToolNamesAlreadyRegistered (registered : gset string) (descriptors : list ToolDescriptor) : list ToolDescriptor * list (string * string) :=
  (List.filter (fun d => negb (bool_decide (modelNameOf d ∈ registered))) descriptors,
   (fun d => (TrimSpace (CanonicalName d), modelNameOf d)) <$> List.filter (fun d => bool_decide (modelNameOf d ∈ registered)) descriptors).

End provider.

Record CapabilityRegistry := MkRegistry {
  stamped : list ToolDescriptor;
  liveDescriptors : list ToolDescriptor;
  liveHash : string;
  readAt : instant;
}.

Definition liveCapabilityRegistryFreshness : Z := 5 * 60 * 10 ^ 9.

Definition copyCapabilityToolDescriptors (descriptors : list ToolDescriptor) : list ToolDescriptor :=
  (fun '(MkDescriptor n c ns m v de pc up i ii o rc po se ra cm st re su rq sc) => MkDescriptor (TrimSpace n) c ns m v de pc up i ii o rc po se ra cm st re su rq sc)
    <$> List.filter (fun d => negb (blank (Descriptor_Name d))) descriptors.

Definition freshLiveDescriptors (now : instant) (registry : CapabilityRegistry) : option (list ToolDescriptor) :=
  if bool_decide (liveHash registry = "") then None else
  if liveCapabilityRegistryFreshness <? now - readAt registry then None else Some (liveDescriptors registry).

Definition CachedLive (registry : CapabilityRegistry) : option (list ToolDescriptor * string) :=
  if bool_decide (liveHash registry = "") then None else Some (liveDescriptors registry, liveHash registry).

Definition keepLive (descriptors : list ToolDescriptor) (hash : string) (now : instant) (registry : CapabilityRegistry) : CapabilityRegistry :=
  MkRegistry (stamped registry) descriptors hash now.

(** [served]: what the host answers with, and its hash; [None]: it is not to be reached. *)
Definition ReadLive (served : option (list ToolDescriptor * string)) (now : instant) (registry : CapabilityRegistry)
    : CapabilityRegistry * option (list ToolDescriptor * string) :=
  match served with
  | None => (registry, None)
  | Some (descriptors, hash) => (keepLive descriptors hash now registry, Some (descriptors, hash))
  end.

Definition ToolDescriptors (served : option (list ToolDescriptor * string)) (now : instant) (registry : CapabilityRegistry)
    : CapabilityRegistry * list ToolDescriptor :=
  if negb (bool_decide (length (stamped registry) = 0%nat)) then (registry, copyCapabilityToolDescriptors (stamped registry)) else
  match freshLiveDescriptors now registry with
  | Some descriptors => (registry, descriptors)
  | None =>
    let '(registry, read) := ReadLive served now registry in
    (registry, match read with Some (descriptors, _) => descriptors | None => default [] (fst <$> CachedLive registry) end)
  end.

Definition Warm (served : option (list ToolDescriptor * string)) (now : instant) (registry : CapabilityRegistry) : CapabilityRegistry :=
  match freshLiveDescriptors now registry with Some _ => registry | None => (ReadLive served now registry).1 end.

(** ** What reaches a capability *)

Class CapabilityLaws (World : Type) `{CapabilityHost World} := {
  posted : World -> list (string * CapabilityRequest);
  post_is_recorded : forall path body w, posted (PostJSON path body w).1 = (posted w ++ [(path, body)])%list;
  requester_posts_nothing : forall requester access w, workspaceActorFactory = Some requester -> posted (requester access w).1 = posted w;
  gate_posts_nothing : forall gate target name input class_ w, ToolCallGate = Some gate -> posted (gate target name input class_ w).1 = posted w;
}.

Section guarded.
Context `{UnicodeTables} {World : Type} `{CapabilityLaws World}.
Variable (request : ToolCatalogRequest World) (facts : RequesterFacts) (operation : string) (descriptor : ToolDescriptor).

(** Resolving an attachment posts nothing through this client. *)
Hypothesis resolver_posts_nothing : forall resolve id w, AttachmentMaterialResolver request = Some resolve -> posted (resolve id w).1 = posted w.

Lemma actor_posts_nothing w : posted (workspaceActorForRequest request w).1 = posted w.
Proof.
  unfold workspaceActorForRequest; destruct workspaceActorFactory as [requester|] eqn:Hf; [|done].
  pose proof (requester_posts_nothing requester (requester_access request) w Hf); by destruct (requester _ w).
Qed.

Lemma material_posts_nothing toolName id w : posted (readable_material toolName id request w).1 = posted w.
Proof.
  unfold readable_material, resolveReadableAttachmentMaterial; destruct (AttachmentMaterialResolver request) as [resolve|] eqn:Hr; [|done].
  pose proof (resolver_posts_nothing resolve id w eq_refl); by destruct (resolve id w).
Qed.

Lemma resolve_posts_nothing toolName input w : posted (resolveCapabilityWorkspaceFilePath toolName request input w).1 = posted w.
Proof.
  unfold resolveCapabilityWorkspaceFilePath; destruct (input_document input); [|done]; destruct (blank _); [done|].
  pose proof (material_posts_nothing toolName (document_text "materialID" g) w); by destruct (readable_material _ _ _ w).
Qed.

Lemma prepare_posts_nothing toolName input w : posted (prepareCapabilityToolInput toolName request input w).1 = posted w.
Proof.
  unfold prepareCapabilityToolInput; destruct (capabilityToolReadsAWorkspaceFile toolName); [|destruct (capabilityToolCarriesWorkspaceAttachments toolName w)].
  - unfold prepareWorkspaceFileRead; pose proof (resolve_posts_nothing toolName input w) as Hr.
    destruct (resolveCapabilityWorkspaceFilePath toolName request input w) as [w1 [[doc path]|e]]; cbn [fst] in *; [|done].
    pose proof (actor_posts_nothing w1) as Ha; destruct (workspaceActorForRequest request w1) as [w2 [failure|]]; cbn [fst] in *; [congruence|].
    destruct (isAttachmentURLReference path); cbn [negb fst]; [|congruence].
    pose proof (material_posts_nothing toolName (TrimSpace path) w2) as Hm.
    destruct (readable_material _ _ _ w2) as [w3 [material|e]]; cbn [fst] in *; [|congruence]; destruct (capabilityInputWithPath _ _); cbn [fst]; congruence.
  - unfold prepareWorkspaceAttachments; destruct (input_document input); [|done]; destruct (bool_decide _); [done|].
    pose proof (actor_posts_nothing w) as Ha; destruct (workspaceActorForRequest request w) as [w2 [failure|]]; done.
  - destruct (capabilityToolNeedsWorkspacePath toolName); [|done]; pose proof (resolve_posts_nothing toolName input w) as Hr.
    by destruct (resolveCapabilityWorkspaceFilePath toolName request input w).
Qed.

(** What a call asks for: where the run has the hold the call is made under, what a person approved
    under it; and what was requested where there is no hold, or the run has none of that name. *)
Record asks (ctx : CallContext) (requested asked : string) (w : World) : Prop := {
  asks_approved : forall holds before hold after, HoldsOfRun = Some holds -> Context_HoldID ctx <> "" -> Context_TaskRunID ctx <> "" ->
    holds (Context_TaskRunID ctx) w = (before ++ hold :: after)%list -> Hold_ID hold = Context_HoldID ctx ->
    Forall (fun other => Hold_ID other <> Context_HoldID ctx) before -> asked = Hold_ApprovedInput hold;
  asks_requested :
    (forall holds, HoldsOfRun = Some holds -> Context_HoldID ctx <> "" -> Context_TaskRunID ctx <> "" ->
      Forall (fun hold => Hold_ID hold <> Context_HoldID ctx) (holds (Context_TaskRunID ctx) w)) -> asked = requested;
}.

(** A schema that says it takes no others has every field of the input among its properties. *)
Definition names_only_known (schema_text input : string) : Prop :=
  forall schema known additional document field,
    decode_members schema_text = Some schema ->
    match schema !! "properties" with Some properties => decode_members properties = Some known | None => known = ∅ end ->
    schema !! "additionalProperties" = Some additional -> decode_flag additional = Some false ->
    decode_members input = Some document -> is_Some (document !! field) -> is_Some (known !! field).

(** Each field the schema requires has a value that is not empty. *)
Definition fills_required (schema_text input : string) : Prop := forall schema required,
  decode_members schema_text = Some schema ->
  match schema !! "required" with Some names => decode_texts names = Some required | None => required = [] end ->
  Forall (fun field => exists document value, decode_members input = Some document /\ document !! field = Some value /\
    TrimSpace value ∉ [""; "null"; String double_quote (String double_quote ""); "{}"; "[]"]) required.

(** A post of a call made in a context: it goes to the operation, for a person who may execute the
    resource of the tool, under the hold of the context, with the input that is asked for, whose files were prepared. *)
Definition sound_post (ctx : CallContext) (requestedInput : string) (post : string * CapabilityRequest) : Prop :=
  exists w asked payload, asks ctx requestedInput asked w /\
    post.1 = "/v1/tools/" +:+ PathEscape operation +:+ "/invoke" /\
    CanAccess (AccessControl.MkRequest (Request_PersonAccess request) ActionExecute (PolicyResource descriptor)) = true /\
    Posted_ToolName post.2 = CanonicalName descriptor /\ Posted_Facts post.2 = facts /\
    Posted_Hold post.2 = (if bool_decide (Context_HoldID ctx = "") then None else Some (Context_HoldID ctx, Context_TaskRunID ctx)) /\
    names_only_known (Descriptor_InputSchema descriptor) asked /\
    (prepareCapabilityToolInput operation request asked w).2 = Ok payload /\
    Posted_Input post.2 = Payload_Input payload /\ Posted_Transport post.2 = Transport payload /\
    fills_required (Descriptor_InputSchema descriptor) (Posted_Input post.2).

Lemma find_first {A} (f : A -> bool) l before x after :
  l = (before ++ x :: after)%list -> Forall (fun y => f y = false) before -> f x = true -> List.find f l = Some x.
Proof. intros -> Hb Hx; induction Hb as [|y before Hy _ IH]; cbn; [by rewrite Hx|by rewrite Hy]. Qed.

Lemma find_nothing {A} (f : A -> bool) l : Forall (fun y => f y = false) l -> List.find f l = None.
Proof. induction 1 as [|y l Hy _ IH]; cbn; [done|by rewrite Hy]. Qed.

Lemma inputUnderApproval_asks ctx requested w : asks ctx requested (inputUnderApproval ctx requested w) w.
Proof.
  split.
  - intros holds before hold after Hh Hid Hrun Hl Hhold Hb; unfold inputUnderApproval; rewrite Hh, !bool_decide_eq_false_2 by done; cbn [orb].
    rewrite (find_first _ _ _ _ _ Hl); [done| |by apply bool_decide_eq_true].
    eapply Forall_impl; [exact Hb|]; intros other Ho; by apply bool_decide_eq_false.
  - intros Hnone; unfold inputUnderApproval; destruct HoldsOfRun as [holds|] eqn:Hh; [|done].
    do 2 (case_bool_decide; [done|]); cbn [orb]; rewrite find_nothing; [done|].
    eapply Forall_impl; [by apply (Hnone holds)|]; intros other Ho; by apply bool_decide_eq_false.
Qed.

Lemma asks_no_hold ctx requested w : Context_HoldID ctx = "" -> inputUnderApproval ctx requested w = requested.
Proof. intros Hid; apply (asks_requested _ _ _ _ (inputUnderApproval_asks ctx requested w)); by intros holds _ Hne. Qed.

Lemma unexpected_none_known schema_text input : unexpectedCapabilityInputFields schema_text input = [] -> names_only_known schema_text input.
Proof.
  intros Hu schema known additional document field Hs Hk Ha Hf Hd [value Hv].
  assert (Hp : schema_properties schema = Some known) by (unfold schema_properties; destruct (schema !! "properties"); congruence).
  unfold unexpectedCapabilityInputFields in Hu; rewrite Hs in Hu; cbn in Hu; rewrite Hp in Hu; cbn in Hu.
  rewrite Ha in Hu; cbn in Hu; rewrite Hf in Hu; cbn in Hu; rewrite Hd in Hu; cbn in Hu.
  destruct (known !! field) as [x|] eqn:Hx; [by eexists|]; exfalso.
  assert (Hin : field ∈ filter (fun fieldName => known !! fieldName = None) (sorted_names document)).
  { apply list_elem_of_filter; split; [done|]; unfold sorted_names; rewrite stable_sort_perm; apply list_elem_of_fmap.
    exists (field, value); split; [done|]; by apply elem_of_map_to_list. }
  rewrite Hu in Hin; by apply not_elem_of_nil in Hin.
Qed.

Lemma missing_none_filled schema_text input : missingRequiredCapabilityInputFields schema_text input = [] -> fills_required schema_text input.
Proof.
  intros Hm schema required Hs Hk.
  assert (Hr : schema_required schema = Some required) by (unfold schema_required; destruct (schema !! "required"); congruence).
  unfold missingRequiredCapabilityInputFields in Hm; rewrite Hs in Hm; cbn in Hm; rewrite Hr in Hm.
  apply Forall_forall; intros field Hin; destruct (default ∅ (decode_members input) !! field) as [value|] eqn:Hv.
  - destruct (isEmptyCapabilityInputValue value) eqn:He.
    + exfalso; assert (Hf : List.In field []) by (rewrite <- Hm; apply filter_In; rewrite Hv; split; [by apply list_elem_of_In|done]); done.
    + destruct (decode_members input) as [document|]; cbn in Hv; [|by rewrite lookup_empty in Hv].
      exists document, value; split_and!; [done|done|]; by apply bool_decide_eq_false in He.
  - exfalso; assert (Hf : List.In field []) by (rewrite <- Hm; apply filter_In; rewrite Hv; split; [by apply list_elem_of_In|done]); done.
Qed.

Lemma call_posts ctx input w :
  let ran := call_once ctx operation descriptor request facts input w in
  (posted ran.1 = posted w /\ (exists ended, ran.2 = inl ended)) \/
  exists post, posted ran.1 = (posted w ++ [post])%list /\ sound_post ctx input post /\
    forall toolInput result, ran.2 = inr (toolInput, result) -> toolInput = Posted_Input post.2.
Proof.
  cbv zeta; unfold call_once; set (raw := inputUnderApproval ctx input w).
  destruct (may_call request descriptor) eqn:Hmay; cbn [negb]; [|left; split; [done|by eexists]].
  case_bool_decide as Hun; cbn [negb]; [|left; split; [done|by eexists]].
  pose proof (prepare_posts_nothing operation raw w) as Hp; destruct (prepareCapabilityToolInput operation request raw w) as [w1 payload] eqn:Hprep.
  cbn [fst] in Hp; destruct payload as [payload|[refused|e]]; [|left; split; [done|by eexists]..].
  case_bool_decide as Hmiss; cbn [negb]; [|left; split; [done|by eexists]].
  right; exists ("/v1/tools/" +:+ PathEscape operation +:+ "/invoke", capabilityToolRequest ctx descriptor facts payload).
  pose proof (post_is_recorded ("/v1/tools/" +:+ PathEscape operation +:+ "/invoke") (capabilityToolRequest ctx descriptor facts payload) w1) as Hpost.
  assert (Hs : sound_post ctx input ("/v1/tools/" +:+ PathEscape operation +:+ "/invoke", capabilityToolRequest ctx descriptor facts payload)).
  { exists w, raw, payload; split_and!; try done; [apply inputUnderApproval_asks|by apply unexpected_none_known|by rewrite Hprep|by apply missing_none_filled]. }
  destruct (PostJSON _ _ w1) as [w2 [response|e]]; cbn [fst snd] in *; [|by rewrite Hpost, Hp].
  destruct (validateCapabilityResultIdentity _ _ _); cbn [fst snd]; rewrite Hpost, Hp; split_and!; try done; by intros ? ? [= <- _].
Qed.

(** The gate said of a call of the tool with this input that it may proceed, under a hold. *)
Definition gate_approved (input holdID : string) : Prop := exists gate target w review, ToolCallGate = Some gate /\
  (gate target (Descriptor_Name descriptor) input (Descriptor_SideEffectClass descriptor) w).2 = Some review /\ MayProceed review = true /\
  Review_HoldID review = holdID /\ holdID <> "".

Lemma settle_posts ctx input result w :
  let ran := settleApprovalRefusal ctx descriptor input result w in
  posted ran.1 = posted w /\ match ran.2 with inl _ => True | inr holdID => gate_approved input holdID /\ Context_HoldID ctx = "" end.
Proof.
  cbv zeta; unfold settleApprovalRefusal; destruct ToolCallGate as [gate|] eqn:Hg; [|done]; destruct (asks_gate ctx result) eqn:Hasks; [|done]; cbn [negb].
  pose proof (gate_posts_nothing gate (decode_target (CR_Data result)) (Descriptor_Name descriptor) input (Descriptor_SideEffectClass descriptor) w Hg) as Hp.
  destruct (gate _ _ _ _ w) as [w1 [review|]] eqn:Hrun; cbn [fst snd] in *; [|done].
  destruct (MayProceed review) eqn:Hm; cbn [negb]; [|done]; case_bool_decide as Hh; [done|]; split; [done|]; split.
  - exists gate, (decode_target (CR_Data result)), w, review; split_and!; try done; by rewrite Hrun.
  - unfold asks_gate in Hasks; destruct (CR_Failure result); [|done]; by apply andb_true_iff in Hasks as [_ Ha%bool_decide_eq_true].
Qed.

(** C9. A call reaches a capability as it was allowed.  A call ends after at most two posts.  Each is
    made to the path of the operation, under the hold of its context, for a person who may execute the
    tool's resource.  It asks for what was requested, or, where the run has the hold it is made under, for
    what a person approved under that hold; that names no field its schema does not have, if the schema
    says it takes no others, and what is posted after its files are prepared has a value for every field
    the schema requires.  The second post is made only where the first was made under no hold, and under
    a hold with which the gate let a call of the tool with the input of the first proceed. *)
Theorem capability_calls_are_allowed ctx requestedInput w :
  exists w' ended posts, invokeCapabilityOperation 2 ctx operation descriptor request facts requestedInput w = Some (w', ended) /\
    posted w' = (posted w ++ posts)%list /\
    match posts with
    | [] => True
    | [post] => sound_post ctx requestedInput post
    | [first; second] => sound_post ctx requestedInput first /\ Context_HoldID ctx = "" /\
        exists holdID, gate_approved (Posted_Input first.2) holdID /\ sound_post (WithHoldID holdID ctx) requestedInput second
    | _ => False
    end.
Proof.
  change 2%nat with (S (S O)); cbn [invokeCapabilityOperation]; set (raw := inputUnderApproval ctx requestedInput w).
  pose proof (call_posts ctx requestedInput w) as Hfirst; destruct (call_once ctx _ _ _ _ requestedInput w) as [w1 [ended|[input1 result1]]]; cbn [fst snd] in *.
  { destruct Hfirst as [[Hp _]|(post & Hp & Hs & _)]; [exists w1, ended, []|exists w1, ended, [post]]; split_and!; try done; by rewrite app_nil_r. }
  destruct Hfirst as [[_ (e & He)]|(first & Hp1 & Hs1 & Hin)]; [done|]; specialize (Hin _ _ eq_refl); subst input1.
  pose proof (settle_posts ctx (Posted_Input first.2) result1 w1) as [Hsettle Hhold]; destruct (settleApprovalRefusal _ _ _ _ w1) as [w2 [ended|holdID]]; cbn [fst snd] in *.
  { exists w2, ended, [first]; split_and!; [done|congruence|done]. }
  destruct Hhold as [Hgate Hnone]; replace raw with requestedInput in * by (symmetry; by apply asks_no_hold); clear raw.
  pose proof (call_posts (WithHoldID holdID ctx) requestedInput w2) as Hsecond.
  assert (Hne : holdID <> "") by (by destruct Hgate as (? & ? & ? & ? & _ & _ & _ & _ & ?)).
  assert (Hlast : forall input result w, settleApprovalRefusal (WithHoldID holdID ctx) descriptor input result w = (w, inl (Ended result))).
  { intros input result w0; unfold settleApprovalRefusal, asks_gate; destruct ToolCallGate; [|done]; destruct (CR_Failure result); [|done].
    cbn [Context_HoldID WithHoldID]; by rewrite (bool_decide_eq_false_2 _ Hne), andb_false_r. }
  destruct (call_once (WithHoldID holdID ctx) _ _ _ _ requestedInput w2) as [w3 [ended|[input2 result2]]]; cbn [fst snd] in *; rewrite ?Hlast.
  - destruct Hsecond as [[Hp2 _]|(second & Hp2 & Hs2 & _)].
    + exists w3, ended, [first]; split_and!; [done|congruence|done].
    + exists w3, ended, [first; second]; split_and!; [done|rewrite Hp2, Hsettle, Hp1; by rewrite <- app_assoc|done|done|by exists holdID].
  - destruct Hsecond as [[_ (e & He)]|(second & Hp2 & Hs2 & _)]; [done|].
    exists w3, (Ended result2), [first; second]; split_and!; [done|rewrite Hp2, Hsettle, Hp1; by rewrite <- app_assoc|done|done|by exists holdID].
Qed.

Definition files_of (transport : CapabilityTransport) : list CarriedFile :=
  match transport with NoTransport => [] | OneFile file => [file] | SomeFiles files => files end.

(** A file that is carried has the bytes the requester reads at a path. *)
Definition read_by_requester (file : CarriedFile) : Prop := exists path content w,
  ReadFile (requester_access request) (nativeRequesterPath request path) mostWorkspaceFileBytesCarried w = Ok content /\
  StdEncoding.DecodeString (Carried_Base64 file) = Some content /\
  Carried_SHA256 file = of_bytes (GoHash.EncodeToString (GoHash.Sum256 (bytes_of content))).

Lemma carried_read path0 filename path content w :
  ReadFile (requester_access request) (nativeRequesterPath request path) mostWorkspaceFileBytesCarried w = Ok content ->
  read_by_requester (carried path0 filename content).
Proof. intros Hr; exists path, content, w; split_and!; [done|apply StdEncoding.DecodeString_EncodeToString|done]. Qed.

Lemma carry_paths_read toolName w paths : forall files files', Forall read_by_requester files ->
  foldl (carry_path toolName request w) (Ok files) paths = Ok files' -> Forall read_by_requester files'.
Proof.
  assert (Herr : forall paths e, foldl (carry_path toolName request w) (Err e) paths = Err e) by (intros ps; induction ps; done).
  induction paths as [|path paths IH]; intros files files' Hall; cbn [foldl]; [by intros [= <-]|].
  unfold carry_path at 2; destruct (blank _); [by apply IH|]; destruct (ReadFile _ _ _ w) as [content|e] eqn:Hr; [|by rewrite Herr].
  apply IH, Forall_app; split; [done|]; constructor; [by eapply carried_read|constructor].
Qed.

(** A capability is handed only what its requester may read.  Every file that goes with a
    call was read by the workspace actor of the requester, at the path the requester's name
    for it stands for, and goes out as the bytes that were read, with their digest. *)
Theorem carried_files_are_the_requesters toolName input w w' payload :
  prepareCapabilityToolInput toolName request input w = (w', Ok payload) -> Forall read_by_requester (files_of (Transport payload)).
Proof.
  unfold prepareCapabilityToolInput; destruct (capabilityToolReadsAWorkspaceFile toolName); [|destruct (capabilityToolCarriesWorkspaceAttachments toolName w)].
  - unfold prepareWorkspaceFileRead; destruct (resolveCapabilityWorkspaceFilePath toolName request input w) as [w1 [[doc path]|e]]; [|done].
    destruct (workspaceActorForRequest request w1) as [w2 [failure|]]; [done|].
    assert (Hread : forall d p w0, read_and_carry toolName request d p w0 = Ok payload -> Forall read_by_requester (files_of (Transport payload))).
    { intros d p w0; unfold read_and_carry; destruct (ReadFile _ _ _ w0) as [content|e] eqn:Hr; [|done]; intros [= <-].
      constructor; [by eapply carried_read|constructor]. }
    destruct (negb _); [intros [= _ Hr]; by eapply Hread|]; destruct (readable_material _ _ _ w2) as [w3 [material|e]]; [|done].
    destruct (capabilityInputWithPath _ _); [|done]; intros [= _ Hr]; by eapply Hread.
  - unfold prepareWorkspaceAttachments; destruct (input_document input); [|done]; case_bool_decide; [by intros [= _ <-]|].
    destruct (workspaceActorForRequest request w) as [w2 [failure|]]; [done|].
    destruct (foldl _ _ _) as [files|e] eqn:Hf; [|done]; intros [= _ <-]; by eapply carry_paths_read.
  - destruct (capabilityToolNeedsWorkspacePath toolName); [|by intros [= _ <-]].
    destruct (resolveCapabilityWorkspaceFilePath toolName request input w) as [w1 [[doc path]|e]]; [|done]; by intros [= _ <-].
Qed.

End guarded.

(** A fresh reading of the registry is served for five minutes without another. *)
Lemma fresh_registry_is_served served now registry later other :
  stamped registry = [] -> freshLiveDescriptors now registry = None -> later - now <= liveCapabilityRegistryFreshness ->
  match served with
  | Some (descriptors, hash) => hash <> "" ->
      ToolDescriptors other later (ToolDescriptors served now registry).1 = ((ToolDescriptors served now registry).1, descriptors)
  | None => (ToolDescriptors served now registry).2 = default [] (fst <$> CachedLive registry)
  end.
Proof.
  destruct registry as [names live hash at_]; cbn [stamped]; intros -> Hf Hl; unfold ToolDescriptors at 1; cbn [stamped].
  assert (Hserve : ToolDescriptors served now (MkRegistry [] live hash at_) =
    match served with
    | Some (descriptors, h) => (MkRegistry [] descriptors h now, descriptors)
    | None => (MkRegistry [] live hash at_, default [] (fst <$> CachedLive (MkRegistry [] live hash at_)))
    end).
  { unfold ToolDescriptors; cbn [stamped]; rewrite (bool_decide_eq_true_2 (length (@nil ToolDescriptor) = 0%nat) eq_refl); cbn [negb].
    rewrite Hf; unfold ReadLive; by destruct served as [[descriptors h]|]. }
  destruct served as [[descriptors h]|]; [|by rewrite Hserve]; intros Hne.
  rewrite Hserve; cbn [fst stamped]; rewrite (bool_decide_eq_true_2 (length (@nil ToolDescriptor) = 0%nat) eq_refl); cbn [negb].
  unfold freshLiveDescriptors; cbn [liveHash readAt liveDescriptors]; rewrite (bool_decide_eq_false_2 _ Hne).
  by rewrite (proj2 (Z.ltb_ge _ _) Hl).
Qed.

(** ** A host for examples: JSON of one shape, a capability that asks for an approval *)

(** Documents of the example are texts between braces, a name and its value a line. *)
Definition example_lines (raw : string) : option (gmap string string) :=
  if HasPrefix raw "{" then
    Some (list_to_map (omap (fun line => Cut line "=") (Split (TrimSuffix (TrimPrefix raw "{") "}") ";"%char)))
  else None.

Definition example_JSON : JSONDocuments := {|
  decode_members := example_lines;
  decode_text raw := Some raw;
  decode_texts raw := Some (Split raw ","%char);
  decode_flag raw := if bool_decide (raw = "true") then Some true else if bool_decide (raw = "false") then Some false else None;
  decode_elements raw := Some (Split raw ","%char);
  decode_document := example_lines;
  encode_document doc := "{" +:+ Join ";" ((fun '(k, v) => k +:+ "=" +:+ v) <$> map_to_list doc) +:+ "}";
  encode_text s := s;
  decode_attachment _ := None;
  decode_attachments _ := None;
  decode_recovery_kind _ := None;
  decode_hints _ := None;
  decode_target _ := ApprovalGate.no_target;
|}.

Definition example_codes : FailureCodes := {|
  CanonicalFailureCode s := s;
  Code_AccessDenied := "access_denied";
  Code_InvalidInput := "invalid_input";
  Code_RateLimited := "rate_limited";
  Code_NotFound := "not_found";
  Code_Unavailable := "unavailable";
  Code_PolicyBlocked := "policy_blocked";
  Code_InteractionRequired := "interaction_required";
  Code_OperationFailed := "operation_failed";
|}.

Definition posts_world : Type := list (string * CapabilityRequest).

Definition example_tools : ToolHost posts_world := {|
  workspaceRootPath := "/workspace";
  workspaceActorFactory := Some (fun _ w => (w, None));
  Run _ _ w := (w, (MkCommandResult 1 "" "", Some (OtherFailure "no shell")));
  ReadFile _ path _ _ := Ok ("text of " +:+ path);
  StatModified _ _ _ := None;
  MarshalBody _ := "";
  UnmarshalMetadata _ := None;
  FileHoldsOf _ := None;
  TypeByExtension _ := "";
  url_parts _ := None;
  image_read := None;
  document_read := None;
  skill_checks _ := [];
  run_terminal _ w := (w, None);
|}.

(** It refuses what comes under no hold, and takes what comes under one. *)
Definition example_answer (body : CapabilityRequest) : CapabilityResponse :=
  match Posted_Hold body with
  | None => MkResponse "mail" "imap" (Posted_ToolName body) "failed" "" true "" "needs approval" "approval_required" "" false false "{}"
  | Some _ => MkResponse "mail" "imap" (Posted_ToolName body) "succeeded" "sent" false "" "" "" "" false false "{}"
  end.

#[local] Instance example_host : CapabilityHost posts_world := {|
  host_tools := example_tools;
  host_JSON := example_JSON;
  host_codes := example_codes;
  PathEscape s := s;
  PostJSON path body w := ((w ++ [(path, body)])%list, Ok (example_answer body));
  HoldsOfRun := Some (fun _ _ => [MkHold "h1" "message_send" "{to=ann;text=approved}" [] ""]);
  ToolCallGate := Some (fun _ _ _ _ w => (w, Some (may_proceed "h1")));
  capabilityToolDefinitions _ := [];
|}.

Definition example_laws : CapabilityLaws posts_world.
Proof.
  refine {| posted := id |}; [done|by intros requester access w [= <-]|by intros gate target name input class_ w [= <-]].
Defined.

#[local] Existing Instance ascii_tables.

Definition send_descriptor : ToolDescriptor :=
  MkDescriptor "message_send" "message_send" "messages" "message_send" "model" "sends" "private" false
    "{required=to,text}" "" "" None "tool:message" "external_send" true None "ok" "" false false "".

Definition ann_catalog : ToolCatalogRequest posts_world :=
  MkCatalogRequest (Access.MkPersonAccess "ann" ["member"] []) "" [] no_visible_context None.
Definition no_facts : RequesterFacts := MkRequesterFacts "ann" "" "" "" "" false "" "" "" "" "" "" None.

Lemma capability_calls_are_allowed_witness :
  let ctx := MkCallContext "run" "obs" "" "" None in
  let call := @invokeCapabilityOperation ascii_tables posts_world example_host 2 ctx "message_send" send_descriptor ann_catalog no_facts "{to=ann;text=hello}" [] in
  option_map (fun ended => List.map (fun post => Posted_Input (snd post)) (fst ended)) call = Some ["{to=ann;text=hello}"; "{to=ann;text=approved}"] /\
  exists w' ended posts, call = Some (w', ended) /\ @posted _ example_host example_laws w' = (@posted _ example_host example_laws [] ++ posts)%list /\
    match posts with
    | [] => True
    | [post] => @sound_post ascii_tables posts_world example_host ann_catalog no_facts "message_send" send_descriptor ctx "{to=ann;text=hello}" post
    | [first; second] =>
      @sound_post ascii_tables posts_world example_host ann_catalog no_facts "message_send" send_descriptor ctx "{to=ann;text=hello}" first /\
      Context_HoldID ctx = "" /\
      exists holdID, @gate_approved posts_world example_host send_descriptor (Posted_Input first.2) holdID /\
        @sound_post ascii_tables posts_world example_host ann_catalog no_facts "message_send" send_descriptor (WithHoldID holdID ctx)
          "{to=ann;text=hello}" second
    | _ => False
    end.
Proof.
  intros ctx call; split; [by vm_compute|].
  apply (@capability_calls_are_allowed ascii_tables posts_world example_host example_laws ann_catalog no_facts "message_send" send_descriptor); done.
Defined.

Lemma carried_files_are_the_requesters_witness : exists w' payload,
  @prepareCapabilityToolInput ascii_tables posts_world example_host "document_read" ann_catalog "{path=notes.txt}" [] = (w', Ok payload) /\
  (Carried_Path <$> files_of (Transport payload)) = ["/workspace/private/people/ann/notes.txt"] /\
  Forall (@read_by_requester ascii_tables posts_world example_host ann_catalog) (files_of (Transport payload)).
Proof.
  destruct (@prepareCapabilityToolInput ascii_tables posts_world example_host "document_read" ann_catalog "{path=notes.txt}" []) as [w' [payload|e]] eqn:Hp;
    [|exfalso; vm_compute in Hp; discriminate].
  exists w', payload; split; [done|]; split; [|by eapply (@carried_files_are_the_requesters ascii_tables posts_world example_host)].
  assert (Hread : Ok payload = (@prepareCapabilityToolInput ascii_tables posts_world example_host "document_read" ann_catalog "{path=notes.txt}" []).2) by (by rewrite Hp).
  vm_compute in Hread; injection Hread as ->; reflexivity.
Defined.
