(* ===== verification/CommandPlans.v ===== *)
(** * What is run for a command ([security/command_guardrail_service.go], [command_request.go],
    [command_plan.go], [sandbox_plan_linux.go], [runtime_environment.go], and the identity a
    command runs under, [security/posix_identity.go])

    A plan is built from a request, the configuration and what the host answers: links, files,
    users and groups.  The helper of the plan is the program of [PosixHelper.v], read through
    the standard library's [flag] package, which is modelled here. *)

From stdpp Require Import pretty.
From S2P Require Export PosixHelper GoText.

Open Scope Z_scope.

(** ** Data *)

Record TerminalConfiguration := MkTerminal {
  Mode : string;
  SandboxProvider : string;
  WorkspaceRootPath : string;
  POSIXHelperPath : string;
  Config_TimeoutSecond : Z;
  OutputMaxBytes : Z;
  SessionMaxCount : Z;
  AllowNetwork : bool;
  AllowInteractiveShell : bool;
}.

Record CommandRequest := MkCommandRequest {
  Command : string;
  ExecutableName : string;
  Arguments : list string;
  Stdin : string;
  WorkingDirectoryPath : string;
  EnvironmentVariables : gmap string string;
  TimeoutSecond : Z;
  OutputMaximumBytes : Z;
  IsInteractive : bool;
  IsPTY : bool;
  RequestIdentity : ExecutionIdentity;
}.

Record CommandPlan := MkPlan {
  ExecutablePath : string;
  Plan_Arguments : list string;
  Plan_Stdin : string;
  Plan_WorkingDirectoryPath : string;
  Plan_EnvironmentVariables : gmap string string;
  Timeout : Z;
  Plan_OutputMaximumBytes : Z;
  UsesSandbox : bool;
  Plan_IsPTY : bool;
  Plan_Identity : ExecutionIdentity;
}.

Inductive PlanError :=
| RootDenied
| WorkingDirectoryUnknown
| NoExecutableName
| ExecutableNotFound
| LinksUnresolved
| InteractiveDisabled
| OnlyBubblewrap
| BubblewrapMissing
| NetworkRequired
| UserUnknown
| GroupUnknown
| IdentifierInvalid.

(** The host: the process's user and directory, its PATH, and what the system knows of links, files,
    users and groups. *)
Class CommandHost := {
  Geteuid : Z;
  Getwd : option string;
  RuntimePATH : string;
  EvalSymlinks : string -> option string;
  Stat_IsDir : string -> option bool;
  LookPath : string -> option string;
  Lookup_Uid : string -> option string;
  LookupGroup_Gid : string -> option string;
}.

Definition no_identity : ExecutionIdentity := MkExecutionIdentity "" "" [] "" 0 0 [].

Definition or_error {A} (e : PlanError) (o : option A) : result PlanError A := match o with Some a => Ok a | None => Err e end.

(** ** The environment *)

Definition workspaceManagedEnvironmentNames : gset string :=
  list_to_set ["BLUECLAW_TASK_TMP"; "BLUECLAW_REQUESTER_ARTIFACTS"; "HOME"; "PATH"; "TMPDIR"; "TMP"; "TEMP"; "XDG_CACHE_HOME"; "XDG_CONFIG_HOME";
    "XDG_RUNTIME_DIR"; "BUN_TMPDIR"; "BUN_INSTALL"; "BUN_INSTALL_CACHE_DIR"; "npm_config_cache"; "SKILL_TASK_CONTEXT"; "SKILL_HOST_URL";
    "SKILL_HOST_TOKEN"].

Definition IsWorkspaceManagedEnvironmentName (name : string) : bool := bool_decide (name ∈ workspaceManagedEnvironmentNames).

Definition allowedTerminalEnvironmentName : gset string := list_to_set ["TERM"; "LANG"; "LC_ALL"; "COLORTERM"; "CAPABILITY_BRIDGE_URL"].

Section plans.
Context `{CommandHost}.

Definition enforceRuntimePATH (environmentVariables : gmap string string) : gmap string string := <["PATH" := RuntimePATH]> environmentVariables.

Definition may_be_set (name : string) : bool := IsWorkspaceManagedEnvironmentName name || bool_decide (name ∈ allowedTerminalEnvironmentName).

Definition sanitizeEnvironmentVariables (environmentVariables : gmap string string) (workspaceRootPath : string) : gmap string string :=
  let allowed := filter (fun '(name, _) => may_be_set name = true) environmentVariables in
  enforceRuntimePATH (allowed ∪ <["HOME" := workspaceRootPath]> (<["TERM" := "xterm-256color"]> {["LANG" := "C.UTF-8"]})).

Definition setDefaultEnvironmentValue (environmentVariables : gmap string string) (setting : string * string) : gmap string string :=
  if blank (default "" (environmentVariables !! setting.1)) then <[setting.1 := setting.2]> environmentVariables
  else environmentVariables.

(** The names a plan under an identity adds, with their values. *)
Definition default_settings (runtimeRootPath scratchRootPath : string) : list (string * string) :=
  let dependencyCachePath := "/workspace/shared/cache/dependencies" in
  [("TMPDIR", scratchRootPath +:+ "/tmp"); ("TMP", scratchRootPath +:+ "/tmp"); ("TEMP", scratchRootPath +:+ "/tmp");
   ("XDG_CACHE_HOME", runtimeRootPath +:+ "/cache"); ("XDG_CONFIG_HOME", runtimeRootPath +:+ "/config");
   ("XDG_RUNTIME_DIR", runtimeRootPath +:+ "/runtime"); ("BUN_TMPDIR", runtimeRootPath +:+ "/bun/tmp");
   ("BUN_INSTALL", runtimeRootPath +:+ "/bun/install"); ("BUN_INSTALL_CACHE_DIR", dependencyCachePath +:+ "/bun");
   ("npm_config_cache", runtimeRootPath +:+ "/npm"); ("GOMODCACHE", dependencyCachePath +:+ "/go/pkg/mod");
   ("GOCACHE", dependencyCachePath +:+ "/go/build"); ("PIP_CACHE_DIR", dependencyCachePath +:+ "/pip");
   ("UV_CACHE_DIR", dependencyCachePath +:+ "/uv"); ("CARGO_HOME", dependencyCachePath +:+ "/cargo")].

Definition applyPOSIXEnvironment (environmentVariables : gmap string string) (identity : ExecutionIdentity) : gmap string string :=
  let home := HomeDirectoryPath identity in
  let result_ := if blank home then environmentVariables
    else setDefaultEnvironmentValue (<["HOME" := home]> environmentVariables) ("BLUECLAW_REQUESTER_ARTIFACTS", home +:+ "/artifacts") in
  let runtimeRootPath := home +:+ "/tmp" +:+ "/.runtime" in
  let scratchRootPath := firstNonEmptyString [default "" (result_ !! "BLUECLAW_TASK_TMP"); runtimeRootPath] in
  enforceRuntimePATH (foldl setDefaultEnvironmentValue result_ (default_settings runtimeRootPath scratchRootPath)).

(** ** Paths and the executable *)

(** [filepath.Abs]. *)
Definition Abs (path : string) : option string :=
  if is_rooted path then Some (Clean path) else (fun directory => PathJoin [directory; path]) <$> Getwd.

Definition resolvePathArgument (pathArgument basePath : string) : option string :=
  if is_rooted pathArgument then Some (Clean pathArgument) else Abs (PathJoin [basePath; pathArgument]).

Definition resolveWorkingDirectoryPath (workingDirectoryPath workspaceRootPath : string) : option string :=
  if blank workingDirectoryPath then Some workspaceRootPath else resolvePathArgument workingDirectoryPath workspaceRootPath.

(** [filepath.SplitList]. *)
Definition SplitList (path : string) : list string := if bool_decide (path = "") then [] else Split path ":"%char.

Definition resolveExecutablePath (executableName : string) : result PlanError string :=
  if blank executableName then Err NoExecutableName else
  if is_rooted executableName then or_error LinksUnresolved (EvalSymlinks executableName) else
  match List.find (fun searchPath => match Stat_IsDir (PathJoin [searchPath; executableName]) with Some isDir => negb isDir | None => false end)
    (SplitList RuntimePATH) with
  | Some searchPath => or_error LinksUnresolved (EvalSymlinks (PathJoin [searchPath; executableName]))
  | None => Err ExecutableNotFound
  end.

Definition joinCommandInput (command stdin : string) : string :=
  if blank command then stdin else
  if blank stdin then command else
  if HasSuffix command nl then command +:+ stdin else command +:+ nl +:+ stdin.

(** ** The identity *)

Definition parseUnsignedID (value : string) : option Z := ParseUint32 10 value.
Definition formatUnsignedID (value : Z) : string := Itoa value.
Definition joinUnsignedIDs (values : list Z) : string := Join "," (formatUnsignedID <$> values).

Fixpoint unseen (seen : gset Z) (values : list Z) : list Z :=
  match values with
  | [] => []
  | value :: values => if bool_decide (value ∈ seen) then unseen seen values else value :: unseen ({[value]} ∪ seen) values
  end.

Definition uniqueUnsignedIntegers (values : list Z) : list Z := unseen ∅ values.

Definition group_id (groupName : string) : result PlanError Z :=
  gid ← or_error GroupUnknown (LookupGroup_Gid groupName);
  or_error IdentifierInvalid (parseUnsignedID gid).

Fixpoint group_ids (groupNames : list string) : result PlanError (list Z) :=
  match groupNames with
  | [] => Ok []
  | groupName :: groupNames =>
    groupID ← group_id groupName;
    groupIDs ← group_ids groupNames;
    Ok (groupID :: groupIDs)
  end.

Definition ResolveExecutionIdentity (identity : ExecutionIdentity) : result PlanError ExecutionIdentity :=
  if blank (UserName identity) then Ok no_identity else
  uid ← or_error UserUnknown (Lookup_Uid (UserName identity));
  userID ← or_error IdentifierInvalid (parseUnsignedID uid);
  groupID ← group_id (firstNonEmptyString [GroupName identity; UserName identity]);
  groupIDs ← group_ids (SupplementaryGroupNames identity);
  Ok (MkExecutionIdentity (UserName identity) (GroupName identity) (SupplementaryGroupNames identity) (HomeDirectoryPath identity)
        userID groupID (uniqueUnsignedIntegers groupIDs)).

End plans.

(** ** The plan *)

Section service.
Context `{CommandHost}.
Variable config : TerminalConfiguration.

Definition maxTimeoutSecond : Z := if Config_TimeoutSecond config <=? 0 then 120 else Config_TimeoutSecond config.

Definition timeoutSecond (requestedTimeoutSecond : Z) : Z :=
  if (0 <? requestedTimeoutSecond) && (requestedTimeoutSecond <? maxTimeoutSecond) then requestedTimeoutSecond
  else if Config_TimeoutSecond config <=? 0 then 120 else Config_TimeoutSecond config.

(** [time.Duration(seconds) * time.Second]. *)
Definition seconds (n : Z) : Z := wrap64 (n * 10 ^ 9).

Definition sandboxProvider : string := if blank (SandboxProvider config) then "bubblewrap" else SandboxProvider config.

Definition helper_arguments (identity : ExecutionIdentity) (workingDirectoryPath executablePath : string) (arguments : list string) : list string :=
  ["exec"; "--uid"; formatUnsignedID (UserID identity); "--gid"; formatUnsignedID (GroupID identity);
   "--groups"; joinUnsignedIDs (SupplementaryGroupIDs identity); "--cwd"; workingDirectoryPath; "--"; executablePath] ++ arguments.

Definition applyPOSIXRunner (commandPlan : CommandPlan) (workspaceRootPath : string) : result PlanError CommandPlan :=
  if blank (POSIXHelperPath config) then Ok commandPlan else
  if blank (UserName (Plan_Identity commandPlan)) then Ok commandPlan else
  resolvedIdentity ← ResolveExecutionIdentity (Plan_Identity commandPlan);
  Ok (MkPlan (POSIXHelperPath config)
    (helper_arguments resolvedIdentity (Plan_WorkingDirectoryPath commandPlan) (ExecutablePath commandPlan) (Plan_Arguments commandPlan))
    (Plan_Stdin commandPlan) workspaceRootPath (applyPOSIXEnvironment (Plan_EnvironmentVariables commandPlan) resolvedIdentity)
    (Timeout commandPlan) (Plan_OutputMaximumBytes commandPlan) (UsesSandbox commandPlan) (Plan_IsPTY commandPlan) resolvedIdentity).

Definition buildBashCommandPlan (commandRequest : CommandRequest) (workingDirectoryPath workspaceRootPath : string) : result PlanError CommandPlan :=
  if IsInteractive commandRequest && negb (AllowInteractiveShell config) then Err InteractiveDisabled else
  resolvedExecutablePath ← resolveExecutablePath "bash";
  applyPOSIXRunner (MkPlan resolvedExecutablePath (if IsPTY commandRequest then ["-i"] else ["--noprofile"; "--norc"; "-s"])
    (joinCommandInput (Command commandRequest) (Stdin commandRequest)) workingDirectoryPath
    (sanitizeEnvironmentVariables (EnvironmentVariables commandRequest) workspaceRootPath)
    (seconds (timeoutSecond (TimeoutSecond commandRequest))) (OutputMaximumBytes commandRequest) false (IsPTY commandRequest)
    (RequestIdentity commandRequest)) workspaceRootPath.

(** The environment is visited in some order; here, the map's. *)
Definition buildSandboxCommandPlan (commandPlan : CommandPlan) (workspaceRootPath : string) : result PlanError CommandPlan :=
  bubblewrapPath ← or_error BubblewrapMissing (LookPath "bwrap");
  let arguments := ["--die-with-parent"; "--new-session"; "--unshare-all"; "--proc"; "/proc"; "--dev"; "/dev"; "--tmpfs"; "/tmp";
    "--bind"; workspaceRootPath; workspaceRootPath; "--chdir"; Plan_WorkingDirectoryPath commandPlan] in
  let network := if AllowNetwork config then [] else ["--unshare-net"] in
  let system := concat ((fun path => ["--ro-bind"; path; path]) <$>
    List.filter (fun path => default false (Stat_IsDir path)) ["/usr"; "/bin"; "/sbin"; "/lib"; "/lib64"; "/etc"]) in
  let environment := concat ((fun '(name, value) => ["--setenv"; name; value]) <$> map_to_list (Plan_EnvironmentVariables commandPlan)) in
  Ok (MkPlan bubblewrapPath (arguments ++ network ++ system ++ environment ++ ExecutablePath commandPlan :: Plan_Arguments commandPlan)
    "" workspaceRootPath ∅ (Timeout commandPlan) 0 true false no_identity).

Definition BuildCommandPlan (commandRequest : CommandRequest) : result PlanError CommandPlan :=
  if Geteuid =? 0 then Err RootDenied else
  workspaceRootPath ← or_error WorkingDirectoryUnknown (Abs (WorkspaceRootPath config));
  workingDirectoryPath ← or_error WorkingDirectoryUnknown (resolveWorkingDirectoryPath (WorkingDirectoryPath commandRequest) workspaceRootPath);
  if negb (blank (Command commandRequest)) || IsPTY commandRequest then buildBashCommandPlan commandRequest workingDirectoryPath workspaceRootPath else
  resolvedExecutablePath ← resolveExecutablePath (ExecutableName commandRequest);
  if IsInteractive commandRequest && negb (AllowInteractiveShell config) then Err InteractiveDisabled else
  let commandPlan := MkPlan resolvedExecutablePath (Arguments commandRequest) "" workingDirectoryPath
    (sanitizeEnvironmentVariables (EnvironmentVariables commandRequest) workspaceRootPath)
    (seconds (timeoutSecond (TimeoutSecond commandRequest))) (OutputMaximumBytes commandRequest) false false (RequestIdentity commandRequest) in
  if bool_decide (Mode config = "sandbox") then
    if negb (bool_decide (sandboxProvider = "bubblewrap")) then Err OnlyBubblewrap else buildSandboxCommandPlan commandPlan workspaceRootPath
  else if negb (AllowNetwork config) then Err NetworkRequired
  else applyPOSIXRunner commandPlan workspaceRootPath.

End service.

(** ** Flags ([flag.FlagSet] of the standard library) *)

(** What a digit is in a base up to 36, of either case. *)
Definition digit_value (a : ascii) : option Z :=
  let c := byte a in
  if between 48 57 c then Some (c - 48) else if between 97 122 c then Some (c - 87) else if between 65 90 c then Some (c - 55) else None.

Fixpoint digits_under (base : Z) (l : bytes) (acc : Z) : option Z :=
  match l with
  | [] => Some acc
  | a :: l =>
    if Ascii.eqb a "_"%char then digits_under base l acc else
    d ← digit_value a;
    if base <=? d then None else digits_under base l (base * acc + d)
  end.

(** [underscoreOK], after the prefix: whether underscores are only between digits. *)
Fixpoint underscores_between (isHex afterDigit afterUnderscore : bool) (l : bytes) : bool :=
  match l with
  | [] => negb afterUnderscore
  | a :: l =>
    let c := byte a in
    if between 48 57 c || (isHex && (between 97 102 c || between 65 70 c)) then underscores_between isHex true false l else
    if Ascii.eqb a "_"%char then afterDigit && underscores_between isHex false true l else
    negb afterUnderscore && underscores_between isHex false false l
  end.

(** What a number starts with: its base, its digits, whether a prefix was taken, and the text its
    underscores are checked in. *)
Definition number_prefix (l : bytes) : Z * bytes * bool * bytes :=
  match l with
  | "0"%char :: a :: rest =>
    let known := if Ascii.eqb a "b"%char || Ascii.eqb a "B"%char then Some 2 else if Ascii.eqb a "o"%char || Ascii.eqb a "O"%char then Some 8
      else if Ascii.eqb a "x"%char || Ascii.eqb a "X"%char then Some 16 else None in
    match known with
    | Some base => if bool_decide (rest = []) then (8, a :: rest, true, rest) else (base, rest, true, rest)
    | None => (8, a :: rest, false, l)
    end
  | "0"%char :: [] => (8, [], false, l)
  | _ => (10, l, false, l)
  end.

(** [strconv.ParseUint(s, 0, 64)]. *)
Definition ParseUint64 (s : string) : option Z :=
  let l := bytes_of s in
  if bool_decide (l = []) then None else
  let '(base, body, prefixed, marked) := number_prefix l in
  z ← digits_under base body 0;
  if 2 ^ 64 <=? z then None else
  if existsb (Ascii.eqb "_"%char) body && negb (underscores_between (base =? 16) prefixed false marked) then None else Some z.

Record ExecFlags := MkExecFlags { flag_uid : Z; flag_gid : Z; flag_groups : string; flag_cwd : string }.

(** [flag.Value.Set] of the flags of [exec]. *)
Definition set_flag (name value : string) (flags : ExecFlags) : option ExecFlags :=
  let '(MkExecFlags uid gid groups cwd) := flags in
  if bool_decide (name = "uid") then (fun uid => MkExecFlags uid gid groups cwd) <$> ParseUint64 value else
  if bool_decide (name = "gid") then (fun gid => MkExecFlags uid gid groups cwd) <$> ParseUint64 value else
  if bool_decide (name = "groups") then Some (MkExecFlags uid gid value cwd) else
  if bool_decide (name = "cwd") then Some (MkExecFlags uid gid groups value) else None.

(** [FlagSet.Parse]; [None]: it fails. *)
Fixpoint parse_flags (fuel : nat) (arguments : list string) (flags : ExecFlags) : option (ExecFlags * list string) :=
  match fuel with
  | O => None
  | S fuel =>
    match arguments with
    | [] => Some (flags, [])
    | s :: rest =>
      if negb (HasPrefix s "-") || (String.length s <? 2)%nat then Some (flags, arguments) else
      if bool_decide (s = "--") then Some (flags, rest) else
      let name := TrimPrefix (TrimPrefix s "-") "-" in
      if bool_decide (name = "") || HasPrefix name "-" || HasPrefix name "=" then None else
      match Cut name "=" with
      | Some (name, value) => flags ← set_flag name value flags; parse_flags fuel rest flags
      | None =>
        match rest with
        | [] => None
        | value :: rest => flags ← set_flag name value flags; parse_flags fuel rest flags
        end
      end
    end
  end.

(** The helper's [exec], with its arguments as they are given. *)
Definition helper_exec (arguments : list string) : option (result HelperError (list SystemCall)) :=
  match arguments with
  | "exec" :: arguments =>
    '(flags, rest) ← parse_flags (S (length arguments)) arguments (MkExecFlags 0 0 "" "");
    Some (runExec (MkExecRequest (flag_uid flags) (flag_gid flags) (flag_groups flags) (flag_cwd flags) rest))
  | _ => None
  end.

(** The helper's program, run by a user, where the system has a user for the service or not: its [exec]. *)
Definition helper_program (realUserID : Z) (blueclawUserID : option Z) (arguments : list string) : option (result HelperError (list SystemCall)) :=
  match arguments with
  | "exec" :: _ =>
    match authorizeHelperCaller realUserID blueclawUserID with
    | Err e => Some (Err e)
    | Ok _ => helper_exec arguments
    end
  | _ => None
  end.

(** ** Numbers and lists of numbers, as they are written and read back *)

Lemma Split_Join sep ls : ls <> [] -> Forall (fun s => existsb (Ascii.eqb sep) (bytes_of s) = false) ls -> Split (Join (String sep "") ls) sep = ls.
Proof.
  induction ls as [|s ls IH]; [done|]; intros _ [Hs Hall]%Forall_cons; destruct ls as [|s' ls].
  - unfold Join, Split; cbn [String.concat]; rewrite <- (app_nil_r (bytes_of s)), split_bytes_solid by done; cbn; by rewrite of_bytes_of.
  - change (Join (String sep "") (s :: s' :: ls)) with (s +:+ String sep (Join (String sep "") (s' :: ls))); unfold Split.
    rewrite bytes_of_app; change (bytes_of (String sep (Join (String sep "") (s' :: ls)))) with (sep :: bytes_of (Join (String sep "") (s' :: ls))).
    rewrite split_bytes_app, fmap_app; rewrite <- (app_nil_r (bytes_of s)), split_bytes_solid by done.
    cbn [split_bytes fmap list_fmap app]; rewrite of_bytes_of; f_equal; by apply IH.
Qed.

Lemma digit_facts a : is_digit a -> solid_ascii a = true /\ Ascii.eqb ","%char a = false /\ Ascii.eqb a "_"%char = false /\ digit_value a = digit a /\
  (forall d, digit a = Some d -> d < 10) /\ Ascii.eqb "_"%char a = false.
Proof.
  intros [d Hd]; destruct a as [[] [] [] [] [] [] [] []]; first [discriminate Hd|split_and!; try reflexivity; intros ? [= <-]; reflexivity].
Qed.

Lemma Itoa_is_digits z : 0 <= z -> Forall is_digit (bytes_of (Itoa z)).
Proof. intros Hz; assert (z = 0 \/ 0 < z) as [->|Hp] by lia; [repeat constructor; by exists 0|by apply Itoa_digits]. Qed.

Lemma Itoa_solid z : 0 <= z -> forallb solid_ascii (bytes_of (Itoa z)) = true /\ existsb (Ascii.eqb ","%char) (bytes_of (Itoa z)) = false.
Proof.
  intros Hz; pose proof (Itoa_is_digits z Hz) as Hd; induction Hd as [|a l Ha _ [IH1 IH2]]; [done|].
  destruct (digit_facts a Ha) as (H1 & H2 & _); cbn [forallb existsb]; by rewrite H1, H2.
Qed.

Lemma Itoa_solid_neq z : 0 <= z -> Itoa z <> "".
Proof.
  intros Hz; assert (z = 0 \/ 0 < z) as [->|Hp] by lia; [done|]; intros He; pose proof (Itoa_inj z 0) as Hi.
  destruct z as [|p|p]; [lia| |lia]; unfold Itoa, pretty, pretty_Z, pretty, pretty_positive, pretty, pretty_N in He.
  destruct (decide _) as [|_] in He; [done|]; pose proof (digits_pretty (N.pos p) "") as Hp'; rewrite He in Hp'; discriminate Hp'.
Qed.

Lemma Atoi_Itoa_nonneg z : 0 <= z <= int64_max -> Atoi (Itoa z) = Some z.
Proof. intros Hz; assert (z = 0 \/ 0 < z) as [->|Hp] by lia; [by vm_compute|by apply Atoi_Itoa; lia]. Qed.

Lemma group_IDs_read ids : Forall (fun id => 0 <= id < 2 ^ 31) ids -> group_IDs (Itoa <$> ids) = Some ids.
Proof.
  induction 1 as [|id ids Hid _ IH]; [done|]; change (Itoa <$> id :: ids) with (Itoa id :: (Itoa <$> ids)); cbn [group_IDs].
  rewrite TrimSpace_ascii by (apply Itoa_solid; lia); rewrite bool_decide_eq_false_2 by (by apply Itoa_solid_neq; lia).
  assert (Hbound : 2 ^ 31 <= int64_max) by (by vm_compute); unfold ParseInt32; rewrite Atoi_Itoa_nonneg by lia.
  rewrite (proj2 (andb_true_iff _ _)) by (split; [apply Z.leb_le|apply Z.ltb_lt]; lia).
  cbn; by rewrite IH.
Qed.

Lemma groups_read_back ids : Forall (fun id => 0 <= id < 2 ^ 31) ids -> parseGroupIDs (joinUnsignedIDs ids) = Some ids.
Proof.
  intros Hids; unfold parseGroupIDs, joinUnsignedIDs, formatUnsignedID; destruct ids as [|id ids]; [done|].
  rewrite Split_Join; [by apply group_IDs_read|done|].
  apply Forall_fmap; eapply Forall_impl; [exact Hids|]; intros x [Hx _]; by apply Itoa_solid.
Qed.

(** The first digit of a positive number is not a zero. *)
Lemma pretty_N_head x s : (0 < x)%N -> exists a l, bytes_of (pretty_N_go x s) = a :: l /\ a <> "0"%char.
Proof.
  revert s; induction x as [x IH] using (well_founded_induction N.lt_wf_0); intros s Hx; rewrite pretty_N_go_step by done.
  destruct (N.eq_0_gt_0_cases (x / 10)) as [Hz|Hp]; [|apply IH; [by apply N.div_lt|done]].
  rewrite Hz, pretty_N_go_0; eexists _, _; split; [reflexivity|].
  assert (Hm : (x mod 10 = x)%N) by (pose proof (N.div_mod x 10 ltac:(done)); lia); rewrite Hm.
  assert (Hlt : (x < 10)%N) by (rewrite <- Hm; by apply N.mod_lt).
  assert (x = 1 \/ x = 2 \/ x = 3 \/ x = 4 \/ x = 5 \/ x = 6 \/ x = 7 \/ x = 8 \/ x = 9)%N as Hcases by lia.
  by destruct Hcases as [->|[->|[->|[->|[->|[->|[->|[->| ->]]]]]]]].
Qed.

Lemma digits_under_ten l acc : Forall is_digit l -> digits_under 10 l acc = digits l acc.
Proof.
  intros Hl; revert acc; induction Hl as [|a l Ha _ IH]; intros acc; [done|]; cbn [digits_under digits].
  destruct (digit_facts a Ha) as (_ & _ & Hu & Hv & Hten & _); rewrite Hu, Hv; destruct Ha as [d Hd]; rewrite Hd; cbn.
  by rewrite (proj2 (Z.leb_gt 10 d)) by (by apply Hten).
Qed.

Lemma digits_no_underscore l : Forall is_digit l -> existsb (Ascii.eqb "_"%char) l = false.
Proof. induction 1 as [|a l Ha _ IH]; [done|]; cbn [existsb]; destruct (digit_facts a Ha) as (_ & _ & _ & _ & _ & Hu); by rewrite Hu, IH. Qed.

Lemma ParseUint64_Itoa z : 0 <= z < 2 ^ 64 -> ParseUint64 (Itoa z) = Some z.
Proof.
  intros Hz; assert (z = 0 \/ 0 < z) as [->|Hp] by lia; [by vm_compute|].
  pose proof (Itoa_digits z Hp) as Hd.
  assert (Hall : digits (bytes_of (Itoa z)) 0 = Some z /\ exists a l, bytes_of (Itoa z) = a :: l /\ a <> "0"%char).
  { destruct z as [|p|p]; [lia| |lia]; unfold Itoa, pretty, pretty_Z, pretty, pretty_positive, pretty, pretty_N.
    destruct (decide _); [done|]; split; [exact (digits_pretty (N.pos p) "")|by apply pretty_N_head]. }
  destruct Hall as [Hdig (a & l & Ha & Hne)]; unfold ParseUint64; cbv zeta; rewrite Ha in *.
  assert (Hbase : number_prefix (a :: l) = (10, a :: l, false, a :: l)).
  { destruct a as [[] [] [] [] [] [] [] []]; first [reflexivity|by destruct Hne]. }
  rewrite Hbase, bool_decide_eq_false_2 by done; rewrite digits_under_ten, Hdig by done; cbn [mbind option_bind].
  rewrite (proj2 (Z.leb_gt (2 ^ 64) z)) by lia.
  by rewrite digits_no_underscore.
Qed.

(** ** Rooted paths *)

Lemma Clean_rooted path : is_rooted path = true -> is_rooted (Clean path) = true.
Proof. intros Hr; unfold Clean; by rewrite Hr. Qed.

Lemma rooted_not_blank path : is_rooted path = true -> blank path = false.
Proof.
  intros Hr; apply bool_decide_eq_false_2; destruct path as [|a s]; [done|]; cbn in Hr; apply Ascii.eqb_eq in Hr as ->.
  by apply TrimSpace_solid_head.
Qed.

Lemma PathJoin_rooted directory rest : is_rooted directory = true -> is_rooted (PathJoin (directory :: rest)) = true.
Proof.
  intros Hr; cbn [PathJoin]; rewrite bool_decide_eq_false_2 by (by intros ->); apply Clean_rooted; destruct rest as [|name rest]; [done|].
  change (String.concat "/" (directory :: name :: rest)) with (directory +:+ "/" +:+ String.concat "/" (name :: rest)).
  rewrite is_rooted_app; [done|by intros ->].
Qed.

(** ** A command of a requester *)

Lemma digits_in_nonneg base l : 0 <= base -> forall acc z, 0 <= acc -> digits_in base l acc = Some z -> 0 <= z.
Proof.
  intros Hb; induction l as [|a l IH]; intros acc z Hacc; cbn [digits_in]; [by intros [= <-]|].
  unfold digit; destruct (between 48 57 (byte a)) eqn:Hd; [|done]; destruct (byte a - 48 <? base); [|done].
  unfold between in Hd; bool_to_prop; apply IH; nia.
Qed.

Lemma parseUnsignedID_range value z : parseUnsignedID value = Some z -> uint32 z.
Proof.
  unfold parseUnsignedID, ParseUint32; destruct (bytes_of value) as [|a l]; [done|].
  destruct (digits_in 10 (a :: l) 0) as [n|] eqn:Hn; [|done]; destruct (n <? 2 ^ 32) eqn:Hlt; [|done]; intros [= <-].
  apply digits_in_nonneg in Hn; [|lia..]; apply Z.ltb_lt in Hlt; by split.
Qed.

Section runs.
Context `{CommandHost}.

Lemma group_id_range groupName groupID : group_id groupName = Ok groupID -> uint32 groupID.
Proof.
  unfold group_id, or_error; destruct (LookupGroup_Gid groupName) as [gid|]; cbn; [|done].
  destruct (parseUnsignedID gid) as [z|] eqn:Hz; [|done]; intros [= <-]; by eapply parseUnsignedID_range.
Qed.

Lemma ResolveExecutionIdentity_range identity resolved :
  blank (UserName identity) = false -> ResolveExecutionIdentity identity = Ok resolved ->
  uint32 (UserID resolved) /\ uint32 (GroupID resolved) /\ HomeDirectoryPath resolved = HomeDirectoryPath identity /\ UserName resolved = UserName identity.
Proof.
  unfold ResolveExecutionIdentity; intros ->; unfold or_error; destruct (Lookup_Uid (UserName identity)) as [uid|]; cbn; [|done].
  destruct (parseUnsignedID uid) as [userID|] eqn:Hu; cbn; [|done].
  destruct (group_id (firstNonEmptyString [GroupName identity; UserName identity])) as [groupID|] eqn:Hg; cbn in *; rewrite Hg; cbn; [|done].
  destruct (group_ids (SupplementaryGroupNames identity)) as [groupIDs|]; cbn; [|done]; intros [= <-]; cbn.
  split_and!; [by eapply parseUnsignedID_range|by eapply group_id_range|done|done].
Qed.

(** The flags of a plan, read by the helper. *)
Lemma helper_reads_arguments identity workingDirectoryPath executable arguments :
  uint32 (UserID identity) -> uint32 (GroupID identity) ->
  helper_exec (helper_arguments identity workingDirectoryPath executable arguments) =
  Some (runExec (MkExecRequest (UserID identity) (GroupID identity) (joinUnsignedIDs (SupplementaryGroupIDs identity)) workingDirectoryPath
    (executable :: arguments))).
Proof.
  intros Hu Hg; unfold helper_exec, helper_arguments; cbn [app length].
  assert (Hset : forall name z flags, uint32 z -> (name = "uid" \/ name = "gid") ->
    set_flag name (formatUnsignedID z) flags = Some (if bool_decide (name = "uid")
      then MkExecFlags z (flag_gid flags) (flag_groups flags) (flag_cwd flags) else MkExecFlags (flag_uid flags) z (flag_groups flags) (flag_cwd flags))).
  { intros name z [u g gs c] Hz Hname; unfold set_flag, formatUnsignedID.
    rewrite ParseUint64_Itoa by (unfold uint32 in Hz; lia); by destruct Hname as [-> | ->]. }
  cbn -[set_flag formatUnsignedID joinUnsignedIDs runExec]; rewrite (Hset "uid") by auto; cbn -[set_flag formatUnsignedID joinUnsignedIDs runExec].
  rewrite (Hset "gid") by auto; cbn -[formatUnsignedID joinUnsignedIDs runExec]; by destruct (length arguments).
Qed.

Lemma runExec_calls identity workingDirectoryPath executable arguments :
  uint32 (UserID identity) -> uint32 (GroupID identity) -> UserID identity <> 0 -> GroupID identity <> 0 ->
  Forall (fun id => 0 <= id < 2 ^ 31) (SupplementaryGroupIDs identity) -> blank workingDirectoryPath = false ->
  helper_exec (helper_arguments identity workingDirectoryPath executable arguments) =
  Some (Ok [Setgroups (SupplementaryGroupIDs identity); Setgid (GroupID identity); Setuid (UserID identity); Chdir workingDirectoryPath;
    Exec (executable :: arguments)]).
Proof.
  intros Hu Hg Hu0 Hg0 Hgroups Hwd; rewrite helper_reads_arguments by done; unfold runExec; cbn [uid gid groups cwd executableArguments].
  rewrite (proj2 (Z.eqb_neq _ _) Hu0), (proj2 (Z.eqb_neq _ _) Hg0), Hwd, groups_read_back by done; cbn.
  assert (Hid : forall z, uint32 z -> int_of_uint z = z) by (intros z Hz; apply wrap64_id; unfold uint32, int64_min, int64_max in *; lia).
  by rewrite !Hid.
Qed.

(** What the environment of a plan may hold besides what a request may set. *)
Definition dependency_caches : list string := ["GOMODCACHE"; "GOCACHE"; "PIP_CACHE_DIR"; "UV_CACHE_DIR"; "CARGO_HOME"].

Definition only_known (env : gmap string string) : Prop := forall name, is_Some (env !! name) -> may_be_set name = true \/ name ∈ dependency_caches.

Lemma only_known_insert env name value : (may_be_set name = true \/ name ∈ dependency_caches) -> only_known env -> only_known (<[name := value]> env).
Proof. intros Hn He name'; destruct (decide (name = name')) as [<-|Hne]; [done|]; rewrite lookup_insert_ne by done; apply He. Qed.

Lemma sanitized_known env root : only_known (sanitizeEnvironmentVariables env root).
Proof.
  unfold sanitizeEnvironmentVariables, enforceRuntimePATH; apply only_known_insert; [by left|]; intros name [value Hv].
  apply lookup_union_Some_raw in Hv as [Hv|[_ Hv]]; [apply map_lookup_filter_Some in Hv as [_ Hv]; by left|]; left.
  repeat (apply lookup_insert_Some in Hv as [[<- _]|[_ Hv]]; [by vm_compute|]); apply lookup_singleton_Some in Hv as [<- _]; by vm_compute.
Qed.

Lemma setDefault_known env setting : (may_be_set setting.1 = true \/ setting.1 ∈ dependency_caches) -> only_known env ->
  only_known (setDefaultEnvironmentValue env setting).
Proof. intros Hs He; unfold setDefaultEnvironmentValue; destruct (blank _); [by apply only_known_insert|done]. Qed.

Lemma applyPOSIX_known env identity : only_known env -> only_known (applyPOSIXEnvironment env identity).
Proof.
  intros He; unfold applyPOSIXEnvironment, enforceRuntimePATH; apply only_known_insert; [by left|].
  set (env1 := if blank (HomeDirectoryPath identity) then env else _).
  assert (He1 : only_known env1).
  { unfold env1; destruct (blank _); [done|]; apply setDefault_known; [by left|]; apply only_known_insert; [by left|done]. }
  generalize (firstNonEmptyString [default "" (env1 !! "BLUECLAW_TASK_TMP"); HomeDirectoryPath identity +:+ "/tmp" +:+ "/.runtime"]); intros scratch.
  revert He1; generalize env1; clear; intros env He; unfold default_settings; cbn [foldl].
  repeat (apply setDefault_known; [first [by left; vm_compute|right; by apply (bool_decide_unpack _); vm_compute]|]); exact He.
Qed.

(** A setting that is there stays. *)
Lemma setDefault_keeps env setting name value : env !! name = Some value -> blank value = false ->
  setDefaultEnvironmentValue env setting !! name = Some value.
Proof.
  intros Hv Hb; unfold setDefaultEnvironmentValue; destruct (blank (default "" (env !! setting.1))) eqn:Hs; [|done]; destruct (decide (setting.1 = name)) as [<-|Hne].
  - rewrite Hv in Hs; cbn in Hs; congruence.
  - by rewrite lookup_insert_ne.
Qed.

Lemma settings_keep settings name value : forall env, env !! name = Some value -> blank value = false ->
  foldl setDefaultEnvironmentValue env settings !! name = Some value.
Proof. induction settings as [|setting settings IH]; intros env Hv Hb; cbn [foldl]; [done|]; apply IH; [by apply setDefault_keeps|done]. Qed.

Lemma applyPOSIX_home env identity : blank (HomeDirectoryPath identity) = false ->
  applyPOSIXEnvironment env identity !! "HOME" = Some (HomeDirectoryPath identity) /\ applyPOSIXEnvironment env identity !! "PATH" = Some RuntimePATH.
Proof.
  intros Hb; unfold applyPOSIXEnvironment, enforceRuntimePATH; rewrite Hb, lookup_insert_eq; split; [|done]; rewrite lookup_insert_ne by done.
  set (env1 := setDefaultEnvironmentValue _ _); assert (He : env1 !! "HOME" = Some (HomeDirectoryPath identity)).
  { apply setDefault_keeps; [by rewrite lookup_insert_eq|done]. }
  by apply settings_keep.
Qed.

Lemma runner_plan config plan root plan' : blank (POSIXHelperPath config) = false -> blank (UserName (Plan_Identity plan)) = false ->
  applyPOSIXRunner config plan root = Ok plan' ->
  ExecutablePath plan' = POSIXHelperPath config /\ ResolveExecutionIdentity (Plan_Identity plan) = Ok (Plan_Identity plan') /\
  Plan_Arguments plan' = helper_arguments (Plan_Identity plan') (Plan_WorkingDirectoryPath plan) (ExecutablePath plan) (Plan_Arguments plan) /\
  Plan_EnvironmentVariables plan' = applyPOSIXEnvironment (Plan_EnvironmentVariables plan) (Plan_Identity plan') /\ UsesSandbox plan' = UsesSandbox plan.
Proof. intros Hh Hu; unfold applyPOSIXRunner; rewrite Hh, Hu; intros Hr; apply bind_Ok in Hr as (resolved & Hres & [= <-]); done. Qed.

(** What a request asks to run. *)
Definition program_of (request : CommandRequest) (executable : string) (arguments : list string) : Prop :=
  if negb (blank (Command request)) || IsPTY request
  then resolveExecutablePath "bash" = Ok executable /\ arguments = if IsPTY request then ["-i"] else ["--noprofile"; "--norc"; "-s"]
  else resolveExecutablePath (ExecutableName request) = Ok executable /\ arguments = Arguments request.

Lemma Abs_rooted path p : (forall directory, Getwd = Some directory -> is_rooted directory = true) -> Abs path = Some p -> is_rooted p = true.
Proof.
  intros Hwd; unfold Abs; destruct (is_rooted path) eqn:Hr; [intros [= <-]; by apply Clean_rooted|].
  destruct Getwd as [directory|]; [|done]; intros Hp; injection Hp as Hp; subst p; by apply (PathJoin_rooted directory [path]), Hwd.
Qed.

(** A plan outside of the sandbox is the runner's, of a plan that runs what was asked. *)
Lemma plan_inv config request plan : (forall directory, Getwd = Some directory -> is_rooted directory = true) ->
  BuildCommandPlan config request = Ok plan -> UsesSandbox plan = false ->
  Geteuid <> 0 /\ exists before root, applyPOSIXRunner config before root = Ok plan /\ is_rooted (Plan_WorkingDirectoryPath before) = true /\
    program_of request (ExecutablePath before) (Plan_Arguments before) /\ Plan_Identity before = RequestIdentity request /\
    Plan_EnvironmentVariables before = sanitizeEnvironmentVariables (EnvironmentVariables request) root /\
    Timeout before = seconds (timeoutSecond config (TimeoutSecond request)).
Proof.
  intros Hwd; unfold BuildCommandPlan; destruct (Z.eqb_spec Geteuid 0) as [|Hroot]; [done|]; intros Hplan Hsandbox; split; [done|].
  pose proof (fun path p => Abs_rooted path p Hwd) as Habs.
  apply bind_Ok in Hplan as (root & Hr & Hplan); apply bind_Ok in Hplan as (wd & Hw & Hplan).
  destruct (Abs (WorkspaceRootPath config)) as [root'|] eqn:Hroot'; [|done]; injection Hr as ->.
  assert (Hwdr : is_rooted wd = true).
  { unfold resolveWorkingDirectoryPath, resolvePathArgument in Hw; destruct (blank (WorkingDirectoryPath request)); [injection Hw as <-; by eapply Habs|].
    destruct (is_rooted (WorkingDirectoryPath request)) eqn:Hrel; [injection Hw as <-; by apply Clean_rooted|].
    destruct (Abs _) as [p|] eqn:Hp in Hw; [|done]; injection Hw as <-; by eapply Habs. }
  unfold program_of; destruct (negb (blank (Command request)) || IsPTY request).
  - unfold buildBashCommandPlan in Hplan; destruct (IsInteractive request && _); [done|]; apply bind_Ok in Hplan as (executable & He & Hplan).
    eexists _, root; split; [exact Hplan|]; by split_and!.
  - apply bind_Ok in Hplan as (executable & He & Hplan); destruct (IsInteractive request && _); [done|].
    destruct (bool_decide (Mode config = "sandbox")).
    + destruct (negb _); [done|]; unfold buildSandboxCommandPlan in Hplan; apply bind_Ok in Hplan as (bwrap & _ & [= <-]); done.
    + destruct (negb _); [done|]; eexists _, root; split; [exact Hplan|]; by split_and!.
Qed.

(** C8. A requester's command runs as the requester.  Where the helper is configured and the request
    names a user, a plan outside of the sandbox starts the helper, and the helper, run by root or the user of the
    service and reading the plan's arguments, asks the kernel for the groups, the group and the user the system has for that
    user, goes to a directory that is absolute and starts the program that was asked for, with
    its arguments: for the identifiers of a user that is not root, as far as 31 bits; run by anyone else it refuses.  The
    environment has the service's PATH, the home of the requester's identity where that has one that is not blank, and no
    names but known ones.  The service itself is not root. *)
Theorem requester_commands_run_as_requester config request plan :
  (forall directory, Getwd = Some directory -> is_rooted directory = true) ->
  blank (POSIXHelperPath config) = false -> blank (UserName (RequestIdentity request)) = false ->
  BuildCommandPlan config request = Ok plan -> UsesSandbox plan = false ->
  let identity := Plan_Identity plan in
  Geteuid <> 0 /\ ExecutablePath plan = POSIXHelperPath config /\ ResolveExecutionIdentity (RequestIdentity request) = Ok identity /\
  (exists workingDirectoryPath executable arguments, is_rooted workingDirectoryPath = true /\ program_of request executable arguments /\
    forall realUserID blueclawUserID,
    (realUserID <> 0 -> realUserID <> blueclawUserID -> helper_program realUserID (Some blueclawUserID) (Plan_Arguments plan) = Some (Err UnauthorizedCaller)) /\
    (realUserID = 0 \/ realUserID = blueclawUserID ->
     UserID identity <> 0 -> GroupID identity <> 0 -> Forall (fun id => 0 <= id < 2 ^ 31) (SupplementaryGroupIDs identity) ->
     helper_program realUserID (Some blueclawUserID) (Plan_Arguments plan) =
       Some (Ok [Setgroups (SupplementaryGroupIDs identity); Setgid (GroupID identity); Setuid (UserID identity);
         Chdir workingDirectoryPath; Exec (executable :: arguments)]))) /\
  (blank (HomeDirectoryPath (RequestIdentity request)) = false ->
    Plan_EnvironmentVariables plan !! "HOME" = Some (HomeDirectoryPath (RequestIdentity request))) /\
  Plan_EnvironmentVariables plan !! "PATH" = Some RuntimePATH /\
  only_known (Plan_EnvironmentVariables plan).
Proof.
  intros Hwd Hh Hu Hplan Hsandbox; destruct (plan_inv config request plan Hwd Hplan Hsandbox) as (Hroot & before & root & Hr & Hrooted & Hprog & Hid & Henv & _).
  rewrite <- Hid in Hu; destruct (runner_plan config before root plan Hh Hu Hr) as (Hexe & Hres & Hargs & Henv' & _).
  destruct (ResolveExecutionIdentity_range _ _ Hu Hres) as (Hur & Hgr & Hhome & _); cbv zeta; rewrite <- Hid; split_and!; try done.
  - exists (Plan_WorkingDirectoryPath before), (ExecutablePath before), (Plan_Arguments before); split_and!; [done..|]; intros realUserID blueclawUserID.
    rewrite Hargs; unfold helper_program, helper_arguments, authorizeHelperCaller, isAuthorizedHelperCaller; cbn [app]; split.
    + intros Hr0 Hr1; by rewrite (proj2 (Z.eqb_neq _ _) Hr0), (proj2 (Z.eqb_neq _ _) Hr1).
    + intros Hcaller Hu0 Hg0 Hgroups; replace (_ || _) with true by (destruct Hcaller as [->| ->]; by rewrite ?Z.eqb_refl, ?orb_true_r).
      apply runExec_calls; try done; by apply rooted_not_blank.
  - intros Hb; rewrite Henv', <- Hhome; apply applyPOSIX_home; by rewrite Hhome.
  - rewrite Henv'; unfold applyPOSIXEnvironment, enforceRuntimePATH; by rewrite lookup_insert_eq.
  - rewrite Henv'; apply applyPOSIX_known; rewrite Henv; apply sanitized_known.
Qed.

(** A timeout is positive and within the configured one. *)
Lemma timeouts_are_capped config n : Config_TimeoutSecond config < 2 ^ 33 ->
  0 < seconds (timeoutSecond config n) <= maxTimeoutSecond config * 10 ^ 9.
Proof.
  intros Hc; assert (Hm : 0 < maxTimeoutSecond config < 2 ^ 33).
  { unfold maxTimeoutSecond; destruct (Z.leb_spec (Config_TimeoutSecond config) 0); lia. }
  assert (Ht : 0 < timeoutSecond config n <= maxTimeoutSecond config).
  { unfold timeoutSecond; destruct ((0 <? n) && (n <? maxTimeoutSecond config)) eqn:Hn; [bool_to_prop; lia|].
    change (if Config_TimeoutSecond config <=? 0 then 120 else Config_TimeoutSecond config) with (maxTimeoutSecond config); lia. }
  unfold seconds; rewrite wrap64_id; [lia|unfold int64_min, int64_max; lia].
Qed.

(** ** What the sandbox does not hold *)

Lemma bash_plan config request wd root plan : buildBashCommandPlan config request wd root = Ok plan -> UsesSandbox plan = false.
Proof.
  unfold buildBashCommandPlan; destruct (IsInteractive request && _); [done|]; intros Hp; apply bind_Ok in Hp as (executable & _ & Hp).
  unfold applyPOSIXRunner in Hp; destruct (blank (POSIXHelperPath config)); [by injection Hp as <-|].
  destruct (blank _) in Hp; [by injection Hp as <-|]; apply bind_Ok in Hp as (resolved & _ & Hp); by injection Hp as <-.
Qed.

(** A shell command is never sandboxed, whatever the mode and the network setting are. *)
Lemma shell_commands_leave_the_sandbox config request plan : blank (Command request) = false -> BuildCommandPlan config request = Ok plan ->
  UsesSandbox plan = false.
Proof.
  intros Hc; unfold BuildCommandPlan; destruct (Geteuid =? 0); [done|]; intros Hplan.
  apply bind_Ok in Hplan as (root & _ & Hplan); apply bind_Ok in Hplan as (wd & _ & Hplan); rewrite Hc in Hplan; exact (bash_plan _ _ _ _ _ Hplan).
Qed.

(** What the sandbox runs, it runs as the service and not as the requester. *)
Lemma sandbox_drops_the_identity config plan root sandboxed : buildSandboxCommandPlan config plan root = Ok sandboxed ->
  Plan_Identity sandboxed = no_identity /\ LookPath "bwrap" = Some (ExecutablePath sandboxed).
Proof.
  unfold buildSandboxCommandPlan; intros Hp; apply bind_Ok in Hp as (path & Hl & [= <-]); cbn; split; [done|].
  by destruct (LookPath "bwrap"); [injection Hl as ->|].
Qed.

End runs.

(** ** A host for examples *)

#[local] Instance company_host : CommandHost := {|
  Geteuid := 990;
  Getwd := Some "/var/lib/blueclaw";
  RuntimePATH := "/opt/company/bin:/usr/bin";
  EvalSymlinks path := Some path;
  Stat_IsDir path := if bool_decide (path ∈ ["/usr/bin/bash"; "/usr/bin/python3"]) then Some false else None;
  LookPath _ := Some "/usr/bin/bwrap";
  Lookup_Uid name := if bool_decide (name = "bc_person_ann") then Some "100001" else None;
  LookupGroup_Gid name := if bool_decide (name = "bc_person_ann") then Some "100002" else if bool_decide (name = "bc_shared") then Some "100003" else None;
|}.

Definition company_terminal : TerminalConfiguration := MkTerminal "native" "" "/workspace" "/usr/lib/blueclaw/posix-helper" 120 32768 4 true false.
Definition ann_identity : ExecutionIdentity :=
  MkExecutionIdentity "bc_person_ann" "bc_person_ann" ["bc_shared"; "bc_shared"] "/workspace/private/people/ann" 0 0 [].
Definition ann_command : CommandRequest :=
  MkCommandRequest "ls -l" "" [] "" "notes" {["LD_PRELOAD" := "/tmp/x.so"; "LANG" := "ko_KR.UTF-8"]} 30 0 false false ann_identity.

Example ann_plan : (fun r => match r with Ok plan => Some (Plan_Arguments plan, Timeout plan, Plan_Stdin plan) | Err _ => None end)
    (@BuildCommandPlan company_host company_terminal ann_command) =
  Some (["exec"; "--uid"; "100001"; "--gid"; "100002"; "--groups"; "100003"; "--cwd"; "/workspace/notes"; "--"; "/usr/bin/bash"; "--noprofile"; "--norc"; "-s"],
    30 * 10 ^ 9, "ls -l").
Proof. by vm_compute. Qed.

Lemma requester_commands_run_as_requester_witness : exists plan,
  @BuildCommandPlan company_host company_terminal ann_command = Ok plan /\
  helper_exec (Plan_Arguments plan) = Some (Ok [Setgroups [100003]; Setgid 100002; Setuid 100001; Chdir "/workspace/notes";
    Exec ["/usr/bin/bash"; "--noprofile"; "--norc"; "-s"]]) /\
  Plan_EnvironmentVariables plan !! "LD_PRELOAD" = None /\
  (let identity := Plan_Identity plan in
  @Geteuid company_host <> 0 /\ ExecutablePath plan = POSIXHelperPath company_terminal /\
  @ResolveExecutionIdentity company_host (RequestIdentity ann_command) = Ok identity /\
  (exists workingDirectoryPath executable arguments, is_rooted workingDirectoryPath = true /\
    @program_of company_host ann_command executable arguments /\
    forall realUserID blueclawUserID,
    (realUserID <> 0 -> realUserID <> blueclawUserID -> helper_program realUserID (Some blueclawUserID) (Plan_Arguments plan) = Some (Err UnauthorizedCaller)) /\
    (realUserID = 0 \/ realUserID = blueclawUserID ->
     UserID identity <> 0 -> GroupID identity <> 0 -> Forall (fun id => 0 <= id < 2 ^ 31) (SupplementaryGroupIDs identity) ->
     helper_program realUserID (Some blueclawUserID) (Plan_Arguments plan) =
       Some (Ok [Setgroups (SupplementaryGroupIDs identity); Setgid (GroupID identity); Setuid (UserID identity);
         Chdir workingDirectoryPath; Exec (executable :: arguments)]))) /\
  (blank (HomeDirectoryPath (RequestIdentity ann_command)) = false ->
    Plan_EnvironmentVariables plan !! "HOME" = Some (HomeDirectoryPath (RequestIdentity ann_command))) /\
  Plan_EnvironmentVariables plan !! "PATH" = Some (@RuntimePATH company_host) /\
  only_known (Plan_EnvironmentVariables plan)).
Proof.
  eexists; split; [vm_compute; reflexivity|]; split; [by vm_compute|]; split; [by vm_compute|].
  apply (@requester_commands_run_as_requester company_host company_terminal ann_command);
    [by intros directory [= <-]|by vm_compute|by vm_compute|by vm_compute|done].
Defined.

(** A group whose number has 32 bits is written into a plan, and the helper refuses it. *)
Lemma wide_groups_are_refused :
  helper_exec (helper_arguments (MkExecutionIdentity "ann" "ann" [] "" 100001 100001 [2 ^ 31]) "/workspace" "/usr/bin/bash" []) = Some (Err GroupIDsInvalid) /\
  parseUnsignedID "2147483648" = Some (2 ^ 31).
Proof. by vm_compute. Qed.
