(* ===== verification/ShellSessions.v ===== *)
(** * Running commands and keeping terminal sessions ([security/shell_service.go])

    What a command wrote is kept in buffers that hold the end of it; how it ended decides what is
    reported.  Sessions are kept in a table until they are closed.  A process is a
    handle of the host: its output, its exit and the signals sent to it are steps of the host. *)

From S2P Require Export CommandPlans.

Open Scope Z_scope.

(** ** Buffers of output *)

Record outputRingBuffer := MkRing { maxBytes : Z; content : bytes; isTrimmed : bool }.

Definition newOutputRingBuffer (most : Z) : outputRingBuffer := MkRing (if most <=? 0 then 32768 else most) [] false.

Definition byte_length (l : bytes) : Z := Z.of_nat (length l).

Definition ring_write (buffer : outputRingBuffer) (value : bytes) : outputRingBuffer :=
  let kept := (content buffer ++ value)%list in
  if maxBytes buffer <? byte_length kept
  then MkRing (maxBytes buffer) (drop (Z.to_nat (byte_length kept - maxBytes buffer)) kept) true
  else MkRing (maxBytes buffer) kept (isTrimmed buffer).

Definition ring_text (buffer : outputRingBuffer) : string := of_bytes (content buffer).

Definition truncateString (value : string) (most : Z) : string :=
  if (most <=? 0) || (Z.of_nat (String.length value) <=? most) then value else of_bytes (take (Z.to_nat most) (bytes_of value)).

(** ** One command *)

Record CommandResult := MkCommandResult {
  ExitCode : Z;
  Stdout : string;
  Stderr : string;
  TimedOut : bool;
  Signal : string;
  OutputTrimmed : bool;
}.

(** How a process ended: it could not be reaped after its deadline, or it did end, with the error of
    [Run], its state if it was started (its exit code and the signal that ended it), and whether
    the deadline had passed. *)
Inductive Ending :=
| Unreapable
| Finished (errorValue : option string) (state : option (Z * option string)) (deadlineExceeded : bool).

Record ProcessRun := MkProcessRun { WrittenOut : list bytes; WrittenErr : list bytes; HowEnded : Ending }.

Inductive RunError := NotPlanned (e : PlanError) | NoDirectory (text : string) | CommandTimedOut | CommandFailed (text : string).

Definition killingSignalName (state : option (Z * option string)) : string := default "" (state ≫= snd).

Definition terminalOutputWasTrimmed (out err : outputRingBuffer) : bool := isTrimmed out || isTrimmed err.

Section commands.
Context `{CommandHost}.
Variable config : TerminalConfiguration.
(** The text of an error of the host. *)
Variable host_error_text : PlanError -> string.
(** [os.Stat] of a directory: an error, or whether it is one. *)
Variable stat_directory : string -> result string bool.

Definition plan_error_text (e : PlanError) : string :=
  match e with
  | RootDenied => "terminal execution is denied for root"
  | NoExecutableName => "executableName is required"
  | ExecutableNotFound => "executable was not found in the runtime PATH"
  | InteractiveDisabled => "interactive shell is disabled"
  | OnlyBubblewrap => "only bubblewrap sandbox provider is supported in v1"
  | BubblewrapMissing => "sandbox mode requires bubblewrap on linux"
  | NetworkRequired => "native execution without network is not allowed when terminal.allowNetwork is false"
  | WorkingDirectoryUnknown | LinksUnresolved | UserUnknown | GroupUnknown | IdentifierInvalid => host_error_text e
  end.

Definition outputMaxBytes : Z := if OutputMaxBytes config <=? 0 then 32768 else OutputMaxBytes config.

Definition commandOutputMaxBytes (plan : CommandPlan) : Z :=
  if 0 <? Plan_OutputMaximumBytes plan then Plan_OutputMaximumBytes plan else outputMaxBytes.

Definition prepareWorkingDirectory (path : string) : option string :=
  match stat_directory path with
  | Err text => Some text
  | Ok isDir => if isDir then None else Some "working directory is not a directory"
  end.

Definition command_result (most : Z) (out err : outputRingBuffer) (exitCode : Z) (standardError : string) (timedOut : bool) (signal : string)
    : CommandResult :=
  MkCommandResult exitCode (truncateString (ring_text out) most) (truncateString standardError most) timedOut signal (terminalOutputWasTrimmed out err).

(** [run] is what becomes of the process of a plan. *)
Definition RunCommand (run : CommandPlan -> ProcessRun) (commandRequest : CommandRequest) : CommandResult * option RunError :=
  match BuildCommandPlan config commandRequest with
  | Err e => (MkCommandResult (-1) "" (plan_error_text e) false "" false, Some (NotPlanned e))
  | Ok plan =>
    match prepareWorkingDirectory (Plan_WorkingDirectoryPath plan) with
    | Some text => (MkCommandResult 0 "" text false "" false, Some (NoDirectory text))
    | None =>
      let most := commandOutputMaxBytes plan in
      let out := foldl ring_write (newOutputRingBuffer most) (WrittenOut (run plan)) in
      let err := foldl ring_write (newOutputRingBuffer most) (WrittenErr (run plan)) in
      match HowEnded (run plan) with
      | Unreapable => (command_result most out err (-1) (ring_text err) true "", Some CommandTimedOut)
      | Finished errorValue state deadlineExceeded =>
        let exitCode := default 0 (fst <$> state) in
        let signal := killingSignalName state in
        if deadlineExceeded then (command_result most out err exitCode (ring_text err) true signal, Some CommandTimedOut) else
        match errorValue with
        | Some text =>
          let standardError := if blank (ring_text err) then text else ring_text err in
          (command_result most out err exitCode standardError false signal, Some (CommandFailed text))
        | None => (command_result most out err exitCode (ring_text err) false signal, None)
        end
      end
    end
  end.

End commands.

(** ** Processes that left the group of their command *)

(** An entry of [/proc]: its name, and its environment if it can be read. *)
Definition processIDsWithEnvironmentMarker (ownProcessID : Z) (entries : list (string * option bytes)) (scopeMarker : string) : list Z :=
  let markerRecord := (bytes_of scopeMarker ++ ["000"%char])%list in
  omap (fun '(name, environ) =>
    processID ← Atoi name;
    if processID =? ownProcessID then None else
    environ ← environ;
    if Contains (of_bytes environ) (of_bytes markerRecord) then Some processID else None) entries.

(** ** Sessions *)

Record TerminalSession (Process : Type) := MkSession {
  SessionID : string;
  command : Process;
  has_pty : bool;
  standardOutputBuffer : outputRingBuffer;
  standardErrorBuffer : outputRingBuffer;
  isExited : bool;
  exitCode : Z;
  processGroupID : Z;
}.

Arguments MkSession {Process}. Arguments SessionID {Process}. Arguments command {Process}. Arguments has_pty {Process}.
Arguments standardOutputBuffer {Process}. Arguments standardErrorBuffer {Process}. Arguments isExited {Process}. Arguments exitCode {Process}.
Arguments processGroupID {Process}.

Record ShellSessionStatus := MkStatus {
  Status_SessionID : string;
  Status_Status : string;
  Status_ExitCode : Z;
  Status_Stdout : string;
  Status_Stderr : string;
  RecentOutput : string;
  Status_OutputTrimmed : bool;
}.

(** Processes of the host. *)
Class ProcessHost (World : Type) := {
  Process : Type;
  (** starts the program of a plan, under a pseudo terminal or pipes, for at most so long *)
  start_process : bool -> Z -> CommandPlan -> World -> World * result string Process;
  (** the group of a process that is not the service's *)
  process_group : Process -> World -> option Z;
  write_input : Process -> string -> World -> World * option string;
  close_input : Process -> World -> World;
  close_pty : Process -> World -> World;
  cancel : Process -> World -> World;
  await_exit : Process -> Z -> World -> World * bool;
  kill_group : Z -> World -> World;
  kill_process : Process -> World -> World;
  newIdentifier : World -> World * string;
}.

Inductive SessionError := SessionNotPlanned (e : PlanError) | SessionLimitReached | SessionNoDirectory (text : string)
| SessionNotStarted (text : string) | SessionNotFound | SessionInputFailed (text : string) | SessionDidNotExit (sessionID : string).

(** The table of the service. *)
Abbreviation Sessions := (gmap string (TerminalSession Process)).

Section sessions.
Context `{CommandHost} {World : Type} `{ProcessHost World}.
Variable config : TerminalConfiguration.
Variable stat_directory : string -> result string bool.

Definition sessionMaxCount : Z := if SessionMaxCount config <=? 0 then 4 else SessionMaxCount config.

Definition sessionCount (sessions : Sessions) : Z := Z.of_nat (size sessions).

Definition maxDuration (left right : Z) : Z := if right <? left then left else right.

Definition minute : Z := 60 * 10 ^ 9.

Definition rememberProcessGroup (process : Process) (w : World) : Z := default 0 (process_group process w).

Definition interactive (request : CommandRequest) : CommandRequest :=
  MkCommandRequest (Command request) (ExecutableName request) (Arguments request) (Stdin request) (WorkingDirectoryPath request)
    (EnvironmentVariables request) (TimeoutSecond request) (OutputMaximumBytes request) true (IsPTY request) (RequestIdentity request).

(** A session of a plan: not in the table yet. *)
Definition launch_session (plan : CommandPlan) (w : World) : World * result SessionError (TerminalSession Process) :=
  let '(w, sessionID) := newIdentifier w in
  let '(w, started) := start_process (Plan_IsPTY plan) (maxDuration (Timeout plan) (30 * minute)) plan w in
  (w, match started with
      | Err text => Err (SessionNotStarted text)
      | Ok process => Ok (MkSession sessionID process (Plan_IsPTY plan) (newOutputRingBuffer (outputMaxBytes config))
          (newOutputRingBuffer (outputMaxBytes config)) false (-1) (rememberProcessGroup process w))
      end).

Definition StartInteractiveSession (commandRequest : CommandRequest) (sessions : Sessions) (w : World) : Sessions * World * result SessionError string :=
  match BuildCommandPlan config (interactive commandRequest) with
  | Err e => (sessions, w, Err (SessionNotPlanned e))
  | Ok plan =>
    if sessionMaxCount <=? sessionCount sessions then (sessions, w, Err SessionLimitReached) else
    match prepareWorkingDirectory stat_directory (Plan_WorkingDirectoryPath plan) with
    | Some text => (sessions, w, Err (SessionNoDirectory text))
    | None =>
      let '(w, launched) := launch_session plan w in
      match launched with
      | Err e => (sessions, w, Err e)
      | Ok session =>
        let sessions := <[SessionID session := session]> sessions in
        let w := if blank (Plan_Stdin plan) then w else (write_input (command session) (Plan_Stdin plan +:+ nl) w).1 in
        (sessions, w, Ok (SessionID session))
      end
    end
  end.

Definition status (session : TerminalSession Process) : ShellSessionStatus :=
  let stdout := ring_text (standardOutputBuffer session) in
  let stderr := ring_text (standardErrorBuffer session) in
  MkStatus (SessionID session) (if isExited session then "exited" else "running") (exitCode session) stdout stderr (stdout +:+ stderr)
    (isTrimmed (standardOutputBuffer session) || isTrimmed (standardErrorBuffer session)).

Definition StatusSession (sessionID : string) (sessions : Sessions) : result SessionError ShellSessionStatus :=
  match sessions !! sessionID with None => Err SessionNotFound | Some session => Ok (status session) end.

(** What the session wrote while the service waited is taken in by [arrive]. *)
Definition WriteSessionInput (arrive : Sessions -> Sessions) (sessionID input : string) (sessions : Sessions) (w : World)
    : Sessions * World * result SessionError ShellSessionStatus :=
  match sessions !! sessionID with
  | None => (sessions, w, Err SessionNotFound)
  | Some session =>
    let '(w, failed) := write_input (command session) input w in
    match failed with
    | Some text => (sessions, w, Err (SessionInputFailed text))
    | None => let sessions := arrive sessions in (sessions, w, StatusSession sessionID sessions)
    end
  end.

Definition takeSession (sessionID : string) (sessions : Sessions) : option (TerminalSession Process * Sessions) :=
  (fun session => (session, delete sessionID sessions)) <$> sessions !! sessionID.

Definition killWhatItStarted (session : TerminalSession Process) (w : World) : World :=
  if negb (processGroupID session =? 0) then kill_group (processGroupID session) w else kill_process (command session) w.

Definition sessionCloseGrace : Z := 2 * 10 ^ 9.
Definition sessionKillGrace : Z := 3 * 10 ^ 9.

Definition closeAndAwaitExit (session : TerminalSession Process) (w : World) : World * option SessionError :=
  let w := close_input (command session) w in
  let w := if has_pty session then close_pty (command session) w else w in
  let w := cancel (command session) w in
  let '(w, hasExited) := await_exit (command session) sessionCloseGrace w in
  let w := killWhatItStarted session w in
  if (hasExited : bool) then (w, None) else
  let '(w, hasExited) := await_exit (command session) sessionKillGrace w in
  (w, if (hasExited : bool) then None else Some (SessionDidNotExit (SessionID session))).

Definition CloseSession (sessionID : string) (sessions : Sessions) (w : World) : Sessions * World * option SessionError :=
  match takeSession sessionID sessions with
  | None => (sessions, w, Some SessionNotFound)
  | Some (session, sessions) => let '(w, failed) := closeAndAwaitExit session w in (sessions, w, failed)
  end.

Fixpoint close_each (sessionIDs : list string) (firstError : option SessionError) (sessions : Sessions) (w : World)
    : Sessions * World * option SessionError :=
  match sessionIDs with
  | [] => (sessions, w, firstError)
  | sessionID :: sessionIDs =>
    let '(sessions, w, failed) := CloseSession sessionID sessions w in
    close_each sessionIDs (match firstError with Some e => Some e | None => failed end) sessions w
  end.

(** The table is visited in some order; here, the map's. *)
Definition sessionIdentifiers (sessions : Sessions) : list string := (map_to_list sessions).*1.

Definition CloseAllSessions (sessions : Sessions) (w : World) : Sessions * World * option SessionError :=
  close_each (sessionIdentifiers sessions) None sessions w.

(** What the processes do meanwhile: they write, and they end. *)
Definition on_session (f : TerminalSession Process -> TerminalSession Process) (sessionID : string) (sessions : Sessions) : Sessions :=
  alter f sessionID sessions.

Definition output_arrives (isError : bool) (value : bytes) (session : TerminalSession Process) : TerminalSession Process :=
  let '(MkSession id process pty out err exited code group) := session in
  if isError then MkSession id process pty out (ring_write err value) exited code group
  else MkSession id process pty (ring_write out value) err exited code group.

(** [state]: the exit code, if the process has one; [failed]: whether waiting failed. *)
Definition session_ends (state : option Z) (failed : bool) (session : TerminalSession Process) : TerminalSession Process :=
  let '(MkSession id process pty out err _ _ group) := session in
  let code := match state with Some code => code | None => if failed then -1 else 0 end in
  MkSession id process pty out err true code group.

End sessions.

(** ** Buffers keep the end of what was written *)

(** The last bytes of a text, at most so many. *)
Definition ending (most : Z) (l : bytes) : bytes := drop (Z.to_nat (byte_length l - most)) l.

Lemma ending_whole most l : byte_length l <= most -> ending most l = l.
Proof. intros Hl; unfold ending; replace (Z.to_nat (byte_length l - most)) with 0%nat by lia; done. Qed.

Lemma ending_length most l : 0 <= most -> byte_length (ending most l) = Z.min most (byte_length l).
Proof. intros Hm; unfold byte_length, ending; rewrite length_drop; unfold byte_length; lia. Qed.

Lemma ending_app most l1 l2 : 0 <= most -> ending most (ending most l1 ++ l2) = ending most (l1 ++ l2).
Proof.
  intros Hm; unfold ending, byte_length; rewrite !length_app, length_drop, !skipn_app, length_drop, drop_drop; f_equal; f_equal; lia.
Qed.

Lemma ring_write_ending buffer value l : 0 <= maxBytes buffer -> content buffer = ending (maxBytes buffer) l ->
  isTrimmed buffer = (maxBytes buffer <? byte_length l) ->
  ring_write buffer value = MkRing (maxBytes buffer) (ending (maxBytes buffer) (l ++ value)) (maxBytes buffer <? byte_length (l ++ value)).
Proof.
  intros Hm Hc Ht; unfold ring_write; rewrite <- ending_app by done; rewrite Hc, Ht.
  pose proof (ending_length (maxBytes buffer) l Hm) as Hl; set (most := maxBytes buffer) in *.
  assert (Hsum : byte_length (ending most l ++ value) = byte_length (ending most l) + byte_length value) by (unfold byte_length; rewrite length_app; lia).
  assert (Hall : byte_length (l ++ value) = byte_length l + byte_length value) by (unfold byte_length; rewrite length_app; lia).
  assert (0 <= byte_length value) by (unfold byte_length; lia).
  destruct (Z.ltb_spec most (byte_length (ending most l ++ value))) as [Hlt|Hge].
  - f_equal; symmetry; apply Z.ltb_lt; lia.
  - rewrite (ending_whole most (ending most l ++ value)) by done; f_equal; destruct (Z.ltb_spec most (byte_length l)), (Z.ltb_spec most (byte_length (l ++ value))); lia.
Qed.

Lemma writes_keep_the_end most values : 0 < most ->
  foldl ring_write (newOutputRingBuffer most) values = MkRing most (ending most (concat values)) (most <? byte_length (concat values)).
Proof.
  intros Hm; assert (H0 : newOutputRingBuffer most = MkRing most (ending most []) (most <? byte_length [])).
  { unfold newOutputRingBuffer; change (byte_length []) with 0; rewrite (proj2 (Z.leb_gt most 0)) by lia; rewrite (ending_whole most []) by (change (byte_length []) with 0; lia).
    by rewrite (proj2 (Z.ltb_ge most 0)) by lia. }
  rewrite H0; change (concat values) with ([] ++ concat values)%list; generalize (@nil ascii); induction values as [|value values IH]; intros l.
  - cbn; by rewrite app_nil_r.
  - cbn [foldl concat]; rewrite (ring_write_ending _ value l) by (cbn; (lia || done)); cbn [maxBytes]; by rewrite IH, <- app_assoc.
Qed.

Lemma ring_text_length most l : 0 <= most -> Z.of_nat (String.length (of_bytes (ending most l))) <= most.
Proof. intros Hm; rewrite <- length_bytes_of, bytes_of_bytes; pose proof (ending_length most l Hm); unfold byte_length in *; lia. Qed.

Lemma truncate_short value most : Z.of_nat (String.length value) <= most -> truncateString value most = value.
Proof. intros Hl; unfold truncateString; by rewrite (proj2 (Z.leb_le _ _) Hl), orb_true_r. Qed.

Lemma truncate_length value most : 0 < most -> Z.of_nat (String.length (truncateString value most)) <= most.
Proof.
  intros Hm; unfold truncateString; destruct ((most <=? 0) || _) eqn:Hs; [bool_to_prop; lia|].
  rewrite <- length_bytes_of, bytes_of_bytes, length_take; lia.
Qed.

Section command_laws.
Context `{CommandHost}.
Variable (config : TerminalConfiguration) (host_error_text : PlanError -> string) (stat_directory : string -> result string bool).

Lemma commandOutputMaxBytes_pos plan : 0 < commandOutputMaxBytes config plan.
Proof.
  unfold commandOutputMaxBytes, outputMaxBytes; destruct (Z.ltb_spec 0 (Plan_OutputMaximumBytes plan)); [done|].
  destruct (Z.leb_spec (OutputMaxBytes config) 0); lia.
Qed.

(** A command is reported as it ended.  What is reported of its output is the end of it, within
    the bytes that are asked for, and whether anything was cut is said; it succeeded where its
    process ended without an error before the deadline, and only there; it timed out where
    the process could not be reaped or the deadline had passed. *)
Theorem commands_report_how_they_ended run request plan :
  BuildCommandPlan config request = Ok plan -> prepareWorkingDirectory stat_directory (Plan_WorkingDirectoryPath plan) = None ->
  let most := commandOutputMaxBytes config plan in
  let out := concat (WrittenOut (run plan)) in
  let err := concat (WrittenErr (run plan)) in
  let '(r, failed) := RunCommand config host_error_text stat_directory run request in
  Stdout r = of_bytes (ending most out) /\ (blank (of_bytes (ending most err)) = false -> Stderr r = of_bytes (ending most err)) /\
  Z.of_nat (String.length (Stdout r)) <= most /\ Z.of_nat (String.length (Stderr r)) <= most /\
  OutputTrimmed r = (most <? byte_length out) || (most <? byte_length err) /\
  (failed = None <-> exists state, HowEnded (run plan) = Finished None state false) /\
  (TimedOut r = true <-> failed = Some CommandTimedOut) /\
  (failed = Some CommandTimedOut <-> HowEnded (run plan) = Unreapable \/ exists errorValue state, HowEnded (run plan) = Finished errorValue state true).
Proof.
  intros Hplan Hdir; cbv zeta; unfold RunCommand; rewrite Hplan, Hdir; pose proof (commandOutputMaxBytes_pos plan) as Hm.
  rewrite !(writes_keep_the_end _ _ Hm); set (most := commandOutputMaxBytes config plan) in *; unfold command_result, ring_text, terminalOutputWasTrimmed.
  cbn [content isTrimmed].
  assert (Hshort : forall l, truncateString (of_bytes (ending most l)) most = of_bytes (ending most l)) by (intros l; apply truncate_short, ring_text_length; lia).
  assert (Hlen : forall l, Z.of_nat (String.length (of_bytes (ending most l))) <= most) by (intros l; apply ring_text_length; lia).
  destruct (HowEnded (run plan)) as [|errorValue state [|]]; cbn [Stdout Stderr TimedOut OutputTrimmed]; rewrite ?Hshort.
  - split_and!; try done; [split; [done|by intros (? & ?)]|split; [by left|done]].
  - split_and!; try done; [split; [done|by intros (? & ?)]|split; [right; by eexists _, _|done]].
  - destruct errorValue as [text|]; cbn [Stdout Stderr TimedOut OutputTrimmed]; rewrite ?Hshort.
    + split_and!; try done; [intros ->; apply Hshort|apply truncate_length; lia|split; [done|by intros (? & ?)]|split; [done|by intros [?|(? & ? & ?)]]].
    + split_and!; try done; [split; [by eexists|done]|split; [done|by intros [?|(? & ? & ?)]]].
Qed.

End command_laws.

(** ** Sessions are bounded, and closing them leaves nothing running *)

(** A session is in the table under its own identifier. *)
Definition sessions_sound {P : Type} (config : TerminalConfiguration) (sessions : gmap string (TerminalSession P)) : Prop :=
  (forall sessionID session, sessions !! sessionID = Some session -> SessionID session = sessionID) /\ Z.of_nat (size sessions) <= sessionMaxCount config.

(** The signals that were sent, which the host keeps account of. *)
Inductive KillSignal (P : Type) := ToGroup (group : Z) | ToProcess (process : P).
Arguments ToGroup {P}. Arguments ToProcess {P}.

Class ProcessLaws (World : Type) `{ProcessHost World} := {
  signals : World -> list (KillSignal Process);
  kill_group_signals : forall group w, signals (kill_group group w) = ToGroup group :: signals w;
  kill_process_signals : forall process w, signals (kill_process process w) = ToProcess process :: signals w;
  close_input_signals : forall process w, signals (close_input process w) = signals w;
  close_pty_signals : forall process w, signals (close_pty process w) = signals w;
  cancel_signals : forall process w, signals (cancel process w) = signals w;
  await_exit_signals : forall process grace w, signals (await_exit process grace w).1 = signals w;
}.

Section session_laws.
Context `{CommandHost} {World : Type} `{ProcessLaws World}.
Variable (config : TerminalConfiguration) (stat_directory : string -> result string bool).

Lemma sessionMaxCount_pos : 0 < sessionMaxCount config.
Proof. unfold sessionMaxCount; destruct (Z.leb_spec (SessionMaxCount config) 0); lia. Qed.

Lemma StartInteractiveSession_sound request sessions w : sessions_sound config sessions ->
  sessions_sound config (StartInteractiveSession config stat_directory request sessions w).1.1.
Proof.
  intros [Hk Hs]; unfold StartInteractiveSession; destruct (BuildCommandPlan config (interactive request)) as [plan|e]; [|by split].
  destruct (Z.leb_spec (sessionMaxCount config) (sessionCount sessions)) as [|Hlt]; [by split|]; unfold sessionCount in Hlt.
  destruct (prepareWorkingDirectory _ _); [by split|]; destruct (launch_session config plan w) as [w' [session|e]]; [|by split]; cbn [fst]; split.
  - intros sessionID found; cbv zeta; cbn [fst]; intros [[<- <-]|[_ Hl]]%lookup_insert_Some; [done|by apply Hk].
  - cbv zeta; cbn [fst]; destruct (sessions !! SessionID session) as [old|] eqn:Hold; [by rewrite map_size_insert_Some by done|rewrite map_size_insert_None by done; lia].
Qed.

Lemma CloseSession_sound sessionID sessions w : sessions_sound config sessions -> sessions_sound config (CloseSession sessionID sessions w).1.1.
Proof.
  intros [Hk Hs]; unfold CloseSession, takeSession; destruct (sessions !! sessionID) as [session|] eqn:Hid; cbn; [|by split].
  destruct (closeAndAwaitExit session w); cbn [fst]; split; [intros other found; rewrite lookup_delete_Some; intros [_ ?]; by apply Hk|].
  rewrite map_size_delete_Some by (by eexists); lia.
Qed.

Lemma on_session_sound f sessionID sessions : (forall session, SessionID (f session) = SessionID session) ->
  sessions_sound config sessions -> sessions_sound config (on_session f sessionID sessions).
Proof.
  intros Hf [Hk Hs]; unfold on_session; split; [|by rewrite <- (size_dom (D := gset string)), dom_alter_L, size_dom].
  intros other found; rewrite lookup_alter_Some; intros [(<- & session & Hl & ->)|[_ Hl]]; [rewrite Hf; by apply Hk|by apply Hk].
Qed.

(** What happens to the table: calls of the service, one after the other, and what processes do. *)
Inductive session_step : Sessions * World -> Sessions * World -> Prop :=
| step_start request sessions w : session_step (sessions, w) (StartInteractiveSession config stat_directory request sessions w).1
| step_write sessionID input sessions w : session_step (sessions, w) (WriteSessionInput id sessionID input sessions w).1
| step_close sessionID sessions w : session_step (sessions, w) (CloseSession sessionID sessions w).1
| step_output isError value sessionID sessions w : session_step (sessions, w) (on_session (output_arrives isError value) sessionID sessions, w)
| step_end state failed sessionID sessions w : session_step (sessions, w) (on_session (session_ends state failed) sessionID sessions, w)
| step_host sessions w w' : session_step (sessions, w) (sessions, w').

Lemma session_step_sound before after : session_step before after -> sessions_sound config before.1 -> sessions_sound config after.1.
Proof.
  intros [request sessions w|sessionID input sessions w|sessionID sessions w|isError value sessionID sessions w|state failed sessionID sessions w|sessions w w'] Hs;
    cbn [fst] in Hs |- *.
  - by apply StartInteractiveSession_sound.
  - unfold WriteSessionInput; destruct (sessions !! sessionID) as [session|]; [|done]; by destruct (write_input (command session) input w) as [w' [text|]].
  - by apply CloseSession_sound.
  - apply on_session_sound; [|done]; by intros [? ? ? ? ? ? ? ?]; destruct isError.
  - apply on_session_sound; [|done]; by intros [? ? ? ? ? ? ? ?].
  - done.
Qed.

(** The table of sessions stays sound.  However calls and processes take turns, there are never
    more sessions than are allowed, and each is found under its own identifier. *)
Theorem session_table_stays_sound w after : rtc session_step (∅, w) after -> sessions_sound config after.1.
Proof.
  intros Hsteps; assert (Hstart : sessions_sound config (∅ : Sessions, w).1).
  { cbn [fst]; split; [by intros sessionID session; rewrite lookup_empty|]; rewrite map_size_empty; pose proof sessionMaxCount_pos; lia. }
  revert Hstart; generalize (∅ : Sessions, w), after, Hsteps; clear; intros before after Hsteps.
  induction Hsteps as [|x y z Hxy _ IH]; [done|]; intros Hx; apply IH; by eapply session_step_sound.
Qed.

Definition last_signal (session : TerminalSession Process) : KillSignal Process :=
  if negb (processGroupID session =? 0) then ToGroup (processGroupID session) else ToProcess (command session).

Lemma closing_kills session w : signals (closeAndAwaitExit session w).1 = last_signal session :: signals w.
Proof.
  unfold closeAndAwaitExit; set (w1 := if has_pty session then close_pty (command session) (close_input (command session) w) else close_input (command session) w).
  assert (Hw1 : signals (cancel (command session) w1) = signals w).
  { rewrite cancel_signals; unfold w1; destruct (has_pty session); rewrite ?close_pty_signals; apply close_input_signals. }
  pose proof (await_exit_signals (command session) sessionCloseGrace (cancel (command session) w1)) as Ha.
  destruct (await_exit (command session) sessionCloseGrace (cancel (command session) w1)) as [w2 exited]; cbn [fst] in Ha.
  assert (Hkill : signals (killWhatItStarted session w2) = last_signal session :: signals w).
  { unfold killWhatItStarted, last_signal; destruct (negb _); rewrite ?kill_group_signals, ?kill_process_signals; by rewrite Ha, Hw1. }
  destruct exited; [done|]; pose proof (await_exit_signals (command session) sessionKillGrace (killWhatItStarted session w2)) as Hb.
  destruct (await_exit (command session) sessionKillGrace (killWhatItStarted session w2)) as [w3 exited]; cbn [fst] in *; by rewrite Hb, Hkill.
Qed.

Lemma close_each_kills sessionIDs : forall firstError sessions w, NoDup sessionIDs -> Forall (fun sessionID => is_Some (sessions !! sessionID)) sessionIDs ->
  let '(sessions', w', _) := close_each sessionIDs firstError sessions w in
  sessions' = foldl (fun left sessionID => delete sessionID left) sessions sessionIDs /\
  (forall signal, signal ∈ signals w -> signal ∈ signals w') /\
  (forall sessionID session, sessionID ∈ sessionIDs -> sessions !! sessionID = Some session -> last_signal session ∈ signals w').
Proof.
  induction sessionIDs as [|sessionID sessionIDs IH]; intros firstError sessions w Hnd Hall; cbn [close_each foldl].
  { split_and!; [done|done|]; by intros sessionID session Hin%elem_of_nil. }
  apply NoDup_cons in Hnd as [Hnot Hnd]; apply Forall_cons in Hall as [[session Hs] Hall]; unfold CloseSession, takeSession; rewrite Hs; cbn [fmap option_fmap option_map].
  pose proof (closing_kills session w) as Hkill; destruct (closeAndAwaitExit session w) as [w1 failed]; cbn [fst] in Hkill.
  assert (Hall' : Forall (fun other => is_Some (delete sessionID sessions !! other)) sessionIDs).
  { rewrite Forall_forall in Hall |- *; intros other Hin; rewrite lookup_delete_ne; [by apply Hall|by intros ->]. }
  specialize (IH (match firstError with Some e => Some e | None => failed end) (delete sessionID sessions) w1 Hnd Hall').
  destruct (close_each sessionIDs _ (delete sessionID sessions) w1) as [[sessions' w'] e]; destruct IH as (Hleft & Hkeep & Hkilled); split_and!; [done| |].
  - intros signal Hin; apply Hkeep; rewrite Hkill; by right.
  - intros other found [->|Hin]%elem_of_cons Hf; [|apply (Hkilled other); [done|rewrite lookup_delete_ne; [done|by intros ->]]].
    rewrite Hs in Hf; injection Hf as <-; apply Hkeep; rewrite Hkill; by left.
Qed.

(** Closing leaves nothing running.  After all sessions are closed none is in the table, and what each of
    them had started was killed: its group, or its process where it has no group of its own. *)
Theorem closing_leaves_nothing sessions w :
  let '(sessions', w', _) := CloseAllSessions sessions w in
  sessions' = ∅ /\ forall sessionID session, sessions !! sessionID = Some session -> last_signal session ∈ signals w'.
Proof.
  assert (Hin : forall sessionID, sessionID ∈ sessionIdentifiers sessions <-> is_Some (sessions !! sessionID)).
  { intros sessionID; unfold sessionIdentifiers; rewrite list_elem_of_fmap; split.
    - intros ([id session] & -> & Hl%elem_of_map_to_list); by eexists.
    - intros [session Hl%elem_of_map_to_list]; by exists (sessionID, session). }
  pose proof (close_each_kills (sessionIdentifiers sessions) None sessions w (NoDup_fst_map_to_list sessions)) as Hclose.
  unfold CloseAllSessions; destruct (close_each _ _ _ _) as [[sessions' w'] e]; destruct Hclose as (-> & _ & Hkilled).
  { apply Forall_forall; intros sessionID; apply Hin. }
  split; [|intros sessionID session Hs; apply (Hkilled sessionID); [apply Hin; by eexists|done]].
  assert (Hdel : forall ids (m : Sessions) sessionID, foldl (fun left id => delete id left) m ids !! sessionID =
    if bool_decide (sessionID ∈ ids) then None else m !! sessionID).
  { clear; induction ids as [|id ids IH]; intros m sessionID; cbn [foldl]; [done|]; rewrite IH; destruct (decide (sessionID = id)) as [->|Hne].
    - rewrite (bool_decide_eq_true_2 (id ∈ id :: ids)) by (by left); case_bool_decide; [done|apply lookup_delete_eq].
    - rewrite lookup_delete_ne by done; repeat case_bool_decide; rewrite ?elem_of_cons in *; first [done|tauto|exfalso; tauto]. }
  apply map_eq; intros sessionID; rewrite Hdel, lookup_empty; case_bool_decide as Hm; [done|].
  destruct (sessions !! sessionID) eqn:Hs; [|done]; destruct Hm; apply Hin; by eexists.
Qed.

End session_laws.

(** ** A host for examples *)

#[local] Existing Instance company_host.

(** Processes are numbered; the host keeps the signals and hands out identifiers. *)
Record toy_world := MkToy { toy_next : Z; toy_signals : list (KillSignal Z) }.

#[local] Instance toy_processes : ProcessHost toy_world := {|
  Process := Z;
  start_process _ _ _ w := (MkToy (toy_next w + 1) (toy_signals w), Ok (toy_next w));
  process_group process _ := Some (1000 + process);
  write_input _ _ w := (w, None);
  close_input _ w := w;
  close_pty _ w := w;
  cancel _ w := w;
  await_exit _ _ w := (w, false);
  kill_group group w := MkToy (toy_next w) (ToGroup group :: toy_signals w);
  kill_process process w := MkToy (toy_next w) (ToProcess process :: toy_signals w);
  newIdentifier w := (w, "session-" +:+ Itoa (toy_next w));
|}.

#[local] Instance toy_laws : ProcessLaws toy_world.
Proof. by refine {| signals := toy_signals |}. Defined.

Definition two_sessions : TerminalConfiguration := MkTerminal "native" "" "/workspace" "" 120 8 2 true true.
Definition ann_shell : CommandRequest := MkCommandRequest "bash" "" [] "" "" ∅ 30 0 true false ann_identity.
Definition directories (path : string) : result string bool := Ok true.

Definition after_two : gmap string (TerminalSession Z) * toy_world :=
  let '(sessions, w, _) := StartInteractiveSession two_sessions directories ann_shell ∅ (MkToy 1 []) in
  (StartInteractiveSession two_sessions directories ann_shell sessions w).1.

(** A third one is refused; closing both signals both. *)
Example sessions_are_limited :
  (StartInteractiveSession two_sessions directories ann_shell after_two.1 after_two.2).2 = Err SessionLimitReached /\
  toy_signals (CloseAllSessions after_two.1 after_two.2).1.2 = [ToGroup 1002; ToGroup 1001].
Proof. by vm_compute. Qed.

(** The limit is looked at and the session is kept in two holds of the lock: two starts that both look
    before either keeps leave more sessions than are allowed. *)
Lemma two_starts_exceed_the_limit : exists plan sessions w,
  @BuildCommandPlan company_host two_sessions (interactive ann_shell) = Ok plan /\ (sessionMaxCount two_sessions <=? sessionCount sessions) = false /\
  exists w1 w2 first second, launch_session two_sessions plan w = (w1, Ok first) /\ launch_session two_sessions plan w1 = (w2, Ok second) /\
    sessionMaxCount two_sessions < sessionCount (<[SessionID second := second]> (<[SessionID first := first]> sessions)).
Proof.
  eexists _, (StartInteractiveSession two_sessions directories ann_shell ∅ (MkToy 1 [])).1.1, (MkToy 2 []).
  split; [vm_compute; reflexivity|]; split; [by vm_compute|]; eexists _, _, _, _.
  split; [vm_compute; reflexivity|]; split; [vm_compute; reflexivity|]; by vm_compute.
Qed.

Lemma session_table_stays_sound_witness :
  size after_two.1 = 2%nat /\ sessions_sound two_sessions after_two.1.
Proof.
  split; [by vm_compute|]; apply (@session_table_stays_sound company_host toy_world toy_processes two_sessions directories (MkToy 1 []) after_two); unfold after_two.
  pose proof (step_start two_sessions directories ann_shell ∅ (MkToy 1 [])) as Hfirst.
  destruct (StartInteractiveSession two_sessions directories ann_shell ∅ (MkToy 1 [])) as [[sessions w] started]; cbn [fst] in Hfirst.
  eapply rtc_l; [exact Hfirst|]; apply rtc_once; apply step_start.
Defined.

Definition wordy_run (plan : CommandPlan) : ProcessRun :=
  MkProcessRun [bytes_of "0123"; bytes_of "456789"] [bytes_of "x"] (Finished (Some "signal: killed") (Some (-1, Some "killed")) false).

Lemma commands_report_how_they_ended_witness : exists plan,
  BuildCommandPlan two_sessions ann_shell = Ok plan /\
  Stdout (RunCommand two_sessions (fun _ => "") directories wordy_run ann_shell).1 = "23456789" /\
  let most := commandOutputMaxBytes two_sessions plan in
  let out := concat (WrittenOut (wordy_run plan)) in
  let err := concat (WrittenErr (wordy_run plan)) in
  let '(r, failed) := RunCommand two_sessions (fun _ => "") directories wordy_run ann_shell in
  Stdout r = of_bytes (ending most out) /\ (blank (of_bytes (ending most err)) = false -> Stderr r = of_bytes (ending most err)) /\
  Z.of_nat (String.length (Stdout r)) <= most /\ Z.of_nat (String.length (Stderr r)) <= most /\
  OutputTrimmed r = (most <? byte_length out) || (most <? byte_length err) /\
  (failed = None <-> exists state, HowEnded (wordy_run plan) = Finished None state false) /\
  (TimedOut r = true <-> failed = Some CommandTimedOut) /\
  (failed = Some CommandTimedOut <-> HowEnded (wordy_run plan) = Unreapable \/ exists errorValue state, HowEnded (wordy_run plan) = Finished errorValue state true).
Proof.
  eexists; split; [vm_compute; reflexivity|]; split; [by vm_compute|].
  apply (commands_report_how_they_ended two_sessions (fun _ => "") directories wordy_run ann_shell); [by vm_compute|done].
Defined.
