(* ===== verification/PosixSynchronizer.v ===== *)
(** * The system follows the policy ([security/posix_synchronizer.go])

    A document of the state the system is to have is written for the helper to read: of the policy, and of
    the policy with a requester the service knows more circles of.  The helper is then run; it is
    the program of [PosixHelper.v].  Files, encoding/json and the helper's process are a class. *)

From S2P Require Export CommandPlans.

(** ** The policy, with a requester *)

Section requester.
Context `{UnicodeTables}.

Definition posixCircleIDsForPersonAccess (personAccess : Access.PersonAccess) : list string :=
  uniqueStrings (List.filter isPOSIXCircle (normalizeText <$> Access.Circles personAccess)).

Definition hasCirclePolicyID (circlePolicies : list Circle.CirclePolicy) (circleID : string) : bool :=
  existsb (fun c => bool_decide (normalizeText (Circle.CircleID c) = circleID)) circlePolicies.

Definition circlePoliciesWithRequesterCircles (circlePolicies : list Circle.CirclePolicy) (circleIDs : list string) (workspaceRootPath : string)
    : list Circle.CirclePolicy :=
  foldl (fun result_ circleID =>
    if hasCirclePolicyID result_ circleID then result_
    else (result_ ++ [Circle.MkCirclePolicy circleID "" "" (CircleDirectoryPath workspaceRootPath circleID) []])%list) circlePolicies circleIDs.

(** The first of the people with this identifier gets the circles; [None]: nobody has it. *)
Fixpoint give_circles (personID : string) (circleIDs : list string) (persons : list Person.PersonPolicy) : option (list Person.PersonPolicy) :=
  match persons with
  | [] => None
  | p :: persons =>
    if bool_decide (TrimSpace (Person.PersonID p) = personID) then
      let '(Person.MkPersonPolicy id name emails circles admin title group supervisor) := p in
      Some (Person.MkPersonPolicy id name emails (uniqueStrings (circles ++ circleIDs)) admin title group supervisor :: persons)
    else cons p <$> give_circles personID circleIDs persons
  end.

Definition with_people_and_circles (d : PolicyDocument) (persons : list Person.PersonPolicy) (circles : list Circle.CirclePolicy) : PolicyDocument :=
  MkPolicyDocument (Some persons) circles (OrgGroups d) (Company d) (Channels d) (ResourceAccess d) (RawEventDays d) (Version d) (Author d).

Definition policyDocumentWithPOSIXRequesterAccess (policyDocument : PolicyDocument) (personAccess : Access.PersonAccess) (workspaceRootPath : string)
    : PolicyDocument :=
  let personAccess := EnsureRequesterDefaults personAccess in
  let personID := TrimSpace (Access.PersonID personAccess) in
  if bool_decide (personID = "") then policyDocument else
  let circleIDs := posixCircleIDsForPersonAccess personAccess in
  let circles := circlePoliciesWithRequesterCircles (Policy.Circles policyDocument) circleIDs workspaceRootPath in
  match give_circles personID circleIDs (people policyDocument) with
  | Some persons => with_people_and_circles policyDocument persons circles
  | None => with_people_and_circles policyDocument (people policyDocument ++ [Person.MkPersonPolicy personID "" [] circleIDs false "" "" ""]) circles
  end.

Definition policyDocumentWithPOSIXRequesterAccesses (policyDocument : PolicyDocument) (requesterAccesses : list Access.PersonAccess)
    (workspaceRootPath : string) : PolicyDocument :=
  foldl (fun d access => policyDocumentWithPOSIXRequesterAccess d access workspaceRootPath) policyDocument requesterAccesses.

End requester.

(** ** Running the helper *)

Class SyncHost (World : Type) := {
  (** [os.ReadFile] and [json.Unmarshal] of the policy *)
  read_policy : string -> World -> result string PolicyDocument;
  (** a temporary file with the state as JSON: its path *)
  write_state : POSIXState -> World -> World * result string string;
  remove_file : string -> World -> World;
  (** [CombinedOutput]: an error, if there is one, and the output *)
  run_helper : list string -> World -> World * (option string * string);
}.

Inductive SyncError :=
| PolicyPathRequired
| SyncFailed (text : string)
| HelperCommandFailed (operation helperPath text detail : string).

Section synchronizer.
Context `{UnicodeTables} {World : Type} `{SyncHost World}.
Variable visit : gmap string POSIXGroup -> list (string * POSIXGroup).
Variable (config : TerminalConfiguration) (policyPath : string).

Definition formatPOSIXCommandError (operation helperPath text output : string) : SyncError :=
  HelperCommandFailed operation helperPath text (if blank output then "helper produced no output" else TrimSpace output).

Definition run_checked (operation : string) (arguments : list string) (w : World) : World * option SyncError :=
  let helperPath := TrimSpace (POSIXHelperPath config) in
  let '(w, (failed, output)) := run_helper (helperPath :: arguments) w in
  (w, (fun text => formatPOSIXCommandError operation helperPath text output) <$> failed).

Definition runSynchronizeCommand (statePath workspaceRootPath : string) (w : World) : World * option SyncError :=
  run_checked "synchronization" ["sync"; "--state"; statePath; "--workspace"; workspaceRootPath] w.

Definition createStateDocument (workspaceRootPath : string) (requesterAccesses : list Access.PersonAccess) (w : World) : World * result SyncError string :=
  match read_policy policyPath w with
  | Err text => (w, Err (SyncFailed text))
  | Ok policyDocument =>
    let policyDocument := policyDocumentWithPOSIXRequesterAccesses policyDocument requesterAccesses workspaceRootPath in
    let '(w, written) := write_state (POSIXStateForPolicy visit policyDocument workspaceRootPath) w in
    (w, match written with Ok path => Ok path | Err text => Err (SyncFailed text) end)
  end.

Definition workspace_root : string := if blank (WorkspaceRootPath config) then "/workspace" else TrimSpace (WorkspaceRootPath config).

Definition synchronize_with (requesterAccesses : list Access.PersonAccess) (w : World) : World * option SyncError :=
  if blank (POSIXHelperPath config) then (w, None) else
  if blank policyPath then (w, Some PolicyPathRequired) else
  let '(w, created) := createStateDocument workspace_root requesterAccesses w in
  match created with
  | Err e => (w, Some e)
  | Ok statePath => let '(w, failed) := runSynchronizeCommand statePath workspace_root w in (remove_file statePath w, failed)
  end.

Definition Synchronize (w : World) : World * option SyncError := synchronize_with [] w.
Definition SynchronizeRequester (personAccess : Access.PersonAccess) (w : World) : World * option SyncError := synchronize_with [personAccess] w.

Definition ReconcileHome (personID workspaceRootPath : string) (w : World) : World * option SyncError :=
  if blank (POSIXHelperPath config) then (w, None) else
  let rootPath := if blank workspaceRootPath then workspace_root else TrimSpace workspaceRootPath in
  run_checked "home reconciliation" ["reconcile-home"; "--person-id"; TrimSpace personID; "--workspace"; rootPath] w.

(** The error with what failed and for whom. *)
Definition ProvisionRequesterWorkspace (personAccess : Access.PersonAccess) (workspaceRootPath : string) (w : World)
    : World * option (string * string * SyncError) :=
  let personID := TrimSpace (Access.PersonID personAccess) in
  if bool_decide (personID = "") || blank (POSIXHelperPath config) then (w, None) else
  let '(w, failed) := SynchronizeRequester personAccess w in
  match failed with
  | Some e => (w, Some ("requester POSIX workspace provisioning failed for ", personID, e))
  | None =>
    let '(w, failed) := ReconcileHome personID workspaceRootPath w in
    (w, (fun e => ("requester POSIX home reconciliation failed for ", personID, e)) <$> failed)
  end.

End synchronizer.

(** ** A requester's groups exist before a command takes them *)

Section provision.
Context `{UnicodeLaws} (root : string) (visit : gmap string POSIXGroup -> list (string * POSIXGroup)).

Lemma posixCircleIDs_elem access c :
  c ∈ posixCircleIDsForPersonAccess access <-> c ∈ List.filter isPOSIXCircle (normalizeText <$> Access.Circles access).
Proof.
  unfold posixCircleIDsForPersonAccess; apply uniqueStrings_trimmed, Forall_forall; intros x Hx.
  apply list_elem_of_In, filter_In in Hx as [Hx Hc]; apply list_elem_of_In, list_elem_of_fmap in Hx as (v & -> & _).
  apply isPOSIXCircle_normal in Hc as [Hne _]; [|apply normalizeText_idemp]; split; [apply normalizeText_TrimSpace|done].
Qed.

Lemma give_circles_Some personID circleIDs persons persons' : give_circles personID circleIDs persons = Some persons' ->
  exists before p after, persons = before ++ p :: after /\ TrimSpace (Person.PersonID p) = personID /\
    exists p', persons' = before ++ p' :: after /\ Person.PersonID p' = Person.PersonID p /\ Person.IsAdmin p' = Person.IsAdmin p /\
      Person.Circles p' = uniqueStrings (Person.Circles p ++ circleIDs).
Proof.
  revert persons'; induction persons as [|p persons IH]; intros persons'; cbn [give_circles]; [done|]; case_bool_decide as Hid.
  - destruct p as [id name emails circles admin title group supervisor]; intros [= <-]; eexists [], _, persons; split_and!; [done|exact Hid|].
    eexists; split; [done|]; done.
  - destruct (give_circles personID circleIDs persons) as [rest|]; [|done]; intros [= <-].
    destruct (IH rest eq_refl) as (before & q & after & -> & Hq & q' & -> & Hq'); exists (p :: before), q, after; split_and!; [done..|by exists q'].
Qed.

Lemma give_circles_None personID circleIDs persons : give_circles personID circleIDs persons = None ->
  forall p, p ∈ persons -> TrimSpace (Person.PersonID p) <> personID.
Proof.
  induction persons as [|p persons IH]; cbn [give_circles]; [by intros _ p ?%elem_of_nil|]; case_bool_decide as Hid; [by destruct p|].
  destruct (give_circles personID circleIDs persons); [done|]; intros _ q [->|Hq]%elem_of_cons; [done|by apply IH].
Qed.

(** The person the document with a requester has for the requester. *)
Lemma requester_in_document d access : TrimSpace (Access.PersonID access) <> "" ->
  let personID := TrimSpace (Access.PersonID access) in
  let circleIDs := posixCircleIDsForPersonAccess (EnsureRequesterDefaults access) in
  let d' := policyDocumentWithPOSIXRequesterAccess d access root in
  (exists p, p ∈ people d' /\ TrimSpace (Person.PersonID p) = personID /\
    (forall c, c ∈ circleIDs -> c ∈ Person.Circles p) /\
    (forall c, c ∈ Person.Circles p -> c ∈ circleIDs \/ exists q v, q ∈ people d /\ TrimSpace (Person.PersonID q) = personID /\ v ∈ Person.Circles q /\ TrimSpace v = c) /\
    (Person.IsAdmin p = true -> exists q, q ∈ people d /\ TrimSpace (Person.PersonID q) = personID)) /\
  (forall q, q ∈ people d -> TrimSpace (Person.PersonID q) <> personID -> q ∈ people d') /\
  (forall q, q ∈ people d' -> TrimSpace (Person.PersonID q) <> personID -> q ∈ people d).
Proof.
  intros Hid personID circleIDs d'; unfold d', policyDocumentWithPOSIXRequesterAccess; cbn [EnsureRequesterDefaults Access.PersonID]; cbv zeta.
  rewrite (bool_decide_eq_false_2 _ Hid); fold personID circleIDs.
  assert (Hcircles : forall c, c ∈ circleIDs -> TrimSpace c = c /\ c <> "").
  { intros c Hc; unfold circleIDs, posixCircleIDsForPersonAccess in Hc; apply uniqueStrings_elem in Hc as (Hne & v & _ & <-).
    split; [apply TrimSpace_idemp|done]. }
  destruct (give_circles personID circleIDs (people d)) as [persons|] eqn:Hgive; cbn [people People with_people_and_circles default].
  - apply give_circles_Some in Hgive as (before & p & after & Hp & Hpid & p' & -> & Hid' & Hadmin & Hc'); rewrite Hp; split_and!.
    + exists p'; split_and!; [apply elem_of_app; right; by left|by rewrite Hid'| | |].
      * intros c Hc; rewrite Hc'; apply uniqueStrings_elem; destruct (Hcircles c Hc) as [Ht Hne]; split; [done|]; exists c; split; [apply elem_of_app; by right|done].
      * intros c; rewrite Hc'; intros (Hne & v & [Hv|Hv]%elem_of_app & <-)%uniqueStrings_elem;
          [right|left; destruct (Hcircles v Hv) as [Ht _]; by rewrite Ht].
        exists p, v; split_and!; [apply elem_of_app; right; by left|done..].
      * intros _; exists p; split; [apply elem_of_app; right; by left|done].
    + intros q [Hq|[->|Hq]%elem_of_cons]%elem_of_app Hne; [apply elem_of_app; by left|done|apply elem_of_app; right; by right].
    + intros q [Hq|[->|Hq]%elem_of_cons]%elem_of_app Hne; [apply elem_of_app; by left|by rewrite Hid' in Hne|apply elem_of_app; right; by right].
  - split_and!.
    + eexists; split_and!; [apply elem_of_app; right; by left|apply TrimSpace_idemp|done|by left|done].
    + intros q Hq _; apply elem_of_app; by left.
    + intros q [Hq| ->%list_elem_of_singleton]%elem_of_app Hne; [done|destruct Hne; apply TrimSpace_idemp].
Qed.

Lemma requester_circle_normal access c : c ∈ posixCircleIDsForPersonAccess access -> normalizeText c = c /\ c <> "" /\ c <> AdminCircleID.
Proof.
  intros Hc; apply posixCircleIDs_elem in Hc; apply list_elem_of_In, filter_In in Hc as [Hx Hc]; apply list_elem_of_In, list_elem_of_fmap in Hx as (v & -> & _).
  split; [apply normalizeText_idemp|]; by apply isPOSIXCircle_normal in Hc; [|apply normalizeText_idemp].
Qed.

Lemma requester_is_member access : MemberCircleID ∈ posixCircleIDsForPersonAccess (EnsureRequesterDefaults access).
Proof.
  apply posixCircleIDs_elem, list_elem_of_In, filter_In; split; [|by vm_compute]; apply list_elem_of_In, list_elem_of_fmap.
  exists MemberCircleID; split; [by symmetry; apply MemberCircleID_normal|]; apply normalizePolicyStrings_elem; split; [done|].
  exists MemberCircleID; split; [by left|apply MemberCircleID_normal].
Qed.

Lemma effective_circle_of circles p c : normalizeText c = c -> c <> "" -> c <> AdminCircleID -> Person.Circles p = circles -> c ∈ circles ->
  c ∈ effectivePersonCirclesForPOSIX p.
Proof.
  intros Hn Hne Ha <- Hc; apply effectivePersonCirclesForPOSIX_elem; split; [|done]; apply normalizePolicyStrings_elem; split; [done|].
  exists c; split; [right; apply elem_of_app; by left|done].
Qed.

(** C33. A requester's groups exist before a command takes them.  In the state written for a requester there
    is the user a command of the requester runs as, with its group and home; every group such a command takes is
    a group of that user and is created; the user has no other groups but its own and
    those of the circles the policy gives the person; and nobody else's entry changes. *)
Theorem requesters_have_their_groups d access : (forall m, visit m ≡ₚ map_to_list m) -> TrimSpace (Access.PersonID access) <> "" ->
  let identity := ExecutionIdentityForPersonAccess access root in
  let d' := policyDocumentWithPOSIXRequesterAccess d access root in
  let state := POSIXStateForPolicy visit d' root in
  (exists u, u ∈ Users state /\ User.Name u = UserName identity /\ User.GroupName u = GroupName identity /\ User.HomePath u = HomeDirectoryPath identity /\
    (forall g, g ∈ SupplementaryGroupNames identity -> g ∈ User.Groups u /\ MkPOSIXGroup g ∈ Groups state) /\
    (forall g, g ∈ User.Groups u -> g = UserName identity \/ g ∈ SupplementaryGroupNames identity \/
      exists q circle, q ∈ people d /\ TrimSpace (Person.PersonID q) = TrimSpace (Access.PersonID access) /\ circle ∈ effectivePersonCircles q /\
        g = LinuxCircleGroupName circle)) /\
  (forall q, TrimSpace (Person.PersonID q) <> TrimSpace (Access.PersonID access) -> q ∈ people d' <-> q ∈ people d).
Proof.
  intros Hvisit Hid identity d' state; destruct (requester_in_document d access Hid) as ((p & Hp & Hpid & Hgives & Honly & _) & Hothers & Hothers').
  fold d' in Hp, Hothers, Hothers'; split; [|intros q Hq; split; intros Hin; [by apply Hothers'|by apply Hothers]].
  set (u := User.MkPOSIXUser (person_name p) (PersonHomeDirectoryPath root (TrimSpace (Person.PersonID p))) (person_name p)
    (uniqueStrings (person_name p :: posixSharedGroupName :: (LinuxCircleGroupName <$> effectivePersonCirclesForPOSIX p)))).
  assert (Hnamed : named p) by (unfold named; by rewrite Hpid).
  assert (Hu : u ∈ Users state).
  { change (Users state) with (Users (projected_state root d')); apply projected_users; exists p; split; [done|by apply person_user]. }
  destruct (POSIXStateForPolicy_declares root visit d' Hvisit) as [_ Hdeclared].
  assert (Hsupp : forall g, g ∈ SupplementaryGroupNames identity <-> g = posixSharedGroupName \/
    exists c, c ∈ posixCircleIDsForPersonAccess (EnsureRequesterDefaults access) /\ g = LinuxCircleGroupName c).
  { intros g; unfold identity, ExecutionIdentityForPersonAccess; cbv zeta; rewrite (bool_decide_eq_false_2 _ Hid); cbn [SupplementaryGroupNames].
    rewrite uniqueStrings_trimmed, elem_of_cons, list_elem_of_fmap; [|constructor; [by vm_compute|]; apply Forall_fmap, Forall_forall; intros c _; apply circle_name_trimmed].
    split; (intros [?|(c & Hc)]; [by left|right; exists c]); rewrite posixCircleIDs_elem in *; tauto. }
  assert (Hname : UserName identity = person_name p /\ GroupName identity = person_name p /\
    HomeDirectoryPath identity = PersonHomeDirectoryPath root (TrimSpace (Person.PersonID p))).
  { unfold identity, ExecutionIdentityForPersonAccess, person_name; cbv zeta; rewrite (bool_decide_eq_false_2 _ Hid); cbn [UserName GroupName HomeDirectoryPath].
    by rewrite Hpid. }
  destruct Hname as (-> & -> & ->); exists u; split_and!; [done..| |].
  - intros g Hg; assert (Hgu : g ∈ User.Groups u); [|split; [done|by apply (Hdeclared u)]]; apply user_groups_elem; right; apply Hsupp in Hg as [?|(c & Hc & ->)]; [by left|right].
    exists c; split; [|done]; destruct (requester_circle_normal _ c Hc) as (Hn & Hne & Ha); by apply (effective_circle_of (Person.Circles p)); [..|apply Hgives].
  - intros g Hg; apply user_groups_elem in Hg as [->|[->|(c & Hc & ->)]]; [by left|right; left; apply Hsupp; by left|right].
    apply effectivePersonCirclesForPOSIX_elem in Hc as [(Hne & v & Hv & Hvc)%normalizePolicyStrings_elem Ha].
    apply elem_of_cons in Hv as [->|[Hv|Hv]%elem_of_app].
    + left; apply Hsupp; right; exists c; split; [|done]; rewrite <- Hvc, MemberCircleID_normal; apply requester_is_member.
    + apply Honly in Hv as [Hv|(q & v0 & Hq & Hqid & Hv0 & <-)].
      * left; apply Hsupp; right; exists c; split; [|done]; destruct (requester_circle_normal _ v Hv) as (Hn & _); by rewrite <- Hvc, Hn.
      * right; exists q, c; split_and!; [done..| |done]; apply normalizePolicyStrings_elem; split; [done|]; exists v0; split; [right; apply elem_of_app; by left|].
        rewrite <- Hvc; unfold normalizeText; by rewrite TrimSpace_idemp.
    + destruct (Person.IsAdmin p); [|by apply elem_of_nil in Hv]; apply list_elem_of_singleton in Hv as ->; destruct Ha; rewrite <- Hvc; by vm_compute.
Qed.

End provision.

(** ** Witness *)

Definition ann_access : Access.PersonAccess := Access.MkPersonAccess "ann" ["Finance"; "admin"] [].
Definition ann_document : PolicyDocument := posix_document [posix_person "ann" ["design"]; posix_person "bob" []].

Example ann_is_put_in_her_circles :
  User.Groups <$> Users (@POSIXStateForPolicy ascii_tables visit_in_order (@policyDocumentWithPOSIXRequesterAccess ascii_tables ann_document ann_access "/workspace") "/workspace")
  = [["bc_person_ann"; "bc_shared"; "bc_circle_member"; "bc_circle_design"; "bc_circle_finance"]; ["bc_person_bob"; "bc_shared"; "bc_circle_member"]].
Proof. by vm_compute. Qed.

Lemma requesters_have_their_groups_witness :
  SupplementaryGroupNames (@ExecutionIdentityForPersonAccess ascii_tables ann_access "/workspace") = ["bc_shared"; "bc_circle_member"; "bc_circle_finance"] /\
  (let identity := @ExecutionIdentityForPersonAccess ascii_tables ann_access "/workspace" in
  let d' := @policyDocumentWithPOSIXRequesterAccess ascii_tables ann_document ann_access "/workspace" in
  let state := @POSIXStateForPolicy ascii_tables visit_in_order d' "/workspace" in
  (exists u, u ∈ Users state /\ User.Name u = UserName identity /\ User.GroupName u = GroupName identity /\ User.HomePath u = HomeDirectoryPath identity /\
    (forall g, g ∈ SupplementaryGroupNames identity -> g ∈ User.Groups u /\ MkPOSIXGroup g ∈ Groups state) /\
    (forall g, g ∈ User.Groups u -> g = UserName identity \/ g ∈ SupplementaryGroupNames identity \/
      exists q circle, q ∈ people ann_document /\ TrimSpace (Person.PersonID q) = TrimSpace (Access.PersonID ann_access) /\
        circle ∈ @effectivePersonCircles ascii_tables q /\ g = @LinuxCircleGroupName ascii_tables circle)) /\
  (forall q, TrimSpace (Person.PersonID q) <> TrimSpace (Access.PersonID ann_access) -> q ∈ people d' <-> q ∈ people ann_document)).
Proof.
  split; [by vm_compute|]; apply (@requesters_have_their_groups ascii_tables ascii_laws "/workspace" visit_in_order ann_document ann_access); [done|by vm_compute].
Defined.
