(* ===== verification/LedgerSearch.v ===== *)
(** * Searching the ledger of tasks ([sessionquery/sessionquery.go])

    A search reads the runs of the person it names, their fields and the bodies of their events.  The
    store is an argument; so is the order in which the three fields of a run are visited, which are
    the entries of a map. *)

From S2P Require Export TaskRuns GoText.

Open Scope Z_scope.

Definition defaultLimit : Z := 20.
Definition maximumLimit : Z := 100.
Definition maximumScannedTaskRuns : Z := 200.

Record Request := MkRequest {
  RequesterPersonID : string;
  Text : string;
  ConversationID : string;
  Limit : Z;
}.

Record Match := MkMatch {
  TaskRunID : string;
  Match_ConversationID : string;
  Match_Status : TaskStatus;
  Match_Prompt : string;
  CreatedAt : instant;
  MatchedIn : list string;
}.

Record Result := MkResult {
  Matches : list Match;
  TotalMatched : Z;
  Scanned : Z;
  IsTruncated : bool;
  DidStopScanning : bool;
}.

Record TaskEvent := MkTaskEvent { Event_Name : string; Event_Body : string }.

Class Store := {
  ListTaskRunByPersonID : string -> list TaskRun;
  ListTaskEvent : string -> list TaskEvent;
  (** when a run was created *)
  run_created_at : TaskRun -> instant;
}.

Inductive SearchError := NobodyNamed | NoStore.

Definition boundedLimit (limit : Z) : Z := if limit <=? 0 then defaultLimit else if maximumLimit <? limit then maximumLimit else limit.

(** The code's [sortedUnique]. *)
Fixpoint unique_from (seen : gset string) (values : list string) : list string :=
  match values with
  | [] => []
  | value :: values =>
    if bool_decide (value = "") || bool_decide (value ∈ seen) then unique_from seen values else value :: unique_from ({[value]} ∪ seen) values
  end.

Definition sortedUnique (values : list string) : list string := unique_from ∅ values.

Section search.
Context `{UnicodeTables} `{Store}.

(** The labels of the fields, as the map is visited. *)
Variable visit : TaskRun -> list (string * string).

Definition run_fields (taskRun : TaskRun) : list (string * string) :=
  [("prompt", Run_Prompt taskRun); ("result", Run_Result taskRun); ("failureReason", Run_FailureReason taskRun)].

Definition containsFold (haystack needle : string) : bool := Contains (ToLower haystack) (ToLower needle).

Definition matchesConversation (taskRun : TaskRun) (conversationID : string) : bool :=
  let trimmedConversationID := TrimSpace conversationID in
  if bool_decide (trimmedConversationID = "") then true else bool_decide (OriginConversationID taskRun = trimmedConversationID).

Definition matchedEventNames (taskRunID text : string) : list string :=
  (fun taskEvent => TrimSpace (Event_Name taskEvent)) <$> List.filter (fun taskEvent => containsFold (Event_Body taskEvent) text) (ListTaskEvent taskRunID).

(** [None] is [nil]: the run does not match. *)
Definition matchedFields (taskRun : TaskRun) (text : string) : option (list string) :=
  let trimmedText := TrimSpace text in
  if bool_decide (trimmedText = "") then Some [] else
  let matchedIn := fst <$> List.filter (fun '(_, field) => containsFold field trimmedText) (visit taskRun) in
  let matchedIn := (matchedIn ++ matchedEventNames (Run_ID taskRun) trimmedText)%list in
  if bool_decide (matchedIn = []) then None else Some (sortedUnique matchedIn).

Definition matchFor (taskRun : TaskRun) (matchedIn : list string) : Match :=
  MkMatch (Run_ID taskRun) (OriginConversationID taskRun) (Run_Status taskRun) (Run_Prompt taskRun) (run_created_at taskRun) matchedIn.

(** The loop over the runs. *)
Fixpoint scan (request : Request) (limit : Z) (taskRuns : list TaskRun) (result_ : Result) : Result :=
  match taskRuns with
  | [] => result_
  | taskRun :: taskRuns =>
    let '(MkResult matches total scanned truncated stopped) := result_ in
    if negb (matchesConversation taskRun (ConversationID request)) then scan request limit taskRuns result_ else
    if maximumScannedTaskRuns <=? scanned then MkResult matches total scanned truncated true else
    match matchedFields taskRun (Text request) with
    | None => scan request limit taskRuns (MkResult matches total (scanned + 1) truncated stopped)
    | Some matchedIn =>
      let matches := if Z.of_nat (length matches) <? limit then (matches ++ [matchFor taskRun matchedIn])%list else matches in
      scan request limit taskRuns (MkResult matches (total + 1) (scanned + 1) truncated stopped)
    end
  end.

(** [configured]: whether there is a store. *)
Definition Search (configured : bool) (request : Request) : result SearchError Result :=
  let personID := TrimSpace (RequesterPersonID request) in
  if bool_decide (personID = "") then Err NobodyNamed else
  if negb configured then Err NoStore else
  let '(MkResult matches total scanned _ stopped) := scan request (boundedLimit (Limit request)) (ListTaskRunByPersonID personID) (MkResult [] 0 0 false false) in
  Ok (MkResult matches total scanned (Z.of_nat (length matches) <? total) stopped).

(** ** What a search is to give *)

Definition match_of (request : Request) (taskRun : TaskRun) : option Match := matchFor taskRun <$> matchedFields taskRun (Text request).

Lemma take_app_all {A} n (l1 l2 : list A) : (length l1 <= n)%nat -> take n (l1 ++ l2) = l1 ++ take (n - length l1) l2.
Proof. intros Hn; by rewrite take_app, (take_ge l1) by done. Qed.

Lemma scan_exact request limit taskRuns : 0 <= limit -> forall matches0 scanned0,
  Z.of_nat scanned0 <= maximumScannedTaskRuns ->
  let runs := List.filter (fun taskRun => matchesConversation taskRun (ConversationID request)) taskRuns in
  let matched := omap (match_of request) (take (200 - scanned0) runs) in
  scan request limit taskRuns (MkResult (take (Z.to_nat limit) matches0) (Z.of_nat (length matches0)) (Z.of_nat scanned0) false false) =
  MkResult (take (Z.to_nat limit) (matches0 ++ matched)) (Z.of_nat (length (matches0 ++ matched)))
    (Z.of_nat (scanned0 + length (take (200 - scanned0) runs))) false (bool_decide (200 - scanned0 < length runs)%nat).
Proof.
  intros Hlimit; induction taskRuns as [|taskRun taskRuns IH]; intros matches0 scanned0 Hs; cbv zeta; cbn [scan List.filter].
  { rewrite take_nil; cbn [omap list_omap length]; rewrite app_nil_r, Nat.add_0_r, bool_decide_eq_false_2 by lia; done. }
  destruct (matchesConversation taskRun (ConversationID request)); cbn [negb]; [|by apply IH].
  unfold maximumScannedTaskRuns in *; destruct (Z.leb_spec 200 (Z.of_nat scanned0)) as [Hstop|Hmore].
  { replace (200 - scanned0)%nat with 0%nat by lia; cbn [take omap list_omap length]; rewrite app_nil_r, Nat.add_0_r.
    by rewrite bool_decide_eq_true_2 by lia. }
  replace (200 - scanned0)%nat with (S (200 - S scanned0)) by lia; cbn [take omap list_omap length].
  change (match_of request taskRun) with (matchFor taskRun <$> matchedFields taskRun (Text request)); destruct (matchedFields taskRun (Text request)) as [matchedIn|] eqn:Hm; cbn [fmap option_fmap option_map].
  - assert (Htake : (if Z.of_nat (length (take (Z.to_nat limit) matches0)) <? limit then take (Z.to_nat limit) matches0 ++ [matchFor taskRun matchedIn]
      else take (Z.to_nat limit) matches0) = take (Z.to_nat limit) (matches0 ++ [matchFor taskRun matchedIn])).
    { rewrite length_take; destruct (Z.ltb_spec (Z.of_nat (Z.to_nat limit `min` length matches0)) limit) as [Hlt|Hge].
      - rewrite !take_ge; [done|rewrite length_app; cbn; lia|lia].
      - by rewrite take_app_le by lia. }
    replace (Z.of_nat (length matches0) + 1) with (Z.of_nat (length (matches0 ++ [matchFor taskRun matchedIn]))) by (rewrite length_app; cbn; lia).
    replace (Z.of_nat scanned0 + 1) with (Z.of_nat (S scanned0)) by lia; rewrite Htake, IH by lia; rewrite <- !app_assoc; cbn [app]; f_equal; [lia|].
    apply bool_decide_ext; lia.
  - replace (Z.of_nat scanned0 + 1) with (Z.of_nat (S scanned0)) by lia; rewrite IH by lia; f_equal; [lia|]; apply bool_decide_ext; lia.
Qed.

(** C29. A search is its specification.  A search that names a person gives, of the runs the store has
    for that person in the conversation asked for, in the store's order, the first two hundred;
    of these it counts those that match and gives the first of them up to the limit, and says
    whether there were more of either.  A search that names nobody fails. *)
Theorem searches_are_exact configured request :
  let personID := TrimSpace (RequesterPersonID request) in
  let runs := List.filter (fun taskRun => matchesConversation taskRun (ConversationID request)) (ListTaskRunByPersonID personID) in
  let scanned := take 200 runs in
  let matched := omap (match_of request) scanned in
  let limit := boundedLimit (Limit request) in
  Search configured request =
  if bool_decide (personID = "") then Err NobodyNamed else if negb configured then Err NoStore else
  Ok (MkResult (take (Z.to_nat limit) matched) (Z.of_nat (length matched)) (Z.of_nat (length scanned)) (limit <? Z.of_nat (length matched))
    (bool_decide (200 < length runs)%nat)).
Proof.
  intros personID runs scanned matched limit; unfold Search; fold personID limit; destruct (bool_decide (personID = "")); [done|]; destruct configured; [|done]; cbn [negb].
  assert (Hlimit : 0 < limit <= 100).
  { unfold limit, boundedLimit, defaultLimit, maximumLimit; destruct (Z.leb_spec (Limit request) 0); [lia|]; destruct (Z.ltb_spec 100 (Limit request)); lia. }
  pose proof (scan_exact request limit (ListTaskRunByPersonID personID) ltac:(lia) [] 0%nat ltac:(done)) as Hscan; cbv zeta in Hscan.
  rewrite take_nil in Hscan; change (Z.of_nat (length [])) with 0 in Hscan; change (Z.of_nat 0) with 0 in Hscan; cbn [app] in Hscan; rewrite Hscan; change (200 - 0)%nat with 200%nat; change (0 + ?n)%nat with n; fold runs scanned matched; do 2 f_equal.
  rewrite length_take; destruct (Z.ltb_spec limit (Z.of_nat (length matched))); [apply Z.ltb_lt|apply Z.ltb_ge]; lia.
Qed.

(** What is given matches: it is a run of the person, in the conversation, and with a text, a field or an
    event of it has the text. *)
Lemma match_of_Some request taskRun m : (forall r, visit r ≡ₚ run_fields r) -> match_of request taskRun = Some m -> TrimSpace (Text request) <> "" ->
  TaskRunID m = Run_ID taskRun /\
  ((exists field, field ∈ [Run_Prompt taskRun; Run_Result taskRun; Run_FailureReason taskRun] /\ containsFold field (TrimSpace (Text request)) = true) \/
   exists event, event ∈ ListTaskEvent (Run_ID taskRun) /\ containsFold (Event_Body event) (TrimSpace (Text request)) = true).
Proof.
  intros Hvisit; unfold match_of, matchedFields; intros Hm Ht; rewrite (bool_decide_eq_false_2 _ Ht) in Hm.
  case_bool_decide as Hnil; [done|]; injection Hm as <-; split; [done|].
  destruct (List.filter (fun '(_, field) => containsFold field (TrimSpace (Text request))) (visit taskRun)) as [|[label field] rest] eqn:Hf.
  - right; unfold matchedEventNames in Hnil; destruct (List.filter _ _) as [|event events] eqn:He in Hnil; [by destruct Hnil|].
    assert (Hin : In event (event :: events)) by (by left); rewrite <- He in Hin; apply filter_In in Hin as [Hin Hc]; exists event; by rewrite list_elem_of_In.
  - left; assert (Hin : In (label, field) ((label, field) :: rest)) by (by left); rewrite <- Hf in Hin; apply filter_In in Hin as [Hin Hc]; exists field; split; [|done].
    apply list_elem_of_In in Hin; rewrite Hvisit in Hin; unfold run_fields in Hin; repeat (apply elem_of_cons in Hin as [[= _ ->]|Hin]; [rewrite !elem_of_cons; tauto|]); by apply elem_of_nil in Hin.
Qed.

End search.

(** The names a run matched in are not sorted: they come as they were found. *)
Lemma sortedUnique_keeps_the_order : sortedUnique ["result"; "prompt"; "result"] = ["result"; "prompt"].
Proof. by vm_compute. Qed.
