(* ===== verification/RuntimeControl.v ===== *)
(** * When work is taken ([runtimecontrol/trusted_clock.go], [task_intake.go])

    Work is held while the clock of the machine is not trusted, and while the service is quiesced.
    What the kernel says of its clock, what witnesses answer and what zone the company is in are
    given to each check; a check looks only as far as it has to. *)

From S2P Require Export GoTime GoText.

Open Scope Z_scope.

Definition duration : Type := Z.

Definition witnessAgreementTolerance : duration := 60 * 10 ^ 9.

(** [time.Duration.Abs]. *)
Definition duration_abs (d : duration) : duration := if 0 <=? d then d else if d =? int64_min then int64_max else - d.

(** What a witness answered: how far the clock is from it, or an error. *)
Record witnessReading := MkReading { origin : string; offset : result string duration }.

Record TrustedClock := MkClock {
  witnessOrigins : list string;
  isInstantSettled : bool;
  hasReportedMissingZone : bool;
  trusted : bool;
}.

(** What a check may find. *)
Record surroundings := MkSurroundings {
  kernelDoubtsTheClock : bool;
  read : string -> result string duration;
  (** [CompanyZoneFallbackReason] of the company's zone is empty *)
  zoneIsKnown : bool;
}.

(** ** Witnesses *)

Section witnesses.
(** [url.Parse]: the scheme and the host. *)
Variable parse_url : string -> option (string * string).

Fixpoint origins_of (seen : gset string) (endpoints : list string) : list string :=
  match endpoints with
  | [] => []
  | endpoint :: endpoints =>
    match parse_url (TrimSpace endpoint) with
    | Some (scheme, host) =>
      if negb (bool_decide (scheme = "https")) || bool_decide (host = "") then origins_of seen endpoints else
      let origin := scheme +:+ "://" +:+ host in
      if bool_decide (origin ∈ seen) then origins_of seen endpoints else origin :: origins_of ({[origin]} ∪ seen) endpoints
    | None => origins_of seen endpoints
    end
  end.

Definition witnessOriginsOf (endpoints : list string) : list string := stable_sort str_lt (origins_of ∅ endpoints).

Definition NewTrustedClock (witnessEndpoints : list string) : TrustedClock := MkClock (witnessOriginsOf witnessEndpoints) false false false.

End witnesses.

(** ** Checks *)

Definition IsTrusted (clock : TrustedClock) : bool := trusted clock.

Definition agrees (reading : result string duration) : bool :=
  match reading with Ok offset => duration_abs offset <=? witnessAgreementTolerance | Err _ => false end.

(** The origins are asked in turn, up to one that agrees; the readings of those that did not. *)
Fixpoint ask_witnesses (read : string -> result string duration) (origins : list string) (readings : list witnessReading)
    : list witnessReading * bool :=
  match origins with
  | [] => (readings, false)
  | origin :: origins =>
    if agrees (read origin) then ([], true) else ask_witnesses read origins (readings ++ [MkReading origin (read origin)])%list
  end.

Definition settleInstant (world : surroundings) (clock : TrustedClock) : list witnessReading * bool :=
  if negb (kernelDoubtsTheClock world) then ([], true) else
  if bool_decide (witnessOrigins clock = []) then ([], true) else
  ask_witnesses (read world) (witnessOrigins clock) [].

Definition knowsTheCompanyZone (world : surroundings) (clock : TrustedClock) : TrustedClock * bool :=
  if zoneIsKnown world then (clock, true)
  else (MkClock (witnessOrigins clock) (isInstantSettled clock) true (trusted clock), false).

Definition check (world : surroundings) (clock : TrustedClock) : TrustedClock * (list witnessReading * bool) :=
  let zone clock :=
    let '(clock, isKnown) := knowsTheCompanyZone world clock in
    if negb isKnown then (clock, ([], false))
    else (MkClock (witnessOrigins clock) (isInstantSettled clock) (hasReportedMissingZone clock) true, ([], true)) in
  if isInstantSettled clock then zone clock else
  let '(readings, isSettled) := settleInstant world clock in
  if negb isSettled then (clock, (readings, false))
  else zone (MkClock (witnessOrigins clock) true (hasReportedMissingZone clock) (trusted clock)).

(** [Watch] checks at each tick until a check trusts the clock; it may be cancelled after any of them. *)
Fixpoint Watch (ticks : list surroundings) (clock : TrustedClock) : TrustedClock :=
  match ticks with
  | [] => clock
  | world :: ticks =>
    let '(clock, (_, isTrusted)) := check world clock in
    if (isTrusted : bool) then clock else Watch ticks clock
  end.

(** ** Intake *)

Record TaskIntakeController := MkController { quiesced : bool; controller_clock : option TrustedClock }.

Definition NewTaskIntakeController (clock : option TrustedClock) : TaskIntakeController := MkController false clock.

Definition SetQuiesced (isQuiesced : bool) (controller : TaskIntakeController) : TaskIntakeController :=
  MkController isQuiesced (controller_clock controller).

Definition isWaitingForTheClock (controller : TaskIntakeController) : bool :=
  match controller_clock controller with Some clock => negb (IsTrusted clock) | None => false end.

(** [None]: there is no controller. *)
Definition IsQuiesced (controller : option TaskIntakeController) : bool :=
  match controller with None => false | Some controller => quiesced controller || isWaitingForTheClock controller end.

(** What happens to a controller with a clock. *)
Inductive control_event := Tick (world : surroundings) | Quiesce (isQuiesced : bool).

Definition control_step (controller : TaskIntakeController) (event : control_event) : TaskIntakeController :=
  match event with
  | Tick world => MkController (quiesced controller) ((fun clock => (check world clock).1) <$> controller_clock controller)
  | Quiesce isQuiesced => SetQuiesced isQuiesced controller
  end.

(** ** Work waits for the clock *)

(** What makes the instant of the clock good enough: the kernel does not doubt it, nobody can witness it, or
    a witness agrees within a minute. *)
Definition instant_is_good (origins : list string) (world : surroundings) : Prop :=
  kernelDoubtsTheClock world = false \/ origins = [] \/
  exists origin d, origin ∈ origins /\ read world origin = Ok d /\ - witnessAgreementTolerance <= d <= witnessAgreementTolerance.

Lemma agrees_true reading : agrees reading = true <-> exists d, reading = Ok d /\ - witnessAgreementTolerance <= d <= witnessAgreementTolerance.
Proof.
  unfold agrees, duration_abs, witnessAgreementTolerance, int64_min, int64_max; destruct reading as [d|e]; [|by split; [|intros (? & ? & _)]].
  split; [intros Ha; exists d; split; [done|]|intros (? & [= <-] & Hd)];
    destruct (Z.leb_spec 0 d); [bool_to_prop; lia| |apply Z.leb_le; lia|]; destruct (Z.eqb_spec d (- 2 ^ 63)); bool_to_prop; (apply Z.leb_le || idtac); lia.
Qed.

Lemma ask_witnesses_true read origins readings : (ask_witnesses read origins readings).2 = true <-> exists origin, origin ∈ origins /\ agrees (read origin) = true.
Proof.
  revert readings; induction origins as [|origin origins IH]; intros readings; cbn [ask_witnesses].
  { split; [done|by intros (origin & ?%elem_of_nil & _)]. }
  destruct (agrees (read origin)) eqn:Ha; [split; [|done]; intros _; exists origin; split; [by left|done]|].
  rewrite IH; split; intros (other & Hin & Hag); [exists other; split; [by right|done]|].
  apply elem_of_cons in Hin as [->|Hin]; [congruence|by exists other].
Qed.

Lemma settleInstant_true world clock : (settleInstant world clock).2 = true <-> instant_is_good (witnessOrigins clock) world.
Proof.
  unfold settleInstant, instant_is_good; destruct (kernelDoubtsTheClock world); cbn [negb]; [|split; auto].
  case_bool_decide as Hnone; [split; auto|]; rewrite ask_witnesses_true; split.
  - intros (o & Ho & (d & Hd)%agrees_true); right; right; by exists o, d.
  - intros [?|[?|(o & d & Ho & Hd)]]; [done..|]; exists o; split; [done|]; apply agrees_true; by exists d.
Qed.

(** A check, in its terms. *)
Lemma check_exact world clock : (trusted clock = true -> isInstantSettled clock = true) ->
  let clock' := (check world clock).1 in
  witnessOrigins clock' = witnessOrigins clock /\
  (isInstantSettled clock' = true <-> isInstantSettled clock = true \/ instant_is_good (witnessOrigins clock) world) /\
  (trusted clock' = true <-> trusted clock = true \/ (isInstantSettled clock' = true /\ zoneIsKnown world = true)) /\
  ((check world clock).2.2 = true <-> isInstantSettled clock' = true /\ zoneIsKnown world = true).
Proof.
  intros Hinv; pose proof (settleInstant_true world clock) as Hsettle; destruct clock as [origins settled reported isTrusted]; cbn in Hinv.
  unfold check, knowsTheCompanyZone; cbn [isInstantSettled witnessOrigins hasReportedMissingZone trusted] in *.
  destruct settled; [destruct (zoneIsKnown world); cbn; split_and!; naive_solver|].
  destruct (settleInstant world (MkClock origins false reported isTrusted)) as [readings [|]]; cbn [snd negb] in *.
  - assert (instant_is_good origins world) by (by apply Hsettle); destruct (zoneIsKnown world); cbn; split_and!; naive_solver.
  - assert (~ instant_is_good origins world) by (intros ?; by assert (false = true) by (by apply Hsettle)); cbn; split_and!; naive_solver.
Qed.

(** What is known of the clock after some events. *)
Definition clock_story (origins : list string) (events : list control_event) (controller : TaskIntakeController) : Prop :=
  exists clock, controller_clock controller = Some clock /\ witnessOrigins clock = origins /\
    (isInstantSettled clock = true <-> exists world, Tick world ∈ events /\ instant_is_good origins world) /\
    (trusted clock = true <-> exists before world after, events = (before ++ Tick world :: after)%list /\ zoneIsKnown world = true /\
      exists earlier, Tick earlier ∈ (before ++ [Tick world])%list /\ instant_is_good origins earlier).

Lemma clock_story_step origins events controller event : clock_story origins events controller ->
  clock_story origins (events ++ [event])%list (control_step controller event).
Proof.
  intros (clock & Hc & Ho & Hsettled & Htrusted); destruct event as [world|isQuiesced]; cbn [control_step controller_clock SetQuiesced]; unfold clock_story; cbn [controller_clock].
  - rewrite Hc; cbn [fmap option_fmap option_map]; exists (check world clock).1; split; [done|].
    assert (Hinv : trusted clock = true -> isInstantSettled clock = true).
    { rewrite Hsettled, Htrusted; intros (before & w & after & -> & _ & earlier & Hin & Hg); exists earlier; split; [|done].
      rewrite elem_of_app, list_elem_of_singleton in Hin; rewrite elem_of_app, elem_of_cons; tauto. }
    destruct (check_exact world clock Hinv) as (Ho' & Hs' & Ht' & _); rewrite Ho in *; split; [done|].
    assert (Hs'' : isInstantSettled (check world clock).1 = true <-> exists w, Tick w ∈ (events ++ [Tick world])%list /\ instant_is_good origins w).
    { rewrite Hs', Hsettled; split.
      - intros [(w & Hin & Hg)|Hg]; [exists w|exists world]; rewrite elem_of_app, list_elem_of_singleton; tauto.
      - intros (w & [Hin|[= ->]%list_elem_of_singleton]%elem_of_app & Hg); [left; by exists w|by right]. }
    split; [exact Hs''|]; rewrite Ht', Hs'', Htrusted; split.
    + intros [(before & w & after & -> & Hz & earlier & Hin & Hg)|[(w & Hin & Hg) Hz]].
      * exists before, w, (after ++ [Tick world])%list; split_and!; [by rewrite <- app_assoc|done|by exists earlier].
      * exists events, world, []; split_and!; [done|done|by exists w].
    + intros (before & w & after & Heq & Hz & earlier & Hin & Hg); destruct (decide (after = [])) as [->|Hne].
      * apply app_inj_tail in Heq as [-> [= ->]]; right; split; [by exists earlier|done].
      * left; destruct after as [|last after _] using rev_ind; [done|].
        rewrite app_comm_cons, app_assoc in Heq; apply app_inj_tail in Heq as [-> _]; exists before, w, after; split_and!; [done|done|by exists earlier].
  - exists clock; split; [done|]; split; [done|]; split.
    + rewrite Hsettled; split; intros (w & Hin & Hg); exists w; split; try done; [apply elem_of_app; by left|].
      by apply elem_of_app in Hin as [?|?%list_elem_of_singleton].
    + rewrite Htrusted; split.
      * intros (before & w & after & -> & Hz & Hg); exists before, w, (after ++ [Quiesce isQuiesced])%list; split_and!; [by rewrite <- app_assoc|done|done].
      * intros (before & w & after & Heq & Hz & Hg); destruct after as [|last after _] using rev_ind.
        { apply app_inj_tail in Heq as [_ Heq]; done. }
        rewrite app_comm_cons, app_assoc in Heq; apply app_inj_tail in Heq as [-> _]; by exists before, w, after.
Qed.

(** The last word on quiescing. *)
Definition last_quiesced (events : list control_event) : bool :=
  foldl (fun b event => match event with Tick _ => b | Quiesce isQuiesced => isQuiesced end) false events.

(** C30. Work waits for the clock.  With a clock to wait for, intake is open exactly where it was not quiesced last
    and there was a check at which the company's zone was known and by which, at that check or
    an earlier one, the kernel did not doubt the clock, no witness was to be had, or one agreed
    with it to the minute: so once the clock is trusted only quiescing holds work. *)
Theorem work_waits_for_the_clock origins events :
  let controller := foldl control_step (NewTaskIntakeController (Some (MkClock origins false false false))) events in
  IsQuiesced (Some controller) = false <->
  last_quiesced events = false /\
  exists before world after, events = (before ++ Tick world :: after)%list /\ zoneIsKnown world = true /\
    exists earlier, Tick earlier ∈ (before ++ [Tick world])%list /\ instant_is_good origins earlier.
Proof.
  intros controller.
  assert (Hstory : clock_story origins events controller /\ quiesced controller = last_quiesced events).
  { unfold controller; induction events as [|event events IH] using rev_ind.
    - split; [|done]; exists (MkClock origins false false false); split_and!; [done|done|split; [done|by intros (? & ?%elem_of_nil & _)]|].
      split; [done|intros (before & w & after & Heq & _); by destruct before].
    - unfold last_quiesced in *; rewrite !foldl_app; cbn [foldl]; destruct IH as [Hs Hq]; split; [by apply clock_story_step|].
      destruct event; cbn [control_step quiesced SetQuiesced]; done. }
  destruct Hstory as [(clock & Hc & _ & _ & Htrusted) Hq]; cbn [IsQuiesced]; unfold isWaitingForTheClock, IsTrusted; rewrite Hc, Hq, <- Htrusted.
  destruct (last_quiesced events), (trusted clock); cbn; naive_solver.
Qed.

(** Watching ends at the first check that trusts the clock. *)
Lemma Watch_trusts ticks clock : (trusted clock = true -> isInstantSettled clock = true) -> isInstantSettled clock = true ->
  (exists world, world ∈ ticks /\ zoneIsKnown world = true) -> trusted (Watch ticks clock) = true.
Proof.
  revert clock; induction ticks as [|world ticks IH]; intros clock Hinv Hs; [by intros (? & ?%elem_of_nil & _)|]; intros (known & Hin & Hz); cbn [Watch].
  destruct (check_exact world clock Hinv) as (_ & Hs' & Ht' & He); destruct (check world clock) as [clock' [readings isTrusted]]; cbn [fst snd] in *.
  assert (Hset : isInstantSettled clock' = true) by (apply Hs'; by left); destruct isTrusted.
  - apply Ht'; right; by apply He.
  - apply IH; [done|done|]; apply elem_of_cons in Hin as [<-|Hin]; [|by exists known]; by assert (false = true) by (by apply He).
Qed.
