(* ===== verification/CliHarness.v ===== *)
(** * Turns of agents that are commands ([cliharness/harness.go]), the tokens of their tools
    ([mcpserver/requester_authentication.go]) and what a turn achieved ([turnoutcome])

    A harness runs a program of the company, as the requester, with a token for the tools of the
    requester's turn, and reads what it printed.  The tokens are a table of the service, which other
    turns change meanwhile; processes, files, the model that judges a turn and
    encoding/json are a class. *)

From S2P Require Export TaskRuns GoText.
From S2P Require GoHash.

Open Scope Z_scope.

(** ** Tools that succeeded in a turn, and its verdict *)

Record SucceededToolRecorder := MkRecorder { toolNames : list string; recorded_attachments : list FileAttachment }.

Definition no_tools : SucceededToolRecorder := MkRecorder [] [].

Definition recordToolName (toolName : string) (names : list string) : list string :=
  if bool_decide (toolName ∈ names) then names else (names ++ [toolName])%list.

Definition hasAttachment (attachments : list FileAttachment) (candidate : FileAttachment) : bool :=
  let candidatePath := TrimSpace (DevicePath candidate) in
  bool_decide (candidatePath = "") || existsb (fun attachment => bool_decide (TrimSpace (DevicePath attachment) = candidatePath)) attachments.

Definition recordAttachments (attachments recorded : list FileAttachment) : list FileAttachment :=
  foldl (fun recorded attachment => if hasAttachment recorded attachment then recorded else (recorded ++ [attachment])%list) recorded attachments.

(** A tool that was called: its name, its attachments, whether it succeeded. *)
Record Observation := MkObservation { Observed_Tool : string; Observed_Attachments : list FileAttachment; isSucceeded : bool }.

Definition Observe (recorder : SucceededToolRecorder) (observation : Observation) : SucceededToolRecorder :=
  if negb (isSucceeded observation) then recorder else
  MkRecorder (recordToolName (Observed_Tool observation) (toolNames recorder))
    (recordAttachments (Observed_Attachments observation) (recorded_attachments recorder)).

Record Verdict := MkVerdict { Verdict_Status : TaskStatus; Reason : string }.

Definition statusForOutcome (outcome : string) : option TaskStatus :=
  let outcome := TrimSpace outcome in
  if bool_decide (outcome = "completed") then Some TaskStatusCompleted else
  if bool_decide (outcome = "failed") then Some TaskStatusFailed else
  if bool_decide (outcome = "blocked") then Some TaskStatusBlocked else None.

Definition classificationSubject (prompt finishMessage : string) (calledToolNames : list string) : string :=
  let toolSummary := if bool_decide (calledToolNames = []) then "none" else Join ", " calledToolNames in
  Join nl ["The task the person asked for:"; TrimSpace prompt; ""; "Tools the runtime observed the agent run:"; toolSummary; "";
    "The agent's final message:"; TrimSpace finishMessage].

(** ** Tokens *)

Record HarnessSession := MkHarnessSession { HarnessName : string; SessionID : string; IsResumable : bool }.

Record RequesterToolSet := MkRequesterToolSet {
  RequesterPersonID : string;
  ToolSet_TaskRunID : string;
  hasToolSet : bool;
  ToolSet_HarnessSession : HarnessSession;
  ToolSet_ResponseLanguage : string;
  ToolSet_Prompt : string;
}.

Definition Tokens : Type := gmap string RequesterToolSet.

(** [newSessionToken] draws a token; it is asked only for a requester with a tool set. *)
Definition GrantSessionToken {World} (newSessionToken : World -> World * string) (requesterToolSet : RequesterToolSet) (toolSetByToken : Tokens) (w : World)
    : World * Tokens * result string string :=
  if blank (RequesterPersonID requesterToolSet) || negb (hasToolSet requesterToolSet)
  then (w, toolSetByToken, Err "a tool catalog session needs both a requester and a tool set")
  else let '(w, sessionToken) := newSessionToken w in (w, <[sessionToken := requesterToolSet]> toolSetByToken, Ok sessionToken).

Definition RevokeSessionToken (sessionToken : string) (toolSetByToken : Tokens) : Tokens := delete sessionToken toolSetByToken.

(** [None] is [ErrUnauthenticatedRequester]. *)
Definition ResolveRequester (bearerToken : string) (toolSetByToken : Tokens) : option RequesterToolSet := toolSetByToken !! TrimSpace bearerToken.

Definition bearerTokenFromRequest `{UnicodeTables} (authorization : string) : string :=
  let authorization := TrimSpace authorization in
  if negb (HasPrefix (ToLower authorization) "bearer ") then "" else TrimSpace (slice 7 (String.length authorization) authorization).

(** Whose tools a request is served; [None]: it is challenged. *)
Definition NewToolCatalogHandler `{UnicodeTables} (authorization : string) (toolSetByToken : Tokens) : option RequesterToolSet :=
  ResolveRequester (bearerTokenFromRequest authorization) toolSetByToken.

(** ** Commands of agents *)

Definition toolCatalogServerName : string := "blueclaw".
Definition toolCatalogTokenEnvironmentName : string := "BLUECLAW_TOOL_CATALOG_TOKEN".
Definition antigravityHeadlessPermissionFlag : string := "--dangerously-skip-permissions".

(** A line an agent prints, of those the code reads. *)
Inductive CodexEvent := ThreadStarted (thread_id : string) | AgentMessage (text : string) | OtherEvent.

(** encoding/json and [strconv.Quote] on what the harness reads and writes. *)
Class AgentDocuments := {
  Quote : string -> string;
  decode_codex_event : string -> option CodexEvent;
  decode_antigravity : string -> option (string * string);
  decode_verdict : string -> option (string * string);
  antigravity_document : string -> string -> string;
}.

Record AgentCommand := MkAgentCommand {
  Path : string;
  Command_HarnessName : string;
  SessionArguments : option (string -> bool -> list string);
  RequiresCapturedSessionIdentity : bool;
  ParseAgentOutput : option (string -> string * string);
  PromptArguments : list string;
  ToolCatalogArguments : option (string -> list string);
  ToolCatalogInlineArguments : option (string -> string -> list (string * string) -> list string);
  Trust_Arguments : list string;
  Trust_ServerSettings : list (string * string);
  PromptArgumentsWithPrompt : option (string -> list string);
  ToolCatalogWorkspaceFile : option (string -> string -> string * string);
  Environment : list string;
}.

Definition ClaudeCodeAgentCommand (commandPath : string) : AgentCommand :=
  MkAgentCommand commandPath "claude-code"
    (Some (fun sessionID (isResuming : bool) => if isResuming then ["--resume"; sessionID] else ["--session-id"; sessionID])) false None
    ["--print"; "--strict-mcp-config"] (Some (fun path => ["--mcp-config"; path])) None
    ["--allowedTools"; "mcp__" +:+ toolCatalogServerName] [] None None [].

Section commands.
Context `{AgentDocuments}.

(** The last thread that was started and the last message, of the lines that are JSON. *)
Definition read_codex_line (read : string * string) (outputLine : string) : string * string :=
  let trimmedLine := TrimSpace outputLine in
  if bool_decide (trimmedLine = "") then read else
  match decode_codex_event trimmedLine with
  | Some (ThreadStarted threadID) => (read.1, threadID)
  | Some (AgentMessage messageText) => (messageText, read.2)
  | Some OtherEvent | None => read
  end.

Definition parseCodexAgentOutput (standardOutput : string) : string * string :=
  let '(finishMessage, capturedSessionIdentity) := foldl read_codex_line ("", "") (Split standardOutput newline) in
  (if bool_decide (finishMessage = "") then TrimSpace standardOutput else finishMessage, capturedSessionIdentity).

Definition parseAntigravityAgentOutput (standardOutput : string) : string * string :=
  match decode_antigravity (TrimSpace standardOutput) with
  | None => (TrimSpace standardOutput, "")
  | Some (conversationID, response) =>
    let finishMessage := TrimSpace response in
    (if bool_decide (finishMessage = "") then TrimSpace standardOutput else finishMessage, conversationID)
  end.

(** The settings come in the order of their names. *)
Definition codex_inline_arguments (endpointURL bearerTokenEnvironmentName : string) (serverSettings : list (string * string)) : list string :=
  let fields := ["url=" +:+ Quote endpointURL; "bearer_token_env_var=" +:+ Quote bearerTokenEnvironmentName] in
  let settings := (fun '(name, value) => name +:+ "=" +:+ value) <$> stable_sort (fun x y => str_lt x.1 y.1) serverSettings in
  ["-c"; "mcp_servers." +:+ toolCatalogServerName +:+ "={" +:+ Join "," (fields ++ settings) +:+ "}"].

Definition CodexAgentCommand (commandPath : string) : AgentCommand :=
  MkAgentCommand commandPath "codex" (Some (fun sessionID (isResuming : bool) => if isResuming then ["resume"; sessionID] else [])) true
    (Some parseCodexAgentOutput) ["exec"; "--json"; "--sandbox"; "read-only"; "--skip-git-repo-check"] (Some (fun _ => [])) (Some codex_inline_arguments)
    [] [("default_tools_approval_mode", Quote "approve")] None None [].

Definition AntigravityAgentCommand (commandPath : string) : AgentCommand :=
  MkAgentCommand commandPath "antigravity" (Some (fun sessionID (isResuming : bool) => if isResuming then ["--conversation"; sessionID] else [])) true
    (Some parseAntigravityAgentOutput) ["--output-format"; "json"; "--new-project"; antigravityHeadlessPermissionFlag] None None [] []
    (Some (fun prompt => ["-p"; prompt]))
    (Some (fun endpointURL bearerToken => (".agents/mcp_config.json", antigravity_document endpointURL bearerToken))) [].

Definition parseVerdict (responseContent : string) : result string Verdict :=
  match decode_verdict responseContent with
  | None => Err "invalid JSON"
  | Some (outcome, reason) =>
    match statusForOutcome outcome with
    | None => Err ("the outcome classifier answered with an unknown outcome " +:+ outcome)
    | Some status => Ok (MkVerdict status (TrimSpace reason))
    end
  end.

(** The classifier of a harness: what its model answers to a subject, if one is configured. *)
Definition Classify (languageModelProvider : option (string -> result string string)) (prompt finishMessage : string) (calledToolNames : list string)
    : result string Verdict :=
  match languageModelProvider with
  | None => Err "no outcome classifier is configured, so this harness cannot report whether a task succeeded"
  | Some provider => content ← provider (classificationSubject prompt finishMessage calledToolNames); parseVerdict content
  end.

End commands.

(** ** Sessions of a conversation *)

(** [digest[:16]] with the version and the variant of a random UUID, in its dashes. *)
Definition formatDigestAsUUID (digest : list Z) : string :=
  let mark i b := if (i =? 6)%nat then Z.lor (Z.land b 15) 64 else if (i =? 8)%nat then Z.lor (Z.land b 63) 128 else b in
  let encoded := of_bytes (GoHash.EncodeToString (imap mark (take 16 digest))) in
  slice 0 8 encoded +:+ "-" +:+ slice 8 12 encoded +:+ "-" +:+ slice 12 16 encoded +:+ "-" +:+ slice 16 20 encoded +:+ "-" +:+ slice 20 32 encoded.

Definition harnessSessionIdentity (identityKey : string) : string := formatDigestAsUUID (GoHash.Sum256 (bytes_of identityKey)).

Record conversationState := MkConversation { hasStartedTurn : bool; capturedSessionID : string }.

Definition Conversations : Type := gmap string conversationState.

Definition hasConversationStarted (identityKey : string) (states : Conversations) : bool :=
  match states !! identityKey with Some state => hasStartedTurn state | None => false end.

Definition capturedSessionIdentity (identityKey : string) (states : Conversations) : string :=
  match states !! identityKey with Some state => capturedSessionID state | None => "" end.

Definition harnessSessionForTurn (agentCommand : AgentCommand) (identityKey : string) (states : Conversations) : HarnessSession :=
  match SessionArguments agentCommand with
  | None => MkHarnessSession (Command_HarnessName agentCommand) "" false
  | Some _ =>
    if RequiresCapturedSessionIdentity agentCommand then
      let captured := capturedSessionIdentity identityKey states in
      if bool_decide (captured = "") then MkHarnessSession (Command_HarnessName agentCommand) "" false
      else MkHarnessSession (Command_HarnessName agentCommand) captured true
    else MkHarnessSession (Command_HarnessName agentCommand) (harnessSessionIdentity identityKey) true
  end.

Definition completeTurn (agentCommand : AgentCommand) (identityKey rawOutput : string) (states : Conversations) : Conversations * string :=
  let '(finishMessage, captured) := match ParseAgentOutput agentCommand with Some parse => parse rawOutput | None => (TrimSpace rawOutput, "") end in
  let state := default (MkConversation false "") (states !! identityKey) in
  (<[identityKey := MkConversation true (if bool_decide (captured = "") then capturedSessionID state else captured)]> states, finishMessage).

(** ** A turn *)

Record AgentTurnRequest := MkTurn {
  Turn_RequesterPersonID : string;
  ExistingTaskRunID : string;
  Turn_ConversationID : string;
  TurnStartedAt : instant;
  Turn_hasToolSet : bool;
  ResponseLanguage : string;
  Prompt : string;
  Turn_WorkspaceRootPath : string;
  IsRuntimeRestartResume : bool;
}.

(** The command an actor is asked to run, as far as a harness sets it. *)
Record AgentRun := MkAgentRun {
  Run_ExecutableName : string;
  Run_Arguments : list string;
  Run_Stdin : string;
  Run_WorkingDirectoryPath : string;
  Run_Environment : list string;
  Run_TimeoutSecond : Z;
  Run_OutputMaximumBytes : Z;
}.

(** Who a process runs as: the requester's actor, or the service. *)
Inductive RunsAs (Actor : Type) := AsRequester (actor : Actor) | AsService.
Arguments AsRequester {Actor}. Arguments AsService {Actor}.

(** What the turn of an agent did: the tools it called, and an error, its exit code and what it printed. *)
Record AgentRan := MkAgentRan { Observed : list Observation; Ran_Error : option string; Ran_ExitCode : Z; Ran_Stdout : string; Ran_Stderr : string }.

Class AgentHost (World : Type) := {
  host_documents :: AgentDocuments;
  Actor : Type;
  newSessionToken : World -> World * string;
  (** a temporary file of the service: the catalog's address and its token *)
  writeToolCatalogConfiguration : string -> string -> World -> World * result string string;
  Remove : string -> World -> World;
  (** a directory and a file in it *)
  write_file : RunsAs Actor -> string -> string -> World -> World * option string;
  run_agent : RunsAs Actor -> AgentRun -> World -> World * AgentRan;
  (** what other turns do to the tokens while this one runs *)
  other_turns : Tokens -> Tokens;
  (** [filepath.Join] of the root of a workspace and a path *)
  workspace_file : string -> string -> string;
  format_instant : instant -> string;
  Preamble : AgentTurnRequest -> string;
  declinedCallNote : option (string -> World -> string);
  FindTaskRun : option (string -> World -> option TaskRun);
}.

Record TurnOutcome := MkTurnOutcome { Outcome_TaskRun : TaskRun; Outcome_FinishMessage : string; Outcome_Attachments : list FileAttachment }.

Section turns.
Context {World : Type} `{AgentHost World}.

(** A harness: its command, the address its publisher names, who finds the requester's actor, of a person and the
    root of a workspace, that root, and the model that judges its turns. *)
Record Harness := MkHarness {
  harness_agentCommand : AgentCommand;
  toolCatalogURL : string;
  requesterProcessRunner : option (string -> string -> World -> World * result string Actor);
  harness_workspaceRootPath : string;
  outcomeClassifier : option (string -> result string string);
  agentTimeoutSecond : Z;
}.

Definition New (agentCommand : AgentCommand) (endpointURL : string) : Harness := MkHarness agentCommand endpointURL None "" None 600.

Definition UseOutcomeClassifier (classifier : option (string -> result string string)) (harness : Harness) : Harness :=
  MkHarness (harness_agentCommand harness) (toolCatalogURL harness) (requesterProcessRunner harness) (harness_workspaceRootPath harness) classifier
    (agentTimeoutSecond harness).

Definition UseRequesterProcessRunner (runner : string -> string -> World -> World * result string Actor) (workspaceRootPath : string) (harness : Harness) : Harness :=
  MkHarness (harness_agentCommand harness) (toolCatalogURL harness) (Some runner) workspaceRootPath (outcomeClassifier harness) (agentTimeoutSecond harness).

Variable (harness : Harness).
Abbreviation agentCommand := (harness_agentCommand harness).
Abbreviation endpointURL := (toolCatalogURL harness).

(** The tokens of the service, the conversations of the harness, and the host. *)
Record TurnWorld := MkTurnWorld { tokens : Tokens; conversations : Conversations; outside : World }.

Definition conversationIdentityKey (request : AgentTurnRequest) : string :=
  let seed := TrimSpace (ExistingTaskRunID request) in
  if bool_decide (seed = "")
  then TrimSpace (Turn_RequesterPersonID request) +:+ "|" +:+ TrimSpace (Turn_ConversationID request) +:+ "|" +:+ format_instant (TurnStartedAt request)
  else seed.

Definition isResumingTurn (request : AgentTurnRequest) (identityKey : string) (states : Conversations) : bool :=
  if IsRuntimeRestartResume request then true else hasConversationStarted identityKey states.

Definition promptForTurn (request : AgentTurnRequest) (w : World) : string :=
  let preamble := Preamble request in
  let sections := if bool_decide (preamble = "") then [] else [preamble] in
  let note := match declinedCallNote with Some note => if blank (ExistingTaskRunID request) then "" else note (ExistingTaskRunID request) w | None => "" end in
  Join (nl +:+ nl) (sections ++ [Prompt request] ++ if bool_decide (note = "") then [] else [note])%list.

Definition outcomeForEndedTurn (request : AgentTurnRequest) (finishMessage : string) (succeededToolNames : list string) : TaskStatus * string :=
  match outcomeClassifier harness with
  | None => (TaskStatusCompleted, "")
  | Some _ =>
    match Classify (outcomeClassifier harness) (Prompt request) finishMessage succeededToolNames with
    | Err e => (TaskStatusFailed, "the runtime could not determine what this turn achieved: " +:+ e)
    | Ok verdict => (Verdict_Status verdict, Reason verdict)
    end
  end.

Definition turnResult (request : AgentTurnRequest) (finishMessage : string) (recorder : SucceededToolRecorder) (w : World) : TurnOutcome :=
  let '(taskStatus, failureReason) := outcomeForEndedTurn request finishMessage (toolNames recorder) in
  let taskRun := MkTaskRun "" "" taskStatus zero_time "" "" failureReason "" "" false in
  let taskRun := match FindTaskRun with
    | Some find => if blank (ExistingTaskRunID request) then taskRun else default taskRun (find (ExistingTaskRunID request) w)
    | None => taskRun
    end in
  MkTurnOutcome taskRun finishMessage (recorded_attachments recorder).

Definition writeToolCatalogWorkspaceFile (who : RunsAs Actor) (request : AgentTurnRequest) (bearerToken : string) (w : World) : World * option string :=
  match ToolCatalogWorkspaceFile agentCommand with
  | None => (w, None)
  | Some file =>
    let '(relativePath, document) := file endpointURL bearerToken in
    write_file who (workspace_file (Turn_WorkspaceRootPath request) relativePath) document w
  end.

Definition turn_arguments (request : AgentTurnRequest) (identityKey : string) (harnessSession : HarnessSession) (states : Conversations)
    (configurationPath prompt : string) : list string :=
  let arguments := (PromptArguments agentCommand ++ Trust_Arguments agentCommand)%list in
  let arguments := (arguments ++ match SessionArguments agentCommand with
    | Some session => if IsResumable harnessSession then session (SessionID harnessSession) (isResumingTurn request identityKey states) else []
    | None => []
    end)%list in
  let arguments := (arguments ++ match ToolCatalogArguments agentCommand with
    | Some catalog => if bool_decide (configurationPath = "") then [] else catalog configurationPath
    | None => []
    end)%list in
  let arguments := (arguments ++ match ToolCatalogInlineArguments agentCommand with
    | Some inline => inline endpointURL toolCatalogTokenEnvironmentName (Trust_ServerSettings agentCommand)
    | None => []
    end)%list in
  (arguments ++ match PromptArgumentsWithPrompt agentCommand with Some with_prompt => with_prompt prompt | None => [] end)%list.

(** The program, once it is to be run as somebody: its end, or the error of the turn. *)
Definition finish_run (who : RunsAs Actor) (request : AgentTurnRequest) (identityKey : string) (run : AgentRun) (w : TurnWorld)
    : TurnWorld * result string TurnOutcome :=
  let '(outside, ran) := run_agent who run (outside w) in
  let w := MkTurnWorld (other_turns (tokens w)) (conversations w) outside in
  let failed := match who, Ran_Error ran with
    | AsRequester _, Some e => Some e
    | AsRequester _, None => if Ran_ExitCode ran =? 0 then None else Some (TrimSpace (Ran_Stderr ran))
    | AsService, Some e => Some (TrimSpace (Ran_Stderr ran) +:+ " (" +:+ e +:+ ")")
    | AsService, None => None
    end in
  match failed with
  | Some e => (w, Err e)
  | None =>
    let '(states, finishMessage) := completeTurn agentCommand identityKey (Ran_Stdout ran) (conversations w) in
    let recorder := foldl Observe no_tools (Observed ran) in
    (MkTurnWorld (tokens w) states outside, Ok (turnResult request finishMessage recorder outside))
  end.

Definition runAsRequester (requester : string -> string -> World -> World * result string Actor) (request : AgentTurnRequest) (identityKey : string)
    (arguments : list string) (agentStandardInput bearerToken : string) (w : TurnWorld) : TurnWorld * result string TurnOutcome :=
  let workspaceRootPath := if blank (harness_workspaceRootPath harness) then Turn_WorkspaceRootPath request else harness_workspaceRootPath harness in
  let '(host, found) := requester (Turn_RequesterPersonID request) workspaceRootPath (outside w) in
  match found with
  | Err e => (MkTurnWorld (tokens w) (conversations w) host, Err e)
  | Ok actor =>
    let '(host, failed) := writeToolCatalogWorkspaceFile (AsRequester actor) request bearerToken host in
    let w := MkTurnWorld (tokens w) (conversations w) host in
    match failed with
    | Some e => (w, Err e)
    | None => finish_run (AsRequester actor) request identityKey
        (MkAgentRun (Path agentCommand) arguments agentStandardInput (Turn_WorkspaceRootPath request) [] (agentTimeoutSecond harness) (2 ^ 20)) w
    end
  end.

Definition runAsService (request : AgentTurnRequest) (identityKey : string) (arguments : list string) (agentStandardInput bearerToken : string)
    (w : TurnWorld) : TurnWorld * result string TurnOutcome :=
  let '(host, failed) := writeToolCatalogWorkspaceFile AsService request bearerToken (outside w) in
  let w := MkTurnWorld (tokens w) (conversations w) host in
  match failed with
  | Some e => (w, Err e)
  | None => finish_run AsService request identityKey
      (MkAgentRun (Path agentCommand) arguments agentStandardInput (Turn_WorkspaceRootPath request)
        (Environment agentCommand ++ [toolCatalogTokenEnvironmentName +:+ "=" +:+ bearerToken]) 0 0) w
  end.

(** What is done with the token that was granted, up to where it is revoked. *)
Definition with_token (request : AgentTurnRequest) (identityKey : string) (harnessSession : HarnessSession) (bearerToken : string) (w : TurnWorld)
    : TurnWorld * result string TurnOutcome :=
  let run configurationPath w :=
    let agentPrompt := promptForTurn request (outside w) in
    let arguments := turn_arguments request identityKey harnessSession (conversations w) configurationPath agentPrompt in
    let agentStandardInput := match PromptArgumentsWithPrompt agentCommand with Some _ => "" | None => agentPrompt end in
    match requesterProcessRunner harness with
    | Some requester => runAsRequester requester request identityKey arguments agentStandardInput bearerToken w
    | None => runAsService request identityKey arguments agentStandardInput bearerToken w
    end in
  match ToolCatalogWorkspaceFile agentCommand with
  | Some _ => run "" w
  | None =>
    let '(host, written) := writeToolCatalogConfiguration endpointURL bearerToken (outside w) in
    let w := MkTurnWorld (tokens w) (conversations w) host in
    match written with
    | Err e => (w, Err e)
    | Ok configurationPath =>
      let '(w, ended) := run configurationPath w in
      (MkTurnWorld (tokens w) (conversations w) (Remove configurationPath (outside w)), ended)
    end
  end.

Definition published_tool_set (request : AgentTurnRequest) (harnessSession : HarnessSession) : RequesterToolSet :=
  MkRequesterToolSet (Turn_RequesterPersonID request) (ExistingTaskRunID request) (Turn_hasToolSet request) harnessSession (ResponseLanguage request) (Prompt request).

Definition RunTurn (request : AgentTurnRequest) (w : TurnWorld) : TurnWorld * result string TurnOutcome :=
  if blank (Path agentCommand) then (w, Err "cli harness needs an agent command to run") else
  if blank (Turn_RequesterPersonID request) then (w, Err "cli harness refuses a turn with no requester, because tools execute as the requester") else
  let identityKey := conversationIdentityKey request in
  let harnessSession := harnessSessionForTurn agentCommand identityKey (conversations w) in
  let '(host, granted, publish) := GrantSessionToken newSessionToken (published_tool_set request harnessSession) (tokens w) (outside w) in
  let w := MkTurnWorld granted (conversations w) host in
  match publish with
  | Err e => (w, Err e)
  | Ok bearerToken =>
    let '(w, ended) := with_token request identityKey harnessSession bearerToken w in
    (MkTurnWorld (RevokeSessionToken bearerToken (tokens w)) (conversations w) (outside w), ended)
  end.

End turns.

(** ** What a recorder keeps *)

Lemma recordToolName_elem name names other : other ∈ recordToolName name names <-> other = name \/ other ∈ names.
Proof. unfold recordToolName; case_bool_decide; [split; [by right|by intros [->|?]]|rewrite elem_of_app, list_elem_of_singleton; tauto]. Qed.

(** The tools that succeeded, each once. *)
Lemma recorders_keep_what_succeeded observations :
  NoDup (toolNames (foldl Observe no_tools observations)) /\
  forall name, name ∈ toolNames (foldl Observe no_tools observations) <->
    exists observation, observation ∈ observations /\ isSucceeded observation = true /\ Observed_Tool observation = name.
Proof.
  induction observations as [|o observations IH] using rev_ind; [split; [constructor|]; intros name; split; [by intros ?%elem_of_nil|by intros (? & ?%elem_of_nil & _)]|].
  rewrite foldl_app; cbn [foldl]; destruct IH as [Hnd Hin]; unfold Observe; destruct (isSucceeded o) eqn:Hs; cbn [negb toolNames].
  - split.
    + unfold recordToolName; case_bool_decide as Hnew; [done|]; apply NoDup_app; split_and!; [done|by intros x Hx ->%list_elem_of_singleton|apply NoDup_singleton].
    + intros name; rewrite recordToolName_elem, Hin; split.
      * intros [->|(p & Hp & Hrest)]; [exists o; rewrite elem_of_app, list_elem_of_singleton; auto|exists p; rewrite elem_of_app; tauto].
      * intros (p & [Hp| ->%list_elem_of_singleton]%elem_of_app & Hps & Hn); [right; by exists p|by left].
  - split; [done|]; intros name; rewrite Hin; split; intros (p & Hp & Hps & Hn); exists p; split; try done; [apply elem_of_app; by left|].
    apply elem_of_app in Hp as [Hp| ->%list_elem_of_singleton]; [done|congruence].
Qed.

(** A verdict is one of three. *)
Lemma verdicts_are_known `{AgentDocuments} provider prompt finishMessage names verdict : Classify provider prompt finishMessage names = Ok verdict ->
  Verdict_Status verdict ∈ [TaskStatusCompleted; TaskStatusFailed; TaskStatusBlocked].
Proof.
  unfold Classify, parseVerdict, statusForOutcome; destruct provider as [provider|]; [|done]; intros Hc; apply bind_Ok in Hc as (content & _ & Hc).
  destruct (decode_verdict content) as [[outcome reason]|]; [|done]; cbv zeta in Hc.
  repeat case_bool_decide; try done; injection Hc as <-; cbn; rewrite !elem_of_cons; auto.
Qed.

(** ** A turn runs as its requester, and its token ends with it *)

(** Who runs what is recorded, and nothing else runs anything. *)
Class AgentLaws (World : Type) `{AgentHost World} := {
  runs : World -> list (RunsAs Actor * AgentRun);
  run_is_recorded : forall who run w, runs (run_agent who run w).1 = (runs w ++ [(who, run)])%list;
  token_runs_nothing : forall w, runs (newSessionToken w).1 = runs w;
  configuration_runs_nothing : forall url token w, runs (writeToolCatalogConfiguration url token w).1 = runs w;
  remove_runs_nothing : forall path w, runs (Remove path w) = runs w;
  file_runs_nothing : forall who path document w, runs (write_file who path document w).1 = runs w;
}.

Section turn_laws.
Context {World : Type} `{AgentLaws World}.
Variable (harness : Harness (World := World)).
Abbreviation agentCommand := (harness_agentCommand harness).
Abbreviation endpointURL := (toolCatalogURL harness).

(** Finding the actor of a person runs nothing. *)
Definition runs_nothing (requester : string -> string -> World -> World * result string Actor) : Prop :=
  forall person root w, runs (requester person root w).1 = runs w.

(** At most one run, of the agent's program in the workspace of the turn, as the actor that was found for who asks. *)
Definition only_the_requester (requester : string -> string -> World -> World * result string Actor) (request : AgentTurnRequest) (before after : World) : Prop :=
  exists made, runs after = (runs before ++ made)%list /\
  match made with
  | [] => True
  | [(AsRequester actor, run)] => Run_ExecutableName run = Path agentCommand /\ Run_WorkingDirectoryPath run = Turn_WorkspaceRootPath request /\
      exists host, (requester (Turn_RequesterPersonID request)
        (if blank (harness_workspaceRootPath harness) then Turn_WorkspaceRootPath request else harness_workspaceRootPath harness) host).2 = Ok actor
  | _ => False
  end.

Lemma nothing_run requester request before after : runs after = runs before -> only_the_requester requester request before after.
Proof. intros Heq; exists []; by rewrite app_nil_r. Qed.

Lemma finish_run_runs who request identityKey run w :
  runs (outside (finish_run harness who request identityKey run w).1) = (runs (outside w) ++ [(who, run)])%list.
Proof.
  unfold finish_run; pose proof (run_is_recorded who run (outside w)) as Hr; destruct (run_agent who run (outside w)) as [host ran]; cbn [fst] in Hr.
  destruct (match who, Ran_Error ran with AsRequester _, Some e => Some e | AsRequester _, None => _ | AsService, Some e => _ | AsService, None => None end) as [e|]; [exact Hr|].
  destruct (completeTurn _ _ _ _); exact Hr.
Qed.

Lemma file_runs_nothing' who request bearerToken w : runs (writeToolCatalogWorkspaceFile harness who request bearerToken w).1 = runs w.
Proof. unfold writeToolCatalogWorkspaceFile; destruct (ToolCatalogWorkspaceFile agentCommand) as [file|]; [|done]; destruct (file endpointURL bearerToken); apply file_runs_nothing. Qed.

Lemma runAsRequester_runs requester request identityKey arguments input bearerToken w : runs_nothing requester ->
  only_the_requester requester request (outside w) (outside (runAsRequester harness requester request identityKey arguments input bearerToken w).1).
Proof.
  intros Hquiet; unfold runAsRequester; set (root := if blank (harness_workspaceRootPath harness) then _ else _).
  pose proof (Hquiet (Turn_RequesterPersonID request) root (outside w)) as Hr.
  destruct (requester (Turn_RequesterPersonID request) root (outside w)) as [host [actor|e]] eqn:Hactor; cbn [fst snd] in *; [|by apply nothing_run].
  pose proof (file_runs_nothing' (AsRequester actor) request bearerToken host) as Hf.
  destruct (writeToolCatalogWorkspaceFile _ _ _ _ host) as [host' [e|]]; cbn [fst] in Hf; [apply nothing_run; cbn; congruence|].
  eexists; rewrite finish_run_runs; cbn [outside]; rewrite Hf, Hr; split; [done|]; cbn; split_and!; [done|done|]; exists (outside w); by fold root; rewrite Hactor.
Qed.

Lemma with_token_runs requester request identityKey harnessSession bearerToken w : requesterProcessRunner harness = Some requester -> runs_nothing requester ->
  only_the_requester requester request (outside w) (outside (with_token harness request identityKey harnessSession bearerToken w).1).
Proof.
  intros Hreq Hquiet; unfold with_token; rewrite Hreq; destruct (ToolCatalogWorkspaceFile agentCommand); [by apply runAsRequester_runs|].
  pose proof (configuration_runs_nothing endpointURL bearerToken (outside w)) as Hc.
  destruct (writeToolCatalogConfiguration endpointURL bearerToken (outside w)) as [host [path|e]]; cbn [fst] in Hc; [|by apply nothing_run].
  set (arguments := turn_arguments _ _ _ _ _ _ _); set (input := match PromptArgumentsWithPrompt agentCommand with Some _ => _ | None => _ end).
  pose proof (runAsRequester_runs requester request identityKey arguments input bearerToken (MkTurnWorld (tokens w) (conversations w) host) Hquiet) as Hr.
  destruct (runAsRequester _ _ _ _ _ _ _ _) as [w' ended]; cbn [fst outside] in *; destruct Hr as (made & Hm & Hmade).
  exists made; rewrite remove_runs_nothing, Hm, Hc; by split.
Qed.

Lemma RunTurn_runs requester request w : requesterProcessRunner harness = Some requester -> runs_nothing requester ->
  only_the_requester requester request (outside w) (outside (RunTurn harness request w).1).
Proof.
  intros Hreq Hquiet; unfold RunTurn; destruct (blank (Path agentCommand)); [by apply nothing_run|].
  destruct (blank (Turn_RequesterPersonID request)) eqn:Hb; [by apply nothing_run|].
  set (harnessSession := harnessSessionForTurn _ _ _); unfold GrantSessionToken; cbn [published_tool_set RequesterPersonID hasToolSet]; rewrite Hb; cbn [orb].
  destruct (Turn_hasToolSet request); cbn [negb]; [|by apply nothing_run].
  pose proof (token_runs_nothing (outside w)) as Ht; destruct (newSessionToken (outside w)) as [host token]; cbn [fst snd] in *.
  set (w1 := MkTurnWorld _ _ host); pose proof (with_token_runs requester request (conversationIdentityKey request) harnessSession token w1 Hreq Hquiet) as Hr.
  destruct (with_token _ _ _ _ _ w1) as [w2 ended]; cbn [fst outside w1] in *; destruct Hr as (made & Hm & Hmade); exists made; cbn [outside]; rewrite Hm, Ht; by split.
Qed.

(** A turn runs as its requester, and its token ends with it.  Where the processes of requesters are
    configured, a turn runs the program of the agent at most once, as the actor of the person who asked and in the
    workspace of the turn; the token it was granted for the tools of that person is gone when the
    turn ends, however it ends and whatever other turns did; and a turn of nobody runs nothing and
    is granted nothing. *)
Theorem turns_run_as_their_requester requester request w : requesterProcessRunner harness = Some requester -> runs_nothing requester ->
  let '(w', ended) := RunTurn harness request w in
  only_the_requester requester request (outside w) (outside w') /\
  (w' = w \/ tokens w' = tokens w /\ Turn_hasToolSet request = false \/ tokens w' !! (newSessionToken (outside w)).2 = None) /\
  (blank (Turn_RequesterPersonID request) = true -> w' = w /\ exists e, ended = Err e).
Proof.
  intros Hreq Hquiet; pose proof (RunTurn_runs requester request w Hreq Hquiet) as Hruns; revert Hruns; unfold RunTurn; destruct (blank (Path agentCommand)).
  { intros Hruns; split_and!; [done|by left|by split; [|eexists]]. }
  destruct (blank (Turn_RequesterPersonID request)) eqn:Hb.
  { intros Hruns; split_and!; [done|by left|by split; [|eexists]]. }
  set (harnessSession := harnessSessionForTurn _ _ _); unfold GrantSessionToken; cbn [published_tool_set RequesterPersonID hasToolSet]; rewrite Hb; cbn [orb].
  destruct (Turn_hasToolSet request) eqn:Htools; cbn [negb].
  - destruct (newSessionToken (outside w)) as [host token]; cbn [fst snd] in *.
    destruct (with_token _ _ _ _ _ _) as [w2 ended]; intros Hruns; split_and!; [done|by right; right; apply lookup_delete_eq|done].
  - intros Hruns; split_and!; [done|right; left; by split|done].
Qed.

Lemma longer_runs {A} (l : list A) x : l <> (l ++ [x])%list.
Proof. intros Hnil; apply (f_equal length) in Hnil; rewrite length_app in Hnil; cbn in Hnil; lia. Qed.

(** An agent that runs as a requester is given no variable, so none that carries its token. *)
Lemma requesters_agents_get_no_token requester request identityKey arguments input bearerToken w : runs_nothing requester ->
  forall who run, runs (outside (runAsRequester harness requester request identityKey arguments input bearerToken w).1) = (runs (outside w) ++ [(who, run)])%list -> Run_Environment run = [].
Proof.
  intros Hquiet who run; unfold runAsRequester; set (root := if blank (harness_workspaceRootPath harness) then _ else _).
  pose proof (Hquiet (Turn_RequesterPersonID request) root (outside w)) as Hr.
  destruct (requester (Turn_RequesterPersonID request) root (outside w)) as [host [actor|e]]; cbn [fst] in *;
    [|cbn [fst outside]; rewrite Hr; intros Hnil; by apply longer_runs in Hnil].
  pose proof (file_runs_nothing' (AsRequester actor) request bearerToken host) as Hf.
  destruct (writeToolCatalogWorkspaceFile _ _ _ _ host) as [host' [e|]]; cbn [fst] in Hf.
  - cbn [fst outside]; rewrite Hf, Hr; intros Hnil; by apply longer_runs in Hnil.
  - rewrite finish_run_runs; cbn [outside]; rewrite Hf, Hr; intros Heq; by apply app_inv_head in Heq as [= _ <-].
Qed.

End turn_laws.

(** A bearer header names its token: the catalog serves the tools that were granted under it. *)
Lemma bearer_headers_name_their_token `{UnicodeTables} token toolSetByToken : ToLower ("Bearer " +:+ token) = "bearer " +:+ ToLower token ->
  TrimSpace ("Bearer " +:+ token) = "Bearer " +:+ token -> TrimSpace token = token ->
  NewToolCatalogHandler ("Bearer " +:+ token) toolSetByToken = toolSetByToken !! token.
Proof.
  intros Hl Ht Htoken; unfold NewToolCatalogHandler, bearerTokenFromRequest, ResolveRequester; cbv zeta; rewrite Ht, Hl.
  replace (HasPrefix ("bearer " +:+ ToLower token) "bearer ") with true by (symmetry; by destruct (ToLower token)).
  cbn [negb]; replace (slice 7 _ _) with token; [by rewrite Htoken, Htoken|].
  unfold slice; rewrite bytes_of_app, drop_app_length' by done; rewrite firstn_all2; [by rewrite of_bytes_of|].
  rewrite <- length_bytes_of, bytes_of_app, length_app; cbn; lia.
Qed.

(** ** A host, for the witness *)

Record toy_world := MkToyWorld { toy_drawn : Z; toy_runs : list (RunsAs string * AgentRun) }.

#[local] Instance toy_documents : AgentDocuments := {|
  Quote text := text;
  decode_codex_event _ := None;
  decode_antigravity _ := None;
  decode_verdict text := Some (text, "");
  antigravity_document url token := url +:+ token;
|}.

#[local] Instance toy_host : AgentHost toy_world := {|
  Actor := string;
  newSessionToken w := (MkToyWorld (toy_drawn w + 1) (toy_runs w), "token-" +:+ Itoa (toy_drawn w));
  writeToolCatalogConfiguration _ _ w := (w, Ok "/tmp/catalog");
  Remove _ w := w;
  write_file _ _ _ w := (w, None);
  run_agent who run w := (MkToyWorld (toy_drawn w) (toy_runs w ++ [(who, run)]), MkAgentRan [] None 0 "done" "");
  other_turns tokens := <["token-9" := MkRequesterToolSet "p2" "" true (MkHarnessSession "" "" false) "" ""]> tokens;
  workspace_file root path := root +:+ "/" +:+ path;
  format_instant _ := "now";
  Preamble _ := "";
  declinedCallNote := None;
  FindTaskRun := None;
|}.

#[local] Instance toy_laws : AgentLaws toy_world.
Proof. by refine {| runs := toy_runs |}. Defined.

Definition toy_requester (person root : string) (w : toy_world) : toy_world * result string (@Actor toy_world toy_host) := (w, Ok person).

Definition toy_harness : Harness (World := toy_world) :=
  UseRequesterProcessRunner toy_requester "" (UseOutcomeClassifier (Some (fun _ => Ok "completed")) (New (ClaudeCodeAgentCommand "/bin/claude") "https://catalog")).

Definition toy_turn : AgentTurnRequest := MkTurn "p1" "task-1" "talk" zero_time true "en" "hello" "/home/p1" false.

Definition toy_start : TurnWorld := MkTurnWorld ∅ ∅ (MkToyWorld 0 []).

Lemma turns_run_as_their_requester_witness :
  let ran := (RunTurn toy_harness toy_turn toy_start).1 in
  only_the_requester toy_harness toy_requester toy_turn (outside toy_start) (outside ran) /\
  length (toy_runs (outside ran)) = 1%nat /\ tokens ran !! "token-9" <> None.
Proof.
  intros ran; split; [|split; [by vm_compute|by vm_compute]].
  pose proof (turns_run_as_their_requester toy_harness toy_requester toy_turn toy_start eq_refl ltac:(done)) as Ht.
  unfold ran; destruct (RunTurn _ toy_turn toy_start) as [w' ended]; exact (proj1 Ht).
Defined.
