(* ===== verification/AcpHarness.v ===== *)
(** * Turns of agents that speak the agent client protocol ([acpharness])

    A harness starts an agent, gives it the tools of the requester's turn, and follows what it does:
    the updates it sends, the permissions it asks for, what happens to the run
    meanwhile.  What the agent sends is an argument, so the theorems hold of every agent; the ledger of
    runs, processes and encoding/json are a class. *)

From S2P Require Export TaskRuns GoText.
From S2P Require ApprovalGate CliHarness.

Open Scope Z_scope.

(** ** Data *)

Record LedgerRecord := MkRecord { Record_Name : string; Record_Body : string; Record_Text : string; Position : Z }.

Record RawTurnEvent := MkRawEvent { Raw_Name : string; Raw_Body : string }.

Record SteerRequest := MkSteer { Instruction : string; Steer_Reason : string; MessageID : string }.

Record ToolCallUpdate := MkToolCall { ToolCallId : string; Title : option string; Call_Kind : option string; Call_RawInput : option string }.

(** [OtherUpdate] is an update of a kind the harness does not read. *)
Inductive SessionUpdate (Meta : Type) :=
| AgentMessageChunk (text : option string)
| AgentThoughtChunk (text : option string) (meta : Meta)
| StartToolCall (title : string) (meta : Meta)
| UpdateToolCall (status : option string) (meta : Meta)
| OtherUpdate.
Arguments AgentMessageChunk {Meta}. Arguments AgentThoughtChunk {Meta}. Arguments StartToolCall {Meta}.
Arguments UpdateToolCall {Meta}. Arguments OtherUpdate {Meta}.

Inductive StopReason := StopEndTurn | StopCancelled | StopRefusal | StopOther (reason : string).

Inductive ContentBlock := TextBlock (text : string) | ImageBlock (data mimeType : string).

Record InputPart := MkInputPart { Part_Type : string; Part_Image : option (string * string) }.

Record AgentTurnRequest := MkTurn {
  RequesterPersonID : string;
  ExistingTaskRunID : string;
  ProfileName : string;
  Prompt : string;
  ResponseLanguage : string;
  Platform : string;
  ConversationID : string;
  Turn_ReplyTargetID : string;
  WorkspaceRootPath : string;
  HostInstruction : string;
  InputParts : list InputPart;
  CarriedOutCalls : list ApprovalGate.CarriedOutCall;
  IsTaskRunOpenedForThisTurn : bool;
  hasToolSet : bool;
  hasCheckpointSender : bool;
}.

(** The result of a turn, with the names of the tools it called. *)
Record AgentTurnResult := MkTurnResult { Result_Turn : TurnResult; ToolNames : list string }.

(** A result with what a harness sets of it. *)
Definition MkTurnOf (taskRun : TaskRun) (finishMessage userNotice : string) (attachments : list FileAttachment) : TurnResult :=
  TaskRuns.MkTurnResult taskRun "" finishMessage userNotice "" attachments [].

Record AgentCommand := MkCommand { Path : string; Arguments : list string; WorkingDirectory : string; Environment : list string }.

(** What is started: a command, which can also run as the requester, or an agent inside the service. *)
Inductive AgentProcess := CommandProcess (command : AgentCommand) | InProcess.

(** [security.CommandRequest], as far as it is set. *)
Record ProcessRequest := MkProcess {
  ExecutableName : string;
  Process_Arguments : list string;
  WorkingDirectoryPath : string;
  EnvironmentVariables : gmap string string;
  TimeoutSecond : Z;
  IsInteractive : bool;
}.

(** The server of tools a session is given. *)
Inductive McpServer :=
| HttpServer (name url : string) (headers : list (string * string))
| StdioServer (name command : string) (arguments : list string) (environment : list (string * string)).

Inductive MetaValue :=
| CarriedOut (calls : list ApprovalGate.CarriedOutCall)
| Provided (document : string)
| Ledger (records : list LedgerRecord).

(** What the host says to the agent. *)
Inductive Outbound :=
| Initialized
| OpenedSession (workingDirectory : string) (server : McpServer)
| Prompted (blocks : list ContentBlock) (meta : option (gmap string MetaValue))
| Cancelled
| Extension (method : string) (steer : SteerRequest)
| Answered (optionID : option string).

(** ** The host *)

Class AcpHost (World : Type) := {
  Meta : Type;
  (** the fields of blueprotocol and encoding/json *)
  ledger_of_meta : Meta -> option LedgerRecord;
  ledgers_of_meta : Meta -> option (list LedgerRecord);
  checkpoint_marker : string -> Meta -> option string;
  turn_result_of_meta : string -> Meta -> option AgentTurnResult;
  EventBody : LedgerRecord -> string;
  (** a field of a document, "" where it has no such text *)
  unmarshal_string : string -> string -> string;
  json_valid : string -> bool;
  json_quote : string -> string;
  marshal_permission : string -> option string -> option string -> option string -> option string -> option string;
  ToolTaskEventToolName : string -> string -> option string;
  TaskEventAskRequested : string;
  TaskEventAgentInputRequested : string;
  TaskEventTaskSteerRequested : string;
  TaskEventHarnessToolPermitted : string;
  TaskEventHarnessToolRefused : string;
  ToolTaskEventPrefix : string;
  ToolTaskEventCancelledSuffix : string;
  ToolTaskEventRequestedSuffix : string;
  LedgerMetaKey : string;
  CarriedOutCallMetaKey : string;
  AgentPartTypeImage : string;
  Preamble : AgentTurnRequest -> string;
  DeclinedCallNote : list RawTurnEvent -> string;
  (** the ledger of runs; appending tells the observer of the run before it returns, of these events *)
  ListTaskEvent : string -> World -> list RawTurnEvent;
  AppendTaskEvent : string -> RawTurnEvent -> World -> World * list RawTurnEvent;
  FindTaskRun : string -> World -> option TaskRun;
  CompleteTaskRun : string -> string -> World -> World;
  FailTaskRun : string -> string -> World -> World;
  PauseTaskRun : string -> TaskStatus -> string -> World -> World;
  AdvanceTaskRun : string -> string -> World -> World;
  (** who narrates the tool calls of a turn, and who sends its checkpoints *)
  narrate : SessionUpdate Meta -> World -> World;
  send_checkpoint : string -> string -> string -> World -> World;
  acp_newSessionToken : World -> World * string;
  (** the actor of a person, and whether it can start a process *)
  acp_Actor : Type;
  start_process : CliHarness.RunsAs acp_Actor -> ProcessRequest -> World -> World * option string;
  start_inside : World -> World * option string;
  acp_other_turns : CliHarness.Tokens -> CliHarness.Tokens;
}.

Definition ToolCatalogServerName : string := "blueclaw".
Definition StdioBridgeCommand : string := "mcp-tool-catalog".
Definition CatalogEndpointEnvironmentName : string := "BLUECLAW_TOOL_CATALOG_URL".
Definition CatalogTokenEnvironmentName : string := "BLUECLAW_TOOL_CATALOG_TOKEN".
Definition requesterAgentTimeoutSecond : Z := 3600.

(** ** Processes *)

Definition environmentVariableMap (environment : list string) : gmap string string :=
  foldl (fun variables entry =>
    match Cut entry "=" with
    | None => variables
    | Some (name, value) => if blank name then variables else <[name := value]> variables
    end) ∅ environment.

(** [AgentCommand.Start] as the process it starts. *)
Definition command_process (agentCommand : AgentCommand) : ProcessRequest :=
  MkProcess (Path agentCommand) (Arguments agentCommand) (WorkingDirectory agentCommand) (environmentVariableMap (Environment agentCommand)) 0 false.

Definition requester_process (agentCommand : AgentCommand) (workspaceRootPath : string) : ProcessRequest :=
  MkProcess (Path agentCommand) (Arguments agentCommand)
    (if blank (WorkingDirectory agentCommand) then workspaceRootPath else WorkingDirectory agentCommand)
    (environmentVariableMap (Environment agentCommand)) requesterAgentTimeoutSecond true.

(** ** A harness *)

Section harness.
Context {World : Type} `{AcpHost World}.

Record Harness := MkHarness {
  agentProcess : option AgentProcess;
  (** the address the catalog is published at *)
  toolCatalogPublisher : option string;
  hasTaskRunStore : bool;
  permissionAsker : option (ApprovalGate.ApprovalRequest -> ApprovalGate.HarnessPermissionQuestion -> World -> World * (option string * ApprovalGate.AskStatus));
  (** the actor of a person in a workspace, and whether it can start a process *)
  requesterProcessRunner : option (string -> string -> World -> World * result string (acp_Actor * bool));
  harness_workspaceRootPath : string;
  outcomeClassifier : option (string -> result string string);
  toolCatalogBridgeCommandPath : string;
  promptMetaProvider : option (AgentTurnRequest -> gmap string MetaValue);
  checkpointMarkerKey : string;
  (** the names of the events the host records itself *)
  ledgerExchange : option (list string);
  turnResultMetaKey : string;
  steerExtension : option string;
  includesHostInstruction : bool;
  hasToolCallObserver : bool;
}.

Record sessionObserver := MkObserver { messageSegments : list string; toolNames : list string; takenPositions : gset Z }.

Record turnControl := MkControl { pendingSteers : list SteerRequest; hasParkedTheRun : bool; hasCancelled : bool }.

(** A session: what its observer keeps, the control of its turn once there is one, how many records of the
    agent are being mirrored, whether the turn observes its run, what was said to the agent, and the host. *)
Record Session := MkSession {
  observer : sessionObserver;
  control : option turnControl;
  isMirroring : Z;
  isAttached : bool;
  outbound : list Outbound;
  host : World;
}.

Definition with_host (w : World) (s : Session) : Session := MkSession (observer s) (control s) (isMirroring s) (isAttached s) (outbound s) w.
Definition with_observer (o : sessionObserver) (s : Session) : Session := MkSession o (control s) (isMirroring s) (isAttached s) (outbound s) (host s).
Definition with_control (c : turnControl) (s : Session) : Session := MkSession (observer s) (Some c) (isMirroring s) (isAttached s) (outbound s) (host s).
Definition with_mirroring (count : Z) (s : Session) : Session := MkSession (observer s) (control s) count (isAttached s) (outbound s) (host s).
Definition say (said : Outbound) (s : Session) : Session :=
  MkSession (observer s) (control s) (isMirroring s) (isAttached s) (outbound s ++ [said]) (host s).

Variable (harness : Harness) (request : AgentTurnRequest).

(** The turn has a run, and the harness its store. *)
Definition has_run : bool := hasTaskRunStore harness && negb (blank (ExistingTaskRunID request)).

(** ** The control of a turn *)

Definition isParked (taskRunID : string) (w : World) : bool :=
  match FindTaskRun taskRunID w with
  | Some taskRun => bool_decide (Run_Status taskRun = TaskStatusWaitingApproval) || bool_decide (Run_Status taskRun = TaskStatusWaitingUserInput)
  | None => false
  end.

Definition isRunParked (w : World) : bool := if negb has_run then false else isParked (ExistingTaskRunID request) w.

Definition noteParking (c : turnControl) (s : Session) : Session :=
  if (0 <? isMirroring s) || negb (isRunParked (host s)) then s else with_control (MkControl (pendingSteers c) true (hasCancelled c)) s.

Definition toolCallEnded (c : turnControl) (s : Session) : Session :=
  let shouldCancel := hasParkedTheRun c && isRunParked (host s) && negb (hasCancelled c) in
  let s := with_control (MkControl (pendingSteers c) (hasParkedTheRun c) (hasCancelled c || shouldCancel)) s in
  if shouldCancel then say Cancelled s else s.

Definition steerOf (eventBody : string) : SteerRequest :=
  MkSteer (unmarshal_string "instruction" eventBody) (unmarshal_string "reason" eventBody) (unmarshal_string "messageID" eventBody).

Definition steer (eventBody : string) (c : turnControl) (s : Session) : Session :=
  match steerExtension harness with
  | Some method => say (Extension method (steerOf eventBody)) s
  | None => say Cancelled (with_control (MkControl (pendingSteers c ++ [steerOf eventBody]) (hasParkedTheRun c) (hasCancelled c)) s)
  end.

Definition observe (rawTurnEvent : RawTurnEvent) (c : turnControl) (s : Session) : Session :=
  if bool_decide (Raw_Name rawTurnEvent = TaskEventAskRequested) || bool_decide (Raw_Name rawTurnEvent = TaskEventAgentInputRequested)
  then noteParking c s
  else if bool_decide (Raw_Name rawTurnEvent = TaskEventTaskSteerRequested) then steer (Raw_Body rawTurnEvent) c s
  else s.

(** An event the observer of the run is told of. *)
Definition hear (s : Session) (rawTurnEvent : RawTurnEvent) : Session :=
  match control s with
  | Some c => if isAttached s then observe rawTurnEvent c s else s
  | None => s
  end.

Definition append_event (name body : string) (s : Session) : Session :=
  let '(w, told) := AppendTaskEvent (ExistingTaskRunID request) (MkRawEvent name body) (host s) in
  foldl hear (with_host w s) told.

Definition newTurnControl (s : Session) : Session :=
  MkSession (observer s) (Some (MkControl [] false false)) (isMirroring s) has_run (outbound s) (host s).

Definition stop (s : Session) : Session := MkSession (observer s) (control s) (isMirroring s) false (outbound s) (host s).

Definition nextSteer (s : Session) : Session * option SteerRequest :=
  match control s with
  | None => (s, None)
  | Some c =>
    if hasParkedTheRun c then (s, None) else
    match pendingSteers c with
    | [] => (s, None)
    | steer :: pendingSteers => (with_control (MkControl pendingSteers (hasParkedTheRun c) (hasCancelled c)) s, Some steer)
    end
  end.

Definition steerPrompt (steer : SteerRequest) : string :=
  "The person who asked sent this while you were working. Take it into account and carry on with their request:" +:+ nl +:+ TrimSpace (Instruction steer).

(** ** The mirror of the agent's ledger *)

Definition ledgerRecordOfMeta (meta : Meta) : option LedgerRecord :=
  match ledger_of_meta meta with
  | None => None
  | Some record => if blank (Record_Name record) then None else Some record
  end.

Definition updateMetas (update : SessionUpdate Meta) : list Meta :=
  match update with
  | StartToolCall _ meta | UpdateToolCall _ meta | AgentThoughtChunk _ meta => [meta]
  | AgentMessageChunk _ | OtherUpdate => []
  end.

Definition ledgerRecordOfUpdate (update : SessionUpdate Meta) : option LedgerRecord := head (omap ledgerRecordOfMeta (updateMetas update)).

Definition ledgerRecordsOfCallMeta (callMeta : Meta) : list LedgerRecord := default [] (ledgers_of_meta callMeta).

Definition isActive : bool := match ledgerExchange harness with Some _ => has_run | None => false end.

Definition observationIDOf (eventBody : string) : string := unmarshal_string "observationID" eventBody.

Definition tookThePositionAlready (record : LedgerRecord) (o : sessionObserver) : sessionObserver * bool :=
  if Position record =? 0 then (o, false) else
  if bool_decide (Position record ∈ takenPositions o) then (o, true) else
  (MkObserver (messageSegments o) (toolNames o) ({[Position record]} ∪ takenPositions o), false).

Definition hostRecordedTheCancellation (record : LedgerRecord) (w : World) : bool :=
  if negb (HasPrefix (Record_Name record) ToolTaskEventPrefix) || negb (HasSuffix (Record_Name record) ToolTaskEventCancelledSuffix) then false else
  existsb (fun taskEvent => bool_decide (Raw_Name taskEvent = Record_Name record)
    && bool_decide (observationIDOf (Raw_Body taskEvent) = observationIDOf (EventBody record))) (ListTaskEvent (ExistingTaskRunID request) w).

Definition take_record (record : LedgerRecord) (s : Session) : Session :=
  if negb isActive || bool_decide (Record_Name record ∈ default [] (ledgerExchange harness)) then s else
  let '(o, isTaken) := tookThePositionAlready record (observer s) in
  let s := with_observer o s in
  if isTaken || hostRecordedTheCancellation record (host s) then s else append_event (Record_Name record) (EventBody record) s.

(** Whether the update was a record of the ledger. *)
Definition mirrorLedger (update : SessionUpdate Meta) (s : Session) : Session * bool :=
  if negb isActive then (s, false) else
  match ledgerRecordOfUpdate update with
  | None => (s, false)
  | Some record =>
    let s := take_record record (with_mirroring (isMirroring s + 1) s) in
    (with_mirroring (isMirroring s - 1) s, true)
  end.

Definition takeCallLedger (callMeta : Meta) (s : Session) : Session := foldl (fun s record => take_record record s) s (ledgerRecordsOfCallMeta callMeta).

Definition ledgerBodyOf (eventBody : string) : string := if json_valid eventBody then eventBody else json_quote eventBody.

Definition ledgerRecordsOf (taskEvents : list RawTurnEvent) : list LedgerRecord :=
  (fun taskEvent => MkRecord (Raw_Name taskEvent) (ledgerBodyOf (Raw_Body taskEvent)) (Raw_Body taskEvent) 0) <$> taskEvents.

Definition replayMeta (w : World) : gmap string MetaValue :=
  match ledgerExchange harness with
  | None => ∅
  | Some _ =>
    if negb (hasTaskRunStore harness) || IsTaskRunOpenedForThisTurn request || blank (ExistingTaskRunID request) then ∅ else
    match ledgerRecordsOf (ListTaskEvent (ExistingTaskRunID request) w) with
    | [] => ∅
    | records => {[LedgerMetaKey := Ledger records]}
    end
  end.

(** ** The updates of an agent *)

Definition forwardToolCall (update : SessionUpdate Meta) (s : Session) : Session :=
  if negb (hasToolCallObserver harness) then s else
  match update with
  | StartToolCall _ _ | UpdateToolCall _ _ => with_host (narrate update (host s)) s
  | _ => s
  end.

Definition routeCheckpoint (update : SessionUpdate Meta) (s : Session) : Session :=
  if negb (hasCheckpointSender request) || bool_decide (checkpointMarkerKey harness = "") then s else
  match update with
  | AgentThoughtChunk (Some text) meta =>
    match checkpoint_marker (checkpointMarkerKey harness) meta with
    | Some toolName => with_host (send_checkpoint (ExistingTaskRunID request) text toolName (host s)) s
    | None => s
    end
  | _ => s
  end.

Definition toolNameOf (title : string) (meta : Meta) : string :=
  match ledgerRecordOfMeta meta with
  | Some record => default title (ToolTaskEventToolName (Record_Name record) ToolTaskEventRequestedSuffix)
  | None => title
  end.

Definition record (update : SessionUpdate Meta) (o : sessionObserver) : sessionObserver :=
  match update with
  | AgentMessageChunk (Some text) => MkObserver (messageSegments o ++ [text]) (toolNames o) (takenPositions o)
  | StartToolCall title meta => MkObserver (messageSegments o) (toolNames o ++ [toolNameOf title meta]) (takenPositions o)
  | _ => o
  end.

Definition noteToolCallEnded (update : SessionUpdate Meta) (s : Session) : Session :=
  match control s, update with
  | Some c, UpdateToolCall (Some status) _ =>
    if bool_decide (status = "completed") || bool_decide (status = "failed") then toolCallEnded c s else s
  | _, _ => s
  end.

(** [sessionObserver.SessionUpdate] *)
Definition observeUpdate (update : SessionUpdate Meta) (s : Session) : Session :=
  let '(s, isMirrored) := mirrorLedger update s in
  let s := if isMirrored then s else forwardToolCall update s in
  let s := routeCheckpoint update s in
  let s := with_observer (record update (observer s)) s in
  noteToolCallEnded update s.

Definition agentMessage (o : sessionObserver) : string := TrimSpace (Join "" (messageSegments o)).

(** ** Permissions *)

Definition kind_text (kind : ApprovalGate.PermissionOptionKind) : string :=
  match kind with
  | ApprovalGate.AllowOnce => "allow_once"
  | ApprovalGate.AllowAlways => "allow_always"
  | ApprovalGate.RejectOnce => "reject_once"
  | ApprovalGate.RejectAlways => "reject_always"
  end.

Definition isAllowKind (kind : ApprovalGate.PermissionOptionKind) : bool :=
  match kind with ApprovalGate.AllowOnce | ApprovalGate.AllowAlways => true | _ => false end.

Definition recordPermissionDecision (eventName : string) (toolCall : ToolCallUpdate) (granted : option ApprovalGate.PermissionOptionKind) (s : Session) : Session :=
  if negb has_run then s else
  match marshal_permission (ToolCallId toolCall) (TrimSpace <$> Title toolCall) (Call_Kind toolCall) (Call_RawInput toolCall) (kind_text <$> granted) with
  | None => s
  | Some encodedRecord => append_event eventName encodedRecord s
  end.

Definition refuse (toolCall : ToolCallUpdate) (s : Session) : Session * option string :=
  (recordPermissionDecision TaskEventHarnessToolRefused toolCall None s, None).

Definition first_of_kind (options : list ApprovalGate.PermissionOption) (kind : ApprovalGate.PermissionOptionKind) : option ApprovalGate.PermissionOption :=
  find (fun permissionOption => bool_decide (kind_text (ApprovalGate.Option_Kind permissionOption) = kind_text kind)) options.

Definition allowWithoutAsking (toolCall : ToolCallUpdate) (options : list ApprovalGate.PermissionOption) (s : Session) : Session * option string :=
  match (match first_of_kind options ApprovalGate.AllowAlways with Some found => Some found | None => first_of_kind options ApprovalGate.AllowOnce end) with
  | Some found =>
    (recordPermissionDecision TaskEventHarnessToolPermitted toolCall (Some (ApprovalGate.Option_Kind found)) s, Some (ApprovalGate.OptionId found))
  | None => refuse toolCall s
  end.

Definition recordSelectedOption (toolCall : ToolCallUpdate) (options : list ApprovalGate.PermissionOption) (optionID : string) (s : Session) : Session :=
  match find (fun permissionOption => bool_decide (ApprovalGate.OptionId permissionOption = optionID) && isAllowKind (ApprovalGate.Option_Kind permissionOption)) options with
  | Some found => recordPermissionDecision TaskEventHarnessToolPermitted toolCall (Some (ApprovalGate.Option_Kind found)) s
  | None => recordPermissionDecision TaskEventHarnessToolRefused toolCall None s
  end.

(** The request as the gate sees it. *)
Definition approvalRequestFor (toolCall : ToolCallUpdate) (question : string) : ApprovalGate.ApprovalRequest :=
  ApprovalGate.MkApprovalRequest (RequesterPersonID request) "" (ExistingTaskRunID request) question (default "" (Call_RawInput toolCall)) ""
    (ResponseLanguage request) (Prompt request) (Platform request) (ConversationID request) (Turn_ReplyTargetID request) "" "".

Definition askThePerson (ask : ApprovalGate.ApprovalRequest -> ApprovalGate.HarnessPermissionQuestion -> World -> World * (option string * ApprovalGate.AskStatus))
    (toolCall : ToolCallUpdate) (options : list ApprovalGate.PermissionOption) (s : Session) : Session * option string :=
  let question := match Title toolCall with Some title => TrimSpace title | None => "" end in
  if bool_decide (question = "") || bool_decide (length options = 0%nat) then refuse toolCall s else
  let '(w, (selected, status)) := ask (approvalRequestFor toolCall question)
    (ApprovalGate.MkHarnessQuestion question (default "" (Call_RawInput toolCall)) options) (host s) in
  let s := with_host w s in
  match status, selected with
  | ApprovalGate.AskAnswered, Some optionID => (recordSelectedOption toolCall options optionID s, Some optionID)
  | _, _ => refuse toolCall s
  end.

Definition RequestPermission (toolCall : ToolCallUpdate) (options : list ApprovalGate.PermissionOption) (s : Session) : Session * option string :=
  match permissionAsker harness with
  | None => allowWithoutAsking toolCall options s
  | Some ask => askThePerson ask toolCall options s
  end.

(** ** What happens during a turn *)

(** The agent sends an update, asks for a permission, calls a tool with records of its ledger; or others change
    the host, and the observer of the run is told. *)
Inductive Happening :=
| Notified (update : SessionUpdate Meta)
| AsksPermission (toolCall : ToolCallUpdate) (options : list ApprovalGate.PermissionOption)
| CallsTool (callMeta : Meta)
| Elsewhere (change : World -> World) (told : list RawTurnEvent).

Definition happen (s : Session) (happening : Happening) : Session :=
  match happening with
  | Notified update => observeUpdate update s
  | AsksPermission toolCall options => let '(s, answer) := RequestPermission toolCall options s in say (Answered answer) s
  | CallsTool callMeta => takeCallLedger callMeta s
  | Elsewhere change told => foldl hear (with_host (change (host s)) s) told
  end.

Record PromptResponse := MkPromptResponse { Response_StopReason : StopReason; Response_Meta : Meta }.

(** What happens while a prompt is answered, and the answer. *)
Definition Round : Type := list Happening * result string PromptResponse.

(** Prompts until nobody steers; [None]: the agent is still at the last prompt. *)
Fixpoint converse (blocks : list ContentBlock) (meta : option (gmap string MetaValue)) (rounds : list Round) (s : Session)
    : option (Session * result string PromptResponse) :=
  match rounds with
  | [] => None
  | (happenings, answer) :: rounds =>
    let s := foldl happen (say (Prompted blocks meta) s) happenings in
    match answer with
    | Err e => Some (s, Err e)
    | Ok promptResponse =>
      let '(s, steer) := nextSteer s in
      match steer with
      | None => Some (s, Ok promptResponse)
      | Some steer => converse [TextBlock (steerPrompt steer)] None rounds s
      end
    end
  end.

(** ** The prompt of a turn *)

Definition hostInstruction : string := if includesHostInstruction harness then TrimSpace (HostInstruction request) else "".

Definition promptForTurn (w : World) : string :=
  let non_empty section := if bool_decide (section = "") then [] else [section] in
  let declinedCallNote := if has_run then DeclinedCallNote (ListTaskEvent (ExistingTaskRunID request) w) else "" in
  Join (nl +:+ nl) (non_empty (Preamble request) ++ non_empty hostInstruction ++ [Prompt request] ++ non_empty declinedCallNote)%list.

Definition imageBlockOf (inputPart : InputPart) : option ContentBlock :=
  match Part_Image inputPart with
  | None => None
  | Some (data, mimeType) =>
    if negb (bool_decide (Part_Type inputPart = AgentPartTypeImage)) || bool_decide (data = "") then None else Some (ImageBlock data mimeType)
  end.

Definition promptBlocksForTurn (agentAcceptsImages : bool) (w : World) : list ContentBlock :=
  TextBlock (promptForTurn w) :: if agentAcceptsImages then omap imageBlockOf (InputParts request) else [].

Definition promptMetaForTurn (w : World) : option (gmap string MetaValue) :=
  let promptMeta : gmap string MetaValue :=
    if bool_decide (length (CarriedOutCalls request) = 0%nat) then ∅ else {[CarriedOutCallMetaKey := CarriedOut (CarriedOutCalls request)]} in
  let promptMeta := match promptMetaProvider harness with Some provide => provide request ∪ promptMeta | None => promptMeta end in
  let promptMeta := replayMeta w ∪ promptMeta in
  if bool_decide (size promptMeta = 0%nat) then None else Some promptMeta.

Definition toolCatalogServer (agentTakesHttp : bool) (endpointURL bearerToken : string) : result string McpServer :=
  if agentTakesHttp then Ok (HttpServer ToolCatalogServerName endpointURL [("Authorization", "Bearer " +:+ bearerToken)]) else
  let bridgeCommandPath := TrimSpace (toolCatalogBridgeCommandPath harness) in
  if bool_decide (bridgeCommandPath = "") then Err "this agent takes tool catalogs over stdio, and no catalog bridge command is configured"
  else Ok (StdioServer ToolCatalogServerName bridgeCommandPath [StdioBridgeCommand]
    [(CatalogEndpointEnvironmentName, endpointURL); (CatalogTokenEnvironmentName, bearerToken)]).

(** ** The result of a turn *)

Definition taskStatusForStopReason (stopReason : StopReason) : TaskStatus :=
  match stopReason with
  | StopEndTurn => TaskStatusCompleted
  | StopCancelled => TaskStatusCancelled
  | StopRefusal => TaskStatusBlocked
  | StopOther _ => TaskStatusFailed
  end.

Definition outcomeForEndedTurn `{CliHarness.AgentDocuments} (finishMessage : string) (calledToolNames : list string) : TaskStatus * string :=
  match outcomeClassifier harness with
  | None => (TaskStatusCompleted, "")
  | Some _ =>
    match CliHarness.Classify (outcomeClassifier harness) (Prompt request) finishMessage calledToolNames with
    | Err e => (TaskStatusFailed, "the runtime could not determine what this turn achieved: " +:+ e)
    | Ok verdict => (CliHarness.Verdict_Status verdict, CliHarness.Reason verdict)
    end
  end.

Definition userNoticeOf (taskRun : TaskRun) (finishMessage : string) : string :=
  let isWaiting := bool_decide (Run_Status taskRun = TaskStatusWaitingApproval) || bool_decide (Run_Status taskRun = TaskStatusWaitingUserInput) in
  if isWaiting && blank finishMessage then Run_FailureReason taskRun else finishMessage.

Definition with_reason (reason : string) (taskRun : TaskRun) : TaskRun :=
  MkTaskRun (Run_ID taskRun) (Run_RequesterPersonID taskRun) (Run_Status taskRun) (Run_UpdatedAt taskRun) (Run_Prompt taskRun) (Run_Result taskRun) reason
    (OriginConversationID taskRun) (OriginReplyTargetID taskRun) (OriginIsThread taskRun).

Definition turnResult `{CliHarness.AgentDocuments} (o : sessionObserver) (recorder : CliHarness.SucceededToolRecorder) (stopReason : StopReason) (w : World)
    : AgentTurnResult :=
  let finishMessage := agentMessage o in
  let '(taskStatus, failureReason) := match stopReason with
    | StopEndTurn => outcomeForEndedTurn finishMessage (CliHarness.toolNames recorder)
    | _ => (taskStatusForStopReason stopReason, "")
    end in
  let taskRun := MkTaskRun "" "" taskStatus zero_time "" "" "" "" "" false in
  let taskRun := if has_run then default taskRun (FindTaskRun (ExistingTaskRunID request) w) else taskRun in
  let taskRun := if negb (bool_decide (Run_Status taskRun = TaskStatusCompleted)) && blank (Run_FailureReason taskRun)
    then with_reason failureReason taskRun else taskRun in
  MkTurnResult (MkTurnOf taskRun finishMessage (userNoticeOf taskRun finishMessage) (CliHarness.recorded_attachments recorder)) (toolNames o).

Definition carriedTurnResult (promptResponse : PromptResponse) : option AgentTurnResult :=
  if bool_decide (turnResultMetaKey harness = "") then None else turn_result_of_meta (turnResultMetaKey harness) (Response_Meta promptResponse).

Definition settleTaskRun (taskRunID : string) (carried : TaskRun) (w : World) : World * TaskRun :=
  let w := match Run_Status carried with
    | TaskStatusCompleted => CompleteTaskRun taskRunID (Run_Result carried) w
    | TaskStatusFailed => FailTaskRun taskRunID (Run_FailureReason carried) w
    | TaskStatusBlocked | TaskStatusWaitingUserInput => PauseTaskRun taskRunID (Run_Status carried) (Run_FailureReason carried) w
    | _ => w
    end in
  (w, default carried (FindTaskRun taskRunID w)).

Definition parkedTurnResult (taskRunID : string) (carried : AgentTurnResult) (w : World) : AgentTurnResult :=
  let parkedTaskRun := default no_run (FindTaskRun taskRunID w) in
  MkTurnResult (MkTurnOf parkedTaskRun "" (Run_FailureReason parkedTaskRun) (Turn_Attachments (Result_Turn carried))) (ToolNames carried).

Definition with_run (taskRun : TaskRun) (turn : TurnResult) : TurnResult :=
  TaskRuns.MkTurnResult taskRun (ReplySuppressionReason turn) (FinishMessage turn) (UserNotice turn) (FailureNoticeMessage turn) (Turn_Attachments turn)
    (RecoveryActions turn).

Definition settledTurnResult (carried : AgentTurnResult) (w : World) : World * AgentTurnResult :=
  let taskRunID := TrimSpace (ExistingTaskRunID request) in
  if negb (hasTaskRunStore harness) || bool_decide (taskRunID = "") then (w, carried) else
  if isParked taskRunID w then (w, parkedTurnResult taskRunID carried w) else
  let '(w, taskRun) := settleTaskRun taskRunID (Turn_TaskRun (Result_Turn carried)) w in
  (w, MkTurnResult (with_run taskRun (Result_Turn carried)) (ToolNames carried)).

(** ** A turn *)

Definition startAgent (process : AgentProcess) (w : World) : World * result string unit :=
  match requesterProcessRunner harness with
  | None =>
    match process with
    | InProcess => let '(w, failed) := start_inside w in (w, match failed with Some e => Err e | None => Ok tt end)
    | CommandProcess command =>
      if blank (Path command) then (w, Err "acp harness needs an agent command to run") else
      let '(w, failed) := start_process CliHarness.AsService (command_process command) w in
      (w, match failed with Some e => Err e | None => Ok tt end)
    end
  | Some runner =>
    match process with
    | InProcess => (w, Err "this agent process cannot run as the requester")
    | CommandProcess command =>
      let workspaceRootPath := if blank (harness_workspaceRootPath harness) then WorkspaceRootPath request else harness_workspaceRootPath harness in
      let '(w, found) := runner (RequesterPersonID request) workspaceRootPath w in
      match found with
      | Err e => (w, Err e)
      | Ok (requesterActor, canStartProcess) =>
        if negb canStartProcess then (w, Err "this workspace actor cannot start a long-lived process") else
        if blank (Path command) then (w, Err "acp harness needs an agent command to run") else
        let '(w, failed) := start_process (CliHarness.AsRequester requesterActor) (requester_process command (WorkspaceRootPath request)) w in
        (w, match failed with Some e => Err e | None => Ok tt end)
      end
    end
  end.

Definition advanceTaskRun (w : World) : World :=
  if bool_decide (turnResultMetaKey harness = "") || negb has_run then w else AdvanceTaskRun (ExistingTaskRunID request) (ProfileName request) w.

(** What an agent does of its own accord in a turn: its capabilities (http catalogs, images), its session, what
    happens before the turn is controlled, the rounds of prompts, what happens after the last, and the tools it called. *)
Record AgentScript := MkScript {
  script_initialized : result string (bool * bool);
  script_session : result string unit;
  script_early : list Happening;
  script_rounds : list Round;
  script_late : list Happening;
  script_observed : list CliHarness.Observation;
}.

Definition no_session (w : World) : Session := MkSession (MkObserver [] [] ∅) None 0 false [] w.

(** The conversation with an agent that was started; [None]: it is not over. *)
Definition conduct `{CliHarness.AgentDocuments} (script : AgentScript) (endpointURL bearerToken : string) (s : Session)
    : option (Session * result string AgentTurnResult) :=
  let s := say Initialized s in
  match script_initialized script with
  | Err e => Some (s, Err e)
  | Ok (agentTakesHttp, agentAcceptsImages) =>
    match toolCatalogServer agentTakesHttp endpointURL bearerToken with
    | Err e => Some (s, Err e)
    | Ok server =>
      let s := foldl happen (say (OpenedSession (WorkspaceRootPath request) server) s) (script_early script) in
      match script_session script with
      | Err e => Some (s, Err e)
      | Ok _ =>
        let s := newTurnControl (with_host (advanceTaskRun (host s)) s) in
        match converse (promptBlocksForTurn agentAcceptsImages (host s)) (promptMetaForTurn (host s)) (script_rounds script) s with
        | None => None
        | Some (s, Err e) => Some (stop s, Err e)
        | Some (s, Ok promptResponse) =>
          let s := foldl happen s (script_late script) in
          let '(w, result) := match carriedTurnResult promptResponse with
            | Some carried => settledTurnResult carried (host s)
            | None => (host s, turnResult (observer s) (foldl CliHarness.Observe CliHarness.no_tools (script_observed script))
                (Response_StopReason promptResponse) (host s))
            end in
          Some (stop (with_host w s), Ok result)
        end
      end
    end
  end.

Record TurnWorld := MkTurnWorld { tokens : CliHarness.Tokens; outside : World }.

Definition published_tool_set : CliHarness.RequesterToolSet :=
  CliHarness.MkRequesterToolSet (RequesterPersonID request) (ExistingTaskRunID request) (hasToolSet request)
    (CliHarness.MkHarnessSession "" "" false) (ResponseLanguage request) (Prompt request).

(** The session in which the turn ended, if the agent was started, and its result. *)
Definition RunTurn `{CliHarness.AgentDocuments} (script : AgentScript) (w : TurnWorld) : option (TurnWorld * option Session * result string AgentTurnResult) :=
  match agentProcess harness, toolCatalogPublisher harness with
  | Some process, Some endpointURL =>
    if blank (RequesterPersonID request) then Some (w, None, Err "acp harness refuses a turn with no requester") else
    let '(host', granted, publish) := CliHarness.GrantSessionToken acp_newSessionToken published_tool_set (tokens w) (outside w) in
    match publish with
    | Err e => Some (MkTurnWorld granted host', None, Err e)
    | Ok bearerToken =>
      let revoked := CliHarness.RevokeSessionToken bearerToken (acp_other_turns granted) in
      let '(host', started) := startAgent process host' in
      match started with
      | Err e => Some (MkTurnWorld revoked host', None, Err e)
      | Ok _ =>
        match conduct script endpointURL bearerToken (no_session host') with
        | None => None
        | Some (s, ended) => Some (MkTurnWorld revoked (host s), Some s, ended)
        end
      end
    end
  | _, _ => Some (w, None, Err "acp harness needs an agent process and a tool catalog publisher")
  end.

End harness.

(** ** Folds of steps keep what every step keeps *)

Lemma foldl_keeps {S A} (R : S -> S -> Prop) `{!PreOrder R} (step : S -> A -> S) : (forall s a, R s (step s a)) -> forall l s, R s (foldl step s l).
Proof. intros Hstep l; induction l as [|a l IH]; intros s; cbn; [done|]; by etransitivity; [apply Hstep|apply IH]. Qed.

Section steering.
Context {World : Type} `{AcpHost World}.
Variable (harness : Harness (World := World)) (request : AgentTurnRequest).

Definition is_cancelled (said : Outbound) : bool := match said with Cancelled => true | _ => false end.

Definition count (p : Outbound -> bool) (said : list Outbound) : Z := Z.of_nat (length (List.filter p said)).

Lemma count_app p said said' : count p (said ++ said') = count p said + count p said'.
Proof. unfold count; rewrite List.filter_app, length_app; lia. Qed.

Lemma count_said p said last_said : count p (said ++ [last_said]) = count p said + Z.b2z (p last_said).
Proof. rewrite count_app; unfold count; cbn; by destruct (p last_said). Qed.

(** The servers of tools the agent was given. *)
Definition servers (said : list Outbound) : list McpServer := omap (fun said => match said with OpenedSession _ server => Some server | _ => None end) said.

Lemma servers_said said last_said : (forall workingDirectory server, last_said <> OpenedSession workingDirectory server) -> servers (said ++ [last_said]) = servers said.
Proof. intros Hn; unfold servers; rewrite omap_app; destruct last_said; cbn; rewrite ?app_nil_r; try done; by destruct (Hn workingDirectory server). Qed.

(** What the observer and the control only add to, and the servers. *)
Definition keeps (s s' : Session (World := World)) : Prop :=
  takenPositions (observer s) ⊆ takenPositions (observer s') /\ (is_Some (control s) -> is_Some (control s')) /\
  servers (outbound s') = servers (outbound s).

#[local] Instance keeps_preorder : PreOrder keeps.
Proof. split; [by intros s|intros s1 s2 s3 (Hp & Hc & Hs) (Hp' & Hc' & Hs')]; split_and!; [by etransitivity|auto|congruence]. Qed.

Lemma with_host_keeps w s : keeps s (with_host w s).
Proof. by destruct s. Qed.

Lemma with_mirroring_keeps count s : keeps s (with_mirroring count s).
Proof. by destruct s. Qed.

Lemma with_observer_keeps o s : takenPositions (observer s) ⊆ takenPositions o -> keeps s (with_observer o s).
Proof. by destruct s. Qed.

Lemma say_answered_keeps answer s : keeps s (say (Answered answer) s).
Proof. destruct s; split_and!; [done|done|by apply servers_said]. Qed.

Lemma observe_keeps rawTurnEvent c s : control s = Some c -> keeps s (observe harness request rawTurnEvent c s).
Proof.
  destruct s as [o ctl mirroring attached out w]; cbn [control]; intros ->; unfold observe, noteParking, steer; cbn [isMirroring host]; repeat case_match; try done; split_and!;
    try done; by apply servers_said.
Qed.

Lemma toolCallEnded_keeps c s : control s = Some c -> keeps s (toolCallEnded harness request c s).
Proof.
  destruct s as [o ctl mirroring attached out w]; cbn [control]; intros ->; unfold toolCallEnded; cbv zeta; cbn [host].
  destruct (_ && _ && _); split_and!; try done; by apply servers_said.
Qed.

Lemma hear_keeps s rawTurnEvent : keeps s (hear harness request s rawTurnEvent).
Proof. unfold hear; destruct (control s) eqn:Hc; [|done]; destruct (isAttached s); [by apply observe_keeps|done]. Qed.

Lemma heard_keeps told s : keeps s (foldl (hear harness request) s told).
Proof. apply foldl_keeps; [apply _|apply hear_keeps]. Qed.

Lemma append_event_keeps name body s : keeps s (append_event harness request name body s).
Proof. unfold append_event; destruct (AppendTaskEvent _ _ _); etransitivity; [apply with_host_keeps|apply heard_keeps]. Qed.

Lemma tookThePositionAlready_adds entry o : takenPositions o ⊆ takenPositions (tookThePositionAlready entry o).1.
Proof. unfold tookThePositionAlready; repeat case_match; cbn; set_solver. Qed.

Lemma take_record_keeps entry s : keeps s (take_record harness request entry s).
Proof.
  unfold take_record; destruct (_ || _); [done|]; pose proof (tookThePositionAlready_adds entry (observer s)) as Ho.
  destruct (tookThePositionAlready entry (observer s)) as [o isTaken]; cbv zeta.
  destruct (_ || _); [|etransitivity; [|apply append_event_keeps]]; by apply with_observer_keeps.
Qed.

Lemma mirrorLedger_keeps update s : keeps s (mirrorLedger harness request update s).1.
Proof.
  unfold mirrorLedger; destruct (negb _); [done|]; destruct (ledgerRecordOfUpdate update); [|done]; cbv zeta; cbn [fst].
  etransitivity; [apply with_mirroring_keeps|]; etransitivity; [apply take_record_keeps|apply with_mirroring_keeps].
Qed.

Lemma record_positions update o : takenPositions (record (World := World) update o) = takenPositions o.
Proof. by destruct update as [[]|[]| | |]. Qed.

Lemma observeUpdate_keeps update s : keeps s (observeUpdate harness request update s).
Proof.
  unfold observeUpdate; pose proof (mirrorLedger_keeps update s) as Hm; destruct (mirrorLedger harness request update s) as [s1 isMirrored]; cbn [fst] in Hm.
  set (s2 := if isMirrored then s1 else _); assert (Hf : keeps s1 s2).
  { unfold s2, forwardToolCall; destruct isMirrored; [done|]; destruct (negb _); [done|]; destruct update; try done; apply with_host_keeps. }
  cbv zeta; set (s3 := routeCheckpoint _ _ _ s2); assert (Hr : keeps s2 s3).
  { unfold s3, routeCheckpoint; destruct (_ || _); [done|]; destruct update as [|[]| | |]; try done; destruct (checkpoint_marker _ _); [apply with_host_keeps|done]. }
  set (s4 := with_observer _ s3); assert (Ho : keeps s3 s4) by (apply with_observer_keeps; by rewrite record_positions).
  rewrite Hm, Hf, Hr, Ho; unfold noteToolCallEnded; destruct (control s4) eqn:Hc; [|done]; destruct update as [| | |[]|]; try done.
  destruct (_ || _); [by apply toolCallEnded_keeps|done].
Qed.

Lemma recordPermissionDecision_keeps eventName toolCall granted s : keeps s (recordPermissionDecision harness request eventName toolCall granted s).
Proof. unfold recordPermissionDecision; destruct (negb _); [done|]; destruct (marshal_permission _ _ _ _ _); [apply append_event_keeps|done]. Qed.

Lemma RequestPermission_keeps toolCall options s : keeps s (RequestPermission harness request toolCall options s).1.
Proof.
  unfold RequestPermission, allowWithoutAsking, askThePerson, recordSelectedOption, refuse; destruct (permissionAsker harness) as [ask|].
  - cbv zeta; destruct (_ || _); [apply recordPermissionDecision_keeps|]; destruct (ask _ _ (host s)) as [w [selected status]].
    destruct status, selected as [optionID|]; cbn [fst]; try destruct (find _ options); (etransitivity; [apply with_host_keeps|apply recordPermissionDecision_keeps]).
  - destruct (match first_of_kind _ _ with Some _ => _ | None => _ end); apply recordPermissionDecision_keeps.
Qed.

Lemma happen_keeps s happening : keeps s (happen harness request s happening).
Proof.
  destruct happening as [update|toolCall options|callMeta|change told]; cbn.
  - apply observeUpdate_keeps.
  - pose proof (RequestPermission_keeps toolCall options s) as Hp; destruct (RequestPermission _ _ _ _ s) as [s' answer]; cbn [fst] in Hp.
    by rewrite Hp, <- say_answered_keeps.
  - unfold takeCallLedger; apply (foldl_keeps keeps); intros s1 entry; apply take_record_keeps.
  - etransitivity; [apply with_host_keeps|apply heard_keeps].
Qed.

Lemma happenings_keep happenings s : keeps s (foldl (happen harness request) s happenings).
Proof. apply foldl_keeps; [apply _|apply happen_keeps]. Qed.

(** *** What becomes of what people say meanwhile *)

Definition prompts (said : list Outbound) : list (list ContentBlock) := omap (fun said => match said with Prompted blocks _ => Some blocks | _ => None end) said.
Definition passed_on (said : list Outbound) : list (string * SteerRequest) :=
  omap (fun said => match said with Extension method steer => Some (method, steer) | _ => None end) said.

(** The steers people make during a happening, and the records of its own the agent sends with it. *)
Definition steer_event (rawTurnEvent : RawTurnEvent) : option SteerRequest :=
  if bool_decide (Raw_Name rawTurnEvent = TaskEventTaskSteerRequested) then Some (steerOf (Raw_Body rawTurnEvent)) else None.

Definition steers_of (happening : Happening (World := World)) : list SteerRequest :=
  match happening with Elsewhere _ told => omap steer_event told | _ => [] end.

Definition records_of (happening : Happening (World := World)) : list LedgerRecord :=
  match happening with
  | Notified update => match ledgerRecordOfUpdate update with Some entry => [entry] | None => [] end
  | CallsTool callMeta => ledgerRecordsOfCallMeta callMeta
  | _ => []
  end.

(** The names of the events differ, appending an event tells of that event, and what the agent records is no steer. *)
Record plain_ledger (happenings : list (Happening (World := World))) : Prop := {
  steer_is_no_ask : TaskEventTaskSteerRequested <> TaskEventAskRequested /\ TaskEventTaskSteerRequested <> TaskEventAgentInputRequested;
  decision_is_no_steer : TaskEventHarnessToolPermitted <> TaskEventTaskSteerRequested /\ TaskEventHarnessToolRefused <> TaskEventTaskSteerRequested;
  told_of_itself : forall run event w told, told ∈ (AppendTaskEvent run event w).2 -> told = event;
  records_no_steer : forall happening entry, happening ∈ happenings -> entry ∈ records_of happening -> Record_Name entry <> TaskEventTaskSteerRequested;
}.

Definition pending (s : Session (World := World)) : list SteerRequest := match control s with Some c => pendingSteers c | None => [] end.
Definition cancels (s : Session (World := World)) : Z :=
  count is_cancelled (outbound s) - match control s with Some c => Z.b2z (hasCancelled c) | None => 0 end.

(** Steers that wait for a prompt, and those that go to the agent at once. *)
Definition kept (steers : list SteerRequest) : list SteerRequest := match steerExtension harness with None => steers | Some _ => [] end.
Definition passed (steers : list SteerRequest) : list (string * SteerRequest) :=
  match steerExtension harness with None => [] | Some method => pair method <$> steers end.

Definition attached (s : Session (World := World)) : Prop := isAttached s = true /\ is_Some (control s).

(** From one session to another nothing but these steers came. *)
Definition heeds (steers : list SteerRequest) (s s' : Session (World := World)) : Prop :=
  attached s' /\ prompts (outbound s') = prompts (outbound s) /\ pending s' = (pending s ++ kept steers)%list /\
  passed_on (outbound s') = (passed_on (outbound s) ++ passed steers)%list /\ cancels s' = cancels s + Z.of_nat (length (kept steers)).

Lemma heeds_nothing s s' : attached s' -> outbound s' = outbound s -> pending s' = pending s -> cancels s' = cancels s -> heeds [] s s'.
Proof.
  intros Ha Ho Hp Hc; split_and!; [done|by rewrite Ho| | |]; unfold kept, passed; destruct (steerExtension harness); rewrite ?Ho; cbn; rewrite ?app_nil_r; lia || done.
Qed.

Lemma heeds_refl s : attached s -> heeds [] s s.
Proof. intros Ha; by apply heeds_nothing. Qed.

Lemma heeds_trans steers1 steers2 s1 s2 s3 : heeds steers1 s1 s2 -> heeds steers2 s2 s3 -> heeds (steers1 ++ steers2) s1 s3.
Proof.
  intros (Ha & Hp & Hk & Ho & Hc) (Ha' & Hp' & Hk' & Ho' & Hc'); split_and!; [done|congruence| | |].
  - rewrite Hk', Hk; unfold kept; destruct (steerExtension harness); by rewrite <- ?app_assoc, ?app_nil_r.
  - rewrite Ho', Ho; unfold passed; destruct (steerExtension harness); by rewrite <- ?app_assoc, ?app_nil_r, ?fmap_app.
  - rewrite Hc', Hc; unfold kept; destruct (steerExtension harness); rewrite ?length_app; cbn; lia.
Qed.

Lemma heeds_foldl {A} (f : Session -> A -> Session) (steers : A -> list SteerRequest) l : (forall s a, a ∈ l -> attached s -> heeds (steers a) s (f s a)) ->
  forall s, attached s -> heeds (l ≫= steers) s (foldl f s l).
Proof.
  induction l as [|a l IH]; intros Hf s Hs; cbn; [by apply heeds_refl|]; assert (Ha : heeds (steers a) s (f s a)) by (apply Hf; [by left|done]).
  eapply heeds_trans; [exact Ha|]; apply IH; [intros s' a' Hin; apply Hf; by right|by destruct Ha].
Qed.

Lemma heeds_said steers said c c' s s' : attached s' -> control s = Some c -> control s' = Some c' -> outbound s' = (outbound s ++ [said])%list ->
  prompts [said] = [] -> passed_on [said] = passed steers -> pendingSteers c' = (pendingSteers c ++ kept steers)%list ->
  Z.b2z (is_cancelled said) = Z.of_nat (length (kept steers)) + Z.b2z (hasCancelled c') - Z.b2z (hasCancelled c) -> heeds steers s s'.
Proof.
  intros Ha Hc Hc' Ho Hprompt Hpass Hpend Hcan; unfold heeds, pending, cancels, prompts, passed_on in *; rewrite Hc, Hc', Ho, count_said, !omap_app, Hprompt, Hpass, app_nil_r.
  split_and!; [done..|lia].
Qed.

Section heeding.
Variable happenings : list (Happening (World := World)).
Hypothesis plain : plain_ledger happenings.

Lemma hear_heeds s rawTurnEvent : attached s -> heeds (match steer_event rawTurnEvent with Some steer => [steer] | None => [] end) s (hear harness request s rawTurnEvent).
Proof.
  destruct s as [o ctl mirroring is_attached out w]; intros [Ha [c Hc]]; cbn in Ha, Hc; subst; unfold hear; cbn [control isAttached]; unfold observe, steer_event.
  destruct (steer_is_no_ask _ plain) as [Hask Hinput]; destruct (bool_decide_reflect (Raw_Name rawTurnEvent = TaskEventTaskSteerRequested)) as [->|Hother].
  - rewrite !bool_decide_eq_false_2 by done; cbn [orb]; unfold steer; destruct (steerExtension harness) as [method|] eqn:Hext.
    + eapply heeds_said; unfold kept, passed; rewrite ?Hext; try reflexivity; [by split|by rewrite app_nil_r|cbn; lia].
    + eapply heeds_said; unfold kept, passed; rewrite ?Hext; try reflexivity; [by split|cbn; lia].
  - destruct (_ || _); [unfold noteParking; destruct (_ || _)|]; apply heeds_nothing; try reflexivity; by split.
Qed.

Lemma heard_heeds told s : attached s -> heeds (omap steer_event told) s (foldl (hear harness request) s told).
Proof.
  intros Hs; replace (omap steer_event told) with (told ≫= fun event => match steer_event event with Some steer => [steer] | None => [] end).
  - apply heeds_foldl; [intros; by apply hear_heeds|done].
  - induction told as [|event told IH]; [done|]; cbn; rewrite IH; by destruct (steer_event event).
Qed.

Lemma with_host_heeds w s : attached s -> heeds [] s (with_host w s).
Proof. intros Hs; by apply heeds_nothing. Qed.

Lemma then_heeds steers s1 s2 s3 : heeds [] s1 s2 -> heeds steers s2 s3 -> heeds steers s1 s3.
Proof. exact (heeds_trans [] steers s1 s2 s3). Qed.

Lemma append_event_heeds name body s : name <> TaskEventTaskSteerRequested -> attached s -> heeds [] s (append_event harness request name body s).
Proof.
  intros Hname Hs; unfold append_event; pose proof (told_of_itself _ plain (ExistingTaskRunID request) (MkRawEvent name body) (host s)) as Htold.
  destruct (AppendTaskEvent _ _ _) as [w told]; cbn [snd] in Htold; apply (then_heeds _ _ (with_host w s)); [by apply with_host_heeds|].
  replace (@nil SteerRequest) with (omap steer_event told) at 1; [by apply heard_heeds|]; clear -Htold Hname.
  induction told as [|event told IH]; [done|]; cbn; rewrite IH by (intros e He; apply Htold; by right).
  rewrite (Htold event) by left; unfold steer_event; by rewrite bool_decide_eq_false_2.
Qed.

Lemma take_record_heeds entry s : Record_Name entry <> TaskEventTaskSteerRequested -> attached s -> heeds [] s (take_record harness request entry s).
Proof.
  intros Hname Hs; unfold take_record; destruct (_ || _); [by apply heeds_refl|]; destruct (tookThePositionAlready entry (observer s)) as [o isTaken]; cbv zeta.
  assert (Ho : heeds [] s (with_observer o s)) by (by apply heeds_nothing); destruct (_ || _); [done|].
  eapply then_heeds; [exact Ho|]; by apply append_event_heeds.
Qed.

Lemma toolCallEnded_heeds c s : control s = Some c -> attached s -> heeds [] s (toolCallEnded harness request c s).
Proof.
  destruct s as [o ctl mirroring is_attached out w]; cbn [control]; intros -> [Ha _]; cbn in Ha; subst; unfold toolCallEnded; cbv zeta; cbn [host].
  destruct (hasParkedTheRun c); destruct (isRunParked _ _ _); destruct (hasCancelled c) eqn:Hc; cbn [andb orb negb];
    try (apply heeds_nothing; try reflexivity; [by split|unfold cancels; cbn; by rewrite Hc]).
  eapply heeds_said; unfold kept, passed; try reflexivity; destruct (steerExtension harness); try reflexivity; try (by split); cbn; rewrite ?app_nil_r, ?Hc; done.
Qed.

Lemma observeUpdate_heeds update s : Notified update ∈ happenings -> attached s -> heeds [] s (observeUpdate harness request update s).
Proof.
  intros Hin Hs; unfold observeUpdate; pose proof (records_no_steer _ plain (Notified update)) as Hnone; cbn [records_of] in Hnone.
  assert (Hm : heeds [] s (mirrorLedger harness request update s).1).
  { unfold mirrorLedger; destruct (negb _); [by apply heeds_refl|]; destruct (ledgerRecordOfUpdate update) as [entry|]; [|by apply heeds_refl]; cbv zeta; cbn [fst].
    assert (Hentry : Record_Name entry <> TaskEventTaskSteerRequested) by (apply Hnone; [done|left]).
    eapply then_heeds; [by apply (heeds_nothing s (with_mirroring (isMirroring s + 1) s))|].
    pose proof (take_record_heeds entry (with_mirroring (isMirroring s + 1) s) Hentry Hs) as Ht; eapply then_heeds; [exact Ht|]; apply heeds_nothing; [apply Ht|done..]. }
  destruct (mirrorLedger harness request update s) as [s1 isMirrored]; cbn [fst] in Hm.
  set (s2 := if isMirrored then s1 else _); assert (Hf : heeds [] s s2).
  { unfold s2, forwardToolCall; destruct isMirrored; [done|]; destruct (negb _); [done|]; destruct update; try done; (eapply then_heeds; [exact Hm|apply with_host_heeds, Hm]). }
  cbv zeta; set (s3 := routeCheckpoint _ _ _ s2); assert (Hr : heeds [] s s3).
  { unfold s3, routeCheckpoint; destruct (_ || _); [done|]; destruct update as [|[]| | |]; try done; destruct (checkpoint_marker _ _); [|done].
    eapply then_heeds; [exact Hf|apply with_host_heeds, Hf]. }
  set (s4 := with_observer _ s3); assert (Ho : heeds [] s s4) by (eapply then_heeds; [exact Hr|apply heeds_nothing; [apply Hr|done..]]).
  unfold noteToolCallEnded; destruct (control s4) eqn:Hc; [|done]; destruct update as [| | |[]|]; try done.
  destruct (_ || _); [|done]; eapply then_heeds; [exact Ho|]; apply toolCallEnded_heeds; [done|apply Ho].
Qed.

Lemma recordPermissionDecision_heeds eventName toolCall granted s : eventName <> TaskEventTaskSteerRequested -> attached s ->
  heeds [] s (recordPermissionDecision harness request eventName toolCall granted s).
Proof.
  intros Hname Hs; unfold recordPermissionDecision; destruct (negb _); [by apply heeds_refl|].
  destruct (marshal_permission _ _ _ _ _); [by apply append_event_heeds|by apply heeds_refl].
Qed.

Lemma RequestPermission_heeds toolCall options s : attached s -> heeds [] s (RequestPermission harness request toolCall options s).1.
Proof.
  destruct (decision_is_no_steer _ plain) as [Hpermit Hrefuse]; intros Hs.
  unfold RequestPermission, allowWithoutAsking, askThePerson, recordSelectedOption, refuse; destruct (permissionAsker harness) as [ask|].
  - cbv zeta; destruct (_ || _); [by apply recordPermissionDecision_heeds|]; destruct (ask _ _ (host s)) as [w [selected status]].
    destruct status, selected as [optionID|]; cbn [fst]; try destruct (find _ options);
      (eapply then_heeds; [by apply with_host_heeds|by apply recordPermissionDecision_heeds]).
  - destruct (match first_of_kind _ _ with Some _ => _ | None => _ end); by apply recordPermissionDecision_heeds.
Qed.

Lemma happen_heeds s happening : happening ∈ happenings -> attached s -> heeds (steers_of happening) s (happen harness request s happening).
Proof.
  intros Hin Hs; destruct happening as [update|toolCall options|callMeta|change told]; cbn [happen steers_of].
  - by apply observeUpdate_heeds.
  - pose proof (RequestPermission_heeds toolCall options s Hs) as Hp; destruct (RequestPermission _ _ _ _ s) as [s' answer]; cbn [fst] in Hp.
    eapply then_heeds; [exact Hp|]; destruct Hp as ([Ha [c Hc]] & _).
    eapply (heeds_said [] (Answered answer) c c); [split; [done|by eexists]|done|done|reflexivity|done|unfold passed; by destruct (steerExtension harness)| |];
      unfold kept; destruct (steerExtension harness); cbn; rewrite ?app_nil_r; lia || done.
  - unfold takeCallLedger; pose proof (records_no_steer _ plain (CallsTool callMeta)) as Hnone; cbn [records_of] in Hnone.
    pose proof (heeds_foldl (fun s entry => take_record harness request entry s) (fun _ => []) (ledgerRecordsOfCallMeta callMeta)) as Hall.
    assert (Hempty : forall l : list LedgerRecord, (l ≫= fun _ => @nil SteerRequest) = []) by (intros l; by induction l).
    rewrite <- (Hempty (ledgerRecordsOfCallMeta callMeta)); apply Hall; [|done]; intros s1 entry Hentry Hs1; apply take_record_heeds; [by apply Hnone|done].
  - eapply then_heeds; [by apply with_host_heeds|]; by apply heard_heeds.
Qed.

End heeding.

Definition steers_in (rounds : list (Round (World := World))) : list SteerRequest := rounds ≫= fun round => round.1 ≫= steers_of.

Lemma converse_heeds rounds : forall blocks meta s s' promptResponse, plain_ledger (rounds ≫= fst) -> attached s ->
  converse harness request blocks meta rounds s = Some (s', Ok promptResponse) ->
  exists played rest prompted c, rounds = (played ++ rest)%list /\ control s' = Some c /\ (hasParkedTheRun c = true \/ pendingSteers c = []) /\
    prompts (outbound s') = (prompts (outbound s) ++ blocks :: ((fun steer => [TextBlock (steerPrompt steer)]) <$> prompted))%list /\
    length played = S (length prompted) /\ (pending s ++ kept (steers_in played))%list = (prompted ++ pendingSteers c)%list /\
    passed_on (outbound s') = (passed_on (outbound s) ++ passed (steers_in played))%list /\
    cancels s' = cancels s + Z.of_nat (length (kept (steers_in played))).
Proof.
  induction rounds as [|[happenings answer] rounds IH]; [done|]; intros blocks meta s s' promptResponse Hplain Hs; cbn [converse].
  assert (Hhere : plain_ledger happenings) by (destruct Hplain as [? ? ? Hrec]; split; [done..|]; intros h e Hh; apply Hrec, elem_of_app; by left).
  assert (Hrest : plain_ledger (rounds ≫= fst)) by (destruct Hplain as [? ? ? Hrec]; split; [done..|]; intros h e Hh; apply Hrec, elem_of_app; by right).
  assert (Hsaid : attached (say (Prompted blocks meta) s)) by exact Hs.
  pose proof (heeds_foldl (happen harness request) steers_of happenings (fun s h => happen_heeds happenings Hhere s h) _ Hsaid) as (Ha1 & Hp1 & Hk1 & Ho1 & Hc1).
  set (s1 := foldl _ _ happenings) in *; destruct answer as [response|e]; [|done].
  assert (Hfirst : prompts (outbound s1) = (prompts (outbound s) ++ [blocks])%list) by (rewrite Hp1; unfold prompts; cbn [say outbound]; by rewrite omap_app).
  assert (Hpend : pending (say (Prompted blocks meta) s) = pending s) by done.
  assert (Hpass : passed_on (outbound (say (Prompted blocks meta) s)) = passed_on (outbound s)) by (unfold passed_on; cbn [say outbound]; rewrite omap_app; by rewrite app_nil_r).
  assert (Hcan : cancels (say (Prompted blocks meta) s) = cancels s) by (unfold cancels; cbn [say outbound control]; rewrite count_said; cbn; lia).
  rewrite Hpend in Hk1; rewrite Hpass in Ho1; rewrite Hcan in Hc1; clear Hpend Hpass Hcan Hp1.
  destruct Ha1 as [Hatt [c Hctl]]; unfold nextSteer; rewrite Hctl; assert (Hone : steers_in [(happenings, Ok response)] = (happenings ≫= steers_of)) by apply app_nil_r.
  assert (Hend : hasParkedTheRun c = true \/ pendingSteers c = [] -> s1 = s' -> exists played rest prompted c, ((happenings, Ok response) :: rounds) = (played ++ rest)%list /\ control s' = Some c /\ (hasParkedTheRun c = true \/ pendingSteers c = []) /\
    prompts (outbound s') = (prompts (outbound s) ++ blocks :: ((fun steer => [TextBlock (steerPrompt steer)]) <$> prompted))%list /\
    length played = S (length prompted) /\ (pending s ++ kept (steers_in played))%list = (prompted ++ pendingSteers c)%list /\
    passed_on (outbound s') = (passed_on (outbound s) ++ passed (steers_in played))%list /\
    cancels s' = cancels s + Z.of_nat (length (kept (steers_in played)))).
  { intros Hstop <-; exists [(happenings, Ok response)], rounds, [], c; rewrite Hone; split_and!; try done; unfold pending in Hk1; by rewrite Hctl in Hk1. }
  destruct (hasParkedTheRun c) eqn:Hparked; [intros [= Heq <-]; by apply Hend; [left|]|].
  destruct (pendingSteers c) as [|first waiting] eqn:Hwait; [intros [= Heq <-]; by apply Hend; [right|]|]; clear Hend.
  set (s2 := with_control _ s1); intros Hmore; apply IH in Hmore as (played & rest & prompted & c' & -> & Hc' & Hstop & Hprompts & Hlen & Hall & Hpassed & Hcancels);
    [|done|split; [done|by eexists]].
  exists ((happenings, Ok response) :: played), rest, (first :: prompted), c'; change (steers_in ((happenings, Ok response) :: played)) with ((happenings ≫= steers_of) ++ steers_in played)%list.
  assert (Hsplit : forall a b, kept (a ++ b) = (kept a ++ kept b)%list) by (intros; unfold kept; by destruct (steerExtension harness)).
  assert (Hsplit' : forall a b, passed (a ++ b) = (passed a ++ passed b)%list) by (intros; unfold passed; destruct (steerExtension harness); [by rewrite fmap_app|done]).
  assert (Hs1 : pending s1 = first :: waiting) by (unfold pending; by rewrite Hctl).
  assert (Hcs : cancels s2 = cancels s1) by (unfold cancels, s2; cbn [with_control outbound control hasCancelled]; by rewrite Hctl).
  split_and!; [done|done|done| |cbn; lia| | |].
  - rewrite Hprompts; change (outbound s2) with (outbound s1); rewrite Hfirst, <- app_assoc; done.
  - rewrite Hsplit, app_assoc, <- Hk1, Hs1; cbn [app]; f_equal; exact Hall.
  - rewrite Hpassed; change (outbound s2) with (outbound s1); by rewrite Ho1, Hsplit', app_assoc.
  - rewrite Hcancels, Hcs, Hc1, Hsplit, length_app; lia.
Qed.

(** C13. What a person says while the agent works, before its last answer, reaches the agent.  A turn
    observes its run, has no steer pending, and the agent has been asked nothing; the ledger tells of each event
    that is appended and no other, and the agent's own records are no steers.  When the conversation ends
    with an answer, after the rounds that were played: an agent that takes steers as an extension got every
    steer that came in those rounds, in order, and one prompt.  For any other agent the prompts are that of the turn and then
    one per steer, in the order in which the steers came, and every steer that came was prompted, save those that
    are pending where the run waits for a person; and the agent was cancelled once for every steer and
    once more if it was for the wait.  A steer that comes after the last answer is not among these: see
    [late_steers_are_not_prompted]. *)
Theorem steers_reach_the_agent blocks meta rounds s s' promptResponse : plain_ledger (rounds ≫= fst) ->
  control s = Some (MkControl [] false false) -> isAttached s = true ->
  count is_cancelled (outbound s) = 0 -> prompts (outbound s) = [] -> passed_on (outbound s) = [] ->
  converse harness request blocks meta rounds s = Some (s', Ok promptResponse) ->
  exists played rest c, rounds = (played ++ rest)%list /\ control s' = Some c /\
    let came := steers_in played in
    match steerExtension harness with
    | Some method => passed_on (outbound s') = pair method <$> came /\ prompts (outbound s') = [blocks] /\ length played = 1%nat
    | None => exists prompted, came = (prompted ++ pendingSteers c)%list /\ (hasParkedTheRun c = true \/ pendingSteers c = []) /\
        prompts (outbound s') = blocks :: ((fun steer => [TextBlock (steerPrompt steer)]) <$> prompted) /\ length played = S (length prompted) /\
        count is_cancelled (outbound s') = Z.of_nat (length came) + Z.b2z (hasCancelled c)
    end.
Proof.
  intros Hplain Hc Ha Hcan Hprompt Hpass Hconv; apply converse_heeds in Hconv as (played & rest & prompted & c & -> & Hc' & Hstop & Hp & Hlen & Hall & Ho & Hcs);
    [|done|split; [done|by eexists]].
  exists played, rest, c; split; [done|]; split; [done|]; unfold pending, cancels, kept, passed in *; rewrite Hc, Hc', ?Hcan, ?Hprompt, ?Hpass in *.
  destruct (steerExtension harness) as [method|]; cbn [app hasCancelled pendingSteers Z.b2z length] in *.
  - destruct prompted; [|done]; by split_and!.
  - exists prompted; split_and!; [done..|lia].
Qed.

(** A steer that comes after the last answer is kept for a prompt that does not follow. *)
Lemma late_steers_are_not_prompted script s body c : steerExtension harness = None -> control s = Some c -> isAttached s = true ->
  TaskEventTaskSteerRequested <> TaskEventAskRequested -> TaskEventTaskSteerRequested <> TaskEventAgentInputRequested ->
  script = [Elsewhere id [MkRawEvent TaskEventTaskSteerRequested body]] ->
  let s' := foldl (happen harness request) s script in
  (exists c', control s' = Some c' /\ pendingSteers c' = (pendingSteers c ++ [steerOf body])%list) /\
  prompts (outbound s') = prompts (outbound s).
Proof.
  intros Hext Hc Ha Hask Hin ->; cbn; unfold hear; destruct s as [o ctl m a out w]; cbn in Hc, Ha |- *; subst; cbn.
  unfold observe; cbn [Raw_Name Raw_Body]; rewrite !bool_decide_eq_false_2, bool_decide_eq_true_2 by done; cbn [orb]; unfold steer; rewrite Hext; cbn.
  split; [by eexists|]; unfold prompts; by rewrite omap_app, app_nil_r.
Qed.

(** ** The mirrored ledger *)

Lemma taken_position entry s : Position entry <> 0 -> isActive harness request = true -> Record_Name entry ∉ default [] (ledgerExchange harness) ->
  Position entry ∈ takenPositions (observer (take_record harness request entry s)).
Proof.
  intros Hp Ha Hs; unfold take_record; rewrite Ha, bool_decide_eq_false_2 by done; cbn [negb orb].
  unfold tookThePositionAlready; rewrite (proj2 (Z.eqb_neq _ _) Hp); case_bool_decide as Hin; [by destruct s|].
  cbn [orb]; set (s1 := with_observer _ s); assert (Position entry ∈ takenPositions (observer s1)) by (by apply elem_of_union_l, elem_of_singleton).
  destruct (hostRecordedTheCancellation _ _ _); [done|]; destruct (append_event_keeps (Record_Name entry) (EventBody entry) s1) as (Hsub & _ & _); by apply Hsub.
Qed.

(** C25. A record of the agent's ledger is taken once.  An agent sends each of its records twice, with the
    call it precedes and as an update: the record that was taken at a position is not taken again, whatever
    happens between. *)
Theorem ledger_records_are_taken_once entry happenings s : Position entry <> 0 ->
  let taken := foldl (happen harness request) (take_record harness request entry s) happenings in
  take_record harness request entry taken = taken.
Proof.
  intros Hp taken; destruct (isActive harness request) eqn:Ha; [|unfold take_record; by rewrite Ha].
  destruct (decide (Record_Name entry ∈ default [] (ledgerExchange harness))) as [Hs|Hs].
  { unfold take_record; rewrite (bool_decide_eq_true_2 _ Hs); by rewrite orb_true_r. }
  pose proof (taken_position entry s Hp Ha Hs) as Hin.
  destruct (happenings_keep happenings (take_record harness request entry s)) as (Hsub & _ & _); fold taken in Hsub.
  unfold take_record; rewrite Ha, bool_decide_eq_false_2 by done; cbn [negb orb].
  unfold tookThePositionAlready; rewrite (proj2 (Z.eqb_neq _ _) Hp), bool_decide_eq_true_2 by set_solver; cbn [orb]; by destruct taken.
Qed.

(** ** Permissions *)



Abbreviation PermissionAsker := (ApprovalGate.ApprovalRequest -> ApprovalGate.HarnessPermissionQuestion -> World -> World * (option string * ApprovalGate.AskStatus)).









(** ** The tools an agent is given, and what becomes of its run *)

Lemma converse_servers rounds : forall blocks meta s s' ended, converse harness request blocks meta rounds s = Some (s', ended) ->
  servers (outbound s') = servers (outbound s).
Proof.
  induction rounds as [|[happenings answer] rounds IH]; [done|]; intros blocks meta s s' ended; cbn.
  destruct (happenings_keep happenings (say (Prompted blocks meta) s)) as (_ & _ & Hs); cbn [say outbound] in Hs; rewrite servers_said in Hs by done.
  set (s1 := foldl _ _ happenings) in *; destruct answer as [response|e]; [|by intros [= <- <-]].
  unfold nextSteer; destruct (control s1) as [c|]; [destruct (hasParkedTheRun c); [|destruct (pendingSteers c)]|]; try (by intros [= <- <-]).
  intros Hrest; apply IH in Hrest; by rewrite Hrest.
Qed.

Lemma happenings_servers happenings s : servers (outbound (foldl (happen harness request) s happenings)) = servers (outbound s).
Proof. by destruct (happenings_keep happenings s) as (_ & _ & ?). Qed.

Lemma conduct_servers `{CliHarness.AgentDocuments} script endpointURL bearerToken s s' ended :
  conduct harness request script endpointURL bearerToken s = Some (s', ended) -> servers (outbound s) = [] ->
  forall server, server ∈ servers (outbound s') -> exists takesHttp, toolCatalogServer harness takesHttp endpointURL bearerToken = Ok server.
Proof.
  unfold conduct; intros Hrun Hs; assert (Hs0 : servers (outbound (say Initialized s)) = []) by (cbn [say outbound]; by rewrite servers_said).
  destruct (script_initialized script) as [[takesHttp acceptsImages]|e]; [|injection Hrun as <- <-; rewrite Hs0; by intros server ?%elem_of_nil].
  destruct (toolCatalogServer harness takesHttp endpointURL bearerToken) as [opened|e] eqn:Hopen; [|injection Hrun as <- <-; rewrite Hs0; by intros server ?%elem_of_nil].
  set (s1 := foldl _ _ (script_early script)) in *; assert (Hs1 : servers (outbound s1) = [opened]).
  { unfold s1; rewrite happenings_servers; cbn [say outbound] in Hs0 |- *; unfold servers in *; by rewrite omap_app, Hs0. }
  assert (Hgoal : servers (outbound s') = [opened]).
  { destruct (script_session script); [|by injection Hrun as <- <-]; cbv zeta in Hrun.
    destruct (converse _ _ _ _ _ _) as [[s2 [response|e]]|] eqn:Hconv in Hrun; [| |done]; apply converse_servers in Hconv; cbn [newTurnControl with_host outbound] in Hconv.
    - destruct (match carriedTurnResult _ response with Some _ => _ | None => _ end) as [w result] in Hrun; injection Hrun as <- <-.
      cbn [stop with_host outbound]; by rewrite happenings_servers, Hconv.
    - injection Hrun as <- <-; cbn [stop outbound]; by rewrite Hconv. }
  rewrite Hgoal; intros server ->%list_elem_of_singleton; by exists takesHttp.
Qed.

(** The token a server is reached with. *)
Definition server_tokens (server : McpServer) : list string :=
  match server with
  | HttpServer _ _ headers => omap (fun header => CutPrefix header.2 "Bearer ") headers
  | StdioServer _ _ _ environment => (fun variable => variable.2) <$> List.filter (fun variable => bool_decide (variable.1 = CatalogTokenEnvironmentName)) environment
  end.

Lemma toolCatalogServer_tokens takesHttp endpointURL bearerToken server :
  toolCatalogServer harness takesHttp endpointURL bearerToken = Ok server -> server_tokens server = [bearerToken].
Proof.
  unfold toolCatalogServer; destruct takesHttp; [intros [= <-]|destruct (bool_decide _); [done|intros [= <-]; reflexivity]].
  cbn [server_tokens omap list_omap snd]; unfold CutPrefix; rewrite bytes_of_app, strip_prefix_app; cbn [fmap option_fmap option_map]; by rewrite of_bytes_of.
Qed.

(** A conversation was had with a process that was started as the requester. *)
Lemma RunTurn_started `{CliHarness.AgentDocuments} runner script w w' s ended : requesterProcessRunner harness = Some runner ->
  RunTurn harness request script w = Some (w', Some s, ended) ->
  let '(host0, bearerToken) := acp_newSessionToken (outside w) in
  let root := if blank (harness_workspaceRootPath harness) then WorkspaceRootPath request else harness_workspaceRootPath harness in
  let found := runner (RequesterPersonID request) root host0 in
  exists command actor endpointURL host', agentProcess harness = Some (CommandProcess command) /\ blank (Path command) = false /\
    found.2 = Ok (actor, true) /\
    start_process (CliHarness.AsRequester actor) (requester_process command (WorkspaceRootPath request)) found.1 = (host', None) /\
    conduct harness request script endpointURL bearerToken (no_session host') = Some (s, ended) /\ tokens w' !! bearerToken = None.
Proof.
  intros Hrunner; unfold RunTurn; destruct (agentProcess harness) as [process|]; [|done]; destruct (toolCatalogPublisher harness) as [endpointURL|]; [|done].
  destruct (blank (RequesterPersonID request)) eqn:Hb; [done|]; unfold CliHarness.GrantSessionToken; cbn [published_tool_set CliHarness.RequesterPersonID CliHarness.hasToolSet].
  rewrite Hb; destruct (hasToolSet request); cbn [orb negb]; [|done].
  destruct (acp_newSessionToken (outside w)) as [host0 bearerToken]; cbv zeta.
  unfold startAgent; rewrite Hrunner; destruct process as [command|]; [|done]; set (root := if blank (harness_workspaceRootPath harness) then _ else _).
  destruct (runner (RequesterPersonID request) root host0) as [w1 [[actor canStart]|e]]; [|done]; destruct canStart; cbn [negb]; [|done].
  destruct (blank (Path command)) eqn:Hpath; [done|].
  destruct (start_process _ _ w1) as [w2 [e|]] eqn:Hstart; [done|]; destruct (conduct _ _ _ _ _ _) as [[s2 result]|] eqn:Hconduct; [|done]; intros [= <- <- <-].
  exists command, actor, endpointURL, w2; split_and!; try done; by apply lookup_delete_eq.
Qed.

(** C12. An agent works as its requester, with the tools of its requester.  Where the processes of
    requesters are configured, an agent is conversed with only when its program was started as the person who asked;
    the servers of tools it was given are reached with the token that was drawn for the turn and no other; and
    the token is gone when the turn ends, whatever the agent did and other turns did. *)
Theorem agents_work_as_their_requester `{CliHarness.AgentDocuments} runner script w w' s ended : requesterProcessRunner harness = Some runner ->
  RunTurn harness request script w = Some (w', Some s, ended) ->
  let '(host0, bearerToken) := acp_newSessionToken (outside w) in
  let root := if blank (harness_workspaceRootPath harness) then WorkspaceRootPath request else harness_workspaceRootPath harness in
  (exists command actor, agentProcess harness = Some (CommandProcess command) /\ blank (Path command) = false /\
    (runner (RequesterPersonID request) root host0).2 = Ok (actor, true) /\
    (start_process (CliHarness.AsRequester actor) (requester_process command (WorkspaceRootPath request)) (runner (RequesterPersonID request) root host0).1).2 = None) /\
  (forall server, server ∈ servers (outbound s) -> server_tokens server = [bearerToken]) /\
  tokens w' !! bearerToken = None.
Proof.
  intros Hrunner Hrun; pose proof (RunTurn_started runner script w w' s ended Hrunner Hrun) as Hstarted.
  destruct (acp_newSessionToken (outside w)) as [host0 bearerToken].
  destruct Hstarted as (command & actor & endpointURL & host' & Hcommand & Hpath & Hactor & Hstart & Hconduct & Htoken).
  intros root; split_and!; [exists command, actor; split_and!; try done; unfold root; by rewrite Hstart| |done].
  intros server Hin; eapply conduct_servers in Hconduct as [takesHttp Hserver]; [|done|exact Hin]; by eapply toolCatalogServer_tokens.
Qed.

(** A run that waits for a person when its turn ends is left as it is, and told as it is. *)
Lemma parked_runs_are_left_as_they_are carried w : hasTaskRunStore harness = true -> blank (ExistingTaskRunID request) = false ->
  isParked (TrimSpace (ExistingTaskRunID request)) w = true ->
  let '(w', result) := settledTurnResult harness request carried w in
  w' = w /\ FindTaskRun (TrimSpace (ExistingTaskRunID request)) w = Some (Turn_TaskRun (Result_Turn result)) /\ FinishMessage (Result_Turn result) = "" /\
  UserNotice (Result_Turn result) = Run_FailureReason (Turn_TaskRun (Result_Turn result)).
Proof.
  intros Hs Hb Hp; unfold settledTurnResult, parkedTurnResult; rewrite Hs, Hp; unfold blank in Hb; rewrite Hb; cbn.
  revert Hp; unfold isParked; by destruct (FindTaskRun _ w).
Qed.

End steering.

(** ** A host, for the witnesses: the events of the one run *)

#[local] Instance acp_toy_host : AcpHost (list RawTurnEvent) := {|
  Meta := option LedgerRecord;
  ledger_of_meta meta := meta;
  ledgers_of_meta meta := option_map (fun record => [record]) meta;
  checkpoint_marker _ _ := None;
  turn_result_of_meta _ _ := None;
  EventBody := Record_Text;
  unmarshal_string _ document := document;
  json_valid _ := true;
  json_quote document := document;
  marshal_permission id _ _ _ _ := Some id;
  ToolTaskEventToolName name suffix := CutPrefix name "tool.";
  TaskEventAskRequested := "ask.requested";
  TaskEventAgentInputRequested := "agent.input_requested";
  TaskEventTaskSteerRequested := "task.steer.requested";
  TaskEventHarnessToolPermitted := "harness.permitted";
  TaskEventHarnessToolRefused := "harness.refused";
  ToolTaskEventPrefix := "tool.";
  ToolTaskEventCancelledSuffix := ".cancelled";
  ToolTaskEventRequestedSuffix := ".requested";
  LedgerMetaKey := "ledger";
  CarriedOutCallMetaKey := "carried";
  AgentPartTypeImage := "image";
  Preamble _ := "";
  DeclinedCallNote _ := "";
  ListTaskEvent _ w := w;
  AppendTaskEvent _ event w := ((w ++ [event])%list, [event]);
  FindTaskRun _ _ := None;
  CompleteTaskRun _ _ w := w;
  FailTaskRun _ _ w := w;
  PauseTaskRun _ _ _ w := w;
  AdvanceTaskRun _ _ w := w;
  narrate _ w := w;
  send_checkpoint _ _ _ w := w;
  acp_newSessionToken w := (w, "token");
  acp_Actor := string;
  start_process _ _ w := (w, None);
  start_inside w := (w, None);
  acp_other_turns tokens := tokens;
|}.

#[local] Instance acp_toy_documents : CliHarness.AgentDocuments := {|
  CliHarness.Quote text := text;
  CliHarness.decode_codex_event _ := None;
  CliHarness.decode_antigravity _ := None;
  CliHarness.decode_verdict _ := None;
  CliHarness.antigravity_document _ _ := "";
|}.

Definition toy_runner (person root : string) (w : list RawTurnEvent) : list RawTurnEvent * result string (string * bool) := (w, Ok (person, true)).

Definition toy_harness : Harness (World := list RawTurnEvent) :=
  MkHarness (Some (CommandProcess (MkCommand "/bin/agent" [] "" []))) (Some "https://catalog") true None (Some toy_runner) "" None "" None "" (Some []) "" None
    false false.

Definition acp_toy_turn : AgentTurnRequest := MkTurn "p1" "run-1" "" "hello" "en" "" "" "" "/home/p1" "" [] [] false true false.

Definition steered : Happening (World := list RawTurnEvent) := Elsewhere id [MkRawEvent "task.steer.requested" "stop"].
Definition answered : result string (PromptResponse (World := list RawTurnEvent)) := Ok (MkPromptResponse StopEndTurn None).

Definition toy_session : Session (World := list RawTurnEvent) := newTurnControl toy_harness acp_toy_turn (no_session []).

Definition second_steered : Happening (World := list RawTurnEvent) := Elsewhere id [MkRawEvent "task.steer.requested" "wait"].

Definition steered_rounds : list (Round (World := list RawTurnEvent)) := [([steered; second_steered], answered); ([], answered); ([], answered)].

Lemma toy_plain_ledger : plain_ledger (steered_rounds ≫= fst).
Proof.
  split; [done|done| |].
  - intros run event w told Hin; cbn in Hin; by apply list_elem_of_singleton in Hin.
  - intros happening entry Hin; cbn in Hin; apply elem_of_cons in Hin as [->|[->|[]%not_elem_of_nil]%elem_of_cons]; cbn; by intros ?%not_elem_of_nil.
Qed.

Lemma steers_reach_the_agent_witness :
  match converse toy_harness acp_toy_turn [] None steered_rounds toy_session with
  | Some (s', Ok _) => steers_in steered_rounds = [MkSteer "stop" "stop" "stop"; MkSteer "wait" "wait" "wait"] /\
      prompts (outbound s') = [[]; [TextBlock (steerPrompt (MkSteer "stop" "stop" "stop"))]; [TextBlock (steerPrompt (MkSteer "wait" "wait" "wait"))]] /\
      exists played rest c, steered_rounds = (played ++ rest)%list /\ control s' = Some c /\
        exists prompted, steers_in played = (prompted ++ pendingSteers c)%list /\ (hasParkedTheRun c = true \/ pendingSteers c = []) /\
          prompts (outbound s') = [] :: ((fun steer => [TextBlock (steerPrompt steer)]) <$> prompted) /\ length played = S (length prompted) /\
          count is_cancelled (outbound s') = Z.of_nat (length (steers_in played)) + Z.b2z (hasCancelled c)
  | _ => False
  end.
Proof.
  pose proof (fun s' r => steers_reach_the_agent toy_harness acp_toy_turn [] None steered_rounds toy_session s' r toy_plain_ledger eq_refl eq_refl eq_refl eq_refl eq_refl) as Ht.
  destruct (converse toy_harness acp_toy_turn [] None steered_rounds toy_session) as [[s' [r|e]]|] eqn:Hc; [|by vm_compute in Hc|by vm_compute in Hc].
  split; [by vm_compute|]; split; [|exact (Ht s' r eq_refl)]; vm_compute in Hc; injection Hc as <- _; by vm_compute.
Defined.

Definition toy_record : LedgerRecord := MkRecord "tool.note.requested" "" "{}" 4.

Lemma ledger_records_are_taken_once_witness :
  Position toy_record <> 0 /\
  let taken := foldl (happen toy_harness acp_toy_turn) (take_record toy_harness acp_toy_turn toy_record toy_session) [steered] in
  host taken = [MkRawEvent "tool.note.requested" "{}"] /\ take_record toy_harness acp_toy_turn toy_record taken = taken.
Proof.
  split; [done|]; intros taken; split; [by vm_compute|].
  by apply (ledger_records_are_taken_once toy_harness acp_toy_turn toy_record [steered] toy_session).
Defined.

Definition toy_script : AgentScript (World := list RawTurnEvent) := MkScript (Ok (true, false)) (Ok tt) [] steered_rounds [] [].

Lemma agents_work_as_their_requester_witness :
  match RunTurn toy_harness acp_toy_turn toy_script (MkTurnWorld ∅ []) with
  | Some (w', Some s, _) => length (servers (outbound s)) = 1%nat /\ (forall server, server ∈ servers (outbound s) -> server_tokens server = ["token"]) /\
      tokens w' !! "token" = None
  | _ => False
  end.
Proof.
  pose proof (fun w' s ended => agents_work_as_their_requester toy_harness acp_toy_turn toy_runner toy_script (MkTurnWorld ∅ []) w' s ended eq_refl) as Ht.
  destruct (RunTurn toy_harness acp_toy_turn toy_script (MkTurnWorld ∅ [])) as [[[w' [s|]] ended]|] eqn:Hr; [|by vm_compute in Hr|by vm_compute in Hr].
  destruct (Ht w' s ended eq_refl) as (_ & Hservers & Htoken); split; [|split; [exact Hservers|exact Htoken]].
  vm_compute in Hr; injection Hr as _ <- _; by vm_compute.
Defined.
