(* ===== verification/ToolCatalog.v ===== *)
(** * The catalog of tools an agent is served ([mcpserver/tool_catalog_server.go], [published_tools.go],
    [stdio_bridge.go]), and the harness a deployment runs ([harnessselection/selection.go])

    A catalog publishes the tools of one requester; a call goes to the requester's tool set, in the
    requester's run.  The tool set and the server of the protocol are libraries: a class. *)

From S2P Require Export TaskRuns GoText.
From S2P Require GoBase64 CliHarness AcpHarness.

Module Catalog.

(** ** Data *)

Record ToolDescriptor := MkDescriptor {
  Name : string;
  Description : string;
  InputSchema : string;
  OutputSchema : string;
  SideEffectClass : string;
  RequiresApproval : bool;
  Visibility : string;
  IsOfferedOnRequest : bool;
  IsHostGated : bool;
}.

Record ToolAttachment := MkAttachment { ContentType : string; ContentBase64 : string; DevicePath : string }.

Record ToolFailure := MkFailure { Code : string; UserSafeSummary : string }.

Record ToolResult := MkResult { Failure : option ToolFailure; Content : string; Data : string; Attachments : list ToolAttachment }.

Inductive ToolAudience := ToolAudienceSelfEquipped | ToolAudienceBare.

#[export] Instance ToolAudience_eq_dec : EqDecision ToolAudience.
Proof. solve_decision. Defined.

(** What the server of the protocol is given and answers. *)
Inductive McpContent := TextContent (text : string) | ImageContent (data mimeType : string) | EmbeddedResource (URI mimeType blob : string).

(** The constants and the tool set of blueprotocol, and encoding/json. *)
Class CatalogLibrary (World : Type) := {
  JSON : Type;
  CallMeta : Type;
  ToolSet : Type;
  unmarshal_object : string -> option JSON;
  unmarshal_any : string -> option JSON;
  Failed : ToolResult -> bool;
  ListDescribedToolDefinitions : ToolSet -> list ToolDescriptor;
  ListRegisteredToolDefinitions : ToolSet -> list ToolDescriptor;
  IsAllowed : ToolSet -> string -> bool;
  IsBuiltInTool : ToolSet -> string -> bool;
  CanExpose : ToolSet -> string -> bool;
  HasToolCallGate : ToolSet -> bool;
  WithAllowedToolNames : ToolSet -> list string -> ToolSet;
  (** the run it is called in, the tool and its input *)
  Invoke : ToolSet -> string -> string -> string -> World -> World * (ToolResult * option string);
  BashToolName : string; FileReadToolName : string; WriteToolName : string; EditToolName : string; FilePreviewToolName : string;
  ImageReadToolName : string; PlanToolName : string; EquipToolName : string; SkillSearchToolName : string;
  ToolVisibilityInternal : string;
  ToolSideEffectRead : string; ToolSideEffectNone : string; ToolSideEffectComputation : string; ToolSideEffectDestructive : string;
}.

Section catalog.
Context {World : Type} `{CatalogLibrary World, UnicodeTables}.

Record RequesterToolSet := MkToolSet {
  RequesterPersonID : string;
  TaskRunID : string;
  tool_set : option ToolSet;
  audience : ToolAudience;
  ObserveToolInvocation : option (string -> ToolResult -> bool -> World -> World);
  TakeCallLedger : option (CallMeta -> World -> World);
}.

Record McpTool := MkTool {
  Tool_Name : string;
  Tool_Description : string;
  Tool_InputSchema : JSON;
  Tool_OutputSchema : option JSON;
  ReadOnlyHint : bool;
  DestructiveHint : bool;
  Tool_Descriptor : ToolDescriptor;
}.

Record CallToolResult := MkCallResult { Result_Content : list McpContent; IsError : bool; StructuredContent : option JSON }.

(** ** What is published *)

Definition harnessOwnedToolNames : list string :=
  [BashToolName; FileReadToolName; WriteToolName; EditToolName; FilePreviewToolName; ImageReadToolName; PlanToolName; EquipToolName; SkillSearchToolName].

Definition isPublishedToAudience (toolDescriptor : ToolDescriptor) (audience : ToolAudience) : bool :=
  if negb (bool_decide (audience = ToolAudienceSelfEquipped)) then true else negb (bool_decide (Name toolDescriptor ∈ harnessOwnedToolNames)).

Definition isCallableByTheLoop (toolSet : ToolSet) (toolDescriptor : ToolDescriptor) : bool :=
  IsAllowed toolSet (Name toolDescriptor) || IsBuiltInTool toolSet (Name toolDescriptor) || bool_decide (Visibility toolDescriptor = ToolVisibilityInternal).

Definition callableAndSelectableToolDescriptors (toolSet : ToolSet) : list ToolDescriptor :=
  List.filter (fun toolDescriptor => isCallableByTheLoop toolSet toolDescriptor || CanExpose toolSet (Name toolDescriptor)) (ListRegisteredToolDefinitions toolSet).

Definition publishedToolDescriptors (toolAudience : ToolAudience) (toolSet : ToolSet) : list ToolDescriptor :=
  if bool_decide (toolAudience = ToolAudienceBare) then callableAndSelectableToolDescriptors toolSet
  else List.filter (fun toolDescriptor => isPublishedToAudience toolDescriptor toolAudience) (ListDescribedToolDefinitions toolSet).

Definition with_offer (isOffered : bool) (d : ToolDescriptor) : ToolDescriptor :=
  MkDescriptor (Name d) (Description d) (InputSchema d) (OutputSchema d) (SideEffectClass d) (RequiresApproval d) (Visibility d) isOffered (IsHostGated d).

Definition markedOfferedOnRequest (toolAudience : ToolAudience) (toolSet : ToolSet) (published : list ToolDescriptor) : list ToolDescriptor :=
  if negb (bool_decide (toolAudience = ToolAudienceBare)) then published else
  (fun toolDescriptor => with_offer (negb (isCallableByTheLoop toolSet toolDescriptor)) toolDescriptor) <$> published.

Definition toolSetAllowingEveryPublishedTool (toolAudience : ToolAudience) (toolSet : ToolSet) (published : list ToolDescriptor) : ToolSet :=
  if negb (bool_decide (toolAudience = ToolAudienceBare)) then toolSet else WithAllowedToolNames toolSet (Name <$> published).

Definition markedHostGated (d : ToolDescriptor) (toolSet : ToolSet) : ToolDescriptor :=
  MkDescriptor (Name d) (Description d) (InputSchema d) (OutputSchema d) (SideEffectClass d) (RequiresApproval d) (Visibility d) (IsOfferedOnRequest d)
    (RequiresApproval d && HasToolCallGate toolSet).

Definition LeavesEnvironmentUnchanged (sideEffectClass : string) : bool :=
  bool_decide (sideEffectClass ∈ [ToolSideEffectRead; ToolSideEffectNone; ToolSideEffectComputation]).

Definition servableTool (d : ToolDescriptor) : option McpTool :=
  if bool_decide (InputSchema d = "") then None else
  match unmarshal_object (InputSchema d) with
  | None => None
  | Some decodedSchema =>
    Some (MkTool (Name d) (Description d) decodedSchema (if bool_decide (OutputSchema d = "") then None else unmarshal_object (OutputSchema d))
      (LeavesEnvironmentUnchanged (SideEffectClass d)) (bool_decide (SideEffectClass d = ToolSideEffectDestructive)) d)
  end.

(** ** Results of calls *)

Definition resultText (toolResult : ToolResult) : string :=
  match Failure toolResult with Some failure => Code failure +:+ ": " +:+ UserSafeSummary failure | None => Content toolResult end.

Definition is_image (attachment : ToolAttachment) : bool := HasPrefix (ToLower (TrimSpace (ContentType attachment))) "image/".

(** The content of an attachment, where it decodes to some. *)
Definition attached_data (attachment : ToolAttachment) : option string :=
  match GoBase64.StdEncoding.DecodeString (TrimSpace (ContentBase64 attachment)) with
  | Some data => if bool_decide (data = "") then None else Some data
  | None => None
  end.

Definition imageContents (toolResult : ToolResult) : list McpContent :=
  omap (fun attachment => if negb (is_image attachment) then None else
    (fun data => ImageContent data (TrimSpace (ContentType attachment))) <$> attached_data attachment) (Attachments toolResult).

Definition fileContents (toolResult : ToolResult) : list McpContent :=
  omap (fun attachment => if is_image attachment || blank (DevicePath attachment) then None else
    (fun data => EmbeddedResource ("file://" +:+ DevicePath attachment) (TrimSpace (ContentType attachment)) data) <$> attached_data attachment)
    (Attachments toolResult).

Definition missingStructuredContentResult (toolName : string) : CallToolResult :=
  MkCallResult [TextContent (toolName +:+ " publishes an output schema but returned no structured result, so the runtime cannot hand you one that conforms to it. This is a defect in the tool, not in your call.")]
    true None.

Definition callToolResult (toolResult : ToolResult) (hasOutputSchema : bool) (toolName : string) : CallToolResult :=
  let result := MkCallResult (TextContent (resultText toolResult) :: imageContents toolResult ++ fileContents toolResult)%list (Failed toolResult) None in
  if negb hasOutputSchema || Failed toolResult then result else
  match (if bool_decide (Data toolResult = "") then None else unmarshal_any (Data toolResult)) with
  | None => missingStructuredContentResult toolName
  | Some structuredContent => MkCallResult (Result_Content result) (IsError result) (Some structuredContent)
  end.

Definition invokeThroughToolSet (requesterToolSet : RequesterToolSet) (toolSet : ToolSet) (toolName : string) (hasOutputSchema : bool)
    (arguments : string) (callMeta : CallMeta) (w : World) : World * result string CallToolResult :=
  let w := match TakeCallLedger requesterToolSet with Some takeLedger => takeLedger callMeta w | None => w end in
  let '(w, (toolResult, failed)) := Invoke toolSet (TrimSpace (TaskRunID requesterToolSet)) toolName arguments w in
  let isSucceeded := match failed, Failure toolResult with None, None => true | _, _ => false end in
  let w := match ObserveToolInvocation requesterToolSet with Some observeCall => observeCall toolName toolResult isSucceeded w | None => w end in
  match failed with
  | Some e => (w, Err e)
  | None => (w, Ok (callToolResult toolResult hasOutputSchema toolName))
  end.

(** The tools served, by their names: a tool that is added replaces the one of its name. *)
Abbreviation ToolServer := (gmap string McpTool).

Definition NewToolCatalogServer (requesterToolSet : RequesterToolSet) : result string (ToolServer * ToolSet) :=
  if blank (RequesterPersonID requesterToolSet) then Err "tool catalog server refuses to serve a tool set with no requester" else
  match tool_set requesterToolSet with
  | None => Err "tool catalog server requires a tool set"
  | Some toolSet =>
    let published := publishedToolDescriptors (audience requesterToolSet) toolSet in
    let published := markedOfferedOnRequest (audience requesterToolSet) toolSet published in
    let toolSet := toolSetAllowingEveryPublishedTool (audience requesterToolSet) toolSet published in
    Ok (foldl (fun server d => match servableTool (markedHostGated d toolSet) with
      | None => server
      | Some tool => <[Tool_Name tool := tool]> server
      end) ∅ published, toolSet)
  end.

(** A call of a tool that is served; [None]: the server knows no such tool. *)
Definition CallTool (requesterToolSet : RequesterToolSet) (served : ToolServer * ToolSet) (toolName arguments : string) (callMeta : CallMeta) (w : World)
    : option (World * result string CallToolResult) :=
  tool ← served.1 !! toolName;
  Some (invokeThroughToolSet requesterToolSet served.2 toolName (match Tool_OutputSchema tool with Some _ => true | None => false end) arguments callMeta w).

(** The bridge serves the tools of the catalog as they are, over its standard streams. *)
Definition RunStdioCatalogBridge (endpointURL sessionToken : string) (upstream : result string (list McpTool)) : result string ToolServer :=
  if blank endpointURL || blank sessionToken then Err "the catalog bridge needs the endpoint and the session token of a published catalog" else
  tools ← upstream; Ok (foldl (fun server tool => <[Tool_Name tool := tool]> server) (∅ : ToolServer) tools).

(** ** What is served was published *)

Lemma server_published {A} (tool_of : A -> option McpTool) descriptors name tool :
  (foldl (fun server d => match tool_of d with None => server | Some tool => <[Tool_Name tool := tool]> server end) (∅ : ToolServer) descriptors) !! name = Some tool ->
  Tool_Name tool = name /\ exists d, d ∈ descriptors /\ tool_of d = Some tool.
Proof.
  induction descriptors as [|d descriptors IH] using rev_ind; [cbn; by rewrite lookup_empty|]; rewrite foldl_app; cbn [foldl].
  destruct (tool_of d) as [found|] eqn:Hd.
  - destruct (decide (Tool_Name found = name)) as [<-|Hne].
    + rewrite lookup_insert_eq; intros [= <-]; split; [done|]; exists d; rewrite elem_of_app, list_elem_of_singleton; auto.
    + rewrite lookup_insert_ne by done; intros (Hn & d' & Hin & Hd')%IH; split; [done|]; exists d'; rewrite elem_of_app; auto.
  - intros (Hn & d' & Hin & Hd')%IH; split; [done|]; exists d'; rewrite elem_of_app; auto.
Qed.

(** An agent is served the tools published to it, and told the truth of them.  Every tool a catalog serves comes
    from the requester's own set; an agent with tools of its own is served none of the shell and file tools, and one
    without is served a tool the loop calls or the set can expose; the tool says it is read-only only when
    its class leaves the environment unchanged, and that the host gates it exactly when it requires an approval and the set it
    is called through has a gate. *)
Theorem catalogs_serve_what_is_published requesterToolSet server toolSet name tool :
  NewToolCatalogServer requesterToolSet = Ok (server, toolSet) -> server !! name = Some tool ->
  blank (RequesterPersonID requesterToolSet) = false /\ Tool_Name tool = name /\
  exists own d, tool_set requesterToolSet = Some own /\ Name d = name /\
    match audience requesterToolSet with
    | ToolAudienceSelfEquipped => d ∈ ListDescribedToolDefinitions own /\ (name ∉ harnessOwnedToolNames) /\ toolSet = own
    | ToolAudienceBare => d ∈ ListRegisteredToolDefinitions own /\ (isCallableByTheLoop own d = true \/ CanExpose own name = true)
    end /\
    ReadOnlyHint tool = LeavesEnvironmentUnchanged (SideEffectClass d) /\
    IsHostGated (Tool_Descriptor tool) = (RequiresApproval d && HasToolCallGate toolSet).
Proof.
  unfold NewToolCatalogServer; destruct (blank (RequesterPersonID requesterToolSet)); [done|]; destruct (tool_set requesterToolSet) as [own|]; [|done].
  intros [= <- <-] Htool; apply server_published in Htool as (Hn & d & Hin & Hd); split_and!; [done|done|].
  unfold servableTool in Hd; destruct (bool_decide _); [done|]; destruct (unmarshal_object _) as [schema|]; [|done]; injection Hd as <-; cbn [Tool_Name markedHostGated Name] in Hn.
  unfold markedOfferedOnRequest, publishedToolDescriptors, toolSetAllowingEveryPublishedTool in *; destruct (audience requesterToolSet); cbn in Hin.
  - apply list_elem_of_In, filter_In in Hin as [Hin%list_elem_of_In Hp]; exists own, d; cbn; split_and!; try done.
    unfold isPublishedToAudience in Hp; rewrite bool_decide_eq_true_2 in Hp by done; cbn [negb] in Hp; apply negb_true_iff, bool_decide_eq_false_1 in Hp; congruence.
  - apply list_elem_of_fmap in Hin as (d0 & -> & Hin); apply list_elem_of_In, filter_In in Hin as [Hin%list_elem_of_In Hp].
    exists own, d0; cbn in Hn |- *; split_and!; try done; apply orb_true_iff in Hp as [Hp|Hp]; [by left|right; congruence].
Qed.

(** A tool that publishes the shape of its results keeps it.  A call of a tool with an output schema
    that did not fail is answered with structured content, or as an error: never as a success without it;
    and a call whose result failed is answered as an error. *)
Theorem structured_results_are_never_missing requesterToolSet toolSet toolName arguments callMeta w w' answered :
  invokeThroughToolSet requesterToolSet toolSet toolName true arguments callMeta w = (w', Ok answered) ->
  IsError answered = true \/ is_Some (StructuredContent answered).
Proof.
  unfold invokeThroughToolSet; cbv zeta; destruct (Invoke _ _ _ _ _) as [w1 [toolResult [e|]]]; [done|]; intros [= _ <-]; unfold callToolResult; cbn [negb orb].
  destruct (Failed toolResult) eqn:Hf; [by left|]; destruct (if bool_decide _ then _ else _); [right; by eexists|by left].
Qed.

End catalog.

(** *** A set of two tools, for the witnesses *)

Definition toy_tool (name class : string) : ToolDescriptor := MkDescriptor name "" "{}" "{}" class true "" false false.

#[local] Instance catalog_toy_library : CatalogLibrary (list string) := {|
  JSON := string;
  CallMeta := unit;
  ToolSet := list ToolDescriptor;
  unmarshal_object document := Some document;
  unmarshal_any document := Some document;
  Failed result := match Failure result with Some _ => true | None => false end;
  ListDescribedToolDefinitions own := own;
  ListRegisteredToolDefinitions own := own;
  IsAllowed _ _ := true;
  IsBuiltInTool _ _ := false;
  CanExpose _ _ := true;
  HasToolCallGate _ := true;
  WithAllowedToolNames own _ := own;
  Invoke _ taskRunID name _ w := ((w ++ [taskRunID; name])%list, (MkResult None "done" "{}" [], None));
  BashToolName := "bash"; FileReadToolName := "file_read"; WriteToolName := "write"; EditToolName := "edit"; FilePreviewToolName := "file_preview";
  ImageReadToolName := "image_read"; PlanToolName := "plan"; EquipToolName := "equip"; SkillSearchToolName := "skill_search";
  ToolVisibilityInternal := "internal";
  ToolSideEffectRead := "read"; ToolSideEffectNone := "none"; ToolSideEffectComputation := "computation"; ToolSideEffectDestructive := "destructive";
|}.

Definition toy_requester : RequesterToolSet (World := list string) :=
  MkToolSet "p1" " run-1 " (Some [toy_tool "bash" "destructive"; toy_tool "note_read" "read"]) ToolAudienceSelfEquipped None None.

Lemma catalogs_serve_what_is_published_witness :
  match NewToolCatalogServer toy_requester with
  | Ok (server, toolSet) => server !! "bash" = None /\
    exists tool, server !! "note_read" = Some tool /\ ReadOnlyHint tool = true /\ blank (RequesterPersonID toy_requester) = false
  | Err _ => False
  end.
Proof.
  destruct (NewToolCatalogServer toy_requester) as [[server toolSet]|e] eqn:Hs; [|by vm_compute in Hs].
  assert (Hbash : server !! "bash" = None) by (vm_compute in Hs; injection Hs as <- <-; by vm_compute); split; [exact Hbash|].
  destruct (server !! "note_read") as [tool|] eqn:Ht; [|vm_compute in Hs; injection Hs as <- <-; by vm_compute in Ht].
  exists tool; destruct (catalogs_serve_what_is_published toy_requester server toolSet "note_read" tool Hs Ht) as (Hp & _ & _); split; [done|split; [|exact Hp]].
  vm_compute in Hs; injection Hs as <- <-; vm_compute in Ht; injection Ht as <-; by vm_compute.
Defined.

Lemma structured_results_are_never_missing_witness `{UnicodeTables} :
  match invokeThroughToolSet toy_requester [] "note_read" true "{}" tt [] with
  | (w', Ok answered) => w' = ["run-1"; "note_read"] /\ (IsError answered = true \/ is_Some (StructuredContent answered))
  | _ => False
  end.
Proof.
  split; [by vm_compute|]; by eapply (structured_results_are_never_missing toy_requester [] "note_read" "{}" tt []).
Defined.
End Catalog.

(** ** The harness a deployment runs ([harnessselection/selection.go]) *)

Module Selection.
Import AcpHarness.

Definition BundledACPHarnessName : string := "bluecollar-acp".
Definition ExternalHarnessName : string := "acp".
Definition ClaudeCodeHarnessName : string := "claude-code".
Definition CodexHarnessName : string := "codex".
Definition AntigravityHarnessName : string := "antigravity".

Record HarnessConfiguration := MkConfiguration { Name : string; AgentCommandPath : string; AgentArguments : list string }.

#[local] Existing Instance CliHarness.host_documents.

Section selection.
Context {World : Type} `{AcpHost World} `{CliHarness.AgentHost World}.

(** An actor of the boundary, as a harness that runs commands sees it. *)
Context (runs_commands : acp_Actor -> CliHarness.Actor).

Abbreviation Runner := (string -> string -> World -> World * result string (acp_Actor * bool)).
Abbreviation Asker := (ApprovalGate.ApprovalRequest -> ApprovalGate.HarnessPermissionQuestion -> World -> World * (option string * ApprovalGate.AskStatus)).

Record ToolCatalogEndpoint := MkEndpoint { URL : string; hasResolver : bool; gate : option Asker; BridgeCommandPath : string }.

Record SandboxProcessBoundary := MkBoundary { boundary_Runner : option Runner; boundary_WorkspaceRootPath : string }.

(** What a factory makes a harness of: the service's store of runs, and the model that judges turns. *)
Record Dependencies := MkDependencies { has_store : bool; IntakeLanguageModelProvider : option (string -> result string string) }.

(** The harness of a factory: the bundled one, one of the agent client protocol, or one that runs a command. *)
Inductive Factory :=
| BundledFactory (endpointURL : string)
| ExternalFactory (make : Dependencies -> Harness (World := World))
| CommandFactory (make : Dependencies -> CliHarness.Harness (World := World)).

(** The runner of the boundary for a harness that runs commands. *)
Definition command_runner (runner : Runner) (person root : string) (w : World) : World * result string CliHarness.Actor :=
  let '(w, found) := runner person root w in
  (w, match found with Ok (actor, _) => Ok (runs_commands actor) | Err e => Err e end).

Definition refuse_without (harnessName : string) (what : string) : string := "harness " +:+ harnessName +:+ " " +:+ what.

Definition published (endpoint : ToolCatalogEndpoint) : bool := hasResolver endpoint && negb (blank (URL endpoint)).

Definition externalHarnessFactory (configuration : HarnessConfiguration) (endpoint : ToolCatalogEndpoint) (boundary : SandboxProcessBoundary)
    : result string Factory :=
  if blank (AgentCommandPath configuration) then Err (refuse_without ExternalHarnessName "needs agent.harness.agentCommandPath") else
  if negb (published endpoint) then Err (refuse_without ExternalHarnessName "needs a published tool catalog") else
  match boundary_Runner boundary with
  | None => Err (refuse_without ExternalHarnessName "may only run inside the requester's POSIX identity")
  | Some runner =>
    Ok (ExternalFactory (fun dependencies =>
      MkHarness (Some (CommandProcess (MkCommand (AgentCommandPath configuration) (AgentArguments configuration) "" []))) (Some (URL endpoint))
        (has_store dependencies) (gate endpoint) (Some runner) (boundary_WorkspaceRootPath boundary) (IntakeLanguageModelProvider dependencies)
        (BridgeCommandPath endpoint) None "" None "" None false false))
  end.

Definition commandHarnessFactory (harnessName : string) (agentCommand : CliHarness.AgentCommand) (configuration : HarnessConfiguration)
    (endpoint : ToolCatalogEndpoint) (boundary : SandboxProcessBoundary) : result string Factory :=
  if blank (AgentCommandPath configuration) then Err (refuse_without harnessName "needs agent.harness.agentCommandPath") else
  if negb (published endpoint) then Err (refuse_without harnessName "needs a published tool catalog") else
  match boundary_Runner boundary with
  | None => Err (refuse_without harnessName "may only run inside the requester's POSIX identity")
  | Some runner =>
    Ok (CommandFactory (fun dependencies =>
      let harness := CliHarness.New agentCommand (URL endpoint) in
      let harness := CliHarness.UseOutcomeClassifier (IntakeLanguageModelProvider dependencies) harness in
      CliHarness.UseRequesterProcessRunner (command_runner runner) (boundary_WorkspaceRootPath boundary) harness))
  end.

Definition bundledACPHarnessFactory (hasBundledACPFactory : bool) (endpoint : ToolCatalogEndpoint) : result string Factory :=
  if negb hasBundledACPFactory then Err (refuse_without BundledACPHarnessName "is not part of this build") else
  if negb (published endpoint) then Err (refuse_without BundledACPHarnessName "needs a published tool catalog") else
  Ok (BundledFactory (URL endpoint)).

Definition Select (configuration : HarnessConfiguration) (endpoint : ToolCatalogEndpoint) (boundary : SandboxProcessBoundary) (hasBundledACPFactory : bool)
    : result string Factory :=
  let harnessName := TrimSpace (Name configuration) in
  let commandPath := TrimSpace (AgentCommandPath configuration) in
  if bool_decide (harnessName = "") || bool_decide (harnessName = BundledACPHarnessName) then bundledACPHarnessFactory hasBundledACPFactory endpoint else
  if bool_decide (harnessName = ExternalHarnessName) then externalHarnessFactory configuration endpoint boundary else
  if bool_decide (harnessName = ClaudeCodeHarnessName)
  then commandHarnessFactory ClaudeCodeHarnessName (CliHarness.ClaudeCodeAgentCommand commandPath) configuration endpoint boundary else
  if bool_decide (harnessName = CodexHarnessName)
  then commandHarnessFactory CodexHarnessName (CliHarness.CodexAgentCommand commandPath) configuration endpoint boundary else
  if bool_decide (harnessName = AntigravityHarnessName)
  then commandHarnessFactory AntigravityHarnessName (CliHarness.AntigravityAgentCommand commandPath) configuration endpoint boundary
  else Err ("unknown harness " +:+ harnessName).

(** What a command harness was selected with. *)
Lemma commandHarnessFactory_made harnessName command configuration endpoint boundary factory :
  commandHarnessFactory harnessName command configuration endpoint boundary = Ok factory ->
  published endpoint = true /\ exists runner make, boundary_Runner boundary = Some runner /\ factory = CommandFactory make /\
    forall dependencies, CliHarness.requesterProcessRunner (make dependencies) = Some (command_runner runner) /\
      CliHarness.harness_agentCommand (make dependencies) = command /\
      CliHarness.harness_workspaceRootPath (make dependencies) = boundary_WorkspaceRootPath boundary.
Proof.
  unfold commandHarnessFactory; destruct (blank _); [done|]; destruct (published endpoint); [|done]; destruct (boundary_Runner boundary) as [runner|]; [|done].
  intros [= <-]; split; [done|]; by exists runner, (fun dependencies => CliHarness.UseRequesterProcessRunner (command_runner runner) (boundary_WorkspaceRootPath boundary)
    (CliHarness.UseOutcomeClassifier (IntakeLanguageModelProvider dependencies) (CliHarness.New command (URL endpoint)))).
Qed.

(** A runner of requesters finds the actor of a person without running anything. *)
Definition finds_quietly `{!CliHarness.AgentLaws World} (runner : Runner) : Prop :=
  forall person root w, CliHarness.runs (runner person root w).1 = CliHarness.runs w.

(** What a turn of a command harness runs: the program the configuration names, at most once, in the workspace of the turn,
    as the actor the runner of the boundary found for the person who asks. *)
Definition runs_only_as_the_requester `{!CliHarness.AgentLaws World} (runner : Runner) (commandPath rootPath : string) (request : CliHarness.AgentTurnRequest)
    (before after : World) : Prop :=
  CliHarness.runs after = CliHarness.runs before \/
  exists actor run host0 can_start, CliHarness.runs after = (CliHarness.runs before ++ [(CliHarness.AsRequester (runs_commands actor), run)])%list /\
    CliHarness.Run_ExecutableName run = commandPath /\ CliHarness.Run_WorkingDirectoryPath run = CliHarness.Turn_WorkspaceRootPath request /\
    (runner (CliHarness.Turn_RequesterPersonID request) (if blank rootPath then CliHarness.Turn_WorkspaceRootPath request else rootPath) host0).2 = Ok (actor, can_start).

Lemma command_turns_confined `{!CliHarness.AgentLaws World} harness runner commandPath rootPath request w : finds_quietly runner ->
  CliHarness.requesterProcessRunner harness = Some (command_runner runner) -> CliHarness.Path (CliHarness.harness_agentCommand harness) = commandPath ->
  CliHarness.harness_workspaceRootPath harness = rootPath ->
  runs_only_as_the_requester runner commandPath rootPath request (CliHarness.outside w) (CliHarness.outside (CliHarness.RunTurn harness request w).1).
Proof.
  intros Hquiet Hrunner <- <-; destruct (CliHarness.RunTurn_runs harness (command_runner runner) request w Hrunner) as (made & Hm & Hmade).
  { intros person root w0; unfold command_runner; specialize (Hquiet person root w0); by destruct (runner person root w0). }
  destruct made as [|[[who|] run] [|]]; try done; [left; by rewrite Hm, app_nil_r|right].
  destruct Hmade as (Hpath & Hdir & host0 & Hfound); unfold command_runner in Hfound.
  destruct (runner _ _ host0) as [w1 [[actor can_start]|e]] eqn:Hrun; cbn [snd] in Hfound; [|done]; injection Hfound as <-.
  exists actor, run, host0, can_start; split_and!; [done..|by rewrite Hrun].
Qed.

(** C37. An agent of others runs only as the person who asks.  A harness that brings an agent with tools of its own
    is selected only where the processes of requesters are configured and a catalog is published.  A conversation of an
    external harness with its agent is one with the program that is configured, started as the actor found for the requester; and every
    turn of a harness for Claude Code, Codex or Antigravity runs nothing but the program that is configured, at most once, in the workspace of the turn
    and as the actor found for the requester, where finding it runs nothing itself. *)
Theorem outside_agents_are_confined `{!CliHarness.AgentLaws World} configuration endpoint boundary hasBundled factory :
  Select configuration endpoint boundary hasBundled = Ok factory ->
  match factory with
  | BundledFactory _ => TrimSpace (Name configuration) = "" \/ TrimSpace (Name configuration) = BundledACPHarnessName
  | ExternalFactory make => forall dependencies request script w w' s ended,
      RunTurn (make dependencies) request script w = Some (w', Some s, ended) ->
      exists runner actor host0, boundary_Runner boundary = Some runner /\
      let root := if blank (boundary_WorkspaceRootPath boundary) then WorkspaceRootPath request else boundary_WorkspaceRootPath boundary in
      (runner (RequesterPersonID request) root host0).2 = Ok (actor, true) /\
      (start_process (CliHarness.AsRequester actor)
        (requester_process (MkCommand (AgentCommandPath configuration) (AgentArguments configuration) "" []) (WorkspaceRootPath request))
        (runner (RequesterPersonID request) root host0).1).2 = None
  | CommandFactory make => exists runner, boundary_Runner boundary = Some runner /\
      (finds_quietly runner -> forall dependencies request w,
        runs_only_as_the_requester runner (TrimSpace (AgentCommandPath configuration)) (boundary_WorkspaceRootPath boundary) request
          (CliHarness.outside w) (CliHarness.outside (CliHarness.RunTurn (make dependencies) request w).1))
  end /\ published endpoint = true.
Proof.
  unfold Select, bundledACPHarnessFactory, externalHarnessFactory.
  destruct (_ || _) eqn:Hbundled.
  { destruct (negb hasBundled); [done|]; destruct (published endpoint); [|done]; intros [= <-]; split; [|done]; by apply orb_true_iff in Hbundled as [?%bool_decide_eq_true_1|?%bool_decide_eq_true_1]; [left|right]. }
  destruct (bool_decide (_ = ExternalHarnessName)).
  - destruct (blank (AgentCommandPath configuration)); [done|]; destruct (published endpoint); [|done]; destruct (boundary_Runner boundary) as [runner|]; [|done].
    intros [= <-]; split; [|done]; intros dependencies request script w w' s ended Hrun; exists runner.
    pose proof (fun Hrunner => RunTurn_started _ request runner script w w' s ended Hrunner Hrun) as Hstarted; specialize (Hstarted eq_refl); destruct (acp_newSessionToken (outside w)) as [host0 bearerToken].
    destruct Hstarted as (command & actor & endpointURL & host' & [= <-] & _ & Hactor & Hstart & _).
    exists actor, host0; split_and!; [done|done|]; cbn in Hstart |- *; by rewrite Hstart.
  - assert (Hcommand : forall harnessName command, CliHarness.Path command = TrimSpace (AgentCommandPath configuration) ->
      commandHarnessFactory harnessName command configuration endpoint boundary = Ok factory -> exists runner make, boundary_Runner boundary = Some runner /\
        factory = CommandFactory make /\ published endpoint = true /\ (finds_quietly runner -> forall dependencies request w,
        runs_only_as_the_requester runner (TrimSpace (AgentCommandPath configuration)) (boundary_WorkspaceRootPath boundary) request
          (CliHarness.outside w) (CliHarness.outside (CliHarness.RunTurn (make dependencies) request w).1))).
    { intros harnessName command Hpath (Hp & runner & make & Hrunner & -> & Hmade)%commandHarnessFactory_made; exists runner, make; split_and!; [done..|].
      intros Hquiet dependencies request w; destruct (Hmade dependencies) as (Hr & Hc & Hroot); apply command_turns_confined; [done|done|by rewrite Hc|done]. }
    repeat (match goal with |- (if ?named then _ else _) = _ -> _ => destruct named end;
      [intros (runner & make & Hrunner & -> & Hp & Hturns)%Hcommand; [|done]; split; [by exists runner|done]|]); done.
Qed.

End selection.

(** *** A deployment of Codex *)

#[local] Existing Instance CliHarness.toy_host.
#[local] Existing Instance CliHarness.toy_laws.

#[local] Instance selection_host : AcpHost CliHarness.toy_world := {|
  Meta := unit;
  ledger_of_meta _ := None;
  ledgers_of_meta _ := None;
  checkpoint_marker _ _ := None;
  turn_result_of_meta _ _ := None;
  EventBody := Record_Text;
  unmarshal_string _ document := document;
  json_valid _ := true;
  json_quote document := document;
  marshal_permission _ _ _ _ _ := None;
  ToolTaskEventToolName _ _ := None;
  TaskEventAskRequested := "ask.requested";
  TaskEventAgentInputRequested := "agent.input_requested";
  TaskEventTaskSteerRequested := "task.steer.requested";
  TaskEventHarnessToolPermitted := "harness.permitted";
  TaskEventHarnessToolRefused := "harness.refused";
  ToolTaskEventPrefix := "tool.";
  ToolTaskEventCancelledSuffix := ".cancelled";
  ToolTaskEventRequestedSuffix := ".requested";
  LedgerMetaKey := "ledger";
  CarriedOutCallMetaKey := "carried";
  AgentPartTypeImage := "image";
  Preamble _ := "";
  DeclinedCallNote _ := "";
  ListTaskEvent _ _ := [];
  AppendTaskEvent _ _ w := (w, []);
  FindTaskRun _ _ := None;
  CompleteTaskRun _ _ w := w;
  FailTaskRun _ _ w := w;
  PauseTaskRun _ _ _ w := w;
  AdvanceTaskRun _ _ w := w;
  narrate _ w := w;
  send_checkpoint _ _ _ w := w;
  acp_newSessionToken w := (w, "token");
  acp_Actor := string;
  start_process _ _ w := (w, None);
  start_inside w := (w, None);
  acp_other_turns tokens := tokens;
|}.

Definition unix_user (person : string) : string := "user-of-" +:+ person.

Definition codex_runner (person root : string) (w : CliHarness.toy_world) : CliHarness.toy_world * result string (string * bool) := (w, Ok (unix_user person, true)).

Definition codex_boundary : SandboxProcessBoundary (World := CliHarness.toy_world) := MkBoundary (Some codex_runner) "/workspaces".
Definition codex_endpoint : ToolCatalogEndpoint (World := CliHarness.toy_world) := MkEndpoint "https://catalog" true None "".

Definition codex_actor (actor : @acp_Actor CliHarness.toy_world selection_host) : @CliHarness.Actor CliHarness.toy_world CliHarness.toy_host := actor.

Definition codex_make (dependencies : Dependencies) : CliHarness.Harness (World := CliHarness.toy_world) :=
  CliHarness.UseRequesterProcessRunner (command_runner codex_actor codex_runner) "/workspaces"
    (CliHarness.UseOutcomeClassifier (IntakeLanguageModelProvider dependencies) (CliHarness.New (CliHarness.CodexAgentCommand "/bin/codex") "https://catalog")).

Lemma outside_agents_are_confined_witness :
  let ran := CliHarness.outside (CliHarness.RunTurn (codex_make (MkDependencies true None)) CliHarness.toy_turn CliHarness.toy_start).1 in
  Select codex_actor (MkConfiguration " codex " " /bin/codex " []) codex_endpoint codex_boundary true = Ok (CommandFactory codex_make) /\
  ((fun '(who, run) => (who, CliHarness.Run_ExecutableName run)) <$> CliHarness.toy_runs ran) = [(CliHarness.AsRequester "user-of-p1", "/bin/codex")] /\
  runs_only_as_the_requester codex_actor codex_runner "/bin/codex" "/workspaces" CliHarness.toy_turn (CliHarness.outside CliHarness.toy_start) ran.
Proof.
  intros ran; assert (Hs : Select codex_actor (MkConfiguration " codex " " /bin/codex " []) codex_endpoint codex_boundary true = Ok (CommandFactory codex_make))
    by reflexivity.
  split; [exact Hs|]; split; [by vm_compute|].
  destruct (outside_agents_are_confined codex_actor _ _ _ _ _ Hs) as [(runner & Hrunner & Hturns) _].
  injection Hrunner as <-; exact (Hturns ltac:(done) (MkDependencies true None) CliHarness.toy_turn CliHarness.toy_start).
Defined.
End Selection.
